(* ===== verification/_CoqProject ===== *)
-Q . S2P
Prelude.v
Memory.v
Allocator.v
Global.v
Bitmap.v
Watermark.v
PageTable.v
Walk.v
Paging.v
AddressSpace.v
BootPaging.v
BootHandover.v
Elf.v
ElfLink.v
ElfLoad.v
VirtualMemory.v
RangedBtree.v
VirtAlloc.v
Mapping.v
MappingClients.v
Acpi.v
Bmp.v
OldMapping.v
Heap.v
HeapBoot.v
RwLock.v
Interrupts.v
Spinlock.v
Once.v
BootstrapOnce.v
Scheduler.v
Machine.v
IrqEntry.v
Descriptors.v
Threads.v
Executor.v
FontFormat.v
OpenSans.v
Quicksand.v
Quicksand256.v
SfSymbols.v
Fonts.v
Cursor.v
Config.v
Targa.v
Psf.v
Tui.v
LinkedList.v
