(* ===== verification/Prelude.v ===== *)
(** * popcorn-2: a verification development

    popcorn-2 is an operating system for amd64: a UEFI bootloader, a kernel, and
    the crates they share.  Source paths below are relative to [src/].

    ** The parts and how they interact

    The bootloader draws its menu with the fonts, the pointer and the settings of
    [fonts/] and [bootloader/lvgl/], writes text with PSF fonts, loads the kernel's
    file into page tables of its own and starts the kernel on them.  The kernel takes
    its first frames from the watermark allocator, hands the rest of the memory over
    to the bitmap allocator, and from then on every frame comes from it through the
    global allocators.  Page tables are made of frames; pages come from an allocator
    of virtual ranges, which keeps them in a ranged map.  A mapping owns frames, pages
    and the table entries that connect them; the heap grows inside a mapping, and
    tables and images of the firmware are read through mappings of the frames they
    are in.  Locks, one-time cells, the scheduler and the executor of asynchronous
    tasks are used by all of them.  Interrupts reach the kernel through the descriptor
    tables it fills at start-up, and threads give the core to each other.

    ** The files

    - this file: panics ([outcome]) and errors ([result]) as values, arithmetic of
      64-bit integers with its overflow checks, buffers of bytes, loops, and the
      lemmas, tactics and hints that all other files share.
    - [Memory]: [kernel_api/src/memory/mod.rs] and [type_ops.rs], addresses, frames
      and pages, one module per type.
    - [Allocator]: the trait [BackingAllocator] of [allocator.rs] as a class, and
      its laws, [LawfulAllocator] and [ReclaimingAllocator], against which the users
      of frames are verified.  [Global]: [kernel_api/src/memory/physical.rs] and
      [kernel/src/memory/physical.rs], as an instance of the class.
    - [Bitmap]: [bitmap_allocator/]; [Watermark]:
      [kernel/src/memory/watermark_allocator.rs] and the hand-over.  Both are
      instances of the class, and of its laws where they keep them.
    - [PageTable], [Paging]: the entries, tables and operations of
      [kernel/src/hal/arch/amd64/paging.rs] and [paging2/], on a memory of 64-bit
      words.  [Walk]: how a memory that holds several tables is read and changed.
      [AddressSpace]: what the tables of all address spaces mean, as a map from
      pages to frames, which the operations refine.
    - [BootPaging]: the table builder of [bootloader/src/paging.rs], on the same
      memory.  [BootHandover]: what the kernel finds in the tables it starts with.
    - [Elf], [ElfLink]: the reader of ELF files of [elf/]: headers, segments and
      addresses in the first, symbols, relocation and linking in the second.
      [ElfLoad]: [bootloader/src/elf.rs], which loads the kernel with all of these.
    - [VirtualMemory]: the trait [VirtualAllocator] as a class with its laws, and
      the bootstrap instance of [kernel_api/src/memory/virtual.rs].
      [RangedBtree]: [ranged_btree/]; [VirtAlloc]: [ranged_btree_allocator/], the
      instance the kernel uses.
    - [Mapping], [MappingClients], [OldMapping]: [kernel_api/src/memory/mapping.rs];
      the second follows a program that makes and drops mappings.
    - [Acpi]: the regions of physical memory of [kernel/src/hal/acpi/mod.rs], on a
      mapping.  [Bmp]: [kernel/src/bmp.rs] and the loop of [kernel/src/main.rs] that
      draws the logo, on such regions.
    - [Heap], [HeapBoot]: [kernel_default_heap/], on a mapping; the second runs the
      heap on the boot-time tables.
    - [RwLock], [Spinlock], [Once], [BootstrapOnce]: [kernel_api/src/sync/], as step
      relations of any number of threads.  [Interrupts]: the interrupt flag of
      [kernel/src/hal/arch/amd64/mod.rs].
    - [Machine]: a core with its registers and words of memory, and the instructions of
      the kernel's assembly.  [IrqEntry]: the entry, dispatch and exit of interrupts of
      [kernel/src/hal/arch/amd64/mod.rs], on it.  [Descriptors]: [gdt.rs], [tss.rs] and
      [idt.rs] beside it, as [early_init] fills them and the processor reads them.
    - [Scheduler]: [kernel/src/threading/].  [Threads]: the context switch and the
      making of threads, on the scheduler and a core.  [Executor]: [kernel/src/task/], with the
      queue it uses and the futures as classes.
    - [FontFormat], [OpenSans], [Quicksand], [Quicksand256], [SfSymbols], [Fonts]:
      the C tables of [fonts/] and the lookup the format prescribes.
      [Cursor]: [fonts/cursor.c].  [Config]: [bootloader/lvgl/lv_conf.h], run by a
      model of the preprocessor.
    - [Targa]: [targa/]; [Psf]: [psf/]; [Tui]: the text console of
      [bootloader/src/framebuffer/mod.rs].
    - [LinkedList]: [mm/dmm/slab_allocator/src/linked_list.rs], on a heap of boxes.

    ** How the code is translated

    A function that may panic returns an [outcome]; one that returns a [Result]
    returns a [result] in it; a method that changes its object returns the new
    object beside its answer.  [usize] and [u64] values are integers and every
    addition, subtraction and product that the compiler checks is checked.
    [Undefined] marks what the language leaves undefined: a read outside a buffer,
    an invalid value.  Traits are classes, and their contracts are classes of laws.
    Code that runs under a mutex is one step; code that shares an atomic word is
    split at each access to it, and the accesses are sequentially consistent, which
    for one word is what the orderings in the code give.  A shared value that is not
    atomic and can be read while it is written has a beginning and an end of its write.  Processor registers,
    tables in memory and firmware are explicit state or parameters.

    ** What the theorems show

    - Frames: the bitmap allocator hands out only frames that were free, aligned and as
      many as asked for, takes exactly those, refuses only when there is no such run, and
      never hands a frame to two owners; freeing restores it.  The boot allocator hands
      out frames of the memory map, and none of them twice, until it refuses a request:
      after that it can hand out frames that are in no region.  At the hand-over the runs at or above its last one stay in use; runs
      below it, which there are once a third region is needed, are forgotten.
    - Page tables: mapping, unmapping and translating a page change and read exactly
      that page of that address space; new address spaces share the kernel half.
      The tables the bootloader builds satisfy the invariant of the kernel's, whose
      lookup gives for every page the frame the bootloader mapped it to, or nothing.
    - Loading: files are read back as they were written, addresses lead to the bytes
      of their segments, relocation and linking write exactly the words they should,
      and the bootloader puts every byte of the kernel at its address.
    - Virtual memory: ranges that are handed out are disjoint and come back whole.
    - Mappings and the heap: the pages of a mapping of frames from the global allocator
      lead to its frames in order, a failure gives everything back, dropping it restores
      allocators and tables, and no two such mappings share memory, nor do two blocks of
      the heap.  Requests are inside the range of the page allocator.
    - Regions: each byte of a region is the byte of physical memory asked for, and
      unmapping it restores the tables.  A logo of 24 bits a pixel, stored from the
      bottom up, appears on the screen pixel by pixel.
    - Locks and cells: exclusion, the meaning of the lock word, initialisation at
      most once and no read of uninitialised memory, in every reachable state.  The value
      of a [BootstrapOnceLock] is not used during a write by those who took it when it
      was initialised; those who took the stand-in may race with the write over it.
    - Interrupts: the processor finds the handler of every vector through the tables,
      and the code that is interrupted goes on with the registers, flags and stack it had,
      if the handler keeps to its calling convention on a stack eight bytes off the
      alignment of the convention, as the entry calls it.
    - Scheduler: the queue and the table stay consistent and threads take turns.
    - Threads: a new thread starts in its startup function and goes on to its main
      function, and one that gave up the core goes on behind its call with its registers,
      its stack and its page table, whatever ran in between.
    - Executor: as long as a task is woken only when it is alive and not in the queue, and
      does not wake itself when it is ready, no turn panics and the tasks are polled in
      the order of the queue.
    - Bootloader: the character maps lead to the bitmaps listed for the characters;
      the four versions of the pointer agree; the configuration settles the same macros
      whatever is defined before it, consistently with the code that depends on it;
      fonts and images are parsed without a read outside the buffer and come back out of
      their files; the text console draws each character where the cursor stands and
      nothing outside the screen.
    - The linked list refines lists of values and frees exactly what it made.

    Theorems about flaws are kept beside the others and say in which case the code
    panics, loses memory or waits for ever.

    ** Bounds and fuel

    [trailing_zeros] looks at 64 bits, the width of a word.  Loops over ranges and
    collections are recursive on the list they run over.  [Targa.collect],
    [Bmp.draw_pixels] and the loops of [LinkedList] run with fuel, and theorems show
    that one turn more than there are pixels or nodes is enough.  The retry loops of
    the locks and the endless loop of the executor are steps of a relation and need
    no fuel.

    ** Not modelled

    - The graphics library, which is a submodule, and the bindings to it; the
      graphical menu beyond its texts; firmware protocols.
    - Interrupt controllers, serial ports and timers: sequences of accesses to the
      registers of devices, whose behaviour is not in the sources.  Of the processor, what
      delivery of an interrupt, [iretq], [ltr] and the instructions of the assembly do is
      defined in [Machine], [IrqEntry] and [Descriptors]; caches of translations and the
      segment registers other than [cs] and [ss] are left out.
    - What finds the tables of the firmware, which is a library, and the progress bar
      that is drawn below the logo.
    - [kernel/src/resource/], which is not part of the kernel that is built.
    - [Debug] and [Display] output, logging, tests, build tools and macros.
    - The other code of [mm/], which is unfinished and which nothing uses. *)

From stdpp Require Import base gmap list numbers strings option.

Open Scope Z_scope.

(** ** Panics and results *)

(** Why a Rust computation stopped.  The model is the one of the [dev] profile:
    arithmetic overflow is checked and [debug_assert] is active.  [Undefined] is
    no panic: an unchecked access out of bounds or an invalid value. *)
Inductive panic_reason :=
  | ArithmeticOverflow
  | IndexOutOfBounds
  | AssertionFailed
  | UnwrapFailed
  | NotImplemented
  | DivisionByZero
  | Undefined.

(** A Rust computation that may panic. *)
Inductive outcome (A : Type) :=
  | Ret (a : A)
  | Panic (r : panic_reason).
Arguments Ret {A} a.
Arguments Panic {A} r.

(** [core::result::Result]. *)
Inductive result (A E : Type) :=
  | Ok (a : A)
  | Err (e : E).
Arguments Ok {A E} a.
Arguments Err {A E} e.

#[global] Instance outcome_ret : MRet outcome := @Ret.
#[global] Instance outcome_bind : MBind outcome := λ A B f m,
  match m with Ret a => f a | Panic r => Panic r end.

#[global] Instance panic_reason_eq_dec : EqDecision panic_reason.
Proof. solve_decision. Defined.
#[global] Instance outcome_eq_dec `{EqDecision A} : EqDecision (outcome A).
Proof. solve_decision. Defined.
#[global] Instance result_eq_dec `{EqDecision A, EqDecision E} : EqDecision (result A E).
Proof. solve_decision. Defined.

(** [Option::expect] and [Option::unwrap]. *)
Definition expect {A} (o : option A) : outcome A :=
  match o with Some a => Ret a | None => Panic UnwrapFailed end.

(** [Result::expect] and [Result::unwrap]. *)
Definition expect_ok {A E} (r : result A E) : outcome A :=
  match r with Ok a => Ret a | Err _ => Panic UnwrapFailed end.

(** [assert!]. *)
Definition assert (b : bool) : outcome unit :=
  if b then Ret tt else Panic AssertionFailed.

(** Slice indexing, [l[i]] with the bounds check. *)
Definition index {A} (l : list A) (i : Z) : outcome A :=
  match l !! Z.to_nat i with
  | Some a => if 0 <=? i then Ret a else Panic IndexOutOfBounds
  | None => Panic IndexOutOfBounds
  end.

(** A byte of a buffer that is known to be long enough, and two of them as a
    little-endian [u16]. *)
Definition byte_at (l : list Z) (i : nat) : Z := default 0 (l !! i).
Definition u16_at (l : list Z) (i : nat) : Z := byte_at l i + 256 * byte_at l (S i).
Definition u32_at (l : list Z) (i : nat) : Z := u16_at l i + 65536 * u16_at l (S (S i)).

Definition is_byte (b : Z) : Prop := 0 ≤ b < 256.

(** [get_unchecked(s..s+n)] and [from_raw_parts]: a slice without a bounds check. *)
Definition slice_unchecked (l : list Z) (s n : Z) : outcome (list Z) :=
  if (0 <=? s) && (s + n <=? Z.of_nat (length l)) then Ret (take (Z.to_nat n) (drop (Z.to_nat s) l))
  else Panic Undefined.

(** A [for] loop whose body updates [s] and may panic. *)
Fixpoint for_each {A S} (l : list A) (body : A → S → outcome S) (s : S) : outcome S :=
  match l with
  | [] => Ret s
  | a :: l => s' ← body a s; for_each l body s'
  end.

(** ** [usize] arithmetic, 64 bits wide *)

Abbreviation usize_max := 18446744073709551615.

Definition is_usize (x : Z) : Prop := 0 ≤ x ≤ usize_max.

Definition usize_add (a b : Z) : outcome Z :=
  if a + b <=? usize_max then Ret (a + b) else Panic ArithmeticOverflow.

Definition usize_sub (a b : Z) : outcome Z :=
  if b <=? a then Ret (a - b) else Panic ArithmeticOverflow.

Definition usize_mul (a b : Z) : outcome Z :=
  if a * b <=? usize_max then Ret (a * b) else Panic ArithmeticOverflow.

Definition checked_add (a b : Z) : option Z :=
  if a + b <=? usize_max then Some (a + b) else None.

Definition checked_sub (a b : Z) : option Z :=
  if b <=? a then Some (a - b) else None.

Definition checked_mul (a b : Z) : option Z :=
  if a * b <=? usize_max then Some (a * b) else None.

(** [a / b]. *)
Definition usize_div (a b : Z) : outcome Z :=
  if b =? 0 then Panic DivisionByZero else Ret (a / b).

(** [!x] on a [usize]. *)
Definition usize_not (x : Z) : Z := Z.lxor x (Z.ones 64).

(** [x << n]: the shift amount is checked, the bits shifted out are lost. *)
Definition usize_shl (x n : Z) : outcome Z :=
  if n <? 64 then Ret (Z.land (Z.shiftl x n) (Z.ones 64)) else Panic ArithmeticOverflow.

(** [x >> n]. *)
Definition usize_shr (x n : Z) : outcome Z :=
  if n <? 64 then Ret (Z.shiftr x n) else Panic ArithmeticOverflow.

(** [usize::trailing_zeros]: the number of zero bits below the first one. *)
Fixpoint trailing_zeros_from (fuel : nat) (x i : Z) : Z :=
  match fuel with
  | O => i
  | S fuel => if Z.testbit x i then i else trailing_zeros_from fuel x (i + 1)
  end.

Definition trailing_zeros (x : Z) : Z := trailing_zeros_from 64 x 0.

(** ** Automation *)

Arguments outcome_bind A B f !m /.

Create HintDb popcorn.

(** Evaluates checked arithmetic whose side conditions [lia] can prove. *)
Create Rewrite HintDb rust.

Lemma usize_add_ok a b : a + b ≤ usize_max → usize_add a b = Ret (a + b).
Proof. intros. unfold usize_add. by rewrite (proj2 (Z.leb_le _ _)). Qed.

Lemma usize_sub_ok a b : b ≤ a → usize_sub a b = Ret (a - b).
Proof. intros. unfold usize_sub. by rewrite (proj2 (Z.leb_le _ _)). Qed.

Lemma usize_mul_ok a b : a * b ≤ usize_max → usize_mul a b = Ret (a * b).
Proof. intros. unfold usize_mul. by rewrite (proj2 (Z.leb_le _ _)). Qed.

Lemma ret_bind {A B} (a : A) (f : A → outcome B) : (Ret a ≫= f) = f a.
Proof. done. Qed.

#[export] Hint Rewrite @ret_bind : rust.
#[export] Hint Rewrite usize_add_ok usize_sub_ok usize_mul_ok using lia : rust.

Lemma bind_Ret {A B} (m : outcome A) (f : A → outcome B) b :
  (m ≫= f) = Ret b ↔ ∃ a, m = Ret a ∧ f a = Ret b.
Proof. destruct m; simpl; naive_solver. Qed.

Lemma usize_add_Ret a b c : usize_add a b = Ret c ↔ c = a + b ∧ a + b ≤ usize_max.
Proof. unfold usize_add. destruct (Z.leb_spec (a + b) usize_max); naive_solver lia. Qed.

Lemma usize_sub_Ret a b c : usize_sub a b = Ret c ↔ c = a - b ∧ b ≤ a.
Proof. unfold usize_sub. destruct (Z.leb_spec b a); naive_solver lia. Qed.

Lemma usize_mul_Ret a b c : usize_mul a b = Ret c ↔ c = a * b ∧ a * b ≤ usize_max.
Proof. unfold usize_mul. destruct (Z.leb_spec (a * b) usize_max); naive_solver lia. Qed.

(** Takes a successful run apart: every bind of a hypothesis [_ = Ret _]
    becomes the successful runs of its two halves. *)
Ltac inv_ret :=
  repeat match goal with
  | H : (_ ≫= _) = Ret _ |- _ =>
      let a := fresh "a" in let H1 := fresh H in
      apply bind_Ret in H as (a & H1 & H)
  | H : usize_add _ _ = Ret _ |- _ => apply usize_add_Ret in H as [-> H]
  | H : usize_sub _ _ = Ret _ |- _ => apply usize_sub_Ret in H as [-> H]
  | H : usize_mul _ _ = Ret _ |- _ => apply usize_mul_Ret in H as [-> H]
  | H : Ret _ = Ret _ |- _ => injection H as H
  | H : Panic _ = Ret _ |- _ => discriminate H
  | H : Ok _ = Ok _ |- _ => injection H as H
  | H : Ok _ = Err _ |- _ => discriminate H
  | H : Err _ = Ok _ |- _ => discriminate H
  end.

(** Case analysis on the boolean comparisons of [Z] in the goal. *)
Ltac case_Z :=
  match goal with
  | |- context [?a <=? ?b] => destruct (Z.leb_spec a b)
  | |- context [?a <? ?b] => destruct (Z.ltb_spec a b)
  | |- context [?a =? ?b] => destruct (Z.eqb_spec a b)
  end.

Ltac case_Z_in H :=
  match type of H with
  | context [?a <=? ?b] => destruct (Z.leb_spec a b)
  | context [?a <? ?b] => destruct (Z.ltb_spec a b)
  | context [?a =? ?b] => destruct (Z.eqb_spec a b)
  end.

(** ** Bits *)

Lemma testbit_above (w x i : Z) : 0 ≤ x < 2 ^ w → 0 ≤ w ≤ i → Z.testbit x i = false.
Proof.
  intros [Hx Hw] Hi. destruct (decide (x = 0)) as [->|]; [apply Z.bits_0|].
  apply Z.bits_above_log2; [lia|]. apply Z.log2_lt_pow2; [lia|].
  pose proof (Z.pow_le_mono_r 2 w i). lia.
Qed.

Lemma bits_bounded (w x : Z) :
  0 ≤ w → 0 ≤ x → (∀ i, w ≤ i → Z.testbit x i = false) → x < 2 ^ w.
Proof.
  intros Hw Hx Hb. destruct (decide (x < 2 ^ w)) as [|Hge]; [done|].
  pose proof (Z.pow_pos_nonneg 2 w ltac:(lia) Hw).
  assert (w ≤ Z.log2 x) as Hl by (apply Z.log2_le_pow2; lia).
  specialize (Hb _ Hl). rewrite Z.bit_log2 in Hb by lia. done.
Qed.

Lemma usize_not_spec x i : 0 ≤ i → Z.testbit (usize_not x) i = xorb (Z.testbit x i) (i <? 64).
Proof.
  intros. unfold usize_not. rewrite Z.lxor_spec. f_equal.
  case_Z; [apply Z.ones_spec_low; lia | apply Z.ones_spec_high; lia].
Qed.

Lemma land_ones_spec x i :
  0 ≤ i → Z.testbit (Z.land x (Z.ones 64)) i = Z.testbit x i && (i <? 64).
Proof.
  intros. rewrite Z.land_spec. f_equal.
  case_Z; [apply Z.ones_spec_low; lia | apply Z.ones_spec_high; lia].
Qed.

Lemma testbit_one i : Z.testbit 1 i = (i =? 0).
Proof.
  destruct (Z.eqb_spec i 0) as [->|]; [done|].
  destruct (decide (i < 0)); [by apply Z.testbit_neg_r|].
  apply (testbit_above 1); lia.
Qed.

Lemma testbit_single n i : 0 ≤ n → Z.testbit (Z.shiftl 1 n) i = (i =? n).
Proof.
  intros. destruct (decide (i < 0)).
  - rewrite Z.testbit_neg_r by lia. case_Z; [lia|done].
  - rewrite Z.shiftl_spec by lia. rewrite testbit_one.
    destruct (Z.eqb_spec i n), (Z.eqb_spec (i - n) 0); lia.
Qed.

Lemma land_single w b : 0 ≤ b → (Z.land w (Z.shiftl 1 b) =? 0) = negb (Z.testbit w b).
Proof.
  intros Hb. destruct (Z.testbit w b) eqn:E; simpl.
  - apply Z.eqb_neq. intros H0. apply (f_equal (λ x, Z.testbit x b)) in H0.
    rewrite Z.land_spec, E, testbit_single, Z.eqb_refl, Z.bits_0 in H0 by done. done.
  - apply Z.eqb_eq. apply Z.bits_inj'. intros i Hi.
    rewrite Z.land_spec, testbit_single, Z.bits_0 by done.
    destruct (Z.eqb_spec i b) as [->|]; [by rewrite E | by rewrite andb_false_r].
Qed.

Lemma usize_shl_1 n : 0 ≤ n < 64 → usize_shl 1 n = Ret (Z.shiftl 1 n).
Proof.
  intros. unfold usize_shl. rewrite (proj2 (Z.ltb_lt _ _)) by lia. f_equal.
  apply Z.bits_inj'. intros i Hi. rewrite land_ones_spec, testbit_single by lia.
  repeat case_Z; simpl; lia.
Qed.

Lemma trailing_zeros_from_spec fuel x i :
  let j := trailing_zeros_from fuel x i in
  i ≤ j ≤ i + Z.of_nat fuel ∧ (∀ k, i ≤ k < j → Z.testbit x k = false) ∧
  (j < i + Z.of_nat fuel → Z.testbit x j = true).
Proof.
  revert i. induction fuel as [|fuel IH]; intros i; simpl.
  - split; [lia|]. split; intros; lia.
  - destruct (Z.testbit x i) eqn:E.
    + split; [lia|]. split; [intros; lia | done].
    + destruct (IH (i + 1)) as (Hb & Hz & Hs). split; [lia|]. split.
      * intros k Hk. destruct (decide (k = i)) as [->|]; [done | apply Hz; lia].
      * intros. apply Hs. lia.
Qed.

Lemma trailing_zeros_spec x :
  0 ≤ trailing_zeros x ≤ 64 ∧
  (∀ k, 0 ≤ k < trailing_zeros x → Z.testbit x k = false) ∧
  (trailing_zeros x < 64 → Z.testbit x (trailing_zeros x) = true).
Proof. apply (trailing_zeros_from_spec 64 x 0). Qed.

(** ** Lists *)

Lemma index_Ret {A} (l : list A) i a : index l i = Ret a ↔ 0 ≤ i ∧ l !! Z.to_nat i = Some a.
Proof. unfold index. destruct (l !! Z.to_nat i); [case_Z|]; naive_solver lia. Qed.

Lemma index_ok {A} (l : list A) i a : 0 ≤ i → l !! Z.to_nat i = Some a → index l i = Ret a.
Proof. intros. by apply index_Ret. Qed.

(** The bytes of a buffer. *)
Lemma index_slice l s n i :
  0 ≤ s → (i < n)%nat → s + Z.of_nat n ≤ Z.of_nat (length l) →
  index (take n (drop (Z.to_nat s) l)) (Z.of_nat i) = Ret (byte_at l (Z.to_nat s + i)).
Proof.
  intros Hs Hi Hl. unfold index, byte_at. rewrite Nat2Z.id, lookup_take_lt, lookup_drop by done.
  destruct (lookup_lt_is_Some_2 l (Z.to_nat s + i)) as [x Hx]; [lia|]. rewrite Hx. simpl.
  by rewrite (proj2 (Z.leb_le _ _)) by lia.
Qed.

Lemma byte_at_bounds l i : Forall is_byte l → 0 ≤ byte_at l i < 256.
Proof.
  intros Hl. unfold byte_at. destruct (l !! i) as [x|] eqn:E; simpl; [|lia].
  by apply (Forall_lookup_1 _ _ _ _ Hl E).
Qed.

Lemma u16_at_bounds l i : Forall is_byte l → 0 ≤ u16_at l i < 65536.
Proof. intros Hl. unfold u16_at. pose proof (byte_at_bounds l i Hl). pose proof (byte_at_bounds l (S i) Hl). lia. Qed.

Lemma for_each_app {A S} (l1 l2 : list A) body (s : S) :
  for_each (l1 ++ l2) body s = (s' ← for_each l1 body s; for_each l2 body s').
Proof.
  revert s. induction l1 as [|a l1 IH]; intros s; simpl; [done|].
  destruct (body a s); simpl; [apply IH | done].
Qed.

(** A loop invariant indexed by the elements already processed. *)
Lemma for_each_inv {A S} (P : list A → S → Prop) body (l : list A) (s : S) :
  P [] s →
  (∀ done a s, a ∈ l → P done s → ∃ s', body a s = Ret s' ∧ P (done ++ [a]) s') →
  ∃ s', for_each l body s = Ret s' ∧ P l s'.
Proof.
  intros H0 Hstep.
  assert (∀ todo pre s, l = pre ++ todo → P pre s →
    ∃ s', for_each todo body s = Ret s' ∧ P l s') as Hgen.
  { induction todo as [|a todo IH]; intros pre s' -> HP; simpl.
    - rewrite app_nil_r. eauto.
    - destruct (Hstep pre a s') as (s'' & -> & HP'); [set_solver|done|]. simpl.
      apply (IH (pre ++ [a])); [by rewrite <-app_assoc | done]. }
  by apply (Hgen l []).
Qed.

(** ** Rows *)

(** The place of item [i + 1] of a grid, from that of item [i]. *)
Lemma row_step w i :
  0 < w → (if w <=? i mod w + 1 then (0, i / w + 1) else (i mod w + 1, i / w)) = ((i + 1) mod w, (i + 1) / w).
Proof.
  intros Hw. pose proof (Z.div_mod i w ltac:(lia)) as Hdm. pose proof (Z.mod_pos_bound i w Hw) as Hm.
  set (q := i / w) in *. set (m := i mod w) in *. destruct (Z.leb_spec w (m + 1)).
  - replace (i + 1) with (0 + (q + 1) * w) by lia. by rewrite Z.mod_add, Z.div_add, Z.mod_0_l, Z.div_0_l, Z.add_0_l by lia.
  - replace (i + 1) with (m + 1 + q * w) by lia. by rewrite Z.mod_add, Z.div_add, Z.mod_small, Z.div_small, Z.add_0_l by lia.
Qed.

Lemma row_bounds w h i : 0 < w → 0 ≤ i < w * h → 0 ≤ i mod w < w ∧ 0 ≤ i / w < h.
Proof.
  intros Hw Hi. split; [by apply Z.mod_pos_bound|]. split; [apply Z.div_pos; lia|apply Z.div_lt_upper_bound; lia].
Qed.
