(* ===== verification/Memory.v ===== *)
(** * Memory: addresses, frames and pages

    The types of [kernel_api/src/memory/mod.rs] and the arithmetic of
    [kernel_api/src/memory/type_ops.rs].  [Phys] holds [PhysicalAddress] and
    [Frame], [Virt] holds [VirtualAddress] and [Page]; an alignment is a const
    generic of the source and an argument here.  Every operation that the source
    can make panic returns an [outcome]. *)

From stdpp Require Import base gmap list numbers option.
From S2P Require Import Prelude.

Open Scope Z_scope.

Definition PAGE_SIZE : Z := 4096.
Definition PAGE_MAP_OFFSET : Z := 0xffff800000000000.

(** [AllocError], the error of every allocator. *)
Inductive AllocError := AllocErr.

#[global] Instance AllocError_eq_dec : EqDecision AllocError.
Proof. solve_decision. Defined.

(** ** Virtual addresses and pages *)

Record VirtualAddress := mkVA { va_addr : Z }.
Record Page := mkPage { page_base : VirtualAddress }.

#[global] Instance VirtualAddress_eq_dec : EqDecision VirtualAddress.
Proof. solve_decision. Defined.
#[global] Instance Page_eq_dec : EqDecision Page.
Proof. solve_decision. Defined.

(** ** Physical addresses and frames *)

Record PhysicalAddress := mkPA { pa_addr : Z }.
Record Frame := mkFrame { frame_base : PhysicalAddress }.

#[global] Instance PhysicalAddress_eq_dec : EqDecision PhysicalAddress.
Proof. solve_decision. Defined.
#[global] Instance Frame_eq_dec : EqDecision Frame.
Proof. solve_decision. Defined.

(** The address a frame starts at. *)
Definition frame_addr (f : Frame) : Z := pa_addr (frame_base f).
Definition page_addr (p : Page) : Z := va_addr (page_base p).

(** The frame and the page at an address. *)
Abbreviation frame_at a := (mkFrame (mkPA a)).
Abbreviation page_at a := (mkPage (mkVA a)).

(** [isize] multiplication and negation. *)
Definition isize_mul (a b : Z) : outcome Z :=
  if (- 2 ^ 63 <=? a * b) && (a * b <? 2 ^ 63) then Ret (a * b) else Panic ArithmeticOverflow.

Definition isize_neg (a : Z) : outcome Z :=
  if a =? - 2 ^ 63 then Panic ArithmeticOverflow else Ret (- a).

(** [usize::checked_add_signed(..).expect(..)]. *)
Definition checked_add_signed (a rhs : Z) : outcome Z :=
  let s := a + rhs in
  if (0 <=? s) && (s <=? usize_max) then Ret s else Panic UnwrapFailed.

Module Phys.

(** [PhysicalAddress::align_down], also [align_down_runtime]. *)
Definition align_down (align : Z) (a : PhysicalAddress) : outcome PhysicalAddress :=
  m ← usize_sub align 1;
  Ret (mkPA (Z.land (pa_addr a) (usize_not m))).

(** [PhysicalAddress::align_up], also [align_up_runtime]. *)
Definition align_up (align : Z) (a : PhysicalAddress) : outcome PhysicalAddress :=
  s ← usize_add (pa_addr a) align;
  s ← usize_sub s 1;
  align_down align (mkPA s).

(** [PhysicalAddress::new]: panics when the address is not aligned. *)
Definition new (align a : Z) : outcome PhysicalAddress :=
  aligned ← align_down align (mkPA a);
  if pa_addr aligned =? a then Ret aligned else Panic AssertionFailed.

(** [PhysicalAddress::to_virtual]. *)
Definition to_virtual (a : PhysicalAddress) : outcome VirtualAddress :=
  s ← usize_add (pa_addr a) PAGE_MAP_OFFSET; Ret (mkVA s).

(** [Add<usize>] and [Sub<usize>] for [PhysicalAddress]. *)
Definition add (a : PhysicalAddress) (rhs : Z) : outcome PhysicalAddress :=
  s ← usize_add (pa_addr a) rhs; Ret (mkPA s).

Definition sub (a : PhysicalAddress) (rhs : Z) : outcome PhysicalAddress :=
  s ← usize_sub (pa_addr a) rhs; Ret (mkPA s).

(** [Sub<PhysicalAddress> for PhysicalAddress]. *)
Definition diff (a b : PhysicalAddress) : outcome Z := usize_sub (pa_addr a) (pa_addr b).

(** [Add<isize>], and [Sub<isize>] which negates its argument first. *)
Definition add_signed (a : PhysicalAddress) (rhs : Z) : outcome PhysicalAddress :=
  s ← checked_add_signed (pa_addr a) rhs; Ret (mkPA s).

Definition sub_signed (a : PhysicalAddress) (rhs : Z) : outcome PhysicalAddress :=
  n ← isize_neg rhs; add_signed a n.

End Phys.

Module FrameOps.

(** [Frame::to_page], via the physical page map region. *)
Definition to_page (f : Frame) : outcome Page :=
  v ← Phys.to_virtual (frame_base f); Ret (mkPage v).

(** [Frame::zero]. *)
Definition zero : outcome Frame :=
  b ← Phys.new PAGE_SIZE 0; Ret (mkFrame b).

(** [Frame::checked_sub]. *)
Definition checked_sub (f : Frame) (rhs : Z) : outcome (option Frame) :=
  bytes ← usize_mul rhs PAGE_SIZE;
  match Prelude.checked_sub (frame_addr f) bytes with
  | Some a => b ← Phys.new PAGE_SIZE a; Ret (Some (mkFrame b))
  | None => Ret None
  end.

(** [Frame::start] and [Frame::end]. *)
Definition start (f : Frame) : PhysicalAddress := frame_base f.

Definition end_ (f : Frame) : outcome PhysicalAddress :=
  s ← usize_add (frame_addr f) PAGE_SIZE; Phys.new PAGE_SIZE s.

(** [Add<usize>], [Sub<usize>] and [Sub<Frame>] for [Frame]. *)
Definition add (f : Frame) (rhs : Z) : outcome Frame :=
  bytes ← usize_mul rhs PAGE_SIZE;
  b ← Phys.add (frame_base f) bytes; Ret (mkFrame b).

Definition sub (f : Frame) (rhs : Z) : outcome Frame :=
  bytes ← usize_mul rhs PAGE_SIZE;
  b ← Phys.sub (frame_base f) bytes; Ret (mkFrame b).

Definition diff (a b : Frame) : outcome Z :=
  d ← usize_sub (frame_addr a) (frame_addr b); Ret (d / PAGE_SIZE).

(** [Add<isize>] and [Sub<isize>] for [Frame]. *)
Definition add_signed (f : Frame) (rhs : Z) : outcome Frame :=
  bytes ← isize_mul rhs PAGE_SIZE;
  b ← Phys.add_signed (frame_base f) bytes; Ret (mkFrame b).

Definition sub_signed (f : Frame) (rhs : Z) : outcome Frame :=
  bytes ← isize_mul rhs PAGE_SIZE;
  b ← Phys.sub_signed (frame_base f) bytes; Ret (mkFrame b).

(** [Step for Frame]. *)
Definition steps_between (s e : Frame) : option Z :=
  d ← Prelude.checked_sub (frame_addr e) (frame_addr s); Some (d / PAGE_SIZE).

Definition forward_checked (s : Frame) (count : Z) : option Frame :=
  off ← checked_mul count PAGE_SIZE;
  b ← checked_add (frame_addr s) off; Some (frame_at b).

Definition backward_checked (s : Frame) (count : Z) : option Frame :=
  off ← checked_mul count PAGE_SIZE;
  b ← Prelude.checked_sub (frame_addr s) off; Some (frame_at b).

(** The derived comparisons of [Frame]. *)
Definition ltb (a b : Frame) : bool := frame_addr a <? frame_addr b.
Definition leb (a b : Frame) : bool := frame_addr a <=? frame_addr b.

(** The frames a [Range<Frame>] iterates over: [Step] moves on by one frame as
    long as the start is below the end. *)
Definition range (s e : Frame) : list Frame :=
  match steps_between s e with
  | Some n => (λ i, frame_at (frame_addr s + PAGE_SIZE * i)) <$> seqZ 0 n
  | None => []
  end.

End FrameOps.

Module Virt.

(** [VirtualAddress::align_down], also [align_down_runtime]. *)
Definition align_down (align : Z) (a : VirtualAddress) : outcome VirtualAddress :=
  m ← usize_sub align 1;
  Ret (mkVA (Z.land (va_addr a) (usize_not m))).

(** [VirtualAddress::align_up], also [align_up_runtime]. *)
Definition align_up (align : Z) (a : VirtualAddress) : outcome VirtualAddress :=
  s ← usize_add (va_addr a) align;
  s ← usize_sub s 1;
  align_down align (mkVA s).

(** [VirtualAddress::new]. *)
Definition new (align a : Z) : outcome VirtualAddress :=
  aligned ← align_down align (mkVA a);
  if va_addr aligned =? a then Ret aligned else Panic AssertionFailed.

(** [Add<usize>], [Sub<usize>] and [Sub<VirtualAddress>]. *)
Definition add (a : VirtualAddress) (rhs : Z) : outcome VirtualAddress :=
  s ← usize_add (va_addr a) rhs; Ret (mkVA s).

Definition sub (a : VirtualAddress) (rhs : Z) : outcome VirtualAddress :=
  s ← usize_sub (va_addr a) rhs; Ret (mkVA s).

Definition diff (a b : VirtualAddress) : outcome Z := usize_sub (va_addr a) (va_addr b).

(** [Add<isize>], and [Sub<isize>] which negates its argument first. *)
Definition add_signed (a : VirtualAddress) (rhs : Z) : outcome VirtualAddress :=
  s ← checked_add_signed (va_addr a) rhs; Ret (mkVA s).

Definition sub_signed (a : VirtualAddress) (rhs : Z) : outcome VirtualAddress :=
  n ← isize_neg rhs; add_signed a n.

End Virt.

Module PageOps.

(** [Add<usize>], [Sub<usize>] and [Sub<Page>] for [Page]. *)
Definition add (p : Page) (rhs : Z) : outcome Page :=
  bytes ← usize_mul rhs PAGE_SIZE;
  b ← Virt.add (page_base p) bytes; Ret (mkPage b).

Definition sub (p : Page) (rhs : Z) : outcome Page :=
  bytes ← usize_mul rhs PAGE_SIZE;
  b ← Virt.sub (page_base p) bytes; Ret (mkPage b).

Definition diff (a b : Page) : outcome Z :=
  d ← usize_sub (page_addr a) (page_addr b); Ret (d / PAGE_SIZE).

(** [Add<isize>] and [Sub<isize>] for [Page]. *)
Definition add_signed (p : Page) (rhs : Z) : outcome Page :=
  bytes ← isize_mul rhs PAGE_SIZE;
  b ← Virt.add_signed (page_base p) bytes; Ret (mkPage b).

Definition sub_signed (p : Page) (rhs : Z) : outcome Page :=
  bytes ← isize_mul rhs PAGE_SIZE;
  b ← Virt.sub_signed (page_base p) bytes; Ret (mkPage b).

(** [Step for Page]. *)
Definition steps_between (s e : Page) : option Z :=
  d ← checked_sub (page_addr e) (page_addr s); Some (d / PAGE_SIZE).

Definition forward_checked (s : Page) (count : Z) : option Page :=
  off ← checked_mul count PAGE_SIZE;
  b ← checked_add (page_addr s) off; Some (page_at b).

Definition backward_checked (s : Page) (count : Z) : option Page :=
  off ← checked_mul count PAGE_SIZE;
  b ← checked_sub (page_addr s) off; Some (page_at b).

(** [Page::end]. *)
Definition end_ (p : Page) : outcome VirtualAddress :=
  s ← usize_add (page_addr p) PAGE_SIZE; Virt.new PAGE_SIZE s.

End PageOps.

(** ** Well-formed frames and pages *)

Definition wf_frame (f : Frame) : Prop :=
  0 ≤ frame_addr f ≤ usize_max ∧ frame_addr f mod PAGE_SIZE = 0.

Definition wf_page (p : Page) : Prop :=
  0 ≤ page_addr p ≤ usize_max ∧ page_addr p mod PAGE_SIZE = 0.

Lemma frame_eta f : frame_at (frame_addr f) = f.
Proof. by destruct f as [[]]. Qed.

Lemma page_eta p : page_at (page_addr p) = p.
Proof. by destruct p as [[]]. Qed.

Lemma frame_addr_inj f g : frame_addr f = frame_addr g → f = g.
Proof. destruct f as [[]], g as [[]]; cbn. by intros ->. Qed.

Lemma page_addr_inj p q : page_addr p = page_addr q → p = q.
Proof. destruct p as [[]], q as [[]]; cbn. by intros ->. Qed.

(** ** Alignment *)

Lemma pow2_le_usize k : 0 ≤ k < 64 → 1 ≤ 2 ^ k ≤ 2 ^ 63.
Proof.
  intros. split.
  - pose proof (Z.pow_pos_nonneg 2 k). lia.
  - apply Z.pow_le_mono_r; lia.
Qed.

(** Masking the low [k] bits of a word away is rounding down. *)
Lemma mask_low_bits k a :
  0 ≤ k < 64 → is_usize a → Z.land a (usize_not (2 ^ k - 1)) = a - a mod 2 ^ k.
Proof.
  intros Hk Ha. unfold is_usize in Ha.
  replace (a - a mod 2 ^ k) with (Z.shiftl (Z.shiftr a k) k); last first.
  { rewrite Z.shiftl_mul_pow2, Z.shiftr_div_pow2 by lia.
    pose proof (pow2_le_usize k Hk). pose proof (Z.div_mod a (2 ^ k)). lia. }
  replace (2 ^ k - 1) with (Z.ones k) by (rewrite Z.ones_equiv; lia).
  apply Z.bits_inj'. intros i Hi.
  rewrite Z.land_spec, usize_not_spec, Z.shiftl_spec by lia.
  destruct (decide (i < k)) as [Hlt|Hge].
  - rewrite (Z.ones_spec_low k i) by lia. rewrite (Z.testbit_neg_r _ (i - k)) by lia.
    case_Z; [by rewrite andb_false_r | lia].
  - rewrite (Z.ones_spec_high k i) by lia. rewrite Z.shiftr_spec by lia.
    replace (i - k + k) with i by lia. case_Z; [by rewrite andb_true_r|].
    rewrite (testbit_above 64 a i) by lia. done.
Qed.

(** The greatest multiple of [m] not above [a]. *)
Lemma round_down_greatest m a x :
  0 < m → x ≤ a → x mod m = 0 → x ≤ a - a mod m.
Proof.
  intros Hm Hx Hxm.
  pose proof (Z.div_mod x m ltac:(lia)). pose proof (Z.div_mod a m ltac:(lia)).
  pose proof (Z.div_le_mono x a m Hm Hx). nia.
Qed.

(** The least multiple of [m] not below [a]. *)
Lemma round_up_least m a x :
  0 < m → a ≤ x → x mod m = 0 → (a + m - 1) / m * m ≤ x.
Proof.
  intros Hm Hx Hxm. pose proof (Z.div_mod x m ltac:(lia)).
  pose proof (Z.div_mod (a + m - 1) m ltac:(lia)).
  pose proof (Z.div_le_mono (a + m - 1) (x + (m - 1)) m Hm ltac:(lia)) as Hle.
  replace (x + (m - 1)) with (m - 1 + x / m * m) in Hle by lia.
  rewrite Z.div_add, (Z.div_small (m - 1)) in Hle by lia. nia.
Qed.

Lemma align_down_pow2 k a :
  0 ≤ k < 64 → is_usize (pa_addr a) →
  Phys.align_down (2 ^ k) a = Ret (mkPA (pa_addr a - pa_addr a mod 2 ^ k)).
Proof.
  intros Hk Ha. unfold Phys.align_down. pose proof (pow2_le_usize k Hk).
  autorewrite with rust. by rewrite mask_low_bits.
Qed.

Lemma align_up_pow2 k a :
  0 ≤ k < 64 → is_usize (pa_addr a) →
  Phys.align_up (2 ^ k) a =
    if pa_addr a + 2 ^ k <=? usize_max
    then Ret (mkPA ((pa_addr a + 2 ^ k - 1) / 2 ^ k * 2 ^ k))
    else Panic ArithmeticOverflow.
Proof.
  intros Hk Ha. unfold Phys.align_up. pose proof (pow2_le_usize k Hk). unfold is_usize in Ha.
  unfold usize_add. case_Z; simpl; [|done].
  autorewrite with rust. rewrite align_down_pow2 by (unfold is_usize; simpl; lia). simpl.
  do 2 f_equal. pose proof (Z.div_mod (pa_addr a + 2 ^ k - 1) (2 ^ k)). lia.
Qed.

(** [Phys.new] at page alignment: the identity on aligned addresses. *)
Lemma new_page_aligned a :
  is_usize a → Phys.new PAGE_SIZE a =
    if a mod PAGE_SIZE =? 0 then Ret (mkPA a) else Panic AssertionFailed.
Proof.
  intros Ha. unfold Phys.new. change PAGE_SIZE with (2 ^ 12).
  rewrite align_down_pow2 by (unfold is_usize in *; simpl; lia). simpl.
  destruct (Z.eqb_spec (a mod 2 ^ 12) 0) as [E|E].
  - rewrite E, Z.sub_0_r, Z.eqb_refl. done.
  - destruct (Z.eqb_spec (a - a mod 2 ^ 12) a); [lia|done].
Qed.

(** ** Frame and page arithmetic *)

Lemma frame_add_ok f n :
  0 ≤ frame_addr f → frame_addr f + n * PAGE_SIZE ≤ usize_max → 0 ≤ n →
  FrameOps.add f n = Ret (frame_at (frame_addr f + n * PAGE_SIZE)).
Proof.
  intros. unfold FrameOps.add, Phys.add. fold (frame_addr f).
  by autorewrite with rust.
Qed.

Lemma frame_add_Ret f n g :
  FrameOps.add f n = Ret g ↔
  g = frame_at (frame_addr f + n * PAGE_SIZE) ∧ n * PAGE_SIZE ≤ usize_max ∧
  frame_addr f + n * PAGE_SIZE ≤ usize_max.
Proof.
  unfold FrameOps.add, Phys.add. fold (frame_addr f). split.
  - intros H. inv_ret. by subst.
  - intros (-> & ? & ?). by autorewrite with rust.
Qed.

Lemma frame_diff_ok f g :
  frame_addr g ≤ frame_addr f →
  FrameOps.diff f g = Ret ((frame_addr f - frame_addr g) / PAGE_SIZE).
Proof. intros. unfold FrameOps.diff. by autorewrite with rust. Qed.

Lemma page_add_ok p n :
  0 ≤ page_addr p → page_addr p + n * PAGE_SIZE ≤ usize_max → 0 ≤ n →
  PageOps.add p n = Ret (page_at (page_addr p + n * PAGE_SIZE)).
Proof.
  intros. unfold PageOps.add, Virt.add. fold (page_addr p).
  by autorewrite with rust.
Qed.

Lemma page_diff_ok p q :
  page_addr q ≤ page_addr p →
  PageOps.diff p q = Ret ((page_addr p - page_addr q) / PAGE_SIZE).
Proof. intros. unfold PageOps.diff. by autorewrite with rust. Qed.

Lemma frame_checked_sub_spec f n :
  wf_frame f → 0 ≤ n → n * PAGE_SIZE ≤ usize_max →
  FrameOps.checked_sub f n = Ret
    (if n * PAGE_SIZE <=? frame_addr f
     then Some (frame_at (frame_addr f - n * PAGE_SIZE)) else None).
Proof.
  intros [Hu Hm] Hn Hb. unfold FrameOps.checked_sub, checked_sub.
  autorewrite with rust. case_Z; [|done].
  rewrite new_page_aligned by (unfold is_usize, PAGE_SIZE in *; lia).
  rewrite Zminus_mod, Hm, Z.mod_mul by done. done.
Qed.

Lemma wf_frame_shift f n :
  wf_frame f → 0 ≤ frame_addr f + n * PAGE_SIZE ≤ usize_max →
  wf_frame (frame_at (frame_addr f + n * PAGE_SIZE)).
Proof. intros [_ Hm] Hb. split; [done|]. cbn. by rewrite Z.mod_add. Qed.

#[export] Hint Rewrite frame_add_ok frame_diff_ok page_add_ok page_diff_ok
  using (unfold PAGE_SIZE in *; cbn in *; lia) : rust.
#[export] Hint Resolve wf_frame_shift : popcorn.

(** The frames of a range between two aligned frames, by number. *)
Lemma range_elem s n f :
  0 ≤ n → f ∈ FrameOps.range s (frame_at (frame_addr s + n * PAGE_SIZE)) ↔
  ∃ i, 0 ≤ i < n ∧ f = frame_at (frame_addr s + i * PAGE_SIZE).
Proof.
  intros Hn. unfold FrameOps.range, FrameOps.steps_between, checked_sub. cbn [frame_addr frame_base pa_addr].
  rewrite (proj2 (Z.leb_le _ _)) by (unfold PAGE_SIZE; lia). simpl.
  replace ((frame_addr s + n * PAGE_SIZE - frame_addr s) / PAGE_SIZE) with n; last first.
  { replace (frame_addr s + n * PAGE_SIZE - frame_addr s) with (n * PAGE_SIZE) by lia.
    by rewrite Z.div_mul. }
  rewrite list_elem_of_fmap. setoid_rewrite elem_of_seqZ. split.
  - intros (i & -> & ?). exists i. split; [lia|]. do 2 f_equal. lia.
  - intros (i & ? & ->). exists i. split; [|lia]. do 2 f_equal. lia.
Qed.

(** The frames of a range in order: [n] frames from [s]. *)
Lemma range_seq s n :
  0 ≤ n → FrameOps.range s (frame_at (frame_addr s + n * PAGE_SIZE)) =
  (λ i, frame_at (frame_addr s + PAGE_SIZE * i)) <$> seqZ 0 n.
Proof.
  intros Hn. unfold FrameOps.range, FrameOps.steps_between, checked_sub. cbn [frame_addr frame_base pa_addr].
  rewrite (proj2 (Z.leb_le _ _)) by (unfold PAGE_SIZE; lia). simpl.
  replace (frame_addr s + n * PAGE_SIZE - frame_addr s) with (n * PAGE_SIZE) by lia.
  by rewrite Z.div_mul.
Qed.

(** ** Properties *)

(** [align_down] and [align_up] at a power of two: [align_down] gives the
    greatest aligned address not above its argument and never fails; [align_up]
    gives the least aligned address not below it, and panics exactly when the
    source's [addr + ALIGN] overflows. *)
Theorem align_correct (k : Z) (a : PhysicalAddress) :
  0 ≤ k < 64 → is_usize (pa_addr a) →
  (∃ d, Phys.align_down (2 ^ k) a = Ret d ∧ pa_addr d mod 2 ^ k = 0 ∧
     pa_addr d ≤ pa_addr a ∧ ∀ x, x ≤ pa_addr a → x mod 2 ^ k = 0 → x ≤ pa_addr d) ∧
  (pa_addr a + 2 ^ k ≤ usize_max →
     ∃ u, Phys.align_up (2 ^ k) a = Ret u ∧ pa_addr u mod 2 ^ k = 0 ∧
       pa_addr a ≤ pa_addr u ∧ ∀ x, pa_addr a ≤ x → x mod 2 ^ k = 0 → pa_addr u ≤ x) ∧
  (usize_max < pa_addr a + 2 ^ k → Phys.align_up (2 ^ k) a = Panic ArithmeticOverflow).
Proof.
  intros Hk Ha. pose proof (pow2_le_usize k Hk) as Hp.
  assert (2 ^ k ≠ 0) as Hnz by lia.
  rewrite align_up_pow2, align_down_pow2 by done. split_and!.
  - eexists. split; [done|]. cbn.
    pose proof (Z.div_mod (pa_addr a) (2 ^ k) Hnz). pose proof (Z.mod_pos_bound (pa_addr a) (2 ^ k)).
    split_and!; [|lia|].
    + rewrite Zminus_mod_idemp_r, Z.sub_diag. by apply Z.mod_0_l.
    + intros x. apply round_down_greatest. lia.
  - intros Hb. rewrite (proj2 (Z.leb_le _ _)) by done. eexists. split; [done|]. cbn.
    set (s := pa_addr a + 2 ^ k - 1).
    pose proof (Z.div_mod s (2 ^ k) Hnz). pose proof (Z.mod_pos_bound s (2 ^ k)).
    split_and!; [by apply Z.mod_mul | lia |].
    intros x. apply round_up_least. lia.
  - intros Hb. by rewrite (proj2 (Z.leb_gt _ _)).
Qed.

Lemma align_correct_witness :
  (0 ≤ 12 < 64) ∧ is_usize (pa_addr (mkPA 0x1567)) ∧
  ∃ u, Phys.align_up (2 ^ 12) (mkPA 0x1567) = Ret u ∧ pa_addr u mod 2 ^ 12 = 0 ∧
    0x1567 ≤ pa_addr u ∧ ∀ x, 0x1567 ≤ x → x mod 2 ^ 12 = 0 → pa_addr u ≤ x.
Proof.
  split; [lia|]. split; [unfold is_usize; simpl; lia|].
  destruct (align_correct 12 (mkPA 0x1567)) as (_ & H & _); [lia | unfold is_usize; simpl; lia |].
  apply H. simpl. lia.
Defined.

(** Frame arithmetic is exact as long as the address fits: moving [n] frames
    on gives a well-formed frame [n] frames away, [sub] and [backward_checked]
    undo it, and [Step::forward_checked] agrees with [+]. *)
Theorem frame_arithmetic_roundtrip (f : Frame) (n : Z) :
  wf_frame f → 0 ≤ n → frame_addr f + n * PAGE_SIZE ≤ usize_max →
  ∃ g, FrameOps.add f n = Ret g ∧ wf_frame g ∧ FrameOps.diff g f = Ret n ∧
    FrameOps.sub g n = Ret f ∧ FrameOps.forward_checked f n = Some g ∧
    FrameOps.backward_checked g n = Some f.
Proof.
  intros Hf Hn Hb. destruct Hf as [[Hlo Hhi] Hm].
  exists (frame_at (frame_addr f + n * PAGE_SIZE)).
  assert (0 ≤ n * PAGE_SIZE) by (unfold PAGE_SIZE; lia).
  split_and!.
  - by autorewrite with rust.
  - apply wf_frame_shift; [done|lia].
  - autorewrite with rust. cbn. f_equal.
    replace (frame_addr f + n * PAGE_SIZE - frame_addr f) with (n * PAGE_SIZE) by lia.
    by apply Z.div_mul.
  - unfold FrameOps.sub, Phys.sub. cbn. autorewrite with rust. f_equal.
    apply frame_addr_inj. cbn. lia.
  - unfold FrameOps.forward_checked, checked_mul, checked_add. cbn.
    rewrite (proj2 (Z.leb_le (n * _) _)) by lia. simpl. by rewrite (proj2 (Z.leb_le _ _)).
  - unfold FrameOps.backward_checked, checked_mul, checked_sub. cbn.
    rewrite (proj2 (Z.leb_le (n * _) _)) by lia. simpl. rewrite (proj2 (Z.leb_le _ _)) by lia. simpl.
    f_equal. apply frame_addr_inj. cbn. lia.
Qed.

Lemma frame_arithmetic_roundtrip_witness :
  wf_frame (frame_at 0x2000) ∧
  ∃ g, FrameOps.add (frame_at 0x2000) 3 = Ret g ∧ wf_frame g ∧
    FrameOps.diff g (frame_at 0x2000) = Ret 3 ∧ FrameOps.sub g 3 = Ret (frame_at 0x2000) ∧
    FrameOps.forward_checked (frame_at 0x2000) 3 = Some g ∧
    FrameOps.backward_checked g 3 = Some (frame_at 0x2000).
Proof.
  assert (wf_frame (frame_at 0x2000)) as H by (split; [cbn; lia | done]).
  split; [exact H|]. apply (frame_arithmetic_roundtrip (frame_at 0x2000) 3 H).
  - lia.
  - unfold PAGE_SIZE. cbn. lia.
Defined.
