(* ===== verification/Allocator.v ===== *)
(** * Allocator: the [BackingAllocator] interface

    The trait of [kernel_api/src/memory/allocator.rs].  [BackingAllocator] is the
    record of its required operations over an allocator state, the provided
    methods are definitions over that record, and [LawfulAllocator] is the
    contract clients rely on: an allocation hands out frames that were free, frees
    and takes nothing else, and never panics.  [Bitmap] discharges the contract;
    [Paging] and [Mapping] are proved against it. *)

From stdpp Require Import base gmap list numbers option.
From S2P Require Import Prelude Memory.

Open Scope Z_scope.

(** [SpecificLocation]; alignments are [NonZeroU32]s. *)
Inductive SpecificLocation :=
  | Aligned (alignment : Z)
  | At (f : Frame)
  | Below (location : Frame) (with_alignment : Z).

(** [Location]. *)
Inductive Location :=
  | Any
  | Specific (l : SpecificLocation).

(** [ZeroAllocError]. *)
Inductive ZeroAllocError :=
  | ZeroAllocErr
  | Uninit (f : Frame).

(** [AllocationMeta] and [Config]: frame ranges are pairs of frames. *)
Record AllocationMeta := mkMeta { region : Frame * Frame }.
Record Config := mkConfig { allocation_range : Frame * Frame; regions : list (Frame * Frame) }.

(** The required methods of the trait, on a state [S]. *)
Class BackingAllocator (S : Type) := {
  allocate_contiguous : S → Z → outcome (result Frame AllocError * S);
  deallocate_contiguous : S → Frame → Z → outcome S;
  allocate_at : S → Z → SpecificLocation → outcome (result Frame AllocError * S)
}.

Section Provided.
Context {S : Type} `{BackingAllocator S}.

(** [BackingAllocator::allocate]: the range of the frames allocated. *)
Definition allocate (s : S) (frame_count : Z) :
    outcome (result (Frame * Frame) AllocError * S) :=
  '(r, s) ← allocate_contiguous s frame_count;
  match r with
  | Ok base => e ← FrameOps.add base frame_count; Ret (Ok (base, e), s)
  | Err e => Ret (Err e, s)
  end.

(** [BackingAllocator::allocate_one]. *)
Definition allocate_one (s : S) : outcome (result Frame AllocError * S) :=
  '(r, s) ← allocate s 1;
  match r with
  | Ok (b, e) => f ← expect (head (FrameOps.range b e)); Ret (Ok f, s)
  | Err e => Ret (Err e, s)
  end.

(** [BackingAllocator::try_allocate_zeroed]: the provided method never has a
    prezeroed buffer. *)
Definition try_allocate_zeroed (s : S) (frame_count : Z) :
    outcome (result Frame ZeroAllocError * S) :=
  '(r, s) ← allocate_contiguous s frame_count;
  match r with
  | Ok f => Ret (Err (Uninit f), s)
  | Err _ => Ret (Err ZeroAllocErr, s)
  end.

End Provided.

(** The [n] frames from [f] on. *)
Definition in_run (f : Frame) (n : Z) (g : Frame) : Prop :=
  ∃ i, 0 ≤ i < n ∧ g = frame_at (frame_addr f + i * PAGE_SIZE).

Lemma in_run_alt f n g :
  in_run f n g ↔ 0 ≤ frame_addr g - frame_addr f < n * PAGE_SIZE ∧ (frame_addr g - frame_addr f) mod PAGE_SIZE = 0.
Proof.
  unfold in_run. split.
  - intros (i & Hi & ->). change (frame_addr (frame_at ?x)) with x.
    replace (frame_addr f + i * PAGE_SIZE - frame_addr f) with (i * PAGE_SIZE) by lia.
    split; [unfold PAGE_SIZE; lia|by apply Z.mod_mul].
  - intros [Hr Hm]. exists ((frame_addr g - frame_addr f) / PAGE_SIZE).
    unfold PAGE_SIZE in *. split; [Z.div_mod_to_equations; lia|]. apply frame_addr_inj.
    change (frame_addr (frame_at ?x)) with x. Z.div_mod_to_equations. lia.
Qed.

#[global] Instance in_run_dec f n g : Decision (in_run f n g).
Proof.
  refine (cast_if (decide (0 ≤ frame_addr g - frame_addr f < n * PAGE_SIZE ∧
    (frame_addr g - frame_addr f) mod PAGE_SIZE = 0))); by rewrite in_run_alt.
Defined.

(** The contract of an allocator.  [alloc_free s f] says that [f] can still be
    handed out. *)
Class LawfulAllocator (S : Type) `{BackingAllocator S} := {
  alloc_inv : S → Prop;
  alloc_free : S → Frame → Prop;
  alloc_contiguous_law s n : alloc_inv s → 0 < n ≤ usize_max →
    ∃ r s', allocate_contiguous s n = Ret (r, s') ∧ alloc_inv s' ∧
    match r with
    | Ok f => wf_frame f ∧ frame_addr f + n * PAGE_SIZE ≤ usize_max ∧
        (∀ g, in_run f n g → alloc_free s g) ∧
        (∀ g, alloc_free s' g ↔ alloc_free s g ∧ ¬ in_run f n g)
    | Err _ => ∀ g, alloc_free s' g ↔ alloc_free s g
    end
}.

Section Laws.
Context {S : Type} `{LawfulAllocator S}.

Lemma in_run_one f g : in_run f 1 g ↔ g = f.
Proof.
  unfold in_run. split.
  - intros (i & Hi & ->). assert (i = 0) as -> by lia. apply frame_addr_inj. cbn. lia.
  - intros ->. exists 0. split; [lia|]. apply frame_addr_inj. cbn. lia.
Qed.

(** [allocate_one] inherits the contract of [allocate_contiguous]. *)
Lemma allocate_one_law (s : S) :
  alloc_inv s → ∃ r s', allocate_one s = Ret (r, s') ∧ alloc_inv s' ∧
  match r with
  | Ok f => wf_frame f ∧ alloc_free s f ∧ ∀ g, alloc_free s' g ↔ alloc_free s g ∧ g ≠ f
  | Err _ => ∀ g, alloc_free s' g ↔ alloc_free s g
  end.
Proof.
  intros Hinv. destruct (alloc_contiguous_law s 1 Hinv) as (r & s' & Hal & Hinv' & Hr); [lia|].
  unfold allocate_one, allocate. rewrite Hal. simpl.
  destruct r as [f|e]; simpl; [|by eauto 6].
  destruct Hr as (Hwf & Hb & Hfree & Hfree'). pose proof Hwf as [[Hlo _] _].
  rewrite frame_add_ok by lia. simpl. rewrite range_seq by lia. simpl.
  exists (Ok f), s'. rewrite Z.mul_0_r, Z.add_0_r, frame_eta. split_and!; try done.
  - apply Hfree. by apply in_run_one.
  - intros g. by rewrite Hfree', in_run_one.
Qed.

End Laws.

(** ** Allocators that take frames back *)

(** [alloc_managed s f]: the allocator keeps a state for [f]. *)
Class ReclaimingAllocator (S : Type) `{LawfulAllocator S} := {
  alloc_managed : S → Frame → Prop;
  alloc_managed_law s n r s' : alloc_inv s → 0 < n ≤ usize_max →
    allocate_contiguous s n = Ret (r, s') →
    (∀ g, alloc_managed s' g ↔ alloc_managed s g) ∧
    (∀ f g, r = Ok f → in_run f n g → alloc_managed s g);
  dealloc_contiguous_law s f n : alloc_inv s → 0 < n ≤ usize_max →
    (∀ g, in_run f n g → alloc_managed s g) →
    ∃ s', deallocate_contiguous s f n = Ret s' ∧ alloc_inv s' ∧
      (∀ g, alloc_managed s' g ↔ alloc_managed s g) ∧
      (∀ g, alloc_free s' g ↔ alloc_free s g ∨ in_run f n g)
}.

(** *** A client and the runs it holds *)

Section Client.
Context {S : Type} `{ReclaimingAllocator S}.

(** The calls of a client that frees what it was given, and only that. *)
Inductive client_step : S * list (Frame * Z) → S * list (Frame * Z) → Prop :=
  | client_alloc s held n f s' : 0 < n ≤ usize_max →
      allocate_contiguous s n = Ret (Ok f, s') → client_step (s, held) (s', (f, n) :: held)
  | client_refused s held n e s' : 0 < n ≤ usize_max →
      allocate_contiguous s n = Ret (Err e, s') → client_step (s, held) (s', held)
  | client_free s held1 f n held2 s' :
      deallocate_contiguous s f n = Ret s' →
      client_step (s, held1 ++ (f, n) :: held2) (s', held1 ++ held2).

Definition disjoint_runs (p q : Frame * Z) : Prop := ∀ g, ¬ (in_run p.1 p.2 g ∧ in_run q.1 q.2 g).

Definition held_run (s : S) (p : Frame * Z) : Prop :=
  0 < p.2 ≤ usize_max ∧ ∀ g, in_run p.1 p.2 g → alloc_managed s g ∧ ¬ alloc_free s g.

Definition client_inv (c : S * list (Frame * Z)) : Prop :=
  alloc_inv c.1 ∧ Forall (held_run c.1) c.2 ∧ ForallOrdPairs disjoint_runs c.2.

#[global] Instance disjoint_runs_symm : Symmetric disjoint_runs.
Proof. intros p q Hpq g [??]. by apply (Hpq g). Qed.

Lemma ordpairs_middle {A} (R : A → A → Prop) `{!Symmetric R} l1 x l2 :
  ForallOrdPairs R (l1 ++ x :: l2) ↔ Forall (R x) (l1 ++ l2) ∧ ForallOrdPairs R (l1 ++ l2).
Proof.
  induction l1 as [|y l1 IH]; simpl.
  - split; [by inversion 1 | intros []; by constructor].
  - rewrite Forall_cons_iff. split.
    + inversion_clear 1 as [|? ? Hy Hr]. apply IH in Hr as [??].
      rewrite Forall_app, Forall_cons_iff in Hy. destruct Hy as (? & ? & ?).
      split_and!; [by symmetry|done|]. constructor; [by rewrite Forall_app|done].
    + intros ((? & ?) & Hr). inversion_clear Hr as [|? ? Hy Hr'].
      rewrite Forall_app in Hy. destruct Hy. constructor; [|by apply IH].
      rewrite Forall_app, Forall_cons_iff. split_and!; [done|by symmetry|done].
Qed.

Lemma client_step_inv c c' : client_step c c' → client_inv c → client_inv c'.
Proof.
  intros [s held n f s' Hn Ha|s held n e s' Hn Ha|s held1 f n held2 s' Hd] (Hi & Hh & Hp); simpl in *.
  - destruct (alloc_managed_law s n _ _ Hi Hn Ha) as [Hm Hmf].
    destruct (alloc_contiguous_law s n Hi Hn) as (r & s2 & Ha2 & Hi' & Hr).
    rewrite Ha in Ha2. injection Ha2 as <- <-. destruct Hr as (_ & _ & Hwas & Hnow).
    split_and!; simpl; [done | |].
    + constructor; [split; [done|]; intros g Hg; rewrite Hm, Hnow; naive_solver|].
      eapply Forall_impl; [|exact Hh]. intros p [Hpn Hp']. split; [done|].
      intros g Hg%Hp'. rewrite Hm, Hnow. naive_solver.
    + constructor; [|done]. eapply Forall_impl; [|exact Hh].
      intros p [_ Hp'] g [Hg1%Hwas Hg2%Hp']. naive_solver.
  - destruct (alloc_managed_law s n _ _ Hi Hn Ha) as [Hm _].
    destruct (alloc_contiguous_law s n Hi Hn) as (r & s2 & Ha2 & Hi' & Hr).
    rewrite Ha in Ha2. injection Ha2 as <- <-. split_and!; simpl; [done | |done].
    eapply Forall_impl; [|exact Hh]. intros p [Hpn Hp']. split; [done|].
    intros g Hg%Hp'. by rewrite Hm, Hr.
  - rewrite Forall_app, Forall_cons_iff in Hh. destruct Hh as (Hh1 & [Hn Hf] & Hh2).
    apply ordpairs_middle in Hp as [Hdis Hp]; [|apply _].
    destruct (dealloc_contiguous_law s f n Hi Hn) as (s2 & Hd2 & Hi' & Hm & Hfr); [naive_solver|].
    rewrite Hd in Hd2. injection Hd2 as <-. split_and!; simpl; [done| |done].
    assert (Forall (held_run s) (held1 ++ held2)) as Hh by by rewrite Forall_app.
    rewrite Forall_forall in Hh, Hdis |- *. intros p Hin.
    destruct (Hh p Hin) as [Hpn Hp']. pose proof (Hdis p Hin) as Hdp. split; [done|]. intros g Hg. rewrite Hm, Hfr.
    specialize (Hp' g Hg). specialize (Hdp g). naive_solver.
Qed.

Lemma client_steps_inv s c :
  alloc_inv s → rtc client_step (s, []) c → client_inv c.
Proof.
  intros Hi Hsteps. assert (client_inv (s, [])) as Hc by (split_and!; simpl; [done|constructor..]).
  clear Hi. revert Hc. induction Hsteps; eauto using client_step_inv.
Qed.

End Client.
