(* ===== verification/Global.v ===== *)
(** * Global: the global frame allocators

    [GlobalAllocator] of [kernel_api/src/memory/physical.rs] and how the kernel
    sets it ([kernel/src/memory/physical.rs]).  The allocator is looked up behind
    a reader-writer lock (see [RwLock]); each call is one step here.  Once an
    allocator is set the global one keeps the contracts of [Allocator], so that
    [Mapping] and [OldMapping] hold with it. *)

From stdpp Require Import base gmap list numbers option.
From S2P Require Import Prelude Memory Allocator.

Open Scope Z_scope.

Record GlobalAllocator (S : Type) := mkGlobal { rwlock : option S }.
Arguments mkGlobal {S} rwlock.
Arguments rwlock {S} _.

Section Global.
Context {S : Type} `{BackingAllocator S}.

(** The methods; [expect] panics when no allocator is set. *)
Definition global_allocate_contiguous (g : GlobalAllocator S) (frame_count : Z) :
    outcome (result Frame AllocError * GlobalAllocator S) :=
  s ← expect (rwlock g);
  '(r, s) ← allocate_contiguous s frame_count;
  Ret (r, mkGlobal (Some s)).

Definition global_deallocate_contiguous (g : GlobalAllocator S) (base : Frame) (frame_count : Z) :
    outcome (GlobalAllocator S) :=
  s ← expect (rwlock g);
  s ← deallocate_contiguous s base frame_count;
  Ret (mkGlobal (Some s)).

Definition global_allocate_at (g : GlobalAllocator S) (frame_count : Z) (location : SpecificLocation) :
    outcome (result Frame AllocError * GlobalAllocator S) :=
  s ← expect (rwlock g);
  '(r, s) ← allocate_at s frame_count location;
  Ret (r, mkGlobal (Some s)).

#[global] Instance global_backing : BackingAllocator (GlobalAllocator S) := {
  allocate_contiguous := global_allocate_contiguous;
  deallocate_contiguous := global_deallocate_contiguous;
  allocate_at := global_allocate_at
}.

(** [init_highmem] and [init_dmamem]. *)
Definition init_highmem (allocator : S) (g : GlobalAllocator S) : GlobalAllocator S := mkGlobal (Some allocator).

(** [with_highmem_as]: [f] runs with [allocator] in place of the one that is set,
    which the guard puts back, also when [f] panics.  What became of [allocator]
    is returned because the caller keeps its reference. *)
Definition with_highmem_as {R : Type} (allocator : S) (f : GlobalAllocator S → outcome R * GlobalAllocator S)
    (g : GlobalAllocator S) : outcome R * option S * GlobalAllocator S :=
  let old_highmem := rwlock g in
  let '(r, g) := f (mkGlobal (Some allocator)) in
  (r, rwlock g, mkGlobal old_highmem).

End Global.

#[global] Instance global_lawful {S : Type} `{LawfulAllocator S} : LawfulAllocator (GlobalAllocator S).
Proof.
  refine {| alloc_inv g := match rwlock g with Some s => alloc_inv s | None => False end;
    alloc_free g f := match rwlock g with Some s => alloc_free s f | None => False end |}.
  intros [[s|]] n Hinv Hn; simpl in *; [|done].
  destruct (alloc_contiguous_law s n Hinv Hn) as (r & s' & Ha & Hinv' & Hr).
  exists r, (mkGlobal (Some s')). split; [|done]. unfold global_allocate_contiguous. simpl. by rewrite Ha.
Defined.

#[global] Instance global_reclaiming {S : Type} `{ReclaimingAllocator S} : ReclaimingAllocator (GlobalAllocator S).
Proof.
  refine {| alloc_managed g f := match rwlock g with Some s => alloc_managed s f | None => False end |}.
  - intros [[s|]] n r g' Hinv Hn Ha; simpl in *; [|done]. unfold global_allocate_contiguous in Ha. simpl in Ha.
    destruct (allocate_contiguous s n) as [[r1 s1]|] eqn:E; [|done]. injection Ha as <- <-.
    by apply (alloc_managed_law s n r1 s1).
  - intros [[s|]] f n Hinv Hn Hm; simpl in *; [|done].
    destruct (dealloc_contiguous_law s f n Hinv Hn Hm) as (s' & Hd & Hinv' & Hm' & Hf').
    exists (mkGlobal (Some s')). split; [|done]. unfold global_deallocate_contiguous. simpl. by rewrite Hd.
Defined.

(** Nothing can be allocated before an allocator is set. *)
Lemma global_unset {S : Type} `{BackingAllocator S} n :
  allocate_contiguous (mkGlobal (S := S) None) n = Panic UnwrapFailed.
Proof. done. Qed.

(** [with_highmem_as] leaves the global allocator as it found it. *)
Lemma with_highmem_as_restores {S R : Type} `{BackingAllocator S} (a : S)
    (f : GlobalAllocator S → outcome R * GlobalAllocator S) g :
  (with_highmem_as a f g).2 = g.
Proof. unfold with_highmem_as. destruct (f _). by destruct g. Qed.
