(* ===== verification/Bitmap.v ===== *)
(** * Bitmap: the physical frame allocator

    [bitmap_allocator/src/lib.rs].  A word of the bitmap is a [usize]; the source
    divides frame numbers by [size_of::<usize>()], so a word keeps the state of
    eight frames in its low byte, a set bit being a free frame.  [wf] is the
    invariant behind that: no word ever has a bit above the low byte. *)

From stdpp Require Import base gmap list numbers option.
From S2P Require Import Prelude Memory Allocator.

Open Scope Z_scope.

(** [mem::size_of::<usize>()]. *)
Definition SIZE_OF_USIZE : Z := 8.

Inductive FrameState := Allocated | Free.
Inductive OutOfRangeError := OutOfRange.

#[global] Instance FrameState_eq_dec : EqDecision FrameState.
Proof. solve_decision. Defined.

#[global] Instance OutOfRangeError_eq_dec : EqDecision OutOfRangeError.
Proof. solve_decision. Defined.

Record BitmapAllocator := mkBitmap { first_frame : Frame; bitmap : list Z }.

Section Operations.
Implicit Types (a : BitmapAllocator) (f : Frame).

Definition last_frame a : outcome Frame :=
  n ← usize_mul (Z.of_nat (length (bitmap a))) SIZE_OF_USIZE;
  FrameOps.add (first_frame a) n.

Definition frame_to_indices a f : outcome (Z * Z) :=
  _ ← assert (FrameOps.leb (first_frame a) f);
  n ← FrameOps.diff f (first_frame a);
  Ret (n / SIZE_OF_USIZE, n mod SIZE_OF_USIZE).

(** [(frame < self.first_frame) || (frame >= self.last_frame())]. *)
Definition out_of_range a f : outcome bool :=
  if FrameOps.ltb f (first_frame a) then Ret true
  else l ← last_frame a; Ret (FrameOps.leb l f).

Definition set_frame a f (state : FrameState) :
    outcome (result unit OutOfRangeError * BitmapAllocator) :=
  oor ← out_of_range a f;
  if (oor : bool) then Ret (Err OutOfRange, a) else
  '(bitmap_index, bit_index) ← frame_to_indices a f;
  w ← index (bitmap a) bitmap_index;
  m ← usize_shl 1 bit_index;
  let w' := match state with
            | Allocated => Z.land w (usize_not m)
            | Free => Z.lor w m
            end in
  Ret (Ok tt, mkBitmap (first_frame a) (<[Z.to_nat bitmap_index := w']> (bitmap a))).

Definition get_frame a f : outcome (result FrameState OutOfRangeError) :=
  oor ← out_of_range a f;
  if (oor : bool) then Ret (Err OutOfRange) else
  '(bitmap_index, bit_index) ← frame_to_indices a f;
  w ← index (bitmap a) bitmap_index;
  m ← usize_shl 1 bit_index;
  Ret (Ok (if Z.land w m =? 0 then Allocated else Free)).

(** [BitmapAllocator::new]: every frame starts allocated. *)
Definition new_bitmap (first : Frame) (frame_count : Z) : BitmapAllocator :=
  mkBitmap first (replicate (Z.to_nat (frame_count / SIZE_OF_USIZE)) 0).

(** The loop of [allocate_one] from word [i] on; gives the words back. *)
Fixpoint allocate_one_from (first : Frame) (i : Z) (ws : list Z) :
    outcome (result Frame AllocError * list Z) :=
  match ws with
  | [] => Ret (Err AllocErr, [])
  | entry :: ws =>
      let first_set_bit := trailing_zeros entry in
      if first_set_bit =? SIZE_OF_USIZE * 8 then
        '(r, ws') ← allocate_one_from first (i + 1) ws; Ret (r, entry :: ws')
      else
        m ← usize_shl 1 first_set_bit;
        bits_to_start ← usize_mul i SIZE_OF_USIZE;
        s ← FrameOps.add first bits_to_start;
        start ← FrameOps.add s first_set_bit;
        Ret (Ok start, Z.land entry (usize_not m) :: ws)
  end.

Definition bitmap_allocate_one a : outcome (result Frame AllocError * BitmapAllocator) :=
  '(r, ws) ← allocate_one_from (first_frame a) 0 (bitmap a);
  Ret (r, mkBitmap (first_frame a) ws).

(** The slides of one word: the first one under which the mask is free. *)
Fixpoint try_slides (entry mask : Z) (slides : list Z) : outcome (option Z) :=
  match slides with
  | [] => Ret None
  | slide :: slides =>
      shifted ← usize_shr entry slide;
      if Z.land shifted mask =? mask then Ret (Some slide) else try_slides entry mask slides
  end.

(** [allocate_multiple_fast], from the word [i] on; the slides are [first_set_bit..hi]. *)
Fixpoint allocate_fast_from (first : Frame) (frame_count mask i : Z) (ws : list Z) :
    outcome (result Frame AllocError * list Z) :=
  match ws with
  | [] => Ret (Err AllocErr, [])
  | entry :: ws =>
      let first_set_bit := trailing_zeros entry in
      hi ← usize_sub SIZE_OF_USIZE frame_count;
      found ← try_slides entry mask (seqZ first_set_bit (hi - first_set_bit));
      match found with
      | None => '(r, ws') ← allocate_fast_from first frame_count mask (i + 1) ws;
                Ret (r, entry :: ws')
      | Some slide =>
          m ← usize_shl mask slide;
          bits_to_start ← usize_mul i SIZE_OF_USIZE;
          s ← FrameOps.add first bits_to_start;
          start ← FrameOps.add s slide;
          Ret (Ok start, Z.land entry (usize_not m) :: ws)
      end
  end.

Definition allocate_multiple_fast a (frame_count : Z) :
    outcome (result Frame AllocError * BitmapAllocator) :=
  _ ← assert (1 <? frame_count);
  if SIZE_OF_USIZE <? frame_count then Ret (Err AllocErr, a) else
  n1 ← usize_sub frame_count 1;
  m ← usize_shl 2 n1;
  mask ← usize_sub m 1;
  '(r, ws) ← allocate_fast_from (first_frame a) frame_count mask 0 (bitmap a);
  Ret (r, mkBitmap (first_frame a) ws).

(** The two locals of the slow search that survive an iteration:
    [found_contiguous_frames] and [contiguous_frames_start]. *)
Record search := mkSearch { found_frames : Z; frames_start : option (Z * Z) }.

(** The inner loop; [true] stands for [found = true; break 'outer]. *)
Fixpoint search_bits (word_idx entry frame_count : Z) (bits : list Z) (st : search) :
    outcome (bool * search) :=
  match bits with
  | [] => Ret (false, st)
  | bit_idx :: bits =>
      sh ← usize_shr entry bit_idx;
      if Z.land sh 1 =? 1 then
        let start := if found_frames st =? 0 then Some (word_idx, bit_idx) else frames_start st in
        n ← usize_add (found_frames st) 1;
        if n =? frame_count then Ret (true, mkSearch n start)
        else search_bits word_idx entry frame_count bits (mkSearch n start)
      else search_bits word_idx entry frame_count bits (mkSearch 0 None)
  end.

Fixpoint search_words (word_idx frame_count : Z) (ws : list Z) (st : search) :
    outcome (bool * search) :=
  match ws with
  | [] => Ret (false, st)
  | entry :: ws =>
      '(found, st) ← search_bits word_idx entry frame_count (seqZ 0 SIZE_OF_USIZE) st;
      if (found : bool) then Ret (true, st) else search_words (word_idx + 1) frame_count ws st
  end.

(** [self.set_frame(frame, state).expect(..)] for each frame of a list. *)
Definition set_frames (state : FrameState) (fs : list Frame) a : outcome BitmapAllocator :=
  for_each fs (λ f a, '(r, a) ← set_frame a f state; _ ← expect_ok r; Ret a) a.

Definition allocate_multiple_slow a (frame_count : Z) :
    outcome (result Frame AllocError * BitmapAllocator) :=
  _ ← assert (1 <? frame_count);
  '(found, st) ← search_words 0 frame_count (bitmap a) (mkSearch 0 None);
  if negb found then Ret (Err AllocErr, a) else
  '(w, b) ← expect (frames_start st);
  n ← usize_mul w SIZE_OF_USIZE;
  s ← FrameOps.add (first_frame a) n;
  start ← FrameOps.add s b;
  e ← FrameOps.add start frame_count;
  a ← set_frames Allocated (FrameOps.range start e) a;
  Ret (Ok start, a).

(** [Wrapped::allocate_contiguous]. *)
Definition bitmap_allocate_contiguous a (frame_count : Z) :
    outcome (result Frame AllocError * BitmapAllocator) :=
  if frame_count =? 0 then z ← FrameOps.zero; Ret (Ok z, a)
  else if frame_count =? 1 then bitmap_allocate_one a
  else
    '(r, a) ← allocate_multiple_fast a frame_count;
    match r with
    | Ok f => Ret (Ok f, a)
    | Err _ => allocate_multiple_slow a frame_count
    end.

(** [Wrapped::deallocate_contiguous]: [base + i] for each [i in 0..frame_count]. *)
Definition bitmap_deallocate_contiguous a (base : Frame) (frame_count : Z) :
    outcome BitmapAllocator :=
  for_each (seqZ 0 frame_count) (λ i a,
    f ← FrameOps.add base i;
    '(r, a) ← set_frame a f Free; _ ← expect_ok r; Ret a) a.

(** [Wrapped::push]: out of range frames are ignored. *)
Definition push a (m : AllocationMeta) : outcome BitmapAllocator :=
  for_each (FrameOps.range (region m).1 (region m).2)
    (λ f a, '(_, a) ← set_frame a f Allocated; Ret a) a.

(** The [all] of [allocate_at]. *)
Fixpoint all_free a (fs : list Frame) : outcome bool :=
  match fs with
  | [] => Ret true
  | f :: fs =>
      r ← get_frame a f;
      match r with
      | Ok Free => all_free a fs
      | _ => Ret false
      end
  end.

(** [Wrapped::allocate_at]. *)
Definition bitmap_allocate_at a (frame_count : Z) (location : SpecificLocation) :
    outcome (result Frame AllocError * BitmapAllocator) :=
  if frame_count =? 0 then z ← FrameOps.zero; Ret (Ok z, a) else
  match location with
  | Aligned _ => Panic NotImplemented
  | At addr =>
      e ← FrameOps.add addr frame_count;
      free ← all_free a (FrameOps.range addr e);
      if negb free then Ret (Err AllocErr, a)
      else a ← set_frames Allocated (FrameOps.range addr e) a; Ret (Ok addr, a)
  | Below _ _ => Panic NotImplemented
  end.

(** [<Wrapped as SizedBackingAllocator>::new]. *)
Definition bitmap_new (config : Config) : outcome BitmapAllocator :=
  let '(s, e) := allocation_range config in
  n ← FrameOps.diff e s;
  for_each (regions config) (λ r a, set_frames Free (FrameOps.range r.1 r.2) a) (new_bitmap s n).

End Operations.

#[global] Instance bitmap_backing : BackingAllocator BitmapAllocator := {
  allocate_contiguous := bitmap_allocate_contiguous;
  deallocate_contiguous := bitmap_deallocate_contiguous;
  allocate_at := bitmap_allocate_at
}.

(** ** The bits of a bitmap *)

Definition word_ok (w : Z) : Prop := 0 ≤ w < 2 ^ 8.

(** The bit of frame number [n]: word [n / 8], bit [n mod 8]. *)
Definition bit_at (ws : list Z) (n : Z) : bool :=
  (0 <=? n) && match ws !! Z.to_nat (n / 8) with
               | Some w => Z.testbit w (n mod 8)
               | None => false
               end.

(** Frame number [n] of an allocator whose first frame is [first]. *)
Definition fr (first : Frame) (n : Z) : Frame := frame_at (frame_addr first + n * PAGE_SIZE).

Definition bits_len (ws : list Z) : Z := 8 * Z.of_nat (length ws).

Definition capacity (a : BitmapAllocator) : Z := bits_len (bitmap a).

Definition is_free (a : BitmapAllocator) (n : Z) : bool := bit_at (bitmap a) n.

(** The invariant of the allocator. *)
Definition wf (a : BitmapAllocator) : Prop :=
  wf_frame (first_frame a) ∧ Forall word_ok (bitmap a) ∧
  frame_addr (first_frame a) + capacity a * PAGE_SIZE ≤ usize_max.

(** [n] free frames from number [k] on. *)
Definition free_run (ws : list Z) (k n : Z) : Prop :=
  0 ≤ k ∧ k + n ≤ bits_len ws ∧ ∀ m, k ≤ m < k + n → bit_at ws m = true.

(** [ws'] is [ws] with the [n] bits from [k] on cleared. *)
Definition cleared (ws ws' : list Z) (k n : Z) : Prop :=
  length ws' = length ws ∧ Forall word_ok ws' ∧
  ∀ m, bit_at ws' m = bit_at ws m && negb ((k <=? m) && (m <? k + n)).

Lemma bit_at_neg ws n : n < 0 → bit_at ws n = false.
Proof. intros. unfold bit_at. by rewrite (proj2 (Z.leb_gt _ _)). Qed.

Lemma bit_at_ge ws n : bits_len ws ≤ n → bit_at ws n = false.
Proof.
  intros Hn. unfold bit_at, bits_len in *. rewrite lookup_ge_None_2; [by rewrite andb_false_r|].
  assert (Z.of_nat (length ws) ≤ n / 8) by (apply Z.div_le_lower_bound; lia). lia.
Qed.

Lemma bit_at_cons w ws n :
  bit_at (w :: ws) n = if n <? 8 then (0 <=? n) && Z.testbit w n else bit_at ws (n - 8).
Proof.
  unfold bit_at. destruct (Z.ltb_spec n 8), (Z.leb_spec 0 n); simpl; try lia; try done.
  - by rewrite Z.div_small, Z.mod_small by lia.
  - rewrite (proj2 (Z.leb_le _ _)) by lia. simpl.
    assert (0 ≤ (n - 8) / 8) by (apply Z.div_pos; lia).
    replace (n / 8) with ((n - 8) / 8 + 1) by (Z.div_mod_to_equations; lia).
    replace (n mod 8) with ((n - 8) mod 8) by (Z.div_mod_to_equations; lia).
    replace (Z.to_nat ((n - 8) / 8 + 1)) with (S (Z.to_nat ((n - 8) / 8))) by lia. done.
Qed.

Lemma bit_at_nil n : bit_at [] n = false.
Proof. unfold bit_at. simpl. by rewrite andb_false_r. Qed.

Lemma bit_at_lookup ws i w b :
  ws !! i = Some w → 0 ≤ b < 8 → bit_at ws (8 * Z.of_nat i + b) = Z.testbit w b.
Proof.
  intros Hi Hb. unfold bit_at. rewrite (proj2 (Z.leb_le _ _)) by lia.
  replace (8 * Z.of_nat i + b) with (b + Z.of_nat i * 8) by lia.
  rewrite Z.div_add, Z.mod_add, Z.div_small, Z.mod_small by lia.
  by rewrite Z.add_0_l, Nat2Z.id, Hi.
Qed.

Lemma bit_at_insert ws i w n :
  (i < length ws)%nat →
  bit_at (<[i := w]> ws) n =
  if n / 8 =? Z.of_nat i then (0 <=? n) && Z.testbit w (n mod 8) else bit_at ws n.
Proof.
  intros Hi. unfold bit_at. destruct (Z.leb_spec 0 n) as [Hn|]; simpl; [|by case_Z].
  assert (0 ≤ n / 8) by (apply Z.div_pos; lia).
  destruct (Z.eqb_spec (n / 8) (Z.of_nat i)) as [E|E].
  - by rewrite E, Nat2Z.id, list_lookup_insert_eq.
  - rewrite list_lookup_insert_ne by lia. done.
Qed.

(** Words below [2 ^ 8] are determined by their bits. *)
Lemma bits_ext ws ws' :
  Forall word_ok ws → Forall word_ok ws' → length ws = length ws' →
  (∀ n, bit_at ws n = bit_at ws' n) → ws = ws'.
Proof.
  intros H1 H2 Hlen Hb. apply list_eq_same_length with (length ws); [done..|].
  intros i w w' Hi Hw Hw'. rewrite Forall_lookup in H1, H2.
  specialize (H1 _ _ Hw). specialize (H2 _ _ Hw'). unfold word_ok in *.
  apply Z.bits_inj'. intros b Hb0. destruct (decide (b < 8)).
  - specialize (Hb (8 * Z.of_nat i + b)).
    by rewrite (bit_at_lookup _ _ _ _ Hw), (bit_at_lookup _ _ _ _ Hw') in Hb by lia.
  - by rewrite !(testbit_above 8) by lia.
Qed.

(** ** Words *)

(** Clearing the bits of a mask. *)
Lemma clear_mask_spec w m i :
  word_ok w → 0 ≤ i →
  Z.testbit (Z.land w (usize_not m)) i = Z.testbit w i && negb (Z.testbit m i).
Proof.
  intros Hw Hi. rewrite Z.land_spec, usize_not_spec by done.
  case_Z; [by rewrite xorb_true_r|].
  rewrite (testbit_above 8 w i) by (unfold word_ok in *; lia). done.
Qed.

Lemma clear_mask_ok w m : word_ok w → word_ok (Z.land w (usize_not m)).
Proof.
  intros Hw. assert (0 ≤ Z.land w (usize_not m)) as Hnn.
  { apply Z.land_nonneg. left. unfold word_ok in Hw. lia. }
  split; [done|]. apply bits_bounded; [lia|done|]. intros i Hi.
  rewrite clear_mask_spec, (testbit_above 8 w i) by (unfold word_ok in *; try done; lia). done.
Qed.

Lemma set_bit_spec w b i :
  0 ≤ b → Z.testbit (Z.lor w (Z.shiftl 1 b)) i = Z.testbit w i || (i =? b).
Proof. intros. by rewrite Z.lor_spec, testbit_single. Qed.

Lemma set_bit_ok w b : word_ok w → 0 ≤ b < 8 → word_ok (Z.lor w (Z.shiftl 1 b)).
Proof.
  intros Hw Hb. unfold word_ok in *.
  assert (0 ≤ Z.lor w (Z.shiftl 1 b)).
  { apply Z.lor_nonneg. split; [lia|]. apply Z.shiftl_nonneg. lia. }
  split; [done|]. apply bits_bounded; [lia|done|]. intros i Hi.
  rewrite set_bit_spec, (testbit_above 8 w i) by lia. simpl. case_Z; [lia|done].
Qed.

(** ** [set_frame] and [get_frame] *)

Lemma fr_addr first n : frame_addr (fr first n) = frame_addr first + n * PAGE_SIZE.
Proof. done. Qed.

Lemma last_frame_ok a : wf a → last_frame a = Ret (fr (first_frame a) (capacity a)).
Proof.
  intros ([[Hlo Hhi] _] & _ & Hb). unfold last_frame.
  unfold capacity, bits_len, SIZE_OF_USIZE, PAGE_SIZE in *.
  rewrite usize_mul_ok by lia. simpl. rewrite frame_add_ok by (unfold PAGE_SIZE; lia).
  unfold fr. do 3 f_equal. unfold PAGE_SIZE. lia.
Qed.

Lemma out_of_range_ok a n :
  wf a → out_of_range a (fr (first_frame a) n) = Ret ((n <? 0) || (capacity a <=? n)).
Proof.
  intros Hwf. unfold out_of_range, FrameOps.ltb, FrameOps.leb.
  rewrite last_frame_ok by done. simpl. rewrite !fr_addr. unfold PAGE_SIZE.
  destruct (Z.ltb_spec n 0), (Z.ltb_spec (frame_addr (first_frame a) + n * 4096)
    (frame_addr (first_frame a))); try lia; simpl; [done|].
  f_equal. repeat case_Z; lia.
Qed.

Lemma frame_to_indices_ok a n :
  0 ≤ n → frame_to_indices a (fr (first_frame a) n) = Ret (n / 8, n mod 8).
Proof.
  intros Hn. unfold frame_to_indices, FrameOps.leb. rewrite fr_addr.
  rewrite (proj2 (Z.leb_le _ _)) by (unfold PAGE_SIZE; lia). simpl.
  rewrite frame_diff_ok by (rewrite fr_addr; unfold PAGE_SIZE; lia). simpl. rewrite fr_addr.
  replace (frame_addr (first_frame a) + n * PAGE_SIZE - frame_addr (first_frame a))
    with (n * PAGE_SIZE) by lia.
  by rewrite Z.div_mul.
Qed.

Lemma word_at a n :
  wf a → 0 ≤ n < capacity a →
  ∃ w, bitmap a !! Z.to_nat (n / 8) = Some w ∧ word_ok w ∧ is_free a n = Z.testbit w (n mod 8).
Proof.
  intros (_ & Hok & _) Hn. unfold capacity, bits_len in Hn.
  destruct (lookup_lt_is_Some_2 (bitmap a) (Z.to_nat (n / 8))) as [w Hw].
  { assert (n / 8 < Z.of_nat (length (bitmap a))) by (apply Z.div_lt_upper_bound; lia).
    assert (0 ≤ n / 8) by (apply Z.div_pos; lia). lia. }
  exists w. split_and!; [done | by eapply Forall_lookup in Hok | ].
  unfold is_free, bit_at. rewrite Hw. by rewrite (proj2 (Z.leb_le _ _)) by lia.
Qed.

(** [a'] is [a] with the state of the frames satisfying [P] changed to [state]. *)
Definition updated (a a' : BitmapAllocator) (P : Z → bool) (state : FrameState) : Prop :=
  wf a' ∧ first_frame a' = first_frame a ∧ capacity a' = capacity a ∧
  ∀ m, 0 ≤ m < capacity a →
    is_free a' m = if P m then bool_decide (state = Free) else is_free a m.

Lemma set_frame_in a n state :
  wf a → 0 ≤ n < capacity a →
  ∃ a', set_frame a (fr (first_frame a) n) state = Ret (Ok tt, a') ∧
    updated a a' (λ m, m =? n) state.
Proof.
  intros Hwf Hn. destruct (word_at a n Hwf Hn) as (w & Hw & Hok & Hfree).
  unfold set_frame. rewrite out_of_range_ok by done.
  rewrite (proj2 (Z.ltb_ge _ _)), (proj2 (Z.leb_gt _ _)) by lia. simpl.
  rewrite frame_to_indices_ok by lia. simpl.
  assert (0 ≤ n / 8) as Hd by (apply Z.div_pos; lia).
  pose proof (Z.mod_pos_bound n 8 ltac:(lia)) as Hm.
  rewrite (index_ok _ _ _ Hd Hw). simpl. rewrite usize_shl_1 by lia. simpl.
  eexists. split; [done|].
  set (w' := match state with Allocated => _ | Free => _ end).
  assert (word_ok w') as Hok'.
  { destruct state; [by apply clear_mask_ok | apply set_bit_ok; [done|lia]]. }
  assert (∀ i, 0 ≤ i → Z.testbit w' i =
    if i =? n mod 8 then bool_decide (state = Free) else Z.testbit w i) as Hbits.
  { intros i Hi. subst w'. destruct state.
    - rewrite clear_mask_spec, testbit_single by (done || lia). case_Z; simpl; by rewrite ?andb_false_r, ?andb_true_r.
    - rewrite set_bit_spec by lia. case_Z; simpl; by rewrite ?orb_true_r, ?orb_false_r. }
  destruct Hwf as (Hff & Hall & Hb). pose proof (lookup_lt_Some _ _ _ Hw) as Hlt.
  assert (capacity (mkBitmap (first_frame a) (<[Z.to_nat (n / 8):=w']> (bitmap a))) = capacity a) as Hcap.
  { unfold capacity, bits_len. cbn. by rewrite length_insert. }
  split_and!; [split_and!|done|done|].
  - done.
  - cbn. by apply Forall_insert.
  - by rewrite Hcap.
  - intros m Hm'. unfold is_free. cbn [bitmap]. rewrite bit_at_insert by done.
    rewrite Z2Nat.id by lia. rewrite (proj2 (Z.leb_le 0 m)) by lia. simpl.
    pose proof (Z.mod_pos_bound m 8 ltac:(lia)). rewrite Hbits by lia.
    destruct (Z.eqb_spec (m / 8) (n / 8)) as [E|E].
    + destruct (Z.eqb_spec m n) as [->|Hne]; [by rewrite Z.eqb_refl|].
      rewrite (proj2 (Z.eqb_neq _ _)) by (Z.div_mod_to_equations; lia).
      unfold bit_at. rewrite E, Hw. by rewrite (proj2 (Z.leb_le _ _)) by lia.
    + by destruct (Z.eqb_spec m n) as [->|]; [|].
Qed.

Lemma set_frame_out a n state :
  wf a → n < 0 ∨ capacity a ≤ n →
  set_frame a (fr (first_frame a) n) state = Ret (Err OutOfRange, a).
Proof.
  intros Hwf Hn. unfold set_frame. rewrite out_of_range_ok by done.
  replace ((n <? 0) || (capacity a <=? n)) with true; [done|].
  destruct Hn; [rewrite (proj2 (Z.ltb_lt n 0)) by done | rewrite (proj2 (Z.leb_le (capacity a) n)) by done];
    by rewrite ?orb_true_r.
Qed.

Lemma get_frame_ok a n :
  wf a → get_frame a (fr (first_frame a) n) = Ret
    (if (0 <=? n) && (n <? capacity a)
     then Ok (if is_free a n then Free else Allocated) else Err OutOfRange).
Proof.
  intros Hwf. unfold get_frame. rewrite out_of_range_ok by done.
  destruct (Z.leb_spec 0 n) as [H0|H0]; simpl; last first.
  { by rewrite (proj2 (Z.ltb_lt _ _)). }
  rewrite (proj2 (Z.ltb_ge n 0)) by done. simpl.
  destruct (Z.ltb_spec n (capacity a)) as [H1|H1]; last first.
  { by rewrite (proj2 (Z.leb_le _ _)). }
  rewrite (proj2 (Z.leb_gt _ _)) by done. simpl.
  destruct (word_at a n Hwf) as (w & Hw & Hok & Hfree); [lia|].
  rewrite frame_to_indices_ok by lia. simpl.
  assert (0 ≤ n / 8) as Hd by (apply Z.div_pos; lia).
  pose proof (Z.mod_pos_bound n 8 ltac:(lia)) as Hm.
  rewrite (index_ok _ _ _ Hd Hw). simpl. rewrite usize_shl_1 by lia. simpl.
  rewrite land_single, Hfree by lia. by destruct (Z.testbit w (n mod 8)).
Qed.

(** ** Runs of frames *)

Lemma range_fr first k n :
  0 ≤ n → FrameOps.range (fr first k) (fr first (k + n)) = fr first <$> seqZ k n.
Proof.
  intros Hn. replace (fr first (k + n)) with (frame_at (frame_addr (fr first k) + n * PAGE_SIZE));
    [|apply frame_addr_inj; rewrite fr_addr; cbn; lia].
  rewrite range_seq by done. replace (seqZ k n) with (seqZ (k + 0) n) by (f_equal; lia).
  rewrite <-fmap_add_seqZ, <-list_fmap_compose.
  apply list_fmap_ext. intros i x Hx. apply frame_addr_inj. cbn. lia.
Qed.

Lemma fr_fr first k i : fr (fr first k) i = fr first (k + i).
Proof. apply frame_addr_inj. rewrite !fr_addr. lia. Qed.

Lemma fr_0 first : fr first 0 = first.
Proof. apply frame_addr_inj. rewrite fr_addr. lia. Qed.

Lemma frame_add_fr first k i :
  0 ≤ frame_addr first → 0 ≤ k → 0 ≤ i → frame_addr first + (k + i) * PAGE_SIZE ≤ usize_max →
  FrameOps.add (fr first k) i = Ret (fr first (k + i)).
Proof.
  intros. rewrite frame_add_ok by (rewrite ?fr_addr; unfold PAGE_SIZE in *; lia).
  f_equal. apply fr_fr.
Qed.

Lemma frame_add_first first k :
  0 ≤ frame_addr first → 0 ≤ k → frame_addr first + k * PAGE_SIZE ≤ usize_max →
  FrameOps.add first k = Ret (fr first k).
Proof. intros. by rewrite frame_add_ok by lia. Qed.

Lemma updated_refl a state : wf a → updated a a (λ _, false) state.
Proof. done. Qed.

Lemma updated_ext a a' P Q state :
  (∀ m, 0 ≤ m < capacity a → P m = Q m) → updated a a' P state → updated a a' Q state.
Proof.
  intros HPQ (Hwf & Hf & Hc & Hb). split_and!; try done.
  intros m Hm. rewrite Hb, HPQ by done. done.
Qed.

Lemma updated_trans a1 a2 a3 P Q state :
  updated a1 a2 P state → updated a2 a3 Q state → updated a1 a3 (λ m, P m || Q m) state.
Proof.
  intros (? & Hf & Hc & Hb) (? & Hf' & Hc' & Hb'). split_and!; try congruence.
  intros m Hm. rewrite Hb' by lia. destruct (Q m); [by rewrite orb_true_r|].
  rewrite Hb by done. by rewrite orb_false_r.
Qed.

Lemma updated_cons a1 a2 a3 k ks state :
  updated a1 a2 (λ m, m =? k) state → updated a2 a3 (λ m, bool_decide (m ∈ ks)) state →
  updated a1 a3 (λ m, bool_decide (m ∈ k :: ks)) state.
Proof.
  intros Hu1 Hu2. eapply updated_ext; [|by eapply updated_trans]. intros m Hm. cbv beta.
  destruct (Z.eqb_spec m k) as [->|]; simpl; symmetry.
  - apply bool_decide_eq_true_2. set_solver.
  - apply bool_decide_ext. set_solver.
Qed.

Lemma set_frames_list a ks state :
  wf a → (∀ k, k ∈ ks → 0 ≤ k < capacity a) →
  ∃ a', set_frames state (fr (first_frame a) <$> ks) a = Ret a' ∧
    updated a a' (λ m, bool_decide (m ∈ ks)) state.
Proof.
  unfold set_frames. revert a. induction ks as [|k ks IH]; intros a Hwf Hks; simpl.
  - exists a. split; [done|]. eapply updated_ext; [|by apply updated_refl]. done.
  - destruct (set_frame_in a k state Hwf) as (a1 & -> & Hu1); [set_solver|]. simpl.
    pose proof Hu1 as (Hwf1 & Hf1 & Hc1 & _).
    destruct (IH a1 Hwf1) as (a2 & Ha2 & Hu2); [intros; rewrite Hc1; set_solver|].
    rewrite Hf1 in Ha2. exists a2. split; [exact Ha2|].
    by eapply updated_cons.
Qed.

(** Setting the [n] frames from number [k] on. *)
Lemma set_frames_run a k n state :
  wf a → 0 ≤ k → 0 ≤ n → k + n ≤ capacity a →
  ∃ a', set_frames state (FrameOps.range (fr (first_frame a) k) (fr (first_frame a) (k + n))) a = Ret a' ∧
    updated a a' (λ m, (k <=? m) && (m <? k + n)) state.
Proof.
  intros Hwf Hk Hn Hb. rewrite range_fr by done.
  destruct (set_frames_list a (seqZ k n) state Hwf) as (a' & Ha' & Hu).
  { intros m Hm%elem_of_seqZ. lia. }
  exists a'. split; [done|]. eapply updated_ext; [|done]. intros m Hm. simpl.
  destruct (Z.leb_spec k m), (Z.ltb_spec m (k + n)); simpl;
    first [apply bool_decide_eq_true_2 | apply bool_decide_eq_false_2]; rewrite elem_of_seqZ; lia.
Qed.

(** ** The searches *)

(** What a search from word [i] on promises for a request of [n] frames. *)
Definition claimed (first : Frame) (n i : Z) (ws : list Z) (r : result Frame AllocError)
    (ws' : list Z) : Prop :=
  match r with
  | Ok f => ∃ k, f = fr first (8 * i + k) ∧ free_run ws k n ∧ cleared ws ws' k n
  | Err _ => ws' = ws
  end.

Lemma bits_len_cons w ws : bits_len (w :: ws) = bits_len ws + 8.
Proof. unfold bits_len. simpl. lia. Qed.

Lemma cleared_cons w ws ws' k n :
  word_ok w → 0 ≤ k → cleared ws ws' k n → cleared (w :: ws) (w :: ws') (k + 8) n.
Proof.
  intros Hw Hk (Hlen & Hok & Hb). split_and!; [by simpl; f_equal | by constructor|].
  intros m. rewrite !bit_at_cons. destruct (Z.ltb_spec m 8).
  - rewrite (proj2 (Z.leb_gt (k + 8) m)) by lia. simpl. by rewrite andb_true_r.
  - rewrite Hb. do 3 f_equal; repeat case_Z; lia || done.
Qed.

Lemma free_run_cons w ws k n : free_run ws k n → free_run (w :: ws) (k + 8) n.
Proof.
  intros (Hk & Hn & Hb). split_and!; [lia | rewrite bits_len_cons; lia |].
  intros m Hm. rewrite bit_at_cons. rewrite (proj2 (Z.ltb_ge _ _)) by lia. apply Hb. lia.
Qed.

Lemma claimed_cons first n i w ws r ws' :
  word_ok w → claimed first n (i + 1) ws r ws' → claimed first n i (w :: ws) r (w :: ws').
Proof.
  intros Hw. destruct r as [f|]; simpl; [|by intros ->].
  intros (k & -> & Hrun & Hcl). exists (k + 8). pose proof Hrun as (Hk & _).
  split_and!; [f_equal; lia | by apply free_run_cons | by apply cleared_cons].
Qed.

(** Clearing [n] bits from bit [s] of the first word. *)
Lemma cleared_head w ws m s n :
  word_ok w → Forall word_ok ws → 0 ≤ s → 0 ≤ n → s + n ≤ 8 →
  (∀ i, 0 ≤ i → Z.testbit m i = (s <=? i) && (i <? s + n)) →
  cleared (w :: ws) (Z.land w (usize_not m) :: ws) s n.
Proof.
  intros Hw Hws Hs Hn Hsn Hm. split_and!; [done | constructor; [by apply clear_mask_ok|done] |].
  intros x. rewrite !bit_at_cons. destruct (Z.ltb_spec x 8).
  - destruct (Z.leb_spec 0 x); simpl; [|done]. by rewrite clear_mask_spec, Hm by done.
  - rewrite (proj2 (Z.ltb_ge x (s + n))) by lia. by rewrite andb_false_r, andb_true_r.
Qed.

Lemma free_run_head w ws s n :
  0 ≤ s → s + n ≤ 8 → (∀ i, s ≤ i < s + n → Z.testbit w i = true) → free_run (w :: ws) s n.
Proof.
  intros Hs Hn Hb. split_and!; [done | rewrite bits_len_cons; unfold bits_len; lia |].
  intros m Hm. rewrite bit_at_cons. rewrite (proj2 (Z.ltb_lt _ _)), (proj2 (Z.leb_le _ _)) by lia.
  simpl. by apply Hb.
Qed.

Lemma fr_steps {A} first i b (K : Frame → outcome A) :
  0 ≤ frame_addr first → 0 ≤ i → 0 ≤ b → frame_addr first + (8 * i + b) * PAGE_SIZE ≤ usize_max →
  (bits ← usize_mul i SIZE_OF_USIZE; s ← FrameOps.add first bits; start ← FrameOps.add s b; K start)
  = K (fr first (8 * i + b)).
Proof.
  intros. unfold SIZE_OF_USIZE, PAGE_SIZE in *. rewrite usize_mul_ok by lia. simpl.
  rewrite frame_add_first by (unfold PAGE_SIZE; lia). simpl.
  rewrite frame_add_fr by (unfold PAGE_SIZE; lia). simpl. do 2 f_equal. lia.
Qed.

(** The answer of a search that takes the lowest run there is. *)
Definition first_fit (first : Frame) (n i : Z) (ws : list Z) (r : result Frame AllocError) : Prop :=
  match r with
  | Ok f => ∃ k, f = fr first (8 * i + k) ∧ free_run ws k n ∧ ∀ j, free_run ws j n → k ≤ j
  | Err _ => ∀ j, ¬ free_run ws j n
  end.

Lemma free_one ws k : free_run ws k 1 ↔ bit_at ws k = true.
Proof.
  split.
  - intros (_ & _ & Hb). apply Hb. lia.
  - intros Hb. destruct (decide (k < 0)); [by rewrite bit_at_neg in Hb|].
    destruct (decide (bits_len ws ≤ k)); [by rewrite bit_at_ge in Hb|].
    split_and!; [lia..|]. intros m ?. by replace m with k by lia.
Qed.

Lemma first_fit_skip first i w ws r :
  (∀ b, 0 ≤ b < 8 → Z.testbit w b = false) →
  first_fit first 1 (i + 1) ws r → first_fit first 1 i (w :: ws) r.
Proof.
  intros Hw. assert (∀ j, free_run (w :: ws) j 1 → free_run ws (j - 8) 1) as Hj.
  { intros j. rewrite !free_one, bit_at_cons. destruct (Z.ltb_spec j 8); [|done].
    destruct (Z.leb_spec 0 j); simpl; [|done]. by rewrite Hw by lia. }
  destruct r as [f|]; simpl; [|naive_solver].
  intros (k & -> & Hrun & Hmin). exists (k + 8).
  split_and!; [f_equal; lia | by apply free_run_cons |].
  intros j Hr%Hj%Hmin. lia.
Qed.

Lemma allocate_one_from_spec first i ws :
  0 ≤ frame_addr first → 0 ≤ i → Forall word_ok ws →
  frame_addr first + (8 * i + bits_len ws) * PAGE_SIZE ≤ usize_max →
  ∃ r ws', allocate_one_from first i ws = Ret (r, ws') ∧
    claimed first 1 i ws r ws' ∧ first_fit first 1 i ws r.
Proof.
  intros Hf. revert i. induction ws as [|w ws IH]; intros i Hi Hws Hb; simpl.
  { eexists _, _. split_and!; try done. intros j. rewrite free_one, bit_at_nil. done. }
  inversion_clear Hws. rewrite bits_len_cons in Hb. unfold bits_len in *.
  destruct (trailing_zeros_spec w) as (Hr & Hlow & Hset).
  set (t := trailing_zeros w) in *. change (SIZE_OF_USIZE * 8) with 64. destruct (Z.eqb_spec t 64).
  - destruct (IH (i + 1)) as (r & ws' & -> & Hcl & Hff); [lia | done | unfold PAGE_SIZE in *; lia |].
    simpl. eexists _, _. split; [done|]. split; [by apply claimed_cons|].
    apply first_fit_skip; [intros; apply Hlow; lia | done].
  - assert (Z.testbit w t = true) as Ht by (apply Hset; lia).
    assert (t < 8) as Ht8.
    { destruct (decide (t < 8)); [done|]. rewrite (testbit_above 8) in Ht; [done|done|lia]. }
    rewrite usize_shl_1 by lia. cbn [mbind outcome_bind].
    rewrite fr_steps by (unfold PAGE_SIZE in *; lia).
    eexists _, _. split; [done|]. split.
    + exists t. split_and!; [done | apply free_one; rewrite bit_at_cons |].
      * by rewrite (proj2 (Z.ltb_lt _ _)), (proj2 (Z.leb_le _ _)) by lia.
      * apply cleared_head; try done; try lia. intros b Hb0. rewrite testbit_single by lia.
        repeat case_Z; simpl; lia.
    + exists t. split_and!; [done | apply free_one; rewrite bit_at_cons |].
      * by rewrite (proj2 (Z.ltb_lt _ _)), (proj2 (Z.leb_le _ _)) by lia.
      * intros j. rewrite free_one, bit_at_cons. destruct (Z.ltb_spec j 8); [|lia].
        destruct (Z.leb_spec 0 j); simpl; [|done]. intros Hj.
        destruct (decide (t ≤ j)); [done|]. rewrite Hlow in Hj by lia. done.
Qed.

(** *** The fast path *)

Lemma mask_hit entry s n :
  0 ≤ s → 0 ≤ n → Z.land (Z.shiftr entry s) (Z.ones n) = Z.ones n →
  ∀ i, s ≤ i < s + n → Z.testbit entry i = true.
Proof.
  intros Hs Hn He i Hi. apply (f_equal (λ x, Z.testbit x (i - s))) in He. revert He.
  rewrite Z.land_spec, Z.ones_spec_low, andb_true_r, Z.shiftr_spec by lia.
  by replace (i - s + s) with i by lia.
Qed.

Lemma ones_shifted n s i :
  0 ≤ n → 0 ≤ s → 0 ≤ i → s + n ≤ 64 →
  Z.testbit (Z.land (Z.shiftl (Z.ones n) s) (Z.ones 64)) i = (s <=? i) && (i <? s + n).
Proof.
  intros. rewrite land_ones_spec, Z.shiftl_spec by lia.
  destruct (Z.leb_spec s i); simpl; [|by rewrite Z.testbit_neg_r by lia].
  destruct (Z.ltb_spec i (s + n)).
  - rewrite Z.ones_spec_low by lia. simpl. case_Z; [done|lia].
  - by rewrite Z.ones_spec_high by lia.
Qed.

Lemma try_slides_spec entry mask slides :
  Forall (λ s, 0 ≤ s < 64) slides →
  ∃ r, try_slides entry mask slides = Ret r ∧
    (∀ s, r = Some s → s ∈ slides ∧ Z.land (Z.shiftr entry s) mask = mask).
Proof.
  induction 1 as [|s slides Hs Hss IH]; simpl; [eexists; split; [done|done]|].
  unfold usize_shr. rewrite (proj2 (Z.ltb_lt _ _)) by lia. simpl. case_Z.
  - eexists. split; [done|]. intros ? [= <-]. split; [set_solver|done].
  - destruct IH as (r & -> & Hr). eexists. split; [done|]. intros s' [??]%Hr. set_solver.
Qed.

Lemma allocate_fast_from_spec first n i ws :
  1 < n ≤ 8 → 0 ≤ frame_addr first → 0 ≤ i → Forall word_ok ws →
  frame_addr first + (8 * i + bits_len ws) * PAGE_SIZE ≤ usize_max →
  ∃ r ws', allocate_fast_from first n (Z.ones n) i ws = Ret (r, ws') ∧ claimed first n i ws r ws'.
Proof.
  intros Hn Hf. revert i. induction ws as [|w ws IH]; intros i Hi Hws Hb; simpl.
  { eexists _, _. done. }
  inversion_clear Hws. rewrite bits_len_cons in Hb. unfold bits_len in Hb.
  destruct (trailing_zeros_spec w) as (Hr & _).
  rewrite usize_sub_ok by (unfold SIZE_OF_USIZE; lia). cbn [mbind outcome_bind].
  destruct (try_slides_spec w (Z.ones n) (seqZ (trailing_zeros w) (SIZE_OF_USIZE - n - trailing_zeros w)))
    as (o & -> & Ho).
  { apply Forall_seqZ. unfold SIZE_OF_USIZE. lia. }
  cbn [mbind outcome_bind]. destruct o as [s|].
  - destruct (Ho s eq_refl) as [Hs%elem_of_seqZ Hmask]. unfold SIZE_OF_USIZE in Hs.
    unfold usize_shl. rewrite (proj2 (Z.ltb_lt _ _)) by lia. cbn [mbind outcome_bind].
    rewrite fr_steps by (unfold PAGE_SIZE in *; lia).
    eexists _, _. split; [done|]. exists s. split_and!; [done| |].
    + apply free_run_head; [lia..|]. apply mask_hit; [lia..|done].
    + apply cleared_head; try done; try lia. intros b Hb0. apply ones_shifted; lia.
  - destruct (IH (i + 1)) as (r & ws' & -> & Hcl); [lia|done|unfold bits_len, PAGE_SIZE in *; lia|].
    eexists _, _. split; [done|]. by apply claimed_cons.
Qed.

(** *** The slow path *)

(** The state of the search after the first [p] frames of [ws]: [found_frames]
    is the length of the run of free frames that ends at [p], and no run of [n]
    frames ends at [p] or before. *)
Definition slow_inv (ws : list Z) (n p : Z) (st : search) : Prop :=
  let q := p - found_frames st in
  0 ≤ found_frames st < n ∧ 0 ≤ q ∧
  (∀ m, q ≤ m < p → bit_at ws m = true) ∧
  bit_at ws (q - 1) = false ∧
  (0 < found_frames st → frames_start st = Some (q / 8, q mod 8)) ∧
  ∀ j, free_run ws j n → p < j + n.

(** What the search has found when it breaks out. *)
Definition slow_found (ws : list Z) (n : Z) (st : search) : Prop :=
  ∃ q, frames_start st = Some (q / 8, q mod 8) ∧ free_run ws q n ∧
    ∀ j, free_run ws j n → q ≤ j.

Lemma slow_inv_start ws n : 0 < n → slow_inv ws n 0 (mkSearch 0 None).
Proof.
  intros. split_and!; cbn; try lia.
  - by apply bit_at_neg.
  - intros j (? & _). lia.
Qed.

(** A run that does not end before an allocated frame starts after it. *)
Lemma run_after ws n q j :
  bit_at ws (q - 1) = false → free_run ws j n → q ≤ j + n → q ≤ j.
Proof.
  intros Hq (_ & _ & Hb) Hj. destruct (decide (q ≤ j)); [done|].
  rewrite Hb in Hq by lia. done.
Qed.

Lemma div_mod_word i b : 0 ≤ b < 8 → (8 * i + b) / 8 = i ∧ (8 * i + b) mod 8 = b.
Proof. intros. Z.div_mod_to_equations. lia. Qed.

(** One frame that is not free starts the count again. *)
Lemma slow_inv_reset ws n p st :
  0 < n → bit_at ws p = false → slow_inv ws n p st → slow_inv ws n (p + 1) (mkSearch 0 None).
Proof.
  intros Hn Hp (Hf & Hq & _ & _ & _ & Hno). split_and!; cbn; try lia.
  - by replace (p + 1 - 0 - 1) with p by lia.
  - intros j Hj. destruct (decide (p + 1 < j + n)); [done|].
    pose proof (Hno j Hj). destruct Hj as (_ & _ & Hb). rewrite Hb in Hp by lia. done.
Qed.

(** One more free frame, which is frame [b] of word [i]. *)
Definition counted (i b : Z) (st : search) : search :=
  mkSearch (found_frames st + 1)
    (if found_frames st =? 0 then Some (i, b) else frames_start st).

Lemma counted_start i b st ws n :
  0 ≤ b < 8 → slow_inv ws n (8 * i + b) st →
  let q := 8 * i + b - found_frames st in frames_start (counted i b st) = Some (q / 8, q mod 8).
Proof.
  intros Hb (Hf & _ & _ & _ & Hs & _). simpl. destruct (Z.eqb_spec (found_frames st) 0) as [E|E].
  - rewrite E, Z.sub_0_r. by destruct (div_mod_word i b Hb) as [-> ->].
  - apply Hs. lia.
Qed.

Lemma slow_inv_count ws n i b st :
  0 ≤ b < 8 → bit_at ws (8 * i + b) = true → slow_inv ws n (8 * i + b) st →
  if found_frames st + 1 =? n then slow_found ws n (counted i b st)
  else slow_inv ws n (8 * i + b + 1) (counted i b st).
Proof.
  intros Hb Hset Hinv. pose proof (counted_start _ _ _ _ _ Hb Hinv) as Hst. simpl in Hst.
  set (p := 8 * i + b) in *. destruct Hinv as (Hf & Hq & Hrun & Hprev & _ & Hno).
  assert (∀ m, p - found_frames st ≤ m < p + 1 → bit_at ws m = true) as Hrun'.
  { intros m ?. destruct (decide (m = p)) as [->|]; [done|]. apply Hrun. lia. }
  assert (p < bits_len ws) as Hp.
  { destruct (decide (bits_len ws ≤ p)); [by rewrite bit_at_ge in Hset|lia]. }
  destruct (Z.eqb_spec (found_frames st + 1) n) as [E|E].
  - exists (p - found_frames st). split_and!; [done | |].
    + split_and!; [lia..|]. intros m ?. apply Hrun'. lia.
    + intros j Hj. eapply run_after; [done..|]. pose proof (Hno j Hj). lia.
  - unfold slow_inv. cbn [found_frames counted].
    replace (p + 1 - (found_frames st + 1)) with (p - found_frames st) by lia.
    split_and!; try lia; try done. intros j Hj. pose proof (Hno j Hj).
    assert (p - found_frames st ≤ j) by (eapply run_after; [done..|lia]). lia.
Qed.

Lemma free_bit_test w b : 0 ≤ b < 64 →
  usize_shr w b = Ret (Z.shiftr w b) ∧ (Z.land (Z.shiftr w b) 1 =? 1) = Z.testbit w b.
Proof.
  intros Hb. unfold usize_shr. rewrite (proj2 (Z.ltb_lt _ _)) by lia. split; [done|].
  change 1 with (Z.ones 1) at 1. rewrite Z.land_ones by lia.
  rewrite Z.testbit_odd, Zmod_odd. by destruct (Z.odd _).
Qed.

(** The search ends in one of two ways. *)
Definition slow_result (ws : list Z) (n p : Z) (found : bool) (st : search) : Prop :=
  if found then slow_found ws n st else slow_inv ws n p st.

Lemma search_bits_spec ws n i w cnt b st :
  0 < n ≤ usize_max → ws !! i = Some w → 0 ≤ b → b + Z.of_nat cnt = 8 →
  slow_inv ws n (8 * Z.of_nat i + b) st →
  ∃ found st', search_bits (Z.of_nat i) w n (seqZ b (Z.of_nat cnt)) st = Ret (found, st') ∧
    slow_result ws n (8 * (Z.of_nat i + 1)) found st'.
Proof.
  intros Hn Hw. revert b st. induction cnt as [|cnt IH]; intros b st Hb Hc Hinv.
  { eexists false, st. split; [done|]. cbn in Hc.
    by replace (8 * (Z.of_nat i + 1)) with (8 * Z.of_nat i + b) by lia. }
  rewrite seqZ_cons by lia. replace (Z.pred (Z.of_nat (S cnt))) with (Z.of_nat cnt) by lia.
  cbn [search_bits]. destruct (free_bit_test w b) as [-> Ht]; [lia|]. cbn [mbind outcome_bind].
  rewrite Ht, <-(bit_at_lookup ws i w b Hw) by lia.
  destruct (bit_at ws (8 * Z.of_nat i + b)) eqn:Hbit.
  - pose proof (slow_inv_count ws n (Z.of_nat i) b st ltac:(lia) Hbit Hinv) as Hnext.
    destruct Hinv as (Hf & _). rewrite usize_add_ok by lia. cbn [mbind outcome_bind].
    destruct (found_frames st + 1 =? n); [eexists true, _; by split|].
    apply (IH (Z.succ b)); [lia..|]. by replace (8 * Z.of_nat i + Z.succ b) with (8 * Z.of_nat i + b + 1) by lia.
  - apply (IH (Z.succ b)); [lia..|].
    replace (8 * Z.of_nat i + Z.succ b) with (8 * Z.of_nat i + b + 1) by lia.
    eapply slow_inv_reset; [lia|done|done].
Qed.

Lemma search_words_spec n pre ws st :
  0 < n ≤ usize_max → slow_inv (pre ++ ws) n (bits_len pre) st →
  ∃ found st', search_words (Z.of_nat (length pre)) n ws st = Ret (found, st') ∧
    slow_result (pre ++ ws) n (bits_len (pre ++ ws)) found st'.
Proof.
  intros Hn. revert pre st. induction ws as [|w ws IH]; intros pre st Hinv.
  { eexists false, st. rewrite app_nil_r in *. done. }
  cbn [search_words].
  destruct (search_bits_spec (pre ++ w :: ws) n (length pre) w 8 0 st) as (found & st' & Hs & Hr);
    [done | by rewrite list_lookup_middle | done | done | by rewrite Z.add_0_r |].
  change (Z.of_nat 8) with SIZE_OF_USIZE in Hs. rewrite Hs. cbn [mbind outcome_bind].
  destruct found; [by eexists true, _|].
  replace (pre ++ w :: ws) with ((pre ++ [w]) ++ ws) in * by by rewrite <-app_assoc.
  replace (Z.of_nat (length pre) + 1) with (Z.of_nat (length (pre ++ [w])))
    by (rewrite length_app; simpl; lia).
  apply IH. unfold slow_result in Hr. unfold bits_len. by rewrite length_app, Nat2Z.inj_add.
Qed.

Lemma updated_cleared a a' k n :
  updated a a' (λ m, (k <=? m) && (m <? k + n)) Allocated →
  cleared (bitmap a) (bitmap a') k n.
Proof.
  intros ((_ & Hok & _) & _ & Hc & Hb).
  unfold capacity, bits_len in Hc. split_and!; [lia|done|].
  intros m. destruct (decide (m < 0)); [by rewrite !bit_at_neg|].
  destruct (decide (bits_len (bitmap a) ≤ m)).
  { rewrite !bit_at_ge by (unfold bits_len in *; lia). done. }
  specialize (Hb m ltac:(unfold capacity; lia)). unfold is_free in Hb. rewrite Hb.
  destruct (_ && _); simpl; [by rewrite andb_false_r | by rewrite andb_true_r].
Qed.

(** The slow path is first fit. *)
Lemma allocate_multiple_slow_spec a n :
  wf a → 1 < n ≤ usize_max →
  ∃ r a', allocate_multiple_slow a n = Ret (r, a') ∧ wf a' ∧ first_frame a' = first_frame a ∧
    claimed (first_frame a) n 0 (bitmap a) r (bitmap a') ∧
    first_fit (first_frame a) n 0 (bitmap a) r.
Proof.
  intros Hwf Hn. pose proof Hwf as ([[Hlo _] _] & _ & Hb). unfold allocate_multiple_slow, assert.
  rewrite (proj2 (Z.ltb_lt _ _)) by lia. cbn [mbind outcome_bind].
  destruct (search_words_spec n [] (bitmap a) (mkSearch 0 None)) as (found & st & Hs & Hr);
    [lia | by apply slow_inv_start; lia|]. simpl in Hr. change (Z.of_nat (length [])) with 0 in Hs.
  rewrite Hs. cbn [mbind outcome_bind]. destruct found; cbn [negb].
  - destruct Hr as (q & Hst & Hrun & Hmin). pose proof Hrun as (Hq & Hqn & _).
    rewrite Hst. cbn [expect mbind outcome_bind].
    assert (0 ≤ q mod 8 < 8 ∧ 0 ≤ q / 8 ∧ 8 * (q / 8) + q mod 8 = q) as (? & ? & Eq)
      by (Z.div_mod_to_equations; lia).
    fold (capacity a) in Hqn. rewrite fr_steps by (unfold PAGE_SIZE in *; lia). rewrite Eq.
    rewrite frame_add_fr by (unfold PAGE_SIZE in *; lia). cbn [mbind outcome_bind].
    destruct (set_frames_run a q n Allocated Hwf) as (a' & -> & Hu); [lia..|].
    eexists _, a'. split; [done|]. pose proof Hu as (? & ? & _). split_and!; try done.
    + exists q. split_and!; [done|done|by apply updated_cleared].
    + exists q. done.
  - eexists _, a. split_and!; try done. destruct Hr as (_ & _ & _ & _ & _ & Hno).
    intros j Hj. pose proof (Hno j Hj). destruct Hj as (_ & ? & _). lia.
Qed.

Lemma allocate_multiple_fast_spec a n :
  wf a → 1 < n →
  ∃ r a', allocate_multiple_fast a n = Ret (r, a') ∧ first_frame a' = first_frame a ∧
    claimed (first_frame a) n 0 (bitmap a) r (bitmap a').
Proof.
  intros ([[Hlo _] _] & Hok & Hb) Hn. unfold allocate_multiple_fast, assert.
  rewrite (proj2 (Z.ltb_lt 1 n)) by lia. cbn [mbind outcome_bind].
  destruct (Z.ltb_spec SIZE_OF_USIZE n) as [|Hn8]; [by eexists _, a|]. unfold SIZE_OF_USIZE in Hn8.
  rewrite usize_sub_ok by lia. cbn [mbind outcome_bind].
  assert (usize_shl 2 (n - 1) = Ret (2 ^ n)) as ->.
  { unfold usize_shl. rewrite (proj2 (Z.ltb_lt _ _)) by lia. f_equal.
    rewrite Z.shiftl_mul_pow2, <-Z.pow_succ_r, Z.land_ones by lia.
    replace (Z.succ (n - 1)) with n by lia. apply Z.mod_small. split; [apply Z.pow_nonneg; lia|].
    apply Z.pow_lt_mono_r; lia. }
  cbn [mbind outcome_bind]. pose proof (Z.pow_pos_nonneg 2 n ltac:(lia) ltac:(lia)).
  rewrite usize_sub_ok by lia. cbn [mbind outcome_bind].
  replace (2 ^ n - 1) with (Z.ones n) by (rewrite Z.ones_equiv; lia).
  destruct (allocate_fast_from_spec (first_frame a) n 0 (bitmap a)) as (r & ws' & -> & Hcl);
    [lia..|done|done|].
  eexists _, _. done.
Qed.

Lemma claimed_wf a n r ws' :
  wf a → claimed (first_frame a) n 0 (bitmap a) r ws' → wf (mkBitmap (first_frame a) ws').
Proof.
  intros (Hf & Hok & Hb) Hcl. unfold wf, capacity, bits_len in *. simpl.
  destruct r as [f|]; simpl in Hcl.
  - destruct Hcl as (k & _ & _ & Hlen & Hok' & _). rewrite Hlen. done.
  - by subst.
Qed.

Lemma bitmap_eta a a' : first_frame a' = first_frame a → a' = mkBitmap (first_frame a) (bitmap a').
Proof. destruct a, a'; simpl. by intros ->. Qed.

(** Every request is answered; an answer [Ok] is a run that was free and is
    cleared, an answer [Err] leaves the bitmap alone and means there is none. *)
Lemma allocate_contiguous_run a n :
  wf a → 0 < n ≤ usize_max →
  ∃ r a', bitmap_allocate_contiguous a n = Ret (r, a') ∧ wf a' ∧ first_frame a' = first_frame a ∧
    claimed (first_frame a) n 0 (bitmap a) r (bitmap a') ∧
    (∀ e, r = Err e → ∀ j, ¬ free_run (bitmap a) j n).
Proof.
  intros Hwf Hn. unfold bitmap_allocate_contiguous. pose proof Hwf as ([[Hlo _] _] & Hok & Hb).
  destruct (Z.eqb_spec n 0); [lia|]. destruct (Z.eqb_spec n 1) as [->|].
  - destruct (allocate_one_from_spec (first_frame a) 0 (bitmap a)) as (r & ws' & Hone & Hcl & Hff);
      [lia|done|done|done|]. unfold bitmap_allocate_one. rewrite Hone.
    eexists _, _. split; [done|]. split_and!; [by eapply claimed_wf|done|done|].
    by intros e ->.
  - destruct (allocate_multiple_fast_spec a n Hwf) as (r & a1 & -> & Hf1 & Hcl1); [lia|].
    cbn [mbind outcome_bind]. rewrite (bitmap_eta a a1 Hf1). destruct r as [f|e].
    + eexists _, _. split; [done|]. split_and!; [by eapply claimed_wf|done|done|done].
    + simpl in Hcl1. rewrite Hcl1, <-(bitmap_eta a a) by done.
      destruct (allocate_multiple_slow_spec a n Hwf) as (r & a' & -> & ? & ? & ? & Hff); [lia|].
      eexists _, _. split; [done|]. split_and!; try done. by intros ? ->.
Qed.

(** ** Giving frames back *)

Lemma dealloc_as_set a base (g : Z → Frame) l :
  (∀ i, i ∈ l → FrameOps.add base i = Ret (g i)) →
  for_each l (λ i a, f ← FrameOps.add base i;
    '(r, a) ← set_frame a f Free; _ ← expect_ok r; Ret a) a = set_frames Free (g <$> l) a.
Proof.
  unfold set_frames. revert a. induction l as [|i l IH]; intros a Hl; [done|]. rewrite fmap_cons.
  cbn [for_each]. rewrite Hl by set_solver. cbn [mbind outcome_bind].
  destruct (set_frame a (g i) Free) as [[r a']|]; cbn [mbind outcome_bind]; [|done].
  destruct (expect_ok r); cbn [mbind outcome_bind]; [|done]. apply IH. set_solver.
Qed.

Lemma dealloc_run a k n :
  wf a → 0 ≤ k → 0 ≤ n → k + n ≤ capacity a →
  ∃ a', bitmap_deallocate_contiguous a (fr (first_frame a) k) n = Ret a' ∧
    updated a a' (λ m, (k <=? m) && (m <? k + n)) Free.
Proof.
  intros Hwf Hk Hn Hb. pose proof Hwf as ([[Hlo _] _] & _ & Hmax).
  unfold bitmap_deallocate_contiguous. rewrite dealloc_as_set with (g := λ i, fr (first_frame a) (k + i)).
  - destruct (set_frames_run a k n Free Hwf Hk Hn Hb) as (a' & Ha' & Hu). exists a'. split; [|done].
    rewrite <-Ha', range_fr by done. f_equal.
    replace (seqZ k n) with (seqZ (k + 0) n) by (f_equal; lia).
    by rewrite <-fmap_add_seqZ, <-list_fmap_compose.
  - intros i Hi%elem_of_seqZ. apply frame_add_fr; unfold PAGE_SIZE in *; lia.
Qed.

(** ** The allocator keeps its contract *)

Definition bitmap_free (a : BitmapAllocator) (g : Frame) : Prop :=
  ∃ m, g = fr (first_frame a) m ∧ is_free a m = true.

Definition bitmap_managed (a : BitmapAllocator) (g : Frame) : Prop :=
  ∃ m, g = fr (first_frame a) m ∧ 0 ≤ m < capacity a.

Lemma fr_inj first m m' : fr first m = fr first m' → m = m'.
Proof. intros E%(f_equal frame_addr). rewrite !fr_addr in E. unfold PAGE_SIZE in E. lia. Qed.

Lemma in_run_fr first k n g :
  in_run (fr first k) n g ↔ ∃ m, k ≤ m < k + n ∧ g = fr first m.
Proof.
  unfold in_run. split.
  - intros (i & Hi & ->). exists (k + i). split; [lia|]. apply frame_addr_inj. cbn. lia.
  - intros (m & Hm & ->). exists (m - k). split; [lia|]. apply frame_addr_inj. cbn. lia.
Qed.

Lemma in_run_fr_fr first k n m : in_run (fr first k) n (fr first m) ↔ k ≤ m < k + n.
Proof.
  rewrite in_run_fr. split; [|by eauto]. by intros (m' & ? & ->%fr_inj).
Qed.

Lemma bitmap_free_fr a m : bitmap_free a (fr (first_frame a) m) ↔ is_free a m = true.
Proof. split; [by intros (m' & ->%fr_inj & ?) | by exists m]. Qed.

Lemma is_free_bounds a m : is_free a m = true → 0 ≤ m < capacity a.
Proof. intros (? & ? & _)%free_one. unfold capacity. lia. Qed.

Lemma cleared_free a a' k n g :
  first_frame a' = first_frame a → cleared (bitmap a) (bitmap a') k n →
  bitmap_free a' g ↔ bitmap_free a g ∧ ¬ in_run (fr (first_frame a) k) n g.
Proof.
  intros Hf (_ & _ & Hb). unfold bitmap_free at 1. rewrite Hf. split.
  - intros (m & -> & Hm). rewrite bitmap_free_fr, in_run_fr_fr. revert Hm. unfold is_free.
    rewrite Hb, andb_true_iff, negb_true_iff, andb_false_iff, Z.leb_gt, Z.ltb_ge.
    intros [??]. split; [done|lia].
  - intros [(m & -> & Hm) Hr]. rewrite in_run_fr_fr in Hr. exists m. split; [done|]. revert Hm.
    unfold is_free. rewrite Hb, andb_true_iff, negb_true_iff, andb_false_iff, Z.leb_gt, Z.ltb_ge.
    intros ?. split; [done|lia].
Qed.

#[global] Instance bitmap_lawful : LawfulAllocator BitmapAllocator.
Proof.
  refine {| alloc_inv := wf; alloc_free := bitmap_free |}. intros a n Hwf Hn.
  destruct (allocate_contiguous_run a n Hwf Hn) as (r & a' & Ha & Hwf' & Hf & Hcl & _).
  exists r, a'. split_and!; [done..|]. destruct r as [f|e].
  - destruct Hcl as (k & -> & (Hk & Hkn & Hrun) & Hcl). rewrite Z.add_0_l.
    pose proof Hwf as (Hff & _ & Hmax). pose proof Hff as [[Hlo _] _]. fold (capacity a) in Hkn.
    rewrite fr_addr. split_and!.
    + apply wf_frame_shift; [done|]. unfold PAGE_SIZE in *. lia.
    + unfold PAGE_SIZE in *. lia.
    + intros g (m & Hm & ->)%in_run_fr. apply bitmap_free_fr. by apply Hrun.
    + intros g. by apply cleared_free.
  - intros g. rewrite (bitmap_eta a a' Hf). simpl in Hcl. rewrite Hcl. by rewrite <-bitmap_eta.
Defined.

Lemma updated_free a a' k n :
  0 ≤ k → k + n ≤ capacity a → updated a a' (λ m, (k <=? m) && (m <? k + n)) Free →
  ∀ g, bitmap_free a' g ↔ bitmap_free a g ∨ in_run (fr (first_frame a) k) n g.
Proof.
  intros Hk Hkn (_ & Hf & Hc & Hb) g. unfold bitmap_free at 1. rewrite Hf. split.
  - intros (m & -> & Hm). pose proof (is_free_bounds _ _ Hm). rewrite Hb in Hm by lia.
    rewrite bitmap_free_fr, in_run_fr_fr. destruct (_ && _) eqn:E; [right|by left].
    rewrite andb_true_iff, Z.leb_le, Z.ltb_lt in E. lia.
  - intros [(m & -> & Hm)|(m & Hm & ->)%in_run_fr]; exists m; (split; [done|]).
    + rewrite Hb by (by apply is_free_bounds). by destruct (_ && _).
    + rewrite Hb, (proj2 (Z.leb_le k m)), (proj2 (Z.ltb_lt m (k + n))) by lia. done.
Qed.

Lemma managed_same a a' g :
  first_frame a' = first_frame a → capacity a' = capacity a → bitmap_managed a' g ↔ bitmap_managed a g.
Proof. unfold bitmap_managed. by intros -> ->. Qed.

Lemma managed_run a f n :
  0 < n → (∀ g, in_run f n g → bitmap_managed a g) →
  ∃ k, f = fr (first_frame a) k ∧ 0 ≤ k ∧ k + n ≤ capacity a.
Proof.
  intros Hn Hm. destruct (Hm (fr f 0)) as (k & E & Hk).
  { exists 0. split; [lia|done]. }
  rewrite fr_0 in E. subst f. exists k.
  destruct (Hm (fr (first_frame a) (k + n - 1))) as (k' & E & Hk').
  { apply in_run_fr_fr. lia. }
  apply fr_inj in E. subst k'. split; [done|lia].
Qed.

Lemma claimed_capacity a n r a' :
  claimed (first_frame a) n 0 (bitmap a) r (bitmap a') → capacity a' = capacity a.
Proof.
  unfold capacity, bits_len. destruct r; simpl; [|by intros ->].
  by intros (k & _ & _ & -> & _).
Qed.

#[global] Instance bitmap_reclaiming : ReclaimingAllocator BitmapAllocator.
Proof.
  refine {| alloc_managed := bitmap_managed |}.
  - intros a n r a' Hwf Hn Ha.
    destruct (allocate_contiguous_run a n Hwf Hn) as (r2 & a2 & Ha2 & _ & Hf & Hcl & _).
    cbn in Ha. rewrite Ha in Ha2. injection Ha2 as <- <-. split.
    + intros g. apply managed_same; [done|]. by eapply claimed_capacity.
    + intros f g -> Hg. destruct Hcl as (k & -> & (? & ? & _) & _).
      apply in_run_fr in Hg as (m & Hm & ->). exists m. split; [done|]. unfold capacity. lia.
  - intros a f n Hwf Hn Hm. destruct (managed_run a f n) as (k & -> & Hk & Hkn); [lia|done|].
    destruct (dealloc_run a k n Hwf) as (a' & Ha' & Hu); [lia..|].
    exists a'. pose proof Hu as (Hwf' & Hf & Hc & _). split_and!; [done|done| |].
    + intros g. by apply managed_same.
    + by apply updated_free.
Defined.

Lemma all_free_list a ks :
  wf a → all_free a (fr (first_frame a) <$> ks) = Ret (forallb (is_free a) ks).
Proof.
  intros Hwf. induction ks as [|k ks IH]; [done|]. rewrite fmap_cons. cbn [all_free forallb].
  rewrite get_frame_ok by done. cbn [mbind outcome_bind].
  destruct (is_free a k) eqn:E.
  - pose proof (is_free_bounds _ _ E).
    by rewrite (proj2 (Z.leb_le 0 k)), (proj2 (Z.ltb_lt k _)) by lia.
  - by destruct (_ && _).
Qed.

Lemma all_free_run a k n :
  wf a → 0 < n →
  ∃ b, all_free a (FrameOps.range (fr (first_frame a) k) (fr (first_frame a) (k + n))) = Ret b ∧
    (b = true ↔ free_run (bitmap a) k n).
Proof.
  intros Hwf Hn. rewrite range_fr, all_free_list by first [done|lia]. eexists. split; [done|].
  rewrite forallb_forall. split.
  - intros Hb. assert (∀ m, k ≤ m < k + n → is_free a m = true) as Hm.
    { intros m Hm. apply Hb, list_elem_of_In, elem_of_seqZ. lia. }
    pose proof (is_free_bounds _ _ (Hm k ltac:(lia))).
    pose proof (is_free_bounds _ _ (Hm (k + n - 1) ltac:(lia))).
    split_and!; [lia|unfold capacity in *; lia|done].
  - intros (_ & _ & Hb) m Hm%list_elem_of_In%elem_of_seqZ. apply Hb. lia.
Qed.

(** ** Properties *)

(** [set_frame] answers [Ok] exactly on the frames the bitmap covers; it
    then changes that frame and no other, and on any other frame it changes
    nothing.  What [get_frame] reads afterwards is what was written. *)
Theorem set_frame_get_frame a n m state :
  wf a →
  ∃ r a', set_frame a (fr (first_frame a) n) state = Ret (r, a') ∧ wf a' ∧
    (r = Ok tt ↔ 0 ≤ n < capacity a) ∧ (r = Err OutOfRange → a' = a) ∧
    get_frame a' (fr (first_frame a) m) =
      if (m =? n) && bool_decide (r = Ok tt) then Ret (Ok state)
      else get_frame a (fr (first_frame a) m).
Proof.
  intros Hwf. destruct (decide (0 ≤ n < capacity a)) as [Hn|Hn].
  - destruct (set_frame_in a n state Hwf Hn) as (a' & Ha & Hwf' & Hf & Hc & Hb).
    exists (Ok tt), a'. split_and!; try done.
    rewrite bool_decide_eq_true_2, andb_true_r by done. rewrite <-Hf at 1.
    rewrite !get_frame_ok, Hc by done.
    destruct (Z.leb_spec 0 m), (Z.ltb_spec m (capacity a)); simpl.
    + rewrite Hb by done. destruct (Z.eqb_spec m n); [|done]. by destruct state.
    + case_Z; [lia|done].
    + case_Z; [lia|done].
    + case_Z; [lia|done].
  - exists (Err OutOfRange), a. rewrite set_frame_out by (done || lia).
    split_and!; try done. by rewrite andb_false_r.
Qed.

(** C1. [allocate_contiguous] is correct and complete: it answers every
    request without panicking, an [Ok] is a run of frames that were all free
    and are exactly the frames that stop being free, and an [Err] changes
    nothing and is only given when the bitmap has no such run. *)
Theorem allocate_contiguous_correct a n :
  wf a → 0 < n ≤ usize_max →
  ∃ r a', bitmap_allocate_contiguous a n = Ret (r, a') ∧ wf a' ∧ first_frame a' = first_frame a ∧
    match r with
    | Ok f => ∃ k, f = fr (first_frame a) k ∧ free_run (bitmap a) k n ∧
        ∀ m, is_free a' m = is_free a m && negb ((k <=? m) && (m <? k + n))
    | Err _ => a' = a ∧ ∀ k, ¬ free_run (bitmap a) k n
    end.
Proof.
  intros Hwf Hn. destruct (allocate_contiguous_run a n Hwf Hn) as (r & a' & Ha & ? & Hf & Hcl & Hno).
  exists r, a'. split_and!; try done. destruct r as [f|e]; simpl in Hcl.
  - destruct Hcl as (k & -> & Hrun & _ & _ & Hb). by exists k.
  - split; [|by eapply Hno]. rewrite (bitmap_eta a a' Hf), Hcl. by rewrite <-bitmap_eta.
Qed.

(** A request of one frame is given the lowest free frame. *)
Theorem allocate_one_lowest a :
  wf a →
  ∃ r a', bitmap_allocate_one a = Ret (r, a') ∧
    match r with
    | Ok f => ∃ k, f = fr (first_frame a) k ∧ is_free a k = true ∧
        (∀ m, m < k → is_free a m = false) ∧
        ∀ m, is_free a' m = is_free a m && negb (m =? k)
    | Err _ => a' = a ∧ ∀ m, is_free a m = false
    end.
Proof.
  intros ([[Hlo _] _] & Hok & Hb). unfold bitmap_allocate_one.
  destruct (allocate_one_from_spec (first_frame a) 0 (bitmap a)) as (r & ws' & -> & Hcl & Hff); try done.
  eexists _, _. split; [done|]. destruct r as [f|e]; simpl in Hcl, Hff.
  - destruct Hcl as (k & -> & Hrun & _ & _ & Hbit). destruct Hff as (k' & Ek%fr_inj & _ & Hmin).
    assert (k' = k) as -> by lia. exists k. split_and!; [done|by apply free_one| |].
    + intros m Hm. destruct (is_free a m) eqn:E; [|done]. apply free_one, Hmin in E. lia.
    + intros m. unfold is_free at 1. simpl. rewrite Hbit. unfold is_free. do 2 f_equal.
      repeat case_Z; simpl; lia.
  - subst ws'. split; [by rewrite <-bitmap_eta|]. intros m. destruct (is_free a m) eqn:E; [|done].
    by apply free_one, Hff in E.
Qed.

(** Giving back what an allocation gave restores the allocator, whichever
    of the three searches answered. *)
Theorem allocate_deallocate a n f a' :
  wf a → 0 < n ≤ usize_max → bitmap_allocate_contiguous a n = Ret (Ok f, a') →
  bitmap_deallocate_contiguous a' f n = Ret a.
Proof.
  intros Hwf Hn Ha. destruct (allocate_contiguous_run a n Hwf Hn) as (r & a2 & Ha2 & Hwf' & Hf & Hcl & _).
  rewrite Ha in Ha2. injection Ha2 as <- <-. pose proof (claimed_capacity _ _ _ _ Hcl) as Hcap.
  destruct Hcl as (k & -> & (Hk & Hkn & Hrun) & Hlen & _ & Hb). rewrite Z.add_0_l, <-Hf.
  destruct (dealloc_run a' k n Hwf') as (a3 & -> & Hwf3 & Hf3 & Hc3 & Hb3);
    [lia|lia|rewrite Hcap; unfold capacity; lia|].
  f_equal. rewrite (bitmap_eta a a3), (bitmap_eta a a) by congruence. f_equal.
  apply bits_ext; [by apply Hwf3|by apply Hwf|unfold capacity, bits_len in *; lia|].
  intros m. destruct (decide (0 ≤ m < capacity a')) as [Hm|Hm].
  - specialize (Hb3 m Hm). unfold is_free in Hb3. rewrite Hb3, Hb.
    destruct (Z.leb_spec k m), (Z.ltb_spec m (k + n)); simpl; rewrite ?andb_true_r; try done.
    by rewrite Hrun.
  - destruct (decide (m < 0)); [by rewrite !bit_at_neg|].
    rewrite !bit_at_ge; [done|..]; unfold capacity in *; lia.
Qed.

(** [allocate_at] takes the run it is asked for when every frame of it is
    free, and otherwise refuses and changes nothing; it never panics on a run
    that ends below the top of memory. *)
Theorem allocate_at_correct a k n :
  wf a → 0 < n → 0 ≤ frame_addr (fr (first_frame a) k) →
  frame_addr (fr (first_frame a) k) + n * PAGE_SIZE ≤ usize_max →
  ∃ r a', bitmap_allocate_at a n (At (fr (first_frame a) k)) = Ret (r, a') ∧ wf a' ∧
    ((free_run (bitmap a) k n ∧ r = Ok (fr (first_frame a) k) ∧
      ∀ m, is_free a' m = is_free a m && negb ((k <=? m) && (m <? k + n))) ∨
     (¬ free_run (bitmap a) k n ∧ r = Err AllocErr ∧ a' = a)).
Proof.
  intros Hwf Hn Hlo Hhi. unfold bitmap_allocate_at. destruct (Z.eqb_spec n 0); [lia|].
  rewrite frame_add_ok by lia. cbn [mbind outcome_bind].
  fold (fr (fr (first_frame a) k) n). rewrite fr_fr.
  destruct (all_free_run a k n Hwf Hn) as (b & -> & Hb). cbn [mbind outcome_bind].
  destruct b; cbn [negb].
  - pose proof (proj1 Hb eq_refl) as Hrun. pose proof Hrun as (Hk & Hkn & _).
    destruct (set_frames_run a k n Allocated Hwf) as (a' & -> & Hu); [done|lia|done|].
    eexists _, a'. split; [done|]. split; [by apply Hu|]. left. split_and!; try done.
    apply (updated_cleared _ _ _ _ Hu).
  - eexists _, a. split; [done|]. split; [done|]. right. split_and!; try done.
    intros Hr%Hb. done.
Qed.

Lemma new_bitmap_free first n m : is_free (new_bitmap first n) m = false.
Proof.
  unfold is_free, bit_at, new_bitmap. simpl.
  destruct (replicate _ 0 !! _) as [w|] eqn:E; [|by rewrite andb_false_r].
  apply lookup_replicate in E as [-> _]. by rewrite Z.testbit_0_l, andb_false_r.
Qed.

Lemma new_bitmap_capacity first n : 0 ≤ n → capacity (new_bitmap first n) = 8 * (n / 8).
Proof.
  intros. unfold capacity, bits_len, new_bitmap. simpl. rewrite length_replicate.
  unfold SIZE_OF_USIZE. pose proof (Z.div_pos n 8). lia.
Qed.

Lemma new_bitmap_wf first n :
  wf_frame first → 0 ≤ n → frame_addr first + n * PAGE_SIZE ≤ usize_max → wf (new_bitmap first n).
Proof.
  intros Hf Hn Hb. split_and!; [done| |].
  - simpl. apply Forall_replicate. unfold word_ok. lia.
  - rewrite new_bitmap_capacity by done. simpl. pose proof (Z.mul_div_le n 8).
    unfold PAGE_SIZE in *. lia.
Qed.

(** Frames [i .. j) of the allocator, as a region of the configuration. *)
Definition region_of (s : Frame) (p : Z * Z) : Frame * Frame := (fr s p.1, fr s p.2).

Lemma set_regions a ps :
  wf a → Forall (λ p, 0 ≤ p.1 ≤ p.2 ∧ p.2 ≤ capacity a) ps →
  ∃ a', for_each (region_of (first_frame a) <$> ps)
      (λ r a, set_frames Free (FrameOps.range r.1 r.2) a) a = Ret a' ∧
    updated a a' (λ m, existsb (λ p, (p.1 <=? m) && (m <? p.2)) ps) Free.
Proof.
  revert a. induction ps as [|[i j] ps IH]; intros a Hwf Hps.
  { exists a. split; [done|]. by apply updated_refl. }
  inversion_clear Hps as [|? ? [Hi Hj] Hps']. simpl in Hi, Hj.
  rewrite fmap_cons. cbn [for_each region_of fst snd].
  destruct (set_frames_run a i (j - i) Free Hwf) as (a1 & Ha1 & Hu1); [lia..|].
  replace (i + (j - i)) with j in Ha1, Hu1 by lia. rewrite Ha1. cbn [mbind outcome_bind].
  pose proof Hu1 as (Hwf1 & Hf1 & Hc1 & _).
  destruct (IH a1 Hwf1) as (a2 & Ha2 & Hu2); [by rewrite Hc1|]. rewrite Hf1 in Ha2.
  exists a2. split; [done|]. by eapply updated_ext; [|by eapply updated_trans].
Qed.

(** A new allocator covers the frames of its range, rounded down to whole
    words, and the free frames are those of the given regions and no others. *)
Theorem bitmap_new_correct s n ps :
  wf_frame s → 0 ≤ n → frame_addr s + n * PAGE_SIZE ≤ usize_max →
  Forall (λ p, 0 ≤ p.1 ≤ p.2 ∧ p.2 ≤ 8 * (n / 8)) ps →
  ∃ a, bitmap_new {| allocation_range := (s, fr s n); regions := region_of s <$> ps |} = Ret a ∧
    wf a ∧ first_frame a = s ∧ capacity a = 8 * (n / 8) ∧
    ∀ m, is_free a m = existsb (λ p, (p.1 <=? m) && (m <? p.2)) ps.
Proof.
  intros Hs Hn Hb Hps. unfold bitmap_new. cbn [allocation_range regions]. pose proof Hs as [[Hlo _] _].
  rewrite frame_diff_ok by (rewrite fr_addr; unfold PAGE_SIZE in *; lia). rewrite fr_addr.
  replace (frame_addr s + n * PAGE_SIZE - frame_addr s) with (n * PAGE_SIZE) by lia.
  rewrite Z.div_mul by done. cbn [mbind outcome_bind].
  pose proof (new_bitmap_wf s n Hs Hn Hb) as Hwf. pose proof (new_bitmap_capacity s n Hn) as Hcap.
  rewrite <-Hcap in Hps |- *.
  destruct (set_regions (new_bitmap s n) ps Hwf Hps) as (a & Ha & Hwf' & Hf & Hc & Hbits).
  exists a. split_and!; try done. intros m. destruct (decide (0 ≤ m < capacity (new_bitmap s n))) as [Hm|Hm].
  - rewrite Hbits by done. rewrite new_bitmap_free. by destruct (existsb _ _).
  - destruct (is_free a m) eqn:E; [apply is_free_bounds in E; lia|].
    symmetry. apply not_true_iff_false. rewrite existsb_exists.
    intros (p & Hp%list_elem_of_In & Hin). rewrite andb_true_iff, Z.leb_le, Z.ltb_lt in Hin.
    rewrite Forall_forall in Hps. destruct (Hps p) as [? ?]; [by apply list_elem_of_In|lia].
Qed.

(** C2. Whatever a client of the allocator asks for and gives back, in
    whatever order, the runs it holds are pairwise disjoint, none of their
    frames is free, and each of them can be given back without a panic. *)
Theorem bitmap_clients_disjoint a a' held :
  wf a → rtc client_step (a, []) (a', held) →
  wf a' ∧ ForallOrdPairs disjoint_runs held ∧
  Forall (λ p, (∀ g, in_run p.1 p.2 g → ¬ bitmap_free a' g) ∧
    ∃ a'', bitmap_deallocate_contiguous a' p.1 p.2 = Ret a'') held.
Proof.
  change (wf a) with (alloc_inv a). intros Hwf Hsteps.
  destruct (client_steps_inv a (a', held) Hwf Hsteps) as (Hwf' & Hheld & Hdis).
  split_and!; [done|done|]. rewrite Forall_forall in Hheld |- *. intros p Hp.
  destruct (Hheld p Hp) as [Hn Hg]. split; [intros g Hin; by apply Hg|].
  destruct (dealloc_contiguous_law a' p.1 p.2 Hwf' Hn) as (a'' & ? & _); [|by exists a''].
  intros g Hin. by apply Hg.
Qed.

(** *** The properties at work *)

(** Sixteen frames from [0x1000] on, of which 4 to 11 are free. *)
Definition demo : BitmapAllocator := mkBitmap (frame_at 0x1000) [0xf0; 0x0f].

Lemma demo_wf : wf demo.
Proof.
  split_and!; [|repeat constructor; unfold word_ok; lia|vm_compute; discriminate].
  split; [cbn; lia | reflexivity].
Qed.

Lemma set_frame_get_frame_witness :
  ∃ r a', set_frame demo (fr (first_frame demo) 12) Free = Ret (r, a') ∧ r = Ok tt ∧
    get_frame a' (fr (first_frame demo) 12) = Ret (Ok Free) ∧
    get_frame demo (fr (first_frame demo) 12) = Ret (Ok Allocated).
Proof.
  destruct (set_frame_get_frame demo 12 12 Free demo_wf) as (r & a' & Ha & _ & Hr & _ & Hget).
  assert (r = Ok tt) as -> by (apply Hr; vm_compute; split; [discriminate|reflexivity]).
  exists (Ok tt), a'. split_and!; [exact Ha|reflexivity|exact Hget|reflexivity].
Defined.

Lemma allocate_contiguous_correct_witness :
  ∃ r a', bitmap_allocate_contiguous demo 8 = Ret (r, a') ∧ wf a' ∧ r = Ok (frame_at 0x5000) ∧
    a' = mkBitmap (frame_at 0x1000) [0; 0].
Proof.
  destruct (allocate_contiguous_correct demo 8 demo_wf) as (r & a' & Ha & Hwf & _); [lia|].
  exists r, a'. split; [exact Ha|]. split; [exact Hwf|].
  assert (bitmap_allocate_contiguous demo 8 =
    Ret (Ok (frame_at 0x5000), mkBitmap (frame_at 0x1000) [0; 0])) as E by (vm_compute; reflexivity).
  rewrite E in Ha. injection Ha as <- <-. split; reflexivity.
Defined.

Lemma allocate_one_lowest_witness :
  ∃ r a', bitmap_allocate_one demo = Ret (r, a') ∧ r = Ok (frame_at 0x5000).
Proof.
  destruct (allocate_one_lowest demo demo_wf) as (r & a' & Ha & _).
  exists r, a'. split; [exact Ha|].
  assert (bitmap_allocate_one demo =
    Ret (Ok (frame_at 0x5000), mkBitmap (frame_at 0x1000) [0xe0; 0x0f])) as E by (vm_compute; reflexivity).
  rewrite E in Ha. injection Ha as <- <-. reflexivity.
Defined.

Lemma allocate_deallocate_witness :
  bitmap_allocate_contiguous demo 3 = Ret (Ok (frame_at 0x5000), mkBitmap (frame_at 0x1000) [0x80; 0x0f]) ∧
  bitmap_deallocate_contiguous (mkBitmap (frame_at 0x1000) [0x80; 0x0f]) (frame_at 0x5000) 3 = Ret demo.
Proof.
  assert (bitmap_allocate_contiguous demo 3 =
    Ret (Ok (frame_at 0x5000), mkBitmap (frame_at 0x1000) [0x80; 0x0f])) as E by (vm_compute; reflexivity).
  split; [exact E|]. apply (allocate_deallocate demo 3 _ _ demo_wf); [lia|exact E].
Defined.

Lemma allocate_at_correct_witness :
  ∃ r a', bitmap_allocate_at demo 4 (At (fr (first_frame demo) 6)) = Ret (r, a') ∧ wf a' ∧
    r = Ok (frame_at 0x7000).
Proof.
  destruct (allocate_at_correct demo 6 4 demo_wf) as (r & a' & Ha & Hwf & _);
    [lia|vm_compute; discriminate|vm_compute; discriminate|].
  exists r, a'. split; [exact Ha|]. split; [exact Hwf|].
  assert (bitmap_allocate_at demo 4 (At (fr (first_frame demo) 6)) =
    Ret (Ok (frame_at 0x7000), mkBitmap (frame_at 0x1000) [0x30; 0x0c])) as E by (vm_compute; reflexivity).
  rewrite E in Ha. injection Ha as <- <-. reflexivity.
Defined.

Lemma bitmap_new_correct_witness :
  ∃ a, bitmap_new {| allocation_range := (frame_at 0x1000, fr (frame_at 0x1000) 17);
      regions := region_of (frame_at 0x1000) <$> [(0, 3); (7, 16)] |} = Ret a ∧
    wf a ∧ capacity a = 16 ∧ is_free a 8 = true ∧ is_free a 3 = false.
Proof.
  destruct (bitmap_new_correct (frame_at 0x1000) 17 [(0, 3); (7, 16)]) as (a & Ha & Hwf & _ & Hc & Hb).
  - split; [cbn; lia | reflexivity].
  - lia.
  - vm_compute; discriminate.
  - constructor; [vm_compute; intuition discriminate|].
    constructor; [vm_compute; intuition discriminate|]. constructor.
  - exists a. split_and!; [exact Ha|exact Hwf|exact Hc|rewrite Hb; reflexivity|rewrite Hb; reflexivity].
Defined.

Lemma bitmap_clients_disjoint_witness :
  let a1 := mkBitmap (frame_at 0x1000) [0x80; 0x0f] in
  let a2 := mkBitmap (frame_at 0x1000) [0; 0x0f] in
  wf a2 ∧ ForallOrdPairs disjoint_runs [(frame_at 0x8000, 1); (frame_at 0x5000, 3)].
Proof.
  intros a1 a2.
  destruct (bitmap_clients_disjoint demo a2 [(frame_at 0x8000, 1); (frame_at 0x5000, 3)] demo_wf)
    as (Hwf & Hdis & _); [|exact (conj Hwf Hdis)].
  eapply rtc_l; [apply (client_alloc demo [] 3 (frame_at 0x5000) a1); [lia|vm_compute; reflexivity]|].
  eapply rtc_l; [apply (client_alloc a1 [(frame_at 0x5000, 3)] 1 (frame_at 0x8000) a2);
    [lia|vm_compute; reflexivity]|].
  apply rtc_refl.
Defined.

(** The last [n mod 8] frames of the range have no bit: a memory map
    that has one of them in a region makes [new] panic. *)
Theorem bitmap_new_tail_panics :
  bitmap_new {| allocation_range := (frame_at 0, frame_at 0x9000);
                regions := [(frame_at 0, frame_at 0x9000)] |} = Panic UnwrapFailed.
Proof. vm_compute. reflexivity. Qed.
