(* ===== verification/Watermark.v ===== *)
(** * Watermark: the boot-time allocator and the hand-over to the bitmap

    [kernel/src/memory/watermark_allocator.rs].  The allocator walks down from
    the end of a region of the memory map: first the last region
    ([next_back]), then the others from the front ([next]).  The iterator over
    the regions is the list of the regions it has not given out yet.  The end of
    the file composes it with the bitmap allocator the way [kmain] does. *)

From stdpp Require Import base gmap list numbers option.
From S2P Require Import Prelude Memory Allocator Bitmap.

Open Scope Z_scope.

(** [Inner]. *)
Record Inner := mkInner {
  free_regions : list (Frame * Frame);
  last_in_current_region : Frame;
  prev_frame : Frame;
  top : Frame
}.

(** [DoubleEndedIterator::next_back]. *)
Definition next_back {A} (l : list A) : option (A * list A) :=
  match rev l with
  | [] => None
  | x :: l => Some (x, rev l)
  end.

(** [Inner::new]. *)
Definition inner_new (regions : list (Frame * Frame)) : outcome Inner :=
  '(r, rest) ← expect (next_back regions);
  Ret (mkInner rest r.1 r.2 r.2).

(** The loop of [Inner::allocate_contiguous]: the answer, the new
    [last_in_current_region] and the regions that are left. *)
Fixpoint find_region (page_count : Z) (last test_frame : Frame) (regions : list (Frame * Frame)) :
    outcome (result Frame AllocError * Frame * list (Frame * Frame)) :=
  if FrameOps.leb last test_frame then Ret (Ok test_frame, last, regions) else
  match regions with
  | [] => Ret (Err AllocErr, last, [])
  | new_region :: regions =>
      t ← FrameOps.checked_sub new_region.2 page_count;
      match t with
      | None => Ret (Err AllocErr, new_region.1, regions)
      | Some test_frame => find_region page_count new_region.1 test_frame regions
      end
  end.

(** [Inner::allocate_contiguous] with [alignment_log2 = 0]. *)
Definition inner_allocate_contiguous (s : Inner) (page_count : Z) :
    outcome (result Frame AllocError * Inner) :=
  t ← FrameOps.checked_sub (prev_frame s) page_count;
  match t with
  | None => Ret (Err AllocErr, s)
  | Some test_frame =>
      '(r, last, regions) ← find_region page_count (last_in_current_region s) test_frame (free_regions s);
      match r with
      | Err e => Ret (Err e, mkInner regions last (prev_frame s) (top s))
      | Ok f => Ret (Ok f, mkInner regions last f (top s))
      end
  end.

(** [WatermarkAllocator as BackingAllocator]: [deallocate_contiguous] ignores
    the request, [allocate_at] is [unimplemented!()]. *)
Definition watermark_allocate_contiguous (s : Inner) (frame_count : Z) :
    outcome (result Frame AllocError * Inner) :=
  if frame_count =? 0 then z ← FrameOps.zero; Ret (Ok z, s)
  else inner_allocate_contiguous s frame_count.

Definition watermark_deallocate_contiguous (s : Inner) (base : Frame) (frame_count : Z) :
    outcome Inner := Ret s.

Definition watermark_allocate_at (s : Inner) (frame_count : Z) (location : SpecificLocation) :
    outcome (result Frame AllocError * Inner) := Panic NotImplemented.

#[global] Instance watermark_backing : BackingAllocator Inner := {
  allocate_contiguous := watermark_allocate_contiguous;
  deallocate_contiguous := watermark_deallocate_contiguous;
  allocate_at := watermark_allocate_at
}.

(** [WatermarkAllocator::drain_into], into the bitmap allocator. *)
Definition drain_into (s : Inner) (into : BitmapAllocator) : outcome BitmapAllocator :=
  push into {| region := (prev_frame s, top s) |}.

(** ** What is left to hand out *)

Implicit Types (s : Inner) (f g : Frame) (r : Frame * Frame).

Definition in_region r g : Prop := frame_addr r.1 ≤ frame_addr g < frame_addr r.2.

(** The rest of the current region. *)
Definition window s : Frame * Frame := (last_in_current_region s, prev_frame s).

Definition avail s g : Prop := ∃ r, r ∈ window s :: free_regions s ∧ in_region r g.

Definition wf_region r : Prop := wf_frame r.1 ∧ wf_frame r.2.

Definition disjoint_regions r r' : Prop := ∀ g, ¬ (in_region r g ∧ in_region r' g).

#[global] Instance disjoint_regions_symm : Symmetric disjoint_regions.
Proof. intros r r' Hr g [??]. by apply (Hr g). Qed.

(** The window and the regions left are apart from each other. *)
Definition inner_inv s : Prop :=
  Forall wf_region (window s :: free_regions s) ∧
  ForallOrdPairs disjoint_regions (window s :: free_regions s).

(** A region with fewer than [n] frames. *)
Definition too_small (n : Z) r : Prop := frame_addr r.2 < frame_addr r.1 + n * PAGE_SIZE.

(** The answer of the walk over a list of regions that starts with the current one. *)
Definition walked (n : Z) (all : list (Frame * Frame)) (res : result Frame AllocError)
    (last : Frame) (rest : list (Frame * Frame)) : Prop :=
  match res with
  | Ok f => ∃ skipped e, all = skipped ++ (last, e) :: rest ∧ Forall (too_small n) skipped ∧
      f = frame_at (frame_addr e - n * PAGE_SIZE) ∧ ¬ too_small n (last, e) ∧ n * PAGE_SIZE ≤ frame_addr e
  | Err _ => Forall (too_small n) all ∨ ∃ r, r ∈ all ∧ frame_addr r.2 < n * PAGE_SIZE
  end.

Lemma walked_cons n r0 all res last rest :
  too_small n r0 → walked n all res last rest → walked n (r0 :: all) res last rest.
Proof.
  intros Hr0. destruct res as [f|]; simpl.
  - intros (sk & e & -> & ? & ?). exists (r0 :: sk), e. split; [done|]. split; [by constructor|done].
  - intros [?|(r & ? & ?)]; [left; by constructor|right; exists r; set_solver].
Qed.

Lemma find_region_spec n last e regions :
  0 < n → n * PAGE_SIZE ≤ usize_max → Forall wf_region ((last, e) :: regions) →
  n * PAGE_SIZE ≤ frame_addr e →
  ∃ res last' rest,
    find_region n last (frame_at (frame_addr e - n * PAGE_SIZE)) regions = Ret (res, last', rest) ∧
    walked n ((last, e) :: regions) res last' rest.
Proof.
  intros Hn Hmax. revert last e. induction regions as [|r regions IH]; intros last e Hwf He; simpl;
    unfold FrameOps.leb; cbn [frame_addr frame_base pa_addr];
    (destruct (Z.leb_spec (frame_addr last) (frame_addr e - n * PAGE_SIZE)) as [Hl|Hl];
      [eexists _, _, _; split; [done|]; exists [], e; unfold too_small; cbn [fst snd];
       split_and!; [done|constructor|done|lia|done]|]).
  - eexists _, _, _. split; [done|]. left. repeat constructor. unfold too_small. simpl. lia.
  - inversion_clear Hwf as [|? ? _ Hwf']. pose proof Hwf' as Hwf2. inversion_clear Hwf2 as [|? ? [_ Hr2] _].
    rewrite frame_checked_sub_spec by (done || lia). cbn [mbind outcome_bind].
    destruct (Z.leb_spec (n * PAGE_SIZE) (frame_addr r.2)) as [Hr|Hr].
    + destruct r as [r1 r2]. cbn [fst snd] in *. destruct (IH r1 r2 Hwf' Hr) as (res & last' & rest & -> & Hw).
      eexists _, _, _. split; [done|]. apply walked_cons; [|done]. unfold too_small. simpl. lia.
    + eexists _, _, _. split; [done|]. right. exists r. split; [set_solver|done].
Qed.

(** One request, when the invariant holds. *)
Lemma inner_allocate_walked s n :
  inner_inv s → 0 < n → n * PAGE_SIZE ≤ usize_max →
  ∃ res s', inner_allocate_contiguous s n = Ret (res, s') ∧ top s' = top s ∧
    walked n (window s :: free_regions s) res (last_in_current_region s') (free_regions s') ∧
    match res with Ok f => prev_frame s' = f | Err _ => prev_frame s' = prev_frame s end.
Proof.
  intros [Hwf _] Hn Hmax. unfold inner_allocate_contiguous.
  pose proof Hwf as Hwf2. inversion_clear Hwf2 as [|? ? [_ Hp] _]. simpl in Hp.
  rewrite frame_checked_sub_spec by (done || lia). cbn [mbind outcome_bind].
  destruct (Z.leb_spec (n * PAGE_SIZE) (frame_addr (prev_frame s))) as [Hr|Hr].
  - destruct (find_region_spec n (last_in_current_region s) (prev_frame s) (free_regions s) Hn Hmax Hwf Hr)
      as (res & last' & rest & -> & Hw). cbn [mbind outcome_bind].
    destruct res; eexists _, _; (split; [done|]); split_and!; done.
  - eexists _, _. split; [done|]. split_and!; try done. right.
    exists (window s). split; [set_solver|done].
Qed.

Lemma in_run_region n last e g :
  0 < n → frame_addr last ≤ frame_addr e - n * PAGE_SIZE →
  in_run (frame_at (frame_addr e - n * PAGE_SIZE)) n g →
  in_region (last, e) g ∧ frame_addr e - n * PAGE_SIZE ≤ frame_addr g.
Proof.
  intros Hn Hl (i & Hi & ->). unfold in_region, PAGE_SIZE in *. cbn in *. lia.
Qed.

Lemma in_run_addr f n g :
  in_run f n g → frame_addr f ≤ frame_addr g < frame_addr f + n * PAGE_SIZE.
Proof. intros (i & Hi & ->). cbn. unfold PAGE_SIZE. lia. Qed.

Lemma ordpairs_suffix {A} (R : A → A → Prop) l1 l2 :
  ForallOrdPairs R (l1 ++ l2) → ForallOrdPairs R l2.
Proof. induction l1 as [|x l1 IH]; simpl; [done|]. inversion_clear 1. by apply IH. Qed.

(** Shrinking the first region keeps the regions apart. *)
Lemma inv_shrink s s' last e f rest skipped :
  inner_inv s → window s :: free_regions s = skipped ++ (last, e) :: rest →
  window s' = (last, f) → free_regions s' = rest → wf_frame f → frame_addr f ≤ frame_addr e →
  inner_inv s'.
Proof.
  intros [Hwf Hdis] E Hw Hr Hf Hfe. rewrite E in Hwf, Hdis. unfold inner_inv. rewrite Hw, Hr.
  apply Forall_app in Hwf as [_ Hwf]. apply ordpairs_suffix in Hdis.
  inversion_clear Hwf as [|? ? [Hl _] Hrest]. inversion_clear Hdis as [|? ? Hd Hrest'].
  split; [by constructor|]. constructor; [|done]. eapply Forall_impl; [|exact Hd].
  intros r Hdr g [[H1 H2] H3]. apply (Hdr g). split; [|done]. unfold in_region in *. simpl in *. lia.
Qed.

(** An answered request takes its frames out of what is available. *)
Lemma inner_allocate_ok s n f s' :
  inner_inv s → 0 < n → n * PAGE_SIZE ≤ usize_max →
  inner_allocate_contiguous s n = Ret (Ok f, s') →
  inner_inv s' ∧ top s' = top s ∧ wf_frame f ∧ prev_frame s' = f ∧
  (∀ g, in_run f n g → avail s g ∧ ¬ avail s' g) ∧ (∀ g, avail s' g → avail s g).
Proof.
  intros Hinv Hn Hmax Ha. destruct (inner_allocate_walked s n Hinv Hn Hmax) as (res & s2 & Ha2 & Ht & Hw & Hp).
  rewrite Ha in Ha2. injection Ha2 as <- <-.
  destruct Hw as (sk & e & E & _ & Hf & Hsmall & He). unfold too_small in Hsmall. simpl in Hsmall.
  assert (wf_region (last_in_current_region s', e)) as [Hl [Heu Hem]].
  { destruct Hinv as [Hwf _]. rewrite E in Hwf. apply Forall_app in Hwf as [_ Hwf]. by inversion_clear Hwf. }
  simpl in Heu, Hem. assert (wf_frame f) as Hwff.
  { rewrite Hf. replace (frame_addr e - n * PAGE_SIZE) with (frame_addr e + (- n) * PAGE_SIZE) by lia.
    apply wf_frame_shift; [done|]. unfold PAGE_SIZE in *. lia. }
  assert (window s' = (last_in_current_region s', f)) as Hwin by (unfold window; by rewrite Hp).
  assert (frame_addr f ≤ frame_addr e) as Hfe by (rewrite Hf; unfold PAGE_SIZE; cbn; lia).
  assert (inner_inv s') as Hinv' by (eapply inv_shrink; eauto).
  assert (ForallOrdPairs disjoint_regions ((last_in_current_region s', e) :: free_regions s')) as Hdis.
  { destruct Hinv as [_ Hd]. rewrite E in Hd. by apply ordpairs_suffix in Hd. }
  inversion_clear Hdis as [|? ? Hd _]. rewrite Forall_forall in Hd.
  split_and!; try done; unfold avail; rewrite E, Hwin.
  - intros g Hg. rewrite Hf in Hg. apply in_run_region with (last := last_in_current_region s') in Hg as [Hg1 Hg2];
      [|done|lia]. split; [exists (last_in_current_region s', e); split; [set_solver|done]|].
    intros (r & [->|Hr]%elem_of_cons & Hin).
    + unfold in_region in Hin. rewrite Hf in Hin. cbn in Hin, Hg2. lia.
    + apply (Hd r) with g; [by apply list_elem_of_In|done].
  - intros g (r & [->|Hr]%elem_of_cons & Hin).
    + exists (last_in_current_region s', e). split; [set_solver|]. unfold in_region in *. simpl in *. lia.
    + exists r. split; [set_solver|done].
Qed.

Lemma watermark_zero : FrameOps.zero = Ret (frame_at 0).
Proof. reflexivity. Qed.

Lemma inner_allocate_overflow s n : usize_max < n * PAGE_SIZE → inner_allocate_contiguous s n = Panic ArithmeticOverflow.
Proof.
  intros Hmax. unfold inner_allocate_contiguous, FrameOps.checked_sub, usize_mul. by rewrite (proj2 (Z.leb_gt _ _) Hmax).
Qed.

(** A run of requests that were all answered, and the runs handed out. *)
Inductive served : Inner → list (Frame * Z) → Inner → Prop :=
  | served_nil s : served s [] s
  | served_cons s n f s1 l s2 : 0 < n → n * PAGE_SIZE ≤ usize_max →
      watermark_allocate_contiguous s n = Ret (Ok f, s1) → served s1 l s2 →
      served s ((f, n) :: l) s2.

Lemma served_sound s l s' :
  inner_inv s → served s l s' →
  inner_inv s' ∧ top s' = top s ∧ (∀ g, avail s' g → avail s g) ∧
  Forall (λ p, ∀ g, in_run p.1 p.2 g → avail s g ∧ ¬ avail s' g) l ∧
  ForallOrdPairs disjoint_runs l.
Proof.
  intros Hinv Hs. revert Hinv. induction Hs as [s|s n f s1 l s2 Hn Hmax Ha Hs IH]; intros Hinv.
  { split_and!; try done; constructor. }
  unfold watermark_allocate_contiguous in Ha. destruct (Z.eqb_spec n 0); [lia|].
  destruct (inner_allocate_ok s n f s1 Hinv Hn Hmax Ha) as (Hinv1 & Ht & _ & _ & Hrun & Hsub).
  destruct (IH Hinv1) as (? & Ht2 & Hsub2 & Hl & Hd). rewrite Forall_forall in Hl.
  split_and!; [done|congruence|eauto| |].
  - constructor; simpl.
    + intros g [? ?]%Hrun. split; [done|]. intros ?%Hsub2. done.
    + apply Forall_forall. intros p Hp g [? ?]%(Hl p Hp). split; [by apply Hsub|done].
  - constructor; [|done]. apply Forall_forall. intros p Hp g [[_ Hg1]%Hrun Hg2]. simpl in Hg1.
    apply Hg1. by eapply Hl.
Qed.

(** ** The hand-over *)

Lemma push_list a ks :
  wf a →
  ∃ a', for_each (fr (first_frame a) <$> ks) (λ f a, '(_, a) ← set_frame a f Allocated; Ret a) a = Ret a' ∧
    updated a a' (λ m, bool_decide (m ∈ ks)) Allocated.
Proof.
  revert a. induction ks as [|k ks IH]; intros a Hwf.
  { exists a. split; [done|]. by apply updated_refl. }
  rewrite fmap_cons. cbn [for_each].
  assert (∃ res a1, set_frame a (fr (first_frame a) k) Allocated = Ret (res, a1) ∧
    updated a a1 (λ m, m =? k) Allocated) as (res & a1 & -> & Hu1).
  { destruct (decide (0 ≤ k < capacity a)) as [Hk|Hk].
    - destruct (set_frame_in a k Allocated Hwf Hk) as (a1 & ? & ?). eauto.
    - eexists _, a. split; [apply set_frame_out; [done|lia]|].
      eapply updated_ext; [|by apply updated_refl]. intros m ?. cbv beta. case_Z; [lia|done]. }
  cbn [mbind outcome_bind]. pose proof Hu1 as (Hwf1 & Hf1 & _).
  destruct (IH a1 Hwf1) as (a2 & Ha2 & Hu2). rewrite Hf1 in Ha2. exists a2. split; [done|].
  by eapply updated_cons.
Qed.

(** Two well-formed frames are a whole number of frames apart. *)
Lemma wf_frame_fr f g : wf_frame f → wf_frame g → ∃ k, g = fr f k.
Proof.
  intros [_ Hf] [_ Hg]. exists ((frame_addr g - frame_addr f) / PAGE_SIZE).
  apply frame_addr_inj. rewrite fr_addr. unfold PAGE_SIZE in *.
  assert ((frame_addr g - frame_addr f) mod 4096 = 0) by (rewrite Zminus_mod, Hf, Hg; done).
  Z.div_mod_to_equations. lia.
Qed.

Lemma range_empty f g : frame_addr g < frame_addr f → FrameOps.range f g = [].
Proof.
  intros Hlt. unfold FrameOps.range, FrameOps.steps_between, checked_sub.
  by rewrite (proj2 (Z.leb_gt _ _)).
Qed.

(** [drain_into] marks the frames from [prev_frame] up to [top], and no others. *)
Lemma drain_into_spec s a :
  wf a → wf_frame (prev_frame s) → wf_frame (top s) →
  ∃ a', drain_into s a = Ret a' ∧ wf a' ∧
    ∀ g, bitmap_free a' g ↔ bitmap_free a g ∧ ¬ in_region (prev_frame s, top s) g.
Proof.
  intros Hwf Hp Ht. pose proof Hwf as [Hf _].
  destruct (wf_frame_fr _ _ Hf Hp) as [k Hk], (wf_frame_fr _ _ Hf Ht) as [j Hj].
  unfold drain_into, push. cbn [region fst snd]. rewrite Hk, Hj.
  assert (FrameOps.range (fr (first_frame a) k) (fr (first_frame a) j) =
    fr (first_frame a) <$> seqZ k (j - k)) as ->.
  { destruct (decide (k ≤ j)).
    - rewrite <-range_fr by lia. by replace (k + (j - k)) with j by lia.
    - rewrite range_empty by (rewrite !fr_addr; unfold PAGE_SIZE; lia).
      by rewrite seqZ_nil by lia. }
  destruct (push_list a (seqZ k (j - k)) Hwf) as (a' & -> & Hwf' & Hf' & Hc & Hb).
  exists a'. split_and!; [done|done|]. intros g. unfold bitmap_free. rewrite Hf'.
  assert (∀ m, in_region (fr (first_frame a) k, fr (first_frame a) j) (fr (first_frame a) m) ↔
    m ∈ seqZ k (j - k)) as Hin.
  { intros m. unfold in_region. cbn [fst snd]. rewrite !fr_addr, elem_of_seqZ. unfold PAGE_SIZE. lia. }
  split.
  - intros (m & -> & Hm). rewrite Hin. pose proof (is_free_bounds _ _ Hm). rewrite Hb in Hm by lia.
    destruct (bool_decide_reflect (m ∈ seqZ k (j - k))); [done|]. eauto.
  - intros [(m & -> & Hm) Hn]. rewrite Hin in Hn. exists m. split; [done|].
    rewrite Hb by (by apply is_free_bounds). by rewrite bool_decide_eq_false_2.
Qed.

Lemma inner_new_inv regions s :
  Forall wf_region regions → ForallOrdPairs disjoint_regions regions → inner_new regions = Ret s →
  inner_inv s ∧ top s = prev_frame s ∧ regions = free_regions s ++ [window s].
Proof.
  intros Hwf Hdis. unfold inner_new, next_back. destruct (rev regions) as [|[b e] l] eqn:E; [done|].
  simpl. intros [= <-]. apply (f_equal (@rev _)) in E. rewrite rev_involutive in E. simpl in E.
  rewrite E in Hwf, Hdis |- *. split_and!; try done.
  unfold inner_inv, window. simpl. apply Forall_app in Hwf as [? Hw].
  apply ordpairs_middle in Hdis; [|apply _].
  rewrite app_nil_r in Hdis. destruct Hdis. split; [|by constructor].
  inversion_clear Hw. by constructor.
Qed.

(** ** Properties *)

(** C25. A request to the watermark allocator, of any size, in a state whose regions are
    apart, as [Inner::new] makes it and granted requests keep it.  It panics exactly when
    the size in bytes overflows.  An [Ok] hands out frames that were available and are
    not any more, and keeps the regions apart; an [Err] means that no region that is left
    has room, or that one of them ends below the size of the request.  After an [Err] the
    regions need not be apart: see [watermark_err_then_hole]. *)
Theorem watermark_sound s n :
  inner_inv s → 0 ≤ n →
  match watermark_allocate_contiguous s n with
  | Ret (Ok f, s') => n * PAGE_SIZE ≤ usize_max ∧ inner_inv s' ∧ wf_frame f ∧
      (∀ g, in_run f n g → avail s g ∧ ¬ avail s' g) ∧ (∀ g, avail s' g → avail s g)
  | Ret (Err _, _) => n * PAGE_SIZE ≤ usize_max ∧ (Forall (too_small n) (window s :: free_regions s) ∨
      ∃ r, r ∈ window s :: free_regions s ∧ frame_addr r.2 < n * PAGE_SIZE)
  | Panic r => r = ArithmeticOverflow ∧ usize_max < n * PAGE_SIZE
  end.
Proof.
  intros Hinv Hn. unfold watermark_allocate_contiguous. destruct (Z.eqb_spec n 0) as [->|Hn0].
  { rewrite watermark_zero. cbn [mbind outcome_bind]. split_and!; [done|done|by split; [cbn; lia|]| |done].
    intros g (i & Hi & _). lia. }
  destruct (Z.le_gt_cases (n * PAGE_SIZE) usize_max) as [Hmax|Hmax]; [|by rewrite inner_allocate_overflow by done].
  destruct (inner_allocate_walked s n Hinv ltac:(lia) Hmax) as (res & s' & Ha & _ & Hw & _). rewrite Ha.
  destruct res as [f|e]; [|done].
  by destruct (inner_allocate_ok s n f s' Hinv ltac:(lia) Hmax Ha) as (? & _ & ? & _ & ? & ?).
Qed.

(** C26. The hand-over at boot, as long as no request was refused and no region of the
    memory map ends above the one that is used first.  The runs the watermark allocator
    has handed out are disjoint and inside the memory map, and after [drain_into] the
    bitmap allocator will not hand out again any of them that lies at or above the last
    one.  Runs below it, which there are when a third region was needed, are not covered:
    see [watermark_drain_forgets]. *)
Theorem watermark_handover regions s0 held s a :
  Forall wf_region regions → ForallOrdPairs disjoint_regions regions →
  inner_new regions = Ret s0 → Forall (λ r, frame_addr r.2 ≤ frame_addr (top s0)) regions →
  served s0 held s → wf a →
  ForallOrdPairs disjoint_runs held ∧
  Forall (λ p, ∀ g, in_run p.1 p.2 g → ∃ r, r ∈ regions ∧ in_region r g) held ∧
  ∃ a', drain_into s a = Ret a' ∧ wf a' ∧
    Forall (λ p, frame_addr (prev_frame s) ≤ frame_addr p.1 →
      ∀ g, in_run p.1 p.2 g → ¬ bitmap_free a' g) held.
Proof.
  intros Hwf Hdis Hnew Htop Hs Ha. destruct (inner_new_inv _ _ Hwf Hdis Hnew) as (Hinv & Ht & E).
  destruct (served_sound _ _ _ Hinv Hs) as (Hinv' & Ht' & _ & Hl & Hd).
  assert (∀ g, avail s0 g → ∃ r, r ∈ regions ∧ in_region r g) as Hav.
  { intros g (r & Hr & Hg). exists r. split; [|done]. rewrite E. set_solver. }
  rewrite Forall_forall in Hl, Htop.
  assert (wf_frame (prev_frame s) ∧ wf_frame (top s)) as [Hwp Hwt].
  { rewrite Ht', Ht. destruct Hinv as [Hw _], Hinv' as [Hw' _]. 
    exact (conj (proj2 (Forall_inv Hw')) (proj2 (Forall_inv Hw))). }
  split_and!; [done|apply Forall_forall; intros p Hp g Hg; apply Hav; by eapply Hl|].
  destruct (drain_into_spec s a Ha Hwp Hwt) as (a' & ? & ? & Hfree). exists a'. split_and!; try done.
  apply Forall_forall. intros p Hp Hlow g Hg. rewrite Hfree. intros [_ Hout]. apply Hout.
  destruct (Hav g) as (r & Hr & [_ Hg2]); [by eapply Hl|].
  pose proof (Htop r ltac:(by apply list_elem_of_In)) as Hrt. apply in_run_addr in Hg.
  unfold in_region. rewrite Ht'. simpl in *. lia.
Qed.

(** *** The properties at work *)

Abbreviation frames a b := (frame_at (a * 4096), frame_at (b * 4096)).

(** Two regions, [0..2) and [6..8). *)
Definition demo_inner : Inner := mkInner [frames 0 2] (frame_at 0x6000) (frame_at 0x8000) (frame_at 0x8000).

Lemma demo_inner_inv : inner_inv demo_inner.
Proof.
  split.
  - repeat constructor; cbn; lia || done.
  - repeat constructor. intros g [[H1 H2] [H3 H4]]. cbn in *. lia.
Qed.

Lemma watermark_sound_witness :
  ∃ s', watermark_allocate_contiguous demo_inner 2 = Ret (Ok (frame_at 0x6000), s') ∧ inner_inv s' ∧
    ∀ g, in_run (frame_at 0x6000) 2 g → avail demo_inner g ∧ ¬ avail s' g.
Proof.
  pose proof (watermark_sound demo_inner 2 demo_inner_inv ltac:(lia)) as Hres.
  assert (watermark_allocate_contiguous demo_inner 2 = Ret (Ok (frame_at 0x6000),
    mkInner [frames 0 2] (frame_at 0x6000) (frame_at 0x6000) (frame_at 0x8000))) as E by (vm_compute; reflexivity).
  rewrite E in Hres. destruct Hres as (_ & Hinv & _ & Hrun & _).
  eexists. split; [exact E|]. split; [exact Hinv|exact Hrun].
Defined.

Lemma watermark_handover_witness :
  let a := mkBitmap (frame_at 0) [0xc3] in
  let s := mkInner [] (frame_at 0) (frame_at 0x1000) (frame_at 0x8000) in
  let held := [(frame_at 0x6000, 2); (frame_at 0x1000, 1)] in
  ForallOrdPairs disjoint_runs held ∧ drain_into s a = Ret (mkBitmap (frame_at 0) [1]).
Proof.
  intros a s held.
  destruct (watermark_handover [frames 0 2; frames 6 8] demo_inner held s a) as (Hd & _ & a' & Ha' & _).
  - repeat constructor; cbn; lia || done.
  - repeat constructor. intros g [[H1 H2] [H3 H4]]. cbn in *. lia.
  - vm_compute. reflexivity.
  - repeat constructor; cbn; lia.
  - eapply served_cons; [lia|vm_compute; discriminate|vm_compute; reflexivity|].
    eapply served_cons; [lia|vm_compute; discriminate|vm_compute; reflexivity|]. constructor.
  - split_and!; [split; [cbn; lia|reflexivity]|repeat constructor; unfold word_ok; lia|vm_compute; discriminate].
  - split; [exact Hd|]. vm_compute. reflexivity.
Defined.

(** *** Where the boot allocator goes wrong *)

(** After a refused request the allocator can hand out frames that are in
    no region: the refusal has moved [last_in_current_region] to another region
    and left [prev_frame] where it was. *)
Theorem watermark_err_then_hole :
  ∃ s0 s1 s2, inner_new [frames 0 2; frames 6 7] = Ret s0 ∧
    watermark_allocate_contiguous s0 3 = Ret (Err AllocErr, s1) ∧
    watermark_allocate_contiguous s1 2 = Ret (Ok (frame_at 0x5000), s2) ∧
    ∀ r, r ∈ [frames 0 2; frames 6 7] → ¬ in_region r (frame_at 0x5000).
Proof.
  eexists _, _, _. split; [vm_compute; reflexivity|]. split; [vm_compute; reflexivity|].
  split; [vm_compute; reflexivity|].
  intros r [->|[->|Hr%elem_of_nil]%elem_of_cons]%elem_of_cons; [| |done]; unfold in_region; cbn; lia.
Qed.

(** A third region is enough for [drain_into] to forget a run: it marks
    from the last run to the top, and the run of the second region is below. *)
Theorem watermark_drain_forgets :
  ∃ s0 s a a', inner_new [frames 1 2; frames 3 4; frames 6 8] = Ret s0 ∧
    served s0 [(frame_at 0x6000, 2); (frame_at 0x1000, 1); (frame_at 0x3000, 1)] s ∧
    bitmap_new {| allocation_range := (frame_at 0, frame_at 0x8000);
      regions := [frames 1 2; frames 3 4; frames 6 8] |} = Ret a ∧
    drain_into s a = Ret a' ∧ bitmap_free a' (frame_at 0x1000).
Proof.
  eexists _, _, _, _. split; [vm_compute; reflexivity|]. split.
  { do 3 (eapply served_cons; [lia|vm_compute; discriminate|vm_compute; reflexivity|]). constructor. }
  split; [vm_compute; reflexivity|]. split; [vm_compute; reflexivity|].
  exists 1. split; vm_compute; reflexivity.
Qed.
