(* ===== verification/PageTable.v ===== *)
(** * PageTable: entries and tables of the amd64 page tables

    [Amd64Entry] of [kernel/src/hal/arch/amd64/paging.rs] and the tables of
    [kernel/src/hal/arch/amd64/paging2/table.rs].  A table is a frame of 512
    entries; [memory] gives the entry a frame has at an index.  A reference to a
    table is the frame it is in: the sources reach it through the page map
    region, and [to_page] panics when the address does not fit there. *)

From stdpp Require Import base gmap list numbers option.
From S2P Require Import Prelude Memory Allocator.

Open Scope Z_scope.

(** ** Entries *)

Abbreviation PRESENT := (Z.shiftl 1 0).
Abbreviation WRITABLE := (Z.shiftl 1 1).
Definition ADDRESS : Z := 0x0ffffffffffff000.

(** [self.contains(PRESENT)]. *)
Definition is_present (e : Z) : bool := Z.land e PRESENT =? PRESENT.

Abbreviation is_used e := (is_present e).

Definition empty_entry : Z := 0.

Definition pointed_frame (e : Z) : outcome (option Frame) :=
  if negb (is_present e) then Ret None else
  b ← Phys.new PAGE_SIZE (Z.land e ADDRESS);
  Ret (Some (mkFrame b)).

Definition point_to_frame (e : Z) (f : Frame) : result Z unit :=
  if is_present e then Err tt else
  let empty_entry := Z.land e (usize_not ADDRESS) in
  let masked_addr := Z.land (pa_addr (FrameOps.start f)) ADDRESS in
  Ok (Z.lor (Z.lor (Z.lor empty_entry masked_addr) PRESENT) WRITABLE).

(** ** Levels *)

Record Level := mkLevel { MASK : Z; SHIFT : Z }.

(** The masks are [0o777_000_000_000_0000] and its shorter ones. *)
Definition PML4 : Level := mkLevel (0x1ff * 2 ^ 39) (12 + 9 * 3).
Definition PDPT : Level := mkLevel (0x1ff * 2 ^ 30) (12 + 9 * 2).
Definition PD : Level := mkLevel (0x1ff * 2 ^ 21) (12 + 9 * 1).
Definition PT : Level := mkLevel (0x1ff * 2 ^ 12) (12 + 9 * 0).

Definition level_index (l : Level) (p : Page) : Z := Z.shiftr (Z.land (page_addr p) (MASK l)) (SHIFT l).

Definition pml4_index : Page → Z := level_index PML4.
Definition pdpt_index : Page → Z := level_index PDPT.
Definition pd_index : Page → Z := level_index PD.
Definition pt_index : Page → Z := level_index PT.

#[global] Arguments level_index : simpl never.
#[global] Arguments pml4_index : simpl never.
#[global] Arguments pdpt_index : simpl never.
#[global] Arguments pd_index : simpl never.
#[global] Arguments pt_index : simpl never.

(** ** Tables in memory *)

(** The entry of the frame at an address at an index. *)
Definition memory : Type := Z → Z → Z.

Definition entry_at (m : memory) (t : Frame) (idx : Z) : outcome Z :=
  if (0 <=? idx) && (idx <? 512) then Ret (m (frame_addr t) idx) else Panic IndexOutOfBounds.

Definition set_entry (m : memory) (t : Frame) (idx e : Z) : memory :=
  λ a i, if (a =? frame_addr t) && (i =? idx) then e else m a i.

(** [Table::empty()] written over a frame. *)
Definition write_empty (m : memory) (t : Frame) : memory :=
  λ a i, if a =? frame_addr t then empty_entry else m a i.

Section Tables.
Context {S : Type} `{BackingAllocator S}.

(** [Table::empty_with]; a frame in the page map region is neither null nor
    misaligned exactly when [to_page] is not zero and a multiple of the size. *)
Definition empty_with (m : memory) (s : S) : outcome (result Frame AllocError * memory * S) :=
  '(r, s) ← allocate_one s;
  match r with
  | Err e => Ret (Err e, m, s)
  | Ok table_frame =>
      p ← FrameOps.to_page table_frame;
      _ ← assert (negb (page_addr p =? 0) && (page_addr p mod PAGE_SIZE =? 0));
      Ret (Ok table_frame, write_empty m table_frame, s)
  end.

(** [Table::child_table] and [child_table_mut]. *)
Definition child_table (m : memory) (t : Frame) (idx : Z) : outcome (option Frame) :=
  entry ← entry_at m t idx;
  f ← pointed_frame entry;
  match f with
  | None => Ret None
  | Some table_frame => _ ← FrameOps.to_page table_frame; Ret (Some table_frame)
  end.

Definition child_table_or_new (m : memory) (t : Frame) (idx : Z) (s : S) :
    outcome (result Frame AllocError * memory * S) :=
  c ← child_table m t idx;
  match c with
  | Some table_frame => Ret (Ok table_frame, m, s)
  | None =>
      '(r, m, s) ← empty_with m s;
      match r with
      | Err e => Ret (Err e, m, s)
      | Ok table_frame =>
          entry ← entry_at m t idx;
          e ← expect_ok (point_to_frame entry table_frame);
          let m := set_entry m t idx e in
          c ← child_table m t idx;
          f ← expect c;
          Ret (Ok f, m, s)
      end
  end.

End Tables.

(** ** Bits of an entry *)

Lemma ADDRESS_bits i : 0 ≤ i → Z.testbit ADDRESS i = (12 <=? i) && (i <? 60).
Proof.
  intros Hi. change ADDRESS with (Z.shiftl (Z.ones 48) 12). rewrite Z.shiftl_spec by done.
  destruct (Z.leb_spec 12 i); simpl; [|by rewrite Z.testbit_neg_r by lia].
  destruct (Z.ltb_spec i 60); [by rewrite Z.ones_spec_low by lia|by rewrite Z.ones_spec_high by lia].
Qed.

Lemma is_present_bit e : is_present e = Z.testbit e 0.
Proof.
  unfold is_present. change PRESENT with (Z.ones 1). rewrite Z.land_ones by lia.
  rewrite Z.bit0_odd, Zmod_odd. by destruct (Z.odd e).
Qed.

(** Addresses of frames fit the address field. *)
Definition table_addr (a : Z) : Prop := 0 ≤ a < 2 ^ 60 ∧ a mod PAGE_SIZE = 0.

Lemma low_bits_clear a i : a mod PAGE_SIZE = 0 → 0 ≤ i < 12 → Z.testbit a i = false.
Proof.
  intros Ha Hi. change PAGE_SIZE with (2 ^ 12) in Ha.
  rewrite <-(Z.mod_pow2_bits_low a 12 i), Ha by lia. by rewrite Z.testbit_0_l.
Qed.

Lemma mask_address a : table_addr a → Z.land a ADDRESS = a.
Proof.
  intros [Ha Hm]. apply Z.bits_inj'. intros i Hi. rewrite Z.land_spec, ADDRESS_bits by done.
  destruct (Z.leb_spec 12 i); simpl; [|by rewrite (low_bits_clear a i) by (done || lia)].
  destruct (Z.ltb_spec i 60); [by rewrite andb_true_r|]. by rewrite (testbit_above 60 a i) by lia.
Qed.

(** The address field of an entry is the address of a frame. *)
Lemma masked_table_addr e : table_addr (Z.land e ADDRESS).
Proof.
  assert (0 ≤ Z.land e ADDRESS) by (apply Z.land_nonneg; right; done). split; [split; [done|]|].
  - apply bits_bounded; [lia|done|]. intros i Hi. rewrite Z.land_spec, ADDRESS_bits by lia.
    rewrite (proj2 (Z.ltb_ge i 60)) by lia. by rewrite !andb_false_r.
  - change PAGE_SIZE with (2 ^ 12). apply Z.bits_inj'. intros i Hi. rewrite Z.testbit_0_l.
    destruct (decide (i < 12)).
    + rewrite Z.mod_pow2_bits_low, Z.land_spec, ADDRESS_bits by lia.
      rewrite (proj2 (Z.leb_gt 12 i)) by lia. by rewrite andb_false_r.
    + by rewrite Z.mod_pow2_bits_high by lia.
Qed.

Lemma pointed_frame_ok e :
  pointed_frame e = Ret (if is_present e then Some (frame_at (Z.land e ADDRESS)) else None).
Proof.
  unfold pointed_frame. destruct (is_present e); [|done]. simpl.
  destruct (masked_table_addr e) as [Hr Hm].
  rewrite new_page_aligned by (unfold is_usize; lia). by rewrite Hm.
Qed.

(** Pointing an unused entry to a frame, and reading it back. *)
Lemma point_to_frame_ok e f :
  is_present e = false → table_addr (frame_addr f) →
  ∃ e', point_to_frame e f = Ok e' ∧ is_present e' = true ∧ Z.land e' ADDRESS = frame_addr f.
Proof.
  intros He Hf. unfold point_to_frame. rewrite He. eexists. split; [done|].
  change (pa_addr (FrameOps.start f)) with (frame_addr f). rewrite (mask_address _ Hf).
  rewrite is_present_bit. split.
  - rewrite !Z.lor_spec. change (Z.testbit PRESENT 0) with true. by rewrite orb_true_r.
  - apply Z.bits_inj'. intros i Hi. rewrite Z.land_spec, !Z.lor_spec, Z.land_spec, usize_not_spec by done.
    rewrite !testbit_single, ADDRESS_bits by lia. destruct Hf as [Hr Hm].
    destruct (Z.leb_spec 12 i); simpl; rewrite ?andb_false_r; [|by rewrite (low_bits_clear _ i) by (done || lia)].
    rewrite (proj2 (Z.eqb_neq i 0)), (proj2 (Z.eqb_neq i 1)) by lia. rewrite !orb_false_r.
    destruct (Z.ltb_spec i 60); [|by rewrite !andb_false_r, (testbit_above 60) by lia].
    rewrite (proj2 (Z.ltb_lt i 64)) by lia. simpl. by rewrite andb_false_r, andb_true_r.
Qed.
