(* ===== verification/Walk.v ===== *)
(** * Walk: the theory of a forest of page tables

    [walk m a il] follows present entries from the table at [a] along the indices
    [il], as the processor does.  Several tables in one memory form a forest: a
    [depth] says which slots are its top-level ones and how many levels of entries
    there are below each.  [forest_inv] says that no table is reached in two
    ways, and that no table is a frame the allocator may still hand out; under it
    an entry that is written changes the paths through that entry and no other. *)

From stdpp Require Import base gmap list numbers option.
From S2P Require Import Prelude Memory Allocator PageTable.

Open Scope Z_scope.

Definition next (m : memory) (a i : Z) : option Z :=
  if is_present (m a i) then Some (Z.land (m a i) ADDRESS) else None.

Fixpoint walk (m : memory) (a : Z) (il : list Z) : option Z :=
  match il with
  | [] => Some a
  | i :: il => b ← next m a i; walk m b il
  end.

Lemma walk_app m a il js : walk m a (il ++ js) = (b ← walk m a il; walk m b js).
Proof.
  revert a. induction il as [|i il IH]; intros a; simpl; [done|].
  destruct (next m a i); simpl; [apply IH|done].
Qed.

Lemma walk_snoc m a il i : walk m a (il ++ [i]) = (b ← walk m a il; next m b i).
Proof. rewrite walk_app. destruct (walk m a il) as [b|]; simpl; [by destruct (next m b i)|done]. Qed.

(** A walk depends on the entries it goes through only. *)
Lemma walk_agree m m' a il :
  (∀ js j ks b, il = js ++ j :: ks → walk m a js = Some b → next m' b j = next m b j) →
  walk m' a il = walk m a il.
Proof.
  revert a. induction il as [|i il IH]; intros a Hag; simpl; [done|].
  rewrite (Hag [] i il a) by done. destruct (next m a i) as [b|] eqn:Hn; simpl; [|done].
  apply IH. intros js j ks c -> Hw. apply (Hag (i :: js) j ks c); [done|]. simpl. by rewrite Hn.
Qed.

Lemma next_set_entry m t i e a j :
  next (set_entry m t i e) a j =
    if (a =? frame_addr t) && (j =? i)
    then (if is_present e then Some (Z.land e ADDRESS) else None) else next m a j.
Proof. unfold next, set_entry. by destruct ((a =? frame_addr t) && (j =? i)). Qed.

Lemma next_write_empty m t a j :
  next (write_empty m t) a j = if a =? frame_addr t then None else next m a j.
Proof. unfold next, write_empty. by destruct (a =? frame_addr t). Qed.

(** Indices of a table, and addresses the page map region has room for. *)
Definition idx (i : Z) : Prop := 0 ≤ i < 512.
Definition mapped_addr (a : Z) : Prop := 0 ≤ a < 2 ^ 47 ∧ a mod PAGE_SIZE = 0.

Lemma mapped_table_addr a : mapped_addr a → table_addr a.
Proof. intros [??]. split; [lia|done]. Qed.

Lemma to_page_mapped f :
  mapped_addr (frame_addr f) → FrameOps.to_page f = Ret (page_at (frame_addr f + PAGE_MAP_OFFSET)).
Proof.
  intros [Hr _]. unfold FrameOps.to_page, Phys.to_virtual.
  change (pa_addr (frame_base f)) with (frame_addr f).
  rewrite usize_add_ok by (unfold PAGE_MAP_OFFSET; lia). done.
Qed.

(** The pointer to such a frame is not null and is aligned. *)
Lemma to_page_assert f :
  mapped_addr (frame_addr f) →
  assert (negb (page_addr (page_at (frame_addr f + PAGE_MAP_OFFSET)) =? 0) &&
          (page_addr (page_at (frame_addr f + PAGE_MAP_OFFSET)) mod PAGE_SIZE =? 0)) = Ret tt.
Proof.
  intros [Hr Hm]. change (page_addr (page_at ?x)) with x.
  rewrite (proj2 (Z.eqb_neq _ 0)) by (unfold PAGE_MAP_OFFSET; lia). simpl.
  change PAGE_MAP_OFFSET with (0xffff800000000 * PAGE_SIZE). by rewrite Z.mod_add, Hm.
Qed.

Lemma entry_at_ok m t i : idx i → entry_at m t i = Ret (m (frame_addr t) i).
Proof.
  intros [H0 H1]. unfold entry_at. by rewrite (proj2 (Z.leb_le 0 i)), (proj2 (Z.ltb_lt i 512)) by done.
Qed.

Lemma child_table_ok m t i :
  idx i → (∀ b, next m (frame_addr t) i = Some b → mapped_addr b) →
  child_table m t i = Ret ((λ b, frame_at b) <$> next m (frame_addr t) i).
Proof.
  intros Hi Hb. unfold child_table. rewrite entry_at_ok by done. simpl. rewrite pointed_frame_ok. simpl.
  unfold next in *. destruct (is_present (m (frame_addr t) i)); simpl; [|done].
  rewrite to_page_mapped by (by apply Hb). done.
Qed.

(** ** Forests *)

Section Forest.
Context (depth : Z → Z → option nat).
Context {S : Type} `{LawfulAllocator S}.

(** Paths to tables: the roots, and the paths that end above the leaves. *)
Definition table_path (a : Z) (il : list Z) : Prop :=
  match il with
  | [] => ∃ i d, depth a i = Some d
  | i :: il => ∃ d, depth a i = Some d ∧ (length il < d)%nat ∧ Forall idx il
  end.

(** Paths to the frames of pages. *)
Definition leaf_path (a : Z) (il : list Z) : Prop :=
  match il with
  | [] => False
  | i :: il => ∃ d, depth a i = Some d ∧ length il = d ∧ Forall idx il
  end.

Definition entry_path (a : Z) (il : list Z) : Prop := table_path a il ∨ leaf_path a il.

Record forest_inv (m : memory) (s : S) : Prop := {
  table_ok a il b : table_path a il → walk m a il = Some b →
    mapped_addr b ∧ ¬ alloc_free s (frame_at b);
  table_unique a il a' il' b : table_path a il → table_path a' il' →
    walk m a il = Some b → walk m a' il' = Some b → a = a' ∧ il = il'
}.

Lemma entry_path_prefix a js j ks : entry_path a (js ++ j :: ks) → table_path a js.
Proof.
  intros [Ht|Hl]; destruct js as [|i js]; simpl in *.
  - destruct Ht as (d & ? & _). by exists j, d.
  - destruct Ht as (d & Hd & Hlen & Hf). rewrite length_app in Hlen. simpl in Hlen.
    exists d. apply Forall_app in Hf as [? _]. split_and!; [done|lia|done].
  - destruct Hl as (d & ? & _). by exists j, d.
  - destruct Hl as (d & Hd & Hlen & Hf). rewrite length_app in Hlen. simpl in Hlen.
    exists d. apply Forall_app in Hf as [? _]. split_and!; [done|lia|done].
Qed.

(** Writing an entry of a table changes the paths through that entry only. *)
Lemma walk_set_entry m s a il t i e a' js :
  forest_inv m s → table_path a il → walk m a il = Some (frame_addr t) →
  entry_path a' js → ¬ (a' = a ∧ il ++ [i] `prefix_of` js) →
  walk (set_entry m t i e) a' js = walk m a' js.
Proof.
  intros Hf Ht Hw Hp Hn. apply walk_agree. intros ks j ls b -> Hk. rewrite next_set_entry.
  destruct (Z.eqb_spec b (frame_addr t)) as [->|]; [|done]. destruct (Z.eqb_spec j i) as [->|]; [|done].
  pose proof (entry_path_prefix _ _ _ _ Hp) as Hk'.
  destruct (table_unique m s Hf _ _ _ _ _ Ht Hk' Hw Hk) as [-> ->].
  destruct Hn. split; [done|]. exists ls. by rewrite <-app_assoc.
Qed.

(** A frame the allocator may hand out can be overwritten. *)
Lemma walk_write_empty m s f a il :
  forest_inv m s → alloc_free s f → entry_path a il → walk (write_empty m f) a il = walk m a il.
Proof.
  intros Hf Hfree Hp. apply walk_agree. intros js j ks b -> Hw. rewrite next_write_empty.
  destruct (Z.eqb_spec b (frame_addr f)) as [->|]; [|done].
  destruct (table_ok m s Hf a js (frame_addr f)) as [_ Hn]; [by eapply entry_path_prefix|done|].
  by rewrite frame_eta in Hn.
Qed.

(** The invariant is about the walks along tables and the frames that are free. *)
Lemma forest_inv_same m m' s s' :
  forest_inv m s →
  (∀ a il, table_path a il → walk m' a il = walk m a il) →
  (∀ g, alloc_free s' g → alloc_free s g) → forest_inv m' s'.
Proof.
  intros Hf Hw Hg. split.
  - intros a il b Hp Hb. rewrite Hw in Hb by done. destruct (table_ok m s Hf a il b) as [??]; naive_solver.
  - intros a il a' il' b Hp Hp'. rewrite !Hw by done. by apply (table_unique m s Hf).
Qed.

(** A new table at the end of a path that led nowhere. *)
Lemma forest_inv_extend m m' s s' a il f :
  forest_inv m s → table_path a il → mapped_addr (frame_addr f) → alloc_free s f →
  (∀ g, alloc_free s' g → alloc_free s g ∧ g ≠ f) →
  (∀ a' js b, table_path a' js → walk m' a' js = Some b →
     walk m a' js = Some b ∨ a' = a ∧ js = il ∧ b = frame_addr f) →
  forest_inv m' s'.
Proof.
  intros Hf Hp Hmap Hfree Hg Hw. split.
  - intros a' js b Hp' [Hb|(-> & -> & ->)]%Hw; [| |done].
    + destruct (table_ok m s Hf a' js b) as [??]; naive_solver.
    + split; [done|]. rewrite frame_eta. naive_solver.
  - assert (∀ a' js, table_path a' js → walk m a' js ≠ Some (frame_addr f)) as Hnew.
    { intros a' js Hp' Hb. destruct (table_ok m s Hf _ _ _ Hp' Hb) as [_ Hn]. by rewrite frame_eta in Hn. }
    intros a1 il1 a2 il2 b Hp1 Hp2 [H1|(-> & -> & ->)]%Hw [H2|(-> & -> & Hb)]%Hw; try done.
    + by eapply (table_unique m s Hf).
    + subst. by destruct (Hnew _ _ Hp1).
    + by destruct (Hnew _ _ Hp2).
Qed.

(** ** Steps of the operations *)

(** The forest, the allocator, and frames the page map region has room for. *)
Definition forest_ok (m : memory) (s : S) : Prop :=
  forest_inv m s ∧ alloc_inv s ∧ ∀ g, alloc_free s g → frame_addr g < 2 ^ 47.

(** The frames that are tables. *)
Definition is_table (m : memory) (b : Z) : Prop := ∃ a il, table_path a il ∧ walk m a il = Some b.

(** What the operations do to the allocator and to the set of tables: frames
    are taken one by one, and what becomes a table was free. *)
Definition one_step (s s' : S) : Prop := alloc_inv s ∧ ∃ r, allocate_one s = Ret (r, s').

Definition grows (m : memory) (s : S) (m' : memory) (s' : S) : Prop :=
  rtc one_step s s' ∧ ∀ b, is_table m' b → is_table m b ∨ alloc_free s (frame_at b).

Lemma one_steps_free s s' g : rtc one_step s s' → alloc_free s' g → alloc_free s g.
Proof.
  induction 1 as [|s s1 s' [Hinv [r Hr]] _ IH]; [done|]. intros Hg%IH.
  destruct (allocate_one_law s Hinv) as (r' & s2 & Hr' & _ & Hl). rewrite Hr in Hr'. injection Hr' as <- <-.
  destruct r; [destruct Hl as (_ & _ & Hl)|]; by apply Hl in Hg as ?; destruct_and?.
Qed.

(** The allocator had no frame for a table, on the way from [s] on. *)
Definition starved (s : S) : Prop :=
  ∃ s1 s2 e, rtc one_step s s1 ∧ alloc_inv s1 ∧ allocate_one s1 = Ret (Err e, s2).

Lemma starved_after s s' : rtc one_step s s' → starved s' → starved s.
Proof. intros Hs (s1 & s2 & e & Hs1 & Hinv & Ha). exists s1, s2, e. split; [by etransitivity|done]. Qed.

Lemma grows_refl m s m' : (∀ b, is_table m' b → is_table m b) → grows m s m' s.
Proof. intros Ht. split; [done|]. intros b Hb. left. by apply Ht. Qed.

Lemma grows_trans m1 s1 m2 s2 m3 s3 : grows m1 s1 m2 s2 → grows m2 s2 m3 s3 → grows m1 s1 m3 s3.
Proof.
  intros [Hs1 Ht1] [Hs2 Ht2]. split; [by etransitivity|].
  intros b [Hb|Hb]%Ht2; [by apply Ht1|right]. by eapply one_steps_free.
Qed.

(** The slots of a root that are not top-level ones of the forest. *)
Definition spare (a i : Z) : Prop := table_path a [] ∧ depth a i = None.

(** No page and no spare slot was touched. *)
Definition same_pages (m m' : memory) : Prop :=
  (∀ a il, leaf_path a il → walk m' a il = walk m a il) ∧
  (∀ a i, spare a i → next m' a i = next m a i).

#[global] Instance same_pages_preorder : PreOrder same_pages.
Proof.
  split; [done|]. intros m1 m2 m3 [H1 H2] [H3 H4]. split; intros.
  - by rewrite H3, H1.
  - by rewrite H4, H2.
Qed.

Lemma spare_set_entry m s a il t i e b j :
  forest_inv m s → table_path a il → walk m a il = Some (frame_addr t) → entry_path a (il ++ [i]) →
  spare b j → next (set_entry m t i e) b j = next m b j.
Proof.
  intros Hf Ht Hw Hp [Hr Hd]. rewrite next_set_entry.
  destruct (Z.eqb_spec b (frame_addr t)) as [->|]; [|done]. destruct (Z.eqb_spec j i) as [->|]; [|done].
  destruct (table_unique m s Hf _ _ _ _ _ Ht Hr Hw eq_refl) as [-> ->].
  destruct Hp as [(d & ? & _)|(d & ? & _)]; naive_solver.
Qed.

Lemma spare_write_empty m s f b j :
  forest_inv m s → alloc_free s f → spare b j → next (write_empty m f) b j = next m b j.
Proof.
  intros Hf Hfree [Hr _]. rewrite next_write_empty. destruct (Z.eqb_spec b (frame_addr f)) as [->|]; [|done].
  destruct (table_ok m s Hf _ _ _ Hr eq_refl) as [_ Hn]. by rewrite frame_eta in Hn.
Qed.

(** A fresh table written behind an unused entry. *)
Definition with_table (m : memory) (t : Frame) (i : Z) (f : Frame) (e : Z) : memory :=
  set_entry (write_empty m f) t i e.

Section Grow.
Context (m : memory) (s s' : S) (a : Z) (il : list Z) (t : Frame) (i : Z) (f : Frame) (e : Z).
Context (Hok : forest_ok m s) (Ht : table_path a il) (Hw : walk m a il = Some (frame_addr t)).
Context (Hp : table_path a (il ++ [i])) (Hnone : next m (frame_addr t) i = None).
Context (Hwf : wf_frame f) (Hfree : alloc_free s f) (Hinv' : alloc_inv s').
Context (Hs' : ∀ g, alloc_free s' g ↔ alloc_free s g ∧ g ≠ f).
Context (He : is_present e = true) (Hea : Z.land e ADDRESS = frame_addr f).

Local Abbreviation m' := (with_table m t i f e).

Lemma fresh_mapped : mapped_addr (frame_addr f).
Proof. destruct Hok as (_ & _ & Hb), Hwf as [[??] ?]. split; [split; [done|by apply Hb]|done]. Qed.

Lemma fresh_not_table : frame_addr f ≠ frame_addr t.
Proof.
  intros Heq. destruct Hok as (Hf & _). destruct (table_ok m s Hf _ _ _ Ht Hw) as [_ Hn].
  by rewrite <-Heq, frame_eta in Hn.
Qed.

Lemma empty_forest : forest_inv (write_empty m f) s.
Proof.
  destruct Hok as (Hf & _). eapply forest_inv_same; [exact Hf| |done].
  intros. eapply walk_write_empty; [done..|by left].
Qed.

Lemma grow_other a' js :
  entry_path a' js → ¬ (a' = a ∧ il ++ [i] `prefix_of` js) → walk m' a' js = walk m a' js.
Proof.
  intros Hjs Hn. destruct Hok as (Hf & _). unfold with_table.
  rewrite (walk_set_entry _ s a il); try done.
  - by eapply walk_write_empty.
  - apply empty_forest.
  - by rewrite (walk_write_empty _ s) by (done || by left).
Qed.

Lemma grow_there : walk m' a (il ++ [i]) = Some (frame_addr f).
Proof.
  rewrite walk_snoc, grow_other.
  - rewrite Hw. simpl. unfold with_table. rewrite next_set_entry, !Z.eqb_refl. simpl. by rewrite He, Hea.
  - by left.
  - intros [_ Hl%prefix_length]. rewrite length_app in Hl. simpl in Hl. lia.
Qed.

(** Beyond the new table there is nothing, as before. *)
Lemma grow_beyond j js : walk m' a ((il ++ [i]) ++ j :: js) = None ∧ walk m a ((il ++ [i]) ++ j :: js) = None.
Proof.
  rewrite !(walk_app _ _ (il ++ [i])), grow_there, walk_snoc, Hw. simpl. rewrite Hnone. split; [|done].
  unfold with_table. rewrite next_set_entry, next_write_empty.
  rewrite (proj2 (Z.eqb_neq _ _) fresh_not_table). simpl. by rewrite Z.eqb_refl.
Qed.

Lemma grow_same : same_pages m m'.
Proof.
  destruct Hok as (Hf & _). split.
  - intros a' js Hl. destruct (decide (a' = a ∧ il ++ [i] `prefix_of` js)) as [[-> [ks ->]]|Hn].
    + destruct ks as [|k ks]; [|destruct (grow_beyond k ks); congruence].
      rewrite app_nil_r in Hl. exfalso. destruct il; simpl in *.
      * destruct Hp as (d & Hd & ? & _), Hl as (d' & Hd' & ? & _). simpl in *. simplify_eq. lia.
      * destruct Hp as (d & Hd & ? & _), Hl as (d' & Hd' & ? & _). simplify_eq. lia.
    + apply grow_other; [by right|done].
  - intros b j Hs. unfold with_table. rewrite (spare_set_entry _ s a il); try done.
    + by eapply spare_write_empty.
    + apply empty_forest.
    + by rewrite (walk_write_empty _ s) by (done || by left).
    + by left.
Qed.

Lemma grow_tables_new b : is_table m' b → is_table m b ∨ b = frame_addr f.
Proof.
  intros (a' & js & Hjs & Hb). destruct (decide (a' = a ∧ il ++ [i] `prefix_of` js)) as [[-> [ks ->]]|Hn].
  - destruct ks as [|k ks]; [|destruct (grow_beyond k ks); congruence].
    rewrite app_nil_r, grow_there in Hb. injection Hb as <-. by right.
  - left. exists a', js. split; [done|]. by rewrite <-Hb, grow_other by (done || by left).
Qed.

Lemma grow_tables : ∀ b, is_table m' b → is_table m b ∨ alloc_free s (frame_at b).
Proof. intros b [Hb| ->]%grow_tables_new; [by left|right]. by rewrite frame_eta. Qed.

Lemma grow_ok : forest_ok m' s'.
Proof.
  destruct Hok as (Hf & _ & Hb). split_and!; [|done|intros g Hg; apply Hb, (Hs' g), Hg].
  apply (forest_inv_extend m m' s s' a (il ++ [i]) f); try done.
  - apply fresh_mapped.
  - intros g Hg. by apply Hs'.
  - intros a' js b Hjs Hb'. destruct (decide (a' = a ∧ il ++ [i] `prefix_of` js)) as [[-> [ks ->]]|Hn].
    + destruct ks as [|k ks]; [|destruct (grow_beyond k ks); congruence].
      rewrite app_nil_r in Hb' |- *. rewrite grow_there in Hb'. right. naive_solver.
    + left. by rewrite <-Hb', grow_other by (done || by left).
Qed.

End Grow.

Lemma child_table_walk m s a il t i :
  forest_ok m s → table_path a il → walk m a il = Some (frame_addr t) → table_path a (il ++ [i]) → idx i →
  child_table m t i = Ret ((λ b, frame_at b) <$> walk m a (il ++ [i])).
Proof.
  intros (Hf & _) Ht Hw Hp Hi.
  assert (walk m a (il ++ [i]) = next m (frame_addr t) i) as Hsn by by rewrite walk_snoc, Hw.
  rewrite Hsn. apply child_table_ok; [done|]. intros b Hn. eapply (table_ok m s Hf); [exact Hp|congruence].
Qed.

(** [child_table_or_new] never panics; it finds the table, grows the forest by
    one, or leaves everything as it was. *)
Lemma child_table_or_new_ok m s a il t i :
  forest_ok m s → table_path a il → walk m a il = Some (frame_addr t) → table_path a (il ++ [i]) → idx i →
  ∃ r m' s', child_table_or_new m t i s = Ret (r, m', s') ∧ forest_ok m' s' ∧ same_pages m m' ∧
  grows m s m' s' ∧
  match r with
  | Ok t' => walk m' a (il ++ [i]) = Some (frame_addr t')
  | Err _ => m' = m ∧ walk m a (il ++ [i]) = None ∧ starved s
  end.
Proof.
  intros Hok Ht Hw Hp Hi. pose proof Hok as (Hf & Hinv & Hb).
  assert (walk m a (il ++ [i]) = next m (frame_addr t) i) as Hsn by by rewrite walk_snoc, Hw.
  unfold child_table_or_new. rewrite (child_table_walk m s a il) by done. rewrite Hsn.
  destruct (next m (frame_addr t) i) as [b|] eqn:Hn; simpl.
  { exists (Ok (frame_at b)), m, s. split_and!; try done. by apply grows_refl. }
  unfold empty_with. destruct (allocate_one_law s Hinv) as (r & s' & Hone & Hinv' & Hr).
  assert (rtc one_step s s') as Hst by (apply rtc_once; split; eauto). rewrite Hone. simpl.
  destruct r as [f|err]; simpl; [destruct Hr as (Hwf & Hfree & Hs')|]; last first.
  { exists (Err err), m, s'. split_and!; try done; [|split; [done|by left]|by exists s, s', err].
    split_and!; [eapply forest_inv_same; [exact Hf|done|]; naive_solver|done|naive_solver]. }
  pose proof (fresh_mapped m s f Hok Hwf Hfree) as Hmap.
  pose proof (fresh_not_table m s a il t f Hok Ht Hw Hfree) as Hne.
  rewrite to_page_mapped by done. simpl. rewrite (to_page_assert f Hmap). simpl.
  rewrite entry_at_ok by done. simpl.
  assert (write_empty m f (frame_addr t) i = m (frame_addr t) i) as ->.
  { unfold write_empty. by rewrite (proj2 (Z.eqb_neq (frame_addr t) (frame_addr f))) by done. }
  destruct (point_to_frame_ok (m (frame_addr t) i) f) as (e & -> & He & Hea).
  { unfold next in Hn. by destruct (is_present (m (frame_addr t) i)). }
  { by apply mapped_table_addr. }
  simpl. assert (next (set_entry (write_empty m f) t i e) (frame_addr t) i = Some (frame_addr f)) as Hthere.
  { rewrite next_set_entry, !Z.eqb_refl. simpl. by rewrite He, Hea. }
  rewrite child_table_ok by (done || (intros b; rewrite Hthere; by intros [= <-])).
  rewrite Hthere. simpl. rewrite frame_eta. exists (Ok f), (with_table m t i f e), s'. split_and!; try done.
  - by apply (grow_ok m s s' a il).
  - by apply (grow_same m s a il).
  - split; [done|]. by apply (grow_tables m s a il).
  - by apply (grow_there m s).
Qed.

(** Memories that read the same as tables are the same forest. *)
Lemma walk_ext m m' a il : (∀ b i, next m' b i = next m b i) → walk m' a il = walk m a il.
Proof. intros Hn. by apply walk_agree. Qed.

Lemma forest_ok_ext m m' s : (∀ b i, next m' b i = next m b i) → forest_ok m s → forest_ok m' s.
Proof.
  intros Hn (Hf & Hrest). split; [|done]. eapply forest_inv_same; [exact Hf| |done].
  intros. by apply walk_ext.
Qed.

Lemma is_table_ext m m' b : (∀ c i, next m' c i = next m c i) → is_table m' b → is_table m b.
Proof. intros Hn (a & il & Hp & Hw). exists a, il. split; [done|]. by rewrite <-Hw, (walk_ext m m'). Qed.

(** ** Writing the entry of a page *)

Lemma leaf_prefix a il js : leaf_path a il → entry_path a js → il `prefix_of` js → js = il.
Proof.
  intros Hl He [ks ->]. destruct il as [|i il]; [done|]. simpl in *. destruct Hl as (d & Hd & Hlen & _).
  assert (length (il ++ ks) ≤ d)%nat as Hle.
  { destruct He as [(d' & ? & ? & _)|(d' & ? & ? & _)]; simplify_eq; lia. }
  rewrite length_app in Hle. destruct ks; [by rewrite app_nil_r|]. simpl in Hle. lia.
Qed.

Lemma leaf_set_entry m s a il t i e :
  forest_ok m s → table_path a il → walk m a il = Some (frame_addr t) → leaf_path a (il ++ [i]) →
  let m' := set_entry m t i e in
  forest_ok m' s ∧
  walk m' a (il ++ [i]) = (if is_present e then Some (Z.land e ADDRESS) else None) ∧
  (∀ a' js, leaf_path a' js → (a', js) ≠ (a, il ++ [i]) → walk m' a' js = walk m a' js) ∧
  (∀ b j, spare b j → next m' b j = next m b j) ∧
  (∀ b, is_table m' b → is_table m b).
Proof.
  intros (Hf & Hinv & Hb) Ht Hw Hl m'.
  assert (∀ a' js, entry_path a' js → (a', js) ≠ (a, il ++ [i]) → walk m' a' js = walk m a' js) as Hother.
  { intros a' js Hjs Hne. eapply walk_set_entry; [done..|]. intros [-> Hpre].
    by rewrite (leaf_prefix a (il ++ [i]) js) in Hne by done. }
  assert (∀ a' js, table_path a' js → (a', js) ≠ (a, il ++ [i])) as Htl.
  { intros a' js Hjs [= -> ->]. destruct il; simpl in *.
    - destruct Hjs as (d & ? & ? & _), Hl as (d' & ? & ? & _). simplify_eq. lia.
    - destruct Hjs as (d & ? & ? & _), Hl as (d' & ? & ? & _). simplify_eq. lia. }
  split_and!.
  - split_and!; [|done..]. eapply forest_inv_same; [exact Hf| |done].
    intros. apply Hother; [by left|by apply Htl].
  - rewrite walk_snoc, Hother, Hw by (by left || by apply Htl). simpl. unfold m'.
    by rewrite next_set_entry, !Z.eqb_refl.
  - intros. apply Hother; [by right|done].
  - intros. eapply spare_set_entry; [done..|by right|done].
  - intros b (a' & js & Hjs & Hwb). exists a', js. split; [done|]. rewrite <-Hwb. symmetry.
    apply Hother; [by left|by apply Htl].
Qed.

End Forest.
