(* ===== verification/Paging.v ===== *)
(** * Paging: mapping and translating pages

    [kernel/src/hal/arch/amd64/paging2/mod.rs] and the provided method of
    [kernel/src/hal/paging2/mod.rs].  [Amd64TTable] is the frame of its PML4
    table, [Amd64KTable] the first of the 256 consecutive PDPT tables of the upper
    half.  The operations take the memory and the state of the allocator and give
    them back.  The translation buffer of the processor is not modelled; [invlpg]
    has no effect on the tables. *)

From stdpp Require Import base gmap list numbers option.
From S2P Require Import Prelude Memory Allocator PageTable Walk.

Open Scope Z_scope.

Inductive MapPageError := MapAllocError | AlreadyMapped.

Definition UPPER_HALF : Z := 0xffff800000000000.

(** From a PDPT table on: the steps the two kinds of table share. *)
Definition translate_from (m : memory) (pdpt : Frame) (p : Page) : outcome (option Frame) :=
  pd ← child_table m pdpt (pdpt_index p);
  match pd with
  | None => Ret None
  | Some pd =>
      pt ← child_table m pd (pd_index p);
      match pt with
      | None => Ret None
      | Some pt => e ← entry_at m pt (pt_index p); pointed_frame e
      end
  end.

Definition unmap_entry (m : memory) (pt : Frame) (p : Page) : outcome (result unit unit * memory) :=
  e ← entry_at m pt (pt_index p);
  match is_used e, is_present e with
  | true, false => Ret (Ok tt, m)
  | true, true => Ret (Ok tt, set_entry m pt (pt_index p) empty_entry)
  | false, _ => Ret (Err tt, m)
  end.

Definition unmap_from (m : memory) (pdpt : Frame) (p : Page) : outcome (result unit unit * memory) :=
  pd ← child_table m pdpt (pdpt_index p);
  match pd with
  | None => Ret (Err tt, m)
  | Some pd =>
      pt ← child_table m pd (pd_index p);
      match pt with
      | None => Ret (Err tt, m)
      | Some pt => unmap_entry m pt p
      end
  end.

(** [Amd64TTable::translate_page] and [unmap_page]. *)
Definition ttable_translate_page (m : memory) (pml4 : Frame) (p : Page) : outcome (option Frame) :=
  _ ← assert (page_addr p <? UPPER_HALF);
  _ ← FrameOps.to_page pml4;
  pdpt ← child_table m pml4 (pml4_index p);
  match pdpt with
  | None => Ret None
  | Some pdpt => translate_from m pdpt p
  end.

Definition ttable_unmap_page (m : memory) (pml4 : Frame) (p : Page) : outcome (result unit unit * memory) :=
  _ ← assert (page_addr p <? UPPER_HALF);
  _ ← FrameOps.to_page pml4;
  pdpt ← child_table m pml4 (pml4_index p);
  match pdpt with
  | None => Ret (Err tt, m)
  | Some pdpt => unmap_from m pdpt p
  end.

(** The PDPT table of the upper half that covers a page: [tables()[i - 256]]. *)
Definition ktable_pdpt (tables : Frame) (p : Page) : outcome Frame :=
  _ ← FrameOps.to_page tables;
  i ← usize_sub (pml4_index p) 256;
  if i <? 256 then Ret (frame_at (frame_addr tables + i * PAGE_SIZE)) else Panic IndexOutOfBounds.

(** [Amd64KTable::translate_page] and [unmap_page]. *)
Definition ktable_translate_page (m : memory) (tables : Frame) (p : Page) : outcome (option Frame) :=
  _ ← assert (page_addr p <? UPPER_HALF);
  pdpt ← ktable_pdpt tables p;
  translate_from m pdpt p.

Definition ktable_unmap_page (m : memory) (tables : Frame) (p : Page) : outcome (result unit unit * memory) :=
  _ ← assert (UPPER_HALF <=? page_addr p);
  pdpt ← ktable_pdpt tables p;
  unmap_from m pdpt p.

(** [construct_tables]: the tables that the register [cr3] points to. *)
Definition construct_tables (m : memory) (cr3 : Z) : outcome (Frame * Frame) :=
  base ← Phys.new PAGE_SIZE (Z.land cr3 0xfffffffffffff000);
  let ttable := mkFrame base in
  _ ← FrameOps.to_page ttable;
  e ← entry_at m ttable 256;
  f ← pointed_frame e;
  ktable ← expect f;
  Ret (ktable, ttable).

Section Mapping.
Context {S : Type} `{BackingAllocator S}.

Definition map_from (m : memory) (pdpt : Frame) (p : Page) (f : Frame) (s : S) :
    outcome (result unit MapPageError * memory * S) :=
  '(pd, m, s) ← child_table_or_new m pdpt (pdpt_index p) s;
  match pd with
  | Err _ => Ret (Err MapAllocError, m, s)
  | Ok pd =>
      '(pt, m, s) ← child_table_or_new m pd (pd_index p) s;
      match pt with
      | Err _ => Ret (Err MapAllocError, m, s)
      | Ok pt =>
          e ← entry_at m pt (pt_index p);
          match point_to_frame e f with
          | Ok e => Ret (Ok tt, set_entry m pt (pt_index p) e, s)
          | Err _ => Ret (Err AlreadyMapped, m, s)
          end
      end
  end.

(** [Amd64TTable::map_page]. *)
Definition ttable_map_page (m : memory) (pml4 : Frame) (p : Page) (f : Frame) (s : S) :
    outcome (result unit MapPageError * memory * S) :=
  _ ← assert (page_addr p <? UPPER_HALF);
  _ ← FrameOps.to_page pml4;
  '(pdpt, m, s) ← child_table_or_new m pml4 (pml4_index p) s;
  match pdpt with
  | Err _ => Ret (Err MapAllocError, m, s)
  | Ok pdpt => map_from m pdpt p f s
  end.

(** [Amd64KTable::map_page]. *)
Definition ktable_map_page (m : memory) (tables : Frame) (p : Page) (f : Frame) (s : S) :
    outcome (result unit MapPageError * memory * S) :=
  _ ← assert (UPPER_HALF <=? page_addr p);
  pdpt ← ktable_pdpt tables p;
  map_from m pdpt p f s.

(** [Amd64TTable::new]: the upper half of the new table points to the tables of
    the kernel. *)
Definition point_upper_half (tables pml4 : Frame) (m : memory) : outcome memory :=
  for_each (seqZ 0 256) (λ i m,
    ktable_frame ← FrameOps.add tables i;
    e ← entry_at m pml4 (256 + i);
    e' ← expect_ok (point_to_frame e ktable_frame);
    Ret (set_entry m pml4 (256 + i) e')) m.

Definition ttable_new (m : memory) (tables : Frame) (s : S) : outcome (result Frame AllocError * memory * S) :=
  '(r, m, s) ← empty_with m s;
  match r with
  | Err e => Ret (Err e, m, s)
  | Ok pml4 =>
      p ← FrameOps.to_page pml4;
      _ ← assert (negb (page_addr p =? 0) && (page_addr p mod PAGE_SIZE =? 0));
      m ← point_upper_half tables pml4 m;
      Ret (Ok pml4, m, s)
  end.

End Mapping.

(** [KTable::translate_address], for a table whose [translate_page] is given. *)
Definition translate_address (translate_page : Page → outcome (option Frame)) (addr : VirtualAddress) :
    outcome (option PhysicalAddress) :=
  aligned ← Virt.align_down PAGE_SIZE addr;
  diff ← Virt.diff addr aligned;
  physical ← translate_page (mkPage aligned);
  match physical with
  | None => Ret None
  | Some f => a ← Phys.add (FrameOps.start f) diff; Ret (Some a)
  end.

(** ** Indices *)

Lemma level_index_div k p :
  0 ≤ k → level_index (mkLevel (0x1ff * 2 ^ k) k) p = page_addr p / 2 ^ k mod 512.
Proof.
  intros Hk. unfold level_index. cbn [MASK SHIFT]. rewrite Z.shiftr_land, <-Z.shiftl_mul_pow2 by done.
  rewrite Z.shiftr_shiftl_l, Z.sub_diag, Z.shiftl_0_r by done. change 0x1ff with (Z.ones 9).
  by rewrite Z.land_ones, Z.shiftr_div_pow2 by lia.
Qed.

(** From here on the indices are what [level_index_div] says of them. *)
#[global] Opaque level_index.

Lemma pml4_index_div p : pml4_index p = page_addr p / 2 ^ 39 mod 512.
Proof. apply (level_index_div 39 p). lia. Qed.

Lemma pdpt_index_div p : pdpt_index p = page_addr p / 2 ^ 30 mod 512.
Proof. apply (level_index_div 30 p). lia. Qed.

Lemma pd_index_div p : pd_index p = page_addr p / 2 ^ 21 mod 512.
Proof. apply (level_index_div 21 p). lia. Qed.

Lemma pt_index_div p : pt_index p = page_addr p / 2 ^ 12 mod 512.
Proof. apply (level_index_div 12 p). lia. Qed.

Lemma mod_idx x : idx (x mod 512).
Proof. pose proof (Z.mod_pos_bound x 512). unfold idx. lia. Qed.

Lemma indices_idx p : idx (pml4_index p) ∧ idx (pdpt_index p) ∧ idx (pd_index p) ∧ idx (pt_index p).
Proof. rewrite pml4_index_div, pdpt_index_div, pd_index_div, pt_index_div. split_and!; apply mod_idx. Qed.

Lemma div_split a k : 0 ≤ k → a / 2 ^ k = 512 * (a / 2 ^ (k + 9)) + a / 2 ^ k mod 512.
Proof.
  intros Hk. rewrite Z.pow_add_r, <-Z.div_div by lia. change (2 ^ 9) with 512. apply Z.div_mod. lia.
Qed.

(** A page is its indices and the bits above them. *)
Lemma page_of_indices p :
  wf_page p → page_addr p = 2 ^ 12 * (512 * (512 * (512 * (page_addr p / 2 ^ 39) + pdpt_index p)
    + pd_index p) + pt_index p).
Proof.
  intros [_ Hm]. rewrite pdpt_index_div, pd_index_div, pt_index_div.
  rewrite <-(div_split _ 30), <-(div_split _ 21), <-(div_split _ 12) by lia.
  change PAGE_SIZE with (2 ^ 12) in Hm. pose proof (Z.div_mod (page_addr p) (2 ^ 12)). lia.
Qed.

(** The two halves of the canonical addresses. *)
Lemma lower_pml4 p : wf_page p → page_addr p < 2 ^ 47 → pml4_index p = page_addr p / 2 ^ 39 ∧ pml4_index p < 256.
Proof.
  intros [Hp _] Hlt. rewrite pml4_index_div.
  assert (page_addr p / 2 ^ 39 < 256) by (apply Z.div_lt_upper_bound; lia).
  assert (0 ≤ page_addr p / 2 ^ 39) by (apply Z.div_pos; lia).
  rewrite Z.mod_small by lia. lia.
Qed.

Lemma upper_pml4 p :
  wf_page p → UPPER_HALF ≤ page_addr p →
  pml4_index p = page_addr p / 2 ^ 39 - 65535 * 512 ∧ 256 ≤ pml4_index p < 512.
Proof.
  intros [Hp _] Hge. unfold UPPER_HALF in Hge. rewrite pml4_index_div.
  assert (page_addr p / 2 ^ 39 < 65536 * 512) by (apply Z.div_lt_upper_bound; lia).
  assert (65535 * 512 + 256 ≤ page_addr p / 2 ^ 39) by (apply Z.div_le_lower_bound; lia).
  rewrite <-(Z.mod_unique (page_addr p / 2 ^ 39) 512 65535 (page_addr p / 2 ^ 39 - 65535 * 512)) by lia. lia.
Qed.

(** ** The shared steps, on a forest *)

Section Steps.
Context (depth : Z → Z → option nat).
Context {S : Type} `{LawfulAllocator S}.
Context (m : memory) (s : S) (a : Z) (il : list Z) (pdpt : Frame) (p : Page).

Local Abbreviation table_path := (table_path depth).
Local Abbreviation leaf_path := (leaf_path depth).
Local Abbreviation forest_ok := (forest_ok depth).
Local Abbreviation leaf := (((il ++ [pdpt_index p]) ++ [pd_index p]) ++ [pt_index p]).

Context (Hok : forest_ok m s) (Hw : walk m a il = Some (frame_addr pdpt)) (Hl : leaf_path a leaf).

Lemma leaf_tables : table_path a il ∧ table_path a (il ++ [pdpt_index p]) ∧
  table_path a ((il ++ [pdpt_index p]) ++ [pd_index p]).
Proof.
  assert (entry_path depth a leaf) as He by by right.
  split_and!; [eapply (entry_path_prefix depth a il)|eapply (entry_path_prefix depth a (il ++ [_]))|
    eapply (entry_path_prefix depth a ((il ++ [_]) ++ [_]))]; rewrite <-?app_assoc in *; exact He.
Qed.

Lemma walk_longer i xs : walk m a xs = None → walk m a (xs ++ [i]) = None.
Proof. intros Hn. by rewrite walk_snoc, Hn. Qed.

Lemma leaf_no_pd : walk m a (il ++ [pdpt_index p]) = None → walk m a leaf = None.
Proof. intros Hn. by apply walk_longer, walk_longer. Qed.

Lemma leaf_no_pt : walk m a ((il ++ [pdpt_index p]) ++ [pd_index p]) = None → walk m a leaf = None.
Proof. intros Hn. by apply walk_longer. Qed.

Lemma translate_from_walk : translate_from m pdpt p = Ret ((λ b, frame_at b) <$> walk m a leaf).
Proof using Hok Hw Hl.
  destruct leaf_tables as (H0' & H1 & H2), (indices_idx p) as (_ & Hi3 & Hi2 & Hi1). unfold translate_from.
  rewrite (child_table_walk depth m s a il) by done. cbn [mbind outcome_bind].
  destruct (walk m a (il ++ [pdpt_index p])) as [pd|] eqn:Hpd; simpl; [|by rewrite (leaf_no_pd Hpd)].
  rewrite (child_table_walk depth m s a (il ++ [pdpt_index p]) (frame_at pd)) by done. cbn [mbind outcome_bind].
  destruct (walk m a ((il ++ [pdpt_index p]) ++ [pd_index p])) as [pt|] eqn:Hpt; simpl; [|by rewrite (leaf_no_pt Hpt)].
  rewrite entry_at_ok by done. simpl. rewrite pointed_frame_ok, walk_snoc, Hpt. simpl.
  unfold next. change (frame_addr (frame_at pt)) with pt. by destruct (is_present (m pt (pt_index p))).
Qed.

(** [unmap_from] frees the entry of a mapped page and nothing else. *)
Lemma unmap_from_walk :
  ∃ r m', unmap_from m pdpt p = Ret (r, m') ∧ forest_ok m' s ∧
  match r with
  | Ok _ => is_Some (walk m a leaf) ∧ walk m' a leaf = None ∧
      (∀ a' js, leaf_path a' js → (a', js) ≠ (a, leaf) → walk m' a' js = walk m a' js) ∧
      (∀ b j, spare depth b j → next m' b j = next m b j) ∧ (∀ b, is_table depth m' b → is_table depth m b)
  | Err _ => walk m a leaf = None ∧ m' = m
  end.
Proof using Hok Hw Hl.
  destruct leaf_tables as (H0' & H1 & H2), (indices_idx p) as (_ & Hi3 & Hi2 & Hi1). unfold unmap_from.
  rewrite (child_table_walk depth m s a il) by done. cbn [mbind outcome_bind].
  destruct (walk m a (il ++ [pdpt_index p])) as [pd|] eqn:Hpd; simpl;
    [|exists (Err tt), m; by rewrite (leaf_no_pd Hpd)].
  rewrite (child_table_walk depth m s a (il ++ [pdpt_index p]) (frame_at pd)) by done. cbn [mbind outcome_bind].
  destruct (walk m a ((il ++ [pdpt_index p]) ++ [pd_index p])) as [pt|] eqn:Hpt; simpl;
    [|exists (Err tt), m; by rewrite (leaf_no_pt Hpt)].
  unfold unmap_entry. rewrite entry_at_ok by done. simpl.
  assert (walk m a leaf = next m pt (pt_index p)) as Hleaf by (rewrite walk_snoc, Hpt; done).
  rewrite Hleaf. unfold next. change (frame_addr (frame_at pt)) with pt.
  destruct (is_present (m pt (pt_index p))) eqn:Hpr; [|by exists (Err tt), m].
  destruct (leaf_set_entry depth m s a _ (frame_at pt) (pt_index p) empty_entry Hok H2 Hpt Hl)
    as (Hok' & Hnow & Hrest & Hspare & Htab).
  exists (Ok tt), (set_entry m (frame_at pt) (pt_index p) empty_entry). by split_and!; eauto.
Qed.

(** [map_from] never panics, and says which of its three outcomes happened. *)
Lemma map_from_walk f :
  table_addr (frame_addr f) →
  ∃ r m' s', map_from m pdpt p f s = Ret (r, m', s') ∧ forest_ok m' s' ∧ grows depth m s m' s' ∧
  match r with
  | Ok _ => walk m a leaf = None ∧ walk m' a leaf = Some (frame_addr f) ∧
      (∀ a' js, leaf_path a' js → (a', js) ≠ (a, leaf) → walk m' a' js = walk m a' js) ∧
      (∀ b j, spare depth b j → next m' b j = next m b j)
  | Err AlreadyMapped => is_Some (walk m a leaf) ∧ same_pages depth m m'
  | Err MapAllocError => walk m a leaf = None ∧ same_pages depth m m' ∧ starved s
  end.
Proof using Hok Hw Hl.
  intros Hf. destruct leaf_tables as (H0' & H1 & H2), (indices_idx p) as (_ & Hi3 & Hi2 & Hi1). unfold map_from.
  destruct (child_table_or_new_ok depth m s a il pdpt _ Hok H0' Hw H1 Hi3)
    as (r1 & m1 & s1 & -> & Hok1 & Hs1 & Hg1 & Hr1). simpl.
  destruct r1 as [pd|]; [|destruct Hr1 as (-> & Hn & Hst); exists (Err MapAllocError), m, s1; by rewrite (leaf_no_pd Hn)].
  destruct (child_table_or_new_ok depth m1 s1 a _ pd _ Hok1 H1 Hr1 H2 Hi2)
    as (r2 & m2 & s2 & -> & Hok2 & Hs2 & Hg2 & Hr2). simpl.
  assert (grows depth m s m2 s2) as Hg by by eapply grows_trans.
  assert (same_pages depth m m2) as Hs by by etransitivity.
  destruct r2 as [pt|]; last first.
  { destruct Hr2 as (-> & Hn & Hst). exists (Err MapAllocError), m1, s2.
    split_and!; try done; [|by eapply starved_after; [apply Hg1|]]. by rewrite <-(proj1 Hs1), walk_snoc, Hn. }
  assert (walk m a leaf = next m2 (frame_addr pt) (pt_index p)) as Hleaf.
  { by rewrite <-(proj1 Hs), walk_snoc, Hr2. }
  unfold next in Hleaf at 1. rewrite entry_at_ok by done. simpl. rewrite Hleaf.
  destruct (is_present (m2 (frame_addr pt) (pt_index p))) eqn:Hpr.
  { exists (Err AlreadyMapped), m2, s2. unfold point_to_frame. rewrite Hpr. split_and!; eauto. }
  destruct (point_to_frame_ok _ f Hpr Hf) as (e & -> & He & Hea).
  destruct (leaf_set_entry depth m2 s2 a _ pt (pt_index p) e Hok2 H2 Hr2 Hl) as (Hok' & Hnow & Hrest & Hspare & Htab).
  rewrite He, Hea in Hnow. exists (Ok tt), (set_entry m2 pt (pt_index p) e), s2. split_and!; try done.
  - eapply grows_trans; [done|by apply grows_refl].
  - intros a' js Hjs Hne. by rewrite Hrest, (proj1 Hs).
  - intros b j Hb. by rewrite Hspare, (proj2 Hs).
Qed.

End Steps.
