(* ===== verification/AddressSpace.v ===== *)
(** * AddressSpace: what the page tables mean

    The abstract view of [Paging]: each user table and the kernel table is a
    partial function from pages to frames ([lookup]), and [map_page],
    [unmap_page] and [TTable::new] are updates of these functions.  All the tables
    of the system are in one memory and take frames from one allocator, so the
    refinement theorems also say that no operation on one address space is seen
    in another, and that every user table keeps showing the kernel half.  They
    are proved for any [LawfulAllocator] and instantiated with [Bitmap]. *)

From stdpp Require Import base gmap list numbers option.
From S2P Require Import Prelude Memory Allocator PageTable Walk Paging Bitmap.

Open Scope Z_scope.

(** The tables of the system: the PML4 tables of the user spaces, and the first
    of the 256 PDPT tables of the kernel. *)
Record Tables := mkTables { ttables : list Frame; ktable : Frame }.

Inductive space := User (pml4 : Frame) | Kernel.

#[global] Instance Frame_eq_dec : EqDecision Frame.
Proof. intros [[x]] [[y]]. destruct (decide (x = y)) as [->|]; [by left|right; congruence]. Defined.
#[global] Instance Page_eq_dec : EqDecision Page.
Proof. intros [[x]] [[y]]. destruct (decide (x = y)) as [->|]; [by left|right; congruence]. Defined.
#[global] Instance space_eq_dec : EqDecision space.
Proof. solve_decision. Defined.

Definition kpdpt (T : Tables) (i : Z) : Z := frame_addr (ktable T) + i * PAGE_SIZE.

Definition is_ttable (T : Tables) (a : Z) : bool := existsb (λ t, frame_addr t =? a) (ttables T).

Definition is_kpdpt (T : Tables) (a : Z) : bool :=
  (frame_addr (ktable T) <=? a) && (a <? frame_addr (ktable T) + 256 * PAGE_SIZE) &&
  ((a - frame_addr (ktable T)) mod PAGE_SIZE =? 0).

(** The lower half of each PML4 table has three levels below it, the PDPT tables
    of the kernel have two. *)
Definition depth_of (T : Tables) (a i : Z) : option nat :=
  if is_ttable T a then (if (0 <=? i) && (i <? 256) then Some 3%nat else None)
  else if is_kpdpt T a && ((0 <=? i) && (i <? 512)) then Some 2%nat else None.

(** The pages a table is responsible for. *)
Definition handled (T : Tables) (sp : space) (p : Page) : Prop :=
  wf_page p ∧
  match sp with
  | User t => t ∈ ttables T ∧ page_addr p < 2 ^ 47
  | Kernel => UPPER_HALF ≤ page_addr p
  end.

Definition root_of (T : Tables) (sp : space) (p : Page) : Z :=
  match sp with User t => frame_addr t | Kernel => kpdpt T (pml4_index p - 256) end.

Definition top_of (sp : space) (p : Page) : list Z :=
  match sp with User _ => [pml4_index p] | Kernel => [] end.

Definition path_of (sp : space) (p : Page) : list Z :=
  ((top_of sp p ++ [pdpt_index p]) ++ [pd_index p]) ++ [pt_index p].

Definition lookup (m : memory) (T : Tables) (sp : space) (p : Page) : option Frame :=
  (λ b, frame_at b) <$> walk m (root_of T sp p) (path_of sp p).

(** ** The invariant *)

Section Spaces.
Context {S : Type} `{LawfulAllocator S}.

Definition shares_kernel (T : Tables) (m : memory) (t : Frame) : Prop :=
  ∀ i, 0 ≤ i < 256 → next m (frame_addr t) (256 + i) = Some (kpdpt T i).

Definition spaces_ok (T : Tables) (m : memory) (s : S) : Prop :=
  forest_ok (depth_of T) m s ∧
  Forall (λ t, is_kpdpt T (frame_addr t) = false) (ttables T) ∧
  Forall (shares_kernel T m) (ttables T).

Lemma is_ttable_true T a : is_ttable T a = true ↔ ∃ t, t ∈ ttables T ∧ frame_addr t = a.
Proof.
  unfold is_ttable. rewrite existsb_exists. split; intros (t & Ht & E); exists t.
  - apply list_elem_of_In in Ht. by apply Z.eqb_eq in E.
  - split; [by apply list_elem_of_In|by apply Z.eqb_eq].
Qed.

Lemma is_kpdpt_true T i : 0 ≤ i < 256 → is_kpdpt T (kpdpt T i) = true.
Proof.
  intros Hi. unfold is_kpdpt, kpdpt. rewrite !andb_true_iff, Z.leb_le, Z.ltb_lt, Z.eqb_eq.
  unfold PAGE_SIZE. split_and!; [lia..|].
  replace (_ + i * 4096 - _) with (i * 4096) by lia. apply Z.mod_mul. lia.
Qed.

Lemma depth_user T t i : t ∈ ttables T → 0 ≤ i < 256 → depth_of T (frame_addr t) i = Some 3%nat.
Proof.
  intros Ht [??]. unfold depth_of. rewrite (proj2 (is_ttable_true T (frame_addr t))) by eauto.
  by rewrite (proj2 (Z.leb_le 0 i)), (proj2 (Z.ltb_lt i 256)) by done.
Qed.

Lemma depth_kernel T i j :
  Forall (λ t, is_kpdpt T (frame_addr t) = false) (ttables T) → 0 ≤ i < 256 → idx j →
  depth_of T (kpdpt T i) j = Some 2%nat.
Proof.
  intros Hd Hi [??]. unfold depth_of. destruct (is_ttable T (kpdpt T i)) eqn:E.
  - apply is_ttable_true in E as (t & Ht%list_elem_of_In & E). rewrite Forall_forall in Hd.
    apply Hd in Ht. rewrite E, is_kpdpt_true in Ht by done. done.
  - rewrite is_kpdpt_true by done. by rewrite (proj2 (Z.leb_le 0 j)), (proj2 (Z.ltb_lt j 512)) by done.
Qed.

Lemma handled_index T p : handled T Kernel p → 0 ≤ pml4_index p - 256 < 256.
Proof. intros [Hwf Hge]. destruct (upper_pml4 p Hwf Hge). lia. Qed.

Lemma handled_leaf T m s sp p :
  spaces_ok T m s → handled T sp p → leaf_path (depth_of T) (root_of T sp p) (path_of sp p).
Proof.
  intros (_ & Hd & _) Hh. destruct (indices_idx p) as ([H4 _] & H3 & H2 & H1). destruct sp as [t|]; simpl.
  - destruct Hh as (Hwf & Ht & Hlt). destruct (lower_pml4 p Hwf Hlt).
    exists 3%nat. split_and!; [by apply depth_user|done|by rewrite !Forall_cons_iff].
  - pose proof (handled_index T p Hh). exists 2%nat.
    split_and!; [by apply depth_kernel|done|by rewrite !Forall_cons_iff].
Qed.

(** Different pages, or the same page of different spaces, have different entries. *)
Lemma path_inj T sp p sp' q :
  handled T sp p → handled T sp' q →
  (root_of T sp p, path_of sp p) = (root_of T sp' q, path_of sp' q) → sp = sp' ∧ p = q.
Proof.
  intros Hp Hq [= Hr Hl]. destruct sp as [t|], sp' as [t'|]; simpl in *; simplify_eq.
  - destruct Hp as (Hp & _ & Hlt), Hq as (Hq & _ & Hlt').
    destruct (lower_pml4 p Hp Hlt), (lower_pml4 q Hq Hlt'). split; [f_equal; by apply frame_addr_inj|].
    apply page_addr_inj. rewrite (page_of_indices p Hp), (page_of_indices q Hq). congruence.
  - destruct Hp as (Hp & Hge), Hq as (Hq & Hge').
    destruct (upper_pml4 p Hp Hge), (upper_pml4 q Hq Hge'). split; [done|].
    apply page_addr_inj. rewrite (page_of_indices p Hp), (page_of_indices q Hq).
    unfold kpdpt, PAGE_SIZE in Hr. assert (page_addr p / 2 ^ 39 = page_addr q / 2 ^ 39) as -> by lia. congruence.
Qed.

Lemma spare_upper T t i : t ∈ ttables T → 0 ≤ i → spare (depth_of T) (frame_addr t) (256 + i).
Proof.
  intros Ht Hi. split.
  - exists 0, 3%nat. by apply depth_user.
  - unfold depth_of. rewrite (proj2 (is_ttable_true T (frame_addr t))) by eauto.
    rewrite (proj2 (Z.ltb_ge (256 + i) 256)) by lia. by rewrite andb_false_r.
Qed.

(** The invariant after an operation that leaves the spare slots alone. *)
Lemma spaces_ok_step T m s m' s' :
  spaces_ok T m s → forest_ok (depth_of T) m' s' →
  (∀ b j, spare (depth_of T) b j → next m' b j = next m b j) → spaces_ok T m' s'.
Proof.
  intros (_ & Hd & Hsh) Hok Hsp. split_and!; [done..|]. rewrite Forall_forall in Hsh |- *.
  intros t Ht i Hi. rewrite Hsp by (apply spare_upper; [by apply list_elem_of_In|lia]). by apply Hsh.
Qed.

Lemma root_mapped T m s a i d : spaces_ok T m s → depth_of T a i = Some d → mapped_addr a.
Proof.
  intros ((Hf & _) & _) Hd. apply (table_ok _ m s Hf a [] a); [by exists i, d|done].
Qed.

Lemma user_root T m s t : spaces_ok T m s → t ∈ ttables T → mapped_addr (frame_addr t).
Proof. intros Hok Ht. eapply (root_mapped T m s _ 0); [done|]. by apply depth_user. Qed.

Lemma kernel_root T m s i : spaces_ok T m s → 0 ≤ i < 256 → mapped_addr (kpdpt T i).
Proof.
  intros Hok Hi. eapply (root_mapped T m s _ 0); [done|]. apply depth_kernel; [apply Hok|done|done].
Qed.

Lemma ktable_pdpt_ok T m s p :
  spaces_ok T m s → handled T Kernel p →
  ktable_pdpt (ktable T) p = Ret (frame_at (kpdpt T (pml4_index p - 256))).
Proof.
  intros Hok Hh. pose proof (handled_index T p Hh). unfold ktable_pdpt.
  pose proof (kernel_root T m s 0 Hok) as Hk. unfold kpdpt in Hk. rewrite Z.add_0_r in Hk.
  rewrite to_page_mapped by (apply Hk; lia). cbn [mbind outcome_bind].
  rewrite usize_sub_ok by lia. cbn [mbind outcome_bind].
  by rewrite (proj2 (Z.ltb_lt (pml4_index p - 256) 256)) by lia.
Qed.

(** ** The operations, on either kind of table *)

Definition map_page (T : Tables) (m : memory) (sp : space) (p : Page) (f : Frame) (s : S) :
    outcome (result unit MapPageError * memory * S) :=
  match sp with
  | User t => ttable_map_page m t p f s
  | Kernel => ktable_map_page m (ktable T) p f s
  end.

Definition unmap_page (T : Tables) (m : memory) (sp : space) (p : Page) : outcome (result unit unit * memory) :=
  match sp with
  | User t => ttable_unmap_page m t p
  | Kernel => ktable_unmap_page m (ktable T) p
  end.

(** The pages of all spaces, and what changing one of them means. *)
Definition same_lookup (T : Tables) (m m' : memory) : Prop :=
  ∀ sp q, handled T sp q → lookup m' T sp q = lookup m T sp q.

Definition updated_lookup (T : Tables) (m m' : memory) (sp : space) (p : Page) (v : option Frame) : Prop :=
  ∀ sp' q, handled T sp' q →
    lookup m' T sp' q = if decide ((sp', q) = (sp, p)) then v else lookup m T sp' q.

Lemma same_pages_lookup T m s m' :
  spaces_ok T m s → same_pages (depth_of T) m m' → same_lookup T m m'.
Proof. intros Hok [Hs _] sp q Hq. unfold lookup. rewrite Hs; [done|by eapply handled_leaf]. Qed.

Lemma update_lookup T m s m' sp p v :
  spaces_ok T m s → handled T sp p →
  walk m' (root_of T sp p) (path_of sp p) = v →
  (∀ a js, leaf_path (depth_of T) a js → (a, js) ≠ (root_of T sp p, path_of sp p) → walk m' a js = walk m a js) →
  updated_lookup T m m' sp p ((λ b, frame_at b) <$> v).
Proof.
  intros Hok Hp Hv Hrest sp' q Hq. unfold lookup. case_decide as E.
  - injection E as -> ->. by rewrite Hv.
  - rewrite Hrest; [done|by eapply handled_leaf|]. intros Heq. apply E.
    by destruct (path_inj T sp' q sp p Hq Hp Heq) as [-> ->].
Qed.

Lemma user_assert T t p : handled T (User t) p → (page_addr p <? UPPER_HALF) = true.
Proof. intros (_ & _ & Hlt). apply Z.ltb_lt. unfold UPPER_HALF. lia. Qed.

Lemma kernel_assert T p : handled T Kernel p → (UPPER_HALF <=? page_addr p) = true.
Proof. intros [_ Hge]. by apply Z.leb_le. Qed.

Lemma user_paths T m s t p :
  spaces_ok T m s → handled T (User t) p →
  table_path (depth_of T) (frame_addr t) [] ∧ table_path (depth_of T) (frame_addr t) ([] ++ [pml4_index p]).
Proof.
  intros Hok Hp. destruct (leaf_tables _ _ _ p (handled_leaf T m s (User t) p Hok Hp)) as (Ht & _).
  split; [|exact Ht]. by eapply (entry_path_prefix _ _ [] _ []); left.
Qed.

(** What [map_page] may do to the address spaces. *)
Definition map_result (T : Tables) (m : memory) (sp : space) (p : Page) (f : Frame)
    (r : result unit MapPageError) (m' : memory) (s : S) : Prop :=
  match r with
  | Ok _ => lookup m T sp p = None ∧ updated_lookup T m m' sp p (Some f)
  | Err AlreadyMapped => is_Some (lookup m T sp p) ∧ same_lookup T m m'
  | Err MapAllocError => lookup m T sp p = None ∧ same_lookup T m m' ∧ starved s
  end.

(** The steps of [map_from], on an address space. *)
Lemma map_from_spec T m s sp p pdpt f :
  spaces_ok T m s → handled T sp p → table_addr (frame_addr f) →
  walk m (root_of T sp p) (top_of sp p) = Some (frame_addr pdpt) →
  ∃ r m' s', map_from m pdpt p f s = Ret (r, m', s') ∧ spaces_ok T m' s' ∧ grows (depth_of T) m s m' s' ∧
  map_result T m sp p f r m' s.
Proof.
  intros Hok Hp Hf Hw. pose proof (handled_leaf T m s sp p Hok Hp) as Hl.
  destruct (map_from_walk (depth_of T) m s (root_of T sp p) (top_of sp p) pdpt p (proj1 Hok) Hw Hl f Hf)
    as (r & m' & s' & -> & Hok' & Hg & Hr).
  exists r, m', s'. split; [done|].
  enough (spaces_ok T m' s' ∧ map_result T m sp p f r m' s) as [??] by done. unfold map_result, lookup. change (((top_of sp p ++ _) ++ _) ++ _) with (path_of sp p) in Hr.
  destruct r as [[]|[]].
  - destruct Hr as (-> & Hnow & Hrest & Hsp). split; [by eapply spaces_ok_step|]. split; [done|].
    rewrite <-(frame_eta f). by eapply (update_lookup T m s m' sp p (Some (frame_addr f))).
  - destruct Hr as (-> & Hs & Hst). split; [eapply spaces_ok_step; [done..|apply Hs]|].
    split_and!; [done|by eapply same_pages_lookup|done].
  - destruct Hr as [[b ->] Hs]. split; [eapply spaces_ok_step; [done..|apply Hs]|].
    split; [by eexists|by eapply same_pages_lookup].
Qed.

Lemma map_result_after T m s m1 s1 sp p f r m' :
  handled T sp p → same_lookup T m m1 → rtc one_step s s1 →
  map_result T m1 sp p f r m' s1 → map_result T m sp p f r m' s.
Proof.
  intros Hp Hs Hst. unfold map_result. rewrite (Hs sp p Hp).
  assert (∀ m', same_lookup T m1 m' → same_lookup T m m') as Hsame by (intros ? Hu sp' q Hq; rewrite Hu by done; by apply Hs).
  destruct r as [[]|[]]; [|by intros (? & ?%Hsame & ?%(starved_after _ _ Hst))|by intros (? & ?%Hsame)].
  intros [Hl Hu]. split; [exact Hl|]. intros sp' q Hq. rewrite Hu by done. case_decide; [done|]. by apply Hs.
Qed.

Lemma user_map_spec T m s t p f :
  spaces_ok T m s → handled T (User t) p → table_addr (frame_addr f) →
  ∃ r m' s', ttable_map_page m t p f s = Ret (r, m', s') ∧ spaces_ok T m' s' ∧
    grows (depth_of T) m s m' s' ∧ map_result T m (User t) p f r m' s.
Proof.
  intros Hok Hp Hf. destruct (user_paths T m s t p Hok Hp) as [Ht0 Ht1]. destruct (indices_idx p) as [Hi _].
  unfold ttable_map_page. rewrite (user_assert T t p Hp). cbn [mbind outcome_bind assert].
  rewrite to_page_mapped by (apply (user_root T m s t Hok), Hp). cbn [mbind outcome_bind].
  destruct (child_table_or_new_ok (depth_of T) m s (frame_addr t) [] t (pml4_index p) (proj1 Hok) Ht0 eq_refl Ht1 Hi)
    as (r & m1 & s1 & -> & Hok1 & Hs1 & Hg1 & Hr). cbn [mbind outcome_bind].
  assert (spaces_ok T m1 s1) as Hsp1 by (eapply spaces_ok_step; [done..|apply Hs1]).
  pose proof (same_pages_lookup T m s m1 Hok Hs1) as Hl1. destruct r as [pdpt|err].
  - destruct (map_from_spec T m1 s1 (User t) p pdpt f Hsp1 Hp Hf Hr) as (r & m' & s' & -> & Hok' & Hg & Hr').
    exists r, m', s'. split_and!; [done..|by eapply grows_trans|]. apply (map_result_after T m s m1 s1); try done. apply Hg1.
  - destruct Hr as (-> & Hn & Hst). exists (Err MapAllocError), m, s1. split_and!; [done..|]. split; [|done].
    unfold lookup, path_of. simpl top_of. simpl root_of.
    by rewrite !(walk_longer _ _ _ _ (walk_longer _ _ _ _ (walk_longer _ _ _ _ Hn))).
Qed.

Lemma kernel_map_spec T m s p f :
  spaces_ok T m s → handled T Kernel p → table_addr (frame_addr f) →
  ∃ r m' s', ktable_map_page m (ktable T) p f s = Ret (r, m', s') ∧ spaces_ok T m' s' ∧
    grows (depth_of T) m s m' s' ∧ map_result T m Kernel p f r m' s.
Proof.
  intros Hok Hp Hf. unfold ktable_map_page. rewrite (kernel_assert T p Hp). cbn [mbind outcome_bind assert].
  rewrite (ktable_pdpt_ok T m s p Hok Hp). cbn [mbind outcome_bind].
  by apply (map_from_spec T m s Kernel p).
Qed.

(** What [unmap_page] may do to them. *)
Definition unmap_result (T : Tables) (m : memory) (sp : space) (p : Page) (r : result unit unit) (m' : memory) : Prop :=
  match r with
  | Ok _ => is_Some (lookup m T sp p) ∧ updated_lookup T m m' sp p None
  | Err _ => lookup m T sp p = None ∧ m' = m
  end.

Lemma unmap_from_spec T m s sp p pdpt :
  spaces_ok T m s → handled T sp p →
  walk m (root_of T sp p) (top_of sp p) = Some (frame_addr pdpt) →
  ∃ r m', unmap_from m pdpt p = Ret (r, m') ∧ spaces_ok T m' s ∧
    (∀ b, is_table (depth_of T) m' b → is_table (depth_of T) m b) ∧ unmap_result T m sp p r m'.
Proof.
  intros Hok Hp Hw. pose proof (handled_leaf T m s sp p Hok Hp) as Hl.
  destruct (unmap_from_walk (depth_of T) m s (root_of T sp p) (top_of sp p) pdpt p (proj1 Hok) Hw Hl)
    as (r & m' & -> & Hok' & Hr).
  exists r, m'. split; [done|]. change (((top_of sp p ++ _) ++ _) ++ _) with (path_of sp p) in Hr.
  unfold unmap_result, lookup. destruct r as [[]|[]].
  - destruct Hr as ([b ->] & Hnow & Hrest & Hsp & Htab). split; [by eapply spaces_ok_step|].
    split; [done|]. split; [by eexists|]. by apply (update_lookup T m s m' sp p None).
  - destruct Hr as [-> ->]. done.
Qed.

Lemma user_unmap_spec T m s t p :
  spaces_ok T m s → handled T (User t) p →
  ∃ r m', ttable_unmap_page m t p = Ret (r, m') ∧ spaces_ok T m' s ∧
    (∀ b, is_table (depth_of T) m' b → is_table (depth_of T) m b) ∧ unmap_result T m (User t) p r m'.
Proof.
  intros Hok Hp. destruct (user_paths T m s t p Hok Hp) as [Ht0 Ht1]. destruct (indices_idx p) as [Hi _].
  unfold ttable_unmap_page. rewrite (user_assert T t p Hp). cbn [mbind outcome_bind assert].
  rewrite to_page_mapped by (apply (user_root T m s t Hok), Hp). cbn [mbind outcome_bind].
  rewrite (child_table_walk (depth_of T) m s (frame_addr t) [] t _ (proj1 Hok) Ht0 eq_refl Ht1 Hi).
  cbn [mbind outcome_bind]. destruct (walk m (frame_addr t) ([] ++ [_])) as [b|] eqn:Hn; cbn [fmap option_fmap option_map].
  - by apply (unmap_from_spec T m s (User t) p (frame_at b)).
  - exists (Err tt), m. split_and!; [done..|]. split; [|done]. unfold lookup, path_of. simpl top_of. simpl root_of.
    by rewrite !(walk_longer _ _ _ _ (walk_longer _ _ _ _ (walk_longer _ _ _ _ Hn))).
Qed.

Lemma kernel_unmap_spec T m s p :
  spaces_ok T m s → handled T Kernel p →
  ∃ r m', ktable_unmap_page m (ktable T) p = Ret (r, m') ∧ spaces_ok T m' s ∧
    (∀ b, is_table (depth_of T) m' b → is_table (depth_of T) m b) ∧ unmap_result T m Kernel p r m'.
Proof.
  intros Hok Hp. unfold ktable_unmap_page. rewrite (kernel_assert T p Hp). cbn [mbind outcome_bind assert].
  rewrite (ktable_pdpt_ok T m s p Hok Hp). cbn [mbind outcome_bind]. by apply (unmap_from_spec T m s Kernel p).
Qed.

(** ** Translation *)

Lemma user_translate_spec T m s t p :
  spaces_ok T m s → handled T (User t) p → ttable_translate_page m t p = Ret (lookup m T (User t) p).
Proof.
  intros Hok Hp. destruct (user_paths T m s t p Hok Hp) as [Ht0 Ht1]. destruct (indices_idx p) as [Hi _].
  unfold ttable_translate_page. rewrite (user_assert T t p Hp). cbn [mbind outcome_bind assert].
  rewrite to_page_mapped by (apply (user_root T m s t Hok), Hp). cbn [mbind outcome_bind].
  rewrite (child_table_walk (depth_of T) m s (frame_addr t) [] t _ (proj1 Hok) Ht0 eq_refl Ht1 Hi).
  cbn [mbind outcome_bind]. unfold lookup, path_of. simpl top_of. simpl root_of.
  destruct (walk m (frame_addr t) ([] ++ [_])) as [b|] eqn:Hn; cbn [fmap option_fmap option_map].
  - apply (translate_from_walk (depth_of T) m s (frame_addr t) [pml4_index p] (frame_at b) p (proj1 Hok) Hn).
    apply (handled_leaf T m s (User t) p Hok Hp).
  - by rewrite !(walk_longer _ _ _ _ (walk_longer _ _ _ _ (walk_longer _ _ _ _ Hn))).
Qed.

(** The kernel half, seen through a user table as the processor sees it. *)
Lemma kernel_half_shared T m s t p :
  spaces_ok T m s → t ∈ ttables T → handled T Kernel p →
  ((λ b, frame_at b) <$> walk m (frame_addr t) (pml4_index p :: path_of Kernel p)) = lookup m T Kernel p.
Proof.
  intros (_ & _ & Hsh) Ht Hp. rewrite Forall_forall in Hsh. unfold lookup.
  pose proof (Hsh t (proj1 (list_elem_of_In _ _) Ht) (pml4_index p - 256) (handled_index T p Hp)) as Hn.
  replace (256 + (pml4_index p - 256)) with (pml4_index p) in Hn by lia.
  change (walk m ?a (?i :: ?il)) with (b ← next m a i; walk m b il). by rewrite Hn.
Qed.

(** ** A new user table *)

(** Frames the allocator may hand out are in no table, whatever is in them. *)
Lemma walk_outside depth m m' s f a il :
  forest_inv depth m s → alloc_free s f → (∀ b j, b ≠ frame_addr f → next m' b j = next m b j) →
  entry_path depth a il → walk m' a il = walk m a il.
Proof.
  intros Hf Hfree Hag Hp. apply walk_agree. intros js j ks b -> Hw. apply Hag. intros ->.
  destruct (table_ok depth m s Hf a js (frame_addr f)) as [_ Hn]; [by eapply entry_path_prefix|done|].
  by rewrite frame_eta in Hn.
Qed.

Lemma point_upper_half_loop T m s t l m0 :
  spaces_ok T m s → NoDup l →
  (∀ i, i ∈ l → 0 ≤ i < 256 ∧ next m0 (frame_addr t) (256 + i) = None) →
  ∃ m', for_each l (λ i m,
    ktable_frame ← FrameOps.add (ktable T) i;
    e ← entry_at m t (256 + i);
    e' ← expect_ok (point_to_frame e ktable_frame);
    Ret (set_entry m t (256 + i) e')) m0 = Ret m' ∧
  (∀ b j, (b ≠ frame_addr t ∨ j - 256 ∉ l) → next m' b j = next m0 b j) ∧
  (∀ i, i ∈ l → next m' (frame_addr t) (256 + i) = Some (kpdpt T i)).
Proof.
  intros Hok Hnd. revert m0. induction Hnd as [|i l Hi Hnd IH]; intros m0 Hl; [by exists m0; set_solver|].
  destruct (Hl i) as [Hi' Hn]; [set_solver|]. pose proof (kernel_root T m s i Hok Hi') as Hk. cbn [for_each].
  pose proof (kernel_root T m s 0 Hok ltac:(lia)) as [Hk0 _].
  rewrite frame_add_ok by (destruct Hk as [Hk _]; unfold kpdpt, PAGE_SIZE in *; lia). cbn [mbind outcome_bind].
  rewrite entry_at_ok by (unfold idx; lia). cbn [mbind outcome_bind].
  destruct (point_to_frame_ok (m0 (frame_addr t) (256 + i)) (frame_at (kpdpt T i))) as (e & He & Hpr & Hea).
  { unfold next in Hn. by destruct (is_present _). }
  { by apply mapped_table_addr. }
  unfold kpdpt in He. rewrite He. cbn [mbind outcome_bind expect_ok].
  destruct (IH (set_entry m0 t (256 + i) e)) as (m' & -> & Hrest & Hnow).
  { intros i' Hi''. destruct (Hl i') as [? Hn']; [set_solver|]. split; [done|]. rewrite next_set_entry.
    rewrite (proj2 (Z.eqb_neq (256 + i') (256 + i))), andb_false_r; [done|]. intros ?. assert (i' = i) by lia. naive_solver. }
  exists m'. split_and!; [done|..].
  - intros b j Hb. rewrite Hrest by (destruct Hb; [by left|right; set_solver]). rewrite next_set_entry.
    destruct (Z.eqb_spec b (frame_addr t)), (Z.eqb_spec j (256 + i)) as [->|]; try done. exfalso.
    replace (256 + i - 256) with i in Hb by lia. set_solver.
  - intros i' [->|Hi'']%elem_of_cons; [|by apply Hnow]. rewrite Hrest.
    + rewrite next_set_entry, !Z.eqb_refl. cbn [andb]. rewrite Hpr, Hea. done.
    + right. by replace (256 + i - 256) with i by lia.
Qed.

Definition with_ttable (T : Tables) (t : Frame) : Tables := mkTables (t :: ttables T) (ktable T).

Section NewTable.
Context (T : Tables) (m m' : memory) (s s' : S) (f : Frame).
Context (Hok : spaces_ok T m s) (Hwf : wf_frame f) (Hfree : alloc_free s f) (Hinv' : alloc_inv s').
Context (Hs' : ∀ g, alloc_free s' g ↔ alloc_free s g ∧ g ≠ f).
Context (Hoff : ∀ b j, b ≠ frame_addr f → next m' b j = next m b j).
Context (Hlow : ∀ i, 0 ≤ i < 256 → next m' (frame_addr f) i = None).
Context (Hhigh : shares_kernel T m' f).

Lemma new_not_root i : depth_of T (frame_addr f) i = None.
Proof using Hok Hfree.
  destruct (depth_of T (frame_addr f) i) as [d|] eqn:E; [|done]. destruct Hok as ((Hf & _) & _).
  destruct (table_ok _ m s Hf (frame_addr f) [] (frame_addr f)) as [_ Hn]; [by exists i, d|done|].
  by rewrite frame_eta in Hn.
Qed.

Lemma new_depth a i :
  depth_of (with_ttable T f) a i =
    if a =? frame_addr f then (if (0 <=? i) && (i <? 256) then Some 3%nat else None) else depth_of T a i.
Proof.
  unfold depth_of at 1. unfold is_ttable. simpl. rewrite (Z.eqb_sym (frame_addr f)).
  by destruct (a =? frame_addr f).
Qed.

Lemma new_walk a il : entry_path (depth_of T) a il → walk m' a il = walk m a il.
Proof using Hok Hfree Hoff. destruct Hok as ((Hf & _) & _). by apply (walk_outside (depth_of T) m m' s f). Qed.

Lemma new_path a il :
  table_path (depth_of (with_ttable T f)) a il ∨ leaf_path (depth_of (with_ttable T f)) a il →
  a = frame_addr f ∧ (il = [] ∨ walk m' a il = None) ∨
  a ≠ frame_addr f ∧ (table_path (depth_of T) a il ∨ leaf_path (depth_of T) a il).
Proof using Hlow.
  destruct il as [|i il]; simpl; setoid_rewrite new_depth; (destruct (Z.eqb_spec a (frame_addr f)) as [->|];
    [intros Hp|intros Hp; right; by split]).
  - left. split; [done|by left].
  - left. split; [done|right]. destruct (Z.leb_spec 0 i), (Z.ltb_spec i 256);
      (by destruct Hp as [(? & [=] & _)|(? & [=] & _)]) || by rewrite Hlow.
Qed.

Lemma new_table a il b :
  table_path (depth_of (with_ttable T f)) a il → walk m' a il = Some b →
  (a = frame_addr f ∧ il = [] ∧ b = frame_addr f) ∨ (table_path (depth_of T) a il ∧ walk m a il = Some b).
Proof using Hok Hfree Hoff Hlow.
  intros Hp Hw. destruct (new_path a il (or_introl Hp)) as [(-> & [->|?])|(Hne & He)]; [left|congruence|right].
  - simpl in Hw. by injection Hw as <-.
  - rewrite new_walk in Hw by done. split; [|done]. destruct il as [|i il]; simpl in *.
    + destruct He; [done|by destruct_and?].
    + destruct Hp as (d & Hd & Hp). rewrite new_depth, (proj2 (Z.eqb_neq a (frame_addr f)) Hne) in Hd. by exists d.
Qed.

Lemma new_forest : forest_ok (depth_of (with_ttable T f)) m' s'.
Proof using Hok Hwf Hfree Hinv' Hs' Hoff Hlow.
  pose proof Hok as ((Hf & Hinv & Hb) & _).
  assert (∀ a il, table_path (depth_of T) a il → walk m a il ≠ Some (frame_addr f)) as Hnew.
  { intros a il Hp Hw. destruct (table_ok _ m s Hf _ _ _ Hp Hw) as [_ Hn]. by rewrite frame_eta in Hn. }
  split_and!; [|done|intros g Hg; by apply Hb, (Hs' g)]. split.
  - intros a il b Hp Hw. destruct (new_table a il b Hp Hw) as [(-> & -> & ->)|[Hp' Hw']].
    + rewrite frame_eta, Hs'. split; [|naive_solver]. by apply (fresh_mapped (depth_of T) m s f).
    + rewrite Hs'. destruct (table_ok _ m s Hf _ _ _ Hp' Hw'). naive_solver.
  - intros a1 il1 a2 il2 b Hp1 Hp2 Hw1 Hw2.
    destruct (new_table a1 il1 b Hp1 Hw1) as [(-> & -> & ->)|[Hp1' Hw1']],
      (new_table a2 il2 _ Hp2 Hw2) as [(-> & -> & Hb2)|[Hp2' Hw2']]; subst; try done.
    + by destruct (Hnew _ _ Hp2').
    + by destruct (Hnew _ _ Hp1').
    + by eapply (table_unique _ m s Hf).
Qed.

Lemma new_spaces_ok : spaces_ok (with_ttable T f) m' s'.
Proof using All.
  pose proof Hok as (Hf & Hd & Hsh). split_and!; [apply new_forest|..]; constructor; try done.
  - destruct (is_kpdpt T (frame_addr f)) eqn:E; [|done]. pose proof (new_not_root 0) as Hn. unfold depth_of in Hn.
    rewrite E in Hn. by destruct (is_ttable T (frame_addr f)).
  - rewrite Forall_forall in Hsh |- *. intros t Ht i Hi. rewrite Hoff; [by apply Hsh|]. intros Heq.
    pose proof (new_not_root 0) as Hn. rewrite <-Heq, depth_user in Hn; [done|by apply list_elem_of_In|lia].
Qed.

Lemma new_lookup sp q : handled T sp q → lookup m' (with_ttable T f) sp q = lookup m T sp q.
Proof using Hok Hfree Hoff.
  intros Hq. unfold lookup. change (root_of (with_ttable T f) sp q) with (root_of T sp q).
  rewrite new_walk; [done|]. right. by eapply handled_leaf.
Qed.

Lemma new_empty p : handled (with_ttable T f) (User f) p → lookup m' (with_ttable T f) (User f) p = None.
Proof using Hlow.
  intros (Hp & _ & Hlt). destruct (lower_pml4 p Hp Hlt), (indices_idx p) as [[? _] _]. unfold lookup.
  change (walk m' _ _) with (b ← next m' (frame_addr f) (pml4_index p); walk m' b (path_of Kernel p)).
  by rewrite Hlow.
Qed.

End NewTable.

(** A new user table has an empty lower half and the kernel in its upper half. *)
Lemma ttable_new_spec T m s :
  spaces_ok T m s →
  ∃ r m' s', ttable_new m (ktable T) s = Ret (r, m', s') ∧
  match r with
  | Ok t => (t ∉ ttables T) ∧ spaces_ok (with_ttable T t) m' s' ∧
      (∀ p, handled (with_ttable T t) (User t) p → lookup m' (with_ttable T t) (User t) p = None) ∧
      (∀ sp q, handled T sp q → lookup m' (with_ttable T t) sp q = lookup m T sp q)
  | Err _ => m' = m ∧ spaces_ok T m s'
  end.
Proof.
  intros Hok. pose proof Hok as ((Hf & Hinv & Hb) & _). unfold ttable_new, empty_with.
  destruct (allocate_one_law s Hinv) as (r & s' & -> & Hinv' & Hr). cbn [mbind outcome_bind].
  destruct r as [f|err]; [destruct Hr as (Hwf & Hfree & Hs')|]; cbn [mbind outcome_bind]; last first.
  { exists (Err err), m, s'. split; [done|]. split; [done|]. eapply spaces_ok_step; [done| |done].
    split_and!; [eapply forest_inv_same; [exact Hf|done|]|done|]; intros g Hg%Hr; auto. }
  pose proof (fresh_mapped (depth_of T) m s f (proj1 Hok) Hwf Hfree) as Hmap.
  rewrite to_page_mapped by done. cbn [mbind outcome_bind]. rewrite (to_page_assert f Hmap). cbn [mbind outcome_bind].
  rewrite to_page_mapped by done. cbn [mbind outcome_bind]. rewrite (to_page_assert f Hmap). cbn [mbind outcome_bind].
  assert (∀ i, next (write_empty m f) (frame_addr f) i = None) as He.
  { intros i. by rewrite next_write_empty, Z.eqb_refl. }
  destruct (point_upper_half_loop T m s f (seqZ 0 256) (write_empty m f) Hok) as (m' & Hl & Hrest & Hnow).
  { apply NoDup_seqZ. }
  { intros i Hi%elem_of_seqZ. split; [lia|done]. }
  unfold point_upper_half. rewrite Hl. cbn [mbind outcome_bind].
  assert (∀ b j, b ≠ frame_addr f → next m' b j = next m b j) as Hoff.
  { intros b j Hne. rewrite Hrest, next_write_empty by by left. by rewrite (proj2 (Z.eqb_neq _ _)). }
  assert (∀ i, 0 ≤ i < 256 → next m' (frame_addr f) i = None) as Hlow.
  { intros i Hi. rewrite Hrest; [done|right]. rewrite elem_of_seqZ. lia. }
  assert (shares_kernel T m' f) as Hhigh by (intros i Hi; apply Hnow, elem_of_seqZ; lia).
  exists (Ok f), m', s'. split; [done|]. split_and!.
  - intros Hin. pose proof (new_not_root T m s f Hok Hfree 0) as Hn. rewrite depth_user in Hn by (done || lia). done.
  - by apply (new_spaces_ok T m m' s s' f).
  - by apply new_empty.
  - by apply (new_lookup T m m' s f).
Qed.

(** ** Addresses *)

Lemma walk_table_addr m a il i b : walk m a (il ++ [i]) = Some b → table_addr b.
Proof.
  rewrite walk_snoc. destruct (walk m a il) as [c|]; simpl; [|done]. unfold next.
  destruct (is_present _); [|done]. intros [= <-]. apply masked_table_addr.
Qed.

Lemma virt_align_down_page v :
  is_usize (va_addr v) → Virt.align_down PAGE_SIZE v = Ret (mkVA (va_addr v - va_addr v mod PAGE_SIZE)).
Proof.
  intros Hv. unfold Virt.align_down. rewrite usize_sub_ok by (unfold PAGE_SIZE; lia). cbn [mbind outcome_bind].
  change PAGE_SIZE with (2 ^ 12). by rewrite mask_low_bits by (lia || done).
Qed.

Lemma page_of_address v :
  0 ≤ va_addr v < 2 ^ 47 → wf_page (page_at (va_addr v - va_addr v mod PAGE_SIZE)).
Proof.
  intros Hv. pose proof (Z.mod_pos_bound (va_addr v) PAGE_SIZE ltac:(done)).
  pose proof (Z.div_mod (va_addr v) PAGE_SIZE ltac:(done)). unfold wf_page. cbn [page_addr page_base va_addr].
  split; [unfold PAGE_SIZE in *; lia|].
  replace (va_addr v - va_addr v mod PAGE_SIZE) with (va_addr v / PAGE_SIZE * PAGE_SIZE) by lia. by apply Z.mod_mul.
Qed.

(** [translate_address], once the page is translated. *)
Lemma translate_address_ok m a il i tp v :
  is_usize (va_addr v) →
  tp (page_at (va_addr v - va_addr v mod PAGE_SIZE)) = Ret ((λ b, frame_at b) <$> walk m a (il ++ [i])) →
  translate_address tp v = Ret ((λ b, mkPA (b + va_addr v mod PAGE_SIZE)) <$> walk m a (il ++ [i])).
Proof.
  intros Hv Ht. pose proof (Z.mod_pos_bound (va_addr v) PAGE_SIZE ltac:(done)).
  pose proof (Z.mod_le (va_addr v) PAGE_SIZE). unfold is_usize in Hv.
  unfold translate_address. rewrite virt_align_down_page by done. cbn [mbind outcome_bind].
  unfold Virt.diff. cbn [va_addr]. rewrite usize_sub_ok by lia. cbn [mbind outcome_bind]. rewrite Ht.
  cbn [mbind outcome_bind]. destruct (walk m a (il ++ [i])) as [b|] eqn:Hw; cbn [fmap option_fmap option_map]; [|done].
  destruct (walk_table_addr _ _ _ _ _ Hw) as [Hb _]. unfold Phys.add. cbn [pa_addr FrameOps.start frame_base].
  unfold PAGE_SIZE in *. rewrite usize_add_ok by lia. cbn [mbind outcome_bind]. do 3 f_equal. lia.
Qed.

End Spaces.

(** The bits above the four indices do not matter. *)
Lemma index_alias k p :
  0 ≤ k ≤ 39 → level_index (mkLevel (0x1ff * 2 ^ k) k) (page_at (page_addr p + (2 ^ 64 - 2 ^ 48))) =
    level_index (mkLevel (0x1ff * 2 ^ k) k) p.
Proof.
  intros Hk. rewrite !level_index_div by lia. change (page_addr (page_at ?x)) with x.
  replace (2 ^ 64 - 2 ^ 48) with (65535 * 2 ^ (39 - k) * 512 * 2 ^ k); last first.
  { replace (2 ^ 64 - 2 ^ 48) with (65535 * 512 * 2 ^ (39 - k + k)) by (rewrite Z.sub_add; lia).
    rewrite Z.pow_add_r by lia. lia. }
  rewrite Z.div_add by lia. by rewrite Z.mod_add.
Qed.

Lemma upper_alias p :
  wf_page p → 2 ^ 47 ≤ page_addr p < 2 ^ 48 →
  let q := page_at (page_addr p + (2 ^ 64 - 2 ^ 48)) in
  wf_page q ∧ pml4_index q = pml4_index p ∧ pdpt_index q = pdpt_index p ∧
  pd_index q = pd_index p ∧ pt_index q = pt_index p.
Proof.
  intros [_ Hm] Hr q. split_and!.
  - unfold wf_page. change (page_addr q) with (page_addr p + (2 ^ 64 - 2 ^ 48)). split; [lia|].
    change (2 ^ 64 - 2 ^ 48) with (65535 * 2 ^ 36 * PAGE_SIZE). by rewrite Z.mod_add.
  - apply (index_alias 39). lia.
  - apply (index_alias 30). lia.
  - apply (index_alias 21). lia.
  - apply (index_alias 12). lia.
Qed.

(** ** The theorems *)

Section Theorems.
Context {S : Type} `{LawfulAllocator S}.

(** C3. [map_page] of either kind of table refines the update of a partial
    function.  It never panics and keeps the tables consistent.  On success the
    page was not mapped and now is, to that frame; on [AlreadyMapped] it was; and
    on [AllocError] it was not, and the allocator had no frame for a table.
    Nothing else changes in this or in any other
    address space, also when new tables were made on the way. *)
Theorem paging_map_page T m (s : S) sp p f :
  spaces_ok T m s → handled T sp p → table_addr (frame_addr f) →
  ∃ r m' s', map_page T m sp p f s = Ret (r, m', s') ∧ spaces_ok T m' s' ∧
  match r with
  | Ok _ => lookup m T sp p = None ∧ updated_lookup T m m' sp p (Some f)
  | Err AlreadyMapped => is_Some (lookup m T sp p) ∧ same_lookup T m m'
  | Err MapAllocError => lookup m T sp p = None ∧ same_lookup T m m' ∧ starved s
  end.
Proof.
  intros Hok Hp Hf. destruct sp as [t|].
  - destruct (user_map_spec T m s t p f Hok Hp Hf) as (r & m' & s' & Hm & Hok' & _ & Hr). by exists r, m', s'.
  - destruct (kernel_map_spec T m s p f Hok Hp Hf) as (r & m' & s' & Hm & Hok' & _ & Hr). by exists r, m', s'.
Qed.

(** C5. [unmap_page] of either kind of table removes the mapping of a mapped page
    and of no other page of any address space, answers an error and changes
    nothing when the page is not mapped, and never panics. *)
Theorem paging_unmap_page T m (s : S) sp p :
  spaces_ok T m s → handled T sp p →
  ∃ r m', unmap_page T m sp p = Ret (r, m') ∧ spaces_ok T m' s ∧
  match r with
  | Ok _ => is_Some (lookup m T sp p) ∧ updated_lookup T m m' sp p None
  | Err _ => lookup m T sp p = None ∧ m' = m
  end.
Proof.
  intros Hok Hp. destruct sp as [t|].
  - destruct (user_unmap_spec T m s t p Hok Hp) as (r & m' & Hm & Hok' & _ & Hr). by exists r, m'.
  - destruct (kernel_unmap_spec T m s p Hok Hp) as (r & m' & Hm & Hok' & _ & Hr). by exists r, m'.
Qed.

(** For a user table, [translate_page] is [lookup], and [translate_address]
    of any address of the lower half is the frame of its page plus the offset in
    the page; neither panics. *)
Theorem paging_translate T m (s : S) t v :
  spaces_ok T m s → t ∈ ttables T → 0 ≤ va_addr v < 2 ^ 47 →
  let p := page_at (va_addr v - va_addr v mod PAGE_SIZE) in
  ttable_translate_page m t p = Ret (lookup m T (User t) p) ∧
  translate_address (ttable_translate_page m t) v =
    Ret ((λ f, mkPA (frame_addr f + va_addr v mod PAGE_SIZE)) <$> lookup m T (User t) p).
Proof.
  intros Hok Ht Hv p. assert (handled T (User t) p) as Hp.
  { split; [by apply page_of_address|]. split; [done|]. cbn [page_addr page_base va_addr p].
    pose proof (Z.mod_pos_bound (va_addr v) PAGE_SIZE ltac:(done)). lia. }
  pose proof (user_translate_spec T m s t p Hok Hp) as Htr. split; [done|].
  rewrite (translate_address_ok m _ _ _ _ v ltac:(unfold is_usize; lia) Htr). unfold lookup.
  by rewrite <-option_fmap_compose.
Qed.

(** C15. [TTable::new] gives a table whose lower half is empty and through whose
    upper half the kernel table is seen, a table no other space uses, and leaves
    every mapping of the other spaces alone; when there is no frame for it,
    nothing changes. *)
Theorem paging_new_space T m (s : S) :
  spaces_ok T m s →
  ∃ r m' s', ttable_new m (ktable T) s = Ret (r, m', s') ∧
  match r with
  | Ok t => (t ∉ ttables T) ∧ spaces_ok (with_ttable T t) m' s' ∧
      (∀ p, handled (with_ttable T t) (User t) p → lookup m' (with_ttable T t) (User t) p = None) ∧
      (∀ p, handled T Kernel p →
         ((λ b, frame_at b) <$> walk m' (frame_addr t) (pml4_index p :: path_of Kernel p)) = lookup m T Kernel p) ∧
      (∀ sp q, handled T sp q → lookup m' (with_ttable T t) sp q = lookup m T sp q)
  | Err _ => m' = m ∧ spaces_ok T m s'
  end.
Proof.
  intros Hok. destruct (ttable_new_spec T m s Hok) as (r & m' & s' & Hn & Hr). exists r, m', s'.
  split; [done|]. destruct r as [t|]; [|done]. destruct Hr as (Hnew & Hok' & He & Hsame). split_and!; try done.
  intros p Hp. rewrite <-(Hsame Kernel p Hp). apply (kernel_half_shared _ m' s'); [done|by left|done].
Qed.

(** [Amd64KTable::translate_page] has the assertion of the other table: it
    panics on every page that its [map_page] accepts. *)
Theorem ktable_translate_panics T m p :
  handled T Kernel p → ktable_translate_page m (ktable T) p = Panic AssertionFailed.
Proof.
  intros [_ Hp]. unfold ktable_translate_page. by rewrite (proj2 (Z.ltb_ge (page_addr p) UPPER_HALF)).
Qed.

(** The guard of the user tables lets the non-canonical addresses between the
    halves through: from [2^47] on they name pages of the kernel half, so a user
    table translates them as the kernel pages [2^64 - 2^48] above. *)
Theorem ttable_reaches_kernel_half T m (s : S) t p :
  spaces_ok T m s → t ∈ ttables T → wf_page p → 2 ^ 47 ≤ page_addr p < 2 ^ 48 →
  ttable_translate_page m t p = Ret (lookup m T Kernel (page_at (page_addr p + (2 ^ 64 - 2 ^ 48)))).
Proof.
  intros Hok Ht Hwf Hr. set (q := page_at _).
  destruct (upper_alias p Hwf Hr) as (Hq & H4 & H3 & H2 & H1). fold q in Hq, H4, H3, H2, H1.
  assert (handled T Kernel q) as Hh.
  { split; [done|]. unfold UPPER_HALF. cbn [page_addr page_base va_addr q]. lia. }
  pose proof (handled_index T q Hh) as Hi. pose proof Hok as (_ & _ & Hsh). rewrite Forall_forall in Hsh.
  pose proof (Hsh t (proj1 (list_elem_of_In _ _) Ht) _ Hi) as Hn.
  replace (256 + (pml4_index q - 256)) with (pml4_index p) in Hn by lia.
  unfold ttable_translate_page. rewrite (proj2 (Z.ltb_lt (page_addr p) UPPER_HALF)) by (unfold UPPER_HALF; lia).
  cbn [mbind outcome_bind assert]. rewrite to_page_mapped by (by apply (user_root T m s t)). cbn [mbind outcome_bind].
  assert (child_table m t (pml4_index p) = Ret (Some (frame_at (kpdpt T (pml4_index q - 256))))) as ->.
  { rewrite (child_table_ok m t (pml4_index p)), Hn; [done|exact (proj1 (indices_idx p))|].
    intros b Hb. rewrite Hn in Hb. injection Hb as <-. by eapply kernel_root. }
  cbn [mbind outcome_bind].
  pose proof (translate_from_walk (depth_of T) m s (kpdpt T (pml4_index q - 256)) [] (frame_at (kpdpt T (pml4_index q - 256))) q (proj1 Hok) eq_refl
    (handled_leaf T m s Kernel q Hok Hh)) as Htr.
  unfold translate_from in Htr |- *. rewrite <-H3, <-H2, <-H1. exact Htr.
Qed.

(** [construct_tables] finds the tables the processor uses: whatever flags the
    low bits of [cr3] hold, it gives the user table that [cr3] points to and the
    kernel tables that all user tables share. *)
Theorem construct_tables_finds T m (s : S) t flags :
  spaces_ok T m s → t ∈ ttables T → 0 ≤ flags < PAGE_SIZE →
  construct_tables m (frame_addr t + flags) = Ret (ktable T, t).
Proof.
  intros Hok Ht Hfl. pose proof (user_root T m s t Hok Ht) as Hmap. pose proof Hmap as [Hr Hm].
  pose proof Hok as (_ & _ & Hsh). rewrite Forall_forall in Hsh.
  pose proof (Hsh t (proj1 (list_elem_of_In _ _) Ht) 0 ltac:(lia)) as Hn. unfold kpdpt in Hn.
  rewrite Z.mul_0_l, !Z.add_0_r in Hn. change (256 + 0) with 256 in Hn.
  assert (Z.land (frame_addr t + flags) 0xfffffffffffff000 = frame_addr t) as Hmask.
  { change 0xfffffffffffff000 with (usize_not (2 ^ 12 - 1)).
    rewrite mask_low_bits by (unfold is_usize, PAGE_SIZE in *; lia). change (2 ^ 12) with PAGE_SIZE.
    rewrite <-Zplus_mod_idemp_l, Hm, Z.mod_small by done. lia. }
  unfold construct_tables. rewrite Hmask, new_page_aligned by (unfold is_usize; lia). rewrite Hm.
  cbn [mbind outcome_bind Z.eqb]. change (mkFrame (mkPA (frame_addr t))) with (frame_at (frame_addr t)).
  rewrite frame_eta, to_page_mapped by done. cbn [mbind outcome_bind]. rewrite entry_at_ok by done.
  cbn [mbind outcome_bind]. rewrite pointed_frame_ok. unfold next in Hn.
  destruct (is_present (m (frame_addr t) 256)); [|done]. injection Hn as ->.
  cbn [mbind outcome_bind expect]. by rewrite frame_eta.
Qed.

End Theorems.

(** ** A concrete system *)

(** One user table and the kernel tables, all empty, with the frames of [demo] free. *)
Definition boot_tables : Tables := mkTables [frame_at 0x100000] (frame_at 0x200000).

Definition boot_memory : memory := λ a i,
  if (a =? 0x100000) && ((256 <=? i) && (i <? 512))
  then match point_to_frame 0 (frame_at (kpdpt boot_tables (i - 256))) with Ok e => e | Err _ => 0 end
  else 0.

Lemma boot_roots a i d :
  depth_of boot_tables a i = Some d →
  (a = 0x100000 ∧ i < 256 ∨ 0x200000 ≤ a < 0x300000 ∧ a mod PAGE_SIZE = 0) ∧ boot_memory a i = 0.
Proof.
  unfold depth_of, is_kpdpt, boot_memory. change (is_ttable boot_tables a) with ((0x100000 =? a) || false).
  change (frame_addr (ktable boot_tables)) with 0x200000.
  rewrite orb_false_r, (Z.eqb_sym 0x100000 a). destruct (Z.eqb_spec a 0x100000) as [->|]; simpl.
  - destruct (Z.leb_spec 0 i), (Z.ltb_spec i 256); try done. intros _. split; [by left|].
    by rewrite (proj2 (Z.leb_gt 256 i)).
  - destruct (Z.leb_spec 0x200000 a), (Z.ltb_spec a (0x200000 + 256 * PAGE_SIZE)); try done.
    destruct (Z.eqb_spec ((a - 0x200000) mod PAGE_SIZE) 0) as [Hm|]; [|done]. intros _. split; [|done]. right.
    split; [unfold PAGE_SIZE in *; lia|]. change 0x200000 with (512 * PAGE_SIZE) in Hm.
    replace a with (a - 512 * PAGE_SIZE + 512 * PAGE_SIZE) by lia. by rewrite Z.mod_add.
Qed.

Lemma boot_walk a il b :
  table_path (depth_of boot_tables) a il → walk boot_memory a il = Some b →
  il = [] ∧ b = a ∧ mapped_addr a ∧ 0x100000 ≤ a.
Proof.
  destruct il as [|i il]; simpl.
  - intros (i & d & [Ha _]%boot_roots) [= <-]. split_and!; [done..| |lia].
    destruct Ha as [[-> _]|[? ?]]; (split; [lia|done]).
  - intros (d & [_ Hz]%boot_roots & _). unfold next. by rewrite Hz.
Qed.

Lemma demo_free_low g : alloc_free demo g → frame_addr g < 0x100000.
Proof.
  intros (n & -> & Hn). apply is_free_bounds in Hn. change (capacity demo) with 16 in Hn.
  unfold fr, PAGE_SIZE. cbn [frame_addr frame_base pa_addr first_frame demo]. lia.
Qed.

Lemma boot_ok : spaces_ok boot_tables boot_memory demo.
Proof.
  split_and!; [split_and!; [split|exact demo_wf|]|..].
  - intros a il b Hp Hw. destruct (boot_walk a il b Hp Hw) as (-> & -> & Hm & Hge). split; [done|].
    intros Hf%demo_free_low. cbn [frame_addr frame_base pa_addr] in Hf. lia.
  - intros a1 il1 a2 il2 b Hp1 Hp2 Hw1 Hw2.
    destruct (boot_walk _ _ _ Hp1 Hw1) as (-> & -> & _), (boot_walk _ _ _ Hp2 Hw2) as (-> & -> & _). done.
  - intros g Hg%demo_free_low. lia.
  - by repeat constructor.
  - constructor; [|done]. intros i Hi. unfold next, boot_memory. change (frame_addr (frame_at ?x)) with x.
    rewrite (proj2 (Z.leb_le 256 (256 + i))), (proj2 (Z.ltb_lt (256 + i) 512)) by lia. cbn [Z.eqb Pos.eqb andb].
    replace (256 + i - 256) with i by lia.
    destruct (point_to_frame_ok 0 (frame_at (kpdpt boot_tables i))) as (e & -> & Hpr & Hea); [done| |].
    { unfold kpdpt, table_addr, PAGE_SIZE. cbn [frame_addr frame_base pa_addr ktable boot_tables]. split; [lia|].
      change 0x200000 with (512 * 4096). rewrite <-Z.mul_add_distr_r. by apply Z.mod_mul. }
    by rewrite Hpr, Hea.
Qed.

Definition boot_user : space := User (frame_at 0x100000).

Lemma boot_handled : handled boot_tables boot_user (page_at 0x400000).
Proof. split; [done|]. split; [by left|done]. Qed.

Lemma boot_kernel_handled : handled boot_tables Kernel (page_at 0xffff800000001000).
Proof. split; done. Qed.

Lemma demo_frame : table_addr (frame_addr (frame_at 0x7000)).
Proof. split; [cbn; lia|done]. Qed.

Definition result_of {A B C} (o : outcome (A * B * C)) : option A :=
  match o with Ret (a, _, _) => Some a | Panic _ => None end.

Lemma boot_map_result :
  result_of (map_page boot_tables boot_memory boot_user (page_at 0x400000) (frame_at 0x7000) demo) = Some (Ok tt).
Proof. vm_compute. reflexivity. Qed.

Lemma paging_map_page_witness :
  ∃ m' s', map_page boot_tables boot_memory boot_user (page_at 0x400000) (frame_at 0x7000) demo = Ret (Ok tt, m', s') ∧
    lookup boot_memory boot_tables boot_user (page_at 0x400000) = None ∧
    lookup m' boot_tables boot_user (page_at 0x400000) = Some (frame_at 0x7000).
Proof.
  pose proof boot_map_result as Hr.
  destruct (paging_map_page boot_tables boot_memory demo boot_user (page_at 0x400000) (frame_at 0x7000)
    boot_ok boot_handled demo_frame) as (r & m' & s' & Hm & _ & Hu).
  rewrite Hm in Hr. simpl in Hr. injection Hr as ->. destruct Hu as [Hn Hu]. exists m', s'.
  split; [exact Hm|]. split; [exact Hn|]. rewrite (Hu boot_user (page_at 0x400000) boot_handled).
  by rewrite decide_True.
Defined.

Lemma paging_unmap_page_witness :
  ∃ m m', unmap_page boot_tables m boot_user (page_at 0x400000) = Ret (Ok tt, m') ∧
    lookup m boot_tables boot_user (page_at 0x400000) = Some (frame_at 0x7000) ∧
    lookup m' boot_tables boot_user (page_at 0x400000) = None.
Proof.
  pose proof boot_map_result as Hr.
  destruct (user_map_spec boot_tables boot_memory demo (frame_at 0x100000) (page_at 0x400000) (frame_at 0x7000)
    boot_ok boot_handled demo_frame) as (r & m & s & Hm & Hok & _ & Hu).
  unfold map_page, boot_user in Hr. rewrite Hm in Hr. simpl in Hr. injection Hr as ->. destruct Hu as [_ Hu].
  assert (lookup m boot_tables boot_user (page_at 0x400000) = Some (frame_at 0x7000)) as Hl.
  { rewrite (Hu boot_user (page_at 0x400000) boot_handled). by rewrite decide_True. }
  destruct (paging_unmap_page boot_tables m s boot_user (page_at 0x400000) Hok boot_handled)
    as ([[]|[]] & m' & Hm' & _ & Hr); [|destruct Hr as [Hr _]; congruence].
  exists m, m'. split; [exact Hm'|]. split; [exact Hl|]. destruct Hr as [_ Hr].
  rewrite (Hr boot_user (page_at 0x400000) boot_handled). by rewrite decide_True.
Defined.

Lemma paging_translate_witness :
  translate_address (ttable_translate_page boot_memory (frame_at 0x100000)) (mkVA 0x400123) = Ret None.
Proof.
  destruct (paging_translate boot_tables boot_memory demo (frame_at 0x100000) (mkVA 0x400123) boot_ok) as [_ Ht];
    [by left|cbn; lia|]. rewrite Ht. vm_compute. reflexivity.
Defined.

Lemma paging_new_space_witness :
  ∃ t m' s', ttable_new boot_memory (ktable boot_tables) demo = Ret (Ok t, m', s') ∧
    t ≠ frame_at 0x100000 ∧ spaces_ok (with_ttable boot_tables t) m' s'.
Proof.
  assert (result_of (ttable_new boot_memory (ktable boot_tables) demo) = Some (Ok (frame_at 0x5000))) as Hr
    by (vm_compute; reflexivity).
  destruct (paging_new_space boot_tables boot_memory demo boot_ok) as (r & m' & s' & Hn & Ht).
  rewrite Hn in Hr. simpl in Hr. injection Hr as ->. destruct Ht as (_ & Hok & _).
  exists (frame_at 0x5000), m', s'. split; [exact Hn|]. split; [done|exact Hok].
Defined.

Lemma ktable_translate_panics_witness :
  handled boot_tables Kernel (page_at 0xffff800000001000) ∧
  ktable_translate_page boot_memory (frame_at 0x200000) (page_at 0xffff800000001000) = Panic AssertionFailed.
Proof.
  split; [exact boot_kernel_handled|].
  exact (ktable_translate_panics boot_tables boot_memory _ boot_kernel_handled).
Defined.

Lemma ttable_reaches_kernel_half_witness :
  ttable_translate_page boot_memory (frame_at 0x100000) (page_at 0x800000001000) =
    Ret (lookup boot_memory boot_tables Kernel (page_at 0xffff800000001000)).
Proof.
  apply (ttable_reaches_kernel_half boot_tables boot_memory demo (frame_at 0x100000) (page_at 0x800000001000) boot_ok);
    [by left|done|done].
Defined.

Lemma construct_tables_finds_witness :
  construct_tables boot_memory 0x100018 = Ret (frame_at 0x200000, frame_at 0x100000).
Proof.
  apply (construct_tables_finds boot_tables boot_memory demo (frame_at 0x100000) 0x18 boot_ok);
    [by left|unfold PAGE_SIZE; lia].
Defined.
