(* ===== verification/BootPaging.v ===== *)
(** * BootPaging: the page tables the bootloader builds

    [bootloader/src/paging.rs]: entries, tables, [PageTable::try_new],
    [translate_page] and the mapping of pages and ranges, on the memory of
    [PageTable].  The bootloader runs with physical addresses, so a table lies where
    its frame is.  The function that gives frames is the firmware's, any frame
    allocator that keeps the laws of [Allocator]. *)

From stdpp Require Import base gmap list numbers option.
From S2P Require Import Prelude Memory Allocator PageTable Walk Paging.

Open Scope Z_scope.

(** ** Entries *)

Abbreviation FLAG_WRITABLE := (Z.shiftl 1 1).
Abbreviation FLAG_PRESENT := (Z.shiftl 1 0).
Abbreviation FLAG_USER_ACCESSIBLE := (Z.shiftl 1 2).
Abbreviation PERMISSIVE := (Z.lor FLAG_WRITABLE FLAG_USER_ACCESSIBLE).

(** The bits of all flags: 0 to 9 and 63. *)
Definition FLAGS_ALL : Z := Z.lor (Z.ones 10) (Z.shiftl 1 63).

Abbreviation FRAME_MASK := 0x000ffffffffff000.

Definition boot_new_entry : Z := FLAG_WRITABLE.

(** [from_bits_truncate]. *)
Abbreviation entry_flags e := (Z.land e FLAGS_ALL).

Definition boot_pointed_frame (e : Z) : option Z :=
  if Z.land (entry_flags e) FLAG_PRESENT =? FLAG_PRESENT then Some (Z.land e FRAME_MASK) else None.

Definition set_pointed_frame_unchecked (e frame flags : Z) : Z :=
  let e := Z.land e (usize_not FRAME_MASK) in
  let e := Z.lor e (Z.land frame FRAME_MASK) in
  Z.lor e (Z.lor flags FLAG_PRESENT).

Definition set_pointed_frame (e frame flags : Z) : result Z Z :=
  match boot_pointed_frame e with
  | None => Ok (set_pointed_frame_unchecked e frame flags)
  | Some f => Err f
  end.

(** ** Tables *)

(** [Table::new()] written at an address. *)
Definition write_table (m : memory) (t : Z) : memory :=
  λ a i, if a =? t then boot_new_entry else m a i.

Definition get_child_table (m : memory) (t index : Z) : outcome (option Z) :=
  e ← entry_at m (frame_at t) index;
  Ret (boot_pointed_frame e).

(** A pointer to a table, an array of [u64], is aligned and not null. *)
Definition table_ptr_ok (a : Z) : bool := (a mod 8 =? 0) && negb (a =? 0).

Abbreviation L4_SHIFT := (12 + 9 * 3).
Abbreviation L3_SHIFT := (12 + 9 * 2).
Abbreviation L2_SHIFT := (12 + 9 * 1).
Abbreviation L1_SHIFT := (12).
Abbreviation L4_MASK := (0xff8000000000).
Abbreviation L3_MASK := (0x7fc0000000).
Abbreviation L2_MASK := (0x3fe00000).
Abbreviation L1_MASK := (0x1ff000).

Definition l4_index (p : Z) : Z := Z.shiftr (Z.land p L4_MASK) L4_SHIFT.
Definition l3_index (p : Z) : Z := Z.shiftr (Z.land p L3_MASK) L3_SHIFT.
Definition l2_index (p : Z) : Z := Z.shiftr (Z.land p L2_MASK) L2_SHIFT.
Definition l1_index (p : Z) : Z := Z.shiftr (Z.land p L1_MASK) L1_SHIFT.

Inductive MapError := BootAlreadyMapped | AllocationError (e : AllocError).

(** [PageTable::translate_page] of the tables below [root]. *)
Definition boot_translate_page (m : memory) (root virt : Z) : outcome (option Z) :=
  t3 ← get_child_table m root (l4_index virt);
  match t3 with None => Ret None | Some t3 =>
  t2 ← get_child_table m t3 (l3_index virt);
  match t2 with None => Ret None | Some t2 =>
  t1 ← get_child_table m t2 (l2_index virt);
  match t1 with None => Ret None | Some t1 =>
  e ← entry_at m (frame_at t1) (l1_index virt);
  Ret (boot_pointed_frame e) end end end.

Section boot_paging.
  Context {S : Type} `{BackingAllocator S}.

(** The closure over the firmware's [allocate_pages]. *)
Definition boot_allocate (s : S) (n : Z) : outcome (result Z AllocError * S) :=
  '(r, s) ← allocate_contiguous s n;
  match r with Ok f => Ret (Ok (frame_addr f), s) | Err e => Ret (Err e, s) end.

Definition try_get_or_create_child_table (m : memory) (t index : Z) (s : S) :
    outcome (result Z AllocError * memory * S) :=
  c ← get_child_table m t index;
  match c with
  | Some child => Ret (Ok child, m, s)
  | None =>
      '(r, s) ← boot_allocate s 1;
      match r with
      | Err e => Ret (Err e, m, s)
      | Ok table_ptr =>
          _ ← assert (table_ptr_ok table_ptr);
          let m := write_table m table_ptr in
          e ← entry_at m (frame_at t) index;
          e ← expect_ok (set_pointed_frame e table_ptr PERMISSIVE);
          Ret (Ok table_ptr, set_entry m (frame_at t) index e, s)
      end
  end.

Definition try_map_page_with (m : memory) (root page frame flags : Z) (s : S) :
    outcome (result unit MapError * memory * S) :=
  '(r, m, s) ← try_get_or_create_child_table m root (l4_index page) s;
  match r with Err e => Ret (Err (AllocationError e), m, s) | Ok t3 =>
  '(r, m, s) ← try_get_or_create_child_table m t3 (l3_index page) s;
  match r with Err e => Ret (Err (AllocationError e), m, s) | Ok t2 =>
  '(r, m, s) ← try_get_or_create_child_table m t2 (l2_index page) s;
  match r with Err e => Ret (Err (AllocationError e), m, s) | Ok t1 =>
  e ← entry_at m (frame_at t1) (l1_index page);
  match set_pointed_frame e frame flags with
  | Ok e => Ret (Ok tt, set_entry m (frame_at t1) (l1_index page) e, s)
  | Err _ => Ret (Err BootAlreadyMapped, m, s)
  end end end end.

Definition try_map_page (m : memory) (root page frame : Z) (s : S) : outcome (result unit MapError * memory * S) :=
  try_map_page_with m root page frame 0 s.

(** The loop of [try_map_range_with] over the numbers of the pages. *)
Fixpoint map_range_from (l : list Z) (m : memory) (root page_start frame_start flags : Z) (s : S) :
    outcome (result unit MapError * memory * S) :=
  match l with
  | [] => Ret (Ok tt, m, s)
  | i :: l =>
      o ← usize_mul i 4096; page ← usize_add page_start o; frame ← usize_add frame_start o;
      '(r, m, s) ← try_map_page_with m root page frame flags s;
      match r with
      | Err e => Ret (Err e, m, s)
      | Ok _ => map_range_from l m root page_start frame_start flags s
      end
  end.

Definition try_map_range_with (m : memory) (root page_start frame_start page_count flags : Z) (s : S) :
    outcome (result unit MapError * memory * S) :=
  map_range_from (seqZ 0 page_count) m root page_start frame_start flags s.

Definition try_map_range (m : memory) (root page_start frame_start page_count : Z) (s : S) :
    outcome (result unit MapError * memory * S) :=
  try_map_range_with m root page_start frame_start page_count 0 s.

(** The tables of the upper half, one behind the other. *)
Definition link_kernel_tables (m : memory) (root tables : Z) : outcome memory :=
  for_each (seqZ 0 256) (λ i m,
    let tab := tables + i * 4096 in
    let m := write_table m tab in
    e ← entry_at m (frame_at root) (i + 256);
    e ← expect_ok (set_pointed_frame e tab PERMISSIVE);
    Ret (set_entry m (frame_at root) (i + 256) e)) m.

Definition boot_try_new (m : memory) (s : S) : outcome (result Z AllocError * memory * S) :=
  '(r, s) ← boot_allocate s 1;
  match r with Err e => Ret (Err e, m, s) | Ok table_ptr =>
  _ ← assert (table_ptr_ok table_ptr);
  let m := write_table m table_ptr in
  '(r, s) ← boot_allocate s 256;
  match r with Err e => Ret (Err e, m, s) | Ok l3_kernel_tables =>
  m ← link_kernel_tables m table_ptr l3_kernel_tables;
  Ret (Ok table_ptr, m, s) end end.
End boot_paging.

(** ** Bits *)

(** The bits between the address and the last flags, which nothing here sets. *)
Definition clean (e : Z) : Prop := ∀ k, 52 ≤ k < 60 → Z.testbit e k = false.
Definition flags_ok (flags : Z) : Prop := ∀ k, 12 ≤ k < 60 → Z.testbit flags k = false.

Lemma FRAME_MASK_bits i : 0 ≤ i → Z.testbit FRAME_MASK i = (12 <=? i) && (i <? 52).
Proof.
  intros Hi. change FRAME_MASK with (Z.shiftl (Z.ones 40) 12). rewrite Z.shiftl_spec by done.
  destruct (Z.leb_spec 12 i); simpl; [|by rewrite Z.testbit_neg_r by lia].
  destruct (Z.ltb_spec i 52); [by rewrite Z.ones_spec_low by lia|by rewrite Z.ones_spec_high by lia].
Qed.

(** An entry means to the bootloader what it means to the kernel. *)
Lemma boot_pointed_frame_ok e :
  clean e → boot_pointed_frame e = if is_present e then Some (Z.land e ADDRESS) else None.
Proof.
  intros Hc. unfold boot_pointed_frame. rewrite <-Z.land_assoc.
  change (Z.land FLAGS_ALL FLAG_PRESENT) with PRESENT. change (Z.land e PRESENT =? FLAG_PRESENT) with (is_present e).
  destruct (is_present e); [|done]. f_equal. apply Z.bits_inj'. intros i Hi.
  rewrite !Z.land_spec, FRAME_MASK_bits, ADDRESS_bits by done. destruct (decide (52 ≤ i < 60)) as [Hr|Hr].
  - by rewrite (Hc i Hr).
  - f_equal. repeat case_Z; simpl; lia.
Qed.

(** An unused entry that is pointed to a frame. *)
Lemma set_frame_entry e f flags :
  clean e → 0 ≤ f < 2 ^ 52 → f mod PAGE_SIZE = 0 → flags_ok flags →
  let e' := set_pointed_frame_unchecked e f flags in is_present e' = true ∧ Z.land e' ADDRESS = f ∧ clean e'.
Proof.
  intros Hc Hf Hm Hfl. unfold set_pointed_frame_unchecked.
  assert (∀ i, 12 ≤ i < 60 → Z.testbit (Z.lor (Z.lor (Z.land e (usize_not FRAME_MASK)) (Z.land f FRAME_MASK))
    (Z.lor flags FLAG_PRESENT)) i = Z.testbit f i) as Hbits.
  { intros i Hi. rewrite !Z.lor_spec, !Z.land_spec, usize_not_spec, FRAME_MASK_bits by lia.
    rewrite testbit_single, (Hfl i Hi) by done.
    rewrite (proj2 (Z.eqb_neq i 0)), (proj2 (Z.leb_le 12 i)), (proj2 (Z.ltb_lt i 64)) by lia.
    destruct (Z.ltb_spec i 52); cbn [andb xorb negb]; rewrite ?andb_true_r, ?andb_false_r, ?orb_false_r; [done|].
    rewrite (Hc i) by lia. by rewrite (testbit_above 52) by lia. }
  split_and!.
  - rewrite is_present_bit, !Z.lor_spec. change (Z.testbit FLAG_PRESENT 0) with true. by rewrite !orb_true_r.
  - apply Z.bits_inj'. intros i Hi. rewrite Z.land_spec, ADDRESS_bits by done.
    destruct (decide (12 ≤ i < 60)) as [Hr|Hr].
    + rewrite Hbits by done. by rewrite (proj2 (Z.leb_le 12 i)), (proj2 (Z.ltb_lt i 60)), andb_true_r by lia.
    + destruct (decide (i < 12)); [by rewrite (low_bits_clear f i), (proj2 (Z.leb_gt 12 i)), andb_false_r by (done || lia)|].
      by rewrite (testbit_above 52 f), (proj2 (Z.ltb_ge i 60)), !andb_false_r by lia.
  - intros k Hk. rewrite Hbits by lia. apply (testbit_above 52); lia.
Qed.

Lemma boot_new_entry_clean : clean boot_new_entry.
Proof. intros k Hk. unfold boot_new_entry. rewrite testbit_single by done. case_Z; [lia|done]. Qed.

Lemma PERMISSIVE_ok : flags_ok PERMISSIVE.
Proof.
  intros k Hk. rewrite Z.lor_spec, !testbit_single by done.
  repeat case_Z; done || lia.
Qed.

(** The indices are the kernel's. *)
Lemma boot_indices p :
  l4_index p = pml4_index (page_at p) ∧ l3_index p = pdpt_index (page_at p) ∧
  l2_index p = pd_index (page_at p) ∧ l1_index p = pt_index (page_at p).
Proof. done. Qed.

(** ** The tables as a forest of one tree *)

Definition boot_depth (root a i : Z) : option nat :=
  if (a =? root) && (0 <=? i) && (i <? 512) then Some 3%nat else None.

Lemma boot_depth_spec root a i d : boot_depth root a i = Some d ↔ a = root ∧ idx i ∧ d = 3%nat.
Proof.
  unfold boot_depth, idx. destruct (Z.eqb_spec a root), (Z.leb_spec 0 i), (Z.ltb_spec i 512); simpl; naive_solver lia.
Qed.

Lemma boot_table_path root il :
  Forall idx il → (length il ≤ 3)%nat → table_path (boot_depth root) root il.
Proof.
  intros Hi Hl. destruct il as [|i il]; simpl in *.
  - exists 0, 3%nat. by apply boot_depth_spec.
  - apply Forall_cons_1 in Hi as [Hi Hil]. exists 3%nat. split; [by apply boot_depth_spec|]. split; [lia|done].
Qed.

Lemma boot_path_root root a il : table_path (boot_depth root) a il → a = root.
Proof. destruct il; intros (? & Hp); naive_solver (by eapply boot_depth_spec). Qed.

(** The path of a page. *)
Definition boot_path (p : Z) : list Z := [l4_index p; l3_index p; l2_index p; l1_index p].

Lemma boot_path_idx p : Forall idx (boot_path p).
Proof.
  destruct (boot_indices p) as (E4 & E3 & E2 & E1), (indices_idx (page_at p)) as (H4 & H3 & H2 & H1).
  unfold boot_path. rewrite E4, E3, E2, E1. do 4 (apply Forall_cons_2; [done|]). by apply Forall_nil_2.
Qed.

Lemma boot_leaf_path root p : leaf_path (boot_depth root) root (boot_path p).
Proof.
  pose proof (boot_path_idx p) as Hi. apply Forall_cons_1 in Hi as [H4 Hi].
  exists 3%nat. split_and!; [by apply boot_depth_spec|done|done].
Qed.

(** What [boot_translate_page] answers, as the processor would. *)
Definition boot_translate (m : memory) (root p : Z) : option Z := walk m root (boot_path p).

(** Pages with the same indices are one page to the processor. *)
Definition page_key (p : Z) : Z := p / 4096 mod 2 ^ 36.

Lemma boot_path_key p q : boot_path p = boot_path q ↔ page_key p = page_key q.
Proof.
  assert (∀ x, page_key x = 2 ^ 27 * l4_index x + 2 ^ 18 * l3_index x + 2 ^ 9 * l2_index x + l1_index x ∧
    idx (l4_index x) ∧ idx (l3_index x) ∧ idx (l2_index x) ∧ idx (l1_index x)) as Hx.
  { intros x. destruct (boot_indices x) as (E4 & E3 & E2 & E1), (indices_idx (page_at x)) as (H4 & H3 & H2 & H1).
    rewrite E4, E3, E2, E1. split_and!; try done. rewrite pml4_index_div, pdpt_index_div, pd_index_div, pt_index_div.
    change (page_addr (page_at x)) with x. unfold page_key. change 4096 with (2 ^ 12).
    pose proof (div_split x 12 ltac:(lia)) as S12. pose proof (div_split x 21 ltac:(lia)) as S21.
    pose proof (div_split x 30 ltac:(lia)) as S30. pose proof (div_split x 39 ltac:(lia)) as S39.
    change (12 + 9) with 21 in *. change (21 + 9) with 30 in *. change (30 + 9) with 39 in *. change (39 + 9) with 48 in *.
    pose proof (mod_idx (x / 2 ^ 12)) as M12. pose proof (mod_idx (x / 2 ^ 21)) as M21.
    pose proof (mod_idx (x / 2 ^ 30)) as M30. pose proof (mod_idx (x / 2 ^ 39)) as M39. unfold idx in *.
    set (a := x / 2 ^ 12) in *. set (b := x / 2 ^ 21) in *. set (c := x / 2 ^ 30) in *. set (d := x / 2 ^ 39) in *.
    symmetry. apply Z.mod_unique with (x / 2 ^ 48); lia. }
  destruct (Hx p) as (Ep & ? & ? & ? & ?), (Hx q) as (Eq & ? & ? & ? & ?). unfold boot_path, idx in *. split.
  - intros [= E4 E3 E2 E1]. rewrite Ep, Eq, E4, E3, E2, E1. done.
  - intros E. rewrite Ep, Eq in E. assert (l4_index p = l4_index q) as -> by lia. assert (l3_index p = l3_index q) as -> by lia.
    assert (l2_index p = l2_index q) as -> by lia. by assert (l1_index p = l1_index q) as -> by lia.
Qed.

Section boot_forest.
  Context {S : Type} `{LawfulAllocator S}.

(** Tables the bootloader can work on: a tree whose entries it wrote, and frames
    from the firmware that are not at address 0. *)
Record boot_inv (root : Z) (m : memory) (s : S) : Prop := {
  boot_forest : forest_ok (boot_depth root) m s;
  boot_clean b i : is_table (boot_depth root) m b → clean (m b i);
  boot_nonzero g : alloc_free s g → frame_addr g ≠ 0
}.

(** A frame that is neither a table nor the firmware's to give. *)
Definition private (root : Z) (m : memory) (s : S) (a : Z) : Prop :=
  ¬ is_table (boot_depth root) m a ∧ ¬ alloc_free s (frame_at a).

(** Every table stays where it is, and what is in other frames stays as it is. *)
Definition kept (root : Z) (c c' : memory * S) : Prop :=
  (∀ il b, table_path (boot_depth root) root il → walk c.1 root il = Some b → walk c'.1 root il = Some b) ∧
  ∀ a, private root c.1 c.2 a → private root c'.1 c'.2 a ∧ ∀ i, c'.1 a i = c.1 a i.

#[global] Instance kept_preorder root : PreOrder (kept root).
Proof.
  split; [done|]. intros c1 c2 c3 [H1 P1] [H2 P2]. split; [naive_solver|]. intros a [Hp E1]%P1. apply P2 in Hp as [Hp E2].
  split; [done|]. intros i. by rewrite E2, E1.
Qed.

(** The firmware may give frames away. *)
Lemma kept_allocate root m s s' : (∀ g, alloc_free s' g → alloc_free s g) → kept root (m, s) (m, s').
Proof. intros Hs. split; [done|]. intros a [Ht Hf]. split; [split; [done|naive_solver]|done]. Qed.

Definition take_one (s s' : S) : Prop := ∃ r, allocate_contiguous s 1 = Ret (r, s').

(** The firmware had no frame for a table, on the way from [s] on. *)
Definition boot_starved (s : S) : Prop :=
  ∃ s1 s2 e, rtc take_one s s1 ∧ allocate_contiguous s1 1 = Ret (Err e, s2).

Lemma get_child_ok root m s il t i :
  boot_inv root m s → table_path (boot_depth root) root il → walk m root il = Some t → idx i →
  get_child_table m t i = Ret (walk m root (il ++ [i])).
Proof.
  intros Hok Ht Hw Hi. unfold get_child_table. rewrite entry_at_ok by done. cbn [mbind outcome_bind].
  change (frame_addr (frame_at t)) with t. rewrite boot_pointed_frame_ok by (apply (boot_clean root m s Hok); by exists root, il).
  by rewrite walk_snoc, Hw.
Qed.

Lemma next_write_table m t f i e a j :
  is_present boot_new_entry = false →
  next (set_entry (write_table m (frame_addr f)) (frame_at t) i e) a j = next (with_table m (frame_at t) i f e) a j.
Proof.
  intros Hn. unfold with_table. rewrite !next_set_entry, next_write_empty. case_match; [done|].
  unfold next, write_table. destruct (a =? frame_addr f); [by rewrite Hn|done].
Qed.

(** A new table behind an unused entry. *)
Lemma boot_grow root m s s' il t i f e :
  boot_inv root m s → table_path (boot_depth root) root il → walk m root il = Some t →
  table_path (boot_depth root) root (il ++ [i]) → next m t i = None →
  wf_frame f → alloc_free s f → alloc_inv s' → (∀ g, alloc_free s' g ↔ alloc_free s g ∧ g ≠ f) →
  is_present e = true → Z.land e ADDRESS = frame_addr f → clean e →
  let m' := set_entry (write_table m (frame_addr f)) (frame_at t) i e in
  boot_inv root m' s' ∧ same_pages (boot_depth root) m m' ∧ kept root (m, s) (m', s') ∧
  walk m' root (il ++ [i]) = Some (frame_addr f).
Proof.
  intros [Hf Hc Hz] Ht Hw Hp Hnone Hwf Hff Hinv' Hs' He Hea Hec m'.
  pose proof (λ a j, next_write_table m t f i e a j eq_refl) as Hnext. fold m' in Hnext.
  split_and!; [split| | |].
  - eapply forest_ok_ext; [exact Hnext|]. by apply (grow_ok (boot_depth root) m s s' root il).
  - intros b j Hb. apply (is_table_ext _ _ _ _ Hnext) in Hb.
    apply (grow_tables_new (boot_depth root) m s root il) in Hb; [|done..].
    unfold m', set_entry, write_table. case_match; [done|].
    destruct (Z.eqb_spec b (frame_addr f)); [apply boot_new_entry_clean|]. apply Hc. by destruct Hb.
  - intros g Hg. by apply Hz, Hs'.
  - destruct (grow_same (boot_depth root) m s root il (frame_at t) i f e) as [Hl Hsp]; [done..|].
    split; intros; [rewrite (walk_ext (with_table m (frame_at t) i f e)) by done; by apply Hl|rewrite Hnext; by apply Hsp].
  - split; cbn [fst snd].
    2: { intros b [Hnt Hnf]. assert (b ≠ frame_addr f) as Hbf by (intros ->; by rewrite frame_eta in Hnf).
      assert (b ≠ t) as Hbt by (intros ->; apply Hnt; by exists root, il). split; [split|].
      - intros Hb%(is_table_ext _ _ _ _ Hnext). by apply (grow_tables_new (boot_depth root) m s root il) in Hb as [?|?].
      - intros [? _]%Hs'. done.
      - intros j. unfold m', set_entry, write_table. change (frame_addr (frame_at t)) with t.
        by rewrite (proj2 (Z.eqb_neq b t)), (proj2 (Z.eqb_neq b (frame_addr f))) by done. }
    intros js b Hjs Hb. rewrite (walk_ext (with_table m (frame_at t) i f e)) by done.
    rewrite (grow_other (boot_depth root) m s root il); [done..|by left|]. intros [_ [ks ->]].
    rewrite walk_app, walk_snoc, Hw in Hb. cbn [mbind option_bind] in Hb. by rewrite Hnone in Hb.
  - rewrite (walk_ext (with_table m (frame_at t) i f e)) by done. by apply (grow_there (boot_depth root) m s root il).
Qed.

(** [try_get_or_create_child_table] never panics; it finds the table, grows the
    tree by one, or leaves everything as it was. *)
Lemma create_child_ok root m s il t i :
  boot_inv root m s → table_path (boot_depth root) root il → walk m root il = Some t →
  table_path (boot_depth root) root (il ++ [i]) → idx i →
  ∃ r m' s', try_get_or_create_child_table m t i s = Ret (r, m', s') ∧ boot_inv root m' s' ∧
    same_pages (boot_depth root) m m' ∧ kept root (m, s) (m', s') ∧ rtc take_one s s' ∧
    match r with
    | Ok t' => walk m' root (il ++ [i]) = Some t'
    | Err _ => walk m root (il ++ [i]) = None ∧ boot_starved s
    end.
Proof.
  intros Hok Ht Hw Hp Hi. pose proof Hok as [Hf Hc Hz]. unfold try_get_or_create_child_table.
  rewrite (get_child_ok root m s il) by done. cbn [mbind outcome_bind].
  assert (walk m root (il ++ [i]) = next m t i) as Hsn by by rewrite walk_snoc, Hw.
  destruct (walk m root (il ++ [i])) as [b|] eqn:Hn; [by exists (Ok b), m, s|].
  destruct Hf as (Hfi & Hinv & Hb). unfold boot_allocate.
  destruct (alloc_contiguous_law s 1 Hinv ltac:(lia)) as (r & s' & Hone & Hinv' & Hr).
  assert (rtc take_one s s') as Hst by (apply rtc_once; by eexists). rewrite Hone. cbn [mbind outcome_bind].
  destruct r as [f|err]; cbn [mbind outcome_bind].
  2:{ exists (Err err), m, s'. split_and!; try done; [|apply kept_allocate; naive_solver|by exists s, s', err]. split; [|done|naive_solver].
      split_and!; [eapply forest_inv_same; [exact Hfi|done|]; naive_solver|done|naive_solver]. }
  destruct Hr as (Hwf & _ & Hfree & Hs'). assert (alloc_free s f) as Hff by by apply Hfree, in_run_one.
  assert (∀ g, alloc_free s' g ↔ alloc_free s g ∧ g ≠ f) as Hs1 by (intros g; by rewrite Hs', in_run_one).
  pose proof (boot_forest root m s Hok) as Hforest.
  pose proof (fresh_mapped (boot_depth root) m s f Hforest Hwf Hff) as [Hfr Hfm].
  pose proof (fresh_not_table (boot_depth root) m s root il (frame_at t) f Hforest Ht Hw Hff) as Hne.
  assert (table_ptr_ok (frame_addr f) = true) as ->.
  { unfold table_ptr_ok. apply andb_true_iff. split; [|by apply negb_true_iff, Z.eqb_neq, Hz].
    apply Z.eqb_eq. unfold PAGE_SIZE in Hfm. Z.div_mod_to_equations. lia. }
  cbn [assert mbind outcome_bind]. rewrite entry_at_ok by done. cbn [mbind outcome_bind].
  change (frame_addr (frame_at t)) with t in *.
  assert (write_table m (frame_addr f) t i = m t i) as ->.
  { unfold write_table. by rewrite (proj2 (Z.eqb_neq t (frame_addr f))) by done. }
  assert (clean (m t i)) as Hclean by (apply Hc; by exists root, il).
  assert (is_present (m t i) = false) as Hnp by (unfold next in Hsn; by destruct (is_present (m t i))).
  unfold set_pointed_frame. rewrite boot_pointed_frame_ok, Hnp by done. cbn [expect_ok mbind outcome_bind].
  destruct (set_frame_entry (m t i) (frame_addr f) PERMISSIVE) as (He & Hea & Hec); [done|lia|done|apply PERMISSIVE_ok|].
  destruct (boot_grow root m s s' il t i f _ Hok Ht Hw Hp (eq_sym Hsn) Hwf Hff Hinv' Hs1 He Hea Hec) as (Hok' & Hsame & Hkept & Hthere).
  by eexists (Ok (frame_addr f)), _, s'.
Qed.

(** ** Pages *)

Local Abbreviation path1 p := ([] ++ [l4_index p]).
Local Abbreviation path2 p := (path1 p ++ [l3_index p]).
Local Abbreviation path3 p := (path2 p ++ [l2_index p]).
Local Abbreviation path4 p := (path3 p ++ [l1_index p]).

Lemma boot_tables root p :
  table_path (boot_depth root) root [] ∧ table_path (boot_depth root) root (path1 p) ∧
  table_path (boot_depth root) root (path2 p) ∧ table_path (boot_depth root) root (path3 p) ∧
  idx (l4_index p) ∧ idx (l3_index p) ∧ idx (l2_index p) ∧ idx (l1_index p).
Proof.
  pose proof (boot_path_idx p) as Hi. apply Forall_cons_1 in Hi as [I4 Hi]. apply Forall_cons_1 in Hi as [I3 Hi].
  apply Forall_cons_1 in Hi as [I2 Hi]. apply Forall_cons_1 in Hi as [I1 _].
  split_and!; try done; apply boot_table_path; simpl; try lia; repeat (apply Forall_cons_2; [done|]); apply Forall_nil_2.
Qed.

(** A path that ends early leads nowhere. *)
Lemma walk_none m root p il js : walk m root il = None → il ++ js = boot_path p → boot_translate m root p = None.
Proof. intros Hn E. unfold boot_translate. by rewrite <-E, walk_app, Hn. Qed.

Lemma boot_translate_ok root m s p :
  boot_inv root m s → boot_translate_page m root p = Ret (boot_translate m root p).
Proof.
  intros Hok. unfold boot_translate_page.
  destruct (boot_tables root p) as (T0 & T1 & T2 & T3 & I4 & I3 & I2 & I1).
  rewrite (get_child_ok root m s [] root) by done. cbn [mbind outcome_bind].
  destruct (walk m root (path1 p)) as [t3|] eqn:W3; [|by rewrite (walk_none m root p _ _ W3 eq_refl)].
  rewrite (get_child_ok root m s (path1 p) t3) by done. cbn [mbind outcome_bind].
  destruct (walk m root (path2 p)) as [t2|] eqn:W2; [|by rewrite (walk_none m root p _ _ W2 eq_refl)].
  rewrite (get_child_ok root m s (path2 p) t2) by done. cbn [mbind outcome_bind].
  destruct (walk m root (path3 p)) as [t1|] eqn:W1; [|by rewrite (walk_none m root p _ _ W1 eq_refl)].
  exact (get_child_ok root m s (path3 p) t1 (l1_index p) Hok T3 W1 I1).
Qed.

(** Pointing the entry of a page that has none to a frame. *)
Lemma boot_leaf root m s t1 p f flags :
  boot_inv root m s → walk m root (path3 p) = Some t1 → boot_translate m root p = None →
  0 ≤ f < 2 ^ 52 → f mod PAGE_SIZE = 0 → flags_ok flags →
  let m' := set_entry m (frame_at t1) (l1_index p) (set_pointed_frame_unchecked (m t1 (l1_index p)) f flags) in
  boot_inv root m' s ∧ kept root (m, s) (m', s) ∧
  ∀ q, boot_translate m' root q = if page_key q =? page_key p then Some f else boot_translate m root q.
Proof.
  intros Hok W1 Hnone Hf Hm Hfl m'. pose proof Hok as [Hforest Hc Hz].
  destruct (boot_tables root p) as (_ & _ & _ & T3 & _ & _ & _ & I1).
  assert (clean (m t1 (l1_index p))) as Hcl by (apply Hc; by exists root, (path3 p)).
  destruct (set_frame_entry _ f flags Hcl Hf Hm Hfl) as (He & Hea & Hec).
  set (e := set_pointed_frame_unchecked (m t1 (l1_index p)) f flags) in *.
  destruct (leaf_set_entry (boot_depth root) m s root (path3 p) (frame_at t1) (l1_index p) e Hforest T3 W1
    (boot_leaf_path root p)) as (Hok' & Hnow & Hrest & _ & Htab). fold m' in Hok', Hnow, Hrest, Htab.
  split; [split; [done| |done]|split].
  - intros b j Hb%Htab. unfold m', set_entry. destruct (_ && _); [exact Hec|by apply Hc].
  - split; cbn [fst snd].
    2: { intros b [Hnt Hnf]. assert (b ≠ t1) as Hbt by (intros ->; apply Hnt; by exists root, (path3 p)). split; [split; [|done]|].
      - intros Hb%Htab. done.
      - intros j. unfold m', set_entry. change (frame_addr (frame_at t1)) with t1. by rewrite (proj2 (Z.eqb_neq b t1)). }
    intros js b Hjs Hb. unfold m'. rewrite (walk_set_entry (boot_depth root) m s root (path3 p)); [done|apply Hforest|done|done|by left|].
    intros [_ Hpre%prefix_length]. destruct js as [|j js]; simpl in *; [lia|].
    destruct Hjs as (d & (_ & _ & ->)%boot_depth_spec & Hl & _). lia.
  - intros q. unfold boot_translate. destruct (Z.eqb_spec (page_key q) (page_key p)) as [E|E].
    + rewrite (proj2 (boot_path_key q p) E). change (boot_path p) with (path4 p). by rewrite Hnow, He, Hea.
    + apply Hrest; [apply boot_leaf_path|]. intros Hp%(f_equal snd). apply E, boot_path_key. exact Hp.
Qed.

Lemma same_translate root m m' q : same_pages (boot_depth root) m m' → boot_translate m' root q = boot_translate m root q.
Proof. intros [Hl _]. apply Hl, boot_leaf_path. Qed.

Lemma starved_later s s' : rtc take_one s s' → boot_starved s' → boot_starved s.
Proof. intros Hs (s1 & s2 & e & Hs1 & Ha). exists s1, s2, e. split; [by etrans|done]. Qed.

(** The tables on the way to a page: all three are there, or one is missing and the
    firmware has no frame for it. *)
Lemma boot_descend root m s p :
  boot_inv root m s → ∃ r m' s', boot_inv root m' s' ∧ same_pages (boot_depth root) m m' ∧ kept root (m, s) (m', s') ∧ rtc take_one s s' ∧
    (∀ f flags, try_map_page_with m root p f flags s =
      match r with
      | Err e => Ret (Err (AllocationError e), m', s')
      | Ok t1 => e ← entry_at m' (frame_at t1) (l1_index p);
          match set_pointed_frame e f flags with
          | Ok e => Ret (Ok tt, set_entry m' (frame_at t1) (l1_index p) e, s')
          | Err _ => Ret (Err BootAlreadyMapped, m', s')
          end
      end) ∧
    match r with
    | Ok t1 => walk m' root (path3 p) = Some t1
    | Err _ => boot_translate m root p = None ∧ boot_starved s
    end.
Proof.
  intros Hok. destruct (boot_tables root p) as (T0 & T1 & T2 & T3 & I4 & I3 & I2 & I1). unfold try_map_page_with.
  destruct (create_child_ok root m s [] root _ Hok T0 eq_refl T1 I4) as (r1 & m1 & s1 & -> & Hok1 & Hs1 & Hk1 & Ha1 & Hr1).
  cbn [mbind outcome_bind]. destruct r1 as [t3|e1].
  2:{ destruct Hr1 as [Hn Hst]. exists (Err e1), m1, s1. split_and!; try done. by eapply walk_none. }
  destruct (create_child_ok root m1 s1 _ t3 _ Hok1 T1 Hr1 T2 I3) as (r2 & m2 & s2 & -> & Hok2 & Hs2 & Hk2 & Ha2 & Hr2).
  cbn [mbind outcome_bind]. destruct r2 as [t2|e2].
  2:{ destruct Hr2 as [Hn Hst]. exists (Err e2), m2, s2. split_and!; try done; [by etrans|by etrans|by etrans| |by eapply starved_later].
      rewrite <-(same_translate root m m1) by done. by eapply walk_none. }
  destruct (create_child_ok root m2 s2 _ t2 _ Hok2 T2 Hr2 T3 I2) as (r3 & m3 & s3 & -> & Hok3 & Hs3 & Hk3 & Ha3 & Hr3).
  cbn [mbind outcome_bind]. assert (same_pages (boot_depth root) m m2) as Hs by by etrans.
  exists r3, m3, s3. split_and!; [done|by etrans|by do 2 (etrans; [done|])|by do 2 (etrans; [done|])|by intros; destruct r3|].
  destruct r3 as [t1|e3]; [done|]. destruct Hr3 as [Hn Hst]. split; [|by eapply starved_later; [etrans|]].
  rewrite <-(same_translate root m m2) by done. by eapply walk_none.
Qed.

Definition mapped_as (m m' : memory) (root p f : Z) : Prop :=
  ∀ q, boot_translate m' root q = if page_key q =? page_key p then Some f else boot_translate m root q.

Lemma boot_map_ok root m s p f flags :
  boot_inv root m s → 0 ≤ f < 2 ^ 52 → f mod PAGE_SIZE = 0 → flags_ok flags →
  ∃ r m' s', try_map_page_with m root p f flags s = Ret (r, m', s') ∧ boot_inv root m' s' ∧ kept root (m, s) (m', s') ∧ rtc take_one s s' ∧
    match r with
    | Ok _ => boot_translate m root p = None ∧ mapped_as m m' root p f
    | Err BootAlreadyMapped => is_Some (boot_translate m root p) ∧ ∀ q, boot_translate m' root q = boot_translate m root q
    | Err (AllocationError _) => boot_translate m root p = None ∧ boot_starved s ∧
        ∀ q, boot_translate m' root q = boot_translate m root q
    end.
Proof.
  intros Hok Hf Hm Hfl. destruct (boot_descend root m s p Hok) as (r & m1 & s1 & Hok1 & Hs & Hk & Ha & Hmap & Hr).
  rewrite Hmap. destruct r as [t1|e]; [|destruct Hr; exists (Err (AllocationError e)), m1, s1; split_and!; try done; by intros; apply same_translate].
  destruct (boot_tables root p) as (_ & _ & _ & T3 & _ & _ & _ & I1). rewrite entry_at_ok by done. cbn [mbind outcome_bind].
  change (frame_addr (frame_at t1)) with t1. assert (boot_translate m1 root p = next m1 t1 (l1_index p)) as Hl.
  { change (boot_translate m1 root p) with (walk m1 root (path4 p)). by rewrite walk_snoc, Hr. }
  assert (clean (m1 t1 (l1_index p))) as Hcl by (apply (boot_clean root m1 s1 Hok1); by exists root, (path3 p)).
  unfold set_pointed_frame. rewrite boot_pointed_frame_ok by done. unfold next in Hl. rewrite <-(same_translate root m m1 p Hs), Hl.
  destruct (is_present (m1 t1 (l1_index p))) eqn:Hp.
  - exists (Err BootAlreadyMapped), m1, s1. split_and!; try done. intros. by apply same_translate.
  - destruct (boot_leaf root m1 s1 t1 p f flags) as (Hok2 & Hk2 & Hq); [done..|]. eexists (Ok tt), _, s1. split_and!; try done; [by etrans|].
    intros q. by rewrite Hq, (same_translate root m m1).
Qed.

(** ** Ranges *)

(** How far a page lies behind [start], in pages. *)
Definition pages_behind (start q : Z) : Z := (page_key q - page_key start) mod 2 ^ 36.

Lemma page_key_bounds p : 0 ≤ page_key p < 2 ^ 36.
Proof. apply Z.mod_pos_bound. done. Qed.

Lemma page_key_step start j : page_key (start + j * 4096) = (page_key start + j) mod 2 ^ 36.
Proof. unfold page_key. rewrite Z.div_add by done. by rewrite Zplus_mod_idemp_l. Qed.

Lemma pages_behind_step start j q :
  0 ≤ j < 2 ^ 36 → pages_behind start q = j ↔ page_key q = page_key (start + j * 4096).
Proof.
  intros Hj. rewrite page_key_step. unfold pages_behind. pose proof (page_key_bounds q). pose proof (page_key_bounds start).
  set (a := page_key q) in *. set (b := page_key start) in *. Z.div_mod_to_equations. lia.
Qed.

(** The tables with the first [k] pages of a range added. *)
Definition with_range (m : memory) (root page_start frame_start k q : Z) : option Z :=
  if pages_behind page_start q <? k then Some (frame_start + pages_behind page_start q * 4096) else boot_translate m root q.

Lemma with_range_0 m root ps fs q : with_range m root ps fs 0 q = boot_translate m root q.
Proof.
  unfold with_range. rewrite (proj2 (Z.ltb_ge _ _)); [done|]. apply Z.mod_pos_bound. done.
Qed.

Lemma with_range_step m root ps fs j q :
  0 ≤ j < 2 ^ 36 →
  with_range m root ps fs (j + 1) q =
    if page_key q =? page_key (ps + j * 4096) then Some (fs + j * 4096) else with_range m root ps fs j q.
Proof.
  intros Hj. pose proof (pages_behind_step ps j q Hj) as Hk. unfold with_range.
  destruct (Z.eqb_spec (page_key q) (page_key (ps + j * 4096))) as [E|E].
  - rewrite (proj2 Hk E). by rewrite (proj2 (Z.ltb_lt _ _)) by lia.
  - assert (pages_behind ps q ≠ j) by tauto. repeat case_Z; done || lia.
Qed.

Lemma with_range_fresh m root ps fs j :
  0 ≤ j < 2 ^ 36 → with_range m root ps fs j (ps + j * 4096) = boot_translate m root (ps + j * 4096).
Proof.
  intros Hj. unfold with_range. by rewrite (proj2 (pages_behind_step ps j _ Hj) eq_refl), (proj2 (Z.ltb_ge _ _)) by lia.
Qed.

Lemma map_range_ok root m0 ps fs flags n cnt j m s :
  boot_inv root m s → (∀ q, boot_translate m root q = with_range m0 root ps fs j q) →
  0 ≤ j → j + Z.of_nat cnt = n → n ≤ 2 ^ 36 → 0 ≤ ps → ps + n * 4096 ≤ usize_max →
  0 ≤ fs → fs + n * 4096 ≤ 2 ^ 52 → fs mod PAGE_SIZE = 0 → flags_ok flags →
  ∃ r m' s' k, map_range_from (seqZ j (Z.of_nat cnt)) m root ps fs flags s = Ret (r, m', s') ∧ boot_inv root m' s' ∧
    kept root (m, s) (m', s') ∧ rtc take_one s s' ∧ j ≤ k ≤ n ∧ (∀ q, boot_translate m' root q = with_range m0 root ps fs k q) ∧
    match r with
    | Ok _ => k = n
    | Err BootAlreadyMapped => k < n ∧ is_Some (boot_translate m0 root (ps + k * 4096))
    | Err (AllocationError _) => k < n ∧ boot_starved s
    end.
Proof.
  intros Hok Himg Hj0 Hn Hmax Hps Hpe Hfs Hfe Hm Hfl. revert j m s Hok Himg Hj0 Hn.
  induction cnt as [|cnt IH]; intros j m s Hok Himg Hj0 Hn.
  { exists (Ok tt), m, s, j. split_and!; try done; lia. }
  rewrite seqZ_cons by lia. cbn [map_range_from]. rewrite usize_mul_ok by lia. cbn [mbind outcome_bind].
  rewrite usize_add_ok by lia. cbn [mbind outcome_bind]. rewrite usize_add_ok by lia. cbn [mbind outcome_bind].
  destruct (boot_map_ok root m s (ps + j * 4096) (fs + j * 4096) flags) as (r & m1 & s1 & -> & Hok1 & Hk1 & Hs1 & Hr); [done|lia| |done|].
  { unfold PAGE_SIZE in *. by rewrite Z.mod_add. }
  cbn [mbind outcome_bind]. rewrite Himg, with_range_fresh in Hr by lia. destruct r as [[]|[|e]].
  - destruct (IH (Z.succ j) m1 s1 Hok1) as (r & m2 & s2 & k & Hrun & Hok2 & Hkept2 & Hst2 & Hk & Hq & Hres); [|lia|lia|].
    { intros q. destruct Hr as [_ Hr]. rewrite Hr, Himg. replace (Z.succ j) with (j + 1) by lia. by rewrite with_range_step by lia. }
    replace (Z.pred (Z.of_nat (Datatypes.S cnt))) with (Z.of_nat cnt) by lia. rewrite Hrun.
    exists r, m2, s2, k. split_and!; try done; [by etrans|by etrans|lia|lia|]. destruct r as [|[|]]; [done..|]. destruct Hres. split; [done|by eapply starved_later].
  - destruct Hr as [Hsome Hsame]. exists (Err BootAlreadyMapped), m1, s1, j. split_and!; try (done || lia).
    intros q. by rewrite Hsame, Himg.
  - destruct Hr as (_ & Hst & Hsame). exists (Err (AllocationError e)), m1, s1, j. split_and!; try (done || lia).
    intros q. by rewrite Hsame, Himg.
Qed.

(** ** A new table *)

Definition kernel_entry (t : Z) : Z := set_pointed_frame_unchecked boot_new_entry t PERMISSIVE.

Definition is_kernel_table (tables j a : Z) : bool := existsb (λ k, a =? tables + k * 4096) (seqZ 0 j).

Lemma is_kernel_table_spec tables j a : is_kernel_table tables j a = true ↔ ∃ k, 0 ≤ k < j ∧ a = tables + k * 4096.
Proof.
  unfold is_kernel_table. rewrite existsb_exists. split.
  - intros (k & Hk & E%Z.eqb_eq). apply list_elem_of_In, elem_of_seqZ in Hk. exists k. split; [lia|done].
  - intros (k & Hk & ->). exists k. split; [apply list_elem_of_In, elem_of_seqZ; lia|apply Z.eqb_refl].
Qed.

(** The memory after the first [j] turns of the loop. *)
Definition linked (m : memory) (root tables j : Z) : memory := λ a i,
  if (a =? root) && (256 <=? i) && (i <? 256 + j) then kernel_entry (tables + (i - 256) * 4096)
  else if is_kernel_table tables j a then boot_new_entry else m a i.

Lemma linked_step m root tables j a i :
  0 ≤ j → (∀ k, 0 ≤ k ≤ j → tables + k * 4096 ≠ root) →
  linked m root tables (j + 1) a i =
    if (a =? root) && (i =? 256 + j) then kernel_entry (tables + j * 4096)
    else if a =? tables + j * 4096 then boot_new_entry else linked m root tables j a i.
Proof.
  intros Hj Hne. unfold linked.
  assert (is_kernel_table tables (j + 1) a = is_kernel_table tables j a || (a =? tables + j * 4096)) as ->.
  { apply eq_true_iff_eq. rewrite orb_true_iff, !is_kernel_table_spec, Z.eqb_eq. split.
    - intros (k & Hk & ->). destruct (decide (k = j)) as [->|]; [by right|]. left. exists k. split; [lia|done].
    - intros [(k & Hk & ->)| ->]; [exists k|exists j]; (split; [lia|done]). }
  destruct (Z.eqb_spec a root) as [->|Ha]; cbn [andb].
  - assert (is_kernel_table tables j root = false) as ->.
    { apply not_true_iff_false. rewrite is_kernel_table_spec. intros (k & Hk & E). apply (Hne k); [lia|done]. }
    rewrite (proj2 (Z.eqb_neq root (tables + j * 4096))) by (intros E; by apply (Hne j)). cbn [orb].
    destruct (Z.eqb_spec i (256 + j)) as [->|]; [|repeat case_Z; cbn [andb]; done || lia].
    rewrite (proj2 (Z.leb_le _ _)), (proj2 (Z.ltb_lt _ _)) by lia. cbn [andb]. f_equal. lia.
  - by destruct (is_kernel_table tables j a), (a =? tables + j * 4096).
Qed.

Lemma link_from cnt j m0 m root tables :
  0 ≤ j → j + Z.of_nat cnt = 256 → (∀ k, 0 ≤ k < 256 → tables + k * 4096 ≠ root) →
  (∀ i, m0 root i = boot_new_entry) → (∀ a i, m a i = linked m0 root tables j a i) →
  ∃ m', for_each (seqZ j (Z.of_nat cnt)) (λ i m,
      let tab := tables + i * 4096 in
      let m := write_table m tab in
      e ← entry_at m (frame_at root) (i + 256);
      e ← expect_ok (set_pointed_frame e tab PERMISSIVE);
      Ret (set_entry m (frame_at root) (i + 256) e)) m = Ret m' ∧ ∀ a i, m' a i = linked m0 root tables 256 a i.
Proof.
  intros Hj Hn Hne H0' Hm. revert j m Hj Hn Hm. induction cnt as [|cnt IH]; intros j m Hj Hn Hm.
  { exists m. split; [done|]. by replace 256 with j by lia. }
  rewrite seqZ_cons by lia. cbn [for_each]. rewrite entry_at_ok by (unfold idx; lia). cbn [mbind outcome_bind].
  change (frame_addr (frame_at root)) with root.
  assert (write_table m (tables + j * 4096) root (j + 256) = boot_new_entry) as ->.
  { unfold write_table. case_Z; [done|]. rewrite Hm. unfold linked. rewrite Z.eqb_refl, (proj2 (Z.ltb_ge _ _)), andb_false_r by lia.
    by destruct (is_kernel_table tables j root). }
  change (set_pointed_frame boot_new_entry (tables + j * 4096) PERMISSIVE) with (Ok (A := Z) (E := Z) (kernel_entry (tables + j * 4096))).
  cbn [expect_ok mbind outcome_bind].
  replace (Z.pred (Z.of_nat (Datatypes.S cnt))) with (Z.of_nat cnt) by lia. apply IH; [lia|lia|].
  intros a i. rewrite <-Z.add_1_r, linked_step by (done || (intros; apply Hne; lia)).
  unfold set_entry, write_table. change (frame_addr (frame_at root)) with root. rewrite (Z.add_comm j 256). by rewrite Hm.
Qed.

Lemma next_linked m root tables a i :
  (∀ i, m root i = boot_new_entry) → (∀ k, 0 ≤ k < 256 → tables + k * 4096 ≠ root) →
  0 ≤ tables → tables + 256 * 4096 ≤ 2 ^ 52 → tables mod PAGE_SIZE = 0 →
  (a = root ∨ is_kernel_table tables 256 a = true) →
  next (linked m root tables 256) a i = (if (a =? root) && (256 <=? i) && (i <? 512) then Some (tables + (i - 256) * 4096) else None) ∧
  clean (linked m root tables 256 a i).
Proof.
  intros H0' Hne Ht He Hmod Ha. unfold next, linked. change (256 + 256) with 512.
  destruct ((a =? root) && (256 <=? i) && (i <? 512)) eqn:E.
  - apply andb_true_iff in E as [[_ ?%Z.leb_le]%andb_true_iff ?%Z.ltb_lt].
    destruct (set_frame_entry boot_new_entry (tables + (i - 256) * 4096) PERMISSIVE) as (Hp & Hadr & Hc);
      [apply boot_new_entry_clean|lia| |apply PERMISSIVE_ok|].
    { unfold PAGE_SIZE in *. by rewrite Z.mod_add. }
    unfold kernel_entry. by rewrite Hp, Hadr.
  - assert ((if is_kernel_table tables 256 a then boot_new_entry else m a i) = boot_new_entry) as ->.
    { destruct (is_kernel_table tables 256 a); [done|]. destruct Ha as [->|]; [done|done]. }
    split; [done|apply boot_new_entry_clean].
Qed.

Section new_table.
  Context (m m' : memory) (root tables : Z).
  Context (Hroot : ∀ i, m root i = boot_new_entry) (Hne : ∀ k, 0 ≤ k < 256 → tables + k * 4096 ≠ root).
  Context (Ht : 0 ≤ tables) (Hend : tables + 256 * 4096 ≤ 2 ^ 47) (Hmod : tables mod PAGE_SIZE = 0).
  Context (Hm' : ∀ a i, m' a i = linked m root tables 256 a i).

Lemma new_next a i :
  a = root ∨ is_kernel_table tables 256 a = true →
  next m' a i = (if (a =? root) && (256 <=? i) && (i <? 512) then Some (tables + (i - 256) * 4096) else None) ∧ clean (m' a i).
Proof using Hroot Hne Ht Hend Hmod Hm'.
  intros Ha. destruct (next_linked m root tables a i) as [Hn Hc]; [done..|lia|done|done|].
  unfold next in *. by rewrite Hm'.
Qed.

(** The new tree: the root and the tables of the upper half. *)
Lemma boot_new_walk il b :
  walk m' root il = Some b →
  il = [] ∧ b = root ∨ ∃ i, il = [i] ∧ 256 ≤ i < 512 ∧ b = tables + (i - 256) * 4096.
Proof using Hroot Hne Ht Hend Hmod Hm'.
  destruct il as [|i il]; cbn [walk]; [intros [= <-]; by left|].
  destruct (new_next root i) as [-> _]; [by left|]. rewrite Z.eqb_refl. cbn [andb].
  destruct (Z.leb_spec 256 i), (Z.ltb_spec i 512); cbn [andb mbind option_bind]; try done.
  assert (is_kernel_table tables 256 (tables + (i - 256) * 4096) = true) as Hk.
  { apply is_kernel_table_spec. exists (i - 256). split; [lia|done]. }
  destruct il as [|j il]; cbn [walk]; [intros [= <-]; right; by exists i|].
  destruct (new_next (tables + (i - 256) * 4096) j) as [-> _]; [by right|].
  by rewrite (proj2 (Z.eqb_neq _ root)) by (apply Hne; lia).
Qed.

Lemma new_table_ok (s : S) :
  alloc_inv s → (∀ g, alloc_free s g → frame_addr g ≠ 0 ∧ frame_addr g < 2 ^ 47) → mapped_addr root →
  ¬ alloc_free s (frame_at root) → (∀ k, 0 ≤ k < 256 → ¬ alloc_free s (frame_at (tables + k * 4096))) →
  boot_inv root m' s.
Proof using Hroot Hne Ht Hend Hmod Hm'.
  intros Hinv Hg Hmr Hfr Hfk. split; [split; [split|split]| |].
  - intros a il b Hp Hw. pose proof (boot_path_root _ _ _ Hp) as ->.
    apply boot_new_walk in Hw as [[-> ->]|(i & -> & Hi & ->)]; [done|]. split; [|apply Hfk; lia].
    split; [lia|]. unfold PAGE_SIZE in *. by rewrite Z.mod_add.
  - intros a il a' il' b Hp Hp' Hw Hw'.
    pose proof (boot_path_root _ _ _ Hp) as ->.
    pose proof (boot_path_root _ _ _ Hp') as ->.
    split; [done|]. apply boot_new_walk in Hw as [[-> ->]|(i & -> & Hi & ->)], Hw' as [[-> E]|(i' & -> & Hi' & E)]; [done| | |].
    + by destruct (Hne (i' - 256)); [lia|].
    + by destruct (Hne (i - 256)); [lia|].
    + f_equal. lia.
  - done.
  - intros g Hf. by apply Hg.
  - intros b i (a & il & Hp & Hw). pose proof (boot_path_root _ _ _ Hp) as ->.
    apply new_next. apply boot_new_walk in Hw as [[-> ->]|(j & -> & Hj & ->)]; [by left|right].
    apply is_kernel_table_spec. exists (j - 256). split; [lia|done].
  - intros g Hf. by apply Hg.
Qed.

Lemma new_translate p : boot_translate m' root p = None.
Proof using Hroot Hne Ht Hend Hmod Hm'.
  destruct (boot_translate m' root p) as [b|] eqn:E; [|done]. unfold boot_translate in E.
  apply boot_new_walk in E as [[? _]|(i & ? & _)]; done.
Qed.
End new_table.

(** The upper half of the root points to 256 tables in a row. *)
Definition kernel_half (m : memory) (root tables : Z) : Prop :=
  ∀ i, 0 ≤ i < 256 → next m root (256 + i) = Some (tables + i * 4096).

Lemma kernel_half_kept root m s m' s' tables : kept root (m, s) (m', s') → kernel_half m root tables → kernel_half m' root tables.
Proof.
  intros [Hk _] Hh i Hi. specialize (Hk [256 + i] (tables + i * 4096)). cbn [walk fst] in Hk. rewrite (Hh i Hi) in Hk.
  destruct (next m' root (256 + i)) as [b|] eqn:E; cbn [mbind option_bind] in Hk; [|apply Hk; [|done]];
    [f_equal; assert (Some b = Some (tables + i * 4096)) as [= ->]; [apply Hk; [|done]|done]|];
    (apply boot_table_path; [apply Forall_cons_2; [unfold idx; lia|apply Forall_nil_2]|simpl; lia]).
Qed.

(** The frames the firmware can give are neither at 0 nor above the first half of the
    address space. *)
Definition firmware_ok (s : S) : Prop := alloc_inv s ∧ ∀ g, alloc_free s g → frame_addr g ≠ 0 ∧ frame_addr g < 2 ^ 47.

Definition take_some (s s' : S) : Prop := ∃ n r, allocate_contiguous s n = Ret (r, s').

(** The firmware refused a request on the way from [s] on. *)
Definition refused (s : S) : Prop :=
  ∃ s1 s2 n e, rtc take_some s s1 ∧ allocate_contiguous s1 n = Ret (Err e, s2).

Lemma boot_allocate_ok s n :
  firmware_ok s → 0 < n ≤ usize_max →
  ∃ r s', boot_allocate s n = Ret (r, s') ∧ firmware_ok s' ∧ take_some s s' ∧
    match r with
    | Ok a => wf_frame (frame_at a) ∧ (∀ i, 0 ≤ i < n → alloc_free s (frame_at (a + i * 4096))) ∧
        (∀ g, alloc_free s' g → alloc_free s g ∧ ∀ i, 0 ≤ i < n → g ≠ frame_at (a + i * 4096))
    | Err e => allocate_contiguous s n = Ret (Err e, s')
    end.
Proof.
  intros [Hinv Hg] Hn. destruct (alloc_contiguous_law s n Hinv Hn) as (r & s' & Ha & Hinv' & Hr).
  assert (take_some s s') by (by exists n, r).
  unfold boot_allocate. rewrite Ha. cbn [mbind outcome_bind]. destruct r as [f|e].
  - destruct Hr as (Hwf & _ & Hrun & Hfree). exists (Ok (frame_addr f)), s'. split_and!; [done|split; [done|]|done|by rewrite frame_eta| |].
    + intros g [Hf _]%Hfree. by apply Hg.
    + intros i Hi. apply Hrun. by exists i.
    + intros g [Hf Hout]%Hfree. split; [done|]. intros i Hi ->. apply Hout. by exists i.
  - exists (Err e), s'. split_and!; [done|split; [done|]|done|done]. intros g Hf%Hr. by apply Hg.
Qed.

Lemma boot_new_ok m s :
  firmware_ok s →
  ∃ r m' s', boot_try_new m s = Ret (r, m', s') ∧ firmware_ok s' ∧ rtc take_some s s' ∧
    match r with
    | Ok root => boot_inv root m' s' ∧ (∀ p, boot_translate_page m' root p = Ret None) ∧ ∃ tables, kernel_half m' root tables
    | Err _ => refused s
    end.
Proof.
  intros Hfw. unfold boot_try_new. destruct (boot_allocate_ok s 1 Hfw ltac:(lia)) as (r & s1 & -> & Hfw1 & Ht1 & Hr).
  cbn [mbind outcome_bind]. destruct r as [root|e]; [|exists (Err e), m, s1; split_and!; [done|done|by apply rtc_once|by exists s, s1, 1, e]].
  destruct Hr as ([[Hr0 Hr1] Hrm] & Hrf & Hrs). pose proof (Hrf 0 ltac:(lia)) as Hrfree. rewrite Z.mul_0_l, Z.add_0_r in Hrfree.
  destruct Hfw as [_ Hg]. destruct (Hg _ Hrfree) as [Hrnz Hrlt]. cbn [frame_addr frame_base pa_addr] in Hr0, Hr1, Hrm, Hrnz, Hrlt.
  assert (table_ptr_ok root = true) as ->.
  { unfold table_ptr_ok. apply andb_true_iff. split; [|by apply negb_true_iff, Z.eqb_neq].
    apply Z.eqb_eq. unfold PAGE_SIZE in Hrm. Z.div_mod_to_equations. lia. }
  cbn [assert mbind outcome_bind].
  destruct (boot_allocate_ok s1 256 Hfw1 ltac:(lia)) as (r & s2 & -> & Hfw2 & Ht2 & Hr). cbn [mbind outcome_bind].
  assert (rtc take_some s s2) as Hsteps by (by eapply rtc_l; [|apply rtc_once]).
  destruct r as [tables|e]; [|eexists (Err e), _, s2; split_and!; [done|done|done|exists s1, s2, 256, e; split; [by apply rtc_once|done]]]. destruct Hr as ([[Ht0 _] Htm] & Htf & Hts).
  cbn [frame_addr frame_base pa_addr] in Ht0, Htm.
  assert (∀ k, 0 ≤ k < 256 → tables + k * 4096 ≠ root) as Hne.
  { intros k Hk E. destruct (Hrs _ (Htf k Hk)) as [_ Hn]. apply (Hn 0); [lia|]. by rewrite E, Z.mul_0_l, Z.add_0_r. }
  destruct (Hg (frame_at (tables + 255 * 4096))) as [_ Hlast]; [apply Hrs, Htf; lia|].
  cbn [frame_addr frame_base pa_addr] in Hlast.
  destruct (link_from 256 0 (write_table m root) (write_table m root) root tables) as (m' & Hl & Hm'); [done|done|done| | |].
  { intros i. unfold write_table. by rewrite Z.eqb_refl. }
  { intros a i. unfold linked. assert (is_kernel_table tables 0 a = false) as -> by done.
    repeat case_Z; cbn [andb]; done || lia. }
  change (link_kernel_tables (write_table m root) root tables = Ret m') in Hl. rewrite Hl. cbn [mbind outcome_bind].
  assert (∀ i, write_table m root root i = boot_new_entry) as Hroot by (intros i; unfold write_table; by rewrite Z.eqb_refl).
  assert (tables + 256 * 4096 ≤ 2 ^ 47) as Hend by (unfold PAGE_SIZE in *; Z.div_mod_to_equations; lia).
  assert (boot_inv root m' s2) as Hok.
  { apply (new_table_ok (write_table m root) m' root tables); try done; [apply Hfw2|apply Hfw2| |intros k Hk Hf].
    - intros Hf. destruct (Hts _ Hf) as [Hf1 _]. destruct (Hrs _ Hf1) as [_ Hn]. apply (Hn 0); [lia|]. by rewrite Z.mul_0_l, Z.add_0_r.
    - destruct (Hts _ Hf) as [_ Hn]. by apply (Hn k). }
  exists (Ok root), m', s2. split_and!; try done.
  - intros p. rewrite (boot_translate_ok root m' s2) by done. by rewrite (new_translate (write_table m root) m' root tables).
  - exists tables. intros i Hi. destruct (new_next (write_table m root) m' root tables Hroot Hne Ht0 Hend Htm Hm' root (256 + i)) as [-> _];
      [by left|]. rewrite Z.eqb_refl, (proj2 (Z.leb_le _ _)), (proj2 (Z.ltb_lt _ _)) by lia. cbn [andb]. do 2 f_equal. lia.
Qed.

Lemma boot_new_result m s root m' s' :
  firmware_ok s → boot_try_new m s = Ret (Ok root, m', s') →
  boot_inv root m' s' ∧ (∀ p, boot_translate m' root p = None) ∧ ∃ tables, kernel_half m' root tables.
Proof.
  intros Hfw Hn. destruct (boot_new_ok m s Hfw) as (r & m1 & s1 & Hn1 & _ & _ & Hr). rewrite Hn in Hn1.
  injection Hn1 as <- <- <-. destruct Hr as (Hok & Hempty & Hh). split_and!; [done| |done].
  intros p. specialize (Hempty p). rewrite (boot_translate_ok root m' s') in Hempty by done. by injection Hempty.
Qed.

(** ** Properties *)

(** A new table maps nothing, has one table for each entry of the upper half, in
    a row, and is ready for the operations below; there is no panic, and an error only
    when the firmware refuses a request. *)
Theorem boot_new_table m s :
  firmware_ok s →
  ∃ r m' s', boot_try_new m s = Ret (r, m', s') ∧ firmware_ok s' ∧
    match r with
    | Ok root => boot_inv root m' s' ∧ (∀ p, boot_translate_page m' root p = Ret None) ∧ ∃ tables, kernel_half m' root tables
    | Err _ => refused s
    end.
Proof. intros Hfw. destruct (boot_new_ok m s Hfw) as (r & m' & s' & Hrun & Hfw' & _ & Hr). by exists r, m', s'. Qed.

(** [try_map_page_with] maps a page that was not mapped to its frame and changes
    no other page, or refuses a page that is mapped or for whose tables the firmware
    has no frame, and then changes no page; it never panics. *)
Theorem boot_map_page root m s p f flags :
  boot_inv root m s → 0 ≤ f < 2 ^ 52 → f mod PAGE_SIZE = 0 → flags_ok flags →
  ∃ r m' s', try_map_page_with m root p f flags s = Ret (r, m', s') ∧ boot_inv root m' s' ∧
    match r with
    | Ok _ => boot_translate_page m root p = Ret None ∧
        ∀ q, boot_translate_page m' root q = if page_key q =? page_key p then Ret (Some f) else boot_translate_page m root q
    | Err BootAlreadyMapped => boot_translate_page m root p ≠ Ret None ∧
        ∀ q, boot_translate_page m' root q = boot_translate_page m root q
    | Err (AllocationError _) => boot_translate_page m root p = Ret None ∧ boot_starved s ∧
        ∀ q, boot_translate_page m' root q = boot_translate_page m root q
    end.
Proof.
  intros Hok Hf Hm Hfl. destruct (boot_map_ok root m s p f flags Hok Hf Hm Hfl) as (r & m' & s' & Hrun & Hok' & _ & _ & Hr).
  exists r, m', s'. split_and!; [done|done|]. rewrite (boot_translate_ok root m s p Hok).
  assert (∀ q, boot_translate m' root q = boot_translate m root q →
    boot_translate_page m' root q = boot_translate_page m root q) as Heq.
  { intros q E. by rewrite (boot_translate_ok root m s), (boot_translate_ok root m' s'), E. }
  destruct r as [[]|[|e]].
  - destruct Hr as [-> Hq]. split; [done|]. intros q. rewrite (boot_translate_ok root m' s'), (boot_translate_ok root m s), Hq by done.
    by case_match.
  - destruct Hr as [[x ->] Hq]. split; [done|]. intros q. apply Heq, Hq.
  - destruct Hr as (-> & Hst & Hq). split_and!; [done..|]. intros q. apply Heq, Hq.
Qed.

(** [try_map_range_with] maps a range of pages to a range of frames in order and
    changes no other page; when it refuses, it has mapped the pages before the one
    that is mapped already or for whose tables the firmware has no frame. *)
Theorem boot_map_range root m s ps fs n flags :
  boot_inv root m s → 0 ≤ n ≤ 2 ^ 36 → 0 ≤ ps → ps + n * 4096 ≤ usize_max →
  0 ≤ fs → fs + n * 4096 ≤ 2 ^ 52 → fs mod PAGE_SIZE = 0 → flags_ok flags →
  ∃ r m' s' k, try_map_range_with m root ps fs n flags s = Ret (r, m', s') ∧ boot_inv root m' s' ∧ 0 ≤ k ≤ n ∧
    (∀ q, boot_translate_page m' root q = Ret (with_range m root ps fs k q)) ∧
    match r with
    | Ok _ => k = n
    | Err BootAlreadyMapped => k < n ∧ boot_translate_page m root (ps + k * 4096) ≠ Ret None
    | Err (AllocationError _) => k < n ∧ boot_starved s
    end.
Proof.
  intros Hok Hn Hps Hpe Hfs Hfe Hm Hfl. unfold try_map_range_with.
  destruct (map_range_ok root m ps fs flags n (Z.to_nat n) 0 m s Hok) as (r & m' & s' & k & Hrun & Hok' & _ & _ & Hk & Hq & Hr); try (done || lia).
  { intros q. by rewrite with_range_0. }
  rewrite Z2Nat.id in Hrun by lia. exists r, m', s', k. split_and!; try done; [lia|lia| |].
  - intros q. by rewrite (boot_translate_ok root m' s'), Hq.
  - destruct r as [|[|]]; [done| |done]. destruct Hr as [Hlt [x Hx]]. split; [done|].
    by rewrite (boot_translate_ok root m s), Hx.
Qed.

(** The calls of the bootloader on its tables, with the pages that were mapped so far
    and the frames that were asked for, the last call first. *)
Inductive boot_step (root : Z) : memory * S * list (Z * Z) → memory * S * list (Z * Z) → Prop :=
  | boot_step_map m s calls p f flags r m' s' :
      0 ≤ f < 2 ^ 52 → f mod PAGE_SIZE = 0 → flags_ok flags →
      try_map_page_with m root p f flags s = Ret (r, m', s') →
      boot_step root (m, s, calls) (m', s', match r with Ok _ => (p, f) :: calls | Err _ => calls end).

(** The frame that was asked for a page. *)
Fixpoint mapped_to (calls : list (Z * Z)) (q : Z) : option Z :=
  match calls with
  | [] => None
  | (p, f) :: calls => if page_key q =? page_key p then Some f else mapped_to calls q
  end.

(** Tables that hold the calls and nothing else. *)
Definition boot_holds (root tables : Z) (c : memory * S * list (Z * Z)) : Prop :=
  boot_inv root c.1.1 c.1.2 ∧ kernel_half c.1.1 root tables ∧ ∀ q, boot_translate c.1.1 root q = mapped_to c.2 q.

Lemma boot_steps_keep root tables c c' : rtc (boot_step root) c c' → boot_holds root tables c → boot_holds root tables c'.
Proof.
  induction 1 as [|c c1 c' Hst _ IH]; [done|]. intros (Hok & Hh & Hq). apply IH. destruct Hst as [m s calls p f flags r m' s' Hf Hm Hfl Hrun].
  destruct (boot_map_ok root m s p f flags Hok Hf Hm Hfl) as (r1 & m1 & s1 & Hrun1 & Hok1 & Hk1 & _ & Hr).
  rewrite Hrun in Hrun1. injection Hrun1 as -> -> ->. cbn [fst snd] in Hq. unfold boot_holds. cbn [fst snd].
  split_and!; [done|by eapply kernel_half_kept|]. intros q. destruct r1 as [[]|[|e]].
  - destruct Hr as [_ Hr]. rewrite Hr. cbn [mapped_to]. by rewrite <-Hq.
  - destruct Hr as [_ Hr]. by rewrite Hr.
  - destruct Hr as (_ & _ & Hr). by rewrite Hr.
Qed.
End boot_forest.
