(* ===== verification/BootHandover.v ===== *)
(** * BootHandover: from the bootloader's tables to the kernel's

    The tables that the bootloader builds are what the kernel finds in [cr3]: they
    keep the invariant that the kernel's page table code needs from its first call
    on, and a page leads to the frame of the call that mapped it, or nowhere. *)

From stdpp Require Import base gmap list numbers option.
From S2P Require Import Prelude Memory Allocator Bitmap PageTable Walk Paging AddressSpace BootPaging.

Open Scope Z_scope.

(** The tables of a system with one address space. *)
Definition boot_spaces (root tables : Z) : Tables := mkTables [frame_at root] (frame_at tables).

Section handover.
  Context {S : Type} `{LawfulAllocator S}.
  Context (root tables : Z) (m : memory) (s : S).
  Context (Hok : boot_inv root m s) (Hhalf : kernel_half m root tables).

  Local Abbreviation T := (boot_spaces root tables).

Lemma kpdpt_walk k js : 0 ≤ k < 256 → walk m (kpdpt T k) js = walk m root ((256 + k) :: js).
Proof using Hhalf. intros Hk. cbn [walk]. by rewrite (Hhalf k Hk). Qed.

Lemma kernel_table_path k : 0 ≤ k < 256 → table_path (boot_depth root) root [256 + k].
Proof. intros Hk. apply boot_table_path; [apply Forall_cons_2; [unfold idx; lia|apply Forall_nil_2]|simpl; lia]. Qed.

Lemma root_not_kernel k : 0 ≤ k < 256 → kpdpt T k ≠ root.
Proof using Hok Hhalf.
  intros Hk E. destruct Hok as [(Hf & _) _ _].
  destruct (table_unique _ _ _ Hf root [] root [256 + k] root) as [_ ?]; [|by apply kernel_table_path|done| |done].
  - by apply boot_table_path; [apply Forall_nil_2|simpl; lia].
  - cbn [walk]. rewrite (Hhalf k Hk). cbn [mbind option_bind]. by f_equal.
Qed.

Lemma is_kpdpt_inv a : is_kpdpt T a = true → ∃ k, 0 ≤ k < 256 ∧ a = kpdpt T k.
Proof.
  unfold is_kpdpt, kpdpt. rewrite !andb_true_iff, Z.leb_le, Z.ltb_lt, Z.eqb_eq.
  cbn [ktable boot_spaces frame_addr frame_base pa_addr]. unfold PAGE_SIZE. intros [[Hl Hu] Hm].
  exists ((a - tables) / 4096). Z.div_mod_to_equations. lia.
Qed.

(** Where the kernel's tables lie in the bootloader's tree. *)
Inductive from_boot (a : Z) (il : list Z) : list Z → Prop :=
  | from_root : a = root → (∀ i js, il = i :: js → i < 256) → from_boot a il il
  | from_kernel k : 0 ≤ k < 256 → a = kpdpt T k → from_boot a il ((256 + k) :: il).

Lemma to_boot a il :
  table_path (depth_of T) a il →
  ∃ js, from_boot a il js ∧ table_path (boot_depth root) root js ∧ walk m a il = walk m root js.
Proof using Hhalf.
  intros Hp. assert (∃ i d, depth_of T a i = Some d) as (i & d & Hd) by (destruct il; naive_solver).
  assert (a = root ∨ a ≠ root ∧ ∃ k, 0 ≤ k < 256 ∧ a = kpdpt T k) as Ha.
  { unfold depth_of in Hd. destruct (is_ttable T a) eqn:E.
    - left. apply is_ttable_true in E as (t & Ht%list_elem_of_singleton & <-). by rewrite Ht.
    - right. destruct (is_kpdpt T a) eqn:Ek; [|done]. split; [|by apply is_kpdpt_inv].
      intros ->. apply not_true_iff_false in E. apply E, is_ttable_true. exists (frame_at root). split; [by left|done]. }
  assert (∀ i d, depth_of T root i = Some d → 0 ≤ i < 256 ∧ d = 3%nat) as Hroot.
  { intros j d' Hj. unfold depth_of in Hj. rewrite (proj2 (is_ttable_true T root)) in Hj by (exists (frame_at root); split; [by left|done]).
    destruct (Z.leb_spec 0 j), (Z.ltb_spec j 256); simplify_eq/=; lia. }
  destruct Ha as [->|[Hne (k & Hk & ->)]].
  - exists il. destruct il as [|j il].
    + split_and!; [by constructor|by apply boot_table_path; [apply Forall_nil_2|simpl; lia]|done].
    + destruct Hp as (d' & [Hj ->]%Hroot & Hl & Hi). split_and!; [constructor; [done|naive_solver lia]| |done].
      apply boot_table_path; [apply Forall_cons_2; [unfold idx; lia|done]|simpl; lia].
  - exists ((256 + k) :: il). split_and!; [by eapply from_kernel| |by apply kpdpt_walk].
    assert (∀ j d', depth_of T (kpdpt T k) j = Some d' → idx j ∧ d' = 2%nat) as Hker.
    { intros j d' Hj. unfold depth_of in Hj. destruct (is_ttable T (kpdpt T k)) eqn:E.
      - apply is_ttable_true in E as (t & Ht%list_elem_of_singleton & E). by rewrite Ht in E.
      - rewrite is_kpdpt_true in Hj by done. unfold idx. destruct (Z.leb_spec 0 j), (Z.ltb_spec j 512); simplify_eq/=; lia. }
    destruct il as [|j il]; [by apply kernel_table_path|]. destruct Hp as (d' & [Hj ->]%Hker & Hl & Hi).
    apply boot_table_path; [do 2 (apply Forall_cons_2; [first [done|unfold idx; lia]|]); done|simpl; lia].
Qed.

Lemma handover_spaces : spaces_ok T m s.
Proof using Hok Hhalf.
  pose proof Hok as [(Hf & Hrest) _ _]. split_and!; [split; [split|done]| |].
  - intros a il b Hp Hw. destruct (to_boot a il Hp) as (js & _ & Hjs & E). rewrite E in Hw. by apply (table_ok _ m s Hf root js).
  - intros a il a' il' b Hp Hp' Hw Hw'. destruct (to_boot a il Hp) as (js & Hb & Hjs & E), (to_boot a' il' Hp') as (js' & Hb' & Hjs' & E').
    rewrite E in Hw. rewrite E' in Hw'. destruct (table_unique _ m s Hf root js root js' b Hjs Hjs' Hw Hw') as [_ Ejs].
    destruct Hb as [-> Hlow|k Hk ->], Hb' as [-> Hlow'|k' Hk' ->].
    + done.
    + specialize (Hlow _ _ Ejs). lia.
    + specialize (Hlow' _ _ (eq_sym Ejs)). lia.
    + injection Ejs as Ek ->. assert (k = k') as -> by lia. done.
  - apply Forall_cons_2; [|apply Forall_nil_2]. apply not_true_iff_false. intros (k & Hk & E)%is_kpdpt_inv.
    by apply (root_not_kernel k).
  - apply Forall_cons_2; [|apply Forall_nil_2]. exact Hhalf.
Qed.

Lemma handover_lookup sp p :
  handled T sp p → lookup m T sp p = (λ b, frame_at b) <$> boot_translate m root (page_addr p).
Proof using Hhalf.
  intros Hh. unfold lookup, boot_translate, boot_path.
  destruct (boot_indices (page_addr p)) as (E4 & E3 & E2 & E1). rewrite page_eta in *. rewrite E4, E3, E2, E1. f_equal.
  destruct sp as [t|].
  - destruct Hh as (_ & Ht%list_elem_of_singleton & _). by rewrite Ht.
  - pose proof (handled_index T p Hh) as Hi. cbn [root_of path_of top_of app]. rewrite (kpdpt_walk _ _ Hi).
    by replace (256 + (pml4_index p - 256)) with (pml4_index p) by lia.
Qed.
End handover.

(** ** Properties *)

(** C17. Whatever the bootloader maps in a new table, the kernel starts with tables
    that keep the invariant of its page table code: [construct_tables] finds them in
    [cr3], and the kernel's own lookup of a page of either half gives the frame of the
    call of [try_map_page_with] that mapped it, and none when no call did. *)
Theorem boot_hands_over {S : Type} `{LawfulAllocator S} m0 (s0 : S) root m1 s1 m2 s2 calls :
  firmware_ok s0 → boot_try_new m0 s0 = Ret (Ok root, m1, s1) → rtc (boot_step root) (m1, s1, []) (m2, s2, calls) →
  ∃ tables, spaces_ok (boot_spaces root tables) m2 s2 ∧
    construct_tables m2 root = Ret (frame_at tables, frame_at root) ∧
    ∀ sp p, handled (boot_spaces root tables) sp p →
      frame_addr <$> lookup m2 (boot_spaces root tables) sp p = mapped_to calls (page_addr p) ∧
      boot_translate_page m2 root (page_addr p) = Ret (mapped_to calls (page_addr p)).
Proof.
  intros Hfw Hnew Hsteps. destruct (boot_new_result m0 s0 root m1 s1 Hfw Hnew) as (Hok & Hempty & tables & Hhalf).
  destruct (boot_steps_keep root tables _ _ Hsteps) as (Hok2 & Hhalf2 & Hq); [done|]. cbn [fst snd] in *.
  pose proof (handover_spaces root tables m2 s2 Hok2 Hhalf2) as Hsp. exists tables. split_and!; [done| |].
  - pose proof (construct_tables_finds (boot_spaces root tables) m2 s2 (frame_at root) 0 Hsp) as Hc.
    rewrite Z.add_0_r in Hc. apply Hc; [by left|unfold PAGE_SIZE; lia].
  - intros sp p Hp. rewrite (boot_translate_ok root m2 s2), (handover_lookup root tables m2 Hhalf2 sp p Hp), Hq by done.
    split; [|done]. by destruct (mapped_to calls (page_addr p)).
Qed.

(** *** The properties at work *)

(** A firmware with 320 frames from 4096 on. *)
Definition demo_firmware : BitmapAllocator := mkBitmap (frame_at 0x1000) (replicate 40 0xff).

Definition demo_zero : memory := λ _ _, 0.

Lemma demo_firmware_ok : firmware_ok demo_firmware.
Proof.
  split.
  - split_and!; [split; [cbn; lia|done]|apply Forall_replicate; unfold word_ok; lia|vm_compute; discriminate].
  - intros g (n & -> & Hn). apply is_free_bounds in Hn. change (capacity demo_firmware) with 320 in Hn.
    unfold fr, PAGE_SIZE. cbn [frame_addr frame_base pa_addr first_frame demo_firmware]. lia.
Qed.

(** The tables it gives, and the memory and the firmware after that. *)
Definition demo_boot_memory : memory :=
  match boot_try_new demo_zero demo_firmware with Ret (_, m, _) => m | Panic _ => demo_zero end.
Definition demo_boot_state : BitmapAllocator :=
  match boot_try_new demo_zero demo_firmware with Ret (_, _, s) => s | Panic _ => demo_firmware end.

Lemma demo_boot_new : boot_try_new demo_zero demo_firmware = Ret (Ok 4096, demo_boot_memory, demo_boot_state).
Proof.
  assert (result_of (boot_try_new demo_zero demo_firmware) = Some (Ok 4096)) as Hr by (vm_compute; reflexivity).
  unfold demo_boot_memory, demo_boot_state. destruct (boot_try_new demo_zero demo_firmware) as [[[r m] s]|]; [|done].
  by injection Hr as ->.
Qed.

Lemma demo_boot_inv : boot_inv 4096 demo_boot_memory demo_boot_state.
Proof. exact (proj1 (boot_new_result _ _ _ _ _ demo_firmware_ok demo_boot_new)). Qed.

Lemma boot_new_table_witness :
  ∃ m s, boot_try_new demo_zero demo_firmware = Ret (Ok 4096, m, s) ∧ boot_inv 4096 m s.
Proof.
  assert (result_of (boot_try_new demo_zero demo_firmware) = Some (Ok 4096)) as Hres by (vm_compute; reflexivity).
  destruct (boot_new_table demo_zero demo_firmware demo_firmware_ok) as (r & m & s & Hn & _ & Hr).
  rewrite Hn in Hres. injection Hres as ->. exists m, s. split; [exact Hn|apply Hr].
Defined.

Lemma boot_map_page_witness :
  ∃ m s, try_map_page_with demo_boot_memory 4096 0x400000 0x7000 PERMISSIVE demo_boot_state = Ret (Ok tt, m, s) ∧
    boot_translate_page m 4096 0x400000 = Ret (Some 0x7000) ∧ boot_translate_page m 4096 0x401000 = Ret None.
Proof.
  assert (result_of (try_map_page_with demo_boot_memory 4096 0x400000 0x7000 PERMISSIVE demo_boot_state) = Some (Ok tt)) as Hres
    by (vm_compute; reflexivity).
  destruct (boot_map_page 4096 demo_boot_memory demo_boot_state 0x400000 0x7000 PERMISSIVE demo_boot_inv ltac:(lia) eq_refl PERMISSIVE_ok)
    as (r & m & s & Hm & _ & Hr). rewrite Hm in Hres. injection Hres as ->. destruct Hr as [_ Hr]. exists m, s.
  split; [exact Hm|]. rewrite !Hr. split; [reflexivity|vm_compute; reflexivity].
Defined.

Lemma boot_map_range_witness :
  ∃ m s, try_map_range_with demo_boot_memory 4096 0xffff800000000000 0x8000 3 PERMISSIVE demo_boot_state = Ret (Ok tt, m, s) ∧
    boot_translate_page m 4096 0xffff800000002000 = Ret (Some 0xa000).
Proof.
  assert (result_of (try_map_range_with demo_boot_memory 4096 0xffff800000000000 0x8000 3 PERMISSIVE demo_boot_state) = Some (Ok tt)) as Hres
    by (vm_compute; reflexivity).
  destruct (boot_map_range 4096 demo_boot_memory demo_boot_state 0xffff800000000000 0x8000 3 PERMISSIVE demo_boot_inv
    ltac:(lia) ltac:(lia) ltac:(lia) ltac:(lia) ltac:(lia) eq_refl PERMISSIVE_ok) as (r & m & s & k & Hm & _ & _ & Hq & Hr).
  rewrite Hm in Hres. injection Hres as ->. subst k. exists m, s. split; [exact Hm|]. rewrite Hq. vm_compute. reflexivity.
Defined.

Lemma boot_hands_over_witness :
  ∃ m s tables, try_map_page_with demo_boot_memory 4096 0x400000 0x7000 PERMISSIVE demo_boot_state = Ret (Ok tt, m, s) ∧
    construct_tables m 4096 = Ret (frame_at tables, frame_at 4096) ∧ spaces_ok (boot_spaces 4096 tables) m s ∧
    boot_translate_page m 4096 0x400000 = Ret (Some 0x7000).
Proof.
  assert (result_of (try_map_page_with demo_boot_memory 4096 0x400000 0x7000 PERMISSIVE demo_boot_state) = Some (Ok tt)) as Hres
    by (vm_compute; reflexivity).
  destruct (try_map_page_with demo_boot_memory 4096 0x400000 0x7000 PERMISSIVE demo_boot_state) as [[[r m] s]|] eqn:Hm; [|done].
  injection Hres as ->.
  destruct (boot_hands_over demo_zero demo_firmware 4096 demo_boot_memory demo_boot_state m s [(0x400000, 0x7000)] demo_firmware_ok demo_boot_new)
    as (tables & Hsp & Hc & Hp).
  { apply rtc_once, (boot_step_map 4096 demo_boot_memory demo_boot_state [] 0x400000 0x7000 PERMISSIVE (Ok tt) m s);
      [lia|reflexivity|exact PERMISSIVE_ok|exact Hm]. }
  exists m, s, tables. split_and!; [reflexivity|exact Hc|exact Hsp|].
  destruct (Hp (User (frame_at 4096)) (page_at 0x400000)) as [_ Ht]; [|exact Ht].
  split; [split; [cbn; lia|reflexivity]|split; [by left|cbn; lia]].
Defined.
