(* ===== verification/Elf.v ===== *)
(** * Elf: the reader of ELF files

    [elf/src/header/file.rs], [elf/src/header/program.rs] and [elf/src/lib.rs]: the
    headers of a file, its segments, and the way from an address of the program to
    the byte of the file that will be there.

    A file is a buffer of bytes at an address, which matters for alignment only.  A
    pointer into it is an offset.  The references to the headers live as long as the
    file, so that a write to what they refer to is undefined and the values read at
    the start stay. *)

From stdpp Require Import base gmap list numbers option.
From S2P Require Import Prelude.

Open Scope Z_scope.

Definition u64_at (l : list Z) (i : nat) : Z := u32_at l i + 2 ^ 32 * u32_at l (4 + i).

(** ** The file header *)

Inductive Width := Width32 | Width64.
Inductive Endianness := Little | Big.
Inductive Abi := SystemV.
Inductive ElfType := Relocatable | Executable | Shared | Core.
Inductive Isa :=
  | Nonspecific | Sparc | X86 | Mips | PowerPc | Arm | SuperH | Itanium | Amd64 | AArch64 | RiscV.

(** [TryFromPrimitive]: the variants by their discriminants. *)
Class TryFromPrimitive (A : Type) := discriminants : list (Z * A).

#[global] Instance width_primitive : TryFromPrimitive Width := [(1, Width32); (2, Width64)].
#[global] Instance endianness_primitive : TryFromPrimitive Endianness := [(1, Little); (2, Big)].
#[global] Instance abi_primitive : TryFromPrimitive Abi := [(0, SystemV)].
#[global] Instance type_primitive : TryFromPrimitive ElfType :=
  [(1, Relocatable); (2, Executable); (3, Shared); (4, Core)].
#[global] Instance isa_primitive : TryFromPrimitive Isa :=
  [(0, Nonspecific); (2, Sparc); (3, X86); (8, Mips); (0x14, PowerPc); (0x28, Arm); (0x2a, SuperH);
   (0x32, Itanium); (0x3e, Amd64); (0xb7, AArch64); (0xf3, RiscV)].

Fixpoint variant_of {A} (l : list (Z * A)) (n : Z) : option A :=
  match l with
  | [] => None
  | (k, a) :: l => if k =? n then Some a else variant_of l n
  end.

Definition try_from_primitive {A} `{TryFromPrimitive A} (n : Z) : option A := variant_of discriminants n.

Inductive ElfError :=
  | NoHeader | IncorrectAlign | WrongMagic
  | InvalidWidth (n : Z) | InvalidEndianness (n : Z) | InvalidAbi (n : Z) | InvalidType (n : Z) | InvalidIsa (n : Z).

(** [FileHeaderBit<T>], the part of the header whose layout depends on the width. *)
Record FileHeaderBit := mkHeaderBit {
  bit_entry_point : Z;
  bit_program_header_offset : Z;
  bit_section_header_offset : Z;
  bit_flags : Z;
  bit_header_size : Z;
  bit_program_header_entry_size : Z;
  bit_program_header_entry_count : Z;
  bit_section_header_entry_size : Z;
  bit_section_header_entry_count : Z;
  bit_string_table_index : Z
}.

(** The six last fields, from the byte after the flags on. *)
Definition read_header_bit (a b c flags : Z) (d : list Z) (i : nat) : FileHeaderBit :=
  mkHeaderBit a b c flags (u16_at d i) (u16_at d (2 + i)) (u16_at d (4 + i)) (u16_at d (6 + i)) (u16_at d (8 + i))
    (u16_at d (10 + i)).

Record FileHeader := mkFileHeader {
  magic : list Z;
  width : Width;
  endianness : Endianness;
  header_version : Z;
  abi : Abi;
  file_type : ElfType;
  isa : Isa;
  elf_version : Z;
  extra : list Z
}.

(** [extra._32] and [extra._64] of the union, chosen by the width. *)
Definition header_bit (h : FileHeader) : FileHeaderBit :=
  let d := extra h in
  match width h with
  | Width32 => read_header_bit (u32_at d 0) (u32_at d 4) (u32_at d 8) (u32_at d 12) d 16
  | Width64 => read_header_bit (u64_at d 0) (u64_at d 8) (u64_at d 16) (u32_at d 24) d 28
  end.

Definition entry_point (h : FileHeader) : Z := bit_entry_point (header_bit h).

(** The ranges of the two tables of headers, as pairs of their ends. *)
Definition program_header_range (h : FileHeader) : outcome (Z * Z) :=
  let start := bit_program_header_offset (header_bit h) in
  size ← usize_mul (bit_program_header_entry_size (header_bit h)) (bit_program_header_entry_count (header_bit h));
  end_ ← usize_add start size;
  Ret (start, end_).

Definition section_header_range (h : FileHeader) : outcome (Z * Z) :=
  let start := bit_section_header_offset (header_bit h) in
  size ← usize_mul (bit_section_header_entry_size (header_bit h)) (bit_section_header_entry_count (header_bit h));
  end_ ← usize_add start size;
  Ret (start, end_).

(** [TryFrom<&FileHeaderRaw>]: the enums are checked in this order. *)
Definition file_header_try_from (d : list Z) : result FileHeader ElfError :=
  match try_from_primitive (byte_at d 4) with None => Err (InvalidWidth (byte_at d 4)) | Some w =>
  match try_from_primitive (byte_at d 5) with None => Err (InvalidEndianness (byte_at d 5)) | Some en =>
  match try_from_primitive (byte_at d 7) with None => Err (InvalidAbi (byte_at d 7)) | Some ab =>
  match try_from_primitive (u16_at d 16) with None => Err (InvalidType (u16_at d 16)) | Some ty =>
  match try_from_primitive (u16_at d 18) with None => Err (InvalidIsa (u16_at d 18)) | Some is_ =>
  Ok (mkFileHeader (take 4 d) w en (byte_at d 6) ab ty is_ (u32_at d 20) (take 40 (drop 24 d)))
  end end end end end.

(** [size_of::<FileHeader>()] and its alignment. *)
Abbreviation SIZE_OF_HEADER := 64.
Abbreviation ALIGN_OF_HEADER := 8.

(** [FileHeader::try_new] on the bytes at an address. *)
Definition file_header_try_new (ptr : Z) (d : list Z) : result FileHeader ElfError :=
  if Z.of_nat (length d) <? SIZE_OF_HEADER then Err NoHeader else
  if negb (ptr mod ALIGN_OF_HEADER =? 0) then Err IncorrectAlign else
  match file_header_try_from d with
  | Err e => Err e
  | Ok h => if bool_decide (magic h = [0x7f; 0x45; 0x4c; 0x46]) then Ok h else Err WrongMagic
  end.

(** ** Program headers *)

Record ProgramHeaderEntry64 := mkSegment {
  segment_type : Z;
  segment_flags : Z;
  file_offset : Z;
  vaddr : Z;
  paddr : Z;
  file_size : Z;
  memory_size : Z;
  alignment : Z
}.

Abbreviation SIZE_OF_SEGMENT := 56.

(** The constants of [SegmentType] and [SegmentFlags] that the code uses. *)
Abbreviation LOAD := 1.
Abbreviation DYNAMIC := 2.
Abbreviation TLS := 7.
Abbreviation LowMem := 0x10000.

Definition read_segment (d : list Z) (i : nat) : ProgramHeaderEntry64 :=
  mkSegment (u32_at d i) (u32_at d (4 + i)) (u64_at d (8 + i)) (u64_at d (16 + i)) (u64_at d (24 + i))
    (u64_at d (32 + i)) (u64_at d (40 + i)) (u64_at d (48 + i)).

Definition file_location (s : ProgramHeaderEntry64) : outcome (Z * Z) :=
  end_ ← usize_add (file_offset s) (file_size s);
  Ret (file_offset s, end_).

Definition memory_location (s : ProgramHeaderEntry64) : outcome (Z * Z) :=
  end_ ← usize_add (vaddr s) (memory_size s);
  Ret (vaddr s, end_).

(** ** Files *)

Record File := mkFile {
  base : Z;
  header : FileHeader;
  program_header : list ProgramHeaderEntry64;
  section_header : list Z;
  data_ptr : Z;
  data : list Z
}.

Definition data_len (f : File) : Z := Z.of_nat (length (data f)).

(** [byte_add]: a pointer must stay inside its buffer or right behind it. *)
Definition byte_add (len off : Z) : outcome Z :=
  if (0 <=? off) && (off <=? len) then Ret off else Panic Undefined.

Definition file_try_new (ptr : Z) (d : list Z) : outcome (result File ElfError) :=
  if Z.of_nat (length d) <? SIZE_OF_HEADER then Panic IndexOutOfBounds else
  match file_header_try_new ptr (take 64 d) with Err e => Ret (Err e) | Ok h =>
  '(start, end_) ← program_header_range h;
  size ← usize_sub end_ start;
  count ← usize_div size (bit_program_header_entry_size (header_bit h));
  start ← byte_add (Z.of_nat (length d)) start;
  _ ← assert ((ptr + start) mod 8 =? 0);
  ph ← slice_unchecked d start (count * SIZE_OF_SEGMENT);
  let program_header := map (λ i, read_segment ph (56 * i)) (seq 0 (Z.to_nat count)) in
  '(start, end_) ← section_header_range h;
  size ← usize_sub end_ start;
  count ← usize_div size (bit_section_header_entry_size (header_bit h));
  start ← byte_add (Z.of_nat (length d)) start;
  sh ← slice_unchecked d start count;
  Ret (Ok (mkFile 0 h program_header sh ptr d))
  end.

(** [segments()] adds the base to each entry when it is looked at. *)
Definition rebase (f : File) (s : ProgramHeaderEntry64) : outcome ProgramHeaderEntry64 :=
  v ← usize_add (vaddr s) (base f);
  Ret (mkSegment (segment_type s) (segment_flags s) (file_offset s) v (paddr s) (file_size s) (memory_size s) (alignment s)).

(** [self.segments().find(p)]. *)
Fixpoint find_segment (f : File) (p : ProgramHeaderEntry64 → outcome bool) (l : list ProgramHeaderEntry64) :
    outcome (option ProgramHeaderEntry64) :=
  match l with
  | [] => Ret None
  | s :: l => s ← rebase f s; b ← p s; if (b : bool) then Ret (Some s) else find_segment f p l
  end.

(** A slice of the file is the range of its offsets. *)
Definition index_data (f : File) (r : Z * Z) : outcome (Z * Z) :=
  if (r.1 <=? r.2) && (r.2 <=? data_len f) then Ret r else Panic IndexOutOfBounds.

Definition ranges_overlap (a b : Z * Z) : bool := negb ((b.2 <=? a.1) || (a.2 <=? b.1)).

Definition index_data_mut (f : File) (r : Z * Z) : outcome (Z * Z) :=
  ph ← program_header_range (header f);
  sh ← section_header_range (header f);
  _ ← assert (negb (ranges_overlap r (0, SIZE_OF_HEADER)) && negb (ranges_overlap r ph) && negb (ranges_overlap r sh));
  index_data f r.

(** [segment.memory_location().contains(&addr)]. *)
Definition contains (addr : Z) (s : ProgramHeaderEntry64) : outcome bool :=
  '(a, b) ← memory_location s; Ret ((a <=? addr) && (addr <? b)).

Definition segment_for_address (f : File) (addr : Z) : outcome (option ProgramHeaderEntry64) :=
  find_segment f (contains addr) (program_header f).

Definition data_at_address (f : File) (addr : Z) : outcome (option Z) :=
  s ← segment_for_address f addr;
  match s with None => Ret None | Some s =>
  r ← file_location s;
  '(start, _) ← index_data f r;
  o ← usize_sub addr (vaddr s);
  ptr ← byte_add (data_len f) (start + o);
  Ret (Some ptr) end.

Definition data_at_address_mut (f : File) (addr : Z) : outcome (option Z) :=
  s ← segment_for_address f addr;
  match s with None => Ret None | Some s =>
  r ← file_location s;
  '(start, _) ← index_data_mut f r;
  o ← usize_sub addr (vaddr s);
  ptr ← byte_add (data_len f) (start + o);
  Ret (Some ptr) end.

Definition data_at_unrel_address (f : File) (addr : Z) : outcome (option Z) :=
  a ← usize_add addr (base f); data_at_address f a.

Definition data_at_unrel_address_mut (f : File) (addr : Z) : outcome (option Z) :=
  a ← usize_add addr (base f); data_at_address_mut f a.

(** ** Numbers as bytes *)

(** The [n] low bytes of a number, the lowest first. *)
Fixpoint le_bytes (n : nat) (v : Z) : list Z :=
  match n with O => [] | S n => v mod 256 :: le_bytes n (v / 256) end.

Lemma le_bytes_length n v : length (le_bytes n v) = n.
Proof. revert v. induction n as [|n IH]; intros v; simpl; [done|]. by rewrite IH. Qed.

Lemma le_bytes_byte n v : Forall is_byte (le_bytes n v).
Proof.
  revert v. induction n as [|n IH]; intros v; simpl; constructor; [|done]. apply Z.mod_pos_bound. lia.
Qed.

Lemma byte_at_skip l1 l2 i : byte_at (l1 ++ l2) (length l1 + i) = byte_at l2 i.
Proof. unfold byte_at. by rewrite lookup_app_r, Nat.add_comm, Nat.add_sub by lia. Qed.

Lemma u16_at_skip l1 l2 i : u16_at (l1 ++ l2) (length l1 + i) = u16_at l2 i.
Proof. unfold u16_at. by rewrite plus_n_Sm, !byte_at_skip. Qed.

Lemma u32_at_skip l1 l2 i : u32_at (l1 ++ l2) (length l1 + i) = u32_at l2 i.
Proof. unfold u32_at. by rewrite !plus_n_Sm, !u16_at_skip. Qed.

Lemma u64_at_skip l1 l2 i : u64_at (l1 ++ l2) (length l1 + i) = u64_at l2 i.
Proof.
  unfold u64_at. rewrite u32_at_skip. by replace (4 + (length l1 + i))%nat with (length l1 + (4 + i))%nat by lia; rewrite u32_at_skip.
Qed.

Lemma u16_at_le v l : u16_at (le_bytes 2 v ++ l) 0 = v mod 2 ^ 16.
Proof. unfold u16_at, byte_at. simpl. Z.div_mod_to_equations. lia. Qed.

Lemma u32_at_le v l : u32_at (le_bytes 4 v ++ l) 0 = v mod 2 ^ 32.
Proof.
  change (le_bytes 4 v) with (le_bytes 2 v ++ le_bytes 2 (v / 256 / 256)). unfold u32_at.
  rewrite <-app_assoc, u16_at_le, (u16_at_skip (le_bytes 2 v) _ 0), u16_at_le. Z.div_mod_to_equations. lia.
Qed.

Lemma u64_at_le v l : u64_at (le_bytes 8 v ++ l) 0 = v mod 2 ^ 64.
Proof.
  change (le_bytes 8 v) with (le_bytes 4 v ++ le_bytes 4 (v / 256 / 256 / 256 / 256)). unfold u64_at.
  rewrite <-app_assoc, u32_at_le, (u32_at_skip (le_bytes 4 v) _ 0), u32_at_le, !Z.div_div by lia.
  Z.div_mod_to_equations. lia.
Qed.

Lemma byte_at_le v l : byte_at (le_bytes 1 v ++ l) 0 = v mod 256.
Proof. done. Qed.

(** Steps over the part [p] of a buffer [p ++ l] that ends before the index. *)
Ltac skip_field read lem :=
  match goal with
  | |- context [read (?p ++ ?l) ?i] =>
      let k := eval cbn in (length p) in
      match eval cbv in (Nat.leb k i) with
      | true => let j := eval cbv in (i - k)%nat in
          change (read (p ++ l) i) with (read (p ++ l) (length p + j)%nat); rewrite (lem p l j)
      end
  end.

(** Reads the fields of a buffer that is written as a sequence of them. *)
Ltac read_fields :=
  repeat first
    [ rewrite byte_at_le | rewrite u16_at_le | rewrite u32_at_le | rewrite u64_at_le
    | skip_field byte_at byte_at_skip | skip_field u16_at u16_at_skip
    | skip_field u32_at u32_at_skip | skip_field u64_at u64_at_skip ].

(** ** Writing a file *)

Definition segment_bytes (s : ProgramHeaderEntry64) : list Z :=
  le_bytes 4 (segment_type s) ++ le_bytes 4 (segment_flags s) ++ le_bytes 8 (file_offset s) ++ le_bytes 8 (vaddr s) ++
  le_bytes 8 (paddr s) ++ le_bytes 8 (file_size s) ++ le_bytes 8 (memory_size s) ++ le_bytes 8 (alignment s) ++ [].

Definition segment_fits (s : ProgramHeaderEntry64) : Prop :=
  0 ≤ segment_type s < 2 ^ 32 ∧ 0 ≤ segment_flags s < 2 ^ 32 ∧ 0 ≤ file_offset s < 2 ^ 64 ∧ 0 ≤ vaddr s < 2 ^ 64 ∧
  0 ≤ paddr s < 2 ^ 64 ∧ 0 ≤ file_size s < 2 ^ 64 ∧ 0 ≤ memory_size s < 2 ^ 64 ∧ 0 ≤ alignment s < 2 ^ 64.

Lemma read_segment_bytes s : segment_fits s → read_segment (segment_bytes s) 0 = s.
Proof.
  intros (? & ? & ? & ? & ? & ? & ? & ?). destruct s; simpl in *. unfold read_segment, segment_bytes. cbn [Nat.add].
  f_equal; cbn [segment_type segment_flags file_offset vaddr paddr file_size memory_size alignment];
    read_fields; rewrite Z.mod_small by lia; done.
Qed.

(** What a file says about itself: a 64-bit file whose segments are listed right
    after the header. *)
Record Image := mkImage {
  im_endianness : Z;
  im_version : Z;
  im_type : Z;
  im_isa : Z;
  im_elf_version : Z;
  im_entry : Z;
  im_section_offset : Z;
  im_flags : Z;
  im_section_count : Z;
  im_string_index : Z;
  im_segments : list ProgramHeaderEntry64;
  im_rest : list Z
}.

Definition image_header (im : Image) : list Z :=
  [0x7f; 0x45; 0x4c; 0x46] ++ le_bytes 1 2 ++ le_bytes 1 (im_endianness im) ++ le_bytes 1 (im_version im) ++
  le_bytes 1 0 ++ le_bytes 8 0 ++ le_bytes 2 (im_type im) ++ le_bytes 2 (im_isa im) ++ le_bytes 4 (im_elf_version im) ++
  le_bytes 8 (im_entry im) ++ le_bytes 8 64 ++ le_bytes 8 (im_section_offset im) ++ le_bytes 4 (im_flags im) ++
  le_bytes 2 64 ++ le_bytes 2 56 ++ le_bytes 2 (Z.of_nat (length (im_segments im))) ++ le_bytes 2 64 ++
  le_bytes 2 (im_section_count im) ++ le_bytes 2 (im_string_index im) ++ [].

(** The bytes of such a file.  Its numbers are little-endian whatever the header says,
    because that is how [try_new] reads every file it accepts. *)
Definition image_bytes (im : Image) : list Z :=
  image_header im ++ concat (segment_bytes <$> im_segments im) ++ im_rest im.

Record image_ok (im : Image) : Prop := {
  image_endianness : is_Some (try_from_primitive (A:=Endianness) (im_endianness im));
  image_version : 0 ≤ im_version im < 256;
  image_type : is_Some (try_from_primitive (A:=ElfType) (im_type im));
  image_isa : is_Some (try_from_primitive (A:=Isa) (im_isa im));
  image_elf_version : 0 ≤ im_elf_version im < 2 ^ 32;
  image_entry : 0 ≤ im_entry im < 2 ^ 64;
  image_flags : 0 ≤ im_flags im < 2 ^ 32;
  image_string_index : 0 ≤ im_string_index im < 2 ^ 16;
  image_sections : 0 ≤ im_section_offset im ∧ 0 ≤ im_section_count im < 2 ^ 16 ∧
    im_section_offset im + 64 * im_section_count im ≤ usize_max ∧
    im_section_offset im + im_section_count im ≤ Z.of_nat (length (image_bytes im));
  image_segments : Forall segment_fits (im_segments im);
  image_count : Z.of_nat (length (im_segments im)) < 2 ^ 16
}.

Lemma byte_at_slice n k d i : (i < n)%nat → byte_at (take n (drop k d)) i = byte_at d (k + i).
Proof. intros. unfold byte_at. by rewrite lookup_take_lt, lookup_drop by lia. Qed.

Lemma u16_at_slice n k d i : (i + 2 ≤ n)%nat → u16_at (take n (drop k d)) i = u16_at d (k + i).
Proof. intros. unfold u16_at. rewrite !byte_at_slice by lia. by rewrite <-plus_n_Sm. Qed.

Lemma u32_at_slice n k d i : (i + 4 ≤ n)%nat → u32_at (take n (drop k d)) i = u32_at d (k + i).
Proof. intros. unfold u32_at. rewrite !u16_at_slice by lia. by rewrite <-!plus_n_Sm. Qed.

Lemma u64_at_slice n k d i : (i + 8 ≤ n)%nat → u64_at (take n (drop k d)) i = u64_at d (k + i).
Proof.
  intros. unfold u64_at. rewrite !u32_at_slice by lia. by replace (k + (4 + i))%nat with (4 + (k + i))%nat by lia.
Qed.

Lemma read_segment_slice n k d i : (i + 56 ≤ n)%nat → read_segment (take n (drop k d)) i = read_segment d (k + i).
Proof.
  intros. unfold read_segment. rewrite !u32_at_slice, !u64_at_slice by lia. f_equal; f_equal; lia.
Qed.

Lemma read_segment_skip l1 l2 i : read_segment (l1 ++ l2) (length l1 + i) = read_segment l2 i.
Proof.
  unfold read_segment.
  f_equal; rewrite ?(Nat.add_shuffle3 _ (length l1) i); first [apply u32_at_skip | apply u64_at_skip].
Qed.

Lemma read_segment_app l1 l2 : length l1 = 56%nat → read_segment (l1 ++ l2) 0 = read_segment l1 0.
Proof.
  intros Hl. pose proof (read_segment_slice 56 0 (l1 ++ l2) 0 ltac:(lia)) as E.
  rewrite drop_0, <-Hl, take_app_length in E. by rewrite E.
Qed.

(** A table of segments is read entry by entry. *)
Lemma read_segments segs :
  Forall segment_fits segs →
  map (λ i, read_segment (concat (segment_bytes <$> segs)) (56 * i)) (seq 0 (length segs)) = segs.
Proof.
  induction 1 as [|s segs Hs Hsegs IH]; [done|]. cbn [length seq map fmap list_fmap concat].
  rewrite Nat.mul_0_r, read_segment_app, read_segment_bytes by done. f_equal. rewrite <-IH at 2.
  rewrite <-seq_shift, map_map. apply map_ext. intros i.
  replace (56 * S i)%nat with (length (segment_bytes s) + 56 * i)%nat by (change (length (segment_bytes s)) with 56%nat; lia).
  apply read_segment_skip.
Qed.

Lemma segments_length segs : length (concat (segment_bytes <$> segs)) = (56 * length segs)%nat.
Proof. induction segs as [|s segs IH]; [done|]. cbn [fmap list_fmap concat length]. rewrite length_app, IH. simpl. lia. Qed.

(** The header of an image as [try_new] sees it. *)
Record image_view (im : Image) (h : FileHeader) : Prop := {
  view_width : width h = Width64;
  view_endianness : try_from_primitive (im_endianness im) = Some (endianness h);
  view_type : try_from_primitive (im_type im) = Some (file_type h);
  view_isa : try_from_primitive (im_isa im) = Some (isa h);
  view_bit : header_bit h = mkHeaderBit (im_entry im) 64 (im_section_offset im) (im_flags im) 64 56
    (Z.of_nat (length (im_segments im))) 64 (im_section_count im) (im_string_index im)
}.

Lemma variant_bounds {A} `{TryFromPrimitive A} w n (a : A) :
  try_from_primitive n = Some a → forallb (λ p, (0 <=? p.1) && (p.1 <? w)) (discriminants (A:=A)) = true → 0 ≤ n < w.
Proof.
  unfold try_from_primitive. induction discriminants as [|[k x] l IH]; simpl; [done|]. intros Hv [Hk Hl]%andb_true_iff.
  apply andb_true_iff in Hk as [?%Z.leb_le ?%Z.ltb_lt]. destruct (Z.eqb_spec k n) as [<-|]; [lia|by apply IH].
Qed.

Lemma image_header_parses ptr im :
  image_ok im → ptr mod 8 = 0 → ∃ h, file_header_try_new ptr (image_header im) = Ok h ∧ image_view im h.
Proof.
  intros [[en Hen] ? [ty Hty] [is_ Hisa] ? ? ? ? (? & ? & ? & ?) ? ?] Hp.
  assert (0 ≤ im_endianness im < 256) by (by apply (variant_bounds _ _ _ Hen)).
  assert (0 ≤ im_type im < 2 ^ 16) by (by apply (variant_bounds _ _ _ Hty)).
  assert (0 ≤ im_isa im < 2 ^ 16) by (by apply (variant_bounds _ _ _ Hisa)).
  unfold file_header_try_new. rewrite Hp. change (Z.of_nat (length (image_header im)) <? 64) with false. cbn [negb Z.eqb].
  unfold file_header_try_from.
  assert (byte_at (image_header im) 4 = 2 ∧ byte_at (image_header im) 5 = im_endianness im ∧
    byte_at (image_header im) 7 = 0 ∧ u16_at (image_header im) 16 = im_type im ∧ u16_at (image_header im) 18 = im_isa im)
    as (-> & -> & -> & -> & ->).
  { unfold image_header. split_and!; read_fields; try rewrite Z.mod_small by lia; done. }
  rewrite Hen, Hty, Hisa. cbn [try_from_primitive variant_of discriminants width_primitive abi_primitive Z.eqb Pos.eqb].
  eexists. split; [by rewrite bool_decide_true|]. split; try done. unfold header_bit, read_header_bit. cbn [width extra Nat.add].
  rewrite !u16_at_slice, !u32_at_slice, !u64_at_slice by lia. cbn [Nat.add]. unfold image_header.
  f_equal; read_fields; rewrite Z.mod_small by lia; done.
Qed.

Lemma image_ranges im h :
  image_ok im → image_view im h →
  program_header_range h = Ret (64, 64 + Z.of_nat (length (im_segments im)) * 56) ∧
  section_header_range h = Ret (im_section_offset im, im_section_offset im + im_section_count im * 64).
Proof.
  intros Hok Hv. pose proof (image_count im Hok). destruct (image_sections im Hok) as (? & ? & ? & ?).
  unfold program_header_range, section_header_range. rewrite (view_bit im h Hv).
  cbn [bit_program_header_offset bit_program_header_entry_size bit_program_header_entry_count bit_section_header_offset
    bit_section_header_entry_size bit_section_header_entry_count].
  rewrite !usize_mul_ok by lia. cbn [mbind outcome_bind]. rewrite !usize_add_ok by lia. cbn [mbind outcome_bind].
  split; do 2 f_equal; lia.
Qed.

Lemma image_parses ptr im :
  image_ok im → ptr mod 8 = 0 → Z.of_nat (length (image_bytes im)) ≤ usize_max →
  ∃ h sh, file_try_new ptr (image_bytes im) = Ret (Ok (mkFile 0 h (im_segments im) sh ptr (image_bytes im))) ∧ image_view im h.
Proof.
  intros Hok Hp Hlen. destruct (image_header_parses ptr im Hok Hp) as (h & Hh & Hv).
  destruct (image_ranges im h Hok Hv) as [Hph Hsh]. destruct (image_sections im Hok) as (? & ? & ? & ?).
  assert (length (image_bytes im) = 64 + 56 * length (im_segments im) + length (im_rest im))%nat as Hl.
  { unfold image_bytes. rewrite !length_app, segments_length. change (length (image_header im)) with 64%nat. lia. }
  unfold file_try_new. rewrite (proj2 (Z.ltb_ge _ _)) by lia.
  assert (take 64 (image_bytes im) = image_header im) as ->
    by (change 64%nat with (length (image_header im)); apply take_app_length).
  rewrite Hh, Hph. cbn [mbind outcome_bind]. rewrite usize_sub_ok by lia. cbn [mbind outcome_bind].
  unfold usize_div. rewrite (view_bit im h Hv). cbn [bit_program_header_entry_size bit_section_header_entry_size Z.eqb].
  rewrite Z.add_simpl_l, Z.div_mul by lia. cbn [mbind outcome_bind].
  unfold byte_add, slice_unchecked. rewrite (proj2 (Z.leb_le 64 _)) by lia. cbn [Z.leb Z.compare andb mbind outcome_bind].
  replace ((ptr + 64) mod 8) with 0 by (Z.div_mod_to_equations; lia). cbn [assert Z.eqb mbind outcome_bind].
  rewrite (proj2 (Z.leb_le (64 + _) _)) by lia. cbn [mbind outcome_bind].
  replace (Z.to_nat (Z.of_nat (length (im_segments im)) * 56)) with (length (concat (segment_bytes <$> im_segments im)))
    by (rewrite segments_length; lia).
  replace (drop (Z.to_nat 64) (image_bytes im)) with (concat (segment_bytes <$> im_segments im) ++ im_rest im)
    by (change (Z.to_nat 64) with (length (image_header im)); symmetry; apply drop_app_length).
  rewrite take_app_length, Nat2Z.id, read_segments by apply Hok. rewrite Hsh. cbn [mbind outcome_bind].
  rewrite usize_sub_ok by lia. cbn [mbind outcome_bind]. rewrite Z.add_simpl_l, Z.div_mul by lia. cbn [mbind outcome_bind].
  rewrite !(proj2 (Z.leb_le _ _)) by lia. cbn [andb mbind outcome_bind]. rewrite !(proj2 (Z.leb_le _ _)) by lia.
  cbn [andb mbind outcome_bind]. eexists _, _. split; [reflexivity|done].
Qed.

(** ** Addresses *)

(** A segment whose bytes are in the file and whose addresses exist. *)
Definition segment_inside (f : File) (s : ProgramHeaderEntry64) : Prop :=
  segment_fits s ∧ file_offset s + file_size s ≤ data_len f ∧ vaddr s + base f + memory_size s ≤ usize_max.

Record file_ok (f : File) : Prop := {
  ok_base : 0 ≤ base f;
  ok_len : data_len f < 2 ^ 63;
  ok_segments : Forall (segment_inside f) (program_header f)
}.

Definition at_address (f : File) (s : ProgramHeaderEntry64) (addr : Z) : Prop :=
  vaddr s + base f ≤ addr < vaddr s + base f + memory_size s.

(** The first segment around an address. *)
Definition first_at (f : File) (addr : Z) (s : ProgramHeaderEntry64) : Prop :=
  ∃ l1 l2, program_header f = l1 ++ s :: l2 ∧ Forall (λ s, ¬ at_address f s addr) l1 ∧ at_address f s addr.

Definition rebased (f : File) (s : ProgramHeaderEntry64) : ProgramHeaderEntry64 :=
  mkSegment (segment_type s) (segment_flags s) (file_offset s) (vaddr s + base f) (paddr s) (file_size s) (memory_size s) (alignment s).

Lemma rebase_ok f s : segment_inside f s → rebase f s = Ret (rebased f s).
Proof. intros ((_ & _ & _ & _ & _ & _ & ? & _) & _ & ?). unfold rebase. rewrite usize_add_ok by lia. done. Qed.

#[global] Instance at_address_dec f s addr : Decision (at_address f s addr) := _.

Lemma contains_ok f s addr : segment_inside f s → contains addr (rebased f s) = Ret (bool_decide (at_address f s addr)).
Proof.
  intros (_ & _ & ?). unfold contains, memory_location, at_address. cbn [rebased vaddr memory_size].
  rewrite usize_add_ok by lia. cbn [mbind outcome_bind]. f_equal.
  destruct (Z.leb_spec (vaddr s + base f) addr), (Z.ltb_spec addr (vaddr s + base f + memory_size s));
    case_bool_decide; simpl; (done || lia).
Qed.

Lemma find_at f addr l :
  Forall (segment_inside f) l →
  (find_segment f (contains addr) l = Ret None ∧ Forall (λ s, ¬ at_address f s addr) l) ∨
  (∃ l1 s l2, l = l1 ++ s :: l2 ∧ Forall (λ s, ¬ at_address f s addr) l1 ∧ at_address f s addr ∧
    find_segment f (contains addr) l = Ret (Some (rebased f s))).
Proof.
  induction 1 as [|s l Hs Hl IH]; [by left|]. cbn [find_segment]. rewrite rebase_ok by done. cbn [mbind outcome_bind].
  rewrite contains_ok by done. cbn [mbind outcome_bind]. case_bool_decide as Ha.
  - right. exists [], s, l. split_and!; [done|constructor|done|done].
  - destruct IH as [[-> ?]|(l1 & s1 & l2 & -> & ? & ? & ->)]; [left; split; [done|by constructor]|].
    right. exists (s :: l1), s1, l2. split_and!; [done|by constructor|done|done].
Qed.

Lemma segment_at f addr :
  file_ok f →
  (segment_for_address f addr = Ret None ∧ Forall (λ s, ¬ at_address f s addr) (program_header f)) ∨
  ∃ s, first_at f addr s ∧ segment_inside f s ∧ segment_for_address f addr = Ret (Some (rebased f s)).
Proof.
  intros [_ _ Hs]. destruct (find_at f addr _ Hs) as [?|(l1 & s & l2 & E & ? & ? & ?)]; [by left|right].
  exists s. split_and!; [by exists l1, l2| |done]. rewrite E, Forall_app in Hs. by apply proj2, Forall_cons_1, proj1 in Hs.
Qed.

Lemma find_first f addr l1 s l2 :
  Forall (segment_inside f) (l1 ++ s :: l2) → Forall (λ s, ¬ at_address f s addr) l1 → at_address f s addr →
  find_segment f (contains addr) (l1 ++ s :: l2) = Ret (Some (rebased f s)).
Proof.
  intros Hin Hl1 Hs. induction Hl1 as [|x l1 Hx Hl1 IH]; apply Forall_cons_1 in Hin as [Hi Hin]; cbn [app find_segment];
    rewrite rebase_ok by done; cbn [mbind outcome_bind]; rewrite contains_ok by done; cbn [mbind outcome_bind].
  - by rewrite bool_decide_true.
  - rewrite bool_decide_false by done. by apply IH.
Qed.

Lemma first_at_inside f addr s :
  file_ok f → first_at f addr s → segment_inside f s ∧ segment_for_address f addr = Ret (Some (rebased f s)).
Proof.
  intros [_ _ Hs] (l1 & l2 & E & Hl1 & Ha). unfold segment_for_address. rewrite E in *. split; [|by apply find_first].
  rewrite Forall_app in Hs. by apply proj2, Forall_cons_1, proj1 in Hs.
Qed.

(** The offset in the file of an address of a segment. *)
Definition offset_at (f : File) (s : ProgramHeaderEntry64) (addr : Z) : Z := file_offset s + (addr - (vaddr s + base f)).

Lemma file_location_ok f s : segment_inside f s → data_len f < 2 ^ 63 → file_location (rebased f s) = Ret (file_offset s, file_offset s + file_size s).
Proof. intros (_ & ? & _) ?. unfold file_location. cbn [rebased file_offset file_size]. by rewrite usize_add_ok by lia. Qed.

Lemma data_at_address_eq f addr :
  file_ok f →
  (data_at_address f addr = Ret None ∧ Forall (λ s, ¬ at_address f s addr) (program_header f)) ∨
  ∃ s, first_at f addr s ∧ segment_inside f s ∧
    data_at_address f addr = (ptr ← byte_add (data_len f) (offset_at f s addr); Ret (Some ptr)).
Proof.
  intros Hok. pose proof (ok_len f Hok). unfold data_at_address.
  destruct (segment_at f addr Hok) as [[-> ?]|(s & Hs & Hin & ->)]; [by left|]. right. exists s. split_and!; [done|done|].
  cbn [mbind outcome_bind]. rewrite file_location_ok by done. cbn [mbind outcome_bind]. unfold index_data.
  pose proof Hin as ((_ & _ & ? & _ & _ & ? & _) & ? & _). destruct Hs as (? & ? & _ & _ & [??]).
  cbn [fst snd]. rewrite !(proj2 (Z.leb_le _ _)) by lia. cbn [andb mbind outcome_bind rebased vaddr].
  rewrite usize_sub_ok by lia. done.
Qed.

(** ** Properties *)

(** C21. A well-formed 64-bit file that is written with little-endian numbers is read
    back: [try_new] accepts it and finds its segments, its entry point and the rest of
    its header. *)
Theorem elf_roundtrip ptr im :
  image_ok im → ptr mod 8 = 0 → Z.of_nat (length (image_bytes im)) ≤ usize_max →
  ∃ f, file_try_new ptr (image_bytes im) = Ret (Ok f) ∧ image_view im (header f) ∧ program_header f = im_segments im ∧
    entry_point (header f) = im_entry im ∧ base f = 0 ∧ data f = image_bytes im.
Proof.
  intros Hok Hp Hl. destruct (image_parses ptr im Hok Hp Hl) as (h & sh & Hrun & Hv). eexists. split; [exact Hrun|].
  split_and!; try done. cbn [header]. unfold entry_point. by rewrite (view_bit im h Hv).
Qed.

(** C20. [data_at_address] looks at the first segment around the address.  For an
    address of the part of a segment that is in the file it gives the offset of that
    byte, inside the segment's part of the file; for an address without a segment it
    answers [None]; only for an address in the part of a segment that is not in the
    file can it leave the buffer.  There is no panic. *)
Theorem elf_address_bounds f addr :
  file_ok f →
  match data_at_address f addr with
  | Ret None => Forall (λ s, ¬ at_address f s addr) (program_header f)
  | Ret (Some off) => ∃ s, first_at f addr s ∧ off = offset_at f s addr ∧ 0 ≤ off ≤ data_len f ∧
      (addr < vaddr s + base f + file_size s → file_offset s ≤ off < file_offset s + file_size s)
  | Panic r => r = Undefined ∧ ∃ s, first_at f addr s ∧ vaddr s + base f + file_size s ≤ addr ∧ data_len f < offset_at f s addr
  end.
Proof.
  intros Hok. destruct (data_at_address_eq f addr Hok) as [[-> ?]|(s & Hs & Hin & ->)]; [done|].
  pose proof Hin as ((_ & _ & ? & _ & _ & ? & _) & ? & _). pose proof Hs as (? & ? & _ & _ & [??]).
  unfold byte_add, offset_at. rewrite (proj2 (Z.leb_le 0 _)) by lia. cbn [andb]. case_Z; cbn [mbind outcome_bind].
  - exists s. split_and!; try done; lia.
  - split; [done|]. exists s. split_and!; [done|lia|lia].
Qed.
