(* ===== verification/ElfLink.v ===== *)
(** * ElfLink: the dynamic section of an ELF file

    [elf/src/dynamic_table.rs], [string_table.rs], [symbol_table.rs] and
    [relocation.rs]: the tables a program brings for its loader, moving a program to
    a base address, and filling in the addresses of the symbols it imports.

    The map of symbols is a hash map of a crate that is not part of the sources, so
    that it is a class, with its documented behaviour as laws. *)

From stdpp Require Import base gmap list numbers option.
From S2P Require Import Prelude Elf.

Open Scope Z_scope.

(** ** The dynamic table *)

(** Both enums of the macro [dynamic_table!], which differ in the type of the
    addresses only. *)
Inductive DynamicTableEntry :=
  | DtNull
  | NeededLibrary (v : Z)
  | PltRelocationTableSize (v : Z)
  | PltGot (addr : Z)
  | HashTable (addr : Z)
  | StringTable (addr : Z)
  | SymbolTable (addr : Z)
  | RelaTableAddress (addr : Z)
  | RelaTableSize (v : Z)
  | RelaTableEntrySize (v : Z)
  | StringTableSize (v : Z)
  | SymbolTableEntrySize (v : Z)
  | InitFunction (addr : Z)
  | TerminateFunction (addr : Z)
  | ObjectName (v : Z)
  | RPath (v : Z)
  | Symbolic
  | RelTableAddress (addr : Z)
  | RelTableSize (v : Z)
  | RelTableEntrySize (v : Z)
  | PltRelType (v : Z)
  | DtDebug
  | TextRelocations
  | JumptableRelocations (addr : Z).

(** The entry with a tag; there is none for another tag. *)
Definition entry_with_tag (tag v : Z) : option DynamicTableEntry :=
  if tag <? 0 then None else
  [DtNull; NeededLibrary v; PltRelocationTableSize v; PltGot v; HashTable v; StringTable v; SymbolTable v;
   RelaTableAddress v; RelaTableSize v; RelaTableEntrySize v; StringTableSize v; SymbolTableEntrySize v; InitFunction v;
   TerminateFunction v; ObjectName v; RPath v; Symbolic; RelTableAddress v; RelTableSize v; RelTableEntrySize v;
   PltRelType v; DtDebug; TextRelocations; JumptableRelocations v] !! Z.to_nat tag.

(** [DynamicTableEntryUnrel::relocate]. *)
Definition relocate_entry (e : DynamicTableEntry) (b : Z) : outcome DynamicTableEntry :=
  match e with
  | PltGot v => a ← usize_add v b; Ret (PltGot a)
  | HashTable v => a ← usize_add v b; Ret (HashTable a)
  | StringTable v => a ← usize_add v b; Ret (StringTable a)
  | SymbolTable v => a ← usize_add v b; Ret (SymbolTable a)
  | RelaTableAddress v => a ← usize_add v b; Ret (RelaTableAddress a)
  | InitFunction v => a ← usize_add v b; Ret (InitFunction a)
  | TerminateFunction v => a ← usize_add v b; Ret (TerminateFunction a)
  | RelTableAddress v => a ← usize_add v b; Ret (RelTableAddress a)
  | JumptableRelocations v => a ← usize_add v b; Ret (JumptableRelocations a)
  | _ => Ret e
  end.

Abbreviation TAG_COUNT := 24.

Definition to_signed (v : Z) : Z := if v <? 2 ^ 63 then v else v - 2 ^ 64.

(** [DynamicTableIter::new] on a slice of the file: the pairs it runs over. *)
Definition dynamic_table_iter (f : File) (sl : Z * Z) : outcome (list (Z * Z)) :=
  _ ← assert ((data_ptr f + sl.1) mod 8 =? 0);
  Ret (map (λ i, (to_signed (u64_at (data f) (Z.to_nat sl.1 + 16 * i)), u64_at (data f) (8 + (Z.to_nat sl.1 + 16 * i))))
    (seq 0 (Z.to_nat ((sl.2 - sl.1) / 16)))).

Definition dynamic_table (f : File) : outcome (list (Z * Z)) :=
  s ← find_segment f (λ s, Ret (segment_type s =? DYNAMIC)) (program_header f);
  match s with
  | None => Panic AssertionFailed
  | Some s => r ← file_location s; sl ← index_data f r; dynamic_table_iter f sl
  end.

(** One turn of the iterator that [dynamic_table()] returns: a tag that is too large
    is left out, a negative one is taken for a variant that does not exist. *)
Definition next_entry (f : File) (p : Z * Z) : outcome (option DynamicTableEntry) :=
  if p.1 <? TAG_COUNT then
    match entry_with_tag p.1 p.2 with
    | Some e => e ← relocate_entry e (base f); Ret (Some e)
    | None => Panic Undefined
    end
  else Ret None.

(** [find_map] and [filter_map] over it. *)
Fixpoint find_map_entry {B} (f : File) (p : DynamicTableEntry → option B) (l : list (Z * Z)) : outcome (option B) :=
  match l with
  | [] => Ret None
  | x :: l => e ← next_entry f x;
      match e ≫= p with Some b => Ret (Some b) | None => find_map_entry f p l end
  end.

Fixpoint filter_map_entries {B} (f : File) (p : DynamicTableEntry → option B) (l : list (Z * Z)) : outcome (list B) :=
  match l with
  | [] => Ret []
  | x :: l => e ← next_entry f x; bs ← filter_map_entries f p l;
      match e ≫= p with Some b => Ret (b :: bs) | None => Ret bs end
  end.

(** [self.dynamic_table().find_map(p)] and [.filter_map(p)]. *)
Definition find_in_table {B} (f : File) (p : DynamicTableEntry → option B) : outcome (option B) :=
  t ← dynamic_table f; find_map_entry f p t.

Definition all_in_table {B} (f : File) (p : DynamicTableEntry → option B) : outcome (list B) :=
  t ← dynamic_table f; filter_map_entries f p t.

(** ** Strings *)

(** A slice made of a pointer into the file: it must be aligned and in the file. *)
Definition raw_slice (f : File) (off align n : Z) : outcome (list Z) :=
  if (data_ptr f + off) mod align =? 0 then slice_unchecked (data f) off n else Panic Undefined.

(** [CStr::from_ptr]: the bytes before the first zero. *)
Fixpoint cstr (d : list Z) : outcome (list Z) :=
  match d with
  | [] => Panic Undefined
  | b :: d => if b =? 0 then Ret [] else s ← cstr d; Ret (b :: s)
  end.

(** A string table is the range of its offsets. *)
Definition get_string (f : File) (table : Z * Z) (index : Z) : outcome (list Z) :=
  _ ← assert (index <? table.2 - table.1);
  cstr (drop (Z.to_nat (table.1 + index)) (data f)).

Definition dynamic_string_table (f : File) : outcome (option (Z * Z)) :=
  addr ← find_in_table f (λ e, match e with StringTable a => Some a | _ => None end);
  match addr with None => Ret None | Some addr =>
  len ← find_in_table f (λ e, match e with StringTableSize n => Some n | _ => None end);
  match len with None => Ret None | Some len =>
  p ← data_at_address f addr;
  p ← expect p;
  _ ← raw_slice f p 1 len;
  Ret (Some (p, p + len)) end end.

(** ** Symbols *)

Record SymbolTableEntry := mkSymbol {
  sym_name : Z;
  sym_info : Z;
  sym_other : Z;
  section_table_index : Z;
  sym_value : Z;
  sym_size : Z
}.

Definition read_symbol (d : list Z) (i : nat) : SymbolTableEntry :=
  mkSymbol (u32_at d i) (byte_at d (4 + i)) (byte_at d (5 + i)) (u16_at d (6 + i)) (u64_at d (8 + i)) (u64_at d (16 + i)).

(** [SymbolInfo]. *)
Definition get_binding (info : Z) : Z := Z.land info 0xf.
Abbreviation is_local info := (get_binding info =? 0).
Abbreviation is_weak_info info := (get_binding info =? 2).

(** [Option<StringIndex>::unwrap]: the index zero is [None]. *)
Definition unwrap_name (n : Z) : outcome Z := if n =? 0 then Panic UnwrapFailed else Ret n.

(** The table and the range it is read from. *)
Definition dynamic_symbol_table (f : File) : outcome (option (list SymbolTableEntry * (Z * Z))) :=
  symbols ← find_in_table f (λ e, match e with SymbolTable a => Some a | _ => None end);
  match symbols with None => Ret None | Some symbols =>
  hash ← find_in_table f (λ e, match e with HashTable a => Some a | _ => None end);
  match hash with None => Ret None | Some hash =>
  p ← data_at_address f hash;
  p ← expect p;
  chains ← raw_slice f (p + 4) 4 4;
  let n := u32_at chains 0 in
  p ← data_at_address f symbols;
  p ← expect p;
  t ← raw_slice f p 8 (24 * n);
  Ret (Some (map (λ i, read_symbol t (24 * i)) (seq 0 (Z.to_nat n)), (p, p + 24 * n))) end end.

Inductive ExportedSymbolTy := Strong | Weak.

Record ExportedSymbol := mkExported { ty : ExportedSymbolTy; value : Z; size : Z }.

Definition is_strong (s : ExportedSymbol) : bool := match ty s with Strong => true | Weak => false end.
Abbreviation is_weak s := (negb (is_strong s)).

(** [hashbrown::HashMap]: the error of [try_insert] holds the value that was not
    inserted. *)
Class SymbolHashMap (M : Type) := {
  map_new : M;
  map_get : M → list Z → option ExportedSymbol;
  map_insert : M → list Z → ExportedSymbol → M;
  map_try_insert : M → list Z → ExportedSymbol → result M ExportedSymbol
}.

Class LawfulHashMap (M : Type) `{SymbolHashMap M} := {
  map_get_new k : map_get map_new k = None;
  map_get_insert m k v k' : map_get (map_insert m k v) k' = if decide (k' = k) then Some v else map_get m k';
  map_try_insert_law m k v :
    map_try_insert m k v = match map_get m k with Some _ => Err v | None => Ok (map_insert m k v) end
}.

Section symbol_map.
  Context {M : Type} `{SymbolHashMap M}.

(** [SymbolMap::insert]. *)
Definition symbol_insert (m : M) (name : list Z) (addr : ExportedSymbol) : M :=
  if is_weak addr then
    match map_try_insert m name addr with Ok m => m | Err _ => m end
  else
    match map_try_insert m name addr with
    | Ok m => m
    | Err v => if is_weak v then map_insert m name addr else m
    end.

Definition export_symbol (f : File) (strings : Z * Z) (s : SymbolTableEntry) (m : M) : outcome M :=
  if negb (section_table_index s =? 0) && negb (is_local (sym_info s)) then
    i ← unwrap_name (sym_name s);
    name ← get_string f strings i;
    v ← usize_add (sym_value s) (base f);
    Ret (symbol_insert m name (mkExported (if is_weak_info (sym_info s) then Weak else Strong) v (sym_size s)))
  else Ret m.

Definition exported_symbols (f : File) : outcome M :=
  t ← dynamic_symbol_table f;
  match t with None => Ret map_new | Some (symbols, _) =>
  strings ← dynamic_string_table f;
  strings ← expect strings;
  for_each symbols (export_symbol f strings) map_new end.

End symbol_map.

(** ** Relocations *)

Inductive RelocationTableEntry :=
  | Rel (offset info : Z)
  | Rela (offset info addend : Z).

Inductive RelocationType := X86_64_Relative | X86_64_JumpSlot.

#[global] Instance relocation_type_primitive : TryFromPrimitive RelocationType :=
  [(8, X86_64_Relative); (7, X86_64_JumpSlot)].

Definition reloc_info (r : RelocationTableEntry) : Z := match r with Rel _ info => info | Rela _ info _ => info end.

Abbreviation symbol_table_index r := (Z.shiftr (reloc_info r) 32).

Definition symbol_table_type (r : RelocationTableEntry) : outcome RelocationType :=
  expect (try_from_primitive (Z.land (reloc_info r) 0xffffffff)).

Definition read_rel (d : list Z) (i : nat) : RelocationTableEntry := Rel (u64_at d i) (u64_at d (8 + i)).
Definition read_rela (d : list Z) (i : nat) : RelocationTableEntry :=
  Rela (u64_at d i) (u64_at d (8 + i)) (to_signed (u64_at d (16 + i))).

(** A table of entries of [entry] bytes each, from a pointer on. *)
Definition read_table (f : File) (read : list Z → nat → RelocationTableEntry) (entry : nat) (p len : Z) :
    outcome (list RelocationTableEntry) :=
  let n := len / Z.of_nat entry in
  t ← raw_slice f p 8 (Z.of_nat entry * n);
  Ret (map (λ i, read t (entry * i)%nat) (seq 0 (Z.to_nat n))).

Fixpoint read_tables (f : File) (read : list Z → nat → RelocationTableEntry) (entry : nat) (l : list (Z * Z)) :
    outcome (list RelocationTableEntry) :=
  match l with
  | [] => Ret []
  | (start, len) :: l =>
      p ← data_at_address f start;
      p ← expect p;
      t ← read_table f read entry p len;
      ts ← read_tables f read entry l;
      Ret (t ++ ts)
  end.

(** The iterator is always run to its end, so that it is the list of its items. *)
Definition relocations (f : File) : outcome (list RelocationTableEntry) :=
  addrs ← all_in_table f (λ e, match e with RelTableAddress a => Some a | _ => None end);
  lens ← all_in_table f (λ e, match e with RelTableSize n => Some n | _ => None end);
  rel ← read_tables f read_rel 16 (zip addrs lens);
  addrs ← all_in_table f (λ e, match e with RelaTableAddress a => Some a | _ => None end);
  lens ← all_in_table f (λ e, match e with RelaTableSize n => Some n | _ => None end);
  rela ← read_tables f read_rela 24 (zip addrs lens);
  Ret (rel ++ rela).

Inductive RelocationEntryType := RelEntries | RelaEntries.

(** The entries and the range they are read from. *)
Definition jumptable_relocations (f : File) : outcome (option (list RelocationTableEntry * (Z * Z))) :=
  addr ← find_in_table f (λ e, match e with JumptableRelocations a => Some a | _ => None end);
  match addr with None => Ret None | Some addr =>
  len ← find_in_table f (λ e, match e with PltRelocationTableSize n => Some n | _ => None end);
  match len with None => Ret None | Some len =>
  ty ← find_in_table f (λ e, match e with PltRelType 7 => Some RelaEntries | PltRelType 17 => Some RelEntries | _ => None end);
  match ty with None => Ret None | Some ty =>
  p ← data_at_address f addr;
  p ← expect p;
  t ← match ty with RelEntries => read_table f read_rel 16 p len | RelaEntries => read_table f read_rela 24 p len end;
  Ret (Some (t, (p, p + len))) end end end.

(** The parts of the file that the file itself keeps references to. *)
Definition header_refs (f : File) : list (Z * Z) :=
  let bit := header_bit (header f) in
  [ (0, SIZE_OF_HEADER);
    (bit_program_header_offset bit, bit_program_header_offset bit + SIZE_OF_SEGMENT * Z.of_nat (length (program_header f)));
    (bit_section_header_offset bit, bit_section_header_offset bit + Z.of_nat (length (section_header f))) ].

Definition with_data (f : File) (d : list Z) : File :=
  mkFile (base f) (header f) (program_header f) (section_header f) (data_ptr f) d.

Definition with_base (f : File) (b : Z) : File :=
  mkFile b (header f) (program_header f) (section_header f) (data_ptr f) (data f).

(** Eight bytes of a buffer replaced. *)
Definition put_u64 (d : list Z) (off : nat) (v : Z) : list Z := take off d ++ le_bytes 8 v ++ drop (8 + off) d.

(** [*ptr.cast::<u64>() = v], where what is referred to must stay as it is. *)
Definition write_u64 (refs : list (Z * Z)) (f : File) (off v : Z) : outcome File :=
  if ((data_ptr f + off) mod 8 =? 0) && (0 <=? off) && (off + 8 <=? data_len f) &&
     forallb (λ r, negb (ranges_overlap (off, off + 8) r)) refs
  then Ret (with_data f (put_u64 (data f) (Z.to_nat off) v)) else Panic Undefined.

Definition relocate_one (b : Z) (r : RelocationTableEntry) (f : File) : outcome File :=
  match r with
  | Rel _ _ => Panic AssertionFailed
  | Rela addr _ addend =>
      p ← data_at_unrel_address_mut f addr;
      ptr ← expect p;
      ty ← symbol_table_type r;
      match ty with
      | X86_64_Relative => write_u64 (header_refs f) f ptr ((b + addend) mod 2 ^ 64)
      | X86_64_JumpSlot => Ret f
      end
  end.

Definition relocate (f : File) (b : Z) : outcome File :=
  relocs ← relocations f;
  f ← for_each relocs (relocate_one b) f;
  Ret (with_base f b).

(** The loop of [link]; its error is the name of a symbol. *)
Fixpoint link_all `{SymbolHashMap M} (refs : list (Z * Z)) (symbols : list SymbolTableEntry) (strings : Z * Z)
    (map : M) (plt : list RelocationTableEntry) (f : File) : outcome (result unit (list Z) * File) :=
  match plt with
  | [] => Ret (Ok tt, f)
  | Rel _ _ :: _ => Panic NotImplemented
  | Rela addr info addend :: plt =>
      symbol ← index symbols (symbol_table_index (Rela addr info addend));
      i ← unwrap_name (sym_name symbol);
      name ← get_string f strings i;
      match map_get map name with None => Ret (Err name, f) | Some address =>
      p ← data_at_unrel_address f addr;
      ptr ← expect p;
      ty ← symbol_table_type (Rela addr info addend);
      match ty with
      | X86_64_JumpSlot => f ← write_u64 refs f ptr (value address); link_all refs symbols strings map plt f
      | X86_64_Relative => Panic NotImplemented
      end end
  end.

Definition link `{SymbolHashMap M} (f : File) (map : M) : outcome (result unit (list Z) * File) :=
  t ← dynamic_symbol_table f;
  '(symbols, sym_range) ← expect t;
  t ← dynamic_string_table f;
  strings ← expect t;
  t ← jumptable_relocations f;
  '(plt, plt_range) ← expect t;
  link_all (header_refs f ++ [sym_range; strings; plt_range]) symbols strings map plt f.

(** ** Patches *)

Lemma put_u64_length d off v : (off + 8 ≤ length d)%nat → length (put_u64 d off v) = length d.
Proof. intros. unfold put_u64. rewrite !length_app, length_take, le_bytes_length, length_drop. lia. Qed.

Lemma put_u64_outside d off v i : (off + 8 ≤ length d)%nat → (i < off ∨ off + 8 ≤ i)%nat → put_u64 d off v !! i = d !! i.
Proof.
  intros Hl [Hi|Hi]; unfold put_u64.
  - by rewrite lookup_app_l, lookup_take_lt by (rewrite ?length_take; lia).
  - rewrite lookup_app_r, lookup_app_r, lookup_drop by (rewrite ?le_bytes_length, length_take; lia).
    rewrite le_bytes_length, length_take. f_equal. lia.
Qed.

Lemma put_u64_value d off v : (off + 8 ≤ length d)%nat → u64_at (put_u64 d off v) off = v mod 2 ^ 64.
Proof.
  intros Hl. unfold put_u64. rewrite <-(u64_at_le v (drop (8 + off) d)), <-(u64_at_skip (take off d) _ 0).
  f_equal. rewrite length_take. lia.
Qed.

Lemma put_u64_bytes d off v : Forall is_byte d → Forall is_byte (put_u64 d off v).
Proof. intros. unfold put_u64. rewrite !Forall_app. split_and!; [by apply Forall_take|apply le_bytes_byte|by apply Forall_drop]. Qed.

Lemma u64_at_ext d d' i : (∀ j, (i ≤ j < i + 8)%nat → d !! j = d' !! j) → u64_at d i = u64_at d' i.
Proof. intros E. unfold u64_at, u32_at, u16_at, byte_at. rewrite !E by lia. done. Qed.

(** Words written one after the other, each at its offset. *)
Definition apply_patches (d : list Z) (ps : list (Z * Z)) : list Z :=
  foldl (λ d p, put_u64 d (Z.to_nat p.1) p.2) d ps.

Definition apart (p q : Z * Z) : Prop := p.1 + 8 ≤ q.1 ∨ q.1 + 8 ≤ p.1.
Definition patch_inside (d : list Z) (p : Z * Z) : Prop := 0 ≤ p.1 ∧ p.1 + 8 ≤ Z.of_nat (length d).

(** [d'] is [d] with the words [ps] and nothing else changed. *)
Definition patched (d d' : list Z) (ps : list (Z * Z)) : Prop :=
  length d' = length d ∧ Forall (λ p, u64_at d' (Z.to_nat p.1) = p.2 mod 2 ^ 64) ps ∧
  ∀ i : nat, Forall (λ p, Z.of_nat i < p.1 ∨ p.1 + 8 ≤ Z.of_nat i) ps → d' !! i = d !! i.

Lemma apply_patches_length d ps : Forall (patch_inside d) ps → length (apply_patches d ps) = length d.
Proof.
  revert d. induction ps as [|p ps IH]; intros d Hp; [done|]. apply Forall_cons_1 in Hp as [[? ?] Hp]. simpl.
  assert (length (put_u64 d (Z.to_nat p.1) p.2) = length d) as Hl by (apply put_u64_length; lia).
  rewrite IH; [done|]. unfold patch_inside in *. by rewrite Hl.
Qed.

Lemma apply_patches_outside d ps (i : nat) :
  Forall (patch_inside d) ps → Forall (λ p, Z.of_nat i < p.1 ∨ p.1 + 8 ≤ Z.of_nat i) ps → apply_patches d ps !! i = d !! i.
Proof.
  revert d. induction ps as [|p ps IH]; intros d Hp Hi; [done|]. apply Forall_cons_1 in Hp as [[? ?] Hp].
  apply Forall_cons_1 in Hi as [? Hi]. simpl.
  assert (length (put_u64 d (Z.to_nat p.1) p.2) = length d) as Hl by (apply put_u64_length; lia).
  rewrite IH, put_u64_outside by (try done; try lia; unfold patch_inside in *; by rewrite Hl). done.
Qed.

Lemma apply_patches_ok d ps :
  Forall (patch_inside d) ps → ForallOrdPairs apart ps → patched d (apply_patches d ps) ps.
Proof.
  intros Hp Ha. split_and!; [by apply apply_patches_length| |].
  - revert d Hp. induction Ha as [|p ps Hpa Ha IH]; intros d Hp; [done|]. apply Forall_cons_1 in Hp as [[? ?] Hp]. simpl.
    assert (length (put_u64 d (Z.to_nat p.1) p.2) = length d) as Hl by (apply put_u64_length; lia).
    assert (Forall (patch_inside (put_u64 d (Z.to_nat p.1) p.2)) ps) as Hp' by (unfold patch_inside in *; by rewrite Hl).
    constructor; [|by apply IH]. rewrite <-(put_u64_value d (Z.to_nat p.1) p.2) by lia. apply u64_at_ext. intros j Hj.
    apply apply_patches_outside; [done|]. eapply Forall_impl; [|exact Hpa]. unfold apart. simpl. lia.
  - intros i Hi. by apply apply_patches_outside.
Qed.

(** ** Where relocations lead *)

(** The offset of an address of the program before it is moved. *)
Definition slot (f : File) (addr : Z) : Z :=
  match data_at_unrel_address f addr with Ret (Some off) => off | _ => 0 end.

(** The part of a segment that is in the file can be written without touching what
    the file refers to. *)
Definition mutable_segment (f : File) (s : ProgramHeaderEntry64) : Prop :=
  ∃ ph sh, program_header_range (header f) = Ret ph ∧ section_header_range (header f) = Ret sh ∧
    Forall (λ r, ranges_overlap (file_offset s, file_offset s + file_size s) r = false) ([(0, 64); ph; sh] ++ header_refs f).

(** Eight bytes at an address of the program, all of them in the file. *)
Definition word_at (f : File) (addr : Z) (s : ProgramHeaderEntry64) : Prop :=
  0 ≤ addr ∧ addr + base f ≤ usize_max ∧ first_at f (addr + base f) s ∧ addr + 8 ≤ vaddr s + file_size s ∧
  (data_ptr f + slot f addr) mod 8 = 0.

Definition reloc_ok (f : File) (r : RelocationTableEntry) : Prop :=
  match r with
  | Rel _ _ => False
  | Rela addr info _ => is_Some (try_from_primitive (A:=RelocationType) (Z.land info 0xffffffff)) ∧
      ∃ s, word_at f addr s ∧ mutable_segment f s
  end.

(** The word a relocation stands for when the program is moved to [b]. *)
Definition reloc_patch (f : File) (b : Z) (r : RelocationTableEntry) : option (Z * Z) :=
  match r, symbol_table_type r with
  | Rela addr _ addend, Ret X86_64_Relative => Some (slot f addr, (b + addend) mod 2 ^ 64)
  | _, _ => None
  end.

Lemma word_slot f addr s :
  file_ok f → word_at f addr s →
  data_at_unrel_address f addr = Ret (Some (slot f addr)) ∧ slot f addr = offset_at f s (addr + base f) ∧
  file_offset s ≤ slot f addr ∧ slot f addr + 8 ≤ file_offset s + file_size s ≤ data_len f ∧ 0 ≤ file_offset s.
Proof.
  intros Hok (? & ? & Hs & ? & _). destruct (first_at_inside _ _ _ Hok Hs) as [Hin Hseg]. pose proof (ok_len f Hok).
  pose proof Hin as ((_ & _ & ? & _ & _ & ? & _) & ? & ?). pose proof Hs as (? & ? & _ & _ & [??]).
  assert (data_at_unrel_address f addr = Ret (Some (offset_at f s (addr + base f)))) as E.
  { unfold data_at_unrel_address, data_at_address. rewrite usize_add_ok by lia. cbn [mbind outcome_bind]. rewrite Hseg.
    cbn [mbind outcome_bind]. rewrite (file_location_ok f s Hin) by done. cbn [mbind outcome_bind]. unfold index_data. cbn [fst snd].
    rewrite !(proj2 (Z.leb_le _ _)) by lia. cbn [andb mbind outcome_bind rebased vaddr]. rewrite usize_sub_ok by lia.
    cbn [mbind outcome_bind]. unfold byte_add, offset_at. rewrite !(proj2 (Z.leb_le _ _)) by lia. done. }
  assert (slot f addr = offset_at f s (addr + base f)) as Hsl by (unfold slot; by rewrite E).
  rewrite E, Hsl. unfold offset_at. split_and!; (done || lia).
Qed.

(** Writing bytes of the file changes nothing about where its addresses lead. *)
Lemma with_data_len f d : length d = length (data f) → data_len (with_data f d) = data_len f.
Proof. intros E. unfold data_len. cbn [data with_data]. by rewrite E. Qed.

Lemma with_data_ok f d : length d = length (data f) → file_ok f → file_ok (with_data f d).
Proof.
  intros Hd [? ? Hs]. split; [done|by rewrite with_data_len|]. eapply Forall_impl; [|exact Hs].
  intros s. unfold segment_inside. by rewrite with_data_len.
Qed.

Lemma find_segment_base f f' p l : base f = base f' → find_segment f p l = find_segment f' p l.
Proof.
  intros E. induction l as [|s l IH]; simpl; [done|]. unfold rebase. rewrite E, IH. done.
Qed.

Lemma with_data_segment f d addr : segment_for_address (with_data f d) addr = segment_for_address f addr.
Proof. by apply find_segment_base. Qed.

Lemma with_data_address f d addr : length d = length (data f) → data_at_address (with_data f d) addr = data_at_address f addr.
Proof.
  intros Hd. unfold data_at_address, index_data. by rewrite with_data_segment, with_data_len.
Qed.

Lemma with_data_address_mut f d addr :
  length d = length (data f) → data_at_address_mut (with_data f d) addr = data_at_address_mut f addr.
Proof.
  intros Hd. unfold data_at_address_mut, index_data_mut, index_data. by rewrite with_data_segment, with_data_len.
Qed.

Lemma within_no_overlap a b x r : ranges_overlap (a, b) r = false → a ≤ x → x + 8 ≤ b → ranges_overlap (x, x + 8) r = false.
Proof.
  unfold ranges_overlap. cbn [fst snd]. rewrite !negb_false_iff, !orb_true_iff, !Z.leb_le. lia.
Qed.

Lemma word_slot_mut f addr s :
  file_ok f → word_at f addr s → mutable_segment f s → data_at_unrel_address_mut f addr = Ret (Some (slot f addr)).
Proof.
  intros Hok Hw (ph & sh & Hph & Hsh & Hno). pose proof (word_slot f addr s Hok Hw) as (_ & Hsl & ? & ? & ?).
  destruct Hw as (? & ? & Hs & ? & _). destruct (first_at_inside _ _ _ Hok Hs) as [Hin Hseg]. pose proof (ok_len f Hok).
  pose proof Hs as (? & ? & _ & _ & [??]). unfold data_at_unrel_address_mut, data_at_address_mut.
  rewrite usize_add_ok by lia. cbn [mbind outcome_bind]. rewrite Hseg. cbn [mbind outcome_bind].
  rewrite (file_location_ok f s Hin) by done. cbn [mbind outcome_bind]. unfold index_data_mut. rewrite Hph, Hsh. cbn [mbind outcome_bind].
  apply Forall_app in Hno as [Hno _]. apply Forall_cons_1 in Hno as [-> Hno]. apply Forall_cons_1 in Hno as [-> Hno].
  apply Forall_cons_1 in Hno as [-> _]. cbn [negb andb assert mbind outcome_bind]. unfold index_data. cbn [fst snd].
  rewrite !(proj2 (Z.leb_le _ _)) by lia. cbn [andb mbind outcome_bind rebased vaddr]. rewrite usize_sub_ok by lia.
  cbn [mbind outcome_bind]. unfold byte_add. change (file_offset s + (addr + base f - (vaddr s + base f))) with (offset_at f s (addr + base f)).
  rewrite <-Hsl, !(proj2 (Z.leb_le _ _)) by lia. done.
Qed.

Lemma write_u64_ok refs f off v :
  (data_ptr f + off) mod 8 = 0 → 0 ≤ off → off + 8 ≤ data_len f → Forall (λ r, ranges_overlap (off, off + 8) r = false) refs →
  write_u64 refs f off v = Ret (with_data f (put_u64 (data f) (Z.to_nat off) v)).
Proof.
  intros Ha H0 Hl Hr. unfold write_u64. rewrite Ha, !(proj2 (Z.leb_le _ _)) by lia. cbn [Z.eqb andb].
  replace (forallb _ refs) with true; [done|]. symmetry. apply Is_true_true, forallb_True. eapply Forall_impl; [|exact Hr].
  intros r E. by rewrite E.
Qed.

Lemma relocate_one_ok f d b r :
  file_ok f → length d = length (data f) → reloc_ok f r →
  relocate_one b r (with_data f d) = Ret (with_data f (apply_patches d (option_list (reloc_patch f b r)))) ∧
  Forall (patch_inside d) (option_list (reloc_patch f b r)).
Proof.
  intros Hok Hd Hr. destruct r as [|addr info addend]; [done|]. destruct Hr as [[ty Hty] (s & Hw & Hm)].
  pose proof (word_slot f addr s Hok Hw) as (_ & _ & ? & ? & ?). unfold relocate_one, reloc_patch.
  replace (data_at_unrel_address_mut (with_data f d) addr) with (data_at_unrel_address_mut f addr).
  2: { unfold data_at_unrel_address_mut. cbn [base with_data]. destruct (usize_add addr (base f)); [|done].
    cbn [mbind outcome_bind]. by rewrite with_data_address_mut. }
  rewrite (word_slot_mut f addr s Hok Hw Hm). cbn [mbind outcome_bind expect]. unfold symbol_table_type. cbn [reloc_info].
  rewrite Hty. cbn [mbind outcome_bind expect]. destruct ty; cbn [option_list apply_patches foldl]; [|by split].
  unfold patch_inside. rewrite Hd. cbn [fst snd]. unfold data_len in *. split; [|by repeat constructor; cbn [fst]; lia].
  destruct Hw as (_ & _ & _ & _ & Hal). rewrite write_u64_ok; [done|done|lia|unfold data_len; cbn [data with_data]; lia|].
  destruct Hm as (? & ? & _ & _ & Hno). apply Forall_app in Hno as [_ Hno]. eapply Forall_impl; [|exact Hno].
  intros r Hr. eapply within_no_overlap; [exact Hr|lia|lia].
Qed.

Definition patches (f : File) (b : Z) (rs : list RelocationTableEntry) : list (Z * Z) := omap (reloc_patch f b) rs.

Lemma relocate_all f d b rs :
  file_ok f → length d = length (data f) → Forall (reloc_ok f) rs →
  for_each rs (relocate_one b) (with_data f d) = Ret (with_data f (apply_patches d (patches f b rs))) ∧
  Forall (patch_inside d) (patches f b rs).
Proof.
  intros Hok Hd Hrs. revert d Hd. induction Hrs as [|r rs Hr Hrs IH]; intros d Hd; [done|]. cbn [for_each].
  destruct (relocate_one_ok f d b r Hok Hd Hr) as [-> Hp]. cbn [mbind outcome_bind].
  pose proof (apply_patches_length _ _ Hp) as Hl. destruct (IH _ (eq_trans Hl Hd)) as [-> Hps].
  assert (patches f b (r :: rs) = option_list (reloc_patch f b r) ++ patches f b rs) as ->
    by (unfold patches; simpl; by destruct (reloc_patch f b r)).
  unfold apply_patches. rewrite foldl_app. split; [done|]. apply Forall_app. split; [done|].
  unfold patch_inside in *. by rewrite Hl in Hps.
Qed.

(** ** Imports *)

Lemma cstr_app d e s : cstr d = Ret s → cstr (d ++ e) = Ret s.
Proof.
  revert s. induction d as [|b d IH]; intros s; simpl; [done|]. destruct (b =? 0); [done|].
  intros (x & Hx & [= <-])%bind_Ret. by rewrite (IH x Hx).
Qed.

(** A string of the table [t] that ends before the table does. *)
Definition string_in (d : list Z) (t : Z * Z) (i : Z) (name : list Z) : Prop :=
  0 < i < t.2 - t.1 ∧ cstr (drop (Z.to_nat (t.1 + i)) (take (Z.to_nat t.2) d)) = Ret name.

(** Bytes of a range. *)
Definition agree_on (d d' : list Z) (t : Z * Z) : Prop := ∀ i : nat, t.1 ≤ Z.of_nat i < t.2 → d !! i = d' !! i.

Lemma get_string_ok f t i name : 0 ≤ t.1 → string_in (data f) t i name → get_string f t i = Ret name.
Proof.
  intros Ht [Hi Hs]. unfold get_string. rewrite (proj2 (Z.ltb_lt _ _)) by lia. cbn [assert mbind outcome_bind].
  rewrite <-(take_drop (Z.to_nat t.2) (data f)).
  destruct (decide (Z.to_nat (t.1 + i) ≤ length (take (Z.to_nat t.2) (data f)))%nat).
  - rewrite drop_app_le by done. by apply cstr_app.
  - by rewrite drop_ge in Hs by lia.
Qed.

Lemma string_in_agree d d' t i name : 0 ≤ t.1 → agree_on d d' t → string_in d t i name → string_in d' t i name.
Proof.
  intros Ht Hag [Hi Hs]. split; [done|]. rewrite <-Hs. f_equal. apply list_eq. intros j. rewrite !lookup_drop.
  destruct (decide (Z.to_nat (t.1 + i) + j < Z.to_nat t.2)%nat).
  - rewrite !lookup_take_lt by done. symmetry. apply Hag. lia.
  - rewrite !lookup_take_ge by lia. done.
Qed.

Lemma put_u64_agree d off v t :
  0 ≤ off → off + 8 ≤ Z.of_nat (length d) → ranges_overlap (off, off + 8) t = false → agree_on d (put_u64 d (Z.to_nat off) v) t.
Proof.
  unfold ranges_overlap. cbn [fst snd]. rewrite negb_false_iff, orb_true_iff, !Z.leb_le. intros H0 Hl Ho i Hi.
  rewrite put_u64_outside by lia. done.
Qed.

Section link.
  Context {M : Type} `{SymbolHashMap M}.

(** An entry of the jump table: the symbol it names and the word it fills. *)
Definition import_ok (f : File) (refs : list (Z * Z)) (symbols : list SymbolTableEntry) (strings : Z * Z)
    (r : RelocationTableEntry) (name : list Z) : Prop :=
  match r with
  | Rel _ _ => False
  | Rela addr info _ => 0 ≤ info ∧ Z.land info 0xffffffff = 7 ∧
      (∃ symbol, symbols !! Z.to_nat (Z.shiftr info 32) = Some symbol ∧ string_in (data f) strings (sym_name symbol) name) ∧
      ∃ s, word_at f addr s ∧ Forall (λ r, ranges_overlap (slot f addr, slot f addr + 8) r = false) refs
  end.

Definition link_patch (f : File) (m : M) (p : RelocationTableEntry * list Z) : option (Z * Z) :=
  match p.1 with
  | Rela addr _ _ => v ← map_get m p.2; Some (slot f addr, value v)
  | Rel _ _ => None
  end.

(** The words of the first [k] entries. *)
Definition link_patches (f : File) (m : M) (plt : list RelocationTableEntry) (names : list (list Z)) (k : nat) : list (Z * Z) :=
  omap (link_patch f m) (take k (zip plt names)).

Lemma link_all_ok f refs symbols strings (m : M) plt names d :
  file_ok f → length d = length (data f) → 0 ≤ strings.1 → strings ∈ refs → agree_on (data f) d strings →
  Forall2 (import_ok f refs symbols strings) plt names →
  ∃ k r, link_all refs symbols strings m plt (with_data f d) =
      Ret (r, with_data f (apply_patches d (link_patches f m plt names k))) ∧ (k ≤ length plt)%nat ∧
    Forall (patch_inside d) (link_patches f m plt names k) ∧ Forall (λ n, is_Some (map_get m n)) (take k names) ∧
    match r with
    | Ok _ => k = length plt
    | Err name => names !! k = Some name ∧ map_get m name = None
    end.
Proof.
  intros Hok Hd Ht Hin Hag Hall. revert d Hd Hag. induction Hall as [|r name plt names Hr Hall IH]; intros d Hd Hag.
  { exists 0%nat, (Ok tt). by split_and!. }
  destruct r as [|addr info addend]; [done|]. destruct Hr as (Hi & Hty & (symbol & Hsym & Hstr) & s & Hw & Hrefs).
  cbn [link_all reloc_info]. rewrite (index_ok _ _ symbol) by (done || by apply Z.shiftr_nonneg).
  cbn [mbind outcome_bind]. unfold unwrap_name. rewrite (proj2 (Z.eqb_neq _ _)) by (destruct Hstr; lia). cbn [mbind outcome_bind].
  rewrite (get_string_ok _ _ _ name Ht) by (by apply (string_in_agree (data f))). cbn [mbind outcome_bind].
  destruct (map_get m name) as [v|] eqn:Hv.
  2: { exists 0%nat, (Err name). split_and!; try done; simpl; lia. }
  pose proof (word_slot f addr s Hok Hw) as (Hat & _ & ? & ? & ?). pose proof Hw as (_ & _ & _ & _ & Hal).
  replace (data_at_unrel_address (with_data f d) addr) with (data_at_unrel_address f addr)
    by (unfold data_at_unrel_address; cbn [base with_data]; destruct (usize_add addr (base f)); cbn [mbind outcome_bind];
      by rewrite ?with_data_address).
  rewrite Hat. cbn [mbind outcome_bind expect]. unfold symbol_table_type. cbn [reloc_info]. rewrite Hty.
  cbn [try_from_primitive discriminants relocation_type_primitive variant_of Z.eqb Pos.eqb expect mbind outcome_bind].
  rewrite write_u64_ok; [|done|lia|rewrite with_data_len by done; lia|done]. cbn [mbind outcome_bind data with_data].
  unfold data_len in *. change (with_data (with_data f d) ?x) with (with_data f x).
  assert (length (put_u64 d (Z.to_nat (slot f addr)) (value v)) = length d) as Hl by (apply put_u64_length; lia).
  destruct (IH (put_u64 d (Z.to_nat (slot f addr)) (value v))) as (k & r & -> & ? & Hins & ? & Hr).
  { by rewrite Hl. }
  { intros i Hrange. rewrite (Hag i Hrange). apply (put_u64_agree d _ _ strings); [lia|lia| |done].
    rewrite Forall_forall in Hrefs. apply Hrefs. by apply list_elem_of_In. }
  exists (S k), r.
  assert (link_patches f m (Rela addr info addend :: plt) (name :: names) (S k) = (slot f addr, value v) :: link_patches f m plt names k) as ->.
  { unfold link_patches. cbn [zip zip_with take omap list_omap]. unfold link_patch at 1. cbn [fst snd]. by rewrite Hv. }
  split_and!; [done|simpl; lia| | |by destruct r; [subst|]].
  - constructor; [unfold patch_inside; cbn [fst]; lia|]. unfold patch_inside in *. by rewrite Hl in Hins.
  - constructor; [by rewrite Hv|done].
Qed.

Lemma ordpairs_app_l {A} (R : A → A → Prop) l1 l2 : ForallOrdPairs R (l1 ++ l2) → ForallOrdPairs R l1.
Proof.
  induction l1 as [|x l1 IH]; [constructor|]. simpl. inversion_clear 1 as [|? ? Hx Hl]. constructor; [|by apply IH].
  by apply Forall_app in Hx as [? _].
Qed.

Lemma link_patches_apart f (m : M) plt names k :
  (k ≤ length plt)%nat → ForallOrdPairs apart (link_patches f m plt names (length plt)) →
  ForallOrdPairs apart (link_patches f m plt names k).
Proof.
  intros Hk. unfold link_patches. rewrite <-(take_drop k (take (length plt) _)), omap_app, take_take, Nat.min_l by done.
  apply ordpairs_app_l.
Qed.

End link.

(** ** Properties *)

(** C18. [relocate] moves a program whose relocations lead to words of the file that
    do not overlap: each word becomes the new base plus its addend, no other byte of
    the file changes, and from then on addresses count from the new base. *)
Theorem elf_relocate f b rs :
  file_ok f → relocations f = Ret rs → Forall (reloc_ok f) rs → ForallOrdPairs apart (patches f b rs) →
  ∃ f', relocate f b = Ret f' ∧ base f' = b ∧ program_header f' = program_header f ∧
    patched (data f) (data f') (patches f b rs).
Proof.
  intros Hok Hrs Hall Hap. unfold relocate. rewrite Hrs. cbn [mbind outcome_bind].
  destruct (relocate_all f (data f) b rs Hok eq_refl Hall) as [Hrun Hin].
  replace (with_data f (data f)) with f in Hrun by (by destruct f). rewrite Hrun. cbn [mbind outcome_bind].
  eexists. split; [reflexivity|]. split_and!; [done|done|]. by apply apply_patches_ok.
Qed.

(** C19. [link] fills in the imports of a program in order.  When every name is in
    the map, each word of the jump table becomes the address of its symbol and no
    other byte changes; otherwise the first name that is not in the map is the error
    and the words before it are filled in. *)
Theorem elf_link `{SymbolHashMap M} f (m : M) symbols sym_range strings plt plt_range names :
  file_ok f → dynamic_symbol_table f = Ret (Some (symbols, sym_range)) → dynamic_string_table f = Ret (Some strings) →
  jumptable_relocations f = Ret (Some (plt, plt_range)) → 0 ≤ strings.1 →
  Forall2 (import_ok f (header_refs f ++ [sym_range; strings; plt_range]) symbols strings) plt names →
  ForallOrdPairs apart (link_patches f m plt names (length plt)) →
  ∃ k r f', link f m = Ret (r, f') ∧ (k ≤ length plt)%nat ∧ base f' = base f ∧
    patched (data f) (data f') (link_patches f m plt names k) ∧ Forall (λ n, is_Some (map_get m n)) (take k names) ∧
    match r with
    | Ok _ => k = length plt
    | Err name => names !! k = Some name ∧ map_get m name = None
    end.
Proof.
  intros Hok Hsym Hstr Hplt Ht Hall Hap. unfold link. rewrite Hsym, Hstr, Hplt. cbn [mbind outcome_bind expect].
  destruct (link_all_ok f (header_refs f ++ [sym_range; strings; plt_range]) symbols strings m plt names (data f))
    as (k & r & Hrun & Hk & Hin & Hres & Hr); try done; [set_solver|].
  replace (with_data f (data f)) with f in Hrun by (by destruct f). exists k, r. eexists. split; [exact Hrun|].
  split_and!; try done. apply apply_patches_ok; [done|]. by apply link_patches_apart.
Qed.

(** ** Symbols that exist already *)

Section lawful.
  Context {M : Type} `{LawfulHashMap M}.

(** A symbol that is in the map stays, whatever is inserted: the error of
    [try_insert] holds the new value and not the old one, so that a strong symbol
    does not take the place of a weak one. *)
Lemma symbol_insert_keeps (m : M) name old s : map_get m name = Some old → symbol_insert m name s = m.
Proof.
  intros Hm. unfold symbol_insert. rewrite map_try_insert_law, Hm. by destruct (is_weak s).
Qed.

(** A name that is not in the map is added, and no other name is touched. *)
Lemma symbol_insert_fresh (m : M) name s name' :
  map_get m name = None →
  map_get (symbol_insert m name s) name' = if decide (name' = name) then Some s else map_get m name'.
Proof.
  intros Hm. unfold symbol_insert. rewrite map_try_insert_law, Hm. destruct (is_weak s); apply map_get_insert.
Qed.

(** What a symbol of the table is exported as. *)
Definition is_exported (s : SymbolTableEntry) : bool := negb (section_table_index s =? 0) && negb (is_local (sym_info s)).

Definition export_of (f : File) (p : SymbolTableEntry * list Z) : option (list Z * ExportedSymbol) :=
  let s := p.1 in
  if is_exported s
  then Some (p.2, mkExported (if is_weak_info (sym_info s) then Weak else Strong) (sym_value s + base f) (sym_size s)) else None.

Definition export_ok (f : File) (strings : Z * Z) (s : SymbolTableEntry) (name : list Z) : Prop :=
  is_exported s = true → string_in (data f) strings (sym_name s) name ∧ sym_value s + base f ≤ usize_max.

(** The first entry of a list with a name. *)
Fixpoint first_of (name : list Z) (l : list (list Z * ExportedSymbol)) : option ExportedSymbol :=
  match l with
  | [] => None
  | (n, e) :: l => if decide (name = n) then Some e else first_of name l
  end.

Lemma export_symbol_step f strings s name (m : M) :
  0 ≤ strings.1 → export_ok f strings s name →
  export_symbol f strings s m = Ret (match export_of f (s, name) with Some (n, e) => symbol_insert m n e | None => m end).
Proof.
  intros Ht Hs. unfold export_ok in Hs. unfold export_symbol, export_of. cbn [fst snd]. fold (is_exported s).
  destruct (is_exported s); [|done]. destruct (Hs eq_refl) as [Hstr Hv].
  unfold unwrap_name. rewrite (proj2 (Z.eqb_neq _ 0)) by (destruct Hstr; lia). cbn [mbind outcome_bind].
  rewrite (get_string_ok _ _ _ name Ht Hstr). cbn [mbind outcome_bind]. by rewrite usize_add_ok.
Qed.

Lemma export_all f strings symbols names (m : M) :
  0 ≤ strings.1 → Forall2 (export_ok f strings) symbols names →
  ∃ m', for_each symbols (export_symbol f strings) m = Ret m' ∧
    ∀ name, map_get m' name = match map_get m name with Some e => Some e | None => first_of name (omap (export_of f) (zip symbols names)) end.
Proof.
  intros Ht Hall. revert m. induction Hall as [|s name symbols names Hs Hall IH]; intros m.
  { exists m. split; [done|]. intros name. simpl. by destruct (map_get m name). }
  cbn [for_each zip zip_with omap list_omap]. rewrite (export_symbol_step f strings s name m Ht Hs). cbn [mbind outcome_bind].
  destruct (export_of f (s, name)) as [[n e]|]; [|apply IH].
  destruct (IH (symbol_insert m n e)) as (m' & -> & Hm'). exists m'. split; [done|]. intros name'. rewrite Hm'. cbn [first_of].
  destruct (map_get m n) as [old|] eqn:Hold.
  - rewrite (symbol_insert_keeps m n old) by done. destruct (decide (name' = n)) as [->|]; [by rewrite Hold|done].
  - rewrite symbol_insert_fresh by done. destruct (decide (name' = n)) as [->|]; [by rewrite Hold|done].
Qed.

End lawful.

(** [exported_symbols] gives, for every name, the first symbol of the table that
    has the name, is defined in the file and is not local; there is no panic when the
    names of the symbols it looks at are in the string table. *)
Theorem elf_exports `{LawfulHashMap M} f symbols range strings names :
  dynamic_symbol_table f = Ret (Some (symbols, range)) → dynamic_string_table f = Ret (Some strings) → 0 ≤ strings.1 →
  Forall2 (export_ok f strings) symbols names →
  ∃ m : M, exported_symbols f = Ret m ∧ ∀ name, map_get m name = first_of name (omap (export_of f) (zip symbols names)).
Proof.
  intros Hsym Hstr Ht Hall. unfold exported_symbols. rewrite Hsym, Hstr. cbn [mbind outcome_bind expect].
  destruct (export_all f strings symbols names map_new Ht Hall) as (m & Hrun & Hm). exists m. split; [done|].
  intros name. by rewrite Hm, map_get_new.
Qed.

(** The byte of a symbol holds its binding in the high and its type in the low half;
    what the code takes for the binding is the type. *)
Theorem binding_is_type binding type :
  0 ≤ binding < 16 → 0 ≤ type < 16 → get_binding (binding * 16 + type) = type.
Proof.
  intros Hb Ht. unfold get_binding. change 0xf with (Z.ones 4). rewrite Z.land_ones by lia.
  rewrite Z.add_comm, Z.mod_add by lia. by apply Z.mod_small.
Qed.

(** ** A module that is moved and linked *)

#[global] Instance gmap_symbols : SymbolHashMap (gmap (list Z) ExportedSymbol) := {
  map_new := ∅;
  map_get m k := m !! k;
  map_insert m k v := <[k := v]> m;
  map_try_insert m k v := match m !! k with Some _ => Err v | None => Ok (<[k := v]> m) end
}.

#[global] Instance gmap_symbols_lawful : LawfulHashMap (gmap (list Z) ExportedSymbol).
Proof.
  split.
  - done.
  - intros m k v k'. simpl. destruct (decide (k' = k)) as [->|]; [apply lookup_insert_eq|by apply lookup_insert_ne].
  - done.
Qed.

(** The table of a module with one address to move and one function to import. *)
Definition demo_dynamic : list (Z * Z) :=
  [(7, 0x10a0); (8, 24); (5, 0x1108); (10, 5); (6, 0x10d8); (4, 0x10d0); (23, 0x10b8); (2, 24); (20, 7); (0, 0)].

Definition demo_contents : list Z :=
  concat ((λ p : Z * Z, le_bytes 8 p.1 ++ le_bytes 8 p.2) <$> demo_dynamic) ++
  le_bytes 8 0x1110 ++ le_bytes 8 8 ++ le_bytes 8 0x20 ++
  le_bytes 8 0x1118 ++ le_bytes 8 0x100000007 ++ le_bytes 8 0 ++
  le_bytes 4 1 ++ le_bytes 4 2 ++
  le_bytes 24 0 ++ le_bytes 4 1 ++ le_bytes 4 0x10011 ++ le_bytes 8 0x1000 ++ le_bytes 8 0x40 ++
  [0; 0x66; 0x6f; 0x6f; 0; 0; 0; 0] ++ le_bytes 16 0.

Definition demo_load : ProgramHeaderEntry64 := mkSegment LOAD 6 176 0x1000 0 288 288 8.
Definition demo_dynamic_segment : ProgramHeaderEntry64 := mkSegment DYNAMIC 6 176 0x1000 0 160 160 8.

Definition demo_image : Image :=
  mkImage 1 1 3 0x3e 1 0x1000 0 0 0 0 [demo_load; demo_dynamic_segment] demo_contents.

Definition demo_file : File :=
  mkFile 0 (mkFileHeader [0x7f; 0x45; 0x4c; 0x46] Width64 Little 1 SystemV Shared Amd64 1 (take 40 (drop 24 (image_bytes demo_image))))
    [demo_load; demo_dynamic_segment] [] 4096 (image_bytes demo_image).

Lemma demo_image_ok : image_ok demo_image.
Proof.
  split; try (by eexists); try (by split); try done.
  repeat constructor; simpl; lia.
Qed.

Lemma demo_file_ok : file_ok demo_file.
Proof.
  split; [done|done|]. repeat (constructor; [split_and!; vm_compute; (done || (split_and!; congruence))|]). constructor.
Qed.

Lemma demo_first addr : 0x1000 ≤ addr < 0x1120 → first_at demo_file addr demo_load.
Proof. intros Ha. exists [], [demo_dynamic_segment]. split_and!; [done|constructor|]. unfold at_address. simpl. lia. Qed.

Lemma demo_mutable : mutable_segment demo_file demo_load.
Proof. exists (64, 176), (0, 0). split_and!; [done|done|]. by repeat constructor. Qed.

Lemma elf_roundtrip_witness : ∃ f, file_try_new 4096 (image_bytes demo_image) = Ret (Ok f) ∧ entry_point (header f) = 0x1000.
Proof.
  destruct (elf_roundtrip 4096 demo_image demo_image_ok) as (f & Hrun & _ & _ & He & _); [done|done|]. by exists f.
Defined.

Lemma elf_address_bounds_witness : data_at_address demo_file 0x1110 = Ret (Some 448) ∧ 176 ≤ 448 < 464.
Proof.
  pose proof (elf_address_bounds demo_file 0x1110 demo_file_ok) as H.
  assert (data_at_address demo_file 0x1110 = Ret (Some 448)) as E by done. rewrite E in H. split; [exact E|].
  destruct H as (s & Hs & _ & _ & Hin). lia.
Defined.

Definition demo_relocs : list RelocationTableEntry := [Rela 0x1110 8 0x20].

Lemma elf_relocate_witness : ∃ f', relocate demo_file 0x8000 = Ret f' ∧ base f' = 0x8000 ∧ u64_at (data f') 448 = 0x8020.
Proof.
  destruct (elf_relocate demo_file 0x8000 demo_relocs demo_file_ok) as (f' & Hrun & Hb & _ & _ & Hp & _).
  - by vm_compute.
  - constructor; [|constructor]. split; [by eexists|]. exists demo_load. split; [|exact demo_mutable].
    split_and!; [done|done|apply demo_first; done|done|done].
  - by repeat constructor.
  - exists f'. split_and!; [exact Hrun|exact Hb|]. by apply Forall_cons_1, proj1 in Hp.
Defined.

Definition demo_symbols : gmap (list Z) ExportedSymbol := {[ [0x66; 0x6f; 0x6f] := mkExported Strong 0x1234 0 ]}.

Lemma elf_link_witness : ∃ f', link demo_file demo_symbols = Ret (Ok tt, f') ∧ u64_at (data f') 456 = 0x1234.
Proof.
  destruct (elf_link demo_file demo_symbols [mkSymbol 0 0 0 0 0 0; mkSymbol 1 0x11 0 1 0x1000 0x40] (392, 440) (440, 445)
    [Rela 0x1118 0x100000007 0] (360, 384) [[0x66; 0x6f; 0x6f]] demo_file_ok) as (k & r & f' & Hrun & Hk & _ & (_ & Hp & _) & _ & Hr);
    [by vm_compute|by vm_compute|by vm_compute|done| |by repeat constructor|].
  - constructor; [|constructor]. split_and!; [done|done| |].
    + eexists. split; [done|]. split; [done|by vm_compute].
    + exists demo_load. split; [split_and!; [done|done|apply demo_first; done|done|done]|by repeat constructor].
  - destruct r as [[]|name].
    + subst k. exists f'. split; [exact Hrun|]. by apply Forall_cons_1, proj1 in Hp.
    + destruct Hr as [Hn Hm]. destruct k as [|k]; [|done]. simpl in Hn. injection Hn as <-. done.
Defined.

Lemma elf_exports_witness :
  ∃ m : gmap (list Z) ExportedSymbol, exported_symbols demo_file = Ret m ∧
    map_get m [0x66; 0x6f; 0x6f] = Some (mkExported Strong 0x1000 0x40).
Proof.
  destruct (elf_exports (M:=gmap (list Z) ExportedSymbol) demo_file
    [mkSymbol 0 0 0 0 0 0; mkSymbol 1 0x11 0 1 0x1000 0x40] (392, 440) (440, 445) [[]; [0x66; 0x6f; 0x6f]]) as (m & Hrun & Hm);
    [by vm_compute|by vm_compute|done| |].
  - constructor; [intros H; discriminate H|]. constructor; [|constructor]. intros _. split; [split; [done|by vm_compute]|done].
  - exists m. split; [exact Hrun|]. by rewrite Hm.
Defined.
