(* ===== verification/ElfLoad.v ===== *)
(** * ElfLoad: loading the kernel

    [bootloader/src/elf.rs]: the segments of the kernel's file are copied into frames
    of the firmware and mapped where the file wants them.  The memory is the one the
    page tables are in; the bytes of a word are in little-endian order.  The
    firmware's [allocate_pages] is a parameter: an allocator, and a second operation
    of it for frames below an address. *)

From stdpp Require Import base gmap list numbers option.
From S2P Require Import Prelude Memory Allocator Bitmap PageTable Walk Paging AddressSpace BootPaging BootHandover Elf ElfLink.

Open Scope Z_scope.

(** ** Bytes of the memory *)

Definition get_byte (w k : Z) : Z := Z.land (Z.shiftr w (8 * k)) (Z.ones 8).
Definition set_byte (w k b : Z) : Z := Z.lor (Z.ldiff w (Z.shiftl (Z.ones 8) (8 * k))) (Z.shiftl b (8 * k)).

Definition frame_of (a : Z) : Z := a / 4096 * 4096.
Definition word_of (a : Z) : Z := a mod 4096 / 8.

Definition read_byte (m : memory) (a : Z) : Z := get_byte (m (frame_of a) (word_of a)) (a mod 8).
Definition write_byte (m : memory) (a b : Z) : memory := λ f i,
  if (f =? frame_of a) && (i =? word_of a) then set_byte (m f i) (a mod 8) b else m f i.

(** Bytes written one behind the other. *)
Fixpoint store (m : memory) (a : Z) (l : list Z) : memory :=
  match l with [] => m | b :: l => store (write_byte m a b) (a + 1) l end.

(** ** The loader *)

(** [uefi::table::boot::AllocateType], as far as it is used. *)
Inductive AllocateType := AnyPages | MaxAddress (a : Z).

Class FirmwarePages (S : Type) := allocate_max : S → Z → Z → outcome (result Frame AllocError * S).

Record LoadedSegment := mkLoaded { physical_addr : PhysicalAddress; virtual_addr : VirtualAddress; page_count : Z }.

(** [usize::div_ceil]. *)
Definition div_ceil (a b : Z) : Z := if 0 <? a mod b then a / b + 1 else a / b.

Section loader.
  Context {S : Type} `{BackingAllocator S} `{FirmwarePages S}.

Definition firmware_pages (s : S) (n : Z) (ty : AllocateType) : outcome (result Z AllocError * S) :=
  match ty with
  | AnyPages => boot_allocate s n
  | MaxAddress a =>
      '(r, s) ← allocate_max s n a;
      match r with Ok f => Ret (Ok (frame_addr f), s) | Err e => Ret (Err e, s) end
  end.

(** The bytes of a slice of the file. *)
Definition slice_bytes (f : File) (sl : Z * Z) : list Z := take (Z.to_nat (sl.2 - sl.1)) (drop (Z.to_nat sl.1) (data f)).

Definition allocation_type (segment : ProgramHeaderEntry64) : AllocateType :=
  if Z.land (segment_flags segment) LowMem =? LowMem then MaxAddress 0x100000 else AnyPages.

Definition load_segment (kernel : File) (segment : ProgramHeaderEntry64) (m : memory) (s : S) :
    outcome (result LoadedSegment unit * memory * S) :=
  let page_count := div_ceil (memory_size segment) 4096 in
  '(r, s) ← firmware_pages s page_count (allocation_type segment);
  match r with Err _ => Panic NotImplemented | Ok allocation =>
  loc ← file_location segment;
  sl ← index_data kernel loc;
  let m := store m allocation (slice_bytes kernel sl) in
  zeros ← usize_add allocation (file_size segment);
  count ← usize_sub (memory_size segment) (file_size segment);
  let m := store m zeros (replicate (Z.to_nat count) 0) in
  p ← Phys.new 1 allocation;
  v ← Virt.new 1 (vaddr segment);
  Ret (Ok (mkLoaded p v page_count), m, s) end.

(** The variables of [load_kernel] that its closure changes. *)
Record LoadState := mkLoad {
  kernel_first_page : VirtualAddress;
  kernel_last_page : VirtualAddress;
  tls_range : option (VirtualAddress * VirtualAddress);
  load_memory : memory;
  load_firmware : S
}.

(** The body of [try_for_each]. *)
Definition load_one (kernel : File) (root : Z) (segment_meta : ProgramHeaderEntry64) (st : LoadState) :
    outcome (result unit unit * LoadState) :=
  '(r, m, s) ← load_segment kernel segment_meta (load_memory st) (load_firmware st);
  match r with Err e => Ret (Err e, mkLoad (kernel_first_page st) (kernel_last_page st) (tls_range st) m s) | Ok segment =>
  let first := if va_addr (virtual_addr segment) <? va_addr (kernel_first_page st) then virtual_addr segment else kernel_first_page st in
  size ← usize_mul (page_count segment) 4096;
  last_page ← Virt.add (virtual_addr segment) size;
  let last := if va_addr (kernel_last_page st) <? va_addr last_page then last_page else kernel_last_page st in
  tls ← (if segment_type segment_meta =? TLS then
           e ← Virt.add (virtual_addr segment) (memory_size segment_meta); Ret (Some (virtual_addr segment, e))
         else Ret (tls_range st));
  '(r, m, s) ← try_map_range m root (va_addr (virtual_addr segment)) (pa_addr (physical_addr segment)) (page_count segment) s;
  _ ← expect_ok r;
  Ret (Ok tt, mkLoad first last tls m s) end.

Definition is_loadable (s : ProgramHeaderEntry64) : bool := (segment_type s =? LOAD) || (segment_type s =? TLS).

(** [segments().filter(..).try_for_each(..)]. *)
Fixpoint load_segments (kernel : File) (root : Z) (l : list ProgramHeaderEntry64) (st : LoadState) :
    outcome (result unit unit * LoadState) :=
  match l with
  | [] => Ret (Ok tt, st)
  | x :: l =>
      x ← rebase kernel x;
      if is_loadable x then
        '(r, st) ← load_one kernel root x st;
        match r with Err e => Ret (Err e, st) | Ok _ => load_segments kernel root l st end
      else load_segments kernel root l st
  end.

Record KernelLoadInfo := mkInfo {
  info_kernel : File;
  page_table : Z;
  address_range : VirtualAddress * VirtualAddress;
  info_tls : VirtualAddress * VirtualAddress
}.

Definition load_kernel (ptr : Z) (from : list Z) (m : memory) (s : S) : outcome (result KernelLoadInfo unit * memory * S) :=
  k ← file_try_new ptr from;
  match k with Err _ => Ret (Err tt, m, s) | Ok kernel =>
  '(r, m, s) ← boot_try_new m s;
  match r with Err _ => Ret (Err tt, m, s) | Ok root =>
  '(r, st) ← load_segments kernel root (program_header kernel) (mkLoad (mkVA usize_max) (mkVA 0) None m s);
  match r with Err _ => Ret (Err tt, load_memory st, load_firmware st) | Ok _ =>
  Ret (Ok (mkInfo kernel root (kernel_first_page st, kernel_last_page st) (default (mkVA 0, mkVA 0) (tls_range st))),
       load_memory st, load_firmware st) end end end.

End loader.
Arguments LoadState : clear implicits.

(** ** Reading what was written *)

Lemma get_set_byte w k b j :
  0 ≤ k → 0 ≤ j → 0 ≤ b < 256 → get_byte (set_byte w k b) j = if j =? k then b else get_byte w j.
Proof.
  intros Hk Hj Hb. apply Z.bits_inj'. intros n Hn. unfold get_byte, set_byte.
  rewrite Z.land_spec, Z.shiftr_spec, Z.lor_spec, Z.ldiff_spec, !Z.shiftl_spec by lia.
  destruct (Z.eqb_spec j k) as [->|Hne].
  - replace (n + 8 * k - 8 * k) with n by lia. destruct (decide (n < 8)).
    + rewrite Z.testbit_ones_nonneg, (proj2 (Z.ltb_lt _ _)) by lia. cbn [negb]. by rewrite andb_false_r, andb_true_r.
    + rewrite Z.testbit_ones_nonneg, (proj2 (Z.ltb_ge _ _)), andb_false_r by lia. by rewrite (testbit_above 8) by lia.
  - rewrite Z.land_spec, Z.shiftr_spec by lia. destruct (decide (n < 8)).
    + assert (Z.testbit (Z.ones 8) (n + 8 * j - 8 * k) = false ∧ Z.testbit b (n + 8 * j - 8 * k) = false) as [-> ->].
      { destruct (decide (n + 8 * j - 8 * k < 0)); [by rewrite !Z.testbit_neg_r|].
        split; apply (testbit_above 8); (done || lia). }
      by rewrite orb_false_r, andb_true_r.
    + by rewrite (Z.testbit_ones_nonneg 8 n), (proj2 (Z.ltb_ge n 8)), !andb_false_r by lia.
Qed.

(** An address is its frame, its word and its byte. *)
Lemma address_parts a b : frame_of a = frame_of b → word_of a = word_of b → a mod 8 = b mod 8 → a = b.
Proof. unfold frame_of, word_of. intros. Z.div_mod_to_equations. lia. Qed.

Lemma read_write_byte m a b x :
  0 ≤ b < 256 → read_byte (write_byte m a b) x = if x =? a then b else read_byte m x.
Proof.
  intros Hb. unfold read_byte, write_byte. pose proof (Z.mod_pos_bound x 8 ltac:(lia)). pose proof (Z.mod_pos_bound a 8 ltac:(lia)).
  destruct (Z.eqb_spec (frame_of x) (frame_of a)) as [Hf|Hf]; cbn [andb].
  - destruct (Z.eqb_spec (word_of x) (word_of a)) as [Hw|Hw].
    + rewrite get_set_byte by lia. destruct (Z.eqb_spec x a) as [->|Hne]; [by rewrite Z.eqb_refl|].
      rewrite (proj2 (Z.eqb_neq _ _)); [done|]. intros E. by apply Hne, address_parts.
    + destruct (Z.eqb_spec x a) as [->|]; done.
  - destruct (Z.eqb_spec x a) as [->|]; done.
Qed.

Lemma read_store m a l x :
  Forall is_byte l →
  read_byte (store m a l) x =
    if (a <=? x) && (x <? a + Z.of_nat (length l)) then byte_at l (Z.to_nat (x - a)) else read_byte m x.
Proof.
  intros Hl. revert m a. induction Hl as [|b l Hb Hl IH]; intros m a; cbn [store length].
  - destruct (Z.leb_spec a x), (Z.ltb_spec x (a + Z.of_nat 0)); cbn [andb]; (done || (exfalso; lia)).
  - rewrite IH, read_write_byte by done. destruct (Z.eqb_spec x a) as [->|Hne].
    + rewrite (proj2 (Z.leb_gt _ _)), (proj2 (Z.leb_le a a)), (proj2 (Z.ltb_lt a (a + Z.of_nat (Datatypes.S (length l))))) by lia. cbn [andb]. by rewrite Z.sub_diag.
    + destruct (Z.leb_spec (a + 1) x), (Z.leb_spec a x), (Z.ltb_spec x (a + 1 + Z.of_nat (length l))),
        (Z.ltb_spec x (a + Z.of_nat (Datatypes.S (length l)))); cbn [andb]; try (done || (exfalso; lia)).
      replace (Z.to_nat (x - a)) with (Datatypes.S (Z.to_nat (x - (a + 1)))) by lia. done.
Qed.

Lemma store_outside m a l f i :
  (∀ x, a ≤ x < a + Z.of_nat (length l) → frame_of x ≠ f) → store m a l f i = m f i.
Proof.
  revert m a. induction l as [|b l IH]; intros m a Hout; cbn [store length] in *; [done|]. rewrite IH by (intros x Hx; apply Hout; lia).
  unfold write_byte. rewrite (proj2 (Z.eqb_neq _ _)); [done|]. intros E. apply (Hout a); [lia|done].
Qed.

(** ** Filling frames of the firmware *)

(** The contract of [allocate_pages] with an address that the frames must not exceed. *)
Class LawfulFirmware (S : Type) `{LawfulAllocator S} `{FirmwarePages S} := {
  allocate_max_law s n a : alloc_inv s → 0 < n ≤ usize_max →
    ∃ r s', allocate_max s n a = Ret (r, s') ∧ alloc_inv s' ∧
    match r with
    | Ok f => wf_frame f ∧ frame_addr f + n * PAGE_SIZE ≤ a + 1 ∧ (∀ g, in_run f n g → alloc_free s g) ∧
        (∀ g, alloc_free s' g ↔ alloc_free s g ∧ ¬ in_run f n g)
    | Err _ => ∀ g, alloc_free s' g ↔ alloc_free s g
    end
}.

Section loading.
  Context {S : Type} `{LawfulFirmware S}.

Definition boot_table (root : Z) (m : memory) (b : Z) : Prop := is_table (boot_depth root) m b.

Lemma fill_walk root m m1 il a :
  (∀ b i, boot_table root m b → m1 b i = m b i) → entry_path (boot_depth root) a il → walk m1 a il = walk m a il.
Proof.
  intros Hsame Hp. apply walk_agree. intros js j ks b -> Hw. unfold next. rewrite Hsame; [done|].
  exists a, js. split; [by eapply entry_path_prefix|done].
Qed.

(** Frames that are not tables can be filled; nothing that was there is lost. *)
Lemma fill_kept root m m1 (s s' : S) :
  boot_inv root m s → alloc_inv s' → (∀ g, alloc_free s' g → alloc_free s g) →
  (∀ b i, ¬ alloc_free s (frame_at b) → m1 b i = m b i) →
  boot_inv root m1 s' ∧ kept root (m, s) (m1, s') ∧ (∀ q, boot_translate m1 root q = boot_translate m root q) ∧
  (∀ b, boot_table root m1 b → boot_table root m b).
Proof.
  intros [(Hf & Hinv & Hb) Hc Hz] Hinv' Hs Hsame.
  assert (∀ b i, boot_table root m b → m1 b i = m b i) as Htab.
  { intros b i (a & il & Hp & Hw). by apply Hsame, (table_ok _ m s Hf a il). }
  assert (∀ b, boot_table root m1 b → boot_table root m b) as Hback.
  { intros b (a & il & Hp & Hw). exists a, il. split; [done|]. rewrite <-Hw. symmetry. apply (fill_walk root); [done|by left]. }
  split_and!; [split| | |done].
  - split_and!; [|done|intros g Hg; by apply Hb, Hs].
    eapply forest_inv_same; [exact Hf| |done]. intros a il Hp. apply (fill_walk root); [done|by left].
  - intros b i Hb1%Hback. rewrite Htab by done. by apply Hc.
  - intros g Hg. by apply Hz, Hs.
  - split; cbn [fst snd].
    + intros il b Hp Hw. rewrite (fill_walk root m) by (done || by left). done.
    + intros a [Ht Hfr]. split; [split|]; [by intros ?%Hback|by intros ?%Hs|]. intros i. by apply Hsame.
  - intros q. apply (fill_walk root); [done|]. right. apply boot_leaf_path.
Qed.

(** ** Segments *)

Definition pages_of (seg : ProgramHeaderEntry64) : Z := div_ceil (memory_size seg) 4096.

Lemma div_ceil_page a : 0 < a → 0 < div_ceil a 4096 ∧ div_ceil a 4096 * 4096 < a + 4096 ∧ a ≤ div_ceil a 4096 * 4096.
Proof. intros Ha. unfold div_ceil. case_Z; Z.div_mod_to_equations; lia. Qed.

(** A segment that can be loaded at its address. *)
Record loads (f : File) (seg : ProgramHeaderEntry64) : Prop := {
  loads_inside : 0 ≤ file_offset seg ∧ 0 ≤ file_size seg ∧ file_offset seg + file_size seg ≤ data_len f;
  loads_size : file_size seg ≤ memory_size seg;
  loads_memory : 0 < memory_size seg ≤ 2 ^ 47;
  loads_aligned : vaddr seg mod 4096 = 0;
  loads_address : 0 ≤ vaddr seg ∧ vaddr seg + pages_of seg * 4096 ≤ usize_max
}.

(** Byte [k] of a segment in memory. *)
Definition segment_byte (f : File) (seg : ProgramHeaderEntry64) (k : Z) : Z :=
  if k <? file_size seg then byte_at (data f) (Z.to_nat (file_offset seg + k)) else 0.

Definition covers (seg : ProgramHeaderEntry64) (q : Z) : Prop := pages_behind (vaddr seg) q < pages_of seg.

(** A segment whose bytes are in the frames from [a] on and whose pages lead there. *)
Record placed (f : File) (root : Z) (m : memory) (s : S) (seg : ProgramHeaderEntry64) (a : Z) : Prop := {
  placed_aligned : a mod 4096 = 0;
  placed_private j : 0 ≤ j < pages_of seg → private root m s (a + j * 4096);
  placed_pages q : covers seg q → boot_translate m root q = Some (a + pages_behind (vaddr seg) q * 4096);
  placed_bytes k : 0 ≤ k < memory_size seg → read_byte m (a + k) = segment_byte f seg k
}.

(** ** The firmware *)

Definition firmware_step (s s' : S) : Prop := ∃ n ty r, firmware_pages s n ty = Ret (r, s').

(** The firmware refused a request on the way from [s] on. *)
Definition firmware_refused (s : S) : Prop :=
  ∃ s1 s2 n ty e, rtc firmware_step s s1 ∧ firmware_pages s1 n ty = Ret (Err e, s2).

Lemma firmware_any (s : S) n r s' :
  allocate_contiguous s n = Ret (r, s') →
  firmware_pages s n AnyPages = Ret (match r with Ok f => Ok (frame_addr f) | Err e => Err e end, s').
Proof. intros Ha. cbn [firmware_pages]. unfold boot_allocate. rewrite Ha. by destruct r. Qed.

Lemma take_one_step : subrelation take_one firmware_step.
Proof. intros s s' [r Hr]. exists 1, AnyPages. eexists. by apply firmware_any. Qed.

Lemma take_some_step : subrelation take_some firmware_step.
Proof. intros s s' (n & r & Hr). exists n, AnyPages. eexists. by apply firmware_any. Qed.

Lemma starved_refused s : boot_starved s → firmware_refused s.
Proof.
  intros (s1 & s2 & e & Hs & Ha). exists s1, s2, 1, AnyPages, e. split; [|by apply (firmware_any _ _ (Err e))].
  eapply rtc_subrel; [|exact Hs]. apply take_one_step.
Qed.

Lemma refused_refused s : refused s → firmware_refused s.
Proof.
  intros (s1 & s2 & n & e & Hs & Ha). exists s1, s2, n, AnyPages, e. split; [|by apply (firmware_any _ _ (Err e))].
  eapply rtc_subrel; [|exact Hs]. apply take_some_step.
Qed.

Lemma refused_later s s' : rtc firmware_step s s' → firmware_refused s' → firmware_refused s.
Proof. intros Hs (s1 & s2 & n & ty & e & Hs1 & Ha). exists s1, s2, n, ty, e. split; [by etrans|done]. Qed.

(** What a request gives. *)
Lemma firmware_pages_ok root m s n ty :
  boot_inv root m s → 0 < n ≤ usize_max →
  ∃ r s', firmware_pages s n ty = Ret (r, s') ∧ alloc_inv s' ∧ (∀ g, alloc_free s' g → alloc_free s g) ∧
    match r with
    | Ok a => a mod 4096 = 0 ∧ 0 ≤ a ∧ a + n * 4096 ≤ 2 ^ 47 ∧
        ∀ j, 0 ≤ j < n → alloc_free s (frame_at (a + j * 4096)) ∧ ¬ alloc_free s' (frame_at (a + j * 4096))
    | Err _ => True
    end.
Proof.
  intros [(_ & Hinv & Hlow) _ _] Hn.
  assert (∀ f s', wf_frame f → (∀ g, in_run f n g → alloc_free s g) → (∀ g, alloc_free s' g ↔ alloc_free s g ∧ ¬ in_run f n g) →
    frame_addr f mod 4096 = 0 ∧ 0 ≤ frame_addr f ∧ frame_addr f + n * 4096 ≤ 2 ^ 47 ∧
    ∀ j, 0 ≤ j < n → alloc_free s (frame_at (frame_addr f + j * 4096)) ∧ ¬ alloc_free s' (frame_at (frame_addr f + j * 4096))) as Hgood.
  { intros f s' [[Hpos _] Hm] Hrun Hfree. unfold PAGE_SIZE in *.
    assert (∀ j, 0 ≤ j < n → in_run f n (frame_at (frame_addr f + j * 4096))) as Hin by (intros j Hj; by exists j).
    pose proof (Hlow _ (Hrun _ (Hin (n - 1) ltac:(lia)))) as Hlast. cbn [frame_addr frame_base pa_addr] in Hlast. unfold frame_addr in *.
    split_and!; [done|done|Z.div_mod_to_equations; lia|]. intros j Hj. split; [by apply Hrun, Hin|].
    intros [_ Hno]%Hfree. by apply Hno, Hin. }
  destruct ty as [|a]; cbn [firmware_pages]; unfold boot_allocate.
  - destruct (alloc_contiguous_law s n Hinv Hn) as (r & s' & -> & Hinv' & Hr). cbn [mbind outcome_bind]. destruct r as [f|e].
    + destruct Hr as (Hwf & _ & Hrun & Hfree). eexists _, s'. split_and!; [done|done|naive_solver|by apply Hgood].
    + eexists _, s'. split_and!; [done|done|naive_solver|done].
  - destruct (allocate_max_law s n a Hinv Hn) as (r & s' & -> & Hinv' & Hr). cbn [mbind outcome_bind]. destruct r as [f|e].
    + destruct Hr as (Hwf & _ & Hrun & Hfree). eexists _, s'. split_and!; [done|done|naive_solver|by apply Hgood].
    + eexists _, s'. split_and!; [done|done|naive_solver|done].
Qed.

(** ** One segment *)

(** Addresses without an alignment are taken as they are. *)
Lemma land_all a : is_usize a → Z.land a (usize_not (1 - 1)) = a.
Proof. intros [??]. change (usize_not (1 - 1)) with (Z.ones 64). rewrite Z.land_ones by lia. apply Z.mod_small. lia. Qed.

Lemma phys_new_one a : is_usize a → Phys.new 1 a = Ret (mkPA a).
Proof. intros Ha. unfold Phys.new, Phys.align_down. cbn. rewrite land_all by done. by rewrite Z.eqb_refl. Qed.

Lemma virt_new_one a : is_usize a → Virt.new 1 a = Ret (mkVA a).
Proof. intros Ha. unfold Virt.new, Virt.align_down. cbn. rewrite land_all by done. by rewrite Z.eqb_refl. Qed.

Section segment.
  Context (f : File) (root : Z) (Hlen : data_len f < 2 ^ 63) (Hbytes : Forall is_byte (data f)).

(** The memory with a segment copied to [a]. *)
Definition with_segment (m : memory) (seg : ProgramHeaderEntry64) (a : Z) : memory :=
  store (store m a (slice_bytes f (file_offset seg, file_offset seg + file_size seg))) (a + file_size seg)
    (replicate (Z.to_nat (memory_size seg - file_size seg)) 0).

Lemma slice_length seg : loads f seg →
  Z.of_nat (length (slice_bytes f (file_offset seg, file_offset seg + file_size seg))) = file_size seg.
Proof.
  intros [(? & ? & ?) _ _ _ _]. unfold slice_bytes, data_len in *. cbn [fst snd]. rewrite length_take, length_drop. lia.
Qed.

Lemma with_segment_byte m seg a k :
  loads f seg → 0 ≤ k < memory_size seg → read_byte (with_segment m seg a) (a + k) = segment_byte f seg k.
Proof using Hbytes.
  intros Hl Hk. pose proof (slice_length seg Hl) as Hsl. destruct Hl as [(? & ? & ?) ? _ _ _]. unfold with_segment.
  rewrite read_store by (apply Forall_replicate; done). rewrite length_replicate, Z2Nat.id by lia.
  unfold segment_byte. destruct (Z.ltb_spec k (file_size seg)).
  - rewrite (proj2 (Z.leb_gt _ _)) by lia. cbn [andb].
    rewrite read_store by (apply Forall_take, Forall_drop; done). rewrite Hsl.
    rewrite (proj2 (Z.leb_le _ _)), (proj2 (Z.ltb_lt _ _)) by lia. cbn [andb]. unfold slice_bytes. cbn [fst snd].
    rewrite byte_at_slice by lia. f_equal. lia.
  - rewrite (proj2 (Z.leb_le _ _)), (proj2 (Z.ltb_lt _ _)) by lia. cbn [andb].
    unfold byte_at. rewrite lookup_replicate_2 by lia. done.
Qed.

Lemma with_segment_outside m seg a b i :
  loads f seg → a mod 4096 = 0 → (∀ j, 0 ≤ j < pages_of seg → b ≠ a + j * 4096) → with_segment m seg a b i = m b i.
Proof.
  intros Hl Ha Hb. pose proof (slice_length seg Hl) as Hsl. destruct Hl as [(? & ? & ?) ? ? _ _].
  destruct (div_ceil_page (memory_size seg) ltac:(lia)) as (_ & _ & Hup). fold (pages_of seg) in Hup.
  assert (∀ x, a ≤ x < a + memory_size seg → frame_of x ≠ b) as Hout.
  { intros x Hx E. apply (Hb ((x - a) / 4096)); unfold frame_of in *; Z.div_mod_to_equations; lia. }
  unfold with_segment. rewrite !store_outside; [done| |]; intros x Hx; apply Hout; rewrite ?length_replicate in Hx; lia.
Qed.

Lemma load_segment_ok m s seg :
  boot_inv root m s → loads f seg →
  (load_segment f seg m s = Panic NotImplemented ∧ firmware_refused s) ∨
  ∃ a m1 s1, load_segment f seg m s = Ret (Ok (mkLoaded (mkPA a) (mkVA (vaddr seg)) (pages_of seg)), m1, s1) ∧
    boot_inv root m1 s1 ∧ kept root (m, s) (m1, s1) ∧ firmware_step s s1 ∧
    (∀ q, boot_translate m1 root q = boot_translate m root q) ∧ a mod 4096 = 0 ∧ 0 ≤ a ∧ a + pages_of seg * 4096 ≤ 2 ^ 47 ∧
    (∀ j, 0 ≤ j < pages_of seg → private root m1 s1 (a + j * 4096)) ∧
    ∀ k, 0 ≤ k < memory_size seg → read_byte m1 (a + k) = segment_byte f seg k.
Proof using All.
  intros Hok Hl. pose proof Hl as [(? & ? & ?) ? ? _ [? ?]]. destruct (div_ceil_page (memory_size seg)) as (Hp0 & Hp1 & Hp2); [lia|].
  fold (pages_of seg) in Hp0, Hp1, Hp2. unfold load_segment. fold (pages_of seg).
  destruct (firmware_pages_ok root m s (pages_of seg) (allocation_type seg) Hok) as (r & s1 & Hrun & Hinv & Hfree & Hr); [lia|].
  rewrite Hrun. cbn [mbind outcome_bind]. destruct r as [a|e].
  2: { left. split; [done|]. exists s, s1, (pages_of seg), (allocation_type seg), e. split; [constructor|done]. }
  right. destruct Hr as (Ha & Ha0 & Ha47 & Hrange). unfold file_location.
  rewrite (usize_add_ok (file_offset seg)) by lia. cbn [mbind outcome_bind]. unfold index_data. cbn [fst snd]. rewrite !(proj2 (Z.leb_le _ _)) by lia. cbn [andb mbind outcome_bind].
  rewrite usize_add_ok by lia. cbn [mbind outcome_bind]. rewrite usize_sub_ok by lia. cbn [mbind outcome_bind].
  fold (with_segment m seg a). destruct (fill_kept root m (with_segment m seg a) s s1 Hok Hinv Hfree) as (Hok1 & Hkept & Htr & Htab).
  { intros b i Hb. apply with_segment_outside; [done|done|]. intros j Hj ->. by apply Hb, Hrange. }
  exists a, (with_segment m seg a), s1. split_and!; try done.
  - rewrite phys_new_one, virt_new_one by (unfold is_usize; lia). done.
  - by exists (pages_of seg), (allocation_type seg), (Ok a).
  - intros j Hj. destruct (Hrange j Hj) as [Hf Hnf]. split; [|done]. intros (b & il & Hp & Hw)%Htab.
    destruct Hok as [(Hfi & _) _ _]. by destruct (table_ok _ m s Hfi b il _ Hp Hw) as [_ ?].
  - intros k Hk. by apply with_segment_byte.
Qed.

(** ** All segments *)

(** The range of the thread-local segment that was loaded last. *)
Fixpoint tls_of (done : list (ProgramHeaderEntry64 * Z)) : option (VirtualAddress * VirtualAddress) :=
  match done with
  | [] => None
  | (seg, _) :: done => if segment_type seg =? TLS then Some (mkVA (vaddr seg), mkVA (vaddr seg + memory_size seg)) else tls_of done
  end.

(** The state after some segments, the last one first. *)
Record loading (tables : Z) (st : LoadState S) (done : list (ProgramHeaderEntry64 * Z)) : Prop := {
  loading_boot : boot_inv root (load_memory st) (load_firmware st);
  loading_half : kernel_half (load_memory st) root tables;
  loading_done : Forall (λ p, placed f root (load_memory st) (load_firmware st) p.1 p.2) done;
  loading_rest q : Forall (λ p, ¬ covers p.1 q) done → boot_translate (load_memory st) root q = None;
  loading_range : Forall (λ p, va_addr (kernel_first_page st) ≤ vaddr p.1 ∧
    vaddr p.1 + pages_of p.1 * 4096 ≤ va_addr (kernel_last_page st)) done;
  loading_tls : tls_range st = tls_of done
}.

Lemma placed_kept m s m' s' seg a :
  kept root (m, s) (m', s') → (∀ q, covers seg q → boot_translate m' root q = boot_translate m root q) →
  placed f root m s seg a → 0 < memory_size seg → placed f root m' s' seg a.
Proof.
  intros [_ Hk] Htr [Ha Hp Hq Hb] Hm. cbn [fst snd] in Hk. destruct (div_ceil_page (memory_size seg) Hm) as (_ & _ & Hup).
  fold (pages_of seg) in Hup. split; [done| | |].
  - intros j Hj. by apply Hk, Hp.
  - intros q Hc. rewrite Htr by done. by apply Hq.
  - intros k Hk1. rewrite <-Hb by done. unfold read_byte. f_equal.
    assert (frame_of (a + k) = a + k / 4096 * 4096) as -> by (unfold frame_of; Z.div_mod_to_equations; lia).
    apply Hk, Hp. Z.div_mod_to_equations. lia.
Qed.

(** Mapping the frames of a segment that nothing is mapped to yet. *)
Lemma map_segment_ok m s seg a :
  boot_inv root m s → loads f seg → a mod 4096 = 0 → 0 ≤ a → a + pages_of seg * 4096 ≤ 2 ^ 47 →
  (∀ q, covers seg q → boot_translate m root q = None) →
  ∃ r m' s', try_map_range m root (vaddr seg) a (pages_of seg) s = Ret (r, m', s') ∧ rtc firmware_step s s' ∧
    match r with
    | Ok _ => boot_inv root m' s' ∧ kept root (m, s) (m', s') ∧
        ∀ q, boot_translate m' root q = with_range m root (vaddr seg) a (pages_of seg) q
    | Err _ => firmware_refused s
    end.
Proof using All.
  intros Hok [_ ? ? Hv [? ?]] Ha Ha0 Ha47 Hfree. destruct (div_ceil_page (memory_size seg)) as (? & ? & ?); [lia|]. fold (pages_of seg) in *.
  unfold try_map_range, try_map_range_with.
  destruct (map_range_ok root m (vaddr seg) a 0 (pages_of seg) (Z.to_nat (pages_of seg)) 0 m s Hok)
    as (r & m' & s' & k & Hrun & Hok' & Hk' & Hs' & Hk & Hq & Hr); try (done || lia).
  { intros q. by rewrite with_range_0. }
  { intros k _. apply Z.bits_0. }
  rewrite Z2Nat.id in Hrun by lia. exists r, m', s'. split_and!; [done|eapply rtc_subrel; [|exact Hs']; apply take_one_step|].
  destruct r as [[]|[|e]].
  - subst k. done.
  - destruct Hr as [Hlt [x Hx]]. rewrite Hfree in Hx; [done|]. unfold covers.
    by rewrite (proj2 (pages_behind_step (vaddr seg) k _ ltac:(lia)) eq_refl).
  - apply starved_refused. by destruct Hr.
Qed.

Lemma load_one_ok tables st done seg :
  loading tables st done → Forall (λ p, 0 < memory_size p.1) done → loads f seg →
  Forall (λ p, ∀ q, covers p.1 q → covers seg q → False) done →
  (∃ r, load_one f root seg st = Panic r ∧ (r = NotImplemented ∨ r = UnwrapFailed) ∧ firmware_refused (load_firmware st)) ∨
  ∃ a st', load_one f root seg st = Ret (Ok tt, st') ∧ loading tables st' ((seg, a) :: done) ∧
    rtc firmware_step (load_firmware st) (load_firmware st').
Proof using All.
  intros [Hok Hhalf Hdone Hrest Hrange Htls] Hpos Hl Hdis. destruct st as [first last tls m s].
  cbn [load_memory load_firmware kernel_first_page kernel_last_page tls_range] in *. unfold load_one.
  cbn [load_memory load_firmware kernel_first_page kernel_last_page tls_range].
  destruct (load_segment_ok m s seg Hok Hl) as [[-> ?]|(a & m1 & s1 & -> & Hok1 & Hk1 & Hs1 & Htr & Ha & Ha0 & Ha47 & Hpriv & Hb)].
  { left. by exists NotImplemented; auto. }
  cbn [mbind outcome_bind virtual_addr physical_addr page_count va_addr pa_addr].
  pose proof Hl as [_ ? ? Hv [? ?]]. destruct (div_ceil_page (memory_size seg)) as (? & ? & ?); [lia|]. fold (pages_of seg) in *.
  rewrite usize_mul_ok by lia. cbn [mbind outcome_bind]. unfold Virt.add. cbn [va_addr].
  rewrite (usize_add_ok (vaddr seg) (pages_of seg * 4096)) by lia. cbn [mbind outcome_bind].
  assert ((if segment_type seg =? TLS then e ← (s ← usize_add (vaddr seg) (memory_size seg); Ret (mkVA s)); Ret (Some (mkVA (vaddr seg), e))
    else Ret tls) = Ret (tls_of ((seg, a) :: done))) as ->.
  { cbn [tls_of]. destruct (segment_type seg =? TLS); [|by rewrite Htls]. by rewrite usize_add_ok by lia. }
  cbn [mbind outcome_bind].
  destruct (map_segment_ok m1 s1 seg a Hok1 Hl Ha Ha0 Ha47) as (r & m2 & s2 & -> & Hs2 & Hr).
  { intros q Hc. rewrite Htr. apply Hrest. eapply Forall_impl; [|exact Hdis]. intros p Hp Hcp. by eapply Hp. }
  cbn [mbind outcome_bind]. destruct r as [[]|e]; cbn [expect_ok mbind outcome_bind].
  2: { left. exists UnwrapFailed. split_and!; [done|by right|]. eapply refused_later; [by apply rtc_once|done]. }
  right. destruct Hr as (Hok2 & Hk2 & Hq). exists a. eexists. split; [reflexivity|].
  cbn [load_memory load_firmware kernel_first_page kernel_last_page tls_range].
  assert (kept root (m, s) (m2, s2)) as Hk by (by etrans).
  split; [|by eapply rtc_l]. split; cbn [load_memory load_firmware kernel_first_page kernel_last_page tls_range]; [done| | | | |done].
  - by eapply kernel_half_kept.
  - constructor.
    + cbn [fst snd]. destruct Hk2 as [_ Hk2]. cbn [fst snd] in Hk2.
      split; [done|intros j Hj; by apply Hk2, Hpriv| |].
      * intros q Hc. rewrite Hq. unfold with_range. by rewrite (proj2 (Z.ltb_lt _ _)).
      * intros k Hk3. rewrite <-Hb by done. unfold read_byte. f_equal.
        assert (frame_of (a + k) = a + k / 4096 * 4096) as -> by (unfold frame_of; Z.div_mod_to_equations; lia).
        apply Hk2, Hpriv. Z.div_mod_to_equations. lia.
    + rewrite Forall_forall in Hdone, Hpos, Hdis |- *. intros p Hp. apply (placed_kept m s); [done| |by apply Hdone|by apply Hpos].
      intros q Hc. rewrite Hq. unfold with_range. rewrite (proj2 (Z.ltb_ge _ _)); [apply Htr|].
      apply Z.nlt_ge. intros Hc2. by apply (Hdis p Hp q).
  - intros q Hc. apply Forall_cons_1 in Hc as [Hc Hcs]. rewrite Hq. unfold with_range, covers in *. cbn [fst] in Hc.
    rewrite (proj2 (Z.ltb_ge _ _)) by lia. rewrite Htr. by apply Hrest.
  - constructor; cbn [fst].
    + repeat case_Z; cbn [va_addr] in *; lia.
    + eapply Forall_impl; [|exact Hrange]. intros p [??]. repeat case_Z; cbn [va_addr] in *; lia.
Qed.

Definition pages_apart (a b : ProgramHeaderEntry64) : Prop := ∀ q, covers a q → covers b q → False.

(** The segments that are loaded, in the order of the file. *)
Definition loadable (l : list ProgramHeaderEntry64) : list ProgramHeaderEntry64 := List.filter is_loadable l.

Lemma rebase_zero seg : base f = 0 → vaddr seg ≤ usize_max → rebase f seg = Ret seg.
Proof. intros Hb Hv. unfold rebase. rewrite usize_add_ok, Hb, Z.add_0_r by lia. by destruct seg. Qed.

Lemma load_segments_ok tables l st done :
  base f = 0 → loading tables st done → Forall (λ p, 0 < memory_size p.1) done → Forall (λ x, vaddr x ≤ usize_max) l →
  Forall (loads f) (loadable l) → ForallOrdPairs pages_apart (loadable l) →
  Forall (λ p, Forall (pages_apart p.1) (loadable l)) done →
  (∃ r, load_segments f root l st = Panic r ∧ (r = NotImplemented ∨ r = UnwrapFailed) ∧ firmware_refused (load_firmware st)) ∨
  ∃ done' st', load_segments f root l st = Ret (Ok tt, st') ∧ loading tables st' done' ∧
    (∀ x, x ∈ fst <$> done' ↔ x ∈ loadable l ∨ x ∈ fst <$> done).
Proof using All.
  intros Hb. revert st done. induction l as [|x l IH]; intros st done Hst Hpos Hv Hl Hap Hd.
  { right. exists done, st. split_and!; [done|done|]. intros x. cbn. set_solver. }
  apply Forall_cons_1 in Hv as [Hx Hv]. cbn [load_segments]. rewrite rebase_zero by done. cbn [mbind outcome_bind].
  unfold loadable in Hl, Hap, Hd |- *. cbn [List.filter] in Hl, Hap, Hd |- *. destruct (is_loadable x); [|by apply IH].
  apply Forall_cons_1 in Hl as [Hlx Hl]. inversion_clear Hap as [|? ? Hax Hal].
  assert (Forall (λ p, ∀ q, covers p.1 q → covers x q → False) done) as Hdx.
  { eapply Forall_impl; [|exact Hd]. intros p Hp. by apply Forall_cons_1 in Hp as [? _]. }
  destruct (load_one_ok tables st done x Hst Hpos Hlx Hdx) as [(r & -> & Hr & Href)|(a & st' & -> & Hst' & Hs)].
  { left. by exists r. }
  cbn [mbind outcome_bind]. pose proof (loads_memory f x Hlx).
  destruct (IH st' ((x, a) :: done) Hst') as [(r & -> & Hr & Href)|(done' & st2 & -> & Hst2 & Hin)]; try done.
  - constructor; [cbn [fst]; lia|done].
  - constructor; [done|]. eapply Forall_impl; [|exact Hd]. intros p Hp. by apply Forall_cons_1 in Hp as [_ ?].
  - left. exists r. split_and!; [done|done|]. by eapply refused_later.
  - right. exists done', st2. split_and!; [done|done|]. intros y. rewrite Hin. cbn. set_solver.
Qed.

(** Where the bytes of a placed segment are found. *)
Lemma pages_behind_offset v k : v mod 4096 = 0 → 0 ≤ k < 2 ^ 48 → pages_behind v (v + k) = k / 4096.
Proof.
  intros Hv Hk. assert (0 ≤ k / 4096 < 2 ^ 36) by (Z.div_mod_to_equations; lia).
  apply pages_behind_step; [done|]. unfold page_key. f_equal. Z.div_mod_to_equations. lia.
Qed.

Lemma placed_read m s seg a k :
  boot_inv root m s → loads f seg → placed f root m s seg a → 0 ≤ k < memory_size seg →
  ∃ fr, boot_translate_page m root (vaddr seg + k) = Ret (Some fr) ∧
    read_byte m (fr + (vaddr seg + k) mod 4096) = segment_byte f seg k.
Proof.
  intros Hok [_ _ ? Hv _] [Ha _ Hq Hb] Hk. destruct (div_ceil_page (memory_size seg)) as (_ & _ & ?); [lia|]. fold (pages_of seg) in *.
  pose proof (pages_behind_offset (vaddr seg) k Hv ltac:(lia)) as E.
  exists (a + k / 4096 * 4096). rewrite (boot_translate_ok root m s), Hq, E by (done || (unfold covers; rewrite E; Z.div_mod_to_equations; lia)).
  split; [done|]. rewrite <-Hb by done. f_equal. Z.div_mod_to_equations. lia.
Qed.

End segment.
End loading.

Lemma file_try_new_fields ptr d f : file_try_new ptr d = Ret (Ok f) → base f = 0 ∧ data f = d.
Proof.
  unfold file_try_new. intros H. case_match; [done|]. case_match; [|done].
  repeat (inv_ret; match goal with a : Z * Z |- _ => destruct a end). inv_ret. by simplify_eq.
Qed.

(** ** Properties *)


(** *** The property at work *)

(** A firmware that looks at what it would give and keeps it when it is too high. *)
#[global] Instance demo_firmware_pages : FirmwarePages BitmapAllocator := λ s n a,
  '(r, s') ← allocate_contiguous s n;
  match r with
  | Ok f => if frame_addr f + n * PAGE_SIZE <=? a + 1 then Ret (Ok f, s') else Ret (Err AllocErr, s)
  | Err e => Ret (Err e, s')
  end.

#[global] Instance demo_lawful_firmware : LawfulFirmware BitmapAllocator.
Proof.
  split. intros s n a Hinv Hn. destruct (alloc_contiguous_law s n Hinv Hn) as (r & s' & Ha & Hinv' & Hr).
  unfold allocate_max, demo_firmware_pages. rewrite Ha. cbn [mbind outcome_bind]. destruct r as [f|e].
  - destruct Hr as (Hwf & _ & Hrun & Hfree). case_Z.
    + by exists (Ok f), s'.
    + by exists (Err AllocErr), s.
  - by exists (Err e), s'.
Qed.

Lemma demo_image_parsed : file_try_new 4096 (image_bytes demo_image) = Ret (Ok demo_file).
Proof. vm_compute. reflexivity. Qed.

Lemma demo_image_bytes : Forall is_byte (image_bytes demo_image).
Proof.
  assert (forallb (λ b, (0 <=? b) && (b <? 256)) (image_bytes demo_image) = true) as Hb by (vm_compute; reflexivity).
  apply Forall_forall. intros b Hin. rewrite forallb_forall in Hb. specialize (Hb b Hin).
  apply andb_true_iff in Hb as [?%Z.leb_le ?%Z.ltb_lt]. by split.
Qed.

Lemma demo_loads : Forall (loads demo_file) (loadable (program_header demo_file)).
Proof. by repeat constructor. Qed.

