(* ===== verification/VirtualMemory.v ===== *)
(** * VirtualMemory: the [VirtualAllocator] interface

    The trait of [kernel_api/src/memory/virtual.rs] and what its clients rely on.
    [VirtualAllocator] is the record of the operations over a state, and
    [LawfulVirtual] the contract: the allocator owns a set of runs of pages that
    are apart from each other; an allocation adds a run and giving one back takes
    it away.  [VirtAlloc] discharges the contract and [Mapping] is proved against
    it.  [OwnedPages] and [Bootstrap], the allocator the kernel starts with
    ([kernel/src/memory/virtual.rs]), are here too. *)

From stdpp Require Import base gmap list numbers option.
From S2P Require Import Prelude Memory.

Open Scope Z_scope.

Class VirtualAllocator (V : Type) := {
  allocate_pages : V → Z → outcome (result Page AllocError * V);
  allocate_pages_at : V → Page → Z → outcome (result Page AllocError * V);
  deallocate_pages : V → Page → Z → outcome V
}.

(** The page [q] is one of the [n] from [p] on. *)
Definition in_pages (p : Page) (n : Z) (q : Page) : Prop :=
  page_addr p ≤ page_addr q < page_addr p + n * PAGE_SIZE.

#[global] Instance in_pages_dec p n q : Decision (in_pages p n q).
Proof. unfold in_pages. apply _. Defined.

Definition apart (p : Page) (n : Z) (q : Page) (k : Z) : Prop :=
  page_addr p + n * PAGE_SIZE ≤ page_addr q ∨ page_addr q + k * PAGE_SIZE ≤ page_addr p.

(** The contract.  [vfits v n] is what a request must satisfy for the allocator
    to keep inside its range, [vfits_at] the same for a given place. *)
Class LawfulVirtual (V : Type) `{VirtualAllocator V} := {
  vinv : V → Prop;
  vowned : V → Page → Z → Prop;
  vlow : V → Z;
  vfits : V → Z → Prop;
  vfits_at : V → Page → Z → Prop;
  vowned_ok v p n : vinv v → vowned v p n →
    wf_page p ∧ 0 < n ∧ vlow v ≤ page_addr p ∧ page_addr p + n * PAGE_SIZE ≤ usize_max;
  vowned_apart v p n q k : vinv v → vowned v p n → vowned v q k → (p, n) = (q, k) ∨ apart p n q k;
  allocate_pages_law v n r v' : vinv v → 0 < n → vfits v n → allocate_pages v n = Ret (r, v') →
    vinv v' ∧ vlow v' = vlow v ∧
    match r with
    | Ok p => (∀ q k, vowned v q k → apart p n q k) ∧
        ∀ q k, vowned v' q k ↔ (q, k) = (p, n) ∨ vowned v q k
    | Err _ => ∀ q k, vowned v' q k ↔ vowned v q k
    end;
  allocate_pages_at_law v p n r v' : vinv v → 0 < n → vfits_at v p n → allocate_pages_at v p n = Ret (r, v') →
    vinv v' ∧ vlow v' = vlow v ∧
    match r with
    | Ok p' => p' = p ∧ (∀ q k, vowned v q k → apart p n q k) ∧
        ∀ q k, vowned v' q k ↔ (q, k) = (p, n) ∨ vowned v q k
    | Err _ => ∀ q k, vowned v' q k ↔ vowned v q k
    end;
  deallocate_pages_law v p n : vinv v → vowned v p n →
    ∃ v', deallocate_pages v p n = Ret v' ∧ vinv v' ∧ vlow v' = vlow v ∧
      ∀ q k, vowned v' q k ↔ vowned v q k ∧ (q, k) ≠ (p, n)
}.

(** What a client that only extends a region relies on: the pages that may still
    be handed out, of which an allocation at a place takes its run. *)
Class FreshVirtual (V : Type) `{VirtualAllocator V} := {
  fresh_inv : V → Prop;
  fresh : V → Page → Prop;
  fresh_fits : V → Page → Z → Prop;
  fresh_at_law v p n : fresh_inv v → 0 < n → wf_page p → fresh_fits v p n →
    ∃ r v', allocate_pages_at v p n = Ret (r, v') ∧ fresh_inv v' ∧ (∀ q, fresh v' q → fresh v q) ∧
      match r with
      | Ok p' => p' = p ∧ page_addr p + n * PAGE_SIZE ≤ usize_max ∧ ∀ q, in_pages p n q → fresh v q ∧ ¬ fresh v' q
      | Err _ => True
      end
}.

(** ** Owned pages *)

(** [OwnedPages]; the allocator is the state that is passed around. *)
Record OwnedPages := mkOwnedPages { pages_base : Page; pages_len : Z }.

Section Owned.
Context {V : Type} `{VirtualAllocator V}.

(** [OwnedPages::new_with], also [new] with the global allocator. *)
Definition owned_pages_new (len : Z) (v : V) : outcome (result OwnedPages AllocError * V) :=
  '(r, v) ← allocate_pages v len;
  match r with
  | Ok base => Ret (Ok (mkOwnedPages base len), v)
  | Err e => Ret (Err e, v)
  end.

(** [Drop for OwnedPages]. *)
Definition owned_pages_drop (o : OwnedPages) (v : V) : outcome V :=
  deallocate_pages v (pages_base o) (pages_len o).

End Owned.

(** ** The allocator of the early boot *)

Record Bootstrap := mkBootstrap { bootstrap_start : Z; bootstrap_end : Z }.

(** [fetch_byte_add] wraps around; [len * 4096] is checked. *)
Definition bootstrap_allocate (b : Bootstrap) (len : Z) : outcome (result Page AllocError * Bootstrap) :=
  let old := bootstrap_start b in
  b ← (if len =? 0 then Ret b
       else n ← usize_mul len 4096; Ret (mkBootstrap ((old + n) mod 2 ^ 64) (bootstrap_end b)));
  if bootstrap_end b <? old then Ret (Err AllocErr, b) else
  v ← Virt.new PAGE_SIZE old;
  Ret (Ok (mkPage v), b).

(** The exchange cannot fail when no other core allocates. *)
Definition bootstrap_allocate_at (b : Bootstrap) (at_ : Page) (len : Z) :
    outcome (result Page AllocError * Bootstrap) :=
  let current_end := bootstrap_start b in
  if negb (current_end =? page_addr at_) then Ret (Err AllocErr, b) else
  if bootstrap_end b <? current_end then Ret (Err AllocErr, b) else
  n ← usize_mul len 4096;
  Ret (Ok at_, mkBootstrap ((current_end + n) mod 2 ^ 64) (bootstrap_end b)).

#[global] Instance bootstrap_virtual : VirtualAllocator Bootstrap := {
  allocate_pages := bootstrap_allocate;
  allocate_pages_at := bootstrap_allocate_at;
  deallocate_pages := λ b _ _, Ret b
}.

Lemma virt_new_page a : is_usize a → a mod PAGE_SIZE = 0 → Virt.new PAGE_SIZE a = Ret (mkVA a).
Proof.
  intros Ha Hm. unfold Virt.new, Virt.align_down. rewrite usize_sub_ok by (unfold PAGE_SIZE; lia).
  cbn [mbind outcome_bind va_addr]. change PAGE_SIZE with (2 ^ 12). rewrite mask_low_bits by (lia || done).
  change (2 ^ 12) with PAGE_SIZE. rewrite Hm, Z.sub_0_r. by rewrite Z.eqb_refl.
Qed.

(** The allocator of the early boot hands out what is next, however long the
    request is, as long as the region is not already used up before it. *)
Theorem bootstrap_ignores_length b len :
  bootstrap_start b mod PAGE_SIZE = 0 → 0 ≤ bootstrap_start b ≤ bootstrap_end b →
  0 < len → bootstrap_start b + len * PAGE_SIZE < 2 ^ 64 →
  bootstrap_allocate b len =
    Ret (Ok (page_at (bootstrap_start b)), mkBootstrap (bootstrap_start b + len * PAGE_SIZE) (bootstrap_end b)).
Proof.
  intros Hm Hle Hlen Hov. unfold PAGE_SIZE in *. unfold bootstrap_allocate.
  rewrite (proj2 (Z.eqb_neq len 0)) by lia. rewrite usize_mul_ok by lia. cbn [mbind outcome_bind bootstrap_end].
  rewrite (proj2 (Z.ltb_ge (bootstrap_end b) (bootstrap_start b))) by lia.
  rewrite virt_new_page by (done || unfold is_usize; lia). cbn [mbind outcome_bind]. by rewrite Z.mod_small by lia.
Qed.

(** To this allocator everything behind its start is still to be handed out. *)
#[global] Instance bootstrap_fresh : FreshVirtual Bootstrap.
Proof.
  refine {| fresh_inv b := is_usize (bootstrap_start b) ∧ bootstrap_start b mod PAGE_SIZE = 0;
    fresh b q := bootstrap_start b ≤ page_addr q;
    fresh_fits b p n := page_addr p + n * PAGE_SIZE ≤ usize_max |}.
  intros b p n [Hu Hm] Hn [[Hp _] Hpm] Hf. simpl. unfold bootstrap_allocate_at, PAGE_SIZE, is_usize in *.
  destruct (Z.eqb_spec (bootstrap_start b) (page_addr p)) as [E|E]; simpl; [|by eexists _, b].
  destruct (Z.ltb_spec (bootstrap_end b) (bootstrap_start b)); [by eexists _, b|].
  rewrite usize_mul_ok by lia. cbn [mbind outcome_bind]. eexists _, _. split; [done|]. cbn [bootstrap_start].
  rewrite Z.mod_small by lia. split_and!; [lia|lia| |intros q; lia|done|done|].
  - rewrite Z.mod_add by done. lia.
  - unfold in_pages, PAGE_SIZE. intros q. lia.
Defined.
