(* ===== verification/RangedBtree.v ===== *)
(** * RangedBtree: a map keyed by disjoint ranges

    [ranged_btree/src/lib.rs].  The map is a [BTreeMap] whose keys are ranges
    that compare equal when they overlap, and points that compare equal to the
    ranges they lie in.  [BTreeMap] is the list of its entries in key order,
    searched from the front with the comparison of the keys, the way a node of
    the tree is searched; on the maps that satisfy [wf_map] the comparison is a
    total order on the keys and the shape of the tree does not matter. *)

From stdpp Require Import base gmap list numbers option strings.
From S2P Require Import Prelude Memory.

Open Scope Z_scope.

(** The [Ord] instances of the sources all compare an unsigned number. *)
Class Ord (K : Type) := ord_key : K → Z.

#[global] Instance ord_Z : Ord Z := λ z, z.
#[global] Instance ord_Page : Ord Page := page_addr.

Inductive KeyType (K : Type) := KRange (start end_ : K) | KPoint (p : K).
Arguments KRange {K}.
Arguments KPoint {K}.

Record RangedBTreeMap (K V : Type) := mkMap { inner : list (KeyType K * V) }.
Arguments mkMap {K V}.
Arguments inner {K V}.

Section Operations.
Context {K V : Type} `{Ord K}.
Implicit Types (m : RangedBTreeMap K V) (l : list (KeyType K * V)).

(** [Ord::cmp] on the underlying keys. *)
Definition gtb (a b : K) : bool := ord_key b <? ord_key a.
Definition geb (a b : K) : bool := ord_key b <=? ord_key a.

(** [<KeyType as Ord>::cmp]; the case of a range and a point is the reverse of
    the case of the point and the range. *)
Definition point_range_cmp (a s e : K) : comparison :=
  if gtb s a then Lt else if geb a e then Gt else Eq.

Definition cmp (x y : KeyType K) : comparison :=
  match x, y with
  | KPoint a, KPoint b => ord_key a ?= ord_key b
  | KPoint a, KRange s e => point_range_cmp a s e
  | KRange s e, KPoint a => CompOpp (point_range_cmp a s e)
  | KRange s e, KRange s' e' => if geb s e' then Gt else if geb s' e then Lt else Eq
  end.

(** [BTreeMap::get], [try_insert] and [remove]. *)
Fixpoint btree_get (k : KeyType K) l : option V :=
  match l with
  | [] => None
  | (k', v) :: l =>
      match cmp k k' with
      | Lt => None
      | Eq => Some v
      | Gt => btree_get k l
      end
  end.

Fixpoint btree_try_insert (k : KeyType K) (v : V) l : option (list (KeyType K * V)) :=
  match l with
  | [] => Some [(k, v)]
  | (k', v') :: l' =>
      match cmp k k' with
      | Lt => Some ((k, v) :: l)
      | Eq => None
      | Gt => l'' ← btree_try_insert k v l'; Some ((k', v') :: l'')
      end
  end.

Fixpoint btree_remove (k : KeyType K) l : option (V * list (KeyType K * V)) :=
  match l with
  | [] => None
  | (k', v) :: l' =>
      match cmp k k' with
      | Lt => None
      | Eq => Some (v, l')
      | Gt => '(r, l'') ← btree_remove k l'; Some (r, (k', v) :: l'')
      end
  end.

Definition map_new : RangedBTreeMap K V := mkMap [].

Definition insert m (s e : K) (v : V) : result unit unit * RangedBTreeMap K V :=
  match btree_try_insert (KRange s e) v (inner m) with
  | Some l => (Ok tt, mkMap l)
  | None => (Err tt, m)
  end.

Definition get_entry_at_point m (p : K) : option V := btree_get (KPoint p) (inner m).

(** A key that is not a range is [unreachable!()]. *)
Definition key_range (k : KeyType K) : outcome (K * K) :=
  match k with
  | KRange s e => Ret (s, e)
  | KPoint _ => Panic AssertionFailed
  end.

Definition first_key m : outcome (option K) :=
  match inner m with
  | [] => Ret None
  | (k, _) :: _ => r ← key_range k; Ret (Some r.1)
  end.

Definition last_key m : outcome (option K) :=
  match rev (inner m) with
  | [] => Ret None
  | (k, _) :: _ => r ← key_range k; Ret (Some r.2)
  end.

Definition remove m (p : K) : option V * RangedBTreeMap K V :=
  match btree_remove (KPoint p) (inner m) with
  | Some (v, l) => (Some v, mkMap l)
  | None => (None, m)
  end.

(** ** Well-formed maps *)

(** Ranges that are not empty, one after the other, from [lo] on. *)
Fixpoint wf_from (lo : Z) l : Prop :=
  match l with
  | [] => True
  | (KRange s e, _) :: l => lo ≤ ord_key s ∧ ord_key s < ord_key e ∧ wf_from (ord_key e) l
  | (KPoint _, _) :: _ => False
  end.

Definition wf_map m : Prop := ∃ lo, wf_from lo (inner m).

(** The entry [s .. e] with value [v]. *)
Definition entry m (s e : K) (v : V) : Prop := (KRange s e, v) ∈ inner m.

Definition inside (s e p : K) : Prop := ord_key s ≤ ord_key p < ord_key e.

Lemma point_range_cases p s e :
  (ord_key p < ord_key s ∧ point_range_cmp p s e = Lt) ∨
  (ord_key s ≤ ord_key p ∧ ord_key e ≤ ord_key p ∧ point_range_cmp p s e = Gt) ∨
  (inside s e p ∧ point_range_cmp p s e = Eq).
Proof.
  unfold point_range_cmp, gtb, geb, inside.
  destruct (Z.ltb_spec (ord_key p) (ord_key s)); [by left|].
  destruct (Z.leb_spec (ord_key e) (ord_key p)); [right; left|right; right]; auto with lia.
Qed.

Lemma range_range_cases s e s' e' :
  (ord_key e' ≤ ord_key s ∧ cmp (KRange s e) (KRange s' e') = Gt) ∨
  (ord_key s < ord_key e' ∧ ord_key e ≤ ord_key s' ∧ cmp (KRange s e) (KRange s' e') = Lt) ∨
  (ord_key s < ord_key e' ∧ ord_key s' < ord_key e ∧ cmp (KRange s e) (KRange s' e') = Eq).
Proof.
  unfold cmp, geb. destruct (Z.leb_spec (ord_key e') (ord_key s)); [by left|right].
  destruct (Z.leb_spec (ord_key e) (ord_key s')); auto.
Qed.

Lemma wf_from_le lo lo' l : lo' ≤ lo → wf_from lo l → wf_from lo' l.
Proof. destruct l as [|[[s e|p] v] l]; simpl; [done| |done]. intros ? (? & ? & ?). split_and!; [lia|done|done]. Qed.

Lemma wf_from_elem lo l s e v :
  wf_from lo l → (KRange s e, v) ∈ l → lo ≤ ord_key s ∧ ord_key s < ord_key e.
Proof.
  revert lo. induction l as [|[[s' e'|p] v'] l IH]; intros lo Hwf Hin; [set_solver| |done].
  destruct Hwf as (H1 & H2 & H3). apply elem_of_cons in Hin as [[= -> -> ->]|Hin]; [done|].
  destruct (IH _ H3 Hin). lia.
Qed.

(** Two entries are the same or one ends before the other starts. *)
Lemma wf_from_apart lo l s e v s' e' v' :
  wf_from lo l → (KRange s e, v) ∈ l → (KRange s' e', v') ∈ l →
  (s, e, v) = (s', e', v') ∨ ord_key e ≤ ord_key s' ∨ ord_key e' ≤ ord_key s.
Proof.
  revert lo. induction l as [|[[s0 e0|p] v0] l IH]; intros lo Hwf Hx Hy; [set_solver| |done].
  destruct Hwf as (H1 & H2 & H3).
  apply elem_of_cons in Hx as [[= -> -> ->]|Hx]; apply elem_of_cons in Hy as [[= -> -> ->]|Hy].
  - by left.
  - right. left. by destruct (wf_from_elem _ _ _ _ _ H3 Hy).
  - right. right. by destruct (wf_from_elem _ _ _ _ _ H3 Hx).
  - by eapply IH.
Qed.

Lemma btree_get_point lo l p v :
  wf_from lo l →
  btree_get (KPoint p) l = Some v ↔ ∃ s e, (KRange s e, v) ∈ l ∧ inside s e p.
Proof.
  revert lo. induction l as [|[[s' e'|q] v'] l IH]; intros lo Hwf; [set_solver| |done].
  destruct Hwf as (H1 & H2 & H3). 
  assert (∀ s e w, (KRange s e, w) ∈ l → ord_key e' ≤ ord_key s) as Hafter.
  { intros s e w Hin. by destruct (wf_from_elem _ _ _ _ _ H3 Hin). }
  cbn [btree_get cmp]. destruct (point_range_cases p s' e') as [[? ->]|[(? & ? & ->)|[Hi ->]]]; unfold inside in *.
  - split; [done|]. intros (s & e & [[= -> -> ->]|Hin]%elem_of_cons & Hp); [lia|].
    specialize (Hafter _ _ _ Hin). lia.
  - rewrite (IH _ H3). split.
    + intros (s & e & Hin & Hp). exists s, e. split; [set_solver|done].
    + intros (s & e & [[= -> -> ->]|Hin]%elem_of_cons & Hp); [lia|eauto].
  - split.
    + intros [= <-]. exists s', e'. split; [set_solver|lia].
    + intros (s & e & [[= -> -> ->]|Hin]%elem_of_cons & Hp); [done|].
      specialize (Hafter _ _ _ Hin). lia.
Qed.

(** Inserting a range that is not empty. *)
Lemma btree_try_insert_spec lo l s e v :
  wf_from lo l → ord_key s < ord_key e →
  match btree_try_insert (KRange s e) v l with
  | Some l' => wf_from (Z.min lo (ord_key s)) l' ∧
      (∀ s' e' v', (KRange s' e', v') ∈ l' ↔
        (s', e', v') = (s, e, v) ∨ (KRange s' e', v') ∈ l) ∧
      (∀ s' e' v', (KRange s' e', v') ∈ l → ord_key e' ≤ ord_key s ∨ ord_key e ≤ ord_key s')
  | None => ∃ s' e' v', (KRange s' e', v') ∈ l ∧ ord_key s < ord_key e' ∧ ord_key s' < ord_key e
  end.
Proof.
  revert lo. induction l as [|[[s0 e0|q] v0] l IH]; intros lo Hwf Hse; [simpl| |done].
  { split_and!; [lia|done|done| |set_solver]. intros s' e' v'. rewrite list_elem_of_singleton.
    split; [intros [= -> -> ->]; by left | intros [[= -> -> ->]|[]%elem_of_nil]; done]. }
  destruct Hwf as (H1 & H2 & H3). cbn [btree_try_insert].
  destruct (range_range_cases s e s0 e0) as [[? ->]|[(? & ? & ->)|(? & ? & ->)]].
  - specialize (IH _ H3 Hse). destruct (btree_try_insert _ v l) as [l'|]; simpl.
    + destruct IH as (Hwf & Hel & Hdis). split_and!; [lia|done| | |].
      * eapply wf_from_le; [|exact Hwf]. lia.
      * intros s' e' v'. rewrite !elem_of_cons, Hel. naive_solver.
      * intros s' e' v' [[= -> -> ->]|Hin]%elem_of_cons; [by left|eauto].
    + destruct IH as (s' & e' & v' & Hin & ?). exists s', e', v'. split; [set_solver|done].
  - cbn [wf_from]. split_and!; [lia|done|done|done|done| |].
    + intros s' e' v'. rewrite elem_of_cons. naive_solver.
    + intros s' e' v' [[= -> -> ->]|Hin]%elem_of_cons; [by right|].
      destruct (wf_from_elem _ _ _ _ _ H3 Hin). right. lia.
  - exists s0, e0, v0. split; [set_solver|lia].
Qed.

Lemma btree_remove_spec lo l p :
  wf_from lo l →
  match btree_remove (KPoint p) l with
  | Some (v, l') => wf_from lo l' ∧ ∃ s e, inside s e p ∧ (KRange s e, v) ∈ l ∧
      ∀ s' e' v', (KRange s' e', v') ∈ l' ↔ (KRange s' e', v') ∈ l ∧ ¬ inside s' e' p
  | None => ∀ s e v, (KRange s e, v) ∈ l → ¬ inside s e p
  end.
Proof.
  revert lo. induction l as [|[[s0 e0|q] v0] l IH]; intros lo Hwf; [simpl; set_solver| |done].
  destruct Hwf as (H1 & H2 & H3).
  assert (∀ s e w, (KRange s e, w) ∈ l → ord_key e0 ≤ ord_key s) as Hafter.
  { intros s e w Hin. by destruct (wf_from_elem _ _ _ _ _ H3 Hin). }
  cbn [btree_remove cmp]. destruct (point_range_cases p s0 e0) as [[? ->]|[(? & ? & ->)|[? ->]]].
  - intros s e v [[= -> -> ->]|Hin]%elem_of_cons; unfold inside; [lia|]. specialize (Hafter _ _ _ Hin). lia.
  - specialize (IH _ H3). destruct (btree_remove _ l) as [[v l']|]; simpl.
    + destruct IH as (Hwf & s & e & Hins & Hin & Hel). split; [done|]. exists s, e.
      split_and!; [done|set_solver|]. intros s' e' v'. rewrite !elem_of_cons, Hel.
      split; [|naive_solver]. intros [[= -> -> ->]|?]; [|naive_solver]. split; [by left|]. unfold inside in *. lia.
    + intros s e v [[= -> -> ->]|Hin]%elem_of_cons; [unfold inside; lia|eauto].
  - split; [eapply wf_from_le; [|exact H3]; lia|]. exists s0, e0. split_and!; [done|set_solver|].
    intros s' e' v'. rewrite elem_of_cons. split.
    + intros Hin. split; [by right|]. specialize (Hafter _ _ _ Hin). unfold inside in *. lia.
    + intros [[[= -> -> ->]|Hin] Hout]; done.
Qed.

(** Removing what was just inserted. *)
Lemma btree_insert_remove lo l s e v l' p :
  wf_from lo l → inside s e p → btree_try_insert (KRange s e) v l = Some l' →
  btree_remove (KPoint p) l' = Some (v, l).
Proof.
  intros Hwf Hp. revert lo l' Hwf. induction l as [|[[s0 e0|q] v0] l IH]; intros lo l' Hwf Hins; [| |done].
  - injection Hins as <-. cbn [btree_remove cmp].
    destruct (point_range_cases p s e) as [[? ->]|[(? & ? & ->)|[? ->]]]; unfold inside in *; done || lia.
  - destruct Hwf as (H1 & H2 & H3). cbn [btree_try_insert] in Hins.
    destruct (range_range_cases s e s0 e0) as [[? E]|[(? & ? & E)|(? & ? & E)]]; rewrite E in Hins; [| |done].
    + destruct (btree_try_insert _ v l) as [l''|] eqn:E'; [|done]. injection Hins as <-.
      cbn [btree_remove cmp]. rewrite (IH _ _ H3 eq_refl).
      destruct (point_range_cases p s0 e0) as [[? ->]|[(? & ? & ->)|[? ->]]]; unfold inside in *; done || lia.
    + injection Hins as <-. cbn [btree_remove cmp].
      destruct (point_range_cases p s e) as [[? ->]|[(? & ? & ->)|[? ->]]]; unfold inside in *; done || lia.
Qed.

Definition insideb (s e p : K) : bool := (ord_key s <=? ord_key p) && (ord_key p <? ord_key e).

Lemma insideb_spec s e p : insideb s e p = true ↔ inside s e p.
Proof. unfold insideb, inside. rewrite andb_true_iff, Z.leb_le, Z.ltb_lt. lia. Qed.

(** The least start and the greatest end of the entries. *)
Lemma first_key_spec m :
  wf_map m →
  ∃ o, first_key m = Ret o ∧
    match o with
    | None => inner m = []
    | Some k => (∃ e v, entry m k e v) ∧ ∀ s e v, entry m s e v → ord_key k ≤ ord_key s
    end.
Proof.
  intros [lo Hwf]. unfold first_key, entry. destruct m as [[|[[s0 e0|q] v0] l]]; simpl in *; [by exists None| |done].
  destruct Hwf as (H1 & H2 & H3). eexists. split; [done|]. split; [exists e0, v0; set_solver|].
  intros s e v [[= -> -> ->]|Hin]%elem_of_cons; [done|]. simpl.
  destruct (wf_from_elem _ _ _ _ _ H3 Hin). lia.
Qed.

Lemma wf_from_app lo l s e v :
  wf_from lo (l ++ [(KRange s e, v)]) →
  ord_key s < ord_key e ∧ ∀ s' e' v', (KRange s' e', v') ∈ l → ord_key e' ≤ ord_key s.
Proof.
  revert lo. induction l as [|[[s0 e0|q] v0] l IH]; intros lo Hwf; simpl in Hwf; [|  |done].
  - split; [tauto|]. set_solver.
  - destruct Hwf as (H1 & H2 & H3). destruct (IH _ H3) as [Hse Hall]. split; [done|].
    intros s' e' v' [[= -> -> ->]|Hin]%elem_of_cons; [|by eapply Hall].
    destruct (wf_from_elem _ _ s e v H3); [set_solver|done].
Qed.

Lemma last_key_spec m :
  wf_map m →
  ∃ o, last_key m = Ret o ∧
    match o with
    | None => inner m = []
    | Some k => (∃ s v, entry m s k v) ∧ ∀ s e v, entry m s e v → ord_key e ≤ ord_key k
    end.
Proof.
  intros [lo Hwf]. unfold last_key, entry. destruct m as [l]. simpl in *.
  destruct (rev l) as [|[k v0] l'] eqn:E; apply (f_equal (@rev _)) in E; rewrite rev_involutive in E; simpl in E; subst l.
  { by exists None. }
  assert (∃ s0 e0, k = KRange s0 e0) as (s0 & e0 & ->).
  { clear -Hwf. revert lo Hwf. induction (rev l') as [|[[s e|q] w] l IH]; intros lo Hwf; simpl in Hwf; [|  |done].
    - destruct k as [s e|]; [by eauto|done].
    - by eapply IH, Hwf. }
  destruct (wf_from_app _ _ _ _ _ Hwf) as [Hse Hall]. eexists. split; [done|]. split; [exists s0, v0; set_solver|].
  intros s e v [Hin|[= -> -> ->]%list_elem_of_singleton]%elem_of_app; [|done]. simpl.
  pose proof (Hall _ _ _ Hin). lia.
Qed.

(** ** Properties *)

(** Inserting a range that is not empty either fails, leaves the map alone
    and there was an overlapping range, or succeeds and the map then gives the
    new value at the points of the range and the old values everywhere else. *)
Theorem ranged_map_insert m s e v :
  wf_map m → ord_key s < ord_key e →
  match insert m s e v with
  | (Ok _, m') => wf_map m' ∧ (∀ p, inside s e p → get_entry_at_point m p = None) ∧
      ∀ p, get_entry_at_point m' p =
        if insideb s e p then Some v else get_entry_at_point m p
  | (Err _, m') => m' = m ∧ ∃ s' e' v', entry m s' e' v' ∧
      ord_key s < ord_key e' ∧ ord_key s' < ord_key e
  end.
Proof.
  intros [lo Hwf] Hse. unfold insert. pose proof (btree_try_insert_spec lo _ s e v Hwf Hse) as Hi.
  destruct (btree_try_insert _ v _) as [l'|]; [|done]. destruct Hi as (Hwf' & Hel & Hdis).
  assert (∀ p, inside s e p → get_entry_at_point m p = None) as Hnone.
  { intros p Hp. destruct (get_entry_at_point m p) as [w|] eqn:E; [|done].
    apply (btree_get_point lo) in E as (s' & e' & Hin & Hp'); [|done].
    unfold inside in *. destruct (Hdis _ _ _ Hin); lia. }
  split_and!; [by eexists|done|]. intros p. apply option_eq. intros w.
  unfold get_entry_at_point at 1. rewrite (btree_get_point _ _ _ _ Hwf'). simpl.
  destruct (insideb s e p) eqn:Eb.
  - apply insideb_spec in Eb. split.
    + intros (s' & e' & [[= -> -> ->]|Hin]%Hel & Hp); [done|].
      unfold inside in *. destruct (Hdis _ _ _ Hin); lia.
    + intros [= <-]. exists s, e. rewrite Hel. auto.
  - unfold get_entry_at_point. rewrite (btree_get_point _ _ _ _ Hwf). split.
    + intros (s' & e' & [[= -> -> ->]|Hin]%Hel & Hp); [|by eauto]. apply insideb_spec in Hp. congruence.
    + intros (s' & e' & Hin & Hp). exists s', e'. rewrite Hel. auto.
Qed.

(** [remove] gives back what [get_entry_at_point] finds; it takes out that
    one range, and undoes the insertion of a range. *)
Theorem ranged_map_remove m p :
  wf_map m →
  let '(r, m') := remove m p in
  r = get_entry_at_point m p ∧ wf_map m' ∧
  (r = None → m' = m) ∧
  (∀ v s e m0, wf_map m0 → insert m0 s e v = (Ok tt, m) → inside s e p → r = Some v ∧ m' = m0) ∧
  ∀ s e v, entry m' s e v ↔ entry m s e v ∧ ¬ inside s e p.
Proof.
  intros [lo Hwf]. unfold remove. pose proof (btree_remove_spec lo _ p Hwf) as Hr.
  destruct (btree_remove _ _) as [[v l']|] eqn:E.
  - destruct Hr as (Hwf' & s & e & Hp & Hin & Hel). split_and!.
    + symmetry. apply (btree_get_point lo); [done|]. by eauto.
    + by eexists.
    + done.
    + intros w s' e' m0 [lo0 Hwf0] Hins Hp'. unfold insert in Hins.
      destruct (btree_try_insert _ w _) as [l0|] eqn:E0; [|done]. injection Hins as <-. cbn [inner] in E.
      rewrite (btree_insert_remove _ _ _ _ _ _ _ Hwf0 Hp' E0) in E. injection E as <- <-.
      by destruct m0.
    + intros s' e' v'. apply Hel.
  - split_and!.
    + destruct (get_entry_at_point m p) as [w|] eqn:Eg; [|done].
      apply (btree_get_point lo) in Eg as (s & e & Hin & Hp); [|done]. by destruct (Hr _ _ _ Hin).
    + by eexists.
    + done.
    + intros w s' e' m0 [lo0 Hwf0] Hins Hp'. unfold insert in Hins.
      destruct (btree_try_insert _ w _) as [l0|] eqn:E0; [|done]. injection Hins as <-. cbn [inner] in E.
      by rewrite (btree_insert_remove _ _ _ _ _ _ _ Hwf0 Hp' E0) in E.
    + intros s e v. unfold entry. split; [|by intros [? _]]. intros Hin. split; [done|]. by eapply Hr.
Qed.

End Operations.

(** *** The properties at work *)

Definition demo_map : RangedBTreeMap Z string := mkMap [(KRange 0 5, "foo"%string); (KRange 8 9, "bar"%string)].

Lemma demo_map_wf : wf_map demo_map.
Proof. exists 0. cbn. unfold ord_key, ord_Z. lia. Qed.

Lemma ranged_map_insert_witness :
  insert demo_map 5 8 "baz"%string =
    (Ok tt, mkMap [(KRange 0 5, "foo"%string); (KRange 5 8, "baz"%string); (KRange 8 9, "bar"%string)]) ∧
  wf_map (insert demo_map 5 8 "baz"%string).2.
Proof.
  split; [reflexivity|].
  apply (ranged_map_insert demo_map 5 8 "baz"%string demo_map_wf). reflexivity.
Defined.

Lemma ranged_map_remove_witness :
  remove demo_map 3 = (Some "foo"%string, mkMap [(KRange 8 9, "bar"%string)]) ∧ wf_map (remove demo_map 3).2.
Proof. split; [reflexivity|]. apply (ranged_map_remove demo_map 3 demo_map_wf). Defined.
