(* ===== verification/VirtAlloc.v ===== *)
(** * VirtAlloc: the allocator of kernel virtual memory

    [ranged_btree_allocator/src/lib.rs]: the used ranges of pages are the keys of
    a ranged map whose values are the lengths of the allocations.  A request is
    served from the front of the range, then from behind the last used page. *)

From stdpp Require Import base gmap list numbers option.
From S2P Require Import Prelude Memory RangedBtree VirtualMemory.

Open Scope Z_scope.

(** [Meta] is its length. *)
Record RangedBtreeAllocator := mkVAlloc { range : Page * Page; map : RangedBTreeMap Page Z }.

Definition valloc_new (r : Page * Page) : RangedBtreeAllocator := mkVAlloc r map_new.

(** [max] and [min] of two pages. *)
Definition page_max (a b : Page) : Page := if page_addr b <? page_addr a then a else b.
Definition page_min (a b : Page) : Page := if page_addr b <? page_addr a then b else a.

Definition add_allocations (a : RangedBtreeAllocator) (allocations : list (Page * Page)) :
    outcome RangedBtreeAllocator :=
  for_each allocations (λ r a,
    let s := page_max r.1 (range a).1 in
    let e := page_min r.2 (range a).2 in
    if page_addr s <? page_addr e then
      len ← PageOps.diff e s;
      let '(_, m) := insert (map a) r.1 r.2 len in
      Ret (mkVAlloc (range a) m)
    else Ret a) a.

(** [guard.insert(at..(at + len), Meta { len }).expect(..)]. *)
Definition take_run (a : RangedBtreeAllocator) (at_ : Page) (len : Z) :
    outcome (result Page AllocError * RangedBtreeAllocator) :=
  e ← PageOps.add at_ len;
  let '(r, m) := insert (map a) at_ e len in
  _ ← expect_ok r;
  Ret (Ok at_, mkVAlloc (range a) m).

Definition valloc_allocate_contiguous (a : RangedBtreeAllocator) (len : Z) :
    outcome (result Page AllocError * RangedBtreeAllocator) :=
  first ← first_key (map a);
  match first with
  | None => take_run a (range a).1 len
  | Some first =>
      before ← PageOps.diff first (range a).1;
      if len <=? before then take_run a (range a).1 len else
      last ← last_key (map a);
      last_used ← expect last;
      after ← PageOps.diff (range a).2 last_used;
      if len <=? after then take_run a last_used len else Panic NotImplemented
  end.

Definition valloc_allocate_contiguous_at (a : RangedBtreeAllocator) (at_ : Page) (len : Z) :
    outcome (result Page AllocError * RangedBtreeAllocator) :=
  e ← PageOps.add at_ len;
  let '(r, m) := insert (map a) at_ e len in
  match r with
  | Ok _ => Ret (Ok at_, mkVAlloc (range a) m)
  | Err _ => Ret (Err AllocErr, a)
  end.

Definition valloc_deallocate_contiguous (a : RangedBtreeAllocator) (base : Page) (len : Z) :
    outcome RangedBtreeAllocator :=
  match remove (map a) base with
  | (Some meta, m) => _ ← assert (meta =? len); Ret (mkVAlloc (range a) m)
  | (None, _) => Panic AssertionFailed
  end.

(** ** The invariant *)

Implicit Types (a : RangedBtreeAllocator) (p q : Page).

(** Every entry is a run of whole pages inside the range, with its length. *)
Definition valloc_inv a : Prop :=
  wf_page (range a).1 ∧ wf_page (range a).2 ∧ wf_map (map a) ∧
  ∀ s e n, entry (map a) s e n → wf_page s ∧ 0 < n ∧ page_addr e = page_addr s + n * PAGE_SIZE ∧
    page_addr (range a).1 ≤ page_addr s ∧ page_addr e ≤ page_addr (range a).2.

(** The run of [len] pages from [p] on lies in the range and none of it is used. *)
Definition free_pages a p (len : Z) : Prop :=
  page_addr (range a).1 ≤ page_addr p ∧ page_addr p + len * PAGE_SIZE ≤ page_addr (range a).2 ∧
  ∀ s e n, entry (map a) s e n → page_addr e ≤ page_addr p ∨ page_addr p + len * PAGE_SIZE ≤ page_addr s.

Ltac pages := unfold ord_key, ord_Page in *.

(** An insertion that the entries leave room for. *)
Lemma insert_free a p len :
  valloc_inv a → 0 < len → free_pages a p len →
  ∃ m, insert (map a) p (page_at (page_addr p + len * PAGE_SIZE)) len = (Ok tt, m) ∧ wf_map m ∧
    ∀ s e n, entry m s e n ↔
      (s, e, n) = (p, page_at (page_addr p + len * PAGE_SIZE), len) ∨ entry (map a) s e n.
Proof.
  intros (_ & _ & [lo Hwf] & Hent) Hlen (_ & _ & Hfree). unfold insert.
  pose proof (btree_try_insert_spec lo _ p (page_at (page_addr p + len * PAGE_SIZE)) len Hwf) as Hi.
  pages. cbn [page_addr page_base va_addr] in Hi.
  specialize (Hi ltac:(unfold PAGE_SIZE; lia)). destruct (btree_try_insert _ len _) as [l|].
  - destruct Hi as (Hwf' & Hel & _). eexists. split; [done|]. split; [by eexists|]. apply Hel.
  - destruct Hi as (s & e & n & Hin & H1 & H2). destruct (Hfree s e n Hin); cbn in *; lia.
Qed.

Lemma take_run_ok a p len :
  valloc_inv a → wf_page p → 0 < len → free_pages a p len →
  ∃ a', take_run a p len = Ret (Ok p, a') ∧ valloc_inv a' ∧ range a' = range a ∧
    insert (map a) p (page_at (page_addr p + len * PAGE_SIZE)) len = (Ok tt, map a') ∧
    ∀ s e n, entry (map a') s e n ↔
      (s, e, n) = (p, page_at (page_addr p + len * PAGE_SIZE), len) ∨ entry (map a) s e n.
Proof.
  intros Hinv Hp Hlen Hfree. destruct (insert_free a p len Hinv Hlen Hfree) as (m & Hins & Hwf & Hel).
  destruct Hinv as (Hs & He & _ & Hent). pose proof Hp as [[Hp0 _] _]. pose proof He as [[_ He1] _].
  destruct Hfree as (Hlo & Hhi & _). unfold take_run.
  rewrite page_add_ok by (unfold PAGE_SIZE in *; lia). cbn [mbind outcome_bind]. rewrite Hins.
  eexists. split; [done|]. split; [|by split_and!]. split_and!; [done..|].
  intros s e n [[= -> -> ->]|Hin]%Hel; [|by apply Hent]. split_and!; (done || cbn; lia).
Qed.

(** What became of the allocator when [p] was handed out. *)
Definition handed_out a p (len : Z) a' : Prop :=
  valloc_inv a' ∧ range a' = range a ∧ free_pages a p len ∧
  insert (map a) p (page_at (page_addr p + len * PAGE_SIZE)) len = (Ok tt, map a') ∧
  ∀ s e n, entry (map a') s e n ↔
    (s, e, n) = (p, page_at (page_addr p + len * PAGE_SIZE), len) ∨ entry (map a) s e n.

Lemma valloc_allocate_cases a len :
  valloc_inv a → 0 < len → page_addr (range a).1 + len * PAGE_SIZE ≤ page_addr (range a).2 →
  (∃ p a', valloc_allocate_contiguous a len = Ret (Ok p, a') ∧ handed_out a p len a') ∨
  (valloc_allocate_contiguous a len = Panic NotImplemented ∧
   ¬ free_pages a (range a).1 len ∧ ∀ p, (∀ s e n, entry (map a) s e n → page_addr e ≤ page_addr p) →
     ¬ free_pages a p len).
Proof.
  intros Hinv Hlen Hfit. pose proof Hinv as (Hs & He & Hwf & Hent).
  destruct (first_key_spec (map a) Hwf) as (o & Hfst & Ho).
  unfold valloc_allocate_contiguous. rewrite Hfst. cbn [mbind outcome_bind].
  assert (∀ p, wf_page p → free_pages a p len →
    ∃ a', take_run a p len = Ret (Ok p, a') ∧ handed_out a p len a') as Htake.
  { intros p Hp Hfree. destruct (take_run_ok a p len Hinv Hp Hlen Hfree) as (a' & ? & ? & ? & ? & ?).
    exists a'. by split_and!. }
  destruct o as [first|]; last first.
  { left. destruct (Htake (range a).1 Hs) as (a' & Hok); [|by eauto].
    split_and!; [lia|done|]. unfold entry. rewrite Ho. set_solver. }
  destruct Ho as [(e0 & n0 & He0) Hmin]. pages.
  destruct (Hent _ _ _ He0) as ([_ Hfm] & ? & ? & ? & ?). pose proof Hs as [_ Hsm]. pose proof He as [_ Hem].
  rewrite page_diff_ok by done. cbn [mbind outcome_bind]. case_Z.
  { left. destruct (Htake (range a).1 Hs) as (a' & Hok); [|by eauto].
    split_and!; [lia|done|]. intros s e n Hin. right. specialize (Hmin _ _ _ Hin).
    unfold PAGE_SIZE in *. Z.div_mod_to_equations. lia. }
  destruct (last_key_spec (map a) Hwf) as (o & Hlst & Ho). rewrite Hlst. cbn [mbind outcome_bind].
  destruct o as [last|]; [|unfold entry in He0; rewrite Ho in He0; set_solver].
  destruct Ho as [(s1 & n1 & He1) Hmax]. pages. destruct (Hent _ _ _ He1) as ([[Hs1 _] Hsm1] & ? & ? & ? & ?).
  cbn [expect mbind outcome_bind]. rewrite page_diff_ok by lia. cbn [mbind outcome_bind]. case_Z.
  - left. destruct (Htake last) as (a' & Hok); [split; [|]; pose proof He as [[_ ?] _]; unfold PAGE_SIZE in *| |by eauto].
    + lia.
    + Z.div_mod_to_equations. lia.
    + split_and!; [unfold PAGE_SIZE in *; lia|unfold PAGE_SIZE in *; Z.div_mod_to_equations; lia|].
      intros s e n Hin. left. by eapply Hmax.
  - right. split_and!; [done| |].
    + intros (_ & _ & Hf). destruct (Hf _ _ _ He0); unfold PAGE_SIZE in *; Z.div_mod_to_equations; lia.
    + intros p Hp (_ & Hf & _). specialize (Hp _ _ _ He1). unfold PAGE_SIZE in *. Z.div_mod_to_equations. lia.
Qed.

(** ** The contract of [VirtualMemory] *)

#[global] Instance ranged_virtual : VirtualAllocator RangedBtreeAllocator := {
  allocate_pages := valloc_allocate_contiguous;
  allocate_pages_at := valloc_allocate_contiguous_at;
  deallocate_pages := valloc_deallocate_contiguous
}.

(** The allocator owns its entries. *)
Definition valloc_owned a p (n : Z) : Prop := entry (map a) p (page_at (page_addr p + n * PAGE_SIZE)) n.

Lemma entry_owned a s e n : valloc_inv a → entry (map a) s e n ↔ valloc_owned a s n ∧ e = page_at (page_addr s + n * PAGE_SIZE).
Proof.
  intros (_ & _ & _ & Hent). unfold valloc_owned. split; [|by intros [? ->]].
  intros Hin. destruct (Hent _ _ _ Hin) as (_ & _ & He & _).
  assert (e = page_at (page_addr s + n * PAGE_SIZE)) as -> by (by apply page_addr_inj). done.
Qed.

Lemma handed_out_owned a p len a' :
  valloc_inv a → handed_out a p len a' →
  (∀ q k, valloc_owned a q k → apart p len q k) ∧
  ∀ q k, valloc_owned a' q k ↔ (q, k) = (p, len) ∨ valloc_owned a q k.
Proof.
  intros Hinv (_ & _ & (_ & _ & Hfree) & _ & Hel). split.
  - intros q k Hq. destruct (Hfree _ _ _ Hq) as [?|?]; [right|left]; done.
  - intros q k. unfold valloc_owned. rewrite Hel. split; [|naive_solver].
    intros [[= -> _ ->]|?]; [by left|by right].
Qed.

Lemma valloc_at_cases a p len r a' :
  valloc_inv a → 0 < len → wf_page p → page_addr (range a).1 ≤ page_addr p →
  page_addr p + len * PAGE_SIZE ≤ page_addr (range a).2 →
  valloc_allocate_contiguous_at a p len = Ret (r, a') →
  match r with Ok p' => p' = p ∧ handed_out a p len a' | Err _ => a' = a end.
Proof.
  intros Hinv Hlen Hp Hlo Hhi. unfold valloc_allocate_contiguous_at. pose proof Hinv as (Hs & He & [lo Hwf] & Hent).
  pose proof Hp as [[Hp0 _] _]. pose proof He as [[_ He1] _].
  rewrite page_add_ok by (unfold PAGE_SIZE in *; lia). cbn [mbind outcome_bind].
  pose proof (btree_try_insert_spec lo _ p (page_at (page_addr p + len * PAGE_SIZE)) len Hwf) as Hi.
  pages. cbn [page_addr page_base va_addr] in Hi. specialize (Hi ltac:(unfold PAGE_SIZE; lia)).
  unfold insert. destruct (btree_try_insert _ len _) as [l|] eqn:E; [|by intros [= <- <-]].
  destruct Hi as (_ & _ & Hdis). intros [= <- <-]. split; [done|].
  assert (free_pages a p len) as Hfree.
  { split_and!; [done..|]. intros s e n Hin. destruct (Hdis _ _ _ Hin); [by left|by right]. }
  destruct (take_run_ok a p len Hinv Hp Hlen Hfree) as (a'' & _ & ? & Hr & Hins & Hel).
  unfold insert in Hins. pages. rewrite E in Hins. injection Hins as Hm.
  assert (a'' = mkVAlloc (range a) {| inner := l |}) as -> by (destruct a''; simpl in *; congruence).
  split_and!; try done. simpl. unfold insert. pages. by rewrite E.
Qed.

Lemma valloc_at_answers a p len :
  valloc_inv a → 0 < len → wf_page p → page_addr (range a).1 ≤ page_addr p →
  page_addr p + len * PAGE_SIZE ≤ page_addr (range a).2 →
  (∃ a', valloc_allocate_contiguous_at a p len = Ret (Ok p, a') ∧ handed_out a p len a') ∨
  valloc_allocate_contiguous_at a p len = Ret (Err AllocErr, a) ∧ ¬ free_pages a p len.
Proof.
  intros Hinv Hlen Hp Hlo Hhi. pose proof (valloc_at_cases a p len) as Hcases.
  unfold valloc_allocate_contiguous_at in *. pose proof Hp as [[Hp0 _] _]. pose proof Hinv as (_ & [[_ He1] _] & _).
  rewrite page_add_ok in * by (unfold PAGE_SIZE in *; lia). cbn [mbind outcome_bind] in *.
  destruct (insert (map a) p (page_at (page_addr p + len * PAGE_SIZE)) len) as [[[]|e] m] eqn:E.
  - left. eexists. split; [done|]. by apply (Hcases (Ok p)).
  - right. split; [done|]. intros Hfree. destruct (insert_free a p len Hinv Hlen Hfree) as (m' & E' & _). congruence.
Qed.

Lemma valloc_free_owned a p n :
  valloc_inv a → valloc_owned a p n →
  ∃ a', valloc_deallocate_contiguous a p n = Ret a' ∧ valloc_inv a' ∧ page_addr (range a').1 = page_addr (range a).1 ∧
    ∀ q k, valloc_owned a' q k ↔ valloc_owned a q k ∧ (q, k) ≠ (p, n).
Proof.
  intros Hinv Hown. pose proof Hinv as (Hs & He & [lo Hwf] & Hent). destruct (Hent _ _ _ Hown) as (_ & Hn & _).
  assert (inside p (page_at (page_addr p + n * PAGE_SIZE)) p) as Hin by (unfold inside; pages; cbn; unfold PAGE_SIZE; lia).
  pose proof (btree_remove_spec lo _ p Hwf) as Hr. unfold valloc_deallocate_contiguous, remove.
  destruct (btree_remove _ _) as [[v l]|]; [|by destruct (Hr _ _ _ Hown)].
  destruct Hr as (Hwf' & s & e & Hse & Hv & Hel).
  destruct (wf_from_apart lo _ _ _ _ _ _ _ Hwf Hown Hv) as [[= <- <- <-]|Hap]; [|unfold inside in *; lia].
  rewrite Z.eqb_refl. cbn [mbind outcome_bind assert]. eexists. split; [done|]. split; [|split; [done|]].
  - split_and!; [done..|by eexists|]. intros s' e' n' [Hin' _]%Hel. by apply Hent.
  - intros q k. unfold valloc_owned at 1. unfold entry. simpl. rewrite Hel. split; intros [Hq Hne]; (split; [done|]).
    + intros [= -> ->]. done.
    + intros Hq'. destruct (wf_from_apart lo _ _ _ _ _ _ _ Hwf Hown Hq) as [[= <- _ <-]|Hap]; [done|].
      unfold inside in *. lia.
Qed.

#[global] Instance ranged_lawful : LawfulVirtual RangedBtreeAllocator.
Proof.
  refine {| vinv := valloc_inv; vowned := valloc_owned; vlow a := page_addr (range a).1;
    vfits a n := page_addr (range a).1 + n * PAGE_SIZE ≤ page_addr (range a).2;
    vfits_at a p n := wf_page p ∧ page_addr (range a).1 ≤ page_addr p ∧
      page_addr p + n * PAGE_SIZE ≤ page_addr (range a).2 |}.
  - intros a p n (_ & [[_ ?] _] & _ & Hent) (Hp & Hn & _ & Hlo & Hhi)%Hent. cbn in Hhi. split_and!; [done..|lia].
  - intros a p n q k (_ & _ & [lo Hwf] & _) Hp Hq.
    destruct (wf_from_apart lo _ _ _ _ _ _ _ Hwf Hp Hq) as [[= -> _ ->]|[?|?]]; [by left|right..]; [by left|by right].
  - intros a n r a' Hinv Hn Hfit Ha. destruct (valloc_allocate_cases a n Hinv Hn Hfit) as [(p & a1 & Ha1 & Hh)|[Hp _]];
      simpl in Ha; [|congruence]. rewrite Ha in Ha1. injection Ha1 as -> ->. pose proof Hh as (? & Hr & _).
    destruct (handed_out_owned a p n a1 Hinv Hh) as [? ?]. split_and!; try done. by rewrite Hr.
  - intros a p n r a' Hinv Hn (Hp & Hlo & Hhi) Ha. pose proof (valloc_at_cases a p n r a' Hinv Hn Hp Hlo Hhi Ha) as Hc.
    destruct r as [p'|]; [|subst; done]. destruct Hc as [-> Hh]. pose proof Hh as (? & Hr & _).
    destruct (handed_out_owned a p n a' Hinv Hh) as [? ?]. split_and!; try done. by rewrite Hr.
  - intros a p n Hinv Hown. apply valloc_free_owned; done.
Defined.

(** The pages of the range that no allocation uses are fresh. *)
#[global] Instance ranged_fresh : FreshVirtual RangedBtreeAllocator.
Proof.
  refine {| fresh_inv := valloc_inv;
    fresh a q := page_addr (range a).1 ≤ page_addr q ∧ ∀ p n, valloc_owned a p n → ¬ in_pages p n q;
    fresh_fits a p n := page_addr (range a).1 ≤ page_addr p ∧ page_addr p + n * PAGE_SIZE ≤ page_addr (range a).2 |}.
  intros a p n Hinv Hn Hp [Hlo Hhi]. pose proof Hinv as (_ & [[_ Hr2] _] & _).
  destruct (valloc_allocate_contiguous_at a p n) as [[r a']|] eqn:Ha; last first.
  { unfold valloc_allocate_contiguous_at in Ha. destruct Hp as [[Hp0 _] _].
    rewrite page_add_ok in Ha by (unfold PAGE_SIZE in *; lia). cbn [mbind outcome_bind] in Ha.
    by destruct (insert _ _ _ _) as [[] ?]. }
  exists r, a'. split; [done|]. pose proof (valloc_at_cases a p n r a' Hinv Hn Hp Hlo Hhi Ha) as Hc.
  destruct r as [p'|]; [|by subst]. destruct Hc as [-> Hh]. pose proof Hh as (Hinv' & Hr & _ & Hfree & _).
  destruct (handed_out_owned a p n a' Hinv Hh) as [Hap Hown]. split_and!; [done| |done|lia|].
  - intros q. rewrite Hr. intros [? Hq]. split; [done|]. intros p1 n1 H1. apply Hq, Hown. by right.
  - intros q Hq. split.
    + split; [unfold in_pages in Hq; lia|]. intros p1 n1 H1 Hq1. unfold in_pages in *. destruct (Hap p1 n1 H1); lia.
    + intros [_ Hno]. apply (Hno p n); [|done]. apply Hown. by left.
Defined.

(** ** Properties *)


(** Giving an allocation back with its length restores the allocator; with
    another length, or at a page that no allocation uses, the call panics. *)
Theorem valloc_deallocate a :
  valloc_inv a →
  (∀ len p a', 0 < len → page_addr (range a).1 + len * PAGE_SIZE ≤ page_addr (range a).2 →
     valloc_allocate_contiguous a len = Ret (Ok p, a') → valloc_deallocate_contiguous a' p len = Ret a) ∧
  (∀ s e n len, entry (map a) s e n → len ≠ n → valloc_deallocate_contiguous a s len = Panic AssertionFailed) ∧
  (∀ p len, get_entry_at_point (map a) p = None → valloc_deallocate_contiguous a p len = Panic AssertionFailed).
Proof.
  intros Hinv. pose proof Hinv as (_ & _ & [lo Hwf] & Hent).
  unfold valloc_deallocate_contiguous, remove. split_and!.
  - intros len p a' Hlen Hfit Ha.
    destruct (valloc_allocate_cases a len Hinv Hlen Hfit) as [(p' & a1 & Ha1 & Hh)|(Hp & _)]; [|congruence].
    rewrite Ha in Ha1. injection Ha1 as <- <-. destruct Hh as (_ & Hr & _ & Hins & _).
    unfold insert in Hins. destruct (btree_try_insert _ len _) as [l|] eqn:E; [|done].
    injection Hins as Hm. rewrite <-Hm. cbn [inner].
    rewrite (btree_insert_remove lo _ _ _ _ _ p Hwf) with (2 := E); [|unfold inside; pages; cbn; unfold PAGE_SIZE; lia].
    cbn [mbind outcome_bind assert]. rewrite Z.eqb_refl. simpl. rewrite Hr. by destruct a as [? []].
  - intros s e n len Hin Hne. pose proof (btree_remove_spec lo _ s Hwf) as Hr.
    destruct (Hent _ _ _ Hin) as (_ & Hn & He & _).
    assert (inside s e s) as Hins by (unfold inside; pages; unfold PAGE_SIZE in *; lia).
    destruct (btree_remove _ _) as [[v l]|] eqn:E; [|by destruct (Hr _ _ _ Hin)].
    destruct Hr as (_ & s' & e' & Hs' & Hin' & _).
    assert (v = n) as ->; [|by rewrite (proj2 (Z.eqb_neq n len)) by done].
    assert (btree_get (KPoint s) (inner (map a)) = Some n) as Hg by (apply (btree_get_point lo); eauto).
    assert (btree_get (KPoint s) (inner (map a)) = Some v) as Hg' by (apply (btree_get_point lo); eauto).
    congruence.
  - intros p len Hg. pose proof (btree_remove_spec lo _ p Hwf) as Hr.
    destruct (btree_remove _ _) as [[v l]|]; [|done]. destruct Hr as (_ & s & e & Hp & Hin & _).
    assert (get_entry_at_point (map a) p = Some v) by (apply (btree_get_point lo); eauto). congruence.
Qed.

(** *** The properties at work *)

(** Pages [16 .. 256) with one allocation of four pages at page 16. *)
Definition demo_valloc : RangedBtreeAllocator :=
  mkVAlloc (page_at 0x10000, page_at 0x100000) (mkMap [(KRange (page_at 0x10000) (page_at 0x14000), 4)]).

Lemma demo_valloc_inv : valloc_inv demo_valloc.
Proof.
  split_and!; [split; [cbn; lia|done]|split; [cbn; lia|done]|exists 0; cbn; unfold ord_key, ord_Page; cbn; lia|].
  intros s e n [= -> -> ->]%list_elem_of_singleton. split_and!; cbn; try lia; try done.
Qed.


Lemma valloc_deallocate_witness :
  valloc_deallocate_contiguous demo_valloc (page_at 0x10000) 5 = Panic AssertionFailed.
Proof.
  destruct (valloc_deallocate demo_valloc demo_valloc_inv) as (_ & Hwrong & _).
  apply (Hwrong _ (page_at 0x14000) 4 5); [|lia]. apply list_elem_of_singleton. reflexivity.
Defined.

(** *** Corner cases *)

(** An allocation of no pages is recorded but can never be found again:
    giving it back panics. *)
Theorem valloc_zero_length_stuck :
  ∃ a, valloc_allocate_contiguous (valloc_new (page_at 0x10000, page_at 0x100000)) 0 =
    Ret (Ok (page_at 0x10000), a) ∧
  valloc_deallocate_contiguous a (page_at 0x10000) 0 = Panic AssertionFailed.
Proof. eexists. split; vm_compute; reflexivity. Qed.

(** The first request is served without a look at the end of the range. *)
Theorem valloc_first_request_unchecked :
  ∃ a, valloc_allocate_contiguous (valloc_new (page_at 0x10000, page_at 0x12000)) 3 =
    Ret (Ok (page_at 0x10000), a) ∧ entry (map a) (page_at 0x10000) (page_at 0x13000) 3.
Proof. eexists. split; [vm_compute; reflexivity|]. apply list_elem_of_singleton. reflexivity. Qed.

(** A reserved range that starts below the range of the allocator is
    recorded with its own start, and the next request underflows. *)
Theorem valloc_reserved_below_panics :
  ∃ a, add_allocations (valloc_new (page_at 0x10000, page_at 0x100000)) [(page_at 0x8000, page_at 0x11000)] = Ret a ∧
  valloc_allocate_contiguous a 1 = Panic ArithmeticOverflow.
Proof.
  exists (mkVAlloc (page_at 0x10000, page_at 0x100000) (mkMap [(KRange (page_at 0x8000) (page_at 0x11000), 1)])).
  split; vm_compute; reflexivity.
Qed.
