(* ===== verification/Mapping.v ===== *)
(** * Mapping: owned memory

    [kernel_api/src/memory/mapping.rs] and [OwnedFrames] of
    [kernel_api/src/memory/physical.rs].  A [RawMapping] owns a run of frames and
    a run of pages and keeps the one mapped to the other in the tables of the
    kernel.  The state is that of the global allocator, from which the page tables
    take their frames, the virtual allocator and the memory of the tables.  The
    allocator of the frames of the mapping itself is an instance on the same state;
    with the default configuration it is the global allocator again. *)

From stdpp Require Import base gmap list numbers option.
From S2P Require Import Prelude Memory Allocator PageTable Walk Paging AddressSpace VirtualMemory.

Open Scope Z_scope.

(** ** Owned frames *)

Record OwnedFrames := mkOwnedFrames { frames_base : Frame; frames_len : Z }.

(** ** Configurations *)

(** [Location<Frame>] and [Location<Page>]. *)
Inductive MapLocation (A : Type) :=
  | MapAny
  | MapAligned (alignment : Z)
  | MapAt (a : A)
  | MapBelow (location : A) (with_alignment : Z).
Arguments MapAny {A}.
Arguments MapAligned {A} alignment.
Arguments MapAt {A} a.
Arguments MapBelow {A} location with_alignment.

(** [From<Location<Frame>> for allocator::Location]. *)
Definition into_location (l : MapLocation Frame) : Location :=
  match l with
  | MapAny => Any
  | MapAligned a => Specific (Aligned a)
  | MapAt f => Specific (At f)
  | MapBelow location with_alignment => Specific (Below location with_alignment)
  end.

Inductive Laziness := Lazy | Prefault.
Inductive Protection := RWX.

(** [mapping::Config]; the allocators are instances and their states. *)
Record MapConfig := mkMapConfig {
  physical_location : MapLocation Frame;
  virtual_location : MapLocation Page;
  laziness : Laziness;
  config_length : Z;
  protection : Protection
}.

Definition config_new (len : Z) : MapConfig := mkMapConfig MapAny MapAny Lazy len RWX.

(** ** Mappable types *)

(** [RawMmap] and [RawStack]. *)
Inductive Mappable := RawMmap | RawStack.

Definition physical_length_to_virtual_length (R : Mappable) (physical_length : Z) : outcome Z :=
  match R with
  | RawMmap => Ret physical_length
  | RawStack => expect (checked_add physical_length 1)
  end.

Definition physical_start_offset_from_virtual (R : Mappable) : Z :=
  match R with RawMmap => 0 | RawStack => 1 end.

(** ** Mappings *)

(** [RawMapping] with its [RawMappingInner]. *)
Record RawMapping := mkRawMapping { physical : OwnedFrames; virtual_valid_start : Page }.

Definition physical_end (x : RawMapping) : outcome Frame :=
  FrameOps.add (frames_base (physical x)) (frames_len (physical x)).

Definition virtual_len (R : Mappable) (x : RawMapping) : outcome Z :=
  physical_length_to_virtual_length R (frames_len (physical x)).

Definition virtual_start (R : Mappable) (x : RawMapping) : outcome Page :=
  PageOps.sub_signed (virtual_valid_start x) (physical_start_offset_from_virtual R).

Definition virtual_end (R : Mappable) (x : RawMapping) : outcome Page :=
  s ← virtual_start R x; n ← virtual_len R x; PageOps.add s n.

(** [into_raw_parts] and [from_raw_parts]: the mapping stays in the tables. *)
Definition into_raw_parts (R : Mappable) (x : RawMapping) : outcome (OwnedFrames * OwnedPages) :=
  s ← virtual_start R x; n ← virtual_len R x; Ret (physical x, mkOwnedPages s n).

Definition from_raw_parts (R : Mappable) (frames : OwnedFrames) (pages : OwnedPages) : outcome RawMapping :=
  correct_vlen ← physical_length_to_virtual_length R (frames_len frames);
  _ ← assert (pages_len pages =? correct_vlen);
  p ← PageOps.add_signed (pages_base pages) (physical_start_offset_from_virtual R);
  Ret (mkRawMapping frames p).

Section Frames.
Context {S : Type} `{BackingAllocator S}.

(** [OwnedFrames::new_with] and [xnew]. *)
Definition owned_frames_new (count : Z) (s : S) : outcome (result OwnedFrames AllocError * S) :=
  '(r, s) ← allocate_contiguous s count;
  match r with
  | Ok base => Ret (Ok (mkOwnedFrames base count), s)
  | Err e => Ret (Err e, s)
  end.

Definition owned_frames_xnew (count : Z) (location : Location) (s : S) :
    outcome (result OwnedFrames AllocError * S) :=
  match location with
  | Any => owned_frames_new count s
  | Specific loc =>
      '(r, s) ← allocate_at s count loc;
      match r with
      | Ok base => Ret (Ok (mkOwnedFrames base count), s)
      | Err e => Ret (Err e, s)
      end
  end.

(** [Drop for OwnedFrames]. *)
Definition owned_frames_drop (o : OwnedFrames) (s : S) : outcome S :=
  deallocate_contiguous s (frames_base o) (frames_len o).

End Frames.

Section Operations.
Context {S V : Type} {global : BackingAllocator S} `{VirtualAllocator V}.
Context (tables : Frame).

(** The loop of [RawMapping::new]. *)
Definition map_pages (physical_base : Frame) (offset_base : Page) (len : Z) (m : memory) (s : S) :
    outcome (memory * S) :=
  for_each (seqZ 0 len) (λ i '(m, s),
    frame ← FrameOps.add physical_base i;
    page ← PageOps.add offset_base i;
    '(r, m, s) ← ktable_map_page m tables page frame s;
    _ ← expect_ok r;
    Ret (m, s)) (m, s).

(** [RawMapping::new]; when there are no pages the frames are dropped again. *)
Definition raw_mapping_new {physical_allocator : BackingAllocator S} (R : Mappable) (c : MapConfig)
    (m : memory) (s : S) (v : V) : outcome (result RawMapping AllocError * memory * S * V) :=
  vlen ← physical_length_to_virtual_length R (config_length c);
  '(r, s) ← owned_frames_xnew (config_length c) (into_location (physical_location c)) s;
  match r with
  | Err e => Ret (Err e, m, s, v)
  | Ok physical_mem =>
      '(r, v) ← owned_pages_new vlen v;
      match r with
      | Err e => s ← owned_frames_drop physical_mem s; Ret (Err e, m, s, v)
      | Ok virtual_mem =>
          offset_base ← PageOps.add_signed (pages_base virtual_mem) (physical_start_offset_from_virtual R);
          '(m, s) ← map_pages (frames_base physical_mem) offset_base (config_length c) m s;
          Ret (Ok (mkRawMapping physical_mem offset_base), m, s, v)
      end
  end.

(** The loop of [Drop for RawMapping]. *)
Definition unmap_pages (start : Page) (len : Z) (m : memory) : outcome memory :=
  for_each (seqZ 0 len) (λ i m,
    page ← PageOps.add start i;
    '(r, m) ← ktable_unmap_page m tables page;
    _ ← expect_ok r;
    Ret m) m.

(** [Drop for RawMapping]: the pages are given back at the end of [drop], the
    frames when the fields are dropped after it. *)
Definition raw_mapping_drop {physical_allocator : BackingAllocator S} (R : Mappable) (x : RawMapping)
    (m : memory) (s : S) (v : V) : outcome (memory * S * V) :=
  m ← unmap_pages (virtual_valid_start x) (frames_len (physical x)) m;
  base ← virtual_start R x;
  n ← virtual_len R x;
  v ← owned_pages_drop (mkOwnedPages base n) v;
  s ← owned_frames_drop (physical x) s;
  Ret (m, s, v).

End Operations.

(** ** Arithmetic of the offsets *)

(** The number of bytes of an offset. *)
Lemma offset_bytes R :
  isize_mul (physical_start_offset_from_virtual R) PAGE_SIZE = Ret (physical_start_offset_from_virtual R * PAGE_SIZE) ∧
  isize_neg (physical_start_offset_from_virtual R * PAGE_SIZE) =
    Ret (- (physical_start_offset_from_virtual R * PAGE_SIZE)) ∧
  0 ≤ physical_start_offset_from_virtual R ≤ 1.
Proof. destruct R; (split_and!; [vm_compute; reflexivity|vm_compute; reflexivity|simpl; lia..]). Qed.

Lemma checked_add_signed_ok a n : 0 ≤ a + n ≤ usize_max → checked_add_signed a n = Ret (a + n).
Proof.
  intros [H1 H2]. unfold checked_add_signed.
  by rewrite (proj2 (Z.leb_le 0 _) H1), (proj2 (Z.leb_le _ usize_max) H2).
Qed.

Lemma add_signed_ok p R :
  0 ≤ page_addr p → page_addr p + physical_start_offset_from_virtual R * PAGE_SIZE ≤ usize_max →
  PageOps.add_signed p (physical_start_offset_from_virtual R) =
    Ret (page_at (page_addr p + physical_start_offset_from_virtual R * PAGE_SIZE)).
Proof.
  intros Hp Hb. destruct (offset_bytes R) as (Hm & _ & Ho). unfold PageOps.add_signed, Virt.add_signed.
  rewrite Hm. cbn [mbind outcome_bind]. fold (page_addr p).
  rewrite checked_add_signed_ok by (unfold PAGE_SIZE in *; lia). done.
Qed.

Lemma sub_signed_ok p R :
  0 ≤ page_addr p ≤ usize_max →
  PageOps.sub_signed (page_at (page_addr p + physical_start_offset_from_virtual R * PAGE_SIZE))
    (physical_start_offset_from_virtual R) = Ret p.
Proof.
  intros Hp. destruct (offset_bytes R) as (Hm & Hn & Ho).
  unfold PageOps.sub_signed, Virt.sub_signed, Virt.add_signed.
  rewrite Hm. cbn [mbind outcome_bind page_base]. rewrite Hn. cbn [mbind outcome_bind va_addr].
  rewrite checked_add_signed_ok by lia. cbn [mbind outcome_bind]. f_equal. apply page_addr_inj.
  cbn [page_addr page_base va_addr]. lia.
Qed.

Lemma virtual_length_ok R n :
  0 < n → n + physical_start_offset_from_virtual R ≤ usize_max →
  physical_length_to_virtual_length R n = Ret (n + physical_start_offset_from_virtual R).
Proof.
  intros Hn Hb. destruct R; cbn in *; [do 2 f_equal; lia|]. unfold checked_add.
  by rewrite (proj2 (Z.leb_le _ usize_max)).
Qed.

(** ** The loops *)

Section Loops.
Context {S : Type} `{LawfulAllocator S}.
Context (T : Tables).

(** [n] pages from [start] on are mapped to the frames from [base] on, and
    every other page of every space is as it was. *)
Definition mapped_run (m m' : memory) (start : Page) (base : Frame) (n : Z) : Prop :=
  ∀ sp q, handled T sp q → lookup m' T sp q =
    if bool_decide (sp = Kernel ∧ in_pages start n q)
    then Some (frame_at (frame_addr base + (page_addr q - page_addr start))) else lookup m T sp q.

Definition unmapped_run (m m' : memory) (start : Page) (n : Z) : Prop :=
  ∀ sp q, handled T sp q → lookup m' T sp q =
    if bool_decide (sp = Kernel ∧ in_pages start n q) then None else lookup m T sp q.

Lemma seqZ_snoc n : seqZ 0 (Z.of_nat (Datatypes.S n)) = seqZ 0 (Z.of_nat n) ++ [Z.of_nat n].
Proof. by rewrite seqZ_S. Qed.

Lemma page_shift_handled p i :
  handled T Kernel p → 0 ≤ i → page_addr p + i * PAGE_SIZE ≤ usize_max →
  handled T Kernel (page_at (page_addr p + i * PAGE_SIZE)).
Proof.
  intros [[[Hp _] Hm] Hge] Hi Hb. unfold handled, wf_page. change (page_addr (page_at ?x)) with x.
  split; [split|]; [unfold PAGE_SIZE in *; lia|by rewrite Z.mod_add, Hm|unfold PAGE_SIZE in *; lia].
Qed.

Lemma in_pages_succ start n q :
  wf_page start → wf_page q → 0 ≤ n →
  in_pages start (n + 1) q ↔ in_pages start n q ∨ q = page_at (page_addr start + n * PAGE_SIZE).
Proof.
  intros [_ Hs] [_ Hq] Hn. unfold in_pages. split.
  - intros Hin. destruct (decide (page_addr q < page_addr start + n * PAGE_SIZE)); [left; lia|right].
    apply page_addr_inj. cbn [page_addr page_base va_addr]. unfold PAGE_SIZE in *. Z.div_mod_to_equations. lia.
  - intros [?| ->]; cbn [page_addr page_base va_addr]; unfold PAGE_SIZE in *; lia.
Qed.

Local Abbreviation shift_frame f i := (frame_at (frame_addr f + i * PAGE_SIZE)).
Local Abbreviation shift_page p i := (page_at (page_addr p + i * PAGE_SIZE)).

(** One more page at the end of a run. *)
Lemma mapped_run_succ m m1 m2 start base n :
  handled T Kernel start → 0 ≤ n → mapped_run m m1 start base n →
  updated_lookup T m1 m2 Kernel (shift_page start n) (Some (shift_frame base n)) →
  mapped_run m m2 start base (n + 1).
Proof.
  intros [Hs _] Hn Hm Hu sp q Hq. rewrite Hu, Hm by done. pose proof Hq as [Hwq _].
  pose proof (in_pages_succ start n q Hs Hwq Hn) as Hin. case_decide as E.
  - injection E as -> ->. rewrite bool_decide_eq_true_2 by (split; [done|]; apply Hin; by right).
    do 3 f_equal. cbn [page_addr page_base va_addr]. lia.
  - destruct (decide (sp = Kernel ∧ in_pages start n q)) as [[-> Hd]|Hd].
    + rewrite !bool_decide_eq_true_2; [done|split; [done|]; apply Hin; by left|done].
    + rewrite !bool_decide_eq_false_2; [done| |done]. intros [-> [?| ->]%Hin]; [by destruct Hd|by destruct E].
Qed.

Lemma unmapped_run_succ m m1 m2 start n :
  handled T Kernel start → 0 ≤ n → unmapped_run m m1 start n →
  updated_lookup T m1 m2 Kernel (shift_page start n) None → unmapped_run m m2 start (n + 1).
Proof.
  intros [Hs _] Hn Hm Hu sp q Hq. rewrite Hu, Hm by done. pose proof Hq as [Hwq _].
  pose proof (in_pages_succ start n q Hs Hwq Hn) as Hin. case_decide as E.
  - injection E as -> ->. by rewrite bool_decide_eq_true_2 by (split; [done|]; apply Hin; by right).
  - destruct (decide (sp = Kernel ∧ in_pages start n q)) as [[-> Hd]|Hd].
    + rewrite !bool_decide_eq_true_2; [done|split; [done|]; apply Hin; by left|done].
    + rewrite !bool_decide_eq_false_2; [done| |done]. intros [-> [?| ->]%Hin]; [by destruct Hd|by destruct E].
Qed.

Lemma map_pages_spec m s start base n :
  spaces_ok T m s → handled T Kernel start → page_addr start + Z.of_nat n * PAGE_SIZE ≤ usize_max →
  0 ≤ frame_addr base → (∀ i, 0 ≤ i < Z.of_nat n → table_addr (frame_addr base + i * PAGE_SIZE)) →
  (∀ q, handled T Kernel q → in_pages start (Z.of_nat n) q → lookup m T Kernel q = None) →
  (map_pages (ktable T) base start (Z.of_nat n) m s = Panic UnwrapFailed ∧ starved s) ∨
  ∃ m' s', map_pages (ktable T) base start (Z.of_nat n) m s = Ret (m', s') ∧ spaces_ok T m' s' ∧
    grows (depth_of T) m s m' s' ∧ mapped_run m m' start base (Z.of_nat n).
Proof.
  intros Hok Hst Hb Hbase Hfr Hun. unfold map_pages. induction n as [|n IH].
  { right. exists m, s. split_and!; [done..|by apply grows_refl|]. intros sp q Hq.
    rewrite bool_decide_eq_false_2; [done|]. intros [_ [??]]. lia. }
  rewrite seqZ_snoc, for_each_app.
  destruct IH as [[-> Hs]|(m1 & s1 & -> & Hok1 & Hg1 & Hm1)]; [unfold PAGE_SIZE in *; lia|intros; apply Hfr; lia| |by left|].
  { intros q Hq [??]. apply Hun; [done|]. split; [done|unfold PAGE_SIZE in *; lia]. }
  cbn [mbind outcome_bind for_each].
  pose proof (Hfr (Z.of_nat n) ltac:(lia)) as Hf.
  rewrite frame_add_ok by (destruct Hf; lia). cbn [mbind outcome_bind].
  pose proof Hst as [[[Hp0 _] _] _]. rewrite page_add_ok by (unfold PAGE_SIZE in *; lia). cbn [mbind outcome_bind].
  assert (handled T Kernel (shift_page start (Z.of_nat n))) as Hh.
  { apply page_shift_handled; [done|lia|unfold PAGE_SIZE in *; lia]. }
  destruct (kernel_map_spec T m1 s1 _ (shift_frame base (Z.of_nat n)) Hok1 Hh Hf)
    as (r & m2 & s2 & -> & Hok2 & Hg2 & Hr). cbn [mbind outcome_bind].
  assert (lookup m1 T Kernel (shift_page start (Z.of_nat n)) = None) as Hnone.
  { rewrite Hm1 by done. rewrite bool_decide_eq_false_2 by (intros [_ [_ Hlt]]; cbn in Hlt; lia).
    apply Hun; [done|]. unfold in_pages. change (page_addr (page_at ?x)) with x. unfold PAGE_SIZE. lia. }
  destruct r as [[]|[]]; cbn [mbind outcome_bind expect_ok].
  - right. exists m2, s2. split_and!; [done..|by eapply grows_trans|].
    rewrite Nat2Z.inj_succ, <-Z.add_1_r. eapply mapped_run_succ; [done|lia|done|apply Hr].
  - left. split; [done|]. eapply starved_after; [apply Hg1|apply Hr].
  - destruct Hr as [[? Hr] _]. congruence.
Qed.

(** What is mapped can be unmapped page by page. *)
Lemma unmap_pages_spec m s start n :
  spaces_ok T m s → handled T Kernel start → page_addr start + Z.of_nat n * PAGE_SIZE ≤ usize_max →
  (∀ q, handled T Kernel q → in_pages start (Z.of_nat n) q → is_Some (lookup m T Kernel q)) →
  ∃ m', unmap_pages (ktable T) start (Z.of_nat n) m = Ret m' ∧ spaces_ok T m' s ∧
    (∀ b, is_table (depth_of T) m' b → is_table (depth_of T) m b) ∧ unmapped_run m m' start (Z.of_nat n).
Proof.
  intros Hok Hst Hb Hma. unfold unmap_pages. induction n as [|n IH].
  { exists m. split_and!; [done..|]. intros sp q Hq. rewrite bool_decide_eq_false_2; [done|]. intros [_ [??]]. lia. }
  rewrite seqZ_snoc, for_each_app. destruct IH as (m1 & -> & Hok1 & Ht1 & Hm1); [unfold PAGE_SIZE in *; lia| |].
  { intros q Hq [??]. apply Hma; [done|]. split; [done|unfold PAGE_SIZE in *; lia]. }
  cbn [mbind outcome_bind for_each].
  pose proof Hst as [[[Hp0 _] _] _]. rewrite page_add_ok by (unfold PAGE_SIZE in *; lia). cbn [mbind outcome_bind].
  assert (handled T Kernel (shift_page start (Z.of_nat n))) as Hh.
  { apply page_shift_handled; [done|lia|unfold PAGE_SIZE in *; lia]. }
  destruct (kernel_unmap_spec T m1 s _ Hok1 Hh) as (r & m2 & -> & Hok2 & Ht2 & Hr). cbn [mbind outcome_bind].
  assert (is_Some (lookup m1 T Kernel (shift_page start (Z.of_nat n)))) as [f Hf].
  { rewrite Hm1 by done. rewrite bool_decide_eq_false_2 by (intros [_ [_ Hlt]]; cbn in Hlt; lia).
    apply Hma; [done|]. unfold in_pages. change (page_addr (page_at ?x)) with x. unfold PAGE_SIZE. lia. }
  destruct r as [[]|[]]; cbn [mbind outcome_bind expect_ok]; [|destruct Hr; congruence].
  exists m2. split_and!; [done..|by eauto|].
  rewrite Nat2Z.inj_succ, <-Z.add_1_r. eapply unmapped_run_succ; [done|lia|done|apply Hr].
Qed.

End Loops.

(** ** The mappings that are alive *)

Section Live.
Context {S V : Type} `{ReclaimingAllocator S} `{LawfulVirtual V}.
Context (T : Tables).
Implicit Types (m : memory) (s : S) (v : V) (x : Mappable * RawMapping).

Definition mapping_base x : Page :=
  page_at (page_addr (virtual_valid_start x.2) - physical_start_offset_from_virtual x.1 * PAGE_SIZE).
Definition mapping_size x : Z := frames_len (physical x.2) + physical_start_offset_from_virtual x.1.
Definition mapping_frames x : Frame * Z := (frames_base (physical x.2), frames_len (physical x.2)).

(** What the mapping promises of each of its pages: the guard pages lead
    nowhere, the others to its frames in order. *)
Definition translates m x (q : Page) : Prop :=
  lookup m T Kernel q =
    if page_addr q <? page_addr (virtual_valid_start x.2) then None
    else Some (frame_at (frame_addr (frames_base (physical x.2)) + (page_addr q - page_addr (virtual_valid_start x.2)))).

(** A frame that belongs to a mapping is neither free nor a table. *)
Definition taken_frame m s (g : Frame) : Prop :=
  alloc_managed s g ∧ ¬ alloc_free s g ∧ frame_addr g < 2 ^ 47 ∧ ¬ is_table (depth_of T) m (frame_addr g).

Record live m s v x : Prop := {
  live_len : 0 < frames_len (physical x.2);
  live_base : wf_frame (frames_base (physical x.2));
  live_frames g : in_run (mapping_frames x).1 (mapping_frames x).2 g → taken_frame m s g;
  live_pages : vowned v (mapping_base x) (mapping_size x);
  live_map q : handled T Kernel q → in_pages (mapping_base x) (mapping_size x) q → translates m x q
}.

Definition separate x y : Prop :=
  disjoint_runs (mapping_frames x) (mapping_frames y) ∧
  apart (mapping_base x) (mapping_size x) (mapping_base y) (mapping_size y).

#[global] Instance separate_symm : Symmetric separate.
Proof. intros x y [Hf Hp]. split; [by symmetry|]. destruct Hp; [by right|by left]. Qed.

(** Pages of the kernel that the virtual allocator may still hand out. *)
Definition unowned v (q : Page) : Prop :=
  handled T Kernel q ∧ vlow v ≤ page_addr q ∧ ∀ p n, vowned v p n → ¬ in_pages p n q.

Record system_inv m s v (xs : list (Mappable * RawMapping)) : Prop := {
  sys_spaces : spaces_ok T m s;
  sys_virtual : vinv v;
  sys_low : UPPER_HALF ≤ vlow v;
  sys_live : Forall (live m s v) xs;
  sys_separate : ForallOrdPairs separate xs;
  sys_unowned q : unowned v q → lookup m T Kernel q = None
}.

(** *** The allocator of the frames *)

Lemma allocate_one_contiguous s r s' :
  allocate_one s = Ret (r, s') → ∃ r', allocate_contiguous s 1 = Ret (r', s').
Proof.
  unfold allocate_one, allocate. destruct (allocate_contiguous s 1) as [[[f|e] s1]|] eqn:E; simpl; [| |done].
  - destruct (FrameOps.add f 1); simpl; [|done]. destruct (expect _); simpl; [|done]. intros [= <- <-]. eauto.
  - intros [= <- <-]. eauto.
Qed.

Lemma one_steps_managed s s' g : rtc one_step s s' → alloc_managed s' g ↔ alloc_managed s g.
Proof.
  induction 1 as [|s s1 s' [Hinv [r Hr]] _ IH]; [done|]. rewrite IH.
  apply allocate_one_contiguous in Hr as [r' Hr].
  destruct (alloc_managed_law s 1 r' s1 Hinv ltac:(lia) Hr) as [Hm _]. apply Hm.
Qed.

(** The address spaces only see the allocator through the frames that are free. *)
Lemma spaces_ok_allocator m s s' :
  spaces_ok T m s → alloc_inv s' →
  (∀ g, alloc_free s' g → frame_addr g < 2 ^ 47 ∧ ¬ is_table (depth_of T) m (frame_addr g)) → spaces_ok T m s'.
Proof.
  intros ((Hf & Hinv & Hb) & Hd & Hsh) Hinv' Hg. split_and!; [|done..]. split_and!; [|done|intros g Hg'; by apply Hg].
  split; [|apply (table_unique _ m s Hf)]. intros a il b Hp Hw. split; [by apply (table_ok _ m s Hf a il b)|].
  intros Hfree. destruct (Hg _ Hfree) as [_ []]. by exists a, il.
Qed.

Lemma free_not_table m s g :
  spaces_ok T m s → alloc_free s g → frame_addr g < 2 ^ 47 ∧ ¬ is_table (depth_of T) m (frame_addr g).
Proof.
  intros ((Hf & _ & Hb) & _) Hg. split; [by apply Hb|]. intros (a & il & Hp & Hw).
  destruct (table_ok _ m s Hf a il _ Hp Hw) as [_ Hn]. by rewrite frame_eta in Hn.
Qed.

(** Taking frames for a mapping. *)
Lemma take_frames m s n :
  spaces_ok T m s → 0 < n ≤ usize_max →
  ∃ r s', allocate_contiguous s n = Ret (r, s') ∧ spaces_ok T m s' ∧
  (∀ g, alloc_managed s' g ↔ alloc_managed s g) ∧ (∀ g, alloc_free s' g → alloc_free s g) ∧
  match r with
  | Ok f => wf_frame f ∧ frame_addr f + n * PAGE_SIZE ≤ usize_max ∧
      (∀ g, in_run f n g → alloc_free s g ∧ taken_frame m s' g) ∧
      (∀ g, alloc_free s g ↔ alloc_free s' g ∨ in_run f n g)
  | Err _ => ∀ g, alloc_free s' g ↔ alloc_free s g
  end.
Proof.
  intros Hok Hn. pose proof Hok as ((_ & Hinv & _) & _).
  destruct (alloc_contiguous_law s n Hinv Hn) as (r & s' & Ha & Hinv' & Hr).
  destruct (alloc_managed_law s n r s' Hinv Hn Ha) as [Hm Hmf].
  assert (∀ g, alloc_free s' g → alloc_free s g) as Hsub.
  { intros g Hg. destruct r; [destruct Hr as (_ & _ & _ & Hr)|]; apply Hr in Hg; tauto. }
  exists r, s'. split_and!; [done|..|done|done|].
  - apply (spaces_ok_allocator m s s' Hok Hinv'). intros g Hg. apply (free_not_table m s g Hok). auto.
  - destruct r as [f|]; [|done]. destruct Hr as (Hwf & Hb & Hwas & Hnow). split_and!; [done..| |].
    + intros g Hg. pose proof (Hwas g Hg) as Hfree. destruct (free_not_table m s g Hok Hfree).
      split_and!; [done|]. split_and!; [apply Hm; by apply (Hmf f)| |done|done]. rewrite Hnow. tauto.
    + intros g. rewrite Hnow. destruct (decide (in_run f n g)); [|tauto]. split; [by right|]. intros _. by apply Hwas.
Qed.

(** Giving frames back that are no tables. *)
Lemma give_frames m s f n :
  spaces_ok T m s → 0 < n ≤ usize_max → (∀ g, in_run f n g → taken_frame m s g) →
  ∃ s', deallocate_contiguous s f n = Ret s' ∧ spaces_ok T m s' ∧
    (∀ g, alloc_managed s' g ↔ alloc_managed s g) ∧ (∀ g, alloc_free s' g ↔ alloc_free s g ∨ in_run f n g).
Proof.
  intros Hok Hn Ht. pose proof Hok as ((_ & Hinv & _) & _).
  destruct (dealloc_contiguous_law s f n Hinv Hn) as (s' & Hd & Hinv' & Hm & Hf); [intros g Hg; by apply Ht|].
  exists s'. split_and!; try done. apply (spaces_ok_allocator m s s' Hok Hinv').
  intros g [Hg|Hg]%Hf; [by apply (free_not_table m s)|]. destruct (Ht g Hg) as (_ & _ & ? & ?). done.
Qed.

(** *** What an operation on one mapping does to the others *)

Lemma live_after m s v m' s' v' x :
  live m s v x → vowned v' (mapping_base x) (mapping_size x) →
  (∀ g, in_run (mapping_frames x).1 (mapping_frames x).2 g → taken_frame m s g → taken_frame m' s' g) →
  (∀ q, handled T Kernel q → in_pages (mapping_base x) (mapping_size x) q →
     lookup m' T Kernel q = lookup m T Kernel q) →
  live m' s' v' x.
Proof.
  intros [Hlen Hb Hf Hp Hm] Hv Ht Hl. split; try done.
  - intros g Hg. apply Ht; [done|]. by apply Hf.
  - intros q Hq Hin. unfold translates. rewrite Hl by done. by apply Hm.
Qed.

(** Frames stay taken while tables are made from free ones. *)
Lemma taken_grows m s m' s' g :
  grows (depth_of T) m s m' s' → taken_frame m s g → taken_frame m' s' g.
Proof.
  intros [Hst Hg] (Hm & Hf & Hlt & Ht). split_and!; [by apply (one_steps_managed s s')| |done|].
  - intros Hf'. apply Hf. by eapply one_steps_free.
  - intros [?|Hf']%Hg; [done|]. by rewrite frame_eta in Hf'.
Qed.

Lemma taken_allocator m s s' g :
  (∀ g, alloc_managed s' g ↔ alloc_managed s g) → (∀ g, alloc_free s' g → alloc_free s g) →
  taken_frame m s g → taken_frame m s' g.
Proof. intros Hm Hf (? & ? & ? & ?). split_and!; [by apply Hm|naive_solver|done|done]. Qed.

(** A run of pages that the virtual allocator just handed out. *)
Lemma fresh_pages_unmapped m s v xs p n q :
  system_inv m s v xs → (∀ q k, vowned v q k → apart p n q k) → vlow v ≤ page_addr p →
  handled T Kernel q → in_pages p n q → lookup m T Kernel q = None.
Proof.
  intros Hinv Hap Hlow Hq [Hin1 Hin2]. apply (sys_unowned _ _ _ _ Hinv). split_and!; [done|lia|].
  intros q' k Hown [H1' H2']. destruct (Hap q' k Hown); lia.
Qed.

(** The frames are given back when there are no pages. *)
Lemma take_give_frames m s v xs f n s1 :
  system_inv m s v xs → 0 < n ≤ usize_max → allocate_contiguous s n = Ret (Ok f, s1) →
  ∃ s2, deallocate_contiguous s1 f n = Ret s2 ∧ spaces_ok T m s2 ∧
    (∀ g, alloc_managed s2 g ↔ alloc_managed s g) ∧ (∀ g, alloc_free s2 g ↔ alloc_free s g).
Proof.
  intros Hinv Hn Ha. destruct (take_frames m s n (sys_spaces _ _ _ _ Hinv) Hn)
    as (r & s1' & Ha' & Hok1 & Hm1 & _ & Hr). rewrite Ha in Ha'. injection Ha' as <- <-.
  destruct Hr as (_ & _ & Hrun & Hfree).
  destruct (give_frames m s1 f n Hok1 Hn) as (s2 & -> & Hok2 & Hm2 & Hf2); [intros g Hg; by apply Hrun|].
  exists s2. split_and!; [done..| |].
  - intros g. by rewrite Hm2, Hm1.
  - intros g. by rewrite Hf2, Hfree.
Qed.

(** The invariant when only the allocators changed, and to no effect. *)
Lemma system_inv_allocators m s v s' v' xs :
  system_inv m s v xs → spaces_ok T m s' → vinv v' → vlow v' = vlow v →
  (∀ q k, vowned v' q k ↔ vowned v q k) →
  (∀ g, alloc_managed s' g ↔ alloc_managed s g) → (∀ g, alloc_free s' g → alloc_free s g) →
  system_inv m s' v' xs.
Proof.
  intros Hinv Hok Hv Hlow Hown Hm Hf. split; try done.
  - rewrite Hlow. apply Hinv.
  - eapply Forall_impl; [|apply (sys_live _ _ _ _ Hinv)]. intros x Hx.
    apply (live_after m s v); [done|by apply Hown, Hx| |done]. intros g _. by apply taken_allocator.
  - apply Hinv.
  - intros q (Hq & Hq1 & Hq2). apply (sys_unowned _ _ _ _ Hinv). split_and!; [done|by rewrite <-Hlow|].
    intros p n Ho. apply Hq2. by apply Hown.
Qed.

(** *** A new mapping *)

Section New.
Context (R : Mappable) (n : Z) (m m2 : memory) (s s1 s2 : S) (v v1 : V) (xs : list (Mappable * RawMapping)).
Context (f : Frame) (p : Page).
Local Abbreviation off := (physical_start_offset_from_virtual R).
Local Abbreviation start := (page_at (page_addr p + off * PAGE_SIZE)).
Local Abbreviation x := (R, mkRawMapping (mkOwnedFrames f n) start).

Context (Hinv : system_inv m s v xs) (Hn : 0 < n) (Hwf : wf_frame f).
Context (Hrun : ∀ g, in_run f n g → alloc_free s g ∧ taken_frame m s1 g).
Context (Hm1 : ∀ g, alloc_managed s1 g ↔ alloc_managed s g) (Hf1 : ∀ g, alloc_free s1 g → alloc_free s g).
Context (Hv1 : vinv v1) (Hlow : vlow v1 = vlow v) (Hap : ∀ q k, vowned v q k → apart p (n + off) q k).
Context (Hown : ∀ q k, vowned v1 q k ↔ (q, k) = (p, n + off) ∨ vowned v q k).
Context (Hok2 : spaces_ok T m2 s2) (Hg : grows (depth_of T) m s1 m2 s2) (Hmap : mapped_run T m m2 start f n).

Lemma new_base : mapping_base x = p.
Proof. apply page_addr_inj. unfold mapping_base. cbn [page_addr page_base va_addr virtual_valid_start fst snd]. lia. Qed.

Lemma new_in_pages q : in_pages start n q → in_pages p (n + off) q.
Proof. destruct (offset_bytes R) as (_ & _ & ?). unfold in_pages. change (page_addr (page_at ?y)) with y. unfold PAGE_SIZE. lia. Qed.

Lemma new_untouched sp q :
  handled T sp q → ¬ (sp = Kernel ∧ in_pages p (n + off) q) → lookup m2 T sp q = lookup m T sp q.
Proof.
  intros Hq Hout. rewrite Hmap by done. rewrite bool_decide_eq_false_2; [done|].
  intros [-> Hin]. apply Hout. split; [done|by apply new_in_pages].
Qed.

(** The pages of the mapping itself; the guard page was not mapped before. *)
Lemma new_live : live m2 s2 v1 x.
Proof using All.
  destruct (vowned_ok v1 p (n + off) Hv1) as (Hwp & _ & Hlp & Hb); [by apply Hown; left|]. rewrite Hlow in Hlp.
  split; [done|done|..].
  - intros g Hin. eapply taken_grows; [done|]. by apply Hrun.
  - rewrite new_base. apply Hown. by left.
  - rewrite new_base. intros q Hq Hin. unfold translates. rewrite Hmap by done. cbn [snd virtual_valid_start physical frames_base].
    change (page_addr start) with (page_addr p + off * PAGE_SIZE). destruct (Z.ltb_spec (page_addr q) (page_addr p + off * PAGE_SIZE)).
    + rewrite bool_decide_eq_false_2 by (intros [_ [Hge _]]; cbn in Hge; lia).
      by apply (fresh_pages_unmapped m s v xs p (n + off)).
    + rewrite bool_decide_eq_true_2; [done|]. split; [done|]. destruct Hin as [_ Hin].
      unfold in_pages. change (page_addr (page_at ?y)) with y. unfold mapping_size in Hin. cbn in Hin. lia.
Qed.

(** The mappings there were before. *)
Lemma new_others : system_inv m2 s2 v1 xs.
Proof using Hinv Hm1 Hf1 Hv1 Hlow Hap Hown Hok2 Hg Hmap.
  pose proof Hinv as [Hok Hv Hlo Hlive Hsep Hun]. split; try done.
  - by rewrite Hlow.
  - eapply Forall_impl; [|exact Hlive]. intros y Hy.
    apply (live_after m s v); [done|apply Hown; right; apply Hy|..].
    + intros g _ Ht. eapply taken_grows; [done|]. by apply (taken_allocator m s).
    + intros q Hq [Hin1 Hin2]. apply new_untouched; [done|]. intros [_ [Hp1 Hp2]].
      destruct (Hap _ _ (live_pages _ _ _ _ Hy)); lia.
  - intros q (Hq & Hq1 & Hq2). rewrite new_untouched; [|done|].
    + apply Hun. split_and!; [done|by rewrite <-Hlow|]. intros q' k Ho. apply Hq2, Hown. by right.
    + intros [_ Hin]. apply (Hq2 p (n + off)); [|done]. apply Hown. by left.
Qed.

Lemma new_system : system_inv m2 s2 v1 (x :: xs).
Proof using All.
  pose proof Hinv as [Hok Hv Hlo Hlive Hsep Hun]. destruct new_others as [Hok' Hv' Hlo' Hlive' _ Hun']. split; try done.
  - constructor; [apply new_live|done].
  - constructor; [|done]. rewrite Forall_forall in Hlive |- *. intros y Hy%Hlive. split.
    + intros g [Hg1 Hg2]. destruct (Hrun g Hg1) as [Hfree _].
      destruct (live_frames _ _ _ _ Hy g Hg2) as (_ & Hnf & _). done.
    + rewrite new_base. apply Hap, Hy.
Qed.

End New.

Local Abbreviation new := (raw_mapping_new (ktable T)).

(** [RawMapping::new] with frames from anywhere. *)
Lemma raw_mapping_new_spec R c m s v xs :
  system_inv m s v xs → physical_location c = MapAny → 0 < config_length c →
  let n := config_length c + physical_start_offset_from_virtual R in
  n ≤ usize_max → vfits v n →
  match new R c m s v with
  | Ret (Ok x, m', s', v') => system_inv m' s' v' ((R, x) :: xs) ∧ frames_len (physical x) = config_length c ∧
      ∀ sp q, handled T sp q → ¬ (sp = Kernel ∧ in_pages (mapping_base (R, x)) (mapping_size (R, x)) q) →
        lookup m' T sp q = lookup m T sp q
  | Ret (Err _, m', s', v') => m' = m ∧ system_inv m s' v' xs ∧ ∀ g, alloc_free s' g ↔ alloc_free s g
  | Panic r => allocate_pages v n = Panic r ∨
      r = UnwrapFailed ∧ ∃ f s1, allocate_contiguous s (config_length c) = Ret (Ok f, s1) ∧ starved s1
  end.
Proof.
  intros Hinv Hloc Hlen n Hn Hfit. destruct (offset_bytes R) as (_ & _ & Ho). unfold raw_mapping_new.
  rewrite virtual_length_ok by done. cbn [mbind outcome_bind]. fold n. rewrite Hloc. cbn [into_location owned_frames_xnew].
  unfold owned_frames_new. destruct (take_frames m s (config_length c) (sys_spaces _ _ _ _ Hinv) ltac:(lia))
    as (r & s1 & Ha & Hok1 & Hm1 & Hf1 & Hr). rewrite Ha. cbn [mbind outcome_bind].
  destruct r as [f|e]; cbn [mbind outcome_bind]; last first.
  { split_and!; [done| |done]. apply (system_inv_allocators m s v); try done. apply Hinv. }
  destruct Hr as (Hwf & Hfb & Hrun & Hfree). unfold owned_pages_new.
  destruct (allocate_pages v n) as [[r v1]|] eqn:Hv; cbn [mbind outcome_bind]; [|by left].
  destruct (allocate_pages_law v n r v1 (sys_virtual _ _ _ _ Hinv) ltac:(lia) Hfit Hv) as (Hv1 & Hlow & Hr).
  destruct r as [p|e]; cbn [mbind outcome_bind]; last first.
  { unfold owned_frames_drop. cbn [frames_base frames_len].
    destruct (take_give_frames m s v xs f (config_length c) s1 Hinv ltac:(lia) Ha) as (s2 & -> & Hok2 & Hm2 & Hf2).
    cbn [mbind outcome_bind]. split_and!; [done| |done]. apply (system_inv_allocators m s v); try done. intros g. by rewrite Hf2. }
  destruct Hr as [Hap Hown].
  destruct (vowned_ok v1 p n Hv1) as (Hwp & _ & Hlp & Hb); [by apply Hown; left|]. rewrite Hlow in Hlp.
  pose proof Hwp as [[Hp0 _] _]. cbn [pages_base frames_base].
  rewrite add_signed_ok by (unfold PAGE_SIZE in *; lia). cbn [mbind outcome_bind].
  pose proof (sys_low _ _ _ _ Hinv). rewrite <-(Z2Nat.id (config_length c)) by lia.
  destruct (map_pages_spec T m s1 (page_at (page_addr p + physical_start_offset_from_virtual R * PAGE_SIZE)) f
    (Z.to_nat (config_length c)) Hok1) as [[-> Hst]|(m2 & s2 & -> & Hok2 & Hg & Hmap)].
  - apply page_shift_handled; [split; [done|lia]|lia|unfold PAGE_SIZE in *; lia].
  - change (page_addr (page_at ?y)) with y. unfold PAGE_SIZE in *. lia.
  - apply Hwf.
  - intros i Hi. destruct (Hrun (frame_at (frame_addr f + i * PAGE_SIZE))) as [_ (_ & _ & Hlt & _)]; [exists i; split; [lia|done]|].
    change (frame_addr (frame_at ?y)) with y in Hlt. destruct Hwf as [[Hf0 _] Hfm].
    split; [unfold PAGE_SIZE in *; lia|]. by rewrite Z.mod_add, Hfm.
  - intros q Hq Hin. apply (fresh_pages_unmapped m s v xs p n q Hinv Hap Hlp Hq).
    apply (new_in_pages R (config_length c) p). by rewrite Z2Nat.id in Hin by lia.
  - right. split; [done|]. rewrite ?Z2Nat.id by lia. by exists f, s1.
  - cbn [mbind outcome_bind]. rewrite Z2Nat.id in Hmap |- * by lia. split_and!; [|done|].
    + by apply (new_system R (config_length c) m m2 s s1 s2 v v1 xs f p).
    + intros sp q Hq Hout. apply (new_untouched R (config_length c) m m2 f p); [done..|]. by rewrite new_base in Hout.
Qed.

(** *** The end of a mapping *)

Section Drop.
Context (m m1 : memory) (s s1 : S) (v v1 : V) (xs : list (Mappable * RawMapping)) (x : Mappable * RawMapping).
Local Abbreviation base := (mapping_base x).
Local Abbreviation size := (mapping_size x).

Context (Hinv : system_inv m s v (x :: xs)).
Context (Hok1 : spaces_ok T m1 s1) (Ht1 : ∀ b, is_table (depth_of T) m1 b → is_table (depth_of T) m b).
Context (Hm1 : ∀ g, alloc_managed s1 g ↔ alloc_managed s g).
Context (Hf1 : ∀ g, alloc_free s1 g ↔ alloc_free s g ∨ in_run (mapping_frames x).1 (mapping_frames x).2 g).
Context (Hv1 : vinv v1) (Hlow : vlow v1 = vlow v).
Context (Hown : ∀ q k, vowned v1 q k ↔ vowned v q k ∧ (q, k) ≠ (base, size)).
Context (Hun : unmapped_run T m m1 (virtual_valid_start x.2) (frames_len (physical x.2))).

(** The pages of the mapping lead nowhere, the guard pages as before. *)
Lemma dropped_lookup sp q :
  handled T sp q → lookup m1 T sp q =
    if bool_decide (sp = Kernel ∧ in_pages base size q) then None else lookup m T sp q.
Proof using Hinv Hun.
  intros Hq. rewrite Hun by done. pose proof (sys_live _ _ _ _ Hinv) as [Hx _]%Forall_cons_iff.
  destruct (offset_bytes x.1) as (_ & _ & ?).
  destruct (decide (sp = Kernel ∧ in_pages base size q)) as [[-> Hin]|Hout].
  - rewrite (bool_decide_eq_true_2 (_ ∧ in_pages base size q)) by done. case_bool_decide as Hd; [done|].
    rewrite (live_map _ _ _ _ Hx q Hq Hin). rewrite (proj2 (Z.ltb_lt _ _)); [done|].
    destruct (decide (page_addr q < page_addr (virtual_valid_start x.2))); [done|]. destruct Hd. split; [done|].
    unfold in_pages, mapping_base, mapping_size in *. cbn [page_addr page_base va_addr] in Hin. fold (page_addr (virtual_valid_start x.2)) in Hin. lia.
  - rewrite !bool_decide_eq_false_2; [done|done|]. intros [-> Hin]. apply Hout. split; [done|].
    unfold in_pages, mapping_base, mapping_size in *. change (page_addr (page_at ?y)) with y. unfold PAGE_SIZE in *. lia.
Qed.

Lemma dropped_live y : y ∈ xs → live m1 s1 v1 y.
Proof using All.
  intros Hy. pose proof (sys_live _ _ _ _ Hinv) as [Hx Hxs]%Forall_cons_iff.
  pose proof (sys_separate _ _ _ _ Hinv) as Hsep. inversion_clear Hsep as [|? ? Hs _].
  rewrite Forall_forall in Hxs, Hs. apply list_elem_of_In in Hy. destruct (Hs y Hy) as [Hdis Hap]. pose proof (Hxs y Hy) as Hl.
  destruct (vowned_ok v base size) as (_ & Hsz & _); [apply Hinv|apply Hx|].
  destruct (vowned_ok v (mapping_base y) (mapping_size y)) as (_ & Hsz' & _); [apply Hinv|apply Hl|].
  apply (live_after m s v); [done|..].
  - apply Hown. split; [apply Hl|]. intros [Heq1 Heq2]%pair_equal_spec. rewrite Heq1, Heq2 in Hap.
    unfold apart, PAGE_SIZE in Hap. lia.
  - intros g Hg (Hm & Hf & Hlt & Ht). split_and!; [by apply Hm1| |done|naive_solver].
    intros [?|Hg']%Hf1; [done|]. by apply (Hdis g).
  - intros q Hq Hin. rewrite dropped_lookup by done. rewrite bool_decide_eq_false_2; [done|].
    intros [_ Hin']. unfold in_pages, apart in *. lia.
Qed.

Lemma dropped_system : system_inv m1 s1 v1 xs.
Proof using All.
  split; [done|done|rewrite Hlow; apply Hinv|..].
  - apply Forall_forall. intros y Hy. by apply dropped_live, list_elem_of_In.
  - pose proof (sys_separate _ _ _ _ Hinv) as Hsep. by inversion_clear Hsep.
  - intros q (Hq & Hq1 & Hq2). rewrite dropped_lookup by done. case_bool_decide as Hd; [done|].
    apply (sys_unowned _ _ _ _ Hinv). split_and!; [done|by rewrite <-Hlow|]. intros p k Ho Hin.
    apply (Hq2 p k); [|done]. apply Hown. split; [done|]. intros [-> ->]%pair_equal_spec. by destruct Hd.
Qed.

End Drop.

(** [ForallOrdPairs] of a symmetric relation does not depend on the order. *)
Lemma system_inv_front m s v xs1 x xs2 :
  system_inv m s v (xs1 ++ x :: xs2) ↔ system_inv m s v (x :: xs1 ++ xs2).
Proof.
  assert (Forall (live m s v) (xs1 ++ x :: xs2) ↔ Forall (live m s v) (x :: xs1 ++ xs2)) as Hl.
  { rewrite Forall_cons_iff, !Forall_app, Forall_cons_iff. tauto. }
  assert (ForallOrdPairs separate (xs1 ++ x :: xs2) ↔ ForallOrdPairs separate (x :: xs1 ++ xs2)) as Hs.
  { rewrite ordpairs_middle by apply _. split; [intros []; by constructor|by inversion_clear 1]. }
  split; intros [? ? ? ? ? ?]; split; try done; by apply Hl || by apply Hs.
Qed.

(** Dropping a mapping that is alive never panics and undoes it. *)
Lemma raw_mapping_drop_spec m s v xs1 x xs2 :
  system_inv m s v (xs1 ++ x :: xs2) →
  ∃ m' s' v', raw_mapping_drop (ktable T) x.1 x.2 m s v = Ret (m', s', v') ∧ system_inv m' s' v' (xs1 ++ xs2) ∧
    (∀ g, alloc_free s' g ↔ alloc_free s g ∨ in_run (mapping_frames x).1 (mapping_frames x).2 g) ∧
    (∀ q k, vowned v' q k ↔ vowned v q k ∧ (q, k) ≠ (mapping_base x, mapping_size x)) ∧
    (∀ sp q, handled T sp q → lookup m' T sp q =
       if bool_decide (sp = Kernel ∧ in_pages (mapping_base x) (mapping_size x) q) then None else lookup m T sp q).
Proof.
  intros Hinv%system_inv_front. pose proof (sys_live _ _ _ _ Hinv) as [Hx _]%Forall_cons_iff.
  pose proof (sys_virtual _ _ _ _ Hinv) as Hv. pose proof (sys_low _ _ _ _ Hinv) as Hlo.
  destruct (vowned_ok v _ _ Hv (live_pages _ _ _ _ Hx)) as (Hwp & Hsz & Hlp & Hb). pose proof Hwp as [[Hp0 Hp1] _].
  destruct (offset_bytes x.1) as (_ & _ & Ho). pose proof (live_len _ _ _ _ Hx) as Hlen.
  assert (virtual_valid_start x.2 = page_at (page_addr (mapping_base x) + physical_start_offset_from_virtual x.1 * PAGE_SIZE)) as Hst.
  { apply page_addr_inj. unfold mapping_base. cbn [page_addr page_base va_addr]. lia. }
  assert (handled T Kernel (virtual_valid_start x.2)) as Hh.
  { rewrite Hst. apply page_shift_handled; [split; [done|lia]|lia|]. unfold mapping_size, PAGE_SIZE in *. lia. }
  destruct (unmap_pages_spec T m s (virtual_valid_start x.2) (Z.to_nat (frames_len (physical x.2))))
    as (m1 & Hum & Hok1 & Ht1 & Hun); [apply Hinv|done| | |]; rewrite ?Z2Nat.id in * by lia.
  { rewrite Hst. change (page_addr (page_at ?y)) with y. unfold mapping_size, PAGE_SIZE in *. lia. }
  { intros q Hq Hin. rewrite (live_map _ _ _ _ Hx q Hq).
    - destruct Hin as [Hin _]. by rewrite (proj2 (Z.ltb_ge _ _) Hin).
    - rewrite Hst in Hin. unfold in_pages, mapping_size in *. change (page_addr (page_at ?y)) with y in Hin. unfold PAGE_SIZE in *. lia. }
  unfold raw_mapping_drop, virtual_start, virtual_len. rewrite Hum. cbn [mbind outcome_bind].
  rewrite Hst. rewrite sub_signed_ok by lia. cbn [mbind outcome_bind].
  rewrite virtual_length_ok by (unfold mapping_size, PAGE_SIZE in *; lia). cbn [mbind outcome_bind].
  unfold owned_pages_drop. cbn [pages_base pages_len].
  destruct (deallocate_pages_law v (mapping_base x) (mapping_size x) Hv (live_pages _ _ _ _ Hx))
    as (v1 & Hd & Hv1 & Hlow & Hown). unfold mapping_size in Hd at 1. rewrite Hd. cbn [mbind outcome_bind].
  destruct (give_frames m1 s (mapping_frames x).1 (mapping_frames x).2 Hok1) as (s1 & Hs1 & Hok2 & Hm1 & Hf1).
  { cbn [mapping_frames snd]. unfold mapping_size, PAGE_SIZE in *. lia. }
  { intros g Hg. destruct (live_frames _ _ _ _ Hx g Hg) as (? & ? & ? & ?). split_and!; naive_solver. }
  unfold owned_frames_drop. cbn [mapping_frames fst snd] in Hs1. rewrite Hs1. cbn [mbind outcome_bind].
  exists m1, s1, v1. split_and!; [done| |done|done|].
  - by apply (dropped_system m m1 s s1 v v1 _ x).
  - by apply (dropped_lookup m m1 s v (xs1 ++ xs2) x).
Qed.

End Live.
