(* ===== verification/MappingClients.v ===== *)
(** * MappingClients: programs that make and drop mappings

    The theorems of [Mapping] for a program that makes mappings and stacks and
    drops them in any order, and a concrete system in which they are at work: the
    bitmap allocator for the frames, the ranged allocator for the pages, and the
    page tables of the kernel. *)

From stdpp Require Import base gmap list numbers option.
From S2P Require Import Prelude Memory Allocator Bitmap PageTable Walk Paging AddressSpace VirtualMemory RangedBtree VirtAlloc Mapping.

Open Scope Z_scope.

Section Clients.
Context {S V : Type} `{ReclaimingAllocator S} `{LawfulVirtual V}.
Context (T : Tables).

(** The memory of the tables, the two allocators and the mappings alive. *)
Definition system_state : Type := memory * S * V * list (Mappable * RawMapping).

(** What clients do with [RawMapping] and the frames of the global allocator.  Mappings
    of given frames are no steps: the regions of [Acpi] use [Location::At] with an
    allocator that owns nothing, and may well show the same frame twice. *)
Inductive mapping_step : system_state → system_state → Prop :=
  | step_new R c m s v xs x m' s' v' :
      physical_location c = MapAny → 0 < config_length c →
      config_length c + physical_start_offset_from_virtual R ≤ usize_max →
      vfits v (config_length c + physical_start_offset_from_virtual R) →
      raw_mapping_new (ktable T) R c m s v = Ret (Ok x, m', s', v') →
      mapping_step (m, s, v, xs) (m', s', v', (R, x) :: xs)
  | step_refused R c m s v xs e m' s' v' :
      physical_location c = MapAny → 0 < config_length c →
      config_length c + physical_start_offset_from_virtual R ≤ usize_max →
      vfits v (config_length c + physical_start_offset_from_virtual R) →
      raw_mapping_new (ktable T) R c m s v = Ret (Err e, m', s', v') →
      mapping_step (m, s, v, xs) (m', s', v', xs)
  | step_drop m s v xs1 x xs2 m' s' v' :
      raw_mapping_drop (ktable T) x.1 x.2 m s v = Ret (m', s', v') →
      mapping_step (m, s, v, xs1 ++ x :: xs2) (m', s', v', xs1 ++ xs2).

Definition state_inv (c : system_state) : Prop :=
  let '(m, s, v, xs) := c in system_inv T m s v xs.

Lemma mapping_step_inv c c' : mapping_step c c' → state_inv c → state_inv c'.
Proof.
  intros [R c0 m s v xs x m' s' v' Hl H0' Hn Hf Ha|R c0 m s v xs e m' s' v' Hl H0' Hn Hf Ha|
    m s v xs1 x xs2 m' s' v' Hd] Hinv; simpl in *.
  - pose proof (raw_mapping_new_spec T R c0 m s v xs Hinv Hl H0' Hn Hf) as Hs. rewrite Ha in Hs. apply Hs.
  - pose proof (raw_mapping_new_spec T R c0 m s v xs Hinv Hl H0' Hn Hf) as Hs. rewrite Ha in Hs. by destruct Hs as (-> & ? & _).
  - destruct (raw_mapping_drop_spec T m s v xs1 x xs2 Hinv) as (m1 & s1 & v1 & Hd1 & Hi & _).
    rewrite Hd in Hd1. by injection Hd1 as -> -> ->.
Qed.

Lemma mapping_steps_inv c c' : rtc mapping_step c c' → state_inv c → state_inv c'.
Proof. induction 1; eauto using mapping_step_inv. Qed.

(** *** What a live mapping promises *)

Lemma live_bounds m (s : S) (v : V) xs x :
  system_inv T m s v xs → live T m s v x →
  handled T Kernel (mapping_base x) ∧ page_addr (mapping_base x) + mapping_size x * PAGE_SIZE ≤ usize_max ∧
  0 < frames_len (physical x.2) ∧
  virtual_valid_start x.2 = page_at (page_addr (mapping_base x) + physical_start_offset_from_virtual x.1 * PAGE_SIZE).
Proof.
  intros Hinv Hx. destruct (vowned_ok v _ _ (sys_virtual _ _ _ _ _ Hinv) (live_pages _ _ _ _ _ Hx)) as (Hwp & _ & Hlp & Hb).
  pose proof (sys_low _ _ _ _ _ Hinv). split_and!; [split; [done|lia]|done|apply Hx|].
  apply page_addr_inj. unfold mapping_base. cbn [page_addr page_base va_addr]. lia.
Qed.

Lemma live_translates m (s : S) (v : V) xs x i :
  system_inv T m s v xs → live T m s v x → 0 ≤ i < frames_len (physical x.2) →
  lookup m T Kernel (page_at (page_addr (virtual_valid_start x.2) + i * PAGE_SIZE)) =
    Some (frame_at (frame_addr (frames_base (physical x.2)) + i * PAGE_SIZE)).
Proof.
  intros Hinv Hx Hi. destruct (live_bounds m s v xs x Hinv Hx) as (Hh & Hb & Hl & Hst).
  pose proof (offset_bytes x.1) as (_ & _ & Ho). pose proof Hh as [[[Hp0 _] _] _].
  assert (handled T Kernel (page_at (page_addr (virtual_valid_start x.2) + i * PAGE_SIZE))) as Hq.
  { rewrite Hst. change (page_addr (page_at ?y)) with y. rewrite <-Z.add_assoc, <-Z.mul_add_distr_r.
    apply page_shift_handled; [done|lia|]. unfold mapping_size, PAGE_SIZE in *. lia. }
  rewrite (live_map _ _ _ _ _ Hx _ Hq).
  - change (page_addr (page_at ?y)) with y. rewrite (proj2 (Z.ltb_ge _ _)) by (unfold PAGE_SIZE; lia).
    do 3 f_equal. lia.
  - unfold in_pages. rewrite Hst. repeat change (page_addr (page_at ?y)) with y. unfold mapping_size, PAGE_SIZE in *. lia.
Qed.

Lemma live_guard m (s : S) (v : V) xs x :
  system_inv T m s v xs → live T m s v x → x.1 = RawStack → lookup m T Kernel (mapping_base x) = None.
Proof.
  intros Hinv Hx HR. destruct (live_bounds m s v xs x Hinv Hx) as (Hh & Hb & Hl & Hst).
  rewrite (live_map _ _ _ _ _ Hx _ Hh).
  - rewrite Hst, HR. change (page_addr (page_at ?y)) with y. cbn [physical_start_offset_from_virtual].
    by rewrite (proj2 (Z.ltb_lt _ _)) by (unfold PAGE_SIZE; lia).
  - unfold in_pages, mapping_size. rewrite HR. cbn [physical_start_offset_from_virtual]. unfold PAGE_SIZE. lia.
Qed.


(** C8. Dropping a mapping that is alive never panics: its frames are free and its
    pages unowned again, its pages lead nowhere, and all other mappings and
    address spaces are as they were. *)
Theorem mapping_drop m (s : S) (v : V) xs1 x xs2 :
  state_inv (m, s, v, xs1 ++ x :: xs2) →
  ∃ m' s' v', raw_mapping_drop (ktable T) x.1 x.2 m s v = Ret (m', s', v') ∧ state_inv (m', s', v', xs1 ++ xs2) ∧
    (∀ g, alloc_free s' g ↔ alloc_free s g ∨ in_run (mapping_frames x).1 (mapping_frames x).2 g) ∧
    (∀ q k, vowned v' q k ↔ vowned v q k ∧ (q, k) ≠ (mapping_base x, mapping_size x)) ∧
    (∀ sp q, handled T sp q → lookup m' T sp q =
       if bool_decide (sp = Kernel ∧ in_pages (mapping_base x) (mapping_size x) q) then None else lookup m T sp q).
Proof. apply raw_mapping_drop_spec. Qed.

(** C6. However a program makes and drops mappings and stacks whose frames come from the
    global allocator ([Location::Any]) and whose lengths fit the range of the page
    allocator, any two of those alive have no frame and no page in common, no frame of
    theirs is free or used as a page table, every page translates to its own frame, and
    the page below a stack is not mapped. *)
Theorem mapping_clients m (s : S) (v : V) m' s' v' xs :
  state_inv (m, s, v, []) → rtc mapping_step (m, s, v, []) (m', s', v', xs) →
  ForallOrdPairs separate xs ∧
  Forall (λ x,
    (∀ i, 0 ≤ i < frames_len (physical x.2) →
       lookup m' T Kernel (page_at (page_addr (virtual_valid_start x.2) + i * PAGE_SIZE)) =
         Some (frame_at (frame_addr (frames_base (physical x.2)) + i * PAGE_SIZE))) ∧
    (∀ g, in_run (mapping_frames x).1 (mapping_frames x).2 g →
       ¬ alloc_free s' g ∧ ¬ is_table (depth_of T) m' (frame_addr g)) ∧
    (x.1 = RawStack → lookup m' T Kernel (mapping_base x) = None)) xs.
Proof.
  intros Hi Hsteps. pose proof (mapping_steps_inv _ _ Hsteps Hi : system_inv T m' s' v' xs) as Hinv.
  split; [apply Hinv|]. eapply Forall_impl; [|apply (sys_live _ _ _ _ _ Hinv)]. intros x Hx.
  split_and!; [|intros g Hg; by destruct (live_frames _ _ _ _ _ Hx g Hg) as (_ & ? & _ & ?)|].
  - intros i Hi'. by apply (live_translates m' s' v' xs x i Hinv Hx).
  - intros HR. by apply (live_guard m' s' v' xs x Hinv Hx).
Qed.

(** Taking a mapping apart and putting the parts together again gives it back. *)
Theorem mapping_parts m (s : S) (v : V) xs1 x xs2 :
  state_inv (m, s, v, xs1 ++ x :: xs2) →
  ∃ frames pages, into_raw_parts x.1 x.2 = Ret (frames, pages) ∧
    vowned v (pages_base pages) (pages_len pages) ∧ from_raw_parts x.1 frames pages = Ret x.2.
Proof.
  intros Hinv. assert (live T m s v x) as Hx.
  { eapply Forall_forall; [apply (sys_live _ _ _ _ _ Hinv)|]. apply list_elem_of_In, elem_of_app. right. by left. }
  destruct (live_bounds m s v _ x Hinv Hx) as ([[Hp _] _] & Hb & Hl & Hst). pose proof (offset_bytes x.1) as (_ & _ & Ho).
  exists (physical x.2), (mkOwnedPages (mapping_base x) (mapping_size x)). unfold into_raw_parts, virtual_start, virtual_len, from_raw_parts.
  cbn [frames_len pages_base pages_len]. rewrite virtual_length_ok by (unfold mapping_size, PAGE_SIZE in *; lia).
  rewrite Hst at 1. rewrite sub_signed_ok by done. cbn [mbind outcome_bind]. split_and!; [done|apply Hx|].
  unfold mapping_size at 1. rewrite Z.eqb_refl. cbn [assert mbind outcome_bind].
  rewrite add_signed_ok; [|lia|unfold mapping_size, PAGE_SIZE in *; lia]. cbn [mbind outcome_bind]. rewrite <-Hst.
  by destruct x as [R []].
Qed.

End Clients.

(** ** A system at work *)

(** The tables and frames of [AddressSpace], and a megabyte of pages in the upper half. *)
Definition boot_pages : RangedBtreeAllocator := valloc_new (page_at 0xffff900000000000, page_at 0xffff900000100000).

Lemma boot_pages_inv : valloc_inv boot_pages.
Proof.
  split_and!; [split; [cbn; lia|done]|split; [cbn; lia|done]|exists 0; done|].
  intros s e n He. by apply elem_of_nil in He.
Qed.

Lemma boot_unmapped sp q : handled boot_tables sp q → lookup boot_memory boot_tables sp q = None.
Proof.
  intros Hq. pose proof (handled_leaf boot_tables boot_memory demo sp q boot_ok Hq) as Hp. unfold lookup.
  destruct (path_of sp q) as [|i il]; [done|]. destruct Hp as (d & [_ Hz]%boot_roots & _).
  cbn [walk]. unfold next. by rewrite Hz.
Qed.

Lemma boot_system : system_inv boot_tables boot_memory demo boot_pages [].
Proof.
  split; [exact boot_ok|exact boot_pages_inv|cbn; unfold UPPER_HALF; lia|constructor|constructor|].
  intros q [Hq _]. by apply boot_unmapped.
Qed.

(** What of a result can be read off without the memory. *)
Definition mapping_result {M B C} (o : outcome (result RawMapping AllocError * M * B * C)) :
    option (result RawMapping AllocError * B * C) :=
  match o with Ret (r, _, s, v) => Some (r, s, v) | Panic _ => None end.

(** A stack of two pages with its guard page. *)
Definition boot_stack : RawMapping :=
  mkRawMapping (mkOwnedFrames (frame_at 0x5000) 2) (page_at 0xffff900000001000).

Lemma boot_new_stack :
  mapping_result (raw_mapping_new (ktable boot_tables) RawStack (config_new 2) boot_memory demo boot_pages) =
    Some (Ok boot_stack, mkBitmap (frame_at 0x1000) [0x00; 0x0f],
      mkVAlloc (range boot_pages) (mkMap [(KRange (page_at 0xffff900000000000) (page_at 0xffff900000003000), 3)])).
Proof. vm_compute. reflexivity. Qed.

(** The state in which the stack has been made. *)
Lemma boot_with_stack :
  ∃ m s v, raw_mapping_new (ktable boot_tables) RawStack (config_new 2) boot_memory demo boot_pages =
      Ret (Ok boot_stack, m, s, v) ∧ system_inv boot_tables m s v [(RawStack, boot_stack)].
Proof.
  pose proof boot_new_stack as Hr.
  pose proof (raw_mapping_new_spec boot_tables RawStack (config_new 2) boot_memory demo boot_pages [] boot_system
    eq_refl ltac:(cbn; lia) ltac:(cbn; lia) ltac:(cbn; unfold PAGE_SIZE; lia)) as Hs.
  destruct (raw_mapping_new _ _ _ _ _ _) as [[[[[x|e] m] s] v]|]; simpl in Hr; [|done..].
  injection Hr as -> -> ->. eexists m, _, _. split; [done|]. exact (proj1 Hs).
Qed.


Lemma mapping_drop_witness :
  ∃ m s v m' s' v', system_inv boot_tables m s v [(RawStack, boot_stack)] ∧
    raw_mapping_drop (ktable boot_tables) RawStack boot_stack m s v = Ret (m', s', v') ∧
    alloc_free s' (frame_at 0x6000) ∧ system_inv boot_tables m' s' v' [].
Proof.
  destruct boot_with_stack as (m & s & v & _ & Hi).
  destruct (mapping_drop boot_tables m s v [] (RawStack, boot_stack) [] Hi) as (m' & s' & v' & Hd & Hi' & Hf & _).
  exists m, s, v, m', s', v'. split; [exact Hi|]. split; [exact Hd|]. split; [|exact Hi'].
  apply Hf. right. exists 1. split; cbn; [lia|done].
Defined.

Lemma mapping_clients_witness :
  ∃ m s v, rtc (mapping_step boot_tables) (boot_memory, demo, boot_pages, []) (m, s, v, [(RawStack, boot_stack)]) ∧
    lookup m boot_tables Kernel (page_at 0xffff900000000000) = None ∧
    lookup m boot_tables Kernel (page_at 0xffff900000002000) = Some (frame_at 0x6000).
Proof.
  destruct boot_with_stack as (m & s & v & Hn & _). exists m, s, v.
  assert (rtc (mapping_step boot_tables) (boot_memory, demo, boot_pages, []) (m, s, v, [(RawStack, boot_stack)])) as Hst.
  { apply rtc_once, (step_new _ RawStack (config_new 2)); [done|cbn; lia|cbn; lia|cbn; unfold PAGE_SIZE; lia|done]. }
  destruct (mapping_clients boot_tables boot_memory demo boot_pages m s v _ boot_system Hst) as [_ Hx].
  apply Forall_cons_iff in Hx as [(Ht & _ & Hg) _]. split; [exact Hst|].
  split; [exact (Hg eq_refl)|]. exact (Ht 1 ltac:(cbn; lia)).
Defined.

Lemma mapping_parts_witness :
  ∃ frames pages, into_raw_parts RawStack boot_stack = Ret (frames, pages) ∧ pages_len pages = 3 ∧
    from_raw_parts RawStack frames pages = Ret boot_stack.
Proof.
  destruct boot_with_stack as (m & s & v & _ & Hi).
  destruct (mapping_parts boot_tables m s v [] (RawStack, boot_stack) [] Hi) as (frames & pages & Hp & _ & Hf).
  exists frames, pages. split; [exact Hp|]. split; [|exact Hf].
  cbn [fst snd] in Hp. vm_compute in Hp. by injection Hp as <- <-.
Defined.

(** *** Where frames cannot be chosen *)

(** A mapping whose frames are to be aligned reaches the [todo!()] of the bitmap
    allocator. *)
Theorem mapping_aligned_panics tables R c m (s : BitmapAllocator) (v : RangedBtreeAllocator) a :
  physical_location c = MapAligned a → 0 < config_length c → config_length c + physical_start_offset_from_virtual R ≤ usize_max →
  raw_mapping_new tables R c m s v = Panic NotImplemented.
Proof.
  intros Hloc Hlen Hn. unfold raw_mapping_new. rewrite virtual_length_ok by done. cbn [mbind outcome_bind].
  rewrite Hloc. cbn [into_location owned_frames_xnew].
  change (allocate_at s) with (bitmap_allocate_at s). unfold bitmap_allocate_at. by rewrite (proj2 (Z.eqb_neq _ _)) by lia.
Qed.
