(* ===== verification/Acpi.v ===== *)
(** * Acpi: regions of physical memory

    The handler of [kernel/src/hal/acpi/mod.rs], with which the kernel reads tables and
    images that the firmware left in memory.  A region is mapped at the physical address
    it has: the allocator behind the mapping is [NullAllocator], which agrees to
    every frame and forgets it.  The page tables and the pages are those of [Mapping],
    and regions are alive beside the mappings that own their frames. *)

From stdpp Require Import base gmap list numbers option.
From S2P Require Import Prelude Memory Allocator PageTable Walk Paging AddressSpace VirtualMemory RangedBtree VirtAlloc.
From S2P Require Import Bitmap Mapping MappingClients.

Open Scope Z_scope.

(** [NullAllocator] has no state of its own. *)
Definition null_allocator {S} : BackingAllocator S := {|
  allocate_contiguous := λ _ _, Panic NotImplemented;
  deallocate_contiguous := λ s _ _, Ret s;
  allocate_at := λ s _ location,
    match location with
    | Aligned _ => Panic NotImplemented
    | At f => Ret (Ok f, s)
    | Below _ _ => Panic NotImplemented
    end
|}.

(** [XPhysicalMapping<_, T>], also [PhysicalMapping]: the pointer to [T] is an address
    and metadata of type [M]. *)
Record XPhysicalMapping {M : Type} := mkXMapping {
  physical_start : Z;
  region_start : VirtualAddress;
  metadata : M;
  region_length : Z;
  mapped_length : Z
}.
Arguments XPhysicalMapping : clear implicits.

Definition NonZero_new (n : Z) : option Z := if n =? 0 then None else Some n.

Section Handler.
Context {S V : Type} {global : BackingAllocator S} `{VirtualAllocator V}.
Context (tables : Frame) (allocator : BackingAllocator S).

(** [Handler::map_region]. *)
Definition map_region {M} (physical_address size : Z) (meta : M) (m : memory) (s : S) (v : V) :
    outcome (XPhysicalMapping M * memory * S * V) :=
  a ← Phys.new 1 physical_address;
  lower_addr ← Phys.align_down PAGE_SIZE a;
  offset ← usize_sub physical_address (pa_addr lower_addr);
  e ← usize_add physical_address size;
  e ← Phys.new 1 e;
  upper_addr ← Phys.align_up PAGE_SIZE e;
  actual_size ← Phys.diff upper_addr lower_addr;
  actual_size ← expect (NonZero_new actual_size);
  let page_count := (actual_size + 4095) / 4096 in
  '(r, m, s, v) ← raw_mapping_new (global := global) tables (physical_allocator := allocator) RawMmap
    (mkMapConfig (MapAt (mkFrame lower_addr)) MapAny Lazy page_count RWX) m s v;
  mapping ← expect_ok r;
  '(frames, pages) ← into_raw_parts RawMmap mapping;
  _ ← assert (frames_len frames =? pages_len pages);
  physical_start ← usize_add (pa_addr (FrameOps.start (frames_base frames))) offset;
  mapped ← usize_mul (frames_len frames) 4096;
  Ret (mkXMapping M physical_start (mkVA (page_addr (pages_base pages) + offset)) meta size mapped, m, s, v).

(** [AcpiHandler::map_physical_region]: a type of known size has no metadata. *)
Definition map_physical_region (physical_address size : Z) (m : memory) (s : S) (v : V) :
    outcome (XPhysicalMapping unit * memory * S * V) :=
  map_region physical_address size tt m s v.

(** [AcpiHandler::unmap_physical_region], also [Drop for XPhysicalMapping]. *)
Definition unmap_physical_region {M} (region : XPhysicalMapping M) (m : memory) (s : S) (v : V) :
    outcome (memory * S * V) :=
  start ← Phys.new 1 (physical_start region);
  first_frame ← Phys.align_down PAGE_SIZE start;
  len ← expect (NonZero_new (mapped_length region / 4096));
  first_page ← Virt.align_down PAGE_SIZE (region_start region);
  mapping ← from_raw_parts RawMmap (mkOwnedFrames (mkFrame first_frame) len) (mkOwnedPages (mkPage first_page) len);
  raw_mapping_drop tables (physical_allocator := allocator) RawMmap mapping m s v.

End Handler.

(** ** Addresses *)

Lemma phys_new_1 a : is_usize a → Phys.new 1 a = Ret (mkPA a).
Proof.
  intros Ha. unfold Phys.new. change 1 with (2 ^ 0). rewrite align_down_pow2 by (lia || done).
  cbn [mbind outcome_bind pa_addr]. change (2 ^ 0) with 1. by rewrite Z.mod_1_r, Z.sub_0_r, Z.eqb_refl.
Qed.

Lemma phys_align_page a : is_usize a → Phys.align_down PAGE_SIZE (mkPA a) = Ret (mkPA (a - a mod PAGE_SIZE)).
Proof. intros Ha. change PAGE_SIZE with (2 ^ 12). by rewrite align_down_pow2 by (lia || done). Qed.

Lemma phys_align_up_page a :
  0 ≤ a → a + PAGE_SIZE ≤ usize_max →
  Phys.align_up PAGE_SIZE (mkPA a) = Ret (mkPA ((a + PAGE_SIZE - 1) / PAGE_SIZE * PAGE_SIZE)).
Proof.
  intros Ha Hb. change PAGE_SIZE with (2 ^ 12) in *. rewrite align_up_pow2 by (lia || (unfold is_usize; cbn; lia)).
  by rewrite (proj2 (Z.leb_le _ _)).
Qed.

Lemma virt_align_page a : is_usize a → Virt.align_down PAGE_SIZE (mkVA a) = Ret (mkVA (a - a mod PAGE_SIZE)).
Proof.
  intros Ha. unfold Virt.align_down. rewrite usize_sub_ok by (unfold PAGE_SIZE; lia). cbn [mbind outcome_bind va_addr].
  change PAGE_SIZE with (2 ^ 12). by rewrite mask_low_bits by (lia || done).
Qed.

(** How many pages hold the bytes from [a] on. *)
Definition region_pages (a size : Z) : Z := (a + size + PAGE_SIZE - 1) / PAGE_SIZE - a / PAGE_SIZE.

Lemma region_pages_bounds a size :
  0 ≤ a → 0 < size → 0 < region_pages a size ∧
  a mod PAGE_SIZE + size ≤ region_pages a size * PAGE_SIZE < a mod PAGE_SIZE + size + PAGE_SIZE.
Proof. unfold region_pages, PAGE_SIZE. intros. Z.div_mod_to_equations. lia. Qed.

(** ** Regions that are alive *)

(** The pages of a region and the first of the frames they lead to. *)
Record phys_run := mkRun { run_page : Page; run_len : Z; run_frame : Frame }.

Definition run_of {M} (x : XPhysicalMapping M) : phys_run :=
  mkRun (page_at (va_addr (region_start x) - va_addr (region_start x) mod PAGE_SIZE)) (mapped_length x / PAGE_SIZE)
    (frame_at (physical_start x - physical_start x mod PAGE_SIZE)).

Section Regions.
Context {S V : Type} `{ReclaimingAllocator S} `{LawfulVirtual V}.
Context (T : Tables).
Implicit Types (m : memory) (s : S) (v : V).

(** Where a byte of virtual memory is. *)
Definition translate (m : memory) (a : Z) : option Z :=
  (λ f, frame_addr f + a mod PAGE_SIZE) <$> lookup m T Kernel (page_at (a - a mod PAGE_SIZE)).

Record run_live (m : memory) (v : V) (r : phys_run) : Prop := {
  run_owned : vowned v (run_page r) (run_len r);
  run_map q : handled T Kernel q → in_pages (run_page r) (run_len r) q →
    lookup m T Kernel q = Some (frame_at (frame_addr (run_frame r) + (page_addr q - page_addr (run_page r))))
}.

Definition runs_apart (r1 r2 : phys_run) : Prop := apart (run_page r1) (run_len r1) (run_page r2) (run_len r2).
Definition run_beside (r : phys_run) (x : Mappable * RawMapping) : Prop :=
  apart (run_page r) (run_len r) (mapping_base x) (mapping_size x).

#[global] Instance runs_apart_symm : Symmetric runs_apart.
Proof. intros r1 r2 [?|?]; [by right|by left]. Qed.

(** The mappings [xs] and the regions [rs] are alive beside each other. *)
Record regions_inv (m : memory) (s : S) (v : V) (xs : list (Mappable * RawMapping)) (rs : list phys_run) : Prop := {
  reg_system : system_inv T m s v xs;
  reg_live : Forall (run_live m v) rs;
  reg_apart : ForallOrdPairs runs_apart rs;
  reg_beside : Forall (λ r, Forall (run_beside r) xs) rs
}.

(** *** A new region *)

(** [p] are [n] pages that [v] did not own and [v'] does. *)
Definition takes_pages (v v' : V) (p : Page) (n : Z) : Prop :=
  vlow v' = vlow v ∧ (∀ q k, vowned v q k → apart p n q k) ∧ ∀ q k, vowned v' q k ↔ (q, k) = (p, n) ∨ vowned v q k.

(** [RawMapping::new] with [NullAllocator] maps the frames it is told to. *)
Lemma null_mapping_spec c f m s v xs :
  system_inv T m s v xs → physical_location c = MapAt f → 0 < config_length c ≤ usize_max →
  0 ≤ frame_addr f → (∀ i, 0 ≤ i < config_length c → table_addr (frame_addr f + i * PAGE_SIZE)) →
  vfits v (config_length c) →
  match raw_mapping_new (ktable T) (physical_allocator := null_allocator) RawMmap c m s v with
  | Ret (Ok x, m', s', v') => physical x = mkOwnedFrames f (config_length c) ∧ system_inv T m' s' v' xs ∧ rtc one_step s s' ∧
      allocate_pages v (config_length c) = Ret (Ok (virtual_valid_start x), v') ∧
      takes_pages v v' (virtual_valid_start x) (config_length c) ∧
      mapped_run T m m' (virtual_valid_start x) f (config_length c)
  | Ret (Err e, _, _, _) => ∃ v', allocate_pages v (config_length c) = Ret (Err e, v')
  | Panic r => allocate_pages v (config_length c) = Panic r ∨ r = UnwrapFailed ∧ starved s
  end.
Proof.
  intros Hinv Hloc Hlen Hf Hfr Hfit. unfold raw_mapping_new. cbn [physical_length_to_virtual_length mbind outcome_bind].
  rewrite Hloc. cbn [into_location owned_frames_xnew allocate_at null_allocator mbind outcome_bind]. unfold owned_pages_new.
  destruct (allocate_pages v (config_length c)) as [[r v1]|] eqn:Hv; cbn [mbind outcome_bind]; [|by left].
  destruct (allocate_pages_law v (config_length c) r v1 (sys_virtual _ _ _ _ _ Hinv) ltac:(lia) Hfit Hv) as (Hv1 & Hlow & Hr).
  destruct r as [p|e]; cbn [mbind outcome_bind]; [|by exists v1]. destruct Hr as [Hap Hown].
  destruct (vowned_ok v1 p (config_length c) Hv1) as (Hwp & _ & Hlp & Hb); [by apply Hown; left|]. rewrite Hlow in Hlp.
  pose proof Hwp as [[Hp0 _] _]. cbn [pages_base frames_base]. pose proof (sys_low _ _ _ _ _ Hinv).
  rewrite (add_signed_ok p RawMmap) by (cbn [physical_start_offset_from_virtual]; unfold PAGE_SIZE in *; lia).
  cbn [mbind outcome_bind physical_start_offset_from_virtual].
  assert (page_at (page_addr p + 0 * PAGE_SIZE) = p) as -> by (apply page_addr_inj; change (page_addr (page_at ?y)) with y; lia).
  pose proof (map_pages_spec T m s p f (Z.to_nat (config_length c)) (sys_spaces _ _ _ _ _ Hinv)) as Hmp.
  rewrite Z2Nat.id in Hmp by lia.
  destruct Hmp as [[-> Hst]|(m2 & s2 & -> & Hok2 & Hg & Hmap)]; try done; [split; [done|lia]|..].
  - intros q Hq Hin. by apply (fresh_pages_unmapped T m s v xs p (config_length c) q Hinv Hap Hlp Hq).
  - by right.
  - cbn [mbind outcome_bind virtual_valid_start physical]. split_and!; [done| |apply Hg|done|done..].
    apply (new_others T RawMmap (config_length c) m m2 s s s2 v v1 xs f p); cbn [physical_start_offset_from_virtual];
      rewrite ?Z.add_0_r; try done.
Qed.

Lemma region_added m s v xs rs m' s' v' p n f :
  regions_inv m s v xs rs → system_inv T m' s' v' xs → takes_pages v v' p n → mapped_run T m m' p f n →
  regions_inv m' s' v' xs (mkRun p n f :: rs).
Proof.
  intros [Hsys Hlive Hap Hbes] Hsys' (_ & Hfresh & Hown) Hmap. split; [done|..].
  - constructor.
    + split; cbn [run_page run_len run_frame]; [apply Hown; by left|]. intros q Hq Hin. rewrite Hmap by done.
      by rewrite bool_decide_eq_true_2.
    + eapply Forall_impl; [|exact Hlive]. intros r [Ho Hm]. split; [apply Hown; by right|]. intros q Hq Hin.
      rewrite Hmap by done. rewrite bool_decide_eq_false_2; [by apply Hm|]. intros [_ Hin'].
      destruct (Hfresh _ _ Ho); unfold in_pages in *; lia.
  - constructor; [|done]. eapply Forall_impl; [|exact Hlive]. intros r Hr. apply Hfresh, Hr.
  - constructor; [|done]. eapply Forall_impl; [|apply (sys_live _ _ _ _ _ Hsys)]. intros x Hx. apply Hfresh, Hx.
Qed.

(** What a region that is alive says of itself. *)
Record region_ok {M} (x : XPhysicalMapping M) : Prop := {
  region_usize : 0 ≤ physical_start x ∧ 0 ≤ va_addr (region_start x);
  region_offset : va_addr (region_start x) mod PAGE_SIZE = physical_start x mod PAGE_SIZE;
  region_mapped : mapped_length x mod PAGE_SIZE = 0;
  region_inside : 0 < region_length x ∧ physical_start x mod PAGE_SIZE + region_length x ≤ mapped_length x;
  region_frames : physical_start x ≤ 2 ^ 60
}.

(** Each byte of a region is the byte of physical memory it was asked for. *)
Lemma region_translates {M} m s v xs rs (x : XPhysicalMapping M) k :
  regions_inv m s v xs rs → run_of x ∈ rs → region_ok x → 0 ≤ k < region_length x →
  translate m (va_addr (region_start x) + k) = Some (physical_start x + k).
Proof.
  intros Hinv Hx [Hu Hoff Hmod Hin Hfr] Hk. pose proof (reg_live _ _ _ _ _ Hinv) as Hlive.
  rewrite Forall_forall in Hlive. apply list_elem_of_In in Hx. destruct (Hlive _ Hx) as [Hown Hmap].
  pose proof (reg_system _ _ _ _ _ Hinv) as Hsys.
  destruct (vowned_ok v _ _ (sys_virtual _ _ _ _ _ Hsys) Hown) as ([[Hp0 _] Hpm] & Hn & Hlow & Hb).
  pose proof (sys_low _ _ _ _ _ Hsys). unfold translate.
  set (a := va_addr (region_start x)) in *. set (b := physical_start x) in *.
  cbn [run_of run_page run_len run_frame] in *. fold a b in Hown, Hmap, Hp0, Hpm, Hlow, Hb.
  change (page_addr (page_at ?y)) with y in *. change (frame_addr (frame_at ?y)) with y in *.
  unfold handled, wf_page, is_usize, in_pages in *.
  rewrite Hmap; change (page_addr (page_at ?y)) with y; unfold PAGE_SIZE in *.
  - cbn [fmap option_fmap option_map]. f_equal. change (frame_addr (frame_at ?y)) with y. Z.div_mod_to_equations. lia.
  - Z.div_mod_to_equations. lia.
  - Z.div_mod_to_equations. lia.
Qed.

Local Abbreviation map := (map_region (ktable T) null_allocator).
Local Abbreviation unmap := (unmap_physical_region (ktable T) null_allocator).

(** The arithmetic of [map_region], before anything is mapped. *)
Lemma map_region_steps {M} a size (meta : M) m s v :
  0 ≤ a → 0 < size → a + size + PAGE_SIZE ≤ 2 ^ 60 →
  let n := region_pages a size in let f := frame_at (a - a mod PAGE_SIZE) in
  map a size meta m s v =
    ('(r, m, s, v) ← raw_mapping_new (ktable T) (physical_allocator := null_allocator) RawMmap
       (mkMapConfig (MapAt f) MapAny Lazy n RWX) m s v;
     mapping ← expect_ok r;
     '(frames, pages) ← into_raw_parts RawMmap mapping;
     _ ← assert (frames_len frames =? pages_len pages);
     physical_start ← usize_add (frame_addr (frames_base frames)) (a mod PAGE_SIZE);
     mapped ← usize_mul (frames_len frames) 4096;
     Ret (mkXMapping M physical_start (mkVA (page_addr (pages_base pages) + a mod PAGE_SIZE)) meta size mapped, m, s, v)).
Proof.
  intros Ha Hs Hb n f. destruct (region_pages_bounds a size Ha Hs) as [Hn _]. fold n in Hn.
  pose proof (Z.mod_pos_bound a PAGE_SIZE ltac:(done)) as Hm. pose proof (Z.mod_le a PAGE_SIZE Ha ltac:(done)).
  unfold map_region. rewrite !phys_new_1 by (unfold is_usize, PAGE_SIZE in *; lia). cbn [mbind outcome_bind].
  rewrite phys_align_page by (unfold is_usize, PAGE_SIZE in *; lia). cbn [mbind outcome_bind pa_addr].
  rewrite usize_sub_ok by lia. cbn [mbind outcome_bind].
  rewrite usize_add_ok by (unfold PAGE_SIZE in *; lia). cbn [mbind outcome_bind].
  rewrite phys_new_1 by (unfold is_usize, PAGE_SIZE in *; lia). cbn [mbind outcome_bind].
  rewrite phys_align_up_page by (unfold PAGE_SIZE in *; lia). cbn [mbind outcome_bind]. unfold Phys.diff. cbn [pa_addr].
  assert ((a + size + PAGE_SIZE - 1) / PAGE_SIZE * PAGE_SIZE - (a - a mod PAGE_SIZE) = n * PAGE_SIZE) as Hd.
  { unfold n, region_pages, PAGE_SIZE. Z.div_mod_to_equations. lia. }
  rewrite usize_sub_ok by (unfold PAGE_SIZE in *; lia). cbn [mbind outcome_bind]. rewrite Hd. unfold NonZero_new.
  rewrite (proj2 (Z.eqb_neq _ _)) by (unfold PAGE_SIZE; lia). cbn [expect mbind outcome_bind].
  assert ((n * PAGE_SIZE + 4095) / 4096 = n) as -> by (unfold PAGE_SIZE; Z.div_mod_to_equations; lia).
  by replace (a - (a - a mod PAGE_SIZE)) with (a mod PAGE_SIZE) by lia.
Qed.

(** The frames of a region can be entered in a table. *)
Lemma region_table_addr a size i :
  0 ≤ a → 0 < size → a + size + PAGE_SIZE ≤ 2 ^ 60 → 0 ≤ i < region_pages a size →
  table_addr (a - a mod PAGE_SIZE + i * PAGE_SIZE).
Proof.
  intros Ha Hs Hb Hi. destruct (region_pages_bounds a size Ha Hs) as [_ Hn]. unfold table_addr, PAGE_SIZE in *.
  split; [|]; Z.div_mod_to_equations; nia.
Qed.

(** Why a region is not mapped. *)
Definition region_refused (a size : Z) (s : S) (v : V) (r : panic_reason) : Prop :=
  allocate_pages v (region_pages a size) = Panic r ∨
  r = UnwrapFailed ∧ (starved s ∨ ∃ e v', allocate_pages v (region_pages a size) = Ret (Err e, v')).

Lemma map_region_spec {M} a size (meta : M) m s v xs rs :
  regions_inv m s v xs rs → 0 ≤ a → 0 < size → a + size + PAGE_SIZE ≤ 2 ^ 60 → vfits v (region_pages a size) →
  match map a size meta m s v with
  | Ret (x, m', s', v') => (physical_start x, region_length x, metadata x) = (a, size, meta) ∧ region_ok x ∧
      regions_inv m' s' v' xs (run_of x :: rs) ∧ rtc one_step s s' ∧
      allocate_pages v (region_pages a size) = Ret (Ok (run_page (run_of x)), v') ∧
      takes_pages v v' (run_page (run_of x)) (run_len (run_of x)) ∧
      mapped_run T m m' (run_page (run_of x)) (run_frame (run_of x)) (run_len (run_of x))
  | Panic r => region_refused a size s v r
  end.
Proof.
  intros Hinv Ha Hs Hb Hfit. rewrite map_region_steps by done. cbn zeta.
  destruct (region_pages_bounds a size Ha Hs) as [Hn Hnb]. pose proof (Z.mod_pos_bound a PAGE_SIZE ltac:(done)) as Hm.
  pose proof (Z.mod_le a PAGE_SIZE Ha ltac:(done)). set (n := region_pages a size) in *. set (f := frame_at _).
  pose proof (null_mapping_spec (mkMapConfig (MapAt f) MapAny Lazy n RWX) f m s v xs (reg_system _ _ _ _ _ Hinv) eq_refl) as Hnew.
  cbn [config_length] in Hnew. specialize (Hnew ltac:(unfold PAGE_SIZE in *; lia) ltac:(cbn; lia)).
  specialize (Hnew (λ i Hi, region_table_addr a size i Ha Hs Hb Hi) Hfit).
  destruct (raw_mapping_new _ _ _ _ _ _) as [[[[[x|e] m1] s1] v1]|r]; cbn [mbind outcome_bind expect_ok].
  - destruct Hnew as (Hph & Hsys & Hst & Hal & Htake & Hmap).
    destruct (vowned_ok v1 (virtual_valid_start x) n (sys_virtual _ _ _ _ _ Hsys)) as ([[Hp0 _] Hpm] & _ & _ & Hpb); [by apply Htake; left|].
    unfold into_raw_parts, virtual_start, virtual_len. rewrite Hph. cbn [frames_len frames_base physical_length_to_virtual_length].
    assert (PageOps.sub_signed (virtual_valid_start x) (physical_start_offset_from_virtual RawMmap) = Ret (virtual_valid_start x)) as ->.
    { rewrite <-(sub_signed_ok (virtual_valid_start x) RawMmap) by (unfold PAGE_SIZE in *; lia).
      cbn [physical_start_offset_from_virtual]. f_equal. apply page_addr_inj. change (page_addr (page_at ?y)) with y. lia. }
    cbn [mbind outcome_bind frames_len frames_base pages_len pages_base]. rewrite Z.eqb_refl. cbn [assert mbind outcome_bind].
    change (frame_addr f) with (a - a mod PAGE_SIZE). rewrite usize_add_ok by (unfold PAGE_SIZE in *; lia). cbn [mbind outcome_bind].
    rewrite usize_mul_ok by (unfold PAGE_SIZE in *; lia). cbn [mbind outcome_bind].
    set (y := mkXMapping _ _ _ _ _ _). assert (run_of y = mkRun (virtual_valid_start x) n f) as ->.
    { unfold run_of, y, f. cbn [region_start va_addr physical_start mapped_length].
      rewrite Z.add_mod_idemp_r, Z.sub_add by done. rewrite Z.div_mul by done. f_equal. apply page_addr_inj.
      change (page_addr (page_at ?y)) with y. rewrite Z.add_mod, Hpm, Z.add_0_l, !Z.mod_mod by done. lia. }
    cbn [run_page run_len run_frame]. split_and!; [|..|by eapply region_added|done|done|done|done].
    + cbn [y physical_start region_length metadata]. by rewrite Z.sub_add.
    + split; cbn [y physical_start region_start va_addr region_length mapped_length]; rewrite ?Z.sub_add; try (unfold PAGE_SIZE in *; lia).
      * by rewrite Z.add_mod, Hpm, Z.add_0_l, !Z.mod_mod by done.
      * by rewrite Z.mod_mul.
  - right. split; [done|]. right. naive_solver.
  - destruct Hnew as [?|[??]]; [by left|right; split; [done|by left]].
Qed.

(** *** The end of a region *)

Definition gives_pages (v v' : V) (p : Page) (n : Z) : Prop :=
  vlow v' = vlow v ∧ ∀ q k, vowned v' q k ↔ vowned v q k ∧ (q, k) ≠ (p, n).

(** Pages that are given back belong to none of those that are apart from them. *)
Lemma gives_other v v' p n q k : 0 < n → 0 < k → gives_pages v v' p n → apart p n q k → vowned v q k → vowned v' q k.
Proof.
  intros Hn Hk Hg Ha Ho. apply Hg. split; [done|]. intros [-> ->]%pair_equal_spec. unfold apart, PAGE_SIZE in Ha. lia.
Qed.

Section Removed.
Context (m m1 : memory) (s : S) (v v1 : V) (xs : list (Mappable * RawMapping)) (rs : list phys_run) (r : phys_run).
Context (Hinv : regions_inv m s v xs (r :: rs)).
Context (Hok1 : spaces_ok T m1 s) (Ht1 : ∀ b, is_table (depth_of T) m1 b → is_table (depth_of T) m b).
Context (Hv1 : vinv v1) (Hown : gives_pages v v1 (run_page r) (run_len r)).
Context (Hun : unmapped_run T m m1 (run_page r) (run_len r)).

Lemma removed_lookup p n q :
  apart (run_page r) (run_len r) p n → handled T Kernel q → in_pages p n q → lookup m1 T Kernel q = lookup m T Kernel q.
Proof using Hun.
  intros Ha Hq Hin. rewrite Hun by done. rewrite bool_decide_eq_false_2; [done|]. intros [_ Hin'].
  unfold apart, in_pages in *. lia.
Qed.

Lemma removed_system : system_inv T m1 s v1 xs.
Proof using All.
  destruct Hinv as [Hsys [Hr _]%Forall_cons_iff _ [Hb _]%Forall_cons_iff]. pose proof Hsys as [Hok Hv Hlo Hlive Hsep Hunown].
  destruct (vowned_ok v _ _ Hv (run_owned _ _ _ Hr)) as (_ & Hn & _). pose proof Hown as [Hlow Hown']. split; try done; [by rewrite Hlow|..].
  - rewrite Forall_forall in Hlive, Hb |- *. intros x Hx. pose proof (Hlive x Hx) as Hl.
    destruct (vowned_ok v _ _ Hv (live_pages _ _ _ _ _ Hl)) as (_ & Hk & _). apply (live_after T m s v); [done|..].
    + eapply gives_other; [exact Hn|exact Hk|done|by apply Hb|apply Hl].
    + intros g _ (? & ? & ? & ?). split_and!; naive_solver.
    + intros q Hq Hin. by eapply removed_lookup; [apply (Hb x Hx)|..].
  - intros q (Hq & Hq1 & Hq2). rewrite Hun by done. case_bool_decide as Hd; [done|].
    apply Hunown. split_and!; [done|by rewrite <-Hlow|]. intros p k Ho Hin.
    apply (Hq2 p k); [|done]. apply Hown'. split; [done|]. intros [-> ->]%pair_equal_spec. by destruct Hd.
Qed.

Lemma removed_inv : regions_inv m1 s v1 xs rs.
Proof using All.
  destruct Hinv as [Hsys [Hr Hrs]%Forall_cons_iff Hap [_ Hb]%Forall_cons_iff]. pose proof (sys_virtual _ _ _ _ _ Hsys) as Hv.
  inversion_clear Hap as [|? ? Ha Hap']. destruct (vowned_ok v _ _ Hv (run_owned _ _ _ Hr)) as (_ & Hn & _).
  split; [apply removed_system| |done|done]. rewrite Forall_forall in Hrs, Ha |- *. intros y Hy.
  destruct (Hrs y Hy) as [Ho Hm]. destruct (vowned_ok v _ _ Hv Ho) as (_ & Hk & _). split.
  - eapply gives_other; [exact Hn|exact Hk|done|by apply (Ha y Hy)|done].
  - intros q Hq Hin. rewrite (removed_lookup (run_page y) (run_len y)); [by apply Hm|by apply (Ha y Hy)|done|done].
Qed.

End Removed.

Lemma regions_inv_front m s v xs rs1 r rs2 :
  regions_inv m s v xs (rs1 ++ r :: rs2) ↔ regions_inv m s v xs (r :: rs1 ++ rs2).
Proof.
  assert (∀ P : phys_run → Prop, Forall P (rs1 ++ r :: rs2) ↔ Forall P (r :: rs1 ++ rs2)) as Hl.
  { intros P. rewrite Forall_cons_iff, !Forall_app, Forall_cons_iff. tauto. }
  assert (ForallOrdPairs runs_apart (rs1 ++ r :: rs2) ↔ ForallOrdPairs runs_apart (r :: rs1 ++ rs2)) as Hs.
  { rewrite ordpairs_middle by apply _. split; [intros []; by constructor|by inversion_clear 1]. }
  split; intros [? ? ? ?]; split; try done; by apply Hl || by apply Hs.
Qed.

(** The mapping that [unmap_physical_region] puts together again. *)
Lemma unmap_region_steps {M} (x : XPhysicalMapping M) m s v :
  region_ok x → va_addr (region_start x) ≤ usize_max →
  unmap x m s v = raw_mapping_drop (ktable T) (physical_allocator := null_allocator) RawMmap
    (mkRawMapping (mkOwnedFrames (run_frame (run_of x)) (run_len (run_of x))) (run_page (run_of x))) m s v.
Proof.
  intros [[Hp Hv] Hoff Hmod [Hlen Hin] Hfr] Hva. unfold unmap_physical_region.
  rewrite phys_new_1 by (unfold is_usize; lia). cbn [mbind outcome_bind].
  rewrite phys_align_page by (unfold is_usize; lia). cbn [mbind outcome_bind].
  pose proof (Z.mod_pos_bound (physical_start x) PAGE_SIZE ltac:(done)).
  unfold NonZero_new. change 4096 with PAGE_SIZE.
  rewrite (proj2 (Z.eqb_neq _ _)) by (unfold PAGE_SIZE in *; Z.div_mod_to_equations; lia). cbn [expect mbind outcome_bind].
  destruct (region_start x) as [a] eqn:E. cbn [va_addr] in *. rewrite virt_align_page by done. cbn [mbind outcome_bind].
  unfold from_raw_parts. cbn [physical_length_to_virtual_length frames_len pages_len pages_base mbind outcome_bind].
  rewrite Z.eqb_refl. cbn [assert mbind outcome_bind]. pose proof (Z.mod_le a PAGE_SIZE Hv ltac:(done)).
  pose proof (Z.mod_pos_bound a PAGE_SIZE ltac:(done)).
  rewrite (add_signed_ok _ RawMmap); change (page_addr (page_at ?y)) with y; cbn [physical_start_offset_from_virtual]; [|lia..].
  cbn [mbind outcome_bind]. unfold run_of. rewrite E. cbn [run_page run_len run_frame va_addr]. by rewrite Z.mul_0_l, Z.add_0_r.
Qed.

Lemma unmap_region_spec {M} (x : XPhysicalMapping M) m s v xs rs1 rs2 :
  regions_inv m s v xs (rs1 ++ run_of x :: rs2) → region_ok x →
  ∃ m' v', unmap x m s v = Ret (m', s, v') ∧ regions_inv m' s v' xs (rs1 ++ rs2) ∧
    gives_pages v v' (run_page (run_of x)) (run_len (run_of x)) ∧
    unmapped_run T m m' (run_page (run_of x)) (run_len (run_of x)).
Proof.
  intros Hinv%regions_inv_front Hx. pose proof (reg_live _ _ _ _ _ Hinv) as [Hr _]%Forall_cons_iff.
  pose proof (reg_system _ _ _ _ _ Hinv) as Hsys. pose proof (sys_virtual _ _ _ _ _ Hsys) as Hv. pose proof (sys_low _ _ _ _ _ Hsys) as Hlo.
  destruct (vowned_ok v _ _ Hv (run_owned _ _ _ Hr)) as (Hwp & Hn & Hlp & Hb). pose proof Hwp as [[Hp0 _] _].
  rewrite unmap_region_steps; [|done|]; last first.
  { cbn [run_of run_page run_len] in Hb, Hn. change (page_addr (page_at ?y)) with y in Hb.
    pose proof (Z.mod_pos_bound (va_addr (region_start x)) PAGE_SIZE ltac:(done)). unfold PAGE_SIZE in *. lia. }
  set (r := run_of x) in *.
  pose proof (unmap_pages_spec T m s (run_page r) (Z.to_nat (run_len r)) (sys_spaces _ _ _ _ _ Hsys)) as Hum.
  rewrite Z2Nat.id in Hum by lia. destruct Hum as (m1 & Hum & Hok1 & Ht1 & Hun); [split; [done|lia]|done| |].
  { intros q Hq Hin. rewrite (run_map _ _ _ Hr q Hq Hin). by eexists. }
  unfold raw_mapping_drop, virtual_start, virtual_len. cbn [virtual_valid_start physical frames_len].
  rewrite Hum. cbn [mbind outcome_bind]. pose proof (sub_signed_ok (run_page r) RawMmap ltac:(unfold PAGE_SIZE in *; lia)) as Hsub.
  cbn [physical_start_offset_from_virtual] in Hsub |- *. rewrite Z.mul_0_l, Z.add_0_r in Hsub.
  assert (page_at (page_addr (run_page r)) = run_page r) as Heta by by apply page_addr_inj.
  rewrite Heta in Hsub. rewrite Hsub. cbn [mbind outcome_bind physical_length_to_virtual_length].
  unfold owned_pages_drop. cbn [pages_base pages_len].
  destruct (deallocate_pages_law v (run_page r) (run_len r) Hv (run_owned _ _ _ Hr)) as (v1 & -> & Hv1 & Hlow & Hown).
  cbn [mbind outcome_bind]. exists m1, v1. split_and!; [done| |done|done]. by apply (removed_inv m m1 s v v1 xs _ r).
Qed.

(** What was taken and given back is as it was. *)
Lemma region_restored m s v xs rs m1 m2 v1 v2 p n f :
  regions_inv m s v xs rs → vinv v1 →
  takes_pages v v1 p n → mapped_run T m m1 p f n → gives_pages v1 v2 p n → unmapped_run T m1 m2 p n →
  (∀ q k, vowned v2 q k ↔ vowned v q k) ∧ same_lookup T m m2.
Proof.
  intros Hinv Hv1 (Hlow & Hfresh & Hown) Hmap [_ Hgive] Hun. destruct (vowned_ok v1 p n Hv1) as (_ & Hn & Hlp & _); [by apply Hown; left|].
  split.
  - intros q k. rewrite (Hgive q k), (Hown q k). split; [naive_solver|]. intros Ho. split; [by right|].
    intros [-> ->]%pair_equal_spec. destruct (Hfresh _ _ Ho); unfold PAGE_SIZE in *; lia.
  - intros sp q Hq. rewrite Hun by done. case_bool_decide as Hd.
    + destruct Hd as [-> Hin]. symmetry. rewrite Hlow in Hlp.
      by apply (fresh_pages_unmapped T m s v xs p n q (reg_system _ _ _ _ _ Hinv) Hfresh Hlp Hq).
    + rewrite Hmap by done. by rewrite bool_decide_eq_false_2.
Qed.

(** A region that is mapped while another one is, and outlives it. *)
Lemma region_outlives m s v xs rs m1 m2 m3 v1 v2 v3 p1 n1 f1 p2 n2 f2 :
  regions_inv m s v xs rs → vinv v1 → vinv v2 → takes_pages v v1 p1 n1 → mapped_run T m m1 p1 f1 n1 →
  takes_pages v1 v2 p2 n2 → mapped_run T m1 m2 p2 f2 n2 → gives_pages v2 v3 p1 n1 → unmapped_run T m2 m3 p1 n1 →
  takes_pages v v3 p2 n2 ∧ mapped_run T m m3 p2 f2 n2.
Proof.
  intros Hinv Hv1 Hv2 (Hlow1 & Hfr1 & Hown1) Hmap1 (Hlow2 & Hfr2 & Hown2) Hmap2 [Hlow3 Hgive] Hun.
  destruct (vowned_ok v1 p1 n1 Hv1) as (_ & Hn1 & Hlp & _); [by apply Hown1; left|]. rewrite Hlow1 in Hlp.
  destruct (vowned_ok v2 p2 n2 Hv2) as (_ & Hn2 & _); [by apply Hown2; left|].
  assert (apart p2 n2 p1 n1) as Hap by by apply Hfr2, Hown1; left. split; [split_and!|].
  - congruence.
  - intros q k Ho. apply Hfr2, Hown1. by right.
  - intros q k. rewrite (Hgive q k), (Hown2 q k), (Hown1 q k). split; [tauto|]. intros Hq. split; [tauto|].
    intros [-> ->]%pair_equal_spec. unfold apart, PAGE_SIZE in *. destruct Hq as [[= <- <-]|Hq]; [lia|].
    destruct (Hfr1 _ _ Hq); unfold PAGE_SIZE in *; lia.
  - intros sp q Hq. rewrite Hun by done. case_bool_decide as Hd.
    + destruct Hd as [-> Hin]. rewrite bool_decide_eq_false_2 by (intros [_ Hin']; unfold apart, in_pages in *; lia). symmetry.
      by apply (fresh_pages_unmapped T m s v xs p1 n1 q (reg_system _ _ _ _ _ Hinv) Hfr1 Hlp Hq).
    + rewrite Hmap2 by done. case_bool_decide; [done|]. rewrite Hmap1 by done. by rewrite bool_decide_eq_false_2.
Qed.

(** ** Properties *)

(** C23. A region of physical memory that is mapped is read where it is: each byte of
    it is the byte at that distance from the address asked for.  It shares no page with
    other mappings and regions, none of which changes.  Unmapping it never panics and
    leaves the pages and all address spaces as they were before.  Mapping panics only
    when there are no pages or no frames for tables. *)
Theorem acpi_region {M} a size (meta : M) m s v xs rs :
  regions_inv m s v xs rs → 0 ≤ a → 0 < size → a + size + PAGE_SIZE ≤ 2 ^ 60 → vfits v (region_pages a size) →
  match map a size meta m s v with
  | Ret (x, m1, s1, v1) =>
      regions_inv m1 s1 v1 xs (run_of x :: rs) ∧
      (∀ k, 0 ≤ k < size → translate m1 (va_addr (region_start x) + k) = Some (a + k)) ∧
      ∃ m2 v2, unmap x m1 s1 v1 = Ret (m2, s1, v2) ∧ regions_inv m2 s1 v2 xs rs ∧
        (∀ q k, vowned v2 q k ↔ vowned v q k) ∧ same_lookup T m m2
  | Panic r => region_refused a size s v r
  end.
Proof.
  intros Hinv Ha Hs Hb Hfit. pose proof (map_region_spec a size meta m s v xs rs Hinv Ha Hs Hb Hfit) as Hmap.
  destruct (map a size meta m s v) as [[[[x m1] s1] v1]|]; [|done]. destruct Hmap as ([= Hp Hl _] & Hx & Hinv1 & _ & _ & Htake & Hrun).
  split_and!; [done| |].
  - intros k Hk. rewrite (region_translates m1 s1 v1 xs (run_of x :: rs) x k); [by rewrite Hp|done|by left|done|by rewrite Hl].
  - destruct (unmap_region_spec x m1 s1 v1 xs [] rs Hinv1 Hx) as (m2 & v2 & Hun & Hinv2 & Hgive & Hunrun). exists m2, v2.
    pose proof (sys_virtual _ _ _ _ _ (reg_system _ _ _ _ _ Hinv1)) as Hv1.
    split_and!; [done|done|..]; by eapply region_restored.
Qed.

End Regions.

(** ** A region at work *)

Lemma boot_regions : regions_inv boot_tables boot_memory demo boot_pages [] [].
Proof. split; [exact boot_system|constructor..]. Qed.

(** A table of 36 bytes that lies across two frames. *)
Lemma acpi_region_witness :
  ∃ x m s v, map_region (ktable boot_tables) null_allocator 0xe0ff0 36 tt boot_memory demo boot_pages = Ret (x, m, s, v) ∧
    va_addr (region_start x) = 0xffff900000000ff0 ∧ translate boot_tables m 0xffff900000001003 = Some 0xe1003 ∧
    ∃ m2 v2, unmap_physical_region (ktable boot_tables) null_allocator x m s v = Ret (m2, s, v2) ∧ same_lookup boot_tables boot_memory m2.
Proof.
  assert (match map_region (ktable boot_tables) null_allocator 0xe0ff0 36 tt boot_memory demo boot_pages with
          | Ret (x, _, _, _) => va_addr (region_start x) =? 0xffff900000000ff0 | _ => false end = true) as Hr by (vm_compute; reflexivity).
  pose proof (acpi_region boot_tables 0xe0ff0 36 tt boot_memory demo boot_pages [] [] boot_regions
    ltac:(lia) ltac:(lia) ltac:(unfold PAGE_SIZE; lia) ltac:(vm_compute; discriminate)) as Hs.
  destruct (map_region _ _ _ _ _ _ _ _) as [[[[x m] s] v]|]; [|discriminate Hr]. apply Z.eqb_eq in Hr.
  destruct Hs as (_ & Ht & m2 & v2 & Hun & _ & _ & Hsame). exists x, m, s, v. split; [reflexivity|]. split; [exact Hr|].
  split; [|by exists m2, v2]. pose proof (Ht 19 ltac:(lia)) as H19. rewrite Hr in H19. exact H19.
Defined.
