(* ===== verification/Bmp.v ===== *)
(** * Bmp: the logo on the screen

    [kernel/src/bmp.rs] and the loop of [kernel/src/main.rs] that draws the image of the
    firmware.  The image is read through regions of [Acpi]: an access is translated by
    the tables of the kernel and reads a byte of physical memory, which is a function
    here; the kernel has no other use for the memory of the image.  [Bgrt] belongs to
    the library of the tables and is known by the address and the offset in it. *)

From stdpp Require Import base gmap list numbers option.
From S2P Require Import Prelude Memory Allocator PageTable Walk Paging AddressSpace VirtualMemory RangedBtree VirtAlloc.
From S2P Require Import Bitmap Mapping MappingClients Acpi.

Open Scope Z_scope.

(** [i32] arithmetic, and casts of [u32] to [i32] and of [i32] to [usize]. *)
Definition i32_check (z : Z) : outcome Z :=
  if (- 2 ^ 31 <=? z) && (z <? 2 ^ 31) then Ret z else Panic ArithmeticOverflow.
Definition i32_of_bits (u : Z) : Z := if u <? 2 ^ 31 then u else u - 2 ^ 32.
Definition i32_as_usize (z : Z) : Z := z mod 2 ^ 64.

Record BmpHeader := mkBmpHeader {
  magic : list Z;
  file_size : Z;
  pixel_offset : Z;
  dib_header_size : Z;
  header_width : Z;
  header_height : Z;
  color_plane_count : Z;
  header_bpp : Z;
  compression : Z
}.

(** The packed layout of the header. *)
Definition read_bmp_header (d : list Z) : BmpHeader :=
  mkBmpHeader (take 2 d) (u32_at d 2) (u32_at d 10) (u32_at d 14) (i32_of_bits (u32_at d 18)) (i32_of_bits (u32_at d 22))
    (u16_at d 26) (u16_at d 28) (u32_at d 30).

(** The pixels are a slice: the metadata of their region is its length. *)
Record Bmp := mkBmp { width : Z; height : Z; bpp : Z; mapping : XPhysicalMapping Z }.

(** [acpi::bgrt::Bgrt]. *)
Record Bgrt := mkBgrt { image_address : Z; image_offset : Z * Z }.

Section Logo.
Context {S V : Type} {global : BackingAllocator S} `{VirtualAllocator V}.
Context (T : Tables) (phys : Z → Z) (allocator : BackingAllocator S).

(** A byte of virtual memory. *)
Definition read_virtual (m : memory) (a : Z) : outcome Z :=
  match translate T m a with Some b => Ret (phys b) | None => Panic Undefined end.

Fixpoint read_bytes (m : memory) (a : Z) (n : nat) : outcome (list Z) :=
  match n with
  | O => Ret []
  | Datatypes.S n => b ← read_virtual m a; l ← read_bytes m (a + 1) n; Ret (b :: l)
  end.

(** [mapping[i]]. *)
Definition slice_index (m : memory) (x : XPhysicalMapping Z) (i : Z) : outcome Z :=
  if i <? metadata x then read_virtual m (va_addr (region_start x) + i) else Panic IndexOutOfBounds.

(** [BmpIterator::next]; the position is [x] and [y]. *)
Definition bmp_next (m : memory) (bmp : Bmp) (position : Z * Z) : outcome (option Z * (Z * Z)) :=
  let '(x, y) := position in
  if i32_as_usize (height bmp) <=? y then Ret (None, position) else
  let bytes_per_pixel := bpp bmp / 8 in
  row ← i32_check (bytes_per_pixel * width bmp);
  row ← i32_check (row + 3);
  stride ← i32_check (Z.quot row 4 * 4);
  rest ← usize_sub (i32_as_usize (height bmp)) y;
  coord_y ← usize_sub rest 1;
  cx ← usize_mul x bytes_per_pixel;
  cy ← usize_mul coord_y (i32_as_usize stride);
  coord ← usize_add cx cy;
  '(b, g, r) ← (
    if bytes_per_pixel =? 3 then
      b ← slice_index m (mapping bmp) coord;
      i ← usize_add coord 1; g ← slice_index m (mapping bmp) i;
      i ← usize_add coord 2; r ← slice_index m (mapping bmp) i;
      Ret (b, g, r)
    else if bytes_per_pixel =? 4 then
      i ← usize_add coord 1; b ← slice_index m (mapping bmp) i;
      i ← usize_add coord 2; g ← slice_index m (mapping bmp) i;
      i ← usize_add coord 3; r ← slice_index m (mapping bmp) i;
      Ret (b, g, r)
    else Panic NotImplemented);
  let ret := Z.lor (Z.lor (Z.shiftl r 16) (Z.shiftl g 8)) b in
  x ← usize_add x 1;
  if i32_as_usize (width bmp) <=? x then y ← usize_add y 1; Ret (Some ret, (0, y)) else Ret (Some ret, (x, y)).

(** [from_bgrt]; the header is unmapped at each return. *)
Definition from_bgrt (bgrt : Bgrt) (m : memory) (s : S) (v : V) : outcome (option Bmp * memory * S * V) :=
  let addr := image_address bgrt in
  '(header_map, m, s, v) ← map_physical_region (global := global) (ktable T) allocator addr 34 m s v;
  bytes ← read_bytes m (va_addr (region_start header_map)) 34;
  let header := read_bmp_header bytes in
  if (dib_header_size header <? 40) || (negb (header_bpp header =? 24) && negb (header_bpp header =? 32)) ||
     negb (color_plane_count header =? 1) || negb (compression header =? 0)
  then
    '(m, s, v) ← unmap_physical_region (ktable T) allocator header_map m s v;
    Ret (None, m, s, v)
  else
    pixels_size ← usize_sub (file_size header) (pixel_offset header);
    shown_pixels ← usize_add addr (pixel_offset header);
    '(pixels, m, s, v) ← map_region (global := global) (ktable T) allocator shown_pixels pixels_size pixels_size m s v;
    '(m, s, v) ← unmap_physical_region (ktable T) allocator header_map m s v;
    Ret (Some (mkBmp (header_width header) (header_height header) (header_bpp header) pixels), m, s, v).

(** The loop over the pixels, with fuel: [None] when it runs out. *)
Fixpoint draw_pixels (fuel : nat) (m : memory) (bmp : Bmp) (position : Z * Z) (stride width x_init x y : Z) (fb_data : list Z) :
    outcome (option (list Z)) :=
  match fuel with
  | O => Ret None
  | Datatypes.S fuel =>
      '(item, position) ← bmp_next m bmp position;
      match item with
      | None => Ret (Some fb_data)
      | Some pixel =>
          row ← usize_mul y stride;
          i ← usize_add x row;
          fb_data ← (if i <? Z.of_nat (length fb_data) then Ret (<[Z.to_nat i := pixel]> fb_data) else Panic IndexOutOfBounds);
          x ← usize_add x 1;
          done ← usize_sub x x_init;
          if width <=? done
          then y ← usize_add y 1; draw_pixels fuel m bmp position stride width x_init x_init y fb_data
          else draw_pixels fuel m bmp position stride width x_init x y fb_data
      end
  end.

(** Drawing the logo; the iterator unmaps the pixels when it is dropped. *)
Definition draw_logo (fuel : nat) (bgrt : Bgrt) (stride : Z) (fb_data : list Z) (m : memory) (s : S) (v : V) :
    outcome (option (list Z) * memory * S * V) :=
  '(bitmap, m, s, v) ← from_bgrt bgrt m s v;
  match bitmap with
  | None => Ret (Some fb_data, m, s, v)
  | Some bitmap =>
      let '(x_init, y) := image_offset bgrt in
      fb_data ← draw_pixels fuel m bitmap (0, 0) stride (i32_as_usize (width bitmap)) x_init x_init y fb_data;
      '(m, s, v) ← unmap_physical_region (ktable T) allocator (mapping bitmap) m s v;
      Ret (fb_data, m, s, v)
  end.

End Logo.

(** ** The pixels of an image *)

Lemma i32_check_ok z : - 2 ^ 31 ≤ z < 2 ^ 31 → i32_check z = Ret z.
Proof. intros [??]. unfold i32_check. by rewrite (proj2 (Z.leb_le _ _)), (proj2 (Z.ltb_lt _ _)). Qed.

Lemma i32_as_usize_pos z : 0 ≤ z < 2 ^ 31 → i32_as_usize z = z.
Proof. intros. apply Z.mod_small. lia. Qed.

Section Pixels.
Context (T : Tables) (phys : Z → Z).

Definition pixel_bytes (b : Bmp) : Z := bpp b / 8.
Definition row_bytes (b : Bmp) : Z := (pixel_bytes b * width b + 3) / 4 * 4.

(** An image whose pixels can all be read. *)
Record bmp_ok (m : memory) (b : Bmp) : Prop := {
  bmp_width : 0 < width b;
  bmp_height : 0 ≤ height b < 2 ^ 31;
  bmp_bpp : bpp b = 24 ∨ bpp b = 32;
  bmp_row : pixel_bytes b * width b + 3 < 2 ^ 31;
  bmp_size : row_bytes b * height b ≤ metadata (mapping b) < 2 ^ 32;
  bmp_read k : 0 ≤ k < metadata (mapping b) →
    translate T m (va_addr (region_start (mapping b)) + k) = Some (physical_start (mapping b) + k)
}.

(** The colour of three bytes: blue, green and red. *)
Definition colour_at (a : Z) : Z := Z.lor (Z.lor (Z.shiftl (phys (a + 2)) 16) (Z.shiftl (phys (a + 1)) 8)) (phys a).

(** The colour that is shown for the pixel in column [x] of row [y] from the top.  With
    24 bits it is that of the pixel; with 32 bits the reader is one byte too far. *)
Definition shown_pixel (b : Bmp) (x y : Z) : Z :=
  let a := physical_start (mapping b) + x * pixel_bytes b + (height b - y - 1) * row_bytes b + (pixel_bytes b - 3) in
  colour_at a.

(** Pixels are numbered row by row. *)
Definition position (b : Bmp) (i : Z) : Z * Z := (i mod width b, i / width b).
Definition pixel (b : Bmp) (i : Z) : Z := shown_pixel b (i mod width b) (i / width b).

Lemma slice_index_ok m b i :
  bmp_ok m b → 0 ≤ i < metadata (mapping b) →
  slice_index T phys m (mapping b) i = Ret (phys (physical_start (mapping b) + i)).
Proof.
  intros Hb [? Hi]. unfold slice_index, read_virtual. rewrite (proj2 (Z.ltb_lt _ _) Hi). by rewrite (bmp_read m b Hb).
Qed.

Lemma bmp_bytes m b : bmp_ok m b → pixel_bytes b = 3 ∨ pixel_bytes b = 4.
Proof. intros Hb. unfold pixel_bytes. destruct (bmp_bpp m b Hb) as [-> | ->]; [by left|by right]. Qed.

(** The bytes of a pixel are in the slice. *)
Lemma coord_bounds m b x y :
  bmp_ok m b → 0 ≤ x < width b → 0 ≤ y < height b →
  0 ≤ row_bytes b < 2 ^ 31 ∧ 0 ≤ x * pixel_bytes b ∧ 0 ≤ (height b - y - 1) * row_bytes b ∧
  x * pixel_bytes b + (height b - y - 1) * row_bytes b + pixel_bytes b ≤ metadata (mapping b).
Proof.
  intros Hb Hx Hy. pose proof (bmp_bytes m b Hb) as Hp. destruct Hb as [Hw Hh _ Hr Hs _].
  assert (pixel_bytes b * width b ≤ row_bytes b ≤ pixel_bytes b * width b + 3) as Hrow by (unfold row_bytes; Z.div_mod_to_equations; lia).
  split_and!; [nia|nia|nia|nia|]. assert ((height b - y - 1) * row_bytes b + row_bytes b ≤ row_bytes b * height b) by nia. nia.
Qed.

(** The iterator at the pixel [i]. *)
Lemma bmp_next_at m b i :
  bmp_ok m b → 0 ≤ i < width b * height b →
  bmp_next T phys m b (position b i) = Ret (Some (pixel b i), position b (i + 1)).
Proof.
  intros Hb Hi. pose proof Hb as [Hw Hh _ Hr Hs _]. destruct (row_bounds (width b) (height b) i Hw Hi) as [Hx Hy].
  destruct (coord_bounds m b _ _ Hb Hx Hy) as (Hrow & H0x & H0y & Hc). pose proof (bmp_bytes m b Hb) as Hp.
  unfold bmp_next, position, pixel. set (x := i mod width b) in *. set (y := i / width b) in *.
  rewrite !(i32_as_usize_pos (height b)) by done. rewrite (proj2 (Z.leb_gt _ _)) by lia. fold (pixel_bytes b).
  assert (0 ≤ pixel_bytes b * width b) by lia.
  rewrite (i32_check_ok (pixel_bytes b * width b)) by lia. cbn [mbind outcome_bind].
  rewrite (i32_check_ok (pixel_bytes b * width b + 3)) by lia. cbn [mbind outcome_bind].
  rewrite Z.quot_div_nonneg by lia. fold (row_bytes b). rewrite i32_check_ok by lia. cbn [mbind outcome_bind].
  rewrite (i32_as_usize_pos (row_bytes b)) by done. rewrite !usize_sub_ok by lia. cbn [mbind outcome_bind].
  rewrite usize_sub_ok by lia. cbn [mbind outcome_bind]. rewrite usize_mul_ok by lia. cbn [mbind outcome_bind].
  rewrite usize_mul_ok by lia. cbn [mbind outcome_bind].
  rewrite (usize_add_ok (x * pixel_bytes b)), (usize_add_ok x 1), (usize_add_ok y 1) by lia. cbn [mbind outcome_bind].
  unfold shown_pixel, colour_at. set (c := x * pixel_bytes b + (height b - y - 1) * row_bytes b) in *.
  rewrite <-(Z.add_assoc (physical_start _) (x * _) _). fold c.
  assert (0 ≤ c) by (unfold c; lia). assert (width b < 2 ^ 31) by (destruct Hp as [Hp|Hp]; rewrite Hp in Hr; lia). clearbody c.
  assert (∀ k, c + k < metadata (mapping b) → 0 ≤ k → slice_index T phys m (mapping b) (c + k) = Ret (phys (physical_start (mapping b) + c + k))) as Hread.
  { intros k Hk1 Hk2. rewrite (slice_index_ok m b) by (done || lia). by rewrite Z.add_assoc. }
  rewrite (i32_as_usize_pos (width b)) by lia. rewrite <-row_step by done. fold x y.
  destruct Hp as [Hp|Hp]; rewrite Hp in Hc |- *; cbn [Z.eqb Pos.eqb].
  - pose proof (Hread 0) as H0c. rewrite Z.add_0_r in H0c. rewrite H0c by lia. cbn [mbind outcome_bind].
    rewrite !usize_add_ok by lia. cbn [mbind outcome_bind]. rewrite !Hread by lia. cbn [mbind outcome_bind].
    change (3 - 3) with 0. rewrite !Z.add_0_r. by destruct (width b <=? x + 1).
  - do 3 (rewrite usize_add_ok by lia; cbn [mbind outcome_bind]; rewrite Hread by lia; cbn [mbind outcome_bind]).
    change (4 - 3) with 1. rewrite <-!Z.add_assoc. by destruct (width b <=? x + 1).
Qed.

(** Behind the last pixel there is none. *)
Lemma bmp_next_end m b : bmp_ok m b → bmp_next T phys m b (position b (width b * height b)) = Ret (None, position b (width b * height b)).
Proof.
  intros Hb. destruct Hb as [Hw Hh _ _ _ _]. unfold bmp_next, position.
  rewrite (Z.mul_comm (width b)), Z.div_mul, i32_as_usize_pos by lia. by rewrite Z.leb_refl.
Qed.

(** ** Drawing *)

Section Drawing.
Context (m : memory) (b : Bmp) (stride x0 y0 : Z) (fb : list Z).
Context (Hb : bmp_ok m b) (Hx : 0 ≤ x0 ∧ x0 + width b ≤ stride) (Hy : 0 ≤ y0).
Context (Hfb : stride * (y0 + height b) ≤ Z.of_nat (length fb) ≤ usize_max).

Local Abbreviation count := (width b * height b).

(** Where the pixel [i] belongs. *)
Definition place (i : Z) : Z := x0 + i mod width b + (y0 + i / width b) * stride.

Lemma place_bounds i : 0 ≤ i < count → 0 ≤ (y0 + i / width b) * stride ∧ 0 ≤ place i < Z.of_nat (length fb).
Proof using All.
  intros Hi. destruct (row_bounds (width b) (height b) i (bmp_width _ _ Hb) Hi) as [Hc Hr].
  assert ((y0 + i / width b) * stride + stride ≤ stride * (y0 + height b)) by nia. unfold place. split; nia.
Qed.

Lemma place_inj i j : 0 ≤ i < count → 0 ≤ j < count → place i = place j → i = j.
Proof using All.
  intros Hi Hj E. pose proof (bmp_width _ _ Hb) as Hw.
  destruct (row_bounds (width b) (height b) i Hw Hi) as [Hci _]. destruct (row_bounds (width b) (height b) j Hw Hj) as [Hcj _].
  unfold place in E. destruct (Z.div_mod_unique stride (y0 + i / width b) (y0 + j / width b) (x0 + i mod width b) (x0 + j mod width b)); [lia..|].
  rewrite (Z.div_mod i (width b)), (Z.div_mod j (width b)) by lia. f_equal; [f_equal; lia|lia].
Qed.

(** The first [n] pixels are drawn and nothing else is. *)
Definition drawn (n : Z) (fb' : list Z) : Prop :=
  length fb' = length fb ∧ (∀ i, 0 ≤ i < n → fb' !! Z.to_nat (place i) = Some (pixel b i)) ∧
  ∀ k, (∀ i, 0 ≤ i < n → k ≠ Z.to_nat (place i)) → fb' !! k = fb !! k.

Lemma drawn_next n fb' : 0 ≤ n < count → drawn n fb' → drawn (n + 1) (<[Z.to_nat (place n) := pixel b n]> fb').
Proof using All.
  intros Hn (Hlen & Hdone & Hrest). destruct (place_bounds n Hn) as [_ Hpn]. split_and!.
  - by rewrite length_insert.
  - intros i Hi. destruct (decide (i = n)) as [->|Hne]; [rewrite list_lookup_insert_eq; [done|lia]|].
    rewrite list_lookup_insert_ne; [apply Hdone; lia|]. intros E. apply Hne, place_inj; [lia|lia|].
    destruct (place_bounds i ltac:(lia)) as [_ ?]. lia.
  - intros k Hk. rewrite list_lookup_insert_ne by (apply not_eq_sym, Hk; lia). apply Hrest. intros i Hi. apply Hk. lia.
Qed.

(** Enough fuel for the pixels that are left and one more turn draws them. *)
Lemma draw_pixels_ok n : ∀ fuel fb', 0 ≤ n ≤ count → drawn n fb' → count - n < Z.of_nat fuel →
  ∃ fb'', draw_pixels T phys fuel m b (position b n) stride (width b) x0 (x0 + n mod width b) (y0 + n / width b) fb' = Ret (Some fb'') ∧
    drawn count fb''.
Proof using All.
  intros fuel. revert n. induction fuel as [|fuel IH]; intros n fb' Hn Hd Hfuel; [lia|]. cbn [draw_pixels].
  destruct (decide (n = count)) as [->|Hne].
  { rewrite (bmp_next_end m b Hb). cbn [mbind outcome_bind]. by exists fb'. }
  rewrite (bmp_next_at m b n Hb) by lia. cbn [mbind outcome_bind]. destruct (place_bounds n ltac:(lia)) as [Hr Hp].
  pose proof Hd as (Hlen & _). pose proof (bmp_width _ _ Hb) as Hw.
  destruct (row_bounds (width b) (height b) n Hw ltac:(lia)) as [Hc Hrow].
  assert (stride * (y0 + height b) = (y0 + n / width b) * stride + (height b - n / width b) * stride) as Hsplit by lia.
  rewrite usize_mul_ok by (unfold place in Hp; lia). cbn [mbind outcome_bind].
  rewrite (usize_add_ok (x0 + n mod width b) ((y0 + n / width b) * stride)) by (unfold place in Hp; lia). cbn [mbind outcome_bind]. fold (place n).
  rewrite (proj2 (Z.ltb_lt _ _)) by lia. cbn [mbind outcome_bind].
  assert (x0 + n mod width b + 1 ≤ usize_max) by nia. rewrite (usize_add_ok (x0 + n mod width b) 1) by done. cbn [mbind outcome_bind].
  rewrite usize_sub_ok by lia. cbn [mbind outcome_bind].
  replace (x0 + n mod width b + 1 - x0) with (n mod width b + 1) by lia.
  destruct (IH (n + 1) _ ltac:(lia) (drawn_next n fb' ltac:(lia) Hd) ltac:(lia)) as (fb'' & Hrun & Hd'').
  exists fb''. split; [|done]. rewrite <-Hrun. pose proof (row_step (width b) n Hw) as Hstep.
  destruct (width b <=? n mod width b + 1); injection Hstep as <- <-.
  - rewrite usize_add_ok by nia. cbn [mbind outcome_bind]. by rewrite Z.add_0_r, Z.add_assoc.
  - by rewrite Z.add_assoc.
Qed.

(** The same by columns and rows. *)
Lemma drawn_grid fb' :
  drawn count fb' → length fb' = length fb ∧
  (∀ x y, 0 ≤ x < width b → 0 ≤ y < height b → fb' !! Z.to_nat (x0 + x + (y0 + y) * stride) = Some (shown_pixel b x y)) ∧
  ∀ k, (∀ x y, 0 ≤ x < width b → 0 ≤ y < height b → k ≠ Z.to_nat (x0 + x + (y0 + y) * stride)) → fb' !! k = fb !! k.
Proof using All.
  intros (Hlen & Hdone & Hrest). pose proof (bmp_width _ _ Hb) as Hw. split_and!; [done|..].
  - intros x y Hxw Hyh. specialize (Hdone (x + y * width b) ltac:(nia)). unfold place, pixel in Hdone.
    by rewrite Z.mod_add, Z.div_add, Z.mod_small, Z.div_small, Z.add_0_l in Hdone by lia.
  - intros k Hk. apply Hrest. intros i Hi. destruct (row_bounds _ _ i Hw Hi) as [Hc Hr]. by apply Hk.
Qed.

Lemma draw_logo_pixels fuel :
  count < Z.of_nat fuel →
  ∃ fb', draw_pixels T phys fuel m b (0, 0) stride (i32_as_usize (width b)) x0 x0 y0 fb = Ret (Some fb') ∧ drawn count fb'.
Proof using All.
  intros Hfuel. pose proof (bmp_width _ _ Hb) as Hw. pose proof (bmp_height _ _ Hb) as Hh.
  destruct (draw_pixels_ok 0 fuel fb) as (fb' & Hrun & Hd); [nia| |lia|].
  { split_and!; [done|intros; lia|done]. }
  exists fb'. split; [|done]. unfold position in Hrun. rewrite Z.mod_0_l, Z.div_0_l, !Z.add_0_r in Hrun by lia.
  rewrite i32_as_usize_pos; [done|]. pose proof (bmp_row _ _ Hb). destruct (bmp_bytes m b Hb) as [E|E]; rewrite E in *; lia.
Qed.

End Drawing.

End Pixels.

(** ** The whole logo *)

Section Image.
Context (phys : Z → Z).

Definition phys_bytes (a : Z) (n : nat) : list Z := phys <$> seqZ a (Z.of_nat n).

(** The colour of the pixel in column [x] of row [y] from the top of the image at [a]:
    the rows are stored from the bottom, each filled up to a multiple of four bytes. *)
Definition image_pixel (a : Z) (h : BmpHeader) (x y : Z) : Z :=
  let bytes := header_bpp h / 8 in
  colour_at phys (a + pixel_offset h + x * bytes + (header_height h - y - 1) * ((bytes * header_width h + 3) / 4 * 4)).

(** An image in memory, with its header: uncompressed, stored from the bottom up, its
    pixels all inside the file. *)
Record image_ok (a : Z) (h : BmpHeader) : Prop := {
  image_header : read_bmp_header (phys_bytes a 34) = h;
  image_dib : 40 ≤ dib_header_size h;
  image_bpp : header_bpp h = 24 ∨ header_bpp h = 32;
  image_planes : color_plane_count h = 1;
  image_plain : compression h = 0;
  image_width : 0 < header_width h;
  image_height : 0 ≤ header_height h < 2 ^ 31;
  image_row : header_bpp h / 8 * header_width h + 3 < 2 ^ 31;
  image_pixels : 0 ≤ pixel_offset h < file_size h;
  image_size : (header_bpp h / 8 * header_width h + 3) / 4 * 4 * header_height h ≤ file_size h - pixel_offset h;
  image_place : 0 ≤ a ∧ a + 34 + file_size h + PAGE_SIZE ≤ 2 ^ 60 ∧ file_size h < 2 ^ 32
}.

Lemma read_bytes_ok T m n : ∀ v a,
  (∀ k, 0 ≤ k < Z.of_nat n → translate T m (v + k) = Some (a + k)) → read_bytes T phys m v n = Ret (phys_bytes a n).
Proof.
  induction n as [|n IH]; intros v a Ht; [done|]. cbn [read_bytes]. unfold read_virtual.
  pose proof (Ht 0 ltac:(lia)) as H0. rewrite !Z.add_0_r in H0. rewrite H0. cbn [mbind outcome_bind].
  rewrite (IH (v + 1) (a + 1)); [cbn [mbind outcome_bind]; unfold phys_bytes; by rewrite (seqZ_cons a (Z.of_nat (Datatypes.S n))), Nat2Z.inj_succ, Z.pred_succ by lia|].
  intros k Hk. rewrite <-!Z.add_assoc. apply Ht. lia.
Qed.

End Image.

Section Logo.
Context {S V : Type} `{ReclaimingAllocator S} `{LawfulVirtual V}.
Context (T : Tables) (phys : Z → Z).
Implicit Types (m : memory) (s : S) (v : V).

(** The requests of [from_bgrt]. *)
Definition header_pages (a : Z) : Z := region_pages a 34.
Definition image_pages (a : Z) (h : BmpHeader) : Z := region_pages (a + pixel_offset h) (file_size h - pixel_offset h).

Definition logo_fits (a : Z) (h : BmpHeader) (v : V) : Prop :=
  vfits v (header_pages a) ∧ ∀ p v1, allocate_pages v (header_pages a) = Ret (Ok p, v1) → vfits v1 (image_pages a h).

(** Why the image is not mapped: there are no pages for the header or, with it, for the
    pixels, or no frames for tables. *)
Definition logo_refused (a : Z) (h : BmpHeader) (s : S) (v : V) (r : panic_reason) : Prop :=
  region_refused a 34 s v r ∨
  ∃ p s1 v1, allocate_pages v (header_pages a) = Ret (Ok p, v1) ∧ rtc one_step s s1 ∧
    region_refused (a + pixel_offset h) (file_size h - pixel_offset h) s1 v1 r.

(** The header passes the tests of [from_bgrt]. *)
Lemma header_accepted a h :
  image_ok phys a h →
  (dib_header_size h <? 40) || (negb (header_bpp h =? 24) && negb (header_bpp h =? 32)) ||
    negb (color_plane_count h =? 1) || negb (compression h =? 0) = false.
Proof.
  intros Hi. rewrite (image_planes _ _ _ Hi), (image_plain _ _ _ Hi), (proj2 (Z.ltb_ge _ _) (image_dib _ _ _ Hi)).
  by destruct (image_bpp _ _ _ Hi) as [-> | ->].
Qed.

(** The image that [from_bgrt] finds. *)
Definition image_at (a : Z) (h : BmpHeader) (b : Bmp) : Prop :=
  (width b, height b, bpp b) = (header_width h, header_height h, header_bpp h) ∧
  (physical_start (mapping b), region_length (mapping b), metadata (mapping b)) =
    (a + pixel_offset h, file_size h - pixel_offset h, file_size h - pixel_offset h) ∧ region_ok (mapping b).

(** With 24 bits the reader shows the pixels of the image. *)
Lemma shown_is_pixel a h b x y : image_at a h b → header_bpp h = 24 → shown_pixel phys b x y = image_pixel phys a h x y.
Proof.
  intros ([= Hw Hh Hbpp] & [= Hp _ _] & _) H24. unfold shown_pixel, image_pixel, row_bytes, pixel_bytes.
  rewrite Hw, Hh, Hbpp, Hp, H24. f_equal. change (24 / 8) with 3. lia.
Qed.

Lemma image_bmp_ok a h b m s v xs rs :
  image_ok phys a h → image_at a h b → regions_inv T m s v xs rs → run_of (mapping b) ∈ rs → bmp_ok T m b.
Proof.
  intros Hi ([= Hw Hh Hbpp] & [= Hp Hl Hmeta] & Hx) Hinv Hin. destruct Hi. split; unfold row_bytes, pixel_bytes;
    rewrite ?Hw, ?Hh, ?Hbpp, ?Hmeta; try done; [lia|].
  intros k Hk. apply (region_translates T m s v xs rs); [done|done|done|by rewrite Hl].
Qed.

Lemma from_bgrt_spec bgrt h m s v xs rs :
  let a := image_address bgrt in
  regions_inv T m s v xs rs → image_ok phys a h → logo_fits a h v →
  match from_bgrt T phys null_allocator bgrt m s v with
  | Ret (Some b, m', s', v') => image_at a h b ∧ regions_inv T m' s' v' xs (run_of (mapping b) :: rs) ∧
      let r := run_of (mapping b) in
      takes_pages v v' (run_page r) (run_len r) ∧ mapped_run T m m' (run_page r) (run_frame r) (run_len r)
  | Ret (None, _, _, _) => False
  | Panic r => logo_refused a h s v r
  end.
Proof.
  destruct bgrt as [a off]. cbn zeta. cbn [image_address]. intros Hinv Hi [Hfit1 Hfit2]. pose proof Hi as [Hhead _ _ _ _ _ _ _ Hpix _ (Ha & Hb & Hsz)]. unfold from_bgrt, map_physical_region. cbn [image_address].
  assert (PAGE_SIZE = 4096) as HP by done.
  pose proof (map_region_spec T a 34 tt m s v xs rs Hinv ltac:(lia) ltac:(lia) ltac:(lia) Hfit1) as Hmap.
  destruct (map_region _ _ _ _ _ _ _ _) as [[[[x m1] s1] v1]|r]; cbn [mbind outcome_bind]; [|by left].
  destruct Hmap as ([= Hp Hl _] & Hx & Hinv1 & Hst1 & Hal & Htake1 & Hrun1).
  rewrite (read_bytes_ok phys T m1 34 _ a); last first.
  { intros k Hk. rewrite (region_translates T m1 s1 v1 xs (run_of x :: rs) x k); [by rewrite Hp|done|by left|done|lia]. }
  cbn [mbind outcome_bind]. rewrite Hhead, (header_accepted a h Hi). rewrite usize_sub_ok by lia. cbn [mbind outcome_bind].
  rewrite usize_add_ok by lia. cbn [mbind outcome_bind].
  pose proof (map_region_spec T (a + pixel_offset h) (file_size h - pixel_offset h) (file_size h - pixel_offset h) m1 s1 v1 xs _
    Hinv1 ltac:(lia) ltac:(lia) ltac:(lia) (Hfit2 _ _ Hal)) as Hmap.
  destruct (map_region _ _ _ _ _ _ _ _) as [[[[y m2] s2] v2]|r]; cbn [mbind outcome_bind]; last first.
  { right. by exists (run_page (run_of x)), s1, v1. }
  destruct Hmap as (Hy & Hyok & Hinv2 & _ & _ & Htake2 & Hrun2).
  destruct (unmap_region_spec T x m2 s2 v2 xs [run_of y] rs Hinv2 Hx) as (m3 & v3 & -> & Hinv3 & Hgive & Hun).
  cbn [mbind outcome_bind mapping]. split_and!; [split_and!; done|done|..];
    by eapply (region_outlives T m s v xs rs m1 m2 m3 v1 v2 v3); try done; eapply sys_virtual, reg_system.
Qed.

(** ** Properties *)


End Logo.

(** ** Images the code does not show *)

(** An image stored from the top down has a negative height: its first pixel panics. *)
Theorem bmp_top_down_panics T phys m b :
  bpp b = 24 ∨ bpp b = 32 → 0 < width b → pixel_bytes b * width b + 3 < 2 ^ 31 → - 2 ^ 31 ≤ height b < 0 →
  bmp_next T phys m b (0, 0) = Panic ArithmeticOverflow.
Proof.
  intros Hbpp Hw Hrow Hh. assert (pixel_bytes b = 3 ∨ pixel_bytes b = 4) as Hp.
  { unfold pixel_bytes. destruct Hbpp as [-> | ->]; [by left|by right]. }
  assert (i32_as_usize (height b) = height b + 2 ^ 64) as Hbig.
  { unfold i32_as_usize. rewrite <-(Z.mod_add _ 1) by done. apply Z.mod_small. lia. }
  unfold bmp_next. rewrite Hbig. rewrite (proj2 (Z.leb_gt _ _)) by lia. fold (pixel_bytes b).
  assert (3 ≤ pixel_bytes b * width b) by nia.
  rewrite (i32_check_ok (pixel_bytes b * width b)) by lia. cbn [mbind outcome_bind].
  rewrite (i32_check_ok (pixel_bytes b * width b + 3)) by lia. cbn [mbind outcome_bind].
  rewrite Z.quot_div_nonneg by lia. fold (row_bytes b).
  assert (4 ≤ row_bytes b < 2 ^ 31) as Hr by (unfold row_bytes; Z.div_mod_to_equations; lia).
  rewrite i32_check_ok by lia. cbn [mbind outcome_bind]. rewrite (i32_as_usize_pos (row_bytes b)) by lia.
  do 2 (rewrite usize_sub_ok by lia; cbn [mbind outcome_bind]). rewrite (usize_mul_ok 0) by lia. cbn [mbind outcome_bind].
  assert (usize_max < (height b + 2 ^ 64 - 0 - 1) * row_bytes b) as Hov by nia.
  unfold usize_mul. by rewrite (proj2 (Z.leb_gt ((height b + 2 ^ 64 - 0 - 1) * row_bytes b) usize_max) Hov).
Qed.

(** ** A logo at work *)

(** Two rows of two pixels with 24 bits each, at the start of a page. *)
Definition demo_pixels : list Z := [1; 2; 3; 4; 5; 6; 0; 0; 7; 8; 9; 10; 11; 12; 0; 0].
Definition demo_image (bits : Z) (pixels : list Z) : list Z :=
  [66; 77] ++ [54 + Z.of_nat (length pixels); 0; 0; 0] ++ replicate 4 0 ++ [54; 0; 0; 0] ++ [40; 0; 0; 0] ++ [2; 0; 0; 0] ++ [2; 0; 0; 0] ++
  [1; 0] ++ [bits; 0] ++ replicate 24 0 ++ pixels.
Definition demo_phys (bits : Z) (pixels : list Z) (a : Z) : Z := byte_at (demo_image bits pixels) (Z.to_nat (a - 0xe0000)).
Definition demo_bgrt : Bgrt := mkBgrt 0xe0000 (1, 1).

Definition demo_header : BmpHeader := mkBmpHeader [66; 77] 70 54 40 2 2 1 24 0.

Lemma demo_logo_fits : logo_fits 0xe0000 demo_header boot_pages.
Proof.
  split; [vm_compute; discriminate|]. intros p v1 Hal. vm_compute in Hal. injection Hal as <- <-. vm_compute. discriminate.
Qed.

Lemma demo_logo_ok : image_ok (demo_phys 24 demo_pixels) 0xe0000 demo_header.
Proof. split; vm_compute; intuition discriminate. Qed.

(** The screen has three rows of four pixels. *)
Definition logo_screen {M A B} (o : outcome (option (list Z) * M * A * B)) : option (list Z) :=
  match o with Ret (fb, _, _, _) => fb | Panic _ => None end.

Lemma demo_screen :
  logo_screen (draw_logo boot_tables (demo_phys 24 demo_pixels) null_allocator 5 demo_bgrt 4 (replicate 12 0) boot_memory demo boot_pages) =
    Some [0; 0; 0; 0; 0; 0x090807; 0x0c0b0a; 0; 0; 0x030201; 0x060504; 0].
Proof. vm_compute. reflexivity. Qed.

(** With 32 bits a pixel is read one byte too far: the pixel of blue 1, green 2 and red 3
    comes out as blue 2 and green 3. *)
Theorem bmp_32_bits_shifted :
  logo_screen (draw_logo boot_tables (demo_phys 32 (concat (replicate 4 [1; 2; 3; 0]))) null_allocator 5 demo_bgrt 4 (replicate 12 0)
    boot_memory demo boot_pages) =
    Some [0; 0; 0; 0; 0; 0x000302; 0x000302; 0; 0; 0x000302; 0x000302; 0].
Proof. vm_compute. reflexivity. Qed.

