(* ===== verification/OldMapping.v ===== *)
(** * OldMapping: the regions the heap grows in

    [OldMapping] of [kernel_api/src/memory/mapping.rs], a run of kernel pages that
    is extended at its end with frames of the global allocator. *)

From stdpp Require Import base gmap list numbers option.
From S2P Require Import Prelude Memory Allocator PageTable Walk Paging AddressSpace VirtualMemory Mapping.

Open Scope Z_scope.

Record OldMapping := mkOldMapping { old_base : Page; old_len : Z }.

(** [OldMapping::end]. *)
Definition old_end (o : OldMapping) : outcome Page := PageOps.add (old_base o) (old_len o).

(** [into_raw_parts] and [from_raw_parts]. *)
Definition old_into_raw_parts (o : OldMapping) : Page * Z := (old_base o, old_len o).
Definition old_from_raw_parts (base : Page) (len : Z) : OldMapping := mkOldMapping base len.

Section Operations.
Context {S V : Type} `{BackingAllocator S} `{VirtualAllocator V}.
Context (tables : Frame).

(** [OldMapping::new_with]; the frames are lost when there are no pages. *)
Definition old_new (len : Z) (m : memory) (s : S) (v : V) :
    outcome (result OldMapping AllocError * memory * S * V) :=
  '(r, s) ← allocate_contiguous s len;
  match r with
  | Err e => Ret (Err e, m, s, v)
  | Ok physical_mem =>
      '(r, v) ← allocate_pages v len;
      match r with
      | Err e => Ret (Err e, m, s, v)
      | Ok virtual_mem =>
          '(m, s) ← map_pages tables physical_mem virtual_mem len m s;
          Ret (Ok (mkOldMapping virtual_mem len), m, s, v)
      end
  end.

(** [resize_inner]. *)
Definition resize_inner (o : OldMapping) (new_len : Z) (m : memory) (s : S) (v : V) :
    outcome (result unit (option Frame) * OldMapping * memory * S * V) :=
  if new_len =? old_len o then Ret (Ok tt, o, m, s, v) else
  if new_len <? old_len o then Ret (Ok tt, mkOldMapping (old_base o) new_len, m, s, v) else
  extra_len ← usize_sub new_len (old_len o);
  '(r, s) ← allocate_contiguous s extra_len;
  match r with
  | Err _ => Ret (Err None, o, m, s, v)
  | Ok extra_physical_mem =>
      at_ ← PageOps.add (old_base o) (old_len o);
      '(r, v) ← allocate_pages_at v at_ extra_len;
      match r with
      | Err _ => Ret (Err (Some extra_physical_mem), o, m, s, v)
      | Ok _ =>
          start_of_extra ← PageOps.add (old_base o) (old_len o);
          '(m, s) ← map_pages tables extra_physical_mem start_of_extra extra_len m s;
          Ret (Ok tt, mkOldMapping (old_base o) new_len, m, s, v)
      end
  end.

Definition resize_in_place (o : OldMapping) (new_len : Z) (m : memory) (s : S) (v : V) :
    outcome (result unit AllocError * OldMapping * memory * S * V) :=
  '(r, o, m, s, v) ← resize_inner o new_len m s v;
  match r with
  | Ok _ => Ret (Ok tt, o, m, s, v)
  | Err _ => Ret (Err AllocErr, o, m, s, v)
  end.

(** [resize]; moving the mapping is not implemented beyond the new pages. *)
Definition resize (o : OldMapping) (new_len : Z) (m : memory) (s : S) (v : V) :
    outcome (result unit AllocError * OldMapping * memory * S * V) :=
  '(r, o, m, s, v) ← resize_inner o new_len m s v;
  match r with
  | Ok _ => Ret (Ok tt, o, m, s, v)
  | Err None => Ret (Err AllocErr, o, m, s, v)
  | Err (Some _) =>
      _ ← usize_sub new_len (old_len o);
      '(r, v) ← allocate_pages v new_len;
      match r with
      | Err e => Ret (Err e, o, m, s, v)
      | Ok _ => Panic NotImplemented
      end
  end.

End Operations.

(** ** The invariant *)

Section Region.
Context {S V : Type} `{ReclaimingAllocator S} `{FreshVirtual V}.
Context (T : Tables).
Implicit Types (m : memory) (s : S) (v : V) (o : OldMapping).

Local Abbreviation taken m s f := (taken_frame T m s f).

(** All pages of the region have a frame, each its own, that is neither free nor
    a table. *)
Record region_ok m s o : Prop := {
  region_len : 0 ≤ old_len o;
  region_base : handled T Kernel (old_base o);
  region_fits : page_addr (old_base o) + old_len o * PAGE_SIZE ≤ usize_max;
  region_mapped q : handled T Kernel q → in_pages (old_base o) (old_len o) q →
    ∃ f, lookup m T Kernel q = Some f ∧ taken m s f;
  region_distinct q q' f : handled T Kernel q → handled T Kernel q' →
    in_pages (old_base o) (old_len o) q → in_pages (old_base o) (old_len o) q' →
    lookup m T Kernel q = Some f → lookup m T Kernel q' = Some f → q = q'
}.

Record old_inv m s v o : Prop := {
  old_spaces : spaces_ok T m s;
  old_fresh_inv : fresh_inv v;
  old_region : region_ok m s o;
  old_fresh q : handled T Kernel q → fresh v q → lookup m T Kernel q = None
}.

(** The run of [extra] frames from [f] on has become the end of the region. *)
Lemma region_extend m s s1 m' s' o f extra :
  region_ok m s o → 0 < extra → page_addr (old_base o) + (old_len o + extra) * PAGE_SIZE ≤ usize_max →
  let start := page_at (page_addr (old_base o) + old_len o * PAGE_SIZE) in
  (∀ g, alloc_managed s1 g ↔ alloc_managed s g) → (∀ g, alloc_free s1 g → alloc_free s g) →
  (∀ g, in_run f extra g → alloc_free s g ∧ taken m s1 g) →
  grows (depth_of T) m s1 m' s' → mapped_run T m m' start f extra →
  region_ok m' s' (mkOldMapping (old_base o) (old_len o + extra)).
Proof.
  intros [Hlen Hb Hfits Hma Hdi] Hx Hfit start Hman Hsub Hrun Hg Hrun'. pose proof Hb as [[Hb0 Hbm] _].
  assert (∀ q, handled T Kernel q → in_pages (old_base o) (old_len o) q →
    lookup m' T Kernel q = lookup m T Kernel q) as Hold.
  { intros q Hq Hin. rewrite Hrun' by done. rewrite bool_decide_eq_false_2; [done|].
    intros [_ Hin']. unfold in_pages in *. change (page_addr start) with (page_addr (old_base o) + old_len o * PAGE_SIZE) in Hin'. lia. }
  assert (∀ q, handled T Kernel q → in_pages (old_base o) (old_len o + extra) q → ¬ in_pages (old_base o) (old_len o) q →
    ∃ g, lookup m' T Kernel q = Some g ∧ in_run f extra g ∧ frame_addr g = frame_addr f + (page_addr q - page_addr start)) as Hnew.
  { intros q Hq Hin Hnot. change (page_addr start) with (page_addr (old_base o) + old_len o * PAGE_SIZE).
    rewrite Hrun' by done. rewrite bool_decide_eq_true_2.
    - eexists. split; [done|]. split; [|done]. exists ((page_addr q - page_addr start) / PAGE_SIZE).
      change (page_addr start) with (page_addr (old_base o) + old_len o * PAGE_SIZE).
      destruct Hq as [[_ Hqm] _]. unfold in_pages, PAGE_SIZE in *.
      split; [Z.div_mod_to_equations; lia|]. apply frame_addr_inj. cbn. Z.div_mod_to_equations. lia.
    - split; [done|]. unfold in_pages in *. change (page_addr start) with (page_addr (old_base o) + old_len o * PAGE_SIZE). lia. }
  assert (∀ q q' g, handled T Kernel q → handled T Kernel q' → in_pages (old_base o) (old_len o + extra) q' →
    in_pages (old_base o) (old_len o) q → ¬ in_pages (old_base o) (old_len o) q' →
    lookup m' T Kernel q = Some g → lookup m' T Kernel q' = Some g → False) as Hclash.
  { intros q q' g Hq Hq' Hin' Hi Hi' Hl Hl'. destruct (Hnew q' Hq' Hin' Hi') as (g' & Hl2 & Hr & _).
    rewrite Hl' in Hl2. injection Hl2 as <-. destruct (Hma q Hq Hi) as (g2 & Hl3 & _ & Hfree & _).
    rewrite Hold, Hl3 in Hl by done. injection Hl as ->. by destruct (Hrun g Hr). }
  split; cbn [old_base old_len]; [lia|done|done| |].
  - intros q Hq Hin. destruct (decide (in_pages (old_base o) (old_len o) q)) as [Hi|Hi].
    + destruct (Hma q Hq Hi) as (g & Hl & Ht). exists g. rewrite Hold by done. split; [done|].
      eapply taken_grows; [done|]. by eapply taken_allocator.
    + destruct (Hnew q Hq Hin Hi) as (g & Hl & Hg' & _). exists g. split; [done|]. eapply taken_grows; [done|]. by apply Hrun.
  - intros q q' g Hq Hq' Hin Hin' Hl Hl'.
    destruct (decide (in_pages (old_base o) (old_len o) q)) as [Hi|Hi], (decide (in_pages (old_base o) (old_len o) q')) as [Hi'|Hi'].
    + rewrite Hold in Hl, Hl' by done. by eapply Hdi.
    + destruct (Hclash q q' g); done.
    + destruct (Hclash q' q g); done.
    + destruct (Hnew q Hq Hin Hi) as (g1 & Hl1 & _ & E1), (Hnew q' Hq' Hin' Hi') as (g2 & Hl2 & _ & E2).
      rewrite Hl in Hl1. rewrite Hl' in Hl2. injection Hl1 as <-. injection Hl2 as <-. apply page_addr_inj. lia.
Qed.

Lemma region_shrink m s o n : region_ok m s o → 0 ≤ n ≤ old_len o → region_ok m s (mkOldMapping (old_base o) n).
Proof.
  intros [Hlen Hb Hfits Hma Hdi] Hn.
  assert (∀ q, in_pages (old_base o) n q → in_pages (old_base o) (old_len o) q) as Hin.
  { unfold in_pages, PAGE_SIZE. lia. }
  split; cbn [old_base old_len]; [lia|done|unfold PAGE_SIZE in *; lia|eauto|eauto].
Qed.

(** Only the allocator of the frames changed, and only to hand some out. *)
Lemma region_allocator m s s' o :
  (∀ g, alloc_managed s' g ↔ alloc_managed s g) → (∀ g, alloc_free s' g → alloc_free s g) →
  region_ok m s o → region_ok m s' o.
Proof.
  intros Hm Hf [Hlen Hb Hfits Hma Hdi]. split; try done. intros q Hq Hin.
  destruct (Hma q Hq Hin) as (f & ? & ?). exists f. split; [done|]. by eapply taken_allocator.
Qed.

(** What [resize_inner] promises. *)
Definition resized m s o new_len (r : result unit (option Frame)) (o' : OldMapping) m' s' v' : Prop :=
  match r with
  | Ok _ => o' = mkOldMapping (old_base o) new_len ∧ old_inv m' s' v' o' ∧
      ∀ sp q, handled T sp q → ¬ (sp = Kernel ∧ in_pages (old_base o) new_len q ∧ ¬ in_pages (old_base o) (old_len o) q) →
        lookup m' T sp q = lookup m T sp q
  | Err None => o' = o ∧ m' = m ∧ old_inv m s' v' o ∧ ∀ g, alloc_free s' g ↔ alloc_free s g
  | Err (Some f) => o' = o ∧ m' = m ∧ old_inv m s' v' o ∧
      ∀ g, alloc_free s g ↔ alloc_free s' g ∨ in_run f (new_len - old_len o) g
  end.

Lemma resize_inner_spec m s v o new_len :
  old_inv m s v o → 0 ≤ new_len ≤ usize_max →
  (old_len o < new_len →
     fresh_fits v (page_at (page_addr (old_base o) + old_len o * PAGE_SIZE)) (new_len - old_len o)) →
  match resize_inner (ktable T) o new_len m s v with
  | Ret (r, o', m', s', v') => resized m s o new_len r o' m' s' v'
  | Panic r => r = UnwrapFailed ∧
      ∃ f s1, allocate_contiguous s (new_len - old_len o) = Ret (Ok f, s1) ∧ starved s1
  end.
Proof.
  intros [Hok Hv Hreg Hfr] Hn Hfits. pose proof Hreg as [Hlen Hb Hfit _ _]. pose proof Hb as [[[Hb0 _] Hbm] Hbu]. unfold resize_inner.
  destruct (Z.eqb_spec new_len (old_len o)) as [->|Hne]; [by destruct o|].
  destruct (Z.ltb_spec new_len (old_len o)) as [Hlt|Hge].
  { split; [done|]. split; [|done]. split; try done. apply region_shrink; [done|lia]. }
  specialize (Hfits ltac:(lia)). rewrite usize_sub_ok by lia. cbn [mbind outcome_bind].
  destruct (take_frames T m s (new_len - old_len o) Hok ltac:(lia)) as (r & s1 & -> & Hok1 & Hm1 & Hf1 & Hr).
  cbn [mbind outcome_bind]. assert (region_ok m s1 o) as Hreg1 by by eapply region_allocator.
  destruct r as [f|e]; [|split_and!; done]. destruct Hr as (Hwf & Hfb & Hrun & Hfree).
  set (start := page_at (page_addr (old_base o) + old_len o * PAGE_SIZE)) in *.
  assert (handled T Kernel start) as Hst by (apply page_shift_handled; [done|lia|lia]).
  assert (PageOps.add (old_base o) (old_len o) = Ret start) as -> by by rewrite page_add_ok by (unfold PAGE_SIZE in *; lia).
  cbn [mbind outcome_bind]. destruct (fresh_at_law v start (new_len - old_len o) Hv ltac:(lia) (proj1 Hst) Hfits)
    as (r & v1 & -> & Hv1 & Hsub & Hr). cbn [mbind outcome_bind].
  destruct r as [p|e]; [|split_and!; [done..| |done]; split; [done..|by intros q Hq ?%Hsub; apply Hfr]].
  destruct Hr as (-> & Hend & Hpages). cbn [mbind outcome_bind].
  destruct (map_pages_spec T m s1 start f (Z.to_nat (new_len - old_len o)) Hok1 Hst) as [[Hp Hsv]|(m2 & s2 & Hp & Hok2 & Hg & Hrun2)];
    rewrite ?Z2Nat.id in * by lia.
  - done.
  - apply Hwf.
  - intros i Hi. destruct (Hrun (frame_at (frame_addr f + i * PAGE_SIZE))) as (_ & _ & _ & Hlo & _); [by exists i|].
    destruct Hwf as [[? _] Hwm]. change (frame_addr (frame_at ?y)) with y in Hlo.
    split; [unfold PAGE_SIZE in *; lia|]. by rewrite Z.mod_add, Hwm.
  - intros q Hq Hin. apply Hfr; [done|]. by apply Hpages.
  - rewrite Hp. cbn. split; [done|]. by exists f, s1.
  - rewrite Hp. cbn [mbind outcome_bind]. split; [done|]. split; [split; [done..| |]|].
    + replace new_len with (old_len o + (new_len - old_len o)) at 1 by lia.
      eapply (region_extend m s s1); try done; [lia|]. change (page_addr start) with (page_addr (old_base o) + old_len o * PAGE_SIZE) in Hend. unfold PAGE_SIZE in *. lia.
    + intros q Hq Hfq. rewrite Hrun2 by done. rewrite bool_decide_eq_false_2; [by apply Hfr, Hsub|].
      intros [_ Hin]. by destruct (Hpages q Hin).
    + intros sp q Hq Hno. rewrite Hrun2 by done. rewrite bool_decide_eq_false_2; [done|].
      intros [-> Hin]. apply Hno. split; [done|]. unfold in_pages, PAGE_SIZE in *.
      change (page_addr start) with (page_addr (old_base o) + old_len o * 4096) in Hin. lia.
Qed.
End Region.
