(* ===== verification/Heap.v ===== *)
(** * Heap: the heap of the kernel

    [kernel_default_heap/src/lib.rs], the interface [Heap] of
    [kernel_api/src/memory/heap.rs] and the hooks of [kernel/src/main.rs].  The
    heap moves a watermark through a region that it extends page by page; nothing
    is ever reused.  The lock around it is the one of [Spinlock] and every
    operation is one critical section. *)

From stdpp Require Import base gmap list numbers option relations.
From S2P Require Import Prelude Memory Allocator PageTable Walk Paging AddressSpace VirtualMemory Mapping OldMapping.

Open Scope Z_scope.

(** [core::alloc::Layout] and [Layout::from_size_align]. *)
Record Layout := mkLayout { size : Z; align : Z }.

Definition isize_max : Z := 2 ^ 63 - 1.

Definition is_power_of_two (a : Z) : bool := (0 <? a) && (Z.land a (a - 1) =? 0).

Definition from_size_align (size align : Z) : option Layout :=
  if is_power_of_two align && (size <=? isize_max - (align - 1)) then Some (mkLayout size align) else None.

(** [BadHeap]. *)
Record BadHeap := mkHeap { watermark : VirtualAddress; mapping : OldMapping }.

(** [isize::div_ceil] of a number that is not negative. *)
Definition div_ceil (a b : Z) : Z := if a mod b =? 0 then a / b else a / b + 1.

Section Operations.
Context {S V : Type} `{BackingAllocator S} `{VirtualAllocator V}.
Context (tables : Frame).

(** [SyncHeap::new]. *)
Definition heap_new (m : memory) (s : S) (v : V) : outcome (BadHeap * memory * S * V) :=
  '(r, m, s, v) ← old_new tables 0 m s v;
  o ← expect_ok r;
  e ← old_end o;
  w ← Virt.align_down 1 (page_base e);
  Ret (mkHeap w o, m, s, v).

(** [SyncHeap::allocate]. *)
Definition heap_allocate (h : BadHeap) (layout : Layout) (m : memory) (s : S) (v : V) :
    outcome (result Z AllocError * BadHeap * memory * S * V) :=
  start ← Virt.align_up (align layout) (watermark h);
  end_ ← Virt.add start (size layout);
  max_page ← old_end (mapping h);
  let max_addr := page_base max_page in
  '(r, o, m, s, v) ←
    (if va_addr max_addr <? va_addr end_ then
       d ← Virt.diff end_ max_addr;
       if isize_max <? d then Ret (Err AllocErr, mapping h, m, s, v) else
       let increment := div_ceil d 4096 in
       new_len ← usize_add (old_len (mapping h)) increment;
       resize_in_place tables (mapping h) new_len m s v
     else Ret (Ok tt, mapping h, m, s, v));
  match r with
  | Err e => Ret (Err e, mkHeap (watermark h) o, m, s, v)
  | Ok _ =>
      if va_addr start =? 0 then Panic UnwrapFailed
      else Ret (Ok (va_addr start), mkHeap end_ o, m, s, v)
  end.

(** [SyncHeap::deallocate] when the lock is free: only the [debug_assert!]. *)
Definition heap_deallocate (h : BadHeap) (ptr : Z) : outcome unit := assert (ptr <=? va_addr (watermark h)).

(** [Heap::reallocate], with the bytes of the address space: the new bytes are
    copied from the old ones, which stay. *)
Definition heap_reallocate (h : BadHeap) (ptr : Z) (old_layout : Layout) (new_size : Z) (bytes : Z → Z)
    (m : memory) (s : S) (v : V) : outcome (result Z AllocError * BadHeap * (Z → Z) * memory * S * V) :=
  new_layout ← expect (from_size_align new_size (align old_layout));
  '(r, h, m, s, v) ← heap_allocate h new_layout m s v;
  match r with
  | Err e => Ret (Err e, h, bytes, m, s, v)
  | Ok new =>
      let n := Z.min (size old_layout) new_size in
      Ret (Ok new, h, (λ a, if (new <=? a) && (a <? new + n) then bytes (ptr + (a - new)) else bytes a), m, s, v)
  end.

(** [HookAllocator]: a null pointer is an error, and may be freed. *)
Definition hook_alloc (h : BadHeap) (layout : Layout) (m : memory) (s : S) (v : V) :
    outcome (Z * BadHeap * memory * S * V) :=
  '(r, h, m, s, v) ← heap_allocate h layout m s v;
  match r with Ok p => Ret (p, h, m, s, v) | Err _ => Ret (0, h, m, s, v) end.

Definition hook_dealloc (h : BadHeap) (ptr : Z) : outcome unit :=
  if ptr =? 0 then Ret tt else heap_deallocate h ptr.

End Operations.

(** ** Arithmetic *)

Lemma virt_align_up_pow2 k a :
  0 ≤ k < 64 → is_usize (va_addr a) → va_addr a + 2 ^ k ≤ usize_max →
  ∃ u, Virt.align_up (2 ^ k) a = Ret u ∧ va_addr u mod 2 ^ k = 0 ∧ va_addr a ≤ va_addr u < va_addr a + 2 ^ k.
Proof.
  intros Hk Ha Hb. pose proof (pow2_le_usize k Hk). unfold is_usize in Ha. unfold Virt.align_up, Virt.align_down.
  rewrite usize_add_ok by lia. cbn [mbind outcome_bind]. rewrite !usize_sub_ok by lia. cbn [mbind outcome_bind va_addr].
  rewrite mask_low_bits by (done || unfold is_usize; lia). eexists. split; [done|]. cbn [va_addr].
  pose proof (Z.mod_pos_bound (va_addr a + 2 ^ k - 1) (2 ^ k)). split; [|lia].
  rewrite Zminus_mod_idemp_r, Z.sub_diag. apply Z.mod_0_l. lia.
Qed.

Lemma div_ceil_bounds a b : 0 < b → 0 < a → 0 < div_ceil a b ∧ a ≤ div_ceil a b * b < a + b.
Proof. intros Hb Ha. unfold div_ceil. destruct (Z.eqb_spec (a mod b) 0); Z.div_mod_to_equations; nia. Qed.

(** ** The invariant *)

(** A block is its address and its size. *)
Definition block_apart (b c : Z * Z) : Prop := b.1 + b.2 ≤ c.1 ∨ c.1 + c.2 ≤ b.1.

Section Invariant.
Context {S V : Type} `{ReclaimingAllocator S} `{FreshVirtual V}.
Context (T : Tables).
Implicit Types (m : memory) (s : S) (v : V) (h : BadHeap) (bs : list (Z * Z)).

Definition heap_limit h : Z := page_addr (old_base (mapping h)) + old_len (mapping h) * PAGE_SIZE.

Record heap_inv m s v h bs : Prop := {
  heap_region : old_inv T m s v (mapping h);
  heap_low : page_addr (old_base (mapping h)) ≤ va_addr (watermark h);
  heap_high : va_addr (watermark h) ≤ heap_limit h;
  heap_blocks : Forall (λ b, page_addr (old_base (mapping h)) ≤ b.1 ∧ 0 ≤ b.2 ∧ b.1 + b.2 ≤ va_addr (watermark h)) bs;
  heap_apart : ForallOrdPairs block_apart bs
}.

(** The pages that must be added for the next block, if any, are inside the range of the
    page allocator. *)
Definition heap_fits v h (layout : Layout) : Prop :=
  ∀ start, Virt.align_up (align layout) (watermark h) = Ret start →
    heap_limit h < va_addr start + size layout ≤ usize_max →
    fresh_fits v (page_at (heap_limit h)) (div_ceil (va_addr start + size layout - heap_limit h) 4096).

(** The address of the next block overflows. *)
Definition heap_overflow h (layout : Layout) : Prop :=
  usize_max < va_addr (watermark h) + align layout + size layout.

(** A longer region keeps what the blocks need. *)
Lemma heap_inv_resize m s v h bs m' s' v' n w :
  heap_inv m s v h bs → old_inv T m' s' v' (mkOldMapping (old_base (mapping h)) n) →
  va_addr (watermark h) ≤ va_addr w ≤ page_addr (old_base (mapping h)) + n * PAGE_SIZE →
  heap_inv m' s' v' (mkHeap w (mkOldMapping (old_base (mapping h)) n)) bs.
Proof.
  intros [Hr Hl Hh Hb Ha] Ho Hw. split; try done; cbn [mapping watermark old_base]; [lia|unfold heap_limit; cbn; lia|].
  eapply Forall_impl; [done|]. simpl. intros b. lia.
Qed.

(** A block between the old and the new watermark. *)
Lemma heap_inv_block m s v h bs h0 a n :
  heap_inv m s v h bs → heap_inv m s v h0 bs → mapping h0 = mapping h →
  va_addr (watermark h0) ≤ a → 0 ≤ n → a + n = va_addr (watermark h) → heap_inv m s v h ((a, n) :: bs).
Proof.
  intros [Hr Hl Hh Hb Ha] [_ Hl0 _ Hb0 _] E Hw Hn Hend. split; try done.
  - constructor; [|done]. simpl. rewrite E in Hl0. lia.
  - constructor; [|done]. eapply Forall_impl; [apply Hb0|]. intros b Hx. right. simpl in *. lia.
Qed.

(** Where the next block starts. *)
Lemma heap_start k m s v h bs layout :
  heap_inv m s v h bs → 0 ≤ k < 64 → align layout = 2 ^ k → 0 ≤ size layout →
  (∃ start, Virt.align_up (align layout) (watermark h) = Ret start ∧ va_addr start mod align layout = 0 ∧
     0 < va_addr start ∧ va_addr (watermark h) ≤ va_addr start < va_addr (watermark h) + align layout) ∨
  Virt.align_up (align layout) (watermark h) = Panic ArithmeticOverflow ∧ heap_overflow h layout.
Proof.
  intros [Hr Hl Hh _ _] Hk Hal Hsz. pose proof (old_region _ _ _ _ _ Hr) as [_ [_ Hup] Hend _ _].
  fold (heap_limit h) in Hend. unfold UPPER_HALF in Hup. rewrite Hal.
  destruct (Z.le_gt_cases (va_addr (watermark h) + 2 ^ k) usize_max) as [Hb|Hb].
  - left. destruct (virt_align_up_pow2 k (watermark h) Hk) as (start & Hst & ? & ?); [unfold is_usize, PAGE_SIZE in *; lia|done|].
    exists start. split_and!; (done || lia).
  - right. unfold heap_overflow. split; [|lia]. unfold Virt.align_up, usize_add. by rewrite (proj2 (Z.leb_gt _ _)) by lia.
Qed.

(** What the growth of the region, when one is needed, leaves behind. *)
Lemma heap_grow_spec m s v h bs d :
  heap_inv m s v h bs → 0 < d → heap_limit h + d ≤ usize_max →
  fresh_fits v (page_at (heap_limit h)) (div_ceil d 4096) →
  let n := old_len (mapping h) + div_ceil d 4096 in
  usize_add (old_len (mapping h)) (div_ceil d 4096) = Ret n ∧
  match resize_in_place (ktable T) (mapping h) n m s v with
  | Ret (Ok _, o, m', s', v') => o = mkOldMapping (old_base (mapping h)) n ∧ old_inv T m' s' v' o ∧
      heap_limit h + d ≤ page_addr (old_base (mapping h)) + n * PAGE_SIZE ∧
      ∀ sp q, handled T sp q →
        ¬ (sp = Kernel ∧ heap_limit h ≤ page_addr q < page_addr (old_base (mapping h)) + n * PAGE_SIZE) →
        lookup m' T sp q = lookup m T sp q
  | Ret (Err _, o, m', s', v') => o = mapping h ∧ m' = m ∧ old_inv T m s' v' o
  | Panic r => r = UnwrapFailed ∧ ∃ k f s1, allocate_contiguous s k = Ret (Ok f, s1) ∧ starved s1
  end.
Proof.
  intros [Hr Hl Hh _ _] Hd Hroom Hfit n. destruct (div_ceil_bounds d 4096 ltac:(lia) ltac:(lia)) as [Hc1 Hc2].
  pose proof (old_region _ _ _ _ _ Hr) as [Hlen [[[Hb0 _] _] _] Hend _ _].
  fold (heap_limit h) in Hend. unfold PAGE_SIZE in *. assert (n ≤ usize_max) as Hn.
  { unfold heap_limit, PAGE_SIZE in *. lia. }
  split; [by rewrite usize_add_ok|]. unfold resize_in_place.
  assert (old_len (mapping h) < n → fresh_fits v (page_at (page_addr (old_base (mapping h)) + old_len (mapping h) * PAGE_SIZE)) (n - old_len (mapping h))) as Hff.
  { intros _. by replace (n - old_len (mapping h)) with (div_ceil d 4096) by lia. }
  pose proof (resize_inner_spec T m s v (mapping h) n Hr ltac:(lia) Hff) as Hs.
  destruct (resize_inner _ _ _ _ _ _) as [[[[[r o] m'] s'] v']|]; cbn [mbind outcome_bind].
  - destruct r as [[]|[f|]]; cbn in Hs.
    + destruct Hs as (-> & Ho & Hlk). split_and!; [done..| |].
      * unfold heap_limit, PAGE_SIZE. lia.
      * intros sp q Hq Hno. apply Hlk; [done|]. intros (-> & [Hin1 Hin2] & Hin'). apply Hno. split; [done|].
        unfold heap_limit, in_pages, PAGE_SIZE in *. lia.
    + by destruct Hs as (-> & -> & ? & _).
    + by destruct Hs as (-> & -> & ? & _).
  - destruct Hs as (-> & f & s1 & ?). split; [done|]. by eexists _, f, s1.
Qed.

Lemma heap_allocate_spec k m s v h bs layout :
  heap_inv m s v h bs → 0 ≤ k < 64 → align layout = 2 ^ k → 0 ≤ size layout → heap_fits v h layout →
  match heap_allocate (ktable T) h layout m s v with
  | Ret (Ok p, h', m', s', v') => heap_inv m' s' v' h' ((p, size layout) :: bs) ∧ p mod align layout = 0 ∧ p ≠ 0 ∧
      ∀ sp q, handled T sp q → ¬ (sp = Kernel ∧ heap_limit h ≤ page_addr q < heap_limit h') →
        lookup m' T sp q = lookup m T sp q
  | Ret (Err _, h', m', s', v') => h' = h ∧ m' = m ∧ heap_inv m s' v' h bs
  | Panic r => r = ArithmeticOverflow ∧ heap_overflow h layout ∨
      r = UnwrapFailed ∧ ∃ n f s1, allocate_contiguous s n = Ret (Ok f, s1) ∧ starved s1
  end.
Proof.
  intros Hinv Hk Hal Hsz Hfit. pose proof Hinv as [Hr Hl Hh Hb Ha]. unfold heap_allocate.
  pose proof (old_region _ _ _ _ _ Hr) as [Hlen [[[Hb0 _] _] _] Hend _ _].
  destruct (heap_start k m s v h bs layout Hinv Hk Hal Hsz) as [(start & Hst & Hmod & Hpos & Hst1)|[-> Hov]]; [|by left].
  rewrite Hst. cbn [mbind outcome_bind]. unfold Virt.add at 1.
  destruct (Z.le_gt_cases (va_addr start + size layout) usize_max) as [Hmax|Hmax].
  2:{ unfold usize_add. rewrite (proj2 (Z.leb_gt _ _)) by lia. left. split; [done|]. unfold heap_overflow. lia. }
  rewrite usize_add_ok by done. cbn [mbind outcome_bind va_addr]. unfold old_end. rewrite page_add_ok by (unfold PAGE_SIZE in *; lia).
  cbn [mbind outcome_bind page_base va_addr]. fold (heap_limit h) in Hend |- *.
  assert ((va_addr start =? 0) = false) as Hnz by (apply Z.eqb_neq; lia).
  destruct (Z.ltb_spec (heap_limit h) (va_addr start + size layout)) as [Hgrow|Hin].
  - specialize (Hfit start Hst ltac:(lia)). unfold Virt.diff. rewrite usize_sub_ok by (cbn [va_addr]; lia). cbn [mbind outcome_bind va_addr].
    set (d := va_addr start + size layout - heap_limit h) in *.
    destruct (isize_max <? d); cbn [mbind outcome_bind]; [destruct h; done|].
    destruct (heap_grow_spec m s v h bs d Hinv) as [-> Hs]; [lia|lia|done|].
    cbn [mbind outcome_bind]. destruct (resize_in_place _ _ _ _ _ _) as [[[[[[[]|e] o] m'] s'] v']|]; cbn [mbind outcome_bind].
    + destruct Hs as (-> & Ho & Hlim & Hlk). rewrite Hnz. split_and!; [|done|lia|done].
      eapply (heap_inv_block _ _ _ _ _ (mkHeap (watermark h) (mkOldMapping _ _))); [| |done|cbn; lia|done|done].
      * eapply heap_inv_resize; [done..|]. cbn [va_addr]. lia.
      * eapply heap_inv_resize; [done..|]. lia.
    + destruct Hs as (-> & -> & Ho). split_and!; [by destruct h|done|]. split; done.
    + by right.
  - cbn [mbind outcome_bind]. rewrite Hnz. split_and!; [|done|lia|done].
    assert (mapping h = mkOldMapping (old_base (mapping h)) (old_len (mapping h))) as E by by destruct (mapping h).
    eapply (heap_inv_block _ _ _ _ _ h); [|done|done|lia|done|done]. rewrite E. eapply heap_inv_resize; [done|by rewrite <-E|].
    cbn [va_addr]. unfold heap_limit in Hin. lia.
Qed.

(** *** The bytes behind the blocks *)

Lemma walk_aligned m a il b : walk m a il = Some b → il ≠ [] → b mod PAGE_SIZE = 0.
Proof.
  revert a. induction il as [|i il IH]; intros a Hw Hne; [done|]. cbn [walk] in Hw.
  destruct (next m a i) as [c|] eqn:E; [|done]. simpl in Hw. destruct il as [|j il]; [|by eapply IH].
  injection Hw as <-. unfold next in E. destruct (is_present _); [|done]. injection E as <-. apply masked_table_addr.
Qed.

(** The physical address of a byte of the kernel. *)
Definition physical_of m (a : Z) : option Z :=
  (λ f, frame_addr f + a mod PAGE_SIZE) <$> lookup m T Kernel (page_at (a - a mod PAGE_SIZE)).

Lemma lookup_aligned m q f : lookup m T Kernel q = Some f → frame_addr f mod PAGE_SIZE = 0.
Proof.
  unfold lookup. destruct (walk _ _ _) as [b|] eqn:E; [|done]. intros [= <-]. cbn. by eapply walk_aligned.
Qed.

Lemma region_page m s o a :
  region_ok T m s o → page_addr (old_base o) ≤ a < page_addr (old_base o) + old_len o * PAGE_SIZE →
  handled T Kernel (page_at (a - a mod PAGE_SIZE)) ∧ in_pages (old_base o) (old_len o) (page_at (a - a mod PAGE_SIZE)).
Proof.
  intros [_ [[[Hb0 _] Hbm] Hup] Hend _ _] Ha. unfold handled, wf_page, in_pages. change (page_addr (page_at ?x)) with x.
  unfold UPPER_HALF, PAGE_SIZE in *. split_and!; Z.div_mod_to_equations; lia.
Qed.

(** Every byte of the region has a physical byte of its own. *)
Lemma region_bytes m s o a b :
  region_ok T m s o → page_addr (old_base o) ≤ a < page_addr (old_base o) + old_len o * PAGE_SIZE →
  page_addr (old_base o) ≤ b < page_addr (old_base o) + old_len o * PAGE_SIZE →
  is_Some (physical_of m a) ∧ (physical_of m a = physical_of m b → a = b).
Proof.
  intros Hr Ha Hb. destruct (region_page m s o a Hr Ha) as [Hha Hia], (region_page m s o b Hr Hb) as [Hhb Hib].
  destruct (region_mapped _ _ _ _ Hr _ Hha Hia) as (f & Hf & _), (region_mapped _ _ _ _ Hr _ Hhb Hib) as (g & Hg & _).
  unfold physical_of. rewrite Hf, Hg. split; [by eexists|]. intros [= E].
  pose proof (lookup_aligned m _ _ Hf) as Hfa. pose proof (lookup_aligned m _ _ Hg) as Hga.
  assert (f = g) as ->.
  { apply frame_addr_inj. unfold PAGE_SIZE in *. Z.div_mod_to_equations. lia. }
  pose proof (region_distinct _ _ _ _ Hr _ _ _ Hha Hhb Hia Hib Hf Hg) as [= Hq]. lia.
Qed.

(** ** Properties *)

(** The memory, the allocators, the heap and the blocks that were handed out with
    their alignments. *)
Definition heap_state : Type := memory * S * V * BadHeap * list (Z * Z * Z).

Inductive heap_step : heap_state → heap_state → Prop :=
  | heap_alloc k layout m s v h (bs : list (Z * Z * Z)) p h' m' s' v' :
      0 ≤ k < 64 → align layout = 2 ^ k → 0 ≤ size layout → heap_fits v h layout →
      heap_allocate (ktable T) h layout m s v = Ret (Ok p, h', m', s', v') →
      heap_step (m, s, v, h, bs) (m', s', v', h', (p, size layout, align layout) :: bs)
  | heap_refuse k layout m s v h (bs : list (Z * Z * Z)) e h' m' s' v' :
      0 ≤ k < 64 → align layout = 2 ^ k → 0 ≤ size layout → heap_fits v h layout →
      heap_allocate (ktable T) h layout m s v = Ret (Err e, h', m', s', v') →
      heap_step (m, s, v, h, bs) (m', s', v', h', bs)
  | heap_free m s v h (bs : list (Z * Z * Z)) b :
      b ∈ bs → heap_deallocate h b.1.1 = Ret tt →
      heap_step (m, s, v, h, bs) (m, s, v, h, bs).

Definition heap_ok (c : heap_state) : Prop :=
  let '(m, s, v, h, bs) := c in heap_inv m s v h bs.*1 ∧ Forall (λ b, b.1.1 mod b.2 = 0) bs.

Lemma heap_step_ok c c' : heap_step c c' → heap_ok c → heap_ok c'.
Proof.
  intros [k layout m s v h bs p h' m' s' v' Hk Hal Hsz Hfit Ha|
    k layout m s v h bs e h' m' s' v' Hk Hal Hsz Hfit Ha|] [Hinv Hmod]; [..|done];
    pose proof (heap_allocate_spec k m s v h _ layout Hinv Hk Hal Hsz Hfit) as Hs; rewrite Ha in Hs.
  - destruct Hs as (Hinv' & Hm & _). split; [done|]. by constructor.
  - destruct Hs as (-> & -> & Hinv'). done.
Qed.

Lemma heap_steps_ok c c' : rtc heap_step c c' → heap_ok c → heap_ok c'.
Proof. induction 1; eauto using heap_step_ok. Qed.


(** A block that reaches behind the last address panics, where [allocate] is to answer
    an error: the end of the block is computed before anything is compared. *)
Theorem heap_allocate_overflows h layout m s v start :
  Virt.align_up (align layout) (watermark h) = Ret start → usize_max < va_addr start + size layout →
  heap_allocate (ktable T) h layout m s v = Panic ArithmeticOverflow.
Proof.
  intros Hst Hov. unfold heap_allocate. rewrite Hst. cbn [mbind outcome_bind]. unfold Virt.add, usize_add.
  by rewrite (proj2 (Z.leb_gt _ _) Hov).
Qed.

(** C9. Whatever is allocated and freed, the blocks that were handed out are
    aligned and pairwise disjoint, can be freed without a panic, every byte of
    them is mapped, and no two bytes share a physical address. *)
Theorem heap_clients m s v h m' s' v' h' (bs : list (Z * Z * Z)) :
  heap_inv m s v h [] → rtc heap_step (m, s, v, h, []) (m', s', v', h', bs) →
  Forall (λ b, b.1.1 mod b.2 = 0) bs ∧ ForallOrdPairs block_apart bs.*1 ∧
  (∀ b, b ∈ bs.*1 → heap_deallocate h' b.1 = Ret tt) ∧
  ∀ b a c, b ∈ bs.*1 → b.1 ≤ a < b.1 + b.2 → c ∈ bs.*1 → ∀ a', c.1 ≤ a' < c.1 + c.2 →
    is_Some (physical_of m' a) ∧ (physical_of m' a = physical_of m' a' → a = a').
Proof.
  intros Hi Hs. destruct (heap_steps_ok _ _ Hs) as [Hinv Hmod]; [by split|]. split; [done|]. split; [apply Hinv|].
  pose proof (heap_blocks _ _ _ _ _ Hinv) as Hb. rewrite Forall_forall in Hb. pose proof (heap_high _ _ _ _ _ Hinv).
  split.
  { intros b Hbs. apply Hb in Hbs. unfold heap_deallocate. by rewrite (proj2 (Z.leb_le _ _)) by lia. }
  intros b a c Hbs Ha Hcs a' Ha'. apply Hb in Hbs. apply Hb in Hcs. unfold heap_limit in *.
  eapply region_bytes; [apply (old_region _ _ _ _ _ (heap_region _ _ _ _ _ Hinv))|lia|lia].
Qed.

(** [reallocate] of a live block to a valid size copies the common prefix to
    a new block that does not overlap the old one, and leaves every other byte,
    the old block's included, as it was. *)
Theorem heap_reallocate_copies k m s v h bs ptr old new_size bytes new h' bytes' m' s' v' :
  heap_inv m s v h bs → (ptr, size old) ∈ bs → 0 ≤ k < 64 → align old = 2 ^ k → 0 ≤ new_size →
  heap_fits v h (mkLayout new_size (align old)) →
  heap_reallocate (ktable T) h ptr old new_size bytes m s v = Ret (Ok new, h', bytes', m', s', v') →
  heap_inv m' s' v' h' ((new, new_size) :: bs) ∧ block_apart (new, new_size) (ptr, size old) ∧
  (∀ i, 0 ≤ i < Z.min (size old) new_size → bytes' (new + i) = bytes (ptr + i)) ∧
  (∀ a, ¬ new ≤ a < new + new_size → bytes' a = bytes a).
Proof.
  intros Hinv Hin Hk Hal Hsz Hfit Hre. unfold heap_reallocate in Hre.
  unfold from_size_align in Hre. destruct (is_power_of_two (align old) && _); [|done]. cbn [expect mbind outcome_bind] in Hre.
  pose proof (heap_allocate_spec k m s v h bs (mkLayout new_size (align old)) Hinv Hk Hal Hsz Hfit) as Hs.
  destruct (heap_allocate _ _ _ _ _ _) as [[[[[[p|e] h1] m1] s1] v1]|]; cbn [mbind outcome_bind] in Hre; [|done..].
  injection Hre as -> -> <- -> -> ->. destruct Hs as (Hinv' & _). split; [done|]. split.
  { pose proof (heap_apart _ _ _ _ _ Hinv') as Hap. inversion_clear Hap as [|? ? Hfa _].
    rewrite Forall_forall in Hfa. by apply Hfa. }
  split.
  - intros i Hi. rewrite (proj2 (Z.leb_le _ _)), (proj2 (Z.ltb_lt _ _)) by lia. cbn. f_equal. lia.
  - intros a Ha. destruct (Z.leb_spec new a), (Z.ltb_spec a (new + Z.min (size old) new_size)); cbn; try done. lia.
Qed.

(** The region cannot be extended over a page that is not to be handed out. *)
Lemma resize_refused m s v o new_len :
  old_inv T m s v o → old_len o < new_len ≤ usize_max →
  fresh_fits v (page_at (page_addr (old_base o) + old_len o * PAGE_SIZE)) (new_len - old_len o) →
  ¬ fresh v (page_at (page_addr (old_base o) + old_len o * PAGE_SIZE)) →
  ∃ s' v', resize_in_place (ktable T) o new_len m s v = Ret (Err AllocErr, o, m, s', v').
Proof.
  intros [Hok Hv Hreg _] Hn Hfits Hstale. pose proof Hreg as [Hlen Hb Hfit _ _]. pose proof Hb as [[[Hb0 _] Hbm] Hbu].
  unfold resize_in_place, resize_inner. rewrite (proj2 (Z.eqb_neq _ _)), (proj2 (Z.ltb_ge _ _)) by lia.
  rewrite usize_sub_ok by lia. cbn [mbind outcome_bind].
  destruct (take_frames T m s (new_len - old_len o) Hok ltac:(lia)) as (r & s1 & -> & _). cbn [mbind outcome_bind].
  destruct r as [f|e]; cbn [mbind outcome_bind]; [|by eauto]. rewrite page_add_ok by (unfold PAGE_SIZE in *; lia).
  cbn [mbind outcome_bind]. set (at_ := page_at _) in *.
  assert (wf_page at_) as Hw. { apply (page_shift_handled T (old_base o) (old_len o)); done. }
  destruct (fresh_at_law v at_ (new_len - old_len o) Hv ltac:(lia) Hw Hfits) as (r & v1 & -> & _ & _ & Hr). cbn [mbind outcome_bind].
  destruct r as [p|e]; cbn [mbind outcome_bind]; [|by eauto]. destruct Hr as (_ & _ & Hr).
  destruct (Hr at_) as [? _]; [unfold in_pages, PAGE_SIZE; lia|done].
Qed.

(** C39. When the page behind the region is not to be handed out, which is so once
    the kernel has reserved the region of the early boot, every request whose block,
    with the padding of its alignment, does not fit in what is mapped is answered with
    an error and the heap stays as it is.  The block ends below the last address, and
    the pages it would need are inside the range of the page allocator. *)
Theorem heap_cannot_grow k m s v h bs layout start :
  heap_inv m s v h bs → 0 ≤ k < 64 → align layout = 2 ^ k → 0 ≤ size layout → heap_fits v h layout →
  ¬ fresh v (page_at (heap_limit h)) → Virt.align_up (align layout) (watermark h) = Ret start →
  heap_limit h < va_addr start + size layout ≤ usize_max →
  ∃ s' v', heap_allocate (ktable T) h layout m s v = Ret (Err AllocErr, h, m, s', v').
Proof.
  intros Hinv Hk Hal Hsz Hfit Hstale Hst Hbig. pose proof Hinv as [Hr Hl Hh Hb Ha]. unfold heap_allocate.
  pose proof (old_region _ _ _ _ _ Hr) as [Hlen [[[Hb0 _] _] _] Hend _ _]. specialize (Hfit start Hst Hbig).
  rewrite Hst. cbn [mbind outcome_bind]. unfold Virt.add at 1. rewrite usize_add_ok by lia.
  cbn [mbind outcome_bind va_addr]. unfold old_end. rewrite page_add_ok by (unfold PAGE_SIZE in *; lia).
  cbn [mbind outcome_bind page_base va_addr]. fold (heap_limit h) in Hend |- *.
  rewrite (proj2 (Z.ltb_lt _ _)) by lia. unfold Virt.diff. rewrite usize_sub_ok by (cbn [va_addr]; lia).
  cbn [mbind outcome_bind va_addr]. set (d := va_addr start + size layout - heap_limit h) in *.
  assert (h = mkHeap (watermark h) (mapping h)) as Eh by by destruct h.
  destruct (isize_max <? d); cbn [mbind outcome_bind]; [rewrite <-Eh; by eauto|].
  destruct (heap_grow_spec m s v h bs d Hinv) as [-> _]; [lia|lia|done|]. cbn [mbind outcome_bind].
  destruct (div_ceil_bounds d 4096 ltac:(lia) ltac:(lia)) as [Hc1 Hc2].
  destruct (resize_refused m s v (mapping h) (old_len (mapping h) + div_ceil d 4096) Hr) as (s' & v' & ->); [| |done|].
  - unfold heap_limit, PAGE_SIZE in *. lia.
  - by replace (_ + _ - _) with (div_ceil d 4096) by lia.
  - cbn [mbind outcome_bind]. rewrite <-Eh. by eauto.
Qed.
End Invariant.

(** ** Boot *)

(** The heap is made while the allocator of the early boot is in use; no frame
    and no page is taken. *)
Lemma heap_new_boot {S : Type} `{ReclaimingAllocator S} T m (s : S) (v : Bootstrap) f :
  spaces_ok T m s → fresh_inv v → UPPER_HALF ≤ bootstrap_start v ≤ bootstrap_end v →
  allocate_contiguous s 0 = Ret (Ok f, s) →
  (∀ q, handled T Kernel q → fresh v q → lookup m T Kernel q = None) →
  let h := mkHeap (mkVA (bootstrap_start v)) (mkOldMapping (page_at (bootstrap_start v)) 0) in
  heap_new (ktable T) m s v = Ret (h, m, s, v) ∧ heap_inv T m s v h [].
Proof.
  intros Hok Hv Hup Hz Hfr h. pose proof Hv as [Hu Hm]. split.
  - unfold heap_new, old_new. rewrite Hz. cbn [mbind outcome_bind]. cbn [allocate_pages bootstrap_virtual].
    unfold bootstrap_allocate. cbn [Z.eqb mbind outcome_bind]. rewrite (proj2 (Z.ltb_ge _ _)) by lia.
    rewrite virt_new_page by done. cbn [mbind outcome_bind].
    change (map_pages _ _ _ 0 m s) with (Ret (m, s)). cbn [mbind outcome_bind expect_ok]. unfold old_end. cbn [old_base old_len].
    unfold is_usize in Hu. rewrite page_add_ok by (unfold PAGE_SIZE; cbn [page_addr page_base va_addr]; lia).
    cbn [mbind outcome_bind page_base va_addr page_addr]. unfold Virt.align_down. rewrite usize_sub_ok by lia.
    cbn [mbind outcome_bind va_addr]. change 1 with (2 ^ 0) at 1. rewrite mask_low_bits by (unfold is_usize; lia).
    change (2 ^ 0) with 1. by rewrite Z.mod_1_r, Z.mul_0_l, Z.add_0_r, Z.sub_0_r.
  - split; [split; [done..| |done]|done|unfold heap_limit; cbn; lia|constructor|constructor]. split; cbn [old_base old_len]; try done.
    + split; [by split|]. cbn. lia.
    + unfold is_usize in Hu. cbn. lia.
    + intros q _ [? Hq]. rewrite Z.mul_0_l in Hq. lia.
    + intros q q' g _ _ [? Hq]. rewrite Z.mul_0_l in Hq. lia.
Qed.
