(* ===== verification/HeapBoot.v ===== *)
(** * HeapBoot: the heap from the early boot on

    The heap with the allocators of the kernel: first with the bootstrap allocator
    of the pages, then with the ranged allocator that [kmain]
    ([kernel/src/main.rs]) puts in its place. *)

From stdpp Require Import base gmap list numbers option relations.
From S2P Require Import Prelude Memory Allocator Bitmap PageTable Walk Paging AddressSpace VirtualMemory RangedBtree VirtAlloc Mapping MappingClients OldMapping Heap.

Open Scope Z_scope.

(** The allocator of the pages that [kmain] makes: the region of the early boot and
    what the bootloader used are reserved. *)
Abbreviation PAGE_MAP_OFFSET_LEN := (2 ^ 46).

Definition btree_alloc (vmem_bootstrap used : Page * Page) : outcome RangedBtreeAllocator :=
  add_allocations (valloc_new (page_at (PAGE_MAP_OFFSET + PAGE_MAP_OFFSET_LEN), page_at 0xfffffffffffff000))
    [vmem_bootstrap; used].

(** ** A heap at work *)

Definition boot_region : Bootstrap := mkBootstrap 0xffffffff90000000 0xffffffff90100000.

Definition boot_heap : BadHeap := mkHeap (mkVA 0xffffffff90000000) (mkOldMapping (page_at 0xffffffff90000000) 0).

Lemma boot_heap_ok :
  heap_new (ktable boot_tables) boot_memory demo boot_region = Ret (boot_heap, boot_memory, demo, boot_region) ∧
  heap_inv boot_tables boot_memory demo boot_region boot_heap [].
Proof.
  apply (heap_new_boot boot_tables boot_memory demo boot_region (frame_at 0)); [exact boot_ok|..].
  - split; [unfold is_usize; cbn; lia|done].
  - unfold UPPER_HALF. cbn. lia.
  - vm_compute. reflexivity.
  - intros q Hq _. by apply boot_unmapped.
Qed.

(** What of a result can be read off without the memory. *)
Definition heap_result {M A B} (o : outcome (result Z AllocError * BadHeap * M * A * B)) :
    option (result Z AllocError * BadHeap * A * B) :=
  match o with Ret (r, h, _, s, v) => Some (r, h, s, v) | Panic _ => None end.

Definition small : Layout := mkLayout 100 16.

Definition heap_after : BadHeap := mkHeap (mkVA 0xffffffff90000064) (mkOldMapping (page_at 0xffffffff90000000) 1).

Lemma boot_allocate :
  heap_result (heap_allocate (ktable boot_tables) boot_heap small boot_memory demo boot_region) =
    Some (Ok 0xffffffff90000000, heap_after, mkBitmap (frame_at 0x1000) [0x80; 0x0f], mkBootstrap 0xffffffff90001000 0xffffffff90100000).
Proof. vm_compute. reflexivity. Qed.

(** Where the block starts. *)
Lemma boot_start : Virt.align_up (align small) (watermark boot_heap) = Ret (mkVA 0xffffffff90000000).
Proof. vm_compute. reflexivity. Qed.

Lemma boot_fits : heap_fits boot_region boot_heap small.
Proof. intros start Hst _. rewrite boot_start in Hst. injection Hst as <-. vm_compute. done. Qed.

(** A layout of two gigabytes is legal, but the last block of the address space that
    the heap could give ends before: the request panics. *)
Theorem heap_huge_panics :
  ∃ layout, from_size_align (2 ^ 31) 16 = Some layout ∧
    heap_allocate (ktable boot_tables) boot_heap layout boot_memory demo boot_region = Panic ArithmeticOverflow.
Proof.
  eexists. split; [vm_compute; reflexivity|]. by apply (heap_allocate_overflows boot_tables _ _ _ _ _ (mkVA 0xffffffff90000000)).
Qed.


(** The state with one block. *)
Lemma boot_with_block :
  ∃ m s v, heap_allocate (ktable boot_tables) boot_heap small boot_memory demo boot_region =
      Ret (Ok 0xffffffff90000000, heap_after, m, s, v) ∧
    s = mkBitmap (frame_at 0x1000) [0x80; 0x0f] ∧ v = mkBootstrap 0xffffffff90001000 0xffffffff90100000 ∧
    heap_inv boot_tables m s v heap_after [(0xffffffff90000000, 100)].
Proof.
  pose proof boot_allocate as Hr.
  pose proof (heap_allocate_spec boot_tables 4 boot_memory demo boot_region boot_heap [] small (proj2 boot_heap_ok)
    ltac:(lia) eq_refl ltac:(cbn; lia) boot_fits) as Hs.
  destruct (heap_allocate _ _ _ _ _ _) as [[[[[[p|e] h] m] s] v]|]; cbn [heap_result] in Hr; [|discriminate Hr..].
  injection Hr as -> -> -> ->. eexists m, _, _. split; [reflexivity|]. split; [done|]. split; [done|]. exact (proj1 Hs).
Qed.

Lemma heap_clients_witness :
  ∃ m s v, rtc (heap_step boot_tables) (boot_memory, demo, boot_region, boot_heap, [])
      (m, s, v, heap_after, [(0xffffffff90000000, 100, 16)]) ∧
    physical_of boot_tables m 0xffffffff90000000 ≠ physical_of boot_tables m 0xffffffff90000063.
Proof.
  destruct boot_with_block as (m & s & v & Ha & _). exists m, s, v.
  assert (rtc (heap_step boot_tables) (boot_memory, demo, boot_region, boot_heap, [])
      (m, s, v, heap_after, [(0xffffffff90000000, 100, 16)])) as Hs.
  { apply rtc_once, (heap_alloc boot_tables 4 small); [lia|done|cbn; lia|exact boot_fits|exact Ha]. }
  split; [exact Hs|].
  destruct (heap_clients boot_tables boot_memory demo boot_region boot_heap m s v heap_after _ (proj2 boot_heap_ok) Hs)
    as (_ & _ & _ & Hb).
  destruct (Hb (0xffffffff90000000, 100) 0xffffffff90000000 (0xffffffff90000000, 100) ltac:(by left) ltac:(cbn; lia) ltac:(by left)
    0xffffffff90000063 ltac:(cbn; lia)) as [_ Hinj]. intros E%Hinj. done.
Defined.

Lemma heap_reallocate_copies_witness :
  ∃ m (s : BitmapAllocator) (v : Bootstrap) h' bytes' m' s' v',
    heap_inv boot_tables m s v heap_after [(0xffffffff90000000, 100)] ∧
    heap_reallocate (ktable boot_tables) heap_after 0xffffffff90000000 small 200 (λ a, a mod 256) m s v =
      Ret (Ok 0xffffffff90000070, h', bytes', m', s', v') ∧
    bytes' 0xffffffff90000075 = 5 ∧ bytes' 0xffffffff90000005 = 5.
Proof.
  destruct boot_with_block as (m & s & v & _ & -> & -> & Hi). do 8 eexists.
  assert (heap_reallocate (ktable boot_tables) heap_after 0xffffffff90000000 small 200 (λ a, a mod 256) m
      (mkBitmap (frame_at 0x1000) [0x80; 0x0f]) (mkBootstrap 0xffffffff90001000 0xffffffff90100000) =
    Ret (Ok 0xffffffff90000070, mkHeap (mkVA 0xffffffff90000138) (mkOldMapping (page_at 0xffffffff90000000) 1),
      (λ a, if (0xffffffff90000070 <=? a) && (a <? 0xffffffff90000070 + 100) then (0xffffffff90000000 + (a - 0xffffffff90000070)) mod 256
            else a mod 256), m,
      mkBitmap (frame_at 0x1000) [0x80; 0x0f], mkBootstrap 0xffffffff90001000 0xffffffff90100000)) as E by reflexivity.
  split; [exact Hi|]. split; [exact E|].
  destruct (heap_reallocate_copies (V := Bootstrap) boot_tables 4 m _ _ heap_after _ 0xffffffff90000000 small 200 _ _ _ _ _ _ _ Hi
    ltac:(by left) ltac:(lia) eq_refl ltac:(lia)
    ltac:(intros start Hst [Hlt _]; vm_compute in Hst; injection Hst as <-; exfalso; revert Hlt; vm_compute; discriminate) E) as (_ & _ & Hc & Ho).
  split; [exact (Hc 5 ltac:(cbn; lia))|]. apply (Ho 0xffffffff90000005). lia.
Defined.

(** The allocator of the pages after the boot, and the heap that was made before. *)
Definition late_pages : RangedBtreeAllocator :=
  mkVAlloc (page_at 0xffffc00000000000, page_at 0xfffffffffffff000)
    (mkMap [(KRange (page_at 0xffffffff80000000) (page_at 0xffffffff80100000), 0x100);
            (KRange (page_at 0xffffffff90000000) (page_at 0xffffffff90100000), 0x100)]).

Lemma late_pages_made :
  btree_alloc (page_at 0xffffffff90000000, page_at 0xffffffff90100000) (page_at 0xffffffff80000000, page_at 0xffffffff80100000) =
    Ret late_pages.
Proof. vm_compute. reflexivity. Qed.

Lemma late_pages_inv : valloc_inv late_pages.
Proof.
  split_and!; [split; [cbn; lia|done]|split; [cbn; lia|done]|exists 0; cbn; unfold ord_key, ord_Page; cbn; lia|].
  intros s e n [[= -> -> ->]|[= -> -> ->]%list_elem_of_singleton]%elem_of_cons; split_and!; cbn; try lia; try done.
Qed.

Lemma late_heap_ok : heap_inv boot_tables boot_memory demo late_pages boot_heap [].
Proof.
  destruct (proj2 boot_heap_ok) as [[Hok _ Hr _] ? ? ? ?]. split; try done. split; try done.
  - exact late_pages_inv.
  - intros q Hq _. by apply boot_unmapped.
Qed.

Lemma heap_cannot_grow_witness :
  ∃ s v, heap_allocate (ktable boot_tables) boot_heap small boot_memory demo late_pages =
    Ret (Err AllocErr, boot_heap, boot_memory, s, v).
Proof.
  apply (heap_cannot_grow boot_tables 4 boot_memory demo late_pages boot_heap [] small (mkVA 0xffffffff90000000) late_heap_ok);
    [lia|reflexivity|cbn; lia| | |exact boot_start|vm_compute; split; congruence].
  - intros start Hst _. rewrite boot_start in Hst. injection Hst as <-. vm_compute. split; discriminate.
  - intros [_ Hno]. apply (Hno (page_at 0xffffffff90000000) 0x100); [|by split; vm_compute].
    right. by left.
Defined.
