(* ===== verification/RwLock.v ===== *)
(** * RwLock: the reader-writer lock

    [kernel_api/src/sync/rwlock.rs].  The lock is one atomic word: bit 63 for a
    writer, bit 62 for the upgradable reader, the rest counts the readers.  The
    operations are loops around one [compare_exchange_weak] ([loop_op], whose
    bodies are functions of the value the loop has read last) and single
    exchanges ([cas_op]).  A system is the word and the threads that work on it;
    [step] interleaves them at the granularity of the atomic accesses, and a weak
    exchange may fail at any time.  The atomic accesses of the word are taken to
    be totally ordered, as the ones to a single location are. *)

From stdpp Require Import base list numbers option relations.
From S2P Require Import Prelude.

Open Scope Z_scope.

Definition WRITE_BIT_MASK : Z := Z.shiftl 1 63.
Definition UPGRADEABLE_BIT_MASK : Z := Z.shiftl 1 62.
Definition READ_COUNT_MASK : Z := usize_not (Z.lor WRITE_BIT_MASK UPGRADEABLE_BIT_MASK).

(** ** The bodies of the loops

    [Ret None] is [return false]; [Ret (Some new)] goes on to exchange the value
    read for [new]. *)

Definition try_lock_shared (old_value : Z) : outcome (option Z) :=
  let old_normal_count := Z.land old_value READ_COUNT_MASK in
  if old_normal_count =? READ_COUNT_MASK then Panic AssertionFailed else
  if negb (Z.land old_value WRITE_BIT_MASK =? 0) then Ret None else
  n ← usize_add old_normal_count 1;
  Ret (Some (Z.lor n (Z.land old_value UPGRADEABLE_BIT_MASK))).

Definition unlock_shared (old_value : Z) : outcome (option Z) :=
  let old_normal_count := Z.land old_value (usize_not UPGRADEABLE_BIT_MASK) in
  if negb (Z.land old_value WRITE_BIT_MASK =? 0) then Panic AssertionFailed else
  n ← usize_sub old_normal_count 1;
  Ret (Some (Z.lor n (Z.land old_value UPGRADEABLE_BIT_MASK))).

Definition try_lock_upgradable (old_value : Z) : outcome (option Z) :=
  if negb (Z.land old_value WRITE_BIT_MASK =? 0) then Ret None else
  if negb (Z.land old_value UPGRADEABLE_BIT_MASK =? 0) then Ret None else
  Ret (Some (Z.lor old_value UPGRADEABLE_BIT_MASK)).

Definition unlock_upgradable (old_value : Z) : outcome (option Z) :=
  if negb (Z.land old_value WRITE_BIT_MASK =? 0) then Panic AssertionFailed else
  Ret (Some (Z.land old_value (usize_not UPGRADEABLE_BIT_MASK))).

Definition downgrade_upgradable (old_value : Z) : outcome (option Z) :=
  if negb (Z.land old_value WRITE_BIT_MASK =? 0) then Panic AssertionFailed else
  let old_normal_count := Z.land old_value READ_COUNT_MASK in
  if old_normal_count =? READ_COUNT_MASK then Panic AssertionFailed else
  n ← usize_add old_normal_count 1;
  Ret (Some n).

(** ** Threads *)

(** What a thread holds; [Crashed] is a thread that panicked. *)
Inductive mode := Unheld | Shared | Upgradable | Exclusive | Crashed.

Inductive loop_op := TryLockShared | UnlockShared | TryLockUpgradable | UnlockUpgradable | DowngradeUpgradable.

Inductive cas_op := TryLockExclusive | UnlockExclusive | Downgrade | TryUpgrade | DowngradeToUpgradable.

#[global] Instance mode_eq_dec : EqDecision mode.
Proof. solve_decision. Defined.

Definition body (op : loop_op) : Z → outcome (option Z) :=
  match op with
  | TryLockShared => try_lock_shared
  | UnlockShared => unlock_shared
  | TryLockUpgradable => try_lock_upgradable
  | UnlockUpgradable => unlock_upgradable
  | DowngradeUpgradable => downgrade_upgradable
  end.

(** The guard a loop is called with, and the one it leaves when the exchange
    succeeds. *)
Definition loop_before (op : loop_op) : mode :=
  match op with
  | TryLockShared | TryLockUpgradable => Unheld
  | UnlockShared => Shared
  | UnlockUpgradable | DowngradeUpgradable => Upgradable
  end.

Definition loop_after (op : loop_op) : mode :=
  match op with
  | TryLockShared | DowngradeUpgradable => Shared
  | TryLockUpgradable => Upgradable
  | UnlockShared | UnlockUpgradable => Unheld
  end.

(** The single exchanges: the guard before, the values exchanged, the guard
    after a success and after a failure ([expect] panics). *)
Definition cas_before (op : cas_op) : mode :=
  match op with
  | TryLockExclusive => Unheld
  | UnlockExclusive | Downgrade | DowngradeToUpgradable => Exclusive
  | TryUpgrade => Upgradable
  end.

Definition cas_values (op : cas_op) : Z * Z :=
  match op with
  | TryLockExclusive => (0, WRITE_BIT_MASK)
  | UnlockExclusive => (WRITE_BIT_MASK, 0)
  | Downgrade => (WRITE_BIT_MASK, 1)
  | TryUpgrade => (UPGRADEABLE_BIT_MASK, WRITE_BIT_MASK)
  | DowngradeToUpgradable => (WRITE_BIT_MASK, UPGRADEABLE_BIT_MASK)
  end.

Definition cas_after (op : cas_op) : mode :=
  match op with
  | TryLockExclusive | TryUpgrade => Exclusive
  | UnlockExclusive => Unheld
  | Downgrade => Shared
  | DowngradeToUpgradable => Upgradable
  end.

Definition cas_weak (op : cas_op) : bool :=
  match op with TryLockExclusive | TryUpgrade => true | _ => false end.

Definition cas_failed (op : cas_op) : mode := if cas_weak op then cas_before op else Crashed.

(** A thread is between calls, or in a loop with the value it has read. *)
Inductive thread := At (m : mode) | Loop (op : loop_op) (old_value : Z).

Definition held (t : thread) : mode :=
  match t with
  | At m => m
  | Loop op _ => loop_before op
  end.

Record system := mkSystem { word : Z; threads : list thread }.

Definition set_thread (s : system) (i : nat) (w : Z) (t : thread) : system :=
  mkSystem w (<[i := t]> (threads s)).

Inductive step : system → system → Prop :=
  (** [load], the start of a loop *)
  | step_load s i op : threads s !! i = Some (At (loop_before op)) →
      step s (set_thread s i (word s) (Loop op (word s)))
  | step_exchange s i op old new : threads s !! i = Some (Loop op old) →
      body op old = Ret (Some new) → word s = old →
      step s (set_thread s i new (At (loop_after op)))
  (** the exchange failed, or failed spuriously *)
  | step_retry s i op old new : threads s !! i = Some (Loop op old) →
      body op old = Ret (Some new) → step s (set_thread s i (word s) (Loop op (word s)))
  | step_refuse s i op old : threads s !! i = Some (Loop op old) →
      body op old = Ret None → step s (set_thread s i (word s) (At (loop_before op)))
  | step_panic s i op old r : threads s !! i = Some (Loop op old) →
      body op old = Panic r → step s (set_thread s i (word s) (At Crashed))
  | step_cas s i op : threads s !! i = Some (At (cas_before op)) →
      word s = (cas_values op).1 → step s (set_thread s i (cas_values op).2 (At (cas_after op)))
  | step_cas_fail s i op : threads s !! i = Some (At (cas_before op)) →
      word s ≠ (cas_values op).1 ∨ cas_weak op = true →
      step s (set_thread s i (word s) (At (cas_failed op))).

(** [n] threads and a lock that nobody holds. *)
Definition initial (n : nat) : system := mkSystem 0 (replicate n (At Unheld)).

(** ** The word of the lock *)

(** [r] readers, an upgradable reader, a writer. *)
Definition enc (r : Z) (u w : bool) : Z :=
  r + (if u then 2 ^ 62 else 0) + (if w then 2 ^ 63 else 0).

Lemma masks : WRITE_BIT_MASK = 2 ^ 63 ∧ UPGRADEABLE_BIT_MASK = 2 ^ 62 ∧ READ_COUNT_MASK = Z.ones 62.
Proof. by vm_compute. Qed.

Lemma land_pow2 x k : 0 ≤ k → Z.land x (2 ^ k) = if Z.testbit x k then 2 ^ k else 0.
Proof.
  intros Hk. apply Z.bits_inj'. intros i Hi. rewrite Z.land_spec, Z.pow2_bits_eqb by done.
  destruct (Z.eqb_spec k i) as [->|].
  - rewrite andb_true_r. destruct (Z.testbit x i) eqn:E.
    + by rewrite Z.pow2_bits_true.
    + by rewrite Z.testbit_0_l.
  - rewrite andb_false_r. destruct (Z.testbit x k).
    + by rewrite Z.pow2_bits_false by lia.
    + by rewrite Z.testbit_0_l.
Qed.

Lemma enc_testbit r u w :
  0 ≤ r < 2 ^ 62 → Z.testbit (enc r u w) 62 = u ∧ Z.testbit (enc r u w) 63 = w.
Proof.
  intros Hr. unfold enc. split; apply Z.b2z_inj; rewrite Z.testbit_spec' by lia;
    destruct u, w; cbn [Z.b2z]; Z.div_mod_to_equations; lia.
Qed.

Lemma enc_land r u w :
  0 ≤ r < 2 ^ 62 →
  Z.land (enc r u w) WRITE_BIT_MASK = (if w then 2 ^ 63 else 0) ∧
  Z.land (enc r u w) UPGRADEABLE_BIT_MASK = (if u then 2 ^ 62 else 0) ∧
  Z.land (enc r u w) READ_COUNT_MASK = r.
Proof.
  intros Hr. destruct masks as (-> & -> & ->). destruct (enc_testbit r u w Hr) as [Hu Hw].
  rewrite !land_pow2, Hu, Hw by lia. split_and!; [done|done|].
  rewrite Z.land_ones by lia. unfold enc. destruct u, w; Z.div_mod_to_equations; lia.
Qed.

Lemma lor_upgradable r u :
  0 ≤ r < 2 ^ 62 → Z.lor r (if u : bool then 2 ^ 62 else 0) = enc r u false.
Proof.
  intros Hr. unfold enc. destruct u; [|by rewrite Z.lor_0_r, !Z.add_0_r].
  assert (Z.land r (2 ^ 62) = 0) as E.
  { rewrite land_pow2, (testbit_above 62) by lia. done. }
  rewrite <-Z.lxor_lor, <-Z.add_nocarry_lxor by done. lia.
Qed.

Lemma clear_upgradable r u :
  0 ≤ r < 2 ^ 62 → Z.land (enc r u false) (usize_not UPGRADEABLE_BIT_MASK) = r.
Proof.
  intros Hr. destruct masks as (_ & -> & _). rewrite <-(lor_upgradable r u Hr).
  apply Z.bits_inj'. intros i Hi. rewrite Z.land_spec, Z.lor_spec, usize_not_spec by done.
  assert (∀ b : bool, Z.testbit (if b then 2 ^ 62 else 0) i = b && (62 =? i)) as Hpow.
  { intros [|]; [by rewrite Z.pow2_bits_eqb by lia|by rewrite Z.testbit_0_l]. }
  rewrite (Hpow u), (Hpow true). destruct (Z.eqb_spec 62 i) as [<-|].
  - rewrite (testbit_above 62 r) by lia. by destruct u.
  - rewrite andb_false_r, orb_false_r. destruct (Z.ltb_spec i 64); simpl; [by rewrite andb_true_r|].
    by rewrite (testbit_above 62 r) by lia.
Qed.

(** *** The bodies on a word that encodes a state *)

Lemma try_lock_shared_enc r u w :
  0 ≤ r < 2 ^ 62 - 1 →
  try_lock_shared (enc r u w) = Ret (if w then None else Some (enc (r + 1) u false)).
Proof.
  intros Hr. unfold try_lock_shared. destruct (enc_land r u w ltac:(lia)) as (-> & -> & ->).
  destruct masks as (_ & _ & ->). rewrite (proj2 (Z.eqb_neq r _)) by (rewrite Z.ones_equiv; lia).
  destruct w; [done|]. simpl. rewrite usize_add_ok by lia. simpl. by rewrite lor_upgradable by lia.
Qed.

Lemma unlock_shared_enc r u :
  1 ≤ r < 2 ^ 62 → unlock_shared (enc r u false) = Ret (Some (enc (r - 1) u false)).
Proof.
  intros Hr. unfold unlock_shared. rewrite clear_upgradable by lia.
  destruct (enc_land r u false ltac:(lia)) as (-> & -> & _). simpl.
  rewrite usize_sub_ok by lia. simpl. by rewrite lor_upgradable by lia.
Qed.

Lemma try_lock_upgradable_enc r u w :
  0 ≤ r < 2 ^ 62 →
  try_lock_upgradable (enc r u w) = Ret (if w || u then None else Some (enc r true false)).
Proof.
  intros Hr. unfold try_lock_upgradable. destruct (enc_land r u w Hr) as (-> & -> & _).
  destruct w; [done|]. destruct u; [done|]. simpl. destruct masks as (_ & -> & _).
  unfold enc at 1. rewrite !Z.add_0_r. by rewrite <-(lor_upgradable r true).
Qed.

Lemma unlock_upgradable_enc r u :
  0 ≤ r < 2 ^ 62 → unlock_upgradable (enc r u false) = Ret (Some (enc r false false)).
Proof.
  intros Hr. unfold unlock_upgradable. destruct (enc_land r u false Hr) as (-> & _ & _). simpl.
  rewrite clear_upgradable by done. unfold enc. by rewrite !Z.add_0_r.
Qed.

Lemma downgrade_upgradable_enc r u :
  0 ≤ r < 2 ^ 62 - 1 → downgrade_upgradable (enc r u false) = Ret (Some (enc (r + 1) false false)).
Proof.
  intros Hr. unfold downgrade_upgradable. destruct (enc_land r u false ltac:(lia)) as (-> & _ & ->).
  destruct masks as (_ & _ & ->). rewrite (proj2 (Z.eqb_neq r _)) by (rewrite Z.ones_equiv; lia). simpl.
  rewrite usize_add_ok by lia. unfold enc. by rewrite !Z.add_0_r.
Qed.

(** ** The invariant *)

Definition count (m : mode) (ts : list thread) : Z := Z.of_nat (length (filter (λ t, held t = m) ts)).

(** A value that a loop has read while its thread held its guard. *)
Definition old_ok (n : Z) (op : loop_op) (old : Z) : Prop :=
  ∃ r u w, old = enc r u w ∧ 0 ≤ r ≤ n ∧
    match loop_before op with
    | Shared => 1 ≤ r ∧ w = false
    | Upgradable => u = true ∧ w = false
    | _ => True
    end.

Definition thread_ok (n : Z) (t : thread) : Prop :=
  match t with
  | At m => m ≠ Crashed
  | Loop op old => old_ok n op old
  end.

(** The word says who holds what; a writer is alone. *)
Definition word_ok (x : Z) (ts : list thread) : Prop :=
  ∃ u w, x = enc (count Shared ts) u w ∧
    count Upgradable ts = Z.b2z u ∧ count Exclusive ts = Z.b2z w ∧
    (w = true → count Shared ts = 0 ∧ u = false).

Definition inv (n : nat) (s : system) : Prop :=
  length (threads s) = n ∧ Forall (thread_ok (Z.of_nat n)) (threads s) ∧ word_ok (word s) (threads s).

Lemma count_insert m ts i t t' :
  ts !! i = Some t →
  count m (<[i := t']> ts) =
  count m ts - Z.b2z (bool_decide (held t = m)) + Z.b2z (bool_decide (held t' = m)).
Proof.
  unfold count. revert i. induction ts as [|t0 ts IH]; intros i Hi; [done|]. destruct i as [|i]; simpl in Hi.
  - injection Hi as ->. change (<[0%nat := t']> (t :: ts)) with (t' :: ts). rewrite !filter_cons.
    repeat case_decide; repeat case_bool_decide; cbn [length Z.b2z]; lia || done.
  - change (<[S i := t']> (t0 :: ts)) with (t0 :: <[i := t']> ts). rewrite !filter_cons.
    specialize (IH i Hi). destruct (decide (held t0 = m)); cbn [length]; lia.
Qed.

Lemma count_bounds m ts : 0 ≤ count m ts ≤ Z.of_nat (length ts).
Proof. unfold count. pose proof (length_filter (λ t, held t = m) ts). lia. Qed.

Lemma count_positive m ts i t : ts !! i = Some t → held t = m → 1 ≤ count m ts.
Proof.
  intros Hi Hm. unfold count. assert (t ∈ filter (λ t, held t = m) ts) as Hin.
  { apply list_elem_of_filter. split; [done|]. by eapply list_elem_of_lookup_2. }
  destruct (filter _ ts); [set_solver|simpl; lia].
Qed.

(** Changing one thread and the word together. *)
Lemma inv_update n s i t t' x :
  inv n s → threads s !! i = Some t → thread_ok (Z.of_nat n) t' →
  word_ok x (<[i := t']> (threads s)) → inv n (set_thread s i x t').
Proof.
  intros (Hlen & Hts & _) Hi Ht Hw. split_and!; simpl; [by rewrite length_insert| |done].
  by apply Forall_insert.
Qed.

(** Nothing changes hands. *)
Lemma word_ok_same x ts i t t' :
  ts !! i = Some t → held t' = held t → word_ok x ts → word_ok x (<[i := t']> ts).
Proof.
  intros Hi Hh (u & w & Hx & Hu & Hw & Hex). exists u, w.
  rewrite !(count_insert _ _ _ _ _ Hi), Hh. split_and!; [rewrite Hx; f_equal; lia|lia|lia|].
  intros ->. destruct Hex; [done|]. split; [lia|done].
Qed.

Lemma old_ok_now n s i t op :
  inv n s → threads s !! i = Some t → held t = loop_before op → old_ok (Z.of_nat n) op (word s).
Proof.
  intros (Hlen & _ & (u & w & Hx & Hu & Hw & Hex)) Hi Hh.
  pose proof (count_bounds Shared (threads s)). pose proof (count_positive _ _ _ _ Hi Hh) as Hpos.
  exists (count Shared (threads s)), u, w. split_and!; [done|lia|lia|].
  destruct (loop_before op); try done.
  - split; [done|]. destruct w; [|done]. destruct (Hex eq_refl). lia.
  - destruct u; [|simpl in *; lia]. split; [done|]. destruct w; [|done]. by destruct (Hex eq_refl).
Qed.

(** What an exchange writes. *)
Definition exchanged (op : loop_op) (r : Z) (u w : bool) : option Z :=
  match op with
  | TryLockShared => if w then None else Some (enc (r + 1) u false)
  | UnlockShared => Some (enc (r - 1) u false)
  | TryLockUpgradable => if w || u then None else Some (enc r true false)
  | UnlockUpgradable => Some (enc r false false)
  | DowngradeUpgradable => Some (enc (r + 1) false false)
  end.

(** With fewer than [2^62 - 1] threads no loop panics. *)
Lemma body_ok n op r u w :
  n < 2 ^ 62 - 1 → 0 ≤ r ≤ n →
  match loop_before op with
  | Shared => 1 ≤ r ∧ w = false
  | Upgradable => u = true ∧ w = false
  | _ => True
  end →
  body op (enc r u w) = Ret (exchanged op r u w).
Proof.
  intros Hn Hr. destruct op; simpl; intros Hop.
  - rewrite try_lock_shared_enc by lia. by destruct w.
  - destruct Hop as [? ->]. by rewrite unlock_shared_enc by lia.
  - rewrite try_lock_upgradable_enc by lia. by destruct (w || u).
  - destruct Hop as [-> ->]. by rewrite unlock_upgradable_enc by lia.
  - destruct Hop as [-> ->]. by rewrite downgrade_upgradable_enc by lia.
Qed.

(** The counts after one thread goes from [t] to [m]. *)
Lemma counts_after ts i t m :
  ts !! i = Some t →
  ∀ m', count m' (<[i := At m]> ts) =
    count m' ts - Z.b2z (bool_decide (held t = m')) + Z.b2z (bool_decide (m = m')).
Proof. intros Hi m'. by rewrite (count_insert _ _ _ _ _ Hi). Qed.

Lemma exchange_word_ok n s i op new :
  Z.of_nat n < 2 ^ 62 - 1 → inv n s → threads s !! i = Some (Loop op (word s)) →
  body op (word s) = Ret (Some new) →
  word_ok new (<[i := At (loop_after op)]> (threads s)).
Proof.
  intros Hn Hinv Hi Hbody. pose proof Hinv as (Hlen & _ & (u & w & Hx & Hu & Hw & Hex)).
  pose proof (old_ok_now _ s i _ op Hinv Hi eq_refl) as Hold.
  pose proof (count_bounds Shared (threads s)). pose proof (count_bounds Upgradable (threads s)).
  pose proof (count_bounds Exclusive (threads s)).
  pose proof (count_positive (loop_before op) _ _ _ Hi eq_refl) as Hpos.
  assert (match loop_before op with
    | Shared => 1 ≤ count Shared (threads s) ∧ w = false
    | Upgradable => u = true ∧ w = false | _ => True end) as Hop.
  { destruct op; simpl in *; try done; destruct u, w; simpl in *; try lia; try done; by destruct (Hex eq_refl). }
  rewrite Hx, (body_ok (Z.of_nat n) op) in Hbody by (done || lia). injection Hbody as Hnew.
  pose proof (counts_after _ _ _ (loop_after op) Hi) as Hc.
  pose proof (Hc Shared) as Hc1. pose proof (Hc Upgradable) as Hc2. pose proof (Hc Exclusive) as Hc3. clear Hc.
  unfold word_ok. rewrite Hc1, Hc2, Hc3. clear Hc1 Hc2 Hc3 Hold.
  destruct op; simpl in Hnew, Hop |- *; repeat case_bool_decide; try done; cbn [Z.b2z].
  - destruct w; [done|]. injection Hnew as <-. exists u, false. split_and!; [f_equal; lia|lia|simpl in *; lia|done].
  - destruct Hop as [? ->]. injection Hnew as <-. exists u, false. split_and!; [f_equal; lia|lia|simpl in *; lia|done].
  - destruct w, u; try done. injection Hnew as <-. exists true, false.
    split_and!; [f_equal; lia|simpl in *; lia|simpl in *; lia|done].
  - destruct Hop as [-> ->]. injection Hnew as <-. exists false, false.
    split_and!; [f_equal; lia|simpl in *; lia|simpl in *; lia|done].
  - destruct Hop as [-> ->]. injection Hnew as <-. exists false, false.
    split_and!; [f_equal; lia|simpl in *; lia|simpl in *; lia|done].
Qed.

Lemma enc_inj r u w r' u' w' :
  0 ≤ r < 2 ^ 62 → 0 ≤ r' < 2 ^ 62 → enc r u w = enc r' u' w' → r = r' ∧ u = u' ∧ w = w'.
Proof.
  intros Hr Hr' E. destruct (enc_testbit r u w Hr) as [Hu Hw], (enc_testbit r' u' w' Hr') as [Hu' Hw'].
  rewrite E in Hu, Hw. assert (u = u') as -> by congruence. assert (w = w') as -> by congruence.
  unfold enc in E. split_and!; [lia|done|done].
Qed.

Lemma cas_values_enc op :
  cas_values op =
  match op with
  | TryLockExclusive => (enc 0 false false, enc 0 false true)
  | UnlockExclusive => (enc 0 false true, enc 0 false false)
  | Downgrade => (enc 0 false true, enc 1 false false)
  | TryUpgrade => (enc 0 true false, enc 0 false true)
  | DowngradeToUpgradable => (enc 0 false true, enc 0 true false)
  end.
Proof. by destruct op. Qed.

Lemma cas_word_ok n s i op :
  Z.of_nat n < 2 ^ 62 - 1 → inv n s → threads s !! i = Some (At (cas_before op)) →
  word s = (cas_values op).1 →
  word_ok (cas_values op).2 (<[i := At (cas_after op)]> (threads s)).
Proof.
  intros Hn (Hlen & _ & (u & w & Hx & Hu & Hw & Hex)) Hi Hword.
  pose proof (count_bounds Shared (threads s)) as Hb.
  pose proof (counts_after _ _ _ (cas_after op) Hi) as Hc.
  pose proof (Hc Shared) as Hc1. pose proof (Hc Upgradable) as Hc2. pose proof (Hc Exclusive) as Hc3. clear Hc.
  unfold word_ok. rewrite Hc1, Hc2, Hc3. clear Hc1 Hc2 Hc3. rewrite Hx in Hword.
  rewrite cas_values_enc in *.
  destruct op; cbn [fst snd] in *; apply enc_inj in Hword as (Hr & -> & ->); try lia;
    rewrite Hr, Hu, Hw; simpl; repeat case_bool_decide; try done; cbn [Z.b2z].
  - exists false, true. by split_and!.
  - exists false, false. by split_and!.
  - exists false, false. by split_and!.
  - exists false, true. by split_and!.
  - exists true, false. by split_and!.
Qed.

Lemma loop_never_panics n s i op old r :
  Z.of_nat n < 2 ^ 62 - 1 → inv n s → threads s !! i = Some (Loop op old) → body op old ≠ Panic r.
Proof.
  intros Hn (_ & Hts & _) Hi. rewrite Forall_lookup in Hts. specialize (Hts _ _ Hi).
  destruct Hts as (x & u & w & -> & Hx & Hop). by rewrite (body_ok (Z.of_nat n)).
Qed.

Lemma strong_cas_succeeds n s i op :
  inv n s → threads s !! i = Some (At (cas_before op)) → cas_weak op = false →
  word s = (cas_values op).1.
Proof.
  intros (_ & _ & (u & w & Hx & Hu & Hw & Hex)) Hi Hweak.
  pose proof (count_positive _ _ _ _ Hi eq_refl) as Hpos. simpl in Hpos. rewrite cas_values_enc, Hx.
  destruct op; try done; simpl in *; (destruct w; [|simpl in *; lia]); destruct (Hex eq_refl) as [-> ->]; done.
Qed.

Lemma step_inv n s s' : Z.of_nat n < 2 ^ 62 - 1 → step s s' → inv n s → inv n s'.
Proof.
  intros Hn Hstep Hinv.
  destruct Hstep as [s i op Hi|s i op old new Hi Hb Hword|s i op old new Hi Hb|s i op old Hi Hb
    |s i op old r Hi Hb|s i op Hi Hword|s i op Hi Hfail].
  - eapply inv_update; [done..| |].
    + by eapply old_ok_now.
    + eapply word_ok_same; [done|done|apply Hinv].
  - subst old. eapply inv_update; [done..| |by eapply exchange_word_ok]. by destruct op.
  - eapply inv_update; [done..| |].
    + by eapply old_ok_now.
    + eapply word_ok_same; [done|done|apply Hinv].
  - eapply inv_update; [done..|by destruct op|]. eapply word_ok_same; [done|done|apply Hinv].
  - by destruct (loop_never_panics n s i op old r Hn Hinv Hi).
  - eapply inv_update; [done..|by destruct op|by eapply cas_word_ok].
  - destruct (cas_weak op) eqn:Ew; [|destruct Hfail as [Hf|]; [|done]; by destruct Hf; eapply strong_cas_succeeds].
    unfold cas_failed. rewrite Ew. eapply inv_update; [done..|by destruct op|].
    eapply word_ok_same; [done|done|apply Hinv].
Qed.

Lemma initial_inv n : inv n (initial n).
Proof.
  split_and!; simpl.
  - apply length_replicate.
  - by apply Forall_replicate.
  - assert (∀ m, m ≠ Unheld → count m (replicate n (At Unheld)) = 0) as Hc.
    { intros m Hm. unfold count. induction n as [|n IH]; [done|]. cbn [replicate]. rewrite filter_cons_False; [done|].
      simpl. congruence. }
    exists false, false. by rewrite !Hc.
Qed.

Lemma reachable_inv n s : Z.of_nat n < 2 ^ 62 - 1 → rtc step (initial n) s → inv n s.
Proof.
  intros Hn Hr. pose proof (initial_inv n) as Hinv. induction Hr as [|x y z Hxy _ IH]; [done|].
  apply IH. by eapply step_inv.
Qed.

Lemma count_two m ts i j ti tj :
  ts !! i = Some ti → ts !! j = Some tj → i ≠ j → held ti = m → held tj = m → 2 ≤ count m ts.
Proof.
  intros Hi Hj Hij Hm Hm'. set (other := if decide (m = Crashed) then Unheld else Crashed).
  assert (other ≠ m) as Ho by (unfold other; case_decide; congruence).
  pose proof (counts_after _ _ _ other Hi m) as Hc.
  rewrite bool_decide_eq_true_2, bool_decide_eq_false_2 in Hc by done. simpl in Hc.
  assert (<[i := At other]> ts !! j = Some tj) as Hj' by by rewrite list_lookup_insert_ne.
  pose proof (count_positive _ _ _ _ Hj' Hm'). lia.
Qed.

(** ** Properties *)

(** C4. However the threads are interleaved and whenever weak exchanges fail, a
    writer is alone: no other thread holds the lock in any mode; there is at most
    one upgradable reader; and no operation ever panics. *)
Theorem rwlock_exclusion n s i j ti tj :
  Z.of_nat n < 2 ^ 62 - 1 → rtc step (initial n) s →
  threads s !! i = Some ti → threads s !! j = Some tj → i ≠ j →
  held ti ≠ Crashed ∧
  (held ti = Exclusive → held tj = Unheld) ∧
  (held ti = Upgradable → held tj = Unheld ∨ held tj = Shared).
Proof.
  intros Hn Hr Hi Hj Hij. destruct (reachable_inv n s Hn Hr) as (_ & Hts & (u & w & _ & Hu & Hw & Hex)).
  rewrite Forall_lookup in Hts. pose proof (Hts _ _ Hi) as Hti. pose proof (Hts _ _ Hj) as Htj.
  assert (∀ t, thread_ok (Z.of_nat n) t → held t ≠ Crashed) as Hnc by (intros [m|[] ?]; simpl; done).
  pose proof (λ m, count_two m _ _ _ _ _ Hi Hj Hij) as Htwo.
  split; [by apply Hnc|]. split; intros Hm.
  - assert (w = true) as ->.
    { pose proof (count_positive _ _ _ _ Hi Hm). destruct w; [done|simpl in *; lia]. }
    destruct (Hex eq_refl) as [Hs ->].
    destruct (held tj) eqn:E; [done|..|by apply Hnc in E].
    + pose proof (count_positive _ _ _ _ Hj E). lia.
    + pose proof (count_positive _ _ _ _ Hj E). simpl in *. lia.
    + pose proof (Htwo _ Hm eq_refl). simpl in *. lia.
  - destruct (held tj) eqn:E; [by left|by right|..|by apply Hnc in E].
    + pose proof (Htwo _ Hm eq_refl). destruct u; simpl in *; lia.
    + pose proof (count_positive _ _ _ _ Hj E). assert (w = true) as -> by (destruct w; [done|simpl in *; lia]).
      destruct (Hex eq_refl) as [_ ->]. pose proof (count_positive _ _ _ _ Hi Hm). simpl in *. lia.
Qed.

Lemma rwlock_exclusion_witness :
  held (At Exclusive) ≠ Crashed ∧ (held (At Exclusive) = Exclusive → held (Loop TryLockShared WRITE_BIT_MASK) = Unheld) ∧
  (held (At Exclusive) = Upgradable → held (Loop TryLockShared WRITE_BIT_MASK) = Unheld ∨
    held (Loop TryLockShared WRITE_BIT_MASK) = Shared).
Proof.
  apply (rwlock_exclusion 2 (mkSystem WRITE_BIT_MASK [At Exclusive; Loop TryLockShared WRITE_BIT_MASK]) 0 1).
  - reflexivity.
  - eapply rtc_l; [apply (step_cas (initial 2) 0 TryLockExclusive); reflexivity|].
    eapply rtc_l; [apply (step_load (mkSystem WRITE_BIT_MASK [At Exclusive; At Unheld]) 1 TryLockShared); reflexivity|].
    apply rtc_refl.
  - reflexivity.
  - reflexivity.
  - discriminate.
Defined.

(** The word always tells who holds the lock: its low bits are the number
    of shared guards, bit 62 is set exactly when there is an upgradable guard and
    bit 63 exactly when there is an exclusive one. *)
Theorem rwlock_word_counts n s :
  Z.of_nat n < 2 ^ 62 - 1 → rtc step (initial n) s →
  Z.land (word s) READ_COUNT_MASK = count Shared (threads s) ∧
  (Z.land (word s) UPGRADEABLE_BIT_MASK ≠ 0 ↔ count Upgradable (threads s) = 1) ∧
  (Z.land (word s) WRITE_BIT_MASK ≠ 0 ↔ count Exclusive (threads s) = 1).
Proof.
  intros Hn Hr. destruct (reachable_inv n s Hn Hr) as (Hlen & _ & (u & w & -> & -> & -> & _)).
  pose proof (count_bounds Shared (threads s)).
  destruct (enc_land (count Shared (threads s)) u w ltac:(lia)) as (-> & -> & ->).
  by destruct u, w.
Qed.

Lemma rwlock_word_counts_witness :
  let s := mkSystem (enc 1 true false) [At Shared; At Upgradable] in
  Z.land (word s) READ_COUNT_MASK = count Shared (threads s).
Proof.
  intros s. destruct (rwlock_word_counts 2 s) as [Hread _]; [reflexivity| |exact Hread].
  eapply rtc_l; [apply (step_load (initial 2) 0 TryLockShared); reflexivity|].
  eapply rtc_l; [apply (step_exchange (mkSystem 0 [Loop TryLockShared 0; At Unheld]) 0 TryLockShared 0 1); vm_compute; reflexivity|].
  eapply rtc_l; [apply (step_load (mkSystem 1 [At Shared; At Unheld]) 1 TryLockUpgradable); reflexivity|].
  eapply rtc_l; [apply (step_exchange (mkSystem 1 [At Shared; Loop TryLockUpgradable 1]) 1 TryLockUpgradable 1 (enc 1 true false));
    vm_compute; reflexivity|].
  apply rtc_refl.
Defined.
