(* ===== verification/Interrupts.v ===== *)
(** * Interrupts: the interrupt flag of a core

    The two operations of [kernel/src/hal/arch/amd64/mod.rs] that the locks use,
    as functions of the interrupt flag of the core they run on. *)

From stdpp Require Import base numbers.
From S2P Require Import Prelude.

Open Scope Z_scope.

(** [get_and_disable_interrupts]: [flags & 0x0200], and the flag is off after. *)
Definition get_and_disable_interrupts (interrupts : bool) : Z * bool :=
  (if interrupts then 0x200 else 0, false).

(** [set_interrupts]. *)
Definition set_interrupts (old_state : Z) (interrupts : bool) : bool :=
  if negb (old_state =? 0) then true else interrupts.
