(* ===== verification/Spinlock.v ===== *)
(** * Spinlock: the mutex of the kernel

    [kernel_api/src/sync/mutex.rs] with the interrupt flag of
    [kernel/src/hal/arch/amd64/mod.rs].  The lock switches the interrupts of its
    core off before it spins and puts back what it found when it is released.
    [spin_step] interleaves the cores at the granularity of the accesses to
    shared memory; a weak exchange may fail at any time.  A core that is between
    two calls may switch its interrupts on and off as it likes. *)

From stdpp Require Import base list numbers option relations.
From S2P Require Import Prelude Interrupts.

Open Scope Z_scope.

Inductive State := Unlocked | Locked.

#[global] Instance State_eq_dec : EqDecision State.
Proof. solve_decision. Defined.

Definition const_into_u8 (s : State) : Z := match s with Unlocked => 0 | Locked => 1 end.

Definition const_from_u8 (value : Z) : result State unit :=
  if value =? 0 then Ok Unlocked else if value =? 1 then Ok Locked else Err tt.

(** ** Cores *)

(** Where a core is in [lock], [try_lock] and [unlock]; [was] is the interrupt
    flag it came with. *)
Inductive pc :=
  | Idle
  | Spinning (irq_state : Z) (was : bool)      (* lock: interrupts are off *)
  | Trying (irq_state : Z) (was : bool)        (* try_lock: interrupts are off *)
  | Acquired (irq_state : Z) (was : bool)      (* exchanged, irq_state not stored yet *)
  | Holding (was : bool)
  | Releasing (old_irq_state : Z) (was : bool) (* unlock: irq_state loaded *)
  | Restoring (old_irq_state : Z) (was : bool) (* unlocked, interrupts not restored yet *)
  | Refused (irq_state : Z) (was : bool)       (* try_lock failed, interrupts not restored yet *)
  | Crashed.

Record core := mkCore { interrupts : bool; at_ : pc }.

(** [RawSpinlock] and the cores that use it. *)
Record RawSpinlock := mkLock { state : Z; irq_state : Z; cores : list core }.

Definition INIT (cs : list core) : RawSpinlock := mkLock (const_into_u8 Unlocked) 0 cs.

Definition set_core (l : RawSpinlock) (i : nat) (st irq : Z) (c : core) : RawSpinlock :=
  mkLock st irq (<[i := c]> (cores l)).

(** [unlock] after the swap: [State::try_from(old_state).expect(..)], and a lock
    that was not locked is [unreachable!()]. *)
Definition after_swap (old_state old_irq_state : Z) (was : bool) : pc :=
  match const_from_u8 old_state with
  | Ok Locked => Restoring old_irq_state was
  | _ => Crashed
  end.

Inductive spin_step : RawSpinlock → RawSpinlock → Prop :=
  | spin_toggle l i b b' : cores l !! i = Some (mkCore b Idle) →
      spin_step l (set_core l i (state l) (irq_state l) (mkCore b' Idle))
  | spin_lock l i b : cores l !! i = Some (mkCore b Idle) →
      let '(st, b') := get_and_disable_interrupts b in
      spin_step l (set_core l i (state l) (irq_state l) (mkCore b' (Spinning st b)))
  | spin_try_lock l i b : cores l !! i = Some (mkCore b Idle) →
      let '(st, b') := get_and_disable_interrupts b in
      spin_step l (set_core l i (state l) (irq_state l) (mkCore b' (Trying st b)))
  | spin_exchange l i b st was : cores l !! i = Some (mkCore b (Spinning st was)) →
      state l = const_into_u8 Unlocked →
      spin_step l (set_core l i (const_into_u8 Locked) (irq_state l) (mkCore b (Acquired st was)))
  | spin_again l i b st was : cores l !! i = Some (mkCore b (Spinning st was)) →
      spin_step l (set_core l i (state l) (irq_state l) (mkCore b (Spinning st was)))
  | spin_try_exchange l i b st was : cores l !! i = Some (mkCore b (Trying st was)) →
      state l = const_into_u8 Unlocked →
      spin_step l (set_core l i (const_into_u8 Locked) (irq_state l) (mkCore b (Acquired st was)))
  | spin_try_fail l i b st was : cores l !! i = Some (mkCore b (Trying st was)) →
      state l ≠ const_into_u8 Unlocked →
      spin_step l (set_core l i (state l) (irq_state l) (mkCore b (Refused st was)))
  | spin_try_restore l i b st was : cores l !! i = Some (mkCore b (Refused st was)) →
      spin_step l (set_core l i (state l) (irq_state l) (mkCore (set_interrupts st b) Idle))
  | spin_store l i b st was : cores l !! i = Some (mkCore b (Acquired st was)) →
      spin_step l (set_core l i (state l) st (mkCore b (Holding was)))
  | spin_unlock l i b was : cores l !! i = Some (mkCore b (Holding was)) →
      spin_step l (set_core l i (state l) (irq_state l) (mkCore b (Releasing (irq_state l) was)))
  | spin_swap l i b st was : cores l !! i = Some (mkCore b (Releasing st was)) →
      spin_step l (set_core l i (const_into_u8 Unlocked) (irq_state l)
        (mkCore b (after_swap (state l) st was)))
  | spin_restore l i b st was : cores l !! i = Some (mkCore b (Restoring st was)) →
      spin_step l (set_core l i (state l) (irq_state l) (mkCore (set_interrupts st b) Idle)).

(** ** The invariant *)

(** Between the exchange and the swap. *)
Definition owns (c : core) : bool :=
  match at_ c with Acquired _ _ | Holding _ | Releasing _ _ => true | _ => false end.

Definition flag_of (was : bool) : Z := if was then 0x200 else 0.

Definition core_ok (irq : Z) (c : core) : Prop :=
  match at_ c with
  | Idle => True
  | Spinning st was | Trying st was | Acquired st was | Restoring st was | Refused st was =>
      interrupts c = false ∧ st = flag_of was
  | Holding was => interrupts c = false ∧ irq = flag_of was
  | Releasing st was => interrupts c = false ∧ st = flag_of was
  | Crashed => False
  end.

Definition taken (owner : option nat) : State :=
  match owner with Some _ => Locked | None => Unlocked end.

(** At most one core owns the lock, and [state] tells whether one does. *)
Definition spin_inv (l : RawSpinlock) : Prop :=
  ∃ owner : option nat,
    state l = const_into_u8 (taken owner) ∧
    ∀ i c, cores l !! i = Some c → (owns c = true ↔ owner = Some i) ∧ core_ok (irq_state l) c.

(** A step of core [i] that changes who owns the lock from [o] to [o']. *)
Lemma spin_update l i c c' o o' st irq :
  cores l !! i = Some c →
  (∀ j d, cores l !! j = Some d → (owns d = true ↔ o = Some j) ∧ core_ok (irq_state l) d) →
  st = const_into_u8 (taken o') →
  (owns c' = true ↔ o' = Some i) → core_ok irq c' →
  (∀ j, j ≠ i → o = Some j ↔ o' = Some j) →
  (∀ j, o = Some j → j ≠ i → irq = irq_state l) →
  spin_inv (set_core l i st irq c').
Proof.
  intros Hi Hall Hst Hown Hok Ho Hirq. exists o'. split; [done|]. intros j d Hj. simpl in *.
  destruct (decide (i = j)) as [<-|Hij].
  - rewrite list_lookup_insert_eq in Hj by (by eapply lookup_lt_Some). injection Hj as <-. done.
  - rewrite list_lookup_insert_ne in Hj by done. destruct (Hall j d Hj) as [Hdo Hdok].
    split; [rewrite Hdo; apply Ho; congruence|]. destruct (owns d) eqn:Ed.
    + rewrite (Hirq j); [done|by apply Hdo|congruence].
    + unfold core_ok, owns in *. by destruct (at_ d).
Qed.

(** One core moves; [o] owned the lock before and [o'] owns it after. *)
Ltac core_moves o o' :=
  eapply (spin_update _ _ _ _ o o'); [eassumption|eassumption|..]; try done; try naive_solver.

Lemma spin_step_inv l l' : spin_step l l' → spin_inv l → spin_inv l'.
Proof.
  intros Hstep (o & Hst & Hall). destruct Hstep as [l i b b' Hi|l i b Hi|l i b Hi|l i b st was Hi Hs|l i b st was Hi
    |l i b st was Hi Hs|l i b st was Hi Hs|l i b st was Hi|l i b st was Hi|l i b was Hi|l i b st was Hi|l i b st was Hi];
    pose proof (Hall _ _ Hi) as [Hown Hok]; unfold owns, core_ok in Hown, Hok; simpl in Hown, Hok.
  - core_moves o o.
  - core_moves o o.
  - core_moves o o.
  - destruct o; [by rewrite Hst in Hs|]. core_moves (@None nat) (Some i).
  - core_moves o o.
  - destruct o; [by rewrite Hst in Hs|]. core_moves (@None nat) (Some i).
  - core_moves o o.
  - core_moves o o.
  - assert (o = Some i) as -> by by apply Hown. core_moves (Some i) (Some i).
  - assert (o = Some i) as -> by by apply Hown. core_moves (Some i) (Some i).
  - assert (o = Some i) as -> by by apply Hown. core_moves (Some i) (@None nat).
    + unfold owns, after_swap. simpl. by rewrite Hst.
    + unfold core_ok, after_swap. simpl. by rewrite Hst.
  - core_moves o o.
Qed.

(** Cores that are all between two calls. *)
Definition all_idle (cs : list core) : Prop := Forall (λ c, at_ c = Idle) cs.

Lemma spin_reachable_inv cs l : all_idle cs → rtc spin_step (INIT cs) l → spin_inv l.
Proof.
  intros Hidle Hr. assert (spin_inv (INIT cs)) as Hinv.
  { exists None. split; [done|]. intros i c Hi. unfold all_idle in Hidle. rewrite Forall_lookup in Hidle.
    specialize (Hidle _ _ Hi). unfold owns, core_ok. by rewrite Hidle. }
  clear Hidle. induction Hr as [|x y z Hxy _ IH]; [done|]. apply IH. by eapply spin_step_inv.
Qed.

(** ** Properties *)

(** C27. Mutual exclusion: at most one core is between the exchange that takes
    the lock and the swap that gives it back; such a core has its interrupts off;
    and no call panics. *)
Theorem spinlock_exclusion cs l i j ci cj :
  all_idle cs → rtc spin_step (INIT cs) l →
  cores l !! i = Some ci → cores l !! j = Some cj →
  (owns ci = true → owns cj = true → i = j) ∧ (owns ci = true → interrupts ci = false) ∧ at_ ci ≠ Crashed.
Proof.
  intros Hidle Hr Hi Hj. destruct (spin_reachable_inv cs l Hidle Hr) as (o & _ & Hall).
  destruct (Hall _ _ Hi) as [Hoi Hok], (Hall _ _ Hj) as [Hoj _]. split_and!.
  - intros Hci%Hoi Hcj%Hoj. congruence.
  - intros Hci. unfold owns, core_ok in *. by destruct (at_ ci); destruct Hok.
  - intros E. unfold core_ok in Hok. by rewrite E in Hok.
Qed.

(** The interrupt flag a core came with is the one it leaves with, after
    [unlock] and after a [try_lock] that failed, even when other cores with other
    flags have used the lock in between. *)
Theorem spinlock_restores_interrupts cs l i b st was :
  all_idle cs → rtc spin_step (INIT cs) l →
  cores l !! i = Some (mkCore b (Restoring st was)) ∨ cores l !! i = Some (mkCore b (Refused st was)) →
  spin_step l (set_core l i (state l) (irq_state l) (mkCore was Idle)).
Proof.
  intros Hidle Hr Hi. destruct (spin_reachable_inv cs l Hidle Hr) as (o & _ & Hall).
  assert (b = false ∧ st = flag_of was) as [-> ->] by by destruct Hi as [Hi|Hi]; apply (Hall _ _ Hi).
  replace was with (set_interrupts (flag_of was) false) at 1 by by destruct was.
  destruct Hi as [Hi|Hi]; [by eapply spin_restore|by eapply spin_try_restore].
Qed.

(** *** The properties at work *)

Definition demo_cores : list core := [mkCore true Idle; mkCore false Idle].

Definition demo_locked : RawSpinlock := mkLock 1 0x200 [mkCore false (Holding true); mkCore false Idle].

Lemma demo_locked_reachable : rtc spin_step (INIT demo_cores) demo_locked.
Proof.
  eapply rtc_l; [apply (spin_lock (INIT demo_cores) 0 true); reflexivity|].
  eapply rtc_l; [eapply (spin_exchange _ 0 false 0x200 true); reflexivity|].
  eapply rtc_l; [eapply (spin_store _ 0 false 0x200 true); reflexivity|]. apply rtc_refl.
Qed.

Lemma spinlock_exclusion_witness :
  interrupts (mkCore false (Holding true)) = false ∧ owns (mkCore false Idle) = false.
Proof.
  split; [|reflexivity].
  apply (spinlock_exclusion demo_cores demo_locked 0 1 (mkCore false (Holding true)) (mkCore false Idle));
    [repeat constructor|exact demo_locked_reachable|reflexivity..].
Defined.

Lemma spinlock_restores_interrupts_witness :
  let l := mkLock 0 0x200 [mkCore false (Restoring 0x200 true); mkCore false Idle] in
  spin_step l (set_core l 0 (state l) (irq_state l) (mkCore true Idle)).
Proof.
  intros l. apply (spinlock_restores_interrupts demo_cores l 0 false 0x200 true);
    [repeat constructor| |left; reflexivity].
  etransitivity; [exact demo_locked_reachable|].
  eapply rtc_l; [apply (spin_unlock demo_locked 0 false true); reflexivity|].
  eapply rtc_l; [eapply (spin_swap _ 0 false 0x200 true); reflexivity|]. apply rtc_refl.
Defined.
