(* ===== verification/Once.v ===== *)
(** * Once: values that are initialised once

    [kernel_api/src/sync/once.rs]: [Once], [OnceLock] and [LazyLock].  Threads
    are interleaved at the granularity of the accesses to the shared memory,
    which are taken to be sequentially consistent; a weak exchange may fail at
    any time; an initialiser returns any value, or panics and unwinds. *)

From stdpp Require Import base list numbers option relations.
From S2P Require Import Prelude.

Open Scope Z_scope.

Inductive State := Uncalled | Running | Called | Poison.

#[global] Instance State_eq_dec : EqDecision State.
Proof. solve_decision. Defined.

Definition const_into_u8 (s : State) : Z :=
  match s with Uncalled => 0 | Running => 1 | Called => 2 | Poison => 3 end.

Definition const_from_u8 (value : Z) : result State unit :=
  if value =? 0 then Ok Uncalled else if value =? 1 then Ok Running
  else if value =? 2 then Ok Called else if value =? 3 then Ok Poison else Err tt.

Lemma const_from_into s : const_from_u8 (const_into_u8 s) = Ok s.
Proof. by destruct s. Qed.

Section OnceLock.
Context {T : Type}.

(** Where a thread is in [get_or_init] or [get]. *)
Inductive pc :=
  | Idle
  | Calling               (* the loop of call_once *)
  | Initialising          (* exchanged: the initialiser runs *)
  | Written               (* the value is written, the state not stored yet *)
  | Unwinding             (* the initialiser panicked, the guard not dropped yet *)
  | Reading               (* call_once returned *)
  | Completed             (* get: is_complete was true *)
  | Got (v : T)           (* has the reference, to this value *)
  | GotNone               (* get: None *)
  | Poisoned              (* panicked with poisoned `Once` *)
  | Unwound               (* its own initialiser panicked *)
  | Stuck.                (* unreachable!(), a failed unwrap, or a read of uninitialised data *)

(** [OnceLock]; [started] and [consumed] count the initialisers that were called,
    and those that were called or dropped. *)
Record OnceLock := mkOnce {
  data : option T;
  once : Z;
  threads : list pc;
  started : nat;
  consumed : nat
}.

Definition once_lock_new (ts : list pc) : OnceLock := mkOnce None (const_into_u8 Uncalled) ts 0 0.

(** The arms of the [match] on a failed exchange in [call_once]. *)
Definition after_failed_exchange (s : Z) : pc :=
  if s =? const_into_u8 Poison then Poisoned
  else if s =? const_into_u8 Running then Calling
  else if s =? const_into_u8 Called then Reading
  else if s =? const_into_u8 Uncalled then Calling
  else Stuck.

(** An initialiser that will not be called is dropped with the call. *)
Definition dropped_by (c : pc) : nat := match c with Reading | Poisoned => 1%nat | _ => 0%nat end.

(** [is_complete]. *)
Definition is_complete (s : Z) : outcome bool :=
  match const_from_u8 s with
  | Ok Called => Ret true
  | Ok _ => Ret false
  | Err _ => Panic UnwrapFailed
  end.

(** [get] up to the reference. *)
Definition after_is_complete (s : Z) : pc :=
  match is_complete s with Ret true => Completed | Ret false => GotNone | Panic _ => Stuck end.

(** [assume_init_ref]. *)
Definition assume_init_ref (d : option T) : pc := match d with Some v => Got v | None => Stuck end.

Definition set_thread (l : OnceLock) (i : nat) (c : pc) : OnceLock :=
  mkOnce (data l) (once l) (<[i := c]> (threads l)) (started l) (consumed l).

Definition with_once (l : OnceLock) (s : State) : OnceLock :=
  mkOnce (data l) (const_into_u8 s) (threads l) (started l) (consumed l).
Definition with_data (l : OnceLock) (v : T) : OnceLock :=
  mkOnce (Some v) (once l) (threads l) (started l) (consumed l).
Definition consume (l : OnceLock) (called dropped : nat) : OnceLock :=
  mkOnce (data l) (once l) (threads l) (called + started l) (called + dropped + consumed l).

Inductive once_step : OnceLock → OnceLock → Prop :=
  | once_get_or_init l i : threads l !! i = Some Idle → once_step l (set_thread l i Calling)
  | once_exchange l i : threads l !! i = Some Calling → once l = const_into_u8 Uncalled →
      once_step l (set_thread (consume (with_once l Running) 1 0) i Initialising)
  | once_fail l i : threads l !! i = Some Calling →
      once_step l (set_thread (consume l 0 (dropped_by (after_failed_exchange (once l)))) i (after_failed_exchange (once l)))
  | once_return l i v : threads l !! i = Some Initialising → once_step l (set_thread (with_data l v) i Written)
  | once_panic l i : threads l !! i = Some Initialising → once_step l (set_thread l i Unwinding)
  | once_guard l i : threads l !! i = Some Unwinding → once_step l (set_thread (with_once l Poison) i Unwound)
  | once_store l i : threads l !! i = Some Written → once_step l (set_thread (with_once l Called) i Reading)
  | once_read l i : threads l !! i = Some Reading → once_step l (set_thread l i (assume_init_ref (data l)))
  | once_get l i : threads l !! i = Some Idle → once_step l (set_thread l i (after_is_complete (once l)))
  | once_get_read l i : threads l !! i = Some Completed → once_step l (set_thread l i (assume_init_ref (data l))).

(** ** The invariant *)

(** Between the exchange and the store that ends the initialisation. *)
Definition owns (c : pc) : bool :=
  match c with Initialising | Written | Unwinding => true | _ => false end.

(** What the state says of the value and of the initialisers called. *)
Definition phase_ok (s : State) (d : option T) (n : nat) : Prop :=
  match s with
  | Uncalled => d = None ∧ n = 0%nat
  | Called => is_Some d ∧ n = 1%nat
  | Running | Poison => n = 1%nat
  end.

(** Where a thread can be, given the state and the value. *)
Definition pc_ok (s : State) (d : option T) (c : pc) : Prop :=
  match c with
  | Idle | Calling | GotNone => True
  | Initialising | Unwinding => s = Running
  | Written => s = Running ∧ is_Some d
  | Reading | Completed => s = Called
  | Got v => s = Called ∧ d = Some v
  | Poisoned | Unwound => s = Poison
  | Stuck => False
  end.

Definition once_inv (l : OnceLock) : Prop :=
  ∃ s, once l = const_into_u8 s ∧ phase_ok s (data l) (started l) ∧
    (∀ i c, threads l !! i = Some c → pc_ok s (data l) c) ∧
    (∀ i j c c', threads l !! i = Some c → threads l !! j = Some c' → owns c = true → owns c' = true → i = j).

(** While one thread initialises, the others are outside or waiting. *)
Lemma other_waits s d c : pc_ok s d c → s = Running → owns c = false → ∀ s' d', pc_ok s' d' c.
Proof. destruct c; naive_solver. Qed.

(** A thread that owns nothing before and after moves. *)
Lemma once_moves l l1 i c c' s :
  once l = const_into_u8 s → phase_ok s (data l) (started l) →
  (∀ i c, threads l !! i = Some c → pc_ok s (data l) c) →
  (∀ i j c c', threads l !! i = Some c → threads l !! j = Some c' → owns c = true → owns c' = true → i = j) →
  threads l !! i = Some c → owns c' = false → pc_ok s (data l) c' →
  data l1 = data l → once l1 = once l → threads l1 = threads l → started l1 = started l →
  once_inv (set_thread l1 i c').
Proof.
  intros Ho Hp Hc Hu Hi Hown Hok E1 E2 E3 E4. exists s. simpl. rewrite E1, E2, E3, E4.
  split; [done|]. split; [done|]. pose proof (lookup_lt_Some _ _ _ Hi). split.
  - intros j d. destruct (decide (i = j)) as [<-|?]; [rewrite list_lookup_insert_eq by done; congruence|].
    rewrite list_lookup_insert_ne by done. apply Hc.
  - intros j k d d' Hj Hk Hd Hd'. apply (Hu j k d d'); try done.
    + destruct (decide (i = j)) as [<-|?]; [rewrite list_lookup_insert_eq in Hj by done; congruence|].
      by rewrite list_lookup_insert_ne in Hj.
    + destruct (decide (i = k)) as [<-|?]; [rewrite list_lookup_insert_eq in Hk by done; congruence|].
      by rewrite list_lookup_insert_ne in Hk.
Qed.

(** A thread that owns the initialisation, now or after the step, moves. *)
Lemma once_owner_moves l l1 i c c' s s' :
  (∀ j c, j ≠ i → threads l !! j = Some c → pc_ok s (data l) c ∧ owns c = false) →
  threads l !! i = Some c → (s = Running ∨ data l1 = data l ∧ s = Uncalled ∧ s' = Running) →
  once l1 = const_into_u8 s' → phase_ok s' (data l1) (started l1) → pc_ok s' (data l1) c' →
  threads l1 = threads l → once_inv (set_thread l1 i c').
Proof.
  intros Hc Hi Hs Ho Hp Hok E. exists s'. simpl. rewrite E. split; [done|]. split; [done|].
  pose proof (lookup_lt_Some _ _ _ Hi). split.
  - intros j d. destruct (decide (i = j)) as [<-|?]; [rewrite list_lookup_insert_eq by done; congruence|].
    rewrite list_lookup_insert_ne by done. intros Hj. destruct (Hc j d ltac:(done) Hj) as [Hd Hown].
    destruct Hs as [->|(-> & -> & ->)]; [by eapply other_waits|]. destruct d; naive_solver.
  - intros j k d d' Hj Hk Hd Hd'. destruct (decide (i = j)) as [<-|?].
    + destruct (decide (i = k)) as [<-|?]; [done|]. rewrite list_lookup_insert_ne in Hk by done.
      destruct (Hc k d' ltac:(done) Hk). congruence.
    + rewrite list_lookup_insert_ne in Hj by done. destruct (Hc j d ltac:(done) Hj). congruence.
Qed.

Lemma after_failed_ok s d : pc_ok s d (after_failed_exchange (const_into_u8 s)) ∧
  owns (after_failed_exchange (const_into_u8 s)) = false.
Proof. by destruct s. Qed.

Lemma after_is_complete_ok s d : pc_ok s d (after_is_complete (const_into_u8 s)) ∧
  owns (after_is_complete (const_into_u8 s)) = false.
Proof. by destruct s. Qed.

Lemma assume_init_ok s d n : phase_ok s d n → s = Called → pc_ok s d (assume_init_ref d) ∧ owns (assume_init_ref d) = false.
Proof. intros Hp ->. destruct Hp as [[v ->] _]. done. Qed.

(** The other threads of one that owns the initialisation. *)
Lemma owner_alone l i c s :
  (∀ i c, threads l !! i = Some c → pc_ok s (data l) c) →
  (∀ i j c c', threads l !! i = Some c → threads l !! j = Some c' → owns c = true → owns c' = true → i = j) →
  threads l !! i = Some c → owns c = true →
  ∀ j d, j ≠ i → threads l !! j = Some d → pc_ok s (data l) d ∧ owns d = false.
Proof.
  intros Hc Hu Hi Hown j d Hji Hj. split; [by eapply Hc|]. destruct (owns d) eqn:E; [|done].
  destruct Hji. by eapply Hu.
Qed.

Lemma once_step_inv l l' : once_step l l' → once_inv l → once_inv l'.
Proof.
  intros Hs (s & Ho & Hp & Hc & Hu). destruct Hs as [l i Hi|l i Hi E|l i Hi|l i v Hi|l i Hi|l i Hi|l i Hi|l i Hi|l i Hi|l i Hi].
  - by eapply (once_moves l l).
  - assert (s = Uncalled) as -> by (rewrite Ho in E; by destruct s). destruct Hp as [Hd Hn].
    eapply (once_owner_moves l _ i _ _ Uncalled Running); try done; [|by right|by simpl; rewrite Hn].
    intros j c _ Hj. pose proof (Hc j c Hj). split; [done|]. destruct c; naive_solver.
  - rewrite Ho. destruct (after_failed_ok s (data l)). by eapply (once_moves l).
  - pose proof (Hc i _ Hi : s = Running) as ->. eapply (once_owner_moves l _ i _ _ Running Running); try done; [|by left].
    by eapply owner_alone.
  - pose proof (Hc i _ Hi : s = Running) as ->. eapply (once_owner_moves l l i _ _ Running Running); try done; [|by left].
    by eapply owner_alone.
  - pose proof (Hc i _ Hi : s = Running) as ->. eapply (once_owner_moves l _ i _ _ Running Poison); try done; [|by left].
    by eapply owner_alone.
  - pose proof (Hc i _ Hi) as [-> Hd]. eapply (once_owner_moves l _ i _ _ Running Called); try done; [|by left].
    by eapply owner_alone.
  - destruct (assume_init_ok s (data l) _ Hp (Hc i _ Hi)). by eapply (once_moves l l).
  - rewrite Ho. destruct (after_is_complete_ok s (data l)). by eapply (once_moves l l).
  - destruct (assume_init_ok s (data l) _ Hp (Hc i _ Hi)). by eapply (once_moves l l).
Qed.

Lemma once_reachable_inv n l : rtc once_step (once_lock_new (replicate n Idle)) l → once_inv l.
Proof.
  intros Hs. remember (once_lock_new (replicate n Idle)) as l0 eqn:E.
  assert (once_inv l0) as Hinv.
  { rewrite E. exists Uncalled. split_and!; [done..| |]; simpl.
    - intros i c [-> _]%lookup_replicate. done.
    - intros i j c c' [-> _]%lookup_replicate _ Hc. done. }
  clear E. induction Hs; eauto using once_step_inv.
Qed.

(** Once called, nothing changes any more. *)
Lemma called_stays l l' :
  once_step l l' → once_inv l → once l = const_into_u8 Called → once l' = const_into_u8 Called ∧ data l' = data l.
Proof.
  intros Hs (s & Ho & _ & Hc & _) E. assert (s = Called) as -> by (rewrite Ho in E; by destruct s).
  destruct Hs as [l i Hi|l i Hi E'|l i Hi|l i v Hi|l i Hi|l i Hi|l i Hi|l i Hi|l i Hi|l i Hi]; try done;
    [by rewrite E in E'|pose proof (Hc i _ Hi) as Hok; simpl in Hok; first [done|by destruct Hok]..].
Qed.

Lemma called_forever l l' :
  rtc once_step l l' → once_inv l → once l = const_into_u8 Called → data l' = data l.
Proof.
  induction 1 as [|l l1 l' Hs _ IH]; [done|]. intros Hinv E.
  destruct (called_stays l l1 Hs Hinv E) as [? <-]. eauto using once_step_inv.
Qed.

(** A thread that gave up stays, and so do the reasons to give up or to wait. *)
Definition blamed (l : OnceLock) : Prop :=
  (once l = const_into_u8 Poison → ∃ j, threads l !! j = Some Unwound) ∧
  (once l = const_into_u8 Running → ∃ j c, threads l !! j = Some c ∧ owns c = true).

Lemma lookup_set_thread (ts : list pc) i j c c' d :
  ts !! i = Some c → ts !! j = Some d → c ≠ d → <[i := c']> ts !! j = Some d.
Proof. intros Hi Hj Hne. rewrite list_lookup_insert_ne; [done|congruence]. Qed.

Lemma once_step_blamed l l' : once_step l l' → once_inv l → blamed l → blamed l'.
Proof.
  intros Hs (s & Ho & _ & Hc & _) [Hp Hr].
  assert (∀ i c c', threads l !! i = Some c → c ≠ Unwound → owns c = false → blamed (set_thread l i c')) as Hother.
  { intros i c c' Hi Hne Hown. split; simpl.
    - intros (j & Hj)%Hp. exists j. by eapply lookup_set_thread.
    - intros (j & d & Hj & Hd)%Hr. exists j, d. split; [|done]. eapply lookup_set_thread; [done..|congruence]. }
  assert (∀ i c (x : pc), threads l !! i = Some c → <[i := x]> (threads l) !! i = Some x) as Hself.
  { intros i c x Hi. apply list_lookup_insert_eq. by eapply lookup_lt_Some. }
  destruct Hs as [l i Hi|l i Hi E'|l i Hi|l i v Hi|l i Hi|l i Hi|l i Hi|l i Hi|l i Hi|l i Hi];
    try (by eapply Hother); (split; simpl; intros E; try done);
    try (pose proof (Hc i _ Hi) as Hok; simpl in Hok; rewrite Ho in E; destruct s; naive_solver);
    try (by exists i; eapply Hself); try (eexists i, _; by split; [eapply Hself|]).
Qed.

Lemma once_reachable_blamed n l : rtc once_step (once_lock_new (replicate n Idle)) l → blamed l.
Proof.
  intros Hs. apply rtc_ind_r with (P := λ l, blamed l) (x := once_lock_new (replicate n Idle)) in Hs; [done|by split|].
  intros l1 l2 H1 H2 Hb. eapply once_step_blamed; [done| |done]. by eapply once_reachable_inv.
Qed.

(** ** Properties *)

(** C28. However threads race on a [OnceLock], the initialiser is called at most
    once, no thread reads uninitialised memory or reaches an [unreachable!()] or a
    failed [unwrap()], every reference is to the value the initialiser wrote, which
    stays for ever, and a thread finds the lock poisoned only when the initialiser
    of some thread panicked. *)
Theorem once_lock_safe n l :
  rtc once_step (once_lock_new (replicate n Idle)) l →
  (started l ≤ 1)%nat ∧
  (∀ i, threads l !! i ≠ Some Stuck) ∧
  (∀ i v l', threads l !! i = Some (Got v) → rtc once_step l l' → data l' = Some v) ∧
  (∀ i, threads l !! i = Some Poisoned → ∃ j, threads l !! j = Some Unwound).
Proof.
  intros Hl. pose proof (once_reachable_inv n l Hl) as Hinv. pose proof (once_reachable_blamed n l Hl) as [Hb _].
  pose proof Hinv as (s & Ho & Hp & Hc & _). split_and!.
  - destruct s; simpl in Hp; lia.
  - intros i Hi. exact (Hc i _ Hi).
  - intros i v l' Hi Hs. destruct (Hc i _ Hi) as [-> <-]. by eapply called_forever.
  - intros i Hi. pose proof (Hc i _ Hi : s = Poison) as ->. by apply Hb.
Qed.

(** A thread that is done with its call. *)
Definition finished (c : pc) : bool :=
  match c with Got _ | Poisoned => true | _ => false end.

Lemma set_thread_same l i c c' :
  threads l !! i = Some c → threads (set_thread l i c') !! i = Some c'.
Proof. intros Hi. simpl. apply list_lookup_insert_eq. by eapply lookup_lt_Some. Qed.

(** From [Called] or [Poison] a call leaves the loop at its next access. *)
Lemma call_leaves l i s :
  once_inv l → threads l !! i = Some Calling → once l = const_into_u8 s → s = Called ∨ s = Poison →
  ∃ l' c, rtc once_step l l' ∧ threads l' !! i = Some c ∧ finished c = true.
Proof.
  intros Hinv Hi Ho Hs. pose proof (once_fail l i Hi) as Hstep. rewrite Ho in Hstep. destruct Hs as [-> | ->].
  - pose proof (once_step_inv _ _ Hstep Hinv) as (s' & Ho' & Hp & _).
    assert (s' = Called) as -> by (simpl in Ho'; rewrite Ho in Ho'; by destruct s'). destruct Hp as [[v Hv] _]. simpl in Hv.
    pose proof (once_read _ i (set_thread_same (consume l 0 1) i _ Reading Hi)) as Hread. simpl in Hread. rewrite Hv in Hread.
    eexists _, (Got v). split; [eapply rtc_l; [exact Hstep|]; apply rtc_once; exact Hread|]. split; [|done].
    eapply set_thread_same. by eapply (set_thread_same (consume l 0 1)).
  - eexists _, Poisoned. split; [apply rtc_once; exact Hstep|]. split; [|done]. by eapply (set_thread_same (consume l 0 1)).
Qed.

(** The thread that initialises can end the initialisation. *)
Lemma owner_ends l j c (v : T) :
  threads l !! j = Some c → owns c = true →
  ∃ l' s c', rtc once_step l l' ∧ once l' = const_into_u8 s ∧ (s = Called ∨ s = Poison) ∧
    threads l' = <[j := c']> (threads l).
Proof.
  intros Hj Hown. destruct c; try done.
  - pose proof (once_return l j v Hj) as H1.
    pose proof (once_store _ j (set_thread_same (with_data l v) j _ Written Hj)) as H2.
    eexists _, Called, Reading. split; [eapply rtc_l; [exact H1|]; apply rtc_once, H2|]. split; [done|]. split; [by left|].
    simpl. by rewrite list_insert_insert_eq.
  - pose proof (once_store l j Hj) as H2. eexists _, Called, Reading.
    split; [apply rtc_once, H2|]. split; [done|]. split; [by left|done].
  - pose proof (once_guard l j Hj) as H2. eexists _, Poison, Unwound.
    split; [apply rtc_once, H2|]. split; [done|]. split; [by right|done].
Qed.

(** [get_or_init] cannot be blocked for ever by other callers: from every
    reachable state, when the initialiser returns, any waiting thread can go on
    to its reference or find the lock poisoned. *)
Theorem once_lock_progress n l i (v : T) :
  rtc once_step (once_lock_new (replicate n Idle)) l → threads l !! i = Some Calling →
  ∃ l' c, rtc once_step l l' ∧ threads l' !! i = Some c ∧ finished c = true.
Proof.
  intros Hl Hi. pose proof (once_reachable_inv n l Hl) as Hinv. pose proof (once_reachable_blamed n l Hl) as [_ Hb].
  pose proof Hinv as (s & Ho & _ & _). destruct (decide (s = Called ∨ s = Poison)) as [Hs|Hs]; [by eapply call_leaves|].
  destruct s; try (exfalso; naive_solver).
  - pose proof (once_exchange l i Hi Ho) as H1. set (l1 := set_thread _ i _) in H1.
    assert (threads l1 !! i = Some Initialising) as Hi1 by by eapply (set_thread_same (consume (with_once l Running) 1 0)).
    pose proof (once_return l1 i v Hi1) as H2. set (l2 := set_thread _ i _) in H2.
    assert (threads l2 !! i = Some Written) as Hi2 by by eapply (set_thread_same (with_data l1 v)).
    pose proof (once_store l2 i Hi2) as H3. set (l3 := set_thread _ i _) in H3.
    assert (threads l3 !! i = Some Reading) as Hi3 by by eapply (set_thread_same (with_once l2 Called)).
    pose proof (once_read l3 i Hi3) as H4. eexists _, (Got v).
    split; [eapply rtc_l; [exact H1|]; eapply rtc_l; [exact H2|]; eapply rtc_l; [exact H3|]; apply rtc_once, H4|].
    split; [|done]. by eapply set_thread_same.
  - destruct (Hb Ho) as (j & c & Hj & Hown). destruct (owner_ends l j c v Hj Hown) as (l1 & s & c' & H1 & Ho1 & Hs1 & Ht1).
    destruct (call_leaves l1 i s) as (l2 & c2 & H2 & Hc2).
    + eapply once_reachable_inv. by etrans.
    + rewrite Ht1. rewrite list_lookup_insert_ne; [done|]. intros ->. rewrite Hj in Hi. by injection Hi as ->.
    + done.
    + done.
    + exists l2, c2. split; [by etrans|done].
Qed.
End OnceLock.

(** ** LazyLock *)

(** [LazyLock::force] is [get_or_init] with a copy of the one closure the lock
    holds, made by [ptr::read]; [consumed] counts the copies called or dropped. *)
Definition lazy_lock_new {T} (forces : nat) : OnceLock (T := T) := once_lock_new (replicate forces Idle).

(** The closure of a [LazyLock] is called once, but each later [force] drops
    another copy of it: after two calls what it captured has been dropped twice. *)
Theorem lazy_lock_drops_twice (v : nat) :
  ∃ l, rtc once_step (lazy_lock_new 2) l ∧ threads l = [Got v; Got v] ∧ started l = 1%nat ∧ consumed l = 2%nat.
Proof.
  eexists. split; [|split; [|split]].
  - eapply rtc_l; [by apply (once_get_or_init _ 0)|]. eapply rtc_l; [by apply (once_exchange _ 0)|].
    eapply rtc_l; [by apply (once_return _ 0 v)|]. eapply rtc_l; [by apply (once_store _ 0)|].
    eapply rtc_l; [by apply (once_read _ 0)|]. eapply rtc_l; [by apply (once_get_or_init _ 1)|].
    eapply rtc_l; [by apply (once_fail _ 1)|]. eapply rtc_l; [by apply (once_read _ 1)|]. apply rtc_refl.
  - done.
  - done.
  - done.
Qed.

(** *** The properties at work *)

(** One thread has initialised the value with 7, the other is in the loop. *)
Definition once_raced : OnceLock (T := nat) := mkOnce (Some 7%nat) 2 [Got 7%nat; Calling] 1 1.

Lemma once_raced_reachable : rtc once_step (once_lock_new (replicate 2 Idle)) once_raced.
Proof.
  eapply rtc_l; [by apply (once_get_or_init _ 0)|]. eapply rtc_l; [by apply (once_get_or_init _ 1)|].
  eapply rtc_l; [by apply (once_exchange _ 0)|]. eapply rtc_l; [by apply (once_fail _ 1)|].
  eapply rtc_l; [by apply (once_return _ 0 7%nat)|]. eapply rtc_l; [by apply (once_store _ 0)|].
  eapply rtc_l; [by apply (once_read _ 0)|]. apply rtc_refl.
Qed.

Lemma once_lock_safe_witness :
  (started once_raced ≤ 1)%nat ∧ ∀ l', rtc once_step once_raced l' → data l' = Some 7%nat.
Proof.
  destruct (once_lock_safe 2 once_raced once_raced_reachable) as (Hn & _ & Hg & _).
  split; [exact Hn|]. intros l' Hl. exact (Hg 0%nat 7%nat l' eq_refl Hl).
Defined.

Lemma once_lock_progress_witness :
  ∃ l c, rtc once_step once_raced l ∧ threads l !! 1%nat = Some c ∧ finished c = true.
Proof. exact (once_lock_progress 2 once_raced 1 0%nat once_raced_reachable eq_refl). Defined.
