(* ===== verification/BootstrapOnce.v ===== *)
(** * BootstrapOnce: a value with a stand-in while it is computed

    [BootstrapOnceLock] of [kernel_api/src/sync/once.rs].  The first caller of
    [bootstrap] stores a stand-in that others can already use, computes the true
    value and stores it over the stand-in.  Threads are interleaved as in [Once], with
    every access to the state a step of its own.  The value is not atomic: a write has a
    beginning and an end, and a use of the value in between is a race.  References are
    told apart by when [get] took them, before or after the true value was stored. *)

From stdpp Require Import base list numbers option relations.
From S2P Require Import Prelude.

Open Scope Z_scope.

Inductive State := Uncalled | Saving | Running | Init | Poison.

#[global] Instance State_eq_dec : EqDecision State.
Proof. solve_decision. Defined.

Definition const_into_u8 (s : State) : Z :=
  match s with Uncalled => 0 | Saving => 1 | Running => 2 | Init => 3 | Poison => 4 end.

Definition const_from_u8 (value : Z) : result State unit :=
  if value =? 0 then Ok Uncalled else if value =? 1 then Ok Saving else if value =? 2 then Ok Running
  else if value =? 3 then Ok Init else if value =? 4 then Ok Poison else Err tt.

Section Lock.
Context {T : Type}.

(** The contents of [data]; [Torn] while they are being written. *)
Inductive cell := Uninit | Torn | Written (v : T).

(** Where a thread is in [bootstrap] or [get], or behind them.  A reference is [early]
    when the state was [Running] as it was taken. *)
Inductive pc :=
  | Idle
  | Calling (b : T)       (* the loop of bootstrap *)
  | Exchanged (b : T)     (* the stand-in not written yet *)
  | Storing (b : T)       (* the stand-in being written *)
  | Stored                (* the stand-in written, the state not stored yet *)
  | Computing             (* the function runs *)
  | Computed (v : T)      (* the function returned *)
  | Replacing (v : T)     (* the state is Saving again, the value not written yet *)
  | Overwriting (v : T)   (* the value being written *)
  | Replaced (v : T)      (* the value written, the state not stored yet *)
  | Finding               (* bootstrap found the value initialised *)
  | Loaded (early : bool) (* get found a state with a value *)
  | Ref (early : bool)    (* has the reference *)
  | GotNone               (* get: None *)
  | Unwound               (* its function panicked *)
  | Poisoned              (* panicked with poisoned `BootstrapOnceLock` *)
  | Raced (early : bool)  (* used the reference during a write *)
  | Stuck.                (* unreachable!(), a failed unwrap, or uninitialised data *)

Record BootstrapOnceLock := mkBootstrapOnce { data : cell; state : Z; threads : list pc }.

Definition bootstrap_new (ts : list pc) : BootstrapOnceLock := mkBootstrapOnce Uninit (const_into_u8 Uncalled) ts.

(** The arms of the [match] on a failed exchange in [bootstrap]. *)
Definition after_failed_exchange (b : T) (s : Z) : pc :=
  if s =? const_into_u8 Poison then Poisoned
  else if (s =? const_into_u8 Running) || (s =? const_into_u8 Saving) then Calling b
  else if s =? const_into_u8 Init then Finding
  else if s =? const_into_u8 Uncalled then Calling b
  else Stuck.

(** [get] up to the reference. *)
Definition after_load (s : Z) : pc :=
  match const_from_u8 s with
  | Err _ => Stuck
  | Ok Poison => Poisoned
  | Ok Uncalled | Ok Saving => GotNone
  | Ok Running => Loaded true
  | Ok Init => Loaded false
  end.

(** Taking the reference, and reading through it. *)
Definition assume_init_ref (early : bool) (d : cell) : pc := match d with Uninit => Stuck | _ => Ref early end.
Definition use_ref (early : bool) (d : cell) : pc :=
  match d with Uninit => Stuck | Torn => Raced early | Written _ => Ref early end.

Definition moved (l : BootstrapOnceLock) (d : cell) (s : Z) (i : nat) (c : pc) : BootstrapOnceLock :=
  mkBootstrapOnce d s (<[i := c]> (threads l)).

Inductive bootstrap_step : BootstrapOnceLock → BootstrapOnceLock → Prop :=
  | bs_call l i b : threads l !! i = Some Idle → bootstrap_step l (moved l (data l) (state l) i (Calling b))
  | bs_exchange l i b : threads l !! i = Some (Calling b) → state l = const_into_u8 Uncalled →
      bootstrap_step l (moved l (data l) (const_into_u8 Saving) i (Exchanged b))
  | bs_fail l i b : threads l !! i = Some (Calling b) →
      bootstrap_step l (moved l (data l) (state l) i (after_failed_exchange b (state l)))
  | bs_write l i b : threads l !! i = Some (Exchanged b) → bootstrap_step l (moved l Torn (state l) i (Storing b))
  | bs_written l i b : threads l !! i = Some (Storing b) → bootstrap_step l (moved l (Written b) (state l) i Stored)
  | bs_publish l i : threads l !! i = Some Stored →
      bootstrap_step l (moved l (data l) (const_into_u8 Running) i Computing)
  | bs_return l i v : threads l !! i = Some Computing → bootstrap_step l (moved l (data l) (state l) i (Computed v))
  | bs_panic l i : threads l !! i = Some Computing → bootstrap_step l (moved l (data l) (state l) i Unwound)
  | bs_hide l i v : threads l !! i = Some (Computed v) →
      bootstrap_step l (moved l (data l) (const_into_u8 Saving) i (Replacing v))
  | bs_replace l i v : threads l !! i = Some (Replacing v) →
      bootstrap_step l (moved l Torn (state l) i (Overwriting v))
  | bs_replaced l i v : threads l !! i = Some (Overwriting v) →
      bootstrap_step l (moved l (Written v) (state l) i (Replaced v))
  | bs_init l i v : threads l !! i = Some (Replaced v) →
      bootstrap_step l (moved l (data l) (const_into_u8 Init) i (Ref false))
  | bs_find l i : threads l !! i = Some Finding →
      bootstrap_step l (moved l (data l) (state l) i (assume_init_ref false (data l)))
  | bs_get l i : threads l !! i = Some Idle → bootstrap_step l (moved l (data l) (state l) i (after_load (state l)))
  | bs_read l i e : threads l !! i = Some (Loaded e) →
      bootstrap_step l (moved l (data l) (state l) i (assume_init_ref e (data l)))
  | bs_use l i e : threads l !! i = Some (Ref e) → bootstrap_step l (moved l (data l) (state l) i (use_ref e (data l))).

(** ** The invariant *)

(** The thread that made the exchange, until the value is initialised. *)
Definition owns (c : pc) : bool :=
  match c with
  | Exchanged _ | Storing _ | Stored | Computing | Computed _ | Replacing _ | Overwriting _ | Replaced _ | Unwound => true
  | _ => false
  end.

Definition whole (d : cell) : Prop := match d with Written _ => True | _ => False end.
Definition touched (d : cell) : Prop := d ≠ Uninit.

Definition pc_ok (s : State) (d : cell) (c : pc) : Prop :=
  match c with
  | Idle | Calling _ | GotNone => True
  | Exchanged _ => s = Saving ∧ d = Uninit
  | Storing _ | Overwriting _ => s = Saving ∧ d = Torn
  | Stored | Replacing _ => s = Saving ∧ whole d
  | Computing | Computed _ | Unwound => s = Running ∧ whole d
  | Replaced v => s = Saving ∧ d = Written v
  | Finding | Loaded false | Ref false => s = Init ∧ whole d
  | Loaded true | Ref true | Raced true => touched d
  | Raced false | Poisoned | Stuck => False
  end.

(** Nobody owns what is untouched or finished. *)
Definition state_ok (s : State) (d : cell) : Prop :=
  match s with Uncalled => d = Uninit | Saving => True | Running | Init => whole d | Poison => False end.

Definition bootstrap_inv (l : BootstrapOnceLock) : Prop :=
  ∃ s, state l = const_into_u8 s ∧ state_ok s (data l) ∧
    (∀ i c, threads l !! i = Some c → pc_ok s (data l) c) ∧
    (∀ i j c c', threads l !! i = Some c → threads l !! j = Some c' → owns c = true → owns c' = true → i = j).

Lemma whole_touched d : whole d → touched d.
Proof. by destruct d. Qed.

Lemma owner_state s d c : pc_ok s d c → owns c = true → s = Saving ∨ s = Running.
Proof. intros Hok Hown. destruct c; try discriminate Hown; destruct Hok as [-> _]; auto. Qed.

(** A thread that owns nothing needs that the value stays touched, and whole once it
    is initialised. *)
Lemma pc_ok_other s d c s' d' :
  pc_ok s d c → owns c = false → (touched d → touched d') → s ≠ Init → pc_ok s' d' c.
Proof. destruct c as [| | | | | | | | | | |[]|[]| | | |[]|]; naive_solver. Qed.

(** One thread moves: it owned the lock before if it owns it after, or the lock
    was untouched. *)
Lemma bootstrap_moves l i c c' s s' d' :
  state l = const_into_u8 s →
  (∀ i c, threads l !! i = Some c → pc_ok s (data l) c) →
  (∀ i j c c', threads l !! i = Some c → threads l !! j = Some c' → owns c = true → owns c' = true → i = j) →
  threads l !! i = Some c → state_ok s' d' → pc_ok s' d' c' →
  ((s', d') = (s, data l) ∧ owns c' = false ∨
   (touched (data l) → touched d') ∧ (owns c = true ∨ s = Uncalled)) →
  bootstrap_inv (moved l d' (const_into_u8 s') i c').
Proof.
  intros Ho Hc Hu Hi Hs Hok Hcase. exists s'. split; [done|]. split; [done|]. simpl.
  pose proof (lookup_lt_Some _ _ _ Hi).
  assert (∀ j d, j ≠ i → threads l !! j = Some d →
    pc_ok s' d' d ∧ (owns d = true → owns c' = false ∧ (s', d') = (s, data l))) as Hother.
  { intros j d Hji Hj. pose proof (Hc j d Hj) as Hd. destruct Hcase as [[[= -> ->] Hown]|[Hsome Hown]]; [done|].
    assert (owns d = false) as Hfd.
    { destruct (owns d) eqn:E; [|done]. destruct Hown as [Hown| ->]; [by destruct Hji; eapply Hu|].
      by destruct (owner_state _ _ _ Hd E). }
    split; [|congruence]. eapply pc_ok_other; [done..|]. intros ->.
    destruct Hown as [Hown| ?]; [|done]. by destruct (owner_state _ _ _ (Hc i c Hi) Hown). }
  split.
  - intros j d. destruct (decide (i = j)) as [<-|?]; [rewrite list_lookup_insert_eq by done; congruence|].
    rewrite list_lookup_insert_ne by done. intros Hj. by apply (Hother j).
  - intros j k d e Hj Hk Hd He. destruct (decide (i = j)) as [<-|?], (decide (i = k)) as [<-|?]; [done|..];
      rewrite ?list_lookup_insert_eq, ?list_lookup_insert_ne in Hj by done;
      rewrite ?list_lookup_insert_eq, ?list_lookup_insert_ne in Hk by done; [| |by eapply Hu].
    + injection Hj as <-. destruct (Hother k e ltac:(done) Hk) as [_ Hx]. destruct (Hx He). congruence.
    + injection Hk as <-. destruct (Hother j d ltac:(done) Hj) as [_ Hx]. destruct (Hx Hd). congruence.
Qed.

Lemma after_failed_exchange_ok s d b : state_ok s d →
  pc_ok s d (after_failed_exchange b (const_into_u8 s)) ∧ owns (after_failed_exchange b (const_into_u8 s)) = false.
Proof. by destruct s. Qed.

Lemma after_load_ok s d : state_ok s d → pc_ok s d (after_load (const_into_u8 s)) ∧ owns (after_load (const_into_u8 s)) = false.
Proof. intros Hs. destruct s; try done. split; [by apply whole_touched|done]. Qed.

Lemma assume_init_ref_ok s d e : pc_ok s d (Loaded e) → assume_init_ref e d = Ref e ∧ pc_ok s d (Ref e).
Proof. intros Hok. split; [|done]. destruct d; [|done..]. exfalso. destruct e; [by apply Hok|by destruct Hok]. Qed.

Lemma use_ref_ok s d e : pc_ok s d (Ref e) → pc_ok s d (use_ref e d) ∧ owns (use_ref e d) = false.
Proof. intros Hok. destruct e, d; try done; by destruct Hok. Qed.

(** A step that leaves the lock as it is. *)
Lemma bootstrap_looks l i c c' s :
  state l = const_into_u8 s → state_ok s (data l) →
  (∀ i c, threads l !! i = Some c → pc_ok s (data l) c) →
  (∀ i j c c', threads l !! i = Some c → threads l !! j = Some c' → owns c = true → owns c' = true → i = j) →
  threads l !! i = Some c → pc_ok s (data l) c' → owns c' = false → bootstrap_inv (moved l (data l) (state l) i c').
Proof. intros Ho Hso Hc Hu Hi Hok Hown. rewrite Ho. eapply bootstrap_moves; try done. by left. Qed.

Lemma bootstrap_step_inv l l' : bootstrap_step l l' → bootstrap_inv l → bootstrap_inv l'.
Proof.
  intros Hs (s & Ho & Hso & Hc & Hu). destruct Hs as [l i b Hi|l i b Hi E|l i b Hi|l i b Hi|l i b Hi|l i Hi|l i v Hi|l i Hi|l i v Hi
    |l i v Hi|l i v Hi|l i v Hi|l i Hi|l i Hi|l i e Hi|l i e Hi]; pose proof (Hc i _ Hi) as Hok; simpl in Hok.
  - by eapply bootstrap_looks.
  - assert (s = Uncalled) as -> by (rewrite Ho in E; by destruct s). eapply bootstrap_moves; try done.
    right. split; [done|by right].
  - destruct (after_failed_exchange_ok s (data l) b Hso) as [H1 H2]. rewrite <-Ho in H1, H2. by eapply bootstrap_looks.
  - rewrite Ho. destruct Hok as [-> Hd]. eapply bootstrap_moves; try done. right. by split; [|left].
  - rewrite Ho. destruct Hok as [-> Hd]. eapply bootstrap_moves; try done. right. by split; [|left].
  - destruct Hok as [-> Hd]. eapply bootstrap_moves; try done. right. by split; [|left].
  - rewrite Ho. eapply bootstrap_moves; try done. right. by split; [|left].
  - rewrite Ho. eapply bootstrap_moves; try done. right. by split; [|left].
  - destruct Hok as [-> Hd]. eapply bootstrap_moves; try done. right. by split; [|left].
  - rewrite Ho. destruct Hok as [-> Hd]. eapply bootstrap_moves; try done. right. by split; [|left].
  - rewrite Ho. destruct Hok as [-> Hd]. eapply bootstrap_moves; try done. right. by split; [|left].
  - destruct Hok as [-> Hd]. assert (whole (data l)) by by rewrite Hd. eapply bootstrap_moves; try done. right. by split; [|left].
  - destruct (assume_init_ref_ok s (data l) false Hok) as [-> ?]. by eapply bootstrap_looks.
  - destruct (after_load_ok s (data l) Hso) as [H1 H2]. rewrite <-Ho in H1, H2. by eapply bootstrap_looks.
  - destruct (assume_init_ref_ok s (data l) e Hok) as [-> ?]. by eapply bootstrap_looks.
  - destruct (use_ref_ok s (data l) e Hok). by eapply bootstrap_looks.
Qed.

Lemma bootstrap_reachable_inv n l : rtc bootstrap_step (bootstrap_new (replicate n Idle)) l → bootstrap_inv l.
Proof.
  intros Hs. remember (bootstrap_new (replicate n Idle)) as l0 eqn:E.
  assert (bootstrap_inv l0) as Hinv.
  { rewrite E. exists Uncalled. split_and!; [done..| |]; simpl.
    - intros i c [-> _]%lookup_replicate. done.
    - intros i j c c' [-> _]%lookup_replicate _ Hc. done. }
  clear E. induction Hs; eauto using bootstrap_step_inv.
Qed.

(** *** What stays *)

Lemma init_stays l l' :
  bootstrap_step l l' → bootstrap_inv l → state l = const_into_u8 Init → state l' = const_into_u8 Init ∧ data l' = data l.
Proof.
  intros Hs (s & Ho & _ & Hc & _) E. assert (s = Init) as -> by (rewrite Ho in E; by destruct s).
  destruct Hs as [l i b Hi|l i b Hi E'|l i b Hi|l i b Hi|l i b Hi|l i Hi|l i v Hi|l i Hi|l i v Hi
    |l i v Hi|l i v Hi|l i v Hi|l i Hi|l i Hi|l i e Hi|l i e Hi]; try done; [by rewrite E in E'|pose proof (Hc i _ Hi) as Hok; simpl in Hok; by destruct Hok..].
Qed.

Lemma init_forever l l' :
  rtc bootstrap_step l l' → bootstrap_inv l → state l = const_into_u8 Init →
  state l' = const_into_u8 Init ∧ data l' = data l.
Proof.
  induction 1 as [|l l1 l' Hs _ IH]; [done|]. intros Hinv E.
  destruct (init_stays l l1 Hs Hinv E) as [? <-]. eauto using bootstrap_step_inv.
Qed.

(** The panic of the function leaves the lock running for ever. *)
Definition abandoned (l : BootstrapOnceLock) (i j : nat) (b : T) : Prop :=
  bootstrap_inv l ∧ threads l !! i = Some Unwound ∧ threads l !! j = Some (Calling b).

Lemma abandoned_stays l l' i j b : bootstrap_step l l' → abandoned l i j b → abandoned l' i j b.
Proof.
  intros Hs (Hinv & Hi & Hj). split; [by eapply bootstrap_step_inv|].
  destruct Hinv as (s & Ho & _ & Hc & _). pose proof (Hc i _ Hi) as [-> _].
  assert (∀ k c c', threads l !! k = Some c → c ≠ Unwound → k ≠ j ∨ c' = Calling b →
    <[k := c']> (threads l) !! i = Some Unwound ∧ <[k := c']> (threads l) !! j = Some (Calling b)) as Hmove.
  { intros k c c' Hk Hne Hor. pose proof (lookup_lt_Some _ _ _ Hk).
    split; [rewrite list_lookup_insert_ne by congruence; done|]. destruct (decide (k = j)) as [->|?].
    - rewrite list_lookup_insert_eq by done. by destruct Hor as [?| ->].
    - by rewrite list_lookup_insert_ne. }
  destruct Hs as [l k b' Hk|l k b' Hk E|l k b' Hk|l k b' Hk|l k b' Hk|l k Hk|l k v Hk|l k Hk|l k v Hk
    |l k v Hk|l k v Hk|l k v Hk|l k Hk|l k Hk|l k e Hk|l k e Hk]; try (eapply Hmove; [done|done|left; congruence]).
  - rewrite Ho in E. done.
  - eapply Hmove; [done|done|]. destruct (decide (k = j)) as [->|?]; [right|by left].
    rewrite Ho. rewrite Hk in Hj. by injection Hj as ->.
Qed.

(** ** Properties *)

(** C29. However threads race on a [BootstrapOnceLock], none takes or uses a reference
    to uninitialised memory, reaches an [unreachable!()] or a failed [unwrap()], or finds
    the lock poisoned.  A reference from [bootstrap], or from a [get] that found the
    value initialised, is never used during a write.  While the state is [Running] the
    stand-in is whole, and once it is [Init] the true value is, and stays, so that every
    later [get] and [bootstrap] gives it.  References to the stand-in are not covered
    beyond that: see [bootstrap_overwrites_shared]. *)
Theorem bootstrap_once_safe n l :
  rtc bootstrap_step (bootstrap_new (replicate n Idle)) l →
  (∀ i, threads l !! i ≠ Some Stuck) ∧ (∀ i, threads l !! i ≠ Some Poisoned) ∧ state l ≠ const_into_u8 Poison ∧
  (∀ i, threads l !! i ≠ Some (Raced false)) ∧ (∀ i, threads l !! i = Some (Ref false) → state l = const_into_u8 Init) ∧
  (state l = const_into_u8 Running → ∃ b, data l = Written b) ∧
  (state l = const_into_u8 Init → ∃ v, data l = Written v ∧
     ∀ l', rtc bootstrap_step l l' → state l' = const_into_u8 Init ∧ data l' = Written v).
Proof.
  intros Hl%bootstrap_reachable_inv. pose proof Hl as (s & Ho & Hs & Hc & _). split_and!.
  - intros i Hi. exact (Hc i _ Hi).
  - intros i Hi. exact (Hc i _ Hi).
  - rewrite Ho. by destruct s.
  - intros i Hi. exact (Hc i _ Hi).
  - intros i Hi. destruct (Hc i _ Hi) as [-> _]. done.
  - intros E. assert (s = Running) as -> by (rewrite Ho in E; by destruct s). destruct (data l) as [| |b] eqn:Hd; [done..|]. by exists b.
  - intros E. assert (s = Init) as -> by (rewrite Ho in E; by destruct s). destruct (data l) as [| |v] eqn:Hv; [done..|]. exists v.
    split; [done|]. intros l' Hl'. rewrite <-Hv. by apply (init_forever l l').
Qed.

(** When the function given to [bootstrap] panics, every other caller of
    [bootstrap] spins for ever. *)
Theorem bootstrap_panic_hangs n l l' i j b :
  rtc bootstrap_step (bootstrap_new (replicate n Idle)) l →
  threads l !! i = Some Unwound → threads l !! j = Some (Calling b) →
  rtc bootstrap_step l l' → threads l' !! j = Some (Calling b).
Proof.
  intros Hl Hi Hj Hs. assert (abandoned l i j b) as Ha by (split; [by eapply bootstrap_reachable_inv|done]).
  enough (abandoned l' i j b) as (_ & _ & ?) by done. clear Hl Hi Hj. induction Hs; eauto using abandoned_stays.
Qed.

End Lock.

(** [get] hands out references to the stand-in that are still alive when
    [bootstrap] writes the true value over it: a thread reads during that write. *)
Theorem bootstrap_overwrites_shared (b v : nat) :
  ∃ l, rtc bootstrap_step (bootstrap_new (replicate 2 Idle)) l ∧ threads l = [Overwriting v; Raced true].
Proof.
  eexists. split.
  - eapply rtc_l; [by apply (bs_call _ 0 b)|]. eapply rtc_l; [by apply (bs_exchange _ 0 b)|].
    eapply rtc_l; [by apply (bs_write _ 0 b)|]. eapply rtc_l; [by apply (bs_written _ 0 b)|]. eapply rtc_l; [by apply (bs_publish _ 0)|].
    eapply rtc_l; [by apply (bs_get _ 1)|]. eapply rtc_l; [by apply (bs_read _ 1 true)|].
    eapply rtc_l; [by apply (bs_return _ 0 v)|]. eapply rtc_l; [by apply (bs_hide _ 0 v)|]. eapply rtc_l; [by apply (bs_replace _ 0 v)|].
    eapply rtc_l; [by apply (bs_use _ 1 true)|]. apply rtc_refl.
  - done.
Qed.

(** *** The properties at work *)

(** The first thread has stored 5 over the stand-in. *)
Definition bootstrapped : BootstrapOnceLock (T := nat) := mkBootstrapOnce (Written 5%nat) 3 [Ref false; Idle].

Lemma stand_in_stored : rtc bootstrap_step (bootstrap_new (replicate 2 Idle)) (mkBootstrapOnce (Written 1%nat) 2 [Computing; Idle]).
Proof.
  eapply rtc_l; [by apply (bs_call _ 0 1%nat)|]. eapply rtc_l; [by apply (bs_exchange _ 0 1%nat)|].
  eapply rtc_l; [by apply (bs_write _ 0 1%nat)|]. eapply rtc_l; [by apply (bs_written _ 0 1%nat)|].
  eapply rtc_l; [by apply (bs_publish _ 0)|]. apply rtc_refl.
Qed.

Lemma bootstrapped_reachable : rtc bootstrap_step (bootstrap_new (replicate 2 Idle)) bootstrapped.
Proof.
  etrans; [exact stand_in_stored|].
  eapply rtc_l; [by apply (bs_return _ 0 5%nat)|]. eapply rtc_l; [by apply (bs_hide _ 0 5%nat)|].
  eapply rtc_l; [by apply (bs_replace _ 0 5%nat)|]. eapply rtc_l; [by apply (bs_replaced _ 0 5%nat)|].
  eapply rtc_l; [by apply (bs_init _ 0 5%nat)|]. apply rtc_refl.
Qed.

Lemma bootstrap_once_safe_witness :
  ∃ v, data bootstrapped = Written v ∧ ∀ l', rtc bootstrap_step bootstrapped l' → data l' = Written v.
Proof.
  destruct (bootstrap_once_safe 2 bootstrapped bootstrapped_reachable) as (_ & _ & _ & _ & _ & _ & Hi).
  destruct (Hi eq_refl) as (v & Hv & Hl). exists v. split; [exact Hv|]. intros l' H. exact (proj2 (Hl l' H)).
Defined.

(** The function of the first thread has panicked. *)
Definition bootstrap_abandoned : BootstrapOnceLock (T := nat) :=
  mkBootstrapOnce (Written 1%nat) 2 [Unwound; Calling 2%nat].

Lemma bootstrap_abandoned_reachable : rtc bootstrap_step (bootstrap_new (replicate 2 Idle)) bootstrap_abandoned.
Proof.
  etrans; [exact stand_in_stored|].
  eapply rtc_l; [by apply (bs_panic _ 0)|]. eapply rtc_l; [by apply (bs_call _ 1 2%nat)|]. apply rtc_refl.
Qed.

Lemma bootstrap_panic_hangs_witness :
  threads bootstrap_abandoned !! 0%nat = Some Unwound ∧
  ∀ l, rtc bootstrap_step bootstrap_abandoned l → threads l !! 1%nat = Some (Calling 2%nat).
Proof.
  split; [reflexivity|]. intros l Hl.
  exact (bootstrap_panic_hangs 2 bootstrap_abandoned l 0 1 2%nat bootstrap_abandoned_reachable eq_refl eq_refl Hl).
Defined.
