(* ===== verification/Scheduler.v ===== *)
(** * Scheduler: the round-robin scheduler of a core

    [kernel/src/threading/scheduler.rs].  The page table, the saved registers
    and the stack of a thread are a parameter [P]: the scheduler moves them around
    with the thread and never looks at them.  [BTreeMap] is a finite map, and
    [VecDeque] a list.  [switch_thread] saves and loads registers; the pair of
    threads it is called with is part of the answer of [schedule]. *)

From stdpp Require Import base gmap list numbers option strings.
From S2P Require Import Prelude Interrupts.

Open Scope Z_scope.

Inductive ThreadState := Ready | Running.

#[global] Instance ThreadState_eq_dec : EqDecision ThreadState.
Proof. solve_decision. Defined.

(** [Tid] is its number. *)
Abbreviation Tid := Z.

Record ThreadControlBlock (P : Type) := mkTcb { name : string; state : ThreadState; rest : P }.
Arguments mkTcb {P}.
Arguments name {P}.
Arguments state {P}.
Arguments rest {P}.

Record Scheduler (P : Type) := mkSched {
  tasks : gmap Tid (ThreadControlBlock P);
  queue : list Tid;
  current_tid : Tid
}.
Arguments mkSched {P}.
Arguments tasks {P}.
Arguments queue {P}.
Arguments current_tid {P}.

Inductive DuplicateKey := Duplicate.

Section Operations.
Context {P : Type}.
Implicit Types (s : Scheduler P) (tcb : ThreadControlBlock P).

Definition sched_new : Scheduler P := mkSched ∅ [] 0.

(** [Tid::new]: [TIDS.fetch_add(1)], the number and the counter after. *)
Definition tid_new (TIDS : Z) : Tid * Z := (TIDS, (TIDS + 1) mod 2 ^ 64).

Definition add_task (TIDS : Z) s tcb : Tid * Z * Scheduler P :=
  let '(tid, TIDS) := tid_new TIDS in
  (tid, TIDS, mkSched (<[tid := tcb]> (tasks s)) (queue s ++ [tid]) (current_tid s)).

(** [get_many_mut] for two keys: the second entry must not be the place the
    first one is at, and two missing entries compare equal too. *)
Definition get_many_mut (m : gmap Tid (ThreadControlBlock P)) (k1 k2 : Tid) :
    result (option (ThreadControlBlock P) * option (ThreadControlBlock P)) DuplicateKey :=
  match m !! k1, m !! k2 with
  | None, None => Err Duplicate
  | o1, o2 => if k1 =? k2 then Err Duplicate else Ok (o1, o2)
  end.

Definition with_state (st : ThreadState) tcb : ThreadControlBlock P := mkTcb (name tcb) st (rest tcb).

Definition schedule s : outcome (option (Tid * Tid) * Scheduler P) :=
  match queue s with
  | new_tid :: q =>
      let old_tid := current_tid s in
      '(o1, o2) ← expect_ok (get_many_mut (tasks s) old_tid new_tid);
      old_tcb ← expect o1;
      new_tcb ← expect o2;
      let m := <[new_tid := with_state Running new_tcb]> (<[old_tid := with_state Ready old_tcb]> (tasks s)) in
      Ret (Some (old_tid, new_tid), mkSched m (q ++ [old_tid]) new_tid)
  | [] =>
      tcb ← expect (tasks s !! current_tid s);
      if bool_decide (state tcb = Running) then Ret (None, s) else Panic NotImplemented
  end.

(** [threading::init]: the boot thread becomes task 0. *)
Definition init s tcb : outcome (Scheduler P) :=
  _ ← assert (bool_decide (tasks s !! 0 = None));
  Ret (mkSched (<[0 := tcb]> (tasks s)) (queue s) (current_tid s)).

(** ** The invariant *)

(** The current thread and the queue are the tasks, each once; the current one
    is running and the others are ready. *)
Definition sched_inv s : Prop :=
  NoDup (current_tid s :: queue s) ∧
  (∀ t, is_Some (tasks s !! t) ↔ t ∈ current_tid s :: queue s) ∧
  ∀ t tcb, tasks s !! t = Some tcb → state tcb = if t =? current_tid s then Running else Ready.

(** What the scheduler may not touch. *)
Definition payload s : gmap Tid (string * P) := (λ tcb, (name tcb, rest tcb)) <$> tasks s.

Lemma init_inv tcb :
  state tcb = Running → ∃ s, init sched_new tcb = Ret s ∧ sched_inv s.
Proof.
  intros Hst. eexists. split; [done|]. split_and!; simpl.
  - repeat constructor. set_solver.
  - intros t. rewrite list_elem_of_singleton, lookup_insert_is_Some, lookup_empty. unfold is_Some. naive_solver.
  - intros t tcb'. rewrite lookup_insert_Some, lookup_empty. intros [[<- <-]|[_ ?]]; [done|done].
Qed.

Lemma add_task_inv TIDS s tcb :
  sched_inv s → tasks s !! TIDS = None → state tcb = Ready →
  sched_inv (add_task TIDS s tcb).2.
Proof.
  intros (Hnd & Hdom & Hst) Hfresh Hr. split_and!; simpl.
  - assert (TIDS ∉ current_tid s :: queue s) as Hnew.
    { rewrite <-Hdom, Hfresh. by intros [??]. }
    rewrite app_comm_cons. apply NoDup_app. split_and!; [done|set_solver|by repeat constructor; set_solver].
  - intros t. rewrite lookup_insert_is_Some, Hdom, !elem_of_cons, elem_of_app, list_elem_of_singleton.
    destruct (decide (TIDS = t)) as [<-|]; naive_solver.
  - intros t tcb'. rewrite lookup_insert_Some. intros [[<- <-]|[Hne Ht]]; [|by apply Hst].
    destruct (Z.eqb_spec TIDS (current_tid s)) as [E|]; [|done].
    assert (is_Some (tasks s !! TIDS)) as [? ?] by (apply Hdom; rewrite E; set_solver). congruence.
Qed.

(** A switch: the head of the queue runs, the old thread goes to its end. *)
Lemma schedule_switch s new_tid q :
  sched_inv s → queue s = new_tid :: q →
  ∃ s', schedule s = Ret (Some (current_tid s, new_tid), s') ∧ sched_inv s' ∧
    current_tid s' = new_tid ∧ queue s' = q ++ [current_tid s] ∧ payload s' = payload s.
Proof.
  intros (Hnd & Hdom & Hst) Hq. rewrite Hq in Hnd, Hdom.
  assert (is_Some (tasks s !! current_tid s)) as [old Hold] by (apply Hdom; set_solver).
  assert (is_Some (tasks s !! new_tid)) as [new Hnew] by (apply Hdom; set_solver).
  assert (current_tid s ≠ new_tid) as Hne by (intros E; rewrite E in Hnd; inversion_clear Hnd; set_solver).
  unfold schedule, get_many_mut. rewrite Hq, Hold, Hnew, (proj2 (Z.eqb_neq _ _)) by done. simpl.
  eexists. split; [done|]. unfold sched_inv. cbn [tasks queue current_tid]. split_and!; try done.
  - assert (NoDup ([current_tid s] ++ (new_tid :: q))) as Hnd' by done.
    apply NoDup_app in Hnd' as (_ & Hcur & Hnq).
    change (NoDup ((new_tid :: q) ++ [current_tid s])). apply NoDup_app.
    split_and!; [done|set_solver|repeat constructor; set_solver].
  - intros t. rewrite !lookup_insert_is_Some, Hdom, !elem_of_cons, elem_of_app, list_elem_of_singleton.
    destruct (decide (new_tid = t)), (decide (current_tid s = t)); naive_solver.
  - intros t tcb. rewrite !lookup_insert_Some.
    intros [[<- <-]|[Hn [[<- <-]|[Hn' Ht]]]]; simpl.
    + by rewrite Z.eqb_refl.
    + by rewrite (proj2 (Z.eqb_neq _ _)) by done.
    + rewrite (Hst _ _ Ht), !(proj2 (Z.eqb_neq t _)) by done. done.
  - unfold payload. simpl. rewrite !fmap_insert. apply map_eq. intros t.
    rewrite !lookup_insert, !lookup_fmap. repeat case_decide; subst; rewrite ?Hold, ?Hnew; done.
Qed.

Lemma schedule_alone s :
  sched_inv s → queue s = [] → schedule s = Ret (None, s).
Proof.
  intros (_ & Hdom & Hst) Hq. unfold schedule. rewrite Hq.
  assert (is_Some (tasks s !! current_tid s)) as [tcb Htcb] by (apply Hdom; set_solver).
  rewrite Htcb. simpl. by rewrite (Hst _ _ Htcb), Z.eqb_refl, bool_decide_eq_true_2.
Qed.

(** [schedule] called [n] times. *)
Fixpoint schedules (n : nat) s : outcome (Scheduler P) :=
  match n with
  | O => Ret s
  | S n => '(_, s') ← schedule s; schedules n s'
  end.

(** The threads in the order they will run, from the current one on. *)
Definition rota s : list Tid := current_tid s :: queue s.

Lemma schedule_rota s :
  sched_inv s → ∃ r s', schedule s = Ret (r, s') ∧ sched_inv s' ∧ payload s' = payload s ∧
    rota s' = queue s ++ [current_tid s].
Proof.
  intros Hinv. destruct (queue s) as [|new_tid q] eqn:Hq.
  - rewrite schedule_alone by done. exists None, s. unfold rota. by rewrite Hq.
  - destruct (schedule_switch s new_tid q Hinv Hq) as (s' & -> & ? & Hc & Hq' & ?).
    eexists _, s'. split_and!; try done. unfold rota. by rewrite Hc, Hq'.
Qed.

Lemma schedules_rota n s :
  sched_inv s → (n ≤ length (rota s))%nat →
  ∃ s', schedules n s = Ret s' ∧ sched_inv s' ∧ payload s' = payload s ∧
    rota s' = drop n (rota s) ++ take n (rota s).
Proof.
  revert s. induction n as [|n IH]; intros s Hinv Hn; simpl.
  { exists s. by rewrite app_nil_r. }
  destruct (schedule_rota s Hinv) as (r & s1 & -> & Hinv1 & Hp1 & Hr1). cbn [mbind outcome_bind].
  destruct (IH s1 Hinv1) as (s' & Hs' & Hinv' & Hp' & Hr').
  { rewrite Hr1, length_app. simpl in *. lia. }
  exists s'. split_and!; [done|done|congruence|]. rewrite Hr', Hr1. simpl in Hn.
  rewrite drop_app_le, take_app_le by lia. by rewrite <-app_assoc.
Qed.

(** A scheduler is determined by its rota and its threads. *)
Lemma sched_ext s s' :
  sched_inv s → sched_inv s' → rota s' = rota s → payload s' = payload s → s' = s.
Proof.
  intros (_ & _ & Hst) (_ & _ & Hst') Hr Hp. destruct s as [m q c], s' as [m' q' c']. unfold rota in Hr. simpl in *.
  injection Hr as -> ->. f_equal. apply map_eq. intros t.
  apply (f_equal (lookup t)) in Hp. unfold payload in Hp. simpl in Hp. rewrite !lookup_fmap in Hp.
  destruct (m !! t) as [a|] eqn:Ea, (m' !! t) as [b|] eqn:Eb; try done. simpl in Hp. injection Hp as Hn Hrest.
  specialize (Hst _ _ Ea). specialize (Hst' _ _ Eb). destruct a, b; simpl in *. congruence.
Qed.

(** ** Properties *)

(** C31. The invariant holds from boot on: it holds when the boot thread has
    been registered, adding a ready thread under a number that is not in use keeps
    it, and [schedule] keeps it, never panics, and leaves the threads themselves
    alone. *)
Theorem scheduler_invariant s tcb TIDS :
  (state tcb = Running → ∃ s0, init sched_new tcb = Ret s0 ∧ sched_inv s0) ∧
  (sched_inv s → tasks s !! TIDS = None → state tcb = Ready → sched_inv (add_task TIDS s tcb).2) ∧
  (sched_inv s → ∃ r s', schedule s = Ret (r, s') ∧ sched_inv s' ∧ payload s' = payload s).
Proof.
  split_and!; [apply init_inv|apply add_task_inv|].
  intros Hinv. destruct (schedule_rota s Hinv) as (r & s' & ? & ? & ? & _). eauto.
Qed.

(** C30. Round robin: the thread that is [k]-th in the queue runs after [k + 1]
    calls of [schedule], so every thread runs once in each round, and after a
    whole round the scheduler is back in the state it was in. *)
Theorem scheduler_round_robin s :
  sched_inv s →
  (∀ k t, queue s !! k = Some t → ∃ s', schedules (S k) s = Ret s' ∧ current_tid s' = t) ∧
  schedules (S (length (queue s))) s = Ret s.
Proof.
  intros Hinv. split.
  - intros k t Ht. pose proof (lookup_lt_Some _ _ _ Ht) as Hk.
    destruct (schedules_rota (S k) s Hinv) as (s' & Hs' & _ & _ & Hr); [simpl; lia|].
    exists s'. split; [done|]. simpl in Hr. rewrite (drop_S _ _ _ Ht) in Hr. by injection Hr.
  - destruct (schedules_rota (S (length (queue s))) s Hinv) as (s' & Hs' & Hinv' & Hp & Hr); [simpl; lia|].
    rewrite Hs'. f_equal. apply sched_ext; try done. rewrite Hr.
    rewrite drop_ge, take_ge by (simpl; lia). done.
Qed.

End Operations.

(** ** The cell around the scheduler *)

(** [IrqCell<Scheduler>] of one core, with the interrupt flag of the core. *)
Record irq_core (P : Type) := mkIrqCore { cell : option Z; flag : bool; data : Scheduler P }.
Arguments mkIrqCore {P}.
Arguments cell {P}.
Arguments flag {P}.
Arguments data {P}.

Section IrqCell.
Context {P : Type}.
Implicit Types (c : irq_core P).

(** [IrqCell::lock] and [IrqCell::unlock]. *)
Definition irq_lock c : outcome (irq_core P) :=
  if bool_decide (is_Some (cell c)) then Panic AssertionFailed else
  let '(st, f) := get_and_disable_interrupts (flag c) in
  Ret (mkIrqCore (Some st) f (data c)).

Definition irq_unlock c : outcome (irq_core P) :=
  old_state ← expect (cell c);
  Ret (mkIrqCore None (set_interrupts old_state (flag c)) (data c)).

(** [thread_yield]: the guard is dropped by the thread that was switched to,
    either at the end of its own [thread_yield] or by its startup function. *)
Definition thread_yield c : outcome (irq_core P) :=
  c ← irq_lock c;
  '(_, s) ← schedule (data c);
  irq_unlock (mkIrqCore (cell c) (flag c) s).

(** [thread_yield] never panics outside the cell, keeps the invariant and
    switches to the head of the queue; the flag the next thread is given is the
    one that the thread which yielded had. *)
Theorem thread_yield_correct c :
  cell c = None → sched_inv (data c) →
  ∃ c', thread_yield c = Ret c' ∧ cell c' = None ∧ sched_inv (data c') ∧
    rota (data c') = queue (data c) ++ [current_tid (data c)] ∧ flag c' = flag c.
Proof.
  intros Hc Hinv. destruct (schedule_rota (data c) Hinv) as (r & s' & Hs & Hinv' & _ & Hr).
  unfold thread_yield, irq_lock. rewrite Hc. simpl. rewrite Hs. simpl.
  eexists. split; [done|]. split_and!; try done. simpl. by destruct (flag c).
Qed.

End IrqCell.

(** *** The properties at work *)

Definition demo_sched : Scheduler unit :=
  mkSched (<[0 := mkTcb "init" Running tt]> (<[1 := mkTcb "hellooo" Ready tt]> ∅)) [1] 0.

Lemma demo_sched_inv : sched_inv demo_sched.
Proof.
  split_and!; simpl.
  - repeat constructor; set_solver.
  - intros t. rewrite !lookup_insert_is_Some, lookup_empty, !elem_of_cons. unfold is_Some.
    destruct (decide (0 = t)), (decide (1 = t)); set_solver.
  - intros t tcb. rewrite !lookup_insert_Some, lookup_empty.
    intros [[<- <-]|[_ [[<- <-]|[_ ?]]]]; done.
Qed.

Lemma scheduler_invariant_witness :
  (∃ s0, init (@sched_new unit) (mkTcb "init" Running tt) = Ret s0 ∧ sched_inv s0) ∧
  (∃ r s', schedule demo_sched = Ret (r, s') ∧ sched_inv s' ∧ payload s' = payload demo_sched).
Proof.
  destruct (scheduler_invariant demo_sched (mkTcb "init" Running tt) 2) as (H1 & _ & H3).
  split; [apply H1; reflexivity|apply H3; exact demo_sched_inv].
Defined.

Lemma scheduler_round_robin_witness :
  (∃ s', schedules 1 demo_sched = Ret s' ∧ current_tid s' = 1) ∧ schedules 2 demo_sched = Ret demo_sched.
Proof.
  destruct (scheduler_round_robin demo_sched demo_sched_inv) as [H1 H2].
  split; [apply (H1 0%nat); reflexivity|exact H2].
Defined.

Lemma thread_yield_correct_witness :
  ∃ c', thread_yield (mkIrqCore None true demo_sched) = Ret c' ∧ current_tid (data c') = 1 ∧ flag c' = true.
Proof.
  destruct (thread_yield_correct (mkIrqCore None true demo_sched)) as (c' & Hy & _ & _ & Hr & Hf);
    [reflexivity|exact demo_sched_inv|].
  exists c'. split; [exact Hy|]. split; [|exact Hf]. unfold rota in Hr. simpl in Hr. congruence.
Defined.

(** The flag of a thread does not come back to it: a thread that yields
    with interrupts on runs again with interrupts off when the thread that yields
    to it has them off. *)
Theorem yield_loses_interrupt_flag :
  ∃ c1 c2, thread_yield (mkIrqCore None true demo_sched) = Ret c1 ∧ current_tid (data c1) = 1 ∧
    thread_yield (mkIrqCore (cell c1) false (data c1)) = Ret c2 ∧
    current_tid (data c2) = 0 ∧ flag c2 = false.
Proof. eexists _, _. split; [reflexivity|]. split; [reflexivity|]. split; [reflexivity|]. split; reflexivity. Qed.
