(* ===== verification/Machine.v ===== *)
(** * Machine: a core as the assembly of the kernel sees it

    The registers, the words of memory that are read and written through them, and the
    instructions of the assembly blocks of [kernel/src/hal/arch/amd64/mod.rs], each as a
    function of the core.  Every access of those blocks is to a whole word at a
    multiple of eight; any other is outside of the model. *)

From stdpp Require Import base list numbers functions.
From S2P Require Import Prelude.

Open Scope Z_scope.

Inductive reg :=
  | rax | rbx | rcx | rdx | rsi | rdi | rbp | rsp
  | r8 | r9 | r10 | r11 | r12 | r13 | r14 | r15.

#[global] Instance reg_eq_dec : EqDecision reg.
Proof. solve_decision. Defined.

Record machine := mkMachine {
  regs : reg → Z;
  words : Z → Z;
  rip : Z;
  rflags : Z;
  cs : Z;
  ss : Z;
  cr3 : Z
}.

Definition set_reg (r : reg) (v : Z) (m : machine) : machine :=
  mkMachine (<[r := v]> (regs m)) (words m) (rip m) (rflags m) (cs m) (ss m) (cr3 m).

Definition set_rip (v : Z) (m : machine) : machine :=
  mkMachine (regs m) (words m) v (rflags m) (cs m) (ss m) (cr3 m).

Definition set_cr3 (v : Z) (m : machine) : machine :=
  mkMachine (regs m) (words m) (rip m) (rflags m) (cs m) (ss m) v.

Definition load_word (a : Z) (m : machine) : outcome Z :=
  if a mod 8 =? 0 then Ret (words m a) else Panic Undefined.

Definition store_word (a v : Z) (m : machine) : outcome machine :=
  if a mod 8 =? 0 then Ret (mkMachine (regs m) (<[a := v]> (words m)) (rip m) (rflags m) (cs m) (ss m) (cr3 m))
  else Panic Undefined.

(** [push], [pop] and [ret]. *)
Definition push_word (v : Z) (m : machine) : outcome machine :=
  let a := (regs m rsp - 8) mod 2 ^ 64 in store_word a v (set_reg rsp a m).

Definition pop (m : machine) : outcome (Z * machine) :=
  v ← load_word (regs m rsp) m; Ret (v, set_reg rsp ((regs m rsp + 8) mod 2 ^ 64) m).

Definition push_reg (r : reg) (m : machine) : outcome machine := push_word (regs m r) m.
Definition pop_reg (r : reg) (m : machine) : outcome machine := '(v, m) ← pop m; Ret (set_reg r v m).
Definition ret (m : machine) : outcome machine := '(v, m) ← pop m; Ret (set_rip v m).

Definition set_rflags (v : Z) (m : machine) : machine :=
  mkMachine (regs m) (words m) (rip m) v (cs m) (ss m) (cr3 m).

(** [add r, n]; the flags it leaves are a parameter, since nothing reads them. *)
Definition add_imm (flags : Z → Z → Z) (r : reg) (n : Z) (m : machine) : outcome machine :=
  Ret (set_rflags (flags (regs m r) n) (set_reg r ((regs m r + n) mod 2 ^ 64) m)).

Fixpoint push_all (l : list Z) (m : machine) : outcome machine :=
  match l with [] => Ret m | v :: l => m ← push_word v m; push_all l m end.

Fixpoint push_regs (l : list reg) (m : machine) : outcome machine :=
  match l with [] => Ret m | r :: l => m ← push_reg r m; push_regs l m end.

Fixpoint pop_regs (l : list reg) (m : machine) : outcome machine :=
  match l with [] => Ret m | r :: l => m ← pop_reg r m; pop_regs l m end.

(** ** Calling convention *)

(** The registers that a function of the System V convention gives back as they were. *)
Definition callee_saved (r : reg) : bool :=
  match r with rbx | rbp | rsp | r12 | r13 | r14 | r15 => true | _ => false end.

(** A function from its first instruction to the one after its [ret], with the return
    address on a stack that ends at [top]: given [depth] words of stack, it returns
    there, gives the registers back, and leaves the stack of its callers alone.  It does
    so when the stack above the return address is [offset] bytes off a multiple of
    sixteen.  The convention asks this of a function for the offset 0 only; one that is
    called eight bytes off has to keep it there too, like code without instructions on
    aligned vectors, which the target [x86_64-unknown-popcorn.json] turns off. *)
Class SysV (offset depth top : Z) (f : machine → outcome machine) := sysv_law m :
  8 * depth ≤ regs m rsp → regs m rsp + 8 ≤ top → regs m rsp mod 8 = 0 → (regs m rsp + 8) mod 16 = offset → ∃ m', f m = Ret m' ∧
    (∀ r, callee_saved r = true → r ≠ rsp → regs m' r = regs m r) ∧ regs m' rsp = regs m rsp + 8 ∧
    rip m' = words m (regs m rsp) ∧ (∀ a, regs m rsp + 8 ≤ a < top → words m' a = words m a) ∧
    cs m' = cs m ∧ ss m' = ss m ∧ cr3 m' = cr3 m.

(** [call f], with the address of the instruction behind it. *)
Definition call (f : machine → outcome machine) (return_address : Z) (m : machine) : outcome machine :=
  m ← push_word return_address m; f m.

(** What a push at a place with room does. *)
Lemma push_ok v m :
  8 ≤ regs m rsp < 2 ^ 64 → regs m rsp mod 8 = 0 →
  push_word v m = Ret (mkMachine (<[rsp := regs m rsp - 8]> (regs m)) (<[regs m rsp - 8 := v]> (words m))
    (rip m) (rflags m) (cs m) (ss m) (cr3 m)).
Proof.
  intros Hs Ha. unfold push_word, store_word. rewrite (Z.mod_small (regs m rsp - 8)) by lia.
  rewrite (proj2 (Z.eqb_eq _ _)); [done|]. Z.div_mod_to_equations. lia.
Qed.

Lemma pop_ok m :
  0 ≤ regs m rsp < 2 ^ 64 - 8 → regs m rsp mod 8 = 0 →
  pop m = Ret (words m (regs m rsp), set_reg rsp (regs m rsp + 8) m).
Proof.
  intros Hs Ha. unfold pop, load_word. rewrite (proj2 (Z.eqb_eq _ _) Ha). cbn [mbind outcome_bind].
  by rewrite Z.mod_small by lia.
Qed.

(** ** Frames *)

(** The words from [a] on are [vs]. *)
Definition frame (m : machine) (a : Z) (vs : list Z) : Prop := ∀ k v, vs !! k = Some v → words m (a + 8 * Z.of_nat k) = v.

Lemma frame_cons m a v vs : frame m a (v :: vs) ↔ words m a = v ∧ frame m (a + 8) vs.
Proof.
  split.
  - intros Hf. split; [rewrite <-(Z.add_0_r a); by apply (Hf 0%nat)|]. intros k w Hk.
    rewrite <-(Hf (S k) w Hk). f_equal. lia.
  - intros [H0 Hf] [|k] w Hk; simpl in Hk; [injection Hk as <-; by rewrite Z.add_0_r|]. rewrite <-(Hf k w Hk). f_equal. lia.
Qed.

Lemma frame_app m a vs ws : frame m a (vs ++ ws) ↔ frame m a vs ∧ frame m (a + 8 * Z.of_nat (length vs)) ws.
Proof.
  revert a. induction vs as [|v vs IH]; intros a; simpl.
  - rewrite Z.add_0_r. split; [intros; split; [by intros ??|done]|by intros [??]].
  - rewrite !frame_cons, IH. replace (a + 8 + 8 * Z.of_nat (length vs)) with (a + 8 * Z.of_nat (S (length vs))) by lia. tauto.
Qed.

(** A frame is kept by what only writes below it. *)
Lemma frame_above m m' a b vs : (∀ x, b ≤ x → words m' x = words m x) → b ≤ a → frame m a vs → frame m' a vs.
Proof. intros Hw Hb Hf k v Hk. rewrite Hw by lia. by apply Hf. Qed.

(** What pushes and pops leave alone. *)
Definition same_control (m m' : machine) : Prop := rip m' = rip m ∧ cs m' = cs m ∧ ss m' = ss m ∧ cr3 m' = cr3 m.

#[global] Instance same_control_preorder : PreOrder same_control.
Proof. split; [by intros m|]. intros m1 m2 m3 (?&?&?&?) (?&?&?&?). split_and!; congruence. Qed.

(** The stack pointer has room for [n] pushes. *)
Definition room (n : Z) (m : machine) : Prop := 8 * n ≤ regs m rsp < 2 ^ 64 - 8 ∧ regs m rsp mod 8 = 0.

Lemma push_step n v m :
  room (n + 1) m → 0 ≤ n →
  ∃ m', push_word v m = Ret m' ∧ room n m' ∧ regs m' rsp = regs m rsp - 8 ∧ (∀ r, r ≠ rsp → regs m' r = regs m r) ∧
    words m' (regs m rsp - 8) = v ∧ (∀ a, regs m rsp ≤ a → words m' a = words m a) ∧ same_control m m' ∧ rflags m' = rflags m.
Proof.
  intros [Hs Ha] Hn. rewrite push_ok by (done || lia). eexists. split; [reflexivity|]. unfold room. cbn [regs words].
  rewrite fn_lookup_insert. split_and!; try done; try lia.
  - Z.div_mod_to_equations. lia.
  - intros r Hr. by rewrite fn_lookup_insert_ne.
  - by rewrite fn_lookup_insert.
  - intros a Hle. rewrite fn_lookup_insert_ne by lia. done.
Qed.

(** [m'] is [m] after [vs] have been pushed, with room for [n] more. *)
Record pushed (n : Z) (vs : list Z) (m m' : machine) : Prop := {
  pushed_room : room n m';
  pushed_rsp : regs m' rsp = regs m rsp - 8 * Z.of_nat (length vs);
  pushed_regs r : r ≠ rsp → regs m' r = regs m r;
  pushed_frame : frame m' (regs m' rsp) (rev vs);
  pushed_words a : regs m rsp ≤ a → words m' a = words m a;
  pushed_control : same_control m m';
  pushed_rflags : rflags m' = rflags m
}.

Lemma push_all_ok vs n m :
  0 ≤ n → room (n + Z.of_nat (length vs)) m → ∃ m', push_all vs m = Ret m' ∧ pushed n vs m m'.
Proof.
  revert m. induction vs as [|v vs IH]; intros m Hn Hroom; cbn [push_all].
  { exists m. split; [done|]. rewrite Z.add_0_r in Hroom. split; try done; cbn [length]; lia. }
  destruct (push_step (n + Z.of_nat (length vs)) v m) as (m1 & -> & Hroom1 & Hs1 & Hr1 & Hw1 & Hm1 & Hc1 & Hf1);
    [by replace (_ + 1) with (n + Z.of_nat (length (v :: vs))) by (simpl; lia)|lia|]. cbn [mbind outcome_bind].
  destruct (IH m1 Hn Hroom1) as (m2 & -> & [Hroom2 Hs2 Hr2 Hfr2 Hm2 Hc2 Hf2]). exists m2. split; [done|]. split; try done.
  - cbn [length]. lia.
  - intros x Hx. by rewrite Hr2, Hr1.
  - cbn [rev]. rewrite frame_app. split; [done|]. rewrite length_rev. apply frame_cons. split; [|by intros k w].
    replace (_ + _) with (regs m rsp - 8) by lia. rewrite Hm2 by lia. done.
  - intros a Ha. rewrite Hm2, Hm1 by lia. done.
  - by etransitivity.
  - congruence.
Qed.

(** Registers other than [rsp] are pushed with the values they have. *)
Lemma push_regs_all l m m0 :
  rsp ∉ l → (∀ r, r ≠ rsp → regs m r = regs m0 r) → push_regs l m = push_all (regs m0 <$> l) m.
Proof.
  revert m. induction l as [|r l IH]; intros m Hl Hm; [done|]. apply not_elem_of_cons in Hl as [Hr Hl].
  rewrite fmap_cons. cbn [push_regs push_all]. unfold push_reg. rewrite Hm by done.
  destruct (push_word (regs m0 r) m) as [m1|] eqn:E; [|done]. cbn [mbind outcome_bind]. apply IH; [done|].
  intros x Hx. rewrite <-Hm by done. revert E. unfold push_word, store_word. case_match; [|done]. intros [= <-].
  unfold set_reg. cbn [regs]. by rewrite fn_lookup_insert_ne.
Qed.

Lemma push_regs_ok l n m :
  rsp ∉ l → 0 ≤ n → room (n + Z.of_nat (length l)) m → ∃ m', push_regs l m = Ret m' ∧ pushed n (regs m <$> l) m m'.
Proof. intros Hl Hn Hroom. rewrite (push_regs_all l m m) by done. apply push_all_ok; [done|]. by rewrite length_fmap. Qed.

Lemma pop_step m :
  room 0 m → ∃ m', pop m = Ret (words m (regs m rsp), m') ∧ regs m' rsp = regs m rsp + 8 ∧ (∀ r, r ≠ rsp → regs m' r = regs m r) ∧
    words m' = words m ∧ same_control m m'.
Proof.
  intros [Hs Ha]. rewrite pop_ok by (done || lia). eexists. split; [reflexivity|]. unfold set_reg. cbn [regs words].
  rewrite fn_lookup_insert. split_and!; try done. intros r Hr. by rewrite fn_lookup_insert_ne.
Qed.

Lemma pop_regs_ok l vs m :
  NoDup l → rsp ∉ l → length vs = length l → frame m (regs m rsp) vs → 0 ≤ regs m rsp → regs m rsp mod 8 = 0 →
  regs m rsp + 8 * Z.of_nat (length l) < 2 ^ 64 - 8 →
  ∃ m', pop_regs l m = Ret m' ∧ regs m' rsp = regs m rsp + 8 * Z.of_nat (length l) ∧ regs m' <$> l = vs ∧
    (∀ r, r ≠ rsp → r ∉ l → regs m' r = regs m r) ∧ words m' = words m ∧ same_control m m'.
Proof.
  revert vs m. induction l as [|r l IH]; intros [|v vs] m Hnd Hl Hlen Hfr Hs Ha Hb; simplify_eq/=.
  { exists m. split_and!; try done. lia. }
  apply list.NoDup_cons in Hnd as [Hrl Hnd]. apply not_elem_of_cons in Hl as [Hr Hl]. apply frame_cons in Hfr as [Hv Hfr].
  unfold pop_reg. destruct (pop_step m) as (m1 & -> & Hs1 & Hr1 & Hw1 & Hc1); [split; [lia|done]|]. cbn [mbind outcome_bind].
  set (m1' := set_reg r (words m (regs m rsp)) m1). assert (regs m1' rsp = regs m rsp + 8) as Hs1'.
  { unfold m1', set_reg. cbn [regs]. by rewrite fn_lookup_insert_ne. }
  destruct (IH vs m1' Hnd Hl) as (m2 & -> & Hs2 & Hv2 & Hr2 & Hw2 & Hc2); [lia|..|lia|Z.div_mod_to_equations; lia|lia|].
  { rewrite Hs1'. intros k w Hk. unfold m1'. cbn [set_reg words]. rewrite Hw1. by apply Hfr. }
  exists m2. split_and!; [done|lia|..].
  - rewrite Hv2, Hr2 by (congruence || done). unfold m1', set_reg. cbn [regs]. by rewrite fn_lookup_insert, Hv.
  - intros x Hx [Hxr Hxl]%not_elem_of_cons. rewrite Hr2 by done. unfold m1', set_reg. cbn [regs]. rewrite fn_lookup_insert_ne by done. by apply Hr1.
  - by rewrite Hw2.
  - by etransitivity; [exact Hc1|].
Qed.

(** A function that returns at once. *)
#[global] Instance ret_sysv offset depth top : 0 ≤ depth → top < 2 ^ 64 → SysV offset depth top ret.
Proof.
  intros Hd Ht m Hlo Hhi Ha _. unfold ret. rewrite pop_ok by lia. cbn [mbind outcome_bind]. eexists. split; [reflexivity|].
  unfold set_rip, set_reg. cbn [regs words rip cs ss cr3]. rewrite fn_lookup_insert. split_and!; try done.
  intros r _ Hr. by rewrite fn_lookup_insert_ne.
Qed.
