(* ===== verification/IrqEntry.v ===== *)
(** * IrqEntry: from an interrupt to its handler and back

    The assembly of [kernel/src/hal/arch/amd64/mod.rs] that an interrupt runs through,
    on a [machine]: the stub of its vector, the entry they share, and the way back.
    What the processor does when it delivers an interrupt to kernel code and on [iretq]
    is defined here too.  The handler the entry calls is any function of the calling
    convention. *)

From stdpp Require Import base list numbers functions strings.
From S2P Require Import Prelude Memory Machine.

Open Scope Z_scope.

(** ** The processor *)

(** The exceptions for which the processor pushes an error code. *)
Definition pushes_error (n : Z) : bool := existsb (Z.eqb n) [8; 10; 11; 12; 13; 14; 17; 21; 29; 30].

(** The stack of an interrupt starts at a multiple of 16, at or below the stack pointer
    or the stack that the gate names. *)
Definition irq_stack (ist : option Z) (m : machine) : Z := Z.land (default (regs m rsp) ist) (usize_not 15).

(** Delivery through an interrupt gate: the state that is left goes to the stack, and the
    trap, interrupt, nested task and resume flags are cleared.  That a fault is pushed
    with the resume flag set, which [iretq] uses up, is left out. *)
Definition deliver (ist : option Z) (handler n error : Z) (m : machine) : outcome machine :=
  let m1 := set_reg rsp (irq_stack ist m) m in
  m1 ← push_all ([ss m; regs m rsp; rflags m; cs m; rip m] ++ (if pushes_error n then [error] else [])) m1;
  Ret (mkMachine (regs m1) (words m1) handler (Z.land (rflags m) (usize_not 0x14300)) 8 (ss m) (cr3 m)).

Definition iretq (m : machine) : outcome machine :=
  '(ip, m) ← pop m;
  '(code, m) ← pop m;
  '(flags, m) ← pop m;
  '(sp, m) ← pop m;
  '(data, m) ← pop m;
  Ret (mkMachine (<[rsp := sp]> (regs m)) (words m) ip flags code data (cr3 m)).

(** ** The code *)

(** [irq_handler!] and the list of its uses. *)
Definition amd64_irq_handler (n : Z) (m : machine) : outcome machine :=
  if existsb (Z.eqb n) [8; 10; 11; 12; 13; 14; 17; 21; 29; 30]
  then push_all [n] m else push_all [0; n] m.

Record IrqData := mkIrqData {
  irq_num : Z; irq_error : Z; irq_rip : Z; irq_cs : Z; irq_flags : Z; irq_rsp : Z; irq_ss : Z
}.

(** The layout of [IrqData]. *)
Definition read_irq_data (m : machine) (a : Z) : IrqData :=
  mkIrqData (words m a) (words m (a + 8)) (words m (a + 16)) (words m (a + 24)) (words m (a + 32)) (words m (a + 40)) (words m (a + 48)).

(** [amd64_global_irq_handler] up to the call, and behind it. *)
Definition irq_enter (alu : Z → Z → Z) (m : machine) : outcome machine :=
  m ← push_regs [rax; rdi; rsi; rdx; rcx; r8; r9; r10; r11] m;
  m ← push_word 0 m;
  add_imm alu rdi 80 (set_reg rdi (regs m rsp) m).

Definition irq_leave (alu : Z → Z → Z) (m : machine) : outcome machine :=
  m ← pop_reg rax m;
  m ← pop_regs [r11; r10; r9; r8; rcx; rdx; rsi; rdi; rax] m;
  m ← add_imm alu rsp 16 m;
  iretq m.

Definition amd64_global_irq_handler (alu : Z → Z → Z) (handler : machine → outcome machine) (return_address : Z) (m : machine) :
    outcome machine :=
  m ← irq_enter alu m;
  m ← call handler return_address m;
  irq_leave alu m.

(** An interrupt from its delivery to the end of its handling. *)
Definition irq_entered (alu : Z → Z → Z) (ist : option Z) (stub n error : Z) (m : machine) : outcome machine :=
  m ← deliver ist stub n error m;
  m ← amd64_irq_handler n m;
  irq_enter alu m.

Definition interrupt (alu : Z → Z → Z) (ist : option Z) (stub n error : Z) (handler : machine → outcome machine) (return_address : Z)
    (m : machine) : outcome machine :=
  m ← deliver ist stub n error m;
  m ← amd64_irq_handler n m;
  amd64_global_irq_handler alu handler return_address m.

(** ** The handler *)

Inductive DebugTy := Breakpoint.

Inductive Ty :=
  | FloatingPoint | Debug (ty : DebugTy) | IllegalInstruction | PageFault (access_addr : Z) | BusFault | Nmi | TyPanic
  | Generic (reason : string) | Unknown (reason : string).

Record Exception := mkException { ty : Ty; at_instruction : Z }.

(** What [amd64_handler2] does: it calls one of the two handlers of [main.rs], or warns. *)
Inductive IrqEvent := exception_event (e : Exception) | irq_event (num : Z) | spurious_pic (line : Z) | spurious_apic.

Definition one_of (n : Z) (l : list Z) : bool := existsb (Z.eqb n) l.
Definition among (n first last : Z) : bool := (first <=? n) && (n <=? last).

Definition generic_reason (e : Z) : outcome string :=
  if e =? 4 then Ret "Overflow check"%string
  else if e =? 5 then Ret "Bound check"%string
  else if one_of e [9; 15; 31] || among e 22 27 then Ret "Reserved"%string
  else if e =? 10 then Ret "Invalid TSS"%string
  else if e =? 11 then Ret "Segment not present"%string
  else if e =? 12 then Ret "Stack segment fault"%string
  else if e =? 13 then Ret "General protection fault"%string
  else if e =? 18 then Ret "Machine check"%string
  else if e =? 21 then Ret "Control protection exception"%string
  else Panic AssertionFailed.

Definition unknown_reason (e : Z) : outcome string :=
  if e =? 20 then Ret "Virtualization exception"%string
  else if e =? 28 then Ret "Hypervisor injection"%string
  else if e =? 29 then Ret "VMM communication exception"%string
  else if e =? 30 then Ret "Security exception"%string
  else Panic AssertionFailed.

(** [amd64_handler2]; [unreachable!], and a number without an arm, are [AssertionFailed]. *)
Definition amd64_handler2 (cr2 : Z) (data : IrqData) : outcome IrqEvent :=
  let e := irq_num data mod 2 ^ 8 in
  let fault t := Ret (exception_event (mkException t (irq_rip data))) in
  if one_of e [0; 16; 19] then fault FloatingPoint
  else if one_of e [1; 3] then fault (Debug Breakpoint)
  else if e =? 6 then fault IllegalInstruction
  else if e =? 14 then fault (PageFault cr2)
  else if one_of e [7; 17] then fault BusFault
  else if e =? 2 then fault Nmi
  else if e =? 8 then fault TyPanic
  else if one_of e [4; 5; 15; 18; 31] || among e 9 13 || among e 21 27 then reason ← generic_reason e; fault (Generic reason)
  else if (e =? 20) || among e 28 30 then reason ← unknown_reason e; fault (Unknown reason)
  else if among e 32 47 then Ret (spurious_pic (e - 32))
  else if among e 48 254 then Ret (irq_event (irq_num data))
  else if e =? 255 then Ret spurious_apic
  else Panic AssertionFailed.

(** [exception_handler]: whether it returns, and does not stop the core. *)
Definition exception_handler (e : Exception) : bool :=
  match ty e with
  | FloatingPoint | IllegalInstruction | BusFault | Generic _ => false
  | PageFault _ => false
  | Nmi | TyPanic => false
  | Unknown _ | Debug _ => true
  end.

(** ** The way in *)

Lemma irq_stack_aligned ist m :
  is_usize (default (regs m rsp) ist) → irq_stack ist m mod 16 = 0 ∧ irq_stack ist m ≤ default (regs m rsp) ist ∧ 0 ≤ irq_stack ist m.
Proof.
  intros Hu. unfold irq_stack. change 15 with (2 ^ 4 - 1). rewrite mask_low_bits by (done || lia). unfold is_usize in Hu.
  change (2 ^ 4) with 16. Z.div_mod_to_equations. lia.
Qed.

(** What the stub and the processor leave on the stack, the last word pushed first. *)
Definition irq_frame (n error : Z) (m : machine) : list Z :=
  [n; (if pushes_error n then error else 0); rip m; cs m; rflags m; regs m rsp; ss m].

Lemma deliver_stub_ok ist stub n error depth m :
  0 ≤ depth → is_usize (default (regs m rsp) ist) → 8 * (depth + 7) ≤ irq_stack ist m → irq_stack ist m < 2 ^ 64 - 8 →
  ∃ m', (m ← deliver ist stub n error m; amd64_irq_handler n m) = Ret m' ∧ room depth m' ∧
    regs m' rsp = irq_stack ist m - 56 ∧ (∀ r, r ≠ rsp → regs m' r = regs m r) ∧ frame m' (regs m' rsp) (irq_frame n error m) ∧
    (∀ a, irq_stack ist m ≤ a → words m' a = words m a) ∧ ss m' = ss m ∧ cr3 m' = cr3 m ∧ cs m' = 8.
Proof.
  intros Hd Hu Hlow Hhigh. destruct (irq_stack_aligned ist m Hu) as (Hmod & _ & Hpos). set (s := irq_stack ist m) in *.
  set (l1 := [ss m; regs m rsp; rflags m; cs m; rip m] ++ (if pushes_error n then [error] else [])).
  set (l2 := if pushes_error n then [n] else [0; n]).
  assert (length l1 + length l2 = 7)%nat as Hlen by (unfold l1, l2; by destruct (pushes_error n)).
  unfold deliver. fold s l1.
  destruct (push_all_ok l1 (depth + Z.of_nat (length l2)) (set_reg rsp s m)) as (m1 & -> & [Hroom1 Hs1 Hr1 Hfr1 Hw1 (_ & _ & Hss1 & Hc1) _]).
  { lia. }
  { unfold room, set_reg. cbn [regs]. rewrite fn_lookup_insert. split; [lia|]. Z.div_mod_to_equations. lia. }
  cbn [mbind outcome_bind]. set (m1' := mkMachine _ _ _ _ _ _ _).
  change (amd64_irq_handler n m1') with (if pushes_error n then push_all [n] m1' else push_all [0; n] m1').
  replace (if pushes_error n then _ else _) with (push_all l2 m1') by (unfold l2; by destruct (pushes_error n)).
  destruct (push_all_ok l2 depth m1' Hd Hroom1) as (m2 & -> & [Hroom2 Hs2 Hr2 Hfr2 Hw2 (_ & Hcs2 & Hss2 & Hc2) _]).
  assert (regs (set_reg rsp s m) rsp = s) as Hs0 by (unfold set_reg; cbn [regs]; by rewrite fn_lookup_insert).
  rewrite Hs0 in *. change (regs m1') with (regs m1) in *. change (words m1') with (words m1) in *.
  exists m2. split_and!; try done; try lia.
  - intros r Hr. rewrite Hr2, Hr1 by done. unfold set_reg. cbn [regs]. by rewrite fn_lookup_insert_ne.
  - replace (irq_frame n error m) with (rev l2 ++ rev l1) by (unfold l1, l2, irq_frame; by destruct (pushes_error n)).
    apply frame_app. split; [done|]. rewrite length_rev. replace (_ + _) with (regs m1 rsp) by lia.
    by apply (frame_above m1 _ _ (regs m1 rsp)).
  - intros a Ha. rewrite Hw2, Hw1 by lia. done.
Qed.

(** A closed statement on a list of registers. *)
Ltac decided := lazymatch goal with |- ?P => apply (bool_decide_eq_true_1 P); vm_compute; reflexivity end.

(** The registers the entry saves, in the order of their pops. *)
Abbreviation saved := [r11; r10; r9; r8; rcx; rdx; rsi; rdi; rax].

Lemma irq_enter_ok alu depth m :
  0 ≤ depth → room (depth + 10) m → ∃ m', irq_enter alu m = Ret m' ∧ room depth m' ∧ regs m' rsp = regs m rsp - 80 ∧
    regs m' rdi = regs m rsp ∧ (∀ r, r ≠ rsp → r ≠ rdi → regs m' r = regs m r) ∧
    frame m' (regs m' rsp) (0 :: (regs m <$> saved)) ∧ (∀ a, regs m rsp ≤ a → words m' a = words m a) ∧ same_control m m'.
Proof.
  intros Hd Hroom. unfold irq_enter.
  destruct (push_regs_ok [rax; rdi; rsi; rdx; rcx; r8; r9; r10; r11] (depth + 1) m) as (m1 & -> & [Hroom1 Hs1 Hr1 Hfr1 Hw1 Hc1 _]).
  { by decided. } { lia. } { by replace (_ + _) with (depth + 10) by (simpl; lia). }
  cbn [mbind outcome_bind length fmap list_fmap] in *.
  destruct (push_step depth 0 m1 Hroom1 Hd) as (m2 & -> & Hroom2 & Hs2 & Hr2 & Hv2 & Hw2 & Hc2 & _). cbn [mbind outcome_bind].
  unfold add_imm. eexists. split; [reflexivity|]. unfold set_rflags, set_reg, room. cbn [regs words].
  rewrite (fn_lookup_insert_ne _ rdi rsp) by done. rewrite (fn_lookup_insert_ne _ rdi rsp) by done. rewrite !fn_lookup_insert.
  destruct Hroom as [Hb Hm], Hroom2 as [Hb2 Hm2]. split_and!; try done; try lia.
  - rewrite Z.mod_small by lia. lia.
  - intros r Hr Hdi. rewrite !fn_lookup_insert_ne by done. by rewrite Hr2, Hr1.
  - apply frame_cons. rewrite Hs2. split; [done|]. replace (_ - 8 + 8) with (regs m1 rsp) by lia.
    by apply (frame_above m1 _ _ (regs m1 rsp)).
  - intros a Ha. rewrite Hw2, Hw1 by lia. done.
  - by etransitivity.
Qed.

(** ** The way out *)

Lemma iretq_ok m ip code flags sp data :
  0 ≤ regs m rsp → regs m rsp mod 8 = 0 → regs m rsp + 40 < 2 ^ 64 → frame m (regs m rsp) [ip; code; flags; sp; data] →
  ∃ m', iretq m = Ret m' ∧ (∀ r, r ≠ rsp → regs m' r = regs m r) ∧ regs m' rsp = sp ∧ words m' = words m ∧
    rip m' = ip ∧ rflags m' = flags ∧ cs m' = code ∧ ss m' = data ∧ cr3 m' = cr3 m.
Proof.
  intros Hs Ha Hb. rewrite !frame_cons. intros (F1 & F2 & F3 & F4 & F5 & _).
  pose (a := regs m rsp). unfold iretq.
  repeat (rewrite pop_ok by (unfold set_reg; cbn [regs]; rewrite ?fn_lookup_insert; Z.div_mod_to_equations; lia);
    cbn [mbind outcome_bind set_reg regs words rip rflags cs ss cr3]).
  eexists. split; [reflexivity|]. cbn [regs words rip rflags cs ss cr3].
  rewrite !fn_lookup_insert. split_and!; try done.
  intros r Hr. by rewrite !fn_lookup_insert_ne.
Qed.

Lemma irq_leave_ok alu m vs n error ip code flags sp data :
  0 ≤ regs m rsp → regs m rsp mod 8 = 0 → regs m rsp + 136 < 2 ^ 64 → length vs = 9%nat →
  frame m (regs m rsp) ((0 :: vs) ++ [n; error; ip; code; flags; sp; data]) →
  ∃ m', irq_leave alu m = Ret m' ∧ (regs m' <$> saved) = vs ∧ (∀ r, r ∉ rsp :: saved → regs m' r = regs m r) ∧ regs m' rsp = sp ∧
    words m' = words m ∧ rip m' = ip ∧ rflags m' = flags ∧ cs m' = code ∧ ss m' = data ∧ cr3 m' = cr3 m.
Proof.
  intros Hs Ha Hb Hlen [Hf Hrest]%frame_app. apply frame_cons in Hf as [H0 Hf]. cbn [length] in Hrest. rewrite Hlen in Hrest.
  unfold irq_leave, pop_reg. rewrite pop_ok by lia. cbn [mbind outcome_bind].
  set (m1 := set_reg rax _ _). assert (regs m1 rsp = regs m rsp + 8) as Hs1 by done.
  destruct (pop_regs_ok saved vs m1) as (m2 & -> & Hs2 & Hv2 & Hr2 & Hw2 & _ & _ & _ & Hc2);
    rewrite ?Hs1; [decided|decided|done|done|lia|Z.div_mod_to_equations; lia|cbn [length]; lia|].
  cbn [mbind outcome_bind add_imm length] in *. set (m3 := set_rflags _ _).
  assert (regs m3 rsp = regs m rsp + 96) as Hs3.
  { unfold m3, set_rflags, set_reg. cbn [regs]. rewrite fn_lookup_insert, Z.mod_small by lia. lia. }
  assert (∀ r, r ≠ rsp → regs m3 r = regs m2 r) as Hr3.
  { intros r Hr. unfold m3, set_rflags, set_reg. cbn [regs]. by rewrite fn_lookup_insert_ne. }
  destruct (iretq_ok m3 ip code flags sp data) as (m4 & -> & Hr4 & Hsp & Hw4 & Hip & Hfl & Hcs & Hss & Hc4);
    rewrite ?Hs3; try (Z.div_mod_to_equations; lia).
  { intros k v Hk. change (words m3) with (words m2). rewrite Hw2. rewrite <-(Hrest (2 + k)%nat v Hk). f_equal. lia. }
  exists m4. split_and!; try done.
  - rewrite <-Hv2. apply list_fmap_ext. intros i r Hi. apply list_elem_of_lookup_2 in Hi.
    assert (r ≠ rsp) by (intros ->; revert Hi; by decided). by rewrite Hr4, Hr3.
  - intros r [Hr Hrs]%not_elem_of_cons. assert (r ≠ rax) by (intros ->; apply Hrs; by decided).
    rewrite Hr4, Hr3, Hr2 by done. unfold m1, set_reg. cbn [regs]. by rewrite !fn_lookup_insert_ne.
  - by rewrite Hw4.
  - by rewrite Hc4.
Qed.

(** ** Properties *)

(** The registers and memory of the program that was interrupted, from the stack of the
    interrupt to [top], as they were. *)
Record resumed (ist : option Z) (top : Z) (m m' : machine) : Prop := {
  resumed_regs r : regs m' r = regs m r;
  resumed_words a : irq_stack ist m ≤ a < top → words m' a = words m a;
  resumed_rip : rip m' = rip m;
  resumed_rflags : rflags m' = rflags m;
  resumed_cs : cs m' = cs m;
  resumed_ss : ss m' = ss m;
  resumed_cr3 : cr3 m' = cr3 m
}.

Lemma callee_or_saved r : r = rsp ∨ r ∈ saved ∨ (r ≠ rsp ∧ callee_saved r = true ∧ r ∉ saved).
Proof. destruct r; first [by left|by right; left; decided|by right; right; split_and!; [|done|decided]]. Qed.

Lemma fmap_saved (f g : reg → Z) r : f <$> saved = g <$> saved → r ∈ saved → f r = g r.
Proof.
  intros E Hr. destruct r; first [by injection E|exfalso; revert Hr; decided].
Qed.

Section Transparent.
Context (alu : Z → Z → Z) (ist : option Z) (stub n error return_address depth top : Z).
Context (handler : machine → outcome machine) `{!SysV 8 depth top handler}.
Context (m : machine).

Hypothesis Hdepth : 0 ≤ depth.
Hypothesis Hsp : is_usize (default (regs m rsp) ist).
Hypothesis Hlow : 8 * (depth + 18) ≤ irq_stack ist m.
Hypothesis Hhigh : irq_stack ist m ≤ top < 2 ^ 64 - 8.

(** What the handler finds when it is called. *)
Lemma irq_entered_ok :
  ∃ m1, irq_entered alu ist stub n error m = Ret m1 ∧ room (depth + 1) m1 ∧ regs m1 rsp = irq_stack ist m - 136 ∧
    regs m1 rdi = irq_stack ist m - 56 ∧ (∀ r, r ≠ rsp → r ≠ rdi → regs m1 r = regs m r) ∧
    frame m1 (regs m1 rsp) ((0 :: (regs m <$> saved)) ++ irq_frame n error m) ∧
    (∀ a, irq_stack ist m ≤ a → words m1 a = words m a) ∧ ss m1 = ss m ∧ cr3 m1 = cr3 m.
Proof using Hdepth Hsp Hlow Hhigh.
  destruct (deliver_stub_ok ist stub n error (depth + 11) m) as (m1 & E1 & Hroom1 & Hs1 & Hr1 & Hf1 & Hw1 & Hss1 & Hc1 & _); [lia|done|lia|lia|].
  destruct (irq_enter_ok alu (depth + 1) m1) as (m2 & E2 & Hroom2 & Hs2 & Hdi2 & Hr2 & Hf2 & Hw2 & (_ & _ & Hss2 & Hc2)); [lia|by replace (_ + 10) with (depth + 11) by lia|].
  exists m2. unfold irq_entered. destruct (deliver ist stub n error m) as [m0|]; [|done]. cbn [mbind outcome_bind] in *. rewrite E1.
  cbn [mbind outcome_bind]. split_and!; try done; try lia.
  - intros r Hr Hdi. by rewrite Hr2, Hr1.
  - apply frame_app. split.
    + intros k v Hk. apply Hf2. rewrite <-Hk. symmetry. f_equal. cbn. by rewrite !Hr1.
    + apply (frame_above m1 _ _ (regs m1 rsp)); [done|cbn; lia|].
      replace (regs m2 rsp + _) with (regs m1 rsp) by (cbn; lia). done.
  - intros a Ha. rewrite Hw2, Hw1 by lia. done.
Qed.

Lemma interrupt_resumes : ∃ m', interrupt alu ist stub n error handler return_address m = Ret m' ∧ resumed ist top m m'.
Proof using All.
  destruct irq_entered_ok as (m1 & E1 & Hroom1 & Hs1 & Hdi1 & Hr1 & Hf1 & Hw1 & Hss1 & Hc1).
  unfold interrupt, irq_entered, amd64_global_irq_handler in *. destruct (deliver ist stub n error m) as [m0|]; [|done].
  cbn [mbind outcome_bind] in *. destruct (amd64_irq_handler n m0) as [m0'|]; [|done]. cbn [mbind outcome_bind] in *.
  rewrite E1. cbn [mbind outcome_bind]. unfold call.
  destruct (push_step depth return_address m1 Hroom1 Hdepth) as (m2 & -> & Hroom2 & Hs2 & Hr2 & _ & Hw2 & Hc2 & _). cbn [mbind outcome_bind].
  destruct Hroom2 as [Hb2 Ha2], Hc2 as (_ & _ & Hss2 & Hcr2).
  destruct (irq_stack_aligned ist m Hsp) as [Hal _].
  destruct (sysv_law (f := handler) (top := top) (depth := depth) m2) as (m3 & -> & Hr3 & Hs3 & _ & Hw3 & _ & Hss3 & Hc3);
    [lia|lia|done|Z.div_mod_to_equations; lia|].
  cbn [mbind outcome_bind]. replace (regs m2 rsp + 8) with (regs m1 rsp) in * by lia.
  destruct (irq_leave_ok alu m3 (regs m <$> saved) n (if pushes_error n then error else 0) (rip m) (cs m) (rflags m) (regs m rsp) (ss m))
    as (m4 & -> & Hsv & Hr4 & Hsp4 & Hw4 & Hip & Hfl & Hcs & Hss4 & Hc4).
  1,3: destruct Hroom1; lia.
  { rewrite Hs3. by destruct Hroom1. } { done. }
  { rewrite Hs3. intros k v Hk. pose proof (lookup_lt_Some _ _ _ Hk) as Hlt. cbn in Hlt.
    rewrite Hw3, Hw2 by (destruct Hroom1; lia). by apply Hf1. }
  exists m4. split; [done|]. split; try congruence.
  - intros r. destruct (callee_or_saved r) as [->|[Hr|(Hne & Hcs' & Hr)]]; [done|by apply fmap_saved|].
    rewrite Hr4 by (apply not_elem_of_cons; done). rewrite Hr3, Hr2, Hr1; try done. by intros ->.
  - intros a Ha. rewrite Hw4, Hw3, Hw2, Hw1 by lia. done.
Qed.

End Transparent.

(** C12. An interrupt of any vector is transparent to the code it interrupts: every
    register, the instruction pointer, the flags, the segments and the page table are
    given back, and so is the stack from its interrupted end on.  The handler is called
    with the address of an [IrqData] that has the number of the vector, its error code
    or 0, and the state that was left.  It may do anything within its calling convention,
    but it has to keep to it on a stack that is eight bytes off the alignment of the
    convention, because that is how the entry calls it ([irq_call_misaligned]); there is
    room for the entry and the handler on the stack. *)
Theorem interrupt_transparent alu ist stub n error return_address depth top handler m :
  SysV 8 depth top handler → 0 ≤ depth → is_usize (default (regs m rsp) ist) →
  8 * (depth + 18) ≤ irq_stack ist m → irq_stack ist m ≤ top < 2 ^ 64 - 8 →
  (∃ m1, irq_entered alu ist stub n error m = Ret m1 ∧
    read_irq_data m1 (regs m1 rdi) =
      mkIrqData n (if pushes_error n then error else 0) (rip m) (cs m) (rflags m) (regs m rsp) (ss m)) ∧
  ∃ m', interrupt alu ist stub n error handler return_address m = Ret m' ∧ resumed ist top m m'.
Proof.
  intros HF Hd Hu Hlo Hhi. split; [|by apply (interrupt_resumes alu ist stub n error return_address depth top handler m)].
  destruct (irq_entered_ok alu ist stub n error depth top m Hd Hu Hlo Hhi) as (m1 & E1 & _ & Hs & Hdi & _ & Hf & _).
  exists m1. split; [done|]. apply frame_app in Hf as [_ Hf].
  replace (regs m1 rsp + _) with (regs m1 rdi) in Hf by (cbn; lia).
  unfold read_irq_data. f_equal; [|exact (Hf 1%nat _ eq_refl)|exact (Hf 2%nat _ eq_refl)|exact (Hf 3%nat _ eq_refl)
    |exact (Hf 4%nat _ eq_refl)|exact (Hf 5%nat _ eq_refl)|exact (Hf 6%nat _ eq_refl)].
  rewrite <-(Z.add_0_r (regs m1 rdi)). exact (Hf 0%nat _ eq_refl).
Qed.

(** At the call of the handler the stack is eight bytes off the boundary of sixteen that
    the calling convention has there: the seven words of [IrqData] and the nine registers
    are an even number of words, and the word that is pushed for alignment makes it odd. *)
Theorem irq_call_misaligned alu ist stub n error m :
  is_usize (default (regs m rsp) ist) → 8 * 18 ≤ irq_stack ist m → irq_stack ist m < 2 ^ 64 - 8 →
  ∃ m1, irq_entered alu ist stub n error m = Ret m1 ∧ regs m1 rsp mod 16 = 8.
Proof.
  intros Hu Hlo Hhi. destruct (irq_entered_ok alu ist stub n error 0 (irq_stack ist m) m) as (m1 & E1 & _ & Hs & _); [lia|done|lia|lia|].
  exists m1. split; [done|]. destruct (irq_stack_aligned ist m Hu) as [Ha _]. rewrite Hs. Z.div_mod_to_equations. lia.
Qed.

(** [amd64_handler2] has an arm for every vector, and none of its [unreachable!]s is
    reached.  The 32 exceptions go to [exception_handler] with the instruction that was
    interrupted, which gives control back only for the breakpoints and the exceptions of
    virtual machines; the interrupts of devices keep their number, and the lines of the
    legacy controller and the last vector are reported as spurious. *)
Theorem handler2_total cr2 data :
  0 ≤ irq_num data < 256 →
  if irq_num data <? 32 then
    ∃ t, amd64_handler2 cr2 data = Ret (exception_event (mkException t (irq_rip data))) ∧
      exception_handler (mkException t (irq_rip data)) = existsb (Z.eqb (irq_num data)) [1; 3; 20; 28; 29; 30]
  else amd64_handler2 cr2 data =
    Ret (if irq_num data <? 48 then spurious_pic (irq_num data - 32) else if irq_num data <? 255 then irq_event (irq_num data) else spurious_apic).
Proof.
  destruct data as [n error ip code flags sp sd]. cbn [irq_num irq_rip]. intros Hn. unfold amd64_handler2. cbn [irq_num irq_rip].
  rewrite Z.mod_small by lia. destruct (Z.ltb_spec n 32) as [Hlt|Hge].
  - assert (n ∈ seqZ 0 32) as Hin by (apply elem_of_seqZ; lia). let l := eval vm_compute in (seqZ 0 32) in change (seqZ 0 32) with l in Hin.
    rewrite !elem_of_cons in Hin.
    repeat destruct Hin as [->|Hin]; try (eexists; split; reflexivity). by apply elem_of_nil in Hin.
  - unfold one_of, among. cbn [existsb]. repeat (case_Z; try lia); try done; exfalso; lia.
Qed.

(** *** The properties at work *)

(** A core in the middle of a function, with 64 KiB of stack. *)
Definition demo_core : machine :=
  mkMachine (λ r, if bool_decide (r = rsp) then 0x10ff8 else 7) (λ a, a) 0x400123 0x202 8 16 0x1000.

Lemma interrupt_transparent_witness :
  ∃ m1 m', irq_entered (λ _ _, 0) None 0x500000 14 2 demo_core = Ret m1 ∧
    read_irq_data m1 (regs m1 rdi) = mkIrqData 14 2 0x400123 8 0x202 0x10ff8 16 ∧
    interrupt (λ _ _, 0) None 0x500000 14 2 ret 0x600000 demo_core = Ret m' ∧ resumed None 0x20000 demo_core m'.
Proof.
  destruct (interrupt_transparent (λ _ _, 0) None 0x500000 14 2 0x600000 32 0x20000 ret demo_core)
    as ((m1 & E1 & D1) & m' & E2 & R); [apply ret_sysv; lia|lia|vm_compute; split; congruence|vm_compute; congruence|vm_compute; split; congruence|].
  exists m1, m'. split; [exact E1|]. split; [exact D1|]. split; [exact E2|exact R].
Defined.

Lemma handler2_total_witness :
  ∃ t, amd64_handler2 0xdead000 (mkIrqData 14 2 0x400123 8 0x202 0x10ff8 16) = Ret (exception_event (mkException t 0x400123)) ∧
    exception_handler (mkException t 0x400123) = false.
Proof.
  exact (handler2_total 0xdead000 (mkIrqData 14 2 0x400123 8 0x202 0x10ff8 16) ltac:(simpl; lia)).
Defined.
