(* ===== verification/Descriptors.v ===== *)
(** * Descriptors: the tables the processor finds interrupt handlers through

    [kernel/src/hal/arch/amd64/gdt.rs], [tss.rs], [idt.rs], and the part of
    [early_init] and [init_idt] of [mod.rs] that fills the three tables.  A table is
    the list of its machine words, in the layout that the attributes of the structs
    give; what the processor reads out of them is defined next to it, and the addresses
    of the statics and of the handlers are arguments. *)

From stdpp Require Import base list numbers.
From S2P Require Import Prelude Memory.

Open Scope Z_scope.

(** [w] bits of [x], from bit [k] on. *)
Definition field (k w x : Z) : Z := (x / 2 ^ k) mod 2 ^ w.

(** ** Segments: [gdt.rs] *)

Inductive Privilege := Ring0 | Ring3.

Inductive EntryTy := KernelCode | KernelData | UserCompatCode | UserData | UserLongCode.

Record Gdt := mkGdt {
  null : Z; kernel_code : Z; kernel_data : Z; user_compat_code : Z; user_data : Z; user_long_code : Z; gdt_tss : Z * Z
}.

Definition gdt_default : Gdt := mkGdt 0 0 0 0 0 0 (0, 0).

Definition add_entry (g : Gdt) (t : EntryTy) (entry : Z) : Gdt :=
  match t with
  | KernelCode => mkGdt (null g) entry (kernel_data g) (user_compat_code g) (user_data g) (user_long_code g) (gdt_tss g)
  | KernelData => mkGdt (null g) (kernel_code g) entry (user_compat_code g) (user_data g) (user_long_code g) (gdt_tss g)
  | UserCompatCode => mkGdt (null g) (kernel_code g) (kernel_data g) entry (user_data g) (user_long_code g) (gdt_tss g)
  | UserData => mkGdt (null g) (kernel_code g) (kernel_data g) (user_compat_code g) entry (user_long_code g) (gdt_tss g)
  | UserLongCode => mkGdt (null g) (kernel_code g) (kernel_data g) (user_compat_code g) (user_data g) entry (gdt_tss g)
  end.

(** [Entry::new]. *)
Definition segment_new (dpl : Privilege) (executable long_mode : bool) : Z :=
  let ADDR := 0 in
  let LIMIT := 0xFFFFF in
  let access_byte := Z.lor (Z.lor 0x92 (Z.shiftl (match dpl with Ring0 => 0 | Ring3 => 3 end) 5)) (Z.shiftl (if executable then 1 else 0) 3) in
  let data := Z.land LIMIT 0xFFFF in
  let data := Z.lor data (Z.shiftl (Z.land ADDR 0xFFFF) 16) in
  let data := Z.lor data (Z.shiftl (Z.land (Z.shiftr ADDR 16) 0xFF) 32) in
  let data := Z.lor data (Z.shiftl (Z.land access_byte 0xFF) 40) in
  let data := Z.lor data (Z.shiftl (Z.land (Z.shiftr LIMIT 16) 0xF) 48) in
  let data := Z.lor data (Z.shiftl (if long_mode then 1 else 0) 53) in
  let data := Z.lor data (Z.shiftl 1 55) in
  Z.lor data (Z.shiftl (Z.land (Z.shiftr ADDR 24) 0xFF) 56).

(** [SystemEntry::new_from_tss], of the address of a [Tss]; its size is 104. *)
Definition new_from_tss (addr : Z) : Z * Z :=
  let limit := 104 - 1 in
  let low := Z.land limit 0xFFFF in
  let low := Z.lor low (Z.shiftl (Z.land addr 0xFFFF) 16) in
  let low := Z.lor low (Z.shiftl (Z.land (Z.shiftr addr 16) 0xFF) 32) in
  let low := Z.lor low (Z.shiftl (Z.land 0x89 0xFF) 40) in
  let low := Z.lor low (Z.shiftl (Z.land (Z.shiftr limit 16) 0xF) 48) in
  let low := Z.lor low (Z.shiftl 1 53) in
  let low := Z.lor low (Z.shiftl (Z.land (Z.shiftr addr 24) 0xFF) 56) in
  (low, Z.shiftr addr 32).

Definition add_tss (g : Gdt) (tss : Z) : Gdt :=
  mkGdt (null g) (kernel_code g) (kernel_data g) (user_compat_code g) (user_data g) (user_long_code g) (new_from_tss tss).

(** The words of a [Gdt], as [repr(C)] lays them out. *)
Definition gdt_words (g : Gdt) : list Z :=
  [null g; kernel_code g; kernel_data g; user_compat_code g; user_data g; user_long_code g; (gdt_tss g).1; (gdt_tss g).2].

(** ** The task state: [tss.rs] *)

Record Tss := mkTss {
  tss_res0 : Z; privilege_stack_table : list Z; tss_res1 : Z; interrupt_stack_table : list Z; tss_res2 : Z; tss_res3 : Z; io_map_base : Z
}.

(** [Tss::new], of the address of [DOUBLE_FAULT_STACK]: [add(1)] is its end. *)
Definition tss_new (DOUBLE_FAULT_STACK : Z) : Tss :=
  mkTss 0 [0; 0; 0] 0 [DOUBLE_FAULT_STACK + 3 * 4096; 0; 0; 0; 0; 0; 0] 0 0 104.

(** The 32-bit words of a [Tss], as [repr(C, packed(4))] lays them out. *)
Definition halves (x : Z) : list Z := [field 0 32 x; field 32 32 x].

Definition tss_words (t : Tss) : list Z :=
  [tss_res0 t] ++ (privilege_stack_table t ≫= halves) ++ halves (tss_res1 t) ++ (interrupt_stack_table t ≫= halves) ++
  halves (tss_res2 t) ++ [tss_res3 t + 2 ^ 16 * io_map_base t].

(** ** Gates: [idt.rs] *)

Inductive GateType := InterruptGate | InterruptTrap.

(** [Attributes::new]. *)
Definition attributes_new (t : GateType) (dpl : Z) : Z :=
  Z.lor (Z.lor (match t with InterruptTrap => 0xF | InterruptGate => 0xE end) (Z.shiftl dpl 5 mod 2 ^ 8)) (Z.shiftl 1 7).

Record IdtEntry := mkIdtEntry {
  pointer_low : Z; segment_selector : Z; ist : option Z; attributes : Z; pointer_middle : Z; pointer_high : Z
}.

Definition new_ptr (f : Z) (ist_idx : option Z) (dpl : Z) (t : GateType) : outcome IdtEntry :=
  _ ← (match ist_idx with Some i => assert (i <=? 7) | None => Ret tt end);
  Ret (mkIdtEntry (f mod 2 ^ 16) 8 ist_idx (attributes_new t dpl) (Z.shiftr f 16 mod 2 ^ 16) (Z.shiftr f 32 mod 2 ^ 32)).

(** The 128 bits of an entry, as [repr(C)] lays them out; the reserved ones are 0. *)
Definition entry_bits (e : IdtEntry) : Z :=
  pointer_low e + 2 ^ 16 * (segment_selector e + 2 ^ 16 * (default 0 (ist e) + 2 ^ 8 * (attributes e +
    2 ^ 8 * (pointer_middle e + 2 ^ 16 * pointer_high e)))).

(** The assignments of [init_idt], for the vectors [ns]. *)
Fixpoint idt_assign (handler : Z → Z) (ns : list Z) (table : list IdtEntry) : outcome (list IdtEntry) :=
  match ns with
  | [] => Ret table
  | n :: ns =>
      entry ← (if n =? 3 then new_ptr (handler 3) None 3 InterruptGate
               else if n =? 8 then new_ptr (handler 8) (Some 1) 0 InterruptGate
               else new_ptr (handler n) None 0 InterruptGate);
      idt_assign handler ns (<[Z.to_nat n := entry]> table)
  end.

Definition init_idt (handler : Z → Z) : outcome (list IdtEntry) :=
  idt_assign handler (seqZ 0 256) (replicate 256 (mkIdtEntry 0 0 None 0 0 0)).

(** ** The processor *)

(** The tables that have been loaded, and the task register. *)
Record tables := mkTables { gdtr : list Z; idtr : list Z; tr_base : Z; tr_limit : Z }.

Record segment := mkSegment { seg_present : bool; seg_dpl : Z; seg_code : bool; seg_long : bool }.

Definition segment_of (d : Z) : segment :=
  mkSegment (field 47 1 d =? 1) (field 45 2 d) ((field 44 1 d =? 1) && (field 43 1 d =? 1)) (field 53 1 d =? 1).

(** [ltr]: a task state segment that is present and not in use. *)
Definition ltr (gdt : list Z) (selector : Z) : option (Z * Z) :=
  low ← gdt !! Z.to_nat (selector / 8);
  high ← gdt !! Z.to_nat (selector / 8 + 1);
  if (field 47 1 low =? 1) && (field 40 5 low =? 9) then
    Some (field 16 24 low + 2 ^ 24 * field 56 8 low + 2 ^ 32 * field 0 32 high, field 0 16 low + 2 ^ 16 * field 48 4 low)
  else None.

(** Where the interrupt of a vector goes: the handler, its segment, the stack it asks
    for, and the ring that may raise it with [int]. *)
Record target := mkTarget { t_handler : Z; t_selector : Z; t_stack : option Z; t_dpl : Z }.

Definition vector (mem32 : Z → Z) (t : tables) (n : Z) : option target :=
  g ← idtr t !! Z.to_nat n;
  d ← gdtr t !! Z.to_nat (field 16 16 g / 8);
  let s := segment_of d in
  if (field 47 1 g =? 1) && (field 40 5 g =? 14) && seg_present s && seg_code s && seg_long s && (seg_dpl s =? 0) then
    let i := field 32 3 g in
    let a := tr_base t + 36 + 8 * (i - 1) in
    if (0 <? i) && (tr_limit t <? 36 + 8 * i - 1) then None else
    Some (mkTarget (field 0 16 g + 2 ^ 16 * field 48 48 g) (field 16 16 g)
      (if i =? 0 then None else Some (mem32 a + 2 ^ 32 * mem32 (a + 4))) (field 45 2 g))
  else None.

(** ** Start-up *)

(** The [Gdt] of [early_init]. *)
Definition gdt_init (tss : Z) : Gdt :=
  let gdt := gdt_default in
  let gdt := add_entry gdt KernelCode (segment_new Ring0 true true) in
  let gdt := add_entry gdt KernelData (segment_new Ring0 false true) in
  let gdt := add_entry gdt UserLongCode (segment_new Ring3 true true) in
  let gdt := add_entry gdt UserData (segment_new Ring3 false true) in
  add_tss gdt tss.

(** [load], [load_tss] and [init_idt] of [early_init]; the interrupt controller and
    [sti] are behind them.  A selector that [ltr] refuses, with a fault, is a failed
    [expect] here. *)
Definition load_tss (g : Gdt) : outcome (Z * Z) :=
  _ ← assert (negb (bool_decide (gdt_tss g = (0, 0))));
  expect (ltr (gdt_words g) 0x30).

Definition early_init (tss : Z) (handler : Z → Z) : outcome tables :=
  let gdt := gdt_init tss in
  '(base, limit) ← load_tss gdt;
  table ← init_idt handler;
  Ret (mkTables (gdt_words gdt) (entry_bits <$> table) base limit).

(** ** Fields *)

Lemma lor_shiftl x y k : 0 ≤ k → 0 ≤ x < 2 ^ k → 0 ≤ y → Z.lor x (Z.shiftl y k) = x + 2 ^ k * y.
Proof.
  intros Hk Hx Hy. rewrite <-Z.add_nocarry_lor; [by rewrite Z.shiftl_mul_pow2, Z.mul_comm by lia|].
  apply Z.bits_inj'. intros i Hi. rewrite Z.land_spec, Z.shiftl_spec, Z.bits_0 by lia.
  destruct (decide (i < k)); [by rewrite (Z.testbit_neg_r _ (i - k)), andb_false_r by lia|].
  by rewrite (testbit_above k x i) by lia.
Qed.

(** The innermost [|] of a value that is put together from its low end. *)
Ltac lor_sum :=
  match goal with
  | |- context [Z.lor ?x (Z.shiftl ?y ?k)] =>
      lazymatch x with context [Z.lor] => fail | _ => rewrite (lor_shiftl x y k) by lia end
  end.

Lemma field_bound k w x : 0 ≤ w → 0 ≤ field k w x < 2 ^ w.
Proof. intros Hw. apply Z.mod_pos_bound. by apply Z.pow_pos_nonneg. Qed.

(** A field above the first [k] bits, and one within them. *)
Lemma field_high j k w x y : 0 ≤ k ≤ j → 0 ≤ x < 2 ^ k → field j w (x + 2 ^ k * y) = field (j - k) w y.
Proof.
  intros Hk Hx. unfold field. replace (2 ^ j) with (2 ^ k * 2 ^ (j - k)) by (rewrite <-Z.pow_add_r by lia; f_equal; lia).
  pose proof (Z.pow_pos_nonneg 2 (j - k)). rewrite <-Z.div_div by lia.
  rewrite (Z.mul_comm (2 ^ k) y), Z.div_add by lia. by rewrite (Z.div_small x) by done.
Qed.

Lemma field_low j k w x y : 0 ≤ j → 0 ≤ w → j + w ≤ k → field j w (x + 2 ^ k * y) = field j w x.
Proof.
  intros Hj Hw Hk. unfold field. replace (2 ^ k) with (2 ^ w * 2 ^ (k - j - w) * 2 ^ j) by (rewrite <-!Z.pow_add_r by lia; f_equal; lia).
  replace (x + _) with (x + (2 ^ (k - j - w) * y * 2 ^ w) * 2 ^ j) by lia.
  rewrite Z.div_add by (apply Z.pow_nonzero; lia). by rewrite Z.mod_add by (apply Z.pow_nonzero; lia).
Qed.

Lemma field_all w x : 0 ≤ x < 2 ^ w → field 0 w x = x.
Proof. intros Hx. unfold field. by rewrite Z.div_1_r, Z.mod_small. Qed.

(** An address is put together again from what a descriptor has of it. *)
Lemma address_24_8_32 a : field 0 16 a + 2 ^ 16 * field 16 8 a + 2 ^ 24 * field 24 8 a + 2 ^ 32 * (a / 2 ^ 32) = a.
Proof. unfold field. Z.div_mod_to_equations. lia. Qed.

Lemma address_16_16_32 a : is_usize a → field 0 16 a + 2 ^ 16 * (field 16 16 a + 2 ^ 16 * field 32 32 a) = a.
Proof. unfold field, is_usize. intros Ha. Z.div_mod_to_equations. lia. Qed.

Lemma new_from_tss_sum a :
  is_usize a →
  new_from_tss a = (103 + 2 ^ 16 * (field 0 16 a + 2 ^ 16 * (field 16 8 a + 2 ^ 8 * (0x2089 + 2 ^ 16 * field 24 8 a))), a / 2 ^ 32).
Proof.
  intros Ha. pose proof (field_bound 0 16 a ltac:(lia)). pose proof (field_bound 16 8 a ltac:(lia)).
  pose proof (field_bound 24 8 a ltac:(lia)).
  unfold new_from_tss. change 0xFFFF with (Z.ones 16). change 0xFF with (Z.ones 8).
  rewrite !Z.land_ones, !Z.shiftr_div_pow2 by lia. fold (field 16 8 a) (field 24 8 a).
  replace (a mod 2 ^ 16) with (field 0 16 a) by (unfold field; by rewrite Z.div_1_r).
  change ((104 - 1) mod 2 ^ 16) with 103. change (0x89 mod 2 ^ 8) with 0x89. change (Z.land ((104 - 1) / 2 ^ 16) 0xF) with 0.
  f_equal. repeat lor_sum. lia.
Qed.

(** ** What the processor finds *)

Lemma ltr_init a : is_usize a → ltr (gdt_words (gdt_init a)) 0x30 = Some (a, 103).
Proof.
  intros Ha. unfold gdt_init, add_tss. rewrite new_from_tss_sum by done.
  pose proof (field_bound 0 16 a ltac:(lia)). pose proof (field_bound 16 8 a ltac:(lia)). pose proof (field_bound 24 8 a ltac:(lia)).
  set (high := a / 2 ^ 32). set (low := 103 + _).
  change (ltr _ 0x30) with (if (field 47 1 low =? 1) && (field 40 5 low =? 9) then
    Some (field 16 24 low + 2 ^ 24 * field 56 8 low + 2 ^ 32 * field 0 32 high, field 0 16 low + 2 ^ 16 * field 48 4 low) else None).
  assert (∀ j w, 0 ≤ w → 40 ≤ j → j + w ≤ 56 → field j w low = field (j - 40) w 0x2089) as Hmid.
  { intros j w Hw Hj Hjw. unfold low. rewrite !field_high by lia. rewrite field_low by lia. f_equal. lia. }
  rewrite (Hmid 47 1), (Hmid 40 5), (Hmid 48 4) by lia. change ((_ =? 1) && _) with true. cbv iota. f_equal.
  assert (field 0 32 high = high) as -> by (apply field_all; unfold high, is_usize in *; Z.div_mod_to_equations; lia).
  assert (field 0 16 low = 103) as -> by (unfold low; rewrite field_low by lia; done).
  assert (field 16 24 low = field 0 16 a + 2 ^ 16 * field 16 8 a) as ->.
  { unfold low. rewrite field_high by lia.
    replace (field 0 16 a + _) with ((field 0 16 a + 2 ^ 16 * field 16 8 a) + 2 ^ 24 * (0x2089 + 2 ^ 16 * field 24 8 a)) by lia.
    rewrite field_low by lia. apply field_all. lia. }
  assert (field 56 8 low = field 24 8 a) as -> by (unfold low; rewrite !field_high by lia; apply field_all; lia).
  apply (f_equal2 pair); [|reflexivity]. rewrite <-(address_24_8_32 a) at 4. fold high. lia.
Qed.

(** The entry of a vector. *)
Definition idt_entry (handler : Z → Z) (n : Z) : IdtEntry :=
  mkIdtEntry (handler n mod 2 ^ 16) 8 (if n =? 8 then Some 1 else None) (attributes_new InterruptGate (if n =? 3 then 3 else 0))
    (Z.shiftr (handler n) 16 mod 2 ^ 16) (Z.shiftr (handler n) 32 mod 2 ^ 32).

Lemma idt_assign_ok handler ns table :
  idt_assign handler ns table = Ret (foldl (λ t n, <[Z.to_nat n := idt_entry handler n]> t) table ns).
Proof.
  revert table. induction ns as [|n ns IH]; intros table; [done|]. cbn [idt_assign foldl]. rewrite <-IH. unfold idt_entry.
  destruct (Z.eqb_spec n 3) as [->|]; [done|]. destruct (Z.eqb_spec n 8) as [->|]; done.
Qed.

Lemma assign_all {A} (e : A) (f : Z → A) :
  foldl (λ t n, <[Z.to_nat n := f n]> t) (replicate 256 e) (seqZ 0 256) = f <$> seqZ 0 256.
Proof. vm_compute. reflexivity. Qed.

Lemma init_idt_table handler : init_idt handler = Ret (idt_entry handler <$> seqZ 0 256).
Proof. unfold init_idt. by rewrite idt_assign_ok, assign_all. Qed.

Lemma idt_entry_bits handler n :
  entry_bits (idt_entry handler n) = field 0 16 (handler n) +
    2 ^ 16 * ((8 + 2 ^ 16 * ((if n =? 8 then 1 else 0) + 2 ^ 8 * attributes_new InterruptGate (if n =? 3 then 3 else 0))) +
      2 ^ 32 * (field 16 16 (handler n) + 2 ^ 16 * field 32 32 (handler n))).
Proof.
  unfold entry_bits, idt_entry. cbn [pointer_low segment_selector ist attributes pointer_middle pointer_high].
  rewrite !Z.shiftr_div_pow2 by lia. fold (field 16 16 (handler n)) (field 32 32 (handler n)).
  replace (handler n mod 2 ^ 16) with (field 0 16 (handler n)) by (unfold field; by rewrite Z.div_1_r).
  destruct (n =? 8); cbn [default from_option]; unfold id; lia.
Qed.

(** A gate: the handler around the word with the selector, the stack and the attributes. *)
Lemma gate_fields low k high :
  0 ≤ low < 2 ^ 16 → 0 ≤ k < 2 ^ 32 → 0 ≤ high < 2 ^ 48 →
  let g := low + 2 ^ 16 * (k + 2 ^ 32 * high) in
  field 0 16 g = low ∧ field 48 48 g = high ∧ ∀ j w, 0 ≤ w → 16 ≤ j → j + w ≤ 48 → field j w g = field (j - 16) w k.
Proof.
  intros Hl Hk Hh g. unfold g. split_and!.
  - rewrite field_low by lia. by apply field_all.
  - rewrite !field_high by lia. by apply field_all.
  - intros j w Hw Hj Hjw. rewrite field_high by lia. rewrite field_low by lia. done.
Qed.

Lemma attributes_bound n : 0 ≤ attributes_new InterruptGate (if n =? 3 then 3 else 0) < 2 ^ 8.
Proof. by destruct (n =? 3). Qed.

Lemma vector_init mem32 a handler base limit n :
  0 ≤ n < 256 → is_usize (handler n) → 43 ≤ limit →
  vector mem32 (mkTables (gdt_words (gdt_init a)) (entry_bits <$> (idt_entry handler <$> seqZ 0 256)) base limit) n =
    Some (mkTarget (handler n) 8 (if n =? 8 then Some (mem32 (base + 36) + 2 ^ 32 * mem32 (base + 36 + 4)) else None) (if n =? 3 then 3 else 0)).
Proof.
  intros Hn Hh Hlim. unfold vector. cbn [idtr gdtr tr_base tr_limit]. rewrite !list_lookup_fmap, lookup_seqZ_lt by lia.
  cbn [fmap option_fmap option_map mbind option_bind]. rewrite Z2Nat.id by lia. change (0 + n) with n. rewrite idt_entry_bits.
  pose proof (attributes_bound n) as Hb.
  pose proof (field_bound 0 16 (handler n) ltac:(lia)). pose proof (field_bound 16 16 (handler n) ltac:(lia)).
  pose proof (field_bound 32 32 (handler n) ltac:(lia)).
  set (k := 8 + _). set (high := field 16 16 _ + _). assert (0 ≤ k < 2 ^ 32) as Hk by (unfold k; destruct (n =? 8); lia).
  destruct (gate_fields (field 0 16 (handler n)) k high) as (-> & -> & Hf); [lia|lia|unfold high; lia|].
  rewrite !Hf by lia. unfold high. rewrite address_16_16_32 by done. unfold k. clear Hf Hk k high Hb.
  destruct (Z.eqb_spec n 3) as [->|Hn3]; [done|]. destruct (Z.eqb_spec n 8) as [->|Hn8]; [|done].
  change (field (32 - 16) 3 _) with 1. change ((0 <? 1) && _) with (limit <? 43). destruct (Z.ltb_spec limit 43); [lia|].
  cbv iota. change (field (32 - 16) 3 _) with 1. cbn [Z.eqb]. by rewrite Z.add_0_r.
Qed.

Lemma early_init_tables a handler :
  is_usize a → early_init a handler = Ret (mkTables (gdt_words (gdt_init a)) (entry_bits <$> (idt_entry handler <$> seqZ 0 256)) a 103).
Proof.
  intros Ha. unfold early_init, load_tss. rewrite ltr_init, init_idt_table by done.
  rewrite bool_decide_eq_false_2; [done|]. change (gdt_tss (gdt_init a)) with (new_from_tss a). rewrite new_from_tss_sum by done.
  pose proof (field_bound 0 16 a ltac:(lia)). pose proof (field_bound 16 8 a ltac:(lia)). pose proof (field_bound 24 8 a ltac:(lia)).
  intros [= E _]. lia.
Qed.

(** The entry of the first interrupt stack is where the processor looks for it. *)
Lemma tss_first_stack s :
  tss_words (tss_new s) !! 9%nat = Some (field 0 32 (s + 3 * 4096)) ∧ tss_words (tss_new s) !! 10%nat = Some (field 32 32 (s + 3 * 4096)).
Proof. done. Qed.

(** ** Properties *)

(** C13. After [early_init] every vector leads the processor to its own handler: the gate
    of vector [n] is present, holds the whole address of handler [n], runs in the code
    segment of the kernel with interrupts off, and may be raised by user code only for the
    breakpoint.  The double fault, and nothing else, gets a stack of its own, which is
    read through the task register and is the end of [DOUBLE_FAULT_STACK].  The segments
    are in the order that the selectors and the fast system calls expect. *)
Theorem interrupt_vectors mem32 tss DOUBLE_FAULT_STACK handler :
  is_usize tss → (∀ n, 0 ≤ n < 256 → is_usize (handler n)) → 0 ≤ DOUBLE_FAULT_STACK < 2 ^ 64 - 3 * 4096 →
  (∀ k v, tss_words (tss_new DOUBLE_FAULT_STACK) !! k = Some v → mem32 (tss + 4 * Z.of_nat k) = v) →
  ∃ t, early_init tss handler = Ret t ∧
    (∀ n, 0 ≤ n < 256 → vector mem32 t n =
      Some (mkTarget (handler n) 8 (if n =? 8 then Some (DOUBLE_FAULT_STACK + 3 * 4096) else None) (if n =? 3 then 3 else 0))) ∧
    take 6 (segment_of <$> gdtr t) =
      [mkSegment false 0 false false; mkSegment true 0 true true; mkSegment true 0 false true;
       mkSegment false 0 false false; mkSegment true 3 false true; mkSegment true 3 true true].
Proof.
  intros Ha Hh Hs Hmem. rewrite early_init_tables by done. eexists. split; [reflexivity|]. split; [|done].
  intros n Hn. rewrite vector_init by (try apply Hh; lia). do 2 f_equal. destruct (n =? 8); [|done]. f_equal.
  destruct (tss_first_stack DOUBLE_FAULT_STACK) as [H9%Hmem H10%Hmem]. rewrite <-Z.add_assoc.
  change (tss + 36) with (tss + 4 * Z.of_nat 9). change (36 + 4) with (4 * Z.of_nat 10). rewrite H9, H10.
  unfold field. Z.div_mod_to_equations. lia.
Qed.

(** *** The properties at work *)

(** Handlers 16 bytes apart in the kernel image, and a [Tss] at [0xffffffff80020000]. *)
Definition demo_handler (n : Z) : Z := 0xffffffff80001000 + 16 * n.

Definition demo_tss_memory (a : Z) : Z :=
  default 0 (tss_words (tss_new 0xffffffff80030000) !! Z.to_nat ((a - 0xffffffff80020000) / 4)).

Lemma interrupt_vectors_witness :
  ∃ t, early_init 0xffffffff80020000 demo_handler = Ret t ∧
    vector demo_tss_memory t 8 = Some (mkTarget 0xffffffff80001080 8 (Some 0xffffffff80033000) 0) ∧
    vector demo_tss_memory t 48 = Some (mkTarget 0xffffffff80001300 8 None 0).
Proof.
  destruct (interrupt_vectors demo_tss_memory 0xffffffff80020000 0xffffffff80030000 demo_handler) as (t & Ht & Hv & _).
  - unfold is_usize. lia.
  - intros n Hn. unfold is_usize, demo_handler. lia.
  - lia.
  - intros k v Hk. unfold demo_tss_memory.
    replace (Z.to_nat _) with k by (replace (_ + _ - _) with (Z.of_nat k * 4) by lia; rewrite Z.div_mul by lia; lia).
    by rewrite Hk.
  - exists t. split; [exact Ht|]. split; [exact (Hv 8 ltac:(lia))|exact (Hv 48 ltac:(lia))].
Defined.
