(* ===== verification/Threads.v ===== *)
(** * Threads: the context switch, and threads that come back from it

    The assembly of [switch_thread] and the construction of the first saved state of a
    thread, [kernel/src/hal/arch/amd64/mod.rs] and [kernel/src/hal/mod.rs], put together
    with the scheduler of [Scheduler]: the part of a thread that the scheduler moves
    around is its page table, its saved registers and its stack.  Threads run between
    their switches as they like, except on the suspended stacks of others. *)

From stdpp Require Import base gmap list numbers functions strings relations.
From S2P Require Import Prelude Machine Scheduler.

Open Scope Z_scope.

Record Amd64SaveState := mkSave {
  s_rbx : Z; s_rsp : Z; s_rbp : Z; s_r12 : Z; s_r13 : Z; s_r14 : Z; s_r15 : Z
}.

Definition save_default : Amd64SaveState := mkSave 0 0 0 0 0 0 0.

(** The fields of [ThreadControlBlock] behind its name and state: the frame of its
    [pml4], the saved registers, and the end of its stack. *)
Record Thread := mkThread { pml4 : Z; save_state : Amd64SaveState; stack_top : Z }.

Definition switch_thread (flags : Z → Z → Z) (from to : Thread) (m : machine) : outcome (Thread * machine) :=
  let from := mkThread (pml4 from)
    (mkSave (regs m rbx) (regs m rsp) (regs m rbp) (regs m r12) (regs m r13) (regs m r14) (regs m r15)) (stack_top from) in
  let m := set_reg rax (pml4 to) m in
  let m := set_reg rcx (cr3 m) m in
  let m := set_rflags (flags (regs m rax) (regs m rcx)) m in
  let m := if regs m rax =? regs m rcx then m else set_cr3 (regs m rax) m in
  let m := set_reg rbx (s_rbx (save_state to)) m in
  let m := set_reg rsp (s_rsp (save_state to)) m in
  let m := set_reg rbp (s_rbp (save_state to)) m in
  let m := set_reg r12 (s_r12 (save_state to)) m in
  let m := set_reg r13 (s_r13 (save_state to)) m in
  let m := set_reg r14 (s_r14 (save_state to)) m in
  let m := set_reg r15 (s_r15 (save_state to)) m in
  m ← ret m;
  Ret (from, m).

(** [SaveState::new]: the four words at the end of the stack, and where it starts. *)
Definition save_state_new (stack_top init main : Z) (m : machine) : outcome (Amd64SaveState * machine) :=
  m ← store_word (stack_top - 8) 0xdeadbeef m;
  m ← store_word (stack_top - 16) 0 m;
  m ← store_word (stack_top - 24) main m;
  m ← store_word (stack_top - 32) init m;
  Ret (mkSave 0 (stack_top - 32) 0 0 0 0 0, m).

(** [ThreadControlBlock::new], with the end of the stack it has mapped. *)
Definition tcb_new (name : string) (ttable stack_top startup main : Z) (m : machine) :
    outcome (ThreadControlBlock Thread * machine) :=
  '(save, m) ← save_state_new stack_top startup main m;
  Ret (mkTcb name Ready (mkThread ttable save stack_top), m).

(** ** Threads on a core *)

Record kernel := mkKernel { sched : Scheduler Thread; core : machine }.

Definition set_rest (t : Tid) (p : Thread) (s : Scheduler Thread) : Scheduler Thread :=
  mkSched (alter (λ tcb, mkTcb (name tcb) (state tcb) p) t (tasks s)) (queue s) (current_tid s).

(** [schedule], with the call of [switch_thread] it ends in. *)
Definition schedule_on (flags : Z → Z → Z) (return_address : Z) (k : kernel) : outcome kernel :=
  '(switched, s) ← schedule (sched k);
  match switched with
  | None => Ret (mkKernel s (core k))
  | Some (old_tid, new_tid) =>
      old_tcb ← expect (tasks s !! old_tid);
      new_tcb ← expect (tasks s !! new_tid);
      m ← push_word return_address (core k);
      '(from, m) ← switch_thread flags (rest old_tcb) (rest new_tcb) m;
      Ret (mkKernel (set_rest old_tid from s) m)
  end.

(** A new thread is made and handed to the scheduler. *)
Definition spawn_thread (TIDS : Z) (name : string) (ttable stack_top startup main : Z) (k : kernel) : outcome (Tid * Z * kernel) :=
  '(tcb, m) ← tcb_new name ttable stack_top startup main (core k);
  let '(tid, TIDS, s) := add_task TIDS (sched k) tcb in
  Ret (tid, TIDS, mkKernel s m).

(** The stacks of the threads that are not running, from their saved end on. *)
Definition parked_word (k : kernel) (a : Z) : Prop :=
  ∃ t tcb, tasks (sched k) !! t = Some tcb ∧ t ≠ current_tid (sched k) ∧
    s_rsp (save_state (rest tcb)) ≤ a < stack_top (rest tcb).

(** What a stack pointer is on a stack that ends at [top]. *)
Definition on_stack (top sp : Z) : Prop := 8 ≤ sp ∧ sp + 8 ≤ top ∧ top < 2 ^ 64 - 8 ∧ sp mod 8 = 0.

(** The steps of the threads of a core: the current one runs, without writing to the
    stacks of the others; it gives up the core; or it makes a thread, on a stack that is
    not in use. *)
Inductive thread_step : kernel → kernel → Prop :=
  | step_run k m : (∀ a, parked_word k a → words m a = words (core k) a) → thread_step k (mkKernel (sched k) m)
  | step_yield flags return_address k k' tcb :
      tasks (sched k) !! current_tid (sched k) = Some tcb → on_stack (stack_top (rest tcb)) (regs (core k) rsp - 8) →
      ¬ parked_word k (regs (core k) rsp - 8) → schedule_on flags return_address k = Ret k' → thread_step k k'
  | step_spawn TIDS name ttable stack_top startup main k r k' :
      tasks (sched k) !! TIDS = None → on_stack stack_top (stack_top - 32) →
      (∀ a, stack_top - 32 ≤ a < stack_top → ¬ parked_word k a) →
      spawn_thread TIDS name ttable stack_top startup main k = Ret (r, k') → thread_step k k'.

(** ** The switch *)

Definition saved_reg (s : Amd64SaveState) (r : reg) : Z :=
  match r with
  | rbx => s_rbx s | rsp => s_rsp s | rbp => s_rbp s | r12 => s_r12 s | r13 => s_r13 s | r14 => s_r14 s | r15 => s_r15 s
  | _ => 0
  end.

(** The core [m'] runs what [to] has saved, in the memory of [m]. *)
Record loaded (to : Thread) (m m' : machine) : Prop := {
  loaded_regs r : callee_saved r = true → r ≠ rsp → regs m' r = saved_reg (save_state to) r;
  loaded_rsp : regs m' rsp = s_rsp (save_state to) + 8;
  loaded_rip : rip m' = words m (s_rsp (save_state to));
  loaded_words : words m' = words m;
  loaded_cr3 : cr3 m' = pml4 to
}.

Lemma switch_thread_ok flags from to m :
  on_stack (stack_top to) (s_rsp (save_state to)) →
  ∃ from' m', switch_thread flags from to m = Ret (from', m') ∧ loaded to m m' ∧ pml4 from' = pml4 from ∧
    stack_top from' = stack_top from ∧ ∀ r, callee_saved r = true → saved_reg (save_state from') r = regs m r.
Proof.
  intros (Hlo & Hhi & Htop & Ha). unfold switch_thread. set (m1 := set_reg r15 _ _).
  assert (words m1 = words m) as Hw by (unfold m1; by case_match).
  assert (regs m1 rsp = s_rsp (save_state to)) as Hs by (unfold m1; by case_match).
  assert (cr3 m1 = pml4 to) as Hc.
  { unfold m1. cbn [set_reg cr3]. match goal with |- context [if ?b then _ else _] => destruct b eqn:E end; [|done].
    apply Z.eqb_eq in E. by symmetry. }
  unfold ret. rewrite pop_ok by (rewrite ?Hs; done || lia). cbn [mbind outcome_bind].
  eexists _, _. split; [reflexivity|]. split; [|split; [done|split; [done|by intros []]]].
  split; cbn [set_rip set_reg regs words rip cr3]; try done.
  - intros r Hr Hne. rewrite fn_lookup_insert_ne by done. destruct r; try done; unfold m1; by case_match.
  - by rewrite Hw, Hs.
Qed.

(** ** Suspended threads *)

(** The saved state of [p], in the memory of [m], is what [x] will go on from. *)
Record parked_as (x : machine) (p : Thread) (m : machine) : Prop := {
  holds_regs r : callee_saved r = true → r ≠ rsp → saved_reg (save_state p) r = regs x r;
  holds_rsp : s_rsp (save_state p) + 8 = regs x rsp;
  holds_rip : words m (s_rsp (save_state p)) = rip x;
  holds_words a : regs x rsp ≤ a < stack_top p → words m a = words x a
}.

(** [m] goes on from [x], as a function that has returned: the registers it may rely on,
    its stack and its page table are as they were. *)
Record back (x : machine) (p : Thread) (m : machine) : Prop := {
  back_regs r : callee_saved r = true → regs m r = regs x r;
  back_rip : rip m = rip x;
  back_words a : regs x rsp ≤ a < stack_top p → words m a = words x a;
  back_cr3 : cr3 m = pml4 p
}.

Lemma loaded_back x p m m' : parked_as x p m → loaded p m m' → back x p m'.
Proof.
  intros [Hr Hs Hi Hw] [Lr Ls Li Lw Lc]. split; [|congruence|intros a Ha; rewrite Lw; auto|done].
  intros r Hcs. destruct (decide (r = rsp)) as [->|Hne]; [congruence|]. by rewrite Lr, Hr.
Qed.

Definition kernel_inv (k : kernel) : Prop :=
  sched_inv (sched k) ∧ ∀ t tcb, tasks (sched k) !! t = Some tcb → t ≠ current_tid (sched k) →
    on_stack (stack_top (rest tcb)) (s_rsp (save_state (rest tcb))).

(** A suspended thread whose words are not written keeps what it holds. *)
Lemma holds_untouched x k t tcb m :
  tasks (sched k) !! t = Some tcb → t ≠ current_tid (sched k) → on_stack (stack_top (rest tcb)) (s_rsp (save_state (rest tcb))) →
  parked_as x (rest tcb) (core k) → (∀ a, parked_word k a → words m a = words (core k) a) → parked_as x (rest tcb) m.
Proof.
  intros Ht Hne (H1 & H2 & _) [Hr Hs Hi Hw] Hm. split; [done|done|..].
  - rewrite Hm; [done|]. exists t, tcb. split_and!; [done|done|lia|lia].
  - intros a Ha. rewrite Hm; [by apply Hw|]. exists t, tcb. split_and!; [done|done|lia|lia].
Qed.

Lemma payload_rest (s s' : Scheduler Thread) t : payload s' = payload s → rest <$> tasks s' !! t = rest <$> tasks s !! t.
Proof.
  intros Hp. apply (f_equal (lookup t)) in Hp. unfold payload in Hp. rewrite !lookup_fmap in Hp.
  destruct (tasks s' !! t), (tasks s !! t); simplify_eq/=; congruence.
Qed.

Lemma set_rest_inv t p s : sched_inv s → sched_inv (set_rest t p s).
Proof.
  intros (Hnd & Hdom & Hst). split_and!; [done|..]; cbn [set_rest tasks queue current_tid].
  - intros t'. by rewrite lookup_alter_is_Some.
  - intros t' tcb. rewrite lookup_alter_Some. intros [(<- & tcb0 & Ht & ->)|[_ Ht]]; by apply Hst in Ht.
Qed.

(** The core when [switch_thread] is entered. *)
Definition called (return_address : Z) (m : machine) : machine :=
  mkMachine (<[rsp := regs m rsp - 8]> (regs m)) (<[regs m rsp - 8 := return_address]> (words m)) (rip m) (rflags m) (cs m) (ss m) (cr3 m).

Lemma called_rsp v m : regs (called v m) rsp = regs m rsp - 8.
Proof. unfold called. cbn [regs]. by rewrite fn_lookup_insert. Qed.

Lemma push_called v m : 8 ≤ regs m rsp < 2 ^ 64 → regs m rsp mod 8 = 0 → push_word v m = Ret (called v m).
Proof. exact (push_ok v m). Qed.

(** The state that is saved at the entry is what the call goes on from. *)
Lemma called_holds v m from to m' :
  loaded to (called v m) m' → (∀ r, callee_saved r = true → saved_reg (save_state from) r = regs (called v m) r) →
  parked_as (set_rip v m) from m'.
Proof.
  intros [_ _ _ Hw _] Hsv. assert (s_rsp (save_state from) = regs m rsp - 8) as Hrsp by (rewrite <-(called_rsp v m); exact (Hsv rsp eq_refl)).
  split; rewrite ?Hrsp, ?Hw; cbn [called set_rip regs words rip].
  - intros r Hr Hrs. rewrite Hsv by done. cbn [called regs]. by rewrite fn_lookup_insert_ne.
  - lia.
  - by rewrite fn_lookup_insert.
  - intros a Hb. by rewrite fn_lookup_insert_ne by lia.
Qed.

(** A switch from [k] to [k']: the old thread is parked where it called from, the new one
    is loaded, and the others stay as they are. *)
Record switched (return_address : Z) (new_tid : Tid) (tcb : ThreadControlBlock Thread) (k k' : kernel) : Prop := {
  switched_sched : sched_inv (sched k');
  switched_tid : current_tid (sched k') = new_tid ∧ current_tid (sched k) ≠ new_tid;
  switched_others t : t ≠ current_tid (sched k) → rest <$> tasks (sched k') !! t = rest <$> tasks (sched k) !! t;
  switched_new : ∃ new, tasks (sched k) !! new_tid = Some new ∧ loaded (rest new) (called return_address (core k)) (core k');
  switched_old : ∃ old, tasks (sched k') !! current_tid (sched k) = Some old ∧ pml4 (rest old) = pml4 (rest tcb) ∧
    stack_top (rest old) = stack_top (rest tcb) ∧ s_rsp (save_state (rest old)) = regs (core k) rsp - 8 ∧
    parked_as (set_rip return_address (core k)) (rest old) (core k')
}.

Lemma schedule_on_eq flags return_address k s old_tid new_tid old new m1 from m :
  schedule (sched k) = Ret (Some (old_tid, new_tid), s) → tasks s !! old_tid = Some old → tasks s !! new_tid = Some new →
  push_word return_address (core k) = Ret m1 → switch_thread flags (rest old) (rest new) m1 = Ret (from, m) →
  schedule_on flags return_address k = Ret (mkKernel (set_rest old_tid from s) m).
Proof.
  intros Hs Ho Hn Hp Hw. unfold schedule_on. rewrite Hs, ret_bind, Ho, Hn. unfold expect. by rewrite !ret_bind, Hp, ret_bind, Hw, ret_bind.
Qed.

Lemma schedule_on_ok flags return_address k new_tid q tcb :
  kernel_inv k → tasks (sched k) !! current_tid (sched k) = Some tcb → on_stack (stack_top (rest tcb)) (regs (core k) rsp - 8) →
  queue (sched k) = new_tid :: q → ∃ k', schedule_on flags return_address k = Ret k' ∧ switched return_address new_tid tcb k k'.
Proof.
  intros [Hinv Hpark] Ht (Hlo & Hhi & Htop & Ha) Hq. destruct (schedule_switch _ _ _ Hinv Hq) as (s & Hs & Hinv' & Hcur & _ & Hpay).
  assert (current_tid (sched k) ≠ new_tid) as Hne.
  { destruct Hinv as [Hnd _]. rewrite Hq in Hnd. apply list.NoDup_cons in Hnd as [Hn _]. by apply not_elem_of_cons in Hn as [? _]. }
  assert (is_Some (tasks (sched k) !! new_tid)) as [new Hnew] by (apply Hinv; rewrite Hq; set_solver).
  pose proof (payload_rest _ _ (current_tid (sched k)) Hpay) as P1. rewrite Ht in P1. apply fmap_Some in P1 as (old' & Ho & Eo).
  pose proof (payload_rest _ _ new_tid Hpay) as P2. rewrite Hnew in P2. apply fmap_Some in P2 as (new' & Hn & En).
  destruct (switch_thread_ok flags (rest tcb) (rest new) (called return_address (core k))) as (from & m & Hsw & Hl & Hp & Hst & Hsv).
  { apply (Hpark new_tid); [done|congruence]. }
  rewrite Eo, En in Hsw. eexists. split.
  { eapply schedule_on_eq; [exact Hs|exact Ho|exact Hn| |exact Hsw]. apply push_called; [lia|Z.div_mod_to_equations; lia]. }
  split; cbn [sched core].
  - by apply set_rest_inv.
  - done.
  - intros t Hne'. cbn [set_rest tasks]. rewrite lookup_alter_ne by done. by apply payload_rest.
  - by exists new.
  - cbn [set_rest tasks]. rewrite lookup_alter, decide_True, Ho by done. eexists. split; [reflexivity|]. cbn [rest].
    split_and!; [done|done| |by apply (called_holds _ _ _ (rest new))]. by rewrite <-(called_rsp return_address), <-Hsv.
Qed.

Lemma schedule_on_alone flags return_address k : kernel_inv k → queue (sched k) = [] → schedule_on flags return_address k = Ret k.
Proof. intros [Hinv _] Hq. unfold schedule_on. rewrite schedule_alone by done. by destruct k. Qed.

(** A switch keeps the invariant, and what the thread [t] it is not away from holds; when
    it is to [t], the thread is back. *)
Lemma switched_inv return_address new_tid tcb k k' :
  kernel_inv k → on_stack (stack_top (rest tcb)) (regs (core k) rsp - 8) → switched return_address new_tid tcb k k' → kernel_inv k'.
Proof.
  intros [Hinv Hpark] Hst [Hs' [Hcur Hne] Hoth _ (old & Hold & _ & Htop & Hrsp & _)]. split; [done|]. intros t tcb' Ht Hnt.
  destruct (decide (t = current_tid (sched k))) as [->|Hd]; [rewrite Hold in Ht; injection Ht as <-; by rewrite Htop, Hrsp|].
  specialize (Hoth t Hd). rewrite Ht in Hoth. symmetry in Hoth. apply fmap_Some in Hoth as (tcb0 & H0 & ->). by eapply Hpark.
Qed.

Lemma switched_keeps return_address new_tid tcb x t tcb0 k k' :
  kernel_inv k → ¬ parked_word k (regs (core k) rsp - 8) → switched return_address new_tid tcb k k' →
  tasks (sched k) !! t = Some tcb0 → t ≠ current_tid (sched k) → parked_as x (rest tcb0) (core k) →
  ∃ tcb1, tasks (sched k') !! t = Some tcb1 ∧ rest tcb1 = rest tcb0 ∧
    if decide (t = current_tid (sched k')) then back x (rest tcb0) (core k') else parked_as x (rest tcb0) (core k').
Proof.
  intros [Hinv Hpark] Hpush [_ [Hcur Hne] Hoth (new & Hnew & Hl) _] Ht Hnt Hh. pose proof (Hoth t Hnt) as E. rewrite Ht in E.
  apply fmap_Some in E as (tcb1 & H1 & E1). exists tcb1. split_and!; [done|done|].
  assert (parked_as x (rest tcb0) (called return_address (core k))) as Hh'.
  { apply (holds_untouched x k t); [done|done|by eapply Hpark|done|]. intros a Ha. cbn [called words].
    rewrite fn_lookup_insert_ne; [done|]. by intros <-. }
  destruct (decide _) as [->|_].
  - rewrite Hcur, Hnew in Ht. injection Ht as ->. by eapply loaded_back.
  - destruct Hl as [_ _ _ Hw _], Hh' as [Hr Hs Hi Hws]. split; rewrite ?Hw; done.
Qed.

(** What a thread that is made holds: a call of its startup function that returns to its
    main function. *)
Definition start_state (stack_top startup main : Z) (m : machine) : machine :=
  mkMachine (λ r, if bool_decide (r = rsp) then stack_top - 24 else 0)
    (<[stack_top - 32 := startup]> (<[stack_top - 24 := main]> (<[stack_top - 16 := 0]> (<[stack_top - 8 := 0xdeadbeef]> (words m)))))
    startup (rflags m) (cs m) (ss m) (cr3 m).

Definition first_save (stack_top : Z) : Amd64SaveState := mkSave 0 (stack_top - 32) 0 0 0 0 0.

Lemma spawn_thread_eq TIDS nm ttable top startup main k :
  (top - 32) mod 8 = 0 → spawn_thread TIDS nm ttable top startup main k =
    Ret (TIDS, (TIDS + 1) mod 2 ^ 64,
      mkKernel (add_task TIDS (sched k) (mkTcb nm Ready (mkThread ttable (first_save top) top))).2
        (mkMachine (regs (core k)) (words (start_state top startup main (core k))) (rip (core k)) (rflags (core k)) (cs (core k)) (ss (core k)) (cr3 (core k)))).
Proof.
  intros Ha. unfold spawn_thread, tcb_new, save_state_new, store_word.
  rewrite !(proj2 (Z.eqb_eq _ 0)) by (Z.div_mod_to_equations; lia). done.
Qed.

Lemma start_holds ttable top startup main m m' :
  words m' = words (start_state top startup main m) → parked_as (start_state top startup main m) (mkThread ttable (first_save top) top) m'.
Proof.
  intros Hw. split; rewrite ?Hw; cbn [save_state first_save s_rsp].
  - by intros [] Hc Hr.
  - cbn [start_state regs]. rewrite bool_decide_eq_true_2 by done. lia.
  - cbn [start_state words rip]. by rewrite fn_lookup_insert.
  - done.
Qed.

Lemma spawn_keeps TIDS nm ttable top startup main k r k' :
  kernel_inv k → tasks (sched k) !! TIDS = None → on_stack top (top - 32) → (∀ a, top - 32 ≤ a < top → ¬ parked_word k a) →
  spawn_thread TIDS nm ttable top startup main k = Ret (r, k') →
  kernel_inv k' ∧ current_tid (sched k') = current_tid (sched k) ∧ TIDS ≠ current_tid (sched k) ∧
  (∃ tcb, tasks (sched k') !! TIDS = Some tcb ∧ pml4 (rest tcb) = ttable ∧ stack_top (rest tcb) = top ∧
    parked_as (start_state top startup main (core k)) (rest tcb) (core k')) ∧
  (∀ t, t ≠ TIDS → tasks (sched k') !! t = tasks (sched k) !! t) ∧ ∀ a, parked_word k a → words (core k') a = words (core k) a.
Proof.
  intros [Hinv Hpark] Hfresh Hst Hfree. rewrite spawn_thread_eq by apply Hst. intros [= <- <-].
  assert (TIDS ≠ current_tid (sched k)) as Hne.
  { destruct Hinv as (_ & Hdom & _). intros E. destruct (proj2 (Hdom TIDS)) as [? ?]; [rewrite E; left|congruence]. }
  split_and!; cbn [sched core].
  - split; [by apply add_task_inv|]. cbn [sched core add_task tid_new snd tasks current_tid]. intros t tcb. rewrite lookup_insert_Some.
    intros [[<- <-]|[_ Ht]]; [done|by apply Hpark].
  - done.
  - done.
  - eexists. cbn [add_task tid_new snd tasks]. rewrite lookup_insert, decide_True by done. split_and!; [done..|]. by apply start_holds.
  - intros t Ht. cbn [add_task tid_new snd tasks]. by rewrite lookup_insert_ne.
  - intros a Ha. cbn [start_state words]. rewrite !fn_lookup_insert_ne; [done|..]; intros <-; (eapply Hfree; [|exact Ha]); lia.
Qed.

(** A step of a thread other than [t] keeps what [t] holds; when it is a switch to [t],
    the thread is back. *)
Lemma step_keeps x k k' t tcb :
  kernel_inv k → thread_step k k' → t ≠ current_tid (sched k) → tasks (sched k) !! t = Some tcb → parked_as x (rest tcb) (core k) →
  kernel_inv k' ∧ ∃ tcb', tasks (sched k') !! t = Some tcb' ∧ rest tcb' = rest tcb ∧
    if decide (t = current_tid (sched k')) then back x (rest tcb) (core k') else parked_as x (rest tcb) (core k').
Proof.
  intros Hinv Hstep Hne Ht Hh. pose proof (proj2 Hinv t tcb Ht Hne) as Hon.
  destruct Hstep as [k m Hm|flags ra k k' tcb0 Hcur Hsp Hfree Hs|TIDS nm ttable top startup main k r k' Hfresh Hst Hfree Hs].
  - split; [exact Hinv|]. exists tcb. split_and!; [done|done|]. cbn [sched core]. rewrite decide_False by done.
    by apply (holds_untouched x k t).
  - destruct (queue (sched k)) as [|new_tid q] eqn:Hq.
    + rewrite schedule_on_alone in Hs by done. injection Hs as <-. split; [done|]. exists tcb. by rewrite decide_False.
    + destruct (schedule_on_ok flags ra k new_tid q tcb0) as (k1 & E & Hsw); [done..|]. rewrite E in Hs. injection Hs as ->.
      split; [by eapply switched_inv|by eapply switched_keeps].
  - destruct (spawn_keeps TIDS nm ttable top startup main k r k') as (Hinv' & Hcur & _ & _ & Hoth & Hw); [done..|].
    split; [done|]. exists tcb. rewrite Hoth by congruence. split_and!; [done|done|]. rewrite Hcur, decide_False by done.
    by apply (holds_untouched x k t).
Qed.

(** Steps during which [t] does not run. *)
Definition steps_without (t : Tid) : relation kernel := rtc (λ k k', thread_step k k' ∧ current_tid (sched k') ≠ t).

Lemma parked_returns x k k1 k2 t tcb :
  kernel_inv k → t ≠ current_tid (sched k) → tasks (sched k) !! t = Some tcb → parked_as x (rest tcb) (core k) →
  steps_without t k k1 → thread_step k1 k2 → current_tid (sched k2) = t → kernel_inv k2 ∧ back x (rest tcb) (core k2).
Proof.
  intros Hinv Hne Ht Hh Hsteps. revert tcb Hinv Hne Ht Hh. induction Hsteps as [k|k k0 k1 [Hstep Hn] _ IH]; intros tcb Hinv Hne Ht Hh Hlast Hcur.
  - destruct (step_keeps x k k2 t tcb) as (Hinv' & _ & _ & _ & Hb); [done..|]. by rewrite decide_True in Hb.
  - destruct (step_keeps x k k0 t tcb) as (Hinv' & tcb' & Ht' & E & Hb); [done..|]. rewrite decide_False in Hb by done.
    rewrite <-E. apply IH; try done. by rewrite E.
Qed.

(** ** Properties *)

(** The boot thread alone. *)
Lemma boot_thread_inv s tcb m : state tcb = Running → init sched_new tcb = Ret s → kernel_inv (mkKernel s m).
Proof.
  intros Hst Hi. destruct (init_inv tcb Hst) as (s' & E & Hinv). rewrite Hi in E. injection E as <-. split; [done|].
  revert Hi. unfold init, sched_new. cbn [tasks]. rewrite lookup_empty, bool_decide_eq_true_2 by done. intros [= <-].
  cbn [sched tasks current_tid]. intros t tcb' Ht Hne. rewrite lookup_insert_ne in Ht by done. by rewrite lookup_empty in Ht.
Qed.

(** C11. A thread comes back from [schedule] as from any function.  The call never fails,
    and however the other threads run, switch and make threads in between, when the
    thread is switched to again it goes on behind its call, with the registers that a
    function has to keep, with its stack as it was, and on its own page table. *)
Theorem thread_resumes flags return_address k tcb :
  kernel_inv k → tasks (sched k) !! current_tid (sched k) = Some tcb → on_stack (stack_top (rest tcb)) (regs (core k) rsp - 8) →
  queue (sched k) ≠ [] →
  ∃ k1, schedule_on flags return_address k = Ret k1 ∧ kernel_inv k1 ∧ current_tid (sched k1) ≠ current_tid (sched k) ∧
    ∀ k2 k3, steps_without (current_tid (sched k)) k1 k2 → thread_step k2 k3 → current_tid (sched k3) = current_tid (sched k) →
      back (set_rip return_address (core k)) (rest tcb) (core k3).
Proof.
  intros Hinv Ht Hst Hq. destruct (queue (sched k)) as [|new_tid q] eqn:E; [done|].
  destruct (schedule_on_ok flags return_address k new_tid q tcb) as (k1 & Hs & Hsw); [done..|].
  pose proof (switched_inv _ _ _ _ _ Hinv Hst Hsw) as Hinv1. destruct Hsw as [_ [Hcur Hne] _ _ (old & Hold & Hp & Htop & _ & Hh)].
  exists k1. split_and!; [done|done|congruence|]. intros k2 k3 Hsteps Hlast Hback.
  destruct (λ Hc, parked_returns _ k1 k2 k3 _ old Hinv1 Hc Hold Hh Hsteps Hlast Hback) as [_ [Br Bi Bw Bc]]; [congruence|].
  split; [done|done|by rewrite <-Htop|congruence].
Qed.

Lemma thread_starts_lemma TIDS nm ttable top startup main k :
  kernel_inv k → tasks (sched k) !! TIDS = None → on_stack top (top - 32) → (∀ a, top - 32 ≤ a < top → ¬ parked_word k a) →
  ∃ r k1, spawn_thread TIDS nm ttable top startup main k = Ret (r, k1) ∧ kernel_inv k1 ∧
    ∀ k2 k3, steps_without TIDS k1 k2 → thread_step k2 k3 → current_tid (sched k3) = TIDS →
      rip (core k3) = startup ∧ regs (core k3) rsp = top - 24 ∧ words (core k3) (top - 24) = main ∧ words (core k3) (top - 16) = 0 ∧
      cr3 (core k3) = ttable ∧ ∀ r, callee_saved r = true → r ≠ rsp → regs (core k3) r = 0.
Proof.
  intros Hinv Hfresh Hst Hfree. destruct (spawn_thread TIDS nm ttable top startup main k) as [[r k1]|] eqn:E; [|by rewrite spawn_thread_eq in E by apply Hst].
  destruct (spawn_keeps TIDS nm ttable top startup main k r k1) as (Hinv1 & Hcur & Hne & (tcb & Ht & Hp & Htop & Hh) & _ & _); [done..|].
  exists r, k1. split_and!; [done|done|]. intros k2 k3 Hsteps Hlast Hback.
  destruct (λ Hc, parked_returns _ k1 k2 k3 TIDS tcb Hinv1 Hc Ht Hh Hsteps Hlast Hback) as [_ [Br Bi Bw Bc]]; [congruence|].
  rewrite Htop in Bw. split_and!; [done|by rewrite Br|..].
  - rewrite Bw; [|cbn [start_state regs]; rewrite bool_decide_eq_true_2 by done; lia]. cbn [start_state words].
    rewrite fn_lookup_insert_ne by lia. by rewrite fn_lookup_insert.
  - rewrite Bw; [|cbn [start_state regs]; rewrite bool_decide_eq_true_2 by done; lia]. cbn [start_state words].
    rewrite !fn_lookup_insert_ne by lia. by rewrite fn_lookup_insert.
  - congruence.
  - intros r' Hr Hrs. rewrite Br by done. cbn [start_state regs]. by rewrite bool_decide_eq_false_2.
Qed.

(** C14. A thread that is made starts with its startup function on its own page table and
    stack, whatever runs before it is switched to for the first time, and when the startup
    function returns, it returns into the main function of the thread, below which the
    stack has a return address of 0.  The startup function finds the alignment of its
    calling convention when the stack ends at a multiple of sixteen. *)
Theorem thread_starts TIDS nm ttable top startup main k depth startup_code :
  kernel_inv k → tasks (sched k) !! TIDS = None → on_stack top (top - 32) → (∀ a, top - 32 ≤ a < top → ¬ parked_word k a) →
  SysV (top mod 16) depth top startup_code → 8 * depth ≤ top - 24 →
  ∃ r k1, spawn_thread TIDS nm ttable top startup main k = Ret (r, k1) ∧ kernel_inv k1 ∧
    ∀ k2 k3, steps_without TIDS k1 k2 → thread_step k2 k3 → current_tid (sched k3) = TIDS →
      rip (core k3) = startup ∧ cr3 (core k3) = ttable ∧ ∃ m, startup_code (core k3) = Ret m ∧
        rip m = main ∧ regs m rsp = top - 16 ∧ words m (top - 16) = 0 ∧ cr3 m = ttable ∧
        ∀ r, callee_saved r = true → r ≠ rsp → regs m r = 0.
Proof.
  intros Hinv Hfresh Hst Hfree Hcode Hdepth.
  destruct (thread_starts_lemma TIDS nm ttable top startup main k) as (r & k1 & Hs & Hinv1 & Hrun); [done..|].
  exists r, k1. split_and!; [done|done|]. intros k2 k3 Hsteps Hlast Hcur. destruct (Hrun k2 k3 Hsteps Hlast Hcur) as (Hi & Hsp & Hm & Hz & Hc & Hr).
  split_and!; [done|done|]. destruct Hst as (_ & _ & Htop & Ha).
  destruct (Hcode (core k3)) as (m & E & Er & Es & Ei & Ew & _ & _ & Ec); [lia|lia|rewrite Hsp; Z.div_mod_to_equations; lia..|].
  exists m. split_and!; [done|congruence|lia|rewrite Ew by lia; done|congruence|]. intros r' Hcs Hrs. by rewrite Er, Hr.
Qed.

(** The stack of a new thread is aligned for its startup function, as it is behind a
    call, where a multiple of sixteen is just above the return address.  It is not for
    its main function, which the startup function returns to eight bytes off. *)
Theorem main_misaligned TIDS nm ttable top startup main k depth startup_code :
  kernel_inv k → tasks (sched k) !! TIDS = None → on_stack top (top - 32) → (∀ a, top - 32 ≤ a < top → ¬ parked_word k a) →
  SysV 0 depth top startup_code → 8 * depth ≤ top - 24 → top mod 16 = 0 →
  ∃ r k1, spawn_thread TIDS nm ttable top startup main k = Ret (r, k1) ∧
    ∀ k2 k3, steps_without TIDS k1 k2 → thread_step k2 k3 → current_tid (sched k3) = TIDS →
      (regs (core k3) rsp + 8) mod 16 = 0 ∧ ∃ m, startup_code (core k3) = Ret m ∧ rip m = main ∧ (regs m rsp + 8) mod 16 = 8.
Proof.
  intros Hinv Hfresh Hst Hfree Hcode Hdepth Ha.
  destruct (thread_starts_lemma TIDS nm ttable top startup main k) as (r & k1 & Hs & _ & Hrun); [done..|].
  exists r, k1. split; [done|]. intros k2 k3 Hsteps Hlast Hcur. destruct (Hrun k2 k3 Hsteps Hlast Hcur) as (_ & Hsp & Hm & _).
  split; [rewrite Hsp; Z.div_mod_to_equations; lia|]. destruct Hst as (_ & _ & Htop & _).
  destruct (Hcode (core k3)) as (m & E & _ & Es & Ei & _); [lia|lia|rewrite Hsp; Z.div_mod_to_equations; lia..|].
  exists m. split_and!; [done|congruence|rewrite Es, Hsp; Z.div_mod_to_equations; lia].
Qed.

(** *** The properties at work *)

(** The boot thread, on a stack that ends at [0x20000]. *)
Definition demo_thread : kernel :=
  mkKernel (mkSched {[0 := mkTcb "init" Running (mkThread 0x1000 save_default 0x20000)]} [] 0)
    (mkMachine (λ r, if bool_decide (r = rsp) then 0x1ff80 else 5) (λ a, a) 0x400000 0x202 8 16 0x1000).

Lemma demo_thread_inv : kernel_inv demo_thread.
Proof. by apply (boot_thread_inv _ (mkTcb "init" Running (mkThread 0x1000 save_default 0x20000))). Qed.

Lemma demo_thread_alone a : ¬ parked_word demo_thread a.
Proof. intros (t & tcb & Ht & Hne & _). unfold demo_thread in Ht. cbn [sched tasks] in Ht. apply lookup_singleton_Some in Ht as [<- _]. by apply Hne. Qed.

(** A second thread, on a stack that ends at [0x40000]. *)
Definition demo_two : kernel :=
  match spawn_thread 1 "hellooo" 0x2000 0x40000 0x500000 0x600000 demo_thread with Ret (_, k) => k | Panic _ => demo_thread end.

Lemma ret_of {A} (o : outcome A) d :
  match o with Ret _ => true | Panic _ => false end = true → o = Ret (match o with Ret a => a | Panic _ => d end).
Proof. by destruct o. Qed.

Lemma demo_two_spawned : ∃ r, spawn_thread 1 "hellooo" 0x2000 0x40000 0x500000 0x600000 demo_thread = Ret (r, demo_two).
Proof. eexists. reflexivity. Qed.

Lemma demo_two_inv : kernel_inv demo_two.
Proof.
  destruct demo_two_spawned as [r Hs]. eapply spawn_keeps; [exact demo_thread_inv| | | |exact Hs]; [done|done|].
  intros a _. apply demo_thread_alone.
Qed.

(** The first thread yields to the second, and that one yields back. *)
Definition demo_away : kernel := match schedule_on (λ _ _, 0) 0x400123 demo_two with Ret k => k | Panic _ => demo_two end.
Definition demo_again : kernel := match schedule_on (λ _ _, 0) 0x600456 demo_away with Ret k => k | Panic _ => demo_two end.

Lemma demo_away_tasks t tcb :
  tasks (sched demo_away) !! t = Some tcb → t ≠ current_tid (sched demo_away) → s_rsp (save_state (rest tcb)) = 0x1ff78 ∧ stack_top (rest tcb) = 0x20000.
Proof.
  intros Ht Hne. assert (t ∈ current_tid (sched demo_away) :: queue (sched demo_away)) as Hin.
  { destruct (schedule_on_ok (λ _ _, 0) 0x400123 demo_two 1 [] (mkTcb "init" Running (mkThread 0x1000 save_default 0x20000)) demo_two_inv)
      as (k & E & [(_ & Hdom & _) _ _ _ _]); [vm_compute; reflexivity|vm_compute; split_and!; congruence|vm_compute; reflexivity|].
    replace demo_away with k in * by (unfold demo_away; rewrite E; reflexivity). apply Hdom. exists tcb. exact Ht. }
  assert (current_tid (sched demo_away) = 1) as Ec by (vm_compute; reflexivity).
  assert (queue (sched demo_away) = [0]) as Eq by (vm_compute; reflexivity). rewrite Ec in *. rewrite Eq in Hin.
  rewrite !elem_of_cons in Hin. destruct Hin as [->|[->|Hin%elem_of_nil]]; [by destruct Hne| |done].
  vm_compute in Ht. injection Ht as <-. split; reflexivity.
Qed.

Lemma demo_step : thread_step demo_away demo_again.
Proof.
  apply (step_yield (λ _ _, 0) 0x600456 _ _ (mkTcb "hellooo" Running (mkThread 0x2000 (first_save 0x40000) 0x40000))).
  - vm_compute. reflexivity.
  - vm_compute. split_and!; congruence.
  - intros (t & tcb & Ht & Hne & Ha). destruct (demo_away_tasks t tcb Ht Hne) as [E1 E2]. rewrite E1, E2 in Ha. vm_compute in Ha. by destruct Ha.
  - apply ret_of. vm_compute. reflexivity.
Qed.

Lemma thread_resumes_witness :
  schedule_on (λ _ _, 0) 0x400123 demo_two = Ret demo_away ∧ current_tid (sched demo_away) = 1 ∧ thread_step demo_away demo_again ∧
  back (set_rip 0x400123 (core demo_two)) (mkThread 0x1000 save_default 0x20000) (core demo_again).
Proof.
  destruct (thread_resumes (λ _ _, 0) 0x400123 demo_two (mkTcb "init" Running (mkThread 0x1000 save_default 0x20000)) demo_two_inv)
    as (k1 & E & _ & _ & Hback); [vm_compute; reflexivity|vm_compute; split_and!; congruence|discriminate|].
  assert (demo_away = k1) as <- by (unfold demo_away; rewrite E; reflexivity).
  split; [exact E|]. split; [vm_compute; reflexivity|]. split; [exact demo_step|].
  apply (Hback demo_away demo_again); [apply rtc_refl|exact demo_step|vm_compute; reflexivity].
Defined.

(** The first switch to the second thread. *)
Lemma demo_first_step : thread_step demo_two demo_away.
Proof.
  apply (step_yield (λ _ _, 0) 0x400123 _ _ (mkTcb "init" Running (mkThread 0x1000 save_default 0x20000))).
  - vm_compute. reflexivity.
  - vm_compute. split_and!; congruence.
  - intros (t & tcb & Ht & Hne & Ha). destruct demo_two_spawned as [r Hs].
    destruct (spawn_keeps 1 _ _ 0x40000 _ _ _ _ _ demo_thread_inv eq_refl ltac:(vm_compute; split_and!; congruence) (λ a _, demo_thread_alone a) Hs)
      as (_ & Hcur & _ & _ & Hoth & _).
    destruct (decide (t = 1)) as [->|Ht1]; [vm_compute in Ht; injection Ht as <-; vm_compute in Ha; by destruct Ha|].
    rewrite Hoth in Ht by done. apply (demo_thread_alone (regs (core demo_two) rsp - 8)). exists t, tcb. split_and!; [done|congruence|lia|lia].
  - apply ret_of. vm_compute. reflexivity.
Qed.

Lemma thread_starts_witness :
  ∃ r m, spawn_thread 1 "hellooo" 0x2000 0x40000 0x500000 0x600000 demo_thread = Ret (r, demo_two) ∧
    thread_step demo_two demo_away ∧ rip (core demo_away) = 0x500000 ∧ ret (core demo_away) = Ret m ∧ rip m = 0x600000.
Proof.
  destruct (thread_starts 1 "hellooo" 0x2000 0x40000 0x500000 0x600000 demo_thread 16 ret demo_thread_inv) as (r & k1 & E & Hinv & Hrun);
    [reflexivity|vm_compute; split_and!; congruence|intros a _; apply demo_thread_alone|apply ret_sysv; lia|lia|].
  assert (demo_two = k1) as <- by (unfold demo_two; rewrite E; reflexivity).
  destruct (Hrun demo_two demo_away) as (Hi & _ & m & Em & Hm & _); [apply rtc_refl|exact demo_first_step|vm_compute; reflexivity|].
  exists r, m. split; [exact E|]. split; [exact demo_first_step|]. split; [exact Hi|]. split; [exact Em|exact Hm].
Defined.
