(* ===== verification/Executor.v ===== *)
(** * Executor: the asynchronous tasks of the kernel

    [kernel/src/task/executor.rs] and [mod.rs].  The queue of the tasks to run is an
    [ArrayQueue] of a crate that is not part of the sources: a class, with what its
    documentation says as laws.  A future is known by what [poll] does: whether it is
    ready, what becomes of it, and which tasks it wakes meanwhile.  Wakers are shared
    with whatever a task waits for, so that a task can be woken between any two turns
    of the loop of [run]. *)

From stdpp Require Import base gmap list numbers option.
From S2P Require Import Prelude.

Open Scope Z_scope.

(** [crossbeam_queue::ArrayQueue<usize>]. *)
Class RunQueue (Q : Type) := {
  queue_new : Z → Q;
  queue_push : Q → Z → result Q Z;
  queue_pop : Q → option Z * Q
}.

Class LawfulQueue (Q : Type) `{RunQueue Q} := {
  queue_items : Q → list Z;
  queue_capacity : Q → Z;
  queue_new_law n : 0 < n → queue_items (queue_new n) = [] ∧ queue_capacity (queue_new n) = n;
  queue_push_law q x :
    if Z.of_nat (length (queue_items q)) <? queue_capacity q
    then ∃ q', queue_push q x = Ok q' ∧ queue_items q' = queue_items q ++ [x] ∧ queue_capacity q' = queue_capacity q
    else queue_push q x = Err x;
  queue_pop_law q : (queue_pop q).1 = head (queue_items q) ∧ queue_items (queue_pop q).2 = tail (queue_items q) ∧
    queue_capacity (queue_pop q).2 = queue_capacity q
}.

(** [Future<Output = ()>], polled with the waker of a task.  The wakers it calls
    meanwhile are given by the tasks they wake. *)
Class Future (F : Type) := future_poll : F → Z → bool * F * list Z.

Section executor.
  Context {Q F : Type} `{RunQueue Q} `{Future F}.

(** The waker of a task is its number. *)
Record Executor := mkExecutor {
  next_task_id : Z;
  pending_run : Q;
  tasks : gmap Z F;
  wakers : gmap Z Z
}.

Definition executor_new : Executor := mkExecutor 0 (queue_new 128) ∅ ∅.

(** [Waker::wake_by_ref]. *)
Definition wake (id : Z) (e : Executor) : outcome Executor :=
  q ← expect_ok (queue_push (pending_run e) id);
  Ret (mkExecutor (next_task_id e) q (tasks e) (wakers e)).

Definition spawn (task : F) (e : Executor) : outcome Executor :=
  let id := next_task_id e in
  next ← usize_add id 1;
  q ← expect_ok (queue_push (pending_run e) id);
  Ret (mkExecutor next q (<[id := task]> (tasks e)) (<[id := id]> (wakers e))).

(** One turn of the inner loop of [run]; nothing happens when nothing is pending. *)
Definition run_one (e : Executor) : outcome Executor :=
  match queue_pop (pending_run e) with
  | (None, q) => Ret (mkExecutor (next_task_id e) q (tasks e) (wakers e))
  | (Some id, q) =>
      task ← expect (tasks e !! id);
      waker ← expect (wakers e !! id);
      let '(ready, task, woken) := future_poll task waker in
      e ← for_each woken wake (mkExecutor (next_task_id e) q (<[id := task]> (tasks e)) (wakers e));
      if (ready : bool)
      then Ret (mkExecutor (next_task_id e) (pending_run e) (delete id (tasks e)) (delete id (wakers e)))
      else Ret e
  end.

(** Setting up, before [run]. *)
Fixpoint spawn_all (l : list F) (e : Executor) : outcome Executor :=
  match l with [] => Ret e | task :: l => e ← spawn task e; spawn_all l e end.

End executor.
Arguments Executor : clear implicits.

(** ** What the loop keeps *)

Section theory.
  Context {Q F : Type} `{LawfulQueue Q} `{Future F}.

  Local Abbreviation executor := (Executor Q F).

Definition pending (e : executor) : list Z := queue_items (pending_run e).

(** Every number in the queue is that of a task that is alive, and occurs once. *)
Record executor_inv (e : executor) : Prop := {
  inv_tasks id : id ∈ pending e → is_Some (tasks e !! id);
  inv_nodup : NoDup (pending e);
  inv_wakers id : is_Some (tasks e !! id) → wakers e !! id = Some id;
  inv_ids id : is_Some (tasks e !! id) → 0 ≤ id < next_task_id e;
  inv_count : next_task_id e ≤ queue_capacity (pending_run e)
}.

(** A wake that is not one too many: the task is alive and not in the queue. *)
Definition may_wake (e : executor) (id : Z) : Prop := is_Some (tasks e !! id) ∧ id ∉ pending e.

(** A turn whose future wakes only such tasks, none of them twice, and not itself
    when it is ready. *)
Definition polite_turn (e : executor) : Prop :=
  ∀ id task, head (pending e) = Some id → tasks e !! id = Some task →
    let '(ready, _, woken) := future_poll task id in
    NoDup woken ∧ (∀ x, x ∈ woken → is_Some (tasks e !! x) ∧ x ∉ tail (pending e)) ∧ (ready = true → id ∉ woken).

Lemma ids_bound n l : 0 ≤ n → NoDup l → (∀ i, i ∈ l → 0 ≤ i < n) → Z.of_nat (length l) ≤ n.
Proof.
  intros Hn Hnd Hl. assert (length l ≤ length (seqZ 0 n))%nat as Hle.
  { apply submseteq_length, NoDup_submseteq; [done|]. intros i Hi. apply elem_of_seqZ. specialize (Hl i Hi). lia. }
  rewrite length_seqZ in Hle. lia.
Qed.

(** The tasks in the queue are fewer than the tasks when one is not in it. *)
Lemma pending_room e x :
  executor_inv e → is_Some (tasks e !! x) → x ∉ pending e → Z.of_nat (length (pending e)) < queue_capacity (pending_run e).
Proof.
  intros Hinv Hx Hn. pose proof (inv_count e Hinv). pose proof (inv_ids e Hinv x Hx).
  assert (Z.of_nat (length (x :: pending e)) ≤ next_task_id e) as Hl.
  { apply ids_bound; [lia|constructor; [done|apply Hinv]|]. intros i Hi. apply (inv_ids e Hinv).
    apply elem_of_cons in Hi as [->|Hi]; [done|by apply (inv_tasks e Hinv)]. }
  simpl in Hl. lia.
Qed.

Lemma wake_ok e x :
  executor_inv e → may_wake e x →
  ∃ e', wake x e = Ret e' ∧ executor_inv e' ∧ pending e' = pending e ++ [x] ∧ tasks e' = tasks e ∧ wakers e' = wakers e ∧
    next_task_id e' = next_task_id e.
Proof.
  intros Hinv [Hx Hn]. pose proof (pending_room e x Hinv Hx Hn) as Hroom. pose proof (queue_push_law (pending_run e) x) as Hq.
  fold (pending e) in Hq. rewrite (proj2 (Z.ltb_lt _ _)) in Hq by done. destruct Hq as (q & Hpush & Hitems & Hcap).
  unfold wake. rewrite Hpush. cbn [expect_ok mbind outcome_bind]. eexists. split; [reflexivity|].
  destruct Hinv as [Ht Hnd Hw Hi Hc]. split; [|done]. split; cbn [tasks wakers next_task_id pending_run]; unfold pending; cbn [pending_run];
    rewrite ?Hitems, ?Hcap; try done.
  - intros id [Hid|Hid%list_elem_of_singleton]%elem_of_app; [by apply Ht|by subst id].
  - apply list.NoDup_app. split_and!; [done| |apply NoDup_singleton]. intros y Hy Hyx%list_elem_of_singleton. subst y. by apply Hn.
Qed.
Lemma wake_all e woken :
  executor_inv e → NoDup woken → (∀ x, x ∈ woken → may_wake e x) →
  ∃ e', for_each woken wake e = Ret e' ∧ executor_inv e' ∧ pending e' = pending e ++ woken ∧ tasks e' = tasks e ∧
    wakers e' = wakers e ∧ next_task_id e' = next_task_id e.
Proof.
  revert e. induction woken as [|x woken IH]; intros e Hinv Hnd Hmay.
  { exists e. by rewrite app_nil_r. }
  destruct (wake_ok e x Hinv) as (e1 & Hrun & Hinv1 & Hp & Ht & Hw & Hn); [apply Hmay; by left|].
  destruct (IH e1 Hinv1) as (e2 & Hrun2 & Hinv2 & Hp2 & Ht2 & Hw2 & Hn2); [by eapply NoDup_cons_1_2| |].
  { intros y Hy. destruct (Hmay y) as [Hty Hny]; [by right|]. unfold may_wake. rewrite Ht, Hp. split; [done|].
    intros [?|Hyx%list_elem_of_singleton]%elem_of_app; [done|]. subst y. by apply (NoDup_cons_1_1 _ _ Hnd). }
  exists e2. cbn [for_each]. rewrite Hrun. cbn [mbind outcome_bind]. rewrite Hp2, Hp, <-app_assoc. split_and!; try done; congruence.
Qed.

(** A turn takes the first task of the queue and puts those it wakes at the end. *)
Lemma turn_ok e :
  executor_inv e → polite_turn e →
  ∃ e' woken, run_one e = Ret e' ∧ executor_inv e' ∧ pending e' = tail (pending e) ++ woken.
Proof.
  intros Hinv Hpol. unfold run_one. destruct (queue_pop_law (pending_run e)) as (Hhd & Htl & Hcap).
  destruct (queue_pop (pending_run e)) as [o q]. cbn [fst snd] in Hhd, Htl, Hcap. fold (pending e) in Hhd, Htl.
  pose proof Hinv as [Ht Hnd Hw Hi Hc]. destruct (pending e) as [|id l] eqn:Hp; cbn [head tail] in *; subst o.
  { eexists _, []. split_and!; [reflexivity| |unfold pending; cbn [pending_run]; by rewrite Htl].
    split; unfold pending; cbn [pending_run tasks wakers next_task_id]; rewrite ?Htl, ?Hcap; try done; constructor. }
  destruct (Ht id) as [task Htask]; [by left|]. rewrite Htask. cbn [expect mbind outcome_bind].
  rewrite (Hw id) by done. cbn [expect mbind outcome_bind]. specialize (Hpol id task). rewrite Hp in Hpol. specialize (Hpol eq_refl Htask).
  destruct (future_poll task id) as [[ready task'] woken]. destruct Hpol as (Hnw & Hwk & Hself). cbn [tail] in Hwk.
  set (e1 := mkExecutor (next_task_id e) q (<[id := task']> (tasks e)) (wakers e)).
  assert (∀ x, is_Some (<[id := task']> (tasks e) !! x) ↔ is_Some (tasks e !! x)) as Hdom.
  { intros x. destruct (decide (x = id)) as [->|]; [rewrite lookup_insert_eq|by rewrite lookup_insert_ne]. by rewrite Htask. }
  assert (executor_inv e1) as Hinv1.
  { split; unfold pending; cbn [e1 pending_run tasks wakers next_task_id]; rewrite ?Htl, ?Hcap; try done.
    - intros x Hx. apply Hdom, Ht. by right.
    - by eapply NoDup_cons_1_2.
    - intros x Hx%Hdom. by apply Hw.
    - intros x Hx%Hdom. by apply Hi. }
  destruct (wake_all e1 woken Hinv1 Hnw) as (e2 & -> & Hinv2 & Hp2 & Ht2 & Hw2 & Hn2).
  { intros x Hx. destruct (Hwk x Hx) as [Hal Hnq]. split; [by apply Hdom|]. unfold pending. cbn [e1 pending_run]. by rewrite Htl. }
  assert (pending e2 = l ++ woken) as Hp3 by (rewrite Hp2; unfold pending; cbn [e1 pending_run]; by rewrite Htl).
  cbn [mbind outcome_bind]. destruct ready; [|by exists e2, woken]. eexists _, woken. split_and!; [reflexivity| |exact Hp3].
  destruct Hinv2 as [Ht2' Hnd2 Hwk2 Hi2 Hc2]. assert (id ∉ pending e2) as Hnin.
  { rewrite Hp3. intros [?|?]%elem_of_app; [by apply (NoDup_cons_1_1 _ _ Hnd)|by apply Hself]. }
  split; unfold pending; cbn [pending_run tasks wakers next_task_id]; try done.
  - intros x Hx. rewrite lookup_delete_ne by (intros <-; done). by apply Ht2'.
  - intros x [Hne Hx]%lookup_delete_is_Some. rewrite lookup_delete_ne by done. by apply Hwk2.
  - intros x [Hne Hx]%lookup_delete_is_Some. by apply Hi2.
Qed.

Lemma spawn_ok e task :
  executor_inv e → next_task_id e < queue_capacity (pending_run e) → 0 ≤ next_task_id e < usize_max →
  ∃ e', spawn task e = Ret e' ∧ executor_inv e' ∧ pending e' = pending e ++ [next_task_id e] ∧
    next_task_id e' = next_task_id e + 1 ∧ queue_capacity (pending_run e') = queue_capacity (pending_run e).
Proof.
  intros Hinv Hroom Hn. pose proof Hinv as [Ht Hnd Hw Hi Hc]. unfold spawn. rewrite usize_add_ok by lia. cbn [mbind outcome_bind].
  assert (Z.of_nat (length (pending e)) ≤ next_task_id e) as Hl.
  { apply ids_bound; [lia|done|]. intros i Hin. by apply Hi, Ht. }
  pose proof (queue_push_law (pending_run e) (next_task_id e)) as Hq. fold (pending e) in Hq.
  rewrite (proj2 (Z.ltb_lt _ _)) in Hq by lia. destruct Hq as (q & -> & Hitems & Hcap).
  cbn [expect_ok mbind outcome_bind]. eexists. split; [reflexivity|]. fold (pending e) in Hitems.
  assert (tasks e !! next_task_id e = None) as Hfresh.
  { destruct (tasks e !! next_task_id e) as [t|] eqn:E; [|done]. destruct (Hi (next_task_id e)); [by eexists|lia]. }
  unfold pending. cbn [pending_run next_task_id]. split_and!; try done. split; unfold pending; cbn [pending_run tasks wakers next_task_id].
  - rewrite Hitems. intros x [Hx|Hx%list_elem_of_singleton]%elem_of_app; apply lookup_insert_is_Some'; [right; by apply Ht|by left].
  - rewrite Hitems. apply list.NoDup_app. split_and!; [done| |apply NoDup_singleton].
    intros y Hy Hyx%list_elem_of_singleton. subst y. apply Ht in Hy. rewrite Hfresh in Hy. by destruct Hy.
  - intros x [->|Hx]%lookup_insert_is_Some'; [by rewrite lookup_insert_eq|].
    destruct (decide (x = next_task_id e)) as [->|]; [by rewrite lookup_insert_eq|]. rewrite lookup_insert_ne by done. by apply Hw.
  - intros x [<-|Hx]%lookup_insert_is_Some'; [lia|]. apply Hi in Hx. lia.
  - rewrite Hcap. lia.
Qed.

Lemma spawn_all_ok l e :
  executor_inv e → 0 ≤ next_task_id e → next_task_id e + Z.of_nat (length l) ≤ queue_capacity (pending_run e) ≤ usize_max →
  ∃ e', spawn_all l e = Ret e' ∧ executor_inv e' ∧ pending e' = pending e ++ seqZ (next_task_id e) (Z.of_nat (length l)).
Proof.
  revert e. induction l as [|task l IH]; intros e Hinv Hpos Hroom.
  { exists e. by rewrite app_nil_r. }
  cbn [length] in Hroom. destruct (spawn_ok e task Hinv) as (e1 & Hrun & Hinv1 & Hp & Hn & Hc); [lia|lia|].
  destruct (IH e1 Hinv1) as (e2 & Hrun2 & Hinv2 & Hp2); [lia|rewrite Hc; lia|].
  exists e2. cbn [spawn_all]. rewrite Hrun. cbn [mbind outcome_bind]. split_and!; [done|done|].
  rewrite Hp2, Hp, Hn, <-app_assoc. f_equal. cbn [length]. rewrite (seqZ_cons (next_task_id e)) by lia. cbn [app]. f_equal. f_equal; lia.
Qed.

Lemma executor_new_inv : executor_inv executor_new ∧ queue_capacity (pending_run (executor_new (F:=F))) = 128 ∧ pending executor_new = [].
Proof.
  destruct (queue_new_law 128 ltac:(lia)) as [Hi Hc]. split_and!; [|done|done].
  split; unfold pending; cbn [executor_new pending_run tasks wakers next_task_id]; rewrite ?Hi, ?Hc; try lia.
  - intros id Hid. by apply not_elem_of_nil in Hid.
  - constructor.
  - intros id Hid. rewrite lookup_empty in Hid. by destruct Hid.
  - intros id Hid. rewrite lookup_empty in Hid. by destruct Hid.
Qed.

(** ** Runs *)

(** What happens once [run] is called: turns of the loop, and tasks that are woken by
    what they wait for. *)
Inductive executor_step : executor → executor → Prop :=
  | step_turn e e' : polite_turn e → run_one e = Ret e' → executor_step e e'
  | step_wake e e' id : may_wake e id → wake id e = Ret e' → executor_step e e'.

(** The same with the number of turns. *)
Inductive turns : nat → executor → executor → Prop :=
  | turns_refl e : turns 0 e e
  | turns_turn n e1 e2 e3 : polite_turn e1 → run_one e1 = Ret e2 → turns n e2 e3 → turns (S n) e1 e3
  | turns_wake n e1 e2 e3 id : may_wake e1 id → wake id e1 = Ret e2 → turns n e2 e3 → turns n e1 e3.

Lemma executor_step_inv e e' : executor_step e e' → executor_inv e → executor_inv e'.
Proof.
  intros [? ? Hpol Hrun|? ? id Hmay Hrun] Hinv.
  - destruct (turn_ok _ Hinv Hpol) as (e1 & w & Hrun1 & Hinv1 & _). rewrite Hrun in Hrun1. by injection Hrun1 as ->.
  - destruct (wake_ok _ _ Hinv Hmay) as (e1 & Hrun1 & Hinv1 & _). rewrite Hrun in Hrun1. by injection Hrun1 as ->.
Qed.

Lemma steps_inv e e' : rtc executor_step e e' → executor_inv e → executor_inv e'.
Proof. induction 1; eauto using executor_step_inv. Qed.

(** The queue is served from the front and filled at the back. *)
Lemma turns_fifo n e e' l1 id l2 :
  turns n e e' → executor_inv e → pending e = l1 ++ id :: l2 → n = length l1 → ∃ l, pending e' = id :: l ∧ executor_inv e'.
Proof.
  intros Hrun. revert l1 l2. induction Hrun as [e|n e1 e2 e3 Hpol Hrun _ IH|n e1 e2 e3 x Hmay Hrun _ IH]; intros l1 l2 Hinv Hp Hn.
  - destruct l1; [|done]. by exists l2.
  - destruct l1 as [|y l1]; [done|]. destruct (turn_ok _ Hinv Hpol) as (e & w & Hrun1 & Hinv1 & Hp1).
    rewrite Hrun in Hrun1. injection Hrun1 as <-. apply (IH l1 (l2 ++ w)); [done| |simpl in Hn; lia].
    rewrite Hp1, Hp. simpl. by rewrite <-app_assoc.
  - destruct (wake_ok _ _ Hinv Hmay) as (e & Hrun1 & Hinv1 & Hp1 & _). rewrite Hrun in Hrun1. injection Hrun1 as <-.
    apply (IH l1 (l2 ++ [x])); [done| |done]. rewrite Hp1, Hp. by rewrite <-app_assoc.
Qed.

(** ** Properties *)

(** C24. An executor with at most 128 tasks starts with all of them in its queue.  It
    does not panic, and every number in the queue is that of a task that is alive and
    occurs once, as long as every wake is polite.  From outside, a task may be woken when
    it is alive and not in the queue.  A future may wake such tasks and itself while it
    is polled, each once, but not itself in the poll that makes it ready: see
    [executor_self_wake_panics]. *)
Theorem executor_safe fs :
  (length fs ≤ 128)%nat →
  ∃ e0, spawn_all fs executor_new = Ret e0 ∧ pending e0 = seqZ 0 (Z.of_nat (length fs)) ∧
    ∀ e, rtc executor_step e0 e →
      executor_inv e ∧ (polite_turn e → ∃ e', run_one e = Ret e') ∧ ∀ id, may_wake e id → ∃ e', wake id e = Ret e'.
Proof.
  intros Hl. destruct executor_new_inv as (Hinv & Hc & Hp). destruct (spawn_all_ok fs executor_new Hinv) as (e0 & Hrun & Hinv0 & Hp0); [done|rewrite Hc; cbn; lia|].
  exists e0. rewrite Hp0, Hp. split_and!; [done|done|]. intros e Hsteps. pose proof (steps_inv _ _ Hsteps Hinv0) as He. split_and!; [done| |].
  - intros Hpol. destruct (turn_ok e He Hpol) as (e' & _ & ? & _). by exists e'.
  - intros id Hmay. destruct (wake_ok e id He Hmay) as (e' & ? & _). by exists e'.
Qed.

(** A task in the queue is polled when those before it have had their turns,
    whatever is woken meanwhile: after as many turns it is the first of the queue and
    alive. *)
Theorem executor_fifo fs e0 e e' l1 id l2 :
  (length fs ≤ 128)%nat → spawn_all fs executor_new = Ret e0 → rtc executor_step e0 e →
  pending e = l1 ++ id :: l2 → turns (length l1) e e' →
  head (pending e') = Some id ∧ is_Some (tasks e' !! id).
Proof.
  intros Hl Hrun Hsteps Hp Hturns. destruct executor_new_inv as (Hinv & Hc & _).
  destruct (spawn_all_ok fs executor_new Hinv) as (e1 & Hrun1 & Hinv0 & _); [done|rewrite Hc; cbn; lia|].
  rewrite Hrun in Hrun1. injection Hrun1 as <-. pose proof (steps_inv _ _ Hsteps Hinv0) as He.
  destruct (turns_fifo _ _ _ _ _ _ Hturns He Hp eq_refl) as (l & Hp' & He'). rewrite Hp'. split; [done|].
  apply (inv_tasks e' He'). rewrite Hp'. by left.
Qed.

End theory.

(** ** Executors at work *)

(** A queue of at most a number of items. *)
#[global] Instance list_queue : RunQueue (Z * list Z) := {
  queue_new n := (n, []);
  queue_push q x := if Z.of_nat (length q.2) <? q.1 then Ok (q.1, q.2 ++ [x]) else Err x;
  queue_pop q := match q.2 with [] => (None, q) | x :: l => (Some x, (q.1, l)) end
}.

#[global] Instance list_queue_lawful : LawfulQueue (Z * list Z).
Proof.
  refine {| queue_items := snd; queue_capacity := fst |}.
  - done.
  - intros [c l] x. cbn. destruct (Z.of_nat (length l) <? c); [by eexists|done].
  - by intros [c [|x l]].
Defined.

(** Futures that are ready after some polls and wake a list of tasks in each. *)
#[global] Instance demo_future : Future (nat * list Z) := λ f _,
  match f.1 with O => (true, f, f.2) | S n => (false, (n, f.2), f.2) end.

(** A task that is woken while it is in the queue is taken from it twice: when it is
    ready the first time, the second turn finds no task and panics. *)
Theorem executor_double_wake_panics :
  (e ← spawn_all (Q:=Z * list Z) [(0%nat, [])] executor_new; e ← wake 0 e; e ← run_one e; run_one e) = Panic UnwrapFailed.
Proof. vm_compute. reflexivity. Qed.

(** A task that wakes itself and is ready in the same poll is in the queue when it is
    removed: the next turn panics. *)
Theorem executor_self_wake_panics :
  (e ← spawn_all (Q:=Z * list Z) [(0%nat, [0])] executor_new; e ← run_one e; run_one e) = Panic UnwrapFailed.
Proof. vm_compute. reflexivity. Qed.

Lemma executor_safe_witness :
  ∃ e0, spawn_all (Q:=Z * list Z) [(1%nat, [1]); (0%nat, [])] executor_new = Ret e0 ∧ pending e0 = [0; 1].
Proof.
  destruct (executor_safe (Q:=Z * list Z) [(1%nat, [1]); (0%nat, [])]) as (e0 & Hrun & Hp & _); [simpl; lia|]. by exists e0.
Defined.

Lemma executor_fifo_witness :
  ∃ e0 e1, spawn_all (Q:=Z * list Z) [(1%nat, []); (0%nat, [])] executor_new = Ret e0 ∧ run_one e0 = Ret e1 ∧ head (pending e1) = Some 1.
Proof.
  eexists _, _. split; [reflexivity|]. split; [reflexivity|].
  refine (proj1 (executor_fifo (Q:=Z * list Z) [(1%nat, []); (0%nat, [])] _ _ _ [0] 1 [] _ eq_refl (rtc_refl _ _) eq_refl _)).
  - simpl. lia.
  - econstructor; [|reflexivity|constructor]. intros id task Hh Ht. vm_compute in Hh. injection Hh as <-.
    vm_compute in Ht. injection Ht as <-. split_and!; [constructor|intros x Hx; by apply not_elem_of_nil in Hx|done].
Defined.
