(* ===== verification/FontFormat.v ===== *)
(** * FontFormat: the tables of a bitmap font

    The files under [fonts/] hold the tables of the fonts of the boot menu in
    the text format of the graphics library.  This file has the records those
    tables are written in, with the field names the initialisers use, and what
    it means for the tables of one font to agree with each other.  The code that
    reads the tables belongs to the graphics library and is not part of the
    sources; the one thing the tables rely on, the glyph number it finds for a
    code point, is the class [GlyphLookup] below. *)

From stdpp Require Import base list numbers option.
From S2P Require Import Prelude.

Open Scope Z_scope.

(** [lv_font_fmt_txt_glyph_dsc_t]. *)
Record glyph_dsc_t := glyph {
  bitmap_index : Z; adv_w : Z; box_w : Z; box_h : Z; ofs_x : Z; ofs_y : Z
}.

Inductive cmap_type := CMAP_FORMAT0_TINY | CMAP_SPARSE_TINY.

#[global] Instance cmap_type_eq_dec : EqDecision cmap_type.
Proof. solve_decision. Defined.

(** [lv_font_fmt_txt_cmap_t]; [NULL] lists are empty. *)
Record cmap_t := mkCmap {
  range_start : Z; range_length : Z; glyph_id_start : Z;
  unicode_list : list Z; glyph_id_ofs_list : list Z; list_length : Z; type : cmap_type
}.

(** [lv_font_fmt_txt_kern_pair_t]; [glyph_ids_size = 0] for 8-bit glyph ids. *)
Record kern_pair_t := mkKern {
  glyph_ids : list Z; values : list Z; pair_cnt : Z; glyph_ids_size : Z
}.

(** [lv_font_fmt_txt_dsc_t]. *)
Record font_dsc_t := mkFontDsc {
  glyph_bitmap : list Z; glyph_dsc : list glyph_dsc_t; cmaps : list cmap_t;
  kern_dsc : option kern_pair_t; kern_scale : Z; cmap_num : Z; bpp : Z;
  kern_classes : Z; bitmap_format : Z
}.

(** [lv_font_t]. *)
Record font_t := mkFont {
  line_height : Z; base_line : Z; underline_position : Z; underline_thickness : Z; dsc : font_dsc_t
}.

(** ** Finding a glyph *)

(** A strictly increasing list. *)
Fixpoint increasing (l : list Z) : bool :=
  match l with
  | x :: (y :: _) as l' => (x <? y) && increasing l'
  | _ => true
  end.

(** What the graphics library documents of the two kinds of character map. *)
Class GlyphLookup (get_glyph_id : list cmap_t → Z → Z) : Prop := {
  format0_tiny c cp : type c = CMAP_FORMAT0_TINY →
    0 ≤ cp - range_start c < range_length c →
    get_glyph_id [c] cp = glyph_id_start c + (cp - range_start c);
  sparse_tiny c i ofs : type c = CMAP_SPARSE_TINY → increasing (unicode_list c) = true →
    list_length c = Z.of_nat (length (unicode_list c)) → 0 ≤ ofs < range_length c →
    unicode_list c !! i = Some ofs →
    get_glyph_id [c] (range_start c + ofs) = glyph_id_start c + Z.of_nat i
}.

(** ** Fonts whose tables agree *)

(** The bytes of a glyph of [box_w * box_h] pixels of [bpp] bits. *)
Definition glyph_size (bits : Z) (g : glyph_dsc_t) : Z := (box_w g * box_h g * bits + 7) / 8.

(** The bytes the descriptor points at. *)
Definition glyph_slice (f : font_dsc_t) (g : glyph_dsc_t) : list Z :=
  take (Z.to_nat (glyph_size (bpp f) g)) (drop (Z.to_nat (bitmap_index g)) (glyph_bitmap f)).

(** The glyphs follow each other in the bitmap without a gap, from [at_] on. *)
Fixpoint contiguous (bits at_ : Z) (gs : list glyph_dsc_t) : bool :=
  match gs with
  | [] => true
  | g :: gs => (bitmap_index g =? at_) && contiguous bits (at_ + glyph_size bits g) gs
  end.

(** Every code point of [cps], in order, is the one the map [c] numbers. *)
Fixpoint numbered (c : cmap_t) (i : nat) (cps : list Z) : bool :=
  match cps with
  | [] => true
  | cp :: cps =>
      (0 <=? cp - range_start c) && (cp - range_start c <? range_length c) &&
      match type c with
      | CMAP_FORMAT0_TINY => cp - range_start c =? Z.of_nat i
      | CMAP_SPARSE_TINY => bool_decide (unicode_list c !! i = Some (cp - range_start c))
      end && numbered c (S i) cps
  end.

(** The pixels past the end of the last row are blank. *)
Definition padding_blank (bits : Z) (g : glyph_dsc_t) (bytes : list Z) : bool :=
  let pad := 8 * glyph_size bits g - box_w g * box_h g * bits in
  match bytes !! pred (length bytes) with
  | Some b => b mod 2 ^ pad =? 0
  | None => true
  end.

(** The glyph is inside the line of the font. *)
Definition in_line (f : font_t) (g : glyph_dsc_t) : bool :=
  (- base_line f <=? ofs_y g) && (ofs_y g + box_h g <=? line_height f - base_line f).

(** A bitmap cut at the comments that name the glyphs. *)
Fixpoint cut_glyphs (marks : list (Z * Z)) (bytes : list Z) : list (Z * list Z) :=
  match marks with
  | [] => []
  | (cp, n) :: marks => (cp, take (Z.to_nat n) bytes) :: cut_glyphs marks (drop (Z.to_nat n) bytes)
  end.

(** [table] lists the glyphs of the font as the sources comment them: the code
    point and the bytes. *)
Definition font_ok (f : font_t) (table : list (Z * list Z)) : bool :=
  let d := dsc f in
  bool_decide (glyph_bitmap d = concat (snd <$> table)) &&
  forallb (λ b, (0 <=? b) && (b <? 256)) (glyph_bitmap d) &&
  match glyph_dsc d, cmaps d with
  | reserved :: gs, [c] =>
      bool_decide (length gs = length table) && contiguous (bpp d) 0 gs &&
      forallb (λ p : glyph_dsc_t * (Z * list Z),
        (glyph_size (bpp d) p.1 =? Z.of_nat (length p.2.2)) && padding_blank (bpp d) p.1 p.2.2)
        (zip gs table) &&
      forallb (in_line f) gs &&
      (glyph_id_start c =? 1) && (cmap_num d =? 1) && numbered c 0 (table.*1) &&
      match type c with
      | CMAP_FORMAT0_TINY => range_length c =? Z.of_nat (length table)
      | CMAP_SPARSE_TINY => increasing (unicode_list c) &&
          (list_length c =? Z.of_nat (length (unicode_list c)))
      end
  | _, _ => false
  end.

(** The kerning pairs are in the order a binary search needs, and name glyphs
    of the font. *)
Fixpoint pairs_of (l : list Z) : list (Z * Z) :=
  match l with
  | a :: b :: l => (a, b) :: pairs_of l
  | _ => []
  end.

Definition kern_ok (f : font_t) : bool :=
  let d := dsc f in
  match kern_dsc d with
  | None => kern_scale d =? 0
  | Some k =>
      (Z.of_nat (length (glyph_ids k)) =? 2 * pair_cnt k) &&
      (Z.of_nat (length (values k)) =? pair_cnt k) &&
      forallb (λ i, (1 <=? i) && (i <? Z.of_nat (length (glyph_dsc d)))) (glyph_ids k) &&
      forallb (λ v, (-128 <=? v) && (v <? 128)) (values k) &&
      increasing ((λ p : Z * Z, p.1 * 256 + p.2) <$> pairs_of (glyph_ids k))
  end.

Lemma contiguous_slice bits at_ gs (tab : list (Z * list Z)) bm i g p :
  contiguous bits at_ gs = true → 0 ≤ at_ →
  Forall2 (λ g p, glyph_size bits g = Z.of_nat (length p.2)) gs tab →
  drop (Z.to_nat at_) bm = concat (snd <$> tab) →
  gs !! i = Some g → tab !! i = Some p →
  take (Z.to_nat (glyph_size bits g)) (drop (Z.to_nat (bitmap_index g)) bm) = p.2.
Proof.
  revert at_ tab i. induction gs as [|g0 gs IH]; intros at_ tab i Hc Hat Hf Hbm Hg Hp; [done|].
  inversion Hf as [|? p0 ? tab' Hsz Hf' E1 E2]; subst. simpl in Hc, Hbm.
  apply andb_true_iff in Hc as [Hidx%Z.eqb_eq Hc]. destruct i as [|i]; simpl in Hg, Hp.
  - injection Hg as ->. injection Hp as ->. rewrite Hidx, Hbm, Hsz, Nat2Z.id. apply take_app_length.
  - eapply (IH (at_ + glyph_size bits g0) tab' i); eauto; [lia|].
    rewrite Hsz, Z2Nat.inj_add, Nat2Z.id by lia. rewrite <-drop_drop, Hbm.
    apply drop_app_length.
Qed.

Lemma numbered_lookup c i0 cps i cp :
  numbered c i0 cps = true → cps !! i = Some cp →
  0 ≤ cp - range_start c < range_length c ∧
  match type c with
  | CMAP_FORMAT0_TINY => cp - range_start c = Z.of_nat (i0 + i)
  | CMAP_SPARSE_TINY => unicode_list c !! (i0 + i)%nat = Some (cp - range_start c)
  end.
Proof.
  revert i0 i. induction cps as [|cp0 cps IH]; intros i0 i Hn Hi; [done|]. simpl in Hn.
  rewrite !andb_true_iff, Z.leb_le, Z.ltb_lt in Hn. destruct Hn as ((Hr & Ht) & Hn).
  destruct i as [|i]; simpl in Hi.
  - injection Hi as ->. split; [lia|]. rewrite Nat.add_0_r.
    destruct (type c); [by apply Z.eqb_eq|by apply bool_decide_eq_true in Ht].
  - rewrite Nat.add_succ_r. by apply (IH (S i0) i).
Qed.

(** A font whose tables agree shows, for each code point it lists, the glyph
    that the sources give for it. *)
Lemma font_ok_shows get_glyph_id `{!GlyphLookup get_glyph_id} f table i cp bytes :
  font_ok f table = true → table !! i = Some (cp, bytes) →
  ∃ g, glyph_dsc (dsc f) !! Z.to_nat (get_glyph_id (cmaps (dsc f)) cp) = Some g ∧
    glyph_slice (dsc f) g = bytes ∧ in_line f g = true.
Proof.
  intros Hok Hi. unfold font_ok in Hok.
  destruct (glyph_dsc (dsc f)) as [|reserved gs]; [by rewrite andb_false_r in Hok|].
  destruct (cmaps (dsc f)) as [|c [|]]; [by rewrite andb_false_r in Hok| |by rewrite andb_false_r in Hok].
  rewrite !andb_true_iff in Hok. destruct Hok as ((Hbm & _) & (((((((Hlen & Hcont) & Hz) & Hline) & Hs) & _) & Hnum) & Hty)).
  apply bool_decide_eq_true in Hbm, Hlen. apply Z.eqb_eq in Hs.
  destruct (numbered_lookup c 0 (table.*1) i cp Hnum) as [Hr Hn]; [by rewrite list_lookup_fmap, Hi|].
  assert (get_glyph_id [c] cp = 1 + Z.of_nat i) as Hget.
  { destruct (type c) eqn:Et; simpl in Hn.
    - rewrite (format0_tiny c cp), Hs, Hn by done. lia.
    - apply andb_true_iff in Hty as [? ?%Z.eqb_eq].
      replace cp with (range_start c + (cp - range_start c)) by lia. rewrite (sparse_tiny c i); [lia|done..]. }
  assert (is_Some (gs !! i)) as [g Hg].
  { apply lookup_lt_is_Some. rewrite Hlen. by eapply lookup_lt_Some. }
  exists g. rewrite Hget. replace (Z.to_nat (1 + Z.of_nat i)) with (S i) by lia. split; [done|].
  rewrite forallb_forall in Hz, Hline. split.
  - unfold glyph_slice. apply (contiguous_slice (bpp (dsc f)) 0 gs table (glyph_bitmap (dsc f)) i g (cp, bytes)); try done.
    apply Forall2_same_length_lookup. split; [done|]. intros j g' p' Hg' Hp'.
    assert (In (g', p') (zip gs table)) as Hin.
    { apply list_elem_of_In, list_elem_of_lookup. exists j. by apply lookup_zip_Some. }
    by apply Hz, andb_true_iff in Hin as [?%Z.eqb_eq _].
  - apply Hline, list_elem_of_In. by eapply list_elem_of_lookup_2.
Qed.
