(* ===== verification/OpenSans.v ===== *)
(** * OpenSans: the tables of [fonts/open_sans_48.c]

    The font of the 95 printable ASCII characters at 48 pixels, two bits a pixel.
    The bitmap in pieces of 150 lines of the source, its glyphs, then the table of
    the descriptors, the character map and the font itself. *)

From stdpp Require Import base list numbers option.
From S2P Require Import Prelude FontFormat.

Open Scope Z_scope.

Definition open_sans_bitmap_0 : list Z :=
  [ 0xbf; 0xeb; 0xfe; 0x7f; 0xe7; 0xfe; 0x7f; 0xe7;
  0xfe; 0x7f; 0xd7; 0xfd; 0x3f; 0xd3; 0xfd; 0x3f;
  0xd3; 0xfd; 0x3f; 0xc3; 0xfc; 0x3f; 0xc3; 0xfc;
  0x3f; 0xc3; 0xfc; 0x3f; 0xc3; 0xfc; 0x2f; 0xc2;
  0xfc; 0x2f; 0xc2; 0xfc; 0x0; 0x0; 0x0; 0x0;
  0x0; 0x50; 0x3f; 0xdb; 0xff; 0xff; 0xff; 0xff;
  0xbf; 0xe2; 0xf8;
  0x3f; 0xe0; 0x1f; 0xf4; 0xff; 0x80; 0x7f; 0xd3;
  0xfe; 0x0; 0xff; 0x4f; 0xf8; 0x3; 0xfc; 0x3f;
  0xd0; 0xf; 0xf0; 0xbf; 0x40; 0x3f; 0xc2; 0xfd;
  0x0; 0xff; 0xb; 0xf0; 0x3; 0xfc; 0x2f; 0xc0;
  0xf; 0xf0; 0x7f; 0x0; 0x2f; 0xc1; 0xfc; 0x0;
  0xbe; 0x7; 0xf0; 0x2; 0xf8; 0x0; 0x0; 0x0;
  0x0;
  0x0; 0x0; 0x3f; 0x40; 0xf; 0xc0; 0x0; 0x0;
  0x1f; 0xc0; 0x7; 0xf0; 0x0; 0x0; 0xb; 0xf0;
  0x1; 0xfc; 0x0; 0x0; 0x2; 0xfc; 0x0; 0xbf;
  0x0; 0x0; 0x0; 0xfe; 0x0; 0x3f; 0x80; 0x0;
  0x0; 0x3f; 0x40; 0xf; 0xd0; 0x0; 0x0; 0xf;
  0xd0; 0x3; 0xf4; 0x0; 0x0; 0x7; 0xf0; 0x1;
  0xfc; 0x0; 0x0; 0x1; 0xfc; 0x0; 0x7f; 0x0;
  0x0; 0x0; 0xbf; 0x0; 0x2f; 0xc0; 0x2; 0xff;
  0xff; 0xff; 0xff; 0xff; 0xfc; 0xbf; 0xff; 0xff;
  0xff; 0xff; 0xff; 0x2f; 0xff; 0xff; 0xff; 0xff;
  0xff; 0xc1; 0x55; 0xfd; 0x55; 0xbf; 0x55; 0x40;
  0x0; 0x7f; 0x0; 0x1f; 0xc0; 0x0; 0x0; 0x2f;
  0xc0; 0xb; 0xf0; 0x0; 0x0; 0xb; 0xe0; 0x2;
  0xf8; 0x0; 0x0; 0x3; 0xf8; 0x0; 0xfe; 0x0;
  0x0; 0x0; 0xfd; 0x0; 0x3f; 0x40; 0x0; 0x0;
  0x3f; 0x0; 0xf; 0xc0; 0x0; 0x55; 0x6f; 0xd5;
  0x5b; 0xf5; 0x54; 0x3f; 0xff; 0xff; 0xff; 0xff;
  0xff; 0x4f; 0xff; 0xff; 0xff; 0xff; 0xff; 0xd3;
  0xff; 0xff; 0xff; 0xff; 0xff; 0xf4; 0x0; 0x3f;
  0x40; 0xf; 0xd0; 0x0; 0x0; 0xf; 0xd0; 0x3;
  0xf4; 0x0; 0x0; 0x7; 0xf0; 0x1; 0xfc; 0x0;
  0x0; 0x1; 0xfc; 0x0; 0xbf; 0x0; 0x0; 0x0;
  0xbf; 0x0; 0x2f; 0xc0; 0x0; 0x0; 0x3f; 0x80;
  0xf; 0xe0; 0x0; 0x0; 0xf; 0xd0; 0x3; 0xf4;
  0x0; 0x0; 0x3; 0xf4; 0x0; 0xfd; 0x0; 0x0;
  0x0; 0xfc; 0x0; 0x7f; 0x0; 0x0; 0x0; 0x7f;
  0x0; 0x2f; 0xc0; 0x0; 0x0;
  0x0; 0x0; 0x7d; 0x0; 0x0; 0x0; 0x0; 0x7d;
  0x0; 0x0; 0x0; 0x0; 0x7d; 0x0; 0x0; 0x0;
  0x0; 0x7e; 0x0; 0x0; 0x0; 0x2f; 0xff; 0xfe;
  0x40; 0x1; 0xff; 0xff; 0xff; 0xf8; 0xb; 0xff;
  0xff; 0xff; 0xf8; 0x1f; 0xff; 0xbe; 0xaf; 0xf4;
  0x3f; 0xf0; 0x7d; 0x0; 0xb0; 0x7f; 0xc0; 0x7d;
  0x0; 0x0; 0xbf; 0x80; 0x7d; 0x0; 0x0; 0xbf;
  0x80; 0x7d; 0x0; 0x0; 0xbf; 0x80; 0x7d; 0x0;
  0x0; 0x7f; 0xc0; 0x7d; 0x0; 0x0; 0x3f; 0xe0;
  0x7d; 0x0; 0x0; 0x2f; 0xfd; 0x7d; 0x0; 0x0;
  0xf; 0xff; 0xfd; 0x0; 0x0; 0x3; 0xff; 0xff;
  0x80; 0x0; 0x0; 0x7f; 0xff; 0xf8; 0x0; 0x0;
  0x7; 0xff; 0xff; 0x80; 0x0; 0x0; 0x7f; 0xff;
  0xf0; 0x0; 0x0; 0x7e; 0xbf; 0xfc; 0x0; 0x0;
  0x7d; 0xf; 0xfd; 0x0; 0x0; 0x7d; 0x3; 0xfe;
  0x0; 0x0; 0x7d; 0x1; 0xff; 0x0; 0x0; 0x7d;
  0x0; 0xff; 0x0; 0x0; 0x7d; 0x1; 0xff; 0x0;
  0x0; 0x7d; 0x2; 0xfe; 0xa0; 0x0; 0x7d; 0x7;
  0xfd; 0xbf; 0x90; 0x7e; 0x7f; 0xfc; 0xbf; 0xff;
  0xff; 0xff; 0xf0; 0xbf; 0xff; 0xff; 0xff; 0xc0;
  0x1f; 0xff; 0xff; 0xfd; 0x0; 0x0; 0x5a; 0xfe;
  0x40; 0x0; 0x0; 0x0; 0x7d; 0x0; 0x0; 0x0;
  0x0; 0x7d; 0x0; 0x0; 0x0; 0x0; 0x7d; 0x0;
  0x0; 0x0; 0x0; 0x7d; 0x0; 0x0; 0x0; 0x0;
  0x29; 0x0; 0x0;
  0x0; 0x15; 0x0; 0x0; 0x0; 0x0; 0x0; 0x0;
  0x0; 0xbf; 0xf8; 0x0; 0x0; 0x3; 0xf8; 0x0;
  0x0; 0xff; 0xff; 0xc0; 0x0; 0x1; 0xfd; 0x0;
  0x0; 0xbf; 0xef; 0xf8; 0x0; 0x0; 0xff; 0x0;
  0x0; 0x3f; 0xc0; 0xff; 0x0; 0x0; 0x7f; 0x40;
  0x0; 0x1f; 0xd0; 0x1f; 0xd0; 0x0; 0x3f; 0xc0;
  0x0; 0xb; 0xf0; 0x3; 0xf8; 0x0; 0xf; 0xd0;
  0x0; 0x3; 0xfc; 0x0; 0xff; 0x0; 0xb; 0xf0;
  0x0; 0x0; 0xff; 0x0; 0x2f; 0xc0; 0x3; 0xf8;
  0x0; 0x0; 0x3f; 0x80; 0xb; 0xf0; 0x2; 0xfc;
  0x0; 0x0; 0xf; 0xe0; 0x2; 0xfc; 0x0; 0xfe;
  0x0; 0x0; 0x3; 0xf8; 0x0; 0xbf; 0x0; 0xbf;
  0x0; 0x0; 0x0; 0xfe; 0x0; 0x2f; 0xc0; 0x3f;
  0x80; 0x0; 0x0; 0x3f; 0xc0; 0xb; 0xf0; 0x1f;
  0xc0; 0x0; 0x0; 0xb; 0xf0; 0x3; 0xfc; 0xf;
  0xf0; 0x2f; 0xf8; 0x1; 0xfc; 0x0; 0xfe; 0x7;
  0xf4; 0x3f; 0xff; 0xc0; 0x3f; 0x80; 0x7f; 0x43;
  0xfc; 0x3f; 0xff; 0xfc; 0xf; 0xf4; 0x7f; 0xc1;
  0xfd; 0x1f; 0xe0; 0xbf; 0x41; 0xff; 0xff; 0xd0;
  0xff; 0xb; 0xf0; 0xf; 0xf0; 0x1f; 0xff; 0xe0;
  0x3f; 0x43; 0xf8; 0x2; 0xfc; 0x1; 0xff; 0xd0;
  0x2f; 0xc0; 0xfe; 0x0; 0x7f; 0x40; 0x0; 0x0;
  0xf; 0xe0; 0x7f; 0x40; 0xf; 0xe0; 0x0; 0x0;
  0xb; 0xf0; 0x1f; 0xd0; 0x3; 0xf8; 0x0; 0x0;
  0x3; 0xf8; 0x7; 0xf4; 0x0; 0xfe; 0x0; 0x0;
  0x2; 0xfc; 0x1; 0xfd; 0x0; 0x3f; 0x80; 0x0;
  0x0; 0xfe; 0x0; 0x7f; 0x40; 0xf; 0xe0; 0x0;
  0x0; 0x7f; 0x0; 0x1f; 0xd0; 0x3; 0xf8; 0x0;
  0x0; 0x3f; 0xc0; 0x3; 0xf4; 0x0; 0xfe; 0x0;
  0x0; 0x1f; 0xd0; 0x0; 0xfe; 0x0; 0x7f; 0x40;
  0x0; 0xf; 0xf0; 0x0; 0x3f; 0xc0; 0x2f; 0xc0;
  0x0; 0x7; 0xf4; 0x0; 0xb; 0xf0; 0xf; 0xf0;
  0x0; 0x2; 0xfc; 0x0; 0x0; 0xff; 0x5b; 0xf4;
  0x0; 0x0; 0xfd; 0x0; 0x0; 0x2f; 0xff; 0xfc;
  0x0; 0x0; 0xbf; 0x0; 0x0; 0x2; 0xff; 0xfc;
  0x0; 0x0; 0x3f; 0x80; 0x0; 0x0; 0x1f; 0xf8;
  0x0;
  0x0; 0x0; 0x15; 0x50; 0x0; 0x0; 0x0; 0x0;
  0x0; 0xbf; 0xff; 0x80; 0x0; 0x0; 0x0; 0x0;
  0xff; 0xff; 0xfc; 0x0; 0x0; 0x0; 0x0; 0xff;
  0xff; 0xff; 0x80; 0x0; 0x0; 0x0; 0xbf; 0xe0;
  0x3f; 0xf0; 0x0; 0x0; 0x0; 0x3f; 0xe0; 0x3;
  0xfe; 0x0; 0x0; 0x0; 0xf; 0xf4; 0x0; 0xbf;
  0x80; 0x0; 0x0; 0x3; 0xfc; 0x0; 0x1f; 0xf0;
  0x0; 0x0; 0x0; 0xff; 0x0; 0x7; 0xfc; 0x0;
  0x0; 0x0; 0x3f; 0xd0; 0x2; 0xfe; 0x0; 0x0;
  0x0; 0xf; 0xf8; 0x0; 0xff; 0x40; 0x0; 0x0;
  0x2; 0xff; 0x0; 0x7f; 0xc0; 0x0; 0x0; 0x0;
  0x3f; 0xe0; 0x7f; 0xe0; 0x0; 0x0; 0x0; 0xb;
  0xfc; 0x7f; 0xf0; 0x0; 0x0; 0x0; 0x0; 0xff;
  0xff; 0xf0; 0x0; 0x0; 0x0; 0x0; 0x1f; 0xff;
  0xf0; 0x0; 0x0; 0x0; 0x0; 0x3; 0xff; 0xf0;
  0x0; 0x0; 0x0; 0x0; 0x7; 0xff; 0xf8; 0x0;
  0x0; 0x0; 0x0; 0xb; 0xff; 0xff; 0x40; 0x0;
  0xbf; 0x80; 0xb; 0xfe; 0x3f; 0xf4; 0x0; 0x3f;
  0xe0; 0x7; 0xfe; 0x3; 0xff; 0x0; 0xf; 0xf4;
  0x3; 0xff; 0x0; 0x3f; 0xf0; 0xb; 0xfc; 0x2;
  0xff; 0x0; 0x7; 0xff; 0x3; 0xfe; 0x0; 0xff;
  0xc0; 0x0; 0xbf; 0xe1; 0xff; 0x40; 0x3f; 0xe0;
  0x0; 0xb; 0xfe; 0xff; 0xc0; 0xf; 0xf8; 0x0;
  0x0; 0xff; 0xff; 0xd0; 0x3; 0xfe; 0x0; 0x0;
  0xf; 0xff; 0xf0; 0x0; 0xff; 0xc0; 0x0; 0x0;
  0xff; 0xf4; 0x0; 0x3f; 0xf0; 0x0; 0x0; 0x7f;
  0xfc; 0x0; 0xb; 0xff; 0x0; 0x0; 0x7f; 0xff;
  0xc0; 0x0; 0xff; 0xf4; 0x1; 0xff; 0xff; 0xf8;
  0x0; 0x2f; 0xff; 0xff; 0xff; 0xf7; 0xff; 0x80;
  0x2; 0xff; 0xff; 0xff; 0xf0; 0x3f; 0xf4; 0x0;
  0x1f; 0xff; 0xff; 0xe0; 0x7; 0xff; 0x0; 0x0;
  0x6f; 0xfe; 0x40; 0x0; 0xbf; 0xf0 ].

Definition open_sans_bitmap_1 : list Z :=
  [ 0x3f; 0xe3; 0xfe; 0x3f; 0xe3; 0xfe; 0x3f; 0xd2;
  0xfd; 0x2f; 0xd2; 0xfc; 0x2f; 0xc1; 0xfc; 0x1f;
  0xc1; 0xfc; 0x0; 0x0;
  0x0; 0x7; 0xf8; 0x0; 0xf; 0xf0; 0x0; 0x3f;
  0xd0; 0x0; 0x7f; 0xc0; 0x0; 0xff; 0x40; 0x1;
  0xff; 0x0; 0x3; 0xfd; 0x0; 0x7; 0xfc; 0x0;
  0xb; 0xf8; 0x0; 0xf; 0xf4; 0x0; 0x1f; 0xf0;
  0x0; 0x2f; 0xe0; 0x0; 0x3f; 0xd0; 0x0; 0x3f;
  0xc0; 0x0; 0x7f; 0xc0; 0x0; 0xbf; 0xc0; 0x0;
  0xbf; 0xc0; 0x0; 0xbf; 0x80; 0x0; 0xff; 0x80;
  0x0; 0xff; 0x80; 0x0; 0xff; 0x80; 0x0; 0xff;
  0x80; 0x0; 0xff; 0x80; 0x0; 0xff; 0x80; 0x0;
  0xbf; 0x80; 0x0; 0xbf; 0xc0; 0x0; 0x7f; 0xc0;
  0x0; 0x7f; 0xc0; 0x0; 0x3f; 0xd0; 0x0; 0x3f;
  0xe0; 0x0; 0x2f; 0xf0; 0x0; 0x1f; 0xf0; 0x0;
  0xf; 0xf4; 0x0; 0xb; 0xfc; 0x0; 0x3; 0xfc;
  0x0; 0x3; 0xfe; 0x0; 0x1; 0xff; 0x0; 0x0;
  0xff; 0x80; 0x0; 0x3f; 0xc0; 0x0; 0x1f; 0xe0;
  0x0; 0xb; 0xf4; 0x0; 0x2; 0xa4;
  0x7f; 0x80; 0x0; 0x2f; 0xe0; 0x0; 0xf; 0xf0;
  0x0; 0x7; 0xfc; 0x0; 0x3; 0xfd; 0x0; 0x1;
  0xff; 0x0; 0x0; 0xff; 0x40; 0x0; 0xbf; 0xc0;
  0x0; 0x3f; 0xc0; 0x0; 0x3f; 0xe0; 0x0; 0x2f;
  0xf0; 0x0; 0x1f; 0xf0; 0x0; 0xf; 0xf4; 0x0;
  0xf; 0xf8; 0x0; 0xb; 0xf8; 0x0; 0x7; 0xfc;
  0x0; 0x7; 0xfc; 0x0; 0x7; 0xfc; 0x0; 0x3;
  0xfc; 0x0; 0x3; 0xfc; 0x0; 0x3; 0xfd; 0x0;
  0x3; 0xfd; 0x0; 0x3; 0xfc; 0x0; 0x3; 0xfc;
  0x0; 0x7; 0xfc; 0x0; 0x7; 0xfc; 0x0; 0xb;
  0xfc; 0x0; 0xb; 0xf8; 0x0; 0xf; 0xf8; 0x0;
  0xf; 0xf4; 0x0; 0x1f; 0xf0; 0x0; 0x2f; 0xe0;
  0x0; 0x3f; 0xd0; 0x0; 0x7f; 0xc0; 0x0; 0xff;
  0x80; 0x0; 0xff; 0x0; 0x2; 0xfe; 0x0; 0x3;
  0xfc; 0x0; 0xb; 0xf8; 0x0; 0x1f; 0xf0; 0x0;
  0x3f; 0xc0; 0x0; 0x2a; 0x40; 0x0;
  0x0; 0x0; 0xff; 0x80; 0x0; 0x0; 0x0; 0x2f;
  0xe0; 0x0; 0x0; 0x0; 0xb; 0xf4; 0x0; 0x0;
  0x0; 0x1; 0xfd; 0x0; 0x0; 0x0; 0x0; 0x7f;
  0x0; 0x0; 0x1; 0x0; 0x1f; 0xc0; 0x1; 0x2;
  0xf9; 0x3; 0xf0; 0x1b; 0xe0; 0xff; 0xfe; 0xfe;
  0xff; 0xf8; 0x3f; 0xff; 0xff; 0xff; 0xff; 0xb;
  0xff; 0xff; 0xff; 0xff; 0x80; 0x0; 0x2f; 0xfd;
  0x0; 0x0; 0x0; 0xf; 0xff; 0x80; 0x0; 0x0;
  0xb; 0xf7; 0xf8; 0x0; 0x0; 0x7; 0xf8; 0xff;
  0x40; 0x0; 0x7; 0xfc; 0x1f; 0xf0; 0x0; 0x3;
  0xfe; 0x3; 0xff; 0x0; 0x2; 0xff; 0x0; 0x7f;
  0xd0; 0x0; 0x1f; 0x80; 0xf; 0xd0; 0x0; 0x0;
  0x80; 0x0; 0x80; 0x0;
  0x0; 0x0; 0x1a; 0x80; 0x0; 0x0; 0x0; 0x2;
  0xfc; 0x0; 0x0; 0x0; 0x0; 0x2f; 0xc0; 0x0;
  0x0; 0x0; 0x2; 0xfc; 0x0; 0x0; 0x0; 0x0;
  0x2f; 0xc0; 0x0; 0x0; 0x0; 0x2; 0xfc; 0x0;
  0x0; 0x0; 0x0; 0x2f; 0xc0; 0x0; 0x0; 0x0;
  0x2; 0xfc; 0x0; 0x0; 0x0; 0x0; 0x2f; 0xc0;
  0x0; 0x0; 0x0; 0x2; 0xfc; 0x0; 0x0; 0x3f;
  0xff; 0xff; 0xff; 0xff; 0xd3; 0xff; 0xff; 0xff;
  0xff; 0xfd; 0x3f; 0xff; 0xff; 0xff; 0xff; 0xd2;
  0xaa; 0xab; 0xfe; 0xaa; 0xa8; 0x0; 0x0; 0x2f;
  0xc0; 0x0; 0x0; 0x0; 0x2; 0xfc; 0x0; 0x0;
  0x0; 0x0; 0x2f; 0xc0; 0x0; 0x0; 0x0; 0x2;
  0xfc; 0x0; 0x0; 0x0; 0x0; 0x2f; 0xc0; 0x0;
  0x0; 0x0; 0x2; 0xfc; 0x0; 0x0; 0x0; 0x0;
  0x2f; 0xc0; 0x0; 0x0; 0x0; 0x2; 0xfc; 0x0;
  0x0; 0x0; 0x0; 0x2f; 0xc0; 0x0; 0x0;
  0x2; 0xaa; 0x3; 0xff; 0x7; 0xfe; 0x7; 0xfc;
  0xb; 0xfc; 0xf; 0xf8; 0xf; 0xf4; 0xf; 0xf0;
  0x1f; 0xe0; 0x2f; 0xc0; 0x3f; 0xc0; 0x3f; 0x40;
  0x0; 0x0; 0x0; 0x7f; 0xff; 0xff; 0x7f; 0xff;
  0xff; 0x7f; 0xff; 0xff; 0x7f; 0xff; 0xff;
  0x5; 0x7; 0xfc; 0xff; 0xef; 0xff; 0xff; 0xfb;
  0xfe; 0x2f; 0x80;
  0x0; 0x0; 0x0; 0x3f; 0xd0; 0x0; 0x0; 0x3;
  0xfc; 0x0; 0x0; 0x0; 0xbf; 0x80; 0x0; 0x0;
  0xf; 0xf4; 0x0; 0x0; 0x1; 0xff; 0x0; 0x0;
  0x0; 0x2f; 0xe0; 0x0; 0x0; 0x3; 0xfc; 0x0;
  0x0; 0x0; 0x7f; 0xc0; 0x0; 0x0; 0xf; 0xf4;
  0x0; 0x0; 0x0; 0xff; 0x0; 0x0; 0x0; 0x2f;
  0xe0; 0x0; 0x0; 0x3; 0xfd; 0x0; 0x0; 0x0;
  0x7f; 0xc0; 0x0; 0x0; 0xb; 0xf8; 0x0; 0x0;
  0x0; 0xff; 0x0; 0x0; 0x0; 0x1f; 0xf0; 0x0;
  0x0; 0x3; 0xfd; 0x0; 0x0; 0x0; 0x3f; 0xc0;
  0x0; 0x0; 0xb; 0xf8; 0x0; 0x0; 0x0; 0xff;
  0x40; 0x0; 0x0; 0x1f; 0xf0; 0x0; 0x0; 0x2;
  0xfe; 0x0; 0x0; 0x0; 0x3f; 0xc0; 0x0; 0x0;
  0x7; 0xfc; 0x0; 0x0; 0x0; 0xff; 0x40; 0x0;
  0x0; 0xf; 0xf0; 0x0; 0x0; 0x2; 0xfe; 0x0;
  0x0; 0x0; 0x3f; 0xd0; 0x0; 0x0; 0x7; 0xfc;
  0x0; 0x0; 0x0; 0xbf; 0x80; 0x0; 0x0; 0xf;
  0xf0; 0x0; 0x0; 0x1; 0xff; 0x0; 0x0; 0x0;
  0x3f; 0xd0; 0x0; 0x0; 0x3; 0xfc; 0x0; 0x0;
  0x0;
  0x0; 0x0; 0x55; 0x0; 0x0; 0x0; 0x7; 0xff;
  0xfd; 0x0; 0x0; 0xb; 0xff; 0xff; 0xe0; 0x0;
  0xb; 0xff; 0xff; 0xfe; 0x0; 0x7; 0xff; 0x96;
  0xff; 0xd0; 0x3; 0xff; 0x40; 0x1f; 0xfc; 0x1;
  0xff; 0x80; 0x1; 0xff; 0x40; 0xbf; 0xc0; 0x0;
  0x3f; 0xe0; 0x3f; 0xe0; 0x0; 0xb; 0xfc; 0xf;
  0xf4; 0x0; 0x0; 0xff; 0x47; 0xfc; 0x0; 0x0;
  0x3f; 0xd2; 0xff; 0x0; 0x0; 0xf; 0xf8; 0xbf;
  0xc0; 0x0; 0x3; 0xff; 0x2f; 0xf0; 0x0; 0x0;
  0xbf; 0xcf; 0xfc; 0x0; 0x0; 0x2f; 0xf3; 0xfe;
  0x0; 0x0; 0xb; 0xfc; 0xff; 0x80; 0x0; 0x2;
  0xff; 0x3f; 0xe0; 0x0; 0x0; 0xbf; 0xcf; 0xf8;
  0x0; 0x0; 0x2f; 0xf3; 0xfe; 0x0; 0x0; 0xb;
  0xfc; 0xff; 0x80; 0x0; 0x2; 0xff; 0x3f; 0xf0;
  0x0; 0x0; 0xbf; 0xcb; 0xfc; 0x0; 0x0; 0x2f;
  0xf2; 0xff; 0x0; 0x0; 0xf; 0xf8; 0x7f; 0xc0;
  0x0; 0x3; 0xfe; 0x1f; 0xf4; 0x0; 0x0; 0xff;
  0x43; 0xfe; 0x0; 0x0; 0x7f; 0xc0; 0xff; 0xc0;
  0x0; 0x2f; 0xf0; 0x1f; 0xf0; 0x0; 0xf; 0xf8;
  0x3; 0xff; 0x0; 0xb; 0xfc; 0x0; 0xbf; 0xf0;
  0xb; 0xfe; 0x0; 0xf; 0xff; 0xff; 0xff; 0x0;
  0x0; 0xff; 0xff; 0xff; 0x40; 0x0; 0xf; 0xff;
  0xff; 0x0; 0x0; 0x0; 0x6f; 0xf9; 0x0; 0x0;
  0x0; 0x0; 0x7f; 0xc0; 0x0; 0x1f; 0xfc; 0x0;
  0xb; 0xff; 0xc0; 0x2; 0xff; 0xfc; 0x0; 0xff;
  0xff; 0xc0; 0x3f; 0xfb; 0xfc; 0x1f; 0xfd; 0x7f;
  0xc7; 0xff; 0x47; 0xfc; 0x3f; 0xd0; 0x7f; 0xc0;
  0xf0; 0x7; 0xfc; 0x0; 0x0; 0x7f; 0xc0; 0x0;
  0x7; 0xfc; 0x0; 0x0; 0x7f; 0xc0; 0x0; 0x7;
  0xfc; 0x0; 0x0; 0x7f; 0xc0; 0x0; 0x7; 0xfc;
  0x0; 0x0; 0x7f; 0xc0; 0x0; 0x7; 0xfc; 0x0;
  0x0; 0x7f; 0xc0; 0x0; 0x7; 0xfc; 0x0; 0x0;
  0x7f; 0xc0; 0x0; 0x7; 0xfc; 0x0; 0x0; 0x7f;
  0xc0; 0x0; 0x7; 0xfc; 0x0; 0x0; 0x7f; 0xc0;
  0x0; 0x7; 0xfc; 0x0; 0x0; 0x7f; 0xc0; 0x0;
  0x7; 0xfc; 0x0; 0x0; 0x7f; 0xc0; 0x0; 0x7;
  0xfc; 0x0; 0x0; 0x7f; 0xc0; 0x0; 0x7; 0xfc;
  0x0; 0x0; 0x7f; 0xc0; 0x0; 0x7; 0xfc ].

Definition open_sans_bitmap_2 : list Z :=
  [ 0x0; 0x0; 0x55; 0x40; 0x0; 0x0; 0xb; 0xff;
  0xff; 0x40; 0x0; 0x2f; 0xff; 0xff; 0xf8; 0x0;
  0x3f; 0xff; 0xff; 0xff; 0xc0; 0x2f; 0xff; 0x96;
  0xff; 0xf8; 0x3; 0xfd; 0x0; 0x7; 0xff; 0x0;
  0x38; 0x0; 0x0; 0xbf; 0xd0; 0x0; 0x0; 0x0;
  0xf; 0xf8; 0x0; 0x0; 0x0; 0x3; 0xff; 0x0;
  0x0; 0x0; 0x0; 0xbf; 0xc0; 0x0; 0x0; 0x0;
  0x3f; 0xf0; 0x0; 0x0; 0x0; 0xf; 0xfc; 0x0;
  0x0; 0x0; 0x3; 0xfe; 0x0; 0x0; 0x0; 0x1;
  0xff; 0x40; 0x0; 0x0; 0x0; 0xff; 0xc0; 0x0;
  0x0; 0x0; 0x7f; 0xe0; 0x0; 0x0; 0x0; 0x3f;
  0xf0; 0x0; 0x0; 0x0; 0x2f; 0xf8; 0x0; 0x0;
  0x0; 0x1f; 0xfc; 0x0; 0x0; 0x0; 0xf; 0xfc;
  0x0; 0x0; 0x0; 0xf; 0xfd; 0x0; 0x0; 0x0;
  0xb; 0xfe; 0x0; 0x0; 0x0; 0x7; 0xfe; 0x0;
  0x0; 0x0; 0x7; 0xff; 0x0; 0x0; 0x0; 0x3;
  0xff; 0x0; 0x0; 0x0; 0x3; 0xff; 0x0; 0x0;
  0x0; 0x3; 0xff; 0x40; 0x0; 0x0; 0x2; 0xff;
  0x40; 0x0; 0x0; 0x2; 0xff; 0x80; 0x0; 0x0;
  0x1; 0xff; 0x80; 0x0; 0x0; 0x0; 0xff; 0xc0;
  0x0; 0x0; 0x0; 0xff; 0xff; 0xff; 0xff; 0xff;
  0x3f; 0xff; 0xff; 0xff; 0xff; 0xcf; 0xff; 0xff;
  0xff; 0xff; 0xf3; 0xff; 0xff; 0xff; 0xff; 0xfc;
  0x0; 0x0; 0x55; 0x40; 0x0; 0x0; 0x1b; 0xff;
  0xff; 0x80; 0x0; 0x7f; 0xff; 0xff; 0xfd; 0x0;
  0xbf; 0xff; 0xff; 0xff; 0xc0; 0x2f; 0xfe; 0x55;
  0xbf; 0xfc; 0x3; 0xf4; 0x0; 0x7; 0xff; 0x40;
  0x20; 0x0; 0x0; 0x7f; 0xe0; 0x0; 0x0; 0x0;
  0xf; 0xfc; 0x0; 0x0; 0x0; 0x2; 0xff; 0x0;
  0x0; 0x0; 0x0; 0xbf; 0xc0; 0x0; 0x0; 0x0;
  0x2f; 0xf0; 0x0; 0x0; 0x0; 0xf; 0xf8; 0x0;
  0x0; 0x0; 0xb; 0xfc; 0x0; 0x0; 0x0; 0x7;
  0xfd; 0x0; 0x0; 0x0; 0x1f; 0xfe; 0x0; 0x0;
  0xbf; 0xff; 0xfd; 0x0; 0x0; 0x2f; 0xff; 0xf4;
  0x0; 0x0; 0xb; 0xff; 0xff; 0x80; 0x0; 0x2;
  0xff; 0xff; 0xfe; 0x0; 0x0; 0x0; 0x6; 0xff;
  0xf0; 0x0; 0x0; 0x0; 0xf; 0xfe; 0x0; 0x0;
  0x0; 0x0; 0xff; 0xc0; 0x0; 0x0; 0x0; 0x1f;
  0xf4; 0x0; 0x0; 0x0; 0x3; 0xfe; 0x0; 0x0;
  0x0; 0x0; 0xff; 0x80; 0x0; 0x0; 0x0; 0x3f;
  0xe0; 0x0; 0x0; 0x0; 0xf; 0xf8; 0x0; 0x0;
  0x0; 0x7; 0xfe; 0x0; 0x0; 0x0; 0x3; 0xff;
  0x8; 0x0; 0x0; 0x2; 0xff; 0xc3; 0xf4; 0x0;
  0x7; 0xff; 0xd0; 0xff; 0xff; 0xff; 0xff; 0xe0;
  0x3f; 0xff; 0xff; 0xff; 0xe0; 0xb; 0xff; 0xff;
  0xff; 0xd0; 0x0; 0x1a; 0xff; 0xfa; 0x0; 0x0;
  0x0; 0x0; 0x0; 0xb; 0xfc; 0x0; 0x0; 0x0;
  0x0; 0x1f; 0xfc; 0x0; 0x0; 0x0; 0x0; 0x3f;
  0xfc; 0x0; 0x0; 0x0; 0x0; 0xbf; 0xfc; 0x0;
  0x0; 0x0; 0x0; 0xff; 0xfc; 0x0; 0x0; 0x0;
  0x2; 0xff; 0xfc; 0x0; 0x0; 0x0; 0x7; 0xf7;
  0xfc; 0x0; 0x0; 0x0; 0xf; 0xf3; 0xfc; 0x0;
  0x0; 0x0; 0x1f; 0xd3; 0xfc; 0x0; 0x0; 0x0;
  0x3f; 0xc3; 0xfc; 0x0; 0x0; 0x0; 0xbf; 0x47;
  0xfc; 0x0; 0x0; 0x0; 0xfe; 0x7; 0xfc; 0x0;
  0x0; 0x3; 0xfc; 0x7; 0xfc; 0x0; 0x0; 0x7;
  0xf8; 0x7; 0xfc; 0x0; 0x0; 0xf; 0xf0; 0x7;
  0xfc; 0x0; 0x0; 0x2f; 0xd0; 0x7; 0xfc; 0x0;
  0x0; 0x3f; 0xc0; 0x7; 0xfc; 0x0; 0x0; 0xff;
  0x0; 0x7; 0xfc; 0x0; 0x1; 0xfe; 0x0; 0x7;
  0xfc; 0x0; 0x3; 0xfc; 0x0; 0x7; 0xfc; 0x0;
  0xb; 0xf4; 0x0; 0x7; 0xfc; 0x0; 0xf; 0xf0;
  0x0; 0x7; 0xfc; 0x0; 0x2f; 0xd0; 0x0; 0x7;
  0xfc; 0x0; 0x3f; 0xff; 0xff; 0xff; 0xff; 0xfd;
  0x3f; 0xff; 0xff; 0xff; 0xff; 0xfd; 0x3f; 0xff;
  0xff; 0xff; 0xff; 0xfd; 0x3f; 0xff; 0xff; 0xff;
  0xff; 0xfd; 0x0; 0x0; 0x0; 0x7; 0xfc; 0x0;
  0x0; 0x0; 0x0; 0x7; 0xfc; 0x0; 0x0; 0x0;
  0x0; 0x7; 0xfc; 0x0; 0x0; 0x0; 0x0; 0x7;
  0xfc; 0x0; 0x0; 0x0; 0x0; 0x7; 0xfc; 0x0;
  0x0; 0x0; 0x0; 0x7; 0xfc; 0x0; 0x0; 0x0;
  0x0; 0x7; 0xfc; 0x0;
  0xb; 0xff; 0xff; 0xff; 0xe0; 0xf; 0xff; 0xff;
  0xff; 0xe0; 0xf; 0xff; 0xff; 0xff; 0xe0; 0xf;
  0xff; 0xff; 0xff; 0xe0; 0xf; 0xf0; 0x0; 0x0;
  0x0; 0xf; 0xf0; 0x0; 0x0; 0x0; 0xf; 0xf0;
  0x0; 0x0; 0x0; 0xf; 0xf0; 0x0; 0x0; 0x0;
  0x1f; 0xf0; 0x0; 0x0; 0x0; 0x1f; 0xf0; 0x0;
  0x0; 0x0; 0x1f; 0xe0; 0x0; 0x0; 0x0; 0x2f;
  0xe0; 0x0; 0x0; 0x0; 0x2f; 0xe6; 0xbe; 0x90;
  0x0; 0x2f; 0xff; 0xff; 0xfd; 0x0; 0x2f; 0xff;
  0xff; 0xff; 0x80; 0x2f; 0xff; 0xff; 0xff; 0xe0;
  0x6; 0x40; 0x2; 0xff; 0xf4; 0x0; 0x0; 0x0;
  0x3f; 0xfc; 0x0; 0x0; 0x0; 0xf; 0xfc; 0x0;
  0x0; 0x0; 0x7; 0xfe; 0x0; 0x0; 0x0; 0x3;
  0xfe; 0x0; 0x0; 0x0; 0x3; 0xff; 0x0; 0x0;
  0x0; 0x3; 0xff; 0x0; 0x0; 0x0; 0x3; 0xff;
  0x0; 0x0; 0x0; 0x3; 0xfe; 0x0; 0x0; 0x0;
  0x3; 0xfe; 0x0; 0x0; 0x0; 0xb; 0xfd; 0x0;
  0x0; 0x0; 0xf; 0xfc; 0x50; 0x0; 0x0; 0x3f;
  0xf8; 0x7e; 0x40; 0x2; 0xff; 0xf0; 0x7f; 0xff;
  0xff; 0xff; 0xc0; 0x7f; 0xff; 0xff; 0xff; 0x0;
  0x3f; 0xff; 0xff; 0xf8; 0x0; 0x1; 0xbf; 0xfe;
  0x40; 0x0;
  0x0; 0x0; 0x1; 0x55; 0x40; 0x0; 0x0; 0x2f;
  0xff; 0xfc; 0x0; 0x0; 0x7f; 0xff; 0xff; 0x0;
  0x0; 0xbf; 0xff; 0xff; 0xc0; 0x0; 0xbf; 0xfe;
  0x55; 0x60; 0x0; 0x7f; 0xf4; 0x0; 0x0; 0x0;
  0x3f; 0xf0; 0x0; 0x0; 0x0; 0x2f; 0xf0; 0x0;
  0x0; 0x0; 0xf; 0xf8; 0x0; 0x0; 0x0; 0x7;
  0xfc; 0x0; 0x0; 0x0; 0x2; 0xfe; 0x0; 0x0;
  0x0; 0x0; 0xff; 0x40; 0x0; 0x0; 0x0; 0x3f;
  0xc0; 0x0; 0x0; 0x0; 0x1f; 0xf0; 0x1b; 0xfe;
  0x0; 0x7; 0xfc; 0x3f; 0xff; 0xf4; 0x2; 0xfe;
  0x3f; 0xff; 0xff; 0x80; 0xbf; 0xbf; 0xff; 0xff;
  0xf4; 0x2f; 0xff; 0x80; 0xb; 0xff; 0xb; 0xff;
  0x40; 0x0; 0xbf; 0xd2; 0xff; 0x80; 0x0; 0xf;
  0xf8; 0xbf; 0xd0; 0x0; 0x2; 0xff; 0x2f; 0xf0;
  0x0; 0x0; 0x7f; 0xcb; 0xfc; 0x0; 0x0; 0x1f;
  0xf2; 0xff; 0x0; 0x0; 0x7; 0xfc; 0x7f; 0xc0;
  0x0; 0x1; 0xff; 0x1f; 0xf0; 0x0; 0x0; 0x7f;
  0xc3; 0xfd; 0x0; 0x0; 0x2f; 0xf0; 0xff; 0xc0;
  0x0; 0xf; 0xf8; 0x1f; 0xf4; 0x0; 0x7; 0xfd;
  0x3; 0xff; 0x0; 0x3; 0xff; 0x0; 0x7f; 0xf4;
  0x7; 0xff; 0x80; 0xb; 0xff; 0xff; 0xff; 0xc0;
  0x0; 0xff; 0xff; 0xff; 0xc0; 0x0; 0xb; 0xff;
  0xff; 0x80; 0x0; 0x0; 0x2f; 0xfe; 0x0; 0x0;
  0x3f; 0xff; 0xff; 0xff; 0xff; 0xc3; 0xff; 0xff;
  0xff; 0xff; 0xfc; 0x3f; 0xff; 0xff; 0xff; 0xff;
  0xc3; 0xff; 0xff; 0xff; 0xff; 0xfc; 0x0; 0x0;
  0x0; 0x0; 0xff; 0x80; 0x0; 0x0; 0x0; 0xf;
  0xf4; 0x0; 0x0; 0x0; 0x2; 0xff; 0x0; 0x0;
  0x0; 0x0; 0x3f; 0xe0; 0x0; 0x0; 0x0; 0x7;
  0xfc; 0x0; 0x0; 0x0; 0x0; 0xff; 0xc0; 0x0;
  0x0; 0x0; 0xf; 0xf4; 0x0; 0x0; 0x0; 0x2;
  0xff; 0x0; 0x0; 0x0; 0x0; 0x3f; 0xe0; 0x0;
  0x0; 0x0; 0x7; 0xfc; 0x0; 0x0; 0x0; 0x0;
  0xff; 0xc0; 0x0; 0x0; 0x0; 0xf; 0xf4; 0x0;
  0x0; 0x0; 0x2; 0xff; 0x0; 0x0; 0x0; 0x0;
  0x3f; 0xe0; 0x0; 0x0; 0x0; 0x7; 0xfd; 0x0;
  0x0; 0x0; 0x0; 0xff; 0xc0; 0x0; 0x0; 0x0;
  0xf; 0xf8; 0x0; 0x0; 0x0; 0x2; 0xff; 0x0;
  0x0; 0x0; 0x0; 0x3f; 0xf0; 0x0; 0x0; 0x0;
  0x7; 0xfd; 0x0; 0x0; 0x0; 0x0; 0xff; 0xc0;
  0x0; 0x0; 0x0; 0xf; 0xf8; 0x0; 0x0; 0x0;
  0x2; 0xff; 0x0; 0x0; 0x0; 0x0; 0x3f; 0xf0;
  0x0; 0x0; 0x0; 0x7; 0xfd; 0x0; 0x0; 0x0;
  0x0; 0xff; 0xc0; 0x0; 0x0; 0x0; 0xf; 0xf8;
  0x0; 0x0; 0x0; 0x2; 0xff; 0x40; 0x0; 0x0 ].

Definition open_sans_bitmap_3 : list Z :=
  [ 0x0; 0x3f; 0xf0; 0x0; 0x0; 0x0; 0x7; 0xfd;
  0x0; 0x0; 0x0;
  0x0; 0x0; 0x15; 0x50; 0x0; 0x0; 0x0; 0xbf;
  0xff; 0xe4; 0x0; 0x0; 0x7f; 0xff; 0xff; 0xe0;
  0x0; 0x1f; 0xff; 0xff; 0xff; 0x80; 0x3; 0xff;
  0x90; 0x6f; 0xfd; 0x0; 0xbf; 0xe0; 0x0; 0x7f;
  0xf0; 0xf; 0xfc; 0x0; 0x2; 0xff; 0x0; 0xff;
  0x40; 0x0; 0xf; 0xf4; 0xf; 0xf4; 0x0; 0x0;
  0xff; 0x40; 0xff; 0x40; 0x0; 0xf; 0xf0; 0xf;
  0xf8; 0x0; 0x1; 0xff; 0x0; 0xbf; 0xc0; 0x0;
  0x3f; 0xf0; 0x3; 0xff; 0x0; 0xb; 0xfd; 0x0;
  0x2f; 0xfc; 0x2; 0xff; 0x80; 0x0; 0xbf; 0xf5;
  0xff; 0xe0; 0x0; 0x2; 0xff; 0xff; 0xf8; 0x0;
  0x0; 0x7; 0xff; 0xfc; 0x0; 0x0; 0x0; 0xbf;
  0xff; 0xd0; 0x0; 0x0; 0x3f; 0xff; 0xff; 0xc0;
  0x0; 0x1f; 0xfe; 0x1f; 0xff; 0x0; 0x3; 0xff;
  0x40; 0x2f; 0xfc; 0x0; 0xff; 0xc0; 0x0; 0x7f;
  0xf0; 0x1f; 0xf4; 0x0; 0x1; 0xff; 0x82; 0xff;
  0x0; 0x0; 0xf; 0xfc; 0x3f; 0xd0; 0x0; 0x0;
  0x7f; 0xc3; 0xfd; 0x0; 0x0; 0x3; 0xfc; 0x3f;
  0xd0; 0x0; 0x0; 0x3f; 0xc3; 0xfe; 0x0; 0x0;
  0x7; 0xfc; 0x3f; 0xf0; 0x0; 0x0; 0xbf; 0xc2;
  0xff; 0x40; 0x0; 0x1f; 0xf8; 0xf; 0xfe; 0x0;
  0x7; 0xff; 0x0; 0x7f; 0xff; 0xab; 0xff; 0xd0;
  0x2; 0xff; 0xff; 0xff; 0xf8; 0x0; 0x7; 0xff;
  0xff; 0xfd; 0x0; 0x0; 0x6; 0xff; 0xf9; 0x0;
  0x0;
  0x0; 0x0; 0x55; 0x40; 0x0; 0x0; 0x2; 0xff;
  0xfe; 0x0; 0x0; 0x7; 0xff; 0xff; 0xf4; 0x0;
  0x7; 0xff; 0xff; 0xff; 0x80; 0x3; 0xff; 0xe5;
  0xbf; 0xf4; 0x2; 0xff; 0x80; 0x7; 0xff; 0x0;
  0xff; 0x80; 0x0; 0x7f; 0xd0; 0x7f; 0xc0; 0x0;
  0xf; 0xfc; 0x2f; 0xf0; 0x0; 0x1; 0xff; 0xf;
  0xf8; 0x0; 0x0; 0x3f; 0xd3; 0xfe; 0x0; 0x0;
  0xf; 0xf8; 0xff; 0x80; 0x0; 0x3; 0xfe; 0x3f;
  0xe0; 0x0; 0x0; 0xbf; 0xcf; 0xf8; 0x0; 0x0;
  0x3f; 0xf3; 0xff; 0x0; 0x0; 0xf; 0xfc; 0xbf;
  0xc0; 0x0; 0xb; 0xff; 0xf; 0xfc; 0x0; 0x7;
  0xff; 0xc3; 0xff; 0x80; 0x7; 0xff; 0xf0; 0x7f;
  0xff; 0xbf; 0xfb; 0xfc; 0x7; 0xff; 0xff; 0xf6;
  0xfe; 0x0; 0x7f; 0xff; 0xf4; 0xbf; 0x80; 0x2;
  0xff; 0xd0; 0x3f; 0xd0; 0x0; 0x0; 0x0; 0xf;
  0xf4; 0x0; 0x0; 0x0; 0x3; 0xfc; 0x0; 0x0;
  0x0; 0x1; 0xff; 0x0; 0x0; 0x0; 0x0; 0xff;
  0x80; 0x0; 0x0; 0x0; 0x7f; 0xd0; 0x0; 0x0;
  0x0; 0x3f; 0xf0; 0x0; 0x0; 0x0; 0x2f; 0xf4;
  0x0; 0x0; 0x0; 0x2f; 0xfc; 0x0; 0x0; 0x0;
  0x7f; 0xfc; 0x0; 0xf; 0xff; 0xff; 0xfd; 0x0;
  0x3; 0xff; 0xff; 0xfd; 0x0; 0x0; 0xff; 0xff;
  0xf8; 0x0; 0x0; 0x2f; 0xff; 0x90; 0x0; 0x0;
  0x2f; 0x8b; 0xfe; 0xff; 0xff; 0xff; 0xbf; 0xe3;
  0xfc; 0x5; 0x0; 0x0; 0x0; 0x0; 0x0; 0x0;
  0x0; 0x0; 0x0; 0x0; 0x0; 0x0; 0x0; 0x0;
  0x0; 0x0; 0x0; 0x0; 0x0; 0x50; 0x3f; 0xcb;
  0xff; 0xff; 0xff; 0xff; 0xbf; 0xe2; 0xf8;
  0x2; 0xf8; 0xb; 0xfe; 0xf; 0xff; 0xf; 0xff;
  0xf; 0xfe; 0x3; 0xfc; 0x0; 0x50; 0x0; 0x0;
  0x0; 0x0; 0x0; 0x0; 0x0; 0x0; 0x0; 0x0;
  0x0; 0x0; 0x0; 0x0; 0x0; 0x0; 0x0; 0x0;
  0x0; 0x0; 0x0; 0x0; 0x0; 0x0; 0x0; 0x0;
  0x2; 0xa9; 0x7; 0xfe; 0x7; 0xfd; 0xb; 0xfc;
  0xf; 0xfc; 0xf; 0xf4; 0xf; 0xf0; 0x1f; 0xf0;
  0x2f; 0xd0; 0x3f; 0xc0; 0x3f; 0x80; 0x7f; 0x40;
  0x0; 0x0; 0x0; 0x0; 0x0; 0x0; 0x0; 0x0;
  0x0; 0x0; 0x1d; 0x0; 0x0; 0x0; 0x0; 0x1f;
  0xd0; 0x0; 0x0; 0x0; 0x1f; 0xfd; 0x0; 0x0;
  0x0; 0x1f; 0xff; 0xd0; 0x0; 0x0; 0x1f; 0xff;
  0xe0; 0x0; 0x0; 0x1f; 0xff; 0xe0; 0x0; 0x0;
  0x1f; 0xff; 0xe0; 0x0; 0x0; 0x1f; 0xff; 0xd0;
  0x0; 0x0; 0x1f; 0xff; 0xd0; 0x0; 0x0; 0x1f;
  0xff; 0xd0; 0x0; 0x0; 0x3; 0xff; 0xd0; 0x0;
  0x0; 0x0; 0x3f; 0xf8; 0x0; 0x0; 0x0; 0x3;
  0xff; 0xf8; 0x0; 0x0; 0x0; 0x6; 0xff; 0xf8;
  0x0; 0x0; 0x0; 0x2; 0xff; 0xfd; 0x0; 0x0;
  0x0; 0x2; 0xff; 0xfd; 0x0; 0x0; 0x0; 0x2;
  0xff; 0xfd; 0x0; 0x0; 0x0; 0x2; 0xff; 0xfe;
  0x0; 0x0; 0x0; 0x1; 0xff; 0xfd; 0x0; 0x0;
  0x0; 0x1; 0xff; 0xd0; 0x0; 0x0; 0x0; 0x1;
  0xfd; 0x0; 0x0; 0x0; 0x0; 0x1; 0xd0; 0x0;
  0x0; 0x0; 0x0; 0x0;
  0xaa; 0xaa; 0xaa; 0xaa; 0xaa; 0x3f; 0xff; 0xff;
  0xff; 0xff; 0xcf; 0xff; 0xff; 0xff; 0xff; 0xf3;
  0xff; 0xff; 0xff; 0xff; 0xfc; 0x0; 0x0; 0x0;
  0x0; 0x0; 0x0; 0x0; 0x0; 0x0; 0x0; 0x0;
  0x0; 0x0; 0x0; 0x0; 0x0; 0x0; 0x0; 0x0;
  0x0; 0x0; 0x0; 0x0; 0x0; 0x0; 0x0; 0x0;
  0x0; 0x0; 0x0; 0x0; 0xa; 0xaa; 0xaa; 0xaa;
  0xaa; 0xa3; 0xff; 0xff; 0xff; 0xff; 0xfc; 0xff;
  0xff; 0xff; 0xff; 0xff; 0x3f; 0xff; 0xff; 0xff;
  0xff; 0xc0;
  0x0; 0x0; 0x0; 0x0; 0x0; 0x3; 0x40; 0x0;
  0x0; 0x0; 0x0; 0x3f; 0x40; 0x0; 0x0; 0x0;
  0x3; 0xff; 0x40; 0x0; 0x0; 0x0; 0x3f; 0xff;
  0x40; 0x0; 0x0; 0x0; 0x7f; 0xff; 0x40; 0x0;
  0x0; 0x0; 0x7f; 0xff; 0x40; 0x0; 0x0; 0x0;
  0x7f; 0xff; 0x40; 0x0; 0x0; 0x0; 0x7f; 0xff;
  0x40; 0x0; 0x0; 0x0; 0x7f; 0xff; 0x40; 0x0;
  0x0; 0x0; 0x7f; 0xff; 0x40; 0x0; 0x0; 0x0;
  0x7f; 0xfd; 0x0; 0x0; 0x0; 0x1; 0xff; 0xd0;
  0x0; 0x0; 0x1; 0xff; 0xfc; 0x0; 0x0; 0x2;
  0xff; 0xfd; 0x0; 0x0; 0x2; 0xff; 0xfd; 0x0;
  0x0; 0x6; 0xff; 0xf9; 0x0; 0x0; 0x7; 0xff;
  0xf8; 0x0; 0x0; 0x7; 0xff; 0xf8; 0x0; 0x0;
  0x3; 0xff; 0xf8; 0x0; 0x0; 0x0; 0x3f; 0xf8;
  0x0; 0x0; 0x0; 0x3; 0xf8; 0x0; 0x0; 0x0;
  0x0; 0x34; 0x0; 0x0; 0x0; 0x0; 0x0; 0x0;
  0x0; 0x0; 0x0; 0x0;
  0x0; 0x5; 0x54; 0x0; 0x0; 0x2f; 0xff; 0xfd;
  0x0; 0x2f; 0xff; 0xff; 0xfc; 0x3; 0xff; 0xff;
  0xff; 0xf0; 0x2f; 0xf9; 0x5b; 0xff; 0x40; 0xe0;
  0x0; 0x1f; 0xfc; 0x0; 0x0; 0x0; 0x7f; 0xc0;
  0x0; 0x0; 0x3; 0xfd; 0x0; 0x0; 0x0; 0x3f;
  0xd0; 0x0; 0x0; 0x3; 0xfd; 0x0; 0x0; 0x0;
  0x3f; 0xc0; 0x0; 0x0; 0xb; 0xfc; 0x0; 0x0;
  0x0; 0xff; 0x80; 0x0; 0x0; 0x3f; 0xf0; 0x0;
  0x0; 0xb; 0xfd; 0x0; 0x0; 0x2; 0xff; 0x80;
  0x0; 0x0; 0xbf; 0xe0; 0x0; 0x0; 0x2f; 0xf8;
  0x0; 0x0; 0x3; 0xfe; 0x0; 0x0; 0x0; 0xbf;
  0x80; 0x0; 0x0; 0xf; 0xf0; 0x0; 0x0; 0x0;
  0xfe; 0x0; 0x0; 0x0; 0x1f; 0xd0; 0x0; 0x0;
  0x1; 0xfd; 0x0; 0x0; 0x0; 0xa; 0x90; 0x0;
  0x0; 0x0; 0x0; 0x0; 0x0; 0x0; 0x0; 0x0;
  0x0; 0x0; 0x0; 0x0; 0x0; 0x0; 0x0; 0x1;
  0x40; 0x0; 0x0; 0x2; 0xff; 0x0; 0x0; 0x0;
  0x3f; 0xf4; 0x0; 0x0; 0x3; 0xff; 0x80; 0x0;
  0x0; 0x3f; 0xf8; 0x0; 0x0; 0x3; 0xff; 0x0;
  0x0; 0x0; 0xf; 0xd0; 0x0; 0x0;
  0x0; 0x0; 0x0; 0x1b; 0xff; 0xe4; 0x0; 0x0;
  0x0; 0x0; 0x0; 0x7f; 0xff; 0xff; 0xf8; 0x0;
  0x0; 0x0; 0x0; 0x7f; 0xff; 0xff; 0xff; 0xf4;
  0x0; 0x0; 0x0; 0x2f; 0xfe; 0x50; 0x6; 0xff;
  0xe0; 0x0; 0x0; 0xb; 0xfe; 0x0; 0x0; 0x1 ].

Definition open_sans_bitmap_4 : list Z :=
  [ 0xff; 0x80; 0x0; 0x2; 0xff; 0x40; 0x0; 0x0;
  0x3; 0xfe; 0x0; 0x0; 0x7f; 0xc0; 0x0; 0x0;
  0x0; 0xf; 0xf0; 0x0; 0xf; 0xf0; 0x0; 0x0;
  0x0; 0x0; 0x3f; 0xc0; 0x2; 0xfd; 0x0; 0x0;
  0x0; 0x0; 0x2; 0xfd; 0x0; 0x7f; 0x80; 0x0;
  0x6f; 0xfe; 0x40; 0xf; 0xf0; 0xb; 0xf0; 0x0;
  0x3f; 0xff; 0xff; 0x0; 0xbf; 0x0; 0xfe; 0x0;
  0x1f; 0xff; 0xff; 0xf0; 0x3; 0xf4; 0x1f; 0xc0;
  0x3; 0xfe; 0x0; 0xff; 0x0; 0x3f; 0x82; 0xfc;
  0x0; 0xbf; 0x40; 0xf; 0xf0; 0x2; 0xfc; 0x3f;
  0x80; 0xf; 0xf0; 0x0; 0xff; 0x0; 0x2f; 0xc3;
  0xf4; 0x2; 0xfd; 0x0; 0xf; 0xf0; 0x1; 0xfc;
  0x7f; 0x40; 0x3f; 0xc0; 0x0; 0xfe; 0x0; 0x1f;
  0xc7; 0xf0; 0x3; 0xfc; 0x0; 0xf; 0xe0; 0x1;
  0xfc; 0x7f; 0x0; 0x3f; 0x80; 0x0; 0xfe; 0x0;
  0x1f; 0xcb; 0xf0; 0x3; 0xf8; 0x0; 0xf; 0xe0;
  0x2; 0xfc; 0xbf; 0x0; 0x3f; 0x80; 0x1; 0xfe;
  0x0; 0x2f; 0xcb; 0xf0; 0x3; 0xf8; 0x0; 0x1f;
  0xe0; 0x3; 0xf8; 0x7f; 0x0; 0x3f; 0xc0; 0x2;
  0xfe; 0x0; 0x3f; 0x47; 0xf0; 0x3; 0xfc; 0x0;
  0x3f; 0xe0; 0x7; 0xf0; 0x7f; 0x40; 0x1f; 0xe0;
  0x7; 0xff; 0x0; 0xff; 0x3; 0xf8; 0x0; 0xff;
  0x81; 0xfa; 0xf8; 0x2f; 0xd0; 0x3f; 0xc0; 0x7;
  0xff; 0xff; 0x1f; 0xff; 0xf8; 0x2; 0xfc; 0x0;
  0x2f; 0xff; 0xd0; 0xbf; 0xfe; 0x0; 0x1f; 0xe0;
  0x0; 0x6f; 0xe0; 0x1; 0xff; 0x40; 0x0; 0xff;
  0x0; 0x0; 0x0; 0x0; 0x0; 0x0; 0x0; 0x7;
  0xf8; 0x0; 0x0; 0x0; 0x0; 0x0; 0x0; 0x0;
  0x3f; 0xe0; 0x0; 0x0; 0x0; 0x0; 0x0; 0x0;
  0x0; 0xff; 0x80; 0x0; 0x0; 0x0; 0x0; 0x0;
  0x0; 0x7; 0xff; 0x0; 0x0; 0x0; 0x18; 0x0;
  0x0; 0x0; 0x1f; 0xff; 0x40; 0x1; 0x6f; 0xc0;
  0x0; 0x0; 0x0; 0x3f; 0xff; 0xff; 0xff; 0xfc;
  0x0; 0x0; 0x0; 0x0; 0x7f; 0xff; 0xff; 0xff;
  0x80; 0x0; 0x0; 0x0; 0x0; 0x6f; 0xff; 0xfa;
  0x40; 0x0; 0x0; 0x0; 0x0; 0x0; 0x0; 0x0;
  0x0; 0x0; 0x0; 0x0;
  0x0; 0x0; 0x7; 0xff; 0x0; 0x0; 0x0; 0x0;
  0x0; 0x3f; 0xfd; 0x0; 0x0; 0x0; 0x0; 0x0;
  0xff; 0xf8; 0x0; 0x0; 0x0; 0x0; 0x7; 0xff;
  0xf0; 0x0; 0x0; 0x0; 0x0; 0x2f; 0xff; 0xd0;
  0x0; 0x0; 0x0; 0x0; 0xff; 0x7f; 0x80; 0x0;
  0x0; 0x0; 0x7; 0xfc; 0xff; 0x0; 0x0; 0x0;
  0x0; 0x2f; 0xe3; 0xfd; 0x0; 0x0; 0x0; 0x0;
  0xff; 0x4b; 0xf8; 0x0; 0x0; 0x0; 0x7; 0xfc;
  0x1f; 0xf0; 0x0; 0x0; 0x0; 0x2f; 0xe0; 0x3f;
  0xc0; 0x0; 0x0; 0x0; 0xff; 0x40; 0xff; 0x80;
  0x0; 0x0; 0x3; 0xfc; 0x2; 0xff; 0x0; 0x0;
  0x0; 0x2f; 0xf0; 0x7; 0xfc; 0x0; 0x0; 0x0;
  0xff; 0x80; 0xf; 0xf4; 0x0; 0x0; 0x3; 0xfd;
  0x0; 0x2f; 0xf0; 0x0; 0x0; 0x2f; 0xf0; 0x0;
  0x7f; 0xc0; 0x0; 0x0; 0xff; 0x80; 0x0; 0xff;
  0x40; 0x0; 0x3; 0xfd; 0x0; 0x3; 0xfe; 0x0;
  0x0; 0x1f; 0xf0; 0x0; 0xb; 0xfc; 0x0; 0x0;
  0xff; 0xff; 0xff; 0xff; 0xf4; 0x0; 0x3; 0xff;
  0xff; 0xff; 0xff; 0xe0; 0x0; 0x1f; 0xff; 0xff;
  0xff; 0xff; 0xc0; 0x0; 0xbf; 0xff; 0xff; 0xff;
  0xff; 0x40; 0x3; 0xff; 0x0; 0x0; 0x3; 0xfe;
  0x0; 0x1f; 0xf4; 0x0; 0x0; 0xf; 0xfc; 0x0;
  0xbf; 0xc0; 0x0; 0x0; 0x2f; 0xf4; 0x3; 0xff;
  0x0; 0x0; 0x0; 0x7f; 0xe0; 0x1f; 0xf8; 0x0;
  0x0; 0x0; 0xff; 0xc0; 0xbf; 0xd0; 0x0; 0x0;
  0x2; 0xff; 0x3; 0xff; 0x0; 0x0; 0x0; 0x7;
  0xfe; 0xf; 0xf8; 0x0; 0x0; 0x0; 0xf; 0xfc;
  0xbf; 0xd0; 0x0; 0x0; 0x0; 0x2f; 0xf3; 0xff;
  0x0; 0x0; 0x0; 0x0; 0x7f; 0xd0;
  0xff; 0xff; 0xff; 0xe4; 0x0; 0xf; 0xff; 0xff;
  0xff; 0xf8; 0x0; 0xff; 0xff; 0xff; 0xff; 0xf0;
  0xf; 0xff; 0xff; 0xff; 0xff; 0xc0; 0xff; 0x80;
  0x0; 0x7f; 0xfd; 0xf; 0xf8; 0x0; 0x0; 0xbf;
  0xf0; 0xff; 0x80; 0x0; 0x3; 0xff; 0xf; 0xf8;
  0x0; 0x0; 0x2f; 0xf0; 0xff; 0x80; 0x0; 0x2;
  0xff; 0xf; 0xf8; 0x0; 0x0; 0x2f; 0xf0; 0xff;
  0x80; 0x0; 0x2; 0xff; 0xf; 0xf8; 0x0; 0x0;
  0x3f; 0xe0; 0xff; 0x80; 0x0; 0xb; 0xfd; 0xf;
  0xf8; 0x0; 0x2; 0xff; 0x80; 0xff; 0xff; 0xff;
  0xff; 0xe0; 0xf; 0xff; 0xff; 0xff; 0xe0; 0x0;
  0xff; 0xff; 0xff; 0xfe; 0x40; 0xf; 0xff; 0xff;
  0xff; 0xff; 0x40; 0xff; 0x80; 0x0; 0x7f; 0xfd;
  0xf; 0xf8; 0x0; 0x0; 0x7f; 0xf0; 0xff; 0x80;
  0x0; 0x2; 0xff; 0x4f; 0xf8; 0x0; 0x0; 0xf;
  0xfc; 0xff; 0x80; 0x0; 0x0; 0xff; 0xcf; 0xf8;
  0x0; 0x0; 0xf; 0xfc; 0xff; 0x80; 0x0; 0x0;
  0xff; 0xcf; 0xf8; 0x0; 0x0; 0xf; 0xfc; 0xff;
  0x80; 0x0; 0x0; 0xff; 0xcf; 0xf8; 0x0; 0x0;
  0x2f; 0xf8; 0xff; 0x80; 0x0; 0x7; 0xff; 0x4f;
  0xf8; 0x0; 0x2; 0xff; 0xf0; 0xff; 0xff; 0xff;
  0xff; 0xfc; 0xf; 0xff; 0xff; 0xff; 0xff; 0x0;
  0xff; 0xff; 0xff; 0xff; 0x80; 0xf; 0xff; 0xff;
  0xfe; 0x40; 0x0;
  0x0; 0x0; 0x0; 0x55; 0x50; 0x0; 0x0; 0x0;
  0xbf; 0xff; 0xfe; 0x0; 0x0; 0x2f; 0xff; 0xff;
  0xff; 0x40; 0x3; 0xff; 0xff; 0xff; 0xfc; 0x0;
  0x3f; 0xff; 0xea; 0xbf; 0xf0; 0x3; 0xff; 0xe0;
  0x0; 0xb; 0x40; 0x2f; 0xfd; 0x0; 0x0; 0x0;
  0x0; 0xff; 0xd0; 0x0; 0x0; 0x0; 0xb; 0xfe;
  0x0; 0x0; 0x0; 0x0; 0x3f; 0xf0; 0x0; 0x0;
  0x0; 0x1; 0xff; 0x80; 0x0; 0x0; 0x0; 0xb;
  0xfd; 0x0; 0x0; 0x0; 0x0; 0x3f; 0xf0; 0x0;
  0x0; 0x0; 0x0; 0xff; 0xc0; 0x0; 0x0; 0x0;
  0x3; 0xfe; 0x0; 0x0; 0x0; 0x0; 0x1f; 0xf8;
  0x0; 0x0; 0x0; 0x0; 0x7f; 0xd0; 0x0; 0x0;
  0x0; 0x1; 0xff; 0x40; 0x0; 0x0; 0x0; 0x7;
  0xfd; 0x0; 0x0; 0x0; 0x0; 0x1f; 0xf4; 0x0;
  0x0; 0x0; 0x0; 0x7f; 0xe0; 0x0; 0x0; 0x0;
  0x0; 0xff; 0x80; 0x0; 0x0; 0x0; 0x3; 0xff;
  0x0; 0x0; 0x0; 0x0; 0xf; 0xfc; 0x0; 0x0;
  0x0; 0x0; 0x2f; 0xf4; 0x0; 0x0; 0x0; 0x0;
  0x7f; 0xf0; 0x0; 0x0; 0x0; 0x0; 0xff; 0xc0;
  0x0; 0x0; 0x0; 0x2; 0xff; 0xc0; 0x0; 0x0;
  0x0; 0x3; 0xff; 0x80; 0x0; 0x0; 0x0; 0xb;
  0xff; 0x80; 0x0; 0x0; 0x0; 0xf; 0xff; 0xe4;
  0x0; 0x6e; 0x0; 0xf; 0xff; 0xff; 0xff; 0xf8;
  0x0; 0xb; 0xff; 0xff; 0xff; 0xe0; 0x0; 0x7;
  0xff; 0xff; 0xff; 0x40; 0x0; 0x1; 0xbf; 0xff;
  0x90; 0x0;
  0xff; 0xff; 0xff; 0x90; 0x0; 0x0; 0xff; 0xff;
  0xff; 0xfe; 0x40; 0x0; 0xff; 0xff; 0xff; 0xff;
  0xe0; 0x0; 0xff; 0xff; 0xff; 0xff; 0xfc; 0x0;
  0xff; 0x80; 0x1; 0xbf; 0xff; 0x0; 0xff; 0x80;
  0x0; 0xb; 0xff; 0x80; 0xff; 0x80; 0x0; 0x1;
  0xff; 0xc0; 0xff; 0x80; 0x0; 0x0; 0xbf; 0xe0;
  0xff; 0x80; 0x0; 0x0; 0x3f; 0xf0; 0xff; 0x80;
  0x0; 0x0; 0x2f; 0xf8; 0xff; 0x80; 0x0; 0x0;
  0xf; 0xfc; 0xff; 0x80; 0x0; 0x0; 0xf; 0xfc;
  0xff; 0x80; 0x0; 0x0; 0xb; 0xfc; 0xff; 0x80;
  0x0; 0x0; 0xb; 0xfd; 0xff; 0x80; 0x0; 0x0;
  0x7; 0xfd; 0xff; 0x80; 0x0; 0x0; 0x7; 0xfd;
  0xff; 0x80; 0x0; 0x0; 0x7; 0xfd; 0xff; 0x80;
  0x0; 0x0; 0x7; 0xfd; 0xff; 0x80; 0x0; 0x0;
  0x7; 0xfd; 0xff; 0x80; 0x0; 0x0; 0x7; 0xfd;
  0xff; 0x80; 0x0; 0x0; 0xb; 0xfc; 0xff; 0x80;
  0x0; 0x0; 0xf; 0xfc; 0xff; 0x80; 0x0; 0x0;
  0xf; 0xfc; 0xff; 0x80; 0x0; 0x0; 0x1f; 0xf8;
  0xff; 0x80; 0x0; 0x0; 0x2f; 0xf4; 0xff; 0x80;
  0x0; 0x0; 0x3f; 0xf0; 0xff; 0x80; 0x0; 0x0;
  0xff; 0xe0; 0xff; 0x80; 0x0; 0x2; 0xff; 0xc0;
  0xff; 0x80; 0x0; 0xf; 0xff; 0x40; 0xff; 0x80;
  0x1; 0xbf; 0xfe; 0x0; 0xff; 0xff; 0xff; 0xff;
  0xf8; 0x0; 0xff; 0xff; 0xff; 0xff; 0xd0; 0x0;
  0xff; 0xff; 0xff; 0xfe; 0x0; 0x0; 0xff; 0xff;
  0xff; 0x90; 0x0; 0x0 ].

Definition open_sans_bitmap_5 : list Z :=
  [ 0xff; 0xff; 0xff; 0xff; 0xbf; 0xff; 0xff; 0xff;
  0xef; 0xff; 0xff; 0xff; 0xfb; 0xff; 0xff; 0xff;
  0xfe; 0xff; 0x80; 0x0; 0x0; 0x3f; 0xe0; 0x0;
  0x0; 0xf; 0xf8; 0x0; 0x0; 0x3; 0xfe; 0x0;
  0x0; 0x0; 0xff; 0x80; 0x0; 0x0; 0x3f; 0xe0;
  0x0; 0x0; 0xf; 0xf8; 0x0; 0x0; 0x3; 0xfe;
  0x0; 0x0; 0x0; 0xff; 0x80; 0x0; 0x0; 0x3f;
  0xe0; 0x0; 0x0; 0xf; 0xff; 0xff; 0xff; 0xf3;
  0xff; 0xff; 0xff; 0xfc; 0xff; 0xff; 0xff; 0xff;
  0x3f; 0xff; 0xff; 0xff; 0xcf; 0xf8; 0x0; 0x0;
  0x3; 0xfe; 0x0; 0x0; 0x0; 0xff; 0x80; 0x0;
  0x0; 0x3f; 0xe0; 0x0; 0x0; 0xf; 0xf8; 0x0;
  0x0; 0x3; 0xfe; 0x0; 0x0; 0x0; 0xff; 0x80;
  0x0; 0x0; 0x3f; 0xe0; 0x0; 0x0; 0xf; 0xf8;
  0x0; 0x0; 0x3; 0xfe; 0x0; 0x0; 0x0; 0xff;
  0x80; 0x0; 0x0; 0x3f; 0xe0; 0x0; 0x0; 0xf;
  0xff; 0xff; 0xff; 0xfb; 0xff; 0xff; 0xff; 0xfe;
  0xff; 0xff; 0xff; 0xff; 0xbf; 0xff; 0xff; 0xff;
  0xe0;
  0xff; 0xff; 0xff; 0xff; 0xbf; 0xff; 0xff; 0xff;
  0xef; 0xff; 0xff; 0xff; 0xfb; 0xff; 0xff; 0xff;
  0xfe; 0xff; 0x80; 0x0; 0x0; 0x3f; 0xe0; 0x0;
  0x0; 0xf; 0xf8; 0x0; 0x0; 0x3; 0xfe; 0x0;
  0x0; 0x0; 0xff; 0x80; 0x0; 0x0; 0x3f; 0xe0;
  0x0; 0x0; 0xf; 0xf8; 0x0; 0x0; 0x3; 0xfe;
  0x0; 0x0; 0x0; 0xff; 0x80; 0x0; 0x0; 0x3f;
  0xe0; 0x0; 0x0; 0xf; 0xf8; 0x0; 0x0; 0x3;
  0xfe; 0x0; 0x0; 0x0; 0xff; 0xff; 0xff; 0xff;
  0x3f; 0xff; 0xff; 0xff; 0xcf; 0xff; 0xff; 0xff;
  0xf3; 0xff; 0xff; 0xff; 0xfc; 0xff; 0x80; 0x0;
  0x0; 0x3f; 0xe0; 0x0; 0x0; 0xf; 0xf8; 0x0;
  0x0; 0x3; 0xfe; 0x0; 0x0; 0x0; 0xff; 0x80;
  0x0; 0x0; 0x3f; 0xe0; 0x0; 0x0; 0xf; 0xf8;
  0x0; 0x0; 0x3; 0xfe; 0x0; 0x0; 0x0; 0xff;
  0x80; 0x0; 0x0; 0x3f; 0xe0; 0x0; 0x0; 0xf;
  0xf8; 0x0; 0x0; 0x3; 0xfe; 0x0; 0x0; 0x0;
  0xff; 0x80; 0x0; 0x0; 0x3f; 0xe0; 0x0; 0x0;
  0x0;
  0x0; 0x0; 0x0; 0x15; 0x54; 0x0; 0x0; 0x0;
  0x1; 0xbf; 0xff; 0xff; 0x80; 0x0; 0x0; 0xff;
  0xff; 0xff; 0xff; 0x80; 0x0; 0xbf; 0xff; 0xff;
  0xff; 0xf8; 0x0; 0x2f; 0xff; 0xfa; 0xab; 0xff;
  0x40; 0xb; 0xff; 0xd0; 0x0; 0x1; 0xf0; 0x1;
  0xff; 0xe0; 0x0; 0x0; 0x0; 0x0; 0x3f; 0xf8;
  0x0; 0x0; 0x0; 0x0; 0xb; 0xff; 0x0; 0x0;
  0x0; 0x0; 0x0; 0xff; 0xc0; 0x0; 0x0; 0x0;
  0x0; 0x1f; 0xfc; 0x0; 0x0; 0x0; 0x0; 0x2;
  0xff; 0x40; 0x0; 0x0; 0x0; 0x0; 0x3f; 0xf0;
  0x0; 0x0; 0x0; 0x0; 0x3; 0xff; 0x0; 0x0;
  0x0; 0x0; 0x0; 0x3f; 0xe0; 0x0; 0x0; 0x0;
  0x0; 0x7; 0xfe; 0x0; 0x0; 0x0; 0x0; 0x0;
  0x7f; 0xd0; 0x0; 0x7; 0xff; 0xff; 0xe7; 0xfd;
  0x0; 0x0; 0x7f; 0xff; 0xfe; 0x7f; 0xd0; 0x0;
  0x7; 0xff; 0xff; 0xe7; 0xfd; 0x0; 0x0; 0x7f;
  0xff; 0xfe; 0x7f; 0xe0; 0x0; 0x0; 0x0; 0x3f;
  0xe3; 0xfe; 0x0; 0x0; 0x0; 0x3; 0xfe; 0x3f;
  0xf0; 0x0; 0x0; 0x0; 0x3f; 0xe3; 0xff; 0x0;
  0x0; 0x0; 0x3; 0xfe; 0x2f; 0xf4; 0x0; 0x0;
  0x0; 0x3f; 0xe1; 0xff; 0xc0; 0x0; 0x0; 0x3;
  0xfe; 0xf; 0xfd; 0x0; 0x0; 0x0; 0x3f; 0xe0;
  0x7f; 0xf0; 0x0; 0x0; 0x3; 0xfe; 0x3; 0xff;
  0xc0; 0x0; 0x0; 0x3f; 0xe0; 0x1f; 0xff; 0x0;
  0x0; 0x3; 0xfe; 0x0; 0xbf; 0xfe; 0x40; 0x1;
  0xbf; 0xe0; 0x2; 0xff; 0xff; 0xff; 0xff; 0xfe;
  0x0; 0x7; 0xff; 0xff; 0xff; 0xff; 0xe0; 0x0;
  0xb; 0xff; 0xff; 0xff; 0xf8; 0x0; 0x0; 0x6;
  0xff; 0xfe; 0x90; 0x0;
  0xff; 0x80; 0x0; 0x0; 0xf; 0xff; 0xfe; 0x0;
  0x0; 0x0; 0x3f; 0xff; 0xf8; 0x0; 0x0; 0x0;
  0xff; 0xff; 0xe0; 0x0; 0x0; 0x3; 0xff; 0xff;
  0x80; 0x0; 0x0; 0xf; 0xff; 0xfe; 0x0; 0x0;
  0x0; 0x3f; 0xff; 0xf8; 0x0; 0x0; 0x0; 0xff;
  0xff; 0xe0; 0x0; 0x0; 0x3; 0xff; 0xff; 0x80;
  0x0; 0x0; 0xf; 0xff; 0xfe; 0x0; 0x0; 0x0;
  0x3f; 0xff; 0xf8; 0x0; 0x0; 0x0; 0xff; 0xff;
  0xe0; 0x0; 0x0; 0x3; 0xff; 0xff; 0x80; 0x0;
  0x0; 0xf; 0xff; 0xfe; 0x0; 0x0; 0x0; 0x3f;
  0xff; 0xff; 0xff; 0xff; 0xff; 0xff; 0xff; 0xff;
  0xff; 0xff; 0xff; 0xff; 0xff; 0xff; 0xff; 0xff;
  0xff; 0xff; 0xff; 0xff; 0xff; 0xff; 0xff; 0xff;
  0xf8; 0x0; 0x0; 0x0; 0xff; 0xff; 0xe0; 0x0;
  0x0; 0x3; 0xff; 0xff; 0x80; 0x0; 0x0; 0xf;
  0xff; 0xfe; 0x0; 0x0; 0x0; 0x3f; 0xff; 0xf8;
  0x0; 0x0; 0x0; 0xff; 0xff; 0xe0; 0x0; 0x0;
  0x3; 0xff; 0xff; 0x80; 0x0; 0x0; 0xf; 0xff;
  0xfe; 0x0; 0x0; 0x0; 0x3f; 0xff; 0xf8; 0x0;
  0x0; 0x0; 0xff; 0xff; 0xe0; 0x0; 0x0; 0x3;
  0xff; 0xff; 0x80; 0x0; 0x0; 0xf; 0xff; 0xfe;
  0x0; 0x0; 0x0; 0x3f; 0xff; 0xf8; 0x0; 0x0;
  0x0; 0xff; 0xff; 0xe0; 0x0; 0x0; 0x3; 0xff;
  0xff; 0x80; 0x0; 0x0; 0xf; 0xff; 0xfe; 0x0;
  0x0; 0x0; 0x3f; 0xf0;
  0xff; 0xbf; 0xef; 0xfb; 0xfe; 0xff; 0xbf; 0xef;
  0xfb; 0xfe; 0xff; 0xbf; 0xef; 0xfb; 0xfe; 0xff;
  0xbf; 0xef; 0xfb; 0xfe; 0xff; 0xbf; 0xef; 0xfb;
  0xfe; 0xff; 0xbf; 0xef; 0xfb; 0xfe; 0xff; 0xbf;
  0xef; 0xfb; 0xfe; 0xff; 0xbf; 0xef; 0xfb; 0xfe;
  0xff; 0xbf; 0xe0;
  0x0; 0x0; 0xff; 0x80; 0x0; 0x3f; 0xe0; 0x0;
  0xf; 0xf8; 0x0; 0x3; 0xfe; 0x0; 0x0; 0xff;
  0x80; 0x0; 0x3f; 0xe0; 0x0; 0xf; 0xf8; 0x0;
  0x3; 0xfe; 0x0; 0x0; 0xff; 0x80; 0x0; 0x3f;
  0xe0; 0x0; 0xf; 0xf8; 0x0; 0x3; 0xfe; 0x0;
  0x0; 0xff; 0x80; 0x0; 0x3f; 0xe0; 0x0; 0xf;
  0xf8; 0x0; 0x3; 0xfe; 0x0; 0x0; 0xff; 0x80;
  0x0; 0x3f; 0xe0; 0x0; 0xf; 0xf8; 0x0; 0x3;
  0xfe; 0x0; 0x0; 0xff; 0x80; 0x0; 0x3f; 0xe0;
  0x0; 0xf; 0xf8; 0x0; 0x3; 0xfe; 0x0; 0x0;
  0xff; 0x80; 0x0; 0x3f; 0xe0; 0x0; 0xf; 0xf8;
  0x0; 0x3; 0xfe; 0x0; 0x0; 0xff; 0x80; 0x0;
  0x3f; 0xe0; 0x0; 0xf; 0xf8; 0x0; 0x3; 0xfe;
  0x0; 0x0; 0xff; 0x80; 0x0; 0x3f; 0xe0; 0x0;
  0xf; 0xf4; 0x0; 0x7; 0xfd; 0x0; 0x2; 0xff;
  0x0; 0x0; 0xff; 0xc1; 0x1; 0xff; 0xe0; 0xff;
  0xff; 0xf0; 0x3f; 0xff; 0xf8; 0xf; 0xff; 0xf4;
  0x2; 0xff; 0xe0; 0x0;
  0xff; 0x80; 0x0; 0x0; 0xff; 0xd3; 0xfe; 0x0;
  0x0; 0xb; 0xfe; 0xf; 0xf8; 0x0; 0x0; 0x3f;
  0xf0; 0x3f; 0xe0; 0x0; 0x3; 0xff; 0x0; 0xff;
  0x80; 0x0; 0x2f; 0xf4; 0x3; 0xfe; 0x0; 0x1;
  0xff; 0x80; 0xf; 0xf8; 0x0; 0xf; 0xfc; 0x0;
  0x3f; 0xe0; 0x0; 0xff; 0xd0; 0x0; 0xff; 0x80;
  0xb; 0xfe; 0x0; 0x3; 0xfe; 0x0; 0x3f; 0xf0;
  0x0; 0xf; 0xf8; 0x3; 0xff; 0x0; 0x0; 0x3f;
  0xe0; 0x2f; 0xf4; 0x0; 0x0; 0xff; 0x81; 0xff;
  0x80; 0x0; 0x3; 0xfe; 0xf; 0xfc; 0x0; 0x0;
  0xf; 0xf8; 0xff; 0xc0; 0x0; 0x0; 0x3f; 0xeb;
  0xff; 0x0; 0x0; 0x0; 0xff; 0xff; 0xff; 0x0;
  0x0; 0x3; 0xff; 0xff; 0xfd; 0x0; 0x0; 0xf;
  0xff; 0xef; 0xfc; 0x0; 0x0; 0x3f; 0xfd; 0x2f;
  0xf8; 0x0; 0x0; 0xff; 0xd0; 0x3f; 0xf0; 0x0;
  0x3; 0xfe; 0x0; 0xbf; 0xe0; 0x0; 0xf; 0xf8;
  0x0; 0xff; 0xd0; 0x0; 0x3f; 0xe0; 0x1; 0xff;
  0xc0; 0x0; 0xff; 0x80; 0x3; 0xff; 0x40; 0x3;
  0xfe; 0x0; 0x3; 0xff; 0x0; 0xf; 0xf8; 0x0;
  0xb; 0xfe; 0x0; 0x3f; 0xe0; 0x0; 0xf; 0xfd ].

Definition open_sans_bitmap_6 : list Z :=
  [ 0x0; 0xff; 0x80; 0x0; 0x1f; 0xfc; 0x3; 0xfe;
  0x0; 0x0; 0x3f; 0xf4; 0xf; 0xf8; 0x0; 0x0;
  0x3f; 0xf0; 0x3f; 0xe0; 0x0; 0x0; 0xbf; 0xe0;
  0xff; 0x80; 0x0; 0x0; 0xff; 0xc3; 0xfe; 0x0;
  0x0; 0x1; 0xff; 0xc0;
  0xff; 0x80; 0x0; 0x0; 0x3f; 0xe0; 0x0; 0x0;
  0xf; 0xf8; 0x0; 0x0; 0x3; 0xfe; 0x0; 0x0;
  0x0; 0xff; 0x80; 0x0; 0x0; 0x3f; 0xe0; 0x0;
  0x0; 0xf; 0xf8; 0x0; 0x0; 0x3; 0xfe; 0x0;
  0x0; 0x0; 0xff; 0x80; 0x0; 0x0; 0x3f; 0xe0;
  0x0; 0x0; 0xf; 0xf8; 0x0; 0x0; 0x3; 0xfe;
  0x0; 0x0; 0x0; 0xff; 0x80; 0x0; 0x0; 0x3f;
  0xe0; 0x0; 0x0; 0xf; 0xf8; 0x0; 0x0; 0x3;
  0xfe; 0x0; 0x0; 0x0; 0xff; 0x80; 0x0; 0x0;
  0x3f; 0xe0; 0x0; 0x0; 0xf; 0xf8; 0x0; 0x0;
  0x3; 0xfe; 0x0; 0x0; 0x0; 0xff; 0x80; 0x0;
  0x0; 0x3f; 0xe0; 0x0; 0x0; 0xf; 0xf8; 0x0;
  0x0; 0x3; 0xfe; 0x0; 0x0; 0x0; 0xff; 0x80;
  0x0; 0x0; 0x3f; 0xe0; 0x0; 0x0; 0xf; 0xf8;
  0x0; 0x0; 0x3; 0xfe; 0x0; 0x0; 0x0; 0xff;
  0x80; 0x0; 0x0; 0x3f; 0xe0; 0x0; 0x0; 0xf;
  0xff; 0xff; 0xff; 0xff; 0xff; 0xff; 0xff; 0xff;
  0xff; 0xff; 0xff; 0xff; 0xff; 0xff; 0xff; 0xff;
  0xf0;
  0xff; 0xf8; 0x0; 0x0; 0x0; 0x0; 0x7f; 0xfd;
  0xff; 0xfc; 0x0; 0x0; 0x0; 0x0; 0xff; 0xfd;
  0xff; 0xfd; 0x0; 0x0; 0x0; 0x0; 0xff; 0xfd;
  0xff; 0xfe; 0x0; 0x0; 0x0; 0x1; 0xff; 0xfd;
  0xff; 0xff; 0x0; 0x0; 0x0; 0x3; 0xff; 0xfd;
  0xff; 0xff; 0x40; 0x0; 0x0; 0x3; 0xff; 0xfd;
  0xff; 0xbf; 0x80; 0x0; 0x0; 0x7; 0xfb; 0xfd;
  0xff; 0x7f; 0xc0; 0x0; 0x0; 0xf; 0xf7; 0xfd;
  0xff; 0x3f; 0xd0; 0x0; 0x0; 0xf; 0xf3; 0xfd;
  0xff; 0x1f; 0xe0; 0x0; 0x0; 0x1f; 0xe3; 0xfd;
  0xff; 0x4f; 0xf0; 0x0; 0x0; 0x2f; 0xc3; 0xfd;
  0xff; 0x4f; 0xf4; 0x0; 0x0; 0x3f; 0xc3; 0xfd;
  0xff; 0x4b; 0xf8; 0x0; 0x0; 0x7f; 0x83; 0xfd;
  0xff; 0x43; 0xfc; 0x0; 0x0; 0xbf; 0x43; 0xfd;
  0xff; 0x43; 0xfd; 0x0; 0x0; 0xff; 0x3; 0xfd;
  0xff; 0x42; 0xfe; 0x0; 0x1; 0xfe; 0x3; 0xfd;
  0xff; 0x40; 0xff; 0x0; 0x2; 0xfd; 0x3; 0xfd;
  0xff; 0x40; 0xff; 0x40; 0x3; 0xfc; 0x3; 0xfd;
  0xff; 0x40; 0xbf; 0x80; 0x7; 0xf8; 0x3; 0xfd;
  0xff; 0x40; 0x3f; 0xc0; 0xb; 0xf4; 0x3; 0xfd;
  0xff; 0x40; 0x3f; 0xd0; 0xf; 0xf0; 0x3; 0xfd;
  0xff; 0x40; 0x2f; 0xe0; 0x1f; 0xe0; 0x3; 0xfd;
  0xff; 0x40; 0x1f; 0xf0; 0x2f; 0xd0; 0x3; 0xfd;
  0xff; 0x40; 0xf; 0xf4; 0x3f; 0xc0; 0x3; 0xfd;
  0xff; 0x40; 0xb; 0xf8; 0x7f; 0x80; 0x3; 0xfd;
  0xff; 0x40; 0x7; 0xfc; 0xbf; 0x40; 0x3; 0xfd;
  0xff; 0x40; 0x3; 0xfd; 0xff; 0x0; 0x3; 0xfd;
  0xff; 0x40; 0x2; 0xff; 0xfe; 0x0; 0x3; 0xfd;
  0xff; 0x40; 0x1; 0xff; 0xfd; 0x0; 0x3; 0xfd;
  0xff; 0x40; 0x0; 0xff; 0xfc; 0x0; 0x3; 0xfd;
  0xff; 0x40; 0x0; 0xbf; 0xf8; 0x0; 0x3; 0xfd;
  0xff; 0x40; 0x0; 0x7f; 0xf4; 0x0; 0x3; 0xfd;
  0xff; 0x40; 0x0; 0x3f; 0xf0; 0x0; 0x3; 0xfd;
  0xff; 0x40; 0x0; 0x2f; 0xe0; 0x0; 0x3; 0xfd;
  0xff; 0xf0; 0x0; 0x0; 0x0; 0xff; 0x7f; 0xfd;
  0x0; 0x0; 0x0; 0x3f; 0xdf; 0xff; 0xc0; 0x0;
  0x0; 0xf; 0xf7; 0xff; 0xf4; 0x0; 0x0; 0x3;
  0xfd; 0xff; 0xff; 0x0; 0x0; 0x0; 0xff; 0x7f;
  0xff; 0xd0; 0x0; 0x0; 0x3f; 0xdf; 0xff; 0xfc;
  0x0; 0x0; 0xf; 0xf7; 0xfd; 0xff; 0x80; 0x0;
  0x3; 0xfd; 0xff; 0x3f; 0xf0; 0x0; 0x0; 0xff;
  0x7f; 0xc7; 0xfe; 0x0; 0x0; 0x3f; 0xdf; 0xf0;
  0xff; 0xc0; 0x0; 0xf; 0xf7; 0xfc; 0xf; 0xf8;
  0x0; 0x3; 0xfd; 0xff; 0x42; 0xff; 0x0; 0x0;
  0xff; 0x7f; 0xd0; 0x3f; 0xf0; 0x0; 0x3f; 0xdf;
  0xf4; 0xb; 0xfd; 0x0; 0xf; 0xf7; 0xfd; 0x0;
  0xff; 0xc0; 0x3; 0xfd; 0xff; 0x40; 0x2f; 0xf4;
  0x0; 0xff; 0x7f; 0xd0; 0x3; 0xff; 0x0; 0x3f;
  0xdf; 0xf4; 0x0; 0x7f; 0xd0; 0xf; 0xf7; 0xfd;
  0x0; 0xf; 0xfc; 0x3; 0xfd; 0xff; 0x40; 0x1;
  0xff; 0x80; 0xff; 0x7f; 0xd0; 0x0; 0x3f; 0xf0;
  0x3f; 0xdf; 0xf4; 0x0; 0x7; 0xfe; 0xf; 0xf7;
  0xfd; 0x0; 0x0; 0xff; 0xc3; 0xfd; 0xff; 0x40;
  0x0; 0x1f; 0xf8; 0xff; 0x7f; 0xd0; 0x0; 0x3;
  0xff; 0x3f; 0xdf; 0xf4; 0x0; 0x0; 0x3f; 0xff;
  0xf7; 0xfd; 0x0; 0x0; 0xb; 0xff; 0xfd; 0xff;
  0x40; 0x0; 0x0; 0xff; 0xff; 0x7f; 0xd0; 0x0;
  0x0; 0x2f; 0xff; 0xdf; 0xf4; 0x0; 0x0; 0x3;
  0xff; 0xf7; 0xfd; 0x0; 0x0; 0x0; 0xbf; 0xfd;
  0xff; 0x40; 0x0; 0x0; 0xf; 0xff; 0x7f; 0xd0;
  0x0; 0x0; 0x2; 0xff; 0xd0;
  0x0; 0x0; 0x1; 0x55; 0x40; 0x0; 0x0; 0x0;
  0x0; 0x7f; 0xff; 0xfe; 0x0; 0x0; 0x0; 0x7;
  0xff; 0xff; 0xff; 0xd0; 0x0; 0x0; 0x2f; 0xff;
  0xff; 0xff; 0xf8; 0x0; 0x0; 0xbf; 0xff; 0xaa;
  0xff; 0xfe; 0x0; 0x1; 0xff; 0xf4; 0x0; 0xb;
  0xff; 0x40; 0x3; 0xff; 0x80; 0x0; 0x2; 0xff;
  0xc0; 0x7; 0xff; 0x0; 0x0; 0x0; 0xbf; 0xe0;
  0xf; 0xfd; 0x0; 0x0; 0x0; 0x3f; 0xf0; 0x1f;
  0xfc; 0x0; 0x0; 0x0; 0x2f; 0xf4; 0x2f; 0xf4;
  0x0; 0x0; 0x0; 0xf; 0xf8; 0x3f; 0xf0; 0x0;
  0x0; 0x0; 0xf; 0xfc; 0x3f; 0xf0; 0x0; 0x0;
  0x0; 0xb; 0xfc; 0x3f; 0xe0; 0x0; 0x0; 0x0;
  0xb; 0xfd; 0x3f; 0xe0; 0x0; 0x0; 0x0; 0x7;
  0xfd; 0x7f; 0xe0; 0x0; 0x0; 0x0; 0x7; 0xfd;
  0x7f; 0xd0; 0x0; 0x0; 0x0; 0x7; 0xfe; 0x7f;
  0xd0; 0x0; 0x0; 0x0; 0x7; 0xfe; 0x7f; 0xd0;
  0x0; 0x0; 0x0; 0x7; 0xfe; 0x7f; 0xd0; 0x0;
  0x0; 0x0; 0x7; 0xfe; 0x7f; 0xe0; 0x0; 0x0;
  0x0; 0x7; 0xfd; 0x3f; 0xe0; 0x0; 0x0; 0x0;
  0xb; 0xfd; 0x3f; 0xf0; 0x0; 0x0; 0x0; 0xb;
  0xfc; 0x3f; 0xf0; 0x0; 0x0; 0x0; 0xf; 0xfc;
  0x2f; 0xf4; 0x0; 0x0; 0x0; 0xf; 0xfc; 0x1f;
  0xf8; 0x0; 0x0; 0x0; 0x1f; 0xf8; 0xf; 0xfc;
  0x0; 0x0; 0x0; 0x3f; 0xf0; 0xb; 0xfe; 0x0;
  0x0; 0x0; 0x7f; 0xf0; 0x3; 0xff; 0x40; 0x0;
  0x0; 0xff; 0xd0; 0x2; 0xff; 0xd0; 0x0; 0x3;
  0xff; 0x80; 0x0; 0xff; 0xfd; 0x0; 0x6f; 0xff;
  0x0; 0x0; 0x3f; 0xff; 0xff; 0xff; 0xfc; 0x0;
  0x0; 0xf; 0xff; 0xff; 0xff; 0xf0; 0x0; 0x0;
  0x1; 0xff; 0xff; 0xff; 0x80; 0x0; 0x0; 0x0;
  0x1b; 0xff; 0xe4; 0x0; 0x0;
  0xff; 0xff; 0xfe; 0x90; 0x0; 0xff; 0xff; 0xff;
  0xfd; 0x0; 0xff; 0xff; 0xff; 0xff; 0x80; 0xff;
  0xff; 0xff; 0xff; 0xe0; 0xff; 0x80; 0x1; 0xff;
  0xf0; 0xff; 0x80; 0x0; 0x3f; 0xf8; 0xff; 0x80;
  0x0; 0xf; 0xfc; 0xff; 0x80; 0x0; 0xb; 0xfd;
  0xff; 0x80; 0x0; 0x7; 0xfd; 0xff; 0x80; 0x0;
  0x7; 0xfd; 0xff; 0x80; 0x0; 0x3; 0xfd; 0xff;
  0x80; 0x0; 0x7; 0xfd; 0xff; 0x80; 0x0; 0x7;
  0xfd; 0xff; 0x80; 0x0; 0xf; 0xfc; 0xff; 0x80;
  0x0; 0x1f; 0xfc; 0xff; 0x80; 0x0; 0x3f; 0xf4;
  0xff; 0x80; 0x6; 0xff; 0xf0; 0xff; 0xff; 0xff;
  0xff; 0xc0; 0xff; 0xff; 0xff; 0xff; 0x0; 0xff;
  0xff; 0xff; 0xf8; 0x0; 0xff; 0xff; 0xfe; 0x40;
  0x0; 0xff; 0x80; 0x0; 0x0; 0x0; 0xff; 0x80;
  0x0; 0x0; 0x0; 0xff; 0x80; 0x0; 0x0; 0x0;
  0xff; 0x80; 0x0; 0x0; 0x0; 0xff; 0x80; 0x0;
  0x0; 0x0; 0xff; 0x80; 0x0; 0x0; 0x0; 0xff;
  0x80; 0x0; 0x0; 0x0; 0xff; 0x80; 0x0; 0x0;
  0x0; 0xff; 0x80; 0x0; 0x0; 0x0; 0xff; 0x80;
  0x0; 0x0; 0x0; 0xff; 0x80; 0x0; 0x0; 0x0;
  0xff; 0x80; 0x0; 0x0; 0x0; 0xff; 0x80; 0x0;
  0x0; 0x0 ].

Definition open_sans_bitmap_7 : list Z :=
  [ 0x0; 0x0; 0x1; 0x55; 0x40; 0x0; 0x0; 0x0;
  0x0; 0x7f; 0xff; 0xfe; 0x0; 0x0; 0x0; 0x7;
  0xff; 0xff; 0xff; 0xd0; 0x0; 0x0; 0x2f; 0xff;
  0xff; 0xff; 0xf8; 0x0; 0x0; 0xbf; 0xff; 0xaa;
  0xff; 0xfe; 0x0; 0x1; 0xff; 0xf4; 0x0; 0xb;
  0xff; 0x40; 0x3; 0xff; 0x80; 0x0; 0x2; 0xff;
  0xc0; 0x7; 0xff; 0x0; 0x0; 0x0; 0xbf; 0xe0;
  0xf; 0xfd; 0x0; 0x0; 0x0; 0x3f; 0xf0; 0x1f;
  0xfc; 0x0; 0x0; 0x0; 0x2f; 0xf4; 0x2f; 0xf4;
  0x0; 0x0; 0x0; 0xf; 0xf8; 0x3f; 0xf0; 0x0;
  0x0; 0x0; 0xf; 0xfc; 0x3f; 0xf0; 0x0; 0x0;
  0x0; 0xb; 0xfc; 0x3f; 0xe0; 0x0; 0x0; 0x0;
  0xb; 0xfd; 0x3f; 0xe0; 0x0; 0x0; 0x0; 0x7;
  0xfd; 0x7f; 0xe0; 0x0; 0x0; 0x0; 0x7; 0xfd;
  0x7f; 0xd0; 0x0; 0x0; 0x0; 0x7; 0xfe; 0x7f;
  0xd0; 0x0; 0x0; 0x0; 0x7; 0xfe; 0x7f; 0xd0;
  0x0; 0x0; 0x0; 0x7; 0xfe; 0x7f; 0xd0; 0x0;
  0x0; 0x0; 0x7; 0xfe; 0x7f; 0xe0; 0x0; 0x0;
  0x0; 0x7; 0xfd; 0x3f; 0xe0; 0x0; 0x0; 0x0;
  0xb; 0xfd; 0x3f; 0xf0; 0x0; 0x0; 0x0; 0xb;
  0xfc; 0x3f; 0xf0; 0x0; 0x0; 0x0; 0xf; 0xfc;
  0x2f; 0xf4; 0x0; 0x0; 0x0; 0xf; 0xfc; 0x1f;
  0xf8; 0x0; 0x0; 0x0; 0x1f; 0xf8; 0xf; 0xfc;
  0x0; 0x0; 0x0; 0x3f; 0xf0; 0xb; 0xfe; 0x0;
  0x0; 0x0; 0x7f; 0xf0; 0x3; 0xff; 0x40; 0x0;
  0x0; 0xff; 0xd0; 0x2; 0xff; 0xd0; 0x0; 0x3;
  0xff; 0xc0; 0x0; 0xff; 0xfd; 0x0; 0x6f; 0xff;
  0x0; 0x0; 0x3f; 0xff; 0xff; 0xff; 0xfc; 0x0;
  0x0; 0xf; 0xff; 0xff; 0xff; 0xf0; 0x0; 0x0;
  0x1; 0xff; 0xff; 0xff; 0x40; 0x0; 0x0; 0x0;
  0x1b; 0xff; 0xff; 0x0; 0x0; 0x0; 0x0; 0x0;
  0x2; 0xff; 0x80; 0x0; 0x0; 0x0; 0x0; 0x0;
  0xff; 0xe0; 0x0; 0x0; 0x0; 0x0; 0x0; 0x7f;
  0xf4; 0x0; 0x0; 0x0; 0x0; 0x0; 0x2f; 0xfc;
  0x0; 0x0; 0x0; 0x0; 0x0; 0xf; 0xff; 0x0;
  0x0; 0x0; 0x0; 0x0; 0x3; 0xff; 0x80; 0x0;
  0x0; 0x0; 0x0; 0x1; 0xff; 0xd0; 0x0; 0x0;
  0x0; 0x0; 0x0; 0x6a; 0x90;
  0xff; 0xff; 0xfe; 0x90; 0x0; 0xf; 0xff; 0xff;
  0xff; 0xd0; 0x0; 0xff; 0xff; 0xff; 0xff; 0x80;
  0xf; 0xff; 0xff; 0xff; 0xfe; 0x0; 0xff; 0x80;
  0x1; 0xff; 0xf4; 0xf; 0xf8; 0x0; 0x2; 0xff;
  0xc0; 0xff; 0x80; 0x0; 0xf; 0xfc; 0xf; 0xf8;
  0x0; 0x0; 0xbf; 0xd0; 0xff; 0x80; 0x0; 0x7;
  0xfd; 0xf; 0xf8; 0x0; 0x0; 0x3f; 0xe0; 0xff;
  0x80; 0x0; 0x3; 0xfd; 0xf; 0xf8; 0x0; 0x0;
  0x7f; 0xd0; 0xff; 0x80; 0x0; 0xb; 0xfc; 0xf;
  0xf8; 0x0; 0x0; 0xff; 0xc0; 0xff; 0x80; 0x0;
  0x2f; 0xf4; 0xf; 0xf8; 0x0; 0x1f; 0xff; 0x0;
  0xff; 0xff; 0xff; 0xff; 0xc0; 0xf; 0xff; 0xff;
  0xff; 0xf0; 0x0; 0xff; 0xff; 0xff; 0xf4; 0x0;
  0xf; 0xff; 0xff; 0xff; 0x0; 0x0; 0xff; 0x80;
  0x1f; 0xf4; 0x0; 0xf; 0xf8; 0x0; 0xff; 0xc0;
  0x0; 0xff; 0x80; 0x7; 0xfe; 0x0; 0xf; 0xf8;
  0x0; 0x3f; 0xf0; 0x0; 0xff; 0x80; 0x1; 0xff;
  0x80; 0xf; 0xf8; 0x0; 0xf; 0xfc; 0x0; 0xff;
  0x80; 0x0; 0x7f; 0xe0; 0xf; 0xf8; 0x0; 0x3;
  0xff; 0x0; 0xff; 0x80; 0x0; 0xf; 0xfc; 0xf;
  0xf8; 0x0; 0x0; 0xbf; 0xd0; 0xff; 0x80; 0x0;
  0x3; 0xff; 0xf; 0xf8; 0x0; 0x0; 0x2f; 0xf4;
  0xff; 0x80; 0x0; 0x0; 0xff; 0xcf; 0xf8; 0x0;
  0x0; 0xb; 0xfe;
  0x0; 0x0; 0x55; 0x50; 0x0; 0x0; 0x2f; 0xff;
  0xff; 0x80; 0x1; 0xff; 0xff; 0xff; 0xf8; 0x7;
  0xff; 0xff; 0xff; 0xf4; 0xf; 0xff; 0xea; 0xff;
  0xf0; 0x3f; 0xfc; 0x0; 0x2; 0xe0; 0x3f; 0xf0;
  0x0; 0x0; 0x0; 0x7f; 0xd0; 0x0; 0x0; 0x0;
  0xbf; 0xc0; 0x0; 0x0; 0x0; 0xbf; 0xc0; 0x0;
  0x0; 0x0; 0xbf; 0xc0; 0x0; 0x0; 0x0; 0x7f;
  0xd0; 0x0; 0x0; 0x0; 0x3f; 0xf0; 0x0; 0x0;
  0x0; 0x3f; 0xfc; 0x0; 0x0; 0x0; 0xf; 0xff;
  0x80; 0x0; 0x0; 0x7; 0xff; 0xf8; 0x0; 0x0;
  0x1; 0xff; 0xff; 0x80; 0x0; 0x0; 0x3f; 0xff;
  0xf8; 0x0; 0x0; 0x7; 0xff; 0xff; 0x0; 0x0;
  0x0; 0x7f; 0xff; 0xc0; 0x0; 0x0; 0x7; 0xff;
  0xf0; 0x0; 0x0; 0x0; 0xbf; 0xf4; 0x0; 0x0;
  0x0; 0x1f; 0xfc; 0x0; 0x0; 0x0; 0xf; 0xfc;
  0x0; 0x0; 0x0; 0xb; 0xfc; 0x0; 0x0; 0x0;
  0x7; 0xfc; 0x0; 0x0; 0x0; 0x7; 0xfc; 0x0;
  0x0; 0x0; 0xb; 0xfc; 0x0; 0x0; 0x0; 0xf;
  0xfc; 0xd0; 0x0; 0x0; 0x3f; 0xf4; 0xff; 0x90;
  0x6; 0xff; 0xf0; 0xff; 0xff; 0xff; 0xff; 0xc0;
  0xff; 0xff; 0xff; 0xff; 0x0; 0xbf; 0xff; 0xff;
  0xf8; 0x0; 0x6; 0xbf; 0xfe; 0x40; 0x0;
  0x7f; 0xff; 0xff; 0xff; 0xff; 0xf1; 0xff; 0xff;
  0xff; 0xff; 0xff; 0xc7; 0xff; 0xff; 0xff; 0xff;
  0xff; 0x1f; 0xff; 0xff; 0xff; 0xff; 0xfc; 0x0;
  0x0; 0x3f; 0xe0; 0x0; 0x0; 0x0; 0x0; 0xff;
  0x80; 0x0; 0x0; 0x0; 0x3; 0xfe; 0x0; 0x0;
  0x0; 0x0; 0xf; 0xf8; 0x0; 0x0; 0x0; 0x0;
  0x3f; 0xe0; 0x0; 0x0; 0x0; 0x0; 0xff; 0x80;
  0x0; 0x0; 0x0; 0x3; 0xfe; 0x0; 0x0; 0x0;
  0x0; 0xf; 0xf8; 0x0; 0x0; 0x0; 0x0; 0x3f;
  0xe0; 0x0; 0x0; 0x0; 0x0; 0xff; 0x80; 0x0;
  0x0; 0x0; 0x3; 0xfe; 0x0; 0x0; 0x0; 0x0;
  0xf; 0xf8; 0x0; 0x0; 0x0; 0x0; 0x3f; 0xe0;
  0x0; 0x0; 0x0; 0x0; 0xff; 0x80; 0x0; 0x0;
  0x0; 0x3; 0xfe; 0x0; 0x0; 0x0; 0x0; 0xf;
  0xf8; 0x0; 0x0; 0x0; 0x0; 0x3f; 0xe0; 0x0;
  0x0; 0x0; 0x0; 0xff; 0x80; 0x0; 0x0; 0x0;
  0x3; 0xfe; 0x0; 0x0; 0x0; 0x0; 0xf; 0xf8;
  0x0; 0x0; 0x0; 0x0; 0x3f; 0xe0; 0x0; 0x0;
  0x0; 0x0; 0xff; 0x80; 0x0; 0x0; 0x0; 0x3;
  0xfe; 0x0; 0x0; 0x0; 0x0; 0xf; 0xf8; 0x0;
  0x0; 0x0; 0x0; 0x3f; 0xe0; 0x0; 0x0; 0x0;
  0x0; 0xff; 0x80; 0x0; 0x0; 0x0; 0x3; 0xfe;
  0x0; 0x0; 0x0; 0x0; 0xf; 0xf8; 0x0; 0x0;
  0x0; 0x0; 0x3f; 0xe0; 0x0; 0x0; 0x0; 0x0;
  0xff; 0x80; 0x0; 0x0;
  0x7f; 0xd0; 0x0; 0x0; 0x3; 0xfe; 0x7f; 0xd0;
  0x0; 0x0; 0x3; 0xfe; 0x7f; 0xd0; 0x0; 0x0;
  0x3; 0xfe; 0x7f; 0xd0; 0x0; 0x0; 0x3; 0xfe;
  0x7f; 0xd0; 0x0; 0x0; 0x3; 0xfe; 0x7f; 0xd0;
  0x0; 0x0; 0x3; 0xfe; 0x7f; 0xd0; 0x0; 0x0;
  0x3; 0xfe; 0x7f; 0xd0; 0x0; 0x0; 0x3; 0xfe;
  0x7f; 0xd0; 0x0; 0x0; 0x3; 0xfe; 0x7f; 0xd0;
  0x0; 0x0; 0x3; 0xfe; 0x7f; 0xd0; 0x0; 0x0;
  0x3; 0xfe; 0x7f; 0xd0; 0x0; 0x0; 0x3; 0xfe;
  0x7f; 0xd0; 0x0; 0x0; 0x3; 0xfe; 0x7f; 0xd0;
  0x0; 0x0; 0x3; 0xfe; 0x7f; 0xd0; 0x0; 0x0;
  0x3; 0xfe; 0x7f; 0xd0; 0x0; 0x0; 0x3; 0xfe;
  0x7f; 0xd0; 0x0; 0x0; 0x3; 0xfe; 0x7f; 0xd0;
  0x0; 0x0; 0x3; 0xfe; 0x7f; 0xd0; 0x0; 0x0;
  0x3; 0xfe; 0x7f; 0xd0; 0x0; 0x0; 0x3; 0xfe;
  0x7f; 0xd0; 0x0; 0x0; 0x3; 0xfe; 0x7f; 0xd0;
  0x0; 0x0; 0x3; 0xfe; 0x7f; 0xd0; 0x0; 0x0;
  0x3; 0xfe; 0x7f; 0xd0; 0x0; 0x0; 0x3; 0xfe;
  0x3f; 0xe0; 0x0; 0x0; 0x3; 0xfd; 0x3f; 0xf0;
  0x0; 0x0; 0x7; 0xfd; 0x3f; 0xf0; 0x0; 0x0;
  0xf; 0xfc; 0x1f; 0xf8; 0x0; 0x0; 0x1f; 0xfc;
  0xf; 0xfe; 0x0; 0x0; 0x3f; 0xf4; 0xb; 0xff;
  0xd0; 0x6; 0xff; 0xf0; 0x2; 0xff; 0xff; 0xff;
  0xff; 0xc0; 0x0; 0xbf; 0xff; 0xff; 0xff; 0x0;
  0x0; 0x1f; 0xff; 0xff; 0xf8; 0x0; 0x0; 0x1;
  0xbf; 0xfe; 0x40; 0x0;
  0xff; 0xc0; 0x0; 0x0; 0x0; 0x7f; 0xdb; 0xfc;
  0x0; 0x0; 0x0; 0xb; 0xfc; 0x7f; 0xe0; 0x0;
  0x0; 0x0; 0xff; 0x83; 0xff; 0x0; 0x0; 0x0;
  0x1f; 0xf4; 0x2f; 0xf0; 0x0; 0x0; 0x2; 0xff;
  0x1; 0xff; 0x40; 0x0; 0x0; 0x3f; 0xf0; 0xf ].

Definition open_sans_bitmap_8 : list Z :=
  [ 0xf8; 0x0; 0x0; 0x3; 0xfe; 0x0; 0xff; 0xc0;
  0x0; 0x0; 0x7f; 0xc0; 0x7; 0xfc; 0x0; 0x0;
  0xb; 0xfc; 0x0; 0x3f; 0xe0; 0x0; 0x0; 0xff;
  0x80; 0x3; 0xff; 0x0; 0x0; 0x1f; 0xf4; 0x0;
  0x2f; 0xf0; 0x0; 0x2; 0xff; 0x0; 0x1; 0xff;
  0x40; 0x0; 0x3f; 0xe0; 0x0; 0xf; 0xf8; 0x0;
  0x3; 0xfd; 0x0; 0x0; 0xbf; 0xc0; 0x0; 0x7f;
  0xc0; 0x0; 0x7; 0xfc; 0x0; 0xf; 0xfc; 0x0;
  0x0; 0x3f; 0xe0; 0x0; 0xff; 0x80; 0x0; 0x3;
  0xff; 0x0; 0x1f; 0xf0; 0x0; 0x0; 0x1f; 0xf0;
  0x2; 0xff; 0x0; 0x0; 0x0; 0xff; 0x40; 0x3f;
  0xe0; 0x0; 0x0; 0xf; 0xf8; 0x3; 0xfd; 0x0;
  0x0; 0x0; 0xbf; 0xc0; 0x7f; 0xc0; 0x0; 0x0;
  0x7; 0xfc; 0xf; 0xf8; 0x0; 0x0; 0x0; 0x3f;
  0xe0; 0xff; 0x40; 0x0; 0x0; 0x2; 0xff; 0x1f;
  0xf0; 0x0; 0x0; 0x0; 0x1f; 0xf2; 0xff; 0x0;
  0x0; 0x0; 0x0; 0xff; 0x3f; 0xe0; 0x0; 0x0;
  0x0; 0xb; 0xf7; 0xfc; 0x0; 0x0; 0x0; 0x0;
  0x7f; 0xff; 0xc0; 0x0; 0x0; 0x0; 0x3; 0xff;
  0xf8; 0x0; 0x0; 0x0; 0x0; 0x3f; 0xff; 0x40;
  0x0; 0x0; 0x0; 0x2; 0xff; 0xf0; 0x0; 0x0;
  0x0; 0x0; 0xf; 0xfe; 0x0; 0x0; 0x0; 0x0;
  0x0; 0xff; 0xd0; 0x0; 0x0;
  0xbf; 0xc0; 0x0; 0x0; 0x1f; 0xf0; 0x0; 0x0;
  0x7; 0xfd; 0x7f; 0xd0; 0x0; 0x0; 0x2f; 0xf4;
  0x0; 0x0; 0xb; 0xfc; 0x3f; 0xe0; 0x0; 0x0;
  0x3f; 0xf8; 0x0; 0x0; 0xb; 0xfc; 0x3f; 0xf0;
  0x0; 0x0; 0x3f; 0xfc; 0x0; 0x0; 0xf; 0xf8;
  0x2f; 0xf0; 0x0; 0x0; 0x7f; 0xfc; 0x0; 0x0;
  0xf; 0xf4; 0x1f; 0xf4; 0x0; 0x0; 0xbf; 0xfd;
  0x0; 0x0; 0x1f; 0xf4; 0xf; 0xf4; 0x0; 0x0;
  0xff; 0xfe; 0x0; 0x0; 0x2f; 0xf0; 0xf; 0xf8;
  0x0; 0x0; 0xfe; 0xff; 0x0; 0x0; 0x3f; 0xf0;
  0xb; 0xfc; 0x0; 0x1; 0xfd; 0xbf; 0x0; 0x0;
  0x3f; 0xe0; 0x7; 0xfc; 0x0; 0x2; 0xfd; 0xbf;
  0x40; 0x0; 0x7f; 0xd0; 0x3; 0xfd; 0x0; 0x3;
  0xfc; 0x7f; 0x80; 0x0; 0xbf; 0xc0; 0x3; 0xfe;
  0x0; 0x3; 0xfc; 0x3f; 0xc0; 0x0; 0xff; 0xc0;
  0x2; 0xff; 0x0; 0x7; 0xf8; 0x3f; 0xc0; 0x0;
  0xff; 0x80; 0x1; 0xff; 0x0; 0xb; 0xf4; 0x2f;
  0xd0; 0x0; 0xff; 0x40; 0x0; 0xff; 0x40; 0xf;
  0xf0; 0x1f; 0xe0; 0x1; 0xff; 0x0; 0x0; 0xff;
  0x80; 0xf; 0xf0; 0xf; 0xf0; 0x2; 0xff; 0x0;
  0x0; 0xff; 0x80; 0x1f; 0xe0; 0xf; 0xf0; 0x3;
  0xfe; 0x0; 0x0; 0xbf; 0xc0; 0x2f; 0xd0; 0xb;
  0xf4; 0x3; 0xfd; 0x0; 0x0; 0x7f; 0xc0; 0x3f;
  0xc0; 0x7; 0xf8; 0x7; 0xfc; 0x0; 0x0; 0x3f;
  0xd0; 0x3f; 0xc0; 0x3; 0xfc; 0xb; 0xfc; 0x0;
  0x0; 0x3f; 0xe0; 0x7f; 0x80; 0x3; 0xfc; 0xf;
  0xf8; 0x0; 0x0; 0x2f; 0xf0; 0xbf; 0x80; 0x2;
  0xfd; 0xf; 0xf4; 0x0; 0x0; 0x1f; 0xf0; 0xff;
  0x40; 0x1; 0xfe; 0xf; 0xf0; 0x0; 0x0; 0xf;
  0xf0; 0xff; 0x0; 0x0; 0xff; 0x1f; 0xf0; 0x0;
  0x0; 0xf; 0xf4; 0xff; 0x0; 0x0; 0xff; 0x2f;
  0xf0; 0x0; 0x0; 0xb; 0xf9; 0xfe; 0x0; 0x0;
  0xbf; 0x3f; 0xe0; 0x0; 0x0; 0x7; 0xfe; 0xfd;
  0x0; 0x0; 0x7f; 0x7f; 0xd0; 0x0; 0x0; 0x3;
  0xfe; 0xfc; 0x0; 0x0; 0x3f; 0xbf; 0xc0; 0x0;
  0x0; 0x3; 0xff; 0xfc; 0x0; 0x0; 0x3f; 0xff;
  0xc0; 0x0; 0x0; 0x2; 0xff; 0xf8; 0x0; 0x0;
  0x2f; 0xff; 0x80; 0x0; 0x0; 0x1; 0xff; 0xf4;
  0x0; 0x0; 0x1f; 0xff; 0x40; 0x0; 0x0; 0x0;
  0xff; 0xf0; 0x0; 0x0; 0xf; 0xff; 0x0; 0x0;
  0x0; 0x0; 0xff; 0xf0; 0x0; 0x0; 0xf; 0xff;
  0x0; 0x0; 0x0; 0x0; 0xbf; 0xe0; 0x0; 0x0;
  0xf; 0xfe; 0x0; 0x0;
  0x3f; 0xf0; 0x0; 0x0; 0xb; 0xfd; 0x3; 0xfe;
  0x0; 0x0; 0x3; 0xfe; 0x0; 0xbf; 0xc0; 0x0;
  0x2; 0xff; 0x0; 0xf; 0xf8; 0x0; 0x0; 0xff;
  0x80; 0x2; 0xff; 0x0; 0x0; 0xbf; 0xc0; 0x0;
  0x3f; 0xe0; 0x0; 0x3f; 0xe0; 0x0; 0xb; 0xfc;
  0x0; 0x2f; 0xf0; 0x0; 0x0; 0xff; 0x80; 0xf;
  0xf8; 0x0; 0x0; 0x2f; 0xf0; 0xb; 0xfc; 0x0;
  0x0; 0x3; 0xfe; 0x3; 0xfe; 0x0; 0x0; 0x0;
  0xbf; 0xc2; 0xff; 0x0; 0x0; 0x0; 0xf; 0xf8;
  0xff; 0x40; 0x0; 0x0; 0x1; 0xff; 0xbf; 0xc0;
  0x0; 0x0; 0x0; 0x3f; 0xff; 0xd0; 0x0; 0x0;
  0x0; 0x7; 0xff; 0xf0; 0x0; 0x0; 0x0; 0x0;
  0xff; 0xf4; 0x0; 0x0; 0x0; 0x0; 0x2f; 0xfc;
  0x0; 0x0; 0x0; 0x0; 0xf; 0xff; 0x40; 0x0;
  0x0; 0x0; 0xb; 0xff; 0xf0; 0x0; 0x0; 0x0;
  0x3; 0xff; 0xfe; 0x0; 0x0; 0x0; 0x2; 0xff;
  0xbf; 0xc0; 0x0; 0x0; 0x0; 0xff; 0x4f; 0xf8;
  0x0; 0x0; 0x0; 0xbf; 0xc2; 0xff; 0x0; 0x0;
  0x0; 0x3f; 0xd0; 0x3f; 0xe0; 0x0; 0x0; 0x3f;
  0xf0; 0xb; 0xfc; 0x0; 0x0; 0x1f; 0xf4; 0x0;
  0xff; 0x80; 0x0; 0xf; 0xfc; 0x0; 0x2f; 0xf0;
  0x0; 0x7; 0xfd; 0x0; 0x3; 0xfe; 0x0; 0x3;
  0xff; 0x0; 0x0; 0xbf; 0xc0; 0x1; 0xff; 0x40;
  0x0; 0xf; 0xfc; 0x0; 0xff; 0xc0; 0x0; 0x2;
  0xff; 0x40; 0x7f; 0xd0; 0x0; 0x0; 0x3f; 0xf0;
  0x3f; 0xf0; 0x0; 0x0; 0xb; 0xfd; 0x2f; 0xf4;
  0x0; 0x0; 0x0; 0xff; 0xc0;
  0xff; 0xc0; 0x0; 0x0; 0xb; 0xfd; 0x7f; 0xe0;
  0x0; 0x0; 0xf; 0xfc; 0x3f; 0xf0; 0x0; 0x0;
  0x1f; 0xf4; 0x1f; 0xf4; 0x0; 0x0; 0x3f; 0xf0;
  0xf; 0xfc; 0x0; 0x0; 0x7f; 0xe0; 0xb; 0xfd;
  0x0; 0x0; 0xbf; 0xc0; 0x3; 0xfe; 0x0; 0x0;
  0xff; 0x80; 0x2; 0xff; 0x0; 0x2; 0xff; 0x0;
  0x0; 0xff; 0x80; 0x3; 0xfe; 0x0; 0x0; 0xbf;
  0xc0; 0x7; 0xfc; 0x0; 0x0; 0x7f; 0xd0; 0xf;
  0xfc; 0x0; 0x0; 0x3f; 0xf0; 0x1f; 0xf4; 0x0;
  0x0; 0x1f; 0xf4; 0x2f; 0xf0; 0x0; 0x0; 0xf;
  0xfc; 0x3f; 0xd0; 0x0; 0x0; 0x7; 0xfc; 0xbf;
  0xc0; 0x0; 0x0; 0x3; 0xfe; 0xff; 0x80; 0x0;
  0x0; 0x2; 0xff; 0xff; 0x0; 0x0; 0x0; 0x0;
  0xff; 0xfe; 0x0; 0x0; 0x0; 0x0; 0xbf; 0xfc;
  0x0; 0x0; 0x0; 0x0; 0x3f; 0xf8; 0x0; 0x0;
  0x0; 0x0; 0x2f; 0xf0; 0x0; 0x0; 0x0; 0x0;
  0x2f; 0xf0; 0x0; 0x0; 0x0; 0x0; 0x2f; 0xf0;
  0x0; 0x0; 0x0; 0x0; 0x2f; 0xf0; 0x0; 0x0;
  0x0; 0x0; 0x2f; 0xf0; 0x0; 0x0; 0x0; 0x0;
  0x2f; 0xf0; 0x0; 0x0; 0x0; 0x0; 0x2f; 0xf0;
  0x0; 0x0; 0x0; 0x0; 0x2f; 0xf0; 0x0; 0x0;
  0x0; 0x0; 0x2f; 0xf0; 0x0; 0x0; 0x0; 0x0;
  0x2f; 0xf0; 0x0; 0x0; 0x0; 0x0; 0x2f; 0xf0;
  0x0; 0x0; 0x0; 0x0; 0x2f; 0xf0; 0x0; 0x0;
  0x0; 0x0; 0x2f; 0xf0; 0x0; 0x0; 0x0; 0x0;
  0x2f; 0xf0; 0x0; 0x0;
  0x3f; 0xff; 0xff; 0xff; 0xff; 0xf; 0xff; 0xff;
  0xff; 0xff; 0xc3; 0xff; 0xff; 0xff; 0xff; 0xf0;
  0xff; 0xff; 0xff; 0xff; 0xfc; 0x0; 0x0; 0x0;
  0x7; 0xfd; 0x0; 0x0; 0x0; 0x3; 0xff; 0x0;
  0x0; 0x0; 0x2; 0xff; 0x40; 0x0; 0x0; 0x0;
  0xff; 0xc0; 0x0; 0x0; 0x0; 0xbf; 0xd0; 0x0;
  0x0; 0x0; 0x3f; 0xe0; 0x0; 0x0; 0x0; 0x2f;
  0xf0; 0x0; 0x0; 0x0; 0x1f; 0xf8; 0x0; 0x0;
  0x0; 0xf; 0xfc; 0x0; 0x0; 0x0; 0x7; 0xfe;
  0x0; 0x0; 0x0; 0x3; 0xff; 0x0; 0x0; 0x0;
  0x1; 0xff; 0x80; 0x0; 0x0; 0x0; 0xff; 0xc0;
  0x0; 0x0; 0x0; 0x7f; 0xd0; 0x0; 0x0; 0x0;
  0x3f; 0xf0; 0x0; 0x0; 0x0; 0x2f; 0xf4; 0x0;
  0x0; 0x0; 0xf; 0xfc; 0x0; 0x0; 0x0; 0xb;
  0xfd; 0x0; 0x0; 0x0; 0x3; 0xfe; 0x0; 0x0;
  0x0; 0x2; 0xff; 0x0; 0x0; 0x0; 0x1; 0xff;
  0x80; 0x0; 0x0; 0x0; 0xff; 0xc0; 0x0; 0x0;
  0x0; 0x7f; 0xe0; 0x0; 0x0; 0x0; 0x3f; 0xf0;
  0x0; 0x0; 0x0; 0x1f; 0xf4; 0x0; 0x0; 0x0;
  0xf; 0xfc; 0x0; 0x0; 0x0; 0x7; 0xff; 0xff;
  0xff; 0xff; 0xf6; 0xff; 0xff; 0xff; 0xff; 0xfd;
  0xbf; 0xff; 0xff; 0xff; 0xff; 0x6f; 0xff; 0xff;
  0xff; 0xff; 0xd0 ].

Definition open_sans_bitmap_9 : list Z :=
  [ 0x7f; 0xff; 0xfc; 0x7f; 0xff; 0xfc; 0x7f; 0xff;
  0xfc; 0x7f; 0xea; 0xa8; 0x7f; 0x80; 0x0; 0x7f;
  0x80; 0x0; 0x7f; 0x80; 0x0; 0x7f; 0x80; 0x0;
  0x7f; 0x80; 0x0; 0x7f; 0x80; 0x0; 0x7f; 0x80;
  0x0; 0x7f; 0x80; 0x0; 0x7f; 0x80; 0x0; 0x7f;
  0x80; 0x0; 0x7f; 0x80; 0x0; 0x7f; 0x80; 0x0;
  0x7f; 0x80; 0x0; 0x7f; 0x80; 0x0; 0x7f; 0x80;
  0x0; 0x7f; 0x80; 0x0; 0x7f; 0x80; 0x0; 0x7f;
  0x80; 0x0; 0x7f; 0x80; 0x0; 0x7f; 0x80; 0x0;
  0x7f; 0x80; 0x0; 0x7f; 0x80; 0x0; 0x7f; 0x80;
  0x0; 0x7f; 0x80; 0x0; 0x7f; 0x80; 0x0; 0x7f;
  0x80; 0x0; 0x7f; 0x80; 0x0; 0x7f; 0x80; 0x0;
  0x7f; 0x80; 0x0; 0x7f; 0x80; 0x0; 0x7f; 0x80;
  0x0; 0x7f; 0x80; 0x0; 0x7f; 0x80; 0x0; 0x7f;
  0x80; 0x0; 0x7f; 0xff; 0xfc; 0x7f; 0xff; 0xfc;
  0x7f; 0xff; 0xfc; 0x6a; 0xaa; 0xa8;
  0x3f; 0xc0; 0x0; 0x0; 0x3; 0xfd; 0x0; 0x0;
  0x0; 0x1f; 0xf0; 0x0; 0x0; 0x0; 0xff; 0x0;
  0x0; 0x0; 0xb; 0xf8; 0x0; 0x0; 0x0; 0x7f;
  0xc0; 0x0; 0x0; 0x3; 0xfd; 0x0; 0x0; 0x0;
  0x2f; 0xe0; 0x0; 0x0; 0x0; 0xff; 0x0; 0x0;
  0x0; 0xf; 0xf4; 0x0; 0x0; 0x0; 0x7f; 0xc0;
  0x0; 0x0; 0x3; 0xfc; 0x0; 0x0; 0x0; 0x2f;
  0xe0; 0x0; 0x0; 0x1; 0xff; 0x0; 0x0; 0x0;
  0xf; 0xf4; 0x0; 0x0; 0x0; 0xbf; 0x80; 0x0;
  0x0; 0x3; 0xfc; 0x0; 0x0; 0x0; 0x3f; 0xd0;
  0x0; 0x0; 0x1; 0xff; 0x0; 0x0; 0x0; 0xf;
  0xf0; 0x0; 0x0; 0x0; 0xbf; 0x80; 0x0; 0x0;
  0x7; 0xfc; 0x0; 0x0; 0x0; 0x3f; 0xd0; 0x0;
  0x0; 0x2; 0xfe; 0x0; 0x0; 0x0; 0xf; 0xf0;
  0x0; 0x0; 0x0; 0xff; 0x40; 0x0; 0x0; 0x7;
  0xfc; 0x0; 0x0; 0x0; 0x3f; 0xc0; 0x0; 0x0;
  0x3; 0xfe; 0x0; 0x0; 0x0; 0x1f; 0xf0; 0x0;
  0x0; 0x0; 0xff; 0x40; 0x0; 0x0; 0xb; 0xf8;
  0x0; 0x0; 0x0; 0x7f; 0xc0; 0x0; 0x0; 0x3;
  0xfd;
  0xbf; 0xff; 0xfe; 0xff; 0xff; 0xfb; 0xff; 0xff;
  0xda; 0xaa; 0xff; 0x0; 0x7; 0xfc; 0x0; 0x1f;
  0xf0; 0x0; 0x7f; 0xc0; 0x1; 0xff; 0x0; 0x7;
  0xfc; 0x0; 0x1f; 0xf0; 0x0; 0x7f; 0xc0; 0x1;
  0xff; 0x0; 0x7; 0xfc; 0x0; 0x1f; 0xf0; 0x0;
  0x7f; 0xc0; 0x1; 0xff; 0x0; 0x7; 0xfc; 0x0;
  0x1f; 0xf0; 0x0; 0x7f; 0xc0; 0x1; 0xff; 0x0;
  0x7; 0xfc; 0x0; 0x1f; 0xf0; 0x0; 0x7f; 0xc0;
  0x1; 0xff; 0x0; 0x7; 0xfc; 0x0; 0x1f; 0xf0;
  0x0; 0x7f; 0xc0; 0x1; 0xff; 0x0; 0x7; 0xfc;
  0x0; 0x1f; 0xf0; 0x0; 0x7f; 0xc0; 0x1; 0xff;
  0x0; 0x7; 0xfc; 0x0; 0x1f; 0xf0; 0x0; 0x7f;
  0xc0; 0x1; 0xff; 0x0; 0x7; 0xfc; 0x0; 0x1f;
  0xfb; 0xff; 0xff; 0xef; 0xff; 0xff; 0xbf; 0xff;
  0xfd; 0xaa; 0xaa; 0x90;
  0x0; 0x0; 0x1f; 0x80; 0x0; 0x0; 0x0; 0x0;
  0xff; 0x0; 0x0; 0x0; 0x0; 0x7; 0xfe; 0x0;
  0x0; 0x0; 0x0; 0x3f; 0xfc; 0x0; 0x0; 0x0;
  0x1; 0xff; 0xf8; 0x0; 0x0; 0x0; 0xf; 0xff;
  0xf0; 0x0; 0x0; 0x0; 0x7f; 0x5f; 0xe0; 0x0;
  0x0; 0x3; 0xfc; 0x3f; 0xc0; 0x0; 0x0; 0x1f;
  0xe0; 0x7f; 0x80; 0x0; 0x0; 0xff; 0x0; 0xff;
  0x0; 0x0; 0x7; 0xf8; 0x1; 0xfe; 0x0; 0x0;
  0x2f; 0xc0; 0x3; 0xfc; 0x0; 0x0; 0xfe; 0x0;
  0x7; 0xf8; 0x0; 0xb; 0xf0; 0x0; 0xf; 0xf0;
  0x0; 0x3f; 0xc0; 0x0; 0x1f; 0xe0; 0x2; 0xfd;
  0x0; 0x0; 0x3f; 0xc0; 0xf; 0xf0; 0x0; 0x0;
  0x7f; 0x80; 0xbf; 0x40; 0x0; 0x0; 0xff; 0x3;
  0xfc; 0x0; 0x0; 0x1; 0xfe; 0x2f; 0xd0; 0x0;
  0x0; 0x3; 0xfc;
  0x0; 0x0; 0x0; 0x0; 0x0; 0x0; 0xff; 0xff;
  0xff; 0xff; 0xff; 0xc3; 0xff; 0xff; 0xff; 0xff;
  0xff; 0xf; 0xff; 0xff; 0xff; 0xff; 0xfc;
  0x2a; 0xa0; 0x0; 0xbf; 0xe0; 0x0; 0xff; 0xd0;
  0x0; 0xff; 0xc0; 0x0; 0xff; 0x80; 0x0; 0xff;
  0x40; 0x0; 0xff; 0x0; 0x0; 0xbf;
  0x0; 0x6; 0xff; 0xf8; 0x0; 0x0; 0xbf; 0xff;
  0xff; 0x80; 0x2; 0xff; 0xff; 0xff; 0xe0; 0x0;
  0xff; 0xea; 0xff; 0xf4; 0x0; 0xa4; 0x0; 0x1f;
  0xfc; 0x0; 0x0; 0x0; 0xb; 0xfc; 0x0; 0x0;
  0x0; 0x7; 0xfd; 0x0; 0x0; 0x0; 0x3; 0xfd;
  0x0; 0x0; 0x0; 0x3; 0xfd; 0x0; 0x0; 0x0;
  0x3; 0xfd; 0x0; 0x6; 0xff; 0xff; 0xfd; 0x0;
  0xbf; 0xff; 0xff; 0xfd; 0x3; 0xff; 0xff; 0xff;
  0xfd; 0xf; 0xff; 0x80; 0x3; 0xfd; 0x1f; 0xfc;
  0x0; 0x3; 0xfd; 0x3f; 0xf0; 0x0; 0x3; 0xfd;
  0x3f; 0xe0; 0x0; 0x3; 0xfd; 0x3f; 0xe0; 0x0;
  0x3; 0xfd; 0x3f; 0xe0; 0x0; 0x7; 0xfd; 0x3f;
  0xe0; 0x0; 0xf; 0xfd; 0x3f; 0xf0; 0x0; 0x2f;
  0xfd; 0x2f; 0xf8; 0x0; 0xbf; 0xfd; 0xf; 0xff;
  0xab; 0xfa; 0xfd; 0xb; 0xff; 0xff; 0xf1; 0xfd;
  0x2; 0xff; 0xff; 0x80; 0xfd; 0x0; 0x2f; 0xf9;
  0x0; 0xfd;
  0x7f; 0xc0; 0x0; 0x0; 0x0; 0x1f; 0xf0; 0x0;
  0x0; 0x0; 0x7; 0xfc; 0x0; 0x0; 0x0; 0x1;
  0xff; 0x0; 0x0; 0x0; 0x0; 0x7f; 0xc0; 0x0;
  0x0; 0x0; 0x1f; 0xf0; 0x0; 0x0; 0x0; 0x7;
  0xfc; 0x0; 0x0; 0x0; 0x1; 0xff; 0x0; 0x0;
  0x0; 0x0; 0x7f; 0xc0; 0x0; 0x0; 0x0; 0x1f;
  0xf0; 0x0; 0x0; 0x0; 0x7; 0xfc; 0x6; 0xff;
  0x80; 0x1; 0xff; 0xf; 0xff; 0xfe; 0x0; 0x7f;
  0xcf; 0xff; 0xff; 0xe0; 0x1f; 0xfb; 0xff; 0xff;
  0xfe; 0x7; 0xff; 0xe0; 0x2; 0xff; 0xc1; 0xff;
  0xe0; 0x0; 0x2f; 0xf8; 0x7f; 0xf0; 0x0; 0x3;
  0xff; 0x1f; 0xf8; 0x0; 0x0; 0x7f; 0xc7; 0xfd;
  0x0; 0x0; 0xf; 0xf5; 0xff; 0x0; 0x0; 0x3;
  0xfe; 0x7f; 0xc0; 0x0; 0x0; 0xff; 0x9f; 0xf0;
  0x0; 0x0; 0x3f; 0xf7; 0xfc; 0x0; 0x0; 0xf;
  0xfd; 0xff; 0x0; 0x0; 0x3; 0xff; 0x7f; 0xc0;
  0x0; 0x0; 0xff; 0xdf; 0xf0; 0x0; 0x0; 0x3f;
  0xe7; 0xfc; 0x0; 0x0; 0xf; 0xf9; 0xff; 0x40;
  0x0; 0x3; 0xfd; 0x7f; 0xe0; 0x0; 0x2; 0xff;
  0x1f; 0xfc; 0x0; 0x0; 0xff; 0xc7; 0xff; 0x80;
  0x0; 0xbf; 0xe1; 0xff; 0xf8; 0x0; 0xbf; 0xf0;
  0x7f; 0xff; 0xff; 0xff; 0xf8; 0x1f; 0xd3; 0xff;
  0xff; 0xf8; 0x7; 0xf4; 0x3f; 0xff; 0xf8; 0x1;
  0xfc; 0x1; 0xbf; 0xe0; 0x0;
  0x0; 0x2; 0xff; 0xf9; 0x0; 0x2; 0xff; 0xff;
  0xfc; 0x0; 0xff; 0xff; 0xff; 0x80; 0x3f; 0xff;
  0xff; 0xf0; 0xb; 0xff; 0x40; 0xa; 0x0; 0xff;
  0xc0; 0x0; 0x0; 0x2f; 0xf4; 0x0; 0x0; 0x3;
  0xff; 0x0; 0x0; 0x0; 0x7f; 0xd0; 0x0; 0x0;
  0x7; 0xfc; 0x0; 0x0; 0x0; 0xbf; 0xc0; 0x0;
  0x0; 0xb; 0xfc; 0x0; 0x0; 0x0; 0xbf; 0xc0;
  0x0; 0x0; 0xb; 0xfc; 0x0; 0x0; 0x0; 0xbf;
  0xc0; 0x0; 0x0; 0xb; 0xfc; 0x0; 0x0; 0x0;
  0xbf; 0xc0; 0x0; 0x0; 0x7; 0xfd; 0x0; 0x0;
  0x0; 0x3f; 0xe0; 0x0; 0x0; 0x3; 0xff; 0x0;
  0x0; 0x0; 0x1f; 0xfc; 0x0; 0x0; 0x0; 0xff;
  0xf4; 0x0; 0x68; 0x7; 0xff; 0xff; 0xff; 0x80;
  0x1f; 0xff; 0xff; 0xf8; 0x0; 0x3f; 0xff; 0xff;
  0x40; 0x0; 0x6f; 0xfe; 0x40;
  0x0; 0x0; 0x0; 0x0; 0xff; 0x80; 0x0; 0x0;
  0x0; 0x3f; 0xe0; 0x0; 0x0; 0x0; 0xf; 0xf8 ].

Definition open_sans_bitmap_10 : list Z :=
  [ 0x0; 0x0; 0x0; 0x3; 0xfe; 0x0; 0x0; 0x0;
  0x0; 0xff; 0x80; 0x0; 0x0; 0x0; 0x3f; 0xe0;
  0x0; 0x0; 0x0; 0xf; 0xf8; 0x0; 0x0; 0x0;
  0x3; 0xfe; 0x0; 0x0; 0x0; 0x0; 0xff; 0x80;
  0x0; 0x0; 0x0; 0x3f; 0xe0; 0x0; 0xbf; 0xe4;
  0xf; 0xf8; 0x2; 0xff; 0xff; 0xc3; 0xfe; 0x2;
  0xff; 0xff; 0xfc; 0xff; 0x81; 0xff; 0xff; 0xff;
  0xff; 0xe0; 0xff; 0xe0; 0x2; 0xff; 0xf8; 0x7f;
  0xe0; 0x0; 0x2f; 0xfe; 0x3f; 0xf0; 0x0; 0x3;
  0xff; 0x8f; 0xf8; 0x0; 0x0; 0xbf; 0xe7; 0xfd;
  0x0; 0x0; 0x1f; 0xfa; 0xff; 0x0; 0x0; 0x3;
  0xfe; 0xbf; 0xc0; 0x0; 0x0; 0xff; 0xaf; 0xf0;
  0x0; 0x0; 0x3f; 0xeb; 0xfc; 0x0; 0x0; 0xf;
  0xfa; 0xff; 0x0; 0x0; 0x3; 0xfe; 0xbf; 0xc0;
  0x0; 0x0; 0xff; 0xaf; 0xf0; 0x0; 0x0; 0x3f;
  0xeb; 0xfc; 0x0; 0x0; 0xf; 0xf9; 0xff; 0x40;
  0x0; 0x3; 0xfe; 0x3f; 0xe0; 0x0; 0x1; 0xff;
  0x8f; 0xfc; 0x0; 0x0; 0xff; 0xe2; 0xff; 0x80;
  0x0; 0x7f; 0xf8; 0x3f; 0xf8; 0x0; 0xbf; 0xfe;
  0x7; 0xff; 0xfb; 0xff; 0xbf; 0x80; 0xbf; 0xff;
  0xff; 0x1f; 0xe0; 0xb; 0xff; 0xff; 0x7; 0xf8;
  0x0; 0x2f; 0xf9; 0x0; 0xfe;
  0x0; 0x6; 0xff; 0xe0; 0x0; 0x0; 0x3f; 0xff;
  0xfe; 0x0; 0x1; 0xff; 0xff; 0xff; 0x80; 0x3;
  0xff; 0xea; 0xff; 0xe0; 0xf; 0xfd; 0x0; 0x2f;
  0xf0; 0x1f; 0xf4; 0x0; 0xf; 0xf8; 0x2f; 0xf0;
  0x0; 0x7; 0xfc; 0x3f; 0xd0; 0x0; 0x3; 0xfd;
  0x7f; 0xc0; 0x0; 0x3; 0xfe; 0x7f; 0xc0; 0x0;
  0x2; 0xfe; 0xbf; 0xd5; 0x55; 0x57; 0xfe; 0xbf;
  0xff; 0xff; 0xff; 0xfe; 0xbf; 0xff; 0xff; 0xff;
  0xfe; 0xbf; 0xff; 0xff; 0xff; 0xfe; 0xbf; 0xc0;
  0x0; 0x0; 0x0; 0xbf; 0xc0; 0x0; 0x0; 0x0;
  0x7f; 0xc0; 0x0; 0x0; 0x0; 0x7f; 0xd0; 0x0;
  0x0; 0x0; 0x3f; 0xe0; 0x0; 0x0; 0x0; 0x2f;
  0xf0; 0x0; 0x0; 0x0; 0xf; 0xfc; 0x0; 0x0;
  0x0; 0xb; 0xff; 0x40; 0x0; 0xb8; 0x3; 0xff;
  0xfa; 0xbf; 0xf8; 0x0; 0xff; 0xff; 0xff; 0xf8;
  0x0; 0x2f; 0xff; 0xff; 0xf4; 0x0; 0x1; 0xbf;
  0xfa; 0x0;
  0x0; 0x0; 0xbf; 0xf9; 0x0; 0x1; 0xff; 0xff;
  0xc0; 0x0; 0xff; 0xff; 0xe0; 0x0; 0xff; 0xfa;
  0xf4; 0x0; 0x3f; 0xf0; 0x0; 0x0; 0x1f; 0xf4;
  0x0; 0x0; 0xb; 0xfc; 0x0; 0x0; 0x2; 0xff;
  0x0; 0x0; 0x0; 0xbf; 0xc0; 0x0; 0x0; 0x2f;
  0xf0; 0x0; 0x0; 0x7f; 0xff; 0xff; 0x1; 0xff;
  0xff; 0xff; 0xc0; 0x7f; 0xff; 0xff; 0xf0; 0xa;
  0xbf; 0xfa; 0xa8; 0x0; 0xb; 0xfc; 0x0; 0x0;
  0x2; 0xff; 0x0; 0x0; 0x0; 0xbf; 0xc0; 0x0;
  0x0; 0x2f; 0xf0; 0x0; 0x0; 0xb; 0xfc; 0x0;
  0x0; 0x2; 0xff; 0x0; 0x0; 0x0; 0xbf; 0xc0;
  0x0; 0x0; 0x2f; 0xf0; 0x0; 0x0; 0xb; 0xfc;
  0x0; 0x0; 0x2; 0xff; 0x0; 0x0; 0x0; 0xbf;
  0xc0; 0x0; 0x0; 0x2f; 0xf0; 0x0; 0x0; 0xb;
  0xfc; 0x0; 0x0; 0x2; 0xff; 0x0; 0x0; 0x0;
  0xbf; 0xc0; 0x0; 0x0; 0x2f; 0xf0; 0x0; 0x0;
  0xb; 0xfc; 0x0; 0x0; 0x2; 0xff; 0x0; 0x0;
  0x0; 0xbf; 0xc0; 0x0; 0x0; 0x2f; 0xf0; 0x0;
  0x0; 0xb; 0xfc; 0x0; 0x0; 0x2; 0xff; 0x0;
  0x0;
  0x0; 0x1; 0xff; 0xff; 0xff; 0xf4; 0x0; 0xbf;
  0xff; 0xff; 0xff; 0xd0; 0xb; 0xff; 0xff; 0xff;
  0xff; 0x40; 0x7f; 0xf4; 0x1f; 0xff; 0x94; 0x3;
  0xff; 0x0; 0xf; 0xf8; 0x0; 0x1f; 0xf4; 0x0;
  0x1f; 0xf0; 0x0; 0xbf; 0xc0; 0x0; 0x3f; 0xd0;
  0x3; 0xff; 0x0; 0x0; 0xff; 0x80; 0xf; 0xf8;
  0x0; 0x3; 0xfe; 0x0; 0x3f; 0xe0; 0x0; 0xf;
  0xf8; 0x0; 0xbf; 0xc0; 0x0; 0x3f; 0xe0; 0x1;
  0xff; 0x0; 0x1; 0xff; 0x40; 0x3; 0xff; 0x0;
  0xf; 0xfc; 0x0; 0xb; 0xff; 0x41; 0xff; 0xd0;
  0x0; 0xf; 0xff; 0xff; 0xfe; 0x0; 0x0; 0xb;
  0xff; 0xff; 0xd0; 0x0; 0x0; 0x2f; 0xff; 0xe4;
  0x0; 0x0; 0x2; 0xfc; 0x0; 0x0; 0x0; 0x0;
  0x1f; 0xd0; 0x0; 0x0; 0x0; 0x0; 0xbf; 0x0;
  0x0; 0x0; 0x0; 0x3; 0xfc; 0x0; 0x0; 0x0;
  0x0; 0xb; 0xfd; 0x0; 0x0; 0x0; 0x0; 0x1f;
  0xff; 0xff; 0xfe; 0x40; 0x0; 0x2f; 0xff; 0xff;
  0xff; 0xc0; 0x0; 0x7f; 0xff; 0xff; 0xff; 0xc0;
  0xf; 0xff; 0xff; 0xff; 0xff; 0x40; 0xff; 0x80;
  0x0; 0xb; 0xff; 0xf; 0xf4; 0x0; 0x0; 0xb;
  0xfc; 0x7f; 0xc0; 0x0; 0x0; 0x1f; 0xf1; 0xfe;
  0x0; 0x0; 0x0; 0x7f; 0xcb; 0xf8; 0x0; 0x0;
  0x2; 0xff; 0x1f; 0xf0; 0x0; 0x0; 0xf; 0xf4;
  0x3f; 0xf0; 0x0; 0x1; 0xff; 0xc0; 0xbf; 0xf9;
  0x55; 0xbf; 0xfd; 0x0; 0xff; 0xff; 0xff; 0xff;
  0xd0; 0x0; 0xbf; 0xff; 0xff; 0xf8; 0x0; 0x0;
  0x1b; 0xff; 0xf9; 0x0; 0x0;
  0x7f; 0xc0; 0x0; 0x0; 0x0; 0x7f; 0xc0; 0x0;
  0x0; 0x0; 0x7f; 0xc0; 0x0; 0x0; 0x0; 0x7f;
  0xc0; 0x0; 0x0; 0x0; 0x7f; 0xc0; 0x0; 0x0;
  0x0; 0x7f; 0xc0; 0x0; 0x0; 0x0; 0x7f; 0xc0;
  0x0; 0x0; 0x0; 0x7f; 0xc0; 0x0; 0x0; 0x0;
  0x7f; 0xc0; 0x0; 0x0; 0x0; 0x7f; 0xc0; 0x0;
  0x0; 0x0; 0x7f; 0xc0; 0x6f; 0xf9; 0x0; 0x7f;
  0xc3; 0xff; 0xff; 0xc0; 0x7f; 0xcf; 0xff; 0xff;
  0xf0; 0x7f; 0xef; 0xff; 0xff; 0xf8; 0x7f; 0xff;
  0x0; 0x2f; 0xfc; 0x7f; 0xfc; 0x0; 0xb; 0xfd;
  0x7f; 0xf0; 0x0; 0x3; 0xfe; 0x7f; 0xe0; 0x0;
  0x3; 0xfe; 0x7f; 0xd0; 0x0; 0x3; 0xfe; 0x7f;
  0xd0; 0x0; 0x3; 0xfe; 0x7f; 0xc0; 0x0; 0x3;
  0xfe; 0x7f; 0xc0; 0x0; 0x3; 0xfe; 0x7f; 0xc0;
  0x0; 0x3; 0xfe; 0x7f; 0xc0; 0x0; 0x3; 0xfe;
  0x7f; 0xc0; 0x0; 0x3; 0xfe; 0x7f; 0xc0; 0x0;
  0x3; 0xfe; 0x7f; 0xc0; 0x0; 0x3; 0xfe; 0x7f;
  0xc0; 0x0; 0x3; 0xfe; 0x7f; 0xc0; 0x0; 0x3;
  0xfe; 0x7f; 0xc0; 0x0; 0x3; 0xfe; 0x7f; 0xc0;
  0x0; 0x3; 0xfe; 0x7f; 0xc0; 0x0; 0x3; 0xfe;
  0x7f; 0xc0; 0x0; 0x3; 0xfe; 0x7f; 0xc0; 0x0;
  0x3; 0xfe; 0x7f; 0xc0; 0x0; 0x3; 0xfe; 0x7f;
  0xc0; 0x0; 0x3; 0xfe;
  0x2f; 0x4b; 0xfc; 0xff; 0xdb; 0xfd; 0x7f; 0xc1;
  0xa0; 0x0; 0x0; 0x0; 0x0; 0x0; 0x0; 0x7f;
  0xc7; 0xfc; 0x7f; 0xc7; 0xfc; 0x7f; 0xc7; 0xfc;
  0x7f; 0xc7; 0xfc; 0x7f; 0xc7; 0xfc; 0x7f; 0xc7;
  0xfc; 0x7f; 0xc7; 0xfc; 0x7f; 0xc7; 0xfc; 0x7f;
  0xc7; 0xfc; 0x7f; 0xc7; 0xfc; 0x7f; 0xc7; 0xfc;
  0x7f; 0xc7; 0xfc; 0x7f; 0xc7; 0xfc;
  0x0; 0xb; 0xd0; 0x0; 0xbf; 0xc0; 0x3; 0xff;
  0x40; 0xb; 0xfd; 0x0; 0x1f; 0xf0; 0x0; 0x1a;
  0x0; 0x0; 0x0; 0x0; 0x0; 0x0; 0x0; 0x0;
  0x0; 0x0; 0x0; 0x0; 0x1; 0xff; 0x0; 0x7;
  0xfc; 0x0; 0x1f; 0xf0; 0x0; 0x7f; 0xc0; 0x1;
  0xff; 0x0; 0x7; 0xfc; 0x0; 0x1f; 0xf0; 0x0;
  0x7f; 0xc0; 0x1; 0xff; 0x0; 0x7; 0xfc; 0x0;
  0x1f; 0xf0; 0x0; 0x7f; 0xc0; 0x1; 0xff; 0x0;
  0x7; 0xfc; 0x0; 0x1f; 0xf0; 0x0; 0x7f; 0xc0;
  0x1; 0xff; 0x0; 0x7; 0xfc; 0x0; 0x1f; 0xf0;
  0x0; 0x7f; 0xc0; 0x1; 0xff; 0x0; 0x7; 0xfc;
  0x0; 0x1f; 0xf0; 0x0; 0x7f; 0xc0; 0x1; 0xff;
  0x0; 0x7; 0xfc; 0x0; 0x1f; 0xf0; 0x0; 0x7f;
  0xc0; 0x1; 0xff; 0x0; 0x7; 0xfc; 0x0; 0x2f;
  0xf0; 0x0; 0xff; 0xc0; 0x7; 0xfe; 0x2f; 0xff;
  0xf4; 0xbf; 0xff; 0xc2; 0xff; 0xfc; 0x7; 0xff;
  0x40; 0x0;
  0x7f; 0xc0; 0x0; 0x0; 0x0; 0x7f; 0xc0; 0x0;
  0x0; 0x0; 0x7f; 0xc0; 0x0; 0x0; 0x0; 0x7f;
  0xc0; 0x0; 0x0; 0x0; 0x7f; 0xc0; 0x0; 0x0 ].

Definition open_sans_bitmap_11 : list Z :=
  [ 0x0; 0x7f; 0xc0; 0x0; 0x0; 0x0; 0x7f; 0xc0;
  0x0; 0x0; 0x0; 0x7f; 0xc0; 0x0; 0x0; 0x0;
  0x7f; 0xc0; 0x0; 0x0; 0x0; 0x7f; 0xc0; 0x0;
  0x0; 0x0; 0x7f; 0xc0; 0x0; 0xf; 0xfc; 0x7f;
  0xc0; 0x0; 0x3f; 0xf0; 0x7f; 0xc0; 0x0; 0xbf;
  0xd0; 0x7f; 0xc0; 0x1; 0xff; 0x80; 0x7f; 0xc0;
  0x3; 0xfe; 0x0; 0x7f; 0xc0; 0xf; 0xfc; 0x0;
  0x7f; 0xc0; 0x2f; 0xf0; 0x0; 0x7f; 0xc0; 0x7f;
  0xd0; 0x0; 0x7f; 0xc0; 0xff; 0x80; 0x0; 0x7f;
  0xc3; 0xff; 0x0; 0x0; 0x7f; 0xcb; 0xfc; 0x0;
  0x0; 0x7f; 0xdf; 0xfd; 0x0; 0x0; 0x7f; 0xff;
  0xff; 0x0; 0x0; 0x7f; 0xff; 0xff; 0x80; 0x0;
  0x7f; 0xfd; 0xff; 0xc0; 0x0; 0x7f; 0xf4; 0x3f;
  0xe0; 0x0; 0x7f; 0xd0; 0x2f; 0xf4; 0x0; 0x7f;
  0xc0; 0xf; 0xfc; 0x0; 0x7f; 0xc0; 0x7; 0xfd;
  0x0; 0x7f; 0xc0; 0x3; 0xff; 0x0; 0x7f; 0xc0;
  0x1; 0xff; 0x80; 0x7f; 0xc0; 0x0; 0xff; 0xc0;
  0x7f; 0xc0; 0x0; 0x3f; 0xf0; 0x7f; 0xc0; 0x0;
  0x2f; 0xf4; 0x7f; 0xc0; 0x0; 0xf; 0xfc; 0x7f;
  0xc0; 0x0; 0xb; 0xfe;
  0x7f; 0xc7; 0xfc; 0x7f; 0xc7; 0xfc; 0x7f; 0xc7;
  0xfc; 0x7f; 0xc7; 0xfc; 0x7f; 0xc7; 0xfc; 0x7f;
  0xc7; 0xfc; 0x7f; 0xc7; 0xfc; 0x7f; 0xc7; 0xfc;
  0x7f; 0xc7; 0xfc; 0x7f; 0xc7; 0xfc; 0x7f; 0xc7;
  0xfc; 0x7f; 0xc7; 0xfc; 0x7f; 0xc7; 0xfc; 0x7f;
  0xc7; 0xfc; 0x7f; 0xc7; 0xfc; 0x7f; 0xc7; 0xfc;
  0x7f; 0xc7; 0xfc; 0x7f; 0xc7; 0xfc;
  0x7f; 0x0; 0x6f; 0xf8; 0x0; 0xb; 0xff; 0x40;
  0x1f; 0xd0; 0xff; 0xff; 0xd0; 0x1f; 0xff; 0xfd;
  0x7; 0xf4; 0xff; 0xff; 0xfd; 0x1f; 0xff; 0xff;
  0xc1; 0xfe; 0xff; 0xff; 0xff; 0xcf; 0xff; 0xff;
  0xfc; 0x7f; 0xfe; 0x0; 0x7f; 0xff; 0xe0; 0x7;
  0xff; 0x1f; 0xfe; 0x0; 0x7; 0xff; 0xd0; 0x0;
  0xbf; 0xd7; 0xff; 0x0; 0x0; 0xff; 0xf0; 0x0;
  0xf; 0xf9; 0xff; 0x80; 0x0; 0x3f; 0xf4; 0x0;
  0x3; 0xfe; 0x7f; 0xd0; 0x0; 0xb; 0xfc; 0x0;
  0x0; 0xbf; 0xdf; 0xf0; 0x0; 0x2; 0xff; 0x0;
  0x0; 0x2f; 0xf7; 0xfc; 0x0; 0x0; 0xbf; 0xc0;
  0x0; 0xb; 0xfd; 0xff; 0x0; 0x0; 0x2f; 0xf0;
  0x0; 0x2; 0xff; 0x7f; 0xc0; 0x0; 0xb; 0xfc;
  0x0; 0x0; 0xbf; 0xdf; 0xf0; 0x0; 0x2; 0xff;
  0x0; 0x0; 0x2f; 0xf7; 0xfc; 0x0; 0x0; 0xbf;
  0xc0; 0x0; 0xb; 0xfd; 0xff; 0x0; 0x0; 0x2f;
  0xf0; 0x0; 0x2; 0xff; 0x7f; 0xc0; 0x0; 0xb;
  0xfc; 0x0; 0x0; 0xbf; 0xdf; 0xf0; 0x0; 0x2;
  0xff; 0x0; 0x0; 0x2f; 0xf7; 0xfc; 0x0; 0x0;
  0xbf; 0xc0; 0x0; 0xb; 0xfd; 0xff; 0x0; 0x0;
  0x2f; 0xf0; 0x0; 0x2; 0xff; 0x7f; 0xc0; 0x0;
  0xb; 0xfc; 0x0; 0x0; 0xbf; 0xdf; 0xf0; 0x0;
  0x2; 0xff; 0x0; 0x0; 0x2f; 0xf7; 0xfc; 0x0;
  0x0; 0xbf; 0xc0; 0x0; 0xb; 0xfd; 0xff; 0x0;
  0x0; 0x2f; 0xf0; 0x0; 0x2; 0xff; 0x7f; 0xc0;
  0x0; 0xb; 0xfc; 0x0; 0x0; 0xbf; 0xdf; 0xf0;
  0x0; 0x2; 0xff; 0x0; 0x0; 0x2f; 0xf0;
  0x7f; 0x0; 0x6f; 0xf9; 0x0; 0x7f; 0x43; 0xff;
  0xff; 0xc0; 0x7f; 0x4f; 0xff; 0xff; 0xf0; 0x7f;
  0xaf; 0xff; 0xff; 0xf8; 0x7f; 0xff; 0x0; 0x2f;
  0xfc; 0x7f; 0xf8; 0x0; 0xb; 0xfd; 0x7f; 0xf0;
  0x0; 0x3; 0xfe; 0x7f; 0xe0; 0x0; 0x3; 0xfe;
  0x7f; 0xd0; 0x0; 0x3; 0xfe; 0x7f; 0xd0; 0x0;
  0x3; 0xfe; 0x7f; 0xc0; 0x0; 0x3; 0xfe; 0x7f;
  0xc0; 0x0; 0x3; 0xfe; 0x7f; 0xc0; 0x0; 0x3;
  0xfe; 0x7f; 0xc0; 0x0; 0x3; 0xfe; 0x7f; 0xc0;
  0x0; 0x3; 0xfe; 0x7f; 0xc0; 0x0; 0x3; 0xfe;
  0x7f; 0xc0; 0x0; 0x3; 0xfe; 0x7f; 0xc0; 0x0;
  0x3; 0xfe; 0x7f; 0xc0; 0x0; 0x3; 0xfe; 0x7f;
  0xc0; 0x0; 0x3; 0xfe; 0x7f; 0xc0; 0x0; 0x3;
  0xfe; 0x7f; 0xc0; 0x0; 0x3; 0xfe; 0x7f; 0xc0;
  0x0; 0x3; 0xfe; 0x7f; 0xc0; 0x0; 0x3; 0xfe;
  0x7f; 0xc0; 0x0; 0x3; 0xfe; 0x7f; 0xc0; 0x0;
  0x3; 0xfe;
  0x0; 0x2; 0xff; 0xe4; 0x0; 0x0; 0x3; 0xff;
  0xff; 0xf4; 0x0; 0x0; 0xff; 0xff; 0xff; 0xe0;
  0x0; 0x3f; 0xff; 0xff; 0xff; 0x40; 0xf; 0xfe;
  0x0; 0x1f; 0xfc; 0x1; 0xff; 0x80; 0x0; 0x7f;
  0xe0; 0x2f; 0xf0; 0x0; 0x2; 0xff; 0x3; 0xfe;
  0x0; 0x0; 0xf; 0xf4; 0x7f; 0xd0; 0x0; 0x0;
  0xff; 0x87; 0xfc; 0x0; 0x0; 0xb; 0xfc; 0xbf;
  0xc0; 0x0; 0x0; 0xbf; 0xcb; 0xfc; 0x0; 0x0;
  0x7; 0xfc; 0xbf; 0xc0; 0x0; 0x0; 0x7f; 0xcb;
  0xfc; 0x0; 0x0; 0x7; 0xfc; 0xbf; 0xc0; 0x0;
  0x0; 0x7f; 0xcb; 0xfc; 0x0; 0x0; 0xb; 0xfc;
  0x7f; 0xc0; 0x0; 0x0; 0xbf; 0xc7; 0xfd; 0x0;
  0x0; 0xf; 0xf8; 0x3f; 0xe0; 0x0; 0x0; 0xff;
  0x42; 0xff; 0x0; 0x0; 0x2f; 0xf0; 0xf; 0xf8;
  0x0; 0x7; 0xfe; 0x0; 0xbf; 0xe0; 0x1; 0xff;
  0xc0; 0x3; 0xff; 0xfb; 0xff; 0xf4; 0x0; 0xf;
  0xff; 0xff; 0xfe; 0x0; 0x0; 0x2f; 0xff; 0xff;
  0x40; 0x0; 0x0; 0x2f; 0xfe; 0x40; 0x0;
  0x7f; 0x0; 0x6f; 0xf8; 0x0; 0x1f; 0xd0; 0xbf;
  0xff; 0xe0; 0x7; 0xf8; 0xff; 0xff; 0xff; 0x1;
  0xfe; 0xbf; 0xff; 0xff; 0xe0; 0x7f; 0xfe; 0x0;
  0x2f; 0xfc; 0x1f; 0xfe; 0x0; 0x2; 0xff; 0x87;
  0xff; 0x0; 0x0; 0x3f; 0xf1; 0xff; 0x80; 0x0;
  0xb; 0xfd; 0x7f; 0xd0; 0x0; 0x0; 0xff; 0x5f;
  0xf0; 0x0; 0x0; 0x3f; 0xe7; 0xfc; 0x0; 0x0;
  0xf; 0xf9; 0xff; 0x0; 0x0; 0x3; 0xff; 0x7f;
  0xc0; 0x0; 0x0; 0xff; 0xdf; 0xf0; 0x0; 0x0;
  0x3f; 0xf7; 0xfc; 0x0; 0x0; 0xf; 0xfd; 0xff;
  0x0; 0x0; 0x3; 0xfe; 0x7f; 0xc0; 0x0; 0x0;
  0xff; 0x9f; 0xf4; 0x0; 0x0; 0x7f; 0xd7; 0xfe;
  0x0; 0x0; 0x2f; 0xf1; 0xff; 0xc0; 0x0; 0xf;
  0xfc; 0x7f; 0xfc; 0x0; 0xb; 0xfe; 0x1f; 0xff;
  0xc0; 0xb; 0xff; 0x7; 0xfe; 0xff; 0xff; 0xff;
  0x41; 0xff; 0x3f; 0xff; 0xff; 0x80; 0x7f; 0xc3;
  0xff; 0xff; 0x80; 0x1f; 0xf0; 0x1b; 0xfe; 0x0;
  0x7; 0xfc; 0x0; 0x0; 0x0; 0x1; 0xff; 0x0;
  0x0; 0x0; 0x0; 0x7f; 0xc0; 0x0; 0x0; 0x0;
  0x1f; 0xf0; 0x0; 0x0; 0x0; 0x7; 0xfc; 0x0;
  0x0; 0x0; 0x1; 0xff; 0x0; 0x0; 0x0; 0x0;
  0x7f; 0xc0; 0x0; 0x0; 0x0; 0x1f; 0xf0; 0x0;
  0x0; 0x0; 0x7; 0xfc; 0x0; 0x0; 0x0; 0x1;
  0xff; 0x0; 0x0; 0x0; 0x0; 0x7f; 0xc0; 0x0;
  0x0; 0x0; 0x0;
  0x0; 0xb; 0xfe; 0x40; 0x7f; 0x80; 0x1f; 0xff;
  0xfc; 0x1f; 0xe0; 0x2f; 0xff; 0xff; 0xcb; 0xf8;
  0x1f; 0xff; 0xff; 0xfe; 0xfe; 0xf; 0xfe; 0x0;
  0x2f; 0xff; 0x87; 0xfe; 0x0; 0x2; 0xff; 0xe3;
  0xff; 0x0; 0x0; 0x3f; 0xf8; 0xff; 0x80; 0x0;
  0xb; 0xfe; 0x7f; 0xd0; 0x0; 0x1; 0xff; 0xaf;
  0xf0; 0x0; 0x0; 0x3f; 0xeb; 0xfc; 0x0; 0x0;
  0xf; 0xfa; 0xff; 0x0; 0x0; 0x3; 0xfe; 0xbf;
  0xc0; 0x0; 0x0; 0xff; 0xaf; 0xf0; 0x0; 0x0;
  0x3f; 0xeb; 0xfc; 0x0; 0x0; 0xf; 0xfa; 0xff;
  0x0; 0x0; 0x3; 0xfe; 0xbf; 0xc0; 0x0; 0x0;
  0xff; 0x9f; 0xf4; 0x0; 0x0; 0x3f; 0xe3; 0xfe;
  0x0; 0x0; 0x2f; 0xf8; 0xff; 0xc0; 0x0; 0xf;
  0xfe; 0x2f; 0xf8; 0x0; 0xb; 0xff; 0x83; 0xff;
  0x80; 0xb; 0xff; 0xe0; 0xbf; 0xff; 0xff; 0xef;
  0xf8; 0xb; 0xff; 0xff; 0xf3; 0xfe; 0x0; 0xbf;
  0xff; 0xf0; 0xff; 0x80; 0x2; 0xff; 0x90; 0x3f;
  0xe0; 0x0; 0x0; 0x0; 0xf; 0xf8; 0x0; 0x0;
  0x0; 0x3; 0xfe; 0x0; 0x0; 0x0; 0x0; 0xff;
  0x80; 0x0; 0x0; 0x0; 0x3f; 0xe0; 0x0; 0x0;
  0x0; 0xf; 0xf8; 0x0; 0x0; 0x0; 0x3; 0xfe;
  0x0; 0x0; 0x0; 0x0; 0xff; 0x80; 0x0; 0x0;
  0x0; 0x3f; 0xe0; 0x0; 0x0; 0x0; 0xf; 0xf8;
  0x0; 0x0; 0x0; 0x3; 0xfe; 0x0; 0x0; 0x0 ].

Definition open_sans_bitmap_12 : list Z :=
  [ 0x0; 0xff; 0x80;
  0x7f; 0x0; 0x2f; 0xf7; 0xf4; 0x2f; 0xff; 0x7f;
  0x4b; 0xff; 0xe7; 0xf9; 0xff; 0xfe; 0x7f; 0xbf;
  0xe5; 0x57; 0xff; 0xf0; 0x0; 0x7f; 0xfc; 0x0;
  0x7; 0xff; 0x0; 0x0; 0x7f; 0xe0; 0x0; 0x7;
  0xfd; 0x0; 0x0; 0x7f; 0xc0; 0x0; 0x7; 0xfc;
  0x0; 0x0; 0x7f; 0xc0; 0x0; 0x7; 0xfc; 0x0;
  0x0; 0x7f; 0xc0; 0x0; 0x7; 0xfc; 0x0; 0x0;
  0x7f; 0xc0; 0x0; 0x7; 0xfc; 0x0; 0x0; 0x7f;
  0xc0; 0x0; 0x7; 0xfc; 0x0; 0x0; 0x7f; 0xc0;
  0x0; 0x7; 0xfc; 0x0; 0x0; 0x7f; 0xc0; 0x0;
  0x7; 0xfc; 0x0; 0x0; 0x7f; 0xc0; 0x0; 0x7;
  0xfc; 0x0; 0x0;
  0x0; 0x1b; 0xff; 0x90; 0x0; 0x1f; 0xff; 0xff;
  0xf4; 0x7; 0xff; 0xff; 0xff; 0x40; 0xff; 0xfa;
  0xbf; 0xf0; 0x2f; 0xf4; 0x0; 0x1e; 0x3; 0xfe;
  0x0; 0x0; 0x0; 0x3f; 0xd0; 0x0; 0x0; 0x3;
  0xfd; 0x0; 0x0; 0x0; 0x3f; 0xf0; 0x0; 0x0;
  0x1; 0xff; 0xd0; 0x0; 0x0; 0xf; 0xff; 0xd0;
  0x0; 0x0; 0x3f; 0xff; 0xd0; 0x0; 0x0; 0xbf;
  0xff; 0xd0; 0x0; 0x0; 0xbf; 0xff; 0x80; 0x0;
  0x0; 0xbf; 0xfe; 0x0; 0x0; 0x0; 0xbf; 0xf4;
  0x0; 0x0; 0x1; 0xff; 0xc0; 0x0; 0x0; 0xb;
  0xfc; 0x0; 0x0; 0x0; 0x7f; 0xc0; 0x0; 0x0;
  0x7; 0xfc; 0x10; 0x0; 0x0; 0xbf; 0xc3; 0xe0;
  0x0; 0x2f; 0xf8; 0x3f; 0xfe; 0xbf; 0xff; 0x3;
  0xff; 0xff; 0xff; 0xd0; 0x2f; 0xff; 0xff; 0xf4;
  0x0; 0x1b; 0xff; 0xe4; 0x0;
  0x0; 0x1a; 0x0; 0x0; 0x0; 0xfd; 0x0; 0x0;
  0x3; 0xf4; 0x0; 0x0; 0x1f; 0xd0; 0x0; 0x0;
  0xbf; 0x40; 0x0; 0x3; 0xfd; 0x0; 0x0; 0x7f;
  0xff; 0xff; 0x4f; 0xff; 0xff; 0xfd; 0x3f; 0xff;
  0xff; 0xf4; 0xab; 0xfe; 0xaa; 0x80; 0xf; 0xf4;
  0x0; 0x0; 0x3f; 0xd0; 0x0; 0x0; 0xff; 0x40;
  0x0; 0x3; 0xfd; 0x0; 0x0; 0xf; 0xf4; 0x0;
  0x0; 0x3f; 0xd0; 0x0; 0x0; 0xff; 0x40; 0x0;
  0x3; 0xfd; 0x0; 0x0; 0xf; 0xf4; 0x0; 0x0;
  0x3f; 0xd0; 0x0; 0x0; 0xff; 0x40; 0x0; 0x3;
  0xfd; 0x0; 0x0; 0xf; 0xf4; 0x0; 0x0; 0x3f;
  0xd0; 0x0; 0x0; 0xff; 0x40; 0x0; 0x3; 0xfd;
  0x0; 0x0; 0xf; 0xf8; 0x0; 0x0; 0x3f; 0xf4;
  0x0; 0x0; 0xbf; 0xff; 0xf8; 0x0; 0xff; 0xff;
  0xe0; 0x1; 0xff; 0xff; 0x80; 0x0; 0xbf; 0xf8;
  0xbf; 0xc0; 0x0; 0x3; 0xfe; 0xbf; 0xc0; 0x0;
  0x3; 0xfe; 0xbf; 0xc0; 0x0; 0x3; 0xfe; 0xbf;
  0xc0; 0x0; 0x3; 0xfe; 0xbf; 0xc0; 0x0; 0x3;
  0xfe; 0xbf; 0xc0; 0x0; 0x3; 0xfe; 0xbf; 0xc0;
  0x0; 0x3; 0xfe; 0xbf; 0xc0; 0x0; 0x3; 0xfe;
  0xbf; 0xc0; 0x0; 0x3; 0xfe; 0xbf; 0xc0; 0x0;
  0x3; 0xfe; 0xbf; 0xc0; 0x0; 0x3; 0xfe; 0xbf;
  0xc0; 0x0; 0x3; 0xfe; 0xbf; 0xc0; 0x0; 0x3;
  0xfe; 0xbf; 0xc0; 0x0; 0x3; 0xfe; 0xbf; 0xc0;
  0x0; 0x3; 0xfe; 0xbf; 0xc0; 0x0; 0x3; 0xfe;
  0xbf; 0xc0; 0x0; 0x3; 0xfe; 0xbf; 0xc0; 0x0;
  0x7; 0xfe; 0xbf; 0xc0; 0x0; 0xb; 0xfe; 0x7f;
  0xd0; 0x0; 0xf; 0xfe; 0x3f; 0xf0; 0x0; 0x2f;
  0xfe; 0x3f; 0xf8; 0x0; 0xbf; 0xfe; 0x1f; 0xff;
  0xff; 0xfe; 0xfe; 0xf; 0xff; 0xff; 0xf1; 0xfe;
  0x2; 0xff; 0xff; 0xc0; 0xfe; 0x0; 0x6f; 0xf9;
  0x0; 0xfe;
  0xbf; 0xc0; 0x0; 0x0; 0x7f; 0xd7; 0xfc; 0x0;
  0x0; 0xb; 0xfc; 0x3f; 0xe0; 0x0; 0x0; 0xff;
  0x83; 0xff; 0x0; 0x0; 0xf; 0xf4; 0x1f; 0xf0;
  0x0; 0x1; 0xff; 0x0; 0xff; 0x40; 0x0; 0x3f;
  0xf0; 0xf; 0xf8; 0x0; 0x3; 0xfd; 0x0; 0xbf;
  0xc0; 0x0; 0x7f; 0xc0; 0x3; 0xfc; 0x0; 0xb;
  0xfc; 0x0; 0x3f; 0xe0; 0x0; 0xff; 0x40; 0x2;
  0xff; 0x0; 0xf; 0xf0; 0x0; 0x1f; 0xf0; 0x2;
  0xff; 0x0; 0x0; 0xff; 0x40; 0x3f; 0xe0; 0x0;
  0xb; 0xf8; 0x3; 0xfc; 0x0; 0x0; 0x7f; 0xc0;
  0x7f; 0xc0; 0x0; 0x3; 0xfd; 0xb; 0xf8; 0x0;
  0x0; 0x2f; 0xe0; 0xff; 0x40; 0x0; 0x1; 0xff;
  0xf; 0xf0; 0x0; 0x0; 0xf; 0xf2; 0xfe; 0x0;
  0x0; 0x0; 0xff; 0x7f; 0xd0; 0x0; 0x0; 0x7;
  0xfb; 0xfc; 0x0; 0x0; 0x0; 0x3f; 0xff; 0x80;
  0x0; 0x0; 0x3; 0xff; 0xf4; 0x0; 0x0; 0x0;
  0x1f; 0xff; 0x0; 0x0; 0x0; 0x0; 0xff; 0xe0;
  0x0; 0x0; 0x0; 0xf; 0xfd; 0x0; 0x0;
  0x7f; 0xc0; 0x0; 0xb; 0xfe; 0x0; 0x0; 0x3f;
  0xd3; 0xfd; 0x0; 0x0; 0xff; 0xf0; 0x0; 0x7;
  0xfc; 0x3f; 0xe0; 0x0; 0xf; 0xff; 0x0; 0x0;
  0xbf; 0xc2; 0xff; 0x0; 0x1; 0xff; 0xf4; 0x0;
  0xf; 0xf8; 0x1f; 0xf0; 0x0; 0x2f; 0xff; 0x80;
  0x0; 0xff; 0x40; 0xff; 0x40; 0x3; 0xfb; 0xfc;
  0x0; 0x1f; 0xf0; 0xf; 0xf8; 0x0; 0x3f; 0xaf;
  0xc0; 0x2; 0xff; 0x0; 0xbf; 0x80; 0x7; 0xf5;
  0xfd; 0x0; 0x2f; 0xe0; 0x7; 0xfc; 0x0; 0xbf;
  0xf; 0xe0; 0x3; 0xfd; 0x0; 0x3f; 0xc0; 0xf;
  0xf0; 0xff; 0x0; 0x3f; 0xc0; 0x3; 0xfd; 0x0;
  0xfe; 0xf; 0xf0; 0x7; 0xfc; 0x0; 0x2f; 0xe0;
  0x1f; 0xd0; 0xbf; 0x40; 0xbf; 0x80; 0x1; 0xff;
  0x2; 0xfc; 0x7; 0xf8; 0xf; 0xf4; 0x0; 0xf;
  0xf0; 0x3f; 0xc0; 0x3f; 0xc0; 0xff; 0x0; 0x0;
  0xff; 0x43; 0xf8; 0x3; 0xfc; 0x1f; 0xf0; 0x0;
  0xb; 0xf8; 0x7f; 0x40; 0x2f; 0xd2; 0xfe; 0x0;
  0x0; 0xbf; 0x8b; 0xf0; 0x1; 0xfe; 0x3f; 0xd0;
  0x0; 0x7; 0xfc; 0xff; 0x0; 0xf; 0xe3; 0xfc;
  0x0; 0x0; 0x3f; 0xcf; 0xe0; 0x0; 0xff; 0x3f;
  0xc0; 0x0; 0x3; 0xfd; 0xfd; 0x0; 0xb; 0xf7;
  0xf8; 0x0; 0x0; 0x2f; 0xef; 0xc0; 0x0; 0x7f;
  0xbf; 0x40; 0x0; 0x1; 0xff; 0xfc; 0x0; 0x3;
  0xff; 0xf0; 0x0; 0x0; 0xf; 0xff; 0x80; 0x0;
  0x3f; 0xff; 0x0; 0x0; 0x0; 0xff; 0xf4; 0x0;
  0x2; 0xff; 0xe0; 0x0; 0x0; 0xb; 0xff; 0x0;
  0x0; 0x1f; 0xfd; 0x0; 0x0; 0x0; 0x7f; 0xf0;
  0x0; 0x0; 0xff; 0xc0; 0x0;
  0x2f; 0xf4; 0x0; 0x0; 0xff; 0xc0; 0xff; 0xc0;
  0x0; 0x2f; 0xf0; 0x7; 0xfd; 0x0; 0x3; 0xfe;
  0x0; 0x3f; 0xf0; 0x0; 0xbf; 0xc0; 0x1; 0xff;
  0x40; 0x1f; 0xf8; 0x0; 0xf; 0xfc; 0x3; 0xff;
  0x0; 0x0; 0x3f; 0xe0; 0x7f; 0xd0; 0x0; 0x2;
  0xff; 0xf; 0xfc; 0x0; 0x0; 0xf; 0xf9; 0xff;
  0x0; 0x0; 0x0; 0x7f; 0xff; 0xe0; 0x0; 0x0;
  0x3; 0xff; 0xfc; 0x0; 0x0; 0x0; 0x1f; 0xff;
  0x80; 0x0; 0x0; 0x0; 0xff; 0xf0; 0x0; 0x0;
  0x0; 0xf; 0xff; 0x0; 0x0; 0x0; 0x2; 0xff;
  0xfc; 0x0; 0x0; 0x0; 0x7f; 0xff; 0xd0; 0x0;
  0x0; 0xf; 0xfe; 0xff; 0x0; 0x0; 0x1; 0xff;
  0xf; 0xf8; 0x0; 0x0; 0x3f; 0xe0; 0xbf; 0xc0;
  0x0; 0xb; 0xfc; 0x3; 0xfe; 0x0; 0x0; 0xff;
  0x80; 0x2f; 0xf4; 0x0; 0x2f; 0xf0; 0x0; 0xff;
  0xc0; 0x7; 0xfe; 0x0; 0x7; 0xfd; 0x0; 0xff;
  0xc0; 0x0; 0x3f; 0xf0; 0x1f; 0xf4; 0x0; 0x1;
  0xff; 0x83; 0xff; 0x0; 0x0; 0xf; 0xfc;
  0xbf; 0xc0; 0x0; 0x0; 0x7f; 0xd7; 0xfd; 0x0;
  0x0; 0xb; 0xfc; 0x3f; 0xe0; 0x0; 0x0; 0xff;
  0xc2; 0xff; 0x0; 0x0; 0xf; 0xf4; 0x1f; 0xf4;
  0x0; 0x2; 0xff; 0x0; 0xff; 0x80; 0x0; 0x3f;
  0xf0; 0xb; 0xfc; 0x0; 0x3; 0xfd; 0x0; 0x7f;
  0xc0; 0x0; 0x7f; 0xc0; 0x3; 0xfe; 0x0; 0xb;
  0xfc; 0x0; 0x2f; 0xf0; 0x0; 0xff; 0x80; 0x1;
  0xff; 0x0; 0x1f; 0xf0; 0x0; 0xf; 0xf4; 0x2;
  0xff; 0x0; 0x0; 0xbf; 0xc0; 0x3f; 0xe0; 0x0;
  0x7; 0xfc; 0x3; 0xfc; 0x0; 0x0; 0x3f; 0xd0 ].

Definition open_sans_bitmap_13 : list Z :=
  [ 0x7f; 0xc0; 0x0; 0x2; 0xfe; 0xf; 0xf8; 0x0;
  0x0; 0x1f; 0xf0; 0xff; 0x0; 0x0; 0x0; 0xff;
  0x1f; 0xf0; 0x0; 0x0; 0xb; 0xf6; 0xfe; 0x0;
  0x0; 0x0; 0x7f; 0xbf; 0xd0; 0x0; 0x0; 0x3;
  0xff; 0xfc; 0x0; 0x0; 0x0; 0x2f; 0xff; 0x80;
  0x0; 0x0; 0x0; 0xff; 0xf4; 0x0; 0x0; 0x0;
  0xf; 0xff; 0x0; 0x0; 0x0; 0x0; 0xbf; 0xe0;
  0x0; 0x0; 0x0; 0x7; 0xfd; 0x0; 0x0; 0x0;
  0x0; 0xbf; 0xc0; 0x0; 0x0; 0x0; 0xf; 0xf8;
  0x0; 0x0; 0x0; 0x0; 0xff; 0x40; 0x0; 0x0;
  0x0; 0x2f; 0xf0; 0x0; 0x0; 0x0; 0x3; 0xfe;
  0x0; 0x0; 0x0; 0x0; 0xbf; 0xd0; 0x0; 0x0;
  0x0; 0x2f; 0xfc; 0x0; 0x0; 0x3; 0xff; 0xff;
  0x0; 0x0; 0x0; 0x3f; 0xff; 0xd0; 0x0; 0x0;
  0x3; 0xff; 0xf4; 0x0; 0x0; 0x0; 0x3f; 0xf8;
  0x0; 0x0; 0x0; 0x0;
  0x3f; 0xff; 0xff; 0xff; 0xf; 0xff; 0xff; 0xff;
  0xc3; 0xff; 0xff; 0xff; 0xf0; 0xaa; 0xaa; 0xaf;
  0xfc; 0x0; 0x0; 0x7; 0xfd; 0x0; 0x0; 0x3;
  0xff; 0x0; 0x0; 0x1; 0xff; 0x40; 0x0; 0x0;
  0xff; 0xc0; 0x0; 0x0; 0xbf; 0xc0; 0x0; 0x0;
  0x3f; 0xe0; 0x0; 0x0; 0x2f; 0xf0; 0x0; 0x0;
  0xf; 0xf8; 0x0; 0x0; 0xb; 0xfc; 0x0; 0x0;
  0x7; 0xfe; 0x0; 0x0; 0x3; 0xff; 0x0; 0x0;
  0x1; 0xff; 0x40; 0x0; 0x0; 0xff; 0xc0; 0x0;
  0x0; 0x7f; 0xd0; 0x0; 0x0; 0x3f; 0xf0; 0x0;
  0x0; 0x2f; 0xf0; 0x0; 0x0; 0xf; 0xf8; 0x0;
  0x0; 0xb; 0xfc; 0x0; 0x0; 0x3; 0xff; 0xaa;
  0xaa; 0xa6; 0xff; 0xff; 0xff; 0xfe; 0xbf; 0xff;
  0xff; 0xff; 0xaf; 0xff; 0xff; 0xff; 0xe0;
  0x0; 0x0; 0x6; 0xfc; 0x0; 0x0; 0x7f; 0xfc;
  0x0; 0x2; 0xff; 0xfc; 0x0; 0x7; 0xff; 0xe8;
  0x0; 0xb; 0xfd; 0x0; 0x0; 0xf; 0xf8; 0x0;
  0x0; 0xf; 0xf0; 0x0; 0x0; 0xf; 0xf0; 0x0;
  0x0; 0xf; 0xf0; 0x0; 0x0; 0xf; 0xf0; 0x0;
  0x0; 0xf; 0xf0; 0x0; 0x0; 0xf; 0xf0; 0x0;
  0x0; 0xf; 0xf0; 0x0; 0x0; 0xf; 0xf0; 0x0;
  0x0; 0xf; 0xf0; 0x0; 0x0; 0xf; 0xf0; 0x0;
  0x0; 0x1f; 0xf0; 0x0; 0x0; 0x3f; 0xe0; 0x0;
  0x1; 0xff; 0xc0; 0x0; 0xbf; 0xff; 0x40; 0x0;
  0xbf; 0xf4; 0x0; 0x0; 0xbf; 0xfd; 0x0; 0x0;
  0x6b; 0xff; 0x80; 0x0; 0x0; 0xbf; 0xd0; 0x0;
  0x0; 0x2f; 0xf0; 0x0; 0x0; 0x1f; 0xf0; 0x0;
  0x0; 0xf; 0xf0; 0x0; 0x0; 0xf; 0xf0; 0x0;
  0x0; 0xf; 0xf0; 0x0; 0x0; 0xf; 0xf0; 0x0;
  0x0; 0xf; 0xf0; 0x0; 0x0; 0xf; 0xf0; 0x0;
  0x0; 0xf; 0xf0; 0x0; 0x0; 0xf; 0xf0; 0x0;
  0x0; 0xf; 0xf0; 0x0; 0x0; 0xf; 0xf4; 0x0;
  0x0; 0xf; 0xfc; 0x0; 0x0; 0xb; 0xff; 0x40;
  0x0; 0x3; 0xff; 0xfc; 0x0; 0x1; 0xff; 0xfc;
  0x0; 0x0; 0x2f; 0xfc; 0x0; 0x0; 0x0; 0x58;
  0x2a; 0x1f; 0xd7; 0xf5; 0xfd; 0x7f; 0x5f; 0xd7;
  0xf5; 0xfd; 0x7f; 0x5f; 0xd7; 0xf5; 0xfd; 0x7f;
  0x5f; 0xd7; 0xf5; 0xfd; 0x7f; 0x5f; 0xd7; 0xf5;
  0xfd; 0x7f; 0x5f; 0xd7; 0xf5; 0xfd; 0x7f; 0x5f;
  0xd7; 0xf5; 0xfd; 0x7f; 0x5f; 0xd7; 0xf5; 0xfd;
  0x7f; 0x5f; 0xd7; 0xf5; 0xfd; 0x7f; 0x5f; 0xd7;
  0xf5; 0xfd; 0x7f; 0x5f; 0xd7; 0xf5; 0xfd; 0x7f;
  0x5f; 0xd7; 0xf5; 0xfd;
  0x3f; 0x90; 0x0; 0x0; 0x3f; 0xfd; 0x0; 0x0;
  0x3f; 0xff; 0x40; 0x0; 0x2b; 0xff; 0xc0; 0x0;
  0x0; 0xbf; 0xe0; 0x0; 0x0; 0x3f; 0xf0; 0x0;
  0x0; 0x1f; 0xf0; 0x0; 0x0; 0x1f; 0xf0; 0x0;
  0x0; 0x1f; 0xf0; 0x0; 0x0; 0x1f; 0xf0; 0x0;
  0x0; 0x1f; 0xf0; 0x0; 0x0; 0x1f; 0xf0; 0x0;
  0x0; 0x1f; 0xf0; 0x0; 0x0; 0x1f; 0xf0; 0x0;
  0x0; 0x1f; 0xf0; 0x0; 0x0; 0x1f; 0xf0; 0x0;
  0x0; 0xf; 0xf4; 0x0; 0x0; 0xf; 0xfc; 0x0;
  0x0; 0x7; 0xff; 0x40; 0x0; 0x1; 0xff; 0xfd;
  0x0; 0x0; 0x1f; 0xfd; 0x0; 0x0; 0xbf; 0xfd;
  0x0; 0x3; 0xff; 0xe8; 0x0; 0xb; 0xfd; 0x0;
  0x0; 0xf; 0xf8; 0x0; 0x0; 0x1f; 0xf0; 0x0;
  0x0; 0x1f; 0xf0; 0x0; 0x0; 0x1f; 0xf0; 0x0;
  0x0; 0x1f; 0xf0; 0x0; 0x0; 0x1f; 0xf0; 0x0;
  0x0; 0x1f; 0xf0; 0x0; 0x0; 0x1f; 0xf0; 0x0;
  0x0; 0x1f; 0xf0; 0x0; 0x0; 0x1f; 0xf0; 0x0;
  0x0; 0x1f; 0xf0; 0x0; 0x0; 0x2f; 0xf0; 0x0;
  0x0; 0x3f; 0xe0; 0x0; 0x1; 0xff; 0xd0; 0x0;
  0x3f; 0xff; 0xc0; 0x0; 0x3f; 0xff; 0x0; 0x0;
  0x3f; 0xf8; 0x0; 0x0; 0x29; 0x0; 0x0; 0x0;
  0x0; 0x69; 0x40; 0x0; 0x0; 0x0; 0x7f; 0xff;
  0x80; 0x0; 0x9; 0x2f; 0xff; 0xff; 0x80; 0x3;
  0xd3; 0xff; 0xff; 0xff; 0xeb; 0xfd; 0x3e; 0x40;
  0xbf; 0xff; 0xff; 0xc3; 0x40; 0x0; 0x7f; 0xff;
  0xf4; 0x10; 0x0; 0x0; 0x6f; 0xf8; 0x0; 0x0;
  0x0; 0x0; 0x0; 0x0 ].

Definition open_sans_glyph_bitmap : list Z :=
  open_sans_bitmap_0 ++ open_sans_bitmap_1 ++ open_sans_bitmap_2 ++ open_sans_bitmap_3 ++
  open_sans_bitmap_4 ++ open_sans_bitmap_5 ++ open_sans_bitmap_6 ++ open_sans_bitmap_7 ++
  open_sans_bitmap_8 ++ open_sans_bitmap_9 ++ open_sans_bitmap_10 ++ open_sans_bitmap_11 ++
  open_sans_bitmap_12 ++ open_sans_bitmap_13.

(** The glyphs: the bitmap cut at the comments of the source, with the code point of each
    comment and the bytes up to the next. *)
Definition open_sans_table : list (Z * list Z) := cut_glyphs
  [ (0x20, 0);
  (0x21, 51);
  (0x22, 49);
  (0x23, 213);
  (0x24, 195);
  (0x25, 289);
  (0x26, 254);
  (0x27, 20);
  (0x28, 126);
  (0x29, 126);
  (0x2a, 100);
  (0x2b, 127);
  (0x2c, 24);
  (0x2d, 15);
  (0x2e, 11);
  (0x2f, 153);
  (0x30, 184);
  (0x31, 119);
  (0x32, 184);
  (0x33, 184);
  (0x34, 204);
  (0x35, 170);
  (0x36, 184);
  (0x37, 187);
  (0x38, 193);
  (0x39, 184);
  (0x3a, 39);
  (0x3b, 64);
  (0x3c, 132);
  (0x3d, 74);
  (0x3e, 132);
  (0x3f, 158);
  (0x40, 332);
  (0x41, 230);
  (0x42, 187);
  (0x43, 202);
  (0x44, 204);
  (0x45, 145);
  (0x46, 145);
  (0x47, 228);
  (0x48, 196);
  (0x49, 43);
  (0x4a, 140);
  (0x4b, 196);
  (0x4c, 145);
  (0x4d, 272);
  (0x4e, 213);
  (0x4f, 245);
  (0x50, 170);
  (0x51, 301);
  (0x52, 187);
  (0x53, 175);
  (0x54, 196);
  (0x55, 204);
  (0x56, 221);
  (0x57, 340);
  (0x58, 213);
  (0x59, 204);
  (0x5a, 179);
  (0x5b, 126);
  (0x5c, 153);
  (0x5d, 116);
  (0x5e, 115);
  (0x5f, 23);
  (0x60, 22);
  (0x61, 130);
  (0x62, 189);
  (0x63, 117);
  (0x64, 189);
  (0x65, 130);
  (0x66, 153);
  (0x67, 213);
  (0x68, 180);
  (0x69, 54);
  (0x6a, 130);
  (0x6b, 180);
  (0x6c, 54);
  (0x6d, 215);
  (0x6e, 130);
  (0x6f, 143);
  (0x70, 195);
  (0x71, 195);
  (0x72, 91);
  (0x73, 117);
  (0x74, 120);
  (0x75, 130);
  (0x76, 143);
  (0x77, 221);
  (0x78, 143);
  (0x79, 204);
  (0x7a, 111);
  (0x7b, 168);
  (0x7c, 60);
  (0x7d, 168);
  (0x7e, 44) ] open_sans_glyph_bitmap.

(** Glyph 0 is reserved. *)
Definition open_sans_glyph_dsc : list glyph_dsc_t :=
  [ glyph 0 0 0 0 0 0;
  glyph 0 170 0 0 0 0;
  glyph 0 195 6 34 3 0;
  glyph 51 309 15 13 2 21;
  glyph 100 429 25 34 1 0;
  glyph 313 387 20 39 2 (-3);
  glyph 508 587 33 35 2 0;
  glyph 797 472 29 35 1 0;
  glyph 1051 170 6 13 2 21;
  glyph 1071 230 12 42 2 (-8);
  glyph 1197 230 12 42 1 (-8);
  glyph 1323 366 21 19 1 17;
  glyph 1423 388 22 23 1 5;
  glyph 1550 190 8 12 1 (-6);
  glyph 1574 231 12 5 1 11;
  glyph 1589 191 6 7 3 0;
  glyph 1600 290 18 34 0 0;
  glyph 1753 387 21 35 2 0;
  glyph 1937 387 14 34 3 0;
  glyph 2056 387 21 35 1 0;
  glyph 2240 387 21 35 1 0;
  glyph 2424 387 24 34 0 0;
  glyph 2628 387 20 34 2 0;
  glyph 2798 387 21 35 2 0;
  glyph 2982 387 22 34 1 0;
  glyph 3169 387 22 35 1 0;
  glyph 3362 387 21 35 1 0;
  glyph 3546 192 6 26 3 0;
  glyph 3585 192 8 32 1 (-6);
  glyph 3649 388 22 24 1 5;
  glyph 3781 388 21 14 2 10;
  glyph 3855 388 22 24 1 5;
  glyph 3987 296 18 35 0 0;
  glyph 4145 600 34 39 2 (-5);
  glyph 4477 426 27 34 0 0;
  glyph 4707 437 22 34 4 0;
  glyph 4894 416 23 35 2 0;
  glyph 5096 481 24 34 4 0;
  glyph 5300 370 17 34 4 0;
  glyph 5445 350 17 34 4 0;
  glyph 5590 490 26 35 2 0;
  glyph 5818 494 23 34 4 0;
  glyph 6014 202 5 34 4 0;
  glyph 6057 198 13 43 (-4) (-9);
  glyph 6197 416 23 34 4 0;
  glyph 6393 350 17 34 4 0;
  glyph 6538 628 32 34 4 0;
  glyph 6810 516 25 34 4 0;
  glyph 7023 515 28 35 2 0;
  glyph 7268 407 20 34 4 0;
  glyph 7438 515 28 43 2 (-8);
  glyph 7739 421 22 34 4 0;
  glyph 7926 371 20 35 2 0;
  glyph 8101 364 23 34 0 0;
  glyph 8297 486 24 34 3 0;
  glyph 8501 408 26 34 0 0;
  glyph 8722 638 40 34 0 0;
  glyph 9062 389 25 34 0 0;
  glyph 9275 377 24 34 0 0;
  glyph 9479 365 21 34 1 0;
  glyph 9658 245 12 42 3 (-8);
  glyph 9784 290 18 34 0 0;
  glyph 9937 245 11 42 1 (-8);
  glyph 10053 394 23 20 1 14;
  glyph 10168 336 23 4 (-1) (-7);
  glyph 10191 220 11 8 1 29;
  glyph 10213 381 20 26 1 0;
  glyph 10343 417 21 36 3 0;
  glyph 10532 324 18 26 2 0;
  glyph 10649 417 21 36 2 0;
  glyph 10838 381 20 26 2 0;
  glyph 10968 234 17 36 0 0;
  glyph 11121 366 23 37 0 (-11);
  glyph 11334 418 20 36 3 0;
  glyph 11514 185 6 36 3 0;
  glyph 11568 185 11 47 (-2) (-11);
  glyph 11698 369 20 36 3 0;
  glyph 11878 185 6 36 3 0;
  glyph 11932 627 33 26 3 0;
  glyph 12147 418 20 26 3 0;
  glyph 12277 407 22 26 2 0;
  glyph 12420 417 21 37 3 (-11);
  glyph 12615 417 21 37 2 (-11);
  glyph 12810 281 14 26 3 0;
  glyph 12901 318 18 26 1 0;
  glyph 13018 248 15 32 0 0;
  glyph 13138 418 20 26 3 0;
  glyph 13268 345 22 26 0 0;
  glyph 13411 542 34 26 0 0;
  glyph 13632 354 22 26 0 0;
  glyph 13775 347 22 37 0 (-11);
  glyph 13979 302 17 26 1 0;
  glyph 14090 285 16 42 1 (-8);
  glyph 14258 367 5 48 9 (-11);
  glyph 14318 285 16 42 1 (-8);
  glyph 14486 388 22 8 1 13 ].

Definition open_sans_cmaps : list cmap_t :=
  [ mkCmap 32 95 1 [] [] 0 CMAP_FORMAT0_TINY ].

Definition open_sans_font_dsc : font_dsc_t :=
  mkFontDsc open_sans_glyph_bitmap open_sans_glyph_dsc open_sans_cmaps None 0 1 2 0 0.

Definition open_sans_48 : font_t :=
  mkFont 48 11 (-2) 1 open_sans_font_dsc.
