(* ===== verification/Quicksand.v ===== *)
(** * Quicksand: the tables of [fonts/quicksand_200.c]

    The font of the six letters of the title at 200 pixels, two bits a pixel.
    The bitmap in pieces of 150 lines of the source, its glyphs, then the table of
    the descriptors, the character map and the font itself. *)

From stdpp Require Import base list numbers option.
From S2P Require Import Prelude FontFormat.

Open Scope Z_scope.

Definition quicksand_bitmap_0 : list Z :=
  [ 0x0; 0x1b; 0xff; 0xff; 0xff; 0xff; 0xff; 0xff;
  0xff; 0xff; 0xff; 0xff; 0xff; 0xff; 0xff; 0xa4;
  0x0; 0x0; 0x0; 0x0; 0x0; 0x0; 0x0; 0x0;
  0x7; 0xff; 0xff; 0xff; 0xff; 0xff; 0xff; 0xff;
  0xff; 0xff; 0xff; 0xff; 0xff; 0xff; 0xff; 0xff;
  0x90; 0x0; 0x0; 0x0; 0x0; 0x0; 0x0; 0x0;
  0x7f; 0xff; 0xff; 0xff; 0xff; 0xff; 0xff; 0xff;
  0xff; 0xff; 0xff; 0xff; 0xff; 0xff; 0xff; 0xff;
  0xfd; 0x0; 0x0; 0x0; 0x0; 0x0; 0x0; 0x3;
  0xff; 0xff; 0xff; 0xff; 0xff; 0xff; 0xff; 0xff;
  0xff; 0xff; 0xff; 0xff; 0xff; 0xff; 0xff; 0xff;
  0xff; 0x80; 0x0; 0x0; 0x0; 0x0; 0x0; 0x2f;
  0xff; 0xff; 0xff; 0xff; 0xff; 0xff; 0xff; 0xff;
  0xff; 0xff; 0xff; 0xff; 0xff; 0xff; 0xff; 0xff;
  0xff; 0xe0; 0x0; 0x0; 0x0; 0x0; 0x0; 0xff;
  0xff; 0xff; 0xff; 0xff; 0xff; 0xff; 0xff; 0xff;
  0xff; 0xff; 0xff; 0xff; 0xff; 0xff; 0xff; 0xff;
  0xff; 0xf4; 0x0; 0x0; 0x0; 0x0; 0x7; 0xff;
  0xff; 0xff; 0xff; 0xff; 0xff; 0xff; 0xff; 0xff;
  0xff; 0xff; 0xff; 0xff; 0xff; 0xff; 0xff; 0xff;
  0xff; 0xf8; 0x0; 0x0; 0x0; 0x0; 0x1f; 0xff;
  0xff; 0xff; 0xff; 0xff; 0xff; 0xff; 0xff; 0xff;
  0xff; 0xff; 0xff; 0xff; 0xff; 0xff; 0xff; 0xff;
  0xff; 0xfd; 0x0; 0x0; 0x0; 0x0; 0x7f; 0xff;
  0xff; 0xff; 0xff; 0xff; 0xff; 0xff; 0xff; 0xff;
  0xff; 0xff; 0xff; 0xff; 0xff; 0xff; 0xff; 0xff;
  0xff; 0xfe; 0x0; 0x0; 0x0; 0x1; 0xff; 0xff;
  0xff; 0xff; 0xff; 0xff; 0xff; 0xff; 0xff; 0xff;
  0xff; 0xff; 0xff; 0xff; 0xff; 0xff; 0xff; 0xff;
  0xff; 0xfe; 0x0; 0x0; 0x0; 0x7; 0xff; 0xff;
  0xff; 0xff; 0xff; 0xff; 0xff; 0xff; 0xff; 0xff;
  0xff; 0xff; 0xff; 0xff; 0xff; 0xff; 0xff; 0xff;
  0xff; 0xfe; 0x0; 0x0; 0x0; 0x1f; 0xff; 0xff;
  0xff; 0xff; 0xff; 0xff; 0xff; 0xff; 0xff; 0xff;
  0xff; 0xff; 0xff; 0xff; 0xff; 0xff; 0xff; 0xff;
  0xff; 0xfe; 0x0; 0x0; 0x0; 0x7f; 0xff; 0xff;
  0xff; 0xff; 0xff; 0xff; 0xff; 0xff; 0xff; 0xff;
  0xff; 0xff; 0xff; 0xff; 0xff; 0xff; 0xff; 0xff;
  0xff; 0xfe; 0x0; 0x0; 0x1; 0xff; 0xff; 0xff;
  0xff; 0xff; 0xff; 0xff; 0xff; 0xff; 0xff; 0xff;
  0xff; 0xff; 0xff; 0xff; 0xff; 0xff; 0xff; 0xff;
  0xff; 0xfe; 0x0; 0x0; 0x7; 0xff; 0xff; 0xff;
  0xff; 0xff; 0xff; 0xff; 0xff; 0xff; 0xff; 0xff;
  0xff; 0xff; 0xff; 0xff; 0xff; 0xff; 0xff; 0xff;
  0xff; 0xfd; 0x0; 0x0; 0x1f; 0xff; 0xff; 0xff;
  0xe5; 0x55; 0x55; 0x55; 0x55; 0x55; 0x55; 0x55;
  0x55; 0x55; 0x5a; 0xff; 0xff; 0xff; 0xff; 0xff;
  0xff; 0xfc; 0x0; 0x0; 0x7f; 0xff; 0xff; 0xff;
  0x0; 0x0; 0x0; 0x0; 0x0; 0x0; 0x0; 0x0;
  0x0; 0x0; 0x0; 0x1b; 0xff; 0xff; 0xff; 0xff;
  0xff; 0xfc; 0x0; 0x1; 0xff; 0xff; 0xff; 0xfc;
  0x0; 0x0; 0x0; 0x0; 0x0; 0x0; 0x0; 0x0;
  0x0; 0x0; 0x0; 0x1; 0xff; 0xff; 0xff; 0xff;
  0xff; 0xf4; 0x0; 0x7; 0xff; 0xff; 0xff; 0xf0;
  0x0; 0x0; 0x0; 0x0; 0x0; 0x0; 0x0; 0x0;
  0x0; 0x0; 0x0; 0x0; 0xbf; 0xff; 0xff; 0xff;
  0xff; 0xf0; 0x0; 0x1f; 0xff; 0xff; 0xff; 0xc0;
  0x0; 0x0; 0x0; 0x0; 0x0; 0x0; 0x0; 0x0;
  0x0; 0x0; 0x0; 0x0; 0x7f; 0xff; 0xff; 0xff;
  0xff; 0xe0; 0x0; 0x7f; 0xff; 0xff; 0xff; 0x0;
  0x0; 0x0; 0x0; 0x0; 0x0; 0x0; 0x0; 0x0;
  0x0; 0x0; 0x0; 0x0; 0x3f; 0xff; 0xff; 0xff;
  0xff; 0xc0; 0x1; 0xff; 0xff; 0xff; 0xfc; 0x0;
  0x0; 0x0; 0x0; 0x0; 0x0; 0x0; 0x0; 0x0;
  0x0; 0x0; 0x0; 0x0; 0x3f; 0xff; 0xff; 0xff;
  0xff; 0x80; 0x7; 0xff; 0xff; 0xff; 0xf0; 0x0;
  0x0; 0x0; 0x0; 0x0; 0x0; 0x0; 0x0; 0x0;
  0x0; 0x0; 0x0; 0x0; 0x3f; 0xff; 0xff; 0xff;
  0xff; 0x0; 0x1f; 0xff; 0xff; 0xff; 0xc0; 0x0;
  0x0; 0x0; 0x0; 0x0; 0x0; 0x0; 0x0; 0x0;
  0x0; 0x0; 0x0; 0x0; 0x3f; 0xff; 0xff; 0xff;
  0xfe; 0x0; 0x7f; 0xff; 0xff; 0xff; 0x0; 0x0;
  0x0; 0x0; 0x0; 0x0; 0x0; 0x0; 0x0; 0x0;
  0x0; 0x0; 0x0; 0x0; 0x7f; 0xff; 0xff; 0xff;
  0xfc; 0x1; 0xff; 0xff; 0xff; 0xfc; 0x0; 0x0;
  0x0; 0x0; 0x0; 0x0; 0x0; 0x0; 0x0; 0x0;
  0x0; 0x0; 0x0; 0x0; 0xbf; 0xff; 0xff; 0xff;
  0xf4; 0x7; 0xff; 0xff; 0xff; 0xf0; 0x0; 0x0;
  0x0; 0x0; 0x0; 0x0; 0x0; 0x0; 0x0; 0x0;
  0x0; 0x0; 0x0; 0x0; 0xff; 0xff; 0xff; 0xff;
  0xf0; 0x1f; 0xff; 0xff; 0xff; 0xc0; 0x0; 0x0;
  0x0; 0x0; 0x0; 0x0; 0x0; 0x0; 0x0; 0x0;
  0x0; 0x0; 0x0; 0x1; 0xff; 0xff; 0xff; 0xff;
  0xc0; 0x7f; 0xff; 0xff; 0xff; 0x0; 0x0; 0x0;
  0x0; 0x0; 0x0; 0x0; 0x0; 0x0; 0x0; 0x0;
  0x0; 0x0; 0x0; 0x3; 0xff; 0xff; 0xff; 0xff;
  0x41; 0xff; 0xff; 0xff; 0xfc; 0x0; 0x0; 0x0;
  0x0; 0x0; 0x0; 0x0; 0x0; 0x0; 0x0; 0x0;
  0x0; 0x0; 0x0; 0x7; 0xff; 0xff; 0xff; 0xfe;
  0x7; 0xff; 0xff; 0xff; 0xf0; 0x0; 0x0; 0x0;
  0x0; 0x0; 0x0; 0x0; 0x0; 0x0; 0x0; 0x0;
  0x0; 0x0; 0x0; 0xf; 0xff; 0xff; 0xff; 0xfc;
  0x1f; 0xff; 0xff; 0xff; 0xc0; 0x0; 0x0; 0x0;
  0x0; 0x0; 0x0; 0x0; 0x0; 0x0; 0x0; 0x0;
  0x0; 0x0; 0x0; 0x2f; 0xff; 0xff; 0xff; 0xf0;
  0x7f; 0xff; 0xff; 0xff; 0x0; 0x0; 0x0; 0x0;
  0x0; 0x0; 0x0; 0x0; 0x0; 0x0; 0x0; 0x0;
  0x0; 0x0; 0x0; 0x7f; 0xff; 0xff; 0xff; 0xd1;
  0xff; 0xff; 0xff; 0xfc; 0x0; 0x0; 0x0; 0x0;
  0x0; 0x0; 0x0; 0x0; 0x0; 0x0; 0x0; 0x0;
  0x0; 0x0; 0x0; 0xff; 0xff; 0xff; 0xff; 0x87;
  0xff; 0xff; 0xff; 0xf0; 0x0; 0x0; 0x0; 0x0;
  0x0; 0x0; 0x0; 0x0; 0x0; 0x0; 0x0; 0x0;
  0x0; 0x0; 0x3; 0xff; 0xff; 0xff; 0xfe; 0x1f;
  0xff; 0xff; 0xff; 0xc0; 0x0; 0x0; 0x0; 0x0;
  0x0; 0x0; 0x0; 0x0; 0x0; 0x0; 0x0; 0x0;
  0x0; 0x0; 0xb; 0xff; 0xff; 0xff; 0xfc; 0x7f;
  0xff; 0xff; 0xff; 0x0; 0x0; 0x0; 0x0; 0x0;
  0x0; 0x0; 0x0; 0x0; 0x0; 0x0; 0x0; 0x0;
  0x0; 0x0; 0x1f; 0xff; 0xff; 0xff; 0xf1; 0xff;
  0xff; 0xff; 0xfc; 0x0; 0x0; 0x0; 0x0; 0x0;
  0x0; 0x0; 0x0; 0x0; 0x0; 0x0; 0x0; 0x0;
  0x0; 0x0; 0x7f; 0xff; 0xff; 0xff; 0xc7; 0xff;
  0xff; 0xff; 0xf0; 0x0; 0x0; 0x0; 0x0; 0x0;
  0x0; 0x0; 0x0; 0x0; 0x0; 0x0; 0x0; 0x0;
  0x0; 0x0; 0xff; 0xff; 0xff; 0xff; 0x1f; 0xff;
  0xff; 0xff; 0xc0; 0x0; 0x0; 0x0; 0x0; 0x0;
  0x0; 0x0; 0x0; 0x0; 0x0; 0x0; 0x0; 0x0;
  0x0; 0x3; 0xff; 0xff; 0xff; 0xfc; 0x7f; 0xff;
  0xff; 0xff; 0x0; 0x0; 0x0; 0x0; 0x0; 0x0;
  0x0; 0x0; 0x0; 0x0; 0x0; 0x0; 0x0; 0x0;
  0x0; 0xf; 0xff; 0xff; 0xff; 0xf1; 0xff; 0xff;
  0xff; 0xfc; 0x0; 0x0; 0x0; 0x0; 0x0; 0x0;
  0x0; 0x0; 0x0; 0x0; 0x0; 0x0; 0x0; 0x0;
  0x0; 0x3f; 0xff; 0xff; 0xff; 0xc7; 0xff; 0xff;
  0xff; 0xf0; 0x0; 0x0; 0x0; 0x0; 0x0; 0x0;
  0x0; 0x0; 0x0; 0x0; 0x0; 0x0; 0x0; 0x0;
  0x0; 0xff; 0xff; 0xff; 0xff; 0x1f; 0xff; 0xff;
  0xff; 0xc0; 0x0; 0x0; 0x0; 0x0; 0x0; 0x0;
  0x0; 0x0; 0x0; 0x0; 0x0; 0x0; 0x0; 0x0;
  0x3; 0xff; 0xff; 0xff; 0xfc; 0x7f; 0xff; 0xff;
  0xff; 0x0; 0x0; 0x0; 0x0; 0x0; 0x0; 0x0;
  0x0; 0x0; 0x0; 0x0; 0x0; 0x0; 0x0; 0x0;
  0xf; 0xff; 0xff; 0xff; 0xf1; 0xff; 0xff; 0xff;
  0xfc; 0x0; 0x0; 0x0; 0x0; 0x0; 0x0; 0x0;
  0x0; 0x0; 0x0; 0x0; 0x0; 0x0; 0x0; 0x0;
  0x3f; 0xff; 0xff; 0xff; 0xc7; 0xff; 0xff; 0xff;
  0xf0; 0x0; 0x0; 0x0; 0x0; 0x0; 0x0; 0x0;
  0x0; 0x0; 0x0; 0x0; 0x0; 0x0; 0x0; 0x1;
  0xff; 0xff; 0xff; 0xff; 0x1f; 0xff; 0xff; 0xff;
  0xc0; 0x0; 0x0; 0x0; 0x0; 0x0; 0x0; 0x0;
  0x0; 0x0; 0x0; 0x0; 0x0; 0x0; 0x0; 0xb;
  0xff; 0xff; 0xff; 0xfc; 0x7f; 0xff; 0xff; 0xff;
  0x0; 0x0; 0x0; 0x0; 0x0; 0x0; 0x0; 0x0;
  0x0; 0x0; 0x0; 0x0; 0x0; 0x0; 0x0; 0x2f;
  0xff; 0xff; 0xff; 0xf1; 0xff; 0xff; 0xff; 0xfc;
  0x0; 0x0; 0x0; 0x0; 0x0; 0x0; 0x0; 0x0;
  0x0; 0x0; 0x0; 0x0; 0x0; 0x0; 0x0; 0xff;
  0xff; 0xff; 0xff; 0x87; 0xff; 0xff; 0xff; 0xf0 ].

Definition quicksand_bitmap_1 : list Z :=
  [ 0x0; 0x0; 0x0; 0x0; 0x0; 0x0; 0x0; 0x0;
  0x0; 0x0; 0x0; 0x0; 0x0; 0x0; 0x3; 0xff;
  0xff; 0xff; 0xfd; 0x1f; 0xff; 0xff; 0xff; 0xc0;
  0x0; 0x0; 0x0; 0x0; 0x0; 0x0; 0x0; 0x0;
  0x0; 0x0; 0x0; 0x0; 0x0; 0x0; 0x2f; 0xff;
  0xff; 0xff; 0xf0; 0x7f; 0xff; 0xff; 0xff; 0x0;
  0x0; 0x0; 0x0; 0x0; 0x0; 0x0; 0x0; 0x0;
  0x0; 0x0; 0x0; 0x0; 0x0; 0x0; 0xff; 0xff;
  0xff; 0xff; 0xc1; 0xff; 0xff; 0xff; 0xfc; 0x0;
  0x0; 0x0; 0x0; 0x0; 0x0; 0x0; 0x0; 0x0;
  0x0; 0x0; 0x0; 0x0; 0x0; 0x7; 0xff; 0xff;
  0xff; 0xff; 0x7; 0xff; 0xff; 0xff; 0xf0; 0x0;
  0x0; 0x0; 0x0; 0x0; 0x0; 0x0; 0x0; 0x0;
  0x0; 0x0; 0x0; 0x0; 0x0; 0x2f; 0xff; 0xff;
  0xff; 0xf8; 0x1f; 0xff; 0xff; 0xff; 0xc0; 0x0;
  0x0; 0x0; 0x0; 0x0; 0x0; 0x0; 0x0; 0x0;
  0x0; 0x0; 0x0; 0x0; 0x0; 0xff; 0xff; 0xff;
  0xff; 0xc0; 0x7f; 0xff; 0xff; 0xff; 0x0; 0x0;
  0x0; 0x0; 0x0; 0x0; 0x0; 0x0; 0x0; 0x0;
  0x0; 0x0; 0x0; 0x0; 0xb; 0xff; 0xff; 0xff;
  0xff; 0x1; 0xff; 0xff; 0xff; 0xfc; 0x0; 0x0;
  0x0; 0x0; 0x0; 0x0; 0x0; 0x0; 0x0; 0x0;
  0x0; 0x0; 0x0; 0x0; 0x7f; 0xff; 0xff; 0xff;
  0xf8; 0x7; 0xff; 0xff; 0xff; 0xf0; 0x0; 0x0;
  0x0; 0x0; 0x0; 0x0; 0x0; 0x0; 0x0; 0x0;
  0x0; 0x0; 0x0; 0x3; 0xff; 0xff; 0xff; 0xff;
  0xc0; 0x1f; 0xff; 0xff; 0xff; 0xc0; 0x0; 0x0;
  0x0; 0x0; 0x0; 0x0; 0x0; 0x0; 0x0; 0x0;
  0x0; 0x0; 0x0; 0x2f; 0xff; 0xff; 0xff; 0xff;
  0x0; 0x7f; 0xff; 0xff; 0xff; 0x0; 0x0; 0x0;
  0x0; 0x0; 0x0; 0x0; 0x0; 0x0; 0x0; 0x0;
  0x0; 0x0; 0x1; 0xff; 0xff; 0xff; 0xff; 0xf4;
  0x1; 0xff; 0xff; 0xff; 0xfc; 0x0; 0x0; 0x0;
  0x0; 0x0; 0x0; 0x0; 0x0; 0x0; 0x0; 0x0;
  0x0; 0x0; 0xf; 0xff; 0xff; 0xff; 0xff; 0xc0;
  0x7; 0xff; 0xff; 0xff; 0xf0; 0x0; 0x0; 0x0;
  0x0; 0x0; 0x0; 0x0; 0x0; 0x0; 0x0; 0x0;
  0x0; 0x0; 0xff; 0xff; 0xff; 0xff; 0xfd; 0x0;
  0x1f; 0xff; 0xff; 0xff; 0xc0; 0x0; 0x0; 0x0;
  0x0; 0x0; 0x0; 0x0; 0x0; 0x0; 0x0; 0x0;
  0x0; 0xf; 0xff; 0xff; 0xff; 0xff; 0xf0; 0x0;
  0x7f; 0xff; 0xff; 0xff; 0x0; 0x0; 0x0; 0x0;
  0x0; 0x0; 0x0; 0x0; 0x0; 0x0; 0x0; 0x0;
  0x1; 0xff; 0xff; 0xff; 0xff; 0xff; 0x40; 0x1;
  0xff; 0xff; 0xff; 0xfc; 0x0; 0x0; 0x0; 0x0;
  0x0; 0x0; 0x0; 0x0; 0x0; 0x0; 0x0; 0x0;
  0x2f; 0xff; 0xff; 0xff; 0xff; 0xf8; 0x0; 0x7;
  0xff; 0xff; 0xff; 0xf0; 0x0; 0x0; 0x0; 0x0;
  0x0; 0x0; 0x0; 0x0; 0x0; 0x0; 0x0; 0x7;
  0xff; 0xff; 0xff; 0xff; 0xff; 0xc0; 0x0; 0x1f;
  0xff; 0xff; 0xff; 0xc0; 0x0; 0x0; 0x0; 0x0;
  0x0; 0x0; 0x0; 0x0; 0x0; 0x0; 0x6; 0xff;
  0xff; 0xff; 0xff; 0xff; 0xfd; 0x0; 0x0; 0x7f;
  0xff; 0xff; 0xff; 0x95; 0x55; 0x55; 0x55; 0x55;
  0x55; 0x55; 0x55; 0x55; 0x55; 0x5b; 0xff; 0xff;
  0xff; 0xff; 0xff; 0xff; 0xe0; 0x0; 0x1; 0xff;
  0xff; 0xff; 0xff; 0xff; 0xff; 0xff; 0xff; 0xff;
  0xff; 0xff; 0xff; 0xff; 0xff; 0xff; 0xff; 0xff;
  0xff; 0xff; 0xff; 0xff; 0x0; 0x0; 0x7; 0xff;
  0xff; 0xff; 0xff; 0xff; 0xff; 0xff; 0xff; 0xff;
  0xff; 0xff; 0xff; 0xff; 0xff; 0xff; 0xff; 0xff;
  0xff; 0xff; 0xff; 0xf0; 0x0; 0x0; 0x1f; 0xff;
  0xff; 0xff; 0xff; 0xff; 0xff; 0xff; 0xff; 0xff;
  0xff; 0xff; 0xff; 0xff; 0xff; 0xff; 0xff; 0xff;
  0xff; 0xff; 0xff; 0x40; 0x0; 0x0; 0x7f; 0xff;
  0xff; 0xff; 0xff; 0xff; 0xff; 0xff; 0xff; 0xff;
  0xff; 0xff; 0xff; 0xff; 0xff; 0xff; 0xff; 0xff;
  0xff; 0xff; 0xf4; 0x0; 0x0; 0x1; 0xff; 0xff;
  0xff; 0xff; 0xff; 0xff; 0xff; 0xff; 0xff; 0xff;
  0xff; 0xff; 0xff; 0xff; 0xff; 0xff; 0xff; 0xff;
  0xff; 0xff; 0x40; 0x0; 0x0; 0x7; 0xff; 0xff;
  0xff; 0xff; 0xff; 0xff; 0xff; 0xff; 0xff; 0xff;
  0xff; 0xff; 0xff; 0xff; 0xff; 0xff; 0xff; 0xff;
  0xff; 0xf4; 0x0; 0x0; 0x0; 0x1f; 0xff; 0xff;
  0xff; 0xff; 0xff; 0xff; 0xff; 0xff; 0xff; 0xff;
  0xff; 0xff; 0xff; 0xff; 0xff; 0xff; 0xff; 0xff;
  0xff; 0x0; 0x0; 0x0; 0x0; 0x7f; 0xff; 0xff;
  0xff; 0xff; 0xff; 0xff; 0xff; 0xff; 0xff; 0xff;
  0xff; 0xff; 0xff; 0xff; 0xff; 0xff; 0xff; 0xff;
  0xf0; 0x0; 0x0; 0x0; 0x1; 0xff; 0xff; 0xff;
  0xff; 0xff; 0xff; 0xff; 0xff; 0xff; 0xff; 0xff;
  0xff; 0xff; 0xff; 0xff; 0xff; 0xff; 0xff; 0xfd;
  0x0; 0x0; 0x0; 0x0; 0x7; 0xff; 0xff; 0xff;
  0xff; 0xff; 0xff; 0xff; 0xff; 0xff; 0xff; 0xff;
  0xff; 0xff; 0xff; 0xff; 0xff; 0xff; 0xff; 0xc0;
  0x0; 0x0; 0x0; 0x0; 0x1f; 0xff; 0xff; 0xff;
  0xff; 0xff; 0xff; 0xff; 0xff; 0xff; 0xff; 0xff;
  0xff; 0xff; 0xff; 0xff; 0xff; 0xff; 0xf4; 0x0;
  0x0; 0x0; 0x0; 0x0; 0x7f; 0xff; 0xff; 0xff;
  0xff; 0xff; 0xff; 0xff; 0xff; 0xff; 0xff; 0xff;
  0xff; 0xff; 0xff; 0xff; 0xff; 0xfd; 0x0; 0x0;
  0x0; 0x0; 0x0; 0x1; 0xff; 0xff; 0xff; 0xff;
  0xff; 0xff; 0xff; 0xff; 0xff; 0xff; 0xff; 0xff;
  0xff; 0xff; 0xff; 0xff; 0xfe; 0x40; 0x0; 0x0;
  0x0; 0x0; 0x0; 0x7; 0xff; 0xff; 0xff; 0xff;
  0xff; 0xff; 0xff; 0xff; 0xff; 0xff; 0xff; 0xff;
  0xff; 0xff; 0xff; 0xfe; 0x40; 0x0; 0x0; 0x0;
  0x0; 0x0; 0x0; 0x1f; 0xff; 0xff; 0xff; 0xff;
  0xff; 0xff; 0xff; 0xff; 0xff; 0xff; 0xff; 0xff;
  0xff; 0xff; 0xe9; 0x0; 0x0; 0x0; 0x0; 0x0;
  0x0; 0x0; 0x0; 0x7f; 0xff; 0xff; 0xff; 0x0;
  0x0; 0x0; 0x0; 0x0; 0x0; 0x0; 0x0; 0x0;
  0x0; 0x0; 0x0; 0x0; 0x0; 0x0; 0x0; 0x0;
  0x0; 0x0; 0x1; 0xff; 0xff; 0xff; 0xfc; 0x0;
  0x0; 0x0; 0x0; 0x0; 0x0; 0x0; 0x0; 0x0;
  0x0; 0x0; 0x0; 0x0; 0x0; 0x0; 0x0; 0x0;
  0x0; 0x0; 0x7; 0xff; 0xff; 0xff; 0xf0; 0x0;
  0x0; 0x0; 0x0; 0x0; 0x0; 0x0; 0x0; 0x0;
  0x0; 0x0; 0x0; 0x0; 0x0; 0x0; 0x0; 0x0;
  0x0; 0x0; 0x1f; 0xff; 0xff; 0xff; 0xc0; 0x0;
  0x0; 0x0; 0x0; 0x0; 0x0; 0x0; 0x0; 0x0;
  0x0; 0x0; 0x0; 0x0; 0x0; 0x0; 0x0; 0x0;
  0x0; 0x0; 0x7f; 0xff; 0xff; 0xff; 0x0; 0x0;
  0x0; 0x0; 0x0; 0x0; 0x0; 0x0; 0x0; 0x0;
  0x0; 0x0; 0x0; 0x0; 0x0; 0x0; 0x0; 0x0;
  0x0; 0x1; 0xff; 0xff; 0xff; 0xfc; 0x0; 0x0;
  0x0; 0x0; 0x0; 0x0; 0x0; 0x0; 0x0; 0x0;
  0x0; 0x0; 0x0; 0x0; 0x0; 0x0; 0x0; 0x0;
  0x0; 0x7; 0xff; 0xff; 0xff; 0xf0; 0x0; 0x0;
  0x0; 0x0; 0x0; 0x0; 0x0; 0x0; 0x0; 0x0;
  0x0; 0x0; 0x0; 0x0; 0x0; 0x0; 0x0; 0x0;
  0x0; 0x1f; 0xff; 0xff; 0xff; 0xc0; 0x0; 0x0;
  0x0; 0x0; 0x0; 0x0; 0x0; 0x0; 0x0; 0x0;
  0x0; 0x0; 0x0; 0x0; 0x0; 0x0; 0x0; 0x0;
  0x0; 0x7f; 0xff; 0xff; 0xff; 0x0; 0x0; 0x0;
  0x0; 0x0; 0x0; 0x0; 0x0; 0x0; 0x0; 0x0;
  0x0; 0x0; 0x0; 0x0; 0x0; 0x0; 0x0; 0x0;
  0x1; 0xff; 0xff; 0xff; 0xfc; 0x0; 0x0; 0x0;
  0x0; 0x0; 0x0; 0x0; 0x0; 0x0; 0x0; 0x0;
  0x0; 0x0; 0x0; 0x0; 0x0; 0x0; 0x0; 0x0;
  0x7; 0xff; 0xff; 0xff; 0xf0; 0x0; 0x0; 0x0;
  0x0; 0x0; 0x0; 0x0; 0x0; 0x0; 0x0; 0x0;
  0x0; 0x0; 0x0; 0x0; 0x0; 0x0; 0x0; 0x0;
  0x1f; 0xff; 0xff; 0xff; 0xc0; 0x0; 0x0; 0x0;
  0x0; 0x0; 0x0; 0x0; 0x0; 0x0; 0x0; 0x0;
  0x0; 0x0; 0x0; 0x0; 0x0; 0x0; 0x0; 0x0;
  0x7f; 0xff; 0xff; 0xff; 0x0; 0x0; 0x0; 0x0;
  0x0; 0x0; 0x0; 0x0; 0x0; 0x0; 0x0; 0x0;
  0x0; 0x0; 0x0; 0x0; 0x0; 0x0; 0x0; 0x1;
  0xff; 0xff; 0xff; 0xfc; 0x0; 0x0; 0x0; 0x0;
  0x0; 0x0; 0x0; 0x0; 0x0; 0x0; 0x0; 0x0;
  0x0; 0x0; 0x0; 0x0; 0x0; 0x0; 0x0; 0x7;
  0xff; 0xff; 0xff; 0xf0; 0x0; 0x0; 0x0; 0x0;
  0x0; 0x0; 0x0; 0x0; 0x0; 0x0; 0x0; 0x0;
  0x0; 0x0; 0x0; 0x0; 0x0; 0x0; 0x0; 0x1f;
  0xff; 0xff; 0xff; 0xc0; 0x0; 0x0; 0x0; 0x0;
  0x0; 0x0; 0x0; 0x0; 0x0; 0x0; 0x0; 0x0;
  0x0; 0x0; 0x0; 0x0; 0x0; 0x0; 0x0; 0x7f;
  0xff; 0xff; 0xff; 0x0; 0x0; 0x0; 0x0; 0x0;
  0x0; 0x0; 0x0; 0x0; 0x0; 0x0; 0x0; 0x0 ].

Definition quicksand_bitmap_2 : list Z :=
  [ 0x0; 0x0; 0x0; 0x0; 0x0; 0x0; 0x1; 0xff;
  0xff; 0xff; 0xfc; 0x0; 0x0; 0x0; 0x0; 0x0;
  0x0; 0x0; 0x0; 0x0; 0x0; 0x0; 0x0; 0x0;
  0x0; 0x0; 0x0; 0x0; 0x0; 0x0; 0x7; 0xff;
  0xff; 0xff; 0xf0; 0x0; 0x0; 0x0; 0x0; 0x0;
  0x0; 0x0; 0x0; 0x0; 0x0; 0x0; 0x0; 0x0;
  0x0; 0x0; 0x0; 0x0; 0x0; 0x0; 0x1f; 0xff;
  0xff; 0xff; 0xc0; 0x0; 0x0; 0x0; 0x0; 0x0;
  0x0; 0x0; 0x0; 0x0; 0x0; 0x0; 0x0; 0x0;
  0x0; 0x0; 0x0; 0x0; 0x0; 0x0; 0x7f; 0xff;
  0xff; 0xff; 0x0; 0x0; 0x0; 0x0; 0x0; 0x0;
  0x0; 0x0; 0x0; 0x0; 0x0; 0x0; 0x0; 0x0;
  0x0; 0x0; 0x0; 0x0; 0x0; 0x1; 0xff; 0xff;
  0xff; 0xfc; 0x0; 0x0; 0x0; 0x0; 0x0; 0x0;
  0x0; 0x0; 0x0; 0x0; 0x0; 0x0; 0x0; 0x0;
  0x0; 0x0; 0x0; 0x0; 0x0; 0x7; 0xff; 0xff;
  0xff; 0xf0; 0x0; 0x0; 0x0; 0x0; 0x0; 0x0;
  0x0; 0x0; 0x0; 0x0; 0x0; 0x0; 0x0; 0x0;
  0x0; 0x0; 0x0; 0x0; 0x0; 0x1f; 0xff; 0xff;
  0xff; 0xc0; 0x0; 0x0; 0x0; 0x0; 0x0; 0x0;
  0x0; 0x0; 0x0; 0x0; 0x0; 0x0; 0x0; 0x0;
  0x0; 0x0; 0x0; 0x0; 0x0; 0x7f; 0xff; 0xff;
  0xff; 0x0; 0x0; 0x0; 0x0; 0x0; 0x0; 0x0;
  0x0; 0x0; 0x0; 0x0; 0x0; 0x0; 0x0; 0x0;
  0x0; 0x0; 0x0; 0x0; 0x1; 0xff; 0xff; 0xff;
  0xfc; 0x0; 0x0; 0x0; 0x0; 0x0; 0x0; 0x0;
  0x0; 0x0; 0x0; 0x0; 0x0; 0x0; 0x0; 0x0;
  0x0; 0x0; 0x0; 0x0; 0x7; 0xff; 0xff; 0xff;
  0xf0; 0x0; 0x0; 0x0; 0x0; 0x0; 0x0; 0x0;
  0x0; 0x0; 0x0; 0x0; 0x0; 0x0; 0x0; 0x0;
  0x0; 0x0; 0x0; 0x0; 0x1f; 0xff; 0xff; 0xff;
  0xc0; 0x0; 0x0; 0x0; 0x0; 0x0; 0x0; 0x0;
  0x0; 0x0; 0x0; 0x0; 0x0; 0x0; 0x0; 0x0;
  0x0; 0x0; 0x0; 0x0; 0x7f; 0xff; 0xff; 0xff;
  0x0; 0x0; 0x0; 0x0; 0x0; 0x0; 0x0; 0x0;
  0x0; 0x0; 0x0; 0x0; 0x0; 0x0; 0x0; 0x0;
  0x0; 0x0; 0x0; 0x1; 0xff; 0xff; 0xff; 0xfc;
  0x0; 0x0; 0x0; 0x0; 0x0; 0x0; 0x0; 0x0;
  0x0; 0x0; 0x0; 0x0; 0x0; 0x0; 0x0; 0x0;
  0x0; 0x0; 0x0; 0x7; 0xff; 0xff; 0xff; 0xf0;
  0x0; 0x0; 0x0; 0x0; 0x0; 0x0; 0x0; 0x0;
  0x0; 0x0; 0x0; 0x0; 0x0; 0x0; 0x0; 0x0;
  0x0; 0x0; 0x0; 0x1f; 0xff; 0xff; 0xff; 0xc0;
  0x0; 0x0; 0x0; 0x0; 0x0; 0x0; 0x0; 0x0;
  0x0; 0x0; 0x0; 0x0; 0x0; 0x0; 0x0; 0x0;
  0x0; 0x0; 0x0; 0x7f; 0xff; 0xff; 0xff; 0x0;
  0x0; 0x0; 0x0; 0x0; 0x0; 0x0; 0x0; 0x0;
  0x0; 0x0; 0x0; 0x0; 0x0; 0x0; 0x0; 0x0;
  0x0; 0x0; 0x1; 0xff; 0xff; 0xff; 0xfc; 0x0;
  0x0; 0x0; 0x0; 0x0; 0x0; 0x0; 0x0; 0x0;
  0x0; 0x0; 0x0; 0x0; 0x0; 0x0; 0x0; 0x0;
  0x0; 0x0; 0x7; 0xff; 0xff; 0xff; 0xf0; 0x0;
  0x0; 0x0; 0x0; 0x0; 0x0; 0x0; 0x0; 0x0;
  0x0; 0x0; 0x0; 0x0; 0x0; 0x0; 0x0; 0x0;
  0x0; 0x0; 0x1f; 0xff; 0xff; 0xff; 0xc0; 0x0;
  0x0; 0x0; 0x0; 0x0; 0x0; 0x0; 0x0; 0x0;
  0x0; 0x0; 0x0; 0x0; 0x0; 0x0; 0x0; 0x0;
  0x0; 0x0; 0x7f; 0xff; 0xff; 0xff; 0x0; 0x0;
  0x0; 0x0; 0x0; 0x0; 0x0; 0x0; 0x0; 0x0;
  0x0; 0x0; 0x0; 0x0; 0x0; 0x0; 0x0; 0x0;
  0x0; 0x1; 0xff; 0xff; 0xff; 0xfc; 0x0; 0x0;
  0x0; 0x0; 0x0; 0x0; 0x0; 0x0; 0x0; 0x0;
  0x0; 0x0; 0x0; 0x0; 0x0; 0x0; 0x0; 0x0;
  0x0; 0x7; 0xff; 0xff; 0xff; 0xf0; 0x0; 0x0;
  0x0; 0x0; 0x0; 0x0; 0x0; 0x0; 0x0; 0x0;
  0x0; 0x0; 0x0; 0x0; 0x0; 0x0; 0x0; 0x0;
  0x0; 0x1f; 0xff; 0xff; 0xff; 0xc0; 0x0; 0x0;
  0x0; 0x0; 0x0; 0x0; 0x0; 0x0; 0x0; 0x0;
  0x0; 0x0; 0x0; 0x0; 0x0; 0x0; 0x0; 0x0;
  0x0; 0x7f; 0xff; 0xff; 0xff; 0x0; 0x0; 0x0;
  0x0; 0x0; 0x0; 0x0; 0x0; 0x0; 0x0; 0x0;
  0x0; 0x0; 0x0; 0x0; 0x0; 0x0; 0x0; 0x0;
  0x1; 0xff; 0xff; 0xff; 0xfc; 0x0; 0x0; 0x0;
  0x0; 0x0; 0x0; 0x0; 0x0; 0x0; 0x0; 0x0;
  0x0; 0x0; 0x0; 0x0; 0x0; 0x0; 0x0; 0x0;
  0x7; 0xff; 0xff; 0xff; 0xf0; 0x0; 0x0; 0x0;
  0x0; 0x0; 0x0; 0x0; 0x0; 0x0; 0x0; 0x0;
  0x0; 0x0; 0x0; 0x0; 0x0; 0x0; 0x0; 0x0;
  0x1f; 0xff; 0xff; 0xff; 0xc0; 0x0; 0x0; 0x0;
  0x0; 0x0; 0x0; 0x0; 0x0; 0x0; 0x0; 0x0;
  0x0; 0x0; 0x0; 0x0; 0x0; 0x0; 0x0; 0x0;
  0x7f; 0xff; 0xff; 0xff; 0x0; 0x0; 0x0; 0x0;
  0x0; 0x0; 0x0; 0x0; 0x0; 0x0; 0x0; 0x0;
  0x0; 0x0; 0x0; 0x0; 0x0; 0x0; 0x0; 0x1;
  0xff; 0xff; 0xff; 0xfc; 0x0; 0x0; 0x0; 0x0;
  0x0; 0x0; 0x0; 0x0; 0x0; 0x0; 0x0; 0x0;
  0x0; 0x0; 0x0; 0x0; 0x0; 0x0; 0x0; 0x7;
  0xff; 0xff; 0xff; 0xf0; 0x0; 0x0; 0x0; 0x0;
  0x0; 0x0; 0x0; 0x0; 0x0; 0x0; 0x0; 0x0;
  0x0; 0x0; 0x0; 0x0; 0x0; 0x0; 0x0; 0x1f;
  0xff; 0xff; 0xff; 0xc0; 0x0; 0x0; 0x0; 0x0;
  0x0; 0x0; 0x0; 0x0; 0x0; 0x0; 0x0; 0x0;
  0x0; 0x0; 0x0; 0x0; 0x0; 0x0; 0x0; 0x7f;
  0xff; 0xff; 0xff; 0x0; 0x0; 0x0; 0x0; 0x0;
  0x0; 0x0; 0x0; 0x0; 0x0; 0x0; 0x0; 0x0;
  0x0; 0x0; 0x0; 0x0; 0x0; 0x0; 0x1; 0xff;
  0xff; 0xff; 0xfc; 0x0; 0x0; 0x0; 0x0; 0x0;
  0x0; 0x0; 0x0; 0x0; 0x0; 0x0; 0x0; 0x0;
  0x0; 0x0; 0x0; 0x0; 0x0; 0x0; 0x3; 0xff;
  0xff; 0xff; 0xf0; 0x0; 0x0; 0x0; 0x0; 0x0;
  0x0; 0x0; 0x0; 0x0; 0x0; 0x0; 0x0; 0x0;
  0x0; 0x0; 0x0; 0x0; 0x0; 0x0; 0xb; 0xff;
  0xff; 0xff; 0x40; 0x0; 0x0; 0x0; 0x0; 0x0;
  0x0; 0x0; 0x0; 0x0; 0x0; 0x0; 0x0; 0x0;
  0x0; 0x0; 0x0; 0x0; 0x0; 0x0; 0xf; 0xff;
  0xff; 0xfc; 0x0; 0x0; 0x0; 0x0; 0x0; 0x0;
  0x0; 0x0; 0x0; 0x0; 0x0; 0x0; 0x0; 0x0;
  0x0; 0x0; 0x0; 0x0; 0x0; 0x0; 0x1f; 0xff;
  0xff; 0xc0; 0x0; 0x0; 0x0; 0x0; 0x0; 0x0;
  0x0; 0x0; 0x0; 0x0; 0x0; 0x0; 0x0; 0x0;
  0x0; 0x0; 0x0; 0x0; 0x0; 0x0; 0x1f; 0xff;
  0xfc; 0x0; 0x0; 0x0; 0x0; 0x0; 0x0; 0x0;
  0x0; 0x0; 0x0; 0x0; 0x0; 0x0; 0x0; 0x0;
  0x0; 0x0; 0x0; 0x0; 0x0; 0x0; 0xb; 0xfe;
  0x40; 0x0; 0x0; 0x0; 0x0; 0x0; 0x0; 0x0;
  0x0; 0x0; 0x0; 0x0; 0x0; 0x0; 0x0; 0x0;
  0x0; 0x0; 0x0; 0x0; 0x0;
  0x0; 0x0; 0x0; 0x0; 0x0; 0x0; 0x0; 0x0;
  0x0; 0x0; 0x5; 0xaf; 0xff; 0xff; 0xfa; 0x94;
  0x0; 0x0; 0x0; 0x0; 0x0; 0x0; 0x0; 0x0;
  0x0; 0x0; 0x0; 0x0; 0x0; 0x0; 0x0; 0x1;
  0xbf; 0xff; 0xff; 0xff; 0xff; 0xff; 0xfe; 0x40;
  0x0; 0x0; 0x0; 0x0; 0x0; 0x0; 0x0; 0x0;
  0x0; 0x0; 0x0; 0x0; 0x0; 0x6f; 0xff; 0xff;
  0xff; 0xff; 0xff; 0xff; 0xff; 0xff; 0x90; 0x0;
  0x0; 0x0; 0x0; 0x0; 0x0; 0x0; 0x0; 0x0;
  0x0; 0x0; 0x2; 0xff; 0xff; 0xff; 0xff; 0xff;
  0xff; 0xff; 0xff; 0xff; 0xff; 0xd0; 0x0; 0x0;
  0x0; 0x0; 0x0; 0x0; 0x0; 0x0; 0x0; 0x0;
  0x1f; 0xff; 0xff; 0xff; 0xff; 0xff; 0xff; 0xff;
  0xff; 0xff; 0xff; 0xff; 0x80; 0x0; 0x0; 0x0;
  0x0; 0x0; 0x0; 0x0; 0x0; 0x0; 0x7f; 0xff;
  0xff; 0xff; 0xff; 0xff; 0xff; 0xff; 0xff; 0xff;
  0xff; 0xff; 0xfe; 0x0; 0x0; 0x0; 0x0; 0x0;
  0x0; 0x0; 0x0; 0x0; 0xff; 0xff; 0xff; 0xff;
  0xff; 0xff; 0xff; 0xff; 0xff; 0xff; 0xff; 0xff;
  0xff; 0xf8; 0x0; 0x0; 0x0; 0x0; 0x0; 0x0;
  0x0; 0x2; 0xff; 0xff; 0xff; 0xff; 0xff; 0xff;
  0xff; 0xff; 0xff; 0xff; 0xff; 0xff; 0xff; 0xff;
  0xd0; 0x0; 0x0; 0x0; 0x0; 0x0; 0x0; 0x7;
  0xff; 0xff; 0xff; 0xff; 0xff; 0xff; 0xff; 0xff;
  0xff; 0xff; 0xff; 0xff; 0xff; 0xff; 0xfe; 0x0;
  0x0; 0x0; 0x0; 0x0; 0x0; 0xb; 0xff; 0xff;
  0xff; 0xff; 0xff; 0xff; 0xff; 0xff; 0xff; 0xff;
  0xff; 0xff; 0xff; 0xff; 0xff; 0xe0; 0x0; 0x0;
  0x0; 0x0; 0x0; 0xf; 0xff; 0xff; 0xff; 0xff;
  0xff; 0xff; 0xff; 0xff; 0xff; 0xff; 0xff; 0xff;
  0xff; 0xff; 0xff; 0xfe; 0x0; 0x0; 0x0; 0x0 ].

Definition quicksand_bitmap_3 : list Z :=
  [ 0x0; 0xf; 0xff; 0xff; 0xff; 0xff; 0xff; 0xff;
  0xff; 0xff; 0xff; 0xff; 0xff; 0xff; 0xff; 0xff;
  0xff; 0xff; 0xd0; 0x0; 0x0; 0x0; 0x0; 0x1f;
  0xff; 0xff; 0xff; 0xff; 0xff; 0xff; 0xff; 0xff;
  0xff; 0xff; 0xff; 0xff; 0xff; 0xff; 0xff; 0xff;
  0xfc; 0x0; 0x0; 0x0; 0x0; 0x1f; 0xff; 0xff;
  0xff; 0xff; 0xff; 0xff; 0xff; 0xff; 0xff; 0xff;
  0xff; 0xff; 0xff; 0xff; 0xff; 0xff; 0xff; 0x40;
  0x0; 0x0; 0x0; 0x1f; 0xff; 0xff; 0xff; 0xff;
  0xff; 0xff; 0xff; 0xff; 0xff; 0xff; 0xff; 0xff;
  0xff; 0xff; 0xff; 0xff; 0xff; 0xe0; 0x0; 0x0;
  0x0; 0x1f; 0xff; 0xff; 0xff; 0xff; 0xff; 0xff;
  0xff; 0x90; 0x0; 0x0; 0x1; 0x6f; 0xff; 0xff;
  0xff; 0xff; 0xff; 0xfc; 0x0; 0x0; 0x0; 0x1f;
  0xff; 0xff; 0xff; 0xff; 0xff; 0xff; 0xe4; 0x0;
  0x0; 0x0; 0x0; 0x0; 0xb; 0xff; 0xff; 0xff;
  0xff; 0xff; 0x0; 0x0; 0x0; 0xf; 0xff; 0xff;
  0xff; 0xff; 0xff; 0xfe; 0x40; 0x0; 0x0; 0x0;
  0x0; 0x0; 0x0; 0x1b; 0xff; 0xff; 0xff; 0xff;
  0xc0; 0x0; 0x0; 0xf; 0xff; 0xff; 0xff; 0xff;
  0xff; 0xf8; 0x0; 0x0; 0x0; 0x0; 0x0; 0x0;
  0x0; 0x0; 0x7f; 0xff; 0xff; 0xff; 0xf0; 0x0;
  0x0; 0xb; 0xff; 0xff; 0xff; 0xff; 0xff; 0xf0;
  0x0; 0x0; 0x0; 0x0; 0x0; 0x0; 0x0; 0x0;
  0x2; 0xff; 0xff; 0xff; 0xf4; 0x0; 0x0; 0x7;
  0xff; 0xff; 0xff; 0xff; 0xff; 0xd0; 0x0; 0x0;
  0x0; 0x0; 0x0; 0x0; 0x0; 0x0; 0x0; 0x1f;
  0xff; 0xff; 0xfc; 0x0; 0x0; 0x3; 0xff; 0xff;
  0xff; 0xff; 0xff; 0xc0; 0x0; 0x0; 0x0; 0x0;
  0x0; 0x0; 0x0; 0x0; 0x0; 0x1; 0xff; 0xff;
  0xfd; 0x0; 0x0; 0x3; 0xff; 0xff; 0xff; 0xff;
  0xff; 0x80; 0x0; 0x0; 0x0; 0x0; 0x0; 0x0;
  0x0; 0x0; 0x0; 0x0; 0x1f; 0xff; 0xfe; 0x0;
  0x0; 0x2; 0xff; 0xff; 0xff; 0xff; 0xff; 0x40;
  0x0; 0x0; 0x0; 0x0; 0x0; 0x0; 0x0; 0x0;
  0x0; 0x0; 0x0; 0xbf; 0xfd; 0x0; 0x0; 0x0;
  0xff; 0xff; 0xff; 0xff; 0xff; 0x40; 0x0; 0x0;
  0x0; 0x0; 0x0; 0x0; 0x0; 0x0; 0x0; 0x0;
  0x0; 0x0; 0x0; 0x0; 0x0; 0x0; 0xbf; 0xff;
  0xff; 0xff; 0xff; 0x40; 0x0; 0x0; 0x0; 0x0;
  0x0; 0x0; 0x0; 0x0; 0x0; 0x0; 0x0; 0x0;
  0x0; 0x0; 0x0; 0x0; 0x3f; 0xff; 0xff; 0xff;
  0xff; 0x40; 0x0; 0x0; 0x0; 0x0; 0x0; 0x0;
  0x0; 0x0; 0x0; 0x0; 0x0; 0x0; 0x0; 0x0;
  0x0; 0x0; 0x3f; 0xff; 0xff; 0xff; 0xff; 0x40;
  0x0; 0x0; 0x0; 0x0; 0x0; 0x0; 0x0; 0x0;
  0x0; 0x0; 0x0; 0x0; 0x0; 0x0; 0x0; 0x0;
  0x1f; 0xff; 0xff; 0xff; 0xff; 0x80; 0x0; 0x0;
  0x0; 0x0; 0x0; 0x0; 0x0; 0x0; 0x0; 0x0;
  0x0; 0x0; 0x0; 0x0; 0x0; 0x0; 0xb; 0xff;
  0xff; 0xff; 0xff; 0xc0; 0x0; 0x0; 0x0; 0x0;
  0x0; 0x0; 0x0; 0x0; 0x0; 0x0; 0x0; 0x0;
  0x0; 0x0; 0x0; 0x0; 0x3; 0xff; 0xff; 0xff;
  0xff; 0xc0; 0x0; 0x0; 0x0; 0x0; 0x0; 0x0;
  0x0; 0x0; 0x0; 0x0; 0x0; 0x0; 0x0; 0x0;
  0x0; 0x0; 0x2; 0xff; 0xff; 0xff; 0xff; 0xd0;
  0x0; 0x0; 0x0; 0x0; 0x0; 0x0; 0x0; 0x0;
  0x0; 0x0; 0x0; 0x0; 0x0; 0x0; 0x0; 0x0;
  0x0; 0xff; 0xff; 0xff; 0xff; 0xf0; 0x0; 0x0;
  0x0; 0x0; 0x0; 0x0; 0x0; 0x0; 0x0; 0x0;
  0x0; 0x0; 0x0; 0x0; 0x0; 0x0; 0x0; 0x7f;
  0xff; 0xff; 0xff; 0xf4; 0x0; 0x0; 0x0; 0x0;
  0x0; 0x0; 0x0; 0x0; 0x0; 0x0; 0x0; 0x0;
  0x0; 0x0; 0x0; 0x0; 0x0; 0x2f; 0xff; 0xff;
  0xff; 0xf8; 0x0; 0x0; 0x0; 0x0; 0x0; 0x0;
  0x0; 0x0; 0x0; 0x0; 0x0; 0x0; 0x0; 0x0;
  0x0; 0x0; 0x0; 0xf; 0xff; 0xff; 0xff; 0xfc;
  0x0; 0x0; 0x0; 0x0; 0x0; 0x0; 0x0; 0x0;
  0x0; 0x0; 0x0; 0x0; 0x0; 0x0; 0x0; 0x0;
  0x0; 0x7; 0xff; 0xff; 0xff; 0xff; 0x0; 0x0;
  0x0; 0x0; 0x0; 0x0; 0x0; 0x0; 0x0; 0x0;
  0x0; 0x0; 0x0; 0x0; 0x0; 0x0; 0x0; 0x2;
  0xff; 0xff; 0xff; 0xff; 0x40; 0x0; 0x0; 0x0;
  0x0; 0x0; 0x0; 0x0; 0x0; 0x0; 0x0; 0x0;
  0x0; 0x0; 0x0; 0x0; 0x0; 0x0; 0xff; 0xff;
  0xff; 0xff; 0xc0; 0x0; 0x0; 0x0; 0x0; 0x0;
  0x0; 0x0; 0x0; 0x0; 0x0; 0x0; 0x0; 0x0;
  0x0; 0x0; 0x0; 0x0; 0x3f; 0xff; 0xff; 0xff;
  0xe0; 0x0; 0x0; 0x0; 0x0; 0x0; 0x0; 0x0;
  0x0; 0x0; 0x0; 0x0; 0x0; 0x0; 0x0; 0x0;
  0x0; 0x0; 0x1f; 0xff; 0xff; 0xff; 0xf0; 0x0;
  0x0; 0x0; 0x0; 0x0; 0x0; 0x0; 0x0; 0x0;
  0x0; 0x0; 0x0; 0x0; 0x0; 0x0; 0x0; 0x0;
  0xb; 0xff; 0xff; 0xff; 0xfc; 0x0; 0x0; 0x0;
  0x0; 0x0; 0x0; 0x0; 0x0; 0x0; 0x0; 0x0;
  0x0; 0x0; 0x0; 0x0; 0x0; 0x0; 0x3; 0xff;
  0xff; 0xff; 0xfe; 0x0; 0x0; 0x0; 0x0; 0x0;
  0x0; 0x0; 0x0; 0x0; 0x0; 0x0; 0x0; 0x0;
  0x0; 0x0; 0x0; 0x0; 0x0; 0xff; 0xff; 0xff;
  0xff; 0x40; 0x0; 0x0; 0x0; 0x0; 0x0; 0x0;
  0x0; 0x0; 0x0; 0x0; 0x0; 0x0; 0x0; 0x0;
  0x0; 0x0; 0x0; 0x3f; 0xff; 0xff; 0xff; 0xc0;
  0x0; 0x0; 0x0; 0x0; 0x0; 0x0; 0x0; 0x0;
  0x0; 0x0; 0x0; 0x0; 0x0; 0x0; 0x0; 0x0;
  0x0; 0x1f; 0xff; 0xff; 0xff; 0xf0; 0x0; 0x0;
  0x0; 0x0; 0x0; 0x0; 0x0; 0x0; 0x0; 0x0;
  0x0; 0x0; 0x0; 0x0; 0x0; 0x0; 0x0; 0x7;
  0xff; 0xff; 0xff; 0xfc; 0x0; 0x0; 0x0; 0x0;
  0x0; 0x0; 0x0; 0x0; 0x0; 0x0; 0x0; 0x0;
  0x0; 0x0; 0x0; 0x0; 0x0; 0x1; 0xff; 0xff;
  0xff; 0xfe; 0x0; 0x0; 0x0; 0x0; 0x0; 0x0;
  0x0; 0x0; 0x0; 0x0; 0x0; 0x0; 0x0; 0x0;
  0x0; 0x0; 0x0; 0x0; 0xbf; 0xff; 0xff; 0xff;
  0x80; 0x0; 0x0; 0x0; 0x0; 0x0; 0x0; 0x0;
  0x0; 0x0; 0x0; 0x0; 0x0; 0x0; 0x0; 0x0;
  0x0; 0x0; 0x2f; 0xff; 0xff; 0xff; 0xd0; 0x0;
  0x0; 0x0; 0x0; 0x0; 0x0; 0x0; 0x0; 0x0;
  0x0; 0x0; 0x0; 0x0; 0x0; 0x0; 0x0; 0x0;
  0xb; 0xff; 0xff; 0xff; 0xf4; 0x0; 0x0; 0x0;
  0x0; 0x0; 0x0; 0x0; 0x0; 0x0; 0x0; 0x0;
  0x0; 0x0; 0x0; 0x0; 0x0; 0x0; 0x2; 0xff;
  0xff; 0xff; 0xfd; 0x0; 0x0; 0x0; 0x0; 0x0;
  0x0; 0x0; 0x0; 0x0; 0x0; 0x0; 0x0; 0x0;
  0x0; 0x0; 0x0; 0x0; 0x0; 0xff; 0xff; 0xff;
  0xff; 0x0; 0x0; 0x0; 0x0; 0x0; 0x0; 0x0;
  0x0; 0x0; 0x0; 0x0; 0x0; 0x0; 0x0; 0x0;
  0x0; 0x0; 0x0; 0x3f; 0xff; 0xff; 0xff; 0xc0;
  0x0; 0x0; 0x0; 0x0; 0x0; 0x0; 0x0; 0x0;
  0x0; 0x0; 0x0; 0x0; 0x0; 0x0; 0x0; 0x0;
  0x0; 0xf; 0xff; 0xff; 0xff; 0xf0; 0x0; 0x0;
  0x0; 0x0; 0x0; 0x0; 0x0; 0x0; 0x0; 0x0;
  0x0; 0x0; 0x0; 0x0; 0x0; 0x0; 0x0; 0x3;
  0xff; 0xff; 0xff; 0xfc; 0x0; 0x0; 0x0; 0x0;
  0x0; 0x0; 0x0; 0x0; 0x0; 0x0; 0x0; 0x0;
  0x0; 0x0; 0x0; 0x0; 0x0; 0x0; 0xff; 0xff;
  0xff; 0xff; 0x40; 0x0; 0x0; 0x0; 0x0; 0x0;
  0x0; 0x0; 0x0; 0x0; 0x0; 0x0; 0x0; 0x0;
  0x0; 0x0; 0x0; 0x0; 0x2f; 0xff; 0xff; 0xff;
  0xd0; 0x0; 0x0; 0x0; 0x0; 0x0; 0x0; 0x0;
  0x0; 0x0; 0x0; 0x0; 0x0; 0x0; 0x0; 0x0;
  0x0; 0x0; 0xb; 0xff; 0xff; 0xff; 0xf4; 0x0;
  0x0; 0x0; 0x0; 0x0; 0x0; 0x0; 0x0; 0x0;
  0x0; 0x0; 0x0; 0x0; 0x0; 0x0; 0x0; 0x0;
  0x2; 0xff; 0xff; 0xff; 0xfe; 0x0; 0x0; 0x0;
  0x0; 0x0; 0x0; 0x0; 0x0; 0x0; 0x0; 0x0;
  0x0; 0x0; 0x0; 0x0; 0x0; 0x0; 0x0; 0x7f;
  0xff; 0xff; 0xff; 0x80; 0x0; 0x0; 0x0; 0x0;
  0x0; 0x0; 0x0; 0x0; 0x0; 0x0; 0x0; 0x0;
  0x0; 0x0; 0x0; 0x0; 0x0; 0x1f; 0xff; 0xff;
  0xff; 0xf0; 0x0; 0x0; 0x0; 0x0; 0x0; 0x0;
  0x0; 0x0; 0x0; 0x0; 0x0; 0x0; 0x0; 0x0;
  0x0; 0x0; 0x0; 0x7; 0xff; 0xff; 0xff; 0xfc;
  0x0; 0x0; 0x0; 0x0; 0x0; 0x0; 0x0; 0x0;
  0x0; 0x0; 0x0; 0x0; 0x0; 0x0; 0x0; 0x0;
  0x0; 0x0; 0xff; 0xff; 0xff; 0xff; 0x0; 0x0;
  0x0; 0x0; 0x0; 0x0; 0x0; 0x0; 0x0; 0x0;
  0x0; 0x0; 0x0; 0x0; 0x0; 0x0; 0x0; 0x0;
  0x3f; 0xff; 0xff; 0xff; 0xd0; 0x0; 0x0; 0x0;
  0x0; 0x0; 0x0; 0x0; 0x0; 0x0; 0x0; 0x0;
  0x0; 0x0; 0x0; 0x0; 0x0; 0x0; 0xf; 0xff ].

Definition quicksand_bitmap_4 : list Z :=
  [ 0xff; 0xff; 0xf8; 0x0; 0x0; 0x0; 0x0; 0x0;
  0x0; 0x0; 0x0; 0x0; 0x0; 0x0; 0x0; 0x0;
  0x0; 0x0; 0x0; 0x0; 0x2; 0xff; 0xff; 0xff;
  0xff; 0x0; 0x0; 0x0; 0x0; 0x0; 0x0; 0x0;
  0x0; 0x0; 0x0; 0x0; 0x0; 0x0; 0x0; 0x0;
  0x0; 0x0; 0x0; 0x7f; 0xff; 0xff; 0xff; 0xc0;
  0x0; 0x0; 0x0; 0x0; 0x0; 0x0; 0x0; 0x0;
  0x0; 0x0; 0x0; 0x0; 0x0; 0x0; 0x0; 0x0;
  0x0; 0xf; 0xff; 0xff; 0xff; 0xf4; 0x0; 0x0;
  0x0; 0x0; 0x0; 0x0; 0x0; 0x0; 0x0; 0x0;
  0x0; 0x0; 0x0; 0x0; 0x0; 0x0; 0x0; 0x3;
  0xff; 0xff; 0xff; 0xff; 0x0; 0x0; 0x0; 0x0;
  0x0; 0x0; 0x0; 0x0; 0x0; 0x0; 0x0; 0x0;
  0x0; 0x0; 0x0; 0x0; 0x0; 0x0; 0xbf; 0xff;
  0xff; 0xff; 0xc0; 0x0; 0x0; 0x0; 0x0; 0x0;
  0x0; 0x0; 0x0; 0x0; 0x0; 0x0; 0x0; 0x0;
  0x0; 0x0; 0x0; 0x0; 0x1f; 0xff; 0xff; 0xff;
  0xf8; 0x0; 0x0; 0x0; 0x0; 0x0; 0x0; 0x0;
  0x0; 0x0; 0x0; 0x0; 0x0; 0x0; 0x0; 0x0;
  0x0; 0x0; 0x3; 0xff; 0xff; 0xff; 0xff; 0x0;
  0x0; 0x0; 0x0; 0x0; 0x0; 0x0; 0x0; 0x0;
  0x0; 0x0; 0x0; 0x0; 0x0; 0x0; 0x0; 0x0;
  0x0; 0xff; 0xff; 0xff; 0xff; 0xe0; 0x0; 0x0;
  0x0; 0x0; 0x0; 0x0; 0x0; 0x0; 0x0; 0x0;
  0x0; 0x0; 0x0; 0x0; 0x0; 0x0; 0x0; 0x1f;
  0xff; 0xff; 0xff; 0xfc; 0x0; 0x0; 0x0; 0x0;
  0x0; 0x0; 0x0; 0x0; 0x0; 0x0; 0x0; 0x0;
  0x0; 0x0; 0x0; 0x0; 0x0; 0x3; 0xff; 0xff;
  0xff; 0xff; 0x80; 0x0; 0x0; 0x0; 0x0; 0x0;
  0x0; 0x0; 0x0; 0x0; 0x0; 0x0; 0x0; 0x0;
  0x0; 0x0; 0x0; 0x0; 0xff; 0xff; 0xff; 0xff;
  0xf0; 0x0; 0x0; 0x0; 0x0; 0x0; 0x0; 0x0;
  0x0; 0x0; 0x0; 0x0; 0x0; 0x0; 0x0; 0x0;
  0x0; 0x0; 0x1f; 0xff; 0xff; 0xff; 0xff; 0x0;
  0x0; 0x0; 0x0; 0x0; 0x0; 0x0; 0x0; 0x0;
  0x0; 0x0; 0x0; 0x0; 0x0; 0x0; 0x0; 0x0;
  0x3; 0xff; 0xff; 0xff; 0xff; 0xe0; 0x0; 0x0;
  0x0; 0x0; 0x0; 0x0; 0x0; 0x0; 0x0; 0x0;
  0x0; 0x0; 0x0; 0x0; 0x0; 0x0; 0x0; 0x7f;
  0xff; 0xff; 0xff; 0xfd; 0x0; 0x0; 0x0; 0x0;
  0x0; 0x0; 0x0; 0x0; 0x0; 0x0; 0x0; 0x0;
  0x0; 0x0; 0x0; 0x0; 0x0; 0xf; 0xff; 0xff;
  0xff; 0xff; 0xc0; 0x0; 0x0; 0x0; 0x0; 0x0;
  0x0; 0x0; 0x0; 0x0; 0x0; 0x0; 0x0; 0x0;
  0x0; 0x0; 0x0; 0x1; 0xff; 0xff; 0xff; 0xff;
  0xfc; 0x0; 0x0; 0x0; 0x0; 0x0; 0x0; 0x0;
  0x0; 0x0; 0x0; 0x0; 0x0; 0x0; 0x0; 0x0;
  0x0; 0x0; 0x3f; 0xff; 0xff; 0xff; 0xff; 0xc0;
  0x0; 0x0; 0x0; 0x0; 0x0; 0x0; 0x0; 0x0;
  0x0; 0x0; 0x0; 0x0; 0x0; 0x0; 0x0; 0x0;
  0x7; 0xff; 0xff; 0xff; 0xff; 0xfc; 0x0; 0x0;
  0x0; 0x0; 0x0; 0x0; 0x0; 0x0; 0x0; 0x0;
  0x0; 0x0; 0x1a; 0xe8; 0x0; 0x0; 0x0; 0xff;
  0xff; 0xff; 0xff; 0xff; 0xc0; 0x0; 0x0; 0x0;
  0x0; 0x0; 0x0; 0x0; 0x0; 0x0; 0x0; 0x0;
  0x3f; 0xff; 0xe0; 0x0; 0x0; 0xf; 0xff; 0xff;
  0xff; 0xff; 0xfc; 0x0; 0x0; 0x0; 0x0; 0x0;
  0x0; 0x0; 0x0; 0x0; 0x0; 0x0; 0x3f; 0xff;
  0xfe; 0x0; 0x0; 0x2; 0xff; 0xff; 0xff; 0xff;
  0xff; 0xd0; 0x0; 0x0; 0x0; 0x0; 0x0; 0x0;
  0x0; 0x0; 0x0; 0x0; 0x3f; 0xff; 0xff; 0xd0;
  0x0; 0x0; 0x3f; 0xff; 0xff; 0xff; 0xff; 0xfe;
  0x0; 0x0; 0x0; 0x0; 0x0; 0x0; 0x0; 0x0;
  0x0; 0x0; 0x7f; 0xff; 0xff; 0xfc; 0x0; 0x0;
  0x3; 0xff; 0xff; 0xff; 0xff; 0xff; 0xf4; 0x0;
  0x0; 0x0; 0x0; 0x0; 0x0; 0x0; 0x0; 0x0;
  0xff; 0xff; 0xff; 0xff; 0x40; 0x0; 0x0; 0x7f;
  0xff; 0xff; 0xff; 0xff; 0xff; 0xd0; 0x0; 0x0;
  0x0; 0x0; 0x0; 0x0; 0x0; 0x2; 0xff; 0xff;
  0xff; 0xff; 0xe0; 0x0; 0x0; 0xb; 0xff; 0xff;
  0xff; 0xff; 0xff; 0xff; 0x40; 0x0; 0x0; 0x0;
  0x0; 0x0; 0x0; 0xb; 0xff; 0xff; 0xff; 0xff;
  0xf8; 0x0; 0x0; 0x0; 0xff; 0xff; 0xff; 0xff;
  0xff; 0xff; 0xfe; 0x40; 0x0; 0x0; 0x0; 0x0;
  0x0; 0xbf; 0xff; 0xff; 0xff; 0xff; 0xfe; 0x0;
  0x0; 0x0; 0xf; 0xff; 0xff; 0xff; 0xff; 0xff;
  0xff; 0xff; 0x90; 0x0; 0x0; 0x0; 0x5b; 0xff;
  0xff; 0xff; 0xff; 0xff; 0xff; 0x40; 0x0; 0x0;
  0x0; 0xff; 0xff; 0xff; 0xff; 0xff; 0xff; 0xff;
  0xff; 0xff; 0xff; 0xff; 0xff; 0xff; 0xff; 0xff;
  0xff; 0xff; 0xff; 0xc0; 0x0; 0x0; 0x0; 0xf;
  0xff; 0xff; 0xff; 0xff; 0xff; 0xff; 0xff; 0xff;
  0xff; 0xff; 0xff; 0xff; 0xff; 0xff; 0xff; 0xff;
  0xff; 0xd0; 0x0; 0x0; 0x0; 0x0; 0xff; 0xff;
  0xff; 0xff; 0xff; 0xff; 0xff; 0xff; 0xff; 0xff;
  0xff; 0xff; 0xff; 0xff; 0xff; 0xff; 0xff; 0xe0;
  0x0; 0x0; 0x0; 0x0; 0xb; 0xff; 0xff; 0xff;
  0xff; 0xff; 0xff; 0xff; 0xff; 0xff; 0xff; 0xff;
  0xff; 0xff; 0xff; 0xff; 0xff; 0xe0; 0x0; 0x0;
  0x0; 0x0; 0x0; 0xbf; 0xff; 0xff; 0xff; 0xff;
  0xff; 0xff; 0xff; 0xff; 0xff; 0xff; 0xff; 0xff;
  0xff; 0xff; 0xff; 0xe0; 0x0; 0x0; 0x0; 0x0;
  0x0; 0x7; 0xff; 0xff; 0xff; 0xff; 0xff; 0xff;
  0xff; 0xff; 0xff; 0xff; 0xff; 0xff; 0xff; 0xff;
  0xff; 0xd0; 0x0; 0x0; 0x0; 0x0; 0x0; 0x0;
  0x3f; 0xff; 0xff; 0xff; 0xff; 0xff; 0xff; 0xff;
  0xff; 0xff; 0xff; 0xff; 0xff; 0xff; 0xff; 0xc0;
  0x0; 0x0; 0x0; 0x0; 0x0; 0x0; 0x1; 0xff;
  0xff; 0xff; 0xff; 0xff; 0xff; 0xff; 0xff; 0xff;
  0xff; 0xff; 0xff; 0xff; 0xff; 0x80; 0x0; 0x0;
  0x0; 0x0; 0x0; 0x0; 0x0; 0xb; 0xff; 0xff;
  0xff; 0xff; 0xff; 0xff; 0xff; 0xff; 0xff; 0xff;
  0xff; 0xff; 0xfe; 0x0; 0x0; 0x0; 0x0; 0x0;
  0x0; 0x0; 0x0; 0x0; 0x3f; 0xff; 0xff; 0xff;
  0xff; 0xff; 0xff; 0xff; 0xff; 0xff; 0xff; 0xff;
  0xf8; 0x0; 0x0; 0x0; 0x0; 0x0; 0x0; 0x0;
  0x0; 0x0; 0x1; 0xbf; 0xff; 0xff; 0xff; 0xff;
  0xff; 0xff; 0xff; 0xff; 0xff; 0xff; 0xe0; 0x0;
  0x0; 0x0; 0x0; 0x0; 0x0; 0x0; 0x0; 0x0;
  0x0; 0x2; 0xff; 0xff; 0xff; 0xff; 0xff; 0xff;
  0xff; 0xff; 0xff; 0xfe; 0x40; 0x0; 0x0; 0x0;
  0x0; 0x0; 0x0; 0x0; 0x0; 0x0; 0x0; 0x0;
  0x6; 0xff; 0xff; 0xff; 0xff; 0xff; 0xff; 0xff;
  0xff; 0xe4; 0x0; 0x0; 0x0; 0x0; 0x0; 0x0;
  0x0; 0x0; 0x0; 0x0; 0x0; 0x0; 0x0; 0x1;
  0xbf; 0xff; 0xff; 0xff; 0xff; 0xff; 0xf9; 0x0;
  0x0; 0x0; 0x0; 0x0; 0x0; 0x0; 0x0; 0x0;
  0x0; 0x0; 0x0; 0x0; 0x0; 0x0; 0x0; 0x5a;
  0xff; 0xff; 0xff; 0xa5; 0x0; 0x0; 0x0; 0x0;
  0x0; 0x0; 0x0;
  0x0; 0x0; 0x0; 0x0; 0x0; 0x0; 0x0; 0x0;
  0x0; 0x0; 0x0; 0x1a; 0xff; 0xff; 0xfa; 0x40;
  0x0; 0x0; 0x0; 0x0; 0x0; 0x0; 0x0; 0x0;
  0x0; 0x0; 0x0; 0x0; 0x0; 0x0; 0x0; 0x0;
  0x2f; 0xff; 0xff; 0xff; 0xff; 0xff; 0x90; 0x0;
  0x0; 0x0; 0x0; 0x0; 0x0; 0x1; 0x54; 0x0;
  0x0; 0x0; 0x0; 0x0; 0x0; 0xb; 0xff; 0xff;
  0xff; 0xff; 0xff; 0xff; 0xfe; 0x0; 0x0; 0x0;
  0x0; 0x0; 0x0; 0x2f; 0xff; 0x80; 0x0; 0x0;
  0x0; 0x0; 0x1; 0xbf; 0xff; 0xff; 0xff; 0xff;
  0xff; 0xff; 0xff; 0xf4; 0x0; 0x0; 0x0; 0x0;
  0x1; 0xff; 0xff; 0xf0; 0x0; 0x0; 0x0; 0x0;
  0x1f; 0xff; 0xff; 0xff; 0xff; 0xff; 0xff; 0xff;
  0xff; 0xfe; 0x0; 0x0; 0x0; 0x0; 0x7; 0xff;
  0xff; 0xfc; 0x0; 0x0; 0x0; 0x0; 0xff; 0xff;
  0xff; 0xff; 0xff; 0xff; 0xff; 0xff; 0xff; 0xff;
  0xd0; 0x0; 0x0; 0x0; 0xf; 0xff; 0xff; 0xff;
  0x0; 0x0; 0x0; 0xb; 0xff; 0xff; 0xff; 0xff;
  0xff; 0xff; 0xff; 0xff; 0xff; 0xff; 0xf8; 0x0;
  0x0; 0x0; 0x2f; 0xff; 0xff; 0xff; 0x0; 0x0;
  0x0; 0x7f; 0xff; 0xff; 0xff; 0xff; 0xff; 0xff;
  0xff; 0xff; 0xff; 0xff; 0xff; 0x0; 0x0; 0x0;
  0x3f; 0xff; 0xff; 0xff; 0x80; 0x0; 0x2; 0xff;
  0xff; 0xff; 0xff; 0xff; 0xff; 0xff; 0xff; 0xff;
  0xff; 0xff; 0xff; 0xc0; 0x0; 0x0; 0x3f; 0xff;
  0xff; 0xff; 0x80; 0x0; 0xf; 0xff; 0xff; 0xff;
  0xff; 0xff; 0xff; 0xff; 0xff; 0xff; 0xff; 0xff;
  0xff; 0xf0; 0x0; 0x0; 0x3f; 0xff; 0xff; 0xff ].

Definition quicksand_bitmap_5 : list Z :=
  [ 0xc0; 0x0; 0x7f; 0xff; 0xff; 0xff; 0xff; 0xff;
  0xff; 0xff; 0xff; 0xff; 0xff; 0xff; 0xff; 0xfc;
  0x0; 0x0; 0x3f; 0xff; 0xff; 0xff; 0xc0; 0x1;
  0xff; 0xff; 0xff; 0xff; 0xff; 0xff; 0xff; 0xff;
  0xff; 0xff; 0xff; 0xff; 0xff; 0xff; 0x0; 0x0;
  0x3f; 0xff; 0xff; 0xff; 0xc0; 0x7; 0xff; 0xff;
  0xff; 0xff; 0xff; 0xff; 0xff; 0xff; 0xff; 0xff;
  0xff; 0xff; 0xff; 0xff; 0x80; 0x0; 0x3f; 0xff;
  0xff; 0xff; 0xc0; 0x1f; 0xff; 0xff; 0xff; 0xff;
  0xff; 0xff; 0xff; 0xff; 0xff; 0xff; 0xff; 0xff;
  0xff; 0xff; 0xc0; 0x0; 0x3f; 0xff; 0xff; 0xff;
  0xc0; 0x7f; 0xff; 0xff; 0xff; 0xff; 0xff; 0xff;
  0xff; 0xff; 0xff; 0xff; 0xff; 0xff; 0xff; 0xff;
  0xf0; 0x0; 0x3f; 0xff; 0xff; 0xff; 0xc0; 0xff;
  0xff; 0xff; 0xff; 0xfe; 0x90; 0x0; 0x0; 0x16;
  0xff; 0xff; 0xff; 0xff; 0xff; 0xff; 0xf4; 0x0;
  0x3f; 0xff; 0xff; 0xff; 0xc3; 0xff; 0xff; 0xff;
  0xff; 0x90; 0x0; 0x0; 0x0; 0x0; 0xb; 0xff;
  0xff; 0xff; 0xff; 0xff; 0xfc; 0x0; 0x3f; 0xff;
  0xff; 0xff; 0xcb; 0xff; 0xff; 0xff; 0xf4; 0x0;
  0x0; 0x0; 0x0; 0x0; 0x0; 0xbf; 0xff; 0xff;
  0xff; 0xff; 0xfd; 0x0; 0x3f; 0xff; 0xff; 0xff;
  0xdf; 0xff; 0xff; 0xff; 0x40; 0x0; 0x0; 0x0;
  0x0; 0x0; 0x0; 0xf; 0xff; 0xff; 0xff; 0xff;
  0xff; 0x0; 0x3f; 0xff; 0xff; 0xff; 0xff; 0xff;
  0xff; 0xf4; 0x0; 0x0; 0x0; 0x0; 0x0; 0x0;
  0x0; 0x2; 0xff; 0xff; 0xff; 0xff; 0xff; 0x40;
  0x3f; 0xff; 0xff; 0xff; 0xff; 0xff; 0xff; 0xc0;
  0x0; 0x0; 0x0; 0x0; 0x0; 0x0; 0x0; 0x0;
  0x7f; 0xff; 0xff; 0xff; 0xff; 0x80; 0x3f; 0xff;
  0xff; 0xff; 0xff; 0xff; 0xfe; 0x0; 0x0; 0x0;
  0x0; 0x0; 0x0; 0x0; 0x0; 0x0; 0x1f; 0xff;
  0xff; 0xff; 0xff; 0xc0; 0x3f; 0xff; 0xff; 0xff;
  0xff; 0xff; 0xf4; 0x0; 0x0; 0x0; 0x0; 0x0;
  0x0; 0x0; 0x0; 0x0; 0xb; 0xff; 0xff; 0xff;
  0xff; 0xd0; 0x3f; 0xff; 0xff; 0xff; 0xff; 0xff;
  0xc0; 0x0; 0x0; 0x0; 0x0; 0x0; 0x0; 0x0;
  0x0; 0x0; 0x3; 0xff; 0xff; 0xff; 0xff; 0xe0;
  0x3f; 0xff; 0xff; 0xff; 0xff; 0xff; 0x0; 0x0;
  0x0; 0x0; 0x0; 0x0; 0x0; 0x0; 0x0; 0x0;
  0x0; 0xff; 0xff; 0xff; 0xff; 0xf0; 0x3f; 0xff;
  0xff; 0xff; 0xff; 0xfc; 0x0; 0x0; 0x0; 0x0;
  0x0; 0x0; 0x0; 0x0; 0x0; 0x0; 0x0; 0xbf;
  0xff; 0xff; 0xff; 0xf0; 0x3f; 0xff; 0xff; 0xff;
  0xff; 0xf4; 0x0; 0x0; 0x0; 0x0; 0x0; 0x0;
  0x0; 0x0; 0x0; 0x0; 0x0; 0x3f; 0xff; 0xff;
  0xff; 0xf4; 0x3f; 0xff; 0xff; 0xff; 0xff; 0xe0;
  0x0; 0x0; 0x0; 0x0; 0x0; 0x0; 0x0; 0x0;
  0x0; 0x0; 0x0; 0x2f; 0xff; 0xff; 0xff; 0xf8;
  0x3f; 0xff; 0xff; 0xff; 0xff; 0xc0; 0x0; 0x0;
  0x0; 0x0; 0x0; 0x0; 0x0; 0x0; 0x0; 0x0;
  0x0; 0xf; 0xff; 0xff; 0xff; 0xfc; 0x3f; 0xff;
  0xff; 0xff; 0xff; 0x0; 0x0; 0x0; 0x0; 0x0;
  0x0; 0x0; 0x0; 0x0; 0x0; 0x0; 0x0; 0xf;
  0xff; 0xff; 0xff; 0xfc; 0x3f; 0xff; 0xff; 0xff;
  0xfe; 0x0; 0x0; 0x0; 0x0; 0x0; 0x0; 0x0;
  0x0; 0x0; 0x0; 0x0; 0x0; 0xb; 0xff; 0xff;
  0xff; 0xfc; 0x3f; 0xff; 0xff; 0xff; 0xfc; 0x0;
  0x0; 0x0; 0x0; 0x0; 0x0; 0x0; 0x0; 0x0;
  0x0; 0x0; 0x0; 0x7; 0xff; 0xff; 0xff; 0xfd;
  0x3f; 0xff; 0xff; 0xff; 0xf8; 0x0; 0x0; 0x0;
  0x0; 0x0; 0x0; 0x0; 0x0; 0x0; 0x0; 0x0;
  0x0; 0x3; 0xff; 0xff; 0xff; 0xfd; 0x3f; 0xff;
  0xff; 0xff; 0xf4; 0x0; 0x0; 0x0; 0x0; 0x0;
  0x0; 0x0; 0x0; 0x0; 0x0; 0x0; 0x0; 0x3;
  0xff; 0xff; 0xff; 0xfe; 0x3f; 0xff; 0xff; 0xff;
  0xf0; 0x0; 0x0; 0x0; 0x0; 0x0; 0x0; 0x0;
  0x0; 0x0; 0x0; 0x0; 0x0; 0x2; 0xff; 0xff;
  0xff; 0xfe; 0x3f; 0xff; 0xff; 0xff; 0xe0; 0x0;
  0x0; 0x0; 0x0; 0x0; 0x0; 0x0; 0x0; 0x0;
  0x0; 0x0; 0x0; 0x1; 0xff; 0xff; 0xff; 0xff;
  0x3f; 0xff; 0xff; 0xff; 0xd0; 0x0; 0x0; 0x0;
  0x0; 0x0; 0x0; 0x0; 0x0; 0x0; 0x0; 0x0;
  0x0; 0x1; 0xff; 0xff; 0xff; 0xff; 0x3f; 0xff;
  0xff; 0xff; 0xc0; 0x0; 0x0; 0x0; 0x0; 0x0;
  0x0; 0x0; 0x0; 0x0; 0x0; 0x0; 0x0; 0x0;
  0xff; 0xff; 0xff; 0xff; 0x3f; 0xff; 0xff; 0xff;
  0xc0; 0x0; 0x0; 0x0; 0x0; 0x0; 0x0; 0x0;
  0x0; 0x0; 0x0; 0x0; 0x0; 0x0; 0xff; 0xff;
  0xff; 0xff; 0x3f; 0xff; 0xff; 0xff; 0xc0; 0x0;
  0x0; 0x0; 0x0; 0x0; 0x0; 0x0; 0x0; 0x0;
  0x0; 0x0; 0x0; 0x0; 0xff; 0xff; 0xff; 0xff;
  0x3f; 0xff; 0xff; 0xff; 0xc0; 0x0; 0x0; 0x0;
  0x0; 0x0; 0x0; 0x0; 0x0; 0x0; 0x0; 0x0;
  0x0; 0x0; 0xff; 0xff; 0xff; 0xff; 0x3f; 0xff;
  0xff; 0xff; 0xc0; 0x0; 0x0; 0x0; 0x0; 0x0;
  0x0; 0x0; 0x0; 0x0; 0x0; 0x0; 0x0; 0x0;
  0xff; 0xff; 0xff; 0xff; 0x3f; 0xff; 0xff; 0xff;
  0xc0; 0x0; 0x0; 0x0; 0x0; 0x0; 0x0; 0x0;
  0x0; 0x0; 0x0; 0x0; 0x0; 0x0; 0xff; 0xff;
  0xff; 0xff; 0x3f; 0xff; 0xff; 0xff; 0xc0; 0x0;
  0x0; 0x0; 0x0; 0x0; 0x0; 0x0; 0x0; 0x0;
  0x0; 0x0; 0x0; 0x0; 0xff; 0xff; 0xff; 0xff;
  0x3f; 0xff; 0xff; 0xff; 0xc0; 0x0; 0x0; 0x0;
  0x0; 0x0; 0x0; 0x0; 0x0; 0x0; 0x0; 0x0;
  0x0; 0x0; 0xff; 0xff; 0xff; 0xff; 0x3f; 0xff;
  0xff; 0xff; 0xc0; 0x0; 0x0; 0x0; 0x0; 0x0;
  0x0; 0x0; 0x0; 0x0; 0x0; 0x0; 0x0; 0x0;
  0xff; 0xff; 0xff; 0xff; 0x3f; 0xff; 0xff; 0xff;
  0xc0; 0x0; 0x0; 0x0; 0x0; 0x0; 0x0; 0x0;
  0x0; 0x0; 0x0; 0x0; 0x0; 0x0; 0xff; 0xff;
  0xff; 0xff; 0x3f; 0xff; 0xff; 0xff; 0xc0; 0x0;
  0x0; 0x0; 0x0; 0x0; 0x0; 0x0; 0x0; 0x0;
  0x0; 0x0; 0x0; 0x0; 0xff; 0xff; 0xff; 0xff;
  0x3f; 0xff; 0xff; 0xff; 0xc0; 0x0; 0x0; 0x0;
  0x0; 0x0; 0x0; 0x0; 0x0; 0x0; 0x0; 0x0;
  0x0; 0x0; 0xff; 0xff; 0xff; 0xff; 0x3f; 0xff;
  0xff; 0xff; 0xc0; 0x0; 0x0; 0x0; 0x0; 0x0;
  0x0; 0x0; 0x0; 0x0; 0x0; 0x0; 0x0; 0x0;
  0xff; 0xff; 0xff; 0xff; 0x3f; 0xff; 0xff; 0xff;
  0xc0; 0x0; 0x0; 0x0; 0x0; 0x0; 0x0; 0x0;
  0x0; 0x0; 0x0; 0x0; 0x0; 0x0; 0xff; 0xff;
  0xff; 0xff; 0x3f; 0xff; 0xff; 0xff; 0xc0; 0x0;
  0x0; 0x0; 0x0; 0x0; 0x0; 0x0; 0x0; 0x0;
  0x0; 0x0; 0x0; 0x0; 0xff; 0xff; 0xff; 0xff;
  0x3f; 0xff; 0xff; 0xff; 0xc0; 0x0; 0x0; 0x0;
  0x0; 0x0; 0x0; 0x0; 0x0; 0x0; 0x0; 0x0;
  0x0; 0x0; 0xff; 0xff; 0xff; 0xff; 0x3f; 0xff;
  0xff; 0xff; 0xc0; 0x0; 0x0; 0x0; 0x0; 0x0;
  0x0; 0x0; 0x0; 0x0; 0x0; 0x0; 0x0; 0x0;
  0xff; 0xff; 0xff; 0xff; 0x3f; 0xff; 0xff; 0xff;
  0xc0; 0x0; 0x0; 0x0; 0x0; 0x0; 0x0; 0x0;
  0x0; 0x0; 0x0; 0x0; 0x0; 0x0; 0xff; 0xff;
  0xff; 0xff; 0x3f; 0xff; 0xff; 0xff; 0xc0; 0x0;
  0x0; 0x0; 0x0; 0x0; 0x0; 0x0; 0x0; 0x0;
  0x0; 0x0; 0x0; 0x0; 0xff; 0xff; 0xff; 0xff;
  0x3f; 0xff; 0xff; 0xff; 0xc0; 0x0; 0x0; 0x0;
  0x0; 0x0; 0x0; 0x0; 0x0; 0x0; 0x0; 0x0;
  0x0; 0x0; 0xff; 0xff; 0xff; 0xff; 0x3f; 0xff;
  0xff; 0xff; 0xc0; 0x0; 0x0; 0x0; 0x0; 0x0;
  0x0; 0x0; 0x0; 0x0; 0x0; 0x0; 0x0; 0x0;
  0xff; 0xff; 0xff; 0xff; 0x3f; 0xff; 0xff; 0xff;
  0xc0; 0x0; 0x0; 0x0; 0x0; 0x0; 0x0; 0x0;
  0x0; 0x0; 0x0; 0x0; 0x0; 0x0; 0xff; 0xff;
  0xff; 0xff; 0x3f; 0xff; 0xff; 0xff; 0xc0; 0x0;
  0x0; 0x0; 0x0; 0x0; 0x0; 0x0; 0x0; 0x0;
  0x0; 0x0; 0x0; 0x0; 0xff; 0xff; 0xff; 0xff;
  0x3f; 0xff; 0xff; 0xff; 0xc0; 0x0; 0x0; 0x0;
  0x0; 0x0; 0x0; 0x0; 0x0; 0x0; 0x0; 0x0;
  0x0; 0x0; 0xff; 0xff; 0xff; 0xff; 0x3f; 0xff;
  0xff; 0xff; 0xc0; 0x0; 0x0; 0x0; 0x0; 0x0;
  0x0; 0x0; 0x0; 0x0; 0x0; 0x0; 0x0; 0x0;
  0xff; 0xff; 0xff; 0xff; 0x3f; 0xff; 0xff; 0xff;
  0xc0; 0x0; 0x0; 0x0; 0x0; 0x0; 0x0; 0x0;
  0x0; 0x0; 0x0; 0x0; 0x0; 0x0; 0xff; 0xff;
  0xff; 0xff; 0x3f; 0xff; 0xff; 0xff; 0xc0; 0x0;
  0x0; 0x0; 0x0; 0x0; 0x0; 0x0; 0x0; 0x0;
  0x0; 0x0; 0x0; 0x0; 0xff; 0xff; 0xff; 0xff;
  0x3f; 0xff; 0xff; 0xff; 0xc0; 0x0; 0x0; 0x0;
  0x0; 0x0; 0x0; 0x0; 0x0; 0x0; 0x0; 0x0 ].

Definition quicksand_bitmap_6 : list Z :=
  [ 0x0; 0x0; 0xff; 0xff; 0xff; 0xff; 0x3f; 0xff;
  0xff; 0xff; 0xc0; 0x0; 0x0; 0x0; 0x0; 0x0;
  0x0; 0x0; 0x0; 0x0; 0x0; 0x0; 0x0; 0x0;
  0xff; 0xff; 0xff; 0xff; 0x3f; 0xff; 0xff; 0xff;
  0xc0; 0x0; 0x0; 0x0; 0x0; 0x0; 0x0; 0x0;
  0x0; 0x0; 0x0; 0x0; 0x0; 0x0; 0xff; 0xff;
  0xff; 0xff; 0x3f; 0xff; 0xff; 0xff; 0xc0; 0x0;
  0x0; 0x0; 0x0; 0x0; 0x0; 0x0; 0x0; 0x0;
  0x0; 0x0; 0x0; 0x0; 0xff; 0xff; 0xff; 0xff;
  0x3f; 0xff; 0xff; 0xff; 0xc0; 0x0; 0x0; 0x0;
  0x0; 0x0; 0x0; 0x0; 0x0; 0x0; 0x0; 0x0;
  0x0; 0x0; 0xff; 0xff; 0xff; 0xff; 0x3f; 0xff;
  0xff; 0xff; 0xc0; 0x0; 0x0; 0x0; 0x0; 0x0;
  0x0; 0x0; 0x0; 0x0; 0x0; 0x0; 0x0; 0x0;
  0xff; 0xff; 0xff; 0xff; 0x3f; 0xff; 0xff; 0xff;
  0xc0; 0x0; 0x0; 0x0; 0x0; 0x0; 0x0; 0x0;
  0x0; 0x0; 0x0; 0x0; 0x0; 0x0; 0xff; 0xff;
  0xff; 0xff; 0x3f; 0xff; 0xff; 0xff; 0xc0; 0x0;
  0x0; 0x0; 0x0; 0x0; 0x0; 0x0; 0x0; 0x0;
  0x0; 0x0; 0x0; 0x0; 0xff; 0xff; 0xff; 0xff;
  0x3f; 0xff; 0xff; 0xff; 0xc0; 0x0; 0x0; 0x0;
  0x0; 0x0; 0x0; 0x0; 0x0; 0x0; 0x0; 0x0;
  0x0; 0x0; 0xff; 0xff; 0xff; 0xff; 0x3f; 0xff;
  0xff; 0xff; 0xc0; 0x0; 0x0; 0x0; 0x0; 0x0;
  0x0; 0x0; 0x0; 0x0; 0x0; 0x0; 0x0; 0x0;
  0xff; 0xff; 0xff; 0xff; 0x3f; 0xff; 0xff; 0xff;
  0xc0; 0x0; 0x0; 0x0; 0x0; 0x0; 0x0; 0x0;
  0x0; 0x0; 0x0; 0x0; 0x0; 0x0; 0xff; 0xff;
  0xff; 0xff; 0x3f; 0xff; 0xff; 0xff; 0xc0; 0x0;
  0x0; 0x0; 0x0; 0x0; 0x0; 0x0; 0x0; 0x0;
  0x0; 0x0; 0x0; 0x0; 0xff; 0xff; 0xff; 0xff;
  0x3f; 0xff; 0xff; 0xff; 0xc0; 0x0; 0x0; 0x0;
  0x0; 0x0; 0x0; 0x0; 0x0; 0x0; 0x0; 0x0;
  0x0; 0x0; 0xff; 0xff; 0xff; 0xff; 0x3f; 0xff;
  0xff; 0xff; 0xc0; 0x0; 0x0; 0x0; 0x0; 0x0;
  0x0; 0x0; 0x0; 0x0; 0x0; 0x0; 0x0; 0x0;
  0xff; 0xff; 0xff; 0xff; 0x3f; 0xff; 0xff; 0xff;
  0xc0; 0x0; 0x0; 0x0; 0x0; 0x0; 0x0; 0x0;
  0x0; 0x0; 0x0; 0x0; 0x0; 0x0; 0xff; 0xff;
  0xff; 0xff; 0x3f; 0xff; 0xff; 0xff; 0xc0; 0x0;
  0x0; 0x0; 0x0; 0x0; 0x0; 0x0; 0x0; 0x0;
  0x0; 0x0; 0x0; 0x0; 0xff; 0xff; 0xff; 0xff;
  0x3f; 0xff; 0xff; 0xff; 0xc0; 0x0; 0x0; 0x0;
  0x0; 0x0; 0x0; 0x0; 0x0; 0x0; 0x0; 0x0;
  0x0; 0x0; 0xff; 0xff; 0xff; 0xff; 0x3f; 0xff;
  0xff; 0xff; 0xc0; 0x0; 0x0; 0x0; 0x0; 0x0;
  0x0; 0x0; 0x0; 0x0; 0x0; 0x0; 0x0; 0x0;
  0xff; 0xff; 0xff; 0xff; 0x3f; 0xff; 0xff; 0xff;
  0xc0; 0x0; 0x0; 0x0; 0x0; 0x0; 0x0; 0x0;
  0x0; 0x0; 0x0; 0x0; 0x0; 0x0; 0xff; 0xff;
  0xff; 0xff; 0x3f; 0xff; 0xff; 0xff; 0xc0; 0x0;
  0x0; 0x0; 0x0; 0x0; 0x0; 0x0; 0x0; 0x0;
  0x0; 0x0; 0x0; 0x0; 0xff; 0xff; 0xff; 0xff;
  0x3f; 0xff; 0xff; 0xff; 0xc0; 0x0; 0x0; 0x0;
  0x0; 0x0; 0x0; 0x0; 0x0; 0x0; 0x0; 0x0;
  0x0; 0x0; 0xff; 0xff; 0xff; 0xff; 0x3f; 0xff;
  0xff; 0xff; 0xc0; 0x0; 0x0; 0x0; 0x0; 0x0;
  0x0; 0x0; 0x0; 0x0; 0x0; 0x0; 0x0; 0x0;
  0xff; 0xff; 0xff; 0xff; 0x3f; 0xff; 0xff; 0xff;
  0xc0; 0x0; 0x0; 0x0; 0x0; 0x0; 0x0; 0x0;
  0x0; 0x0; 0x0; 0x0; 0x0; 0x0; 0xff; 0xff;
  0xff; 0xff; 0x3f; 0xff; 0xff; 0xff; 0xc0; 0x0;
  0x0; 0x0; 0x0; 0x0; 0x0; 0x0; 0x0; 0x0;
  0x0; 0x0; 0x0; 0x0; 0xff; 0xff; 0xff; 0xff;
  0x3f; 0xff; 0xff; 0xff; 0xc0; 0x0; 0x0; 0x0;
  0x0; 0x0; 0x0; 0x0; 0x0; 0x0; 0x0; 0x0;
  0x0; 0x0; 0xff; 0xff; 0xff; 0xff; 0x3f; 0xff;
  0xff; 0xff; 0xc0; 0x0; 0x0; 0x0; 0x0; 0x0;
  0x0; 0x0; 0x0; 0x0; 0x0; 0x0; 0x0; 0x0;
  0xff; 0xff; 0xff; 0xff; 0x3f; 0xff; 0xff; 0xff;
  0xc0; 0x0; 0x0; 0x0; 0x0; 0x0; 0x0; 0x0;
  0x0; 0x0; 0x0; 0x0; 0x0; 0x0; 0xff; 0xff;
  0xff; 0xff; 0x3f; 0xff; 0xff; 0xff; 0xc0; 0x0;
  0x0; 0x0; 0x0; 0x0; 0x0; 0x0; 0x0; 0x0;
  0x0; 0x0; 0x0; 0x0; 0xff; 0xff; 0xff; 0xff;
  0x3f; 0xff; 0xff; 0xff; 0xc0; 0x0; 0x0; 0x0;
  0x0; 0x0; 0x0; 0x0; 0x0; 0x0; 0x0; 0x0;
  0x0; 0x0; 0xff; 0xff; 0xff; 0xff; 0x3f; 0xff;
  0xff; 0xff; 0xc0; 0x0; 0x0; 0x0; 0x0; 0x0;
  0x0; 0x0; 0x0; 0x0; 0x0; 0x0; 0x0; 0x0;
  0xff; 0xff; 0xff; 0xff; 0x3f; 0xff; 0xff; 0xff;
  0xc0; 0x0; 0x0; 0x0; 0x0; 0x0; 0x0; 0x0;
  0x0; 0x0; 0x0; 0x0; 0x0; 0x0; 0xff; 0xff;
  0xff; 0xff; 0x3f; 0xff; 0xff; 0xff; 0xc0; 0x0;
  0x0; 0x0; 0x0; 0x0; 0x0; 0x0; 0x0; 0x0;
  0x0; 0x0; 0x0; 0x0; 0xff; 0xff; 0xff; 0xff;
  0x3f; 0xff; 0xff; 0xff; 0xc0; 0x0; 0x0; 0x0;
  0x0; 0x0; 0x0; 0x0; 0x0; 0x0; 0x0; 0x0;
  0x0; 0x0; 0xff; 0xff; 0xff; 0xff; 0x3f; 0xff;
  0xff; 0xff; 0xc0; 0x0; 0x0; 0x0; 0x0; 0x0;
  0x0; 0x0; 0x0; 0x0; 0x0; 0x0; 0x0; 0x0;
  0xff; 0xff; 0xff; 0xff; 0x3f; 0xff; 0xff; 0xff;
  0xc0; 0x0; 0x0; 0x0; 0x0; 0x0; 0x0; 0x0;
  0x0; 0x0; 0x0; 0x0; 0x0; 0x0; 0xff; 0xff;
  0xff; 0xff; 0x3f; 0xff; 0xff; 0xff; 0x80; 0x0;
  0x0; 0x0; 0x0; 0x0; 0x0; 0x0; 0x0; 0x0;
  0x0; 0x0; 0x0; 0x0; 0xff; 0xff; 0xff; 0xff;
  0x3f; 0xff; 0xff; 0xff; 0x40; 0x0; 0x0; 0x0;
  0x0; 0x0; 0x0; 0x0; 0x0; 0x0; 0x0; 0x0;
  0x0; 0x0; 0xbf; 0xff; 0xff; 0xfe; 0x1f; 0xff;
  0xff; 0xff; 0x0; 0x0; 0x0; 0x0; 0x0; 0x0;
  0x0; 0x0; 0x0; 0x0; 0x0; 0x0; 0x0; 0x0;
  0x3f; 0xff; 0xff; 0xfc; 0xf; 0xff; 0xff; 0xfd;
  0x0; 0x0; 0x0; 0x0; 0x0; 0x0; 0x0; 0x0;
  0x0; 0x0; 0x0; 0x0; 0x0; 0x0; 0x2f; 0xff;
  0xff; 0xf8; 0x3; 0xff; 0xff; 0xf8; 0x0; 0x0;
  0x0; 0x0; 0x0; 0x0; 0x0; 0x0; 0x0; 0x0;
  0x0; 0x0; 0x0; 0x0; 0xb; 0xff; 0xff; 0xe0;
  0x0; 0xff; 0xff; 0xd0; 0x0; 0x0; 0x0; 0x0;
  0x0; 0x0; 0x0; 0x0; 0x0; 0x0; 0x0; 0x0;
  0x0; 0x0; 0x2; 0xff; 0xff; 0x80; 0x0; 0x1b;
  0xfe; 0x0; 0x0; 0x0; 0x0; 0x0; 0x0; 0x0;
  0x0; 0x0; 0x0; 0x0; 0x0; 0x0; 0x0; 0x0;
  0x0; 0x2f; 0xf8; 0x0;
  0x0; 0x0; 0x0; 0x0; 0x0; 0x0; 0x0; 0x0;
  0x0; 0x0; 0x1; 0x6b; 0xff; 0xff; 0xfa; 0x40;
  0x0; 0x0; 0x0; 0x0; 0x0; 0x0; 0x0; 0x0;
  0x0; 0x0; 0x0; 0x0; 0x0; 0x0; 0x0; 0x0;
  0x0; 0x0; 0x0; 0x6; 0xff; 0xff; 0xff; 0xff;
  0xff; 0xff; 0x90; 0x0; 0x0; 0x0; 0x0; 0x0;
  0x0; 0x0; 0x0; 0x0; 0x0; 0x0; 0x0; 0x0;
  0x0; 0x0; 0x0; 0x0; 0x1; 0xbf; 0xff; 0xff;
  0xff; 0xff; 0xff; 0xff; 0xff; 0x80; 0x0; 0x0;
  0x0; 0x0; 0x0; 0x0; 0x0; 0x0; 0x0; 0x0;
  0x0; 0x0; 0x0; 0x0; 0x0; 0x0; 0x6f; 0xff;
  0xff; 0xff; 0xff; 0xff; 0xff; 0xff; 0xff; 0xfd;
  0x0; 0x0; 0x0; 0x0; 0x0; 0x0; 0x0; 0x0;
  0x0; 0x0; 0x0; 0x0; 0x0; 0x0; 0x0; 0x7;
  0xff; 0xff; 0xff; 0xff; 0xff; 0xff; 0xff; 0xff;
  0xff; 0xff; 0xe0; 0x0; 0x0; 0x0; 0x0; 0x0;
  0x0; 0x0; 0x0; 0x0; 0x0; 0x0; 0x0; 0x0;
  0x0; 0x7f; 0xff; 0xff; 0xff; 0xff; 0xff; 0xff;
  0xff; 0xff; 0xff; 0xff; 0xfe; 0x0; 0x0; 0x0;
  0x0; 0x0; 0x0; 0x0; 0x0; 0x0; 0x0; 0x0;
  0x0; 0x0; 0x7; 0xff; 0xff; 0xff; 0xff; 0xff;
  0xff; 0xff; 0xff; 0xff; 0xff; 0xff; 0xff; 0xe0;
  0x0; 0x0; 0x0; 0x0; 0x0; 0x0; 0x0; 0x0;
  0x0; 0x0; 0x0; 0x0; 0x3f; 0xff; 0xff; 0xff;
  0xff; 0xff; 0xff; 0xff; 0xff; 0xff; 0xff; 0xff;
  0xff; 0xfd; 0x0; 0x0; 0x0; 0x0; 0x0; 0x0;
  0x0; 0x0; 0x0; 0x0; 0x0; 0x2; 0xff; 0xff;
  0xff; 0xff; 0xff; 0xff; 0xff; 0xff; 0xff; 0xff;
  0xff; 0xff; 0xff; 0xff; 0x80; 0x0; 0x0; 0x0;
  0x0; 0x0; 0x0; 0x0; 0x0; 0x0; 0x0; 0xf;
  0xff; 0xff; 0xff; 0xff; 0xff; 0xff; 0xff; 0xff;
  0xff; 0xff; 0xff; 0xff; 0xff; 0xff; 0xf4; 0x0;
  0x0; 0x0; 0x0; 0x0; 0x0; 0x0; 0x0; 0x0;
  0x0; 0x7f; 0xff; 0xff; 0xff; 0xff; 0xff; 0xff ].

Definition quicksand_bitmap_7 : list Z :=
  [ 0xff; 0xff; 0xff; 0xff; 0xff; 0xff; 0xff; 0xff;
  0xfe; 0x0; 0x0; 0x0; 0x0; 0x0; 0x0; 0x0;
  0x0; 0x0; 0x2; 0xff; 0xff; 0xff; 0xff; 0xff;
  0xff; 0xff; 0xff; 0xff; 0xff; 0xff; 0xff; 0xff;
  0xff; 0xff; 0xff; 0xc0; 0x0; 0x0; 0x0; 0x0;
  0x0; 0x0; 0x0; 0x0; 0xb; 0xff; 0xff; 0xff;
  0xff; 0xff; 0xff; 0xff; 0xff; 0xff; 0xff; 0xff;
  0xff; 0xff; 0xff; 0xff; 0xff; 0xf0; 0x0; 0x0;
  0x0; 0x0; 0x0; 0x0; 0x0; 0x0; 0x3f; 0xff;
  0xff; 0xff; 0xff; 0xff; 0xff; 0xff; 0xff; 0xff;
  0xff; 0xff; 0xff; 0xff; 0xff; 0xff; 0xff; 0xfc;
  0x0; 0x0; 0x0; 0x0; 0x0; 0x0; 0x0; 0x0;
  0xff; 0xff; 0xff; 0xff; 0xff; 0xff; 0xff; 0xff;
  0xff; 0xff; 0xff; 0xff; 0xff; 0xff; 0xff; 0xff;
  0xff; 0xff; 0x0; 0x0; 0x0; 0x0; 0x0; 0x0;
  0x0; 0x3; 0xff; 0xff; 0xff; 0xff; 0xff; 0xff;
  0xff; 0x90; 0x0; 0x0; 0x5; 0xbf; 0xff; 0xff;
  0xff; 0xff; 0xff; 0xff; 0xc0; 0x0; 0x0; 0x0;
  0x0; 0x0; 0x0; 0xf; 0xff; 0xff; 0xff; 0xff;
  0xff; 0xff; 0x90; 0x0; 0x0; 0x0; 0x0; 0x2;
  0xff; 0xff; 0xff; 0xff; 0xff; 0xff; 0xf0; 0x0;
  0x0; 0x0; 0x0; 0x0; 0x0; 0x3f; 0xff; 0xff;
  0xff; 0xff; 0xff; 0xf4; 0x0; 0x0; 0x0; 0x0;
  0x0; 0x0; 0x1b; 0xff; 0xff; 0xff; 0xff; 0xff;
  0xfc; 0x0; 0x0; 0x0; 0x0; 0x0; 0x0; 0xbf;
  0xff; 0xff; 0xff; 0xff; 0xff; 0x40; 0x0; 0x0;
  0x0; 0x0; 0x0; 0x0; 0x0; 0xbf; 0xff; 0xff;
  0xff; 0xff; 0xff; 0x0; 0x0; 0x0; 0x0; 0x0;
  0x1; 0xff; 0xff; 0xff; 0xff; 0xff; 0xf4; 0x0;
  0x0; 0x0; 0x0; 0x0; 0x0; 0x0; 0x0; 0xf;
  0xff; 0xff; 0xff; 0xff; 0xff; 0x80; 0x0; 0x0;
  0x0; 0x0; 0x3; 0xff; 0xff; 0xff; 0xff; 0xff;
  0x80; 0x0; 0x0; 0x0; 0x0; 0x0; 0x0; 0x0;
  0x0; 0x1; 0xff; 0xff; 0xff; 0xff; 0xff; 0xd0;
  0x0; 0x0; 0x0; 0x0; 0xf; 0xff; 0xff; 0xff;
  0xff; 0xfd; 0x0; 0x0; 0x0; 0x0; 0x0; 0x0;
  0x0; 0x0; 0x0; 0x0; 0x3f; 0xff; 0xff; 0xff;
  0xff; 0xf0; 0x0; 0x0; 0x0; 0x0; 0x2f; 0xff;
  0xff; 0xff; 0xff; 0xf0; 0x0; 0x0; 0x0; 0x0;
  0x0; 0x0; 0x0; 0x0; 0x0; 0x0; 0xb; 0xff;
  0xff; 0xff; 0xff; 0xfc; 0x0; 0x0; 0x0; 0x0;
  0x7f; 0xff; 0xff; 0xff; 0xff; 0xc0; 0x0; 0x0;
  0x0; 0x0; 0x0; 0x0; 0x0; 0x0; 0x0; 0x0;
  0x2; 0xff; 0xff; 0xff; 0xff; 0xfd; 0x0; 0x0;
  0x0; 0x0; 0xff; 0xff; 0xff; 0xff; 0xff; 0x0;
  0x0; 0x0; 0x0; 0x0; 0x0; 0x0; 0x0; 0x0;
  0x0; 0x0; 0x0; 0x7f; 0xff; 0xff; 0xff; 0xff;
  0x0; 0x0; 0x0; 0x1; 0xff; 0xff; 0xff; 0xff;
  0xfc; 0x0; 0x0; 0x0; 0x0; 0x0; 0x0; 0x0;
  0x0; 0x0; 0x0; 0x0; 0x0; 0x2f; 0xff; 0xff;
  0xff; 0xff; 0x80; 0x0; 0x0; 0x3; 0xff; 0xff;
  0xff; 0xff; 0xf0; 0x0; 0x0; 0x0; 0x0; 0x0;
  0x0; 0x0; 0x0; 0x0; 0x0; 0x0; 0x0; 0xb;
  0xff; 0xff; 0xff; 0xff; 0xd0; 0x0; 0x0; 0xb;
  0xff; 0xff; 0xff; 0xff; 0xc0; 0x0; 0x0; 0x0;
  0x0; 0x0; 0x0; 0x0; 0x0; 0x0; 0x0; 0x0;
  0x0; 0x2; 0xff; 0xff; 0xff; 0xff; 0xf0; 0x0;
  0x0; 0xf; 0xff; 0xff; 0xff; 0xff; 0x40; 0x0;
  0x0; 0x0; 0x0; 0x0; 0x0; 0x0; 0x0; 0x0;
  0x0; 0x0; 0x0; 0x0; 0xff; 0xff; 0xff; 0xff;
  0xf4; 0x0; 0x0; 0x2f; 0xff; 0xff; 0xff; 0xfe;
  0x0; 0x0; 0x0; 0x0; 0x0; 0x0; 0x0; 0x0;
  0x0; 0x0; 0x0; 0x0; 0x0; 0x0; 0x3f; 0xff;
  0xff; 0xff; 0xfc; 0x0; 0x0; 0x3f; 0xff; 0xff;
  0xff; 0xfc; 0x0; 0x0; 0x0; 0x0; 0x0; 0x0;
  0x0; 0x0; 0x0; 0x0; 0x0; 0x0; 0x0; 0x0;
  0x2f; 0xff; 0xff; 0xff; 0xfd; 0x0; 0x0; 0x7f;
  0xff; 0xff; 0xff; 0xf0; 0x0; 0x0; 0x0; 0x0;
  0x0; 0x0; 0x0; 0x0; 0x0; 0x0; 0x0; 0x0;
  0x0; 0x0; 0xf; 0xff; 0xff; 0xff; 0xfe; 0x0;
  0x0; 0xff; 0xff; 0xff; 0xff; 0xe0; 0x0; 0x0;
  0x0; 0x0; 0x0; 0x0; 0x0; 0x0; 0x0; 0x0;
  0x0; 0x0; 0x0; 0x0; 0x7; 0xff; 0xff; 0xff;
  0xff; 0x0; 0x1; 0xff; 0xff; 0xff; 0xff; 0xc0;
  0x0; 0x0; 0x0; 0x0; 0x0; 0x0; 0x0; 0x0;
  0x0; 0x0; 0x0; 0x0; 0x0; 0x0; 0x3; 0xff;
  0xff; 0xff; 0xff; 0x40; 0x2; 0xff; 0xff; 0xff;
  0xff; 0x80; 0x0; 0x0; 0x0; 0x0; 0x0; 0x0;
  0x0; 0x0; 0x0; 0x0; 0x0; 0x0; 0x0; 0x0;
  0x1; 0xff; 0xff; 0xff; 0xff; 0xc0; 0x3; 0xff;
  0xff; 0xff; 0xff; 0x0; 0x0; 0x0; 0x0; 0x0;
  0x0; 0x0; 0x0; 0x0; 0x0; 0x0; 0x0; 0x0;
  0x0; 0x0; 0x0; 0xff; 0xff; 0xff; 0xff; 0xc0;
  0x7; 0xff; 0xff; 0xff; 0xfe; 0x0; 0x0; 0x0;
  0x0; 0x0; 0x0; 0x0; 0x0; 0x0; 0x0; 0x0;
  0x0; 0x0; 0x0; 0x0; 0x0; 0x7f; 0xff; 0xff;
  0xff; 0xe0; 0xb; 0xff; 0xff; 0xff; 0xfc; 0x0;
  0x0; 0x0; 0x0; 0x0; 0x0; 0x0; 0x0; 0x0;
  0x0; 0x0; 0x0; 0x0; 0x0; 0x0; 0x0; 0x3f;
  0xff; 0xff; 0xff; 0xf0; 0xf; 0xff; 0xff; 0xff;
  0xfc; 0x0; 0x0; 0x0; 0x0; 0x0; 0x0; 0x0;
  0x0; 0x0; 0x0; 0x0; 0x0; 0x0; 0x0; 0x0;
  0x0; 0x2f; 0xff; 0xff; 0xff; 0xf0; 0xf; 0xff;
  0xff; 0xff; 0xf4; 0x0; 0x0; 0x0; 0x0; 0x0;
  0x0; 0x0; 0x0; 0x0; 0x0; 0x0; 0x0; 0x0;
  0x0; 0x0; 0x0; 0xf; 0xff; 0xff; 0xff; 0xf4;
  0x1f; 0xff; 0xff; 0xff; 0xf0; 0x0; 0x0; 0x0;
  0x0; 0x0; 0x0; 0x0; 0x0; 0x0; 0x0; 0x0;
  0x0; 0x0; 0x0; 0x0; 0x0; 0xf; 0xff; 0xff;
  0xff; 0xf8; 0x2f; 0xff; 0xff; 0xff; 0xf0; 0x0;
  0x0; 0x0; 0x0; 0x0; 0x0; 0x0; 0x0; 0x0;
  0x0; 0x0; 0x0; 0x0; 0x0; 0x0; 0x0; 0xb;
  0xff; 0xff; 0xff; 0xfc; 0x3f; 0xff; 0xff; 0xff;
  0xe0; 0x0; 0x0; 0x0; 0x0; 0x0; 0x0; 0x0;
  0x0; 0x0; 0x0; 0x0; 0x0; 0x0; 0x0; 0x0;
  0x0; 0x7; 0xff; 0xff; 0xff; 0xfc; 0x3f; 0xff;
  0xff; 0xff; 0xd0; 0x0; 0x0; 0x0; 0x0; 0x0;
  0x0; 0x0; 0x0; 0x0; 0x0; 0x0; 0x0; 0x0;
  0x0; 0x0; 0x0; 0x3; 0xff; 0xff; 0xff; 0xfc;
  0x3f; 0xff; 0xff; 0xff; 0xc0; 0x0; 0x0; 0x0;
  0x0; 0x0; 0x0; 0x0; 0x0; 0x0; 0x0; 0x0;
  0x0; 0x0; 0x0; 0x0; 0x0; 0x3; 0xff; 0xff;
  0xff; 0xfd; 0x7f; 0xff; 0xff; 0xff; 0xc0; 0x0;
  0x0; 0x0; 0x0; 0x0; 0x0; 0x0; 0x0; 0x0;
  0x0; 0x0; 0x0; 0x0; 0x0; 0x0; 0x0; 0x2;
  0xff; 0xff; 0xff; 0xfd; 0x7f; 0xff; 0xff; 0xff;
  0xc0; 0x0; 0x0; 0x0; 0x0; 0x0; 0x0; 0x0;
  0x0; 0x0; 0x0; 0x0; 0x0; 0x0; 0x0; 0x0;
  0x0; 0x2; 0xff; 0xff; 0xff; 0xfe; 0x7f; 0xff;
  0xff; 0xff; 0x80; 0x0; 0x0; 0x0; 0x0; 0x0;
  0x0; 0x0; 0x0; 0x0; 0x0; 0x0; 0x0; 0x0;
  0x0; 0x0; 0x0; 0x1; 0xff; 0xff; 0xff; 0xfe;
  0xbf; 0xff; 0xff; 0xff; 0x40; 0x0; 0x0; 0x0;
  0x0; 0x0; 0x0; 0x0; 0x0; 0x0; 0x0; 0x0;
  0x0; 0x0; 0x0; 0x0; 0x0; 0x1; 0xff; 0xff;
  0xff; 0xff; 0xbf; 0xff; 0xff; 0xff; 0x40; 0x0;
  0x0; 0x0; 0x0; 0x0; 0x0; 0x0; 0x0; 0x0;
  0x0; 0x0; 0x0; 0x0; 0x0; 0x0; 0x0; 0x0;
  0xff; 0xff; 0xff; 0xff; 0xbf; 0xff; 0xff; 0xff;
  0x40; 0x0; 0x0; 0x0; 0x0; 0x0; 0x0; 0x0;
  0x0; 0x0; 0x0; 0x0; 0x0; 0x0; 0x0; 0x0;
  0x0; 0x0; 0xff; 0xff; 0xff; 0xff; 0xbf; 0xff;
  0xff; 0xff; 0x40; 0x0; 0x0; 0x0; 0x0; 0x0;
  0x0; 0x0; 0x0; 0x0; 0x0; 0x0; 0x0; 0x0;
  0x0; 0x0; 0x0; 0x0; 0xff; 0xff; 0xff; 0xff;
  0xff; 0xff; 0xff; 0xff; 0x0; 0x0; 0x0; 0x0;
  0x0; 0x0; 0x0; 0x0; 0x0; 0x0; 0x0; 0x0;
  0x0; 0x0; 0x0; 0x0; 0x0; 0x0; 0xff; 0xff;
  0xff; 0xff; 0xff; 0xff; 0xff; 0xff; 0x0; 0x0;
  0x0; 0x0; 0x0; 0x0; 0x0; 0x0; 0x0; 0x0;
  0x0; 0x0; 0x0; 0x0; 0x0; 0x0; 0x0; 0x0;
  0xff; 0xff; 0xff; 0xff; 0xff; 0xff; 0xff; 0xff;
  0x0; 0x0; 0x0; 0x0; 0x0; 0x0; 0x0; 0x0;
  0x0; 0x0; 0x0; 0x0; 0x0; 0x0; 0x0; 0x0;
  0x0; 0x0; 0xff; 0xff; 0xff; 0xff; 0xff; 0xff;
  0xff; 0xff; 0x0; 0x0; 0x0; 0x0; 0x0; 0x0;
  0x0; 0x0; 0x0; 0x0; 0x0; 0x0; 0x0; 0x0;
  0x0; 0x0; 0x0; 0x0; 0xff; 0xff; 0xff; 0xff;
  0xbf; 0xff; 0xff; 0xff; 0x40; 0x0; 0x0; 0x0;
  0x0; 0x0; 0x0; 0x0; 0x0; 0x0; 0x0; 0x0 ].

Definition quicksand_bitmap_8 : list Z :=
  [ 0x0; 0x0; 0x0; 0x0; 0x0; 0x0; 0xff; 0xff;
  0xff; 0xff; 0xbf; 0xff; 0xff; 0xff; 0x40; 0x0;
  0x0; 0x0; 0x0; 0x0; 0x0; 0x0; 0x0; 0x0;
  0x0; 0x0; 0x0; 0x0; 0x0; 0x0; 0x0; 0x0;
  0xff; 0xff; 0xff; 0xff; 0xbf; 0xff; 0xff; 0xff;
  0x40; 0x0; 0x0; 0x0; 0x0; 0x0; 0x0; 0x0;
  0x0; 0x0; 0x0; 0x0; 0x0; 0x0; 0x0; 0x0;
  0x0; 0x0; 0xff; 0xff; 0xff; 0xff; 0xbf; 0xff;
  0xff; 0xff; 0x80; 0x0; 0x0; 0x0; 0x0; 0x0;
  0x0; 0x0; 0x0; 0x0; 0x0; 0x0; 0x0; 0x0;
  0x0; 0x0; 0x0; 0x1; 0xff; 0xff; 0xff; 0xff;
  0x7f; 0xff; 0xff; 0xff; 0x80; 0x0; 0x0; 0x0;
  0x0; 0x0; 0x0; 0x0; 0x0; 0x0; 0x0; 0x0;
  0x0; 0x0; 0x0; 0x0; 0x0; 0x1; 0xff; 0xff;
  0xff; 0xfe; 0x7f; 0xff; 0xff; 0xff; 0xc0; 0x0;
  0x0; 0x0; 0x0; 0x0; 0x0; 0x0; 0x0; 0x0;
  0x0; 0x0; 0x0; 0x0; 0x0; 0x0; 0x0; 0x2;
  0xff; 0xff; 0xff; 0xfe; 0x7f; 0xff; 0xff; 0xff;
  0xc0; 0x0; 0x0; 0x0; 0x0; 0x0; 0x0; 0x0;
  0x0; 0x0; 0x0; 0x0; 0x0; 0x0; 0x0; 0x0;
  0x0; 0x2; 0xff; 0xff; 0xff; 0xfd; 0x3f; 0xff;
  0xff; 0xff; 0xc0; 0x0; 0x0; 0x0; 0x0; 0x0;
  0x0; 0x0; 0x0; 0x0; 0x0; 0x0; 0x0; 0x0;
  0x0; 0x0; 0x0; 0x3; 0xff; 0xff; 0xff; 0xfd;
  0x3f; 0xff; 0xff; 0xff; 0xd0; 0x0; 0x0; 0x0;
  0x0; 0x0; 0x0; 0x0; 0x0; 0x0; 0x0; 0x0;
  0x0; 0x0; 0x0; 0x0; 0x0; 0x3; 0xff; 0xff;
  0xff; 0xfc; 0x3f; 0xff; 0xff; 0xff; 0xe0; 0x0;
  0x0; 0x0; 0x0; 0x0; 0x0; 0x0; 0x0; 0x0;
  0x0; 0x0; 0x0; 0x0; 0x0; 0x0; 0x0; 0x7;
  0xff; 0xff; 0xff; 0xfc; 0x2f; 0xff; 0xff; 0xff;
  0xf0; 0x0; 0x0; 0x0; 0x0; 0x0; 0x0; 0x0;
  0x0; 0x0; 0x0; 0x0; 0x0; 0x0; 0x0; 0x0;
  0x0; 0xb; 0xff; 0xff; 0xff; 0xfc; 0x1f; 0xff;
  0xff; 0xff; 0xf0; 0x0; 0x0; 0x0; 0x0; 0x0;
  0x0; 0x0; 0x0; 0x0; 0x0; 0x0; 0x0; 0x0;
  0x0; 0x0; 0x0; 0xf; 0xff; 0xff; 0xff; 0xf8;
  0xf; 0xff; 0xff; 0xff; 0xf4; 0x0; 0x0; 0x0;
  0x0; 0x0; 0x0; 0x0; 0x0; 0x0; 0x0; 0x0;
  0x0; 0x0; 0x0; 0x0; 0x0; 0xf; 0xff; 0xff;
  0xff; 0xf4; 0xf; 0xff; 0xff; 0xff; 0xfc; 0x0;
  0x0; 0x0; 0x0; 0x0; 0x0; 0x0; 0x0; 0x0;
  0x0; 0x0; 0x0; 0x0; 0x0; 0x0; 0x0; 0x2f;
  0xff; 0xff; 0xff; 0xf0; 0xb; 0xff; 0xff; 0xff;
  0xfc; 0x0; 0x0; 0x0; 0x0; 0x0; 0x0; 0x0;
  0x0; 0x0; 0x0; 0x0; 0x0; 0x0; 0x0; 0x0;
  0x0; 0x3f; 0xff; 0xff; 0xff; 0xf0; 0x7; 0xff;
  0xff; 0xff; 0xfe; 0x0; 0x0; 0x0; 0x0; 0x0;
  0x0; 0x0; 0x0; 0x0; 0x0; 0x0; 0x0; 0x0;
  0x0; 0x0; 0x0; 0x7f; 0xff; 0xff; 0xff; 0xe0;
  0x3; 0xff; 0xff; 0xff; 0xff; 0x0; 0x0; 0x0;
  0x0; 0x0; 0x0; 0x0; 0x0; 0x0; 0x0; 0x0;
  0x0; 0x0; 0x0; 0x0; 0x0; 0xff; 0xff; 0xff;
  0xff; 0xc0; 0x2; 0xff; 0xff; 0xff; 0xff; 0x80;
  0x0; 0x0; 0x0; 0x0; 0x0; 0x0; 0x0; 0x0;
  0x0; 0x0; 0x0; 0x0; 0x0; 0x0; 0x1; 0xff;
  0xff; 0xff; 0xff; 0xc0; 0x1; 0xff; 0xff; 0xff;
  0xff; 0xc0; 0x0; 0x0; 0x0; 0x0; 0x0; 0x0;
  0x0; 0x0; 0x0; 0x0; 0x0; 0x0; 0x0; 0x0;
  0x3; 0xff; 0xff; 0xff; 0xff; 0x40; 0x0; 0xff;
  0xff; 0xff; 0xff; 0xf0; 0x0; 0x0; 0x0; 0x0;
  0x0; 0x0; 0x0; 0x0; 0x0; 0x0; 0x0; 0x0;
  0x0; 0x0; 0x7; 0xff; 0xff; 0xff; 0xff; 0x0;
  0x0; 0x7f; 0xff; 0xff; 0xff; 0xf4; 0x0; 0x0;
  0x0; 0x0; 0x0; 0x0; 0x0; 0x0; 0x0; 0x0;
  0x0; 0x0; 0x0; 0x0; 0xf; 0xff; 0xff; 0xff;
  0xfe; 0x0; 0x0; 0x3f; 0xff; 0xff; 0xff; 0xfc;
  0x0; 0x0; 0x0; 0x0; 0x0; 0x0; 0x0; 0x0;
  0x0; 0x0; 0x0; 0x0; 0x0; 0x0; 0x2f; 0xff;
  0xff; 0xff; 0xfd; 0x0; 0x0; 0x2f; 0xff; 0xff;
  0xff; 0xfe; 0x0; 0x0; 0x0; 0x0; 0x0; 0x0;
  0x0; 0x0; 0x0; 0x0; 0x0; 0x0; 0x0; 0x0;
  0x7f; 0xff; 0xff; 0xff; 0xfc; 0x0; 0x0; 0xf;
  0xff; 0xff; 0xff; 0xff; 0x40; 0x0; 0x0; 0x0;
  0x0; 0x0; 0x0; 0x0; 0x0; 0x0; 0x0; 0x0;
  0x0; 0x0; 0xff; 0xff; 0xff; 0xff; 0xf4; 0x0;
  0x0; 0xb; 0xff; 0xff; 0xff; 0xff; 0xd0; 0x0;
  0x0; 0x0; 0x0; 0x0; 0x0; 0x0; 0x0; 0x0;
  0x0; 0x0; 0x0; 0x3; 0xff; 0xff; 0xff; 0xff;
  0xf0; 0x0; 0x0; 0x3; 0xff; 0xff; 0xff; 0xff;
  0xf0; 0x0; 0x0; 0x0; 0x0; 0x0; 0x0; 0x0;
  0x0; 0x0; 0x0; 0x0; 0x0; 0xb; 0xff; 0xff;
  0xff; 0xff; 0xd0; 0x0; 0x0; 0x1; 0xff; 0xff;
  0xff; 0xff; 0xfc; 0x0; 0x0; 0x0; 0x0; 0x0;
  0x0; 0x0; 0x0; 0x0; 0x0; 0x0; 0x0; 0x2f;
  0xff; 0xff; 0xff; 0xff; 0x80; 0x0; 0x0; 0x0;
  0xff; 0xff; 0xff; 0xff; 0xff; 0x0; 0x0; 0x0;
  0x0; 0x0; 0x0; 0x0; 0x0; 0x0; 0x0; 0x0;
  0x0; 0xbf; 0xff; 0xff; 0xff; 0xff; 0x0; 0x0;
  0x0; 0x0; 0x7f; 0xff; 0xff; 0xff; 0xff; 0xc0;
  0x0; 0x0; 0x0; 0x0; 0x0; 0x0; 0x0; 0x0;
  0x0; 0x0; 0x2; 0xff; 0xff; 0xff; 0xff; 0xfd;
  0x0; 0x0; 0x0; 0x0; 0x2f; 0xff; 0xff; 0xff;
  0xff; 0xf4; 0x0; 0x0; 0x0; 0x0; 0x0; 0x0;
  0x0; 0x0; 0x0; 0x0; 0xf; 0xff; 0xff; 0xff;
  0xff; 0xfc; 0x0; 0x0; 0x0; 0x0; 0xf; 0xff;
  0xff; 0xff; 0xff; 0xfe; 0x0; 0x0; 0x0; 0x0;
  0x0; 0x0; 0x0; 0x0; 0x0; 0x0; 0x7f; 0xff;
  0xff; 0xff; 0xff; 0xf0; 0x0; 0x0; 0x0; 0x0;
  0x3; 0xff; 0xff; 0xff; 0xff; 0xff; 0xc0; 0x0;
  0x0; 0x0; 0x0; 0x0; 0x0; 0x0; 0x0; 0x2;
  0xff; 0xff; 0xff; 0xff; 0xff; 0xd0; 0x0; 0x0;
  0x0; 0x0; 0x1; 0xff; 0xff; 0xff; 0xff; 0xff;
  0xf8; 0x0; 0x0; 0x0; 0x0; 0x0; 0x0; 0x0;
  0x0; 0x1f; 0xff; 0xff; 0xff; 0xff; 0xff; 0x80;
  0x0; 0x0; 0x0; 0x0; 0x0; 0xbf; 0xff; 0xff;
  0xff; 0xff; 0xff; 0x40; 0x0; 0x0; 0x0; 0x0;
  0x0; 0x0; 0x0; 0xbf; 0xff; 0xff; 0xff; 0xff;
  0xff; 0x0; 0x0; 0x0; 0x0; 0x0; 0x0; 0x3f;
  0xff; 0xff; 0xff; 0xff; 0xff; 0xf4; 0x0; 0x0;
  0x0; 0x0; 0x0; 0x0; 0x1f; 0xff; 0xff; 0xff;
  0xff; 0xff; 0xfc; 0x0; 0x0; 0x0; 0x0; 0x0;
  0x0; 0xf; 0xff; 0xff; 0xff; 0xff; 0xff; 0xff;
  0x90; 0x0; 0x0; 0x0; 0x0; 0x6; 0xff; 0xff;
  0xff; 0xff; 0xff; 0xff; 0xf0; 0x0; 0x0; 0x0;
  0x0; 0x0; 0x0; 0x3; 0xff; 0xff; 0xff; 0xff;
  0xff; 0xff; 0xff; 0x90; 0x0; 0x0; 0x6; 0xbf;
  0xff; 0xff; 0xff; 0xff; 0xff; 0xff; 0xc0; 0x0;
  0x0; 0x0; 0x0; 0x0; 0x0; 0x0; 0xff; 0xff;
  0xff; 0xff; 0xff; 0xff; 0xff; 0xff; 0xff; 0xff;
  0xff; 0xff; 0xff; 0xff; 0xff; 0xff; 0xff; 0xff;
  0x0; 0x0; 0x0; 0x0; 0x0; 0x0; 0x0; 0x0;
  0x3f; 0xff; 0xff; 0xff; 0xff; 0xff; 0xff; 0xff;
  0xff; 0xff; 0xff; 0xff; 0xff; 0xff; 0xff; 0xff;
  0xff; 0xfc; 0x0; 0x0; 0x0; 0x0; 0x0; 0x0;
  0x0; 0x0; 0xb; 0xff; 0xff; 0xff; 0xff; 0xff;
  0xff; 0xff; 0xff; 0xff; 0xff; 0xff; 0xff; 0xff;
  0xff; 0xff; 0xff; 0xf0; 0x0; 0x0; 0x0; 0x0;
  0x0; 0x0; 0x0; 0x0; 0x2; 0xff; 0xff; 0xff;
  0xff; 0xff; 0xff; 0xff; 0xff; 0xff; 0xff; 0xff;
  0xff; 0xff; 0xff; 0xff; 0xff; 0xc0; 0x0; 0x0;
  0x0; 0x0; 0x0; 0x0; 0x0; 0x0; 0x0; 0x7f;
  0xff; 0xff; 0xff; 0xff; 0xff; 0xff; 0xff; 0xff;
  0xff; 0xff; 0xff; 0xff; 0xff; 0xff; 0xfe; 0x0;
  0x0; 0x0; 0x0; 0x0; 0x0; 0x0; 0x0; 0x0;
  0x0; 0xf; 0xff; 0xff; 0xff; 0xff; 0xff; 0xff;
  0xff; 0xff; 0xff; 0xff; 0xff; 0xff; 0xff; 0xff;
  0xf4; 0x0; 0x0; 0x0; 0x0; 0x0; 0x0; 0x0;
  0x0; 0x0; 0x0; 0x2; 0xff; 0xff; 0xff; 0xff;
  0xff; 0xff; 0xff; 0xff; 0xff; 0xff; 0xff; 0xff;
  0xff; 0xff; 0x80; 0x0; 0x0; 0x0; 0x0; 0x0;
  0x0; 0x0; 0x0; 0x0; 0x0; 0x0; 0x3f; 0xff;
  0xff; 0xff; 0xff; 0xff; 0xff; 0xff; 0xff; 0xff;
  0xff; 0xff; 0xff; 0xfd; 0x0; 0x0; 0x0; 0x0;
  0x0; 0x0; 0x0; 0x0; 0x0; 0x0; 0x0; 0x0;
  0x7; 0xff; 0xff; 0xff; 0xff; 0xff; 0xff; 0xff;
  0xff; 0xff; 0xff; 0xff; 0xff; 0xe0; 0x0; 0x0;
  0x0; 0x0; 0x0; 0x0; 0x0; 0x0; 0x0; 0x0;
  0x0; 0x0; 0x0; 0x7f; 0xff; 0xff; 0xff; 0xff;
  0xff; 0xff; 0xff; 0xff; 0xff; 0xff; 0xfe; 0x0 ].

Definition quicksand_bitmap_9 : list Z :=
  [ 0x0; 0x0; 0x0; 0x0; 0x0; 0x0; 0x0; 0x0;
  0x0; 0x0; 0x0; 0x0; 0x0; 0x7; 0xff; 0xff;
  0xff; 0xff; 0xff; 0xff; 0xff; 0xff; 0xff; 0xff;
  0xe0; 0x0; 0x0; 0x0; 0x0; 0x0; 0x0; 0x0;
  0x0; 0x0; 0x0; 0x0; 0x0; 0x0; 0x0; 0x0;
  0x6f; 0xff; 0xff; 0xff; 0xff; 0xff; 0xff; 0xff;
  0xff; 0xfd; 0x0; 0x0; 0x0; 0x0; 0x0; 0x0;
  0x0; 0x0; 0x0; 0x0; 0x0; 0x0; 0x0; 0x0;
  0x0; 0x0; 0x1; 0xbf; 0xff; 0xff; 0xff; 0xff;
  0xff; 0xff; 0xff; 0x80; 0x0; 0x0; 0x0; 0x0;
  0x0; 0x0; 0x0; 0x0; 0x0; 0x0; 0x0; 0x0;
  0x0; 0x0; 0x0; 0x0; 0x0; 0x6; 0xff; 0xff;
  0xff; 0xff; 0xff; 0xff; 0x90; 0x0; 0x0; 0x0;
  0x0; 0x0; 0x0; 0x0; 0x0; 0x0; 0x0; 0x0;
  0x0; 0x0; 0x0; 0x0; 0x0; 0x0; 0x0; 0x0;
  0x1; 0x6b; 0xff; 0xff; 0xfa; 0x40; 0x0; 0x0;
  0x0; 0x0; 0x0; 0x0; 0x0; 0x0; 0x0; 0x0;
  0x0; 0x0; 0x0; 0x0; 0x0; 0x0; 0x0; 0x0;
  0x0; 0x0; 0x0; 0x6b; 0xff; 0xff; 0xe9; 0x0;
  0x0; 0x0; 0x0; 0x0; 0x0; 0x0; 0x0; 0x0;
  0x0; 0x0; 0x1b; 0xfe; 0x0; 0x0; 0x0; 0x0;
  0x0; 0x0; 0x0; 0xbf; 0xff; 0xff; 0xff; 0xff;
  0xfe; 0x40; 0x0; 0x0; 0x0; 0x0; 0x0; 0x0;
  0x0; 0x0; 0x0; 0xff; 0xff; 0xe0; 0x0; 0x0;
  0x0; 0x0; 0x0; 0x2f; 0xff; 0xff; 0xff; 0xff;
  0xff; 0xff; 0xfd; 0x0; 0x0; 0x0; 0x0; 0x0;
  0x0; 0x0; 0x0; 0x3; 0xff; 0xff; 0xf8; 0x0;
  0x0; 0x0; 0x0; 0x7; 0xff; 0xff; 0xff; 0xff;
  0xff; 0xff; 0xff; 0xff; 0xe0; 0x0; 0x0; 0x0;
  0x0; 0x0; 0x0; 0x0; 0xf; 0xff; 0xff; 0xfe;
  0x0; 0x0; 0x0; 0x0; 0xbf; 0xff; 0xff; 0xff;
  0xff; 0xff; 0xff; 0xff; 0xff; 0xff; 0x40; 0x0;
  0x0; 0x0; 0x0; 0x0; 0x0; 0x1f; 0xff; 0xff;
  0xff; 0x0; 0x0; 0x0; 0x7; 0xff; 0xff; 0xff;
  0xff; 0xff; 0xff; 0xff; 0xff; 0xff; 0xff; 0xf0;
  0x0; 0x0; 0x0; 0x0; 0x0; 0x0; 0x3f; 0xff;
  0xff; 0xff; 0x40; 0x0; 0x0; 0x7f; 0xff; 0xff;
  0xff; 0xff; 0xff; 0xff; 0xff; 0xff; 0xff; 0xff;
  0xfe; 0x0; 0x0; 0x0; 0x0; 0x0; 0x0; 0x3f;
  0xff; 0xff; 0xff; 0x80; 0x0; 0x2; 0xff; 0xff;
  0xff; 0xff; 0xff; 0xff; 0xff; 0xff; 0xff; 0xff;
  0xff; 0xff; 0xd0; 0x0; 0x0; 0x0; 0x0; 0x0;
  0x3f; 0xff; 0xff; 0xff; 0xc0; 0x0; 0xf; 0xff;
  0xff; 0xff; 0xff; 0xff; 0xff; 0xff; 0xff; 0xff;
  0xff; 0xff; 0xff; 0xf8; 0x0; 0x0; 0x0; 0x0;
  0x0; 0x3f; 0xff; 0xff; 0xff; 0xc0; 0x0; 0x7f;
  0xff; 0xff; 0xff; 0xff; 0xff; 0xff; 0xff; 0xff;
  0xff; 0xff; 0xff; 0xff; 0xff; 0x0; 0x0; 0x0;
  0x0; 0x0; 0x3f; 0xff; 0xff; 0xff; 0xc0; 0x2;
  0xff; 0xff; 0xff; 0xff; 0xff; 0xff; 0xff; 0xff;
  0xff; 0xff; 0xff; 0xff; 0xff; 0xff; 0xd0; 0x0;
  0x0; 0x0; 0x0; 0x3f; 0xff; 0xff; 0xff; 0xc0;
  0xb; 0xff; 0xff; 0xff; 0xff; 0xff; 0xff; 0xff;
  0xff; 0xff; 0xff; 0xff; 0xff; 0xff; 0xff; 0xf4;
  0x0; 0x0; 0x0; 0x0; 0x3f; 0xff; 0xff; 0xff;
  0xc0; 0x2f; 0xff; 0xff; 0xff; 0xff; 0xff; 0xff;
  0xff; 0xff; 0xff; 0xff; 0xff; 0xff; 0xff; 0xff;
  0xfd; 0x0; 0x0; 0x0; 0x0; 0x3f; 0xff; 0xff;
  0xff; 0xc0; 0xbf; 0xff; 0xff; 0xff; 0xff; 0xff;
  0xff; 0xff; 0xff; 0xff; 0xff; 0xff; 0xff; 0xff;
  0xff; 0xff; 0x80; 0x0; 0x0; 0x0; 0x3f; 0xff;
  0xff; 0xff; 0xc1; 0xff; 0xff; 0xff; 0xff; 0xff;
  0xff; 0xff; 0xff; 0xff; 0xff; 0xff; 0xff; 0xff;
  0xff; 0xff; 0xff; 0xd0; 0x0; 0x0; 0x0; 0x3f;
  0xff; 0xff; 0xff; 0xc3; 0xff; 0xff; 0xff; 0xff;
  0xff; 0xf9; 0x0; 0x0; 0x0; 0x6f; 0xff; 0xff;
  0xff; 0xff; 0xff; 0xff; 0xf4; 0x0; 0x0; 0x0;
  0x3f; 0xff; 0xff; 0xff; 0xcf; 0xff; 0xff; 0xff;
  0xff; 0xf9; 0x0; 0x0; 0x0; 0x0; 0x0; 0x6f;
  0xff; 0xff; 0xff; 0xff; 0xff; 0xfc; 0x0; 0x0;
  0x0; 0x3f; 0xff; 0xff; 0xff; 0xef; 0xff; 0xff;
  0xff; 0xff; 0x80; 0x0; 0x0; 0x0; 0x0; 0x0;
  0x2; 0xff; 0xff; 0xff; 0xff; 0xff; 0xff; 0x0;
  0x0; 0x0; 0x3f; 0xff; 0xff; 0xff; 0xff; 0xff;
  0xff; 0xff; 0xf8; 0x0; 0x0; 0x0; 0x0; 0x0;
  0x0; 0x0; 0x2f; 0xff; 0xff; 0xff; 0xff; 0xff;
  0xc0; 0x0; 0x0; 0x3f; 0xff; 0xff; 0xff; 0xff;
  0xff; 0xff; 0xff; 0x80; 0x0; 0x0; 0x0; 0x0;
  0x0; 0x0; 0x0; 0x3; 0xff; 0xff; 0xff; 0xff;
  0xff; 0xe0; 0x0; 0x0; 0x3f; 0xff; 0xff; 0xff;
  0xff; 0xff; 0xff; 0xfd; 0x0; 0x0; 0x0; 0x0;
  0x0; 0x0; 0x0; 0x0; 0x0; 0x7f; 0xff; 0xff;
  0xff; 0xff; 0xf0; 0x0; 0x0; 0x3f; 0xff; 0xff;
  0xff; 0xff; 0xff; 0xff; 0xf0; 0x0; 0x0; 0x0;
  0x0; 0x0; 0x0; 0x0; 0x0; 0x0; 0xf; 0xff;
  0xff; 0xff; 0xff; 0xfc; 0x0; 0x0; 0x3f; 0xff;
  0xff; 0xff; 0xff; 0xff; 0xff; 0x80; 0x0; 0x0;
  0x0; 0x0; 0x0; 0x0; 0x0; 0x0; 0x0; 0x3;
  0xff; 0xff; 0xff; 0xff; 0xfe; 0x0; 0x0; 0x3f;
  0xff; 0xff; 0xff; 0xff; 0xff; 0xfe; 0x0; 0x0;
  0x0; 0x0; 0x0; 0x0; 0x0; 0x0; 0x0; 0x0;
  0x0; 0xbf; 0xff; 0xff; 0xff; 0xff; 0x0; 0x0;
  0x3f; 0xff; 0xff; 0xff; 0xff; 0xff; 0xf8; 0x0;
  0x0; 0x0; 0x0; 0x0; 0x0; 0x0; 0x0; 0x0;
  0x0; 0x0; 0x2f; 0xff; 0xff; 0xff; 0xff; 0x80;
  0x0; 0x3f; 0xff; 0xff; 0xff; 0xff; 0xff; 0xe0;
  0x0; 0x0; 0x0; 0x0; 0x0; 0x0; 0x0; 0x0;
  0x0; 0x0; 0x0; 0xf; 0xff; 0xff; 0xff; 0xff;
  0xc0; 0x0; 0x3f; 0xff; 0xff; 0xff; 0xff; 0xff;
  0xc0; 0x0; 0x0; 0x0; 0x0; 0x0; 0x0; 0x0;
  0x0; 0x0; 0x0; 0x0; 0x3; 0xff; 0xff; 0xff;
  0xff; 0xe0; 0x0; 0x3f; 0xff; 0xff; 0xff; 0xff;
  0xff; 0x0; 0x0; 0x0; 0x0; 0x0; 0x0; 0x0;
  0x0; 0x0; 0x0; 0x0; 0x0; 0x0; 0xff; 0xff;
  0xff; 0xff; 0xf0; 0x0; 0x3f; 0xff; 0xff; 0xff;
  0xff; 0xfd; 0x0; 0x0; 0x0; 0x0; 0x0; 0x0;
  0x0; 0x0; 0x0; 0x0; 0x0; 0x0; 0x0; 0x7f;
  0xff; 0xff; 0xff; 0xf8; 0x0; 0x3f; 0xff; 0xff;
  0xff; 0xff; 0xf8; 0x0; 0x0; 0x0; 0x0; 0x0;
  0x0; 0x0; 0x0; 0x0; 0x0; 0x0; 0x0; 0x0;
  0x2f; 0xff; 0xff; 0xff; 0xfc; 0x0; 0x3f; 0xff;
  0xff; 0xff; 0xff; 0xf0; 0x0; 0x0; 0x0; 0x0;
  0x0; 0x0; 0x0; 0x0; 0x0; 0x0; 0x0; 0x0;
  0x0; 0xf; 0xff; 0xff; 0xff; 0xfe; 0x0; 0x3f;
  0xff; 0xff; 0xff; 0xff; 0xd0; 0x0; 0x0; 0x0;
  0x0; 0x0; 0x0; 0x0; 0x0; 0x0; 0x0; 0x0;
  0x0; 0x0; 0x7; 0xff; 0xff; 0xff; 0xff; 0x0;
  0x3f; 0xff; 0xff; 0xff; 0xff; 0xc0; 0x0; 0x0;
  0x0; 0x0; 0x0; 0x0; 0x0; 0x0; 0x0; 0x0;
  0x0; 0x0; 0x0; 0x3; 0xff; 0xff; 0xff; 0xff;
  0x40; 0x3f; 0xff; 0xff; 0xff; 0xff; 0x40; 0x0;
  0x0; 0x0; 0x0; 0x0; 0x0; 0x0; 0x0; 0x0;
  0x0; 0x0; 0x0; 0x0; 0x1; 0xff; 0xff; 0xff;
  0xff; 0x80; 0x3f; 0xff; 0xff; 0xff; 0xff; 0x0;
  0x0; 0x0; 0x0; 0x0; 0x0; 0x0; 0x0; 0x0;
  0x0; 0x0; 0x0; 0x0; 0x0; 0x0; 0xff; 0xff;
  0xff; 0xff; 0xc0; 0x3f; 0xff; 0xff; 0xff; 0xfd;
  0x0; 0x0; 0x0; 0x0; 0x0; 0x0; 0x0; 0x0;
  0x0; 0x0; 0x0; 0x0; 0x0; 0x0; 0x0; 0x7f;
  0xff; 0xff; 0xff; 0xc0; 0x3f; 0xff; 0xff; 0xff;
  0xfc; 0x0; 0x0; 0x0; 0x0; 0x0; 0x0; 0x0;
  0x0; 0x0; 0x0; 0x0; 0x0; 0x0; 0x0; 0x0;
  0x3f; 0xff; 0xff; 0xff; 0xe0; 0x3f; 0xff; 0xff;
  0xff; 0xf8; 0x0; 0x0; 0x0; 0x0; 0x0; 0x0;
  0x0; 0x0; 0x0; 0x0; 0x0; 0x0; 0x0; 0x0;
  0x0; 0x2f; 0xff; 0xff; 0xff; 0xf0; 0x3f; 0xff;
  0xff; 0xff; 0xf0; 0x0; 0x0; 0x0; 0x0; 0x0;
  0x0; 0x0; 0x0; 0x0; 0x0; 0x0; 0x0; 0x0;
  0x0; 0x0; 0x1f; 0xff; 0xff; 0xff; 0xf0; 0x3f;
  0xff; 0xff; 0xff; 0xf0; 0x0; 0x0; 0x0; 0x0;
  0x0; 0x0; 0x0; 0x0; 0x0; 0x0; 0x0; 0x0;
  0x0; 0x0; 0x0; 0xf; 0xff; 0xff; 0xff; 0xf0;
  0x3f; 0xff; 0xff; 0xff; 0xe0; 0x0; 0x0; 0x0;
  0x0; 0x0; 0x0; 0x0; 0x0; 0x0; 0x0; 0x0;
  0x0; 0x0; 0x0; 0x0; 0xb; 0xff; 0xff; 0xff;
  0xf4; 0x3f; 0xff; 0xff; 0xff; 0xd0; 0x0; 0x0;
  0x0; 0x0; 0x0; 0x0; 0x0; 0x0; 0x0; 0x0;
  0x0; 0x0; 0x0; 0x0; 0x0; 0x7; 0xff; 0xff ].

Definition quicksand_bitmap_10 : list Z :=
  [ 0xff; 0xf8; 0x3f; 0xff; 0xff; 0xff; 0xc0; 0x0;
  0x0; 0x0; 0x0; 0x0; 0x0; 0x0; 0x0; 0x0;
  0x0; 0x0; 0x0; 0x0; 0x0; 0x0; 0x3; 0xff;
  0xff; 0xff; 0xfc; 0x3f; 0xff; 0xff; 0xff; 0xc0;
  0x0; 0x0; 0x0; 0x0; 0x0; 0x0; 0x0; 0x0;
  0x0; 0x0; 0x0; 0x0; 0x0; 0x0; 0x0; 0x3;
  0xff; 0xff; 0xff; 0xfc; 0x3f; 0xff; 0xff; 0xff;
  0x80; 0x0; 0x0; 0x0; 0x0; 0x0; 0x0; 0x0;
  0x0; 0x0; 0x0; 0x0; 0x0; 0x0; 0x0; 0x0;
  0x3; 0xff; 0xff; 0xff; 0xfc; 0x3f; 0xff; 0xff;
  0xff; 0x80; 0x0; 0x0; 0x0; 0x0; 0x0; 0x0;
  0x0; 0x0; 0x0; 0x0; 0x0; 0x0; 0x0; 0x0;
  0x0; 0x2; 0xff; 0xff; 0xff; 0xfc; 0x3f; 0xff;
  0xff; 0xff; 0x40; 0x0; 0x0; 0x0; 0x0; 0x0;
  0x0; 0x0; 0x0; 0x0; 0x0; 0x0; 0x0; 0x0;
  0x0; 0x0; 0x1; 0xff; 0xff; 0xff; 0xfd; 0x3f;
  0xff; 0xff; 0xff; 0x40; 0x0; 0x0; 0x0; 0x0;
  0x0; 0x0; 0x0; 0x0; 0x0; 0x0; 0x0; 0x0;
  0x0; 0x0; 0x0; 0x1; 0xff; 0xff; 0xff; 0xfd;
  0x3f; 0xff; 0xff; 0xff; 0x0; 0x0; 0x0; 0x0;
  0x0; 0x0; 0x0; 0x0; 0x0; 0x0; 0x0; 0x0;
  0x0; 0x0; 0x0; 0x0; 0x0; 0xff; 0xff; 0xff;
  0xfd; 0x3f; 0xff; 0xff; 0xff; 0x0; 0x0; 0x0;
  0x0; 0x0; 0x0; 0x0; 0x0; 0x0; 0x0; 0x0;
  0x0; 0x0; 0x0; 0x0; 0x0; 0x0; 0xff; 0xff;
  0xff; 0xfd; 0x3f; 0xff; 0xff; 0xff; 0x0; 0x0;
  0x0; 0x0; 0x0; 0x0; 0x0; 0x0; 0x0; 0x0;
  0x0; 0x0; 0x0; 0x0; 0x0; 0x0; 0x0; 0xff;
  0xff; 0xff; 0xfe; 0x3f; 0xff; 0xff; 0xff; 0x0;
  0x0; 0x0; 0x0; 0x0; 0x0; 0x0; 0x0; 0x0;
  0x0; 0x0; 0x0; 0x0; 0x0; 0x0; 0x0; 0x0;
  0xff; 0xff; 0xff; 0xfe; 0x3f; 0xff; 0xff; 0xff;
  0x0; 0x0; 0x0; 0x0; 0x0; 0x0; 0x0; 0x0;
  0x0; 0x0; 0x0; 0x0; 0x0; 0x0; 0x0; 0x0;
  0x0; 0xff; 0xff; 0xff; 0xfe; 0x3f; 0xff; 0xff;
  0xff; 0x0; 0x0; 0x0; 0x0; 0x0; 0x0; 0x0;
  0x0; 0x0; 0x0; 0x0; 0x0; 0x0; 0x0; 0x0;
  0x0; 0x0; 0xff; 0xff; 0xff; 0xfe; 0x3f; 0xff;
  0xff; 0xff; 0x0; 0x0; 0x0; 0x0; 0x0; 0x0;
  0x0; 0x0; 0x0; 0x0; 0x0; 0x0; 0x0; 0x0;
  0x0; 0x0; 0x0; 0xff; 0xff; 0xff; 0xfe; 0x3f;
  0xff; 0xff; 0xff; 0x0; 0x0; 0x0; 0x0; 0x0;
  0x0; 0x0; 0x0; 0x0; 0x0; 0x0; 0x0; 0x0;
  0x0; 0x0; 0x0; 0x0; 0xff; 0xff; 0xff; 0xfe;
  0x3f; 0xff; 0xff; 0xff; 0x0; 0x0; 0x0; 0x0;
  0x0; 0x0; 0x0; 0x0; 0x0; 0x0; 0x0; 0x0;
  0x0; 0x0; 0x0; 0x0; 0x0; 0xff; 0xff; 0xff;
  0xfe; 0x3f; 0xff; 0xff; 0xff; 0x0; 0x0; 0x0;
  0x0; 0x0; 0x0; 0x0; 0x0; 0x0; 0x0; 0x0;
  0x0; 0x0; 0x0; 0x0; 0x0; 0x0; 0xff; 0xff;
  0xff; 0xfd; 0x3f; 0xff; 0xff; 0xff; 0x40; 0x0;
  0x0; 0x0; 0x0; 0x0; 0x0; 0x0; 0x0; 0x0;
  0x0; 0x0; 0x0; 0x0; 0x0; 0x0; 0x1; 0xff;
  0xff; 0xff; 0xfd; 0x3f; 0xff; 0xff; 0xff; 0x40;
  0x0; 0x0; 0x0; 0x0; 0x0; 0x0; 0x0; 0x0;
  0x0; 0x0; 0x0; 0x0; 0x0; 0x0; 0x0; 0x1;
  0xff; 0xff; 0xff; 0xfd; 0x3f; 0xff; 0xff; 0xff;
  0x40; 0x0; 0x0; 0x0; 0x0; 0x0; 0x0; 0x0;
  0x0; 0x0; 0x0; 0x0; 0x0; 0x0; 0x0; 0x0;
  0x2; 0xff; 0xff; 0xff; 0xfc; 0x3f; 0xff; 0xff;
  0xff; 0x80; 0x0; 0x0; 0x0; 0x0; 0x0; 0x0;
  0x0; 0x0; 0x0; 0x0; 0x0; 0x0; 0x0; 0x0;
  0x0; 0x2; 0xff; 0xff; 0xff; 0xfc; 0x3f; 0xff;
  0xff; 0xff; 0xc0; 0x0; 0x0; 0x0; 0x0; 0x0;
  0x0; 0x0; 0x0; 0x0; 0x0; 0x0; 0x0; 0x0;
  0x0; 0x0; 0x3; 0xff; 0xff; 0xff; 0xfc; 0x3f;
  0xff; 0xff; 0xff; 0xc0; 0x0; 0x0; 0x0; 0x0;
  0x0; 0x0; 0x0; 0x0; 0x0; 0x0; 0x0; 0x0;
  0x0; 0x0; 0x0; 0x3; 0xff; 0xff; 0xff; 0xfc;
  0x3f; 0xff; 0xff; 0xff; 0xc0; 0x0; 0x0; 0x0;
  0x0; 0x0; 0x0; 0x0; 0x0; 0x0; 0x0; 0x0;
  0x0; 0x0; 0x0; 0x0; 0x7; 0xff; 0xff; 0xff;
  0xf8; 0x3f; 0xff; 0xff; 0xff; 0xd0; 0x0; 0x0;
  0x0; 0x0; 0x0; 0x0; 0x0; 0x0; 0x0; 0x0;
  0x0; 0x0; 0x0; 0x0; 0x0; 0xb; 0xff; 0xff;
  0xff; 0xf8; 0x3f; 0xff; 0xff; 0xff; 0xf0; 0x0;
  0x0; 0x0; 0x0; 0x0; 0x0; 0x0; 0x0; 0x0;
  0x0; 0x0; 0x0; 0x0; 0x0; 0x0; 0xf; 0xff;
  0xff; 0xff; 0xf4; 0x3f; 0xff; 0xff; 0xff; 0xf0;
  0x0; 0x0; 0x0; 0x0; 0x0; 0x0; 0x0; 0x0;
  0x0; 0x0; 0x0; 0x0; 0x0; 0x0; 0x0; 0xf;
  0xff; 0xff; 0xff; 0xf0; 0x3f; 0xff; 0xff; 0xff;
  0xf4; 0x0; 0x0; 0x0; 0x0; 0x0; 0x0; 0x0;
  0x0; 0x0; 0x0; 0x0; 0x0; 0x0; 0x0; 0x0;
  0x1f; 0xff; 0xff; 0xff; 0xf0; 0x3f; 0xff; 0xff;
  0xff; 0xf8; 0x0; 0x0; 0x0; 0x0; 0x0; 0x0;
  0x0; 0x0; 0x0; 0x0; 0x0; 0x0; 0x0; 0x0;
  0x0; 0x3f; 0xff; 0xff; 0xff; 0xe0; 0x3f; 0xff;
  0xff; 0xff; 0xfc; 0x0; 0x0; 0x0; 0x0; 0x0;
  0x0; 0x0; 0x0; 0x0; 0x0; 0x0; 0x0; 0x0;
  0x0; 0x0; 0x3f; 0xff; 0xff; 0xff; 0xd0; 0x3f;
  0xff; 0xff; 0xff; 0xfe; 0x0; 0x0; 0x0; 0x0;
  0x0; 0x0; 0x0; 0x0; 0x0; 0x0; 0x0; 0x0;
  0x0; 0x0; 0x0; 0xbf; 0xff; 0xff; 0xff; 0xc0;
  0x3f; 0xff; 0xff; 0xff; 0xff; 0x0; 0x0; 0x0;
  0x0; 0x0; 0x0; 0x0; 0x0; 0x0; 0x0; 0x0;
  0x0; 0x0; 0x0; 0x0; 0xff; 0xff; 0xff; 0xff;
  0xc0; 0x3f; 0xff; 0xff; 0xff; 0xff; 0x40; 0x0;
  0x0; 0x0; 0x0; 0x0; 0x0; 0x0; 0x0; 0x0;
  0x0; 0x0; 0x0; 0x0; 0x2; 0xff; 0xff; 0xff;
  0xff; 0x40; 0x3f; 0xff; 0xff; 0xff; 0xff; 0xc0;
  0x0; 0x0; 0x0; 0x0; 0x0; 0x0; 0x0; 0x0;
  0x0; 0x0; 0x0; 0x0; 0x0; 0x3; 0xff; 0xff;
  0xff; 0xff; 0x0; 0x3f; 0xff; 0xff; 0xff; 0xff;
  0xe0; 0x0; 0x0; 0x0; 0x0; 0x0; 0x0; 0x0;
  0x0; 0x0; 0x0; 0x0; 0x0; 0x0; 0xb; 0xff;
  0xff; 0xff; 0xfe; 0x0; 0x3f; 0xff; 0xff; 0xff;
  0xff; 0xf0; 0x0; 0x0; 0x0; 0x0; 0x0; 0x0;
  0x0; 0x0; 0x0; 0x0; 0x0; 0x0; 0x0; 0x1f;
  0xff; 0xff; 0xff; 0xfd; 0x0; 0x3f; 0xff; 0xff;
  0xff; 0xff; 0xfc; 0x0; 0x0; 0x0; 0x0; 0x0;
  0x0; 0x0; 0x0; 0x0; 0x0; 0x0; 0x0; 0x0;
  0x3f; 0xff; 0xff; 0xff; 0xfc; 0x0; 0x3f; 0xff;
  0xff; 0xff; 0xff; 0xfd; 0x0; 0x0; 0x0; 0x0;
  0x0; 0x0; 0x0; 0x0; 0x0; 0x0; 0x0; 0x0;
  0x0; 0xbf; 0xff; 0xff; 0xff; 0xf4; 0x0; 0x3f;
  0xff; 0xff; 0xff; 0xff; 0xff; 0x0; 0x0; 0x0;
  0x0; 0x0; 0x0; 0x0; 0x0; 0x0; 0x0; 0x0;
  0x0; 0x1; 0xff; 0xff; 0xff; 0xff; 0xf0; 0x0;
  0x3f; 0xff; 0xff; 0xff; 0xff; 0xff; 0xc0; 0x0;
  0x0; 0x0; 0x0; 0x0; 0x0; 0x0; 0x0; 0x0;
  0x0; 0x0; 0x3; 0xff; 0xff; 0xff; 0xff; 0xd0;
  0x0; 0x3f; 0xff; 0xff; 0xff; 0xff; 0xff; 0xf0;
  0x0; 0x0; 0x0; 0x0; 0x0; 0x0; 0x0; 0x0;
  0x0; 0x0; 0x0; 0xf; 0xff; 0xff; 0xff; 0xff;
  0xc0; 0x0; 0x3f; 0xff; 0xff; 0xff; 0xff; 0xff;
  0xfc; 0x0; 0x0; 0x0; 0x0; 0x0; 0x0; 0x0;
  0x0; 0x0; 0x0; 0x0; 0x3f; 0xff; 0xff; 0xff;
  0xff; 0x40; 0x0; 0x3f; 0xff; 0xff; 0xff; 0xff;
  0xff; 0xff; 0x0; 0x0; 0x0; 0x0; 0x0; 0x0;
  0x0; 0x0; 0x0; 0x0; 0x0; 0xff; 0xff; 0xff;
  0xff; 0xff; 0x0; 0x0; 0x3f; 0xff; 0xff; 0xff;
  0xff; 0xff; 0xff; 0xc0; 0x0; 0x0; 0x0; 0x0;
  0x0; 0x0; 0x0; 0x0; 0x0; 0x3; 0xff; 0xff;
  0xff; 0xff; 0xfc; 0x0; 0x0; 0x3f; 0xff; 0xff;
  0xff; 0xff; 0xff; 0xff; 0xf4; 0x0; 0x0; 0x0;
  0x0; 0x0; 0x0; 0x0; 0x0; 0x0; 0x1f; 0xff;
  0xff; 0xff; 0xff; 0xf8; 0x0; 0x0; 0x3f; 0xff;
  0xff; 0xff; 0xff; 0xff; 0xff; 0xfe; 0x0; 0x0;
  0x0; 0x0; 0x0; 0x0; 0x0; 0x0; 0x0; 0xbf;
  0xff; 0xff; 0xff; 0xff; 0xf0; 0x0; 0x0; 0x3f;
  0xff; 0xff; 0xff; 0xff; 0xff; 0xff; 0xff; 0xd0;
  0x0; 0x0; 0x0; 0x0; 0x0; 0x0; 0x0; 0x7;
  0xff; 0xff; 0xff; 0xff; 0xff; 0xc0; 0x0; 0x0;
  0x3f; 0xff; 0xff; 0xff; 0xff; 0xff; 0xff; 0xff;
  0xf8; 0x0; 0x0; 0x0; 0x0; 0x0; 0x0; 0x0;
  0x3f; 0xff; 0xff; 0xff; 0xff; 0xff; 0x40; 0x0;
  0x0; 0x3f; 0xff; 0xff; 0xff; 0xff; 0xff; 0xff;
  0xff; 0xff; 0x90; 0x0; 0x0; 0x0; 0x0; 0x0;
  0x7; 0xff; 0xff; 0xff; 0xff; 0xff; 0xfe; 0x0 ].

Definition quicksand_bitmap_11 : list Z :=
  [ 0x0; 0x0; 0x3f; 0xff; 0xff; 0xff; 0xcf; 0xff;
  0xff; 0xff; 0xff; 0xfe; 0x40; 0x0; 0x0; 0x0;
  0x1; 0xbf; 0xff; 0xff; 0xff; 0xff; 0xff; 0xfc;
  0x0; 0x0; 0x0; 0x3f; 0xff; 0xff; 0xff; 0xc7;
  0xff; 0xff; 0xff; 0xff; 0xff; 0xfe; 0x50; 0x0;
  0x5; 0xbf; 0xff; 0xff; 0xff; 0xff; 0xff; 0xff;
  0xf0; 0x0; 0x0; 0x0; 0x3f; 0xff; 0xff; 0xff;
  0xc1; 0xff; 0xff; 0xff; 0xff; 0xff; 0xff; 0xff;
  0xff; 0xff; 0xff; 0xff; 0xff; 0xff; 0xff; 0xff;
  0xff; 0xc0; 0x0; 0x0; 0x0; 0x3f; 0xff; 0xff;
  0xff; 0xc0; 0x7f; 0xff; 0xff; 0xff; 0xff; 0xff;
  0xff; 0xff; 0xff; 0xff; 0xff; 0xff; 0xff; 0xff;
  0xff; 0xff; 0x0; 0x0; 0x0; 0x0; 0x3f; 0xff;
  0xff; 0xff; 0xc0; 0x1f; 0xff; 0xff; 0xff; 0xff;
  0xff; 0xff; 0xff; 0xff; 0xff; 0xff; 0xff; 0xff;
  0xff; 0xff; 0xfc; 0x0; 0x0; 0x0; 0x0; 0x3f;
  0xff; 0xff; 0xff; 0xc0; 0x7; 0xff; 0xff; 0xff;
  0xff; 0xff; 0xff; 0xff; 0xff; 0xff; 0xff; 0xff;
  0xff; 0xff; 0xff; 0xf0; 0x0; 0x0; 0x0; 0x0;
  0x3f; 0xff; 0xff; 0xff; 0xc0; 0x0; 0xff; 0xff;
  0xff; 0xff; 0xff; 0xff; 0xff; 0xff; 0xff; 0xff;
  0xff; 0xff; 0xff; 0xff; 0xc0; 0x0; 0x0; 0x0;
  0x0; 0x3f; 0xff; 0xff; 0xff; 0xc0; 0x0; 0x3f;
  0xff; 0xff; 0xff; 0xff; 0xff; 0xff; 0xff; 0xff;
  0xff; 0xff; 0xff; 0xff; 0xfe; 0x0; 0x0; 0x0;
  0x0; 0x0; 0x3f; 0xff; 0xff; 0xff; 0xc0; 0x0;
  0x7; 0xff; 0xff; 0xff; 0xff; 0xff; 0xff; 0xff;
  0xff; 0xff; 0xff; 0xff; 0xff; 0xf4; 0x0; 0x0;
  0x0; 0x0; 0x0; 0x3f; 0xff; 0xff; 0xff; 0xc0;
  0x0; 0x0; 0xff; 0xff; 0xff; 0xff; 0xff; 0xff;
  0xff; 0xff; 0xff; 0xff; 0xff; 0xff; 0x80; 0x0;
  0x0; 0x0; 0x0; 0x0; 0x3f; 0xff; 0xff; 0xff;
  0xc0; 0x0; 0x0; 0x1f; 0xff; 0xff; 0xff; 0xff;
  0xff; 0xff; 0xff; 0xff; 0xff; 0xff; 0xfd; 0x0;
  0x0; 0x0; 0x0; 0x0; 0x0; 0x3f; 0xff; 0xff;
  0xff; 0xc0; 0x0; 0x0; 0x2; 0xff; 0xff; 0xff;
  0xff; 0xff; 0xff; 0xff; 0xff; 0xff; 0xff; 0xe0;
  0x0; 0x0; 0x0; 0x0; 0x0; 0x0; 0x3f; 0xff;
  0xff; 0xff; 0xc0; 0x0; 0x0; 0x0; 0x2f; 0xff;
  0xff; 0xff; 0xff; 0xff; 0xff; 0xff; 0xff; 0xfe;
  0x0; 0x0; 0x0; 0x0; 0x0; 0x0; 0x0; 0x3f;
  0xff; 0xff; 0xff; 0xc0; 0x0; 0x0; 0x0; 0x1;
  0xff; 0xff; 0xff; 0xff; 0xff; 0xff; 0xff; 0xff;
  0xd0; 0x0; 0x0; 0x0; 0x0; 0x0; 0x0; 0x0;
  0x3f; 0xff; 0xff; 0xff; 0xc0; 0x0; 0x0; 0x0;
  0x0; 0xb; 0xff; 0xff; 0xff; 0xff; 0xff; 0xff;
  0xf8; 0x0; 0x0; 0x0; 0x0; 0x0; 0x0; 0x0;
  0x0; 0x3f; 0xff; 0xff; 0xff; 0xc0; 0x0; 0x0;
  0x0; 0x0; 0x0; 0x1b; 0xff; 0xff; 0xff; 0xff;
  0xf9; 0x0; 0x0; 0x0; 0x0; 0x0; 0x0; 0x0;
  0x0; 0x0; 0x3f; 0xff; 0xff; 0xff; 0xc0; 0x0;
  0x0; 0x0; 0x0; 0x0; 0x0; 0x16; 0xaf; 0xfa;
  0xa5; 0x0; 0x0; 0x0; 0x0; 0x0; 0x0; 0x0;
  0x0; 0x0; 0x0; 0x3f; 0xff; 0xff; 0xff; 0xc0;
  0x0; 0x0; 0x0; 0x0; 0x0; 0x0; 0x0; 0x0;
  0x0; 0x0; 0x0; 0x0; 0x0; 0x0; 0x0; 0x0;
  0x0; 0x0; 0x0; 0x0; 0x3f; 0xff; 0xff; 0xff;
  0xc0; 0x0; 0x0; 0x0; 0x0; 0x0; 0x0; 0x0;
  0x0; 0x0; 0x0; 0x0; 0x0; 0x0; 0x0; 0x0;
  0x0; 0x0; 0x0; 0x0; 0x0; 0x3f; 0xff; 0xff;
  0xff; 0xc0; 0x0; 0x0; 0x0; 0x0; 0x0; 0x0;
  0x0; 0x0; 0x0; 0x0; 0x0; 0x0; 0x0; 0x0;
  0x0; 0x0; 0x0; 0x0; 0x0; 0x0; 0x3f; 0xff;
  0xff; 0xff; 0xc0; 0x0; 0x0; 0x0; 0x0; 0x0;
  0x0; 0x0; 0x0; 0x0; 0x0; 0x0; 0x0; 0x0;
  0x0; 0x0; 0x0; 0x0; 0x0; 0x0; 0x0; 0x3f;
  0xff; 0xff; 0xff; 0xc0; 0x0; 0x0; 0x0; 0x0;
  0x0; 0x0; 0x0; 0x0; 0x0; 0x0; 0x0; 0x0;
  0x0; 0x0; 0x0; 0x0; 0x0; 0x0; 0x0; 0x0;
  0x3f; 0xff; 0xff; 0xff; 0xc0; 0x0; 0x0; 0x0;
  0x0; 0x0; 0x0; 0x0; 0x0; 0x0; 0x0; 0x0;
  0x0; 0x0; 0x0; 0x0; 0x0; 0x0; 0x0; 0x0;
  0x0; 0x3f; 0xff; 0xff; 0xff; 0xc0; 0x0; 0x0;
  0x0; 0x0; 0x0; 0x0; 0x0; 0x0; 0x0; 0x0;
  0x0; 0x0; 0x0; 0x0; 0x0; 0x0; 0x0; 0x0;
  0x0; 0x0; 0x3f; 0xff; 0xff; 0xff; 0xc0; 0x0;
  0x0; 0x0; 0x0; 0x0; 0x0; 0x0; 0x0; 0x0;
  0x0; 0x0; 0x0; 0x0; 0x0; 0x0; 0x0; 0x0;
  0x0; 0x0; 0x0; 0x3f; 0xff; 0xff; 0xff; 0xc0;
  0x0; 0x0; 0x0; 0x0; 0x0; 0x0; 0x0; 0x0;
  0x0; 0x0; 0x0; 0x0; 0x0; 0x0; 0x0; 0x0;
  0x0; 0x0; 0x0; 0x0; 0x3f; 0xff; 0xff; 0xff;
  0xc0; 0x0; 0x0; 0x0; 0x0; 0x0; 0x0; 0x0;
  0x0; 0x0; 0x0; 0x0; 0x0; 0x0; 0x0; 0x0;
  0x0; 0x0; 0x0; 0x0; 0x0; 0x3f; 0xff; 0xff;
  0xff; 0xc0; 0x0; 0x0; 0x0; 0x0; 0x0; 0x0;
  0x0; 0x0; 0x0; 0x0; 0x0; 0x0; 0x0; 0x0;
  0x0; 0x0; 0x0; 0x0; 0x0; 0x0; 0x3f; 0xff;
  0xff; 0xff; 0xc0; 0x0; 0x0; 0x0; 0x0; 0x0;
  0x0; 0x0; 0x0; 0x0; 0x0; 0x0; 0x0; 0x0;
  0x0; 0x0; 0x0; 0x0; 0x0; 0x0; 0x0; 0x3f;
  0xff; 0xff; 0xff; 0xc0; 0x0; 0x0; 0x0; 0x0;
  0x0; 0x0; 0x0; 0x0; 0x0; 0x0; 0x0; 0x0;
  0x0; 0x0; 0x0; 0x0; 0x0; 0x0; 0x0; 0x0;
  0x3f; 0xff; 0xff; 0xff; 0xc0; 0x0; 0x0; 0x0;
  0x0; 0x0; 0x0; 0x0; 0x0; 0x0; 0x0; 0x0;
  0x0; 0x0; 0x0; 0x0; 0x0; 0x0; 0x0; 0x0;
  0x0; 0x3f; 0xff; 0xff; 0xff; 0xc0; 0x0; 0x0;
  0x0; 0x0; 0x0; 0x0; 0x0; 0x0; 0x0; 0x0;
  0x0; 0x0; 0x0; 0x0; 0x0; 0x0; 0x0; 0x0;
  0x0; 0x0; 0x3f; 0xff; 0xff; 0xff; 0xc0; 0x0;
  0x0; 0x0; 0x0; 0x0; 0x0; 0x0; 0x0; 0x0;
  0x0; 0x0; 0x0; 0x0; 0x0; 0x0; 0x0; 0x0;
  0x0; 0x0; 0x0; 0x3f; 0xff; 0xff; 0xff; 0xc0;
  0x0; 0x0; 0x0; 0x0; 0x0; 0x0; 0x0; 0x0;
  0x0; 0x0; 0x0; 0x0; 0x0; 0x0; 0x0; 0x0;
  0x0; 0x0; 0x0; 0x0; 0x3f; 0xff; 0xff; 0xff;
  0xc0; 0x0; 0x0; 0x0; 0x0; 0x0; 0x0; 0x0;
  0x0; 0x0; 0x0; 0x0; 0x0; 0x0; 0x0; 0x0;
  0x0; 0x0; 0x0; 0x0; 0x0; 0x3f; 0xff; 0xff;
  0xff; 0xc0; 0x0; 0x0; 0x0; 0x0; 0x0; 0x0;
  0x0; 0x0; 0x0; 0x0; 0x0; 0x0; 0x0; 0x0;
  0x0; 0x0; 0x0; 0x0; 0x0; 0x0; 0x3f; 0xff;
  0xff; 0xff; 0xc0; 0x0; 0x0; 0x0; 0x0; 0x0;
  0x0; 0x0; 0x0; 0x0; 0x0; 0x0; 0x0; 0x0;
  0x0; 0x0; 0x0; 0x0; 0x0; 0x0; 0x0; 0x3f;
  0xff; 0xff; 0xff; 0xc0; 0x0; 0x0; 0x0; 0x0;
  0x0; 0x0; 0x0; 0x0; 0x0; 0x0; 0x0; 0x0;
  0x0; 0x0; 0x0; 0x0; 0x0; 0x0; 0x0; 0x0;
  0x3f; 0xff; 0xff; 0xff; 0xc0; 0x0; 0x0; 0x0;
  0x0; 0x0; 0x0; 0x0; 0x0; 0x0; 0x0; 0x0;
  0x0; 0x0; 0x0; 0x0; 0x0; 0x0; 0x0; 0x0;
  0x0; 0x3f; 0xff; 0xff; 0xff; 0xc0; 0x0; 0x0;
  0x0; 0x0; 0x0; 0x0; 0x0; 0x0; 0x0; 0x0;
  0x0; 0x0; 0x0; 0x0; 0x0; 0x0; 0x0; 0x0;
  0x0; 0x0; 0x3f; 0xff; 0xff; 0xff; 0xc0; 0x0;
  0x0; 0x0; 0x0; 0x0; 0x0; 0x0; 0x0; 0x0;
  0x0; 0x0; 0x0; 0x0; 0x0; 0x0; 0x0; 0x0;
  0x0; 0x0; 0x0; 0x3f; 0xff; 0xff; 0xff; 0xc0;
  0x0; 0x0; 0x0; 0x0; 0x0; 0x0; 0x0; 0x0;
  0x0; 0x0; 0x0; 0x0; 0x0; 0x0; 0x0; 0x0;
  0x0; 0x0; 0x0; 0x0; 0x3f; 0xff; 0xff; 0xff;
  0xc0; 0x0; 0x0; 0x0; 0x0; 0x0; 0x0; 0x0;
  0x0; 0x0; 0x0; 0x0; 0x0; 0x0; 0x0; 0x0;
  0x0; 0x0; 0x0; 0x0; 0x0; 0x3f; 0xff; 0xff;
  0xff; 0xc0; 0x0; 0x0; 0x0; 0x0; 0x0; 0x0;
  0x0; 0x0; 0x0; 0x0; 0x0; 0x0; 0x0; 0x0;
  0x0; 0x0; 0x0; 0x0; 0x0; 0x0; 0x3f; 0xff;
  0xff; 0xff; 0xc0; 0x0; 0x0; 0x0; 0x0; 0x0;
  0x0; 0x0; 0x0; 0x0; 0x0; 0x0; 0x0; 0x0;
  0x0; 0x0; 0x0; 0x0; 0x0; 0x0; 0x0; 0x3f;
  0xff; 0xff; 0xff; 0xc0; 0x0; 0x0; 0x0; 0x0;
  0x0; 0x0; 0x0; 0x0; 0x0; 0x0; 0x0; 0x0;
  0x0; 0x0; 0x0; 0x0; 0x0; 0x0; 0x0; 0x0;
  0x3f; 0xff; 0xff; 0xff; 0xc0; 0x0; 0x0; 0x0;
  0x0; 0x0; 0x0; 0x0; 0x0; 0x0; 0x0; 0x0;
  0x0; 0x0; 0x0; 0x0; 0x0; 0x0; 0x0; 0x0;
  0x0; 0x3f; 0xff; 0xff; 0xff; 0xc0; 0x0; 0x0;
  0x0; 0x0; 0x0; 0x0; 0x0; 0x0; 0x0; 0x0;
  0x0; 0x0; 0x0; 0x0; 0x0; 0x0; 0x0; 0x0 ].

Definition quicksand_bitmap_12 : list Z :=
  [ 0x0; 0x0; 0x3f; 0xff; 0xff; 0xff; 0x80; 0x0;
  0x0; 0x0; 0x0; 0x0; 0x0; 0x0; 0x0; 0x0;
  0x0; 0x0; 0x0; 0x0; 0x0; 0x0; 0x0; 0x0;
  0x0; 0x0; 0x0; 0x3f; 0xff; 0xff; 0xff; 0x40;
  0x0; 0x0; 0x0; 0x0; 0x0; 0x0; 0x0; 0x0;
  0x0; 0x0; 0x0; 0x0; 0x0; 0x0; 0x0; 0x0;
  0x0; 0x0; 0x0; 0x0; 0x1f; 0xff; 0xff; 0xff;
  0x0; 0x0; 0x0; 0x0; 0x0; 0x0; 0x0; 0x0;
  0x0; 0x0; 0x0; 0x0; 0x0; 0x0; 0x0; 0x0;
  0x0; 0x0; 0x0; 0x0; 0x0; 0xf; 0xff; 0xff;
  0xfd; 0x0; 0x0; 0x0; 0x0; 0x0; 0x0; 0x0;
  0x0; 0x0; 0x0; 0x0; 0x0; 0x0; 0x0; 0x0;
  0x0; 0x0; 0x0; 0x0; 0x0; 0x0; 0x3; 0xff;
  0xff; 0xf8; 0x0; 0x0; 0x0; 0x0; 0x0; 0x0;
  0x0; 0x0; 0x0; 0x0; 0x0; 0x0; 0x0; 0x0;
  0x0; 0x0; 0x0; 0x0; 0x0; 0x0; 0x0; 0x0;
  0xff; 0xff; 0xe0; 0x0; 0x0; 0x0; 0x0; 0x0;
  0x0; 0x0; 0x0; 0x0; 0x0; 0x0; 0x0; 0x0;
  0x0; 0x0; 0x0; 0x0; 0x0; 0x0; 0x0; 0x0;
  0x0; 0x1b; 0xfe; 0x0; 0x0; 0x0; 0x0; 0x0;
  0x0; 0x0; 0x0; 0x0; 0x0; 0x0; 0x0; 0x0;
  0x0; 0x0; 0x0; 0x0; 0x0; 0x0; 0x0; 0x0;
  0x0;
  0x0; 0x0; 0x0; 0x0; 0x0; 0x0; 0x0; 0x0;
  0x0; 0x0; 0x0; 0x6b; 0xff; 0xf9; 0x0; 0x0;
  0x0; 0x0; 0x0; 0x0; 0x0; 0x0; 0x0; 0x0;
  0x0; 0x1; 0xbf; 0xff; 0xff; 0xff; 0xd0; 0x0;
  0x0; 0x15; 0x40; 0x0; 0x0; 0x0; 0x0; 0x0;
  0x0; 0xbf; 0xff; 0xff; 0xff; 0xff; 0xf0; 0x0;
  0xb; 0xff; 0xe0; 0x0; 0x0; 0x0; 0x0; 0x0;
  0x7f; 0xff; 0xff; 0xff; 0xff; 0xff; 0xf0; 0x1;
  0xff; 0xff; 0xf0; 0x0; 0x0; 0x0; 0x0; 0xf;
  0xff; 0xff; 0xff; 0xff; 0xff; 0xff; 0xf0; 0x1f;
  0xff; 0xff; 0xf0; 0x0; 0x0; 0x0; 0x2; 0xff;
  0xff; 0xff; 0xff; 0xff; 0xff; 0xff; 0xe0; 0xff;
  0xff; 0xff; 0xf0; 0x0; 0x0; 0x0; 0x3f; 0xff;
  0xff; 0xff; 0xff; 0xff; 0xff; 0xff; 0xcb; 0xff;
  0xff; 0xff; 0xc0; 0x0; 0x0; 0x7; 0xff; 0xff;
  0xff; 0xff; 0xff; 0xff; 0xff; 0xff; 0x3f; 0xff;
  0xff; 0xff; 0x80; 0x0; 0x0; 0xbf; 0xff; 0xff;
  0xff; 0xff; 0xff; 0xff; 0xff; 0xfc; 0xff; 0xff;
  0xff; 0xfe; 0x0; 0x0; 0xb; 0xff; 0xff; 0xff;
  0xff; 0xff; 0xff; 0xff; 0xff; 0xf3; 0xff; 0xff;
  0xff; 0xfc; 0x0; 0x0; 0xff; 0xff; 0xff; 0xff;
  0xff; 0xff; 0xff; 0xff; 0xff; 0xcf; 0xff; 0xff;
  0xff; 0xf0; 0x0; 0xb; 0xff; 0xff; 0xff; 0xff;
  0xff; 0xff; 0xff; 0xff; 0xfd; 0x3f; 0xff; 0xff;
  0xff; 0xc0; 0x0; 0xbf; 0xff; 0xff; 0xff; 0xff;
  0xff; 0xff; 0xff; 0xff; 0xf0; 0xff; 0xff; 0xff;
  0xff; 0x0; 0xb; 0xff; 0xff; 0xff; 0xff; 0xff;
  0xff; 0xff; 0xff; 0xff; 0x43; 0xff; 0xff; 0xff;
  0xfc; 0x0; 0x7f; 0xff; 0xff; 0xff; 0xf9; 0x0;
  0x6; 0xff; 0xff; 0xf4; 0xf; 0xff; 0xff; 0xff;
  0xf0; 0x3; 0xff; 0xff; 0xff; 0xf4; 0x0; 0x0;
  0x0; 0x6f; 0xfe; 0x0; 0x3f; 0xff; 0xff; 0xff;
  0xc0; 0x3f; 0xff; 0xff; 0xfd; 0x0; 0x0; 0x0;
  0x0; 0x0; 0x0; 0x0; 0xff; 0xff; 0xff; 0xff;
  0x1; 0xff; 0xff; 0xff; 0x80; 0x0; 0x0; 0x0;
  0x0; 0x0; 0x0; 0x3; 0xff; 0xff; 0xff; 0xfc;
  0xf; 0xff; 0xff; 0xf0; 0x0; 0x0; 0x0; 0x0;
  0x0; 0x0; 0x0; 0xf; 0xff; 0xff; 0xff; 0xf0;
  0xbf; 0xff; 0xfe; 0x0; 0x0; 0x0; 0x0; 0x0;
  0x0; 0x0; 0x0; 0x3f; 0xff; 0xff; 0xff; 0xc3;
  0xff; 0xff; 0xe0; 0x0; 0x0; 0x0; 0x0; 0x0;
  0x0; 0x0; 0x0; 0xff; 0xff; 0xff; 0xff; 0x2f;
  0xff; 0xfe; 0x0; 0x0; 0x0; 0x0; 0x0; 0x0;
  0x0; 0x0; 0x3; 0xff; 0xff; 0xff; 0xfc; 0xff;
  0xff; 0xe0; 0x0; 0x0; 0x0; 0x0; 0x0; 0x0;
  0x0; 0x0; 0xf; 0xff; 0xff; 0xff; 0xfb; 0xff;
  0xfe; 0x0; 0x0; 0x0; 0x0; 0x0; 0x0; 0x0;
  0x0; 0x0; 0x3f; 0xff; 0xff; 0xff; 0xff; 0xff;
  0xf0; 0x0; 0x0; 0x0; 0x0; 0x0; 0x0; 0x0;
  0x0; 0x0; 0xff; 0xff; 0xff; 0xff; 0xff; 0xff;
  0x0; 0x0; 0x0; 0x0; 0x0; 0x0; 0x0; 0x0;
  0x0; 0x3; 0xff; 0xff; 0xff; 0xff; 0xff; 0xf4;
  0x0; 0x0; 0x0; 0x0; 0x0; 0x0; 0x0; 0x0;
  0x0; 0xf; 0xff; 0xff; 0xff; 0xff; 0xff; 0x80;
  0x0; 0x0; 0x0; 0x0; 0x0; 0x0; 0x0; 0x0;
  0x0; 0x3f; 0xff; 0xff; 0xff; 0xff; 0xfc; 0x0;
  0x0; 0x0; 0x0; 0x0; 0x0; 0x0; 0x0; 0x0;
  0x0; 0xff; 0xff; 0xff; 0xff; 0xff; 0xd0; 0x0;
  0x0; 0x0; 0x0; 0x0; 0x0; 0x0; 0x0; 0x0;
  0x3; 0xff; 0xff; 0xff; 0xff; 0xff; 0x0; 0x0;
  0x0; 0x0; 0x0; 0x0; 0x0; 0x0; 0x0; 0x0;
  0xf; 0xff; 0xff; 0xff; 0xff; 0xf0; 0x0; 0x0;
  0x0; 0x0; 0x0; 0x0; 0x0; 0x0; 0x0; 0x0;
  0x3f; 0xff; 0xff; 0xff; 0xff; 0x80; 0x0; 0x0;
  0x0; 0x0; 0x0; 0x0; 0x0; 0x0; 0x0; 0x0;
  0xff; 0xff; 0xff; 0xff; 0xfc; 0x0; 0x0; 0x0;
  0x0; 0x0; 0x0; 0x0; 0x0; 0x0; 0x0; 0x3;
  0xff; 0xff; 0xff; 0xff; 0xf0; 0x0; 0x0; 0x0;
  0x0; 0x0; 0x0; 0x0; 0x0; 0x0; 0x0; 0xf;
  0xff; 0xff; 0xff; 0xff; 0x40; 0x0; 0x0; 0x0;
  0x0; 0x0; 0x0; 0x0; 0x0; 0x0; 0x0; 0x3f;
  0xff; 0xff; 0xff; 0xfc; 0x0; 0x0; 0x0; 0x0;
  0x0; 0x0; 0x0; 0x0; 0x0; 0x0; 0x0; 0xff;
  0xff; 0xff; 0xff; 0xe0; 0x0; 0x0; 0x0; 0x0;
  0x0; 0x0; 0x0; 0x0; 0x0; 0x0; 0x3; 0xff;
  0xff; 0xff; 0xff; 0x40; 0x0; 0x0; 0x0; 0x0;
  0x0; 0x0; 0x0; 0x0; 0x0; 0x0; 0xf; 0xff;
  0xff; 0xff; 0xfc; 0x0; 0x0; 0x0; 0x0; 0x0;
  0x0; 0x0; 0x0; 0x0; 0x0; 0x0; 0x3f; 0xff;
  0xff; 0xff; 0xf0; 0x0; 0x0; 0x0; 0x0; 0x0;
  0x0; 0x0; 0x0; 0x0; 0x0; 0x0; 0xff; 0xff;
  0xff; 0xff; 0x80; 0x0; 0x0; 0x0; 0x0; 0x0;
  0x0; 0x0; 0x0; 0x0; 0x0; 0x3; 0xff; 0xff;
  0xff; 0xfd; 0x0; 0x0; 0x0; 0x0; 0x0; 0x0;
  0x0; 0x0; 0x0; 0x0; 0x0; 0xf; 0xff; 0xff;
  0xff; 0xf0; 0x0; 0x0; 0x0; 0x0; 0x0; 0x0;
  0x0; 0x0; 0x0; 0x0; 0x0; 0x3f; 0xff; 0xff;
  0xff; 0xc0; 0x0; 0x0; 0x0; 0x0; 0x0; 0x0;
  0x0; 0x0; 0x0; 0x0; 0x0; 0xff; 0xff; 0xff;
  0xff; 0x0; 0x0; 0x0; 0x0; 0x0; 0x0; 0x0;
  0x0; 0x0; 0x0; 0x0; 0x3; 0xff; 0xff; 0xff;
  0xfc; 0x0; 0x0; 0x0; 0x0; 0x0; 0x0; 0x0;
  0x0; 0x0; 0x0; 0x0; 0xf; 0xff; 0xff; 0xff;
  0xf0; 0x0; 0x0; 0x0; 0x0; 0x0; 0x0; 0x0;
  0x0; 0x0; 0x0; 0x0; 0x3f; 0xff; 0xff; 0xff;
  0xc0; 0x0; 0x0; 0x0; 0x0; 0x0; 0x0; 0x0;
  0x0; 0x0; 0x0; 0x0; 0xff; 0xff; 0xff; 0xff;
  0x0; 0x0; 0x0; 0x0; 0x0; 0x0; 0x0; 0x0;
  0x0; 0x0; 0x0; 0x3; 0xff; 0xff; 0xff; 0xfc;
  0x0; 0x0; 0x0; 0x0; 0x0; 0x0; 0x0; 0x0;
  0x0; 0x0; 0x0; 0xf; 0xff; 0xff; 0xff; 0xf0;
  0x0; 0x0; 0x0; 0x0; 0x0; 0x0; 0x0; 0x0;
  0x0; 0x0; 0x0; 0x3f; 0xff; 0xff; 0xff; 0xc0;
  0x0; 0x0; 0x0; 0x0; 0x0; 0x0; 0x0; 0x0;
  0x0; 0x0; 0x0; 0xff; 0xff; 0xff; 0xff; 0x0;
  0x0; 0x0; 0x0; 0x0; 0x0; 0x0; 0x0; 0x0;
  0x0; 0x0; 0x3; 0xff; 0xff; 0xff; 0xfc; 0x0;
  0x0; 0x0; 0x0; 0x0; 0x0; 0x0; 0x0; 0x0;
  0x0; 0x0; 0xf; 0xff; 0xff; 0xff; 0xf0; 0x0;
  0x0; 0x0; 0x0; 0x0; 0x0; 0x0; 0x0; 0x0;
  0x0; 0x0; 0x3f; 0xff; 0xff; 0xff; 0xc0; 0x0;
  0x0; 0x0; 0x0; 0x0; 0x0; 0x0; 0x0; 0x0;
  0x0; 0x0; 0xff; 0xff; 0xff; 0xff; 0x0; 0x0;
  0x0; 0x0; 0x0; 0x0; 0x0; 0x0; 0x0; 0x0;
  0x0; 0x3; 0xff; 0xff; 0xff; 0xfc; 0x0; 0x0;
  0x0; 0x0; 0x0; 0x0; 0x0; 0x0; 0x0; 0x0;
  0x0; 0xf; 0xff; 0xff; 0xff; 0xf0; 0x0; 0x0;
  0x0; 0x0; 0x0; 0x0; 0x0; 0x0; 0x0; 0x0;
  0x0; 0x3f; 0xff; 0xff; 0xff; 0xc0; 0x0; 0x0;
  0x0; 0x0; 0x0; 0x0; 0x0; 0x0; 0x0; 0x0;
  0x0; 0xff; 0xff; 0xff; 0xff; 0x0; 0x0; 0x0;
  0x0; 0x0; 0x0; 0x0; 0x0; 0x0; 0x0; 0x0;
  0x3; 0xff; 0xff; 0xff; 0xfc; 0x0; 0x0; 0x0;
  0x0; 0x0; 0x0; 0x0; 0x0; 0x0; 0x0; 0x0;
  0xf; 0xff; 0xff; 0xff; 0xf0; 0x0; 0x0; 0x0 ].

Definition quicksand_bitmap_13 : list Z :=
  [ 0x0; 0x0; 0x0; 0x0; 0x0; 0x0; 0x0; 0x0;
  0x3f; 0xff; 0xff; 0xff; 0xc0; 0x0; 0x0; 0x0;
  0x0; 0x0; 0x0; 0x0; 0x0; 0x0; 0x0; 0x0;
  0xff; 0xff; 0xff; 0xff; 0x0; 0x0; 0x0; 0x0;
  0x0; 0x0; 0x0; 0x0; 0x0; 0x0; 0x0; 0x3;
  0xff; 0xff; 0xff; 0xfc; 0x0; 0x0; 0x0; 0x0;
  0x0; 0x0; 0x0; 0x0; 0x0; 0x0; 0x0; 0xf;
  0xff; 0xff; 0xff; 0xf0; 0x0; 0x0; 0x0; 0x0;
  0x0; 0x0; 0x0; 0x0; 0x0; 0x0; 0x0; 0x3f;
  0xff; 0xff; 0xff; 0xc0; 0x0; 0x0; 0x0; 0x0;
  0x0; 0x0; 0x0; 0x0; 0x0; 0x0; 0x0; 0xff;
  0xff; 0xff; 0xff; 0x0; 0x0; 0x0; 0x0; 0x0;
  0x0; 0x0; 0x0; 0x0; 0x0; 0x0; 0x3; 0xff;
  0xff; 0xff; 0xfc; 0x0; 0x0; 0x0; 0x0; 0x0;
  0x0; 0x0; 0x0; 0x0; 0x0; 0x0; 0xf; 0xff;
  0xff; 0xff; 0xf0; 0x0; 0x0; 0x0; 0x0; 0x0;
  0x0; 0x0; 0x0; 0x0; 0x0; 0x0; 0x3f; 0xff;
  0xff; 0xff; 0xc0; 0x0; 0x0; 0x0; 0x0; 0x0;
  0x0; 0x0; 0x0; 0x0; 0x0; 0x0; 0xff; 0xff;
  0xff; 0xff; 0x0; 0x0; 0x0; 0x0; 0x0; 0x0;
  0x0; 0x0; 0x0; 0x0; 0x0; 0x3; 0xff; 0xff;
  0xff; 0xfc; 0x0; 0x0; 0x0; 0x0; 0x0; 0x0;
  0x0; 0x0; 0x0; 0x0; 0x0; 0xf; 0xff; 0xff;
  0xff; 0xf0; 0x0; 0x0; 0x0; 0x0; 0x0; 0x0;
  0x0; 0x0; 0x0; 0x0; 0x0; 0x3f; 0xff; 0xff;
  0xff; 0xc0; 0x0; 0x0; 0x0; 0x0; 0x0; 0x0;
  0x0; 0x0; 0x0; 0x0; 0x0; 0xff; 0xff; 0xff;
  0xff; 0x0; 0x0; 0x0; 0x0; 0x0; 0x0; 0x0;
  0x0; 0x0; 0x0; 0x0; 0x3; 0xff; 0xff; 0xff;
  0xfc; 0x0; 0x0; 0x0; 0x0; 0x0; 0x0; 0x0;
  0x0; 0x0; 0x0; 0x0; 0xf; 0xff; 0xff; 0xff;
  0xf0; 0x0; 0x0; 0x0; 0x0; 0x0; 0x0; 0x0;
  0x0; 0x0; 0x0; 0x0; 0x3f; 0xff; 0xff; 0xff;
  0xc0; 0x0; 0x0; 0x0; 0x0; 0x0; 0x0; 0x0;
  0x0; 0x0; 0x0; 0x0; 0xff; 0xff; 0xff; 0xff;
  0x0; 0x0; 0x0; 0x0; 0x0; 0x0; 0x0; 0x0;
  0x0; 0x0; 0x0; 0x3; 0xff; 0xff; 0xff; 0xfc;
  0x0; 0x0; 0x0; 0x0; 0x0; 0x0; 0x0; 0x0;
  0x0; 0x0; 0x0; 0xf; 0xff; 0xff; 0xff; 0xf0;
  0x0; 0x0; 0x0; 0x0; 0x0; 0x0; 0x0; 0x0;
  0x0; 0x0; 0x0; 0x3f; 0xff; 0xff; 0xff; 0xc0;
  0x0; 0x0; 0x0; 0x0; 0x0; 0x0; 0x0; 0x0;
  0x0; 0x0; 0x0; 0xff; 0xff; 0xff; 0xff; 0x0;
  0x0; 0x0; 0x0; 0x0; 0x0; 0x0; 0x0; 0x0;
  0x0; 0x0; 0x3; 0xff; 0xff; 0xff; 0xfc; 0x0;
  0x0; 0x0; 0x0; 0x0; 0x0; 0x0; 0x0; 0x0;
  0x0; 0x0; 0xf; 0xff; 0xff; 0xff; 0xf0; 0x0;
  0x0; 0x0; 0x0; 0x0; 0x0; 0x0; 0x0; 0x0;
  0x0; 0x0; 0x3f; 0xff; 0xff; 0xff; 0xc0; 0x0;
  0x0; 0x0; 0x0; 0x0; 0x0; 0x0; 0x0; 0x0;
  0x0; 0x0; 0xff; 0xff; 0xff; 0xff; 0x0; 0x0;
  0x0; 0x0; 0x0; 0x0; 0x0; 0x0; 0x0; 0x0;
  0x0; 0x3; 0xff; 0xff; 0xff; 0xfc; 0x0; 0x0;
  0x0; 0x0; 0x0; 0x0; 0x0; 0x0; 0x0; 0x0;
  0x0; 0xf; 0xff; 0xff; 0xff; 0xf0; 0x0; 0x0;
  0x0; 0x0; 0x0; 0x0; 0x0; 0x0; 0x0; 0x0;
  0x0; 0x3f; 0xff; 0xff; 0xff; 0xc0; 0x0; 0x0;
  0x0; 0x0; 0x0; 0x0; 0x0; 0x0; 0x0; 0x0;
  0x0; 0xff; 0xff; 0xff; 0xff; 0x0; 0x0; 0x0;
  0x0; 0x0; 0x0; 0x0; 0x0; 0x0; 0x0; 0x0;
  0x3; 0xff; 0xff; 0xff; 0xfc; 0x0; 0x0; 0x0;
  0x0; 0x0; 0x0; 0x0; 0x0; 0x0; 0x0; 0x0;
  0xf; 0xff; 0xff; 0xff; 0xf0; 0x0; 0x0; 0x0;
  0x0; 0x0; 0x0; 0x0; 0x0; 0x0; 0x0; 0x0;
  0x3f; 0xff; 0xff; 0xff; 0xc0; 0x0; 0x0; 0x0;
  0x0; 0x0; 0x0; 0x0; 0x0; 0x0; 0x0; 0x0;
  0xff; 0xff; 0xff; 0xff; 0x0; 0x0; 0x0; 0x0;
  0x0; 0x0; 0x0; 0x0; 0x0; 0x0; 0x0; 0x3;
  0xff; 0xff; 0xff; 0xfc; 0x0; 0x0; 0x0; 0x0;
  0x0; 0x0; 0x0; 0x0; 0x0; 0x0; 0x0; 0xf;
  0xff; 0xff; 0xff; 0xe0; 0x0; 0x0; 0x0; 0x0;
  0x0; 0x0; 0x0; 0x0; 0x0; 0x0; 0x0; 0x3f;
  0xff; 0xff; 0xff; 0x40; 0x0; 0x0; 0x0; 0x0;
  0x0; 0x0; 0x0; 0x0; 0x0; 0x0; 0x0; 0x7f;
  0xff; 0xff; 0xfc; 0x0; 0x0; 0x0; 0x0; 0x0;
  0x0; 0x0; 0x0; 0x0; 0x0; 0x0; 0x0; 0xff;
  0xff; 0xff; 0xd0; 0x0; 0x0; 0x0; 0x0; 0x0;
  0x0; 0x0; 0x0; 0x0; 0x0; 0x0; 0x0; 0xff;
  0xff; 0xfe; 0x0; 0x0; 0x0; 0x0; 0x0; 0x0;
  0x0; 0x0; 0x0; 0x0; 0x0; 0x0; 0x0; 0xff;
  0xff; 0xd0; 0x0; 0x0; 0x0; 0x0; 0x0; 0x0;
  0x0; 0x0; 0x0; 0x0; 0x0; 0x0; 0x0; 0x6f;
  0xf8; 0x0; 0x0; 0x0; 0x0; 0x0; 0x0; 0x0;
  0x0; 0x0; 0x0; 0x0; 0x0; 0x0 ].

Definition quicksand_glyph_bitmap : list Z :=
  quicksand_bitmap_0 ++ quicksand_bitmap_1 ++ quicksand_bitmap_2 ++ quicksand_bitmap_3 ++
  quicksand_bitmap_4 ++ quicksand_bitmap_5 ++ quicksand_bitmap_6 ++ quicksand_bitmap_7 ++
  quicksand_bitmap_8 ++ quicksand_bitmap_9 ++ quicksand_bitmap_10 ++ quicksand_bitmap_11 ++
  quicksand_bitmap_12 ++ quicksand_bitmap_13.

(** The glyphs: the bitmap cut at the comments of the source, with the code point of each
    comment and the bytes up to the next. *)
Definition quicksand_table : list (Z * list Z) := cut_glyphs
  [ (0x50, 3325);
  (0x63, 2403);
  (0x6e, 2332);
  (0x6f, 2808);
  (0x70, 3625);
  (0x72, 1670) ] quicksand_glyph_bitmap.

(** Glyph 0 is reserved. *)
Definition quicksand_glyph_dsc : list glyph_dsc_t :=
  [ glyph 0 0 0 0 0 0;
  glyph 0 1917 95 140 17 0;
  glyph 3325 1661 89 108 9 (-2);
  glyph 5728 1869 88 106 14 0;
  glyph 8060 1955 104 108 9 (-2);
  glyph 10868 1965 100 145 14 (-40);
  glyph 14493 1283 63 106 14 0 ].

Definition quicksand_cmaps : list cmap_t :=
  [ mkCmap 80 35 1 [ 0x0; 0x13; 0x1e; 0x1f; 0x20; 0x22 ] [] 6 CMAP_SPARSE_TINY ].

Definition quicksand_kern_pairs : kern_pair_t :=
  mkKern [ 1; 2; 1; 4; 6; 2; 6; 4 ] [ -32; -32; -70; -70 ] 4 0.

Definition quicksand_font_dsc : font_dsc_t :=
  mkFontDsc quicksand_glyph_bitmap quicksand_glyph_dsc quicksand_cmaps (Some quicksand_kern_pairs) 16 1 2 0 0.

Definition quicksand_200 : font_t :=
  mkFont 180 40 (-20) 10 quicksand_font_dsc.
