(* ===== verification/Quicksand256.v ===== *)
(** * Quicksand256: the tables of [fonts/quicksand_256.c]

    The font of the letters of the name of the system and the space at 256 pixels, four bits a pixel.
    The bitmap in pieces of 150 lines of the source, its glyphs, then the table of
    the descriptors, the character map and the font itself. *)

From stdpp Require Import base list numbers option.
From S2P Require Import Prelude FontFormat.

Open Scope Z_scope.

Definition quicksand256_bitmap_0 : list Z :=
  [ 0x0; 0x0; 0x0; 0x4; 0x8a; 0xbc; 0xcc; 0xcc;
  0xcc; 0xcc; 0xcc; 0xcc; 0xcc; 0xcc; 0xcc; 0xcc;
  0xcc; 0xcc; 0xcc; 0xcc; 0xcc; 0xcc; 0xcc; 0xcc;
  0xcc; 0xcc; 0xcc; 0xcc; 0xcc; 0xcc; 0xcc; 0xcc;
  0xcc; 0xcc; 0xcc; 0xcb; 0xba; 0x98; 0x65; 0x20;
  0x0; 0x0; 0x0; 0x0; 0x0; 0x0; 0x0; 0x0;
  0x0; 0x0; 0x0; 0x0; 0x0; 0x0; 0x0; 0x0;
  0x0; 0x0; 0x0; 0x0; 0x0; 0x0; 0x0; 0x5d;
  0xff; 0xff; 0xff; 0xff; 0xff; 0xff; 0xff; 0xff;
  0xff; 0xff; 0xff; 0xff; 0xff; 0xff; 0xff; 0xff;
  0xff; 0xff; 0xff; 0xff; 0xff; 0xff; 0xff; 0xff;
  0xff; 0xff; 0xff; 0xff; 0xff; 0xff; 0xff; 0xff;
  0xff; 0xff; 0xff; 0xff; 0xfd; 0xa6; 0x20; 0x0;
  0x0; 0x0; 0x0; 0x0; 0x0; 0x0; 0x0; 0x0;
  0x0; 0x0; 0x0; 0x0; 0x0; 0x0; 0x0; 0x0;
  0x0; 0x0; 0x0; 0xaf; 0xff; 0xff; 0xff; 0xff;
  0xff; 0xff; 0xff; 0xff; 0xff; 0xff; 0xff; 0xff;
  0xff; 0xff; 0xff; 0xff; 0xff; 0xff; 0xff; 0xff;
  0xff; 0xff; 0xff; 0xff; 0xff; 0xff; 0xff; 0xff;
  0xff; 0xff; 0xff; 0xff; 0xff; 0xff; 0xff; 0xff;
  0xff; 0xff; 0xff; 0xe9; 0x40; 0x0; 0x0; 0x0;
  0x0; 0x0; 0x0; 0x0; 0x0; 0x0; 0x0; 0x0;
  0x0; 0x0; 0x0; 0x0; 0x0; 0x0; 0x0; 0xcf;
  0xff; 0xff; 0xff; 0xff; 0xff; 0xff; 0xff; 0xff;
  0xff; 0xff; 0xff; 0xff; 0xff; 0xff; 0xff; 0xff;
  0xff; 0xff; 0xff; 0xff; 0xff; 0xff; 0xff; 0xff;
  0xff; 0xff; 0xff; 0xff; 0xff; 0xff; 0xff; 0xff;
  0xff; 0xff; 0xff; 0xff; 0xff; 0xff; 0xff; 0xff;
  0xff; 0xe8; 0x20; 0x0; 0x0; 0x0; 0x0; 0x0;
  0x0; 0x0; 0x0; 0x0; 0x0; 0x0; 0x0; 0x0;
  0x0; 0x0; 0x0; 0x9f; 0xff; 0xff; 0xff; 0xff;
  0xff; 0xff; 0xff; 0xff; 0xff; 0xff; 0xff; 0xff;
  0xff; 0xff; 0xff; 0xff; 0xff; 0xff; 0xff; 0xff;
  0xff; 0xff; 0xff; 0xff; 0xff; 0xff; 0xff; 0xff;
  0xff; 0xff; 0xff; 0xff; 0xff; 0xff; 0xff; 0xff;
  0xff; 0xff; 0xff; 0xff; 0xff; 0xff; 0xff; 0xb4;
  0x0; 0x0; 0x0; 0x0; 0x0; 0x0; 0x0; 0x0;
  0x0; 0x0; 0x0; 0x0; 0x0; 0x0; 0x0; 0x3f;
  0xff; 0xff; 0xff; 0xff; 0xff; 0xff; 0xff; 0xff;
  0xff; 0xff; 0xff; 0xff; 0xff; 0xff; 0xff; 0xff;
  0xff; 0xff; 0xff; 0xff; 0xff; 0xff; 0xff; 0xff;
  0xff; 0xff; 0xff; 0xff; 0xff; 0xff; 0xff; 0xff;
  0xff; 0xff; 0xff; 0xff; 0xff; 0xff; 0xff; 0xff;
  0xff; 0xff; 0xff; 0xff; 0xfc; 0x30; 0x0; 0x0;
  0x0; 0x0; 0x0; 0x0; 0x0; 0x0; 0x0; 0x0;
  0x0; 0x0; 0x0; 0xb; 0xff; 0xff; 0xff; 0xff;
  0xff; 0xff; 0xff; 0xff; 0xff; 0xff; 0xff; 0xff;
  0xff; 0xff; 0xff; 0xff; 0xff; 0xff; 0xff; 0xff;
  0xff; 0xff; 0xff; 0xff; 0xff; 0xff; 0xff; 0xff;
  0xff; 0xff; 0xff; 0xff; 0xff; 0xff; 0xff; 0xff;
  0xff; 0xff; 0xff; 0xff; 0xff; 0xff; 0xff; 0xff;
  0xff; 0xff; 0xb2; 0x0; 0x0; 0x0; 0x0; 0x0;
  0x0; 0x0; 0x0; 0x0; 0x0; 0x0; 0x0; 0x1;
  0xff; 0xff; 0xff; 0xff; 0xff; 0xff; 0xff; 0xff;
  0xff; 0xff; 0xff; 0xff; 0xff; 0xff; 0xff; 0xff;
  0xff; 0xff; 0xff; 0xff; 0xff; 0xff; 0xff; 0xff;
  0xff; 0xff; 0xff; 0xff; 0xff; 0xff; 0xff; 0xff;
  0xff; 0xff; 0xff; 0xff; 0xff; 0xff; 0xff; 0xff;
  0xff; 0xff; 0xff; 0xff; 0xff; 0xff; 0xff; 0xf7;
  0x0; 0x0; 0x0; 0x0; 0x0; 0x0; 0x0; 0x0;
  0x0; 0x0; 0x0; 0x0; 0x4f; 0xff; 0xff; 0xff;
  0xff; 0xff; 0xff; 0xff; 0xff; 0xff; 0xff; 0xff;
  0xff; 0xff; 0xff; 0xff; 0xff; 0xff; 0xff; 0xff;
  0xff; 0xff; 0xff; 0xff; 0xff; 0xff; 0xff; 0xff;
  0xff; 0xff; 0xff; 0xff; 0xff; 0xff; 0xff; 0xff;
  0xff; 0xff; 0xff; 0xff; 0xff; 0xff; 0xff; 0xff;
  0xff; 0xff; 0xff; 0xff; 0xfd; 0x30; 0x0; 0x0;
  0x0; 0x0; 0x0; 0x0; 0x0; 0x0; 0x0; 0x0;
  0x6; 0xff; 0xff; 0xff; 0xff; 0xff; 0xff; 0xff;
  0xff; 0xff; 0xff; 0xff; 0xff; 0xff; 0xff; 0xff;
  0xff; 0xff; 0xff; 0xff; 0xff; 0xff; 0xff; 0xff;
  0xff; 0xff; 0xff; 0xff; 0xff; 0xff; 0xff; 0xff;
  0xff; 0xff; 0xff; 0xff; 0xff; 0xff; 0xff; 0xff;
  0xff; 0xff; 0xff; 0xff; 0xff; 0xff; 0xff; 0xff;
  0xff; 0xff; 0x70; 0x0; 0x0; 0x0; 0x0; 0x0;
  0x0; 0x0; 0x0; 0x0; 0x0; 0x7f; 0xff; 0xff;
  0xff; 0xff; 0xff; 0xff; 0xff; 0xff; 0xff; 0xff;
  0xff; 0xff; 0xff; 0xff; 0xff; 0xff; 0xff; 0xff;
  0xff; 0xff; 0xff; 0xff; 0xff; 0xff; 0xff; 0xff;
  0xff; 0xff; 0xff; 0xff; 0xff; 0xff; 0xff; 0xff;
  0xff; 0xff; 0xff; 0xff; 0xff; 0xff; 0xff; 0xff;
  0xff; 0xff; 0xff; 0xff; 0xff; 0xff; 0xff; 0xa0;
  0x0; 0x0; 0x0; 0x0; 0x0; 0x0; 0x0; 0x0;
  0x0; 0x7; 0xff; 0xff; 0xff; 0xff; 0xff; 0xff;
  0xff; 0xff; 0xff; 0xff; 0xff; 0xff; 0xff; 0xff;
  0xff; 0xff; 0xff; 0xff; 0xff; 0xff; 0xff; 0xff;
  0xff; 0xff; 0xff; 0xff; 0xff; 0xff; 0xff; 0xff;
  0xff; 0xff; 0xff; 0xff; 0xff; 0xff; 0xff; 0xff;
  0xff; 0xff; 0xff; 0xff; 0xff; 0xff; 0xff; 0xff;
  0xff; 0xff; 0xff; 0xff; 0xd2; 0x0; 0x0; 0x0;
  0x0; 0x0; 0x0; 0x0; 0x0; 0x0; 0x7f; 0xff;
  0xff; 0xff; 0xff; 0xff; 0xff; 0xff; 0xff; 0xff;
  0xff; 0xff; 0xff; 0xff; 0xff; 0xff; 0xff; 0xff;
  0xff; 0xff; 0xff; 0xff; 0xff; 0xff; 0xff; 0xff;
  0xff; 0xff; 0xff; 0xff; 0xff; 0xff; 0xff; 0xff;
  0xff; 0xff; 0xff; 0xff; 0xff; 0xff; 0xff; 0xff;
  0xff; 0xff; 0xff; 0xff; 0xff; 0xff; 0xff; 0xff;
  0xff; 0xe3; 0x0; 0x0; 0x0; 0x0; 0x0; 0x0;
  0x0; 0x0; 0x7; 0xff; 0xff; 0xff; 0xff; 0xff;
  0xff; 0xff; 0xff; 0xff; 0xff; 0xff; 0xff; 0xff;
  0xff; 0xff; 0xff; 0xff; 0xff; 0xff; 0xff; 0xff;
  0xff; 0xff; 0xff; 0xff; 0xff; 0xff; 0xff; 0xff;
  0xff; 0xff; 0xff; 0xff; 0xff; 0xff; 0xff; 0xff;
  0xff; 0xff; 0xff; 0xff; 0xff; 0xff; 0xff; 0xff;
  0xff; 0xff; 0xff; 0xff; 0xff; 0xff; 0xf3; 0x0;
  0x0; 0x0; 0x0; 0x0; 0x0; 0x0; 0x0; 0x7f;
  0xff; 0xff; 0xff; 0xff; 0xff; 0xff; 0xff; 0xff;
  0xff; 0xff; 0xff; 0xff; 0xff; 0xff; 0xff; 0xff;
  0xff; 0xff; 0xff; 0xff; 0xff; 0xff; 0xff; 0xff;
  0xff; 0xff; 0xff; 0xff; 0xff; 0xff; 0xff; 0xff;
  0xff; 0xff; 0xff; 0xff; 0xff; 0xff; 0xff; 0xff;
  0xff; 0xff; 0xff; 0xff; 0xff; 0xff; 0xff; 0xff;
  0xff; 0xff; 0xff; 0xf3; 0x0; 0x0; 0x0; 0x0;
  0x0; 0x0; 0x0; 0x7; 0xff; 0xff; 0xff; 0xff;
  0xff; 0xff; 0xff; 0xff; 0xff; 0xff; 0xff; 0xff;
  0xff; 0xff; 0xff; 0xff; 0xff; 0xff; 0xff; 0xff;
  0xff; 0xff; 0xff; 0xff; 0xff; 0xff; 0xff; 0xff;
  0xff; 0xff; 0xff; 0xff; 0xff; 0xff; 0xff; 0xff;
  0xff; 0xff; 0xff; 0xff; 0xff; 0xff; 0xff; 0xff;
  0xff; 0xff; 0xff; 0xff; 0xff; 0xff; 0xff; 0xff;
  0xf3; 0x0; 0x0; 0x0; 0x0; 0x0; 0x0; 0x0;
  0x7f; 0xff; 0xff; 0xff; 0xff; 0xff; 0xff; 0xff;
  0xff; 0xff; 0xff; 0xff; 0xff; 0xff; 0xff; 0xff;
  0xff; 0xff; 0xff; 0xff; 0xff; 0xff; 0xff; 0xff;
  0xff; 0xff; 0xff; 0xff; 0xff; 0xff; 0xff; 0xff;
  0xff; 0xff; 0xff; 0xff; 0xff; 0xff; 0xff; 0xff;
  0xff; 0xff; 0xff; 0xff; 0xff; 0xff; 0xff; 0xff;
  0xff; 0xff; 0xff; 0xff; 0xff; 0xe2; 0x0; 0x0;
  0x0; 0x0; 0x0; 0x0; 0x7; 0xff; 0xff; 0xff;
  0xff; 0xff; 0xff; 0xff; 0xff; 0xff; 0xff; 0xff;
  0xff; 0xff; 0xff; 0xff; 0xff; 0xff; 0xff; 0xff;
  0xff; 0xff; 0xff; 0xff; 0xff; 0xff; 0xff; 0xff;
  0xff; 0xff; 0xff; 0xff; 0xff; 0xff; 0xff; 0xff;
  0xff; 0xff; 0xff; 0xff; 0xff; 0xff; 0xff; 0xff;
  0xff; 0xff; 0xff; 0xff; 0xff; 0xff; 0xff; 0xff;
  0xff; 0xff; 0xd1; 0x0; 0x0; 0x0; 0x0; 0x0;
  0x0; 0x7f; 0xff; 0xff; 0xff; 0xff; 0xff; 0xff;
  0xff; 0xff; 0xff; 0xff; 0xff; 0xff; 0xff; 0xff;
  0xff; 0xff; 0xff; 0xff; 0xff; 0xff; 0xff; 0xff;
  0xff; 0xff; 0xff; 0xff; 0xff; 0xff; 0xff; 0xff;
  0xff; 0xff; 0xff; 0xff; 0xff; 0xff; 0xff; 0xff;
  0xff; 0xff; 0xff; 0xff; 0xff; 0xff; 0xff; 0xff;
  0xff; 0xff; 0xff; 0xff; 0xff; 0xff; 0xff; 0xb0;
  0x0; 0x0; 0x0; 0x0; 0x0; 0x7; 0xff; 0xff;
  0xff; 0xff; 0xff; 0xff; 0xff; 0xff; 0xff; 0xff;
  0xff; 0xff; 0xff; 0xff; 0xff; 0xff; 0xff; 0xff;
  0xff; 0xff; 0xff; 0xff; 0xff; 0xff; 0xff; 0xff ].

Definition quicksand256_bitmap_1 : list Z :=
  [ 0xff; 0xff; 0xff; 0xff; 0xff; 0xff; 0xff; 0xff;
  0xff; 0xff; 0xff; 0xff; 0xff; 0xff; 0xff; 0xff;
  0xff; 0xff; 0xff; 0xff; 0xff; 0xff; 0xff; 0xff;
  0xff; 0xff; 0xff; 0xff; 0x80; 0x0; 0x0; 0x0;
  0x0; 0x0; 0x7f; 0xff; 0xff; 0xff; 0xff; 0xff;
  0xff; 0xff; 0xff; 0xff; 0x80; 0x0; 0x0; 0x0;
  0x0; 0x0; 0x0; 0x0; 0x0; 0x0; 0x0; 0x0;
  0x0; 0x0; 0x0; 0x0; 0x0; 0x0; 0x0; 0x0;
  0x0; 0x0; 0x0; 0x0; 0x0; 0x0; 0x2; 0x46;
  0x9d; 0xff; 0xff; 0xff; 0xff; 0xff; 0xff; 0xff;
  0xff; 0xff; 0xff; 0xff; 0xff; 0xff; 0xff; 0xff;
  0xff; 0x40; 0x0; 0x0; 0x0; 0x0; 0x7; 0xff;
  0xff; 0xff; 0xff; 0xff; 0xff; 0xff; 0xff; 0xff;
  0xf8; 0x0; 0x0; 0x0; 0x0; 0x0; 0x0; 0x0;
  0x0; 0x0; 0x0; 0x0; 0x0; 0x0; 0x0; 0x0;
  0x0; 0x0; 0x0; 0x0; 0x0; 0x0; 0x0; 0x0;
  0x0; 0x0; 0x0; 0x0; 0x0; 0x1; 0x6c; 0xff;
  0xff; 0xff; 0xff; 0xff; 0xff; 0xff; 0xff; 0xff;
  0xff; 0xff; 0xff; 0xff; 0xff; 0xfe; 0x0; 0x0;
  0x0; 0x0; 0x0; 0x7f; 0xff; 0xff; 0xff; 0xff;
  0xff; 0xff; 0xff; 0xff; 0xff; 0x80; 0x0; 0x0;
  0x0; 0x0; 0x0; 0x0; 0x0; 0x0; 0x0; 0x0;
  0x0; 0x0; 0x0; 0x0; 0x0; 0x0; 0x0; 0x0;
  0x0; 0x0; 0x0; 0x0; 0x0; 0x0; 0x0; 0x0;
  0x0; 0x0; 0x0; 0x3; 0xbf; 0xff; 0xff; 0xff;
  0xff; 0xff; 0xff; 0xff; 0xff; 0xff; 0xff; 0xff;
  0xff; 0xff; 0xf9; 0x0; 0x0; 0x0; 0x0; 0x7;
  0xff; 0xff; 0xff; 0xff; 0xff; 0xff; 0xff; 0xff;
  0xff; 0xf8; 0x0; 0x0; 0x0; 0x0; 0x0; 0x0;
  0x0; 0x0; 0x0; 0x0; 0x0; 0x0; 0x0; 0x0;
  0x0; 0x0; 0x0; 0x0; 0x0; 0x0; 0x0; 0x0;
  0x0; 0x0; 0x0; 0x0; 0x0; 0x0; 0x0; 0x0;
  0x0; 0x3d; 0xff; 0xff; 0xff; 0xff; 0xff; 0xff;
  0xff; 0xff; 0xff; 0xff; 0xff; 0xff; 0xff; 0xf3;
  0x0; 0x0; 0x0; 0x0; 0x7f; 0xff; 0xff; 0xff;
  0xff; 0xff; 0xff; 0xff; 0xff; 0xff; 0x80; 0x0;
  0x0; 0x0; 0x0; 0x0; 0x0; 0x0; 0x0; 0x0;
  0x0; 0x0; 0x0; 0x0; 0x0; 0x0; 0x0; 0x0;
  0x0; 0x0; 0x0; 0x0; 0x0; 0x0; 0x0; 0x0;
  0x0; 0x0; 0x0; 0x0; 0x0; 0x0; 0x7; 0xff;
  0xff; 0xff; 0xff; 0xff; 0xff; 0xff; 0xff; 0xff;
  0xff; 0xff; 0xff; 0xff; 0xd0; 0x0; 0x0; 0x0;
  0x7; 0xff; 0xff; 0xff; 0xff; 0xff; 0xff; 0xff;
  0xff; 0xff; 0xf8; 0x0; 0x0; 0x0; 0x0; 0x0;
  0x0; 0x0; 0x0; 0x0; 0x0; 0x0; 0x0; 0x0;
  0x0; 0x0; 0x0; 0x0; 0x0; 0x0; 0x0; 0x0;
  0x0; 0x0; 0x0; 0x0; 0x0; 0x0; 0x0; 0x0;
  0x0; 0x0; 0x0; 0x4; 0xef; 0xff; 0xff; 0xff;
  0xff; 0xff; 0xff; 0xff; 0xff; 0xff; 0xff; 0xff;
  0xff; 0x60; 0x0; 0x0; 0x0; 0x7f; 0xff; 0xff;
  0xff; 0xff; 0xff; 0xff; 0xff; 0xff; 0xff; 0x80;
  0x0; 0x0; 0x0; 0x0; 0x0; 0x0; 0x0; 0x0;
  0x0; 0x0; 0x0; 0x0; 0x0; 0x0; 0x0; 0x0;
  0x0; 0x0; 0x0; 0x0; 0x0; 0x0; 0x0; 0x0;
  0x0; 0x0; 0x0; 0x0; 0x0; 0x0; 0x0; 0x0;
  0x2; 0xdf; 0xff; 0xff; 0xff; 0xff; 0xff; 0xff;
  0xff; 0xff; 0xff; 0xff; 0xff; 0xfe; 0x0; 0x0;
  0x0; 0x7; 0xff; 0xff; 0xff; 0xff; 0xff; 0xff;
  0xff; 0xff; 0xff; 0xf8; 0x0; 0x0; 0x0; 0x0;
  0x0; 0x0; 0x0; 0x0; 0x0; 0x0; 0x0; 0x0;
  0x0; 0x0; 0x0; 0x0; 0x0; 0x0; 0x0; 0x0;
  0x0; 0x0; 0x0; 0x0; 0x0; 0x0; 0x0; 0x0;
  0x0; 0x0; 0x0; 0x0; 0x0; 0x1; 0xcf; 0xff;
  0xff; 0xff; 0xff; 0xff; 0xff; 0xff; 0xff; 0xff;
  0xff; 0xff; 0xf7; 0x0; 0x0; 0x0; 0x7f; 0xff;
  0xff; 0xff; 0xff; 0xff; 0xff; 0xff; 0xff; 0xff;
  0x80; 0x0; 0x0; 0x0; 0x0; 0x0; 0x0; 0x0;
  0x0; 0x0; 0x0; 0x0; 0x0; 0x0; 0x0; 0x0;
  0x0; 0x0; 0x0; 0x0; 0x0; 0x0; 0x0; 0x0;
  0x0; 0x0; 0x0; 0x0; 0x0; 0x0; 0x0; 0x0;
  0x0; 0x0; 0x0; 0xcf; 0xff; 0xff; 0xff; 0xff;
  0xff; 0xff; 0xff; 0xff; 0xff; 0xff; 0xff; 0xe0;
  0x0; 0x0; 0x7; 0xff; 0xff; 0xff; 0xff; 0xff;
  0xff; 0xff; 0xff; 0xff; 0xf8; 0x0; 0x0; 0x0;
  0x0; 0x0; 0x0; 0x0; 0x0; 0x0; 0x0; 0x0;
  0x0; 0x0; 0x0; 0x0; 0x0; 0x0; 0x0; 0x0;
  0x0; 0x0; 0x0; 0x0; 0x0; 0x0; 0x0; 0x0;
  0x0; 0x0; 0x0; 0x0; 0x0; 0x0; 0x0; 0x1;
  0xdf; 0xff; 0xff; 0xff; 0xff; 0xff; 0xff; 0xff;
  0xff; 0xff; 0xff; 0xff; 0x60; 0x0; 0x0; 0x7f;
  0xff; 0xff; 0xff; 0xff; 0xff; 0xff; 0xff; 0xff;
  0xff; 0x80; 0x0; 0x0; 0x0; 0x0; 0x0; 0x0;
  0x0; 0x0; 0x0; 0x0; 0x0; 0x0; 0x0; 0x0;
  0x0; 0x0; 0x0; 0x0; 0x0; 0x0; 0x0; 0x0;
  0x0; 0x0; 0x0; 0x0; 0x0; 0x0; 0x0; 0x0;
  0x0; 0x0; 0x0; 0x0; 0x2; 0xff; 0xff; 0xff;
  0xff; 0xff; 0xff; 0xff; 0xff; 0xff; 0xff; 0xff;
  0xfd; 0x0; 0x0; 0x7; 0xff; 0xff; 0xff; 0xff;
  0xff; 0xff; 0xff; 0xff; 0xff; 0xf8; 0x0; 0x0;
  0x0; 0x0; 0x0; 0x0; 0x0; 0x0; 0x0; 0x0;
  0x0; 0x0; 0x0; 0x0; 0x0; 0x0; 0x0; 0x0;
  0x0; 0x0; 0x0; 0x0; 0x0; 0x0; 0x0; 0x0;
  0x0; 0x0; 0x0; 0x0; 0x0; 0x0; 0x0; 0x0;
  0x0; 0x5; 0xff; 0xff; 0xff; 0xff; 0xff; 0xff;
  0xff; 0xff; 0xff; 0xff; 0xff; 0xf4; 0x0; 0x0;
  0x7f; 0xff; 0xff; 0xff; 0xff; 0xff; 0xff; 0xff;
  0xff; 0xff; 0x80; 0x0; 0x0; 0x0; 0x0; 0x0;
  0x0; 0x0; 0x0; 0x0; 0x0; 0x0; 0x0; 0x0;
  0x0; 0x0; 0x0; 0x0; 0x0; 0x0; 0x0; 0x0;
  0x0; 0x0; 0x0; 0x0; 0x0; 0x0; 0x0; 0x0;
  0x0; 0x0; 0x0; 0x0; 0x0; 0x0; 0xa; 0xff;
  0xff; 0xff; 0xff; 0xff; 0xff; 0xff; 0xff; 0xff;
  0xff; 0xff; 0xa0; 0x0; 0x7; 0xff; 0xff; 0xff;
  0xff; 0xff; 0xff; 0xff; 0xff; 0xff; 0xf8; 0x0;
  0x0; 0x0; 0x0; 0x0; 0x0; 0x0; 0x0; 0x0;
  0x0; 0x0; 0x0; 0x0; 0x0; 0x0; 0x0; 0x0;
  0x0; 0x0; 0x0; 0x0; 0x0; 0x0; 0x0; 0x0;
  0x0; 0x0; 0x0; 0x0; 0x0; 0x0; 0x0; 0x0;
  0x0; 0x0; 0x0; 0x1e; 0xff; 0xff; 0xff; 0xff;
  0xff; 0xff; 0xff; 0xff; 0xff; 0xff; 0xff; 0x10;
  0x0; 0x7f; 0xff; 0xff; 0xff; 0xff; 0xff; 0xff;
  0xff; 0xff; 0xff; 0x80; 0x0; 0x0; 0x0; 0x0;
  0x0; 0x0; 0x0; 0x0; 0x0; 0x0; 0x0; 0x0;
  0x0; 0x0; 0x0; 0x0; 0x0; 0x0; 0x0; 0x0;
  0x0; 0x0; 0x0; 0x0; 0x0; 0x0; 0x0; 0x0;
  0x0; 0x0; 0x0; 0x0; 0x0; 0x0; 0x0; 0x0;
  0x5f; 0xff; 0xff; 0xff; 0xff; 0xff; 0xff; 0xff;
  0xff; 0xff; 0xff; 0xf6; 0x0; 0x7; 0xff; 0xff;
  0xff; 0xff; 0xff; 0xff; 0xff; 0xff; 0xff; 0xf8;
  0x0; 0x0; 0x0; 0x0; 0x0; 0x0; 0x0; 0x0;
  0x0; 0x0; 0x0; 0x0; 0x0; 0x0; 0x0; 0x0;
  0x0; 0x0; 0x0; 0x0; 0x0; 0x0; 0x0; 0x0;
  0x0; 0x0; 0x0; 0x0; 0x0; 0x0; 0x0; 0x0;
  0x0; 0x0; 0x0; 0x0; 0x0; 0xcf; 0xff; 0xff;
  0xff; 0xff; 0xff; 0xff; 0xff; 0xff; 0xff; 0xff;
  0xb0; 0x0; 0x7f; 0xff; 0xff; 0xff; 0xff; 0xff;
  0xff; 0xff; 0xff; 0xff; 0x80; 0x0; 0x0; 0x0;
  0x0; 0x0; 0x0; 0x0; 0x0; 0x0; 0x0; 0x0;
  0x0; 0x0; 0x0; 0x0; 0x0; 0x0; 0x0; 0x0;
  0x0; 0x0; 0x0; 0x0; 0x0; 0x0; 0x0; 0x0;
  0x0; 0x0; 0x0; 0x0; 0x0; 0x0; 0x0; 0x0;
  0x0; 0x3; 0xff; 0xff; 0xff; 0xff; 0xff; 0xff;
  0xff; 0xff; 0xff; 0xff; 0xff; 0x0; 0x7; 0xff;
  0xff; 0xff; 0xff; 0xff; 0xff; 0xff; 0xff; 0xff;
  0xf8; 0x0; 0x0; 0x0; 0x0; 0x0; 0x0; 0x0;
  0x0; 0x0; 0x0; 0x0; 0x0; 0x0; 0x0; 0x0;
  0x0; 0x0; 0x0; 0x0; 0x0; 0x0; 0x0; 0x0;
  0x0; 0x0; 0x0; 0x0; 0x0; 0x0; 0x0; 0x0;
  0x0; 0x0; 0x0; 0x0; 0x0; 0x0; 0xc; 0xff;
  0xff; 0xff; 0xff; 0xff; 0xff; 0xff; 0xff; 0xff;
  0xff; 0xf4; 0x0; 0x7f; 0xff; 0xff; 0xff; 0xff;
  0xff; 0xff; 0xff; 0xff; 0xff; 0x80; 0x0; 0x0;
  0x0; 0x0; 0x0; 0x0; 0x0; 0x0; 0x0; 0x0;
  0x0; 0x0; 0x0; 0x0; 0x0; 0x0; 0x0; 0x0;
  0x0; 0x0; 0x0; 0x0; 0x0; 0x0; 0x0; 0x0;
  0x0; 0x0; 0x0; 0x0; 0x0; 0x0; 0x0; 0x0;
  0x0; 0x0; 0x0; 0x4f; 0xff; 0xff; 0xff; 0xff;
  0xff; 0xff; 0xff; 0xff; 0xff; 0xff; 0x80; 0x7;
  0xff; 0xff; 0xff; 0xff; 0xff; 0xff; 0xff; 0xff;
  0xff; 0xf8; 0x0; 0x0; 0x0; 0x0; 0x0; 0x0 ].

Definition quicksand256_bitmap_2 : list Z :=
  [ 0x0; 0x0; 0x0; 0x0; 0x0; 0x0; 0x0; 0x0;
  0x0; 0x0; 0x0; 0x0; 0x0; 0x0; 0x0; 0x0;
  0x0; 0x0; 0x0; 0x0; 0x0; 0x0; 0x0; 0x0;
  0x0; 0x0; 0x0; 0x0; 0x0; 0x0; 0x0; 0x0;
  0xef; 0xff; 0xff; 0xff; 0xff; 0xff; 0xff; 0xff;
  0xff; 0xff; 0xfc; 0x0; 0x7f; 0xff; 0xff; 0xff;
  0xff; 0xff; 0xff; 0xff; 0xff; 0xff; 0x80; 0x0;
  0x0; 0x0; 0x0; 0x0; 0x0; 0x0; 0x0; 0x0;
  0x0; 0x0; 0x0; 0x0; 0x0; 0x0; 0x0; 0x0;
  0x0; 0x0; 0x0; 0x0; 0x0; 0x0; 0x0; 0x0;
  0x0; 0x0; 0x0; 0x0; 0x0; 0x0; 0x0; 0x0;
  0x0; 0x0; 0x0; 0x0; 0x8; 0xff; 0xff; 0xff;
  0xff; 0xff; 0xff; 0xff; 0xff; 0xff; 0xff; 0xf0;
  0x7; 0xff; 0xff; 0xff; 0xff; 0xff; 0xff; 0xff;
  0xff; 0xff; 0xf8; 0x0; 0x0; 0x0; 0x0; 0x0;
  0x0; 0x0; 0x0; 0x0; 0x0; 0x0; 0x0; 0x0;
  0x0; 0x0; 0x0; 0x0; 0x0; 0x0; 0x0; 0x0;
  0x0; 0x0; 0x0; 0x0; 0x0; 0x0; 0x0; 0x0;
  0x0; 0x0; 0x0; 0x0; 0x0; 0x0; 0x0; 0x0;
  0x0; 0x3f; 0xff; 0xff; 0xff; 0xff; 0xff; 0xff;
  0xff; 0xff; 0xff; 0xff; 0x30; 0x7f; 0xff; 0xff;
  0xff; 0xff; 0xff; 0xff; 0xff; 0xff; 0xff; 0x80;
  0x0; 0x0; 0x0; 0x0; 0x0; 0x0; 0x0; 0x0;
  0x0; 0x0; 0x0; 0x0; 0x0; 0x0; 0x0; 0x0;
  0x0; 0x0; 0x0; 0x0; 0x0; 0x0; 0x0; 0x0;
  0x0; 0x0; 0x0; 0x0; 0x0; 0x0; 0x0; 0x0;
  0x0; 0x0; 0x0; 0x0; 0x0; 0x0; 0xef; 0xff;
  0xff; 0xff; 0xff; 0xff; 0xff; 0xff; 0xff; 0xff;
  0xf6; 0x7; 0xff; 0xff; 0xff; 0xff; 0xff; 0xff;
  0xff; 0xff; 0xff; 0xf8; 0x0; 0x0; 0x0; 0x0;
  0x0; 0x0; 0x0; 0x0; 0x0; 0x0; 0x0; 0x0;
  0x0; 0x0; 0x0; 0x0; 0x0; 0x0; 0x0; 0x0;
  0x0; 0x0; 0x0; 0x0; 0x0; 0x0; 0x0; 0x0;
  0x0; 0x0; 0x0; 0x0; 0x0; 0x0; 0x0; 0x0;
  0x0; 0x0; 0xa; 0xff; 0xff; 0xff; 0xff; 0xff;
  0xff; 0xff; 0xff; 0xff; 0xff; 0x90; 0x7f; 0xff;
  0xff; 0xff; 0xff; 0xff; 0xff; 0xff; 0xff; 0xff;
  0x80; 0x0; 0x0; 0x0; 0x0; 0x0; 0x0; 0x0;
  0x0; 0x0; 0x0; 0x0; 0x0; 0x0; 0x0; 0x0;
  0x0; 0x0; 0x0; 0x0; 0x0; 0x0; 0x0; 0x0;
  0x0; 0x0; 0x0; 0x0; 0x0; 0x0; 0x0; 0x0;
  0x0; 0x0; 0x0; 0x0; 0x0; 0x0; 0x0; 0x6f;
  0xff; 0xff; 0xff; 0xff; 0xff; 0xff; 0xff; 0xff;
  0xff; 0xfb; 0x7; 0xff; 0xff; 0xff; 0xff; 0xff;
  0xff; 0xff; 0xff; 0xff; 0xf8; 0x0; 0x0; 0x0;
  0x0; 0x0; 0x0; 0x0; 0x0; 0x0; 0x0; 0x0;
  0x0; 0x0; 0x0; 0x0; 0x0; 0x0; 0x0; 0x0;
  0x0; 0x0; 0x0; 0x0; 0x0; 0x0; 0x0; 0x0;
  0x0; 0x0; 0x0; 0x0; 0x0; 0x0; 0x0; 0x0;
  0x0; 0x0; 0x0; 0x2; 0xff; 0xff; 0xff; 0xff;
  0xff; 0xff; 0xff; 0xff; 0xff; 0xff; 0xd0; 0x7f;
  0xff; 0xff; 0xff; 0xff; 0xff; 0xff; 0xff; 0xff;
  0xff; 0x80; 0x0; 0x0; 0x0; 0x0; 0x0; 0x0;
  0x0; 0x0; 0x0; 0x0; 0x0; 0x0; 0x0; 0x0;
  0x0; 0x0; 0x0; 0x0; 0x0; 0x0; 0x0; 0x0;
  0x0; 0x0; 0x0; 0x0; 0x0; 0x0; 0x0; 0x0;
  0x0; 0x0; 0x0; 0x0; 0x0; 0x0; 0x0; 0x0;
  0xf; 0xff; 0xff; 0xff; 0xff; 0xff; 0xff; 0xff;
  0xff; 0xff; 0xff; 0x7; 0xff; 0xff; 0xff; 0xff;
  0xff; 0xff; 0xff; 0xff; 0xff; 0xf8; 0x0; 0x0;
  0x0; 0x0; 0x0; 0x0; 0x0; 0x0; 0x0; 0x0;
  0x0; 0x0; 0x0; 0x0; 0x0; 0x0; 0x0; 0x0;
  0x0; 0x0; 0x0; 0x0; 0x0; 0x0; 0x0; 0x0;
  0x0; 0x0; 0x0; 0x0; 0x0; 0x0; 0x0; 0x0;
  0x0; 0x0; 0x0; 0x0; 0x0; 0xdf; 0xff; 0xff;
  0xff; 0xff; 0xff; 0xff; 0xff; 0xff; 0xff; 0xf0;
  0x7f; 0xff; 0xff; 0xff; 0xff; 0xff; 0xff; 0xff;
  0xff; 0xff; 0x80; 0x0; 0x0; 0x0; 0x0; 0x0;
  0x0; 0x0; 0x0; 0x0; 0x0; 0x0; 0x0; 0x0;
  0x0; 0x0; 0x0; 0x0; 0x0; 0x0; 0x0; 0x0;
  0x0; 0x0; 0x0; 0x0; 0x0; 0x0; 0x0; 0x0;
  0x0; 0x0; 0x0; 0x0; 0x0; 0x0; 0x0; 0x0;
  0x0; 0xb; 0xff; 0xff; 0xff; 0xff; 0xff; 0xff;
  0xff; 0xff; 0xff; 0xff; 0x27; 0xff; 0xff; 0xff;
  0xff; 0xff; 0xff; 0xff; 0xff; 0xff; 0xf8; 0x0;
  0x0; 0x0; 0x0; 0x0; 0x0; 0x0; 0x0; 0x0;
  0x0; 0x0; 0x0; 0x0; 0x0; 0x0; 0x0; 0x0;
  0x0; 0x0; 0x0; 0x0; 0x0; 0x0; 0x0; 0x0;
  0x0; 0x0; 0x0; 0x0; 0x0; 0x0; 0x0; 0x0;
  0x0; 0x0; 0x0; 0x0; 0x0; 0x0; 0x9f; 0xff;
  0xff; 0xff; 0xff; 0xff; 0xff; 0xff; 0xff; 0xff;
  0xf3; 0x7f; 0xff; 0xff; 0xff; 0xff; 0xff; 0xff;
  0xff; 0xff; 0xff; 0x80; 0x0; 0x0; 0x0; 0x0;
  0x0; 0x0; 0x0; 0x0; 0x0; 0x0; 0x0; 0x0;
  0x0; 0x0; 0x0; 0x0; 0x0; 0x0; 0x0; 0x0;
  0x0; 0x0; 0x0; 0x0; 0x0; 0x0; 0x0; 0x0;
  0x0; 0x0; 0x0; 0x0; 0x0; 0x0; 0x0; 0x0;
  0x0; 0x0; 0x8; 0xff; 0xff; 0xff; 0xff; 0xff;
  0xff; 0xff; 0xff; 0xff; 0xff; 0x47; 0xff; 0xff;
  0xff; 0xff; 0xff; 0xff; 0xff; 0xff; 0xff; 0xf8;
  0x0; 0x0; 0x0; 0x0; 0x0; 0x0; 0x0; 0x0;
  0x0; 0x0; 0x0; 0x0; 0x0; 0x0; 0x0; 0x0;
  0x0; 0x0; 0x0; 0x0; 0x0; 0x0; 0x0; 0x0;
  0x0; 0x0; 0x0; 0x0; 0x0; 0x0; 0x0; 0x0;
  0x0; 0x0; 0x0; 0x0; 0x0; 0x0; 0x0; 0x7f;
  0xff; 0xff; 0xff; 0xff; 0xff; 0xff; 0xff; 0xff;
  0xff; 0xf4; 0x7f; 0xff; 0xff; 0xff; 0xff; 0xff;
  0xff; 0xff; 0xff; 0xff; 0x80; 0x0; 0x0; 0x0;
  0x0; 0x0; 0x0; 0x0; 0x0; 0x0; 0x0; 0x0;
  0x0; 0x0; 0x0; 0x0; 0x0; 0x0; 0x0; 0x0;
  0x0; 0x0; 0x0; 0x0; 0x0; 0x0; 0x0; 0x0;
  0x0; 0x0; 0x0; 0x0; 0x0; 0x0; 0x0; 0x0;
  0x0; 0x0; 0x0; 0x7; 0xff; 0xff; 0xff; 0xff;
  0xff; 0xff; 0xff; 0xff; 0xff; 0xff; 0x57; 0xff;
  0xff; 0xff; 0xff; 0xff; 0xff; 0xff; 0xff; 0xff;
  0xf8; 0x0; 0x0; 0x0; 0x0; 0x0; 0x0; 0x0;
  0x0; 0x0; 0x0; 0x0; 0x0; 0x0; 0x0; 0x0;
  0x0; 0x0; 0x0; 0x0; 0x0; 0x0; 0x0; 0x0;
  0x0; 0x0; 0x0; 0x0; 0x0; 0x0; 0x0; 0x0;
  0x0; 0x0; 0x0; 0x0; 0x0; 0x0; 0x0; 0x0;
  0x6f; 0xff; 0xff; 0xff; 0xff; 0xff; 0xff; 0xff;
  0xff; 0xff; 0xf5; 0x7f; 0xff; 0xff; 0xff; 0xff;
  0xff; 0xff; 0xff; 0xff; 0xff; 0x80; 0x0; 0x0;
  0x0; 0x0; 0x0; 0x0; 0x0; 0x0; 0x0; 0x0;
  0x0; 0x0; 0x0; 0x0; 0x0; 0x0; 0x0; 0x0;
  0x0; 0x0; 0x0; 0x0; 0x0; 0x0; 0x0; 0x0;
  0x0; 0x0; 0x0; 0x0; 0x0; 0x0; 0x0; 0x0;
  0x0; 0x0; 0x0; 0x0; 0x6; 0xff; 0xff; 0xff;
  0xff; 0xff; 0xff; 0xff; 0xff; 0xff; 0xff; 0x57;
  0xff; 0xff; 0xff; 0xff; 0xff; 0xff; 0xff; 0xff;
  0xff; 0xf8; 0x0; 0x0; 0x0; 0x0; 0x0; 0x0;
  0x0; 0x0; 0x0; 0x0; 0x0; 0x0; 0x0; 0x0;
  0x0; 0x0; 0x0; 0x0; 0x0; 0x0; 0x0; 0x0;
  0x0; 0x0; 0x0; 0x0; 0x0; 0x0; 0x0; 0x0;
  0x0; 0x0; 0x0; 0x0; 0x0; 0x0; 0x0; 0x0;
  0x0; 0x7f; 0xff; 0xff; 0xff; 0xff; 0xff; 0xff;
  0xff; 0xff; 0xff; 0xf5; 0x7f; 0xff; 0xff; 0xff;
  0xff; 0xff; 0xff; 0xff; 0xff; 0xff; 0x80; 0x0;
  0x0; 0x0; 0x0; 0x0; 0x0; 0x0; 0x0; 0x0;
  0x0; 0x0; 0x0; 0x0; 0x0; 0x0; 0x0; 0x0;
  0x0; 0x0; 0x0; 0x0; 0x0; 0x0; 0x0; 0x0;
  0x0; 0x0; 0x0; 0x0; 0x0; 0x0; 0x0; 0x0;
  0x0; 0x0; 0x0; 0x0; 0x0; 0x8; 0xff; 0xff;
  0xff; 0xff; 0xff; 0xff; 0xff; 0xff; 0xff; 0xff;
  0x47; 0xff; 0xff; 0xff; 0xff; 0xff; 0xff; 0xff;
  0xff; 0xff; 0xf8; 0x0; 0x0; 0x0; 0x0; 0x0;
  0x0; 0x0; 0x0; 0x0; 0x0; 0x0; 0x0; 0x0;
  0x0; 0x0; 0x0; 0x0; 0x0; 0x0; 0x0; 0x0;
  0x0; 0x0; 0x0; 0x0; 0x0; 0x0; 0x0; 0x0;
  0x0; 0x0; 0x0; 0x0; 0x0; 0x0; 0x0; 0x0;
  0x0; 0x0; 0x9f; 0xff; 0xff; 0xff; 0xff; 0xff;
  0xff; 0xff; 0xff; 0xff; 0xf3; 0x7f; 0xff; 0xff;
  0xff; 0xff; 0xff; 0xff; 0xff; 0xff; 0xff; 0x80;
  0x0; 0x0; 0x0; 0x0; 0x0; 0x0; 0x0; 0x0;
  0x0; 0x0; 0x0; 0x0; 0x0; 0x0; 0x0; 0x0;
  0x0; 0x0; 0x0; 0x0; 0x0; 0x0; 0x0; 0x0;
  0x0; 0x0; 0x0; 0x0; 0x0; 0x0; 0x0; 0x0;
  0x0; 0x0; 0x0; 0x0; 0x0; 0x0; 0xa; 0xff;
  0xff; 0xff; 0xff; 0xff; 0xff; 0xff; 0xff; 0xff;
  0xff; 0x27; 0xff; 0xff; 0xff; 0xff; 0xff; 0xff ].

Definition quicksand256_bitmap_3 : list Z :=
  [ 0xff; 0xff; 0xff; 0xf8; 0x0; 0x0; 0x0; 0x0;
  0x0; 0x0; 0x0; 0x0; 0x0; 0x0; 0x0; 0x0;
  0x0; 0x0; 0x0; 0x0; 0x0; 0x0; 0x0; 0x0;
  0x0; 0x0; 0x0; 0x0; 0x0; 0x0; 0x0; 0x0;
  0x0; 0x0; 0x0; 0x0; 0x0; 0x0; 0x0; 0x0;
  0x0; 0x0; 0x0; 0xdf; 0xff; 0xff; 0xff; 0xff;
  0xff; 0xff; 0xff; 0xff; 0xff; 0xf1; 0x7f; 0xff;
  0xff; 0xff; 0xff; 0xff; 0xff; 0xff; 0xff; 0xff;
  0x80; 0x0; 0x0; 0x0; 0x0; 0x0; 0x0; 0x0;
  0x0; 0x0; 0x0; 0x0; 0x0; 0x0; 0x0; 0x0;
  0x0; 0x0; 0x0; 0x0; 0x0; 0x0; 0x0; 0x0;
  0x0; 0x0; 0x0; 0x0; 0x0; 0x0; 0x0; 0x0;
  0x0; 0x0; 0x0; 0x0; 0x0; 0x0; 0x0; 0xf;
  0xff; 0xff; 0xff; 0xff; 0xff; 0xff; 0xff; 0xff;
  0xff; 0xff; 0x7; 0xff; 0xff; 0xff; 0xff; 0xff;
  0xff; 0xff; 0xff; 0xff; 0xf8; 0x0; 0x0; 0x0;
  0x0; 0x0; 0x0; 0x0; 0x0; 0x0; 0x0; 0x0;
  0x0; 0x0; 0x0; 0x0; 0x0; 0x0; 0x0; 0x0;
  0x0; 0x0; 0x0; 0x0; 0x0; 0x0; 0x0; 0x0;
  0x0; 0x0; 0x0; 0x0; 0x0; 0x0; 0x0; 0x0;
  0x0; 0x0; 0x0; 0x2; 0xff; 0xff; 0xff; 0xff;
  0xff; 0xff; 0xff; 0xff; 0xff; 0xff; 0xe0; 0x7f;
  0xff; 0xff; 0xff; 0xff; 0xff; 0xff; 0xff; 0xff;
  0xff; 0x80; 0x0; 0x0; 0x0; 0x0; 0x0; 0x0;
  0x0; 0x0; 0x0; 0x0; 0x0; 0x0; 0x0; 0x0;
  0x0; 0x0; 0x0; 0x0; 0x0; 0x0; 0x0; 0x0;
  0x0; 0x0; 0x0; 0x0; 0x0; 0x0; 0x0; 0x0;
  0x0; 0x0; 0x0; 0x0; 0x0; 0x0; 0x0; 0x0;
  0x5f; 0xff; 0xff; 0xff; 0xff; 0xff; 0xff; 0xff;
  0xff; 0xff; 0xfc; 0x7; 0xff; 0xff; 0xff; 0xff;
  0xff; 0xff; 0xff; 0xff; 0xff; 0xf8; 0x0; 0x0;
  0x0; 0x0; 0x0; 0x0; 0x0; 0x0; 0x0; 0x0;
  0x0; 0x0; 0x0; 0x0; 0x0; 0x0; 0x0; 0x0;
  0x0; 0x0; 0x0; 0x0; 0x0; 0x0; 0x0; 0x0;
  0x0; 0x0; 0x0; 0x0; 0x0; 0x0; 0x0; 0x0;
  0x0; 0x0; 0x0; 0x0; 0x9; 0xff; 0xff; 0xff;
  0xff; 0xff; 0xff; 0xff; 0xff; 0xff; 0xff; 0x90;
  0x7f; 0xff; 0xff; 0xff; 0xff; 0xff; 0xff; 0xff;
  0xff; 0xff; 0x80; 0x0; 0x0; 0x0; 0x0; 0x0;
  0x0; 0x0; 0x0; 0x0; 0x0; 0x0; 0x0; 0x0;
  0x0; 0x0; 0x0; 0x0; 0x0; 0x0; 0x0; 0x0;
  0x0; 0x0; 0x0; 0x0; 0x0; 0x0; 0x0; 0x0;
  0x0; 0x0; 0x0; 0x0; 0x0; 0x0; 0x0; 0x0;
  0x0; 0xdf; 0xff; 0xff; 0xff; 0xff; 0xff; 0xff;
  0xff; 0xff; 0xff; 0xf7; 0x7; 0xff; 0xff; 0xff;
  0xff; 0xff; 0xff; 0xff; 0xff; 0xff; 0xf8; 0x0;
  0x0; 0x0; 0x0; 0x0; 0x0; 0x0; 0x0; 0x0;
  0x0; 0x0; 0x0; 0x0; 0x0; 0x0; 0x0; 0x0;
  0x0; 0x0; 0x0; 0x0; 0x0; 0x0; 0x0; 0x0;
  0x0; 0x0; 0x0; 0x0; 0x0; 0x0; 0x0; 0x0;
  0x0; 0x0; 0x0; 0x0; 0x0; 0x1f; 0xff; 0xff;
  0xff; 0xff; 0xff; 0xff; 0xff; 0xff; 0xff; 0xff;
  0x40; 0x7f; 0xff; 0xff; 0xff; 0xff; 0xff; 0xff;
  0xff; 0xff; 0xff; 0x80; 0x0; 0x0; 0x0; 0x0;
  0x0; 0x0; 0x0; 0x0; 0x0; 0x0; 0x0; 0x0;
  0x0; 0x0; 0x0; 0x0; 0x0; 0x0; 0x0; 0x0;
  0x0; 0x0; 0x0; 0x0; 0x0; 0x0; 0x0; 0x0;
  0x0; 0x0; 0x0; 0x0; 0x0; 0x0; 0x0; 0x0;
  0x0; 0x6; 0xff; 0xff; 0xff; 0xff; 0xff; 0xff;
  0xff; 0xff; 0xff; 0xff; 0xf1; 0x7; 0xff; 0xff;
  0xff; 0xff; 0xff; 0xff; 0xff; 0xff; 0xff; 0xf8;
  0x0; 0x0; 0x0; 0x0; 0x0; 0x0; 0x0; 0x0;
  0x0; 0x0; 0x0; 0x0; 0x0; 0x0; 0x0; 0x0;
  0x0; 0x0; 0x0; 0x0; 0x0; 0x0; 0x0; 0x0;
  0x0; 0x0; 0x0; 0x0; 0x0; 0x0; 0x0; 0x0;
  0x0; 0x0; 0x0; 0x0; 0x0; 0x0; 0xcf; 0xff;
  0xff; 0xff; 0xff; 0xff; 0xff; 0xff; 0xff; 0xff;
  0xfd; 0x0; 0x7f; 0xff; 0xff; 0xff; 0xff; 0xff;
  0xff; 0xff; 0xff; 0xff; 0x80; 0x0; 0x0; 0x0;
  0x0; 0x0; 0x0; 0x0; 0x0; 0x0; 0x0; 0x0;
  0x0; 0x0; 0x0; 0x0; 0x0; 0x0; 0x0; 0x0;
  0x0; 0x0; 0x0; 0x0; 0x0; 0x0; 0x0; 0x0;
  0x0; 0x0; 0x0; 0x0; 0x0; 0x0; 0x0; 0x0;
  0x0; 0x0; 0x2f; 0xff; 0xff; 0xff; 0xff; 0xff;
  0xff; 0xff; 0xff; 0xff; 0xff; 0xa0; 0x7; 0xff;
  0xff; 0xff; 0xff; 0xff; 0xff; 0xff; 0xff; 0xff;
  0xf8; 0x0; 0x0; 0x0; 0x0; 0x0; 0x0; 0x0;
  0x0; 0x0; 0x0; 0x0; 0x0; 0x0; 0x0; 0x0;
  0x0; 0x0; 0x0; 0x0; 0x0; 0x0; 0x0; 0x0;
  0x0; 0x0; 0x0; 0x0; 0x0; 0x0; 0x0; 0x0;
  0x0; 0x0; 0x0; 0x0; 0x0; 0x0; 0x9; 0xff;
  0xff; 0xff; 0xff; 0xff; 0xff; 0xff; 0xff; 0xff;
  0xff; 0xf6; 0x0; 0x7f; 0xff; 0xff; 0xff; 0xff;
  0xff; 0xff; 0xff; 0xff; 0xff; 0x80; 0x0; 0x0;
  0x0; 0x0; 0x0; 0x0; 0x0; 0x0; 0x0; 0x0;
  0x0; 0x0; 0x0; 0x0; 0x0; 0x0; 0x0; 0x0;
  0x0; 0x0; 0x0; 0x0; 0x0; 0x0; 0x0; 0x0;
  0x0; 0x0; 0x0; 0x0; 0x0; 0x0; 0x0; 0x0;
  0x0; 0x0; 0x1; 0xff; 0xff; 0xff; 0xff; 0xff;
  0xff; 0xff; 0xff; 0xff; 0xff; 0xff; 0x10; 0x7;
  0xff; 0xff; 0xff; 0xff; 0xff; 0xff; 0xff; 0xff;
  0xff; 0xf8; 0x0; 0x0; 0x0; 0x0; 0x0; 0x0;
  0x0; 0x0; 0x0; 0x0; 0x0; 0x0; 0x0; 0x0;
  0x0; 0x0; 0x0; 0x0; 0x0; 0x0; 0x0; 0x0;
  0x0; 0x0; 0x0; 0x0; 0x0; 0x0; 0x0; 0x0;
  0x0; 0x0; 0x0; 0x0; 0x0; 0x0; 0x0; 0x8f;
  0xff; 0xff; 0xff; 0xff; 0xff; 0xff; 0xff; 0xff;
  0xff; 0xff; 0xd0; 0x0; 0x7f; 0xff; 0xff; 0xff;
  0xff; 0xff; 0xff; 0xff; 0xff; 0xff; 0x80; 0x0;
  0x0; 0x0; 0x0; 0x0; 0x0; 0x0; 0x0; 0x0;
  0x0; 0x0; 0x0; 0x0; 0x0; 0x0; 0x0; 0x0;
  0x0; 0x0; 0x0; 0x0; 0x0; 0x0; 0x0; 0x0;
  0x0; 0x0; 0x0; 0x0; 0x0; 0x0; 0x0; 0x0;
  0x0; 0x0; 0x0; 0x1f; 0xff; 0xff; 0xff; 0xff;
  0xff; 0xff; 0xff; 0xff; 0xff; 0xff; 0xf8; 0x0;
  0x7; 0xff; 0xff; 0xff; 0xff; 0xff; 0xff; 0xff;
  0xff; 0xff; 0xf8; 0x0; 0x0; 0x0; 0x0; 0x0;
  0x0; 0x0; 0x0; 0x0; 0x0; 0x0; 0x0; 0x0;
  0x0; 0x0; 0x0; 0x0; 0x0; 0x0; 0x0; 0x0;
  0x0; 0x0; 0x0; 0x0; 0x0; 0x0; 0x0; 0x0;
  0x0; 0x0; 0x0; 0x0; 0x0; 0x0; 0x0; 0x9;
  0xff; 0xff; 0xff; 0xff; 0xff; 0xff; 0xff; 0xff;
  0xff; 0xff; 0xff; 0x20; 0x0; 0x7f; 0xff; 0xff;
  0xff; 0xff; 0xff; 0xff; 0xff; 0xff; 0xff; 0x80;
  0x0; 0x0; 0x0; 0x0; 0x0; 0x0; 0x0; 0x0;
  0x0; 0x0; 0x0; 0x0; 0x0; 0x0; 0x0; 0x0;
  0x0; 0x0; 0x0; 0x0; 0x0; 0x0; 0x0; 0x0;
  0x0; 0x0; 0x0; 0x0; 0x0; 0x0; 0x0; 0x0;
  0x0; 0x0; 0x0; 0x2; 0xff; 0xff; 0xff; 0xff;
  0xff; 0xff; 0xff; 0xff; 0xff; 0xff; 0xff; 0xd0;
  0x0; 0x7; 0xff; 0xff; 0xff; 0xff; 0xff; 0xff;
  0xff; 0xff; 0xff; 0xf8; 0x0; 0x0; 0x0; 0x0;
  0x0; 0x0; 0x0; 0x0; 0x0; 0x0; 0x0; 0x0;
  0x0; 0x0; 0x0; 0x0; 0x0; 0x0; 0x0; 0x0;
  0x0; 0x0; 0x0; 0x0; 0x0; 0x0; 0x0; 0x0;
  0x0; 0x0; 0x0; 0x0; 0x0; 0x0; 0x0; 0x0;
  0xcf; 0xff; 0xff; 0xff; 0xff; 0xff; 0xff; 0xff;
  0xff; 0xff; 0xff; 0xf6; 0x0; 0x0; 0x7f; 0xff;
  0xff; 0xff; 0xff; 0xff; 0xff; 0xff; 0xff; 0xff;
  0x80; 0x0; 0x0; 0x0; 0x0; 0x0; 0x0; 0x0;
  0x0; 0x0; 0x0; 0x0; 0x0; 0x0; 0x0; 0x0;
  0x0; 0x0; 0x0; 0x0; 0x0; 0x0; 0x0; 0x0;
  0x0; 0x0; 0x0; 0x0; 0x0; 0x0; 0x0; 0x0;
  0x0; 0x0; 0x0; 0x0; 0x7f; 0xff; 0xff; 0xff;
  0xff; 0xff; 0xff; 0xff; 0xff; 0xff; 0xff; 0xff;
  0x10; 0x0; 0x7; 0xff; 0xff; 0xff; 0xff; 0xff;
  0xff; 0xff; 0xff; 0xff; 0xf8; 0x0; 0x0; 0x0;
  0x0; 0x0; 0x0; 0x0; 0x0; 0x0; 0x0; 0x0;
  0x0; 0x0; 0x0; 0x0; 0x0; 0x0; 0x0; 0x0;
  0x0; 0x0; 0x0; 0x0; 0x0; 0x0; 0x0; 0x0;
  0x0; 0x0; 0x0; 0x0; 0x0; 0x0; 0x0; 0x0;
  0x3f; 0xff; 0xff; 0xff; 0xff; 0xff; 0xff; 0xff;
  0xff; 0xff; 0xff; 0xff; 0x90; 0x0; 0x0; 0x7f;
  0xff; 0xff; 0xff; 0xff; 0xff; 0xff; 0xff; 0xff;
  0xff; 0x80; 0x0; 0x0; 0x0; 0x0; 0x0; 0x0;
  0x0; 0x0; 0x0; 0x0; 0x0; 0x0; 0x0; 0x0;
  0x0; 0x0; 0x0; 0x0; 0x0; 0x0; 0x0; 0x0;
  0x0; 0x0; 0x0; 0x0; 0x0; 0x0; 0x0; 0x0;
  0x0; 0x0; 0x0; 0x0; 0x1e; 0xff; 0xff; 0xff;
  0xff; 0xff; 0xff; 0xff; 0xff; 0xff; 0xff; 0xff ].

Definition quicksand256_bitmap_4 : list Z :=
  [ 0xf2; 0x0; 0x0; 0x7; 0xff; 0xff; 0xff; 0xff;
  0xff; 0xff; 0xff; 0xff; 0xff; 0xf8; 0x0; 0x0;
  0x0; 0x0; 0x0; 0x0; 0x0; 0x0; 0x0; 0x0;
  0x0; 0x0; 0x0; 0x0; 0x0; 0x0; 0x0; 0x0;
  0x0; 0x0; 0x0; 0x0; 0x0; 0x0; 0x0; 0x0;
  0x0; 0x0; 0x0; 0x0; 0x0; 0x0; 0x0; 0x0;
  0x1d; 0xff; 0xff; 0xff; 0xff; 0xff; 0xff; 0xff;
  0xff; 0xff; 0xff; 0xff; 0xfb; 0x0; 0x0; 0x0;
  0x7f; 0xff; 0xff; 0xff; 0xff; 0xff; 0xff; 0xff;
  0xff; 0xff; 0x80; 0x0; 0x0; 0x0; 0x0; 0x0;
  0x0; 0x0; 0x0; 0x0; 0x0; 0x0; 0x0; 0x0;
  0x0; 0x0; 0x0; 0x0; 0x0; 0x0; 0x0; 0x0;
  0x0; 0x0; 0x0; 0x0; 0x0; 0x0; 0x0; 0x0;
  0x0; 0x0; 0x0; 0x0; 0xc; 0xff; 0xff; 0xff;
  0xff; 0xff; 0xff; 0xff; 0xff; 0xff; 0xff; 0xff;
  0xff; 0x30; 0x0; 0x0; 0x7; 0xff; 0xff; 0xff;
  0xff; 0xff; 0xff; 0xff; 0xff; 0xff; 0xf8; 0x0;
  0x0; 0x0; 0x0; 0x0; 0x0; 0x0; 0x0; 0x0;
  0x0; 0x0; 0x0; 0x0; 0x0; 0x0; 0x0; 0x0;
  0x0; 0x0; 0x0; 0x0; 0x0; 0x0; 0x0; 0x0;
  0x0; 0x0; 0x0; 0x0; 0x0; 0x0; 0x0; 0x0;
  0x1c; 0xff; 0xff; 0xff; 0xff; 0xff; 0xff; 0xff;
  0xff; 0xff; 0xff; 0xff; 0xff; 0xa0; 0x0; 0x0;
  0x0; 0x7f; 0xff; 0xff; 0xff; 0xff; 0xff; 0xff;
  0xff; 0xff; 0xff; 0x80; 0x0; 0x0; 0x0; 0x0;
  0x0; 0x0; 0x0; 0x0; 0x0; 0x0; 0x0; 0x0;
  0x0; 0x0; 0x0; 0x0; 0x0; 0x0; 0x0; 0x0;
  0x0; 0x0; 0x0; 0x0; 0x0; 0x0; 0x0; 0x0;
  0x0; 0x0; 0x0; 0x0; 0x2d; 0xff; 0xff; 0xff;
  0xff; 0xff; 0xff; 0xff; 0xff; 0xff; 0xff; 0xff;
  0xff; 0xf2; 0x0; 0x0; 0x0; 0x7; 0xff; 0xff;
  0xff; 0xff; 0xff; 0xff; 0xff; 0xff; 0xff; 0xf8;
  0x0; 0x0; 0x0; 0x0; 0x0; 0x0; 0x0; 0x0;
  0x0; 0x0; 0x0; 0x0; 0x0; 0x0; 0x0; 0x0;
  0x0; 0x0; 0x0; 0x0; 0x0; 0x0; 0x0; 0x0;
  0x0; 0x0; 0x0; 0x0; 0x0; 0x0; 0x0; 0x0;
  0x6f; 0xff; 0xff; 0xff; 0xff; 0xff; 0xff; 0xff;
  0xff; 0xff; 0xff; 0xff; 0xff; 0xf8; 0x0; 0x0;
  0x0; 0x0; 0x7f; 0xff; 0xff; 0xff; 0xff; 0xff;
  0xff; 0xff; 0xff; 0xff; 0x80; 0x0; 0x0; 0x0;
  0x0; 0x0; 0x0; 0x0; 0x0; 0x0; 0x0; 0x0;
  0x0; 0x0; 0x0; 0x0; 0x0; 0x0; 0x0; 0x0;
  0x0; 0x0; 0x0; 0x0; 0x0; 0x0; 0x0; 0x0;
  0x0; 0x0; 0x0; 0x1; 0xbf; 0xff; 0xff; 0xff;
  0xff; 0xff; 0xff; 0xff; 0xff; 0xff; 0xff; 0xff;
  0xff; 0xfe; 0x0; 0x0; 0x0; 0x0; 0x7; 0xff;
  0xff; 0xff; 0xff; 0xff; 0xff; 0xff; 0xff; 0xff;
  0xf8; 0x0; 0x0; 0x0; 0x0; 0x0; 0x0; 0x0;
  0x0; 0x0; 0x0; 0x0; 0x0; 0x0; 0x0; 0x0;
  0x0; 0x0; 0x0; 0x0; 0x0; 0x0; 0x0; 0x0;
  0x0; 0x0; 0x0; 0x0; 0x0; 0x0; 0x0; 0x18;
  0xff; 0xff; 0xff; 0xff; 0xff; 0xff; 0xff; 0xff;
  0xff; 0xff; 0xff; 0xff; 0xff; 0xff; 0x50; 0x0;
  0x0; 0x0; 0x0; 0x7f; 0xff; 0xff; 0xff; 0xff;
  0xff; 0xff; 0xff; 0xff; 0xff; 0x80; 0x0; 0x0;
  0x0; 0x0; 0x0; 0x0; 0x0; 0x0; 0x0; 0x0;
  0x0; 0x0; 0x0; 0x0; 0x0; 0x0; 0x0; 0x0;
  0x0; 0x0; 0x0; 0x0; 0x0; 0x0; 0x0; 0x0;
  0x0; 0x0; 0x3; 0x9f; 0xff; 0xff; 0xff; 0xff;
  0xff; 0xff; 0xff; 0xff; 0xff; 0xff; 0xff; 0xff;
  0xff; 0xff; 0xa0; 0x0; 0x0; 0x0; 0x0; 0x7;
  0xff; 0xff; 0xff; 0xff; 0xff; 0xff; 0xff; 0xff;
  0xff; 0xf8; 0x0; 0x0; 0x0; 0x0; 0x0; 0x0;
  0x0; 0x0; 0x0; 0x0; 0x0; 0x0; 0x0; 0x0;
  0x0; 0x0; 0x0; 0x0; 0x0; 0x0; 0x0; 0x0;
  0x0; 0x0; 0x0; 0x0; 0x0; 0x25; 0x9e; 0xff;
  0xff; 0xff; 0xff; 0xff; 0xff; 0xff; 0xff; 0xff;
  0xff; 0xff; 0xff; 0xff; 0xff; 0xff; 0xe1; 0x0;
  0x0; 0x0; 0x0; 0x0; 0x7f; 0xff; 0xff; 0xff;
  0xff; 0xff; 0xff; 0xff; 0xff; 0xff; 0xec; 0xcc;
  0xcc; 0xcc; 0xcc; 0xcc; 0xcc; 0xcc; 0xcc; 0xcc;
  0xcc; 0xcc; 0xcc; 0xcc; 0xcc; 0xcc; 0xcc; 0xcc;
  0xcc; 0xcc; 0xcc; 0xcc; 0xcc; 0xcc; 0xcc; 0xcc;
  0xce; 0xff; 0xff; 0xff; 0xff; 0xff; 0xff; 0xff;
  0xff; 0xff; 0xff; 0xff; 0xff; 0xff; 0xff; 0xff;
  0xff; 0xff; 0xf4; 0x0; 0x0; 0x0; 0x0; 0x0;
  0x7; 0xff; 0xff; 0xff; 0xff; 0xff; 0xff; 0xff;
  0xff; 0xff; 0xff; 0xff; 0xff; 0xff; 0xff; 0xff;
  0xff; 0xff; 0xff; 0xff; 0xff; 0xff; 0xff; 0xff;
  0xff; 0xff; 0xff; 0xff; 0xff; 0xff; 0xff; 0xff;
  0xff; 0xff; 0xff; 0xff; 0xff; 0xff; 0xff; 0xff;
  0xff; 0xff; 0xff; 0xff; 0xff; 0xff; 0xff; 0xff;
  0xff; 0xff; 0xff; 0xff; 0xff; 0xff; 0xf7; 0x0;
  0x0; 0x0; 0x0; 0x0; 0x0; 0x7f; 0xff; 0xff;
  0xff; 0xff; 0xff; 0xff; 0xff; 0xff; 0xff; 0xff;
  0xff; 0xff; 0xff; 0xff; 0xff; 0xff; 0xff; 0xff;
  0xff; 0xff; 0xff; 0xff; 0xff; 0xff; 0xff; 0xff;
  0xff; 0xff; 0xff; 0xff; 0xff; 0xff; 0xff; 0xff;
  0xff; 0xff; 0xff; 0xff; 0xff; 0xff; 0xff; 0xff;
  0xff; 0xff; 0xff; 0xff; 0xff; 0xff; 0xff; 0xff;
  0xff; 0xff; 0xfa; 0x0; 0x0; 0x0; 0x0; 0x0;
  0x0; 0x7; 0xff; 0xff; 0xff; 0xff; 0xff; 0xff;
  0xff; 0xff; 0xff; 0xff; 0xff; 0xff; 0xff; 0xff;
  0xff; 0xff; 0xff; 0xff; 0xff; 0xff; 0xff; 0xff;
  0xff; 0xff; 0xff; 0xff; 0xff; 0xff; 0xff; 0xff;
  0xff; 0xff; 0xff; 0xff; 0xff; 0xff; 0xff; 0xff;
  0xff; 0xff; 0xff; 0xff; 0xff; 0xff; 0xff; 0xff;
  0xff; 0xff; 0xff; 0xff; 0xff; 0xff; 0xfc; 0x0;
  0x0; 0x0; 0x0; 0x0; 0x0; 0x0; 0x7f; 0xff;
  0xff; 0xff; 0xff; 0xff; 0xff; 0xff; 0xff; 0xff;
  0xff; 0xff; 0xff; 0xff; 0xff; 0xff; 0xff; 0xff;
  0xff; 0xff; 0xff; 0xff; 0xff; 0xff; 0xff; 0xff;
  0xff; 0xff; 0xff; 0xff; 0xff; 0xff; 0xff; 0xff;
  0xff; 0xff; 0xff; 0xff; 0xff; 0xff; 0xff; 0xff;
  0xff; 0xff; 0xff; 0xff; 0xff; 0xff; 0xff; 0xff;
  0xff; 0xff; 0xfd; 0x10; 0x0; 0x0; 0x0; 0x0;
  0x0; 0x0; 0x7; 0xff; 0xff; 0xff; 0xff; 0xff;
  0xff; 0xff; 0xff; 0xff; 0xff; 0xff; 0xff; 0xff;
  0xff; 0xff; 0xff; 0xff; 0xff; 0xff; 0xff; 0xff;
  0xff; 0xff; 0xff; 0xff; 0xff; 0xff; 0xff; 0xff;
  0xff; 0xff; 0xff; 0xff; 0xff; 0xff; 0xff; 0xff;
  0xff; 0xff; 0xff; 0xff; 0xff; 0xff; 0xff; 0xff;
  0xff; 0xff; 0xff; 0xff; 0xff; 0xff; 0xfd; 0x10;
  0x0; 0x0; 0x0; 0x0; 0x0; 0x0; 0x0; 0x7f;
  0xff; 0xff; 0xff; 0xff; 0xff; 0xff; 0xff; 0xff;
  0xff; 0xff; 0xff; 0xff; 0xff; 0xff; 0xff; 0xff;
  0xff; 0xff; 0xff; 0xff; 0xff; 0xff; 0xff; 0xff;
  0xff; 0xff; 0xff; 0xff; 0xff; 0xff; 0xff; 0xff;
  0xff; 0xff; 0xff; 0xff; 0xff; 0xff; 0xff; 0xff;
  0xff; 0xff; 0xff; 0xff; 0xff; 0xff; 0xff; 0xff;
  0xff; 0xff; 0xfd; 0x10; 0x0; 0x0; 0x0; 0x0;
  0x0; 0x0; 0x0; 0x7; 0xff; 0xff; 0xff; 0xff;
  0xff; 0xff; 0xff; 0xff; 0xff; 0xff; 0xff; 0xff;
  0xff; 0xff; 0xff; 0xff; 0xff; 0xff; 0xff; 0xff;
  0xff; 0xff; 0xff; 0xff; 0xff; 0xff; 0xff; 0xff;
  0xff; 0xff; 0xff; 0xff; 0xff; 0xff; 0xff; 0xff;
  0xff; 0xff; 0xff; 0xff; 0xff; 0xff; 0xff; 0xff;
  0xff; 0xff; 0xff; 0xff; 0xff; 0xff; 0xfd; 0x10;
  0x0; 0x0; 0x0; 0x0; 0x0; 0x0; 0x0; 0x0;
  0x7f; 0xff; 0xff; 0xff; 0xff; 0xff; 0xff; 0xff;
  0xff; 0xff; 0xff; 0xff; 0xff; 0xff; 0xff; 0xff;
  0xff; 0xff; 0xff; 0xff; 0xff; 0xff; 0xff; 0xff;
  0xff; 0xff; 0xff; 0xff; 0xff; 0xff; 0xff; 0xff;
  0xff; 0xff; 0xff; 0xff; 0xff; 0xff; 0xff; 0xff;
  0xff; 0xff; 0xff; 0xff; 0xff; 0xff; 0xff; 0xff;
  0xff; 0xff; 0xfb; 0x10; 0x0; 0x0; 0x0; 0x0;
  0x0; 0x0; 0x0; 0x0; 0x7; 0xff; 0xff; 0xff;
  0xff; 0xff; 0xff; 0xff; 0xff; 0xff; 0xff; 0xff;
  0xff; 0xff; 0xff; 0xff; 0xff; 0xff; 0xff; 0xff;
  0xff; 0xff; 0xff; 0xff; 0xff; 0xff; 0xff; 0xff;
  0xff; 0xff; 0xff; 0xff; 0xff; 0xff; 0xff; 0xff;
  0xff; 0xff; 0xff; 0xff; 0xff; 0xff; 0xff; 0xff;
  0xff; 0xff; 0xff; 0xff; 0xff; 0xff; 0xf9; 0x0;
  0x0; 0x0; 0x0; 0x0; 0x0; 0x0; 0x0; 0x0;
  0x0; 0x7f; 0xff; 0xff; 0xff; 0xff; 0xff; 0xff;
  0xff; 0xff; 0xff; 0xff; 0xff; 0xff; 0xff; 0xff;
  0xff; 0xff; 0xff; 0xff; 0xff; 0xff; 0xff; 0xff;
  0xff; 0xff; 0xff; 0xff; 0xff; 0xff; 0xff; 0xff;
  0xff; 0xff; 0xff; 0xff; 0xff; 0xff; 0xff; 0xff;
  0xff; 0xff; 0xff; 0xff; 0xff; 0xff; 0xff; 0xff ].

Definition quicksand256_bitmap_5 : list Z :=
  [ 0xff; 0xff; 0xf5; 0x0; 0x0; 0x0; 0x0; 0x0;
  0x0; 0x0; 0x0; 0x0; 0x0; 0x7; 0xff; 0xff;
  0xff; 0xff; 0xff; 0xff; 0xff; 0xff; 0xff; 0xff;
  0xff; 0xff; 0xff; 0xff; 0xff; 0xff; 0xff; 0xff;
  0xff; 0xff; 0xff; 0xff; 0xff; 0xff; 0xff; 0xff;
  0xff; 0xff; 0xff; 0xff; 0xff; 0xff; 0xff; 0xff;
  0xff; 0xff; 0xff; 0xff; 0xff; 0xff; 0xff; 0xff;
  0xff; 0xff; 0xff; 0xff; 0xff; 0xff; 0xc2; 0x0;
  0x0; 0x0; 0x0; 0x0; 0x0; 0x0; 0x0; 0x0;
  0x0; 0x0; 0x7f; 0xff; 0xff; 0xff; 0xff; 0xff;
  0xff; 0xff; 0xff; 0xff; 0xff; 0xff; 0xff; 0xff;
  0xff; 0xff; 0xff; 0xff; 0xff; 0xff; 0xff; 0xff;
  0xff; 0xff; 0xff; 0xff; 0xff; 0xff; 0xff; 0xff;
  0xff; 0xff; 0xff; 0xff; 0xff; 0xff; 0xff; 0xff;
  0xff; 0xff; 0xff; 0xff; 0xff; 0xff; 0xff; 0xff;
  0xff; 0xff; 0x70; 0x0; 0x0; 0x0; 0x0; 0x0;
  0x0; 0x0; 0x0; 0x0; 0x0; 0x0; 0x7; 0xff;
  0xff; 0xff; 0xff; 0xff; 0xff; 0xff; 0xff; 0xff;
  0xff; 0xff; 0xff; 0xff; 0xff; 0xff; 0xff; 0xff;
  0xff; 0xff; 0xff; 0xff; 0xff; 0xff; 0xff; 0xff;
  0xff; 0xff; 0xff; 0xff; 0xff; 0xff; 0xff; 0xff;
  0xff; 0xff; 0xff; 0xff; 0xff; 0xff; 0xff; 0xff;
  0xff; 0xff; 0xff; 0xff; 0xff; 0xfb; 0x20; 0x0;
  0x0; 0x0; 0x0; 0x0; 0x0; 0x0; 0x0; 0x0;
  0x0; 0x0; 0x0; 0x7f; 0xff; 0xff; 0xff; 0xff;
  0xff; 0xff; 0xff; 0xff; 0xff; 0xff; 0xff; 0xff;
  0xff; 0xff; 0xff; 0xff; 0xff; 0xff; 0xff; 0xff;
  0xff; 0xff; 0xff; 0xff; 0xff; 0xff; 0xff; 0xff;
  0xff; 0xff; 0xff; 0xff; 0xff; 0xff; 0xff; 0xff;
  0xff; 0xff; 0xff; 0xff; 0xff; 0xff; 0xff; 0xff;
  0xff; 0xd4; 0x0; 0x0; 0x0; 0x0; 0x0; 0x0;
  0x0; 0x0; 0x0; 0x0; 0x0; 0x0; 0x0; 0x7;
  0xff; 0xff; 0xff; 0xff; 0xff; 0xff; 0xff; 0xff;
  0xff; 0xff; 0xff; 0xff; 0xff; 0xff; 0xff; 0xff;
  0xff; 0xff; 0xff; 0xff; 0xff; 0xff; 0xff; 0xff;
  0xff; 0xff; 0xff; 0xff; 0xff; 0xff; 0xff; 0xff;
  0xff; 0xff; 0xff; 0xff; 0xff; 0xff; 0xff; 0xff;
  0xff; 0xff; 0xff; 0xff; 0xfd; 0x50; 0x0; 0x0;
  0x0; 0x0; 0x0; 0x0; 0x0; 0x0; 0x0; 0x0;
  0x0; 0x0; 0x0; 0x0; 0x7f; 0xff; 0xff; 0xff;
  0xff; 0xff; 0xff; 0xff; 0xff; 0xff; 0xff; 0xff;
  0xff; 0xff; 0xff; 0xff; 0xff; 0xff; 0xff; 0xff;
  0xff; 0xff; 0xff; 0xff; 0xff; 0xff; 0xff; 0xff;
  0xff; 0xff; 0xff; 0xff; 0xff; 0xff; 0xff; 0xff;
  0xff; 0xff; 0xff; 0xff; 0xff; 0xff; 0xff; 0xff;
  0xa4; 0x0; 0x0; 0x0; 0x0; 0x0; 0x0; 0x0;
  0x0; 0x0; 0x0; 0x0; 0x0; 0x0; 0x0; 0x0;
  0x7; 0xff; 0xff; 0xff; 0xff; 0xff; 0xff; 0xff;
  0xff; 0xff; 0xff; 0xff; 0xff; 0xff; 0xff; 0xff;
  0xff; 0xff; 0xff; 0xff; 0xff; 0xff; 0xff; 0xff;
  0xff; 0xff; 0xff; 0xff; 0xff; 0xff; 0xff; 0xff;
  0xff; 0xff; 0xff; 0xff; 0xff; 0xff; 0xff; 0xff;
  0xff; 0xff; 0xff; 0xc6; 0x10; 0x0; 0x0; 0x0;
  0x0; 0x0; 0x0; 0x0; 0x0; 0x0; 0x0; 0x0;
  0x0; 0x0; 0x0; 0x0; 0x0; 0x7f; 0xff; 0xff;
  0xff; 0xff; 0xff; 0xff; 0xff; 0xff; 0xff; 0xff;
  0xff; 0xff; 0xff; 0xff; 0xff; 0xff; 0xff; 0xff;
  0xff; 0xff; 0xff; 0xff; 0xff; 0xff; 0xff; 0xff;
  0xff; 0xff; 0xff; 0xff; 0xff; 0xff; 0xff; 0xff;
  0xff; 0xff; 0xff; 0xff; 0xff; 0xfd; 0x95; 0x10;
  0x0; 0x0; 0x0; 0x0; 0x0; 0x0; 0x0; 0x0;
  0x0; 0x0; 0x0; 0x0; 0x0; 0x0; 0x0; 0x0;
  0x0; 0x7; 0xff; 0xff; 0xff; 0xff; 0xff; 0xff;
  0xff; 0xff; 0xff; 0xff; 0xff; 0xff; 0xff; 0xff;
  0xff; 0xff; 0xff; 0xff; 0xff; 0xff; 0xff; 0xff;
  0xff; 0xff; 0xff; 0xff; 0xff; 0xff; 0xff; 0xff;
  0xff; 0xff; 0xff; 0xff; 0xff; 0xff; 0xed; 0xca;
  0x86; 0x30; 0x0; 0x0; 0x0; 0x0; 0x0; 0x0;
  0x0; 0x0; 0x0; 0x0; 0x0; 0x0; 0x0; 0x0;
  0x0; 0x0; 0x0; 0x0; 0x0; 0x0; 0x7f; 0xff;
  0xff; 0xff; 0xff; 0xff; 0xff; 0xff; 0xff; 0xff;
  0x80; 0x0; 0x0; 0x0; 0x0; 0x0; 0x0; 0x0;
  0x0; 0x0; 0x0; 0x0; 0x0; 0x0; 0x0; 0x0;
  0x0; 0x0; 0x0; 0x0; 0x0; 0x0; 0x0; 0x0;
  0x0; 0x0; 0x0; 0x0; 0x0; 0x0; 0x0; 0x0;
  0x0; 0x0; 0x0; 0x0; 0x0; 0x0; 0x0; 0x0;
  0x0; 0x0; 0x0; 0x0; 0x0; 0x0; 0x0; 0x0;
  0x0; 0x0; 0x7; 0xff; 0xff; 0xff; 0xff; 0xff;
  0xff; 0xff; 0xff; 0xff; 0xf8; 0x0; 0x0; 0x0;
  0x0; 0x0; 0x0; 0x0; 0x0; 0x0; 0x0; 0x0;
  0x0; 0x0; 0x0; 0x0; 0x0; 0x0; 0x0; 0x0;
  0x0; 0x0; 0x0; 0x0; 0x0; 0x0; 0x0; 0x0;
  0x0; 0x0; 0x0; 0x0; 0x0; 0x0; 0x0; 0x0;
  0x0; 0x0; 0x0; 0x0; 0x0; 0x0; 0x0; 0x0;
  0x0; 0x0; 0x0; 0x0; 0x0; 0x0; 0x0; 0x7f;
  0xff; 0xff; 0xff; 0xff; 0xff; 0xff; 0xff; 0xff;
  0xff; 0x80; 0x0; 0x0; 0x0; 0x0; 0x0; 0x0;
  0x0; 0x0; 0x0; 0x0; 0x0; 0x0; 0x0; 0x0;
  0x0; 0x0; 0x0; 0x0; 0x0; 0x0; 0x0; 0x0;
  0x0; 0x0; 0x0; 0x0; 0x0; 0x0; 0x0; 0x0;
  0x0; 0x0; 0x0; 0x0; 0x0; 0x0; 0x0; 0x0;
  0x0; 0x0; 0x0; 0x0; 0x0; 0x0; 0x0; 0x0;
  0x0; 0x0; 0x0; 0x7; 0xff; 0xff; 0xff; 0xff;
  0xff; 0xff; 0xff; 0xff; 0xff; 0xf8; 0x0; 0x0;
  0x0; 0x0; 0x0; 0x0; 0x0; 0x0; 0x0; 0x0;
  0x0; 0x0; 0x0; 0x0; 0x0; 0x0; 0x0; 0x0;
  0x0; 0x0; 0x0; 0x0; 0x0; 0x0; 0x0; 0x0;
  0x0; 0x0; 0x0; 0x0; 0x0; 0x0; 0x0; 0x0;
  0x0; 0x0; 0x0; 0x0; 0x0; 0x0; 0x0; 0x0;
  0x0; 0x0; 0x0; 0x0; 0x0; 0x0; 0x0; 0x0;
  0x7f; 0xff; 0xff; 0xff; 0xff; 0xff; 0xff; 0xff;
  0xff; 0xff; 0x80; 0x0; 0x0; 0x0; 0x0; 0x0;
  0x0; 0x0; 0x0; 0x0; 0x0; 0x0; 0x0; 0x0;
  0x0; 0x0; 0x0; 0x0; 0x0; 0x0; 0x0; 0x0;
  0x0; 0x0; 0x0; 0x0; 0x0; 0x0; 0x0; 0x0;
  0x0; 0x0; 0x0; 0x0; 0x0; 0x0; 0x0; 0x0;
  0x0; 0x0; 0x0; 0x0; 0x0; 0x0; 0x0; 0x0;
  0x0; 0x0; 0x0; 0x0; 0x7; 0xff; 0xff; 0xff;
  0xff; 0xff; 0xff; 0xff; 0xff; 0xff; 0xf8; 0x0;
  0x0; 0x0; 0x0; 0x0; 0x0; 0x0; 0x0; 0x0;
  0x0; 0x0; 0x0; 0x0; 0x0; 0x0; 0x0; 0x0;
  0x0; 0x0; 0x0; 0x0; 0x0; 0x0; 0x0; 0x0;
  0x0; 0x0; 0x0; 0x0; 0x0; 0x0; 0x0; 0x0;
  0x0; 0x0; 0x0; 0x0; 0x0; 0x0; 0x0; 0x0;
  0x0; 0x0; 0x0; 0x0; 0x0; 0x0; 0x0; 0x0;
  0x0; 0x7f; 0xff; 0xff; 0xff; 0xff; 0xff; 0xff;
  0xff; 0xff; 0xff; 0x80; 0x0; 0x0; 0x0; 0x0;
  0x0; 0x0; 0x0; 0x0; 0x0; 0x0; 0x0; 0x0;
  0x0; 0x0; 0x0; 0x0; 0x0; 0x0; 0x0; 0x0;
  0x0; 0x0; 0x0; 0x0; 0x0; 0x0; 0x0; 0x0;
  0x0; 0x0; 0x0; 0x0; 0x0; 0x0; 0x0; 0x0;
  0x0; 0x0; 0x0; 0x0; 0x0; 0x0; 0x0; 0x0;
  0x0; 0x0; 0x0; 0x0; 0x0; 0x7; 0xff; 0xff;
  0xff; 0xff; 0xff; 0xff; 0xff; 0xff; 0xff; 0xf8;
  0x0; 0x0; 0x0; 0x0; 0x0; 0x0; 0x0; 0x0;
  0x0; 0x0; 0x0; 0x0; 0x0; 0x0; 0x0; 0x0;
  0x0; 0x0; 0x0; 0x0; 0x0; 0x0; 0x0; 0x0;
  0x0; 0x0; 0x0; 0x0; 0x0; 0x0; 0x0; 0x0;
  0x0; 0x0; 0x0; 0x0; 0x0; 0x0; 0x0; 0x0;
  0x0; 0x0; 0x0; 0x0; 0x0; 0x0; 0x0; 0x0;
  0x0; 0x0; 0x7f; 0xff; 0xff; 0xff; 0xff; 0xff;
  0xff; 0xff; 0xff; 0xff; 0x80; 0x0; 0x0; 0x0;
  0x0; 0x0; 0x0; 0x0; 0x0; 0x0; 0x0; 0x0;
  0x0; 0x0; 0x0; 0x0; 0x0; 0x0; 0x0; 0x0;
  0x0; 0x0; 0x0; 0x0; 0x0; 0x0; 0x0; 0x0;
  0x0; 0x0; 0x0; 0x0; 0x0; 0x0; 0x0; 0x0;
  0x0; 0x0; 0x0; 0x0; 0x0; 0x0; 0x0; 0x0;
  0x0; 0x0; 0x0; 0x0; 0x0; 0x0; 0x7; 0xff;
  0xff; 0xff; 0xff; 0xff; 0xff; 0xff; 0xff; 0xff;
  0xf8; 0x0; 0x0; 0x0; 0x0; 0x0; 0x0; 0x0;
  0x0; 0x0; 0x0; 0x0; 0x0; 0x0; 0x0; 0x0;
  0x0; 0x0; 0x0; 0x0; 0x0; 0x0; 0x0; 0x0;
  0x0; 0x0; 0x0; 0x0; 0x0; 0x0; 0x0; 0x0;
  0x0; 0x0; 0x0; 0x0; 0x0; 0x0; 0x0; 0x0;
  0x0; 0x0; 0x0; 0x0; 0x0; 0x0; 0x0; 0x0;
  0x0; 0x0; 0x0; 0x7f; 0xff; 0xff; 0xff; 0xff;
  0xff; 0xff; 0xff; 0xff; 0xff; 0x80; 0x0; 0x0;
  0x0; 0x0; 0x0; 0x0; 0x0; 0x0; 0x0; 0x0;
  0x0; 0x0; 0x0; 0x0; 0x0; 0x0; 0x0; 0x0;
  0x0; 0x0; 0x0; 0x0; 0x0; 0x0; 0x0; 0x0 ].

Definition quicksand256_bitmap_6 : list Z :=
  [ 0x0; 0x0; 0x0; 0x0; 0x0; 0x0; 0x0; 0x0;
  0x0; 0x0; 0x0; 0x0; 0x0; 0x0; 0x0; 0x0;
  0x0; 0x0; 0x0; 0x0; 0x0; 0x0; 0x0; 0x7;
  0xff; 0xff; 0xff; 0xff; 0xff; 0xff; 0xff; 0xff;
  0xff; 0xf8; 0x0; 0x0; 0x0; 0x0; 0x0; 0x0;
  0x0; 0x0; 0x0; 0x0; 0x0; 0x0; 0x0; 0x0;
  0x0; 0x0; 0x0; 0x0; 0x0; 0x0; 0x0; 0x0;
  0x0; 0x0; 0x0; 0x0; 0x0; 0x0; 0x0; 0x0;
  0x0; 0x0; 0x0; 0x0; 0x0; 0x0; 0x0; 0x0;
  0x0; 0x0; 0x0; 0x0; 0x0; 0x0; 0x0; 0x0;
  0x0; 0x0; 0x0; 0x0; 0x7f; 0xff; 0xff; 0xff;
  0xff; 0xff; 0xff; 0xff; 0xff; 0xff; 0x80; 0x0;
  0x0; 0x0; 0x0; 0x0; 0x0; 0x0; 0x0; 0x0;
  0x0; 0x0; 0x0; 0x0; 0x0; 0x0; 0x0; 0x0;
  0x0; 0x0; 0x0; 0x0; 0x0; 0x0; 0x0; 0x0;
  0x0; 0x0; 0x0; 0x0; 0x0; 0x0; 0x0; 0x0;
  0x0; 0x0; 0x0; 0x0; 0x0; 0x0; 0x0; 0x0;
  0x0; 0x0; 0x0; 0x0; 0x0; 0x0; 0x0; 0x0;
  0x7; 0xff; 0xff; 0xff; 0xff; 0xff; 0xff; 0xff;
  0xff; 0xff; 0xf8; 0x0; 0x0; 0x0; 0x0; 0x0;
  0x0; 0x0; 0x0; 0x0; 0x0; 0x0; 0x0; 0x0;
  0x0; 0x0; 0x0; 0x0; 0x0; 0x0; 0x0; 0x0;
  0x0; 0x0; 0x0; 0x0; 0x0; 0x0; 0x0; 0x0;
  0x0; 0x0; 0x0; 0x0; 0x0; 0x0; 0x0; 0x0;
  0x0; 0x0; 0x0; 0x0; 0x0; 0x0; 0x0; 0x0;
  0x0; 0x0; 0x0; 0x0; 0x0; 0x7f; 0xff; 0xff;
  0xff; 0xff; 0xff; 0xff; 0xff; 0xff; 0xff; 0x80;
  0x0; 0x0; 0x0; 0x0; 0x0; 0x0; 0x0; 0x0;
  0x0; 0x0; 0x0; 0x0; 0x0; 0x0; 0x0; 0x0;
  0x0; 0x0; 0x0; 0x0; 0x0; 0x0; 0x0; 0x0;
  0x0; 0x0; 0x0; 0x0; 0x0; 0x0; 0x0; 0x0;
  0x0; 0x0; 0x0; 0x0; 0x0; 0x0; 0x0; 0x0;
  0x0; 0x0; 0x0; 0x0; 0x0; 0x0; 0x0; 0x0;
  0x0; 0x7; 0xff; 0xff; 0xff; 0xff; 0xff; 0xff;
  0xff; 0xff; 0xff; 0xf8; 0x0; 0x0; 0x0; 0x0;
  0x0; 0x0; 0x0; 0x0; 0x0; 0x0; 0x0; 0x0;
  0x0; 0x0; 0x0; 0x0; 0x0; 0x0; 0x0; 0x0;
  0x0; 0x0; 0x0; 0x0; 0x0; 0x0; 0x0; 0x0;
  0x0; 0x0; 0x0; 0x0; 0x0; 0x0; 0x0; 0x0;
  0x0; 0x0; 0x0; 0x0; 0x0; 0x0; 0x0; 0x0;
  0x0; 0x0; 0x0; 0x0; 0x0; 0x0; 0x7f; 0xff;
  0xff; 0xff; 0xff; 0xff; 0xff; 0xff; 0xff; 0xff;
  0x80; 0x0; 0x0; 0x0; 0x0; 0x0; 0x0; 0x0;
  0x0; 0x0; 0x0; 0x0; 0x0; 0x0; 0x0; 0x0;
  0x0; 0x0; 0x0; 0x0; 0x0; 0x0; 0x0; 0x0;
  0x0; 0x0; 0x0; 0x0; 0x0; 0x0; 0x0; 0x0;
  0x0; 0x0; 0x0; 0x0; 0x0; 0x0; 0x0; 0x0;
  0x0; 0x0; 0x0; 0x0; 0x0; 0x0; 0x0; 0x0;
  0x0; 0x0; 0x7; 0xff; 0xff; 0xff; 0xff; 0xff;
  0xff; 0xff; 0xff; 0xff; 0xf8; 0x0; 0x0; 0x0;
  0x0; 0x0; 0x0; 0x0; 0x0; 0x0; 0x0; 0x0;
  0x0; 0x0; 0x0; 0x0; 0x0; 0x0; 0x0; 0x0;
  0x0; 0x0; 0x0; 0x0; 0x0; 0x0; 0x0; 0x0;
  0x0; 0x0; 0x0; 0x0; 0x0; 0x0; 0x0; 0x0;
  0x0; 0x0; 0x0; 0x0; 0x0; 0x0; 0x0; 0x0;
  0x0; 0x0; 0x0; 0x0; 0x0; 0x0; 0x0; 0x7f;
  0xff; 0xff; 0xff; 0xff; 0xff; 0xff; 0xff; 0xff;
  0xff; 0x80; 0x0; 0x0; 0x0; 0x0; 0x0; 0x0;
  0x0; 0x0; 0x0; 0x0; 0x0; 0x0; 0x0; 0x0;
  0x0; 0x0; 0x0; 0x0; 0x0; 0x0; 0x0; 0x0;
  0x0; 0x0; 0x0; 0x0; 0x0; 0x0; 0x0; 0x0;
  0x0; 0x0; 0x0; 0x0; 0x0; 0x0; 0x0; 0x0;
  0x0; 0x0; 0x0; 0x0; 0x0; 0x0; 0x0; 0x0;
  0x0; 0x0; 0x0; 0x7; 0xff; 0xff; 0xff; 0xff;
  0xff; 0xff; 0xff; 0xff; 0xff; 0xf8; 0x0; 0x0;
  0x0; 0x0; 0x0; 0x0; 0x0; 0x0; 0x0; 0x0;
  0x0; 0x0; 0x0; 0x0; 0x0; 0x0; 0x0; 0x0;
  0x0; 0x0; 0x0; 0x0; 0x0; 0x0; 0x0; 0x0;
  0x0; 0x0; 0x0; 0x0; 0x0; 0x0; 0x0; 0x0;
  0x0; 0x0; 0x0; 0x0; 0x0; 0x0; 0x0; 0x0;
  0x0; 0x0; 0x0; 0x0; 0x0; 0x0; 0x0; 0x0;
  0x7f; 0xff; 0xff; 0xff; 0xff; 0xff; 0xff; 0xff;
  0xff; 0xff; 0x80; 0x0; 0x0; 0x0; 0x0; 0x0;
  0x0; 0x0; 0x0; 0x0; 0x0; 0x0; 0x0; 0x0;
  0x0; 0x0; 0x0; 0x0; 0x0; 0x0; 0x0; 0x0;
  0x0; 0x0; 0x0; 0x0; 0x0; 0x0; 0x0; 0x0;
  0x0; 0x0; 0x0; 0x0; 0x0; 0x0; 0x0; 0x0;
  0x0; 0x0; 0x0; 0x0; 0x0; 0x0; 0x0; 0x0;
  0x0; 0x0; 0x0; 0x0; 0x7; 0xff; 0xff; 0xff;
  0xff; 0xff; 0xff; 0xff; 0xff; 0xff; 0xf8; 0x0;
  0x0; 0x0; 0x0; 0x0; 0x0; 0x0; 0x0; 0x0;
  0x0; 0x0; 0x0; 0x0; 0x0; 0x0; 0x0; 0x0;
  0x0; 0x0; 0x0; 0x0; 0x0; 0x0; 0x0; 0x0;
  0x0; 0x0; 0x0; 0x0; 0x0; 0x0; 0x0; 0x0;
  0x0; 0x0; 0x0; 0x0; 0x0; 0x0; 0x0; 0x0;
  0x0; 0x0; 0x0; 0x0; 0x0; 0x0; 0x0; 0x0;
  0x0; 0x7f; 0xff; 0xff; 0xff; 0xff; 0xff; 0xff;
  0xff; 0xff; 0xff; 0x80; 0x0; 0x0; 0x0; 0x0;
  0x0; 0x0; 0x0; 0x0; 0x0; 0x0; 0x0; 0x0;
  0x0; 0x0; 0x0; 0x0; 0x0; 0x0; 0x0; 0x0;
  0x0; 0x0; 0x0; 0x0; 0x0; 0x0; 0x0; 0x0;
  0x0; 0x0; 0x0; 0x0; 0x0; 0x0; 0x0; 0x0;
  0x0; 0x0; 0x0; 0x0; 0x0; 0x0; 0x0; 0x0;
  0x0; 0x0; 0x0; 0x0; 0x0; 0x7; 0xff; 0xff;
  0xff; 0xff; 0xff; 0xff; 0xff; 0xff; 0xff; 0xf8;
  0x0; 0x0; 0x0; 0x0; 0x0; 0x0; 0x0; 0x0;
  0x0; 0x0; 0x0; 0x0; 0x0; 0x0; 0x0; 0x0;
  0x0; 0x0; 0x0; 0x0; 0x0; 0x0; 0x0; 0x0;
  0x0; 0x0; 0x0; 0x0; 0x0; 0x0; 0x0; 0x0;
  0x0; 0x0; 0x0; 0x0; 0x0; 0x0; 0x0; 0x0;
  0x0; 0x0; 0x0; 0x0; 0x0; 0x0; 0x0; 0x0;
  0x0; 0x0; 0x7f; 0xff; 0xff; 0xff; 0xff; 0xff;
  0xff; 0xff; 0xff; 0xff; 0x80; 0x0; 0x0; 0x0;
  0x0; 0x0; 0x0; 0x0; 0x0; 0x0; 0x0; 0x0;
  0x0; 0x0; 0x0; 0x0; 0x0; 0x0; 0x0; 0x0;
  0x0; 0x0; 0x0; 0x0; 0x0; 0x0; 0x0; 0x0;
  0x0; 0x0; 0x0; 0x0; 0x0; 0x0; 0x0; 0x0;
  0x0; 0x0; 0x0; 0x0; 0x0; 0x0; 0x0; 0x0;
  0x0; 0x0; 0x0; 0x0; 0x0; 0x0; 0x7; 0xff;
  0xff; 0xff; 0xff; 0xff; 0xff; 0xff; 0xff; 0xff;
  0xf8; 0x0; 0x0; 0x0; 0x0; 0x0; 0x0; 0x0;
  0x0; 0x0; 0x0; 0x0; 0x0; 0x0; 0x0; 0x0;
  0x0; 0x0; 0x0; 0x0; 0x0; 0x0; 0x0; 0x0;
  0x0; 0x0; 0x0; 0x0; 0x0; 0x0; 0x0; 0x0;
  0x0; 0x0; 0x0; 0x0; 0x0; 0x0; 0x0; 0x0;
  0x0; 0x0; 0x0; 0x0; 0x0; 0x0; 0x0; 0x0;
  0x0; 0x0; 0x0; 0x7f; 0xff; 0xff; 0xff; 0xff;
  0xff; 0xff; 0xff; 0xff; 0xff; 0x80; 0x0; 0x0;
  0x0; 0x0; 0x0; 0x0; 0x0; 0x0; 0x0; 0x0;
  0x0; 0x0; 0x0; 0x0; 0x0; 0x0; 0x0; 0x0;
  0x0; 0x0; 0x0; 0x0; 0x0; 0x0; 0x0; 0x0;
  0x0; 0x0; 0x0; 0x0; 0x0; 0x0; 0x0; 0x0;
  0x0; 0x0; 0x0; 0x0; 0x0; 0x0; 0x0; 0x0;
  0x0; 0x0; 0x0; 0x0; 0x0; 0x0; 0x0; 0x7;
  0xff; 0xff; 0xff; 0xff; 0xff; 0xff; 0xff; 0xff;
  0xff; 0xf8; 0x0; 0x0; 0x0; 0x0; 0x0; 0x0;
  0x0; 0x0; 0x0; 0x0; 0x0; 0x0; 0x0; 0x0;
  0x0; 0x0; 0x0; 0x0; 0x0; 0x0; 0x0; 0x0;
  0x0; 0x0; 0x0; 0x0; 0x0; 0x0; 0x0; 0x0;
  0x0; 0x0; 0x0; 0x0; 0x0; 0x0; 0x0; 0x0;
  0x0; 0x0; 0x0; 0x0; 0x0; 0x0; 0x0; 0x0;
  0x0; 0x0; 0x0; 0x0; 0x7f; 0xff; 0xff; 0xff;
  0xff; 0xff; 0xff; 0xff; 0xff; 0xff; 0x80; 0x0;
  0x0; 0x0; 0x0; 0x0; 0x0; 0x0; 0x0; 0x0;
  0x0; 0x0; 0x0; 0x0; 0x0; 0x0; 0x0; 0x0;
  0x0; 0x0; 0x0; 0x0; 0x0; 0x0; 0x0; 0x0;
  0x0; 0x0; 0x0; 0x0; 0x0; 0x0; 0x0; 0x0;
  0x0; 0x0; 0x0; 0x0; 0x0; 0x0; 0x0; 0x0;
  0x0; 0x0; 0x0; 0x0; 0x0; 0x0; 0x0; 0x0;
  0x7; 0xff; 0xff; 0xff; 0xff; 0xff; 0xff; 0xff;
  0xff; 0xff; 0xf8; 0x0; 0x0; 0x0; 0x0; 0x0;
  0x0; 0x0; 0x0; 0x0; 0x0; 0x0; 0x0; 0x0;
  0x0; 0x0; 0x0; 0x0; 0x0; 0x0; 0x0; 0x0;
  0x0; 0x0; 0x0; 0x0; 0x0; 0x0; 0x0; 0x0;
  0x0; 0x0; 0x0; 0x0; 0x0; 0x0; 0x0; 0x0;
  0x0; 0x0; 0x0; 0x0; 0x0; 0x0; 0x0; 0x0;
  0x0; 0x0; 0x0; 0x0; 0x0; 0x7f; 0xff; 0xff;
  0xff; 0xff; 0xff; 0xff; 0xff; 0xff; 0xff; 0x80;
  0x0; 0x0; 0x0; 0x0; 0x0; 0x0; 0x0; 0x0;
  0x0; 0x0; 0x0; 0x0; 0x0; 0x0; 0x0; 0x0 ].

Definition quicksand256_bitmap_7 : list Z :=
  [ 0x0; 0x0; 0x0; 0x0; 0x0; 0x0; 0x0; 0x0;
  0x0; 0x0; 0x0; 0x0; 0x0; 0x0; 0x0; 0x0;
  0x0; 0x0; 0x0; 0x0; 0x0; 0x0; 0x0; 0x0;
  0x0; 0x0; 0x0; 0x0; 0x0; 0x0; 0x0; 0x0;
  0x0; 0x7; 0xff; 0xff; 0xff; 0xff; 0xff; 0xff;
  0xff; 0xff; 0xff; 0xf8; 0x0; 0x0; 0x0; 0x0;
  0x0; 0x0; 0x0; 0x0; 0x0; 0x0; 0x0; 0x0;
  0x0; 0x0; 0x0; 0x0; 0x0; 0x0; 0x0; 0x0;
  0x0; 0x0; 0x0; 0x0; 0x0; 0x0; 0x0; 0x0;
  0x0; 0x0; 0x0; 0x0; 0x0; 0x0; 0x0; 0x0;
  0x0; 0x0; 0x0; 0x0; 0x0; 0x0; 0x0; 0x0;
  0x0; 0x0; 0x0; 0x0; 0x0; 0x0; 0x7f; 0xff;
  0xff; 0xff; 0xff; 0xff; 0xff; 0xff; 0xff; 0xff;
  0x80; 0x0; 0x0; 0x0; 0x0; 0x0; 0x0; 0x0;
  0x0; 0x0; 0x0; 0x0; 0x0; 0x0; 0x0; 0x0;
  0x0; 0x0; 0x0; 0x0; 0x0; 0x0; 0x0; 0x0;
  0x0; 0x0; 0x0; 0x0; 0x0; 0x0; 0x0; 0x0;
  0x0; 0x0; 0x0; 0x0; 0x0; 0x0; 0x0; 0x0;
  0x0; 0x0; 0x0; 0x0; 0x0; 0x0; 0x0; 0x0;
  0x0; 0x0; 0x7; 0xff; 0xff; 0xff; 0xff; 0xff;
  0xff; 0xff; 0xff; 0xff; 0xf8; 0x0; 0x0; 0x0;
  0x0; 0x0; 0x0; 0x0; 0x0; 0x0; 0x0; 0x0;
  0x0; 0x0; 0x0; 0x0; 0x0; 0x0; 0x0; 0x0;
  0x0; 0x0; 0x0; 0x0; 0x0; 0x0; 0x0; 0x0;
  0x0; 0x0; 0x0; 0x0; 0x0; 0x0; 0x0; 0x0;
  0x0; 0x0; 0x0; 0x0; 0x0; 0x0; 0x0; 0x0;
  0x0; 0x0; 0x0; 0x0; 0x0; 0x0; 0x0; 0x7f;
  0xff; 0xff; 0xff; 0xff; 0xff; 0xff; 0xff; 0xff;
  0xff; 0x80; 0x0; 0x0; 0x0; 0x0; 0x0; 0x0;
  0x0; 0x0; 0x0; 0x0; 0x0; 0x0; 0x0; 0x0;
  0x0; 0x0; 0x0; 0x0; 0x0; 0x0; 0x0; 0x0;
  0x0; 0x0; 0x0; 0x0; 0x0; 0x0; 0x0; 0x0;
  0x0; 0x0; 0x0; 0x0; 0x0; 0x0; 0x0; 0x0;
  0x0; 0x0; 0x0; 0x0; 0x0; 0x0; 0x0; 0x0;
  0x0; 0x0; 0x0; 0x7; 0xff; 0xff; 0xff; 0xff;
  0xff; 0xff; 0xff; 0xff; 0xff; 0xf8; 0x0; 0x0;
  0x0; 0x0; 0x0; 0x0; 0x0; 0x0; 0x0; 0x0;
  0x0; 0x0; 0x0; 0x0; 0x0; 0x0; 0x0; 0x0;
  0x0; 0x0; 0x0; 0x0; 0x0; 0x0; 0x0; 0x0;
  0x0; 0x0; 0x0; 0x0; 0x0; 0x0; 0x0; 0x0;
  0x0; 0x0; 0x0; 0x0; 0x0; 0x0; 0x0; 0x0;
  0x0; 0x0; 0x0; 0x0; 0x0; 0x0; 0x0; 0x0;
  0x7f; 0xff; 0xff; 0xff; 0xff; 0xff; 0xff; 0xff;
  0xff; 0xff; 0x80; 0x0; 0x0; 0x0; 0x0; 0x0;
  0x0; 0x0; 0x0; 0x0; 0x0; 0x0; 0x0; 0x0;
  0x0; 0x0; 0x0; 0x0; 0x0; 0x0; 0x0; 0x0;
  0x0; 0x0; 0x0; 0x0; 0x0; 0x0; 0x0; 0x0;
  0x0; 0x0; 0x0; 0x0; 0x0; 0x0; 0x0; 0x0;
  0x0; 0x0; 0x0; 0x0; 0x0; 0x0; 0x0; 0x0;
  0x0; 0x0; 0x0; 0x0; 0x7; 0xff; 0xff; 0xff;
  0xff; 0xff; 0xff; 0xff; 0xff; 0xff; 0xf8; 0x0;
  0x0; 0x0; 0x0; 0x0; 0x0; 0x0; 0x0; 0x0;
  0x0; 0x0; 0x0; 0x0; 0x0; 0x0; 0x0; 0x0;
  0x0; 0x0; 0x0; 0x0; 0x0; 0x0; 0x0; 0x0;
  0x0; 0x0; 0x0; 0x0; 0x0; 0x0; 0x0; 0x0;
  0x0; 0x0; 0x0; 0x0; 0x0; 0x0; 0x0; 0x0;
  0x0; 0x0; 0x0; 0x0; 0x0; 0x0; 0x0; 0x0;
  0x0; 0x7f; 0xff; 0xff; 0xff; 0xff; 0xff; 0xff;
  0xff; 0xff; 0xff; 0x80; 0x0; 0x0; 0x0; 0x0;
  0x0; 0x0; 0x0; 0x0; 0x0; 0x0; 0x0; 0x0;
  0x0; 0x0; 0x0; 0x0; 0x0; 0x0; 0x0; 0x0;
  0x0; 0x0; 0x0; 0x0; 0x0; 0x0; 0x0; 0x0;
  0x0; 0x0; 0x0; 0x0; 0x0; 0x0; 0x0; 0x0;
  0x0; 0x0; 0x0; 0x0; 0x0; 0x0; 0x0; 0x0;
  0x0; 0x0; 0x0; 0x0; 0x0; 0x7; 0xff; 0xff;
  0xff; 0xff; 0xff; 0xff; 0xff; 0xff; 0xff; 0xf8;
  0x0; 0x0; 0x0; 0x0; 0x0; 0x0; 0x0; 0x0;
  0x0; 0x0; 0x0; 0x0; 0x0; 0x0; 0x0; 0x0;
  0x0; 0x0; 0x0; 0x0; 0x0; 0x0; 0x0; 0x0;
  0x0; 0x0; 0x0; 0x0; 0x0; 0x0; 0x0; 0x0;
  0x0; 0x0; 0x0; 0x0; 0x0; 0x0; 0x0; 0x0;
  0x0; 0x0; 0x0; 0x0; 0x0; 0x0; 0x0; 0x0;
  0x0; 0x0; 0x7f; 0xff; 0xff; 0xff; 0xff; 0xff;
  0xff; 0xff; 0xff; 0xff; 0x80; 0x0; 0x0; 0x0;
  0x0; 0x0; 0x0; 0x0; 0x0; 0x0; 0x0; 0x0;
  0x0; 0x0; 0x0; 0x0; 0x0; 0x0; 0x0; 0x0;
  0x0; 0x0; 0x0; 0x0; 0x0; 0x0; 0x0; 0x0;
  0x0; 0x0; 0x0; 0x0; 0x0; 0x0; 0x0; 0x0;
  0x0; 0x0; 0x0; 0x0; 0x0; 0x0; 0x0; 0x0;
  0x0; 0x0; 0x0; 0x0; 0x0; 0x0; 0x7; 0xff;
  0xff; 0xff; 0xff; 0xff; 0xff; 0xff; 0xff; 0xff;
  0xf8; 0x0; 0x0; 0x0; 0x0; 0x0; 0x0; 0x0;
  0x0; 0x0; 0x0; 0x0; 0x0; 0x0; 0x0; 0x0;
  0x0; 0x0; 0x0; 0x0; 0x0; 0x0; 0x0; 0x0;
  0x0; 0x0; 0x0; 0x0; 0x0; 0x0; 0x0; 0x0;
  0x0; 0x0; 0x0; 0x0; 0x0; 0x0; 0x0; 0x0;
  0x0; 0x0; 0x0; 0x0; 0x0; 0x0; 0x0; 0x0;
  0x0; 0x0; 0x0; 0x7f; 0xff; 0xff; 0xff; 0xff;
  0xff; 0xff; 0xff; 0xff; 0xff; 0x80; 0x0; 0x0;
  0x0; 0x0; 0x0; 0x0; 0x0; 0x0; 0x0; 0x0;
  0x0; 0x0; 0x0; 0x0; 0x0; 0x0; 0x0; 0x0;
  0x0; 0x0; 0x0; 0x0; 0x0; 0x0; 0x0; 0x0;
  0x0; 0x0; 0x0; 0x0; 0x0; 0x0; 0x0; 0x0;
  0x0; 0x0; 0x0; 0x0; 0x0; 0x0; 0x0; 0x0;
  0x0; 0x0; 0x0; 0x0; 0x0; 0x0; 0x0; 0x7;
  0xff; 0xff; 0xff; 0xff; 0xff; 0xff; 0xff; 0xff;
  0xff; 0xf8; 0x0; 0x0; 0x0; 0x0; 0x0; 0x0;
  0x0; 0x0; 0x0; 0x0; 0x0; 0x0; 0x0; 0x0;
  0x0; 0x0; 0x0; 0x0; 0x0; 0x0; 0x0; 0x0;
  0x0; 0x0; 0x0; 0x0; 0x0; 0x0; 0x0; 0x0;
  0x0; 0x0; 0x0; 0x0; 0x0; 0x0; 0x0; 0x0;
  0x0; 0x0; 0x0; 0x0; 0x0; 0x0; 0x0; 0x0;
  0x0; 0x0; 0x0; 0x0; 0x7f; 0xff; 0xff; 0xff;
  0xff; 0xff; 0xff; 0xff; 0xff; 0xff; 0x80; 0x0;
  0x0; 0x0; 0x0; 0x0; 0x0; 0x0; 0x0; 0x0;
  0x0; 0x0; 0x0; 0x0; 0x0; 0x0; 0x0; 0x0;
  0x0; 0x0; 0x0; 0x0; 0x0; 0x0; 0x0; 0x0;
  0x0; 0x0; 0x0; 0x0; 0x0; 0x0; 0x0; 0x0;
  0x0; 0x0; 0x0; 0x0; 0x0; 0x0; 0x0; 0x0;
  0x0; 0x0; 0x0; 0x0; 0x0; 0x0; 0x0; 0x0;
  0x7; 0xff; 0xff; 0xff; 0xff; 0xff; 0xff; 0xff;
  0xff; 0xff; 0xf8; 0x0; 0x0; 0x0; 0x0; 0x0;
  0x0; 0x0; 0x0; 0x0; 0x0; 0x0; 0x0; 0x0;
  0x0; 0x0; 0x0; 0x0; 0x0; 0x0; 0x0; 0x0;
  0x0; 0x0; 0x0; 0x0; 0x0; 0x0; 0x0; 0x0;
  0x0; 0x0; 0x0; 0x0; 0x0; 0x0; 0x0; 0x0;
  0x0; 0x0; 0x0; 0x0; 0x0; 0x0; 0x0; 0x0;
  0x0; 0x0; 0x0; 0x0; 0x0; 0x7f; 0xff; 0xff;
  0xff; 0xff; 0xff; 0xff; 0xff; 0xff; 0xff; 0x80;
  0x0; 0x0; 0x0; 0x0; 0x0; 0x0; 0x0; 0x0;
  0x0; 0x0; 0x0; 0x0; 0x0; 0x0; 0x0; 0x0;
  0x0; 0x0; 0x0; 0x0; 0x0; 0x0; 0x0; 0x0;
  0x0; 0x0; 0x0; 0x0; 0x0; 0x0; 0x0; 0x0;
  0x0; 0x0; 0x0; 0x0; 0x0; 0x0; 0x0; 0x0;
  0x0; 0x0; 0x0; 0x0; 0x0; 0x0; 0x0; 0x0;
  0x0; 0x7; 0xff; 0xff; 0xff; 0xff; 0xff; 0xff;
  0xff; 0xff; 0xff; 0xf8; 0x0; 0x0; 0x0; 0x0;
  0x0; 0x0; 0x0; 0x0; 0x0; 0x0; 0x0; 0x0;
  0x0; 0x0; 0x0; 0x0; 0x0; 0x0; 0x0; 0x0;
  0x0; 0x0; 0x0; 0x0; 0x0; 0x0; 0x0; 0x0;
  0x0; 0x0; 0x0; 0x0; 0x0; 0x0; 0x0; 0x0;
  0x0; 0x0; 0x0; 0x0; 0x0; 0x0; 0x0; 0x0;
  0x0; 0x0; 0x0; 0x0; 0x0; 0x0; 0x7f; 0xff;
  0xff; 0xff; 0xff; 0xff; 0xff; 0xff; 0xff; 0xff;
  0x80; 0x0; 0x0; 0x0; 0x0; 0x0; 0x0; 0x0;
  0x0; 0x0; 0x0; 0x0; 0x0; 0x0; 0x0; 0x0;
  0x0; 0x0; 0x0; 0x0; 0x0; 0x0; 0x0; 0x0;
  0x0; 0x0; 0x0; 0x0; 0x0; 0x0; 0x0; 0x0;
  0x0; 0x0; 0x0; 0x0; 0x0; 0x0; 0x0; 0x0;
  0x0; 0x0; 0x0; 0x0; 0x0; 0x0; 0x0; 0x0;
  0x0; 0x0; 0x7; 0xff; 0xff; 0xff; 0xff; 0xff;
  0xff; 0xff; 0xff; 0xff; 0xf8; 0x0; 0x0; 0x0;
  0x0; 0x0; 0x0; 0x0; 0x0; 0x0; 0x0; 0x0;
  0x0; 0x0; 0x0; 0x0; 0x0; 0x0; 0x0; 0x0;
  0x0; 0x0; 0x0; 0x0; 0x0; 0x0; 0x0; 0x0;
  0x0; 0x0; 0x0; 0x0; 0x0; 0x0; 0x0; 0x0;
  0x0; 0x0; 0x0; 0x0; 0x0; 0x0; 0x0; 0x0;
  0x0; 0x0; 0x0; 0x0; 0x0; 0x0; 0x0; 0x7f;
  0xff; 0xff; 0xff; 0xff; 0xff; 0xff; 0xff; 0xff;
  0xff; 0x80; 0x0; 0x0; 0x0; 0x0; 0x0; 0x0 ].

Definition quicksand256_bitmap_8 : list Z :=
  [ 0x0; 0x0; 0x0; 0x0; 0x0; 0x0; 0x0; 0x0;
  0x0; 0x0; 0x0; 0x0; 0x0; 0x0; 0x0; 0x0;
  0x0; 0x0; 0x0; 0x0; 0x0; 0x0; 0x0; 0x0;
  0x0; 0x0; 0x0; 0x0; 0x0; 0x0; 0x0; 0x0;
  0x0; 0x0; 0x0; 0x0; 0x0; 0x0; 0x0; 0x0;
  0x0; 0x0; 0x0; 0x7; 0xff; 0xff; 0xff; 0xff;
  0xff; 0xff; 0xff; 0xff; 0xff; 0xf8; 0x0; 0x0;
  0x0; 0x0; 0x0; 0x0; 0x0; 0x0; 0x0; 0x0;
  0x0; 0x0; 0x0; 0x0; 0x0; 0x0; 0x0; 0x0;
  0x0; 0x0; 0x0; 0x0; 0x0; 0x0; 0x0; 0x0;
  0x0; 0x0; 0x0; 0x0; 0x0; 0x0; 0x0; 0x0;
  0x0; 0x0; 0x0; 0x0; 0x0; 0x0; 0x0; 0x0;
  0x0; 0x0; 0x0; 0x0; 0x0; 0x0; 0x0; 0x0;
  0x7f; 0xff; 0xff; 0xff; 0xff; 0xff; 0xff; 0xff;
  0xff; 0xff; 0x80; 0x0; 0x0; 0x0; 0x0; 0x0;
  0x0; 0x0; 0x0; 0x0; 0x0; 0x0; 0x0; 0x0;
  0x0; 0x0; 0x0; 0x0; 0x0; 0x0; 0x0; 0x0;
  0x0; 0x0; 0x0; 0x0; 0x0; 0x0; 0x0; 0x0;
  0x0; 0x0; 0x0; 0x0; 0x0; 0x0; 0x0; 0x0;
  0x0; 0x0; 0x0; 0x0; 0x0; 0x0; 0x0; 0x0;
  0x0; 0x0; 0x0; 0x0; 0x7; 0xff; 0xff; 0xff;
  0xff; 0xff; 0xff; 0xff; 0xff; 0xff; 0xf8; 0x0;
  0x0; 0x0; 0x0; 0x0; 0x0; 0x0; 0x0; 0x0;
  0x0; 0x0; 0x0; 0x0; 0x0; 0x0; 0x0; 0x0;
  0x0; 0x0; 0x0; 0x0; 0x0; 0x0; 0x0; 0x0;
  0x0; 0x0; 0x0; 0x0; 0x0; 0x0; 0x0; 0x0;
  0x0; 0x0; 0x0; 0x0; 0x0; 0x0; 0x0; 0x0;
  0x0; 0x0; 0x0; 0x0; 0x0; 0x0; 0x0; 0x0;
  0x0; 0x7f; 0xff; 0xff; 0xff; 0xff; 0xff; 0xff;
  0xff; 0xff; 0xff; 0x80; 0x0; 0x0; 0x0; 0x0;
  0x0; 0x0; 0x0; 0x0; 0x0; 0x0; 0x0; 0x0;
  0x0; 0x0; 0x0; 0x0; 0x0; 0x0; 0x0; 0x0;
  0x0; 0x0; 0x0; 0x0; 0x0; 0x0; 0x0; 0x0;
  0x0; 0x0; 0x0; 0x0; 0x0; 0x0; 0x0; 0x0;
  0x0; 0x0; 0x0; 0x0; 0x0; 0x0; 0x0; 0x0;
  0x0; 0x0; 0x0; 0x0; 0x0; 0x7; 0xff; 0xff;
  0xff; 0xff; 0xff; 0xff; 0xff; 0xff; 0xff; 0xf8;
  0x0; 0x0; 0x0; 0x0; 0x0; 0x0; 0x0; 0x0;
  0x0; 0x0; 0x0; 0x0; 0x0; 0x0; 0x0; 0x0;
  0x0; 0x0; 0x0; 0x0; 0x0; 0x0; 0x0; 0x0;
  0x0; 0x0; 0x0; 0x0; 0x0; 0x0; 0x0; 0x0;
  0x0; 0x0; 0x0; 0x0; 0x0; 0x0; 0x0; 0x0;
  0x0; 0x0; 0x0; 0x0; 0x0; 0x0; 0x0; 0x0;
  0x0; 0x0; 0x7f; 0xff; 0xff; 0xff; 0xff; 0xff;
  0xff; 0xff; 0xff; 0xff; 0x80; 0x0; 0x0; 0x0;
  0x0; 0x0; 0x0; 0x0; 0x0; 0x0; 0x0; 0x0;
  0x0; 0x0; 0x0; 0x0; 0x0; 0x0; 0x0; 0x0;
  0x0; 0x0; 0x0; 0x0; 0x0; 0x0; 0x0; 0x0;
  0x0; 0x0; 0x0; 0x0; 0x0; 0x0; 0x0; 0x0;
  0x0; 0x0; 0x0; 0x0; 0x0; 0x0; 0x0; 0x0;
  0x0; 0x0; 0x0; 0x0; 0x0; 0x0; 0x7; 0xff;
  0xff; 0xff; 0xff; 0xff; 0xff; 0xff; 0xff; 0xff;
  0xf8; 0x0; 0x0; 0x0; 0x0; 0x0; 0x0; 0x0;
  0x0; 0x0; 0x0; 0x0; 0x0; 0x0; 0x0; 0x0;
  0x0; 0x0; 0x0; 0x0; 0x0; 0x0; 0x0; 0x0;
  0x0; 0x0; 0x0; 0x0; 0x0; 0x0; 0x0; 0x0;
  0x0; 0x0; 0x0; 0x0; 0x0; 0x0; 0x0; 0x0;
  0x0; 0x0; 0x0; 0x0; 0x0; 0x0; 0x0; 0x0;
  0x0; 0x0; 0x0; 0x7f; 0xff; 0xff; 0xff; 0xff;
  0xff; 0xff; 0xff; 0xff; 0xff; 0x80; 0x0; 0x0;
  0x0; 0x0; 0x0; 0x0; 0x0; 0x0; 0x0; 0x0;
  0x0; 0x0; 0x0; 0x0; 0x0; 0x0; 0x0; 0x0;
  0x0; 0x0; 0x0; 0x0; 0x0; 0x0; 0x0; 0x0;
  0x0; 0x0; 0x0; 0x0; 0x0; 0x0; 0x0; 0x0;
  0x0; 0x0; 0x0; 0x0; 0x0; 0x0; 0x0; 0x0;
  0x0; 0x0; 0x0; 0x0; 0x0; 0x0; 0x0; 0x7;
  0xff; 0xff; 0xff; 0xff; 0xff; 0xff; 0xff; 0xff;
  0xff; 0xf8; 0x0; 0x0; 0x0; 0x0; 0x0; 0x0;
  0x0; 0x0; 0x0; 0x0; 0x0; 0x0; 0x0; 0x0;
  0x0; 0x0; 0x0; 0x0; 0x0; 0x0; 0x0; 0x0;
  0x0; 0x0; 0x0; 0x0; 0x0; 0x0; 0x0; 0x0;
  0x0; 0x0; 0x0; 0x0; 0x0; 0x0; 0x0; 0x0;
  0x0; 0x0; 0x0; 0x0; 0x0; 0x0; 0x0; 0x0;
  0x0; 0x0; 0x0; 0x0; 0x7f; 0xff; 0xff; 0xff;
  0xff; 0xff; 0xff; 0xff; 0xff; 0xff; 0x80; 0x0;
  0x0; 0x0; 0x0; 0x0; 0x0; 0x0; 0x0; 0x0;
  0x0; 0x0; 0x0; 0x0; 0x0; 0x0; 0x0; 0x0;
  0x0; 0x0; 0x0; 0x0; 0x0; 0x0; 0x0; 0x0;
  0x0; 0x0; 0x0; 0x0; 0x0; 0x0; 0x0; 0x0;
  0x0; 0x0; 0x0; 0x0; 0x0; 0x0; 0x0; 0x0;
  0x0; 0x0; 0x0; 0x0; 0x0; 0x0; 0x0; 0x0;
  0x7; 0xff; 0xff; 0xff; 0xff; 0xff; 0xff; 0xff;
  0xff; 0xff; 0xf7; 0x0; 0x0; 0x0; 0x0; 0x0;
  0x0; 0x0; 0x0; 0x0; 0x0; 0x0; 0x0; 0x0;
  0x0; 0x0; 0x0; 0x0; 0x0; 0x0; 0x0; 0x0;
  0x0; 0x0; 0x0; 0x0; 0x0; 0x0; 0x0; 0x0;
  0x0; 0x0; 0x0; 0x0; 0x0; 0x0; 0x0; 0x0;
  0x0; 0x0; 0x0; 0x0; 0x0; 0x0; 0x0; 0x0;
  0x0; 0x0; 0x0; 0x0; 0x0; 0x6f; 0xff; 0xff;
  0xff; 0xff; 0xff; 0xff; 0xff; 0xff; 0xff; 0x70;
  0x0; 0x0; 0x0; 0x0; 0x0; 0x0; 0x0; 0x0;
  0x0; 0x0; 0x0; 0x0; 0x0; 0x0; 0x0; 0x0;
  0x0; 0x0; 0x0; 0x0; 0x0; 0x0; 0x0; 0x0;
  0x0; 0x0; 0x0; 0x0; 0x0; 0x0; 0x0; 0x0;
  0x0; 0x0; 0x0; 0x0; 0x0; 0x0; 0x0; 0x0;
  0x0; 0x0; 0x0; 0x0; 0x0; 0x0; 0x0; 0x0;
  0x0; 0x4; 0xff; 0xff; 0xff; 0xff; 0xff; 0xff;
  0xff; 0xff; 0xff; 0xf5; 0x0; 0x0; 0x0; 0x0;
  0x0; 0x0; 0x0; 0x0; 0x0; 0x0; 0x0; 0x0;
  0x0; 0x0; 0x0; 0x0; 0x0; 0x0; 0x0; 0x0;
  0x0; 0x0; 0x0; 0x0; 0x0; 0x0; 0x0; 0x0;
  0x0; 0x0; 0x0; 0x0; 0x0; 0x0; 0x0; 0x0;
  0x0; 0x0; 0x0; 0x0; 0x0; 0x0; 0x0; 0x0;
  0x0; 0x0; 0x0; 0x0; 0x0; 0x0; 0x1f; 0xff;
  0xff; 0xff; 0xff; 0xff; 0xff; 0xff; 0xff; 0xff;
  0x10; 0x0; 0x0; 0x0; 0x0; 0x0; 0x0; 0x0;
  0x0; 0x0; 0x0; 0x0; 0x0; 0x0; 0x0; 0x0;
  0x0; 0x0; 0x0; 0x0; 0x0; 0x0; 0x0; 0x0;
  0x0; 0x0; 0x0; 0x0; 0x0; 0x0; 0x0; 0x0;
  0x0; 0x0; 0x0; 0x0; 0x0; 0x0; 0x0; 0x0;
  0x0; 0x0; 0x0; 0x0; 0x0; 0x0; 0x0; 0x0;
  0x0; 0x0; 0x0; 0xcf; 0xff; 0xff; 0xff; 0xff;
  0xff; 0xff; 0xff; 0xff; 0xc0; 0x0; 0x0; 0x0;
  0x0; 0x0; 0x0; 0x0; 0x0; 0x0; 0x0; 0x0;
  0x0; 0x0; 0x0; 0x0; 0x0; 0x0; 0x0; 0x0;
  0x0; 0x0; 0x0; 0x0; 0x0; 0x0; 0x0; 0x0;
  0x0; 0x0; 0x0; 0x0; 0x0; 0x0; 0x0; 0x0;
  0x0; 0x0; 0x0; 0x0; 0x0; 0x0; 0x0; 0x0;
  0x0; 0x0; 0x0; 0x0; 0x0; 0x0; 0x0; 0x5;
  0xff; 0xff; 0xff; 0xff; 0xff; 0xff; 0xff; 0xff;
  0xf5; 0x0; 0x0; 0x0; 0x0; 0x0; 0x0; 0x0;
  0x0; 0x0; 0x0; 0x0; 0x0; 0x0; 0x0; 0x0;
  0x0; 0x0; 0x0; 0x0; 0x0; 0x0; 0x0; 0x0;
  0x0; 0x0; 0x0; 0x0; 0x0; 0x0; 0x0; 0x0;
  0x0; 0x0; 0x0; 0x0; 0x0; 0x0; 0x0; 0x0;
  0x0; 0x0; 0x0; 0x0; 0x0; 0x0; 0x0; 0x0;
  0x0; 0x0; 0x0; 0x0; 0xc; 0xff; 0xff; 0xff;
  0xff; 0xff; 0xff; 0xff; 0xfc; 0x0; 0x0; 0x0;
  0x0; 0x0; 0x0; 0x0; 0x0; 0x0; 0x0; 0x0;
  0x0; 0x0; 0x0; 0x0; 0x0; 0x0; 0x0; 0x0;
  0x0; 0x0; 0x0; 0x0; 0x0; 0x0; 0x0; 0x0;
  0x0; 0x0; 0x0; 0x0; 0x0; 0x0; 0x0; 0x0;
  0x0; 0x0; 0x0; 0x0; 0x0; 0x0; 0x0; 0x0;
  0x0; 0x0; 0x0; 0x0; 0x0; 0x0; 0x0; 0x0;
  0x0; 0x2f; 0xff; 0xff; 0xff; 0xff; 0xff; 0xff;
  0xfe; 0x10; 0x0; 0x0; 0x0; 0x0; 0x0; 0x0;
  0x0; 0x0; 0x0; 0x0; 0x0; 0x0; 0x0; 0x0;
  0x0; 0x0; 0x0; 0x0; 0x0; 0x0; 0x0; 0x0;
  0x0; 0x0; 0x0; 0x0; 0x0; 0x0; 0x0; 0x0;
  0x0; 0x0; 0x0; 0x0; 0x0; 0x0; 0x0; 0x0;
  0x0; 0x0; 0x0; 0x0; 0x0; 0x0; 0x0; 0x0;
  0x0; 0x0; 0x0; 0x0; 0x0; 0x0; 0x4f; 0xff;
  0xff; 0xff; 0xff; 0xff; 0xfe; 0x20; 0x0; 0x0;
  0x0; 0x0; 0x0; 0x0; 0x0; 0x0; 0x0; 0x0;
  0x0; 0x0; 0x0; 0x0; 0x0; 0x0; 0x0; 0x0;
  0x0; 0x0; 0x0; 0x0; 0x0; 0x0; 0x0; 0x0;
  0x0; 0x0; 0x0; 0x0; 0x0; 0x0; 0x0; 0x0;
  0x0; 0x0; 0x0; 0x0; 0x0; 0x0; 0x0; 0x0;
  0x0; 0x0; 0x0; 0x0; 0x0; 0x0; 0x0; 0x0;
  0x0; 0x0; 0x0; 0x2c; 0xff; 0xff; 0xff; 0xff ].

Definition quicksand256_bitmap_9 : list Z :=
  [ 0xfb; 0x10; 0x0; 0x0; 0x0; 0x0; 0x0; 0x0;
  0x0; 0x0; 0x0; 0x0; 0x0; 0x0; 0x0; 0x0;
  0x0; 0x0; 0x0; 0x0; 0x0; 0x0; 0x0; 0x0;
  0x0; 0x0; 0x0; 0x0; 0x0; 0x0; 0x0; 0x0;
  0x0; 0x0; 0x0; 0x0; 0x0; 0x0; 0x0; 0x0;
  0x0; 0x0; 0x0; 0x0; 0x0; 0x0; 0x0; 0x0;
  0x0; 0x0; 0x0; 0x0; 0x0; 0x0; 0x0; 0x0;
  0x4; 0x9d; 0xff; 0xfd; 0x93; 0x0; 0x0; 0x0;
  0x0; 0x0; 0x0; 0x0; 0x0; 0x0; 0x0; 0x0;
  0x0; 0x0; 0x0; 0x0; 0x0; 0x0; 0x0; 0x0;
  0x0; 0x0; 0x0; 0x0; 0x0; 0x0; 0x0; 0x0;
  0x0; 0x0; 0x0; 0x0; 0x0; 0x0; 0x0; 0x0;
  0x0; 0x0; 0x0; 0x0; 0x0; 0x0; 0x0; 0x0;
  0x0; 0x0; 0x0; 0x0; 0x0; 0x0; 0x0; 0x0;
  0x0; 0x0;
  0x0; 0x0; 0x0; 0x0; 0x0; 0x0; 0x0; 0x0;
  0x0; 0x0; 0x0; 0x0; 0x0; 0x0; 0x0; 0x0;
  0x0; 0x0; 0x0; 0x0; 0x0; 0x0; 0x0; 0x0;
  0x0; 0x0; 0x0; 0x2; 0x57; 0x8a; 0xbd; 0xee;
  0xff; 0xff; 0xff; 0xfe; 0xdc; 0xba; 0x97; 0x54;
  0x10; 0x0; 0x0; 0x0; 0x0; 0x0; 0x0; 0x0;
  0x0; 0x0; 0x0; 0x0; 0x0; 0x0; 0x0; 0x0;
  0x0; 0x0; 0x0; 0x0; 0x0; 0x0; 0x0; 0x0;
  0x0; 0x0; 0x0; 0x0; 0x0; 0x0; 0x0; 0x0;
  0x0; 0x0; 0x0; 0x0; 0x0; 0x0; 0x0; 0x0;
  0x0; 0x0; 0x37; 0xad; 0xff; 0xff; 0xff; 0xff;
  0xff; 0xff; 0xff; 0xff; 0xff; 0xff; 0xff; 0xff;
  0xff; 0xff; 0xda; 0x74; 0x10; 0x0; 0x0; 0x0;
  0x0; 0x0; 0x0; 0x0; 0x0; 0x0; 0x0; 0x0;
  0x0; 0x0; 0x0; 0x0; 0x0; 0x0; 0x0; 0x0;
  0x0; 0x0; 0x0; 0x0; 0x0; 0x0; 0x0; 0x0;
  0x0; 0x0; 0x0; 0x0; 0x0; 0x0; 0x0; 0x0;
  0x0; 0x27; 0xbf; 0xff; 0xff; 0xff; 0xff; 0xff;
  0xff; 0xff; 0xff; 0xff; 0xff; 0xff; 0xff; 0xff;
  0xff; 0xff; 0xff; 0xff; 0xff; 0xfd; 0xa6; 0x20;
  0x0; 0x0; 0x0; 0x0; 0x0; 0x0; 0x0; 0x0;
  0x0; 0x0; 0x0; 0x0; 0x0; 0x0; 0x0; 0x0;
  0x0; 0x0; 0x0; 0x0; 0x0; 0x0; 0x0; 0x0;
  0x0; 0x0; 0x0; 0x0; 0x0; 0x0; 0x0; 0x0;
  0x2; 0x8d; 0xff; 0xff; 0xff; 0xff; 0xff; 0xff;
  0xff; 0xff; 0xff; 0xff; 0xff; 0xff; 0xff; 0xff;
  0xff; 0xff; 0xff; 0xff; 0xff; 0xff; 0xff; 0xff;
  0xfd; 0x83; 0x0; 0x0; 0x0; 0x0; 0x0; 0x0;
  0x0; 0x0; 0x0; 0x0; 0x0; 0x0; 0x0; 0x0;
  0x0; 0x0; 0x0; 0x0; 0x0; 0x0; 0x0; 0x0;
  0x0; 0x0; 0x0; 0x0; 0x0; 0x0; 0x0; 0x0;
  0x6; 0xcf; 0xff; 0xff; 0xff; 0xff; 0xff; 0xff;
  0xff; 0xff; 0xff; 0xff; 0xff; 0xff; 0xff; 0xff;
  0xff; 0xff; 0xff; 0xff; 0xff; 0xff; 0xff; 0xff;
  0xff; 0xff; 0xff; 0xe9; 0x30; 0x0; 0x0; 0x0;
  0x0; 0x0; 0x0; 0x0; 0x0; 0x0; 0x0; 0x0;
  0x0; 0x0; 0x0; 0x0; 0x0; 0x0; 0x0; 0x0;
  0x0; 0x0; 0x0; 0x0; 0x0; 0x0; 0x0; 0x0;
  0x18; 0xff; 0xff; 0xff; 0xff; 0xff; 0xff; 0xff;
  0xff; 0xff; 0xff; 0xff; 0xff; 0xff; 0xff; 0xff;
  0xff; 0xff; 0xff; 0xff; 0xff; 0xff; 0xff; 0xff;
  0xff; 0xff; 0xff; 0xff; 0xff; 0xfc; 0x60; 0x0;
  0x0; 0x0; 0x0; 0x0; 0x0; 0x0; 0x0; 0x0;
  0x0; 0x0; 0x0; 0x0; 0x0; 0x0; 0x0; 0x0;
  0x0; 0x0; 0x0; 0x0; 0x0; 0x0; 0x0; 0x0;
  0x2a; 0xff; 0xff; 0xff; 0xff; 0xff; 0xff; 0xff;
  0xff; 0xff; 0xff; 0xff; 0xff; 0xff; 0xff; 0xff;
  0xff; 0xff; 0xff; 0xff; 0xff; 0xff; 0xff; 0xff;
  0xff; 0xff; 0xff; 0xff; 0xff; 0xff; 0xff; 0xfe;
  0x70; 0x0; 0x0; 0x0; 0x0; 0x0; 0x0; 0x0;
  0x0; 0x0; 0x0; 0x0; 0x0; 0x0; 0x0; 0x0;
  0x0; 0x0; 0x0; 0x0; 0x0; 0x0; 0x0; 0x0;
  0x19; 0xff; 0xff; 0xff; 0xff; 0xff; 0xff; 0xff;
  0xff; 0xff; 0xff; 0xff; 0xff; 0xff; 0xff; 0xff;
  0xff; 0xff; 0xff; 0xff; 0xff; 0xff; 0xff; 0xff;
  0xff; 0xff; 0xff; 0xff; 0xff; 0xff; 0xff; 0xff;
  0xff; 0xfe; 0x70; 0x0; 0x0; 0x0; 0x0; 0x0;
  0x0; 0x0; 0x0; 0x0; 0x0; 0x0; 0x0; 0x0;
  0x0; 0x0; 0x0; 0x0; 0x0; 0x0; 0x0; 0x0;
  0x7; 0xff; 0xff; 0xff; 0xff; 0xff; 0xff; 0xff;
  0xff; 0xff; 0xff; 0xff; 0xff; 0xff; 0xff; 0xff;
  0xff; 0xff; 0xff; 0xff; 0xff; 0xff; 0xff; 0xff;
  0xff; 0xff; 0xff; 0xff; 0xff; 0xff; 0xff; 0xff;
  0xff; 0xff; 0xff; 0xfd; 0x30; 0x0; 0x0; 0x0;
  0x0; 0x0; 0x0; 0x0; 0x0; 0x0; 0x0; 0x0;
  0x0; 0x0; 0x0; 0x0; 0x0; 0x0; 0x0; 0x0;
  0x3; 0xdf; 0xff; 0xff; 0xff; 0xff; 0xff; 0xff;
  0xff; 0xff; 0xff; 0xff; 0xff; 0xff; 0xff; 0xff;
  0xff; 0xff; 0xff; 0xff; 0xff; 0xff; 0xff; 0xff;
  0xff; 0xff; 0xff; 0xff; 0xff; 0xff; 0xff; 0xff;
  0xff; 0xff; 0xff; 0xff; 0xff; 0xf9; 0x0; 0x0;
  0x0; 0x0; 0x0; 0x0; 0x0; 0x0; 0x0; 0x0;
  0x0; 0x0; 0x0; 0x0; 0x0; 0x0; 0x0; 0x0;
  0x0; 0x9f; 0xff; 0xff; 0xff; 0xff; 0xff; 0xff;
  0xff; 0xff; 0xff; 0xff; 0xff; 0xff; 0xff; 0xff;
  0xff; 0xff; 0xff; 0xff; 0xff; 0xff; 0xff; 0xff;
  0xff; 0xff; 0xff; 0xff; 0xff; 0xff; 0xff; 0xff;
  0xff; 0xff; 0xff; 0xff; 0xff; 0xff; 0xff; 0xd2;
  0x0; 0x0; 0x0; 0x0; 0x0; 0x0; 0x0; 0x0;
  0x0; 0x0; 0x0; 0x0; 0x0; 0x0; 0x0; 0x0;
  0x0; 0x3d; 0xff; 0xff; 0xff; 0xff; 0xff; 0xff;
  0xff; 0xff; 0xff; 0xff; 0xff; 0xff; 0xff; 0xff;
  0xff; 0xff; 0xff; 0xff; 0xff; 0xff; 0xff; 0xff;
  0xff; 0xff; 0xff; 0xff; 0xff; 0xff; 0xff; 0xff;
  0xff; 0xff; 0xff; 0xff; 0xff; 0xff; 0xff; 0xff;
  0xfe; 0x30; 0x0; 0x0; 0x0; 0x0; 0x0; 0x0;
  0x0; 0x0; 0x0; 0x0; 0x0; 0x0; 0x0; 0x0;
  0x0; 0x7; 0xff; 0xff; 0xff; 0xff; 0xff; 0xff;
  0xff; 0xff; 0xff; 0xff; 0xff; 0xff; 0xff; 0xff;
  0xff; 0xff; 0xff; 0xff; 0xff; 0xff; 0xff; 0xff;
  0xff; 0xff; 0xff; 0xff; 0xff; 0xff; 0xff; 0xff;
  0xff; 0xff; 0xff; 0xff; 0xff; 0xff; 0xff; 0xff;
  0xff; 0xff; 0xf3; 0x0; 0x0; 0x0; 0x0; 0x0;
  0x0; 0x0; 0x0; 0x0; 0x0; 0x0; 0x0; 0x0;
  0x0; 0x0; 0xaf; 0xff; 0xff; 0xff; 0xff; 0xff;
  0xff; 0xff; 0xff; 0xff; 0xff; 0xff; 0xff; 0xff;
  0xff; 0xff; 0xff; 0xff; 0xff; 0xff; 0xff; 0xff;
  0xff; 0xff; 0xff; 0xff; 0xff; 0xff; 0xff; 0xff;
  0xff; 0xff; 0xff; 0xff; 0xff; 0xff; 0xff; 0xff;
  0xff; 0xff; 0xff; 0xfe; 0x20; 0x0; 0x0; 0x0;
  0x0; 0x0; 0x0; 0x0; 0x0; 0x0; 0x0; 0x0;
  0x0; 0x0; 0x2d; 0xff; 0xff; 0xff; 0xff; 0xff;
  0xff; 0xff; 0xff; 0xff; 0xff; 0xff; 0xff; 0xff;
  0xff; 0xff; 0xff; 0xff; 0xff; 0xff; 0xff; 0xff;
  0xff; 0xff; 0xff; 0xff; 0xff; 0xff; 0xff; 0xff;
  0xff; 0xff; 0xff; 0xff; 0xff; 0xff; 0xff; 0xff;
  0xff; 0xff; 0xff; 0xff; 0xff; 0xc0; 0x0; 0x0;
  0x0; 0x0; 0x0; 0x0; 0x0; 0x0; 0x0; 0x0;
  0x0; 0x0; 0x3; 0xef; 0xff; 0xff; 0xff; 0xff;
  0xff; 0xff; 0xff; 0xff; 0xff; 0xff; 0xff; 0xff;
  0xff; 0xff; 0xff; 0xff; 0xff; 0xff; 0xff; 0xff;
  0xff; 0xff; 0xff; 0xff; 0xff; 0xff; 0xff; 0xff;
  0xff; 0xff; 0xff; 0xff; 0xff; 0xff; 0xff; 0xff;
  0xff; 0xff; 0xff; 0xff; 0xff; 0xff; 0xf7; 0x0;
  0x0; 0x0; 0x0; 0x0; 0x0; 0x0; 0x0; 0x0;
  0x0; 0x0; 0x0; 0x4f; 0xff; 0xff; 0xff; 0xff;
  0xff; 0xff; 0xff; 0xff; 0xff; 0xff; 0xff; 0xff;
  0xff; 0xff; 0xff; 0xff; 0xff; 0xff; 0xff; 0xff;
  0xff; 0xff; 0xff; 0xff; 0xff; 0xff; 0xff; 0xff;
  0xff; 0xff; 0xff; 0xff; 0xff; 0xff; 0xff; 0xff;
  0xff; 0xff; 0xff; 0xff; 0xff; 0xff; 0xff; 0xff;
  0x0; 0x0; 0x0; 0x0; 0x0; 0x0; 0x0; 0x0;
  0x0; 0x0; 0x0; 0x5; 0xff; 0xff; 0xff; 0xff;
  0xff; 0xff; 0xff; 0xff; 0xff; 0xff; 0xff; 0xff;
  0xff; 0xff; 0xff; 0xff; 0xff; 0xff; 0xff; 0xff;
  0xff; 0xff; 0xff; 0xff; 0xff; 0xff; 0xff; 0xff;
  0xff; 0xff; 0xff; 0xff; 0xff; 0xff; 0xff; 0xff;
  0xff; 0xff; 0xff; 0xff; 0xff; 0xff; 0xff; 0xff;
  0xff; 0x60; 0x0; 0x0; 0x0; 0x0; 0x0; 0x0;
  0x0; 0x0; 0x0; 0x0; 0x5f; 0xff; 0xff; 0xff;
  0xff; 0xff; 0xff; 0xff; 0xff; 0xff; 0xff; 0xff;
  0xff; 0xff; 0xff; 0xff; 0xff; 0xff; 0xff; 0xff;
  0xff; 0xff; 0xff; 0xff; 0xff; 0xff; 0xff; 0xff ].

Definition quicksand256_bitmap_10 : list Z :=
  [ 0xff; 0xff; 0xff; 0xff; 0xff; 0xff; 0xff; 0xff;
  0xff; 0xff; 0xff; 0xff; 0xff; 0xff; 0xff; 0xff;
  0xff; 0xff; 0xb0; 0x0; 0x0; 0x0; 0x0; 0x0;
  0x0; 0x0; 0x0; 0x0; 0x5; 0xff; 0xff; 0xff;
  0xff; 0xff; 0xff; 0xff; 0xff; 0xff; 0xff; 0xff;
  0xff; 0xff; 0xff; 0xff; 0xff; 0xff; 0xff; 0xff;
  0xfd; 0xa7; 0x54; 0x21; 0x0; 0x0; 0x0; 0x12;
  0x35; 0x79; 0xbd; 0xff; 0xff; 0xff; 0xff; 0xff;
  0xff; 0xff; 0xff; 0xff; 0xff; 0xff; 0xff; 0xff;
  0xff; 0xff; 0xff; 0xf0; 0x0; 0x0; 0x0; 0x0;
  0x0; 0x0; 0x0; 0x0; 0x0; 0x4f; 0xff; 0xff;
  0xff; 0xff; 0xff; 0xff; 0xff; 0xff; 0xff; 0xff;
  0xff; 0xff; 0xff; 0xff; 0xff; 0xff; 0xff; 0xfb;
  0x73; 0x0; 0x0; 0x0; 0x0; 0x0; 0x0; 0x0;
  0x0; 0x0; 0x0; 0x0; 0x3; 0x6a; 0xef; 0xff;
  0xff; 0xff; 0xff; 0xff; 0xff; 0xff; 0xff; 0xff;
  0xff; 0xff; 0xff; 0xff; 0xf1; 0x0; 0x0; 0x0;
  0x0; 0x0; 0x0; 0x0; 0x0; 0x3; 0xff; 0xff;
  0xff; 0xff; 0xff; 0xff; 0xff; 0xff; 0xff; 0xff;
  0xff; 0xff; 0xff; 0xff; 0xff; 0xff; 0xff; 0xa5;
  0x0; 0x0; 0x0; 0x0; 0x0; 0x0; 0x0; 0x0;
  0x0; 0x0; 0x0; 0x0; 0x0; 0x0; 0x0; 0x2;
  0x7d; 0xff; 0xff; 0xff; 0xff; 0xff; 0xff; 0xff;
  0xff; 0xff; 0xff; 0xff; 0xff; 0xf2; 0x0; 0x0;
  0x0; 0x0; 0x0; 0x0; 0x0; 0x0; 0x1e; 0xff;
  0xff; 0xff; 0xff; 0xff; 0xff; 0xff; 0xff; 0xff;
  0xff; 0xff; 0xff; 0xff; 0xff; 0xff; 0xfd; 0x71;
  0x0; 0x0; 0x0; 0x0; 0x0; 0x0; 0x0; 0x0;
  0x0; 0x0; 0x0; 0x0; 0x0; 0x0; 0x0; 0x0;
  0x0; 0x0; 0x4c; 0xff; 0xff; 0xff; 0xff; 0xff;
  0xff; 0xff; 0xff; 0xff; 0xff; 0xff; 0xf1; 0x0;
  0x0; 0x0; 0x0; 0x0; 0x0; 0x0; 0x0; 0xcf;
  0xff; 0xff; 0xff; 0xff; 0xff; 0xff; 0xff; 0xff;
  0xff; 0xff; 0xff; 0xff; 0xff; 0xff; 0xfd; 0x50;
  0x0; 0x0; 0x0; 0x0; 0x0; 0x0; 0x0; 0x0;
  0x0; 0x0; 0x0; 0x0; 0x0; 0x0; 0x0; 0x0;
  0x0; 0x0; 0x0; 0x0; 0x4d; 0xff; 0xff; 0xff;
  0xff; 0xff; 0xff; 0xff; 0xff; 0xff; 0xff; 0xf0;
  0x0; 0x0; 0x0; 0x0; 0x0; 0x0; 0x0; 0x9;
  0xff; 0xff; 0xff; 0xff; 0xff; 0xff; 0xff; 0xff;
  0xff; 0xff; 0xff; 0xff; 0xff; 0xff; 0xfd; 0x50;
  0x0; 0x0; 0x0; 0x0; 0x0; 0x0; 0x0; 0x0;
  0x0; 0x0; 0x0; 0x0; 0x0; 0x0; 0x0; 0x0;
  0x0; 0x0; 0x0; 0x0; 0x0; 0x0; 0x7f; 0xff;
  0xff; 0xff; 0xff; 0xff; 0xff; 0xff; 0xff; 0xff;
  0xb0; 0x0; 0x0; 0x0; 0x0; 0x0; 0x0; 0x0;
  0x6f; 0xff; 0xff; 0xff; 0xff; 0xff; 0xff; 0xff;
  0xff; 0xff; 0xff; 0xff; 0xff; 0xff; 0xff; 0x80;
  0x0; 0x0; 0x0; 0x0; 0x0; 0x0; 0x0; 0x0;
  0x0; 0x0; 0x0; 0x0; 0x0; 0x0; 0x0; 0x0;
  0x0; 0x0; 0x0; 0x0; 0x0; 0x0; 0x0; 0x3;
  0xef; 0xff; 0xff; 0xff; 0xff; 0xff; 0xff; 0xff;
  0xff; 0x50; 0x0; 0x0; 0x0; 0x0; 0x0; 0x0;
  0x2; 0xff; 0xff; 0xff; 0xff; 0xff; 0xff; 0xff;
  0xff; 0xff; 0xff; 0xff; 0xff; 0xff; 0xff; 0xc2;
  0x0; 0x0; 0x0; 0x0; 0x0; 0x0; 0x0; 0x0;
  0x0; 0x0; 0x0; 0x0; 0x0; 0x0; 0x0; 0x0;
  0x0; 0x0; 0x0; 0x0; 0x0; 0x0; 0x0; 0x0;
  0x0; 0x2e; 0xff; 0xff; 0xff; 0xff; 0xff; 0xff;
  0xff; 0xfd; 0x0; 0x0; 0x0; 0x0; 0x0; 0x0;
  0x0; 0xc; 0xff; 0xff; 0xff; 0xff; 0xff; 0xff;
  0xff; 0xff; 0xff; 0xff; 0xff; 0xff; 0xff; 0xf8;
  0x0; 0x0; 0x0; 0x0; 0x0; 0x0; 0x0; 0x0;
  0x0; 0x0; 0x0; 0x0; 0x0; 0x0; 0x0; 0x0;
  0x0; 0x0; 0x0; 0x0; 0x0; 0x0; 0x0; 0x0;
  0x0; 0x0; 0x2; 0xef; 0xff; 0xff; 0xff; 0xff;
  0xff; 0xff; 0xf3; 0x0; 0x0; 0x0; 0x0; 0x0;
  0x0; 0x0; 0x7f; 0xff; 0xff; 0xff; 0xff; 0xff;
  0xff; 0xff; 0xff; 0xff; 0xff; 0xff; 0xff; 0xfe;
  0x40; 0x0; 0x0; 0x0; 0x0; 0x0; 0x0; 0x0;
  0x0; 0x0; 0x0; 0x0; 0x0; 0x0; 0x0; 0x0;
  0x0; 0x0; 0x0; 0x0; 0x0; 0x0; 0x0; 0x0;
  0x0; 0x0; 0x0; 0x0; 0x1c; 0xff; 0xff; 0xff;
  0xff; 0xff; 0xff; 0x70; 0x0; 0x0; 0x0; 0x0;
  0x0; 0x0; 0x2; 0xff; 0xff; 0xff; 0xff; 0xff;
  0xff; 0xff; 0xff; 0xff; 0xff; 0xff; 0xff; 0xff;
  0xd2; 0x0; 0x0; 0x0; 0x0; 0x0; 0x0; 0x0;
  0x0; 0x0; 0x0; 0x0; 0x0; 0x0; 0x0; 0x0;
  0x0; 0x0; 0x0; 0x0; 0x0; 0x0; 0x0; 0x0;
  0x0; 0x0; 0x0; 0x0; 0x0; 0x0; 0x8f; 0xff;
  0xff; 0xff; 0xff; 0xf6; 0x0; 0x0; 0x0; 0x0;
  0x0; 0x0; 0x0; 0xc; 0xff; 0xff; 0xff; 0xff;
  0xff; 0xff; 0xff; 0xff; 0xff; 0xff; 0xff; 0xff;
  0xfb; 0x10; 0x0; 0x0; 0x0; 0x0; 0x0; 0x0;
  0x0; 0x0; 0x0; 0x0; 0x0; 0x0; 0x0; 0x0;
  0x0; 0x0; 0x0; 0x0; 0x0; 0x0; 0x0; 0x0;
  0x0; 0x0; 0x0; 0x0; 0x0; 0x0; 0x0; 0x1;
  0x8c; 0xff; 0xff; 0xe9; 0x20; 0x0; 0x0; 0x0;
  0x0; 0x0; 0x0; 0x0; 0x5f; 0xff; 0xff; 0xff;
  0xff; 0xff; 0xff; 0xff; 0xff; 0xff; 0xff; 0xff;
  0xff; 0xb0; 0x0; 0x0; 0x0; 0x0; 0x0; 0x0;
  0x0; 0x0; 0x0; 0x0; 0x0; 0x0; 0x0; 0x0;
  0x0; 0x0; 0x0; 0x0; 0x0; 0x0; 0x0; 0x0;
  0x0; 0x0; 0x0; 0x0; 0x0; 0x0; 0x0; 0x0;
  0x0; 0x0; 0x1; 0x11; 0x0; 0x0; 0x0; 0x0;
  0x0; 0x0; 0x0; 0x0; 0x0; 0xef; 0xff; 0xff;
  0xff; 0xff; 0xff; 0xff; 0xff; 0xff; 0xff; 0xff;
  0xff; 0xfa; 0x0; 0x0; 0x0; 0x0; 0x0; 0x0;
  0x0; 0x0; 0x0; 0x0; 0x0; 0x0; 0x0; 0x0;
  0x0; 0x0; 0x0; 0x0; 0x0; 0x0; 0x0; 0x0;
  0x0; 0x0; 0x0; 0x0; 0x0; 0x0; 0x0; 0x0;
  0x0; 0x0; 0x0; 0x0; 0x0; 0x0; 0x0; 0x0;
  0x0; 0x0; 0x0; 0x0; 0x0; 0x7; 0xff; 0xff;
  0xff; 0xff; 0xff; 0xff; 0xff; 0xff; 0xff; 0xff;
  0xff; 0xff; 0xb0; 0x0; 0x0; 0x0; 0x0; 0x0;
  0x0; 0x0; 0x0; 0x0; 0x0; 0x0; 0x0; 0x0;
  0x0; 0x0; 0x0; 0x0; 0x0; 0x0; 0x0; 0x0;
  0x0; 0x0; 0x0; 0x0; 0x0; 0x0; 0x0; 0x0;
  0x0; 0x0; 0x0; 0x0; 0x0; 0x0; 0x0; 0x0;
  0x0; 0x0; 0x0; 0x0; 0x0; 0x0; 0x1f; 0xff;
  0xff; 0xff; 0xff; 0xff; 0xff; 0xff; 0xff; 0xff;
  0xff; 0xff; 0xfc; 0x0; 0x0; 0x0; 0x0; 0x0;
  0x0; 0x0; 0x0; 0x0; 0x0; 0x0; 0x0; 0x0;
  0x0; 0x0; 0x0; 0x0; 0x0; 0x0; 0x0; 0x0;
  0x0; 0x0; 0x0; 0x0; 0x0; 0x0; 0x0; 0x0;
  0x0; 0x0; 0x0; 0x0; 0x0; 0x0; 0x0; 0x0;
  0x0; 0x0; 0x0; 0x0; 0x0; 0x0; 0x0; 0x8f;
  0xff; 0xff; 0xff; 0xff; 0xff; 0xff; 0xff; 0xff;
  0xff; 0xff; 0xff; 0xe1; 0x0; 0x0; 0x0; 0x0;
  0x0; 0x0; 0x0; 0x0; 0x0; 0x0; 0x0; 0x0;
  0x0; 0x0; 0x0; 0x0; 0x0; 0x0; 0x0; 0x0;
  0x0; 0x0; 0x0; 0x0; 0x0; 0x0; 0x0; 0x0;
  0x0; 0x0; 0x0; 0x0; 0x0; 0x0; 0x0; 0x0;
  0x0; 0x0; 0x0; 0x0; 0x0; 0x0; 0x0; 0x1;
  0xff; 0xff; 0xff; 0xff; 0xff; 0xff; 0xff; 0xff;
  0xff; 0xff; 0xff; 0xff; 0x30; 0x0; 0x0; 0x0;
  0x0; 0x0; 0x0; 0x0; 0x0; 0x0; 0x0; 0x0;
  0x0; 0x0; 0x0; 0x0; 0x0; 0x0; 0x0; 0x0;
  0x0; 0x0; 0x0; 0x0; 0x0; 0x0; 0x0; 0x0;
  0x0; 0x0; 0x0; 0x0; 0x0; 0x0; 0x0; 0x0;
  0x0; 0x0; 0x0; 0x0; 0x0; 0x0; 0x0; 0x0;
  0x8; 0xff; 0xff; 0xff; 0xff; 0xff; 0xff; 0xff;
  0xff; 0xff; 0xff; 0xff; 0xf6; 0x0; 0x0; 0x0;
  0x0; 0x0; 0x0; 0x0; 0x0; 0x0; 0x0; 0x0;
  0x0; 0x0; 0x0; 0x0; 0x0; 0x0; 0x0; 0x0;
  0x0; 0x0; 0x0; 0x0; 0x0; 0x0; 0x0; 0x0;
  0x0; 0x0; 0x0; 0x0; 0x0; 0x0; 0x0; 0x0;
  0x0; 0x0; 0x0; 0x0; 0x0; 0x0; 0x0; 0x0;
  0x0; 0xe; 0xff; 0xff; 0xff; 0xff; 0xff; 0xff;
  0xff; 0xff; 0xff; 0xff; 0xff; 0xa0; 0x0; 0x0;
  0x0; 0x0; 0x0; 0x0; 0x0; 0x0; 0x0; 0x0;
  0x0; 0x0; 0x0; 0x0; 0x0; 0x0; 0x0; 0x0;
  0x0; 0x0; 0x0; 0x0; 0x0; 0x0; 0x0; 0x0;
  0x0; 0x0; 0x0; 0x0; 0x0; 0x0; 0x0; 0x0;
  0x0; 0x0; 0x0; 0x0; 0x0; 0x0; 0x0; 0x0;
  0x0; 0x0; 0x6f; 0xff; 0xff; 0xff; 0xff; 0xff;
  0xff; 0xff; 0xff; 0xff; 0xff; 0xfe; 0x10; 0x0;
  0x0; 0x0; 0x0; 0x0; 0x0; 0x0; 0x0; 0x0;
  0x0; 0x0; 0x0; 0x0; 0x0; 0x0; 0x0; 0x0;
  0x0; 0x0; 0x0; 0x0; 0x0; 0x0; 0x0; 0x0 ].

Definition quicksand256_bitmap_11 : list Z :=
  [ 0x0; 0x0; 0x0; 0x0; 0x0; 0x0; 0x0; 0x0;
  0x0; 0x0; 0x0; 0x0; 0x0; 0x0; 0x0; 0x0;
  0x0; 0x0; 0x0; 0xdf; 0xff; 0xff; 0xff; 0xff;
  0xff; 0xff; 0xff; 0xff; 0xff; 0xff; 0xf5; 0x0;
  0x0; 0x0; 0x0; 0x0; 0x0; 0x0; 0x0; 0x0;
  0x0; 0x0; 0x0; 0x0; 0x0; 0x0; 0x0; 0x0;
  0x0; 0x0; 0x0; 0x0; 0x0; 0x0; 0x0; 0x0;
  0x0; 0x0; 0x0; 0x0; 0x0; 0x0; 0x0; 0x0;
  0x0; 0x0; 0x0; 0x0; 0x0; 0x0; 0x0; 0x0;
  0x0; 0x0; 0x0; 0x3; 0xff; 0xff; 0xff; 0xff;
  0xff; 0xff; 0xff; 0xff; 0xff; 0xff; 0xff; 0xb0;
  0x0; 0x0; 0x0; 0x0; 0x0; 0x0; 0x0; 0x0;
  0x0; 0x0; 0x0; 0x0; 0x0; 0x0; 0x0; 0x0;
  0x0; 0x0; 0x0; 0x0; 0x0; 0x0; 0x0; 0x0;
  0x0; 0x0; 0x0; 0x0; 0x0; 0x0; 0x0; 0x0;
  0x0; 0x0; 0x0; 0x0; 0x0; 0x0; 0x0; 0x0;
  0x0; 0x0; 0x0; 0x0; 0x9; 0xff; 0xff; 0xff;
  0xff; 0xff; 0xff; 0xff; 0xff; 0xff; 0xff; 0xff;
  0x20; 0x0; 0x0; 0x0; 0x0; 0x0; 0x0; 0x0;
  0x0; 0x0; 0x0; 0x0; 0x0; 0x0; 0x0; 0x0;
  0x0; 0x0; 0x0; 0x0; 0x0; 0x0; 0x0; 0x0;
  0x0; 0x0; 0x0; 0x0; 0x0; 0x0; 0x0; 0x0;
  0x0; 0x0; 0x0; 0x0; 0x0; 0x0; 0x0; 0x0;
  0x0; 0x0; 0x0; 0x0; 0x0; 0xe; 0xff; 0xff;
  0xff; 0xff; 0xff; 0xff; 0xff; 0xff; 0xff; 0xff;
  0xf8; 0x0; 0x0; 0x0; 0x0; 0x0; 0x0; 0x0;
  0x0; 0x0; 0x0; 0x0; 0x0; 0x0; 0x0; 0x0;
  0x0; 0x0; 0x0; 0x0; 0x0; 0x0; 0x0; 0x0;
  0x0; 0x0; 0x0; 0x0; 0x0; 0x0; 0x0; 0x0;
  0x0; 0x0; 0x0; 0x0; 0x0; 0x0; 0x0; 0x0;
  0x0; 0x0; 0x0; 0x0; 0x0; 0x0; 0x4f; 0xff;
  0xff; 0xff; 0xff; 0xff; 0xff; 0xff; 0xff; 0xff;
  0xff; 0xf1; 0x0; 0x0; 0x0; 0x0; 0x0; 0x0;
  0x0; 0x0; 0x0; 0x0; 0x0; 0x0; 0x0; 0x0;
  0x0; 0x0; 0x0; 0x0; 0x0; 0x0; 0x0; 0x0;
  0x0; 0x0; 0x0; 0x0; 0x0; 0x0; 0x0; 0x0;
  0x0; 0x0; 0x0; 0x0; 0x0; 0x0; 0x0; 0x0;
  0x0; 0x0; 0x0; 0x0; 0x0; 0x0; 0x0; 0xaf;
  0xff; 0xff; 0xff; 0xff; 0xff; 0xff; 0xff; 0xff;
  0xff; 0xff; 0x70; 0x0; 0x0; 0x0; 0x0; 0x0;
  0x0; 0x0; 0x0; 0x0; 0x0; 0x0; 0x0; 0x0;
  0x0; 0x0; 0x0; 0x0; 0x0; 0x0; 0x0; 0x0;
  0x0; 0x0; 0x0; 0x0; 0x0; 0x0; 0x0; 0x0;
  0x0; 0x0; 0x0; 0x0; 0x0; 0x0; 0x0; 0x0;
  0x0; 0x0; 0x0; 0x0; 0x0; 0x0; 0x0; 0x0;
  0xef; 0xff; 0xff; 0xff; 0xff; 0xff; 0xff; 0xff;
  0xff; 0xff; 0xff; 0x10; 0x0; 0x0; 0x0; 0x0;
  0x0; 0x0; 0x0; 0x0; 0x0; 0x0; 0x0; 0x0;
  0x0; 0x0; 0x0; 0x0; 0x0; 0x0; 0x0; 0x0;
  0x0; 0x0; 0x0; 0x0; 0x0; 0x0; 0x0; 0x0;
  0x0; 0x0; 0x0; 0x0; 0x0; 0x0; 0x0; 0x0;
  0x0; 0x0; 0x0; 0x0; 0x0; 0x0; 0x0; 0x0;
  0x3; 0xff; 0xff; 0xff; 0xff; 0xff; 0xff; 0xff;
  0xff; 0xff; 0xff; 0xf9; 0x0; 0x0; 0x0; 0x0;
  0x0; 0x0; 0x0; 0x0; 0x0; 0x0; 0x0; 0x0;
  0x0; 0x0; 0x0; 0x0; 0x0; 0x0; 0x0; 0x0;
  0x0; 0x0; 0x0; 0x0; 0x0; 0x0; 0x0; 0x0;
  0x0; 0x0; 0x0; 0x0; 0x0; 0x0; 0x0; 0x0;
  0x0; 0x0; 0x0; 0x0; 0x0; 0x0; 0x0; 0x0;
  0x0; 0x8; 0xff; 0xff; 0xff; 0xff; 0xff; 0xff;
  0xff; 0xff; 0xff; 0xff; 0xf2; 0x0; 0x0; 0x0;
  0x0; 0x0; 0x0; 0x0; 0x0; 0x0; 0x0; 0x0;
  0x0; 0x0; 0x0; 0x0; 0x0; 0x0; 0x0; 0x0;
  0x0; 0x0; 0x0; 0x0; 0x0; 0x0; 0x0; 0x0;
  0x0; 0x0; 0x0; 0x0; 0x0; 0x0; 0x0; 0x0;
  0x0; 0x0; 0x0; 0x0; 0x0; 0x0; 0x0; 0x0;
  0x0; 0x0; 0xc; 0xff; 0xff; 0xff; 0xff; 0xff;
  0xff; 0xff; 0xff; 0xff; 0xff; 0xc0; 0x0; 0x0;
  0x0; 0x0; 0x0; 0x0; 0x0; 0x0; 0x0; 0x0;
  0x0; 0x0; 0x0; 0x0; 0x0; 0x0; 0x0; 0x0;
  0x0; 0x0; 0x0; 0x0; 0x0; 0x0; 0x0; 0x0;
  0x0; 0x0; 0x0; 0x0; 0x0; 0x0; 0x0; 0x0;
  0x0; 0x0; 0x0; 0x0; 0x0; 0x0; 0x0; 0x0;
  0x0; 0x0; 0x0; 0xf; 0xff; 0xff; 0xff; 0xff;
  0xff; 0xff; 0xff; 0xff; 0xff; 0xff; 0x60; 0x0;
  0x0; 0x0; 0x0; 0x0; 0x0; 0x0; 0x0; 0x0;
  0x0; 0x0; 0x0; 0x0; 0x0; 0x0; 0x0; 0x0;
  0x0; 0x0; 0x0; 0x0; 0x0; 0x0; 0x0; 0x0;
  0x0; 0x0; 0x0; 0x0; 0x0; 0x0; 0x0; 0x0;
  0x0; 0x0; 0x0; 0x0; 0x0; 0x0; 0x0; 0x0;
  0x0; 0x0; 0x0; 0x0; 0x4f; 0xff; 0xff; 0xff;
  0xff; 0xff; 0xff; 0xff; 0xff; 0xff; 0xff; 0x0;
  0x0; 0x0; 0x0; 0x0; 0x0; 0x0; 0x0; 0x0;
  0x0; 0x0; 0x0; 0x0; 0x0; 0x0; 0x0; 0x0;
  0x0; 0x0; 0x0; 0x0; 0x0; 0x0; 0x0; 0x0;
  0x0; 0x0; 0x0; 0x0; 0x0; 0x0; 0x0; 0x0;
  0x0; 0x0; 0x0; 0x0; 0x0; 0x0; 0x0; 0x0;
  0x0; 0x0; 0x0; 0x0; 0x0; 0x7f; 0xff; 0xff;
  0xff; 0xff; 0xff; 0xff; 0xff; 0xff; 0xff; 0xfb;
  0x0; 0x0; 0x0; 0x0; 0x0; 0x0; 0x0; 0x0;
  0x0; 0x0; 0x0; 0x0; 0x0; 0x0; 0x0; 0x0;
  0x0; 0x0; 0x0; 0x0; 0x0; 0x0; 0x0; 0x0;
  0x0; 0x0; 0x0; 0x0; 0x0; 0x0; 0x0; 0x0;
  0x0; 0x0; 0x0; 0x0; 0x0; 0x0; 0x0; 0x0;
  0x0; 0x0; 0x0; 0x0; 0x0; 0x0; 0xbf; 0xff;
  0xff; 0xff; 0xff; 0xff; 0xff; 0xff; 0xff; 0xff;
  0xf6; 0x0; 0x0; 0x0; 0x0; 0x0; 0x0; 0x0;
  0x0; 0x0; 0x0; 0x0; 0x0; 0x0; 0x0; 0x0;
  0x0; 0x0; 0x0; 0x0; 0x0; 0x0; 0x0; 0x0;
  0x0; 0x0; 0x0; 0x0; 0x0; 0x0; 0x0; 0x0;
  0x0; 0x0; 0x0; 0x0; 0x0; 0x0; 0x0; 0x0;
  0x0; 0x0; 0x0; 0x0; 0x0; 0x0; 0x0; 0xef;
  0xff; 0xff; 0xff; 0xff; 0xff; 0xff; 0xff; 0xff;
  0xff; 0xf2; 0x0; 0x0; 0x0; 0x0; 0x0; 0x0;
  0x0; 0x0; 0x0; 0x0; 0x0; 0x0; 0x0; 0x0;
  0x0; 0x0; 0x0; 0x0; 0x0; 0x0; 0x0; 0x0;
  0x0; 0x0; 0x0; 0x0; 0x0; 0x0; 0x0; 0x0;
  0x0; 0x0; 0x0; 0x0; 0x0; 0x0; 0x0; 0x0;
  0x0; 0x0; 0x0; 0x0; 0x0; 0x0; 0x0; 0x1;
  0xff; 0xff; 0xff; 0xff; 0xff; 0xff; 0xff; 0xff;
  0xff; 0xff; 0xe0; 0x0; 0x0; 0x0; 0x0; 0x0;
  0x0; 0x0; 0x0; 0x0; 0x0; 0x0; 0x0; 0x0;
  0x0; 0x0; 0x0; 0x0; 0x0; 0x0; 0x0; 0x0;
  0x0; 0x0; 0x0; 0x0; 0x0; 0x0; 0x0; 0x0;
  0x0; 0x0; 0x0; 0x0; 0x0; 0x0; 0x0; 0x0;
  0x0; 0x0; 0x0; 0x0; 0x0; 0x0; 0x0; 0x0;
  0x3; 0xff; 0xff; 0xff; 0xff; 0xff; 0xff; 0xff;
  0xff; 0xff; 0xff; 0xa0; 0x0; 0x0; 0x0; 0x0;
  0x0; 0x0; 0x0; 0x0; 0x0; 0x0; 0x0; 0x0;
  0x0; 0x0; 0x0; 0x0; 0x0; 0x0; 0x0; 0x0;
  0x0; 0x0; 0x0; 0x0; 0x0; 0x0; 0x0; 0x0;
  0x0; 0x0; 0x0; 0x0; 0x0; 0x0; 0x0; 0x0;
  0x0; 0x0; 0x0; 0x0; 0x0; 0x0; 0x0; 0x0;
  0x0; 0x6; 0xff; 0xff; 0xff; 0xff; 0xff; 0xff;
  0xff; 0xff; 0xff; 0xff; 0x60; 0x0; 0x0; 0x0;
  0x0; 0x0; 0x0; 0x0; 0x0; 0x0; 0x0; 0x0;
  0x0; 0x0; 0x0; 0x0; 0x0; 0x0; 0x0; 0x0;
  0x0; 0x0; 0x0; 0x0; 0x0; 0x0; 0x0; 0x0;
  0x0; 0x0; 0x0; 0x0; 0x0; 0x0; 0x0; 0x0;
  0x0; 0x0; 0x0; 0x0; 0x0; 0x0; 0x0; 0x0;
  0x0; 0x0; 0x8; 0xff; 0xff; 0xff; 0xff; 0xff;
  0xff; 0xff; 0xff; 0xff; 0xff; 0x30; 0x0; 0x0;
  0x0; 0x0; 0x0; 0x0; 0x0; 0x0; 0x0; 0x0;
  0x0; 0x0; 0x0; 0x0; 0x0; 0x0; 0x0; 0x0;
  0x0; 0x0; 0x0; 0x0; 0x0; 0x0; 0x0; 0x0;
  0x0; 0x0; 0x0; 0x0; 0x0; 0x0; 0x0; 0x0;
  0x0; 0x0; 0x0; 0x0; 0x0; 0x0; 0x0; 0x0;
  0x0; 0x0; 0x0; 0xa; 0xff; 0xff; 0xff; 0xff;
  0xff; 0xff; 0xff; 0xff; 0xff; 0xff; 0x0; 0x0;
  0x0; 0x0; 0x0; 0x0; 0x0; 0x0; 0x0; 0x0;
  0x0; 0x0; 0x0; 0x0; 0x0; 0x0; 0x0; 0x0;
  0x0; 0x0; 0x0; 0x0; 0x0; 0x0; 0x0; 0x0;
  0x0; 0x0; 0x0; 0x0; 0x0; 0x0; 0x0; 0x0;
  0x0; 0x0; 0x0; 0x0; 0x0; 0x0; 0x0; 0x0;
  0x0; 0x0; 0x0; 0x0; 0xc; 0xff; 0xff; 0xff;
  0xff; 0xff; 0xff; 0xff; 0xff; 0xff; 0xfe; 0x0;
  0x0; 0x0; 0x0; 0x0; 0x0; 0x0; 0x0; 0x0;
  0x0; 0x0; 0x0; 0x0; 0x0; 0x0; 0x0; 0x0;
  0x0; 0x0; 0x0; 0x0; 0x0; 0x0; 0x0; 0x0;
  0x0; 0x0; 0x0; 0x0; 0x0; 0x0; 0x0; 0x0 ].

Definition quicksand256_bitmap_12 : list Z :=
  [ 0x0; 0x0; 0x0; 0x0; 0x0; 0x0; 0x0; 0x0;
  0x0; 0x0; 0x0; 0x0; 0x0; 0xd; 0xff; 0xff;
  0xff; 0xff; 0xff; 0xff; 0xff; 0xff; 0xff; 0xfc;
  0x0; 0x0; 0x0; 0x0; 0x0; 0x0; 0x0; 0x0;
  0x0; 0x0; 0x0; 0x0; 0x0; 0x0; 0x0; 0x0;
  0x0; 0x0; 0x0; 0x0; 0x0; 0x0; 0x0; 0x0;
  0x0; 0x0; 0x0; 0x0; 0x0; 0x0; 0x0; 0x0;
  0x0; 0x0; 0x0; 0x0; 0x0; 0x0; 0x0; 0x0;
  0x0; 0x0; 0x0; 0x0; 0x0; 0x0; 0xf; 0xff;
  0xff; 0xff; 0xff; 0xff; 0xff; 0xff; 0xff; 0xff;
  0xfa; 0x0; 0x0; 0x0; 0x0; 0x0; 0x0; 0x0;
  0x0; 0x0; 0x0; 0x0; 0x0; 0x0; 0x0; 0x0;
  0x0; 0x0; 0x0; 0x0; 0x0; 0x0; 0x0; 0x0;
  0x0; 0x0; 0x0; 0x0; 0x0; 0x0; 0x0; 0x0;
  0x0; 0x0; 0x0; 0x0; 0x0; 0x0; 0x0; 0x0;
  0x0; 0x0; 0x0; 0x0; 0x0; 0x0; 0x0; 0xf;
  0xff; 0xff; 0xff; 0xff; 0xff; 0xff; 0xff; 0xff;
  0xff; 0xf8; 0x0; 0x0; 0x0; 0x0; 0x0; 0x0;
  0x0; 0x0; 0x0; 0x0; 0x0; 0x0; 0x0; 0x0;
  0x0; 0x0; 0x0; 0x0; 0x0; 0x0; 0x0; 0x0;
  0x0; 0x0; 0x0; 0x0; 0x0; 0x0; 0x0; 0x0;
  0x0; 0x0; 0x0; 0x0; 0x0; 0x0; 0x0; 0x0;
  0x0; 0x0; 0x0; 0x0; 0x0; 0x0; 0x0; 0x0;
  0x1f; 0xff; 0xff; 0xff; 0xff; 0xff; 0xff; 0xff;
  0xff; 0xff; 0xf7; 0x0; 0x0; 0x0; 0x0; 0x0;
  0x0; 0x0; 0x0; 0x0; 0x0; 0x0; 0x0; 0x0;
  0x0; 0x0; 0x0; 0x0; 0x0; 0x0; 0x0; 0x0;
  0x0; 0x0; 0x0; 0x0; 0x0; 0x0; 0x0; 0x0;
  0x0; 0x0; 0x0; 0x0; 0x0; 0x0; 0x0; 0x0;
  0x0; 0x0; 0x0; 0x0; 0x0; 0x0; 0x0; 0x0;
  0x0; 0x2f; 0xff; 0xff; 0xff; 0xff; 0xff; 0xff;
  0xff; 0xff; 0xff; 0xf6; 0x0; 0x0; 0x0; 0x0;
  0x0; 0x0; 0x0; 0x0; 0x0; 0x0; 0x0; 0x0;
  0x0; 0x0; 0x0; 0x0; 0x0; 0x0; 0x0; 0x0;
  0x0; 0x0; 0x0; 0x0; 0x0; 0x0; 0x0; 0x0;
  0x0; 0x0; 0x0; 0x0; 0x0; 0x0; 0x0; 0x0;
  0x0; 0x0; 0x0; 0x0; 0x0; 0x0; 0x0; 0x0;
  0x0; 0x0; 0x2f; 0xff; 0xff; 0xff; 0xff; 0xff;
  0xff; 0xff; 0xff; 0xff; 0xf5; 0x0; 0x0; 0x0;
  0x0; 0x0; 0x0; 0x0; 0x0; 0x0; 0x0; 0x0;
  0x0; 0x0; 0x0; 0x0; 0x0; 0x0; 0x0; 0x0;
  0x0; 0x0; 0x0; 0x0; 0x0; 0x0; 0x0; 0x0;
  0x0; 0x0; 0x0; 0x0; 0x0; 0x0; 0x0; 0x0;
  0x0; 0x0; 0x0; 0x0; 0x0; 0x0; 0x0; 0x0;
  0x0; 0x0; 0x0; 0x3f; 0xff; 0xff; 0xff; 0xff;
  0xff; 0xff; 0xff; 0xff; 0xff; 0xf4; 0x0; 0x0;
  0x0; 0x0; 0x0; 0x0; 0x0; 0x0; 0x0; 0x0;
  0x0; 0x0; 0x0; 0x0; 0x0; 0x0; 0x0; 0x0;
  0x0; 0x0; 0x0; 0x0; 0x0; 0x0; 0x0; 0x0;
  0x0; 0x0; 0x0; 0x0; 0x0; 0x0; 0x0; 0x0;
  0x0; 0x0; 0x0; 0x0; 0x0; 0x0; 0x0; 0x0;
  0x0; 0x0; 0x0; 0x0; 0x3f; 0xff; 0xff; 0xff;
  0xff; 0xff; 0xff; 0xff; 0xff; 0xff; 0xf4; 0x0;
  0x0; 0x0; 0x0; 0x0; 0x0; 0x0; 0x0; 0x0;
  0x0; 0x0; 0x0; 0x0; 0x0; 0x0; 0x0; 0x0;
  0x0; 0x0; 0x0; 0x0; 0x0; 0x0; 0x0; 0x0;
  0x0; 0x0; 0x0; 0x0; 0x0; 0x0; 0x0; 0x0;
  0x0; 0x0; 0x0; 0x0; 0x0; 0x0; 0x0; 0x0;
  0x0; 0x0; 0x0; 0x0; 0x0; 0x3f; 0xff; 0xff;
  0xff; 0xff; 0xff; 0xff; 0xff; 0xff; 0xff; 0xf4;
  0x0; 0x0; 0x0; 0x0; 0x0; 0x0; 0x0; 0x0;
  0x0; 0x0; 0x0; 0x0; 0x0; 0x0; 0x0; 0x0;
  0x0; 0x0; 0x0; 0x0; 0x0; 0x0; 0x0; 0x0;
  0x0; 0x0; 0x0; 0x0; 0x0; 0x0; 0x0; 0x0;
  0x0; 0x0; 0x0; 0x0; 0x0; 0x0; 0x0; 0x0;
  0x0; 0x0; 0x0; 0x0; 0x0; 0x0; 0x3f; 0xff;
  0xff; 0xff; 0xff; 0xff; 0xff; 0xff; 0xff; 0xff;
  0xf4; 0x0; 0x0; 0x0; 0x0; 0x0; 0x0; 0x0;
  0x0; 0x0; 0x0; 0x0; 0x0; 0x0; 0x0; 0x0;
  0x0; 0x0; 0x0; 0x0; 0x0; 0x0; 0x0; 0x0;
  0x0; 0x0; 0x0; 0x0; 0x0; 0x0; 0x0; 0x0;
  0x0; 0x0; 0x0; 0x0; 0x0; 0x0; 0x0; 0x0;
  0x0; 0x0; 0x0; 0x0; 0x0; 0x0; 0x0; 0x3f;
  0xff; 0xff; 0xff; 0xff; 0xff; 0xff; 0xff; 0xff;
  0xff; 0xf4; 0x0; 0x0; 0x0; 0x0; 0x0; 0x0;
  0x0; 0x0; 0x0; 0x0; 0x0; 0x0; 0x0; 0x0;
  0x0; 0x0; 0x0; 0x0; 0x0; 0x0; 0x0; 0x0;
  0x0; 0x0; 0x0; 0x0; 0x0; 0x0; 0x0; 0x0;
  0x0; 0x0; 0x0; 0x0; 0x0; 0x0; 0x0; 0x0;
  0x0; 0x0; 0x0; 0x0; 0x0; 0x0; 0x0; 0x0;
  0x2f; 0xff; 0xff; 0xff; 0xff; 0xff; 0xff; 0xff;
  0xff; 0xff; 0xf5; 0x0; 0x0; 0x0; 0x0; 0x0;
  0x0; 0x0; 0x0; 0x0; 0x0; 0x0; 0x0; 0x0;
  0x0; 0x0; 0x0; 0x0; 0x0; 0x0; 0x0; 0x0;
  0x0; 0x0; 0x0; 0x0; 0x0; 0x0; 0x0; 0x0;
  0x0; 0x0; 0x0; 0x0; 0x0; 0x0; 0x0; 0x0;
  0x0; 0x0; 0x0; 0x0; 0x0; 0x0; 0x0; 0x0;
  0x0; 0x2f; 0xff; 0xff; 0xff; 0xff; 0xff; 0xff;
  0xff; 0xff; 0xff; 0xf5; 0x0; 0x0; 0x0; 0x0;
  0x0; 0x0; 0x0; 0x0; 0x0; 0x0; 0x0; 0x0;
  0x0; 0x0; 0x0; 0x0; 0x0; 0x0; 0x0; 0x0;
  0x0; 0x0; 0x0; 0x0; 0x0; 0x0; 0x0; 0x0;
  0x0; 0x0; 0x0; 0x0; 0x0; 0x0; 0x0; 0x0;
  0x0; 0x0; 0x0; 0x0; 0x0; 0x0; 0x0; 0x0;
  0x0; 0x0; 0x1f; 0xff; 0xff; 0xff; 0xff; 0xff;
  0xff; 0xff; 0xff; 0xff; 0xf6; 0x0; 0x0; 0x0;
  0x0; 0x0; 0x0; 0x0; 0x0; 0x0; 0x0; 0x0;
  0x0; 0x0; 0x0; 0x0; 0x0; 0x0; 0x0; 0x0;
  0x0; 0x0; 0x0; 0x0; 0x0; 0x0; 0x0; 0x0;
  0x0; 0x0; 0x0; 0x0; 0x0; 0x0; 0x0; 0x0;
  0x0; 0x0; 0x0; 0x0; 0x0; 0x0; 0x0; 0x0;
  0x0; 0x0; 0x0; 0xf; 0xff; 0xff; 0xff; 0xff;
  0xff; 0xff; 0xff; 0xff; 0xff; 0xf8; 0x0; 0x0;
  0x0; 0x0; 0x0; 0x0; 0x0; 0x0; 0x0; 0x0;
  0x0; 0x0; 0x0; 0x0; 0x0; 0x0; 0x0; 0x0;
  0x0; 0x0; 0x0; 0x0; 0x0; 0x0; 0x0; 0x0;
  0x0; 0x0; 0x0; 0x0; 0x0; 0x0; 0x0; 0x0;
  0x0; 0x0; 0x0; 0x0; 0x0; 0x0; 0x0; 0x0;
  0x0; 0x0; 0x0; 0x0; 0xf; 0xff; 0xff; 0xff;
  0xff; 0xff; 0xff; 0xff; 0xff; 0xff; 0xf9; 0x0;
  0x0; 0x0; 0x0; 0x0; 0x0; 0x0; 0x0; 0x0;
  0x0; 0x0; 0x0; 0x0; 0x0; 0x0; 0x0; 0x0;
  0x0; 0x0; 0x0; 0x0; 0x0; 0x0; 0x0; 0x0;
  0x0; 0x0; 0x0; 0x0; 0x0; 0x0; 0x0; 0x0;
  0x0; 0x0; 0x0; 0x0; 0x0; 0x0; 0x0; 0x0;
  0x0; 0x0; 0x0; 0x0; 0x0; 0xd; 0xff; 0xff;
  0xff; 0xff; 0xff; 0xff; 0xff; 0xff; 0xff; 0xfb;
  0x0; 0x0; 0x0; 0x0; 0x0; 0x0; 0x0; 0x0;
  0x0; 0x0; 0x0; 0x0; 0x0; 0x0; 0x0; 0x0;
  0x0; 0x0; 0x0; 0x0; 0x0; 0x0; 0x0; 0x0;
  0x0; 0x0; 0x0; 0x0; 0x0; 0x0; 0x0; 0x0;
  0x0; 0x0; 0x0; 0x0; 0x0; 0x0; 0x0; 0x0;
  0x0; 0x0; 0x0; 0x0; 0x0; 0x0; 0xc; 0xff;
  0xff; 0xff; 0xff; 0xff; 0xff; 0xff; 0xff; 0xff;
  0xfd; 0x0; 0x0; 0x0; 0x0; 0x0; 0x0; 0x0;
  0x0; 0x0; 0x0; 0x0; 0x0; 0x0; 0x0; 0x0;
  0x0; 0x0; 0x0; 0x0; 0x0; 0x0; 0x0; 0x0;
  0x0; 0x0; 0x0; 0x0; 0x0; 0x0; 0x0; 0x0;
  0x0; 0x0; 0x0; 0x0; 0x0; 0x0; 0x0; 0x0;
  0x0; 0x0; 0x0; 0x0; 0x0; 0x0; 0x0; 0xa;
  0xff; 0xff; 0xff; 0xff; 0xff; 0xff; 0xff; 0xff;
  0xff; 0xff; 0x0; 0x0; 0x0; 0x0; 0x0; 0x0;
  0x0; 0x0; 0x0; 0x0; 0x0; 0x0; 0x0; 0x0;
  0x0; 0x0; 0x0; 0x0; 0x0; 0x0; 0x0; 0x0;
  0x0; 0x0; 0x0; 0x0; 0x0; 0x0; 0x0; 0x0;
  0x0; 0x0; 0x0; 0x0; 0x0; 0x0; 0x0; 0x0;
  0x0; 0x0; 0x0; 0x0; 0x0; 0x0; 0x0; 0x0;
  0x8; 0xff; 0xff; 0xff; 0xff; 0xff; 0xff; 0xff;
  0xff; 0xff; 0xff; 0x30; 0x0; 0x0; 0x0; 0x0;
  0x0; 0x0; 0x0; 0x0; 0x0; 0x0; 0x0; 0x0;
  0x0; 0x0; 0x0; 0x0; 0x0; 0x0; 0x0; 0x0;
  0x0; 0x0; 0x0; 0x0; 0x0; 0x0; 0x0; 0x0;
  0x0; 0x0; 0x0; 0x0; 0x0; 0x0; 0x0; 0x0;
  0x0; 0x0; 0x0; 0x0; 0x0; 0x0; 0x0; 0x0;
  0x0; 0x6; 0xff; 0xff; 0xff; 0xff; 0xff; 0xff;
  0xff; 0xff; 0xff; 0xff; 0x50; 0x0; 0x0; 0x0;
  0x0; 0x0; 0x0; 0x0; 0x0; 0x0; 0x0; 0x0;
  0x0; 0x0; 0x0; 0x0; 0x0; 0x0; 0x0; 0x0;
  0x0; 0x0; 0x0; 0x0; 0x0; 0x0; 0x0; 0x0;
  0x0; 0x0; 0x0; 0x0; 0x0; 0x0; 0x0; 0x0 ].

Definition quicksand256_bitmap_13 : list Z :=
  [ 0x0; 0x0; 0x0; 0x0; 0x0; 0x0; 0x0; 0x0;
  0x0; 0x0; 0x4; 0xff; 0xff; 0xff; 0xff; 0xff;
  0xff; 0xff; 0xff; 0xff; 0xff; 0x90; 0x0; 0x0;
  0x0; 0x0; 0x0; 0x0; 0x0; 0x0; 0x0; 0x0;
  0x0; 0x0; 0x0; 0x0; 0x0; 0x0; 0x0; 0x0;
  0x0; 0x0; 0x0; 0x0; 0x0; 0x0; 0x0; 0x0;
  0x0; 0x0; 0x0; 0x0; 0x0; 0x0; 0x0; 0x0;
  0x0; 0x0; 0x0; 0x0; 0x0; 0x0; 0x0; 0x0;
  0x0; 0x0; 0x0; 0x1; 0xff; 0xff; 0xff; 0xff;
  0xff; 0xff; 0xff; 0xff; 0xff; 0xff; 0xc0; 0x0;
  0x0; 0x0; 0x0; 0x0; 0x0; 0x0; 0x0; 0x0;
  0x0; 0x0; 0x0; 0x0; 0x0; 0x0; 0x0; 0x0;
  0x0; 0x0; 0x0; 0x0; 0x0; 0x0; 0x0; 0x0;
  0x0; 0x0; 0x0; 0x0; 0x0; 0x0; 0x0; 0x0;
  0x0; 0x0; 0x0; 0x0; 0x0; 0x0; 0x0; 0x0;
  0x0; 0x0; 0x0; 0x0; 0x0; 0xef; 0xff; 0xff;
  0xff; 0xff; 0xff; 0xff; 0xff; 0xff; 0xff; 0xf0;
  0x0; 0x0; 0x0; 0x0; 0x0; 0x0; 0x0; 0x0;
  0x0; 0x0; 0x0; 0x0; 0x0; 0x0; 0x0; 0x0;
  0x0; 0x0; 0x0; 0x0; 0x0; 0x0; 0x0; 0x0;
  0x0; 0x0; 0x0; 0x0; 0x0; 0x0; 0x0; 0x0;
  0x0; 0x0; 0x0; 0x0; 0x0; 0x0; 0x0; 0x0;
  0x0; 0x0; 0x0; 0x0; 0x0; 0x0; 0xcf; 0xff;
  0xff; 0xff; 0xff; 0xff; 0xff; 0xff; 0xff; 0xff;
  0xf5; 0x0; 0x0; 0x0; 0x0; 0x0; 0x0; 0x0;
  0x0; 0x0; 0x0; 0x0; 0x0; 0x0; 0x0; 0x0;
  0x0; 0x0; 0x0; 0x0; 0x0; 0x0; 0x0; 0x0;
  0x0; 0x0; 0x0; 0x0; 0x0; 0x0; 0x0; 0x0;
  0x0; 0x0; 0x0; 0x0; 0x0; 0x0; 0x0; 0x0;
  0x0; 0x0; 0x0; 0x0; 0x0; 0x0; 0x0; 0x8f;
  0xff; 0xff; 0xff; 0xff; 0xff; 0xff; 0xff; 0xff;
  0xff; 0xf9; 0x0; 0x0; 0x0; 0x0; 0x0; 0x0;
  0x0; 0x0; 0x0; 0x0; 0x0; 0x0; 0x0; 0x0;
  0x0; 0x0; 0x0; 0x0; 0x0; 0x0; 0x0; 0x0;
  0x0; 0x0; 0x0; 0x0; 0x0; 0x0; 0x0; 0x0;
  0x0; 0x0; 0x0; 0x0; 0x0; 0x0; 0x0; 0x0;
  0x0; 0x0; 0x0; 0x0; 0x0; 0x0; 0x0; 0x0;
  0x5f; 0xff; 0xff; 0xff; 0xff; 0xff; 0xff; 0xff;
  0xff; 0xff; 0xfe; 0x0; 0x0; 0x0; 0x0; 0x0;
  0x0; 0x0; 0x0; 0x0; 0x0; 0x0; 0x0; 0x0;
  0x0; 0x0; 0x0; 0x0; 0x0; 0x0; 0x0; 0x0;
  0x0; 0x0; 0x0; 0x0; 0x0; 0x0; 0x0; 0x0;
  0x0; 0x0; 0x0; 0x0; 0x0; 0x0; 0x0; 0x0;
  0x0; 0x0; 0x0; 0x0; 0x0; 0x0; 0x0; 0x0;
  0x0; 0x1f; 0xff; 0xff; 0xff; 0xff; 0xff; 0xff;
  0xff; 0xff; 0xff; 0xff; 0x30; 0x0; 0x0; 0x0;
  0x0; 0x0; 0x0; 0x0; 0x0; 0x0; 0x0; 0x0;
  0x0; 0x0; 0x0; 0x0; 0x0; 0x0; 0x0; 0x0;
  0x0; 0x0; 0x0; 0x0; 0x0; 0x0; 0x0; 0x0;
  0x0; 0x0; 0x0; 0x0; 0x0; 0x0; 0x0; 0x0;
  0x0; 0x0; 0x0; 0x0; 0x0; 0x0; 0x0; 0x0;
  0x0; 0x0; 0xe; 0xff; 0xff; 0xff; 0xff; 0xff;
  0xff; 0xff; 0xff; 0xff; 0xff; 0x90; 0x0; 0x0;
  0x0; 0x0; 0x0; 0x0; 0x0; 0x0; 0x0; 0x0;
  0x0; 0x0; 0x0; 0x0; 0x0; 0x0; 0x0; 0x0;
  0x0; 0x0; 0x0; 0x0; 0x0; 0x0; 0x0; 0x0;
  0x0; 0x0; 0x0; 0x0; 0x0; 0x0; 0x0; 0x0;
  0x0; 0x0; 0x0; 0x0; 0x0; 0x0; 0x0; 0x0;
  0x0; 0x0; 0x0; 0x9; 0xff; 0xff; 0xff; 0xff;
  0xff; 0xff; 0xff; 0xff; 0xff; 0xff; 0xf0; 0x0;
  0x0; 0x0; 0x0; 0x0; 0x0; 0x0; 0x0; 0x0;
  0x0; 0x0; 0x0; 0x0; 0x0; 0x0; 0x0; 0x0;
  0x0; 0x0; 0x0; 0x0; 0x0; 0x0; 0x0; 0x0;
  0x0; 0x0; 0x0; 0x0; 0x0; 0x0; 0x0; 0x0;
  0x0; 0x0; 0x0; 0x0; 0x0; 0x0; 0x0; 0x0;
  0x0; 0x0; 0x0; 0x0; 0x5; 0xff; 0xff; 0xff;
  0xff; 0xff; 0xff; 0xff; 0xff; 0xff; 0xff; 0xf6;
  0x0; 0x0; 0x0; 0x0; 0x0; 0x0; 0x0; 0x0;
  0x0; 0x0; 0x0; 0x0; 0x0; 0x0; 0x0; 0x0;
  0x0; 0x0; 0x0; 0x0; 0x0; 0x0; 0x0; 0x0;
  0x0; 0x0; 0x0; 0x0; 0x0; 0x0; 0x0; 0x0;
  0x0; 0x0; 0x0; 0x0; 0x0; 0x0; 0x0; 0x0;
  0x0; 0x0; 0x0; 0x0; 0x0; 0x1; 0xff; 0xff;
  0xff; 0xff; 0xff; 0xff; 0xff; 0xff; 0xff; 0xff;
  0xfc; 0x0; 0x0; 0x0; 0x0; 0x0; 0x0; 0x0;
  0x0; 0x0; 0x0; 0x0; 0x0; 0x0; 0x0; 0x0;
  0x0; 0x0; 0x0; 0x0; 0x0; 0x0; 0x0; 0x0;
  0x0; 0x0; 0x0; 0x0; 0x0; 0x0; 0x0; 0x0;
  0x0; 0x0; 0x0; 0x0; 0x0; 0x0; 0x0; 0x0;
  0x0; 0x0; 0x0; 0x0; 0x0; 0x0; 0x0; 0xcf;
  0xff; 0xff; 0xff; 0xff; 0xff; 0xff; 0xff; 0xff;
  0xff; 0xff; 0x40; 0x0; 0x0; 0x0; 0x0; 0x0;
  0x0; 0x0; 0x0; 0x0; 0x0; 0x0; 0x0; 0x0;
  0x0; 0x0; 0x0; 0x0; 0x0; 0x0; 0x0; 0x0;
  0x0; 0x0; 0x0; 0x0; 0x0; 0x0; 0x0; 0x0;
  0x0; 0x0; 0x0; 0x0; 0x0; 0x0; 0x0; 0x0;
  0x0; 0x0; 0x0; 0x0; 0x0; 0x0; 0x0; 0x0;
  0x7f; 0xff; 0xff; 0xff; 0xff; 0xff; 0xff; 0xff;
  0xff; 0xff; 0xff; 0xc0; 0x0; 0x0; 0x0; 0x0;
  0x0; 0x0; 0x0; 0x0; 0x0; 0x0; 0x0; 0x0;
  0x0; 0x0; 0x0; 0x0; 0x0; 0x0; 0x0; 0x0;
  0x0; 0x0; 0x0; 0x0; 0x0; 0x0; 0x0; 0x0;
  0x0; 0x0; 0x0; 0x0; 0x0; 0x0; 0x0; 0x0;
  0x0; 0x0; 0x0; 0x0; 0x0; 0x0; 0x0; 0x0;
  0x0; 0x1f; 0xff; 0xff; 0xff; 0xff; 0xff; 0xff;
  0xff; 0xff; 0xff; 0xff; 0xf4; 0x0; 0x0; 0x0;
  0x0; 0x0; 0x0; 0x0; 0x0; 0x0; 0x0; 0x0;
  0x0; 0x0; 0x0; 0x0; 0x0; 0x0; 0x0; 0x0;
  0x0; 0x0; 0x0; 0x0; 0x0; 0x0; 0x0; 0x0;
  0x0; 0x0; 0x0; 0x0; 0x0; 0x0; 0x0; 0x0;
  0x0; 0x0; 0x0; 0x0; 0x0; 0x0; 0x0; 0x0;
  0x0; 0x0; 0xc; 0xff; 0xff; 0xff; 0xff; 0xff;
  0xff; 0xff; 0xff; 0xff; 0xff; 0xfc; 0x0; 0x0;
  0x0; 0x0; 0x0; 0x0; 0x0; 0x0; 0x0; 0x0;
  0x0; 0x0; 0x0; 0x0; 0x0; 0x0; 0x0; 0x0;
  0x0; 0x0; 0x0; 0x0; 0x0; 0x0; 0x0; 0x0;
  0x0; 0x0; 0x0; 0x0; 0x0; 0x0; 0x0; 0x0;
  0x0; 0x0; 0x0; 0x0; 0x0; 0x0; 0x0; 0x0;
  0x0; 0x0; 0x0; 0x6; 0xff; 0xff; 0xff; 0xff;
  0xff; 0xff; 0xff; 0xff; 0xff; 0xff; 0xff; 0x50;
  0x0; 0x0; 0x0; 0x0; 0x0; 0x0; 0x0; 0x0;
  0x0; 0x0; 0x0; 0x0; 0x0; 0x0; 0x0; 0x0;
  0x0; 0x0; 0x0; 0x0; 0x0; 0x0; 0x0; 0x0;
  0x0; 0x0; 0x0; 0x0; 0x0; 0x0; 0x0; 0x0;
  0x0; 0x0; 0x0; 0x0; 0x0; 0x0; 0x0; 0x0;
  0x0; 0x0; 0x0; 0x0; 0x0; 0xff; 0xff; 0xff;
  0xff; 0xff; 0xff; 0xff; 0xff; 0xff; 0xff; 0xff;
  0xe1; 0x0; 0x0; 0x0; 0x0; 0x0; 0x0; 0x0;
  0x0; 0x0; 0x0; 0x0; 0x0; 0x0; 0x0; 0x0;
  0x0; 0x0; 0x0; 0x0; 0x0; 0x0; 0x0; 0x0;
  0x0; 0x0; 0x0; 0x0; 0x0; 0x0; 0x0; 0x0;
  0x0; 0x0; 0x0; 0x0; 0x0; 0x0; 0x0; 0x0;
  0x0; 0x0; 0x0; 0x0; 0x0; 0x0; 0x9f; 0xff;
  0xff; 0xff; 0xff; 0xff; 0xff; 0xff; 0xff; 0xff;
  0xff; 0xf9; 0x0; 0x0; 0x0; 0x0; 0x0; 0x0;
  0x0; 0x0; 0x0; 0x0; 0x0; 0x0; 0x0; 0x0;
  0x0; 0x0; 0x0; 0x0; 0x0; 0x0; 0x0; 0x0;
  0x0; 0x0; 0x0; 0x0; 0x0; 0x0; 0x0; 0x0;
  0x0; 0x0; 0x0; 0x0; 0x0; 0x0; 0x0; 0x0;
  0x0; 0x0; 0x0; 0x0; 0x0; 0x0; 0x0; 0x3f;
  0xff; 0xff; 0xff; 0xff; 0xff; 0xff; 0xff; 0xff;
  0xff; 0xff; 0xff; 0x40; 0x0; 0x0; 0x0; 0x0;
  0x0; 0x0; 0x0; 0x0; 0x0; 0x0; 0x0; 0x0;
  0x0; 0x0; 0x0; 0x0; 0x0; 0x0; 0x0; 0x0;
  0x0; 0x0; 0x0; 0x0; 0x0; 0x0; 0x0; 0x0;
  0x0; 0x0; 0x0; 0x0; 0x0; 0x0; 0x0; 0x0;
  0x0; 0x0; 0x0; 0x0; 0x0; 0x0; 0x0; 0x0;
  0xc; 0xff; 0xff; 0xff; 0xff; 0xff; 0xff; 0xff;
  0xff; 0xff; 0xff; 0xff; 0xe1; 0x0; 0x0; 0x0;
  0x0; 0x0; 0x0; 0x0; 0x0; 0x0; 0x0; 0x0;
  0x0; 0x0; 0x0; 0x0; 0x0; 0x0; 0x0; 0x0;
  0x0; 0x0; 0x0; 0x0; 0x0; 0x0; 0x0; 0x0;
  0x0; 0x0; 0x0; 0x0; 0x0; 0x0; 0x0; 0x0;
  0x0; 0x0; 0x0; 0x0; 0x0; 0x0; 0x0; 0x0;
  0x0; 0x4; 0xff; 0xff; 0xff; 0xff; 0xff; 0xff;
  0xff; 0xff; 0xff; 0xff; 0xff; 0xfb; 0x0; 0x0;
  0x0; 0x0; 0x0; 0x0; 0x0; 0x0; 0x0; 0x0;
  0x0; 0x0; 0x0; 0x0; 0x0; 0x0; 0x0; 0x0;
  0x0; 0x0; 0x0; 0x0; 0x0; 0x0; 0x0; 0x0;
  0x0; 0x0; 0x0; 0x0; 0x0; 0x0; 0x0; 0x0 ].

Definition quicksand256_bitmap_14 : list Z :=
  [ 0x0; 0x0; 0x0; 0x0; 0x0; 0x0; 0x0; 0x0;
  0x0; 0x0; 0x0; 0xdf; 0xff; 0xff; 0xff; 0xff;
  0xff; 0xff; 0xff; 0xff; 0xff; 0xff; 0xff; 0x80;
  0x0; 0x0; 0x0; 0x0; 0x0; 0x0; 0x0; 0x0;
  0x0; 0x0; 0x0; 0x0; 0x0; 0x0; 0x0; 0x0;
  0x0; 0x0; 0x0; 0x0; 0x0; 0x0; 0x0; 0x0;
  0x0; 0x0; 0x0; 0x0; 0x0; 0x0; 0x0; 0x0;
  0x0; 0x0; 0x0; 0x0; 0x0; 0x0; 0x0; 0x0;
  0x0; 0x0; 0x0; 0x0; 0x5f; 0xff; 0xff; 0xff;
  0xff; 0xff; 0xff; 0xff; 0xff; 0xff; 0xff; 0xff;
  0xf5; 0x0; 0x0; 0x0; 0x0; 0x0; 0x0; 0x0;
  0x0; 0x0; 0x0; 0x0; 0x0; 0x0; 0x0; 0x0;
  0x0; 0x0; 0x0; 0x0; 0x0; 0x0; 0x0; 0x0;
  0x0; 0x0; 0x0; 0x0; 0x0; 0x0; 0x0; 0x0;
  0x0; 0x0; 0x0; 0x0; 0x0; 0x0; 0x0; 0x0;
  0x0; 0x0; 0x0; 0x0; 0x0; 0xd; 0xff; 0xff;
  0xff; 0xff; 0xff; 0xff; 0xff; 0xff; 0xff; 0xff;
  0xff; 0xff; 0x40; 0x0; 0x0; 0x0; 0x0; 0x0;
  0x0; 0x0; 0x0; 0x0; 0x0; 0x0; 0x0; 0x0;
  0x0; 0x0; 0x0; 0x0; 0x0; 0x0; 0x0; 0x0;
  0x0; 0x0; 0x0; 0x0; 0x0; 0x0; 0x0; 0x0;
  0x0; 0x0; 0x0; 0x0; 0x0; 0x0; 0x0; 0x0;
  0x0; 0x0; 0x0; 0x0; 0x0; 0x0; 0x4; 0xff;
  0xff; 0xff; 0xff; 0xff; 0xff; 0xff; 0xff; 0xff;
  0xff; 0xff; 0xff; 0xf3; 0x0; 0x0; 0x0; 0x0;
  0x0; 0x0; 0x0; 0x0; 0x0; 0x0; 0x0; 0x0;
  0x0; 0x0; 0x0; 0x0; 0x0; 0x0; 0x0; 0x0;
  0x0; 0x0; 0x0; 0x0; 0x0; 0x0; 0x0; 0x0;
  0x0; 0x0; 0x0; 0x0; 0x0; 0x0; 0x0; 0x0;
  0x0; 0x0; 0x0; 0x0; 0x0; 0x0; 0x0; 0x0;
  0xcf; 0xff; 0xff; 0xff; 0xff; 0xff; 0xff; 0xff;
  0xff; 0xff; 0xff; 0xff; 0xff; 0x30; 0x0; 0x0;
  0x0; 0x0; 0x0; 0x0; 0x0; 0x0; 0x0; 0x0;
  0x0; 0x0; 0x0; 0x0; 0x0; 0x0; 0x0; 0x0;
  0x0; 0x0; 0x0; 0x0; 0x0; 0x0; 0x0; 0x0;
  0x0; 0x0; 0x0; 0x0; 0x0; 0x6; 0xac; 0xdd;
  0xb8; 0x20; 0x0; 0x0; 0x0; 0x0; 0x0; 0x0;
  0x0; 0x3f; 0xff; 0xff; 0xff; 0xff; 0xff; 0xff;
  0xff; 0xff; 0xff; 0xff; 0xff; 0xff; 0xf4; 0x0;
  0x0; 0x0; 0x0; 0x0; 0x0; 0x0; 0x0; 0x0;
  0x0; 0x0; 0x0; 0x0; 0x0; 0x0; 0x0; 0x0;
  0x0; 0x0; 0x0; 0x0; 0x0; 0x0; 0x0; 0x0;
  0x0; 0x0; 0x0; 0x0; 0x0; 0x6; 0xef; 0xff;
  0xff; 0xff; 0xfb; 0x10; 0x0; 0x0; 0x0; 0x0;
  0x0; 0x0; 0x9; 0xff; 0xff; 0xff; 0xff; 0xff;
  0xff; 0xff; 0xff; 0xff; 0xff; 0xff; 0xff; 0xff;
  0x60; 0x0; 0x0; 0x0; 0x0; 0x0; 0x0; 0x0;
  0x0; 0x0; 0x0; 0x0; 0x0; 0x0; 0x0; 0x0;
  0x0; 0x0; 0x0; 0x0; 0x0; 0x0; 0x0; 0x0;
  0x0; 0x0; 0x0; 0x0; 0x0; 0x0; 0x9f; 0xff;
  0xff; 0xff; 0xff; 0xff; 0xe2; 0x0; 0x0; 0x0;
  0x0; 0x0; 0x0; 0x0; 0xef; 0xff; 0xff; 0xff;
  0xff; 0xff; 0xff; 0xff; 0xff; 0xff; 0xff; 0xff;
  0xff; 0xf9; 0x0; 0x0; 0x0; 0x0; 0x0; 0x0;
  0x0; 0x0; 0x0; 0x0; 0x0; 0x0; 0x0; 0x0;
  0x0; 0x0; 0x0; 0x0; 0x0; 0x0; 0x0; 0x0;
  0x0; 0x0; 0x0; 0x0; 0x0; 0x0; 0xa; 0xff;
  0xff; 0xff; 0xff; 0xff; 0xff; 0xfd; 0x0; 0x0;
  0x0; 0x0; 0x0; 0x0; 0x0; 0x4f; 0xff; 0xff;
  0xff; 0xff; 0xff; 0xff; 0xff; 0xff; 0xff; 0xff;
  0xff; 0xff; 0xff; 0xc2; 0x0; 0x0; 0x0; 0x0;
  0x0; 0x0; 0x0; 0x0; 0x0; 0x0; 0x0; 0x0;
  0x0; 0x0; 0x0; 0x0; 0x0; 0x0; 0x0; 0x0;
  0x0; 0x0; 0x0; 0x0; 0x0; 0x0; 0x1; 0xbf;
  0xff; 0xff; 0xff; 0xff; 0xff; 0xff; 0xff; 0x90;
  0x0; 0x0; 0x0; 0x0; 0x0; 0x0; 0xa; 0xff;
  0xff; 0xff; 0xff; 0xff; 0xff; 0xff; 0xff; 0xff;
  0xff; 0xff; 0xff; 0xff; 0xff; 0x60; 0x0; 0x0;
  0x0; 0x0; 0x0; 0x0; 0x0; 0x0; 0x0; 0x0;
  0x0; 0x0; 0x0; 0x0; 0x0; 0x0; 0x0; 0x0;
  0x0; 0x0; 0x0; 0x0; 0x0; 0x0; 0x0; 0x3d;
  0xff; 0xff; 0xff; 0xff; 0xff; 0xff; 0xff; 0xff;
  0xf1; 0x0; 0x0; 0x0; 0x0; 0x0; 0x0; 0x0;
  0xdf; 0xff; 0xff; 0xff; 0xff; 0xff; 0xff; 0xff;
  0xff; 0xff; 0xff; 0xff; 0xff; 0xff; 0xfb; 0x20;
  0x0; 0x0; 0x0; 0x0; 0x0; 0x0; 0x0; 0x0;
  0x0; 0x0; 0x0; 0x0; 0x0; 0x0; 0x0; 0x0;
  0x0; 0x0; 0x0; 0x0; 0x0; 0x0; 0x0; 0x8;
  0xff; 0xff; 0xff; 0xff; 0xff; 0xff; 0xff; 0xff;
  0xff; 0xf6; 0x0; 0x0; 0x0; 0x0; 0x0; 0x0;
  0x0; 0x3f; 0xff; 0xff; 0xff; 0xff; 0xff; 0xff;
  0xff; 0xff; 0xff; 0xff; 0xff; 0xff; 0xff; 0xff;
  0xf8; 0x0; 0x0; 0x0; 0x0; 0x0; 0x0; 0x0;
  0x0; 0x0; 0x0; 0x0; 0x0; 0x0; 0x0; 0x0;
  0x0; 0x0; 0x0; 0x0; 0x0; 0x0; 0x0; 0x5;
  0xef; 0xff; 0xff; 0xff; 0xff; 0xff; 0xff; 0xff;
  0xff; 0xff; 0xfa; 0x0; 0x0; 0x0; 0x0; 0x0;
  0x0; 0x0; 0x6; 0xff; 0xff; 0xff; 0xff; 0xff;
  0xff; 0xff; 0xff; 0xff; 0xff; 0xff; 0xff; 0xff;
  0xff; 0xff; 0xe7; 0x0; 0x0; 0x0; 0x0; 0x0;
  0x0; 0x0; 0x0; 0x0; 0x0; 0x0; 0x0; 0x0;
  0x0; 0x0; 0x0; 0x0; 0x0; 0x0; 0x0; 0x4;
  0xcf; 0xff; 0xff; 0xff; 0xff; 0xff; 0xff; 0xff;
  0xff; 0xff; 0xff; 0xfd; 0x0; 0x0; 0x0; 0x0;
  0x0; 0x0; 0x0; 0x0; 0xaf; 0xff; 0xff; 0xff;
  0xff; 0xff; 0xff; 0xff; 0xff; 0xff; 0xff; 0xff;
  0xff; 0xff; 0xff; 0xff; 0xe8; 0x20; 0x0; 0x0;
  0x0; 0x0; 0x0; 0x0; 0x0; 0x0; 0x0; 0x0;
  0x0; 0x0; 0x0; 0x0; 0x0; 0x0; 0x0; 0x5;
  0xcf; 0xff; 0xff; 0xff; 0xff; 0xff; 0xff; 0xff;
  0xff; 0xff; 0xff; 0xff; 0xfe; 0x0; 0x0; 0x0;
  0x0; 0x0; 0x0; 0x0; 0x0; 0xc; 0xff; 0xff;
  0xff; 0xff; 0xff; 0xff; 0xff; 0xff; 0xff; 0xff;
  0xff; 0xff; 0xff; 0xff; 0xff; 0xff; 0xfc; 0x61;
  0x0; 0x0; 0x0; 0x0; 0x0; 0x0; 0x0; 0x0;
  0x0; 0x0; 0x0; 0x0; 0x0; 0x0; 0x0; 0x49;
  0xff; 0xff; 0xff; 0xff; 0xff; 0xff; 0xff; 0xff;
  0xff; 0xff; 0xff; 0xff; 0xff; 0xfe; 0x0; 0x0;
  0x0; 0x0; 0x0; 0x0; 0x0; 0x0; 0x1; 0xdf;
  0xff; 0xff; 0xff; 0xff; 0xff; 0xff; 0xff; 0xff;
  0xff; 0xff; 0xff; 0xff; 0xff; 0xff; 0xff; 0xff;
  0xff; 0xc8; 0x30; 0x0; 0x0; 0x0; 0x0; 0x0;
  0x0; 0x0; 0x0; 0x0; 0x0; 0x0; 0x15; 0xae;
  0xff; 0xff; 0xff; 0xff; 0xff; 0xff; 0xff; 0xff;
  0xff; 0xff; 0xff; 0xff; 0xff; 0xff; 0xfb; 0x0;
  0x0; 0x0; 0x0; 0x0; 0x0; 0x0; 0x0; 0x0;
  0x2e; 0xff; 0xff; 0xff; 0xff; 0xff; 0xff; 0xff;
  0xff; 0xff; 0xff; 0xff; 0xff; 0xff; 0xff; 0xff;
  0xff; 0xff; 0xff; 0xff; 0xda; 0x75; 0x42; 0x10;
  0x0; 0x0; 0x1; 0x12; 0x35; 0x79; 0xbe; 0xff;
  0xff; 0xff; 0xff; 0xff; 0xff; 0xff; 0xff; 0xff;
  0xff; 0xff; 0xff; 0xff; 0xff; 0xff; 0xff; 0xf6;
  0x0; 0x0; 0x0; 0x0; 0x0; 0x0; 0x0; 0x0;
  0x0; 0x2; 0xef; 0xff; 0xff; 0xff; 0xff; 0xff;
  0xff; 0xff; 0xff; 0xff; 0xff; 0xff; 0xff; 0xff;
  0xff; 0xff; 0xff; 0xff; 0xff; 0xff; 0xff; 0xff;
  0xff; 0xff; 0xff; 0xff; 0xff; 0xff; 0xff; 0xff;
  0xff; 0xff; 0xff; 0xff; 0xff; 0xff; 0xff; 0xff;
  0xff; 0xff; 0xff; 0xff; 0xff; 0xff; 0xff; 0xff;
  0xe0; 0x0; 0x0; 0x0; 0x0; 0x0; 0x0; 0x0;
  0x0; 0x0; 0x0; 0x2e; 0xff; 0xff; 0xff; 0xff;
  0xff; 0xff; 0xff; 0xff; 0xff; 0xff; 0xff; 0xff;
  0xff; 0xff; 0xff; 0xff; 0xff; 0xff; 0xff; 0xff;
  0xff; 0xff; 0xff; 0xff; 0xff; 0xff; 0xff; 0xff;
  0xff; 0xff; 0xff; 0xff; 0xff; 0xff; 0xff; 0xff;
  0xff; 0xff; 0xff; 0xff; 0xff; 0xff; 0xff; 0xff;
  0xff; 0x60; 0x0; 0x0; 0x0; 0x0; 0x0; 0x0;
  0x0; 0x0; 0x0; 0x0; 0x2; 0xef; 0xff; 0xff;
  0xff; 0xff; 0xff; 0xff; 0xff; 0xff; 0xff; 0xff;
  0xff; 0xff; 0xff; 0xff; 0xff; 0xff; 0xff; 0xff;
  0xff; 0xff; 0xff; 0xff; 0xff; 0xff; 0xff; 0xff;
  0xff; 0xff; 0xff; 0xff; 0xff; 0xff; 0xff; 0xff;
  0xff; 0xff; 0xff; 0xff; 0xff; 0xff; 0xff; 0xff;
  0xff; 0xfb; 0x0; 0x0; 0x0; 0x0; 0x0; 0x0;
  0x0; 0x0; 0x0; 0x0; 0x0; 0x0; 0x1d; 0xff;
  0xff; 0xff; 0xff; 0xff; 0xff; 0xff; 0xff; 0xff;
  0xff; 0xff; 0xff; 0xff; 0xff; 0xff; 0xff; 0xff;
  0xff; 0xff; 0xff; 0xff; 0xff; 0xff; 0xff; 0xff;
  0xff; 0xff; 0xff; 0xff; 0xff; 0xff; 0xff; 0xff;
  0xff; 0xff; 0xff; 0xff; 0xff; 0xff; 0xff; 0xff ].

Definition quicksand256_bitmap_15 : list Z :=
  [ 0xff; 0xff; 0xd1; 0x0; 0x0; 0x0; 0x0; 0x0;
  0x0; 0x0; 0x0; 0x0; 0x0; 0x0; 0x0; 0x1;
  0xcf; 0xff; 0xff; 0xff; 0xff; 0xff; 0xff; 0xff;
  0xff; 0xff; 0xff; 0xff; 0xff; 0xff; 0xff; 0xff;
  0xff; 0xff; 0xff; 0xff; 0xff; 0xff; 0xff; 0xff;
  0xff; 0xff; 0xff; 0xff; 0xff; 0xff; 0xff; 0xff;
  0xff; 0xff; 0xff; 0xff; 0xff; 0xff; 0xff; 0xff;
  0xff; 0xff; 0xfd; 0x10; 0x0; 0x0; 0x0; 0x0;
  0x0; 0x0; 0x0; 0x0; 0x0; 0x0; 0x0; 0x0;
  0x0; 0x9; 0xff; 0xff; 0xff; 0xff; 0xff; 0xff;
  0xff; 0xff; 0xff; 0xff; 0xff; 0xff; 0xff; 0xff;
  0xff; 0xff; 0xff; 0xff; 0xff; 0xff; 0xff; 0xff;
  0xff; 0xff; 0xff; 0xff; 0xff; 0xff; 0xff; 0xff;
  0xff; 0xff; 0xff; 0xff; 0xff; 0xff; 0xff; 0xff;
  0xff; 0xff; 0xff; 0xc1; 0x0; 0x0; 0x0; 0x0;
  0x0; 0x0; 0x0; 0x0; 0x0; 0x0; 0x0; 0x0;
  0x0; 0x0; 0x0; 0x6f; 0xff; 0xff; 0xff; 0xff;
  0xff; 0xff; 0xff; 0xff; 0xff; 0xff; 0xff; 0xff;
  0xff; 0xff; 0xff; 0xff; 0xff; 0xff; 0xff; 0xff;
  0xff; 0xff; 0xff; 0xff; 0xff; 0xff; 0xff; 0xff;
  0xff; 0xff; 0xff; 0xff; 0xff; 0xff; 0xff; 0xff;
  0xff; 0xff; 0xff; 0xfa; 0x0; 0x0; 0x0; 0x0;
  0x0; 0x0; 0x0; 0x0; 0x0; 0x0; 0x0; 0x0;
  0x0; 0x0; 0x0; 0x0; 0x2; 0xdf; 0xff; 0xff;
  0xff; 0xff; 0xff; 0xff; 0xff; 0xff; 0xff; 0xff;
  0xff; 0xff; 0xff; 0xff; 0xff; 0xff; 0xff; 0xff;
  0xff; 0xff; 0xff; 0xff; 0xff; 0xff; 0xff; 0xff;
  0xff; 0xff; 0xff; 0xff; 0xff; 0xff; 0xff; 0xff;
  0xff; 0xff; 0xff; 0xff; 0x70; 0x0; 0x0; 0x0;
  0x0; 0x0; 0x0; 0x0; 0x0; 0x0; 0x0; 0x0;
  0x0; 0x0; 0x0; 0x0; 0x0; 0x0; 0x8; 0xff;
  0xff; 0xff; 0xff; 0xff; 0xff; 0xff; 0xff; 0xff;
  0xff; 0xff; 0xff; 0xff; 0xff; 0xff; 0xff; 0xff;
  0xff; 0xff; 0xff; 0xff; 0xff; 0xff; 0xff; 0xff;
  0xff; 0xff; 0xff; 0xff; 0xff; 0xff; 0xff; 0xff;
  0xff; 0xff; 0xff; 0xff; 0xd3; 0x0; 0x0; 0x0;
  0x0; 0x0; 0x0; 0x0; 0x0; 0x0; 0x0; 0x0;
  0x0; 0x0; 0x0; 0x0; 0x0; 0x0; 0x0; 0x0;
  0x3d; 0xff; 0xff; 0xff; 0xff; 0xff; 0xff; 0xff;
  0xff; 0xff; 0xff; 0xff; 0xff; 0xff; 0xff; 0xff;
  0xff; 0xff; 0xff; 0xff; 0xff; 0xff; 0xff; 0xff;
  0xff; 0xff; 0xff; 0xff; 0xff; 0xff; 0xff; 0xff;
  0xff; 0xff; 0xff; 0xff; 0xf7; 0x0; 0x0; 0x0;
  0x0; 0x0; 0x0; 0x0; 0x0; 0x0; 0x0; 0x0;
  0x0; 0x0; 0x0; 0x0; 0x0; 0x0; 0x0; 0x0;
  0x0; 0x0; 0x7f; 0xff; 0xff; 0xff; 0xff; 0xff;
  0xff; 0xff; 0xff; 0xff; 0xff; 0xff; 0xff; 0xff;
  0xff; 0xff; 0xff; 0xff; 0xff; 0xff; 0xff; 0xff;
  0xff; 0xff; 0xff; 0xff; 0xff; 0xff; 0xff; 0xff;
  0xff; 0xff; 0xff; 0xff; 0xfa; 0x10; 0x0; 0x0;
  0x0; 0x0; 0x0; 0x0; 0x0; 0x0; 0x0; 0x0;
  0x0; 0x0; 0x0; 0x0; 0x0; 0x0; 0x0; 0x0;
  0x0; 0x0; 0x0; 0x1; 0x9f; 0xff; 0xff; 0xff;
  0xff; 0xff; 0xff; 0xff; 0xff; 0xff; 0xff; 0xff;
  0xff; 0xff; 0xff; 0xff; 0xff; 0xff; 0xff; 0xff;
  0xff; 0xff; 0xff; 0xff; 0xff; 0xff; 0xff; 0xff;
  0xff; 0xff; 0xff; 0xff; 0xfa; 0x20; 0x0; 0x0;
  0x0; 0x0; 0x0; 0x0; 0x0; 0x0; 0x0; 0x0;
  0x0; 0x0; 0x0; 0x0; 0x0; 0x0; 0x0; 0x0;
  0x0; 0x0; 0x0; 0x0; 0x0; 0x2; 0xaf; 0xff;
  0xff; 0xff; 0xff; 0xff; 0xff; 0xff; 0xff; 0xff;
  0xff; 0xff; 0xff; 0xff; 0xff; 0xff; 0xff; 0xff;
  0xff; 0xff; 0xff; 0xff; 0xff; 0xff; 0xff; 0xff;
  0xff; 0xff; 0xff; 0xff; 0xf9; 0x20; 0x0; 0x0;
  0x0; 0x0; 0x0; 0x0; 0x0; 0x0; 0x0; 0x0;
  0x0; 0x0; 0x0; 0x0; 0x0; 0x0; 0x0; 0x0;
  0x0; 0x0; 0x0; 0x0; 0x0; 0x0; 0x0; 0x2;
  0x9f; 0xff; 0xff; 0xff; 0xff; 0xff; 0xff; 0xff;
  0xff; 0xff; 0xff; 0xff; 0xff; 0xff; 0xff; 0xff;
  0xff; 0xff; 0xff; 0xff; 0xff; 0xff; 0xff; 0xff;
  0xff; 0xff; 0xff; 0xff; 0xd7; 0x10; 0x0; 0x0;
  0x0; 0x0; 0x0; 0x0; 0x0; 0x0; 0x0; 0x0;
  0x0; 0x0; 0x0; 0x0; 0x0; 0x0; 0x0; 0x0;
  0x0; 0x0; 0x0; 0x0; 0x0; 0x0; 0x0; 0x0;
  0x0; 0x1; 0x7d; 0xff; 0xff; 0xff; 0xff; 0xff;
  0xff; 0xff; 0xff; 0xff; 0xff; 0xff; 0xff; 0xff;
  0xff; 0xff; 0xff; 0xff; 0xff; 0xff; 0xff; 0xff;
  0xff; 0xff; 0xff; 0xff; 0x94; 0x0; 0x0; 0x0;
  0x0; 0x0; 0x0; 0x0; 0x0; 0x0; 0x0; 0x0;
  0x0; 0x0; 0x0; 0x0; 0x0; 0x0; 0x0; 0x0;
  0x0; 0x0; 0x0; 0x0; 0x0; 0x0; 0x0; 0x0;
  0x0; 0x0; 0x0; 0x0; 0x38; 0xef; 0xff; 0xff;
  0xff; 0xff; 0xff; 0xff; 0xff; 0xff; 0xff; 0xff;
  0xff; 0xff; 0xff; 0xff; 0xff; 0xff; 0xff; 0xff;
  0xff; 0xff; 0xff; 0xea; 0x50; 0x0; 0x0; 0x0;
  0x0; 0x0; 0x0; 0x0; 0x0; 0x0; 0x0; 0x0;
  0x0; 0x0; 0x0; 0x0; 0x0; 0x0; 0x0; 0x0;
  0x0; 0x0; 0x0; 0x0; 0x0; 0x0; 0x0; 0x0;
  0x0; 0x0; 0x0; 0x0; 0x0; 0x0; 0x3; 0x7c;
  0xff; 0xff; 0xff; 0xff; 0xff; 0xff; 0xff; 0xff;
  0xff; 0xff; 0xff; 0xff; 0xff; 0xff; 0xff; 0xff;
  0xff; 0xff; 0xfc; 0x83; 0x0; 0x0; 0x0; 0x0;
  0x0; 0x0; 0x0; 0x0; 0x0; 0x0; 0x0; 0x0;
  0x0; 0x0; 0x0; 0x0; 0x0; 0x0; 0x0; 0x0;
  0x0; 0x0; 0x0; 0x0; 0x0; 0x0; 0x0; 0x0;
  0x0; 0x0; 0x0; 0x0; 0x0; 0x0; 0x0; 0x0;
  0x0; 0x4; 0x7b; 0xdf; 0xff; 0xff; 0xff; 0xff;
  0xff; 0xff; 0xff; 0xff; 0xff; 0xff; 0xff; 0xff;
  0xff; 0xc9; 0x63; 0x0; 0x0; 0x0; 0x0; 0x0;
  0x0; 0x0; 0x0; 0x0; 0x0; 0x0; 0x0; 0x0;
  0x0; 0x0; 0x0; 0x0; 0x0; 0x0; 0x0; 0x0;
  0x0; 0x0; 0x0; 0x0; 0x0; 0x0; 0x0; 0x0;
  0x0; 0x0; 0x0; 0x0; 0x0; 0x0; 0x0; 0x0;
  0x0; 0x0; 0x0; 0x0; 0x0; 0x35; 0x79; 0xac;
  0xde; 0xff; 0xff; 0xff; 0xfe; 0xdd; 0xca; 0x97;
  0x64; 0x10; 0x0; 0x0; 0x0; 0x0; 0x0; 0x0;
  0x0; 0x0; 0x0; 0x0; 0x0; 0x0; 0x0; 0x0;
  0x0; 0x0; 0x0;
  0x0; 0x0; 0x0; 0x0; 0x0; 0x0; 0x0; 0x0;
  0x0; 0x0; 0x0; 0x0; 0x0; 0x0; 0x0; 0x0;
  0x0; 0x0; 0x0; 0x0; 0x0; 0x0; 0x0; 0x0;
  0x0; 0x0; 0x0; 0x0; 0x2; 0x57; 0x9b; 0xde;
  0xff; 0xff; 0xff; 0xed; 0xcb; 0x97; 0x53; 0x0;
  0x0; 0x0; 0x0; 0x0; 0x0; 0x0; 0x0; 0x0;
  0x0; 0x0; 0x0; 0x0; 0x0; 0x0; 0x0; 0x0;
  0x0; 0x0; 0x0; 0x0; 0x0; 0x0; 0x0; 0x0;
  0x0; 0x0; 0x0; 0x0; 0x0; 0x0; 0x0; 0x0;
  0x0; 0x0; 0x0; 0x0; 0x0; 0x0; 0x0; 0x0;
  0x0; 0x0; 0x0; 0x37; 0xbf; 0xff; 0xff; 0xff;
  0xff; 0xff; 0xff; 0xff; 0xff; 0xff; 0xff; 0xff;
  0xda; 0x62; 0x0; 0x0; 0x0; 0x0; 0x0; 0x0;
  0x0; 0x0; 0x0; 0x0; 0x0; 0x0; 0x0; 0x0;
  0x0; 0x0; 0x0; 0x0; 0x0; 0x0; 0x0; 0x0;
  0x0; 0x0; 0x0; 0x0; 0x0; 0x0; 0x0; 0x0;
  0x0; 0x0; 0x0; 0x0; 0x0; 0x0; 0x0; 0x0;
  0x0; 0x0; 0x4a; 0xef; 0xff; 0xff; 0xff; 0xff;
  0xff; 0xff; 0xff; 0xff; 0xff; 0xff; 0xff; 0xff;
  0xff; 0xff; 0xfd; 0x83; 0x0; 0x0; 0x0; 0x0;
  0x0; 0x0; 0x0; 0x0; 0x0; 0x0; 0x0; 0x0;
  0x0; 0x0; 0x0; 0x0; 0x0; 0x5; 0x8a; 0xa9;
  0x73; 0x0; 0x0; 0x0; 0x0; 0x0; 0x0; 0x0;
  0x0; 0x0; 0x0; 0x0; 0x0; 0x0; 0x0; 0x0;
  0x0; 0x28; 0xef; 0xff; 0xff; 0xff; 0xff; 0xff;
  0xff; 0xff; 0xff; 0xff; 0xff; 0xff; 0xff; 0xff;
  0xff; 0xff; 0xff; 0xff; 0xfd; 0x71; 0x0; 0x0;
  0x0; 0x0; 0x0; 0x0; 0x0; 0x0; 0x0; 0x0;
  0x0; 0x0; 0x0; 0x0; 0x1; 0x9f; 0xff; 0xff;
  0xff; 0xfd; 0x50; 0x0; 0x0; 0x0; 0x0; 0x0;
  0x0; 0x0; 0x0; 0x0; 0x0; 0x0; 0x0; 0x0;
  0x4; 0xbf; 0xff; 0xff; 0xff; 0xff; 0xff; 0xff;
  0xff; 0xff; 0xff; 0xff; 0xff; 0xff; 0xff; 0xff;
  0xff; 0xff; 0xff; 0xff; 0xff; 0xff; 0xf8; 0x10;
  0x0; 0x0; 0x0; 0x0; 0x0; 0x0; 0x0; 0x0;
  0x0; 0x0; 0x0; 0x0; 0x4; 0xef; 0xff; 0xff;
  0xff; 0xff; 0xff; 0xa0; 0x0; 0x0; 0x0; 0x0;
  0x0; 0x0; 0x0; 0x0; 0x0; 0x0; 0x0; 0x0;
  0x5d; 0xff; 0xff; 0xff; 0xff; 0xff; 0xff; 0xff;
  0xff; 0xff; 0xff; 0xff; 0xff; 0xff; 0xff; 0xff ].

Definition quicksand256_bitmap_16 : list Z :=
  [ 0xff; 0xff; 0xff; 0xff; 0xff; 0xff; 0xff; 0xff;
  0x70; 0x0; 0x0; 0x0; 0x0; 0x0; 0x0; 0x0;
  0x0; 0x0; 0x0; 0x0; 0x5; 0xff; 0xff; 0xff;
  0xff; 0xff; 0xff; 0xff; 0xb0; 0x0; 0x0; 0x0;
  0x0; 0x0; 0x0; 0x0; 0x0; 0x0; 0x0; 0x4;
  0xdf; 0xff; 0xff; 0xff; 0xff; 0xff; 0xff; 0xff;
  0xff; 0xff; 0xff; 0xff; 0xff; 0xff; 0xff; 0xff;
  0xff; 0xff; 0xff; 0xff; 0xff; 0xff; 0xff; 0xff;
  0xff; 0xd3; 0x0; 0x0; 0x0; 0x0; 0x0; 0x0;
  0x0; 0x0; 0x0; 0x0; 0x2; 0xff; 0xff; 0xff;
  0xff; 0xff; 0xff; 0xff; 0xff; 0x90; 0x0; 0x0;
  0x0; 0x0; 0x0; 0x0; 0x0; 0x0; 0x0; 0x2b;
  0xff; 0xff; 0xff; 0xff; 0xff; 0xff; 0xff; 0xff;
  0xff; 0xff; 0xff; 0xff; 0xff; 0xff; 0xff; 0xff;
  0xff; 0xff; 0xff; 0xff; 0xff; 0xff; 0xff; 0xff;
  0xff; 0xff; 0xf8; 0x0; 0x0; 0x0; 0x0; 0x0;
  0x0; 0x0; 0x0; 0x0; 0x0; 0xcf; 0xff; 0xff;
  0xff; 0xff; 0xff; 0xff; 0xff; 0xff; 0x30; 0x0;
  0x0; 0x0; 0x0; 0x0; 0x0; 0x0; 0x0; 0x8f;
  0xff; 0xff; 0xff; 0xff; 0xff; 0xff; 0xff; 0xff;
  0xff; 0xff; 0xff; 0xff; 0xff; 0xff; 0xff; 0xff;
  0xff; 0xff; 0xff; 0xff; 0xff; 0xff; 0xff; 0xff;
  0xff; 0xff; 0xff; 0xfc; 0x10; 0x0; 0x0; 0x0;
  0x0; 0x0; 0x0; 0x0; 0x0; 0x4f; 0xff; 0xff;
  0xff; 0xff; 0xff; 0xff; 0xff; 0xff; 0xfa; 0x0;
  0x0; 0x0; 0x0; 0x0; 0x0; 0x0; 0x3; 0xdf;
  0xff; 0xff; 0xff; 0xff; 0xff; 0xff; 0xff; 0xff;
  0xff; 0xff; 0xff; 0xff; 0xff; 0xff; 0xff; 0xff;
  0xff; 0xff; 0xff; 0xff; 0xff; 0xff; 0xff; 0xff;
  0xff; 0xff; 0xff; 0xff; 0xfe; 0x20; 0x0; 0x0;
  0x0; 0x0; 0x0; 0x0; 0x0; 0xa; 0xff; 0xff;
  0xff; 0xff; 0xff; 0xff; 0xff; 0xff; 0xff; 0xf0;
  0x0; 0x0; 0x0; 0x0; 0x0; 0x0; 0x8; 0xff;
  0xff; 0xff; 0xff; 0xff; 0xff; 0xff; 0xff; 0xff;
  0xff; 0xff; 0xff; 0xff; 0xff; 0xff; 0xff; 0xff;
  0xff; 0xff; 0xff; 0xff; 0xff; 0xff; 0xff; 0xff;
  0xff; 0xff; 0xff; 0xff; 0xff; 0xfe; 0x30; 0x0;
  0x0; 0x0; 0x0; 0x0; 0x0; 0x0; 0xdf; 0xff;
  0xff; 0xff; 0xff; 0xff; 0xff; 0xff; 0xff; 0xff;
  0x30; 0x0; 0x0; 0x0; 0x0; 0x0; 0x1c; 0xff;
  0xff; 0xff; 0xff; 0xff; 0xff; 0xff; 0xff; 0xff;
  0xff; 0xff; 0xff; 0xff; 0xff; 0xff; 0xff; 0xff;
  0xff; 0xff; 0xff; 0xff; 0xff; 0xff; 0xff; 0xff;
  0xff; 0xff; 0xff; 0xff; 0xff; 0xff; 0xff; 0x30;
  0x0; 0x0; 0x0; 0x0; 0x0; 0x0; 0xf; 0xff;
  0xff; 0xff; 0xff; 0xff; 0xff; 0xff; 0xff; 0xff;
  0xf5; 0x0; 0x0; 0x0; 0x0; 0x0; 0x3e; 0xff;
  0xff; 0xff; 0xff; 0xff; 0xff; 0xff; 0xff; 0xff;
  0xff; 0xff; 0xff; 0xff; 0xff; 0xff; 0xff; 0xff;
  0xff; 0xff; 0xff; 0xff; 0xff; 0xff; 0xff; 0xff;
  0xff; 0xff; 0xff; 0xff; 0xff; 0xff; 0xff; 0xff;
  0x20; 0x0; 0x0; 0x0; 0x0; 0x0; 0x0; 0xff;
  0xff; 0xff; 0xff; 0xff; 0xff; 0xff; 0xff; 0xff;
  0xff; 0x60; 0x0; 0x0; 0x0; 0x0; 0x5f; 0xff;
  0xff; 0xff; 0xff; 0xff; 0xff; 0xff; 0xff; 0xff;
  0xff; 0xff; 0xff; 0xff; 0xff; 0xff; 0xff; 0xff;
  0xff; 0xff; 0xff; 0xff; 0xff; 0xff; 0xff; 0xff;
  0xff; 0xff; 0xff; 0xff; 0xff; 0xff; 0xff; 0xff;
  0xfe; 0x10; 0x0; 0x0; 0x0; 0x0; 0x0; 0x1f;
  0xff; 0xff; 0xff; 0xff; 0xff; 0xff; 0xff; 0xff;
  0xff; 0xf6; 0x0; 0x0; 0x0; 0x0; 0x7f; 0xff;
  0xff; 0xff; 0xff; 0xff; 0xff; 0xff; 0xff; 0xff;
  0xff; 0xff; 0xff; 0xff; 0xff; 0xff; 0xff; 0xff;
  0xff; 0xff; 0xff; 0xff; 0xff; 0xff; 0xff; 0xff;
  0xff; 0xff; 0xff; 0xff; 0xff; 0xff; 0xff; 0xff;
  0xff; 0xfc; 0x0; 0x0; 0x0; 0x0; 0x0; 0x1;
  0xff; 0xff; 0xff; 0xff; 0xff; 0xff; 0xff; 0xff;
  0xff; 0xff; 0x60; 0x0; 0x0; 0x0; 0x8f; 0xff;
  0xff; 0xff; 0xff; 0xff; 0xff; 0xff; 0xff; 0xff;
  0xff; 0xff; 0xff; 0xff; 0xff; 0xff; 0xff; 0xff;
  0xff; 0xff; 0xff; 0xff; 0xff; 0xff; 0xff; 0xff;
  0xff; 0xff; 0xff; 0xff; 0xff; 0xff; 0xff; 0xff;
  0xff; 0xff; 0xf9; 0x0; 0x0; 0x0; 0x0; 0x0;
  0x1f; 0xff; 0xff; 0xff; 0xff; 0xff; 0xff; 0xff;
  0xff; 0xff; 0xf6; 0x0; 0x0; 0x0; 0x9f; 0xff;
  0xff; 0xff; 0xff; 0xff; 0xff; 0xff; 0xff; 0xff;
  0xff; 0xff; 0xff; 0xff; 0xff; 0xff; 0xff; 0xff;
  0xff; 0xff; 0xff; 0xff; 0xff; 0xff; 0xff; 0xff;
  0xff; 0xff; 0xff; 0xff; 0xff; 0xff; 0xff; 0xff;
  0xff; 0xff; 0xff; 0xf5; 0x0; 0x0; 0x0; 0x0;
  0x1; 0xff; 0xff; 0xff; 0xff; 0xff; 0xff; 0xff;
  0xff; 0xff; 0xff; 0x60; 0x0; 0x0; 0x9f; 0xff;
  0xff; 0xff; 0xff; 0xff; 0xff; 0xff; 0xff; 0xff;
  0xff; 0xff; 0xff; 0xff; 0xff; 0xff; 0xff; 0xff;
  0xff; 0xff; 0xff; 0xff; 0xff; 0xff; 0xff; 0xff;
  0xff; 0xff; 0xff; 0xff; 0xff; 0xff; 0xff; 0xff;
  0xff; 0xff; 0xff; 0xff; 0xe1; 0x0; 0x0; 0x0;
  0x0; 0x1f; 0xff; 0xff; 0xff; 0xff; 0xff; 0xff;
  0xff; 0xff; 0xff; 0xf6; 0x0; 0x0; 0x7f; 0xff;
  0xff; 0xff; 0xff; 0xff; 0xff; 0xff; 0xff; 0xff;
  0xff; 0xff; 0xff; 0xff; 0xff; 0xff; 0xff; 0xff;
  0xff; 0xff; 0xff; 0xff; 0xff; 0xff; 0xff; 0xff;
  0xff; 0xff; 0xff; 0xff; 0xff; 0xff; 0xff; 0xff;
  0xff; 0xff; 0xff; 0xff; 0xff; 0x90; 0x0; 0x0;
  0x0; 0x1; 0xff; 0xff; 0xff; 0xff; 0xff; 0xff;
  0xff; 0xff; 0xff; 0xff; 0x60; 0x0; 0x5f; 0xff;
  0xff; 0xff; 0xff; 0xff; 0xff; 0xff; 0xff; 0xff;
  0xff; 0xff; 0xff; 0xfc; 0x97; 0x53; 0x11; 0x0;
  0x0; 0x12; 0x35; 0x79; 0xcf; 0xff; 0xff; 0xff;
  0xff; 0xff; 0xff; 0xff; 0xff; 0xff; 0xff; 0xff;
  0xff; 0xff; 0xff; 0xff; 0xff; 0xff; 0x30; 0x0;
  0x0; 0x0; 0x1f; 0xff; 0xff; 0xff; 0xff; 0xff;
  0xff; 0xff; 0xff; 0xff; 0xf6; 0x0; 0x3f; 0xff;
  0xff; 0xff; 0xff; 0xff; 0xff; 0xff; 0xff; 0xff;
  0xff; 0xff; 0xb7; 0x30; 0x0; 0x0; 0x0; 0x0;
  0x0; 0x0; 0x0; 0x0; 0x0; 0x3; 0x8d; 0xff;
  0xff; 0xff; 0xff; 0xff; 0xff; 0xff; 0xff; 0xff;
  0xff; 0xff; 0xff; 0xff; 0xff; 0xff; 0xfb; 0x0;
  0x0; 0x0; 0x1; 0xff; 0xff; 0xff; 0xff; 0xff;
  0xff; 0xff; 0xff; 0xff; 0xff; 0x60; 0x1e; 0xff;
  0xff; 0xff; 0xff; 0xff; 0xff; 0xff; 0xff; 0xff;
  0xff; 0xc6; 0x10; 0x0; 0x0; 0x0; 0x0; 0x0;
  0x0; 0x0; 0x0; 0x0; 0x0; 0x0; 0x0; 0x2;
  0x9f; 0xff; 0xff; 0xff; 0xff; 0xff; 0xff; 0xff;
  0xff; 0xff; 0xff; 0xff; 0xff; 0xff; 0xff; 0xf4;
  0x0; 0x0; 0x0; 0x1f; 0xff; 0xff; 0xff; 0xff;
  0xff; 0xff; 0xff; 0xff; 0xff; 0xf6; 0xb; 0xff;
  0xff; 0xff; 0xff; 0xff; 0xff; 0xff; 0xff; 0xff;
  0xf9; 0x20; 0x0; 0x0; 0x0; 0x0; 0x0; 0x0;
  0x0; 0x0; 0x0; 0x0; 0x0; 0x0; 0x0; 0x0;
  0x0; 0x19; 0xff; 0xff; 0xff; 0xff; 0xff; 0xff;
  0xff; 0xff; 0xff; 0xff; 0xff; 0xff; 0xff; 0xff;
  0xb0; 0x0; 0x0; 0x1; 0xff; 0xff; 0xff; 0xff;
  0xff; 0xff; 0xff; 0xff; 0xff; 0xff; 0x67; 0xff;
  0xff; 0xff; 0xff; 0xff; 0xff; 0xff; 0xff; 0xff;
  0x81; 0x0; 0x0; 0x0; 0x0; 0x0; 0x0; 0x0;
  0x0; 0x0; 0x0; 0x0; 0x0; 0x0; 0x0; 0x0;
  0x0; 0x0; 0x2; 0xcf; 0xff; 0xff; 0xff; 0xff;
  0xff; 0xff; 0xff; 0xff; 0xff; 0xff; 0xff; 0xff;
  0xff; 0x30; 0x0; 0x0; 0x1f; 0xff; 0xff; 0xff;
  0xff; 0xff; 0xff; 0xff; 0xff; 0xff; 0xf9; 0xff;
  0xff; 0xff; 0xff; 0xff; 0xff; 0xff; 0xff; 0xfa;
  0x20; 0x0; 0x0; 0x0; 0x0; 0x0; 0x0; 0x0;
  0x0; 0x0; 0x0; 0x0; 0x0; 0x0; 0x0; 0x0;
  0x0; 0x0; 0x0; 0x0; 0x9f; 0xff; 0xff; 0xff;
  0xff; 0xff; 0xff; 0xff; 0xff; 0xff; 0xff; 0xff;
  0xff; 0xf9; 0x0; 0x0; 0x1; 0xff; 0xff; 0xff;
  0xff; 0xff; 0xff; 0xff; 0xff; 0xff; 0xff; 0xff;
  0xff; 0xff; 0xff; 0xff; 0xff; 0xff; 0xff; 0xd4;
  0x0; 0x0; 0x0; 0x0; 0x0; 0x0; 0x0; 0x0;
  0x0; 0x0; 0x0; 0x0; 0x0; 0x0; 0x0; 0x0;
  0x0; 0x0; 0x0; 0x0; 0x0; 0x6f; 0xff; 0xff;
  0xff; 0xff; 0xff; 0xff; 0xff; 0xff; 0xff; 0xff;
  0xff; 0xff; 0xf0; 0x0; 0x0; 0x1f; 0xff; 0xff;
  0xff; 0xff; 0xff; 0xff; 0xff; 0xff; 0xff; 0xff;
  0xff; 0xff; 0xff; 0xff; 0xff; 0xff; 0xff; 0x90;
  0x0; 0x0; 0x0; 0x0; 0x0; 0x0; 0x0; 0x0;
  0x0; 0x0; 0x0; 0x0; 0x0; 0x0; 0x0; 0x0;
  0x0; 0x0; 0x0; 0x0; 0x0; 0x0; 0x4f; 0xff;
  0xff; 0xff; 0xff; 0xff; 0xff; 0xff; 0xff; 0xff ].

Definition quicksand256_bitmap_17 : list Z :=
  [ 0xff; 0xff; 0xff; 0x50; 0x0; 0x1; 0xff; 0xff;
  0xff; 0xff; 0xff; 0xff; 0xff; 0xff; 0xff; 0xff;
  0xff; 0xff; 0xff; 0xff; 0xff; 0xff; 0xfe; 0x50;
  0x0; 0x0; 0x0; 0x0; 0x0; 0x0; 0x0; 0x0;
  0x0; 0x0; 0x0; 0x0; 0x0; 0x0; 0x0; 0x0;
  0x0; 0x0; 0x0; 0x0; 0x0; 0x0; 0x0; 0x4f;
  0xff; 0xff; 0xff; 0xff; 0xff; 0xff; 0xff; 0xff;
  0xff; 0xff; 0xff; 0xfb; 0x0; 0x0; 0x1f; 0xff;
  0xff; 0xff; 0xff; 0xff; 0xff; 0xff; 0xff; 0xff;
  0xff; 0xff; 0xff; 0xff; 0xff; 0xff; 0xfd; 0x20;
  0x0; 0x0; 0x0; 0x0; 0x0; 0x0; 0x0; 0x0;
  0x0; 0x0; 0x0; 0x0; 0x0; 0x0; 0x0; 0x0;
  0x0; 0x0; 0x0; 0x0; 0x0; 0x0; 0x0; 0x0;
  0x6f; 0xff; 0xff; 0xff; 0xff; 0xff; 0xff; 0xff;
  0xff; 0xff; 0xff; 0xff; 0xf0; 0x0; 0x1; 0xff;
  0xff; 0xff; 0xff; 0xff; 0xff; 0xff; 0xff; 0xff;
  0xff; 0xff; 0xff; 0xff; 0xff; 0xff; 0xfc; 0x10;
  0x0; 0x0; 0x0; 0x0; 0x0; 0x0; 0x0; 0x0;
  0x0; 0x0; 0x0; 0x0; 0x0; 0x0; 0x0; 0x0;
  0x0; 0x0; 0x0; 0x0; 0x0; 0x0; 0x0; 0x0;
  0x0; 0x9f; 0xff; 0xff; 0xff; 0xff; 0xff; 0xff;
  0xff; 0xff; 0xff; 0xff; 0xff; 0x50; 0x0; 0x1f;
  0xff; 0xff; 0xff; 0xff; 0xff; 0xff; 0xff; 0xff;
  0xff; 0xff; 0xff; 0xff; 0xff; 0xff; 0xfb; 0x0;
  0x0; 0x0; 0x0; 0x0; 0x0; 0x0; 0x0; 0x0;
  0x0; 0x0; 0x0; 0x0; 0x0; 0x0; 0x0; 0x0;
  0x0; 0x0; 0x0; 0x0; 0x0; 0x0; 0x0; 0x0;
  0x0; 0x0; 0xdf; 0xff; 0xff; 0xff; 0xff; 0xff;
  0xff; 0xff; 0xff; 0xff; 0xff; 0xf9; 0x0; 0x1;
  0xff; 0xff; 0xff; 0xff; 0xff; 0xff; 0xff; 0xff;
  0xff; 0xff; 0xff; 0xff; 0xff; 0xff; 0xfb; 0x0;
  0x0; 0x0; 0x0; 0x0; 0x0; 0x0; 0x0; 0x0;
  0x0; 0x0; 0x0; 0x0; 0x0; 0x0; 0x0; 0x0;
  0x0; 0x0; 0x0; 0x0; 0x0; 0x0; 0x0; 0x0;
  0x0; 0x0; 0x3; 0xff; 0xff; 0xff; 0xff; 0xff;
  0xff; 0xff; 0xff; 0xff; 0xff; 0xff; 0xe0; 0x0;
  0x1f; 0xff; 0xff; 0xff; 0xff; 0xff; 0xff; 0xff;
  0xff; 0xff; 0xff; 0xff; 0xff; 0xff; 0xfc; 0x0;
  0x0; 0x0; 0x0; 0x0; 0x0; 0x0; 0x0; 0x0;
  0x0; 0x0; 0x0; 0x0; 0x0; 0x0; 0x0; 0x0;
  0x0; 0x0; 0x0; 0x0; 0x0; 0x0; 0x0; 0x0;
  0x0; 0x0; 0x0; 0xa; 0xff; 0xff; 0xff; 0xff;
  0xff; 0xff; 0xff; 0xff; 0xff; 0xff; 0xff; 0x20;
  0x1; 0xff; 0xff; 0xff; 0xff; 0xff; 0xff; 0xff;
  0xff; 0xff; 0xff; 0xff; 0xff; 0xff; 0xfd; 0x10;
  0x0; 0x0; 0x0; 0x0; 0x0; 0x0; 0x0; 0x0;
  0x0; 0x0; 0x0; 0x0; 0x0; 0x0; 0x0; 0x0;
  0x0; 0x0; 0x0; 0x0; 0x0; 0x0; 0x0; 0x0;
  0x0; 0x0; 0x0; 0x0; 0x2f; 0xff; 0xff; 0xff;
  0xff; 0xff; 0xff; 0xff; 0xff; 0xff; 0xff; 0xf6;
  0x0; 0x1f; 0xff; 0xff; 0xff; 0xff; 0xff; 0xff;
  0xff; 0xff; 0xff; 0xff; 0xff; 0xff; 0xff; 0x20;
  0x0; 0x0; 0x0; 0x0; 0x0; 0x0; 0x0; 0x0;
  0x0; 0x0; 0x0; 0x0; 0x0; 0x0; 0x0; 0x0;
  0x0; 0x0; 0x0; 0x0; 0x0; 0x0; 0x0; 0x0;
  0x0; 0x0; 0x0; 0x0; 0x0; 0xaf; 0xff; 0xff;
  0xff; 0xff; 0xff; 0xff; 0xff; 0xff; 0xff; 0xff;
  0x90; 0x1; 0xff; 0xff; 0xff; 0xff; 0xff; 0xff;
  0xff; 0xff; 0xff; 0xff; 0xff; 0xff; 0xff; 0x60;
  0x0; 0x0; 0x0; 0x0; 0x0; 0x0; 0x0; 0x0;
  0x0; 0x0; 0x0; 0x0; 0x0; 0x0; 0x0; 0x0;
  0x0; 0x0; 0x0; 0x0; 0x0; 0x0; 0x0; 0x0;
  0x0; 0x0; 0x0; 0x0; 0x0; 0x3; 0xff; 0xff;
  0xff; 0xff; 0xff; 0xff; 0xff; 0xff; 0xff; 0xff;
  0xfd; 0x0; 0x1f; 0xff; 0xff; 0xff; 0xff; 0xff;
  0xff; 0xff; 0xff; 0xff; 0xff; 0xff; 0xff; 0xa0;
  0x0; 0x0; 0x0; 0x0; 0x0; 0x0; 0x0; 0x0;
  0x0; 0x0; 0x0; 0x0; 0x0; 0x0; 0x0; 0x0;
  0x0; 0x0; 0x0; 0x0; 0x0; 0x0; 0x0; 0x0;
  0x0; 0x0; 0x0; 0x0; 0x0; 0x0; 0xc; 0xff;
  0xff; 0xff; 0xff; 0xff; 0xff; 0xff; 0xff; 0xff;
  0xff; 0xf0; 0x1; 0xff; 0xff; 0xff; 0xff; 0xff;
  0xff; 0xff; 0xff; 0xff; 0xff; 0xff; 0xff; 0xe1;
  0x0; 0x0; 0x0; 0x0; 0x0; 0x0; 0x0; 0x0;
  0x0; 0x0; 0x0; 0x0; 0x0; 0x0; 0x0; 0x0;
  0x0; 0x0; 0x0; 0x0; 0x0; 0x0; 0x0; 0x0;
  0x0; 0x0; 0x0; 0x0; 0x0; 0x0; 0x0; 0x7f;
  0xff; 0xff; 0xff; 0xff; 0xff; 0xff; 0xff; 0xff;
  0xff; 0xff; 0x30; 0x1f; 0xff; 0xff; 0xff; 0xff;
  0xff; 0xff; 0xff; 0xff; 0xff; 0xff; 0xff; 0xf6;
  0x0; 0x0; 0x0; 0x0; 0x0; 0x0; 0x0; 0x0;
  0x0; 0x0; 0x0; 0x0; 0x0; 0x0; 0x0; 0x0;
  0x0; 0x0; 0x0; 0x0; 0x0; 0x0; 0x0; 0x0;
  0x0; 0x0; 0x0; 0x0; 0x0; 0x0; 0x0; 0x1;
  0xff; 0xff; 0xff; 0xff; 0xff; 0xff; 0xff; 0xff;
  0xff; 0xff; 0xf6; 0x1; 0xff; 0xff; 0xff; 0xff;
  0xff; 0xff; 0xff; 0xff; 0xff; 0xff; 0xff; 0xfd;
  0x0; 0x0; 0x0; 0x0; 0x0; 0x0; 0x0; 0x0;
  0x0; 0x0; 0x0; 0x0; 0x0; 0x0; 0x0; 0x0;
  0x0; 0x0; 0x0; 0x0; 0x0; 0x0; 0x0; 0x0;
  0x0; 0x0; 0x0; 0x0; 0x0; 0x0; 0x0; 0x0;
  0xd; 0xff; 0xff; 0xff; 0xff; 0xff; 0xff; 0xff;
  0xff; 0xff; 0xff; 0x80; 0x1f; 0xff; 0xff; 0xff;
  0xff; 0xff; 0xff; 0xff; 0xff; 0xff; 0xff; 0xff;
  0x60; 0x0; 0x0; 0x0; 0x0; 0x0; 0x0; 0x0;
  0x0; 0x0; 0x0; 0x0; 0x0; 0x0; 0x0; 0x0;
  0x0; 0x0; 0x0; 0x0; 0x0; 0x0; 0x0; 0x0;
  0x0; 0x0; 0x0; 0x0; 0x0; 0x0; 0x0; 0x0;
  0x0; 0x8f; 0xff; 0xff; 0xff; 0xff; 0xff; 0xff;
  0xff; 0xff; 0xff; 0xfb; 0x1; 0xff; 0xff; 0xff;
  0xff; 0xff; 0xff; 0xff; 0xff; 0xff; 0xff; 0xff;
  0xe0; 0x0; 0x0; 0x0; 0x0; 0x0; 0x0; 0x0;
  0x0; 0x0; 0x0; 0x0; 0x0; 0x0; 0x0; 0x0;
  0x0; 0x0; 0x0; 0x0; 0x0; 0x0; 0x0; 0x0;
  0x0; 0x0; 0x0; 0x0; 0x0; 0x0; 0x0; 0x0;
  0x0; 0x4; 0xff; 0xff; 0xff; 0xff; 0xff; 0xff;
  0xff; 0xff; 0xff; 0xff; 0xd0; 0x1f; 0xff; 0xff;
  0xff; 0xff; 0xff; 0xff; 0xff; 0xff; 0xff; 0xff;
  0xf8; 0x0; 0x0; 0x0; 0x0; 0x0; 0x0; 0x0;
  0x0; 0x0; 0x0; 0x0; 0x0; 0x0; 0x0; 0x0;
  0x0; 0x0; 0x0; 0x0; 0x0; 0x0; 0x0; 0x0;
  0x0; 0x0; 0x0; 0x0; 0x0; 0x0; 0x0; 0x0;
  0x0; 0x0; 0x1f; 0xff; 0xff; 0xff; 0xff; 0xff;
  0xff; 0xff; 0xff; 0xff; 0xff; 0x1; 0xff; 0xff;
  0xff; 0xff; 0xff; 0xff; 0xff; 0xff; 0xff; 0xff;
  0xff; 0x20; 0x0; 0x0; 0x0; 0x0; 0x0; 0x0;
  0x0; 0x0; 0x0; 0x0; 0x0; 0x0; 0x0; 0x0;
  0x0; 0x0; 0x0; 0x0; 0x0; 0x0; 0x0; 0x0;
  0x0; 0x0; 0x0; 0x0; 0x0; 0x0; 0x0; 0x0;
  0x0; 0x0; 0x0; 0xdf; 0xff; 0xff; 0xff; 0xff;
  0xff; 0xff; 0xff; 0xff; 0xff; 0xf0; 0x1f; 0xff;
  0xff; 0xff; 0xff; 0xff; 0xff; 0xff; 0xff; 0xff;
  0xff; 0xc0; 0x0; 0x0; 0x0; 0x0; 0x0; 0x0;
  0x0; 0x0; 0x0; 0x0; 0x0; 0x0; 0x0; 0x0;
  0x0; 0x0; 0x0; 0x0; 0x0; 0x0; 0x0; 0x0;
  0x0; 0x0; 0x0; 0x0; 0x0; 0x0; 0x0; 0x0;
  0x0; 0x0; 0x0; 0xb; 0xff; 0xff; 0xff; 0xff;
  0xff; 0xff; 0xff; 0xff; 0xff; 0xff; 0x21; 0xff;
  0xff; 0xff; 0xff; 0xff; 0xff; 0xff; 0xff; 0xff;
  0xff; 0xf8; 0x0; 0x0; 0x0; 0x0; 0x0; 0x0;
  0x0; 0x0; 0x0; 0x0; 0x0; 0x0; 0x0; 0x0;
  0x0; 0x0; 0x0; 0x0; 0x0; 0x0; 0x0; 0x0;
  0x0; 0x0; 0x0; 0x0; 0x0; 0x0; 0x0; 0x0;
  0x0; 0x0; 0x0; 0x0; 0x8f; 0xff; 0xff; 0xff;
  0xff; 0xff; 0xff; 0xff; 0xff; 0xff; 0xf3; 0x1f;
  0xff; 0xff; 0xff; 0xff; 0xff; 0xff; 0xff; 0xff;
  0xff; 0xff; 0x40; 0x0; 0x0; 0x0; 0x0; 0x0;
  0x0; 0x0; 0x0; 0x0; 0x0; 0x0; 0x0; 0x0;
  0x0; 0x0; 0x0; 0x0; 0x0; 0x0; 0x0; 0x0;
  0x0; 0x0; 0x0; 0x0; 0x0; 0x0; 0x0; 0x0;
  0x0; 0x0; 0x0; 0x0; 0x6; 0xff; 0xff; 0xff;
  0xff; 0xff; 0xff; 0xff; 0xff; 0xff; 0xff; 0x51;
  0xff; 0xff; 0xff; 0xff; 0xff; 0xff; 0xff; 0xff;
  0xff; 0xff; 0xf0; 0x0; 0x0; 0x0; 0x0; 0x0;
  0x0; 0x0; 0x0; 0x0; 0x0; 0x0; 0x0; 0x0;
  0x0; 0x0; 0x0; 0x0; 0x0; 0x0; 0x0; 0x0;
  0x0; 0x0; 0x0; 0x0; 0x0; 0x0; 0x0; 0x0;
  0x0; 0x0; 0x0; 0x0; 0x0; 0x4f; 0xff; 0xff;
  0xff; 0xff; 0xff; 0xff; 0xff; 0xff; 0xff; 0xf6;
  0x1f; 0xff; 0xff; 0xff; 0xff; 0xff; 0xff; 0xff ].

Definition quicksand256_bitmap_18 : list Z :=
  [ 0xff; 0xff; 0xfd; 0x0; 0x0; 0x0; 0x0; 0x0;
  0x0; 0x0; 0x0; 0x0; 0x0; 0x0; 0x0; 0x0;
  0x0; 0x0; 0x0; 0x0; 0x0; 0x0; 0x0; 0x0;
  0x0; 0x0; 0x0; 0x0; 0x0; 0x0; 0x0; 0x0;
  0x0; 0x0; 0x0; 0x0; 0x0; 0x2; 0xff; 0xff;
  0xff; 0xff; 0xff; 0xff; 0xff; 0xff; 0xff; 0xff;
  0x71; 0xff; 0xff; 0xff; 0xff; 0xff; 0xff; 0xff;
  0xff; 0xff; 0xff; 0xb0; 0x0; 0x0; 0x0; 0x0;
  0x0; 0x0; 0x0; 0x0; 0x0; 0x0; 0x0; 0x0;
  0x0; 0x0; 0x0; 0x0; 0x0; 0x0; 0x0; 0x0;
  0x0; 0x0; 0x0; 0x0; 0x0; 0x0; 0x0; 0x0;
  0x0; 0x0; 0x0; 0x0; 0x0; 0x0; 0x1f; 0xff;
  0xff; 0xff; 0xff; 0xff; 0xff; 0xff; 0xff; 0xff;
  0xf7; 0x1f; 0xff; 0xff; 0xff; 0xff; 0xff; 0xff;
  0xff; 0xff; 0xff; 0xf9; 0x0; 0x0; 0x0; 0x0;
  0x0; 0x0; 0x0; 0x0; 0x0; 0x0; 0x0; 0x0;
  0x0; 0x0; 0x0; 0x0; 0x0; 0x0; 0x0; 0x0;
  0x0; 0x0; 0x0; 0x0; 0x0; 0x0; 0x0; 0x0;
  0x0; 0x0; 0x0; 0x0; 0x0; 0x0; 0x0; 0xff;
  0xff; 0xff; 0xff; 0xff; 0xff; 0xff; 0xff; 0xff;
  0xff; 0x81; 0xff; 0xff; 0xff; 0xff; 0xff; 0xff;
  0xff; 0xff; 0xff; 0xff; 0x80; 0x0; 0x0; 0x0;
  0x0; 0x0; 0x0; 0x0; 0x0; 0x0; 0x0; 0x0;
  0x0; 0x0; 0x0; 0x0; 0x0; 0x0; 0x0; 0x0;
  0x0; 0x0; 0x0; 0x0; 0x0; 0x0; 0x0; 0x0;
  0x0; 0x0; 0x0; 0x0; 0x0; 0x0; 0x0; 0xf;
  0xff; 0xff; 0xff; 0xff; 0xff; 0xff; 0xff; 0xff;
  0xff; 0xf8; 0x1f; 0xff; 0xff; 0xff; 0xff; 0xff;
  0xff; 0xff; 0xff; 0xff; 0xf7; 0x0; 0x0; 0x0;
  0x0; 0x0; 0x0; 0x0; 0x0; 0x0; 0x0; 0x0;
  0x0; 0x0; 0x0; 0x0; 0x0; 0x0; 0x0; 0x0;
  0x0; 0x0; 0x0; 0x0; 0x0; 0x0; 0x0; 0x0;
  0x0; 0x0; 0x0; 0x0; 0x0; 0x0; 0x0; 0x0;
  0xff; 0xff; 0xff; 0xff; 0xff; 0xff; 0xff; 0xff;
  0xff; 0xff; 0x81; 0xff; 0xff; 0xff; 0xff; 0xff;
  0xff; 0xff; 0xff; 0xff; 0xff; 0x60; 0x0; 0x0;
  0x0; 0x0; 0x0; 0x0; 0x0; 0x0; 0x0; 0x0;
  0x0; 0x0; 0x0; 0x0; 0x0; 0x0; 0x0; 0x0;
  0x0; 0x0; 0x0; 0x0; 0x0; 0x0; 0x0; 0x0;
  0x0; 0x0; 0x0; 0x0; 0x0; 0x0; 0x0; 0x0;
  0xe; 0xff; 0xff; 0xff; 0xff; 0xff; 0xff; 0xff;
  0xff; 0xff; 0xf9; 0x1f; 0xff; 0xff; 0xff; 0xff;
  0xff; 0xff; 0xff; 0xff; 0xff; 0xf6; 0x0; 0x0;
  0x0; 0x0; 0x0; 0x0; 0x0; 0x0; 0x0; 0x0;
  0x0; 0x0; 0x0; 0x0; 0x0; 0x0; 0x0; 0x0;
  0x0; 0x0; 0x0; 0x0; 0x0; 0x0; 0x0; 0x0;
  0x0; 0x0; 0x0; 0x0; 0x0; 0x0; 0x0; 0x0;
  0x0; 0xef; 0xff; 0xff; 0xff; 0xff; 0xff; 0xff;
  0xff; 0xff; 0xff; 0x91; 0xff; 0xff; 0xff; 0xff;
  0xff; 0xff; 0xff; 0xff; 0xff; 0xff; 0x60; 0x0;
  0x0; 0x0; 0x0; 0x0; 0x0; 0x0; 0x0; 0x0;
  0x0; 0x0; 0x0; 0x0; 0x0; 0x0; 0x0; 0x0;
  0x0; 0x0; 0x0; 0x0; 0x0; 0x0; 0x0; 0x0;
  0x0; 0x0; 0x0; 0x0; 0x0; 0x0; 0x0; 0x0;
  0x0; 0xe; 0xff; 0xff; 0xff; 0xff; 0xff; 0xff;
  0xff; 0xff; 0xff; 0xf9; 0x1f; 0xff; 0xff; 0xff;
  0xff; 0xff; 0xff; 0xff; 0xff; 0xff; 0xf6; 0x0;
  0x0; 0x0; 0x0; 0x0; 0x0; 0x0; 0x0; 0x0;
  0x0; 0x0; 0x0; 0x0; 0x0; 0x0; 0x0; 0x0;
  0x0; 0x0; 0x0; 0x0; 0x0; 0x0; 0x0; 0x0;
  0x0; 0x0; 0x0; 0x0; 0x0; 0x0; 0x0; 0x0;
  0x0; 0x0; 0xef; 0xff; 0xff; 0xff; 0xff; 0xff;
  0xff; 0xff; 0xff; 0xff; 0x91; 0xff; 0xff; 0xff;
  0xff; 0xff; 0xff; 0xff; 0xff; 0xff; 0xff; 0x60;
  0x0; 0x0; 0x0; 0x0; 0x0; 0x0; 0x0; 0x0;
  0x0; 0x0; 0x0; 0x0; 0x0; 0x0; 0x0; 0x0;
  0x0; 0x0; 0x0; 0x0; 0x0; 0x0; 0x0; 0x0;
  0x0; 0x0; 0x0; 0x0; 0x0; 0x0; 0x0; 0x0;
  0x0; 0x0; 0xe; 0xff; 0xff; 0xff; 0xff; 0xff;
  0xff; 0xff; 0xff; 0xff; 0xf9; 0x1f; 0xff; 0xff;
  0xff; 0xff; 0xff; 0xff; 0xff; 0xff; 0xff; 0xf6;
  0x0; 0x0; 0x0; 0x0; 0x0; 0x0; 0x0; 0x0;
  0x0; 0x0; 0x0; 0x0; 0x0; 0x0; 0x0; 0x0;
  0x0; 0x0; 0x0; 0x0; 0x0; 0x0; 0x0; 0x0;
  0x0; 0x0; 0x0; 0x0; 0x0; 0x0; 0x0; 0x0;
  0x0; 0x0; 0x0; 0xef; 0xff; 0xff; 0xff; 0xff;
  0xff; 0xff; 0xff; 0xff; 0xff; 0x91; 0xff; 0xff;
  0xff; 0xff; 0xff; 0xff; 0xff; 0xff; 0xff; 0xff;
  0x60; 0x0; 0x0; 0x0; 0x0; 0x0; 0x0; 0x0;
  0x0; 0x0; 0x0; 0x0; 0x0; 0x0; 0x0; 0x0;
  0x0; 0x0; 0x0; 0x0; 0x0; 0x0; 0x0; 0x0;
  0x0; 0x0; 0x0; 0x0; 0x0; 0x0; 0x0; 0x0;
  0x0; 0x0; 0x0; 0xe; 0xff; 0xff; 0xff; 0xff;
  0xff; 0xff; 0xff; 0xff; 0xff; 0xf9; 0x1f; 0xff;
  0xff; 0xff; 0xff; 0xff; 0xff; 0xff; 0xff; 0xff;
  0xf6; 0x0; 0x0; 0x0; 0x0; 0x0; 0x0; 0x0;
  0x0; 0x0; 0x0; 0x0; 0x0; 0x0; 0x0; 0x0;
  0x0; 0x0; 0x0; 0x0; 0x0; 0x0; 0x0; 0x0;
  0x0; 0x0; 0x0; 0x0; 0x0; 0x0; 0x0; 0x0;
  0x0; 0x0; 0x0; 0x0; 0xef; 0xff; 0xff; 0xff;
  0xff; 0xff; 0xff; 0xff; 0xff; 0xff; 0x91; 0xff;
  0xff; 0xff; 0xff; 0xff; 0xff; 0xff; 0xff; 0xff;
  0xff; 0x60; 0x0; 0x0; 0x0; 0x0; 0x0; 0x0;
  0x0; 0x0; 0x0; 0x0; 0x0; 0x0; 0x0; 0x0;
  0x0; 0x0; 0x0; 0x0; 0x0; 0x0; 0x0; 0x0;
  0x0; 0x0; 0x0; 0x0; 0x0; 0x0; 0x0; 0x0;
  0x0; 0x0; 0x0; 0x0; 0xe; 0xff; 0xff; 0xff;
  0xff; 0xff; 0xff; 0xff; 0xff; 0xff; 0xf9; 0x1f;
  0xff; 0xff; 0xff; 0xff; 0xff; 0xff; 0xff; 0xff;
  0xff; 0xf6; 0x0; 0x0; 0x0; 0x0; 0x0; 0x0;
  0x0; 0x0; 0x0; 0x0; 0x0; 0x0; 0x0; 0x0;
  0x0; 0x0; 0x0; 0x0; 0x0; 0x0; 0x0; 0x0;
  0x0; 0x0; 0x0; 0x0; 0x0; 0x0; 0x0; 0x0;
  0x0; 0x0; 0x0; 0x0; 0x0; 0xef; 0xff; 0xff;
  0xff; 0xff; 0xff; 0xff; 0xff; 0xff; 0xff; 0x91;
  0xff; 0xff; 0xff; 0xff; 0xff; 0xff; 0xff; 0xff;
  0xff; 0xff; 0x60; 0x0; 0x0; 0x0; 0x0; 0x0;
  0x0; 0x0; 0x0; 0x0; 0x0; 0x0; 0x0; 0x0;
  0x0; 0x0; 0x0; 0x0; 0x0; 0x0; 0x0; 0x0;
  0x0; 0x0; 0x0; 0x0; 0x0; 0x0; 0x0; 0x0;
  0x0; 0x0; 0x0; 0x0; 0x0; 0xe; 0xff; 0xff;
  0xff; 0xff; 0xff; 0xff; 0xff; 0xff; 0xff; 0xf9;
  0x1f; 0xff; 0xff; 0xff; 0xff; 0xff; 0xff; 0xff;
  0xff; 0xff; 0xf6; 0x0; 0x0; 0x0; 0x0; 0x0;
  0x0; 0x0; 0x0; 0x0; 0x0; 0x0; 0x0; 0x0;
  0x0; 0x0; 0x0; 0x0; 0x0; 0x0; 0x0; 0x0;
  0x0; 0x0; 0x0; 0x0; 0x0; 0x0; 0x0; 0x0;
  0x0; 0x0; 0x0; 0x0; 0x0; 0x0; 0xef; 0xff;
  0xff; 0xff; 0xff; 0xff; 0xff; 0xff; 0xff; 0xff;
  0x91; 0xff; 0xff; 0xff; 0xff; 0xff; 0xff; 0xff;
  0xff; 0xff; 0xff; 0x60; 0x0; 0x0; 0x0; 0x0;
  0x0; 0x0; 0x0; 0x0; 0x0; 0x0; 0x0; 0x0;
  0x0; 0x0; 0x0; 0x0; 0x0; 0x0; 0x0; 0x0;
  0x0; 0x0; 0x0; 0x0; 0x0; 0x0; 0x0; 0x0;
  0x0; 0x0; 0x0; 0x0; 0x0; 0x0; 0xe; 0xff;
  0xff; 0xff; 0xff; 0xff; 0xff; 0xff; 0xff; 0xff;
  0xf9; 0x1f; 0xff; 0xff; 0xff; 0xff; 0xff; 0xff;
  0xff; 0xff; 0xff; 0xf6; 0x0; 0x0; 0x0; 0x0;
  0x0; 0x0; 0x0; 0x0; 0x0; 0x0; 0x0; 0x0;
  0x0; 0x0; 0x0; 0x0; 0x0; 0x0; 0x0; 0x0;
  0x0; 0x0; 0x0; 0x0; 0x0; 0x0; 0x0; 0x0;
  0x0; 0x0; 0x0; 0x0; 0x0; 0x0; 0x0; 0xef;
  0xff; 0xff; 0xff; 0xff; 0xff; 0xff; 0xff; 0xff;
  0xff; 0x91; 0xff; 0xff; 0xff; 0xff; 0xff; 0xff;
  0xff; 0xff; 0xff; 0xff; 0x60; 0x0; 0x0; 0x0;
  0x0; 0x0; 0x0; 0x0; 0x0; 0x0; 0x0; 0x0;
  0x0; 0x0; 0x0; 0x0; 0x0; 0x0; 0x0; 0x0;
  0x0; 0x0; 0x0; 0x0; 0x0; 0x0; 0x0; 0x0;
  0x0; 0x0; 0x0; 0x0; 0x0; 0x0; 0x0; 0xe;
  0xff; 0xff; 0xff; 0xff; 0xff; 0xff; 0xff; 0xff;
  0xff; 0xf9; 0x1f; 0xff; 0xff; 0xff; 0xff; 0xff;
  0xff; 0xff; 0xff; 0xff; 0xf6; 0x0; 0x0; 0x0;
  0x0; 0x0; 0x0; 0x0; 0x0; 0x0; 0x0; 0x0;
  0x0; 0x0; 0x0; 0x0; 0x0; 0x0; 0x0; 0x0;
  0x0; 0x0; 0x0; 0x0; 0x0; 0x0; 0x0; 0x0;
  0x0; 0x0; 0x0; 0x0; 0x0; 0x0; 0x0; 0x0;
  0xef; 0xff; 0xff; 0xff; 0xff; 0xff; 0xff; 0xff;
  0xff; 0xff; 0x91; 0xff; 0xff; 0xff; 0xff; 0xff;
  0xff; 0xff; 0xff; 0xff; 0xff; 0x60; 0x0; 0x0;
  0x0; 0x0; 0x0; 0x0; 0x0; 0x0; 0x0; 0x0 ].

Definition quicksand256_bitmap_19 : list Z :=
  [ 0x0; 0x0; 0x0; 0x0; 0x0; 0x0; 0x0; 0x0;
  0x0; 0x0; 0x0; 0x0; 0x0; 0x0; 0x0; 0x0;
  0x0; 0x0; 0x0; 0x0; 0x0; 0x0; 0x0; 0x0;
  0xe; 0xff; 0xff; 0xff; 0xff; 0xff; 0xff; 0xff;
  0xff; 0xff; 0xf9; 0x1f; 0xff; 0xff; 0xff; 0xff;
  0xff; 0xff; 0xff; 0xff; 0xff; 0xf6; 0x0; 0x0;
  0x0; 0x0; 0x0; 0x0; 0x0; 0x0; 0x0; 0x0;
  0x0; 0x0; 0x0; 0x0; 0x0; 0x0; 0x0; 0x0;
  0x0; 0x0; 0x0; 0x0; 0x0; 0x0; 0x0; 0x0;
  0x0; 0x0; 0x0; 0x0; 0x0; 0x0; 0x0; 0x0;
  0x0; 0xef; 0xff; 0xff; 0xff; 0xff; 0xff; 0xff;
  0xff; 0xff; 0xff; 0x91; 0xff; 0xff; 0xff; 0xff;
  0xff; 0xff; 0xff; 0xff; 0xff; 0xff; 0x60; 0x0;
  0x0; 0x0; 0x0; 0x0; 0x0; 0x0; 0x0; 0x0;
  0x0; 0x0; 0x0; 0x0; 0x0; 0x0; 0x0; 0x0;
  0x0; 0x0; 0x0; 0x0; 0x0; 0x0; 0x0; 0x0;
  0x0; 0x0; 0x0; 0x0; 0x0; 0x0; 0x0; 0x0;
  0x0; 0xe; 0xff; 0xff; 0xff; 0xff; 0xff; 0xff;
  0xff; 0xff; 0xff; 0xf9; 0x1f; 0xff; 0xff; 0xff;
  0xff; 0xff; 0xff; 0xff; 0xff; 0xff; 0xf6; 0x0;
  0x0; 0x0; 0x0; 0x0; 0x0; 0x0; 0x0; 0x0;
  0x0; 0x0; 0x0; 0x0; 0x0; 0x0; 0x0; 0x0;
  0x0; 0x0; 0x0; 0x0; 0x0; 0x0; 0x0; 0x0;
  0x0; 0x0; 0x0; 0x0; 0x0; 0x0; 0x0; 0x0;
  0x0; 0x0; 0xef; 0xff; 0xff; 0xff; 0xff; 0xff;
  0xff; 0xff; 0xff; 0xff; 0x91; 0xff; 0xff; 0xff;
  0xff; 0xff; 0xff; 0xff; 0xff; 0xff; 0xff; 0x60;
  0x0; 0x0; 0x0; 0x0; 0x0; 0x0; 0x0; 0x0;
  0x0; 0x0; 0x0; 0x0; 0x0; 0x0; 0x0; 0x0;
  0x0; 0x0; 0x0; 0x0; 0x0; 0x0; 0x0; 0x0;
  0x0; 0x0; 0x0; 0x0; 0x0; 0x0; 0x0; 0x0;
  0x0; 0x0; 0xe; 0xff; 0xff; 0xff; 0xff; 0xff;
  0xff; 0xff; 0xff; 0xff; 0xf9; 0x1f; 0xff; 0xff;
  0xff; 0xff; 0xff; 0xff; 0xff; 0xff; 0xff; 0xf6;
  0x0; 0x0; 0x0; 0x0; 0x0; 0x0; 0x0; 0x0;
  0x0; 0x0; 0x0; 0x0; 0x0; 0x0; 0x0; 0x0;
  0x0; 0x0; 0x0; 0x0; 0x0; 0x0; 0x0; 0x0;
  0x0; 0x0; 0x0; 0x0; 0x0; 0x0; 0x0; 0x0;
  0x0; 0x0; 0x0; 0xef; 0xff; 0xff; 0xff; 0xff;
  0xff; 0xff; 0xff; 0xff; 0xff; 0x91; 0xff; 0xff;
  0xff; 0xff; 0xff; 0xff; 0xff; 0xff; 0xff; 0xff;
  0x60; 0x0; 0x0; 0x0; 0x0; 0x0; 0x0; 0x0;
  0x0; 0x0; 0x0; 0x0; 0x0; 0x0; 0x0; 0x0;
  0x0; 0x0; 0x0; 0x0; 0x0; 0x0; 0x0; 0x0;
  0x0; 0x0; 0x0; 0x0; 0x0; 0x0; 0x0; 0x0;
  0x0; 0x0; 0x0; 0xe; 0xff; 0xff; 0xff; 0xff;
  0xff; 0xff; 0xff; 0xff; 0xff; 0xf9; 0x1f; 0xff;
  0xff; 0xff; 0xff; 0xff; 0xff; 0xff; 0xff; 0xff;
  0xf6; 0x0; 0x0; 0x0; 0x0; 0x0; 0x0; 0x0;
  0x0; 0x0; 0x0; 0x0; 0x0; 0x0; 0x0; 0x0;
  0x0; 0x0; 0x0; 0x0; 0x0; 0x0; 0x0; 0x0;
  0x0; 0x0; 0x0; 0x0; 0x0; 0x0; 0x0; 0x0;
  0x0; 0x0; 0x0; 0x0; 0xef; 0xff; 0xff; 0xff;
  0xff; 0xff; 0xff; 0xff; 0xff; 0xff; 0x91; 0xff;
  0xff; 0xff; 0xff; 0xff; 0xff; 0xff; 0xff; 0xff;
  0xff; 0x60; 0x0; 0x0; 0x0; 0x0; 0x0; 0x0;
  0x0; 0x0; 0x0; 0x0; 0x0; 0x0; 0x0; 0x0;
  0x0; 0x0; 0x0; 0x0; 0x0; 0x0; 0x0; 0x0;
  0x0; 0x0; 0x0; 0x0; 0x0; 0x0; 0x0; 0x0;
  0x0; 0x0; 0x0; 0x0; 0xe; 0xff; 0xff; 0xff;
  0xff; 0xff; 0xff; 0xff; 0xff; 0xff; 0xf9; 0x1f;
  0xff; 0xff; 0xff; 0xff; 0xff; 0xff; 0xff; 0xff;
  0xff; 0xf6; 0x0; 0x0; 0x0; 0x0; 0x0; 0x0;
  0x0; 0x0; 0x0; 0x0; 0x0; 0x0; 0x0; 0x0;
  0x0; 0x0; 0x0; 0x0; 0x0; 0x0; 0x0; 0x0;
  0x0; 0x0; 0x0; 0x0; 0x0; 0x0; 0x0; 0x0;
  0x0; 0x0; 0x0; 0x0; 0x0; 0xef; 0xff; 0xff;
  0xff; 0xff; 0xff; 0xff; 0xff; 0xff; 0xff; 0x91;
  0xff; 0xff; 0xff; 0xff; 0xff; 0xff; 0xff; 0xff;
  0xff; 0xff; 0x60; 0x0; 0x0; 0x0; 0x0; 0x0;
  0x0; 0x0; 0x0; 0x0; 0x0; 0x0; 0x0; 0x0;
  0x0; 0x0; 0x0; 0x0; 0x0; 0x0; 0x0; 0x0;
  0x0; 0x0; 0x0; 0x0; 0x0; 0x0; 0x0; 0x0;
  0x0; 0x0; 0x0; 0x0; 0x0; 0xe; 0xff; 0xff;
  0xff; 0xff; 0xff; 0xff; 0xff; 0xff; 0xff; 0xf9;
  0x1f; 0xff; 0xff; 0xff; 0xff; 0xff; 0xff; 0xff;
  0xff; 0xff; 0xf6; 0x0; 0x0; 0x0; 0x0; 0x0;
  0x0; 0x0; 0x0; 0x0; 0x0; 0x0; 0x0; 0x0;
  0x0; 0x0; 0x0; 0x0; 0x0; 0x0; 0x0; 0x0;
  0x0; 0x0; 0x0; 0x0; 0x0; 0x0; 0x0; 0x0;
  0x0; 0x0; 0x0; 0x0; 0x0; 0x0; 0xef; 0xff;
  0xff; 0xff; 0xff; 0xff; 0xff; 0xff; 0xff; 0xff;
  0x91; 0xff; 0xff; 0xff; 0xff; 0xff; 0xff; 0xff;
  0xff; 0xff; 0xff; 0x60; 0x0; 0x0; 0x0; 0x0;
  0x0; 0x0; 0x0; 0x0; 0x0; 0x0; 0x0; 0x0;
  0x0; 0x0; 0x0; 0x0; 0x0; 0x0; 0x0; 0x0;
  0x0; 0x0; 0x0; 0x0; 0x0; 0x0; 0x0; 0x0;
  0x0; 0x0; 0x0; 0x0; 0x0; 0x0; 0xe; 0xff;
  0xff; 0xff; 0xff; 0xff; 0xff; 0xff; 0xff; 0xff;
  0xf9; 0x1f; 0xff; 0xff; 0xff; 0xff; 0xff; 0xff;
  0xff; 0xff; 0xff; 0xf6; 0x0; 0x0; 0x0; 0x0;
  0x0; 0x0; 0x0; 0x0; 0x0; 0x0; 0x0; 0x0;
  0x0; 0x0; 0x0; 0x0; 0x0; 0x0; 0x0; 0x0;
  0x0; 0x0; 0x0; 0x0; 0x0; 0x0; 0x0; 0x0;
  0x0; 0x0; 0x0; 0x0; 0x0; 0x0; 0x0; 0xef;
  0xff; 0xff; 0xff; 0xff; 0xff; 0xff; 0xff; 0xff;
  0xff; 0x91; 0xff; 0xff; 0xff; 0xff; 0xff; 0xff;
  0xff; 0xff; 0xff; 0xff; 0x60; 0x0; 0x0; 0x0;
  0x0; 0x0; 0x0; 0x0; 0x0; 0x0; 0x0; 0x0;
  0x0; 0x0; 0x0; 0x0; 0x0; 0x0; 0x0; 0x0;
  0x0; 0x0; 0x0; 0x0; 0x0; 0x0; 0x0; 0x0;
  0x0; 0x0; 0x0; 0x0; 0x0; 0x0; 0x0; 0xe;
  0xff; 0xff; 0xff; 0xff; 0xff; 0xff; 0xff; 0xff;
  0xff; 0xf9; 0x1f; 0xff; 0xff; 0xff; 0xff; 0xff;
  0xff; 0xff; 0xff; 0xff; 0xf6; 0x0; 0x0; 0x0;
  0x0; 0x0; 0x0; 0x0; 0x0; 0x0; 0x0; 0x0;
  0x0; 0x0; 0x0; 0x0; 0x0; 0x0; 0x0; 0x0;
  0x0; 0x0; 0x0; 0x0; 0x0; 0x0; 0x0; 0x0;
  0x0; 0x0; 0x0; 0x0; 0x0; 0x0; 0x0; 0x0;
  0xef; 0xff; 0xff; 0xff; 0xff; 0xff; 0xff; 0xff;
  0xff; 0xff; 0x91; 0xff; 0xff; 0xff; 0xff; 0xff;
  0xff; 0xff; 0xff; 0xff; 0xff; 0x60; 0x0; 0x0;
  0x0; 0x0; 0x0; 0x0; 0x0; 0x0; 0x0; 0x0;
  0x0; 0x0; 0x0; 0x0; 0x0; 0x0; 0x0; 0x0;
  0x0; 0x0; 0x0; 0x0; 0x0; 0x0; 0x0; 0x0;
  0x0; 0x0; 0x0; 0x0; 0x0; 0x0; 0x0; 0x0;
  0xe; 0xff; 0xff; 0xff; 0xff; 0xff; 0xff; 0xff;
  0xff; 0xff; 0xf9; 0x1f; 0xff; 0xff; 0xff; 0xff;
  0xff; 0xff; 0xff; 0xff; 0xff; 0xf6; 0x0; 0x0;
  0x0; 0x0; 0x0; 0x0; 0x0; 0x0; 0x0; 0x0;
  0x0; 0x0; 0x0; 0x0; 0x0; 0x0; 0x0; 0x0;
  0x0; 0x0; 0x0; 0x0; 0x0; 0x0; 0x0; 0x0;
  0x0; 0x0; 0x0; 0x0; 0x0; 0x0; 0x0; 0x0;
  0x0; 0xef; 0xff; 0xff; 0xff; 0xff; 0xff; 0xff;
  0xff; 0xff; 0xff; 0x91; 0xff; 0xff; 0xff; 0xff;
  0xff; 0xff; 0xff; 0xff; 0xff; 0xff; 0x60; 0x0;
  0x0; 0x0; 0x0; 0x0; 0x0; 0x0; 0x0; 0x0;
  0x0; 0x0; 0x0; 0x0; 0x0; 0x0; 0x0; 0x0;
  0x0; 0x0; 0x0; 0x0; 0x0; 0x0; 0x0; 0x0;
  0x0; 0x0; 0x0; 0x0; 0x0; 0x0; 0x0; 0x0;
  0x0; 0xe; 0xff; 0xff; 0xff; 0xff; 0xff; 0xff;
  0xff; 0xff; 0xff; 0xf9; 0x1f; 0xff; 0xff; 0xff;
  0xff; 0xff; 0xff; 0xff; 0xff; 0xff; 0xf6; 0x0;
  0x0; 0x0; 0x0; 0x0; 0x0; 0x0; 0x0; 0x0;
  0x0; 0x0; 0x0; 0x0; 0x0; 0x0; 0x0; 0x0;
  0x0; 0x0; 0x0; 0x0; 0x0; 0x0; 0x0; 0x0;
  0x0; 0x0; 0x0; 0x0; 0x0; 0x0; 0x0; 0x0;
  0x0; 0x0; 0xef; 0xff; 0xff; 0xff; 0xff; 0xff;
  0xff; 0xff; 0xff; 0xff; 0x91; 0xff; 0xff; 0xff;
  0xff; 0xff; 0xff; 0xff; 0xff; 0xff; 0xff; 0x60;
  0x0; 0x0; 0x0; 0x0; 0x0; 0x0; 0x0; 0x0;
  0x0; 0x0; 0x0; 0x0; 0x0; 0x0; 0x0; 0x0;
  0x0; 0x0; 0x0; 0x0; 0x0; 0x0; 0x0; 0x0;
  0x0; 0x0; 0x0; 0x0; 0x0; 0x0; 0x0; 0x0;
  0x0; 0x0; 0xe; 0xff; 0xff; 0xff; 0xff; 0xff;
  0xff; 0xff; 0xff; 0xff; 0xf9; 0x1f; 0xff; 0xff;
  0xff; 0xff; 0xff; 0xff; 0xff; 0xff; 0xff; 0xf6;
  0x0; 0x0; 0x0; 0x0; 0x0; 0x0; 0x0; 0x0;
  0x0; 0x0; 0x0; 0x0; 0x0; 0x0; 0x0; 0x0;
  0x0; 0x0; 0x0; 0x0; 0x0; 0x0; 0x0; 0x0 ].

Definition quicksand256_bitmap_20 : list Z :=
  [ 0x0; 0x0; 0x0; 0x0; 0x0; 0x0; 0x0; 0x0;
  0x0; 0x0; 0x0; 0xef; 0xff; 0xff; 0xff; 0xff;
  0xff; 0xff; 0xff; 0xff; 0xff; 0x91; 0xff; 0xff;
  0xff; 0xff; 0xff; 0xff; 0xff; 0xff; 0xff; 0xff;
  0x60; 0x0; 0x0; 0x0; 0x0; 0x0; 0x0; 0x0;
  0x0; 0x0; 0x0; 0x0; 0x0; 0x0; 0x0; 0x0;
  0x0; 0x0; 0x0; 0x0; 0x0; 0x0; 0x0; 0x0;
  0x0; 0x0; 0x0; 0x0; 0x0; 0x0; 0x0; 0x0;
  0x0; 0x0; 0x0; 0xe; 0xff; 0xff; 0xff; 0xff;
  0xff; 0xff; 0xff; 0xff; 0xff; 0xf9; 0x1f; 0xff;
  0xff; 0xff; 0xff; 0xff; 0xff; 0xff; 0xff; 0xff;
  0xf6; 0x0; 0x0; 0x0; 0x0; 0x0; 0x0; 0x0;
  0x0; 0x0; 0x0; 0x0; 0x0; 0x0; 0x0; 0x0;
  0x0; 0x0; 0x0; 0x0; 0x0; 0x0; 0x0; 0x0;
  0x0; 0x0; 0x0; 0x0; 0x0; 0x0; 0x0; 0x0;
  0x0; 0x0; 0x0; 0x0; 0xef; 0xff; 0xff; 0xff;
  0xff; 0xff; 0xff; 0xff; 0xff; 0xff; 0x91; 0xff;
  0xff; 0xff; 0xff; 0xff; 0xff; 0xff; 0xff; 0xff;
  0xff; 0x60; 0x0; 0x0; 0x0; 0x0; 0x0; 0x0;
  0x0; 0x0; 0x0; 0x0; 0x0; 0x0; 0x0; 0x0;
  0x0; 0x0; 0x0; 0x0; 0x0; 0x0; 0x0; 0x0;
  0x0; 0x0; 0x0; 0x0; 0x0; 0x0; 0x0; 0x0;
  0x0; 0x0; 0x0; 0x0; 0xe; 0xff; 0xff; 0xff;
  0xff; 0xff; 0xff; 0xff; 0xff; 0xff; 0xf9; 0x1f;
  0xff; 0xff; 0xff; 0xff; 0xff; 0xff; 0xff; 0xff;
  0xff; 0xf6; 0x0; 0x0; 0x0; 0x0; 0x0; 0x0;
  0x0; 0x0; 0x0; 0x0; 0x0; 0x0; 0x0; 0x0;
  0x0; 0x0; 0x0; 0x0; 0x0; 0x0; 0x0; 0x0;
  0x0; 0x0; 0x0; 0x0; 0x0; 0x0; 0x0; 0x0;
  0x0; 0x0; 0x0; 0x0; 0x0; 0xef; 0xff; 0xff;
  0xff; 0xff; 0xff; 0xff; 0xff; 0xff; 0xff; 0x91;
  0xff; 0xff; 0xff; 0xff; 0xff; 0xff; 0xff; 0xff;
  0xff; 0xff; 0x60; 0x0; 0x0; 0x0; 0x0; 0x0;
  0x0; 0x0; 0x0; 0x0; 0x0; 0x0; 0x0; 0x0;
  0x0; 0x0; 0x0; 0x0; 0x0; 0x0; 0x0; 0x0;
  0x0; 0x0; 0x0; 0x0; 0x0; 0x0; 0x0; 0x0;
  0x0; 0x0; 0x0; 0x0; 0x0; 0xe; 0xff; 0xff;
  0xff; 0xff; 0xff; 0xff; 0xff; 0xff; 0xff; 0xf9;
  0x1f; 0xff; 0xff; 0xff; 0xff; 0xff; 0xff; 0xff;
  0xff; 0xff; 0xf6; 0x0; 0x0; 0x0; 0x0; 0x0;
  0x0; 0x0; 0x0; 0x0; 0x0; 0x0; 0x0; 0x0;
  0x0; 0x0; 0x0; 0x0; 0x0; 0x0; 0x0; 0x0;
  0x0; 0x0; 0x0; 0x0; 0x0; 0x0; 0x0; 0x0;
  0x0; 0x0; 0x0; 0x0; 0x0; 0x0; 0xef; 0xff;
  0xff; 0xff; 0xff; 0xff; 0xff; 0xff; 0xff; 0xff;
  0x91; 0xff; 0xff; 0xff; 0xff; 0xff; 0xff; 0xff;
  0xff; 0xff; 0xff; 0x60; 0x0; 0x0; 0x0; 0x0;
  0x0; 0x0; 0x0; 0x0; 0x0; 0x0; 0x0; 0x0;
  0x0; 0x0; 0x0; 0x0; 0x0; 0x0; 0x0; 0x0;
  0x0; 0x0; 0x0; 0x0; 0x0; 0x0; 0x0; 0x0;
  0x0; 0x0; 0x0; 0x0; 0x0; 0x0; 0xe; 0xff;
  0xff; 0xff; 0xff; 0xff; 0xff; 0xff; 0xff; 0xff;
  0xf9; 0x1f; 0xff; 0xff; 0xff; 0xff; 0xff; 0xff;
  0xff; 0xff; 0xff; 0xf6; 0x0; 0x0; 0x0; 0x0;
  0x0; 0x0; 0x0; 0x0; 0x0; 0x0; 0x0; 0x0;
  0x0; 0x0; 0x0; 0x0; 0x0; 0x0; 0x0; 0x0;
  0x0; 0x0; 0x0; 0x0; 0x0; 0x0; 0x0; 0x0;
  0x0; 0x0; 0x0; 0x0; 0x0; 0x0; 0x0; 0xef;
  0xff; 0xff; 0xff; 0xff; 0xff; 0xff; 0xff; 0xff;
  0xff; 0x91; 0xff; 0xff; 0xff; 0xff; 0xff; 0xff;
  0xff; 0xff; 0xff; 0xff; 0x60; 0x0; 0x0; 0x0;
  0x0; 0x0; 0x0; 0x0; 0x0; 0x0; 0x0; 0x0;
  0x0; 0x0; 0x0; 0x0; 0x0; 0x0; 0x0; 0x0;
  0x0; 0x0; 0x0; 0x0; 0x0; 0x0; 0x0; 0x0;
  0x0; 0x0; 0x0; 0x0; 0x0; 0x0; 0x0; 0xe;
  0xff; 0xff; 0xff; 0xff; 0xff; 0xff; 0xff; 0xff;
  0xff; 0xf9; 0x1f; 0xff; 0xff; 0xff; 0xff; 0xff;
  0xff; 0xff; 0xff; 0xff; 0xf6; 0x0; 0x0; 0x0;
  0x0; 0x0; 0x0; 0x0; 0x0; 0x0; 0x0; 0x0;
  0x0; 0x0; 0x0; 0x0; 0x0; 0x0; 0x0; 0x0;
  0x0; 0x0; 0x0; 0x0; 0x0; 0x0; 0x0; 0x0;
  0x0; 0x0; 0x0; 0x0; 0x0; 0x0; 0x0; 0x0;
  0xef; 0xff; 0xff; 0xff; 0xff; 0xff; 0xff; 0xff;
  0xff; 0xff; 0x91; 0xff; 0xff; 0xff; 0xff; 0xff;
  0xff; 0xff; 0xff; 0xff; 0xff; 0x60; 0x0; 0x0;
  0x0; 0x0; 0x0; 0x0; 0x0; 0x0; 0x0; 0x0;
  0x0; 0x0; 0x0; 0x0; 0x0; 0x0; 0x0; 0x0;
  0x0; 0x0; 0x0; 0x0; 0x0; 0x0; 0x0; 0x0;
  0x0; 0x0; 0x0; 0x0; 0x0; 0x0; 0x0; 0x0;
  0xe; 0xff; 0xff; 0xff; 0xff; 0xff; 0xff; 0xff;
  0xff; 0xff; 0xf9; 0x1f; 0xff; 0xff; 0xff; 0xff;
  0xff; 0xff; 0xff; 0xff; 0xff; 0xf6; 0x0; 0x0;
  0x0; 0x0; 0x0; 0x0; 0x0; 0x0; 0x0; 0x0;
  0x0; 0x0; 0x0; 0x0; 0x0; 0x0; 0x0; 0x0;
  0x0; 0x0; 0x0; 0x0; 0x0; 0x0; 0x0; 0x0;
  0x0; 0x0; 0x0; 0x0; 0x0; 0x0; 0x0; 0x0;
  0x0; 0xef; 0xff; 0xff; 0xff; 0xff; 0xff; 0xff;
  0xff; 0xff; 0xff; 0x91; 0xff; 0xff; 0xff; 0xff;
  0xff; 0xff; 0xff; 0xff; 0xff; 0xff; 0x60; 0x0;
  0x0; 0x0; 0x0; 0x0; 0x0; 0x0; 0x0; 0x0;
  0x0; 0x0; 0x0; 0x0; 0x0; 0x0; 0x0; 0x0;
  0x0; 0x0; 0x0; 0x0; 0x0; 0x0; 0x0; 0x0;
  0x0; 0x0; 0x0; 0x0; 0x0; 0x0; 0x0; 0x0;
  0x0; 0xe; 0xff; 0xff; 0xff; 0xff; 0xff; 0xff;
  0xff; 0xff; 0xff; 0xf9; 0x1f; 0xff; 0xff; 0xff;
  0xff; 0xff; 0xff; 0xff; 0xff; 0xff; 0xf6; 0x0;
  0x0; 0x0; 0x0; 0x0; 0x0; 0x0; 0x0; 0x0;
  0x0; 0x0; 0x0; 0x0; 0x0; 0x0; 0x0; 0x0;
  0x0; 0x0; 0x0; 0x0; 0x0; 0x0; 0x0; 0x0;
  0x0; 0x0; 0x0; 0x0; 0x0; 0x0; 0x0; 0x0;
  0x0; 0x0; 0xef; 0xff; 0xff; 0xff; 0xff; 0xff;
  0xff; 0xff; 0xff; 0xff; 0x91; 0xff; 0xff; 0xff;
  0xff; 0xff; 0xff; 0xff; 0xff; 0xff; 0xff; 0x60;
  0x0; 0x0; 0x0; 0x0; 0x0; 0x0; 0x0; 0x0;
  0x0; 0x0; 0x0; 0x0; 0x0; 0x0; 0x0; 0x0;
  0x0; 0x0; 0x0; 0x0; 0x0; 0x0; 0x0; 0x0;
  0x0; 0x0; 0x0; 0x0; 0x0; 0x0; 0x0; 0x0;
  0x0; 0x0; 0xe; 0xff; 0xff; 0xff; 0xff; 0xff;
  0xff; 0xff; 0xff; 0xff; 0xf9; 0x1f; 0xff; 0xff;
  0xff; 0xff; 0xff; 0xff; 0xff; 0xff; 0xff; 0xf6;
  0x0; 0x0; 0x0; 0x0; 0x0; 0x0; 0x0; 0x0;
  0x0; 0x0; 0x0; 0x0; 0x0; 0x0; 0x0; 0x0;
  0x0; 0x0; 0x0; 0x0; 0x0; 0x0; 0x0; 0x0;
  0x0; 0x0; 0x0; 0x0; 0x0; 0x0; 0x0; 0x0;
  0x0; 0x0; 0x0; 0xef; 0xff; 0xff; 0xff; 0xff;
  0xff; 0xff; 0xff; 0xff; 0xff; 0x91; 0xff; 0xff;
  0xff; 0xff; 0xff; 0xff; 0xff; 0xff; 0xff; 0xff;
  0x60; 0x0; 0x0; 0x0; 0x0; 0x0; 0x0; 0x0;
  0x0; 0x0; 0x0; 0x0; 0x0; 0x0; 0x0; 0x0;
  0x0; 0x0; 0x0; 0x0; 0x0; 0x0; 0x0; 0x0;
  0x0; 0x0; 0x0; 0x0; 0x0; 0x0; 0x0; 0x0;
  0x0; 0x0; 0x0; 0xe; 0xff; 0xff; 0xff; 0xff;
  0xff; 0xff; 0xff; 0xff; 0xff; 0xf9; 0x1f; 0xff;
  0xff; 0xff; 0xff; 0xff; 0xff; 0xff; 0xff; 0xff;
  0xf6; 0x0; 0x0; 0x0; 0x0; 0x0; 0x0; 0x0;
  0x0; 0x0; 0x0; 0x0; 0x0; 0x0; 0x0; 0x0;
  0x0; 0x0; 0x0; 0x0; 0x0; 0x0; 0x0; 0x0;
  0x0; 0x0; 0x0; 0x0; 0x0; 0x0; 0x0; 0x0;
  0x0; 0x0; 0x0; 0x0; 0xef; 0xff; 0xff; 0xff;
  0xff; 0xff; 0xff; 0xff; 0xff; 0xff; 0x91; 0xff;
  0xff; 0xff; 0xff; 0xff; 0xff; 0xff; 0xff; 0xff;
  0xff; 0x60; 0x0; 0x0; 0x0; 0x0; 0x0; 0x0;
  0x0; 0x0; 0x0; 0x0; 0x0; 0x0; 0x0; 0x0;
  0x0; 0x0; 0x0; 0x0; 0x0; 0x0; 0x0; 0x0;
  0x0; 0x0; 0x0; 0x0; 0x0; 0x0; 0x0; 0x0;
  0x0; 0x0; 0x0; 0x0; 0xe; 0xff; 0xff; 0xff;
  0xff; 0xff; 0xff; 0xff; 0xff; 0xff; 0xf9; 0x1f;
  0xff; 0xff; 0xff; 0xff; 0xff; 0xff; 0xff; 0xff;
  0xff; 0xf6; 0x0; 0x0; 0x0; 0x0; 0x0; 0x0;
  0x0; 0x0; 0x0; 0x0; 0x0; 0x0; 0x0; 0x0;
  0x0; 0x0; 0x0; 0x0; 0x0; 0x0; 0x0; 0x0;
  0x0; 0x0; 0x0; 0x0; 0x0; 0x0; 0x0; 0x0;
  0x0; 0x0; 0x0; 0x0; 0x0; 0xef; 0xff; 0xff;
  0xff; 0xff; 0xff; 0xff; 0xff; 0xff; 0xff; 0x91;
  0xff; 0xff; 0xff; 0xff; 0xff; 0xff; 0xff; 0xff;
  0xff; 0xff; 0x60; 0x0; 0x0; 0x0; 0x0; 0x0;
  0x0; 0x0; 0x0; 0x0; 0x0; 0x0; 0x0; 0x0;
  0x0; 0x0; 0x0; 0x0; 0x0; 0x0; 0x0; 0x0;
  0x0; 0x0; 0x0; 0x0; 0x0; 0x0; 0x0; 0x0;
  0x0; 0x0; 0x0; 0x0; 0x0; 0xe; 0xff; 0xff ].

Definition quicksand256_bitmap_21 : list Z :=
  [ 0xff; 0xff; 0xff; 0xff; 0xff; 0xff; 0xff; 0xf9;
  0x1f; 0xff; 0xff; 0xff; 0xff; 0xff; 0xff; 0xff;
  0xff; 0xff; 0xf6; 0x0; 0x0; 0x0; 0x0; 0x0;
  0x0; 0x0; 0x0; 0x0; 0x0; 0x0; 0x0; 0x0;
  0x0; 0x0; 0x0; 0x0; 0x0; 0x0; 0x0; 0x0;
  0x0; 0x0; 0x0; 0x0; 0x0; 0x0; 0x0; 0x0;
  0x0; 0x0; 0x0; 0x0; 0x0; 0x0; 0xef; 0xff;
  0xff; 0xff; 0xff; 0xff; 0xff; 0xff; 0xff; 0xff;
  0x91; 0xff; 0xff; 0xff; 0xff; 0xff; 0xff; 0xff;
  0xff; 0xff; 0xff; 0x60; 0x0; 0x0; 0x0; 0x0;
  0x0; 0x0; 0x0; 0x0; 0x0; 0x0; 0x0; 0x0;
  0x0; 0x0; 0x0; 0x0; 0x0; 0x0; 0x0; 0x0;
  0x0; 0x0; 0x0; 0x0; 0x0; 0x0; 0x0; 0x0;
  0x0; 0x0; 0x0; 0x0; 0x0; 0x0; 0xe; 0xff;
  0xff; 0xff; 0xff; 0xff; 0xff; 0xff; 0xff; 0xff;
  0xf9; 0x1f; 0xff; 0xff; 0xff; 0xff; 0xff; 0xff;
  0xff; 0xff; 0xff; 0xf6; 0x0; 0x0; 0x0; 0x0;
  0x0; 0x0; 0x0; 0x0; 0x0; 0x0; 0x0; 0x0;
  0x0; 0x0; 0x0; 0x0; 0x0; 0x0; 0x0; 0x0;
  0x0; 0x0; 0x0; 0x0; 0x0; 0x0; 0x0; 0x0;
  0x0; 0x0; 0x0; 0x0; 0x0; 0x0; 0x0; 0xef;
  0xff; 0xff; 0xff; 0xff; 0xff; 0xff; 0xff; 0xff;
  0xff; 0x91; 0xff; 0xff; 0xff; 0xff; 0xff; 0xff;
  0xff; 0xff; 0xff; 0xff; 0x60; 0x0; 0x0; 0x0;
  0x0; 0x0; 0x0; 0x0; 0x0; 0x0; 0x0; 0x0;
  0x0; 0x0; 0x0; 0x0; 0x0; 0x0; 0x0; 0x0;
  0x0; 0x0; 0x0; 0x0; 0x0; 0x0; 0x0; 0x0;
  0x0; 0x0; 0x0; 0x0; 0x0; 0x0; 0x0; 0xe;
  0xff; 0xff; 0xff; 0xff; 0xff; 0xff; 0xff; 0xff;
  0xff; 0xf9; 0x1f; 0xff; 0xff; 0xff; 0xff; 0xff;
  0xff; 0xff; 0xff; 0xff; 0xf6; 0x0; 0x0; 0x0;
  0x0; 0x0; 0x0; 0x0; 0x0; 0x0; 0x0; 0x0;
  0x0; 0x0; 0x0; 0x0; 0x0; 0x0; 0x0; 0x0;
  0x0; 0x0; 0x0; 0x0; 0x0; 0x0; 0x0; 0x0;
  0x0; 0x0; 0x0; 0x0; 0x0; 0x0; 0x0; 0x0;
  0xef; 0xff; 0xff; 0xff; 0xff; 0xff; 0xff; 0xff;
  0xff; 0xff; 0x91; 0xff; 0xff; 0xff; 0xff; 0xff;
  0xff; 0xff; 0xff; 0xff; 0xff; 0x60; 0x0; 0x0;
  0x0; 0x0; 0x0; 0x0; 0x0; 0x0; 0x0; 0x0;
  0x0; 0x0; 0x0; 0x0; 0x0; 0x0; 0x0; 0x0;
  0x0; 0x0; 0x0; 0x0; 0x0; 0x0; 0x0; 0x0;
  0x0; 0x0; 0x0; 0x0; 0x0; 0x0; 0x0; 0x0;
  0xe; 0xff; 0xff; 0xff; 0xff; 0xff; 0xff; 0xff;
  0xff; 0xff; 0xf9; 0x1f; 0xff; 0xff; 0xff; 0xff;
  0xff; 0xff; 0xff; 0xff; 0xff; 0xf6; 0x0; 0x0;
  0x0; 0x0; 0x0; 0x0; 0x0; 0x0; 0x0; 0x0;
  0x0; 0x0; 0x0; 0x0; 0x0; 0x0; 0x0; 0x0;
  0x0; 0x0; 0x0; 0x0; 0x0; 0x0; 0x0; 0x0;
  0x0; 0x0; 0x0; 0x0; 0x0; 0x0; 0x0; 0x0;
  0x0; 0xef; 0xff; 0xff; 0xff; 0xff; 0xff; 0xff;
  0xff; 0xff; 0xff; 0x91; 0xff; 0xff; 0xff; 0xff;
  0xff; 0xff; 0xff; 0xff; 0xff; 0xff; 0x60; 0x0;
  0x0; 0x0; 0x0; 0x0; 0x0; 0x0; 0x0; 0x0;
  0x0; 0x0; 0x0; 0x0; 0x0; 0x0; 0x0; 0x0;
  0x0; 0x0; 0x0; 0x0; 0x0; 0x0; 0x0; 0x0;
  0x0; 0x0; 0x0; 0x0; 0x0; 0x0; 0x0; 0x0;
  0x0; 0xe; 0xff; 0xff; 0xff; 0xff; 0xff; 0xff;
  0xff; 0xff; 0xff; 0xf9; 0x1f; 0xff; 0xff; 0xff;
  0xff; 0xff; 0xff; 0xff; 0xff; 0xff; 0xf6; 0x0;
  0x0; 0x0; 0x0; 0x0; 0x0; 0x0; 0x0; 0x0;
  0x0; 0x0; 0x0; 0x0; 0x0; 0x0; 0x0; 0x0;
  0x0; 0x0; 0x0; 0x0; 0x0; 0x0; 0x0; 0x0;
  0x0; 0x0; 0x0; 0x0; 0x0; 0x0; 0x0; 0x0;
  0x0; 0x0; 0xef; 0xff; 0xff; 0xff; 0xff; 0xff;
  0xff; 0xff; 0xff; 0xff; 0x91; 0xff; 0xff; 0xff;
  0xff; 0xff; 0xff; 0xff; 0xff; 0xff; 0xff; 0x60;
  0x0; 0x0; 0x0; 0x0; 0x0; 0x0; 0x0; 0x0;
  0x0; 0x0; 0x0; 0x0; 0x0; 0x0; 0x0; 0x0;
  0x0; 0x0; 0x0; 0x0; 0x0; 0x0; 0x0; 0x0;
  0x0; 0x0; 0x0; 0x0; 0x0; 0x0; 0x0; 0x0;
  0x0; 0x0; 0xe; 0xff; 0xff; 0xff; 0xff; 0xff;
  0xff; 0xff; 0xff; 0xff; 0xf9; 0x1f; 0xff; 0xff;
  0xff; 0xff; 0xff; 0xff; 0xff; 0xff; 0xff; 0xf6;
  0x0; 0x0; 0x0; 0x0; 0x0; 0x0; 0x0; 0x0;
  0x0; 0x0; 0x0; 0x0; 0x0; 0x0; 0x0; 0x0;
  0x0; 0x0; 0x0; 0x0; 0x0; 0x0; 0x0; 0x0;
  0x0; 0x0; 0x0; 0x0; 0x0; 0x0; 0x0; 0x0;
  0x0; 0x0; 0x0; 0xef; 0xff; 0xff; 0xff; 0xff;
  0xff; 0xff; 0xff; 0xff; 0xff; 0x91; 0xff; 0xff;
  0xff; 0xff; 0xff; 0xff; 0xff; 0xff; 0xff; 0xff;
  0x60; 0x0; 0x0; 0x0; 0x0; 0x0; 0x0; 0x0;
  0x0; 0x0; 0x0; 0x0; 0x0; 0x0; 0x0; 0x0;
  0x0; 0x0; 0x0; 0x0; 0x0; 0x0; 0x0; 0x0;
  0x0; 0x0; 0x0; 0x0; 0x0; 0x0; 0x0; 0x0;
  0x0; 0x0; 0x0; 0xe; 0xff; 0xff; 0xff; 0xff;
  0xff; 0xff; 0xff; 0xff; 0xff; 0xf9; 0x1f; 0xff;
  0xff; 0xff; 0xff; 0xff; 0xff; 0xff; 0xff; 0xff;
  0xf6; 0x0; 0x0; 0x0; 0x0; 0x0; 0x0; 0x0;
  0x0; 0x0; 0x0; 0x0; 0x0; 0x0; 0x0; 0x0;
  0x0; 0x0; 0x0; 0x0; 0x0; 0x0; 0x0; 0x0;
  0x0; 0x0; 0x0; 0x0; 0x0; 0x0; 0x0; 0x0;
  0x0; 0x0; 0x0; 0x0; 0xef; 0xff; 0xff; 0xff;
  0xff; 0xff; 0xff; 0xff; 0xff; 0xff; 0x90; 0xff;
  0xff; 0xff; 0xff; 0xff; 0xff; 0xff; 0xff; 0xff;
  0xff; 0x60; 0x0; 0x0; 0x0; 0x0; 0x0; 0x0;
  0x0; 0x0; 0x0; 0x0; 0x0; 0x0; 0x0; 0x0;
  0x0; 0x0; 0x0; 0x0; 0x0; 0x0; 0x0; 0x0;
  0x0; 0x0; 0x0; 0x0; 0x0; 0x0; 0x0; 0x0;
  0x0; 0x0; 0x0; 0x0; 0xe; 0xff; 0xff; 0xff;
  0xff; 0xff; 0xff; 0xff; 0xff; 0xff; 0xf8; 0xf;
  0xff; 0xff; 0xff; 0xff; 0xff; 0xff; 0xff; 0xff;
  0xff; 0xf5; 0x0; 0x0; 0x0; 0x0; 0x0; 0x0;
  0x0; 0x0; 0x0; 0x0; 0x0; 0x0; 0x0; 0x0;
  0x0; 0x0; 0x0; 0x0; 0x0; 0x0; 0x0; 0x0;
  0x0; 0x0; 0x0; 0x0; 0x0; 0x0; 0x0; 0x0;
  0x0; 0x0; 0x0; 0x0; 0x0; 0xdf; 0xff; 0xff;
  0xff; 0xff; 0xff; 0xff; 0xff; 0xff; 0xff; 0x80;
  0xef; 0xff; 0xff; 0xff; 0xff; 0xff; 0xff; 0xff;
  0xff; 0xff; 0x30; 0x0; 0x0; 0x0; 0x0; 0x0;
  0x0; 0x0; 0x0; 0x0; 0x0; 0x0; 0x0; 0x0;
  0x0; 0x0; 0x0; 0x0; 0x0; 0x0; 0x0; 0x0;
  0x0; 0x0; 0x0; 0x0; 0x0; 0x0; 0x0; 0x0;
  0x0; 0x0; 0x0; 0x0; 0x0; 0xb; 0xff; 0xff;
  0xff; 0xff; 0xff; 0xff; 0xff; 0xff; 0xff; 0xf6;
  0xa; 0xff; 0xff; 0xff; 0xff; 0xff; 0xff; 0xff;
  0xff; 0xff; 0xf0; 0x0; 0x0; 0x0; 0x0; 0x0;
  0x0; 0x0; 0x0; 0x0; 0x0; 0x0; 0x0; 0x0;
  0x0; 0x0; 0x0; 0x0; 0x0; 0x0; 0x0; 0x0;
  0x0; 0x0; 0x0; 0x0; 0x0; 0x0; 0x0; 0x0;
  0x0; 0x0; 0x0; 0x0; 0x0; 0x0; 0x8f; 0xff;
  0xff; 0xff; 0xff; 0xff; 0xff; 0xff; 0xff; 0xff;
  0x20; 0x5f; 0xff; 0xff; 0xff; 0xff; 0xff; 0xff;
  0xff; 0xff; 0xfa; 0x0; 0x0; 0x0; 0x0; 0x0;
  0x0; 0x0; 0x0; 0x0; 0x0; 0x0; 0x0; 0x0;
  0x0; 0x0; 0x0; 0x0; 0x0; 0x0; 0x0; 0x0;
  0x0; 0x0; 0x0; 0x0; 0x0; 0x0; 0x0; 0x0;
  0x0; 0x0; 0x0; 0x0; 0x0; 0x0; 0x2; 0xff;
  0xff; 0xff; 0xff; 0xff; 0xff; 0xff; 0xff; 0xff;
  0xd0; 0x0; 0xdf; 0xff; 0xff; 0xff; 0xff; 0xff;
  0xff; 0xff; 0xff; 0x30; 0x0; 0x0; 0x0; 0x0;
  0x0; 0x0; 0x0; 0x0; 0x0; 0x0; 0x0; 0x0;
  0x0; 0x0; 0x0; 0x0; 0x0; 0x0; 0x0; 0x0;
  0x0; 0x0; 0x0; 0x0; 0x0; 0x0; 0x0; 0x0;
  0x0; 0x0; 0x0; 0x0; 0x0; 0x0; 0x0; 0xb;
  0xff; 0xff; 0xff; 0xff; 0xff; 0xff; 0xff; 0xff;
  0xf5; 0x0; 0x4; 0xff; 0xff; 0xff; 0xff; 0xff;
  0xff; 0xff; 0xff; 0x90; 0x0; 0x0; 0x0; 0x0;
  0x0; 0x0; 0x0; 0x0; 0x0; 0x0; 0x0; 0x0;
  0x0; 0x0; 0x0; 0x0; 0x0; 0x0; 0x0; 0x0;
  0x0; 0x0; 0x0; 0x0; 0x0; 0x0; 0x0; 0x0;
  0x0; 0x0; 0x0; 0x0; 0x0; 0x0; 0x0; 0x0;
  0x2f; 0xff; 0xff; 0xff; 0xff; 0xff; 0xff; 0xff;
  0xfc; 0x0; 0x0; 0x7; 0xff; 0xff; 0xff; 0xff;
  0xff; 0xff; 0xff; 0xc0; 0x0; 0x0; 0x0; 0x0;
  0x0; 0x0; 0x0; 0x0; 0x0; 0x0; 0x0; 0x0;
  0x0; 0x0; 0x0; 0x0; 0x0; 0x0; 0x0; 0x0;
  0x0; 0x0; 0x0; 0x0; 0x0; 0x0; 0x0; 0x0;
  0x0; 0x0; 0x0; 0x0; 0x0; 0x0; 0x0; 0x0;
  0x0; 0x5f; 0xff; 0xff; 0xff; 0xff; 0xff; 0xff;
  0xfe; 0x10; 0x0; 0x0; 0x8; 0xff; 0xff; 0xff ].

Definition quicksand256_bitmap_22 : list Z :=
  [ 0xff; 0xff; 0xff; 0xc1; 0x0; 0x0; 0x0; 0x0;
  0x0; 0x0; 0x0; 0x0; 0x0; 0x0; 0x0; 0x0;
  0x0; 0x0; 0x0; 0x0; 0x0; 0x0; 0x0; 0x0;
  0x0; 0x0; 0x0; 0x0; 0x0; 0x0; 0x0; 0x0;
  0x0; 0x0; 0x0; 0x0; 0x0; 0x0; 0x0; 0x0;
  0x0; 0x0; 0x6f; 0xff; 0xff; 0xff; 0xff; 0xff;
  0xfd; 0x20; 0x0; 0x0; 0x0; 0x4; 0xdf; 0xff;
  0xff; 0xff; 0xff; 0x80; 0x0; 0x0; 0x0; 0x0;
  0x0; 0x0; 0x0; 0x0; 0x0; 0x0; 0x0; 0x0;
  0x0; 0x0; 0x0; 0x0; 0x0; 0x0; 0x0; 0x0;
  0x0; 0x0; 0x0; 0x0; 0x0; 0x0; 0x0; 0x0;
  0x0; 0x0; 0x0; 0x0; 0x0; 0x0; 0x0; 0x0;
  0x0; 0x0; 0x0; 0x3d; 0xff; 0xff; 0xff; 0xff;
  0xf9; 0x10; 0x0; 0x0; 0x0; 0x0; 0x0; 0x5a;
  0xdf; 0xfe; 0xb7; 0x10; 0x0; 0x0; 0x0; 0x0;
  0x0; 0x0; 0x0; 0x0; 0x0; 0x0; 0x0; 0x0;
  0x0; 0x0; 0x0; 0x0; 0x0; 0x0; 0x0; 0x0;
  0x0; 0x0; 0x0; 0x0; 0x0; 0x0; 0x0; 0x0;
  0x0; 0x0; 0x0; 0x0; 0x0; 0x0; 0x0; 0x0;
  0x0; 0x0; 0x0; 0x0; 0x4; 0xad; 0xff; 0xec;
  0x82; 0x0; 0x0; 0x0;
  0x0; 0x0; 0x0; 0x0; 0x0; 0x0; 0x0; 0x0;
  0x0; 0x0; 0x0; 0x0; 0x0; 0x0; 0x0; 0x0;
  0x0; 0x0; 0x0; 0x0; 0x0; 0x0; 0x0; 0x0;
  0x0; 0x0; 0x0; 0x0; 0x35; 0x79; 0xac; 0xde;
  0xff; 0xff; 0xff; 0xee; 0xdb; 0xa8; 0x64; 0x20;
  0x0; 0x0; 0x0; 0x0; 0x0; 0x0; 0x0; 0x0;
  0x0; 0x0; 0x0; 0x0; 0x0; 0x0; 0x0; 0x0;
  0x0; 0x0; 0x0; 0x0; 0x0; 0x0; 0x0; 0x0;
  0x0; 0x0; 0x0; 0x0; 0x0; 0x0; 0x0; 0x0;
  0x0; 0x0; 0x0; 0x0; 0x0; 0x0; 0x0; 0x0;
  0x0; 0x0; 0x0; 0x0; 0x0; 0x0; 0x0; 0x0;
  0x0; 0x0; 0x0; 0x0; 0x3; 0x7a; 0xdf; 0xff;
  0xff; 0xff; 0xff; 0xff; 0xff; 0xff; 0xff; 0xff;
  0xff; 0xff; 0xff; 0xc9; 0x62; 0x0; 0x0; 0x0;
  0x0; 0x0; 0x0; 0x0; 0x0; 0x0; 0x0; 0x0;
  0x0; 0x0; 0x0; 0x0; 0x0; 0x0; 0x0; 0x0;
  0x0; 0x0; 0x0; 0x0; 0x0; 0x0; 0x0; 0x0;
  0x0; 0x0; 0x0; 0x0; 0x0; 0x0; 0x0; 0x0;
  0x0; 0x0; 0x0; 0x0; 0x0; 0x0; 0x0; 0x0;
  0x0; 0x0; 0x0; 0x0; 0x0; 0x2; 0x7b; 0xff;
  0xff; 0xff; 0xff; 0xff; 0xff; 0xff; 0xff; 0xff;
  0xff; 0xff; 0xff; 0xff; 0xff; 0xff; 0xff; 0xff;
  0xea; 0x51; 0x0; 0x0; 0x0; 0x0; 0x0; 0x0;
  0x0; 0x0; 0x0; 0x0; 0x0; 0x0; 0x0; 0x0;
  0x0; 0x0; 0x0; 0x0; 0x0; 0x0; 0x0; 0x0;
  0x0; 0x0; 0x0; 0x0; 0x0; 0x0; 0x0; 0x0;
  0x0; 0x0; 0x0; 0x0; 0x0; 0x0; 0x0; 0x0;
  0x0; 0x0; 0x0; 0x0; 0x0; 0x0; 0x0; 0x28;
  0xdf; 0xff; 0xff; 0xff; 0xff; 0xff; 0xff; 0xff;
  0xff; 0xff; 0xff; 0xff; 0xff; 0xff; 0xff; 0xff;
  0xff; 0xff; 0xff; 0xff; 0xff; 0xb6; 0x0; 0x0;
  0x0; 0x0; 0x0; 0x0; 0x0; 0x0; 0x0; 0x0;
  0x0; 0x0; 0x0; 0x0; 0x0; 0x0; 0x0; 0x0;
  0x0; 0x0; 0x0; 0x0; 0x0; 0x0; 0x0; 0x0;
  0x0; 0x0; 0x0; 0x0; 0x0; 0x0; 0x0; 0x0;
  0x0; 0x0; 0x0; 0x0; 0x0; 0x0; 0x0; 0x0;
  0x0; 0x6c; 0xff; 0xff; 0xff; 0xff; 0xff; 0xff;
  0xff; 0xff; 0xff; 0xff; 0xff; 0xff; 0xff; 0xff;
  0xff; 0xff; 0xff; 0xff; 0xff; 0xff; 0xff; 0xff;
  0xff; 0xfa; 0x30; 0x0; 0x0; 0x0; 0x0; 0x0;
  0x0; 0x0; 0x0; 0x0; 0x0; 0x0; 0x0; 0x0;
  0x0; 0x0; 0x0; 0x0; 0x0; 0x0; 0x0; 0x0;
  0x0; 0x0; 0x0; 0x0; 0x0; 0x0; 0x0; 0x0;
  0x0; 0x0; 0x0; 0x0; 0x0; 0x0; 0x0; 0x0;
  0x0; 0x0; 0x2; 0x9f; 0xff; 0xff; 0xff; 0xff;
  0xff; 0xff; 0xff; 0xff; 0xff; 0xff; 0xff; 0xff;
  0xff; 0xff; 0xff; 0xff; 0xff; 0xff; 0xff; 0xff;
  0xff; 0xff; 0xff; 0xff; 0xff; 0xfd; 0x60; 0x0;
  0x0; 0x0; 0x0; 0x0; 0x0; 0x0; 0x0; 0x0;
  0x0; 0x0; 0x0; 0x0; 0x0; 0x0; 0x0; 0x0;
  0x0; 0x0; 0x0; 0x0; 0x0; 0x0; 0x0; 0x0;
  0x0; 0x0; 0x0; 0x0; 0x0; 0x0; 0x0; 0x0;
  0x0; 0x0; 0x0; 0x0; 0x2; 0xaf; 0xff; 0xff;
  0xff; 0xff; 0xff; 0xff; 0xff; 0xff; 0xff; 0xff;
  0xff; 0xff; 0xff; 0xff; 0xff; 0xff; 0xff; 0xff;
  0xff; 0xff; 0xff; 0xff; 0xff; 0xff; 0xff; 0xff;
  0xff; 0xfe; 0x70; 0x0; 0x0; 0x0; 0x0; 0x0;
  0x0; 0x0; 0x0; 0x0; 0x0; 0x0; 0x0; 0x0;
  0x0; 0x0; 0x0; 0x0; 0x0; 0x0; 0x0; 0x0;
  0x0; 0x0; 0x0; 0x0; 0x0; 0x0; 0x0; 0x0;
  0x0; 0x0; 0x0; 0x0; 0x0; 0x0; 0x2; 0xaf;
  0xff; 0xff; 0xff; 0xff; 0xff; 0xff; 0xff; 0xff;
  0xff; 0xff; 0xff; 0xff; 0xff; 0xff; 0xff; 0xff;
  0xff; 0xff; 0xff; 0xff; 0xff; 0xff; 0xff; 0xff;
  0xff; 0xff; 0xff; 0xff; 0xff; 0xfe; 0x60; 0x0;
  0x0; 0x0; 0x0; 0x0; 0x0; 0x0; 0x0; 0x0;
  0x0; 0x0; 0x0; 0x0; 0x0; 0x0; 0x0; 0x0;
  0x0; 0x0; 0x0; 0x0; 0x0; 0x0; 0x0; 0x0;
  0x0; 0x0; 0x0; 0x0; 0x0; 0x0; 0x0; 0x0;
  0x0; 0x8f; 0xff; 0xff; 0xff; 0xff; 0xff; 0xff;
  0xff; 0xff; 0xff; 0xff; 0xff; 0xff; 0xff; 0xff;
  0xff; 0xff; 0xff; 0xff; 0xff; 0xff; 0xff; 0xff;
  0xff; 0xff; 0xff; 0xff; 0xff; 0xff; 0xff; 0xff;
  0xff; 0xfd; 0x40; 0x0; 0x0; 0x0; 0x0; 0x0;
  0x0; 0x0; 0x0; 0x0; 0x0; 0x0; 0x0; 0x0;
  0x0; 0x0; 0x0; 0x0; 0x0; 0x0; 0x0; 0x0;
  0x0; 0x0; 0x0; 0x0; 0x0; 0x0; 0x0; 0x0;
  0x0; 0x0; 0x0; 0x5e; 0xff; 0xff; 0xff; 0xff;
  0xff; 0xff; 0xff; 0xff; 0xff; 0xff; 0xff; 0xff;
  0xff; 0xff; 0xff; 0xff; 0xff; 0xff; 0xff; 0xff;
  0xff; 0xff; 0xff; 0xff; 0xff; 0xff; 0xff; 0xff;
  0xff; 0xff; 0xff; 0xff; 0xff; 0xfa; 0x10; 0x0;
  0x0; 0x0; 0x0; 0x0; 0x0; 0x0; 0x0; 0x0;
  0x0; 0x0; 0x0; 0x0; 0x0; 0x0; 0x0; 0x0;
  0x0; 0x0; 0x0; 0x0; 0x0; 0x0; 0x0; 0x0;
  0x0; 0x0; 0x0; 0x0; 0x0; 0x1b; 0xff; 0xff;
  0xff; 0xff; 0xff; 0xff; 0xff; 0xff; 0xff; 0xff;
  0xff; 0xff; 0xff; 0xff; 0xff; 0xff; 0xff; 0xff;
  0xff; 0xff; 0xff; 0xff; 0xff; 0xff; 0xff; 0xff;
  0xff; 0xff; 0xff; 0xff; 0xff; 0xff; 0xff; 0xff;
  0xff; 0xf6; 0x0; 0x0; 0x0; 0x0; 0x0; 0x0;
  0x0; 0x0; 0x0; 0x0; 0x0; 0x0; 0x0; 0x0;
  0x0; 0x0; 0x0; 0x0; 0x0; 0x0; 0x0; 0x0;
  0x0; 0x0; 0x0; 0x0; 0x0; 0x0; 0x0; 0x5;
  0xff; 0xff; 0xff; 0xff; 0xff; 0xff; 0xff; 0xff;
  0xff; 0xff; 0xff; 0xff; 0xff; 0xff; 0xff; 0xff;
  0xff; 0xff; 0xff; 0xff; 0xff; 0xff; 0xff; 0xff;
  0xff; 0xff; 0xff; 0xff; 0xff; 0xff; 0xff; 0xff;
  0xff; 0xff; 0xff; 0xff; 0xff; 0xb1; 0x0; 0x0;
  0x0; 0x0; 0x0; 0x0; 0x0; 0x0; 0x0; 0x0;
  0x0; 0x0; 0x0; 0x0; 0x0; 0x0; 0x0; 0x0;
  0x0; 0x0; 0x0; 0x0; 0x0; 0x0; 0x0; 0x0;
  0x0; 0x0; 0xaf; 0xff; 0xff; 0xff; 0xff; 0xff;
  0xff; 0xff; 0xff; 0xff; 0xff; 0xff; 0xff; 0xff;
  0xff; 0xff; 0xff; 0xff; 0xff; 0xff; 0xff; 0xff;
  0xff; 0xff; 0xff; 0xff; 0xff; 0xff; 0xff; 0xff;
  0xff; 0xff; 0xff; 0xff; 0xff; 0xff; 0xff; 0xff;
  0xfe; 0x40; 0x0; 0x0; 0x0; 0x0; 0x0; 0x0;
  0x0; 0x0; 0x0; 0x0; 0x0; 0x0; 0x0; 0x0;
  0x0; 0x0; 0x0; 0x0; 0x0; 0x0; 0x0; 0x0;
  0x0; 0x0; 0x0; 0x0; 0x2d; 0xff; 0xff; 0xff;
  0xff; 0xff; 0xff; 0xff; 0xff; 0xff; 0xff; 0xff;
  0xff; 0xff; 0xff; 0xff; 0xff; 0xff; 0xff; 0xff;
  0xff; 0xff; 0xff; 0xff; 0xff; 0xff; 0xff; 0xff;
  0xff; 0xff; 0xff; 0xff; 0xff; 0xff; 0xff; 0xff;
  0xff; 0xff; 0xff; 0xff; 0xf8; 0x0; 0x0; 0x0;
  0x0; 0x0; 0x0; 0x0; 0x0; 0x0; 0x0; 0x0;
  0x0; 0x0; 0x0; 0x0; 0x0; 0x0; 0x0; 0x0;
  0x0; 0x0; 0x0; 0x0; 0x0; 0x0; 0x5; 0xff;
  0xff; 0xff; 0xff; 0xff; 0xff; 0xff; 0xff; 0xff;
  0xff; 0xff; 0xff; 0xff; 0xff; 0xff; 0xff; 0xff;
  0xff; 0xff; 0xff; 0xff; 0xff; 0xff; 0xff; 0xff;
  0xff; 0xff; 0xff; 0xff; 0xff; 0xff; 0xff; 0xff;
  0xff; 0xff; 0xff; 0xff; 0xff; 0xff; 0xff; 0xff;
  0xb1; 0x0; 0x0; 0x0; 0x0; 0x0; 0x0; 0x0;
  0x0; 0x0; 0x0; 0x0; 0x0; 0x0; 0x0; 0x0;
  0x0; 0x0; 0x0; 0x0; 0x0; 0x0; 0x0; 0x0 ].

Definition quicksand256_bitmap_23 : list Z :=
  [ 0x0; 0x8f; 0xff; 0xff; 0xff; 0xff; 0xff; 0xff;
  0xff; 0xff; 0xff; 0xff; 0xff; 0xff; 0xff; 0xff;
  0xff; 0xff; 0xff; 0xff; 0xff; 0xff; 0xff; 0xff;
  0xff; 0xff; 0xff; 0xff; 0xff; 0xff; 0xff; 0xff;
  0xff; 0xff; 0xff; 0xff; 0xff; 0xff; 0xff; 0xff;
  0xff; 0xff; 0xff; 0xfd; 0x20; 0x0; 0x0; 0x0;
  0x0; 0x0; 0x0; 0x0; 0x0; 0x0; 0x0; 0x0;
  0x0; 0x0; 0x0; 0x0; 0x0; 0x0; 0x0; 0x0;
  0x0; 0x0; 0x0; 0xa; 0xff; 0xff; 0xff; 0xff;
  0xff; 0xff; 0xff; 0xff; 0xff; 0xff; 0xff; 0xff;
  0xff; 0xff; 0xff; 0xff; 0xff; 0xff; 0xff; 0xff;
  0xff; 0xff; 0xff; 0xff; 0xff; 0xff; 0xff; 0xff;
  0xff; 0xff; 0xff; 0xff; 0xff; 0xff; 0xff; 0xff;
  0xff; 0xff; 0xff; 0xff; 0xff; 0xff; 0xff; 0xe3;
  0x0; 0x0; 0x0; 0x0; 0x0; 0x0; 0x0; 0x0;
  0x0; 0x0; 0x0; 0x0; 0x0; 0x0; 0x0; 0x0;
  0x0; 0x0; 0x0; 0x0; 0x0; 0x0; 0xbf; 0xff;
  0xff; 0xff; 0xff; 0xff; 0xff; 0xff; 0xff; 0xff;
  0xff; 0xff; 0xff; 0xff; 0xff; 0xff; 0xff; 0xff;
  0xff; 0xff; 0xff; 0xff; 0xff; 0xff; 0xff; 0xff;
  0xff; 0xff; 0xff; 0xff; 0xff; 0xff; 0xff; 0xff;
  0xff; 0xff; 0xff; 0xff; 0xff; 0xff; 0xff; 0xff;
  0xff; 0xff; 0xff; 0x40; 0x0; 0x0; 0x0; 0x0;
  0x0; 0x0; 0x0; 0x0; 0x0; 0x0; 0x0; 0x0;
  0x0; 0x0; 0x0; 0x0; 0x0; 0x0; 0x0; 0x0;
  0xb; 0xff; 0xff; 0xff; 0xff; 0xff; 0xff; 0xff;
  0xff; 0xff; 0xff; 0xff; 0xff; 0xff; 0xff; 0xff;
  0xff; 0xff; 0xff; 0xff; 0xff; 0xff; 0xff; 0xff;
  0xff; 0xff; 0xff; 0xff; 0xff; 0xff; 0xff; 0xff;
  0xff; 0xff; 0xff; 0xff; 0xff; 0xff; 0xff; 0xff;
  0xff; 0xff; 0xff; 0xff; 0xff; 0xff; 0xf4; 0x0;
  0x0; 0x0; 0x0; 0x0; 0x0; 0x0; 0x0; 0x0;
  0x0; 0x0; 0x0; 0x0; 0x0; 0x0; 0x0; 0x0;
  0x0; 0x0; 0x0; 0xcf; 0xff; 0xff; 0xff; 0xff;
  0xff; 0xff; 0xff; 0xff; 0xff; 0xff; 0xff; 0xff;
  0xff; 0xff; 0xff; 0xff; 0xff; 0xff; 0xca; 0x75;
  0x32; 0x10; 0x0; 0x0; 0x12; 0x46; 0x8a; 0xdf;
  0xff; 0xff; 0xff; 0xff; 0xff; 0xff; 0xff; 0xff;
  0xff; 0xff; 0xff; 0xff; 0xff; 0xff; 0xff; 0xff;
  0xff; 0xff; 0x40; 0x0; 0x0; 0x0; 0x0; 0x0;
  0x0; 0x0; 0x0; 0x0; 0x0; 0x0; 0x0; 0x0;
  0x0; 0x0; 0x0; 0x0; 0x0; 0xb; 0xff; 0xff;
  0xff; 0xff; 0xff; 0xff; 0xff; 0xff; 0xff; 0xff;
  0xff; 0xff; 0xff; 0xff; 0xff; 0xff; 0xff; 0xb7;
  0x30; 0x0; 0x0; 0x0; 0x0; 0x0; 0x0; 0x0;
  0x0; 0x0; 0x1; 0x48; 0xdf; 0xff; 0xff; 0xff;
  0xff; 0xff; 0xff; 0xff; 0xff; 0xff; 0xff; 0xff;
  0xff; 0xff; 0xff; 0xff; 0xff; 0xf3; 0x0; 0x0;
  0x0; 0x0; 0x0; 0x0; 0x0; 0x0; 0x0; 0x0;
  0x0; 0x0; 0x0; 0x0; 0x0; 0x0; 0x0; 0x0;
  0xaf; 0xff; 0xff; 0xff; 0xff; 0xff; 0xff; 0xff;
  0xff; 0xff; 0xff; 0xff; 0xff; 0xff; 0xff; 0xff;
  0xfb; 0x61; 0x0; 0x0; 0x0; 0x0; 0x0; 0x0;
  0x0; 0x0; 0x0; 0x0; 0x0; 0x0; 0x0; 0x2;
  0x7d; 0xff; 0xff; 0xff; 0xff; 0xff; 0xff; 0xff;
  0xff; 0xff; 0xff; 0xff; 0xff; 0xff; 0xff; 0xff;
  0xfe; 0x20; 0x0; 0x0; 0x0; 0x0; 0x0; 0x0;
  0x0; 0x0; 0x0; 0x0; 0x0; 0x0; 0x0; 0x0;
  0x0; 0x0; 0x8; 0xff; 0xff; 0xff; 0xff; 0xff;
  0xff; 0xff; 0xff; 0xff; 0xff; 0xff; 0xff; 0xff;
  0xff; 0xff; 0xe8; 0x20; 0x0; 0x0; 0x0; 0x0;
  0x0; 0x0; 0x0; 0x0; 0x0; 0x0; 0x0; 0x0;
  0x0; 0x0; 0x0; 0x0; 0x4a; 0xff; 0xff; 0xff;
  0xff; 0xff; 0xff; 0xff; 0xff; 0xff; 0xff; 0xff;
  0xff; 0xff; 0xff; 0xff; 0xe1; 0x0; 0x0; 0x0;
  0x0; 0x0; 0x0; 0x0; 0x0; 0x0; 0x0; 0x0;
  0x0; 0x0; 0x0; 0x0; 0x0; 0x6f; 0xff; 0xff;
  0xff; 0xff; 0xff; 0xff; 0xff; 0xff; 0xff; 0xff;
  0xff; 0xff; 0xff; 0xff; 0xe7; 0x0; 0x0; 0x0;
  0x0; 0x0; 0x0; 0x0; 0x0; 0x0; 0x0; 0x0;
  0x0; 0x0; 0x0; 0x0; 0x0; 0x0; 0x0; 0x0;
  0x2a; 0xff; 0xff; 0xff; 0xff; 0xff; 0xff; 0xff;
  0xff; 0xff; 0xff; 0xff; 0xff; 0xff; 0xff; 0xfc;
  0x0; 0x0; 0x0; 0x0; 0x0; 0x0; 0x0; 0x0;
  0x0; 0x0; 0x0; 0x0; 0x0; 0x0; 0x0; 0x3;
  0xff; 0xff; 0xff; 0xff; 0xff; 0xff; 0xff; 0xff;
  0xff; 0xff; 0xff; 0xff; 0xff; 0xff; 0xf8; 0x0;
  0x0; 0x0; 0x0; 0x0; 0x0; 0x0; 0x0; 0x0;
  0x0; 0x0; 0x0; 0x0; 0x0; 0x0; 0x0; 0x0;
  0x0; 0x0; 0x0; 0x0; 0x2b; 0xff; 0xff; 0xff;
  0xff; 0xff; 0xff; 0xff; 0xff; 0xff; 0xff; 0xff;
  0xff; 0xff; 0xff; 0xa0; 0x0; 0x0; 0x0; 0x0;
  0x0; 0x0; 0x0; 0x0; 0x0; 0x0; 0x0; 0x0;
  0x0; 0x0; 0x1e; 0xff; 0xff; 0xff; 0xff; 0xff;
  0xff; 0xff; 0xff; 0xff; 0xff; 0xff; 0xff; 0xff;
  0xfb; 0x20; 0x0; 0x0; 0x0; 0x0; 0x0; 0x0;
  0x0; 0x0; 0x0; 0x0; 0x0; 0x0; 0x0; 0x0;
  0x0; 0x0; 0x0; 0x0; 0x0; 0x0; 0x0; 0x0;
  0x4e; 0xff; 0xff; 0xff; 0xff; 0xff; 0xff; 0xff;
  0xff; 0xff; 0xff; 0xff; 0xff; 0xff; 0xf6; 0x0;
  0x0; 0x0; 0x0; 0x0; 0x0; 0x0; 0x0; 0x0;
  0x0; 0x0; 0x0; 0x0; 0x0; 0xbf; 0xff; 0xff;
  0xff; 0xff; 0xff; 0xff; 0xff; 0xff; 0xff; 0xff;
  0xff; 0xff; 0xff; 0x50; 0x0; 0x0; 0x0; 0x0;
  0x0; 0x0; 0x0; 0x0; 0x0; 0x0; 0x0; 0x0;
  0x0; 0x0; 0x0; 0x0; 0x0; 0x0; 0x0; 0x0;
  0x0; 0x0; 0x0; 0x0; 0x9f; 0xff; 0xff; 0xff;
  0xff; 0xff; 0xff; 0xff; 0xff; 0xff; 0xff; 0xff;
  0xff; 0xff; 0x20; 0x0; 0x0; 0x0; 0x0; 0x0;
  0x0; 0x0; 0x0; 0x0; 0x0; 0x0; 0x0; 0x7;
  0xff; 0xff; 0xff; 0xff; 0xff; 0xff; 0xff; 0xff;
  0xff; 0xff; 0xff; 0xff; 0xff; 0xc1; 0x0; 0x0;
  0x0; 0x0; 0x0; 0x0; 0x0; 0x0; 0x0; 0x0;
  0x0; 0x0; 0x0; 0x0; 0x0; 0x0; 0x0; 0x0;
  0x0; 0x0; 0x0; 0x0; 0x0; 0x0; 0x0; 0x4;
  0xef; 0xff; 0xff; 0xff; 0xff; 0xff; 0xff; 0xff;
  0xff; 0xff; 0xff; 0xff; 0xff; 0xd0; 0x0; 0x0;
  0x0; 0x0; 0x0; 0x0; 0x0; 0x0; 0x0; 0x0;
  0x0; 0x0; 0x2f; 0xff; 0xff; 0xff; 0xff; 0xff;
  0xff; 0xff; 0xff; 0xff; 0xff; 0xff; 0xff; 0xf9;
  0x0; 0x0; 0x0; 0x0; 0x0; 0x0; 0x0; 0x0;
  0x0; 0x0; 0x0; 0x0; 0x0; 0x0; 0x0; 0x0;
  0x0; 0x0; 0x0; 0x0; 0x0; 0x0; 0x0; 0x0;
  0x0; 0x0; 0x0; 0x1c; 0xff; 0xff; 0xff; 0xff;
  0xff; 0xff; 0xff; 0xff; 0xff; 0xff; 0xff; 0xff;
  0xf9; 0x0; 0x0; 0x0; 0x0; 0x0; 0x0; 0x0;
  0x0; 0x0; 0x0; 0x0; 0x0; 0xcf; 0xff; 0xff;
  0xff; 0xff; 0xff; 0xff; 0xff; 0xff; 0xff; 0xff;
  0xff; 0xff; 0x60; 0x0; 0x0; 0x0; 0x0; 0x0;
  0x0; 0x0; 0x0; 0x0; 0x0; 0x0; 0x0; 0x0;
  0x0; 0x0; 0x0; 0x0; 0x0; 0x0; 0x0; 0x0;
  0x0; 0x0; 0x0; 0x0; 0x0; 0x0; 0x0; 0xaf;
  0xff; 0xff; 0xff; 0xff; 0xff; 0xff; 0xff; 0xff;
  0xff; 0xff; 0xff; 0xff; 0x30; 0x0; 0x0; 0x0;
  0x0; 0x0; 0x0; 0x0; 0x0; 0x0; 0x0; 0x7;
  0xff; 0xff; 0xff; 0xff; 0xff; 0xff; 0xff; 0xff;
  0xff; 0xff; 0xff; 0xff; 0xf4; 0x0; 0x0; 0x0;
  0x0; 0x0; 0x0; 0x0; 0x0; 0x0; 0x0; 0x0;
  0x0; 0x0; 0x0; 0x0; 0x0; 0x0; 0x0; 0x0;
  0x0; 0x0; 0x0; 0x0; 0x0; 0x0; 0x0; 0x0;
  0x0; 0x0; 0x9; 0xff; 0xff; 0xff; 0xff; 0xff;
  0xff; 0xff; 0xff; 0xff; 0xff; 0xff; 0xff; 0xd0;
  0x0; 0x0; 0x0; 0x0; 0x0; 0x0; 0x0; 0x0;
  0x0; 0x0; 0x1f; 0xff; 0xff; 0xff; 0xff; 0xff;
  0xff; 0xff; 0xff; 0xff; 0xff; 0xff; 0xff; 0x30;
  0x0; 0x0; 0x0; 0x0; 0x0; 0x0; 0x0; 0x0;
  0x0; 0x0; 0x0; 0x0; 0x0; 0x0; 0x0; 0x0;
  0x0; 0x0; 0x0; 0x0; 0x0; 0x0; 0x0; 0x0;
  0x0; 0x0; 0x0; 0x0; 0x0; 0x0; 0x8f; 0xff;
  0xff; 0xff; 0xff; 0xff; 0xff; 0xff; 0xff; 0xff;
  0xff; 0xff; 0xf7; 0x0; 0x0; 0x0; 0x0; 0x0;
  0x0; 0x0; 0x0; 0x0; 0x0; 0xaf; 0xff; 0xff;
  0xff; 0xff; 0xff; 0xff; 0xff; 0xff; 0xff; 0xff;
  0xff; 0xf3; 0x0; 0x0; 0x0; 0x0; 0x0; 0x0;
  0x0; 0x0; 0x0; 0x0; 0x0; 0x0; 0x0; 0x0;
  0x0; 0x0; 0x0; 0x0; 0x0; 0x0; 0x0; 0x0;
  0x0; 0x0; 0x0; 0x0; 0x0; 0x0; 0x0; 0x0;
  0x0; 0x8; 0xff; 0xff; 0xff; 0xff; 0xff; 0xff;
  0xff; 0xff; 0xff; 0xff; 0xff; 0xff; 0x20; 0x0;
  0x0; 0x0; 0x0; 0x0; 0x0; 0x0; 0x0; 0x4 ].

Definition quicksand256_bitmap_24 : list Z :=
  [ 0xff; 0xff; 0xff; 0xff; 0xff; 0xff; 0xff; 0xff;
  0xff; 0xff; 0xff; 0xff; 0x40; 0x0; 0x0; 0x0;
  0x0; 0x0; 0x0; 0x0; 0x0; 0x0; 0x0; 0x0;
  0x0; 0x0; 0x0; 0x0; 0x0; 0x0; 0x0; 0x0;
  0x0; 0x0; 0x0; 0x0; 0x0; 0x0; 0x0; 0x0;
  0x0; 0x0; 0x0; 0x0; 0x0; 0x9f; 0xff; 0xff;
  0xff; 0xff; 0xff; 0xff; 0xff; 0xff; 0xff; 0xff;
  0xff; 0xa0; 0x0; 0x0; 0x0; 0x0; 0x0; 0x0;
  0x0; 0x0; 0xc; 0xff; 0xff; 0xff; 0xff; 0xff;
  0xff; 0xff; 0xff; 0xff; 0xff; 0xff; 0xf5; 0x0;
  0x0; 0x0; 0x0; 0x0; 0x0; 0x0; 0x0; 0x0;
  0x0; 0x0; 0x0; 0x0; 0x0; 0x0; 0x0; 0x0;
  0x0; 0x0; 0x0; 0x0; 0x0; 0x0; 0x0; 0x0;
  0x0; 0x0; 0x0; 0x0; 0x0; 0x0; 0x0; 0x0;
  0xb; 0xff; 0xff; 0xff; 0xff; 0xff; 0xff; 0xff;
  0xff; 0xff; 0xff; 0xff; 0xf3; 0x0; 0x0; 0x0;
  0x0; 0x0; 0x0; 0x0; 0x0; 0x5f; 0xff; 0xff;
  0xff; 0xff; 0xff; 0xff; 0xff; 0xff; 0xff; 0xff;
  0xff; 0x80; 0x0; 0x0; 0x0; 0x0; 0x0; 0x0;
  0x0; 0x0; 0x0; 0x0; 0x0; 0x0; 0x0; 0x0;
  0x0; 0x0; 0x0; 0x0; 0x0; 0x0; 0x0; 0x0;
  0x0; 0x0; 0x0; 0x0; 0x0; 0x0; 0x0; 0x0;
  0x0; 0x0; 0x0; 0x1; 0xdf; 0xff; 0xff; 0xff;
  0xff; 0xff; 0xff; 0xff; 0xff; 0xff; 0xff; 0xfc;
  0x0; 0x0; 0x0; 0x0; 0x0; 0x0; 0x0; 0x0;
  0xdf; 0xff; 0xff; 0xff; 0xff; 0xff; 0xff; 0xff;
  0xff; 0xff; 0xff; 0xfb; 0x0; 0x0; 0x0; 0x0;
  0x0; 0x0; 0x0; 0x0; 0x0; 0x0; 0x0; 0x0;
  0x0; 0x0; 0x0; 0x0; 0x0; 0x0; 0x0; 0x0;
  0x0; 0x0; 0x0; 0x0; 0x0; 0x0; 0x0; 0x0;
  0x0; 0x0; 0x0; 0x0; 0x0; 0x0; 0x0; 0x2f;
  0xff; 0xff; 0xff; 0xff; 0xff; 0xff; 0xff; 0xff;
  0xff; 0xff; 0xff; 0x40; 0x0; 0x0; 0x0; 0x0;
  0x0; 0x0; 0x5; 0xff; 0xff; 0xff; 0xff; 0xff;
  0xff; 0xff; 0xff; 0xff; 0xff; 0xff; 0xe1; 0x0;
  0x0; 0x0; 0x0; 0x0; 0x0; 0x0; 0x0; 0x0;
  0x0; 0x0; 0x0; 0x0; 0x0; 0x0; 0x0; 0x0;
  0x0; 0x0; 0x0; 0x0; 0x0; 0x0; 0x0; 0x0;
  0x0; 0x0; 0x0; 0x0; 0x0; 0x0; 0x0; 0x0;
  0x0; 0x0; 0x6; 0xff; 0xff; 0xff; 0xff; 0xff;
  0xff; 0xff; 0xff; 0xff; 0xff; 0xff; 0xc0; 0x0;
  0x0; 0x0; 0x0; 0x0; 0x0; 0xd; 0xff; 0xff;
  0xff; 0xff; 0xff; 0xff; 0xff; 0xff; 0xff; 0xff;
  0xff; 0x40; 0x0; 0x0; 0x0; 0x0; 0x0; 0x0;
  0x0; 0x0; 0x0; 0x0; 0x0; 0x0; 0x0; 0x0;
  0x0; 0x0; 0x0; 0x0; 0x0; 0x0; 0x0; 0x0;
  0x0; 0x0; 0x0; 0x0; 0x0; 0x0; 0x0; 0x0;
  0x0; 0x0; 0x0; 0x0; 0x0; 0x0; 0xbf; 0xff;
  0xff; 0xff; 0xff; 0xff; 0xff; 0xff; 0xff; 0xff;
  0xff; 0xf3; 0x0; 0x0; 0x0; 0x0; 0x0; 0x0;
  0x4f; 0xff; 0xff; 0xff; 0xff; 0xff; 0xff; 0xff;
  0xff; 0xff; 0xff; 0xfa; 0x0; 0x0; 0x0; 0x0;
  0x0; 0x0; 0x0; 0x0; 0x0; 0x0; 0x0; 0x0;
  0x0; 0x0; 0x0; 0x0; 0x0; 0x0; 0x0; 0x0;
  0x0; 0x0; 0x0; 0x0; 0x0; 0x0; 0x0; 0x0;
  0x0; 0x0; 0x0; 0x0; 0x0; 0x0; 0x0; 0x0;
  0x0; 0x1f; 0xff; 0xff; 0xff; 0xff; 0xff; 0xff;
  0xff; 0xff; 0xff; 0xff; 0xfa; 0x0; 0x0; 0x0;
  0x0; 0x0; 0x0; 0xbf; 0xff; 0xff; 0xff; 0xff;
  0xff; 0xff; 0xff; 0xff; 0xff; 0xff; 0xe1; 0x0;
  0x0; 0x0; 0x0; 0x0; 0x0; 0x0; 0x0; 0x0;
  0x0; 0x0; 0x0; 0x0; 0x0; 0x0; 0x0; 0x0;
  0x0; 0x0; 0x0; 0x0; 0x0; 0x0; 0x0; 0x0;
  0x0; 0x0; 0x0; 0x0; 0x0; 0x0; 0x0; 0x0;
  0x0; 0x0; 0x0; 0x0; 0x6; 0xff; 0xff; 0xff;
  0xff; 0xff; 0xff; 0xff; 0xff; 0xff; 0xff; 0xff;
  0x10; 0x0; 0x0; 0x0; 0x0; 0x1; 0xff; 0xff;
  0xff; 0xff; 0xff; 0xff; 0xff; 0xff; 0xff; 0xff;
  0xff; 0x60; 0x0; 0x0; 0x0; 0x0; 0x0; 0x0;
  0x0; 0x0; 0x0; 0x0; 0x0; 0x0; 0x0; 0x0;
  0x0; 0x0; 0x0; 0x0; 0x0; 0x0; 0x0; 0x0;
  0x0; 0x0; 0x0; 0x0; 0x0; 0x0; 0x0; 0x0;
  0x0; 0x0; 0x0; 0x0; 0x0; 0x0; 0x0; 0x0;
  0xdf; 0xff; 0xff; 0xff; 0xff; 0xff; 0xff; 0xff;
  0xff; 0xff; 0xff; 0x80; 0x0; 0x0; 0x0; 0x0;
  0x8; 0xff; 0xff; 0xff; 0xff; 0xff; 0xff; 0xff;
  0xff; 0xff; 0xff; 0xfc; 0x0; 0x0; 0x0; 0x0;
  0x0; 0x0; 0x0; 0x0; 0x0; 0x0; 0x0; 0x0;
  0x0; 0x0; 0x0; 0x0; 0x0; 0x0; 0x0; 0x0;
  0x0; 0x0; 0x0; 0x0; 0x0; 0x0; 0x0; 0x0;
  0x0; 0x0; 0x0; 0x0; 0x0; 0x0; 0x0; 0x0;
  0x0; 0x0; 0x0; 0x4f; 0xff; 0xff; 0xff; 0xff;
  0xff; 0xff; 0xff; 0xff; 0xff; 0xff; 0xe0; 0x0;
  0x0; 0x0; 0x0; 0xd; 0xff; 0xff; 0xff; 0xff;
  0xff; 0xff; 0xff; 0xff; 0xff; 0xff; 0xf4; 0x0;
  0x0; 0x0; 0x0; 0x0; 0x0; 0x0; 0x0; 0x0;
  0x0; 0x0; 0x0; 0x0; 0x0; 0x0; 0x0; 0x0;
  0x0; 0x0; 0x0; 0x0; 0x0; 0x0; 0x0; 0x0;
  0x0; 0x0; 0x0; 0x0; 0x0; 0x0; 0x0; 0x0;
  0x0; 0x0; 0x0; 0x0; 0x0; 0x0; 0xb; 0xff;
  0xff; 0xff; 0xff; 0xff; 0xff; 0xff; 0xff; 0xff;
  0xff; 0xf4; 0x0; 0x0; 0x0; 0x0; 0x3f; 0xff;
  0xff; 0xff; 0xff; 0xff; 0xff; 0xff; 0xff; 0xff;
  0xff; 0xb0; 0x0; 0x0; 0x0; 0x0; 0x0; 0x0;
  0x0; 0x0; 0x0; 0x0; 0x0; 0x0; 0x0; 0x0;
  0x0; 0x0; 0x0; 0x0; 0x0; 0x0; 0x0; 0x0;
  0x0; 0x0; 0x0; 0x0; 0x0; 0x0; 0x0; 0x0;
  0x0; 0x0; 0x0; 0x0; 0x0; 0x0; 0x0; 0x0;
  0x0; 0x3; 0xff; 0xff; 0xff; 0xff; 0xff; 0xff;
  0xff; 0xff; 0xff; 0xff; 0xfa; 0x0; 0x0; 0x0;
  0x0; 0x9f; 0xff; 0xff; 0xff; 0xff; 0xff; 0xff;
  0xff; 0xff; 0xff; 0xff; 0x40; 0x0; 0x0; 0x0;
  0x0; 0x0; 0x0; 0x0; 0x0; 0x0; 0x0; 0x0;
  0x0; 0x0; 0x0; 0x0; 0x0; 0x0; 0x0; 0x0;
  0x0; 0x0; 0x0; 0x0; 0x0; 0x0; 0x0; 0x0;
  0x0; 0x0; 0x0; 0x0; 0x0; 0x0; 0x0; 0x0;
  0x0; 0x0; 0x0; 0x0; 0x0; 0xbf; 0xff; 0xff;
  0xff; 0xff; 0xff; 0xff; 0xff; 0xff; 0xff; 0xff;
  0x0; 0x0; 0x0; 0x0; 0xef; 0xff; 0xff; 0xff;
  0xff; 0xff; 0xff; 0xff; 0xff; 0xff; 0xfc; 0x0;
  0x0; 0x0; 0x0; 0x0; 0x0; 0x0; 0x0; 0x0;
  0x0; 0x0; 0x0; 0x0; 0x0; 0x0; 0x0; 0x0;
  0x0; 0x0; 0x0; 0x0; 0x0; 0x0; 0x0; 0x0;
  0x0; 0x0; 0x0; 0x0; 0x0; 0x0; 0x0; 0x0;
  0x0; 0x0; 0x0; 0x0; 0x0; 0x0; 0x0; 0x0;
  0x4f; 0xff; 0xff; 0xff; 0xff; 0xff; 0xff; 0xff;
  0xff; 0xff; 0xff; 0x40; 0x0; 0x0; 0x3; 0xff;
  0xff; 0xff; 0xff; 0xff; 0xff; 0xff; 0xff; 0xff;
  0xff; 0xf5; 0x0; 0x0; 0x0; 0x0; 0x0; 0x0;
  0x0; 0x0; 0x0; 0x0; 0x0; 0x0; 0x0; 0x0;
  0x0; 0x0; 0x0; 0x0; 0x0; 0x0; 0x0; 0x0;
  0x0; 0x0; 0x0; 0x0; 0x0; 0x0; 0x0; 0x0;
  0x0; 0x0; 0x0; 0x0; 0x0; 0x0; 0x0; 0x0;
  0x0; 0x0; 0x0; 0xd; 0xff; 0xff; 0xff; 0xff;
  0xff; 0xff; 0xff; 0xff; 0xff; 0xff; 0x90; 0x0;
  0x0; 0x7; 0xff; 0xff; 0xff; 0xff; 0xff; 0xff;
  0xff; 0xff; 0xff; 0xff; 0xe0; 0x0; 0x0; 0x0;
  0x0; 0x0; 0x0; 0x0; 0x0; 0x0; 0x0; 0x0;
  0x0; 0x0; 0x0; 0x0; 0x0; 0x0; 0x0; 0x0;
  0x0; 0x0; 0x0; 0x0; 0x0; 0x0; 0x0; 0x0;
  0x0; 0x0; 0x0; 0x0; 0x0; 0x0; 0x0; 0x0;
  0x0; 0x0; 0x0; 0x0; 0x0; 0x0; 0x7; 0xff;
  0xff; 0xff; 0xff; 0xff; 0xff; 0xff; 0xff; 0xff;
  0xff; 0xe0; 0x0; 0x0; 0xb; 0xff; 0xff; 0xff;
  0xff; 0xff; 0xff; 0xff; 0xff; 0xff; 0xff; 0x90;
  0x0; 0x0; 0x0; 0x0; 0x0; 0x0; 0x0; 0x0;
  0x0; 0x0; 0x0; 0x0; 0x0; 0x0; 0x0; 0x0;
  0x0; 0x0; 0x0; 0x0; 0x0; 0x0; 0x0; 0x0;
  0x0; 0x0; 0x0; 0x0; 0x0; 0x0; 0x0; 0x0;
  0x0; 0x0; 0x0; 0x0; 0x0; 0x0; 0x0; 0x0;
  0x0; 0x1; 0xff; 0xff; 0xff; 0xff; 0xff; 0xff;
  0xff; 0xff; 0xff; 0xff; 0xf2; 0x0; 0x0; 0xf;
  0xff; 0xff; 0xff; 0xff; 0xff; 0xff; 0xff; 0xff;
  0xff; 0xff; 0x30; 0x0; 0x0; 0x0; 0x0; 0x0;
  0x0; 0x0; 0x0; 0x0; 0x0; 0x0; 0x0; 0x0;
  0x0; 0x0; 0x0; 0x0; 0x0; 0x0; 0x0; 0x0;
  0x0; 0x0; 0x0; 0x0; 0x0; 0x0; 0x0; 0x0;
  0x0; 0x0; 0x0; 0x0; 0x0; 0x0; 0x0; 0x0;
  0x0; 0x0; 0x0; 0x0; 0x0; 0xcf; 0xff; 0xff;
  0xff; 0xff; 0xff; 0xff; 0xff; 0xff; 0xff; 0xf6 ].

Definition quicksand256_bitmap_25 : list Z :=
  [ 0x0; 0x0; 0x3f; 0xff; 0xff; 0xff; 0xff; 0xff;
  0xff; 0xff; 0xff; 0xff; 0xfe; 0x0; 0x0; 0x0;
  0x0; 0x0; 0x0; 0x0; 0x0; 0x0; 0x0; 0x0;
  0x0; 0x0; 0x0; 0x0; 0x0; 0x0; 0x0; 0x0;
  0x0; 0x0; 0x0; 0x0; 0x0; 0x0; 0x0; 0x0;
  0x0; 0x0; 0x0; 0x0; 0x0; 0x0; 0x0; 0x0;
  0x0; 0x0; 0x0; 0x0; 0x0; 0x0; 0x0; 0x0;
  0x6f; 0xff; 0xff; 0xff; 0xff; 0xff; 0xff; 0xff;
  0xff; 0xff; 0xfa; 0x0; 0x0; 0x7f; 0xff; 0xff;
  0xff; 0xff; 0xff; 0xff; 0xff; 0xff; 0xff; 0xf9;
  0x0; 0x0; 0x0; 0x0; 0x0; 0x0; 0x0; 0x0;
  0x0; 0x0; 0x0; 0x0; 0x0; 0x0; 0x0; 0x0;
  0x0; 0x0; 0x0; 0x0; 0x0; 0x0; 0x0; 0x0;
  0x0; 0x0; 0x0; 0x0; 0x0; 0x0; 0x0; 0x0;
  0x0; 0x0; 0x0; 0x0; 0x0; 0x0; 0x0; 0x0;
  0x0; 0x0; 0x0; 0x2f; 0xff; 0xff; 0xff; 0xff;
  0xff; 0xff; 0xff; 0xff; 0xff; 0xfe; 0x0; 0x0;
  0xaf; 0xff; 0xff; 0xff; 0xff; 0xff; 0xff; 0xff;
  0xff; 0xff; 0xf4; 0x0; 0x0; 0x0; 0x0; 0x0;
  0x0; 0x0; 0x0; 0x0; 0x0; 0x0; 0x0; 0x0;
  0x0; 0x0; 0x0; 0x0; 0x0; 0x0; 0x0; 0x0;
  0x0; 0x0; 0x0; 0x0; 0x0; 0x0; 0x0; 0x0;
  0x0; 0x0; 0x0; 0x0; 0x0; 0x0; 0x0; 0x0;
  0x0; 0x0; 0x0; 0x0; 0x0; 0x0; 0xd; 0xff;
  0xff; 0xff; 0xff; 0xff; 0xff; 0xff; 0xff; 0xff;
  0xff; 0x10; 0x0; 0xdf; 0xff; 0xff; 0xff; 0xff;
  0xff; 0xff; 0xff; 0xff; 0xff; 0xf0; 0x0; 0x0;
  0x0; 0x0; 0x0; 0x0; 0x0; 0x0; 0x0; 0x0;
  0x0; 0x0; 0x0; 0x0; 0x0; 0x0; 0x0; 0x0;
  0x0; 0x0; 0x0; 0x0; 0x0; 0x0; 0x0; 0x0;
  0x0; 0x0; 0x0; 0x0; 0x0; 0x0; 0x0; 0x0;
  0x0; 0x0; 0x0; 0x0; 0x0; 0x0; 0x0; 0x0;
  0x0; 0x9; 0xff; 0xff; 0xff; 0xff; 0xff; 0xff;
  0xff; 0xff; 0xff; 0xff; 0x40; 0x0; 0xff; 0xff;
  0xff; 0xff; 0xff; 0xff; 0xff; 0xff; 0xff; 0xff;
  0xc0; 0x0; 0x0; 0x0; 0x0; 0x0; 0x0; 0x0;
  0x0; 0x0; 0x0; 0x0; 0x0; 0x0; 0x0; 0x0;
  0x0; 0x0; 0x0; 0x0; 0x0; 0x0; 0x0; 0x0;
  0x0; 0x0; 0x0; 0x0; 0x0; 0x0; 0x0; 0x0;
  0x0; 0x0; 0x0; 0x0; 0x0; 0x0; 0x0; 0x0;
  0x0; 0x0; 0x0; 0x0; 0x5; 0xff; 0xff; 0xff;
  0xff; 0xff; 0xff; 0xff; 0xff; 0xff; 0xff; 0x70;
  0x3; 0xff; 0xff; 0xff; 0xff; 0xff; 0xff; 0xff;
  0xff; 0xff; 0xff; 0x90; 0x0; 0x0; 0x0; 0x0;
  0x0; 0x0; 0x0; 0x0; 0x0; 0x0; 0x0; 0x0;
  0x0; 0x0; 0x0; 0x0; 0x0; 0x0; 0x0; 0x0;
  0x0; 0x0; 0x0; 0x0; 0x0; 0x0; 0x0; 0x0;
  0x0; 0x0; 0x0; 0x0; 0x0; 0x0; 0x0; 0x0;
  0x0; 0x0; 0x0; 0x0; 0x0; 0x0; 0x0; 0x2;
  0xff; 0xff; 0xff; 0xff; 0xff; 0xff; 0xff; 0xff;
  0xff; 0xff; 0xa0; 0x5; 0xff; 0xff; 0xff; 0xff;
  0xff; 0xff; 0xff; 0xff; 0xff; 0xff; 0x50; 0x0;
  0x0; 0x0; 0x0; 0x0; 0x0; 0x0; 0x0; 0x0;
  0x0; 0x0; 0x0; 0x0; 0x0; 0x0; 0x0; 0x0;
  0x0; 0x0; 0x0; 0x0; 0x0; 0x0; 0x0; 0x0;
  0x0; 0x0; 0x0; 0x0; 0x0; 0x0; 0x0; 0x0;
  0x0; 0x0; 0x0; 0x0; 0x0; 0x0; 0x0; 0x0;
  0x0; 0x0; 0x0; 0xef; 0xff; 0xff; 0xff; 0xff;
  0xff; 0xff; 0xff; 0xff; 0xff; 0xc0; 0x8; 0xff;
  0xff; 0xff; 0xff; 0xff; 0xff; 0xff; 0xff; 0xff;
  0xff; 0x20; 0x0; 0x0; 0x0; 0x0; 0x0; 0x0;
  0x0; 0x0; 0x0; 0x0; 0x0; 0x0; 0x0; 0x0;
  0x0; 0x0; 0x0; 0x0; 0x0; 0x0; 0x0; 0x0;
  0x0; 0x0; 0x0; 0x0; 0x0; 0x0; 0x0; 0x0;
  0x0; 0x0; 0x0; 0x0; 0x0; 0x0; 0x0; 0x0;
  0x0; 0x0; 0x0; 0x0; 0x0; 0x0; 0xbf; 0xff;
  0xff; 0xff; 0xff; 0xff; 0xff; 0xff; 0xff; 0xff;
  0xe0; 0xa; 0xff; 0xff; 0xff; 0xff; 0xff; 0xff;
  0xff; 0xff; 0xff; 0xff; 0x0; 0x0; 0x0; 0x0;
  0x0; 0x0; 0x0; 0x0; 0x0; 0x0; 0x0; 0x0;
  0x0; 0x0; 0x0; 0x0; 0x0; 0x0; 0x0; 0x0;
  0x0; 0x0; 0x0; 0x0; 0x0; 0x0; 0x0; 0x0;
  0x0; 0x0; 0x0; 0x0; 0x0; 0x0; 0x0; 0x0;
  0x0; 0x0; 0x0; 0x0; 0x0; 0x0; 0x0; 0x0;
  0x0; 0x9f; 0xff; 0xff; 0xff; 0xff; 0xff; 0xff;
  0xff; 0xff; 0xff; 0xf1; 0xb; 0xff; 0xff; 0xff;
  0xff; 0xff; 0xff; 0xff; 0xff; 0xff; 0xfd; 0x0;
  0x0; 0x0; 0x0; 0x0; 0x0; 0x0; 0x0; 0x0;
  0x0; 0x0; 0x0; 0x0; 0x0; 0x0; 0x0; 0x0;
  0x0; 0x0; 0x0; 0x0; 0x0; 0x0; 0x0; 0x0;
  0x0; 0x0; 0x0; 0x0; 0x0; 0x0; 0x0; 0x0;
  0x0; 0x0; 0x0; 0x0; 0x0; 0x0; 0x0; 0x0;
  0x0; 0x0; 0x0; 0x0; 0x7f; 0xff; 0xff; 0xff;
  0xff; 0xff; 0xff; 0xff; 0xff; 0xff; 0xf2; 0xd;
  0xff; 0xff; 0xff; 0xff; 0xff; 0xff; 0xff; 0xff;
  0xff; 0xfb; 0x0; 0x0; 0x0; 0x0; 0x0; 0x0;
  0x0; 0x0; 0x0; 0x0; 0x0; 0x0; 0x0; 0x0;
  0x0; 0x0; 0x0; 0x0; 0x0; 0x0; 0x0; 0x0;
  0x0; 0x0; 0x0; 0x0; 0x0; 0x0; 0x0; 0x0;
  0x0; 0x0; 0x0; 0x0; 0x0; 0x0; 0x0; 0x0;
  0x0; 0x0; 0x0; 0x0; 0x0; 0x0; 0x0; 0x5f;
  0xff; 0xff; 0xff; 0xff; 0xff; 0xff; 0xff; 0xff;
  0xff; 0xf4; 0xf; 0xff; 0xff; 0xff; 0xff; 0xff;
  0xff; 0xff; 0xff; 0xff; 0xf9; 0x0; 0x0; 0x0;
  0x0; 0x0; 0x0; 0x0; 0x0; 0x0; 0x0; 0x0;
  0x0; 0x0; 0x0; 0x0; 0x0; 0x0; 0x0; 0x0;
  0x0; 0x0; 0x0; 0x0; 0x0; 0x0; 0x0; 0x0;
  0x0; 0x0; 0x0; 0x0; 0x0; 0x0; 0x0; 0x0;
  0x0; 0x0; 0x0; 0x0; 0x0; 0x0; 0x0; 0x0;
  0x0; 0x0; 0x3f; 0xff; 0xff; 0xff; 0xff; 0xff;
  0xff; 0xff; 0xff; 0xff; 0xf5; 0xf; 0xff; 0xff;
  0xff; 0xff; 0xff; 0xff; 0xff; 0xff; 0xff; 0xf8;
  0x0; 0x0; 0x0; 0x0; 0x0; 0x0; 0x0; 0x0;
  0x0; 0x0; 0x0; 0x0; 0x0; 0x0; 0x0; 0x0;
  0x0; 0x0; 0x0; 0x0; 0x0; 0x0; 0x0; 0x0;
  0x0; 0x0; 0x0; 0x0; 0x0; 0x0; 0x0; 0x0;
  0x0; 0x0; 0x0; 0x0; 0x0; 0x0; 0x0; 0x0;
  0x0; 0x0; 0x0; 0x0; 0x0; 0x1f; 0xff; 0xff;
  0xff; 0xff; 0xff; 0xff; 0xff; 0xff; 0xff; 0xf6;
  0x1f; 0xff; 0xff; 0xff; 0xff; 0xff; 0xff; 0xff;
  0xff; 0xff; 0xf6; 0x0; 0x0; 0x0; 0x0; 0x0;
  0x0; 0x0; 0x0; 0x0; 0x0; 0x0; 0x0; 0x0;
  0x0; 0x0; 0x0; 0x0; 0x0; 0x0; 0x0; 0x0;
  0x0; 0x0; 0x0; 0x0; 0x0; 0x0; 0x0; 0x0;
  0x0; 0x0; 0x0; 0x0; 0x0; 0x0; 0x0; 0x0;
  0x0; 0x0; 0x0; 0x0; 0x0; 0x0; 0x0; 0x0;
  0xf; 0xff; 0xff; 0xff; 0xff; 0xff; 0xff; 0xff;
  0xff; 0xff; 0xf7; 0x1f; 0xff; 0xff; 0xff; 0xff;
  0xff; 0xff; 0xff; 0xff; 0xff; 0xf5; 0x0; 0x0;
  0x0; 0x0; 0x0; 0x0; 0x0; 0x0; 0x0; 0x0;
  0x0; 0x0; 0x0; 0x0; 0x0; 0x0; 0x0; 0x0;
  0x0; 0x0; 0x0; 0x0; 0x0; 0x0; 0x0; 0x0;
  0x0; 0x0; 0x0; 0x0; 0x0; 0x0; 0x0; 0x0;
  0x0; 0x0; 0x0; 0x0; 0x0; 0x0; 0x0; 0x0;
  0x0; 0x0; 0x0; 0xf; 0xff; 0xff; 0xff; 0xff;
  0xff; 0xff; 0xff; 0xff; 0xff; 0xf8; 0x2f; 0xff;
  0xff; 0xff; 0xff; 0xff; 0xff; 0xff; 0xff; 0xff;
  0xf5; 0x0; 0x0; 0x0; 0x0; 0x0; 0x0; 0x0;
  0x0; 0x0; 0x0; 0x0; 0x0; 0x0; 0x0; 0x0;
  0x0; 0x0; 0x0; 0x0; 0x0; 0x0; 0x0; 0x0;
  0x0; 0x0; 0x0; 0x0; 0x0; 0x0; 0x0; 0x0;
  0x0; 0x0; 0x0; 0x0; 0x0; 0x0; 0x0; 0x0;
  0x0; 0x0; 0x0; 0x0; 0x0; 0x0; 0xe; 0xff;
  0xff; 0xff; 0xff; 0xff; 0xff; 0xff; 0xff; 0xff;
  0xf9; 0x3f; 0xff; 0xff; 0xff; 0xff; 0xff; 0xff;
  0xff; 0xff; 0xff; 0xf4; 0x0; 0x0; 0x0; 0x0;
  0x0; 0x0; 0x0; 0x0; 0x0; 0x0; 0x0; 0x0;
  0x0; 0x0; 0x0; 0x0; 0x0; 0x0; 0x0; 0x0;
  0x0; 0x0; 0x0; 0x0; 0x0; 0x0; 0x0; 0x0;
  0x0; 0x0; 0x0; 0x0; 0x0; 0x0; 0x0; 0x0;
  0x0; 0x0; 0x0; 0x0; 0x0; 0x0; 0x0; 0x0;
  0x0; 0xe; 0xff; 0xff; 0xff; 0xff; 0xff; 0xff;
  0xff; 0xff; 0xff; 0xf9; 0x3f; 0xff; 0xff; 0xff;
  0xff; 0xff; 0xff; 0xff; 0xff; 0xff; 0xf4; 0x0;
  0x0; 0x0; 0x0; 0x0; 0x0; 0x0; 0x0; 0x0;
  0x0; 0x0; 0x0; 0x0; 0x0; 0x0; 0x0; 0x0;
  0x0; 0x0; 0x0; 0x0; 0x0; 0x0; 0x0; 0x0;
  0x0; 0x0; 0x0; 0x0; 0x0; 0x0; 0x0; 0x0;
  0x0; 0x0; 0x0; 0x0; 0x0; 0x0; 0x0; 0x0;
  0x0; 0x0; 0x0; 0x0; 0xd; 0xff; 0xff; 0xff ].

Definition quicksand256_bitmap_26 : list Z :=
  [ 0xff; 0xff; 0xff; 0xff; 0xff; 0xff; 0xfa; 0x3f;
  0xff; 0xff; 0xff; 0xff; 0xff; 0xff; 0xff; 0xff;
  0xff; 0xf4; 0x0; 0x0; 0x0; 0x0; 0x0; 0x0;
  0x0; 0x0; 0x0; 0x0; 0x0; 0x0; 0x0; 0x0;
  0x0; 0x0; 0x0; 0x0; 0x0; 0x0; 0x0; 0x0;
  0x0; 0x0; 0x0; 0x0; 0x0; 0x0; 0x0; 0x0;
  0x0; 0x0; 0x0; 0x0; 0x0; 0x0; 0x0; 0x0;
  0x0; 0x0; 0x0; 0x0; 0x0; 0x0; 0x0; 0xd;
  0xff; 0xff; 0xff; 0xff; 0xff; 0xff; 0xff; 0xff;
  0xff; 0xfa; 0x3f; 0xff; 0xff; 0xff; 0xff; 0xff;
  0xff; 0xff; 0xff; 0xff; 0xf4; 0x0; 0x0; 0x0;
  0x0; 0x0; 0x0; 0x0; 0x0; 0x0; 0x0; 0x0;
  0x0; 0x0; 0x0; 0x0; 0x0; 0x0; 0x0; 0x0;
  0x0; 0x0; 0x0; 0x0; 0x0; 0x0; 0x0; 0x0;
  0x0; 0x0; 0x0; 0x0; 0x0; 0x0; 0x0; 0x0;
  0x0; 0x0; 0x0; 0x0; 0x0; 0x0; 0x0; 0x0;
  0x0; 0x0; 0xd; 0xff; 0xff; 0xff; 0xff; 0xff;
  0xff; 0xff; 0xff; 0xff; 0xfa; 0x3f; 0xff; 0xff;
  0xff; 0xff; 0xff; 0xff; 0xff; 0xff; 0xff; 0xf4;
  0x0; 0x0; 0x0; 0x0; 0x0; 0x0; 0x0; 0x0;
  0x0; 0x0; 0x0; 0x0; 0x0; 0x0; 0x0; 0x0;
  0x0; 0x0; 0x0; 0x0; 0x0; 0x0; 0x0; 0x0;
  0x0; 0x0; 0x0; 0x0; 0x0; 0x0; 0x0; 0x0;
  0x0; 0x0; 0x0; 0x0; 0x0; 0x0; 0x0; 0x0;
  0x0; 0x0; 0x0; 0x0; 0x0; 0xe; 0xff; 0xff;
  0xff; 0xff; 0xff; 0xff; 0xff; 0xff; 0xff; 0xf9;
  0x2f; 0xff; 0xff; 0xff; 0xff; 0xff; 0xff; 0xff;
  0xff; 0xff; 0xf5; 0x0; 0x0; 0x0; 0x0; 0x0;
  0x0; 0x0; 0x0; 0x0; 0x0; 0x0; 0x0; 0x0;
  0x0; 0x0; 0x0; 0x0; 0x0; 0x0; 0x0; 0x0;
  0x0; 0x0; 0x0; 0x0; 0x0; 0x0; 0x0; 0x0;
  0x0; 0x0; 0x0; 0x0; 0x0; 0x0; 0x0; 0x0;
  0x0; 0x0; 0x0; 0x0; 0x0; 0x0; 0x0; 0x0;
  0xe; 0xff; 0xff; 0xff; 0xff; 0xff; 0xff; 0xff;
  0xff; 0xff; 0xf9; 0x1f; 0xff; 0xff; 0xff; 0xff;
  0xff; 0xff; 0xff; 0xff; 0xff; 0xf5; 0x0; 0x0;
  0x0; 0x0; 0x0; 0x0; 0x0; 0x0; 0x0; 0x0;
  0x0; 0x0; 0x0; 0x0; 0x0; 0x0; 0x0; 0x0;
  0x0; 0x0; 0x0; 0x0; 0x0; 0x0; 0x0; 0x0;
  0x0; 0x0; 0x0; 0x0; 0x0; 0x0; 0x0; 0x0;
  0x0; 0x0; 0x0; 0x0; 0x0; 0x0; 0x0; 0x0;
  0x0; 0x0; 0x0; 0xf; 0xff; 0xff; 0xff; 0xff;
  0xff; 0xff; 0xff; 0xff; 0xff; 0xf8; 0x1f; 0xff;
  0xff; 0xff; 0xff; 0xff; 0xff; 0xff; 0xff; 0xff;
  0xf7; 0x0; 0x0; 0x0; 0x0; 0x0; 0x0; 0x0;
  0x0; 0x0; 0x0; 0x0; 0x0; 0x0; 0x0; 0x0;
  0x0; 0x0; 0x0; 0x0; 0x0; 0x0; 0x0; 0x0;
  0x0; 0x0; 0x0; 0x0; 0x0; 0x0; 0x0; 0x0;
  0x0; 0x0; 0x0; 0x0; 0x0; 0x0; 0x0; 0x0;
  0x0; 0x0; 0x0; 0x0; 0x0; 0x0; 0xf; 0xff;
  0xff; 0xff; 0xff; 0xff; 0xff; 0xff; 0xff; 0xff;
  0xf7; 0xf; 0xff; 0xff; 0xff; 0xff; 0xff; 0xff;
  0xff; 0xff; 0xff; 0xf8; 0x0; 0x0; 0x0; 0x0;
  0x0; 0x0; 0x0; 0x0; 0x0; 0x0; 0x0; 0x0;
  0x0; 0x0; 0x0; 0x0; 0x0; 0x0; 0x0; 0x0;
  0x0; 0x0; 0x0; 0x0; 0x0; 0x0; 0x0; 0x0;
  0x0; 0x0; 0x0; 0x0; 0x0; 0x0; 0x0; 0x0;
  0x0; 0x0; 0x0; 0x0; 0x0; 0x0; 0x0; 0x0;
  0x0; 0x1f; 0xff; 0xff; 0xff; 0xff; 0xff; 0xff;
  0xff; 0xff; 0xff; 0xf6; 0xf; 0xff; 0xff; 0xff;
  0xff; 0xff; 0xff; 0xff; 0xff; 0xff; 0xf9; 0x0;
  0x0; 0x0; 0x0; 0x0; 0x0; 0x0; 0x0; 0x0;
  0x0; 0x0; 0x0; 0x0; 0x0; 0x0; 0x0; 0x0;
  0x0; 0x0; 0x0; 0x0; 0x0; 0x0; 0x0; 0x0;
  0x0; 0x0; 0x0; 0x0; 0x0; 0x0; 0x0; 0x0;
  0x0; 0x0; 0x0; 0x0; 0x0; 0x0; 0x0; 0x0;
  0x0; 0x0; 0x0; 0x0; 0x3f; 0xff; 0xff; 0xff;
  0xff; 0xff; 0xff; 0xff; 0xff; 0xff; 0xf5; 0xd;
  0xff; 0xff; 0xff; 0xff; 0xff; 0xff; 0xff; 0xff;
  0xff; 0xfb; 0x0; 0x0; 0x0; 0x0; 0x0; 0x0;
  0x0; 0x0; 0x0; 0x0; 0x0; 0x0; 0x0; 0x0;
  0x0; 0x0; 0x0; 0x0; 0x0; 0x0; 0x0; 0x0;
  0x0; 0x0; 0x0; 0x0; 0x0; 0x0; 0x0; 0x0;
  0x0; 0x0; 0x0; 0x0; 0x0; 0x0; 0x0; 0x0;
  0x0; 0x0; 0x0; 0x0; 0x0; 0x0; 0x0; 0x5f;
  0xff; 0xff; 0xff; 0xff; 0xff; 0xff; 0xff; 0xff;
  0xff; 0xf4; 0xb; 0xff; 0xff; 0xff; 0xff; 0xff;
  0xff; 0xff; 0xff; 0xff; 0xfe; 0x0; 0x0; 0x0;
  0x0; 0x0; 0x0; 0x0; 0x0; 0x0; 0x0; 0x0;
  0x0; 0x0; 0x0; 0x0; 0x0; 0x0; 0x0; 0x0;
  0x0; 0x0; 0x0; 0x0; 0x0; 0x0; 0x0; 0x0;
  0x0; 0x0; 0x0; 0x0; 0x0; 0x0; 0x0; 0x0;
  0x0; 0x0; 0x0; 0x0; 0x0; 0x0; 0x0; 0x0;
  0x0; 0x0; 0x7f; 0xff; 0xff; 0xff; 0xff; 0xff;
  0xff; 0xff; 0xff; 0xff; 0xf2; 0xa; 0xff; 0xff;
  0xff; 0xff; 0xff; 0xff; 0xff; 0xff; 0xff; 0xff;
  0x0; 0x0; 0x0; 0x0; 0x0; 0x0; 0x0; 0x0;
  0x0; 0x0; 0x0; 0x0; 0x0; 0x0; 0x0; 0x0;
  0x0; 0x0; 0x0; 0x0; 0x0; 0x0; 0x0; 0x0;
  0x0; 0x0; 0x0; 0x0; 0x0; 0x0; 0x0; 0x0;
  0x0; 0x0; 0x0; 0x0; 0x0; 0x0; 0x0; 0x0;
  0x0; 0x0; 0x0; 0x0; 0x0; 0x9f; 0xff; 0xff;
  0xff; 0xff; 0xff; 0xff; 0xff; 0xff; 0xff; 0xf1;
  0x8; 0xff; 0xff; 0xff; 0xff; 0xff; 0xff; 0xff;
  0xff; 0xff; 0xff; 0x30; 0x0; 0x0; 0x0; 0x0;
  0x0; 0x0; 0x0; 0x0; 0x0; 0x0; 0x0; 0x0;
  0x0; 0x0; 0x0; 0x0; 0x0; 0x0; 0x0; 0x0;
  0x0; 0x0; 0x0; 0x0; 0x0; 0x0; 0x0; 0x0;
  0x0; 0x0; 0x0; 0x0; 0x0; 0x0; 0x0; 0x0;
  0x0; 0x0; 0x0; 0x0; 0x0; 0x0; 0x0; 0x0;
  0xcf; 0xff; 0xff; 0xff; 0xff; 0xff; 0xff; 0xff;
  0xff; 0xff; 0xe0; 0x5; 0xff; 0xff; 0xff; 0xff;
  0xff; 0xff; 0xff; 0xff; 0xff; 0xff; 0x60; 0x0;
  0x0; 0x0; 0x0; 0x0; 0x0; 0x0; 0x0; 0x0;
  0x0; 0x0; 0x0; 0x0; 0x0; 0x0; 0x0; 0x0;
  0x0; 0x0; 0x0; 0x0; 0x0; 0x0; 0x0; 0x0;
  0x0; 0x0; 0x0; 0x0; 0x0; 0x0; 0x0; 0x0;
  0x0; 0x0; 0x0; 0x0; 0x0; 0x0; 0x0; 0x0;
  0x0; 0x0; 0x0; 0xff; 0xff; 0xff; 0xff; 0xff;
  0xff; 0xff; 0xff; 0xff; 0xff; 0xc0; 0x3; 0xff;
  0xff; 0xff; 0xff; 0xff; 0xff; 0xff; 0xff; 0xff;
  0xff; 0x90; 0x0; 0x0; 0x0; 0x0; 0x0; 0x0;
  0x0; 0x0; 0x0; 0x0; 0x0; 0x0; 0x0; 0x0;
  0x0; 0x0; 0x0; 0x0; 0x0; 0x0; 0x0; 0x0;
  0x0; 0x0; 0x0; 0x0; 0x0; 0x0; 0x0; 0x0;
  0x0; 0x0; 0x0; 0x0; 0x0; 0x0; 0x0; 0x0;
  0x0; 0x0; 0x0; 0x0; 0x0; 0x2; 0xff; 0xff;
  0xff; 0xff; 0xff; 0xff; 0xff; 0xff; 0xff; 0xff;
  0xa0; 0x0; 0xff; 0xff; 0xff; 0xff; 0xff; 0xff;
  0xff; 0xff; 0xff; 0xff; 0xd0; 0x0; 0x0; 0x0;
  0x0; 0x0; 0x0; 0x0; 0x0; 0x0; 0x0; 0x0;
  0x0; 0x0; 0x0; 0x0; 0x0; 0x0; 0x0; 0x0;
  0x0; 0x0; 0x0; 0x0; 0x0; 0x0; 0x0; 0x0;
  0x0; 0x0; 0x0; 0x0; 0x0; 0x0; 0x0; 0x0;
  0x0; 0x0; 0x0; 0x0; 0x0; 0x0; 0x0; 0x0;
  0x6; 0xff; 0xff; 0xff; 0xff; 0xff; 0xff; 0xff;
  0xff; 0xff; 0xff; 0x70; 0x0; 0xdf; 0xff; 0xff;
  0xff; 0xff; 0xff; 0xff; 0xff; 0xff; 0xff; 0xf1;
  0x0; 0x0; 0x0; 0x0; 0x0; 0x0; 0x0; 0x0;
  0x0; 0x0; 0x0; 0x0; 0x0; 0x0; 0x0; 0x0;
  0x0; 0x0; 0x0; 0x0; 0x0; 0x0; 0x0; 0x0;
  0x0; 0x0; 0x0; 0x0; 0x0; 0x0; 0x0; 0x0;
  0x0; 0x0; 0x0; 0x0; 0x0; 0x0; 0x0; 0x0;
  0x0; 0x0; 0x0; 0xa; 0xff; 0xff; 0xff; 0xff;
  0xff; 0xff; 0xff; 0xff; 0xff; 0xff; 0x40; 0x0;
  0xaf; 0xff; 0xff; 0xff; 0xff; 0xff; 0xff; 0xff;
  0xff; 0xff; 0xf5; 0x0; 0x0; 0x0; 0x0; 0x0;
  0x0; 0x0; 0x0; 0x0; 0x0; 0x0; 0x0; 0x0;
  0x0; 0x0; 0x0; 0x0; 0x0; 0x0; 0x0; 0x0;
  0x0; 0x0; 0x0; 0x0; 0x0; 0x0; 0x0; 0x0;
  0x0; 0x0; 0x0; 0x0; 0x0; 0x0; 0x0; 0x0;
  0x0; 0x0; 0x0; 0x0; 0x0; 0x0; 0xe; 0xff;
  0xff; 0xff; 0xff; 0xff; 0xff; 0xff; 0xff; 0xff;
  0xff; 0x10; 0x0; 0x7f; 0xff; 0xff; 0xff; 0xff;
  0xff; 0xff; 0xff; 0xff; 0xff; 0xfa; 0x0; 0x0;
  0x0; 0x0; 0x0; 0x0; 0x0; 0x0; 0x0; 0x0;
  0x0; 0x0; 0x0; 0x0; 0x0; 0x0; 0x0; 0x0;
  0x0; 0x0; 0x0; 0x0; 0x0; 0x0; 0x0; 0x0;
  0x0; 0x0; 0x0; 0x0; 0x0; 0x0; 0x0; 0x0;
  0x0; 0x0; 0x0; 0x0; 0x0; 0x0; 0x0; 0x0 ].

Definition quicksand256_bitmap_27 : list Z :=
  [ 0x0; 0x2f; 0xff; 0xff; 0xff; 0xff; 0xff; 0xff;
  0xff; 0xff; 0xff; 0xfe; 0x0; 0x0; 0x3f; 0xff;
  0xff; 0xff; 0xff; 0xff; 0xff; 0xff; 0xff; 0xff;
  0xfe; 0x0; 0x0; 0x0; 0x0; 0x0; 0x0; 0x0;
  0x0; 0x0; 0x0; 0x0; 0x0; 0x0; 0x0; 0x0;
  0x0; 0x0; 0x0; 0x0; 0x0; 0x0; 0x0; 0x0;
  0x0; 0x0; 0x0; 0x0; 0x0; 0x0; 0x0; 0x0;
  0x0; 0x0; 0x0; 0x0; 0x0; 0x0; 0x0; 0x0;
  0x0; 0x0; 0x0; 0x0; 0x7f; 0xff; 0xff; 0xff;
  0xff; 0xff; 0xff; 0xff; 0xff; 0xff; 0xfa; 0x0;
  0x0; 0xf; 0xff; 0xff; 0xff; 0xff; 0xff; 0xff;
  0xff; 0xff; 0xff; 0xff; 0x40; 0x0; 0x0; 0x0;
  0x0; 0x0; 0x0; 0x0; 0x0; 0x0; 0x0; 0x0;
  0x0; 0x0; 0x0; 0x0; 0x0; 0x0; 0x0; 0x0;
  0x0; 0x0; 0x0; 0x0; 0x0; 0x0; 0x0; 0x0;
  0x0; 0x0; 0x0; 0x0; 0x0; 0x0; 0x0; 0x0;
  0x0; 0x0; 0x0; 0x0; 0x0; 0x0; 0x0; 0xdf;
  0xff; 0xff; 0xff; 0xff; 0xff; 0xff; 0xff; 0xff;
  0xff; 0xf6; 0x0; 0x0; 0xb; 0xff; 0xff; 0xff;
  0xff; 0xff; 0xff; 0xff; 0xff; 0xff; 0xff; 0xa0;
  0x0; 0x0; 0x0; 0x0; 0x0; 0x0; 0x0; 0x0;
  0x0; 0x0; 0x0; 0x0; 0x0; 0x0; 0x0; 0x0;
  0x0; 0x0; 0x0; 0x0; 0x0; 0x0; 0x0; 0x0;
  0x0; 0x0; 0x0; 0x0; 0x0; 0x0; 0x0; 0x0;
  0x0; 0x0; 0x0; 0x0; 0x0; 0x0; 0x0; 0x0;
  0x0; 0x2; 0xff; 0xff; 0xff; 0xff; 0xff; 0xff;
  0xff; 0xff; 0xff; 0xff; 0xf2; 0x0; 0x0; 0x7;
  0xff; 0xff; 0xff; 0xff; 0xff; 0xff; 0xff; 0xff;
  0xff; 0xff; 0xf1; 0x0; 0x0; 0x0; 0x0; 0x0;
  0x0; 0x0; 0x0; 0x0; 0x0; 0x0; 0x0; 0x0;
  0x0; 0x0; 0x0; 0x0; 0x0; 0x0; 0x0; 0x0;
  0x0; 0x0; 0x0; 0x0; 0x0; 0x0; 0x0; 0x0;
  0x0; 0x0; 0x0; 0x0; 0x0; 0x0; 0x0; 0x0;
  0x0; 0x0; 0x0; 0x0; 0x8; 0xff; 0xff; 0xff;
  0xff; 0xff; 0xff; 0xff; 0xff; 0xff; 0xff; 0xe0;
  0x0; 0x0; 0x3; 0xff; 0xff; 0xff; 0xff; 0xff;
  0xff; 0xff; 0xff; 0xff; 0xff; 0xf7; 0x0; 0x0;
  0x0; 0x0; 0x0; 0x0; 0x0; 0x0; 0x0; 0x0;
  0x0; 0x0; 0x0; 0x0; 0x0; 0x0; 0x0; 0x0;
  0x0; 0x0; 0x0; 0x0; 0x0; 0x0; 0x0; 0x0;
  0x0; 0x0; 0x0; 0x0; 0x0; 0x0; 0x0; 0x0;
  0x0; 0x0; 0x0; 0x0; 0x0; 0x0; 0x0; 0xe;
  0xff; 0xff; 0xff; 0xff; 0xff; 0xff; 0xff; 0xff;
  0xff; 0xff; 0x90; 0x0; 0x0; 0x0; 0xef; 0xff;
  0xff; 0xff; 0xff; 0xff; 0xff; 0xff; 0xff; 0xff;
  0xfe; 0x0; 0x0; 0x0; 0x0; 0x0; 0x0; 0x0;
  0x0; 0x0; 0x0; 0x0; 0x0; 0x0; 0x0; 0x0;
  0x0; 0x0; 0x0; 0x0; 0x0; 0x0; 0x0; 0x0;
  0x0; 0x0; 0x0; 0x0; 0x0; 0x0; 0x0; 0x0;
  0x0; 0x0; 0x0; 0x0; 0x0; 0x0; 0x0; 0x0;
  0x0; 0x0; 0x6f; 0xff; 0xff; 0xff; 0xff; 0xff;
  0xff; 0xff; 0xff; 0xff; 0xff; 0x40; 0x0; 0x0;
  0x0; 0x9f; 0xff; 0xff; 0xff; 0xff; 0xff; 0xff;
  0xff; 0xff; 0xff; 0xff; 0x50; 0x0; 0x0; 0x0;
  0x0; 0x0; 0x0; 0x0; 0x0; 0x0; 0x0; 0x0;
  0x0; 0x0; 0x0; 0x0; 0x0; 0x0; 0x0; 0x0;
  0x0; 0x0; 0x0; 0x0; 0x0; 0x0; 0x0; 0x0;
  0x0; 0x0; 0x0; 0x0; 0x0; 0x0; 0x0; 0x0;
  0x0; 0x0; 0x0; 0x0; 0x0; 0xdf; 0xff; 0xff;
  0xff; 0xff; 0xff; 0xff; 0xff; 0xff; 0xff; 0xff;
  0x0; 0x0; 0x0; 0x0; 0x3f; 0xff; 0xff; 0xff;
  0xff; 0xff; 0xff; 0xff; 0xff; 0xff; 0xff; 0xd0;
  0x0; 0x0; 0x0; 0x0; 0x0; 0x0; 0x0; 0x0;
  0x0; 0x0; 0x0; 0x0; 0x0; 0x0; 0x0; 0x0;
  0x0; 0x0; 0x0; 0x0; 0x0; 0x0; 0x0; 0x0;
  0x0; 0x0; 0x0; 0x0; 0x0; 0x0; 0x0; 0x0;
  0x0; 0x0; 0x0; 0x0; 0x0; 0x0; 0x0; 0x5;
  0xff; 0xff; 0xff; 0xff; 0xff; 0xff; 0xff; 0xff;
  0xff; 0xff; 0xfa; 0x0; 0x0; 0x0; 0x0; 0xd;
  0xff; 0xff; 0xff; 0xff; 0xff; 0xff; 0xff; 0xff;
  0xff; 0xff; 0xf6; 0x0; 0x0; 0x0; 0x0; 0x0;
  0x0; 0x0; 0x0; 0x0; 0x0; 0x0; 0x0; 0x0;
  0x0; 0x0; 0x0; 0x0; 0x0; 0x0; 0x0; 0x0;
  0x0; 0x0; 0x0; 0x0; 0x0; 0x0; 0x0; 0x0;
  0x0; 0x0; 0x0; 0x0; 0x0; 0x0; 0x0; 0x0;
  0x0; 0x0; 0xd; 0xff; 0xff; 0xff; 0xff; 0xff;
  0xff; 0xff; 0xff; 0xff; 0xff; 0xf4; 0x0; 0x0;
  0x0; 0x0; 0x8; 0xff; 0xff; 0xff; 0xff; 0xff;
  0xff; 0xff; 0xff; 0xff; 0xff; 0xfe; 0x0; 0x0;
  0x0; 0x0; 0x0; 0x0; 0x0; 0x0; 0x0; 0x0;
  0x0; 0x0; 0x0; 0x0; 0x0; 0x0; 0x0; 0x0;
  0x0; 0x0; 0x0; 0x0; 0x0; 0x0; 0x0; 0x0;
  0x0; 0x0; 0x0; 0x0; 0x0; 0x0; 0x0; 0x0;
  0x0; 0x0; 0x0; 0x0; 0x0; 0x6f; 0xff; 0xff;
  0xff; 0xff; 0xff; 0xff; 0xff; 0xff; 0xff; 0xff;
  0xe0; 0x0; 0x0; 0x0; 0x0; 0x1; 0xff; 0xff;
  0xff; 0xff; 0xff; 0xff; 0xff; 0xff; 0xff; 0xff;
  0xff; 0x80; 0x0; 0x0; 0x0; 0x0; 0x0; 0x0;
  0x0; 0x0; 0x0; 0x0; 0x0; 0x0; 0x0; 0x0;
  0x0; 0x0; 0x0; 0x0; 0x0; 0x0; 0x0; 0x0;
  0x0; 0x0; 0x0; 0x0; 0x0; 0x0; 0x0; 0x0;
  0x0; 0x0; 0x0; 0x0; 0x0; 0x0; 0x0; 0x0;
  0xef; 0xff; 0xff; 0xff; 0xff; 0xff; 0xff; 0xff;
  0xff; 0xff; 0xff; 0x80; 0x0; 0x0; 0x0; 0x0;
  0x0; 0xbf; 0xff; 0xff; 0xff; 0xff; 0xff; 0xff;
  0xff; 0xff; 0xff; 0xff; 0xf2; 0x0; 0x0; 0x0;
  0x0; 0x0; 0x0; 0x0; 0x0; 0x0; 0x0; 0x0;
  0x0; 0x0; 0x0; 0x0; 0x0; 0x0; 0x0; 0x0;
  0x0; 0x0; 0x0; 0x0; 0x0; 0x0; 0x0; 0x0;
  0x0; 0x0; 0x0; 0x0; 0x0; 0x0; 0x0; 0x0;
  0x0; 0x0; 0x9; 0xff; 0xff; 0xff; 0xff; 0xff;
  0xff; 0xff; 0xff; 0xff; 0xff; 0xff; 0x20; 0x0;
  0x0; 0x0; 0x0; 0x0; 0x4f; 0xff; 0xff; 0xff;
  0xff; 0xff; 0xff; 0xff; 0xff; 0xff; 0xff; 0xfc;
  0x0; 0x0; 0x0; 0x0; 0x0; 0x0; 0x0; 0x0;
  0x0; 0x0; 0x0; 0x0; 0x0; 0x0; 0x0; 0x0;
  0x0; 0x0; 0x0; 0x0; 0x0; 0x0; 0x0; 0x0;
  0x0; 0x0; 0x0; 0x0; 0x0; 0x0; 0x0; 0x0;
  0x0; 0x0; 0x0; 0x0; 0x0; 0x3f; 0xff; 0xff;
  0xff; 0xff; 0xff; 0xff; 0xff; 0xff; 0xff; 0xff;
  0xfb; 0x0; 0x0; 0x0; 0x0; 0x0; 0x0; 0xd;
  0xff; 0xff; 0xff; 0xff; 0xff; 0xff; 0xff; 0xff;
  0xff; 0xff; 0xff; 0x70; 0x0; 0x0; 0x0; 0x0;
  0x0; 0x0; 0x0; 0x0; 0x0; 0x0; 0x0; 0x0;
  0x0; 0x0; 0x0; 0x0; 0x0; 0x0; 0x0; 0x0;
  0x0; 0x0; 0x0; 0x0; 0x0; 0x0; 0x0; 0x0;
  0x0; 0x0; 0x0; 0x0; 0x0; 0x0; 0x0; 0x0;
  0xdf; 0xff; 0xff; 0xff; 0xff; 0xff; 0xff; 0xff;
  0xff; 0xff; 0xff; 0xf3; 0x0; 0x0; 0x0; 0x0;
  0x0; 0x0; 0x5; 0xff; 0xff; 0xff; 0xff; 0xff;
  0xff; 0xff; 0xff; 0xff; 0xff; 0xff; 0xf3; 0x0;
  0x0; 0x0; 0x0; 0x0; 0x0; 0x0; 0x0; 0x0;
  0x0; 0x0; 0x0; 0x0; 0x0; 0x0; 0x0; 0x0;
  0x0; 0x0; 0x0; 0x0; 0x0; 0x0; 0x0; 0x0;
  0x0; 0x0; 0x0; 0x0; 0x0; 0x0; 0x0; 0x0;
  0x0; 0x0; 0x9; 0xff; 0xff; 0xff; 0xff; 0xff;
  0xff; 0xff; 0xff; 0xff; 0xff; 0xff; 0xc0; 0x0;
  0x0; 0x0; 0x0; 0x0; 0x0; 0x0; 0xdf; 0xff;
  0xff; 0xff; 0xff; 0xff; 0xff; 0xff; 0xff; 0xff;
  0xff; 0xfd; 0x10; 0x0; 0x0; 0x0; 0x0; 0x0;
  0x0; 0x0; 0x0; 0x0; 0x0; 0x0; 0x0; 0x0;
  0x0; 0x0; 0x0; 0x0; 0x0; 0x0; 0x0; 0x0;
  0x0; 0x0; 0x0; 0x0; 0x0; 0x0; 0x0; 0x0;
  0x0; 0x0; 0x0; 0x0; 0x0; 0x5f; 0xff; 0xff;
  0xff; 0xff; 0xff; 0xff; 0xff; 0xff; 0xff; 0xff;
  0xff; 0x40; 0x0; 0x0; 0x0; 0x0; 0x0; 0x0;
  0x0; 0x5f; 0xff; 0xff; 0xff; 0xff; 0xff; 0xff;
  0xff; 0xff; 0xff; 0xff; 0xff; 0xb0; 0x0; 0x0;
  0x0; 0x0; 0x0; 0x0; 0x0; 0x0; 0x0; 0x0;
  0x0; 0x0; 0x0; 0x0; 0x0; 0x0; 0x0; 0x0;
  0x0; 0x0; 0x0; 0x0; 0x0; 0x0; 0x0; 0x0;
  0x0; 0x0; 0x0; 0x0; 0x0; 0x0; 0x0; 0x2;
  0xff; 0xff; 0xff; 0xff; 0xff; 0xff; 0xff; 0xff;
  0xff; 0xff; 0xff; 0xfc; 0x0; 0x0; 0x0; 0x0;
  0x0; 0x0; 0x0; 0x0; 0xc; 0xff; 0xff; 0xff;
  0xff; 0xff; 0xff; 0xff; 0xff; 0xff; 0xff; 0xff;
  0xf8; 0x0; 0x0; 0x0; 0x0; 0x0; 0x0; 0x0;
  0x0; 0x0; 0x0; 0x0; 0x0; 0x0; 0x0; 0x0;
  0x0; 0x0; 0x0; 0x0; 0x0; 0x0; 0x0; 0x0;
  0x0; 0x0; 0x0; 0x0; 0x0; 0x0; 0x0; 0x0 ].

Definition quicksand256_bitmap_28 : list Z :=
  [ 0x0; 0x0; 0x1d; 0xff; 0xff; 0xff; 0xff; 0xff;
  0xff; 0xff; 0xff; 0xff; 0xff; 0xff; 0xf3; 0x0;
  0x0; 0x0; 0x0; 0x0; 0x0; 0x0; 0x0; 0x4;
  0xff; 0xff; 0xff; 0xff; 0xff; 0xff; 0xff; 0xff;
  0xff; 0xff; 0xff; 0xff; 0x70; 0x0; 0x0; 0x0;
  0x0; 0x0; 0x0; 0x0; 0x0; 0x0; 0x0; 0x0;
  0x0; 0x0; 0x0; 0x0; 0x0; 0x0; 0x0; 0x0;
  0x0; 0x0; 0x0; 0x0; 0x0; 0x0; 0x0; 0x0;
  0x0; 0x0; 0x0; 0x0; 0x0; 0xcf; 0xff; 0xff;
  0xff; 0xff; 0xff; 0xff; 0xff; 0xff; 0xff; 0xff;
  0xff; 0xa0; 0x0; 0x0; 0x0; 0x0; 0x0; 0x0;
  0x0; 0x0; 0x0; 0xaf; 0xff; 0xff; 0xff; 0xff;
  0xff; 0xff; 0xff; 0xff; 0xff; 0xff; 0xff; 0xf6;
  0x0; 0x0; 0x0; 0x0; 0x0; 0x0; 0x0; 0x0;
  0x0; 0x0; 0x0; 0x0; 0x0; 0x0; 0x0; 0x0;
  0x0; 0x0; 0x0; 0x0; 0x0; 0x0; 0x0; 0x0;
  0x0; 0x0; 0x0; 0x0; 0x0; 0x0; 0x0; 0xb;
  0xff; 0xff; 0xff; 0xff; 0xff; 0xff; 0xff; 0xff;
  0xff; 0xff; 0xff; 0xff; 0x20; 0x0; 0x0; 0x0;
  0x0; 0x0; 0x0; 0x0; 0x0; 0x0; 0x2f; 0xff;
  0xff; 0xff; 0xff; 0xff; 0xff; 0xff; 0xff; 0xff;
  0xff; 0xff; 0xff; 0x60; 0x0; 0x0; 0x0; 0x0;
  0x0; 0x0; 0x0; 0x0; 0x0; 0x0; 0x0; 0x0;
  0x0; 0x0; 0x0; 0x0; 0x0; 0x0; 0x0; 0x0;
  0x0; 0x0; 0x0; 0x0; 0x0; 0x0; 0x0; 0x0;
  0x0; 0x0; 0xbf; 0xff; 0xff; 0xff; 0xff; 0xff;
  0xff; 0xff; 0xff; 0xff; 0xff; 0xff; 0xf8; 0x0;
  0x0; 0x0; 0x0; 0x0; 0x0; 0x0; 0x0; 0x0;
  0x0; 0x7; 0xff; 0xff; 0xff; 0xff; 0xff; 0xff;
  0xff; 0xff; 0xff; 0xff; 0xff; 0xff; 0xf7; 0x0;
  0x0; 0x0; 0x0; 0x0; 0x0; 0x0; 0x0; 0x0;
  0x0; 0x0; 0x0; 0x0; 0x0; 0x0; 0x0; 0x0;
  0x0; 0x0; 0x0; 0x0; 0x0; 0x0; 0x0; 0x0;
  0x0; 0x0; 0x0; 0x0; 0xb; 0xff; 0xff; 0xff;
  0xff; 0xff; 0xff; 0xff; 0xff; 0xff; 0xff; 0xff;
  0xff; 0xd0; 0x0; 0x0; 0x0; 0x0; 0x0; 0x0;
  0x0; 0x0; 0x0; 0x0; 0x0; 0xcf; 0xff; 0xff;
  0xff; 0xff; 0xff; 0xff; 0xff; 0xff; 0xff; 0xff;
  0xff; 0xff; 0x90; 0x0; 0x0; 0x0; 0x0; 0x0;
  0x0; 0x0; 0x0; 0x0; 0x0; 0x0; 0x0; 0x0;
  0x0; 0x0; 0x0; 0x0; 0x0; 0x0; 0x0; 0x0;
  0x0; 0x0; 0x0; 0x0; 0x0; 0x0; 0x1; 0xcf;
  0xff; 0xff; 0xff; 0xff; 0xff; 0xff; 0xff; 0xff;
  0xff; 0xff; 0xff; 0xff; 0x30; 0x0; 0x0; 0x0;
  0x0; 0x0; 0x0; 0x0; 0x0; 0x0; 0x0; 0x0;
  0x2f; 0xff; 0xff; 0xff; 0xff; 0xff; 0xff; 0xff;
  0xff; 0xff; 0xff; 0xff; 0xff; 0xfb; 0x10; 0x0;
  0x0; 0x0; 0x0; 0x0; 0x0; 0x0; 0x0; 0x0;
  0x0; 0x0; 0x0; 0x0; 0x0; 0x0; 0x0; 0x0;
  0x0; 0x0; 0x0; 0x0; 0x0; 0x0; 0x0; 0x0;
  0x0; 0x3e; 0xff; 0xff; 0xff; 0xff; 0xff; 0xff;
  0xff; 0xff; 0xff; 0xff; 0xff; 0xff; 0xf9; 0x0;
  0x0; 0x0; 0x0; 0x0; 0x0; 0x0; 0x0; 0x0;
  0x0; 0x0; 0x0; 0x7; 0xff; 0xff; 0xff; 0xff;
  0xff; 0xff; 0xff; 0xff; 0xff; 0xff; 0xff; 0xff;
  0xff; 0xd3; 0x0; 0x0; 0x0; 0x0; 0x0; 0x0;
  0x0; 0x0; 0x0; 0x0; 0x0; 0x0; 0x0; 0x0;
  0x0; 0x0; 0x0; 0x0; 0x0; 0x0; 0x0; 0x0;
  0x0; 0x0; 0x0; 0x7; 0xff; 0xff; 0xff; 0xff;
  0xff; 0xff; 0xff; 0xff; 0xff; 0xff; 0xff; 0xff;
  0xff; 0xd0; 0x0; 0x0; 0x0; 0x0; 0x0; 0x0;
  0x0; 0x0; 0x0; 0x0; 0x0; 0x0; 0x0; 0xbf;
  0xff; 0xff; 0xff; 0xff; 0xff; 0xff; 0xff; 0xff;
  0xff; 0xff; 0xff; 0xff; 0xff; 0x70; 0x0; 0x0;
  0x0; 0x0; 0x0; 0x0; 0x0; 0x0; 0x0; 0x0;
  0x0; 0x0; 0x0; 0x0; 0x0; 0x0; 0x0; 0x0;
  0x0; 0x0; 0x0; 0x0; 0x0; 0x1; 0xbf; 0xff;
  0xff; 0xff; 0xff; 0xff; 0xff; 0xff; 0xff; 0xff;
  0xff; 0xff; 0xff; 0xff; 0x20; 0x0; 0x0; 0x0;
  0x0; 0x0; 0x0; 0x0; 0x0; 0x0; 0x0; 0x0;
  0x0; 0x0; 0x1e; 0xff; 0xff; 0xff; 0xff; 0xff;
  0xff; 0xff; 0xff; 0xff; 0xff; 0xff; 0xff; 0xff;
  0xfc; 0x30; 0x0; 0x0; 0x0; 0x0; 0x0; 0x0;
  0x0; 0x0; 0x0; 0x0; 0x0; 0x0; 0x0; 0x0;
  0x0; 0x0; 0x0; 0x0; 0x0; 0x0; 0x0; 0x0;
  0x6f; 0xff; 0xff; 0xff; 0xff; 0xff; 0xff; 0xff;
  0xff; 0xff; 0xff; 0xff; 0xff; 0xff; 0xf6; 0x0;
  0x0; 0x0; 0x0; 0x0; 0x0; 0x0; 0x0; 0x0;
  0x0; 0x0; 0x0; 0x0; 0x0; 0x3; 0xff; 0xff;
  0xff; 0xff; 0xff; 0xff; 0xff; 0xff; 0xff; 0xff;
  0xff; 0xff; 0xff; 0xff; 0xf9; 0x10; 0x0; 0x0;
  0x0; 0x0; 0x0; 0x0; 0x0; 0x0; 0x0; 0x0;
  0x0; 0x0; 0x0; 0x0; 0x0; 0x0; 0x0; 0x0;
  0x0; 0x0; 0x3c; 0xff; 0xff; 0xff; 0xff; 0xff;
  0xff; 0xff; 0xff; 0xff; 0xff; 0xff; 0xff; 0xff;
  0xff; 0xa0; 0x0; 0x0; 0x0; 0x0; 0x0; 0x0;
  0x0; 0x0; 0x0; 0x0; 0x0; 0x0; 0x0; 0x0;
  0x0; 0x6f; 0xff; 0xff; 0xff; 0xff; 0xff; 0xff;
  0xff; 0xff; 0xff; 0xff; 0xff; 0xff; 0xff; 0xff;
  0xf8; 0x10; 0x0; 0x0; 0x0; 0x0; 0x0; 0x0;
  0x0; 0x0; 0x0; 0x0; 0x0; 0x0; 0x0; 0x0;
  0x0; 0x0; 0x0; 0x0; 0x3b; 0xff; 0xff; 0xff;
  0xff; 0xff; 0xff; 0xff; 0xff; 0xff; 0xff; 0xff;
  0xff; 0xff; 0xff; 0xfc; 0x0; 0x0; 0x0; 0x0;
  0x0; 0x0; 0x0; 0x0; 0x0; 0x0; 0x0; 0x0;
  0x0; 0x0; 0x0; 0x0; 0x8; 0xff; 0xff; 0xff;
  0xff; 0xff; 0xff; 0xff; 0xff; 0xff; 0xff; 0xff;
  0xff; 0xff; 0xff; 0xff; 0xf9; 0x20; 0x0; 0x0;
  0x0; 0x0; 0x0; 0x0; 0x0; 0x0; 0x0; 0x0;
  0x0; 0x0; 0x0; 0x0; 0x0; 0x0; 0x4b; 0xff;
  0xff; 0xff; 0xff; 0xff; 0xff; 0xff; 0xff; 0xff;
  0xff; 0xff; 0xff; 0xff; 0xff; 0xff; 0xe1; 0x0;
  0x0; 0x0; 0x0; 0x0; 0x0; 0x0; 0x0; 0x0;
  0x0; 0x0; 0x0; 0x0; 0x0; 0x0; 0x0; 0x0;
  0xaf; 0xff; 0xff; 0xff; 0xff; 0xff; 0xff; 0xff;
  0xff; 0xff; 0xff; 0xff; 0xff; 0xff; 0xff; 0xff;
  0xfc; 0x61; 0x0; 0x0; 0x0; 0x0; 0x0; 0x0;
  0x0; 0x0; 0x0; 0x0; 0x0; 0x0; 0x0; 0x2;
  0x8e; 0xff; 0xff; 0xff; 0xff; 0xff; 0xff; 0xff;
  0xff; 0xff; 0xff; 0xff; 0xff; 0xff; 0xff; 0xff;
  0xff; 0x20; 0x0; 0x0; 0x0; 0x0; 0x0; 0x0;
  0x0; 0x0; 0x0; 0x0; 0x0; 0x0; 0x0; 0x0;
  0x0; 0x0; 0x0; 0xb; 0xff; 0xff; 0xff; 0xff;
  0xff; 0xff; 0xff; 0xff; 0xff; 0xff; 0xff; 0xff;
  0xff; 0xff; 0xff; 0xff; 0xff; 0xc7; 0x30; 0x0;
  0x0; 0x0; 0x0; 0x0; 0x0; 0x0; 0x0; 0x0;
  0x1; 0x59; 0xdf; 0xff; 0xff; 0xff; 0xff; 0xff;
  0xff; 0xff; 0xff; 0xff; 0xff; 0xff; 0xff; 0xff;
  0xff; 0xff; 0xff; 0xf3; 0x0; 0x0; 0x0; 0x0;
  0x0; 0x0; 0x0; 0x0; 0x0; 0x0; 0x0; 0x0;
  0x0; 0x0; 0x0; 0x0; 0x0; 0x0; 0x0; 0xcf;
  0xff; 0xff; 0xff; 0xff; 0xff; 0xff; 0xff; 0xff;
  0xff; 0xff; 0xff; 0xff; 0xff; 0xff; 0xff; 0xff;
  0xff; 0xff; 0xc9; 0x75; 0x32; 0x10; 0x0; 0x0;
  0x12; 0x46; 0x8a; 0xdf; 0xff; 0xff; 0xff; 0xff;
  0xff; 0xff; 0xff; 0xff; 0xff; 0xff; 0xff; 0xff;
  0xff; 0xff; 0xff; 0xff; 0xff; 0xff; 0x40; 0x0;
  0x0; 0x0; 0x0; 0x0; 0x0; 0x0; 0x0; 0x0;
  0x0; 0x0; 0x0; 0x0; 0x0; 0x0; 0x0; 0x0;
  0x0; 0x0; 0xc; 0xff; 0xff; 0xff; 0xff; 0xff;
  0xff; 0xff; 0xff; 0xff; 0xff; 0xff; 0xff; 0xff;
  0xff; 0xff; 0xff; 0xff; 0xff; 0xff; 0xff; 0xff;
  0xff; 0xff; 0xff; 0xff; 0xff; 0xff; 0xff; 0xff;
  0xff; 0xff; 0xff; 0xff; 0xff; 0xff; 0xff; 0xff;
  0xff; 0xff; 0xff; 0xff; 0xff; 0xff; 0xff; 0xff;
  0xf4; 0x0; 0x0; 0x0; 0x0; 0x0; 0x0; 0x0;
  0x0; 0x0; 0x0; 0x0; 0x0; 0x0; 0x0; 0x0;
  0x0; 0x0; 0x0; 0x0; 0x0; 0x0; 0xbf; 0xff;
  0xff; 0xff; 0xff; 0xff; 0xff; 0xff; 0xff; 0xff;
  0xff; 0xff; 0xff; 0xff; 0xff; 0xff; 0xff; 0xff;
  0xff; 0xff; 0xff; 0xff; 0xff; 0xff; 0xff; 0xff;
  0xff; 0xff; 0xff; 0xff; 0xff; 0xff; 0xff; 0xff;
  0xff; 0xff; 0xff; 0xff; 0xff; 0xff; 0xff; 0xff;
  0xff; 0xff; 0xff; 0x40; 0x0; 0x0; 0x0; 0x0;
  0x0; 0x0; 0x0; 0x0; 0x0; 0x0; 0x0; 0x0;
  0x0; 0x0; 0x0; 0x0; 0x0; 0x0; 0x0; 0x0;
  0x0; 0xa; 0xff; 0xff; 0xff; 0xff; 0xff; 0xff;
  0xff; 0xff; 0xff; 0xff; 0xff; 0xff; 0xff; 0xff;
  0xff; 0xff; 0xff; 0xff; 0xff; 0xff; 0xff; 0xff;
  0xff; 0xff; 0xff; 0xff; 0xff; 0xff; 0xff; 0xff ].

Definition quicksand256_bitmap_29 : list Z :=
  [ 0xff; 0xff; 0xff; 0xff; 0xff; 0xff; 0xff; 0xff;
  0xff; 0xff; 0xff; 0xff; 0xff; 0xe3; 0x0; 0x0;
  0x0; 0x0; 0x0; 0x0; 0x0; 0x0; 0x0; 0x0;
  0x0; 0x0; 0x0; 0x0; 0x0; 0x0; 0x0; 0x0;
  0x0; 0x0; 0x0; 0x0; 0x0; 0x8f; 0xff; 0xff;
  0xff; 0xff; 0xff; 0xff; 0xff; 0xff; 0xff; 0xff;
  0xff; 0xff; 0xff; 0xff; 0xff; 0xff; 0xff; 0xff;
  0xff; 0xff; 0xff; 0xff; 0xff; 0xff; 0xff; 0xff;
  0xff; 0xff; 0xff; 0xff; 0xff; 0xff; 0xff; 0xff;
  0xff; 0xff; 0xff; 0xff; 0xff; 0xff; 0xff; 0xfd;
  0x20; 0x0; 0x0; 0x0; 0x0; 0x0; 0x0; 0x0;
  0x0; 0x0; 0x0; 0x0; 0x0; 0x0; 0x0; 0x0;
  0x0; 0x0; 0x0; 0x0; 0x0; 0x0; 0x0; 0x0;
  0x5; 0xff; 0xff; 0xff; 0xff; 0xff; 0xff; 0xff;
  0xff; 0xff; 0xff; 0xff; 0xff; 0xff; 0xff; 0xff;
  0xff; 0xff; 0xff; 0xff; 0xff; 0xff; 0xff; 0xff;
  0xff; 0xff; 0xff; 0xff; 0xff; 0xff; 0xff; 0xff;
  0xff; 0xff; 0xff; 0xff; 0xff; 0xff; 0xff; 0xff;
  0xff; 0xff; 0xb1; 0x0; 0x0; 0x0; 0x0; 0x0;
  0x0; 0x0; 0x0; 0x0; 0x0; 0x0; 0x0; 0x0;
  0x0; 0x0; 0x0; 0x0; 0x0; 0x0; 0x0; 0x0;
  0x0; 0x0; 0x0; 0x0; 0x3d; 0xff; 0xff; 0xff;
  0xff; 0xff; 0xff; 0xff; 0xff; 0xff; 0xff; 0xff;
  0xff; 0xff; 0xff; 0xff; 0xff; 0xff; 0xff; 0xff;
  0xff; 0xff; 0xff; 0xff; 0xff; 0xff; 0xff; 0xff;
  0xff; 0xff; 0xff; 0xff; 0xff; 0xff; 0xff; 0xff;
  0xff; 0xff; 0xff; 0xff; 0xf8; 0x0; 0x0; 0x0;
  0x0; 0x0; 0x0; 0x0; 0x0; 0x0; 0x0; 0x0;
  0x0; 0x0; 0x0; 0x0; 0x0; 0x0; 0x0; 0x0;
  0x0; 0x0; 0x0; 0x0; 0x0; 0x0; 0x0; 0x1;
  0xaf; 0xff; 0xff; 0xff; 0xff; 0xff; 0xff; 0xff;
  0xff; 0xff; 0xff; 0xff; 0xff; 0xff; 0xff; 0xff;
  0xff; 0xff; 0xff; 0xff; 0xff; 0xff; 0xff; 0xff;
  0xff; 0xff; 0xff; 0xff; 0xff; 0xff; 0xff; 0xff;
  0xff; 0xff; 0xff; 0xff; 0xff; 0xff; 0xfe; 0x40;
  0x0; 0x0; 0x0; 0x0; 0x0; 0x0; 0x0; 0x0;
  0x0; 0x0; 0x0; 0x0; 0x0; 0x0; 0x0; 0x0;
  0x0; 0x0; 0x0; 0x0; 0x0; 0x0; 0x0; 0x0;
  0x0; 0x0; 0x0; 0x6; 0xff; 0xff; 0xff; 0xff;
  0xff; 0xff; 0xff; 0xff; 0xff; 0xff; 0xff; 0xff;
  0xff; 0xff; 0xff; 0xff; 0xff; 0xff; 0xff; 0xff;
  0xff; 0xff; 0xff; 0xff; 0xff; 0xff; 0xff; 0xff;
  0xff; 0xff; 0xff; 0xff; 0xff; 0xff; 0xff; 0xff;
  0xff; 0xb1; 0x0; 0x0; 0x0; 0x0; 0x0; 0x0;
  0x0; 0x0; 0x0; 0x0; 0x0; 0x0; 0x0; 0x0;
  0x0; 0x0; 0x0; 0x0; 0x0; 0x0; 0x0; 0x0;
  0x0; 0x0; 0x0; 0x0; 0x0; 0x0; 0x0; 0x1b;
  0xff; 0xff; 0xff; 0xff; 0xff; 0xff; 0xff; 0xff;
  0xff; 0xff; 0xff; 0xff; 0xff; 0xff; 0xff; 0xff;
  0xff; 0xff; 0xff; 0xff; 0xff; 0xff; 0xff; 0xff;
  0xff; 0xff; 0xff; 0xff; 0xff; 0xff; 0xff; 0xff;
  0xff; 0xff; 0xff; 0xf6; 0x0; 0x0; 0x0; 0x0;
  0x0; 0x0; 0x0; 0x0; 0x0; 0x0; 0x0; 0x0;
  0x0; 0x0; 0x0; 0x0; 0x0; 0x0; 0x0; 0x0;
  0x0; 0x0; 0x0; 0x0; 0x0; 0x0; 0x0; 0x0;
  0x0; 0x0; 0x0; 0x5e; 0xff; 0xff; 0xff; 0xff;
  0xff; 0xff; 0xff; 0xff; 0xff; 0xff; 0xff; 0xff;
  0xff; 0xff; 0xff; 0xff; 0xff; 0xff; 0xff; 0xff;
  0xff; 0xff; 0xff; 0xff; 0xff; 0xff; 0xff; 0xff;
  0xff; 0xff; 0xff; 0xff; 0xff; 0xfa; 0x10; 0x0;
  0x0; 0x0; 0x0; 0x0; 0x0; 0x0; 0x0; 0x0;
  0x0; 0x0; 0x0; 0x0; 0x0; 0x0; 0x0; 0x0;
  0x0; 0x0; 0x0; 0x0; 0x0; 0x0; 0x0; 0x0;
  0x0; 0x0; 0x0; 0x0; 0x0; 0x0; 0x0; 0x8f;
  0xff; 0xff; 0xff; 0xff; 0xff; 0xff; 0xff; 0xff;
  0xff; 0xff; 0xff; 0xff; 0xff; 0xff; 0xff; 0xff;
  0xff; 0xff; 0xff; 0xff; 0xff; 0xff; 0xff; 0xff;
  0xff; 0xff; 0xff; 0xff; 0xff; 0xff; 0xff; 0xfd;
  0x40; 0x0; 0x0; 0x0; 0x0; 0x0; 0x0; 0x0;
  0x0; 0x0; 0x0; 0x0; 0x0; 0x0; 0x0; 0x0;
  0x0; 0x0; 0x0; 0x0; 0x0; 0x0; 0x0; 0x0;
  0x0; 0x0; 0x0; 0x0; 0x0; 0x0; 0x0; 0x0;
  0x0; 0x0; 0x2; 0xaf; 0xff; 0xff; 0xff; 0xff;
  0xff; 0xff; 0xff; 0xff; 0xff; 0xff; 0xff; 0xff;
  0xff; 0xff; 0xff; 0xff; 0xff; 0xff; 0xff; 0xff;
  0xff; 0xff; 0xff; 0xff; 0xff; 0xff; 0xff; 0xff;
  0xff; 0xfe; 0x60; 0x0; 0x0; 0x0; 0x0; 0x0;
  0x0; 0x0; 0x0; 0x0; 0x0; 0x0; 0x0; 0x0;
  0x0; 0x0; 0x0; 0x0; 0x0; 0x0; 0x0; 0x0;
  0x0; 0x0; 0x0; 0x0; 0x0; 0x0; 0x0; 0x0;
  0x0; 0x0; 0x0; 0x0; 0x0; 0x0; 0x2; 0xaf;
  0xff; 0xff; 0xff; 0xff; 0xff; 0xff; 0xff; 0xff;
  0xff; 0xff; 0xff; 0xff; 0xff; 0xff; 0xff; 0xff;
  0xff; 0xff; 0xff; 0xff; 0xff; 0xff; 0xff; 0xff;
  0xff; 0xff; 0xff; 0xfe; 0x70; 0x0; 0x0; 0x0;
  0x0; 0x0; 0x0; 0x0; 0x0; 0x0; 0x0; 0x0;
  0x0; 0x0; 0x0; 0x0; 0x0; 0x0; 0x0; 0x0;
  0x0; 0x0; 0x0; 0x0; 0x0; 0x0; 0x0; 0x0;
  0x0; 0x0; 0x0; 0x0; 0x0; 0x0; 0x0; 0x0;
  0x0; 0x0; 0x2; 0x9f; 0xff; 0xff; 0xff; 0xff;
  0xff; 0xff; 0xff; 0xff; 0xff; 0xff; 0xff; 0xff;
  0xff; 0xff; 0xff; 0xff; 0xff; 0xff; 0xff; 0xff;
  0xff; 0xff; 0xff; 0xff; 0xff; 0xfd; 0x60; 0x0;
  0x0; 0x0; 0x0; 0x0; 0x0; 0x0; 0x0; 0x0;
  0x0; 0x0; 0x0; 0x0; 0x0; 0x0; 0x0; 0x0;
  0x0; 0x0; 0x0; 0x0; 0x0; 0x0; 0x0; 0x0;
  0x0; 0x0; 0x0; 0x0; 0x0; 0x0; 0x0; 0x0;
  0x0; 0x0; 0x0; 0x0; 0x0; 0x0; 0x0; 0x6c;
  0xff; 0xff; 0xff; 0xff; 0xff; 0xff; 0xff; 0xff;
  0xff; 0xff; 0xff; 0xff; 0xff; 0xff; 0xff; 0xff;
  0xff; 0xff; 0xff; 0xff; 0xff; 0xff; 0xff; 0xfa;
  0x40; 0x0; 0x0; 0x0; 0x0; 0x0; 0x0; 0x0;
  0x0; 0x0; 0x0; 0x0; 0x0; 0x0; 0x0; 0x0;
  0x0; 0x0; 0x0; 0x0; 0x0; 0x0; 0x0; 0x0;
  0x0; 0x0; 0x0; 0x0; 0x0; 0x0; 0x0; 0x0;
  0x0; 0x0; 0x0; 0x0; 0x0; 0x0; 0x0; 0x0;
  0x0; 0x0; 0x0; 0x28; 0xdf; 0xff; 0xff; 0xff;
  0xff; 0xff; 0xff; 0xff; 0xff; 0xff; 0xff; 0xff;
  0xff; 0xff; 0xff; 0xff; 0xff; 0xff; 0xff; 0xff;
  0xff; 0xb6; 0x0; 0x0; 0x0; 0x0; 0x0; 0x0;
  0x0; 0x0; 0x0; 0x0; 0x0; 0x0; 0x0; 0x0;
  0x0; 0x0; 0x0; 0x0; 0x0; 0x0; 0x0; 0x0;
  0x0; 0x0; 0x0; 0x0; 0x0; 0x0; 0x0; 0x0;
  0x0; 0x0; 0x0; 0x0; 0x0; 0x0; 0x0; 0x0;
  0x0; 0x0; 0x0; 0x0; 0x0; 0x0; 0x0; 0x2;
  0x7b; 0xff; 0xff; 0xff; 0xff; 0xff; 0xff; 0xff;
  0xff; 0xff; 0xff; 0xff; 0xff; 0xff; 0xff; 0xff;
  0xff; 0xff; 0xea; 0x51; 0x0; 0x0; 0x0; 0x0;
  0x0; 0x0; 0x0; 0x0; 0x0; 0x0; 0x0; 0x0;
  0x0; 0x0; 0x0; 0x0; 0x0; 0x0; 0x0; 0x0;
  0x0; 0x0; 0x0; 0x0; 0x0; 0x0; 0x0; 0x0;
  0x0; 0x0; 0x0; 0x0; 0x0; 0x0; 0x0; 0x0;
  0x0; 0x0; 0x0; 0x0; 0x0; 0x0; 0x0; 0x0;
  0x0; 0x0; 0x0; 0x0; 0x3; 0x7a; 0xdf; 0xff;
  0xff; 0xff; 0xff; 0xff; 0xff; 0xff; 0xff; 0xff;
  0xff; 0xff; 0xff; 0xc9; 0x62; 0x0; 0x0; 0x0;
  0x0; 0x0; 0x0; 0x0; 0x0; 0x0; 0x0; 0x0;
  0x0; 0x0; 0x0; 0x0; 0x0; 0x0; 0x0; 0x0;
  0x0; 0x0; 0x0; 0x0; 0x0; 0x0; 0x0; 0x0;
  0x0; 0x0; 0x0; 0x0; 0x0; 0x0; 0x0; 0x0;
  0x0; 0x0; 0x0; 0x0; 0x0; 0x0; 0x0; 0x0;
  0x0; 0x0; 0x0; 0x0; 0x0; 0x0; 0x0; 0x0;
  0x0; 0x0; 0x35; 0x79; 0xac; 0xde; 0xff; 0xff;
  0xff; 0xee; 0xdb; 0xa8; 0x64; 0x20; 0x0; 0x0;
  0x0; 0x0; 0x0; 0x0; 0x0; 0x0; 0x0; 0x0;
  0x0; 0x0; 0x0; 0x0; 0x0; 0x0; 0x0; 0x0;
  0x0; 0x0; 0x0; 0x0; 0x0; 0x0; 0x0; 0x0;
  0x0;
  0x0; 0x0; 0x0; 0x0; 0x0; 0x0; 0x0; 0x0;
  0x0; 0x0; 0x0; 0x0; 0x0; 0x0; 0x0; 0x0;
  0x0; 0x0; 0x0; 0x0; 0x0; 0x0; 0x0; 0x0;
  0x0; 0x0; 0x0; 0x0; 0x25; 0x79; 0xbc; 0xde;
  0xff; 0xff; 0xfe; 0xdc; 0xb9; 0x75; 0x20; 0x0;
  0x0; 0x0; 0x0; 0x0; 0x0; 0x0; 0x0; 0x0;
  0x0; 0x0; 0x0; 0x0; 0x0; 0x0; 0x0; 0x0;
  0x0; 0x0; 0x0; 0x0; 0x0; 0x0; 0x0; 0x0;
  0x0; 0x0; 0x0; 0x1; 0x69; 0xbb; 0xa8; 0x40;
  0x0; 0x0; 0x0; 0x0; 0x0; 0x0; 0x0; 0x0 ].

Definition quicksand256_bitmap_30 : list Z :=
  [ 0x0; 0x0; 0x0; 0x0; 0x0; 0x0; 0x0; 0x0;
  0x0; 0x0; 0x48; 0xcf; 0xff; 0xff; 0xff; 0xff;
  0xff; 0xff; 0xff; 0xff; 0xff; 0xff; 0xff; 0xd9;
  0x62; 0x0; 0x0; 0x0; 0x0; 0x0; 0x0; 0x0;
  0x0; 0x0; 0x0; 0x0; 0x0; 0x0; 0x0; 0x0;
  0x0; 0x0; 0x0; 0x0; 0x0; 0x0; 0x0; 0x0;
  0x0; 0x0; 0x2; 0xaf; 0xff; 0xff; 0xff; 0xfe;
  0x60; 0x0; 0x0; 0x0; 0x0; 0x0; 0x0; 0x0;
  0x0; 0x0; 0x0; 0x0; 0x0; 0x0; 0x0; 0x0;
  0x17; 0xbf; 0xff; 0xff; 0xff; 0xff; 0xff; 0xff;
  0xff; 0xff; 0xff; 0xff; 0xff; 0xff; 0xff; 0xff;
  0xff; 0xe9; 0x40; 0x0; 0x0; 0x0; 0x0; 0x0;
  0x0; 0x0; 0x0; 0x0; 0x0; 0x0; 0x0; 0x0;
  0x0; 0x0; 0x0; 0x0; 0x0; 0x0; 0x0; 0x0;
  0x0; 0x0; 0x5f; 0xff; 0xff; 0xff; 0xff; 0xff;
  0xfc; 0x10; 0x0; 0x0; 0x0; 0x0; 0x0; 0x0;
  0x0; 0x0; 0x0; 0x0; 0x0; 0x0; 0x1; 0x6c;
  0xff; 0xff; 0xff; 0xff; 0xff; 0xff; 0xff; 0xff;
  0xff; 0xff; 0xff; 0xff; 0xff; 0xff; 0xff; 0xff;
  0xff; 0xff; 0xfe; 0x93; 0x0; 0x0; 0x0; 0x0;
  0x0; 0x0; 0x0; 0x0; 0x0; 0x0; 0x0; 0x0;
  0x0; 0x0; 0x0; 0x0; 0x0; 0x0; 0x0; 0x0;
  0x0; 0x6; 0xff; 0xff; 0xff; 0xff; 0xff; 0xff;
  0xff; 0xc0; 0x0; 0x0; 0x0; 0x0; 0x0; 0x0;
  0x0; 0x0; 0x0; 0x0; 0x0; 0x2; 0x9f; 0xff;
  0xff; 0xff; 0xff; 0xff; 0xff; 0xff; 0xff; 0xff;
  0xff; 0xff; 0xff; 0xff; 0xff; 0xff; 0xff; 0xff;
  0xff; 0xff; 0xff; 0xff; 0xd6; 0x0; 0x0; 0x0;
  0x0; 0x0; 0x0; 0x0; 0x0; 0x0; 0x0; 0x0;
  0x0; 0x0; 0x0; 0x0; 0x0; 0x0; 0x0; 0x0;
  0x0; 0x3f; 0xff; 0xff; 0xff; 0xff; 0xff; 0xff;
  0xff; 0xfa; 0x0; 0x0; 0x0; 0x0; 0x0; 0x0;
  0x0; 0x0; 0x0; 0x0; 0x4; 0xbf; 0xff; 0xff;
  0xff; 0xff; 0xff; 0xff; 0xff; 0xff; 0xff; 0xff;
  0xff; 0xff; 0xff; 0xff; 0xff; 0xff; 0xff; 0xff;
  0xff; 0xff; 0xff; 0xff; 0xff; 0xf8; 0x10; 0x0;
  0x0; 0x0; 0x0; 0x0; 0x0; 0x0; 0x0; 0x0;
  0x0; 0x0; 0x0; 0x0; 0x0; 0x0; 0x0; 0x0;
  0x0; 0xdf; 0xff; 0xff; 0xff; 0xff; 0xff; 0xff;
  0xff; 0xff; 0x30; 0x0; 0x0; 0x0; 0x0; 0x0;
  0x0; 0x0; 0x0; 0x3; 0xbf; 0xff; 0xff; 0xff;
  0xff; 0xff; 0xff; 0xff; 0xff; 0xff; 0xff; 0xff;
  0xff; 0xff; 0xff; 0xff; 0xff; 0xff; 0xff; 0xff;
  0xff; 0xff; 0xff; 0xff; 0xff; 0xff; 0xf8; 0x10;
  0x0; 0x0; 0x0; 0x0; 0x0; 0x0; 0x0; 0x0;
  0x0; 0x0; 0x0; 0x0; 0x0; 0x0; 0x0; 0x0;
  0x4; 0xff; 0xff; 0xff; 0xff; 0xff; 0xff; 0xff;
  0xff; 0xff; 0xb0; 0x0; 0x0; 0x0; 0x0; 0x0;
  0x0; 0x0; 0x1; 0xaf; 0xff; 0xff; 0xff; 0xff;
  0xff; 0xff; 0xff; 0xff; 0xff; 0xff; 0xff; 0xff;
  0xff; 0xff; 0xff; 0xff; 0xff; 0xff; 0xff; 0xff;
  0xff; 0xff; 0xff; 0xff; 0xff; 0xff; 0xff; 0xe7;
  0x0; 0x0; 0x0; 0x0; 0x0; 0x0; 0x0; 0x0;
  0x0; 0x0; 0x0; 0x0; 0x0; 0x0; 0x0; 0x0;
  0xa; 0xff; 0xff; 0xff; 0xff; 0xff; 0xff; 0xff;
  0xff; 0xff; 0xf0; 0x0; 0x0; 0x0; 0x0; 0x0;
  0x0; 0x0; 0x7f; 0xff; 0xff; 0xff; 0xff; 0xff;
  0xff; 0xff; 0xff; 0xff; 0xff; 0xff; 0xff; 0xff;
  0xff; 0xff; 0xff; 0xff; 0xff; 0xff; 0xff; 0xff;
  0xff; 0xff; 0xff; 0xff; 0xff; 0xff; 0xff; 0xff;
  0xd3; 0x0; 0x0; 0x0; 0x0; 0x0; 0x0; 0x0;
  0x0; 0x0; 0x0; 0x0; 0x0; 0x0; 0x0; 0x0;
  0xe; 0xff; 0xff; 0xff; 0xff; 0xff; 0xff; 0xff;
  0xff; 0xff; 0xf3; 0x0; 0x0; 0x0; 0x0; 0x0;
  0x0; 0x2c; 0xff; 0xff; 0xff; 0xff; 0xff; 0xff;
  0xff; 0xff; 0xff; 0xff; 0xff; 0xff; 0xff; 0xff;
  0xff; 0xff; 0xff; 0xff; 0xff; 0xff; 0xff; 0xff;
  0xff; 0xff; 0xff; 0xff; 0xff; 0xff; 0xff; 0xff;
  0xff; 0x90; 0x0; 0x0; 0x0; 0x0; 0x0; 0x0;
  0x0; 0x0; 0x0; 0x0; 0x0; 0x0; 0x0; 0x0;
  0xf; 0xff; 0xff; 0xff; 0xff; 0xff; 0xff; 0xff;
  0xff; 0xff; 0xf5; 0x0; 0x0; 0x0; 0x0; 0x0;
  0x6; 0xff; 0xff; 0xff; 0xff; 0xff; 0xff; 0xff;
  0xff; 0xff; 0xff; 0xff; 0xff; 0xff; 0xff; 0xff;
  0xff; 0xff; 0xff; 0xff; 0xff; 0xff; 0xff; 0xff;
  0xff; 0xff; 0xff; 0xff; 0xff; 0xff; 0xff; 0xff;
  0xff; 0xfd; 0x30; 0x0; 0x0; 0x0; 0x0; 0x0;
  0x0; 0x0; 0x0; 0x0; 0x0; 0x0; 0x0; 0x0;
  0xf; 0xff; 0xff; 0xff; 0xff; 0xff; 0xff; 0xff;
  0xff; 0xff; 0xf6; 0x0; 0x0; 0x0; 0x0; 0x0;
  0xaf; 0xff; 0xff; 0xff; 0xff; 0xff; 0xff; 0xff;
  0xff; 0xff; 0xff; 0xff; 0xff; 0xff; 0xff; 0xff;
  0xff; 0xff; 0xff; 0xff; 0xff; 0xff; 0xff; 0xff;
  0xff; 0xff; 0xff; 0xff; 0xff; 0xff; 0xff; 0xff;
  0xff; 0xff; 0xf7; 0x0; 0x0; 0x0; 0x0; 0x0;
  0x0; 0x0; 0x0; 0x0; 0x0; 0x0; 0x0; 0x0;
  0x1f; 0xff; 0xff; 0xff; 0xff; 0xff; 0xff; 0xff;
  0xff; 0xff; 0xf6; 0x0; 0x0; 0x0; 0x0; 0x1c;
  0xff; 0xff; 0xff; 0xff; 0xff; 0xff; 0xff; 0xff;
  0xff; 0xff; 0xff; 0xff; 0xff; 0xff; 0xff; 0xff;
  0xff; 0xff; 0xff; 0xff; 0xff; 0xff; 0xff; 0xff;
  0xff; 0xff; 0xff; 0xff; 0xff; 0xff; 0xff; 0xff;
  0xff; 0xff; 0xff; 0xb0; 0x0; 0x0; 0x0; 0x0;
  0x0; 0x0; 0x0; 0x0; 0x0; 0x0; 0x0; 0x0;
  0x1f; 0xff; 0xff; 0xff; 0xff; 0xff; 0xff; 0xff;
  0xff; 0xff; 0xf6; 0x0; 0x0; 0x0; 0x2; 0xef;
  0xff; 0xff; 0xff; 0xff; 0xff; 0xff; 0xff; 0xff;
  0xff; 0xff; 0xff; 0xff; 0xff; 0xff; 0xff; 0xff;
  0xff; 0xff; 0xff; 0xff; 0xff; 0xff; 0xff; 0xff;
  0xff; 0xff; 0xff; 0xff; 0xff; 0xff; 0xff; 0xff;
  0xff; 0xff; 0xff; 0xfd; 0x20; 0x0; 0x0; 0x0;
  0x0; 0x0; 0x0; 0x0; 0x0; 0x0; 0x0; 0x0;
  0x1f; 0xff; 0xff; 0xff; 0xff; 0xff; 0xff; 0xff;
  0xff; 0xff; 0xf6; 0x0; 0x0; 0x0; 0x3f; 0xff;
  0xff; 0xff; 0xff; 0xff; 0xff; 0xff; 0xff; 0xff;
  0xff; 0xff; 0xff; 0xff; 0xff; 0xff; 0xff; 0xff;
  0xff; 0xff; 0xff; 0xff; 0xff; 0xff; 0xff; 0xff;
  0xff; 0xff; 0xff; 0xff; 0xff; 0xff; 0xff; 0xff;
  0xff; 0xff; 0xff; 0xff; 0xe3; 0x0; 0x0; 0x0;
  0x0; 0x0; 0x0; 0x0; 0x0; 0x0; 0x0; 0x0;
  0x1f; 0xff; 0xff; 0xff; 0xff; 0xff; 0xff; 0xff;
  0xff; 0xff; 0xf6; 0x0; 0x0; 0x3; 0xff; 0xff;
  0xff; 0xff; 0xff; 0xff; 0xff; 0xff; 0xff; 0xff;
  0xff; 0xff; 0xff; 0xff; 0xff; 0xff; 0xff; 0xff;
  0xff; 0xff; 0xff; 0xff; 0xff; 0xff; 0xff; 0xff;
  0xff; 0xff; 0xff; 0xff; 0xff; 0xff; 0xff; 0xff;
  0xff; 0xff; 0xff; 0xff; 0xff; 0x40; 0x0; 0x0;
  0x0; 0x0; 0x0; 0x0; 0x0; 0x0; 0x0; 0x0;
  0x1f; 0xff; 0xff; 0xff; 0xff; 0xff; 0xff; 0xff;
  0xff; 0xff; 0xf6; 0x0; 0x0; 0x3f; 0xff; 0xff;
  0xff; 0xff; 0xff; 0xff; 0xff; 0xff; 0xff; 0xff;
  0xff; 0xff; 0xff; 0xff; 0xff; 0xff; 0xff; 0xff;
  0xff; 0xff; 0xff; 0xff; 0xff; 0xff; 0xff; 0xff;
  0xff; 0xff; 0xff; 0xff; 0xff; 0xff; 0xff; 0xff;
  0xff; 0xff; 0xff; 0xff; 0xff; 0xf4; 0x0; 0x0;
  0x0; 0x0; 0x0; 0x0; 0x0; 0x0; 0x0; 0x0;
  0x1f; 0xff; 0xff; 0xff; 0xff; 0xff; 0xff; 0xff;
  0xff; 0xff; 0xf6; 0x0; 0x2; 0xef; 0xff; 0xff;
  0xff; 0xff; 0xff; 0xff; 0xff; 0xff; 0xff; 0xff;
  0xff; 0xff; 0xff; 0xff; 0xff; 0xff; 0xff; 0xff;
  0xff; 0xff; 0xff; 0xff; 0xff; 0xff; 0xff; 0xff;
  0xff; 0xff; 0xff; 0xff; 0xff; 0xff; 0xff; 0xff;
  0xff; 0xff; 0xff; 0xff; 0xff; 0xff; 0x40; 0x0;
  0x0; 0x0; 0x0; 0x0; 0x0; 0x0; 0x0; 0x0;
  0x1f; 0xff; 0xff; 0xff; 0xff; 0xff; 0xff; 0xff;
  0xff; 0xff; 0xf6; 0x0; 0x1d; 0xff; 0xff; 0xff;
  0xff; 0xff; 0xff; 0xff; 0xff; 0xff; 0xff; 0xff;
  0xff; 0xff; 0xff; 0xff; 0xff; 0xff; 0xff; 0xff;
  0xff; 0xff; 0xff; 0xff; 0xff; 0xff; 0xff; 0xff;
  0xff; 0xff; 0xff; 0xff; 0xff; 0xff; 0xff; 0xff;
  0xff; 0xff; 0xff; 0xff; 0xff; 0xff; 0xf4; 0x0;
  0x0; 0x0; 0x0; 0x0; 0x0; 0x0; 0x0; 0x0;
  0x1f; 0xff; 0xff; 0xff; 0xff; 0xff; 0xff; 0xff;
  0xff; 0xff; 0xf6; 0x0; 0xbf; 0xff; 0xff; 0xff;
  0xff; 0xff; 0xff; 0xff; 0xff; 0xff; 0xff; 0xff;
  0xff; 0xff; 0xff; 0xfb; 0x96; 0x43; 0x10; 0x0;
  0x0; 0x1; 0x35; 0x79; 0xcf; 0xff; 0xff; 0xff;
  0xff; 0xff; 0xff; 0xff; 0xff; 0xff; 0xff; 0xff;
  0xff; 0xff; 0xff; 0xff; 0xff; 0xff; 0xff; 0x30;
  0x0; 0x0; 0x0; 0x0; 0x0; 0x0; 0x0; 0x0 ].

Definition quicksand256_bitmap_31 : list Z :=
  [ 0x1f; 0xff; 0xff; 0xff; 0xff; 0xff; 0xff; 0xff;
  0xff; 0xff; 0xf6; 0x7; 0xff; 0xff; 0xff; 0xff;
  0xff; 0xff; 0xff; 0xff; 0xff; 0xff; 0xff; 0xff;
  0xff; 0xfb; 0x62; 0x0; 0x0; 0x0; 0x0; 0x0;
  0x0; 0x0; 0x0; 0x0; 0x0; 0x37; 0xcf; 0xff;
  0xff; 0xff; 0xff; 0xff; 0xff; 0xff; 0xff; 0xff;
  0xff; 0xff; 0xff; 0xff; 0xff; 0xff; 0xff; 0xe1;
  0x0; 0x0; 0x0; 0x0; 0x0; 0x0; 0x0; 0x0;
  0x1f; 0xff; 0xff; 0xff; 0xff; 0xff; 0xff; 0xff;
  0xff; 0xff; 0xf6; 0x3f; 0xff; 0xff; 0xff; 0xff;
  0xff; 0xff; 0xff; 0xff; 0xff; 0xff; 0xff; 0xff;
  0xb5; 0x0; 0x0; 0x0; 0x0; 0x0; 0x0; 0x0;
  0x0; 0x0; 0x0; 0x0; 0x0; 0x0; 0x1; 0x6c;
  0xff; 0xff; 0xff; 0xff; 0xff; 0xff; 0xff; 0xff;
  0xff; 0xff; 0xff; 0xff; 0xff; 0xff; 0xff; 0xfd;
  0x0; 0x0; 0x0; 0x0; 0x0; 0x0; 0x0; 0x0;
  0x1f; 0xff; 0xff; 0xff; 0xff; 0xff; 0xff; 0xff;
  0xff; 0xff; 0xf7; 0xdf; 0xff; 0xff; 0xff; 0xff;
  0xff; 0xff; 0xff; 0xff; 0xff; 0xff; 0xff; 0x82;
  0x0; 0x0; 0x0; 0x0; 0x0; 0x0; 0x0; 0x0;
  0x0; 0x0; 0x0; 0x0; 0x0; 0x0; 0x0; 0x0;
  0x3a; 0xff; 0xff; 0xff; 0xff; 0xff; 0xff; 0xff;
  0xff; 0xff; 0xff; 0xff; 0xff; 0xff; 0xff; 0xff;
  0xa0; 0x0; 0x0; 0x0; 0x0; 0x0; 0x0; 0x0;
  0x1f; 0xff; 0xff; 0xff; 0xff; 0xff; 0xff; 0xff;
  0xff; 0xff; 0xfe; 0xff; 0xff; 0xff; 0xff; 0xff;
  0xff; 0xff; 0xff; 0xff; 0xff; 0xff; 0x81; 0x0;
  0x0; 0x0; 0x0; 0x0; 0x0; 0x0; 0x0; 0x0;
  0x0; 0x0; 0x0; 0x0; 0x0; 0x0; 0x0; 0x0;
  0x0; 0x2a; 0xff; 0xff; 0xff; 0xff; 0xff; 0xff;
  0xff; 0xff; 0xff; 0xff; 0xff; 0xff; 0xff; 0xff;
  0xf6; 0x0; 0x0; 0x0; 0x0; 0x0; 0x0; 0x0;
  0x1f; 0xff; 0xff; 0xff; 0xff; 0xff; 0xff; 0xff;
  0xff; 0xff; 0xff; 0xff; 0xff; 0xff; 0xff; 0xff;
  0xff; 0xff; 0xff; 0xff; 0xff; 0xa1; 0x0; 0x0;
  0x0; 0x0; 0x0; 0x0; 0x0; 0x0; 0x0; 0x0;
  0x0; 0x0; 0x0; 0x0; 0x0; 0x0; 0x0; 0x0;
  0x0; 0x0; 0x3c; 0xff; 0xff; 0xff; 0xff; 0xff;
  0xff; 0xff; 0xff; 0xff; 0xff; 0xff; 0xff; 0xff;
  0xff; 0x30; 0x0; 0x0; 0x0; 0x0; 0x0; 0x0;
  0x1f; 0xff; 0xff; 0xff; 0xff; 0xff; 0xff; 0xff;
  0xff; 0xff; 0xff; 0xff; 0xff; 0xff; 0xff; 0xff;
  0xff; 0xff; 0xff; 0xff; 0xe4; 0x0; 0x0; 0x0;
  0x0; 0x0; 0x0; 0x0; 0x0; 0x0; 0x0; 0x0;
  0x0; 0x0; 0x0; 0x0; 0x0; 0x0; 0x0; 0x0;
  0x0; 0x0; 0x0; 0x7f; 0xff; 0xff; 0xff; 0xff;
  0xff; 0xff; 0xff; 0xff; 0xff; 0xff; 0xff; 0xff;
  0xff; 0xd0; 0x0; 0x0; 0x0; 0x0; 0x0; 0x0;
  0x1f; 0xff; 0xff; 0xff; 0xff; 0xff; 0xff; 0xff;
  0xff; 0xff; 0xff; 0xff; 0xff; 0xff; 0xff; 0xff;
  0xff; 0xff; 0xff; 0xfa; 0x0; 0x0; 0x0; 0x0;
  0x0; 0x0; 0x0; 0x0; 0x0; 0x0; 0x0; 0x0;
  0x0; 0x0; 0x0; 0x0; 0x0; 0x0; 0x0; 0x0;
  0x0; 0x0; 0x0; 0x2; 0xdf; 0xff; 0xff; 0xff;
  0xff; 0xff; 0xff; 0xff; 0xff; 0xff; 0xff; 0xff;
  0xff; 0xf9; 0x0; 0x0; 0x0; 0x0; 0x0; 0x0;
  0x1f; 0xff; 0xff; 0xff; 0xff; 0xff; 0xff; 0xff;
  0xff; 0xff; 0xff; 0xff; 0xff; 0xff; 0xff; 0xff;
  0xff; 0xff; 0xff; 0x60; 0x0; 0x0; 0x0; 0x0;
  0x0; 0x0; 0x0; 0x0; 0x0; 0x0; 0x0; 0x0;
  0x0; 0x0; 0x0; 0x0; 0x0; 0x0; 0x0; 0x0;
  0x0; 0x0; 0x0; 0x0; 0xa; 0xff; 0xff; 0xff;
  0xff; 0xff; 0xff; 0xff; 0xff; 0xff; 0xff; 0xff;
  0xff; 0xff; 0x30; 0x0; 0x0; 0x0; 0x0; 0x0;
  0x1f; 0xff; 0xff; 0xff; 0xff; 0xff; 0xff; 0xff;
  0xff; 0xff; 0xff; 0xff; 0xff; 0xff; 0xff; 0xff;
  0xff; 0xff; 0xe3; 0x0; 0x0; 0x0; 0x0; 0x0;
  0x0; 0x0; 0x0; 0x0; 0x0; 0x0; 0x0; 0x0;
  0x0; 0x0; 0x0; 0x0; 0x0; 0x0; 0x0; 0x0;
  0x0; 0x0; 0x0; 0x0; 0x0; 0x7f; 0xff; 0xff;
  0xff; 0xff; 0xff; 0xff; 0xff; 0xff; 0xff; 0xff;
  0xff; 0xff; 0xd0; 0x0; 0x0; 0x0; 0x0; 0x0;
  0x1f; 0xff; 0xff; 0xff; 0xff; 0xff; 0xff; 0xff;
  0xff; 0xff; 0xff; 0xff; 0xff; 0xff; 0xff; 0xff;
  0xff; 0xfd; 0x10; 0x0; 0x0; 0x0; 0x0; 0x0;
  0x0; 0x0; 0x0; 0x0; 0x0; 0x0; 0x0; 0x0;
  0x0; 0x0; 0x0; 0x0; 0x0; 0x0; 0x0; 0x0;
  0x0; 0x0; 0x0; 0x0; 0x0; 0x5; 0xff; 0xff;
  0xff; 0xff; 0xff; 0xff; 0xff; 0xff; 0xff; 0xff;
  0xff; 0xff; 0xf7; 0x0; 0x0; 0x0; 0x0; 0x0;
  0x1f; 0xff; 0xff; 0xff; 0xff; 0xff; 0xff; 0xff;
  0xff; 0xff; 0xff; 0xff; 0xff; 0xff; 0xff; 0xff;
  0xff; 0xc1; 0x0; 0x0; 0x0; 0x0; 0x0; 0x0;
  0x0; 0x0; 0x0; 0x0; 0x0; 0x0; 0x0; 0x0;
  0x0; 0x0; 0x0; 0x0; 0x0; 0x0; 0x0; 0x0;
  0x0; 0x0; 0x0; 0x0; 0x0; 0x0; 0x4f; 0xff;
  0xff; 0xff; 0xff; 0xff; 0xff; 0xff; 0xff; 0xff;
  0xff; 0xff; 0xff; 0x10; 0x0; 0x0; 0x0; 0x0;
  0x1f; 0xff; 0xff; 0xff; 0xff; 0xff; 0xff; 0xff;
  0xff; 0xff; 0xff; 0xff; 0xff; 0xff; 0xff; 0xff;
  0xfd; 0x10; 0x0; 0x0; 0x0; 0x0; 0x0; 0x0;
  0x0; 0x0; 0x0; 0x0; 0x0; 0x0; 0x0; 0x0;
  0x0; 0x0; 0x0; 0x0; 0x0; 0x0; 0x0; 0x0;
  0x0; 0x0; 0x0; 0x0; 0x0; 0x0; 0x4; 0xff;
  0xff; 0xff; 0xff; 0xff; 0xff; 0xff; 0xff; 0xff;
  0xff; 0xff; 0xff; 0x90; 0x0; 0x0; 0x0; 0x0;
  0x1f; 0xff; 0xff; 0xff; 0xff; 0xff; 0xff; 0xff;
  0xff; 0xff; 0xff; 0xff; 0xff; 0xff; 0xff; 0xff;
  0xd1; 0x0; 0x0; 0x0; 0x0; 0x0; 0x0; 0x0;
  0x0; 0x0; 0x0; 0x0; 0x0; 0x0; 0x0; 0x0;
  0x0; 0x0; 0x0; 0x0; 0x0; 0x0; 0x0; 0x0;
  0x0; 0x0; 0x0; 0x0; 0x0; 0x0; 0x0; 0x5f;
  0xff; 0xff; 0xff; 0xff; 0xff; 0xff; 0xff; 0xff;
  0xff; 0xff; 0xff; 0xf2; 0x0; 0x0; 0x0; 0x0;
  0x1f; 0xff; 0xff; 0xff; 0xff; 0xff; 0xff; 0xff;
  0xff; 0xff; 0xff; 0xff; 0xff; 0xff; 0xff; 0xfe;
  0x20; 0x0; 0x0; 0x0; 0x0; 0x0; 0x0; 0x0;
  0x0; 0x0; 0x0; 0x0; 0x0; 0x0; 0x0; 0x0;
  0x0; 0x0; 0x0; 0x0; 0x0; 0x0; 0x0; 0x0;
  0x0; 0x0; 0x0; 0x0; 0x0; 0x0; 0x0; 0x6;
  0xff; 0xff; 0xff; 0xff; 0xff; 0xff; 0xff; 0xff;
  0xff; 0xff; 0xff; 0xfa; 0x0; 0x0; 0x0; 0x0;
  0x1f; 0xff; 0xff; 0xff; 0xff; 0xff; 0xff; 0xff;
  0xff; 0xff; 0xff; 0xff; 0xff; 0xff; 0xff; 0xf4;
  0x0; 0x0; 0x0; 0x0; 0x0; 0x0; 0x0; 0x0;
  0x0; 0x0; 0x0; 0x0; 0x0; 0x0; 0x0; 0x0;
  0x0; 0x0; 0x0; 0x0; 0x0; 0x0; 0x0; 0x0;
  0x0; 0x0; 0x0; 0x0; 0x0; 0x0; 0x0; 0x0;
  0x9f; 0xff; 0xff; 0xff; 0xff; 0xff; 0xff; 0xff;
  0xff; 0xff; 0xff; 0xff; 0x20; 0x0; 0x0; 0x0;
  0x1f; 0xff; 0xff; 0xff; 0xff; 0xff; 0xff; 0xff;
  0xff; 0xff; 0xff; 0xff; 0xff; 0xff; 0xff; 0x70;
  0x0; 0x0; 0x0; 0x0; 0x0; 0x0; 0x0; 0x0;
  0x0; 0x0; 0x0; 0x0; 0x0; 0x0; 0x0; 0x0;
  0x0; 0x0; 0x0; 0x0; 0x0; 0x0; 0x0; 0x0;
  0x0; 0x0; 0x0; 0x0; 0x0; 0x0; 0x0; 0x0;
  0xc; 0xff; 0xff; 0xff; 0xff; 0xff; 0xff; 0xff;
  0xff; 0xff; 0xff; 0xff; 0xa0; 0x0; 0x0; 0x0;
  0x1f; 0xff; 0xff; 0xff; 0xff; 0xff; 0xff; 0xff;
  0xff; 0xff; 0xff; 0xff; 0xff; 0xff; 0xfb; 0x0;
  0x0; 0x0; 0x0; 0x0; 0x0; 0x0; 0x0; 0x0;
  0x0; 0x0; 0x0; 0x0; 0x0; 0x0; 0x0; 0x0;
  0x0; 0x0; 0x0; 0x0; 0x0; 0x0; 0x0; 0x0;
  0x0; 0x0; 0x0; 0x0; 0x0; 0x0; 0x0; 0x0;
  0x2; 0xff; 0xff; 0xff; 0xff; 0xff; 0xff; 0xff;
  0xff; 0xff; 0xff; 0xff; 0xf1; 0x0; 0x0; 0x0;
  0x1f; 0xff; 0xff; 0xff; 0xff; 0xff; 0xff; 0xff;
  0xff; 0xff; 0xff; 0xff; 0xff; 0xff; 0xf1; 0x0;
  0x0; 0x0; 0x0; 0x0; 0x0; 0x0; 0x0; 0x0;
  0x0; 0x0; 0x0; 0x0; 0x0; 0x0; 0x0; 0x0;
  0x0; 0x0; 0x0; 0x0; 0x0; 0x0; 0x0; 0x0;
  0x0; 0x0; 0x0; 0x0; 0x0; 0x0; 0x0; 0x0;
  0x0; 0x6f; 0xff; 0xff; 0xff; 0xff; 0xff; 0xff;
  0xff; 0xff; 0xff; 0xff; 0xf8; 0x0; 0x0; 0x0;
  0x1f; 0xff; 0xff; 0xff; 0xff; 0xff; 0xff; 0xff;
  0xff; 0xff; 0xff; 0xff; 0xff; 0xff; 0x60; 0x0;
  0x0; 0x0; 0x0; 0x0; 0x0; 0x0; 0x0; 0x0;
  0x0; 0x0; 0x0; 0x0; 0x0; 0x0; 0x0; 0x0;
  0x0; 0x0; 0x0; 0x0; 0x0; 0x0; 0x0; 0x0;
  0x0; 0x0; 0x0; 0x0; 0x0; 0x0; 0x0; 0x0 ].

Definition quicksand256_bitmap_32 : list Z :=
  [ 0x0; 0xb; 0xff; 0xff; 0xff; 0xff; 0xff; 0xff;
  0xff; 0xff; 0xff; 0xff; 0xfe; 0x0; 0x0; 0x0;
  0x1f; 0xff; 0xff; 0xff; 0xff; 0xff; 0xff; 0xff;
  0xff; 0xff; 0xff; 0xff; 0xff; 0xfc; 0x0; 0x0;
  0x0; 0x0; 0x0; 0x0; 0x0; 0x0; 0x0; 0x0;
  0x0; 0x0; 0x0; 0x0; 0x0; 0x0; 0x0; 0x0;
  0x0; 0x0; 0x0; 0x0; 0x0; 0x0; 0x0; 0x0;
  0x0; 0x0; 0x0; 0x0; 0x0; 0x0; 0x0; 0x0;
  0x0; 0x2; 0xff; 0xff; 0xff; 0xff; 0xff; 0xff;
  0xff; 0xff; 0xff; 0xff; 0xff; 0x50; 0x0; 0x0;
  0x1f; 0xff; 0xff; 0xff; 0xff; 0xff; 0xff; 0xff;
  0xff; 0xff; 0xff; 0xff; 0xff; 0xf3; 0x0; 0x0;
  0x0; 0x0; 0x0; 0x0; 0x0; 0x0; 0x0; 0x0;
  0x0; 0x0; 0x0; 0x0; 0x0; 0x0; 0x0; 0x0;
  0x0; 0x0; 0x0; 0x0; 0x0; 0x0; 0x0; 0x0;
  0x0; 0x0; 0x0; 0x0; 0x0; 0x0; 0x0; 0x0;
  0x0; 0x0; 0x8f; 0xff; 0xff; 0xff; 0xff; 0xff;
  0xff; 0xff; 0xff; 0xff; 0xff; 0xb0; 0x0; 0x0;
  0x1f; 0xff; 0xff; 0xff; 0xff; 0xff; 0xff; 0xff;
  0xff; 0xff; 0xff; 0xff; 0xff; 0xa0; 0x0; 0x0;
  0x0; 0x0; 0x0; 0x0; 0x0; 0x0; 0x0; 0x0;
  0x0; 0x0; 0x0; 0x0; 0x0; 0x0; 0x0; 0x0;
  0x0; 0x0; 0x0; 0x0; 0x0; 0x0; 0x0; 0x0;
  0x0; 0x0; 0x0; 0x0; 0x0; 0x0; 0x0; 0x0;
  0x0; 0x0; 0xe; 0xff; 0xff; 0xff; 0xff; 0xff;
  0xff; 0xff; 0xff; 0xff; 0xff; 0xf1; 0x0; 0x0;
  0x1f; 0xff; 0xff; 0xff; 0xff; 0xff; 0xff; 0xff;
  0xff; 0xff; 0xff; 0xff; 0xff; 0x20; 0x0; 0x0;
  0x0; 0x0; 0x0; 0x0; 0x0; 0x0; 0x0; 0x0;
  0x0; 0x0; 0x0; 0x0; 0x0; 0x0; 0x0; 0x0;
  0x0; 0x0; 0x0; 0x0; 0x0; 0x0; 0x0; 0x0;
  0x0; 0x0; 0x0; 0x0; 0x0; 0x0; 0x0; 0x0;
  0x0; 0x0; 0x6; 0xff; 0xff; 0xff; 0xff; 0xff;
  0xff; 0xff; 0xff; 0xff; 0xff; 0xf6; 0x0; 0x0;
  0x1f; 0xff; 0xff; 0xff; 0xff; 0xff; 0xff; 0xff;
  0xff; 0xff; 0xff; 0xff; 0xf9; 0x0; 0x0; 0x0;
  0x0; 0x0; 0x0; 0x0; 0x0; 0x0; 0x0; 0x0;
  0x0; 0x0; 0x0; 0x0; 0x0; 0x0; 0x0; 0x0;
  0x0; 0x0; 0x0; 0x0; 0x0; 0x0; 0x0; 0x0;
  0x0; 0x0; 0x0; 0x0; 0x0; 0x0; 0x0; 0x0;
  0x0; 0x0; 0x0; 0xef; 0xff; 0xff; 0xff; 0xff;
  0xff; 0xff; 0xff; 0xff; 0xff; 0xfc; 0x0; 0x0;
  0x1f; 0xff; 0xff; 0xff; 0xff; 0xff; 0xff; 0xff;
  0xff; 0xff; 0xff; 0xff; 0xf2; 0x0; 0x0; 0x0;
  0x0; 0x0; 0x0; 0x0; 0x0; 0x0; 0x0; 0x0;
  0x0; 0x0; 0x0; 0x0; 0x0; 0x0; 0x0; 0x0;
  0x0; 0x0; 0x0; 0x0; 0x0; 0x0; 0x0; 0x0;
  0x0; 0x0; 0x0; 0x0; 0x0; 0x0; 0x0; 0x0;
  0x0; 0x0; 0x0; 0x6f; 0xff; 0xff; 0xff; 0xff;
  0xff; 0xff; 0xff; 0xff; 0xff; 0xff; 0x10; 0x0;
  0x1f; 0xff; 0xff; 0xff; 0xff; 0xff; 0xff; 0xff;
  0xff; 0xff; 0xff; 0xff; 0xb0; 0x0; 0x0; 0x0;
  0x0; 0x0; 0x0; 0x0; 0x0; 0x0; 0x0; 0x0;
  0x0; 0x0; 0x0; 0x0; 0x0; 0x0; 0x0; 0x0;
  0x0; 0x0; 0x0; 0x0; 0x0; 0x0; 0x0; 0x0;
  0x0; 0x0; 0x0; 0x0; 0x0; 0x0; 0x0; 0x0;
  0x0; 0x0; 0x0; 0xe; 0xff; 0xff; 0xff; 0xff;
  0xff; 0xff; 0xff; 0xff; 0xff; 0xff; 0x50; 0x0;
  0x1f; 0xff; 0xff; 0xff; 0xff; 0xff; 0xff; 0xff;
  0xff; 0xff; 0xff; 0xff; 0x40; 0x0; 0x0; 0x0;
  0x0; 0x0; 0x0; 0x0; 0x0; 0x0; 0x0; 0x0;
  0x0; 0x0; 0x0; 0x0; 0x0; 0x0; 0x0; 0x0;
  0x0; 0x0; 0x0; 0x0; 0x0; 0x0; 0x0; 0x0;
  0x0; 0x0; 0x0; 0x0; 0x0; 0x0; 0x0; 0x0;
  0x0; 0x0; 0x0; 0x8; 0xff; 0xff; 0xff; 0xff;
  0xff; 0xff; 0xff; 0xff; 0xff; 0xff; 0xa0; 0x0;
  0x1f; 0xff; 0xff; 0xff; 0xff; 0xff; 0xff; 0xff;
  0xff; 0xff; 0xff; 0xfe; 0x0; 0x0; 0x0; 0x0;
  0x0; 0x0; 0x0; 0x0; 0x0; 0x0; 0x0; 0x0;
  0x0; 0x0; 0x0; 0x0; 0x0; 0x0; 0x0; 0x0;
  0x0; 0x0; 0x0; 0x0; 0x0; 0x0; 0x0; 0x0;
  0x0; 0x0; 0x0; 0x0; 0x0; 0x0; 0x0; 0x0;
  0x0; 0x0; 0x0; 0x2; 0xff; 0xff; 0xff; 0xff;
  0xff; 0xff; 0xff; 0xff; 0xff; 0xff; 0xe0; 0x0;
  0x1f; 0xff; 0xff; 0xff; 0xff; 0xff; 0xff; 0xff;
  0xff; 0xff; 0xff; 0xf8; 0x0; 0x0; 0x0; 0x0;
  0x0; 0x0; 0x0; 0x0; 0x0; 0x0; 0x0; 0x0;
  0x0; 0x0; 0x0; 0x0; 0x0; 0x0; 0x0; 0x0;
  0x0; 0x0; 0x0; 0x0; 0x0; 0x0; 0x0; 0x0;
  0x0; 0x0; 0x0; 0x0; 0x0; 0x0; 0x0; 0x0;
  0x0; 0x0; 0x0; 0x0; 0xcf; 0xff; 0xff; 0xff;
  0xff; 0xff; 0xff; 0xff; 0xff; 0xff; 0xf2; 0x0;
  0x1f; 0xff; 0xff; 0xff; 0xff; 0xff; 0xff; 0xff;
  0xff; 0xff; 0xff; 0xf3; 0x0; 0x0; 0x0; 0x0;
  0x0; 0x0; 0x0; 0x0; 0x0; 0x0; 0x0; 0x0;
  0x0; 0x0; 0x0; 0x0; 0x0; 0x0; 0x0; 0x0;
  0x0; 0x0; 0x0; 0x0; 0x0; 0x0; 0x0; 0x0;
  0x0; 0x0; 0x0; 0x0; 0x0; 0x0; 0x0; 0x0;
  0x0; 0x0; 0x0; 0x0; 0x7f; 0xff; 0xff; 0xff;
  0xff; 0xff; 0xff; 0xff; 0xff; 0xff; 0xf6; 0x0;
  0x1f; 0xff; 0xff; 0xff; 0xff; 0xff; 0xff; 0xff;
  0xff; 0xff; 0xff; 0xe0; 0x0; 0x0; 0x0; 0x0;
  0x0; 0x0; 0x0; 0x0; 0x0; 0x0; 0x0; 0x0;
  0x0; 0x0; 0x0; 0x0; 0x0; 0x0; 0x0; 0x0;
  0x0; 0x0; 0x0; 0x0; 0x0; 0x0; 0x0; 0x0;
  0x0; 0x0; 0x0; 0x0; 0x0; 0x0; 0x0; 0x0;
  0x0; 0x0; 0x0; 0x0; 0x1f; 0xff; 0xff; 0xff;
  0xff; 0xff; 0xff; 0xff; 0xff; 0xff; 0xf9; 0x0;
  0x1f; 0xff; 0xff; 0xff; 0xff; 0xff; 0xff; 0xff;
  0xff; 0xff; 0xff; 0x90; 0x0; 0x0; 0x0; 0x0;
  0x0; 0x0; 0x0; 0x0; 0x0; 0x0; 0x0; 0x0;
  0x0; 0x0; 0x0; 0x0; 0x0; 0x0; 0x0; 0x0;
  0x0; 0x0; 0x0; 0x0; 0x0; 0x0; 0x0; 0x0;
  0x0; 0x0; 0x0; 0x0; 0x0; 0x0; 0x0; 0x0;
  0x0; 0x0; 0x0; 0x0; 0xd; 0xff; 0xff; 0xff;
  0xff; 0xff; 0xff; 0xff; 0xff; 0xff; 0xfd; 0x0;
  0x1f; 0xff; 0xff; 0xff; 0xff; 0xff; 0xff; 0xff;
  0xff; 0xff; 0xff; 0x50; 0x0; 0x0; 0x0; 0x0;
  0x0; 0x0; 0x0; 0x0; 0x0; 0x0; 0x0; 0x0;
  0x0; 0x0; 0x0; 0x0; 0x0; 0x0; 0x0; 0x0;
  0x0; 0x0; 0x0; 0x0; 0x0; 0x0; 0x0; 0x0;
  0x0; 0x0; 0x0; 0x0; 0x0; 0x0; 0x0; 0x0;
  0x0; 0x0; 0x0; 0x0; 0x8; 0xff; 0xff; 0xff;
  0xff; 0xff; 0xff; 0xff; 0xff; 0xff; 0xff; 0x0;
  0x1f; 0xff; 0xff; 0xff; 0xff; 0xff; 0xff; 0xff;
  0xff; 0xff; 0xff; 0x10; 0x0; 0x0; 0x0; 0x0;
  0x0; 0x0; 0x0; 0x0; 0x0; 0x0; 0x0; 0x0;
  0x0; 0x0; 0x0; 0x0; 0x0; 0x0; 0x0; 0x0;
  0x0; 0x0; 0x0; 0x0; 0x0; 0x0; 0x0; 0x0;
  0x0; 0x0; 0x0; 0x0; 0x0; 0x0; 0x0; 0x0;
  0x0; 0x0; 0x0; 0x0; 0x4; 0xff; 0xff; 0xff;
  0xff; 0xff; 0xff; 0xff; 0xff; 0xff; 0xff; 0x20;
  0x1f; 0xff; 0xff; 0xff; 0xff; 0xff; 0xff; 0xff;
  0xff; 0xff; 0xfd; 0x0; 0x0; 0x0; 0x0; 0x0;
  0x0; 0x0; 0x0; 0x0; 0x0; 0x0; 0x0; 0x0;
  0x0; 0x0; 0x0; 0x0; 0x0; 0x0; 0x0; 0x0;
  0x0; 0x0; 0x0; 0x0; 0x0; 0x0; 0x0; 0x0;
  0x0; 0x0; 0x0; 0x0; 0x0; 0x0; 0x0; 0x0;
  0x0; 0x0; 0x0; 0x0; 0x0; 0xff; 0xff; 0xff;
  0xff; 0xff; 0xff; 0xff; 0xff; 0xff; 0xff; 0x50;
  0x1f; 0xff; 0xff; 0xff; 0xff; 0xff; 0xff; 0xff;
  0xff; 0xff; 0xfa; 0x0; 0x0; 0x0; 0x0; 0x0;
  0x0; 0x0; 0x0; 0x0; 0x0; 0x0; 0x0; 0x0;
  0x0; 0x0; 0x0; 0x0; 0x0; 0x0; 0x0; 0x0;
  0x0; 0x0; 0x0; 0x0; 0x0; 0x0; 0x0; 0x0;
  0x0; 0x0; 0x0; 0x0; 0x0; 0x0; 0x0; 0x0;
  0x0; 0x0; 0x0; 0x0; 0x0; 0xdf; 0xff; 0xff;
  0xff; 0xff; 0xff; 0xff; 0xff; 0xff; 0xff; 0x80;
  0x1f; 0xff; 0xff; 0xff; 0xff; 0xff; 0xff; 0xff;
  0xff; 0xff; 0xf7; 0x0; 0x0; 0x0; 0x0; 0x0;
  0x0; 0x0; 0x0; 0x0; 0x0; 0x0; 0x0; 0x0;
  0x0; 0x0; 0x0; 0x0; 0x0; 0x0; 0x0; 0x0;
  0x0; 0x0; 0x0; 0x0; 0x0; 0x0; 0x0; 0x0;
  0x0; 0x0; 0x0; 0x0; 0x0; 0x0; 0x0; 0x0;
  0x0; 0x0; 0x0; 0x0; 0x0; 0xaf; 0xff; 0xff;
  0xff; 0xff; 0xff; 0xff; 0xff; 0xff; 0xff; 0xa0;
  0x1f; 0xff; 0xff; 0xff; 0xff; 0xff; 0xff; 0xff;
  0xff; 0xff; 0xf4; 0x0; 0x0; 0x0; 0x0; 0x0;
  0x0; 0x0; 0x0; 0x0; 0x0; 0x0; 0x0; 0x0;
  0x0; 0x0; 0x0; 0x0; 0x0; 0x0; 0x0; 0x0 ].

Definition quicksand256_bitmap_33 : list Z :=
  [ 0x0; 0x0; 0x0; 0x0; 0x0; 0x0; 0x0; 0x0;
  0x0; 0x0; 0x0; 0x0; 0x0; 0x0; 0x0; 0x0;
  0x0; 0x0; 0x0; 0x0; 0x0; 0x7f; 0xff; 0xff;
  0xff; 0xff; 0xff; 0xff; 0xff; 0xff; 0xff; 0xc0;
  0x1f; 0xff; 0xff; 0xff; 0xff; 0xff; 0xff; 0xff;
  0xff; 0xff; 0xf1; 0x0; 0x0; 0x0; 0x0; 0x0;
  0x0; 0x0; 0x0; 0x0; 0x0; 0x0; 0x0; 0x0;
  0x0; 0x0; 0x0; 0x0; 0x0; 0x0; 0x0; 0x0;
  0x0; 0x0; 0x0; 0x0; 0x0; 0x0; 0x0; 0x0;
  0x0; 0x0; 0x0; 0x0; 0x0; 0x0; 0x0; 0x0;
  0x0; 0x0; 0x0; 0x0; 0x0; 0x4f; 0xff; 0xff;
  0xff; 0xff; 0xff; 0xff; 0xff; 0xff; 0xff; 0xe0;
  0x1f; 0xff; 0xff; 0xff; 0xff; 0xff; 0xff; 0xff;
  0xff; 0xff; 0xf0; 0x0; 0x0; 0x0; 0x0; 0x0;
  0x0; 0x0; 0x0; 0x0; 0x0; 0x0; 0x0; 0x0;
  0x0; 0x0; 0x0; 0x0; 0x0; 0x0; 0x0; 0x0;
  0x0; 0x0; 0x0; 0x0; 0x0; 0x0; 0x0; 0x0;
  0x0; 0x0; 0x0; 0x0; 0x0; 0x0; 0x0; 0x0;
  0x0; 0x0; 0x0; 0x0; 0x0; 0x2f; 0xff; 0xff;
  0xff; 0xff; 0xff; 0xff; 0xff; 0xff; 0xff; 0xf0;
  0x1f; 0xff; 0xff; 0xff; 0xff; 0xff; 0xff; 0xff;
  0xff; 0xff; 0xd0; 0x0; 0x0; 0x0; 0x0; 0x0;
  0x0; 0x0; 0x0; 0x0; 0x0; 0x0; 0x0; 0x0;
  0x0; 0x0; 0x0; 0x0; 0x0; 0x0; 0x0; 0x0;
  0x0; 0x0; 0x0; 0x0; 0x0; 0x0; 0x0; 0x0;
  0x0; 0x0; 0x0; 0x0; 0x0; 0x0; 0x0; 0x0;
  0x0; 0x0; 0x0; 0x0; 0x0; 0xf; 0xff; 0xff;
  0xff; 0xff; 0xff; 0xff; 0xff; 0xff; 0xff; 0xf1;
  0x1f; 0xff; 0xff; 0xff; 0xff; 0xff; 0xff; 0xff;
  0xff; 0xff; 0xb0; 0x0; 0x0; 0x0; 0x0; 0x0;
  0x0; 0x0; 0x0; 0x0; 0x0; 0x0; 0x0; 0x0;
  0x0; 0x0; 0x0; 0x0; 0x0; 0x0; 0x0; 0x0;
  0x0; 0x0; 0x0; 0x0; 0x0; 0x0; 0x0; 0x0;
  0x0; 0x0; 0x0; 0x0; 0x0; 0x0; 0x0; 0x0;
  0x0; 0x0; 0x0; 0x0; 0x0; 0xe; 0xff; 0xff;
  0xff; 0xff; 0xff; 0xff; 0xff; 0xff; 0xff; 0xf2;
  0x1f; 0xff; 0xff; 0xff; 0xff; 0xff; 0xff; 0xff;
  0xff; 0xff; 0xa0; 0x0; 0x0; 0x0; 0x0; 0x0;
  0x0; 0x0; 0x0; 0x0; 0x0; 0x0; 0x0; 0x0;
  0x0; 0x0; 0x0; 0x0; 0x0; 0x0; 0x0; 0x0;
  0x0; 0x0; 0x0; 0x0; 0x0; 0x0; 0x0; 0x0;
  0x0; 0x0; 0x0; 0x0; 0x0; 0x0; 0x0; 0x0;
  0x0; 0x0; 0x0; 0x0; 0x0; 0xd; 0xff; 0xff;
  0xff; 0xff; 0xff; 0xff; 0xff; 0xff; 0xff; 0xf3;
  0x1f; 0xff; 0xff; 0xff; 0xff; 0xff; 0xff; 0xff;
  0xff; 0xff; 0x90; 0x0; 0x0; 0x0; 0x0; 0x0;
  0x0; 0x0; 0x0; 0x0; 0x0; 0x0; 0x0; 0x0;
  0x0; 0x0; 0x0; 0x0; 0x0; 0x0; 0x0; 0x0;
  0x0; 0x0; 0x0; 0x0; 0x0; 0x0; 0x0; 0x0;
  0x0; 0x0; 0x0; 0x0; 0x0; 0x0; 0x0; 0x0;
  0x0; 0x0; 0x0; 0x0; 0x0; 0xb; 0xff; 0xff;
  0xff; 0xff; 0xff; 0xff; 0xff; 0xff; 0xff; 0xf4;
  0x1f; 0xff; 0xff; 0xff; 0xff; 0xff; 0xff; 0xff;
  0xff; 0xff; 0x80; 0x0; 0x0; 0x0; 0x0; 0x0;
  0x0; 0x0; 0x0; 0x0; 0x0; 0x0; 0x0; 0x0;
  0x0; 0x0; 0x0; 0x0; 0x0; 0x0; 0x0; 0x0;
  0x0; 0x0; 0x0; 0x0; 0x0; 0x0; 0x0; 0x0;
  0x0; 0x0; 0x0; 0x0; 0x0; 0x0; 0x0; 0x0;
  0x0; 0x0; 0x0; 0x0; 0x0; 0xa; 0xff; 0xff;
  0xff; 0xff; 0xff; 0xff; 0xff; 0xff; 0xff; 0xf5;
  0x1f; 0xff; 0xff; 0xff; 0xff; 0xff; 0xff; 0xff;
  0xff; 0xff; 0x70; 0x0; 0x0; 0x0; 0x0; 0x0;
  0x0; 0x0; 0x0; 0x0; 0x0; 0x0; 0x0; 0x0;
  0x0; 0x0; 0x0; 0x0; 0x0; 0x0; 0x0; 0x0;
  0x0; 0x0; 0x0; 0x0; 0x0; 0x0; 0x0; 0x0;
  0x0; 0x0; 0x0; 0x0; 0x0; 0x0; 0x0; 0x0;
  0x0; 0x0; 0x0; 0x0; 0x0; 0xa; 0xff; 0xff;
  0xff; 0xff; 0xff; 0xff; 0xff; 0xff; 0xff; 0xf5;
  0x1f; 0xff; 0xff; 0xff; 0xff; 0xff; 0xff; 0xff;
  0xff; 0xff; 0x60; 0x0; 0x0; 0x0; 0x0; 0x0;
  0x0; 0x0; 0x0; 0x0; 0x0; 0x0; 0x0; 0x0;
  0x0; 0x0; 0x0; 0x0; 0x0; 0x0; 0x0; 0x0;
  0x0; 0x0; 0x0; 0x0; 0x0; 0x0; 0x0; 0x0;
  0x0; 0x0; 0x0; 0x0; 0x0; 0x0; 0x0; 0x0;
  0x0; 0x0; 0x0; 0x0; 0x0; 0x9; 0xff; 0xff;
  0xff; 0xff; 0xff; 0xff; 0xff; 0xff; 0xff; 0xf6;
  0x1f; 0xff; 0xff; 0xff; 0xff; 0xff; 0xff; 0xff;
  0xff; 0xff; 0x60; 0x0; 0x0; 0x0; 0x0; 0x0;
  0x0; 0x0; 0x0; 0x0; 0x0; 0x0; 0x0; 0x0;
  0x0; 0x0; 0x0; 0x0; 0x0; 0x0; 0x0; 0x0;
  0x0; 0x0; 0x0; 0x0; 0x0; 0x0; 0x0; 0x0;
  0x0; 0x0; 0x0; 0x0; 0x0; 0x0; 0x0; 0x0;
  0x0; 0x0; 0x0; 0x0; 0x0; 0x9; 0xff; 0xff;
  0xff; 0xff; 0xff; 0xff; 0xff; 0xff; 0xff; 0xf6;
  0x1f; 0xff; 0xff; 0xff; 0xff; 0xff; 0xff; 0xff;
  0xff; 0xff; 0x60; 0x0; 0x0; 0x0; 0x0; 0x0;
  0x0; 0x0; 0x0; 0x0; 0x0; 0x0; 0x0; 0x0;
  0x0; 0x0; 0x0; 0x0; 0x0; 0x0; 0x0; 0x0;
  0x0; 0x0; 0x0; 0x0; 0x0; 0x0; 0x0; 0x0;
  0x0; 0x0; 0x0; 0x0; 0x0; 0x0; 0x0; 0x0;
  0x0; 0x0; 0x0; 0x0; 0x0; 0x9; 0xff; 0xff;
  0xff; 0xff; 0xff; 0xff; 0xff; 0xff; 0xff; 0xf6;
  0x1f; 0xff; 0xff; 0xff; 0xff; 0xff; 0xff; 0xff;
  0xff; 0xff; 0x60; 0x0; 0x0; 0x0; 0x0; 0x0;
  0x0; 0x0; 0x0; 0x0; 0x0; 0x0; 0x0; 0x0;
  0x0; 0x0; 0x0; 0x0; 0x0; 0x0; 0x0; 0x0;
  0x0; 0x0; 0x0; 0x0; 0x0; 0x0; 0x0; 0x0;
  0x0; 0x0; 0x0; 0x0; 0x0; 0x0; 0x0; 0x0;
  0x0; 0x0; 0x0; 0x0; 0x0; 0x9; 0xff; 0xff;
  0xff; 0xff; 0xff; 0xff; 0xff; 0xff; 0xff; 0xf6;
  0x1f; 0xff; 0xff; 0xff; 0xff; 0xff; 0xff; 0xff;
  0xff; 0xff; 0x70; 0x0; 0x0; 0x0; 0x0; 0x0;
  0x0; 0x0; 0x0; 0x0; 0x0; 0x0; 0x0; 0x0;
  0x0; 0x0; 0x0; 0x0; 0x0; 0x0; 0x0; 0x0;
  0x0; 0x0; 0x0; 0x0; 0x0; 0x0; 0x0; 0x0;
  0x0; 0x0; 0x0; 0x0; 0x0; 0x0; 0x0; 0x0;
  0x0; 0x0; 0x0; 0x0; 0x0; 0x9; 0xff; 0xff;
  0xff; 0xff; 0xff; 0xff; 0xff; 0xff; 0xff; 0xf6;
  0x1f; 0xff; 0xff; 0xff; 0xff; 0xff; 0xff; 0xff;
  0xff; 0xff; 0x70; 0x0; 0x0; 0x0; 0x0; 0x0;
  0x0; 0x0; 0x0; 0x0; 0x0; 0x0; 0x0; 0x0;
  0x0; 0x0; 0x0; 0x0; 0x0; 0x0; 0x0; 0x0;
  0x0; 0x0; 0x0; 0x0; 0x0; 0x0; 0x0; 0x0;
  0x0; 0x0; 0x0; 0x0; 0x0; 0x0; 0x0; 0x0;
  0x0; 0x0; 0x0; 0x0; 0x0; 0xa; 0xff; 0xff;
  0xff; 0xff; 0xff; 0xff; 0xff; 0xff; 0xff; 0xf5;
  0x1f; 0xff; 0xff; 0xff; 0xff; 0xff; 0xff; 0xff;
  0xff; 0xff; 0x80; 0x0; 0x0; 0x0; 0x0; 0x0;
  0x0; 0x0; 0x0; 0x0; 0x0; 0x0; 0x0; 0x0;
  0x0; 0x0; 0x0; 0x0; 0x0; 0x0; 0x0; 0x0;
  0x0; 0x0; 0x0; 0x0; 0x0; 0x0; 0x0; 0x0;
  0x0; 0x0; 0x0; 0x0; 0x0; 0x0; 0x0; 0x0;
  0x0; 0x0; 0x0; 0x0; 0x0; 0xb; 0xff; 0xff;
  0xff; 0xff; 0xff; 0xff; 0xff; 0xff; 0xff; 0xf4;
  0x1f; 0xff; 0xff; 0xff; 0xff; 0xff; 0xff; 0xff;
  0xff; 0xff; 0x90; 0x0; 0x0; 0x0; 0x0; 0x0;
  0x0; 0x0; 0x0; 0x0; 0x0; 0x0; 0x0; 0x0;
  0x0; 0x0; 0x0; 0x0; 0x0; 0x0; 0x0; 0x0;
  0x0; 0x0; 0x0; 0x0; 0x0; 0x0; 0x0; 0x0;
  0x0; 0x0; 0x0; 0x0; 0x0; 0x0; 0x0; 0x0;
  0x0; 0x0; 0x0; 0x0; 0x0; 0xc; 0xff; 0xff;
  0xff; 0xff; 0xff; 0xff; 0xff; 0xff; 0xff; 0xf4;
  0x1f; 0xff; 0xff; 0xff; 0xff; 0xff; 0xff; 0xff;
  0xff; 0xff; 0xa0; 0x0; 0x0; 0x0; 0x0; 0x0;
  0x0; 0x0; 0x0; 0x0; 0x0; 0x0; 0x0; 0x0;
  0x0; 0x0; 0x0; 0x0; 0x0; 0x0; 0x0; 0x0;
  0x0; 0x0; 0x0; 0x0; 0x0; 0x0; 0x0; 0x0;
  0x0; 0x0; 0x0; 0x0; 0x0; 0x0; 0x0; 0x0;
  0x0; 0x0; 0x0; 0x0; 0x0; 0xd; 0xff; 0xff;
  0xff; 0xff; 0xff; 0xff; 0xff; 0xff; 0xff; 0xf3;
  0x1f; 0xff; 0xff; 0xff; 0xff; 0xff; 0xff; 0xff;
  0xff; 0xff; 0xc0; 0x0; 0x0; 0x0; 0x0; 0x0;
  0x0; 0x0; 0x0; 0x0; 0x0; 0x0; 0x0; 0x0;
  0x0; 0x0; 0x0; 0x0; 0x0; 0x0; 0x0; 0x0;
  0x0; 0x0; 0x0; 0x0; 0x0; 0x0; 0x0; 0x0;
  0x0; 0x0; 0x0; 0x0; 0x0; 0x0; 0x0; 0x0;
  0x0; 0x0; 0x0; 0x0; 0x0; 0xf; 0xff; 0xff;
  0xff; 0xff; 0xff; 0xff; 0xff; 0xff; 0xff; 0xf2;
  0x1f; 0xff; 0xff; 0xff; 0xff; 0xff; 0xff; 0xff;
  0xff; 0xff; 0xe0; 0x0; 0x0; 0x0; 0x0; 0x0 ].

Definition quicksand256_bitmap_34 : list Z :=
  [ 0x0; 0x0; 0x0; 0x0; 0x0; 0x0; 0x0; 0x0;
  0x0; 0x0; 0x0; 0x0; 0x0; 0x0; 0x0; 0x0;
  0x0; 0x0; 0x0; 0x0; 0x0; 0x0; 0x0; 0x0;
  0x0; 0x0; 0x0; 0x0; 0x0; 0x0; 0x0; 0x0;
  0x0; 0x0; 0x0; 0x0; 0x0; 0x1f; 0xff; 0xff;
  0xff; 0xff; 0xff; 0xff; 0xff; 0xff; 0xff; 0xf0;
  0x1f; 0xff; 0xff; 0xff; 0xff; 0xff; 0xff; 0xff;
  0xff; 0xff; 0xf0; 0x0; 0x0; 0x0; 0x0; 0x0;
  0x0; 0x0; 0x0; 0x0; 0x0; 0x0; 0x0; 0x0;
  0x0; 0x0; 0x0; 0x0; 0x0; 0x0; 0x0; 0x0;
  0x0; 0x0; 0x0; 0x0; 0x0; 0x0; 0x0; 0x0;
  0x0; 0x0; 0x0; 0x0; 0x0; 0x0; 0x0; 0x0;
  0x0; 0x0; 0x0; 0x0; 0x0; 0x3f; 0xff; 0xff;
  0xff; 0xff; 0xff; 0xff; 0xff; 0xff; 0xff; 0xf0;
  0x1f; 0xff; 0xff; 0xff; 0xff; 0xff; 0xff; 0xff;
  0xff; 0xff; 0xf2; 0x0; 0x0; 0x0; 0x0; 0x0;
  0x0; 0x0; 0x0; 0x0; 0x0; 0x0; 0x0; 0x0;
  0x0; 0x0; 0x0; 0x0; 0x0; 0x0; 0x0; 0x0;
  0x0; 0x0; 0x0; 0x0; 0x0; 0x0; 0x0; 0x0;
  0x0; 0x0; 0x0; 0x0; 0x0; 0x0; 0x0; 0x0;
  0x0; 0x0; 0x0; 0x0; 0x0; 0x5f; 0xff; 0xff;
  0xff; 0xff; 0xff; 0xff; 0xff; 0xff; 0xff; 0xd0;
  0x1f; 0xff; 0xff; 0xff; 0xff; 0xff; 0xff; 0xff;
  0xff; 0xff; 0xf5; 0x0; 0x0; 0x0; 0x0; 0x0;
  0x0; 0x0; 0x0; 0x0; 0x0; 0x0; 0x0; 0x0;
  0x0; 0x0; 0x0; 0x0; 0x0; 0x0; 0x0; 0x0;
  0x0; 0x0; 0x0; 0x0; 0x0; 0x0; 0x0; 0x0;
  0x0; 0x0; 0x0; 0x0; 0x0; 0x0; 0x0; 0x0;
  0x0; 0x0; 0x0; 0x0; 0x0; 0x8f; 0xff; 0xff;
  0xff; 0xff; 0xff; 0xff; 0xff; 0xff; 0xff; 0xb0;
  0x1f; 0xff; 0xff; 0xff; 0xff; 0xff; 0xff; 0xff;
  0xff; 0xff; 0xf8; 0x0; 0x0; 0x0; 0x0; 0x0;
  0x0; 0x0; 0x0; 0x0; 0x0; 0x0; 0x0; 0x0;
  0x0; 0x0; 0x0; 0x0; 0x0; 0x0; 0x0; 0x0;
  0x0; 0x0; 0x0; 0x0; 0x0; 0x0; 0x0; 0x0;
  0x0; 0x0; 0x0; 0x0; 0x0; 0x0; 0x0; 0x0;
  0x0; 0x0; 0x0; 0x0; 0x0; 0xbf; 0xff; 0xff;
  0xff; 0xff; 0xff; 0xff; 0xff; 0xff; 0xff; 0x90;
  0x1f; 0xff; 0xff; 0xff; 0xff; 0xff; 0xff; 0xff;
  0xff; 0xff; 0xfb; 0x0; 0x0; 0x0; 0x0; 0x0;
  0x0; 0x0; 0x0; 0x0; 0x0; 0x0; 0x0; 0x0;
  0x0; 0x0; 0x0; 0x0; 0x0; 0x0; 0x0; 0x0;
  0x0; 0x0; 0x0; 0x0; 0x0; 0x0; 0x0; 0x0;
  0x0; 0x0; 0x0; 0x0; 0x0; 0x0; 0x0; 0x0;
  0x0; 0x0; 0x0; 0x0; 0x0; 0xef; 0xff; 0xff;
  0xff; 0xff; 0xff; 0xff; 0xff; 0xff; 0xff; 0x70;
  0x1f; 0xff; 0xff; 0xff; 0xff; 0xff; 0xff; 0xff;
  0xff; 0xff; 0xfe; 0x0; 0x0; 0x0; 0x0; 0x0;
  0x0; 0x0; 0x0; 0x0; 0x0; 0x0; 0x0; 0x0;
  0x0; 0x0; 0x0; 0x0; 0x0; 0x0; 0x0; 0x0;
  0x0; 0x0; 0x0; 0x0; 0x0; 0x0; 0x0; 0x0;
  0x0; 0x0; 0x0; 0x0; 0x0; 0x0; 0x0; 0x0;
  0x0; 0x0; 0x0; 0x0; 0x2; 0xff; 0xff; 0xff;
  0xff; 0xff; 0xff; 0xff; 0xff; 0xff; 0xff; 0x40;
  0x1f; 0xff; 0xff; 0xff; 0xff; 0xff; 0xff; 0xff;
  0xff; 0xff; 0xff; 0x20; 0x0; 0x0; 0x0; 0x0;
  0x0; 0x0; 0x0; 0x0; 0x0; 0x0; 0x0; 0x0;
  0x0; 0x0; 0x0; 0x0; 0x0; 0x0; 0x0; 0x0;
  0x0; 0x0; 0x0; 0x0; 0x0; 0x0; 0x0; 0x0;
  0x0; 0x0; 0x0; 0x0; 0x0; 0x0; 0x0; 0x0;
  0x0; 0x0; 0x0; 0x0; 0x6; 0xff; 0xff; 0xff;
  0xff; 0xff; 0xff; 0xff; 0xff; 0xff; 0xff; 0x10;
  0x1f; 0xff; 0xff; 0xff; 0xff; 0xff; 0xff; 0xff;
  0xff; 0xff; 0xff; 0x70; 0x0; 0x0; 0x0; 0x0;
  0x0; 0x0; 0x0; 0x0; 0x0; 0x0; 0x0; 0x0;
  0x0; 0x0; 0x0; 0x0; 0x0; 0x0; 0x0; 0x0;
  0x0; 0x0; 0x0; 0x0; 0x0; 0x0; 0x0; 0x0;
  0x0; 0x0; 0x0; 0x0; 0x0; 0x0; 0x0; 0x0;
  0x0; 0x0; 0x0; 0x0; 0xa; 0xff; 0xff; 0xff;
  0xff; 0xff; 0xff; 0xff; 0xff; 0xff; 0xfe; 0x0;
  0x1f; 0xff; 0xff; 0xff; 0xff; 0xff; 0xff; 0xff;
  0xff; 0xff; 0xff; 0xb0; 0x0; 0x0; 0x0; 0x0;
  0x0; 0x0; 0x0; 0x0; 0x0; 0x0; 0x0; 0x0;
  0x0; 0x0; 0x0; 0x0; 0x0; 0x0; 0x0; 0x0;
  0x0; 0x0; 0x0; 0x0; 0x0; 0x0; 0x0; 0x0;
  0x0; 0x0; 0x0; 0x0; 0x0; 0x0; 0x0; 0x0;
  0x0; 0x0; 0x0; 0x0; 0xe; 0xff; 0xff; 0xff;
  0xff; 0xff; 0xff; 0xff; 0xff; 0xff; 0xfb; 0x0;
  0x1f; 0xff; 0xff; 0xff; 0xff; 0xff; 0xff; 0xff;
  0xff; 0xff; 0xff; 0xf0; 0x0; 0x0; 0x0; 0x0;
  0x0; 0x0; 0x0; 0x0; 0x0; 0x0; 0x0; 0x0;
  0x0; 0x0; 0x0; 0x0; 0x0; 0x0; 0x0; 0x0;
  0x0; 0x0; 0x0; 0x0; 0x0; 0x0; 0x0; 0x0;
  0x0; 0x0; 0x0; 0x0; 0x0; 0x0; 0x0; 0x0;
  0x0; 0x0; 0x0; 0x0; 0x3f; 0xff; 0xff; 0xff;
  0xff; 0xff; 0xff; 0xff; 0xff; 0xff; 0xf8; 0x0;
  0x1f; 0xff; 0xff; 0xff; 0xff; 0xff; 0xff; 0xff;
  0xff; 0xff; 0xff; 0xf5; 0x0; 0x0; 0x0; 0x0;
  0x0; 0x0; 0x0; 0x0; 0x0; 0x0; 0x0; 0x0;
  0x0; 0x0; 0x0; 0x0; 0x0; 0x0; 0x0; 0x0;
  0x0; 0x0; 0x0; 0x0; 0x0; 0x0; 0x0; 0x0;
  0x0; 0x0; 0x0; 0x0; 0x0; 0x0; 0x0; 0x0;
  0x0; 0x0; 0x0; 0x0; 0x9f; 0xff; 0xff; 0xff;
  0xff; 0xff; 0xff; 0xff; 0xff; 0xff; 0xf4; 0x0;
  0x1f; 0xff; 0xff; 0xff; 0xff; 0xff; 0xff; 0xff;
  0xff; 0xff; 0xff; 0xfa; 0x0; 0x0; 0x0; 0x0;
  0x0; 0x0; 0x0; 0x0; 0x0; 0x0; 0x0; 0x0;
  0x0; 0x0; 0x0; 0x0; 0x0; 0x0; 0x0; 0x0;
  0x0; 0x0; 0x0; 0x0; 0x0; 0x0; 0x0; 0x0;
  0x0; 0x0; 0x0; 0x0; 0x0; 0x0; 0x0; 0x0;
  0x0; 0x0; 0x0; 0x0; 0xef; 0xff; 0xff; 0xff;
  0xff; 0xff; 0xff; 0xff; 0xff; 0xff; 0xf0; 0x0;
  0x1f; 0xff; 0xff; 0xff; 0xff; 0xff; 0xff; 0xff;
  0xff; 0xff; 0xff; 0xff; 0x10; 0x0; 0x0; 0x0;
  0x0; 0x0; 0x0; 0x0; 0x0; 0x0; 0x0; 0x0;
  0x0; 0x0; 0x0; 0x0; 0x0; 0x0; 0x0; 0x0;
  0x0; 0x0; 0x0; 0x0; 0x0; 0x0; 0x0; 0x0;
  0x0; 0x0; 0x0; 0x0; 0x0; 0x0; 0x0; 0x0;
  0x0; 0x0; 0x0; 0x4; 0xff; 0xff; 0xff; 0xff;
  0xff; 0xff; 0xff; 0xff; 0xff; 0xff; 0xc0; 0x0;
  0x1f; 0xff; 0xff; 0xff; 0xff; 0xff; 0xff; 0xff;
  0xff; 0xff; 0xff; 0xff; 0x70; 0x0; 0x0; 0x0;
  0x0; 0x0; 0x0; 0x0; 0x0; 0x0; 0x0; 0x0;
  0x0; 0x0; 0x0; 0x0; 0x0; 0x0; 0x0; 0x0;
  0x0; 0x0; 0x0; 0x0; 0x0; 0x0; 0x0; 0x0;
  0x0; 0x0; 0x0; 0x0; 0x0; 0x0; 0x0; 0x0;
  0x0; 0x0; 0x0; 0xb; 0xff; 0xff; 0xff; 0xff;
  0xff; 0xff; 0xff; 0xff; 0xff; 0xff; 0x80; 0x0;
  0x1f; 0xff; 0xff; 0xff; 0xff; 0xff; 0xff; 0xff;
  0xff; 0xff; 0xff; 0xff; 0xd0; 0x0; 0x0; 0x0;
  0x0; 0x0; 0x0; 0x0; 0x0; 0x0; 0x0; 0x0;
  0x0; 0x0; 0x0; 0x0; 0x0; 0x0; 0x0; 0x0;
  0x0; 0x0; 0x0; 0x0; 0x0; 0x0; 0x0; 0x0;
  0x0; 0x0; 0x0; 0x0; 0x0; 0x0; 0x0; 0x0;
  0x0; 0x0; 0x0; 0x2f; 0xff; 0xff; 0xff; 0xff;
  0xff; 0xff; 0xff; 0xff; 0xff; 0xff; 0x30; 0x0;
  0x1f; 0xff; 0xff; 0xff; 0xff; 0xff; 0xff; 0xff;
  0xff; 0xff; 0xff; 0xff; 0xf4; 0x0; 0x0; 0x0;
  0x0; 0x0; 0x0; 0x0; 0x0; 0x0; 0x0; 0x0;
  0x0; 0x0; 0x0; 0x0; 0x0; 0x0; 0x0; 0x0;
  0x0; 0x0; 0x0; 0x0; 0x0; 0x0; 0x0; 0x0;
  0x0; 0x0; 0x0; 0x0; 0x0; 0x0; 0x0; 0x0;
  0x0; 0x0; 0x0; 0x9f; 0xff; 0xff; 0xff; 0xff;
  0xff; 0xff; 0xff; 0xff; 0xff; 0xfe; 0x0; 0x0;
  0x1f; 0xff; 0xff; 0xff; 0xff; 0xff; 0xff; 0xff;
  0xff; 0xff; 0xff; 0xff; 0xfc; 0x0; 0x0; 0x0;
  0x0; 0x0; 0x0; 0x0; 0x0; 0x0; 0x0; 0x0;
  0x0; 0x0; 0x0; 0x0; 0x0; 0x0; 0x0; 0x0;
  0x0; 0x0; 0x0; 0x0; 0x0; 0x0; 0x0; 0x0;
  0x0; 0x0; 0x0; 0x0; 0x0; 0x0; 0x0; 0x0;
  0x0; 0x0; 0x1; 0xff; 0xff; 0xff; 0xff; 0xff;
  0xff; 0xff; 0xff; 0xff; 0xff; 0xf9; 0x0; 0x0;
  0x1f; 0xff; 0xff; 0xff; 0xff; 0xff; 0xff; 0xff;
  0xff; 0xff; 0xff; 0xff; 0xff; 0x40; 0x0; 0x0;
  0x0; 0x0; 0x0; 0x0; 0x0; 0x0; 0x0; 0x0;
  0x0; 0x0; 0x0; 0x0; 0x0; 0x0; 0x0; 0x0;
  0x0; 0x0; 0x0; 0x0; 0x0; 0x0; 0x0; 0x0;
  0x0; 0x0; 0x0; 0x0; 0x0; 0x0; 0x0; 0x0;
  0x0; 0x0; 0x8; 0xff; 0xff; 0xff; 0xff; 0xff;
  0xff; 0xff; 0xff; 0xff; 0xff; 0xf4; 0x0; 0x0 ].

Definition quicksand256_bitmap_35 : list Z :=
  [ 0x1f; 0xff; 0xff; 0xff; 0xff; 0xff; 0xff; 0xff;
  0xff; 0xff; 0xff; 0xff; 0xff; 0xc0; 0x0; 0x0;
  0x0; 0x0; 0x0; 0x0; 0x0; 0x0; 0x0; 0x0;
  0x0; 0x0; 0x0; 0x0; 0x0; 0x0; 0x0; 0x0;
  0x0; 0x0; 0x0; 0x0; 0x0; 0x0; 0x0; 0x0;
  0x0; 0x0; 0x0; 0x0; 0x0; 0x0; 0x0; 0x0;
  0x0; 0x0; 0x1f; 0xff; 0xff; 0xff; 0xff; 0xff;
  0xff; 0xff; 0xff; 0xff; 0xff; 0xe0; 0x0; 0x0;
  0x1f; 0xff; 0xff; 0xff; 0xff; 0xff; 0xff; 0xff;
  0xff; 0xff; 0xff; 0xff; 0xff; 0xf4; 0x0; 0x0;
  0x0; 0x0; 0x0; 0x0; 0x0; 0x0; 0x0; 0x0;
  0x0; 0x0; 0x0; 0x0; 0x0; 0x0; 0x0; 0x0;
  0x0; 0x0; 0x0; 0x0; 0x0; 0x0; 0x0; 0x0;
  0x0; 0x0; 0x0; 0x0; 0x0; 0x0; 0x0; 0x0;
  0x0; 0x0; 0xaf; 0xff; 0xff; 0xff; 0xff; 0xff;
  0xff; 0xff; 0xff; 0xff; 0xff; 0x80; 0x0; 0x0;
  0x1f; 0xff; 0xff; 0xff; 0xff; 0xff; 0xff; 0xff;
  0xff; 0xff; 0xff; 0xff; 0xff; 0xfd; 0x0; 0x0;
  0x0; 0x0; 0x0; 0x0; 0x0; 0x0; 0x0; 0x0;
  0x0; 0x0; 0x0; 0x0; 0x0; 0x0; 0x0; 0x0;
  0x0; 0x0; 0x0; 0x0; 0x0; 0x0; 0x0; 0x0;
  0x0; 0x0; 0x0; 0x0; 0x0; 0x0; 0x0; 0x0;
  0x0; 0x3; 0xff; 0xff; 0xff; 0xff; 0xff; 0xff;
  0xff; 0xff; 0xff; 0xff; 0xff; 0x20; 0x0; 0x0;
  0x1f; 0xff; 0xff; 0xff; 0xff; 0xff; 0xff; 0xff;
  0xff; 0xff; 0xff; 0xff; 0xff; 0xff; 0x80; 0x0;
  0x0; 0x0; 0x0; 0x0; 0x0; 0x0; 0x0; 0x0;
  0x0; 0x0; 0x0; 0x0; 0x0; 0x0; 0x0; 0x0;
  0x0; 0x0; 0x0; 0x0; 0x0; 0x0; 0x0; 0x0;
  0x0; 0x0; 0x0; 0x0; 0x0; 0x0; 0x0; 0x0;
  0x0; 0xd; 0xff; 0xff; 0xff; 0xff; 0xff; 0xff;
  0xff; 0xff; 0xff; 0xff; 0xfc; 0x0; 0x0; 0x0;
  0x1f; 0xff; 0xff; 0xff; 0xff; 0xff; 0xff; 0xff;
  0xff; 0xff; 0xff; 0xff; 0xff; 0xff; 0xf2; 0x0;
  0x0; 0x0; 0x0; 0x0; 0x0; 0x0; 0x0; 0x0;
  0x0; 0x0; 0x0; 0x0; 0x0; 0x0; 0x0; 0x0;
  0x0; 0x0; 0x0; 0x0; 0x0; 0x0; 0x0; 0x0;
  0x0; 0x0; 0x0; 0x0; 0x0; 0x0; 0x0; 0x0;
  0x0; 0x7f; 0xff; 0xff; 0xff; 0xff; 0xff; 0xff;
  0xff; 0xff; 0xff; 0xff; 0xf5; 0x0; 0x0; 0x0;
  0x1f; 0xff; 0xff; 0xff; 0xff; 0xff; 0xff; 0xff;
  0xff; 0xff; 0xff; 0xff; 0xff; 0xff; 0xfc; 0x0;
  0x0; 0x0; 0x0; 0x0; 0x0; 0x0; 0x0; 0x0;
  0x0; 0x0; 0x0; 0x0; 0x0; 0x0; 0x0; 0x0;
  0x0; 0x0; 0x0; 0x0; 0x0; 0x0; 0x0; 0x0;
  0x0; 0x0; 0x0; 0x0; 0x0; 0x0; 0x0; 0x0;
  0x3; 0xff; 0xff; 0xff; 0xff; 0xff; 0xff; 0xff;
  0xff; 0xff; 0xff; 0xff; 0xe0; 0x0; 0x0; 0x0;
  0x1f; 0xff; 0xff; 0xff; 0xff; 0xff; 0xff; 0xff;
  0xff; 0xff; 0xff; 0xff; 0xff; 0xff; 0xff; 0x80;
  0x0; 0x0; 0x0; 0x0; 0x0; 0x0; 0x0; 0x0;
  0x0; 0x0; 0x0; 0x0; 0x0; 0x0; 0x0; 0x0;
  0x0; 0x0; 0x0; 0x0; 0x0; 0x0; 0x0; 0x0;
  0x0; 0x0; 0x0; 0x0; 0x0; 0x0; 0x0; 0x0;
  0xd; 0xff; 0xff; 0xff; 0xff; 0xff; 0xff; 0xff;
  0xff; 0xff; 0xff; 0xff; 0x60; 0x0; 0x0; 0x0;
  0x1f; 0xff; 0xff; 0xff; 0xff; 0xff; 0xff; 0xff;
  0xff; 0xff; 0xff; 0xff; 0xff; 0xff; 0xff; 0xf5;
  0x0; 0x0; 0x0; 0x0; 0x0; 0x0; 0x0; 0x0;
  0x0; 0x0; 0x0; 0x0; 0x0; 0x0; 0x0; 0x0;
  0x0; 0x0; 0x0; 0x0; 0x0; 0x0; 0x0; 0x0;
  0x0; 0x0; 0x0; 0x0; 0x0; 0x0; 0x0; 0x0;
  0xaf; 0xff; 0xff; 0xff; 0xff; 0xff; 0xff; 0xff;
  0xff; 0xff; 0xff; 0xfe; 0x0; 0x0; 0x0; 0x0;
  0x1f; 0xff; 0xff; 0xff; 0xff; 0xff; 0xff; 0xff;
  0xff; 0xff; 0xff; 0xff; 0xff; 0xff; 0xff; 0xff;
  0x30; 0x0; 0x0; 0x0; 0x0; 0x0; 0x0; 0x0;
  0x0; 0x0; 0x0; 0x0; 0x0; 0x0; 0x0; 0x0;
  0x0; 0x0; 0x0; 0x0; 0x0; 0x0; 0x0; 0x0;
  0x0; 0x0; 0x0; 0x0; 0x0; 0x0; 0x0; 0x8;
  0xff; 0xff; 0xff; 0xff; 0xff; 0xff; 0xff; 0xff;
  0xff; 0xff; 0xff; 0xf7; 0x0; 0x0; 0x0; 0x0;
  0x1f; 0xff; 0xff; 0xff; 0xff; 0xff; 0xff; 0xff;
  0xff; 0xff; 0xff; 0xff; 0xff; 0xff; 0xff; 0xff;
  0xe1; 0x0; 0x0; 0x0; 0x0; 0x0; 0x0; 0x0;
  0x0; 0x0; 0x0; 0x0; 0x0; 0x0; 0x0; 0x0;
  0x0; 0x0; 0x0; 0x0; 0x0; 0x0; 0x0; 0x0;
  0x0; 0x0; 0x0; 0x0; 0x0; 0x0; 0x0; 0x6f;
  0xff; 0xff; 0xff; 0xff; 0xff; 0xff; 0xff; 0xff;
  0xff; 0xff; 0xff; 0xe0; 0x0; 0x0; 0x0; 0x0;
  0x1f; 0xff; 0xff; 0xff; 0xff; 0xff; 0xff; 0xff;
  0xff; 0xff; 0xff; 0xff; 0xff; 0xff; 0xff; 0xff;
  0xfd; 0x10; 0x0; 0x0; 0x0; 0x0; 0x0; 0x0;
  0x0; 0x0; 0x0; 0x0; 0x0; 0x0; 0x0; 0x0;
  0x0; 0x0; 0x0; 0x0; 0x0; 0x0; 0x0; 0x0;
  0x0; 0x0; 0x0; 0x0; 0x0; 0x0; 0x5; 0xff;
  0xff; 0xff; 0xff; 0xff; 0xff; 0xff; 0xff; 0xff;
  0xff; 0xff; 0xff; 0x60; 0x0; 0x0; 0x0; 0x0;
  0x1f; 0xff; 0xff; 0xff; 0xff; 0xff; 0xff; 0xff;
  0xff; 0xff; 0xff; 0xff; 0xff; 0xff; 0xff; 0xff;
  0xff; 0xd1; 0x0; 0x0; 0x0; 0x0; 0x0; 0x0;
  0x0; 0x0; 0x0; 0x0; 0x0; 0x0; 0x0; 0x0;
  0x0; 0x0; 0x0; 0x0; 0x0; 0x0; 0x0; 0x0;
  0x0; 0x0; 0x0; 0x0; 0x0; 0x0; 0x4f; 0xff;
  0xff; 0xff; 0xff; 0xff; 0xff; 0xff; 0xff; 0xff;
  0xff; 0xff; 0xfc; 0x0; 0x0; 0x0; 0x0; 0x0;
  0x1f; 0xff; 0xff; 0xff; 0xff; 0xff; 0xff; 0xff;
  0xff; 0xff; 0xff; 0xff; 0xff; 0xff; 0xff; 0xff;
  0xff; 0xfd; 0x20; 0x0; 0x0; 0x0; 0x0; 0x0;
  0x0; 0x0; 0x0; 0x0; 0x0; 0x0; 0x0; 0x0;
  0x0; 0x0; 0x0; 0x0; 0x0; 0x0; 0x0; 0x0;
  0x0; 0x0; 0x0; 0x0; 0x0; 0x5; 0xff; 0xff;
  0xff; 0xff; 0xff; 0xff; 0xff; 0xff; 0xff; 0xff;
  0xff; 0xff; 0xf3; 0x0; 0x0; 0x0; 0x0; 0x0;
  0x1f; 0xff; 0xff; 0xff; 0xff; 0xff; 0xff; 0xff;
  0xff; 0xff; 0xff; 0xff; 0xff; 0xff; 0xff; 0xff;
  0xff; 0xff; 0xe3; 0x0; 0x0; 0x0; 0x0; 0x0;
  0x0; 0x0; 0x0; 0x0; 0x0; 0x0; 0x0; 0x0;
  0x0; 0x0; 0x0; 0x0; 0x0; 0x0; 0x0; 0x0;
  0x0; 0x0; 0x0; 0x0; 0x0; 0x7f; 0xff; 0xff;
  0xff; 0xff; 0xff; 0xff; 0xff; 0xff; 0xff; 0xff;
  0xff; 0xff; 0x90; 0x0; 0x0; 0x0; 0x0; 0x0;
  0x1f; 0xff; 0xff; 0xff; 0xff; 0xff; 0xff; 0xff;
  0xff; 0xff; 0xff; 0xff; 0xff; 0xff; 0xff; 0xff;
  0xff; 0xff; 0xff; 0x60; 0x0; 0x0; 0x0; 0x0;
  0x0; 0x0; 0x0; 0x0; 0x0; 0x0; 0x0; 0x0;
  0x0; 0x0; 0x0; 0x0; 0x0; 0x0; 0x0; 0x0;
  0x0; 0x0; 0x0; 0x0; 0xa; 0xff; 0xff; 0xff;
  0xff; 0xff; 0xff; 0xff; 0xff; 0xff; 0xff; 0xff;
  0xff; 0xfe; 0x10; 0x0; 0x0; 0x0; 0x0; 0x0;
  0x1f; 0xff; 0xff; 0xff; 0xff; 0xff; 0xff; 0xff;
  0xff; 0xff; 0xff; 0xff; 0xff; 0xff; 0xff; 0xff;
  0xff; 0xff; 0xff; 0xfa; 0x10; 0x0; 0x0; 0x0;
  0x0; 0x0; 0x0; 0x0; 0x0; 0x0; 0x0; 0x0;
  0x0; 0x0; 0x0; 0x0; 0x0; 0x0; 0x0; 0x0;
  0x0; 0x0; 0x0; 0x2; 0xdf; 0xff; 0xff; 0xff;
  0xff; 0xff; 0xff; 0xff; 0xff; 0xff; 0xff; 0xff;
  0xff; 0xf5; 0x0; 0x0; 0x0; 0x0; 0x0; 0x0;
  0x1f; 0xff; 0xff; 0xff; 0xff; 0xff; 0xff; 0xff;
  0xff; 0xff; 0xff; 0xff; 0xff; 0xff; 0xff; 0xff;
  0xff; 0xff; 0xff; 0xff; 0xe4; 0x0; 0x0; 0x0;
  0x0; 0x0; 0x0; 0x0; 0x0; 0x0; 0x0; 0x0;
  0x0; 0x0; 0x0; 0x0; 0x0; 0x0; 0x0; 0x0;
  0x0; 0x0; 0x0; 0x7f; 0xff; 0xff; 0xff; 0xff;
  0xff; 0xff; 0xff; 0xff; 0xff; 0xff; 0xff; 0xff;
  0xff; 0xa0; 0x0; 0x0; 0x0; 0x0; 0x0; 0x0;
  0x1f; 0xff; 0xff; 0xff; 0xff; 0xff; 0xff; 0xff;
  0xff; 0xff; 0xff; 0xff; 0xff; 0xff; 0xff; 0xff;
  0xff; 0xff; 0xff; 0xff; 0xff; 0xa1; 0x0; 0x0;
  0x0; 0x0; 0x0; 0x0; 0x0; 0x0; 0x0; 0x0;
  0x0; 0x0; 0x0; 0x0; 0x0; 0x0; 0x0; 0x0;
  0x0; 0x0; 0x3d; 0xff; 0xff; 0xff; 0xff; 0xff;
  0xff; 0xff; 0xff; 0xff; 0xff; 0xff; 0xff; 0xff;
  0xfe; 0x10; 0x0; 0x0; 0x0; 0x0; 0x0; 0x0;
  0x1f; 0xff; 0xff; 0xff; 0xff; 0xff; 0xff; 0xff;
  0xff; 0xff; 0xff; 0xff; 0xff; 0xff; 0xff; 0xff;
  0xff; 0xff; 0xff; 0xff; 0xff; 0xff; 0x81; 0x0;
  0x0; 0x0; 0x0; 0x0; 0x0; 0x0; 0x0; 0x0;
  0x0; 0x0; 0x0; 0x0; 0x0; 0x0; 0x0; 0x0;
  0x0; 0x2a; 0xff; 0xff; 0xff; 0xff; 0xff; 0xff ].

Definition quicksand256_bitmap_36 : list Z :=
  [ 0xff; 0xff; 0xff; 0xff; 0xff; 0xff; 0xff; 0xff;
  0xf3; 0x0; 0x0; 0x0; 0x0; 0x0; 0x0; 0x0;
  0x1f; 0xff; 0xff; 0xff; 0xff; 0xff; 0xff; 0xff;
  0xff; 0xff; 0xfb; 0xff; 0xff; 0xff; 0xff; 0xff;
  0xff; 0xff; 0xff; 0xff; 0xff; 0xff; 0xff; 0x92;
  0x0; 0x0; 0x0; 0x0; 0x0; 0x0; 0x0; 0x0;
  0x0; 0x0; 0x0; 0x0; 0x0; 0x0; 0x0; 0x0;
  0x3a; 0xff; 0xff; 0xff; 0xff; 0xff; 0xff; 0xff;
  0xff; 0xff; 0xff; 0xff; 0xff; 0xff; 0xff; 0xff;
  0x70; 0x0; 0x0; 0x0; 0x0; 0x0; 0x0; 0x0;
  0x1f; 0xff; 0xff; 0xff; 0xff; 0xff; 0xff; 0xff;
  0xff; 0xff; 0xf6; 0x9f; 0xff; 0xff; 0xff; 0xff;
  0xff; 0xff; 0xff; 0xff; 0xff; 0xff; 0xff; 0xff;
  0xb5; 0x0; 0x0; 0x0; 0x0; 0x0; 0x0; 0x0;
  0x0; 0x0; 0x0; 0x0; 0x0; 0x0; 0x1; 0x6d;
  0xff; 0xff; 0xff; 0xff; 0xff; 0xff; 0xff; 0xff;
  0xff; 0xff; 0xff; 0xff; 0xff; 0xff; 0xff; 0xfa;
  0x0; 0x0; 0x0; 0x0; 0x0; 0x0; 0x0; 0x0;
  0x1f; 0xff; 0xff; 0xff; 0xff; 0xff; 0xff; 0xff;
  0xff; 0xff; 0xf6; 0xc; 0xff; 0xff; 0xff; 0xff;
  0xff; 0xff; 0xff; 0xff; 0xff; 0xff; 0xff; 0xff;
  0xff; 0xfb; 0x72; 0x0; 0x0; 0x0; 0x0; 0x0;
  0x0; 0x0; 0x0; 0x0; 0x0; 0x37; 0xcf; 0xff;
  0xff; 0xff; 0xff; 0xff; 0xff; 0xff; 0xff; 0xff;
  0xff; 0xff; 0xff; 0xff; 0xff; 0xff; 0xff; 0xc0;
  0x0; 0x0; 0x0; 0x0; 0x0; 0x0; 0x0; 0x0;
  0x1f; 0xff; 0xff; 0xff; 0xff; 0xff; 0xff; 0xff;
  0xff; 0xff; 0xf6; 0x1; 0xdf; 0xff; 0xff; 0xff;
  0xff; 0xff; 0xff; 0xff; 0xff; 0xff; 0xff; 0xff;
  0xff; 0xff; 0xff; 0xfc; 0x96; 0x53; 0x11; 0x0;
  0x0; 0x12; 0x35; 0x79; 0xcf; 0xff; 0xff; 0xff;
  0xff; 0xff; 0xff; 0xff; 0xff; 0xff; 0xff; 0xff;
  0xff; 0xff; 0xff; 0xff; 0xff; 0xff; 0xfd; 0x10;
  0x0; 0x0; 0x0; 0x0; 0x0; 0x0; 0x0; 0x0;
  0x1f; 0xff; 0xff; 0xff; 0xff; 0xff; 0xff; 0xff;
  0xff; 0xff; 0xf6; 0x0; 0x2e; 0xff; 0xff; 0xff;
  0xff; 0xff; 0xff; 0xff; 0xff; 0xff; 0xff; 0xff;
  0xff; 0xff; 0xff; 0xff; 0xff; 0xff; 0xff; 0xff;
  0xff; 0xff; 0xff; 0xff; 0xff; 0xff; 0xff; 0xff;
  0xff; 0xff; 0xff; 0xff; 0xff; 0xff; 0xff; 0xff;
  0xff; 0xff; 0xff; 0xff; 0xff; 0xff; 0xe2; 0x0;
  0x0; 0x0; 0x0; 0x0; 0x0; 0x0; 0x0; 0x0;
  0x1f; 0xff; 0xff; 0xff; 0xff; 0xff; 0xff; 0xff;
  0xff; 0xff; 0xf6; 0x0; 0x3; 0xff; 0xff; 0xff;
  0xff; 0xff; 0xff; 0xff; 0xff; 0xff; 0xff; 0xff;
  0xff; 0xff; 0xff; 0xff; 0xff; 0xff; 0xff; 0xff;
  0xff; 0xff; 0xff; 0xff; 0xff; 0xff; 0xff; 0xff;
  0xff; 0xff; 0xff; 0xff; 0xff; 0xff; 0xff; 0xff;
  0xff; 0xff; 0xff; 0xff; 0xff; 0xfe; 0x20; 0x0;
  0x0; 0x0; 0x0; 0x0; 0x0; 0x0; 0x0; 0x0;
  0x1f; 0xff; 0xff; 0xff; 0xff; 0xff; 0xff; 0xff;
  0xff; 0xff; 0xf6; 0x0; 0x0; 0x3f; 0xff; 0xff;
  0xff; 0xff; 0xff; 0xff; 0xff; 0xff; 0xff; 0xff;
  0xff; 0xff; 0xff; 0xff; 0xff; 0xff; 0xff; 0xff;
  0xff; 0xff; 0xff; 0xff; 0xff; 0xff; 0xff; 0xff;
  0xff; 0xff; 0xff; 0xff; 0xff; 0xff; 0xff; 0xff;
  0xff; 0xff; 0xff; 0xff; 0xff; 0xe2; 0x0; 0x0;
  0x0; 0x0; 0x0; 0x0; 0x0; 0x0; 0x0; 0x0;
  0x1f; 0xff; 0xff; 0xff; 0xff; 0xff; 0xff; 0xff;
  0xff; 0xff; 0xf6; 0x0; 0x0; 0x3; 0xef; 0xff;
  0xff; 0xff; 0xff; 0xff; 0xff; 0xff; 0xff; 0xff;
  0xff; 0xff; 0xff; 0xff; 0xff; 0xff; 0xff; 0xff;
  0xff; 0xff; 0xff; 0xff; 0xff; 0xff; 0xff; 0xff;
  0xff; 0xff; 0xff; 0xff; 0xff; 0xff; 0xff; 0xff;
  0xff; 0xff; 0xff; 0xff; 0xfe; 0x20; 0x0; 0x0;
  0x0; 0x0; 0x0; 0x0; 0x0; 0x0; 0x0; 0x0;
  0x1f; 0xff; 0xff; 0xff; 0xff; 0xff; 0xff; 0xff;
  0xff; 0xff; 0xf6; 0x0; 0x0; 0x0; 0x2d; 0xff;
  0xff; 0xff; 0xff; 0xff; 0xff; 0xff; 0xff; 0xff;
  0xff; 0xff; 0xff; 0xff; 0xff; 0xff; 0xff; 0xff;
  0xff; 0xff; 0xff; 0xff; 0xff; 0xff; 0xff; 0xff;
  0xff; 0xff; 0xff; 0xff; 0xff; 0xff; 0xff; 0xff;
  0xff; 0xff; 0xff; 0xff; 0xd1; 0x0; 0x0; 0x0;
  0x0; 0x0; 0x0; 0x0; 0x0; 0x0; 0x0; 0x0;
  0x1f; 0xff; 0xff; 0xff; 0xff; 0xff; 0xff; 0xff;
  0xff; 0xff; 0xf6; 0x0; 0x0; 0x0; 0x1; 0xcf;
  0xff; 0xff; 0xff; 0xff; 0xff; 0xff; 0xff; 0xff;
  0xff; 0xff; 0xff; 0xff; 0xff; 0xff; 0xff; 0xff;
  0xff; 0xff; 0xff; 0xff; 0xff; 0xff; 0xff; 0xff;
  0xff; 0xff; 0xff; 0xff; 0xff; 0xff; 0xff; 0xff;
  0xff; 0xff; 0xff; 0xfb; 0x10; 0x0; 0x0; 0x0;
  0x0; 0x0; 0x0; 0x0; 0x0; 0x0; 0x0; 0x0;
  0x1f; 0xff; 0xff; 0xff; 0xff; 0xff; 0xff; 0xff;
  0xff; 0xff; 0xf6; 0x0; 0x0; 0x0; 0x0; 0x9;
  0xff; 0xff; 0xff; 0xff; 0xff; 0xff; 0xff; 0xff;
  0xff; 0xff; 0xff; 0xff; 0xff; 0xff; 0xff; 0xff;
  0xff; 0xff; 0xff; 0xff; 0xff; 0xff; 0xff; 0xff;
  0xff; 0xff; 0xff; 0xff; 0xff; 0xff; 0xff; 0xff;
  0xff; 0xff; 0xff; 0x90; 0x0; 0x0; 0x0; 0x0;
  0x0; 0x0; 0x0; 0x0; 0x0; 0x0; 0x0; 0x0;
  0x1f; 0xff; 0xff; 0xff; 0xff; 0xff; 0xff; 0xff;
  0xff; 0xff; 0xf6; 0x0; 0x0; 0x0; 0x0; 0x0;
  0x5f; 0xff; 0xff; 0xff; 0xff; 0xff; 0xff; 0xff;
  0xff; 0xff; 0xff; 0xff; 0xff; 0xff; 0xff; 0xff;
  0xff; 0xff; 0xff; 0xff; 0xff; 0xff; 0xff; 0xff;
  0xff; 0xff; 0xff; 0xff; 0xff; 0xff; 0xff; 0xff;
  0xff; 0xff; 0xf5; 0x0; 0x0; 0x0; 0x0; 0x0;
  0x0; 0x0; 0x0; 0x0; 0x0; 0x0; 0x0; 0x0;
  0x1f; 0xff; 0xff; 0xff; 0xff; 0xff; 0xff; 0xff;
  0xff; 0xff; 0xf6; 0x0; 0x0; 0x0; 0x0; 0x0;
  0x2; 0xcf; 0xff; 0xff; 0xff; 0xff; 0xff; 0xff;
  0xff; 0xff; 0xff; 0xff; 0xff; 0xff; 0xff; 0xff;
  0xff; 0xff; 0xff; 0xff; 0xff; 0xff; 0xff; 0xff;
  0xff; 0xff; 0xff; 0xff; 0xff; 0xff; 0xff; 0xff;
  0xff; 0xfc; 0x20; 0x0; 0x0; 0x0; 0x0; 0x0;
  0x0; 0x0; 0x0; 0x0; 0x0; 0x0; 0x0; 0x0;
  0x1f; 0xff; 0xff; 0xff; 0xff; 0xff; 0xff; 0xff;
  0xff; 0xff; 0xf6; 0x0; 0x0; 0x0; 0x0; 0x0;
  0x0; 0x7; 0xff; 0xff; 0xff; 0xff; 0xff; 0xff;
  0xff; 0xff; 0xff; 0xff; 0xff; 0xff; 0xff; 0xff;
  0xff; 0xff; 0xff; 0xff; 0xff; 0xff; 0xff; 0xff;
  0xff; 0xff; 0xff; 0xff; 0xff; 0xff; 0xff; 0xff;
  0xff; 0x80; 0x0; 0x0; 0x0; 0x0; 0x0; 0x0;
  0x0; 0x0; 0x0; 0x0; 0x0; 0x0; 0x0; 0x0;
  0x1f; 0xff; 0xff; 0xff; 0xff; 0xff; 0xff; 0xff;
  0xff; 0xff; 0xf6; 0x0; 0x0; 0x0; 0x0; 0x0;
  0x0; 0x0; 0x1a; 0xff; 0xff; 0xff; 0xff; 0xff;
  0xff; 0xff; 0xff; 0xff; 0xff; 0xff; 0xff; 0xff;
  0xff; 0xff; 0xff; 0xff; 0xff; 0xff; 0xff; 0xff;
  0xff; 0xff; 0xff; 0xff; 0xff; 0xff; 0xff; 0xff;
  0xc3; 0x0; 0x0; 0x0; 0x0; 0x0; 0x0; 0x0;
  0x0; 0x0; 0x0; 0x0; 0x0; 0x0; 0x0; 0x0;
  0x1f; 0xff; 0xff; 0xff; 0xff; 0xff; 0xff; 0xff;
  0xff; 0xff; 0xf6; 0x0; 0x0; 0x0; 0x0; 0x0;
  0x0; 0x0; 0x0; 0x4d; 0xff; 0xff; 0xff; 0xff;
  0xff; 0xff; 0xff; 0xff; 0xff; 0xff; 0xff; 0xff;
  0xff; 0xff; 0xff; 0xff; 0xff; 0xff; 0xff; 0xff;
  0xff; 0xff; 0xff; 0xff; 0xff; 0xff; 0xff; 0xe6;
  0x0; 0x0; 0x0; 0x0; 0x0; 0x0; 0x0; 0x0;
  0x0; 0x0; 0x0; 0x0; 0x0; 0x0; 0x0; 0x0;
  0x1f; 0xff; 0xff; 0xff; 0xff; 0xff; 0xff; 0xff;
  0xff; 0xff; 0xf6; 0x0; 0x0; 0x0; 0x0; 0x0;
  0x0; 0x0; 0x0; 0x0; 0x5d; 0xff; 0xff; 0xff;
  0xff; 0xff; 0xff; 0xff; 0xff; 0xff; 0xff; 0xff;
  0xff; 0xff; 0xff; 0xff; 0xff; 0xff; 0xff; 0xff;
  0xff; 0xff; 0xff; 0xff; 0xff; 0xff; 0xf8; 0x0;
  0x0; 0x0; 0x0; 0x0; 0x0; 0x0; 0x0; 0x0;
  0x0; 0x0; 0x0; 0x0; 0x0; 0x0; 0x0; 0x0;
  0x1f; 0xff; 0xff; 0xff; 0xff; 0xff; 0xff; 0xff;
  0xff; 0xff; 0xf6; 0x0; 0x0; 0x0; 0x0; 0x0;
  0x0; 0x0; 0x0; 0x0; 0x0; 0x5d; 0xff; 0xff;
  0xff; 0xff; 0xff; 0xff; 0xff; 0xff; 0xff; 0xff;
  0xff; 0xff; 0xff; 0xff; 0xff; 0xff; 0xff; 0xff;
  0xff; 0xff; 0xff; 0xff; 0xff; 0xf8; 0x10; 0x0;
  0x0; 0x0; 0x0; 0x0; 0x0; 0x0; 0x0; 0x0;
  0x0; 0x0; 0x0; 0x0; 0x0; 0x0; 0x0; 0x0;
  0x1f; 0xff; 0xff; 0xff; 0xff; 0xff; 0xff; 0xff;
  0xff; 0xff; 0xf6; 0x0; 0x0; 0x0; 0x0; 0x0;
  0x0; 0x0; 0x0; 0x0; 0x0; 0x0; 0x4b; 0xff;
  0xff; 0xff; 0xff; 0xff; 0xff; 0xff; 0xff; 0xff ].

Definition quicksand256_bitmap_37 : list Z :=
  [ 0xff; 0xff; 0xff; 0xff; 0xff; 0xff; 0xff; 0xff;
  0xff; 0xff; 0xff; 0xff; 0xd7; 0x0; 0x0; 0x0;
  0x0; 0x0; 0x0; 0x0; 0x0; 0x0; 0x0; 0x0;
  0x0; 0x0; 0x0; 0x0; 0x0; 0x0; 0x0; 0x0;
  0x1f; 0xff; 0xff; 0xff; 0xff; 0xff; 0xff; 0xff;
  0xff; 0xff; 0xf6; 0x0; 0x0; 0x0; 0x0; 0x0;
  0x0; 0x0; 0x0; 0x0; 0x0; 0x0; 0x0; 0x18;
  0xdf; 0xff; 0xff; 0xff; 0xff; 0xff; 0xff; 0xff;
  0xff; 0xff; 0xff; 0xff; 0xff; 0xff; 0xff; 0xff;
  0xff; 0xff; 0xff; 0xa4; 0x0; 0x0; 0x0; 0x0;
  0x0; 0x0; 0x0; 0x0; 0x0; 0x0; 0x0; 0x0;
  0x0; 0x0; 0x0; 0x0; 0x0; 0x0; 0x0; 0x0;
  0x1f; 0xff; 0xff; 0xff; 0xff; 0xff; 0xff; 0xff;
  0xff; 0xff; 0xf6; 0x0; 0x0; 0x0; 0x0; 0x0;
  0x0; 0x0; 0x0; 0x0; 0x0; 0x0; 0x0; 0x0;
  0x3; 0x8d; 0xff; 0xff; 0xff; 0xff; 0xff; 0xff;
  0xff; 0xff; 0xff; 0xff; 0xff; 0xff; 0xff; 0xff;
  0xff; 0xe9; 0x50; 0x0; 0x0; 0x0; 0x0; 0x0;
  0x0; 0x0; 0x0; 0x0; 0x0; 0x0; 0x0; 0x0;
  0x0; 0x0; 0x0; 0x0; 0x0; 0x0; 0x0; 0x0;
  0x1f; 0xff; 0xff; 0xff; 0xff; 0xff; 0xff; 0xff;
  0xff; 0xff; 0xf6; 0x0; 0x0; 0x0; 0x0; 0x0;
  0x0; 0x0; 0x0; 0x0; 0x0; 0x0; 0x0; 0x0;
  0x0; 0x0; 0x26; 0xad; 0xff; 0xff; 0xff; 0xff;
  0xff; 0xff; 0xff; 0xff; 0xff; 0xff; 0xff; 0xda;
  0x62; 0x0; 0x0; 0x0; 0x0; 0x0; 0x0; 0x0;
  0x0; 0x0; 0x0; 0x0; 0x0; 0x0; 0x0; 0x0;
  0x0; 0x0; 0x0; 0x0; 0x0; 0x0; 0x0; 0x0;
  0x1f; 0xff; 0xff; 0xff; 0xff; 0xff; 0xff; 0xff;
  0xff; 0xff; 0xf6; 0x0; 0x0; 0x0; 0x0; 0x0;
  0x0; 0x0; 0x0; 0x0; 0x0; 0x0; 0x0; 0x0;
  0x0; 0x0; 0x0; 0x0; 0x3; 0x68; 0xab; 0xde;
  0xff; 0xff; 0xfe; 0xdc; 0xba; 0x85; 0x30; 0x0;
  0x0; 0x0; 0x0; 0x0; 0x0; 0x0; 0x0; 0x0;
  0x0; 0x0; 0x0; 0x0; 0x0; 0x0; 0x0; 0x0;
  0x0; 0x0; 0x0; 0x0; 0x0; 0x0; 0x0; 0x0;
  0x1f; 0xff; 0xff; 0xff; 0xff; 0xff; 0xff; 0xff;
  0xff; 0xff; 0xf6; 0x0; 0x0; 0x0; 0x0; 0x0;
  0x0; 0x0; 0x0; 0x0; 0x0; 0x0; 0x0; 0x0;
  0x0; 0x0; 0x0; 0x0; 0x0; 0x0; 0x0; 0x0;
  0x0; 0x0; 0x0; 0x0; 0x0; 0x0; 0x0; 0x0;
  0x0; 0x0; 0x0; 0x0; 0x0; 0x0; 0x0; 0x0;
  0x0; 0x0; 0x0; 0x0; 0x0; 0x0; 0x0; 0x0;
  0x0; 0x0; 0x0; 0x0; 0x0; 0x0; 0x0; 0x0;
  0x1f; 0xff; 0xff; 0xff; 0xff; 0xff; 0xff; 0xff;
  0xff; 0xff; 0xf6; 0x0; 0x0; 0x0; 0x0; 0x0;
  0x0; 0x0; 0x0; 0x0; 0x0; 0x0; 0x0; 0x0;
  0x0; 0x0; 0x0; 0x0; 0x0; 0x0; 0x0; 0x0;
  0x0; 0x0; 0x0; 0x0; 0x0; 0x0; 0x0; 0x0;
  0x0; 0x0; 0x0; 0x0; 0x0; 0x0; 0x0; 0x0;
  0x0; 0x0; 0x0; 0x0; 0x0; 0x0; 0x0; 0x0;
  0x0; 0x0; 0x0; 0x0; 0x0; 0x0; 0x0; 0x0;
  0x1f; 0xff; 0xff; 0xff; 0xff; 0xff; 0xff; 0xff;
  0xff; 0xff; 0xf6; 0x0; 0x0; 0x0; 0x0; 0x0;
  0x0; 0x0; 0x0; 0x0; 0x0; 0x0; 0x0; 0x0;
  0x0; 0x0; 0x0; 0x0; 0x0; 0x0; 0x0; 0x0;
  0x0; 0x0; 0x0; 0x0; 0x0; 0x0; 0x0; 0x0;
  0x0; 0x0; 0x0; 0x0; 0x0; 0x0; 0x0; 0x0;
  0x0; 0x0; 0x0; 0x0; 0x0; 0x0; 0x0; 0x0;
  0x0; 0x0; 0x0; 0x0; 0x0; 0x0; 0x0; 0x0;
  0x1f; 0xff; 0xff; 0xff; 0xff; 0xff; 0xff; 0xff;
  0xff; 0xff; 0xf6; 0x0; 0x0; 0x0; 0x0; 0x0;
  0x0; 0x0; 0x0; 0x0; 0x0; 0x0; 0x0; 0x0;
  0x0; 0x0; 0x0; 0x0; 0x0; 0x0; 0x0; 0x0;
  0x0; 0x0; 0x0; 0x0; 0x0; 0x0; 0x0; 0x0;
  0x0; 0x0; 0x0; 0x0; 0x0; 0x0; 0x0; 0x0;
  0x0; 0x0; 0x0; 0x0; 0x0; 0x0; 0x0; 0x0;
  0x0; 0x0; 0x0; 0x0; 0x0; 0x0; 0x0; 0x0;
  0x1f; 0xff; 0xff; 0xff; 0xff; 0xff; 0xff; 0xff;
  0xff; 0xff; 0xf6; 0x0; 0x0; 0x0; 0x0; 0x0;
  0x0; 0x0; 0x0; 0x0; 0x0; 0x0; 0x0; 0x0;
  0x0; 0x0; 0x0; 0x0; 0x0; 0x0; 0x0; 0x0;
  0x0; 0x0; 0x0; 0x0; 0x0; 0x0; 0x0; 0x0;
  0x0; 0x0; 0x0; 0x0; 0x0; 0x0; 0x0; 0x0;
  0x0; 0x0; 0x0; 0x0; 0x0; 0x0; 0x0; 0x0;
  0x0; 0x0; 0x0; 0x0; 0x0; 0x0; 0x0; 0x0;
  0x1f; 0xff; 0xff; 0xff; 0xff; 0xff; 0xff; 0xff;
  0xff; 0xff; 0xf6; 0x0; 0x0; 0x0; 0x0; 0x0;
  0x0; 0x0; 0x0; 0x0; 0x0; 0x0; 0x0; 0x0;
  0x0; 0x0; 0x0; 0x0; 0x0; 0x0; 0x0; 0x0;
  0x0; 0x0; 0x0; 0x0; 0x0; 0x0; 0x0; 0x0;
  0x0; 0x0; 0x0; 0x0; 0x0; 0x0; 0x0; 0x0;
  0x0; 0x0; 0x0; 0x0; 0x0; 0x0; 0x0; 0x0;
  0x0; 0x0; 0x0; 0x0; 0x0; 0x0; 0x0; 0x0;
  0x1f; 0xff; 0xff; 0xff; 0xff; 0xff; 0xff; 0xff;
  0xff; 0xff; 0xf6; 0x0; 0x0; 0x0; 0x0; 0x0;
  0x0; 0x0; 0x0; 0x0; 0x0; 0x0; 0x0; 0x0;
  0x0; 0x0; 0x0; 0x0; 0x0; 0x0; 0x0; 0x0;
  0x0; 0x0; 0x0; 0x0; 0x0; 0x0; 0x0; 0x0;
  0x0; 0x0; 0x0; 0x0; 0x0; 0x0; 0x0; 0x0;
  0x0; 0x0; 0x0; 0x0; 0x0; 0x0; 0x0; 0x0;
  0x0; 0x0; 0x0; 0x0; 0x0; 0x0; 0x0; 0x0;
  0x1f; 0xff; 0xff; 0xff; 0xff; 0xff; 0xff; 0xff;
  0xff; 0xff; 0xf6; 0x0; 0x0; 0x0; 0x0; 0x0;
  0x0; 0x0; 0x0; 0x0; 0x0; 0x0; 0x0; 0x0;
  0x0; 0x0; 0x0; 0x0; 0x0; 0x0; 0x0; 0x0;
  0x0; 0x0; 0x0; 0x0; 0x0; 0x0; 0x0; 0x0;
  0x0; 0x0; 0x0; 0x0; 0x0; 0x0; 0x0; 0x0;
  0x0; 0x0; 0x0; 0x0; 0x0; 0x0; 0x0; 0x0;
  0x0; 0x0; 0x0; 0x0; 0x0; 0x0; 0x0; 0x0;
  0x1f; 0xff; 0xff; 0xff; 0xff; 0xff; 0xff; 0xff;
  0xff; 0xff; 0xf6; 0x0; 0x0; 0x0; 0x0; 0x0;
  0x0; 0x0; 0x0; 0x0; 0x0; 0x0; 0x0; 0x0;
  0x0; 0x0; 0x0; 0x0; 0x0; 0x0; 0x0; 0x0;
  0x0; 0x0; 0x0; 0x0; 0x0; 0x0; 0x0; 0x0;
  0x0; 0x0; 0x0; 0x0; 0x0; 0x0; 0x0; 0x0;
  0x0; 0x0; 0x0; 0x0; 0x0; 0x0; 0x0; 0x0;
  0x0; 0x0; 0x0; 0x0; 0x0; 0x0; 0x0; 0x0;
  0x1f; 0xff; 0xff; 0xff; 0xff; 0xff; 0xff; 0xff;
  0xff; 0xff; 0xf6; 0x0; 0x0; 0x0; 0x0; 0x0;
  0x0; 0x0; 0x0; 0x0; 0x0; 0x0; 0x0; 0x0;
  0x0; 0x0; 0x0; 0x0; 0x0; 0x0; 0x0; 0x0;
  0x0; 0x0; 0x0; 0x0; 0x0; 0x0; 0x0; 0x0;
  0x0; 0x0; 0x0; 0x0; 0x0; 0x0; 0x0; 0x0;
  0x0; 0x0; 0x0; 0x0; 0x0; 0x0; 0x0; 0x0;
  0x0; 0x0; 0x0; 0x0; 0x0; 0x0; 0x0; 0x0;
  0x1f; 0xff; 0xff; 0xff; 0xff; 0xff; 0xff; 0xff;
  0xff; 0xff; 0xf6; 0x0; 0x0; 0x0; 0x0; 0x0;
  0x0; 0x0; 0x0; 0x0; 0x0; 0x0; 0x0; 0x0;
  0x0; 0x0; 0x0; 0x0; 0x0; 0x0; 0x0; 0x0;
  0x0; 0x0; 0x0; 0x0; 0x0; 0x0; 0x0; 0x0;
  0x0; 0x0; 0x0; 0x0; 0x0; 0x0; 0x0; 0x0;
  0x0; 0x0; 0x0; 0x0; 0x0; 0x0; 0x0; 0x0;
  0x0; 0x0; 0x0; 0x0; 0x0; 0x0; 0x0; 0x0;
  0x1f; 0xff; 0xff; 0xff; 0xff; 0xff; 0xff; 0xff;
  0xff; 0xff; 0xf6; 0x0; 0x0; 0x0; 0x0; 0x0;
  0x0; 0x0; 0x0; 0x0; 0x0; 0x0; 0x0; 0x0;
  0x0; 0x0; 0x0; 0x0; 0x0; 0x0; 0x0; 0x0;
  0x0; 0x0; 0x0; 0x0; 0x0; 0x0; 0x0; 0x0;
  0x0; 0x0; 0x0; 0x0; 0x0; 0x0; 0x0; 0x0;
  0x0; 0x0; 0x0; 0x0; 0x0; 0x0; 0x0; 0x0;
  0x0; 0x0; 0x0; 0x0; 0x0; 0x0; 0x0; 0x0;
  0x1f; 0xff; 0xff; 0xff; 0xff; 0xff; 0xff; 0xff;
  0xff; 0xff; 0xf6; 0x0; 0x0; 0x0; 0x0; 0x0;
  0x0; 0x0; 0x0; 0x0; 0x0; 0x0; 0x0; 0x0;
  0x0; 0x0; 0x0; 0x0; 0x0; 0x0; 0x0; 0x0;
  0x0; 0x0; 0x0; 0x0; 0x0; 0x0; 0x0; 0x0;
  0x0; 0x0; 0x0; 0x0; 0x0; 0x0; 0x0; 0x0;
  0x0; 0x0; 0x0; 0x0; 0x0; 0x0; 0x0; 0x0;
  0x0; 0x0; 0x0; 0x0; 0x0; 0x0; 0x0; 0x0;
  0x1f; 0xff; 0xff; 0xff; 0xff; 0xff; 0xff; 0xff;
  0xff; 0xff; 0xf6; 0x0; 0x0; 0x0; 0x0; 0x0;
  0x0; 0x0; 0x0; 0x0; 0x0; 0x0; 0x0; 0x0;
  0x0; 0x0; 0x0; 0x0; 0x0; 0x0; 0x0; 0x0;
  0x0; 0x0; 0x0; 0x0; 0x0; 0x0; 0x0; 0x0;
  0x0; 0x0; 0x0; 0x0; 0x0; 0x0; 0x0; 0x0;
  0x0; 0x0; 0x0; 0x0; 0x0; 0x0; 0x0; 0x0;
  0x0; 0x0; 0x0; 0x0; 0x0; 0x0; 0x0; 0x0;
  0x1f; 0xff; 0xff; 0xff; 0xff; 0xff; 0xff; 0xff;
  0xff; 0xff; 0xf6; 0x0; 0x0; 0x0; 0x0; 0x0 ].

Definition quicksand256_bitmap_38 : list Z :=
  [ 0x0; 0x0; 0x0; 0x0; 0x0; 0x0; 0x0; 0x0;
  0x0; 0x0; 0x0; 0x0; 0x0; 0x0; 0x0; 0x0;
  0x0; 0x0; 0x0; 0x0; 0x0; 0x0; 0x0; 0x0;
  0x0; 0x0; 0x0; 0x0; 0x0; 0x0; 0x0; 0x0;
  0x0; 0x0; 0x0; 0x0; 0x0; 0x0; 0x0; 0x0;
  0x0; 0x0; 0x0; 0x0; 0x0; 0x0; 0x0; 0x0;
  0x1f; 0xff; 0xff; 0xff; 0xff; 0xff; 0xff; 0xff;
  0xff; 0xff; 0xf6; 0x0; 0x0; 0x0; 0x0; 0x0;
  0x0; 0x0; 0x0; 0x0; 0x0; 0x0; 0x0; 0x0;
  0x0; 0x0; 0x0; 0x0; 0x0; 0x0; 0x0; 0x0;
  0x0; 0x0; 0x0; 0x0; 0x0; 0x0; 0x0; 0x0;
  0x0; 0x0; 0x0; 0x0; 0x0; 0x0; 0x0; 0x0;
  0x0; 0x0; 0x0; 0x0; 0x0; 0x0; 0x0; 0x0;
  0x0; 0x0; 0x0; 0x0; 0x0; 0x0; 0x0; 0x0;
  0x1f; 0xff; 0xff; 0xff; 0xff; 0xff; 0xff; 0xff;
  0xff; 0xff; 0xf6; 0x0; 0x0; 0x0; 0x0; 0x0;
  0x0; 0x0; 0x0; 0x0; 0x0; 0x0; 0x0; 0x0;
  0x0; 0x0; 0x0; 0x0; 0x0; 0x0; 0x0; 0x0;
  0x0; 0x0; 0x0; 0x0; 0x0; 0x0; 0x0; 0x0;
  0x0; 0x0; 0x0; 0x0; 0x0; 0x0; 0x0; 0x0;
  0x0; 0x0; 0x0; 0x0; 0x0; 0x0; 0x0; 0x0;
  0x0; 0x0; 0x0; 0x0; 0x0; 0x0; 0x0; 0x0;
  0x1f; 0xff; 0xff; 0xff; 0xff; 0xff; 0xff; 0xff;
  0xff; 0xff; 0xf6; 0x0; 0x0; 0x0; 0x0; 0x0;
  0x0; 0x0; 0x0; 0x0; 0x0; 0x0; 0x0; 0x0;
  0x0; 0x0; 0x0; 0x0; 0x0; 0x0; 0x0; 0x0;
  0x0; 0x0; 0x0; 0x0; 0x0; 0x0; 0x0; 0x0;
  0x0; 0x0; 0x0; 0x0; 0x0; 0x0; 0x0; 0x0;
  0x0; 0x0; 0x0; 0x0; 0x0; 0x0; 0x0; 0x0;
  0x0; 0x0; 0x0; 0x0; 0x0; 0x0; 0x0; 0x0;
  0x1f; 0xff; 0xff; 0xff; 0xff; 0xff; 0xff; 0xff;
  0xff; 0xff; 0xf6; 0x0; 0x0; 0x0; 0x0; 0x0;
  0x0; 0x0; 0x0; 0x0; 0x0; 0x0; 0x0; 0x0;
  0x0; 0x0; 0x0; 0x0; 0x0; 0x0; 0x0; 0x0;
  0x0; 0x0; 0x0; 0x0; 0x0; 0x0; 0x0; 0x0;
  0x0; 0x0; 0x0; 0x0; 0x0; 0x0; 0x0; 0x0;
  0x0; 0x0; 0x0; 0x0; 0x0; 0x0; 0x0; 0x0;
  0x0; 0x0; 0x0; 0x0; 0x0; 0x0; 0x0; 0x0;
  0x1f; 0xff; 0xff; 0xff; 0xff; 0xff; 0xff; 0xff;
  0xff; 0xff; 0xf6; 0x0; 0x0; 0x0; 0x0; 0x0;
  0x0; 0x0; 0x0; 0x0; 0x0; 0x0; 0x0; 0x0;
  0x0; 0x0; 0x0; 0x0; 0x0; 0x0; 0x0; 0x0;
  0x0; 0x0; 0x0; 0x0; 0x0; 0x0; 0x0; 0x0;
  0x0; 0x0; 0x0; 0x0; 0x0; 0x0; 0x0; 0x0;
  0x0; 0x0; 0x0; 0x0; 0x0; 0x0; 0x0; 0x0;
  0x0; 0x0; 0x0; 0x0; 0x0; 0x0; 0x0; 0x0;
  0x1f; 0xff; 0xff; 0xff; 0xff; 0xff; 0xff; 0xff;
  0xff; 0xff; 0xf6; 0x0; 0x0; 0x0; 0x0; 0x0;
  0x0; 0x0; 0x0; 0x0; 0x0; 0x0; 0x0; 0x0;
  0x0; 0x0; 0x0; 0x0; 0x0; 0x0; 0x0; 0x0;
  0x0; 0x0; 0x0; 0x0; 0x0; 0x0; 0x0; 0x0;
  0x0; 0x0; 0x0; 0x0; 0x0; 0x0; 0x0; 0x0;
  0x0; 0x0; 0x0; 0x0; 0x0; 0x0; 0x0; 0x0;
  0x0; 0x0; 0x0; 0x0; 0x0; 0x0; 0x0; 0x0;
  0x1f; 0xff; 0xff; 0xff; 0xff; 0xff; 0xff; 0xff;
  0xff; 0xff; 0xf6; 0x0; 0x0; 0x0; 0x0; 0x0;
  0x0; 0x0; 0x0; 0x0; 0x0; 0x0; 0x0; 0x0;
  0x0; 0x0; 0x0; 0x0; 0x0; 0x0; 0x0; 0x0;
  0x0; 0x0; 0x0; 0x0; 0x0; 0x0; 0x0; 0x0;
  0x0; 0x0; 0x0; 0x0; 0x0; 0x0; 0x0; 0x0;
  0x0; 0x0; 0x0; 0x0; 0x0; 0x0; 0x0; 0x0;
  0x0; 0x0; 0x0; 0x0; 0x0; 0x0; 0x0; 0x0;
  0x1f; 0xff; 0xff; 0xff; 0xff; 0xff; 0xff; 0xff;
  0xff; 0xff; 0xf6; 0x0; 0x0; 0x0; 0x0; 0x0;
  0x0; 0x0; 0x0; 0x0; 0x0; 0x0; 0x0; 0x0;
  0x0; 0x0; 0x0; 0x0; 0x0; 0x0; 0x0; 0x0;
  0x0; 0x0; 0x0; 0x0; 0x0; 0x0; 0x0; 0x0;
  0x0; 0x0; 0x0; 0x0; 0x0; 0x0; 0x0; 0x0;
  0x0; 0x0; 0x0; 0x0; 0x0; 0x0; 0x0; 0x0;
  0x0; 0x0; 0x0; 0x0; 0x0; 0x0; 0x0; 0x0;
  0x1f; 0xff; 0xff; 0xff; 0xff; 0xff; 0xff; 0xff;
  0xff; 0xff; 0xf6; 0x0; 0x0; 0x0; 0x0; 0x0;
  0x0; 0x0; 0x0; 0x0; 0x0; 0x0; 0x0; 0x0;
  0x0; 0x0; 0x0; 0x0; 0x0; 0x0; 0x0; 0x0;
  0x0; 0x0; 0x0; 0x0; 0x0; 0x0; 0x0; 0x0;
  0x0; 0x0; 0x0; 0x0; 0x0; 0x0; 0x0; 0x0;
  0x0; 0x0; 0x0; 0x0; 0x0; 0x0; 0x0; 0x0;
  0x0; 0x0; 0x0; 0x0; 0x0; 0x0; 0x0; 0x0;
  0x1f; 0xff; 0xff; 0xff; 0xff; 0xff; 0xff; 0xff;
  0xff; 0xff; 0xf6; 0x0; 0x0; 0x0; 0x0; 0x0;
  0x0; 0x0; 0x0; 0x0; 0x0; 0x0; 0x0; 0x0;
  0x0; 0x0; 0x0; 0x0; 0x0; 0x0; 0x0; 0x0;
  0x0; 0x0; 0x0; 0x0; 0x0; 0x0; 0x0; 0x0;
  0x0; 0x0; 0x0; 0x0; 0x0; 0x0; 0x0; 0x0;
  0x0; 0x0; 0x0; 0x0; 0x0; 0x0; 0x0; 0x0;
  0x0; 0x0; 0x0; 0x0; 0x0; 0x0; 0x0; 0x0;
  0x1f; 0xff; 0xff; 0xff; 0xff; 0xff; 0xff; 0xff;
  0xff; 0xff; 0xf6; 0x0; 0x0; 0x0; 0x0; 0x0;
  0x0; 0x0; 0x0; 0x0; 0x0; 0x0; 0x0; 0x0;
  0x0; 0x0; 0x0; 0x0; 0x0; 0x0; 0x0; 0x0;
  0x0; 0x0; 0x0; 0x0; 0x0; 0x0; 0x0; 0x0;
  0x0; 0x0; 0x0; 0x0; 0x0; 0x0; 0x0; 0x0;
  0x0; 0x0; 0x0; 0x0; 0x0; 0x0; 0x0; 0x0;
  0x0; 0x0; 0x0; 0x0; 0x0; 0x0; 0x0; 0x0;
  0x1f; 0xff; 0xff; 0xff; 0xff; 0xff; 0xff; 0xff;
  0xff; 0xff; 0xf6; 0x0; 0x0; 0x0; 0x0; 0x0;
  0x0; 0x0; 0x0; 0x0; 0x0; 0x0; 0x0; 0x0;
  0x0; 0x0; 0x0; 0x0; 0x0; 0x0; 0x0; 0x0;
  0x0; 0x0; 0x0; 0x0; 0x0; 0x0; 0x0; 0x0;
  0x0; 0x0; 0x0; 0x0; 0x0; 0x0; 0x0; 0x0;
  0x0; 0x0; 0x0; 0x0; 0x0; 0x0; 0x0; 0x0;
  0x0; 0x0; 0x0; 0x0; 0x0; 0x0; 0x0; 0x0;
  0x1f; 0xff; 0xff; 0xff; 0xff; 0xff; 0xff; 0xff;
  0xff; 0xff; 0xf6; 0x0; 0x0; 0x0; 0x0; 0x0;
  0x0; 0x0; 0x0; 0x0; 0x0; 0x0; 0x0; 0x0;
  0x0; 0x0; 0x0; 0x0; 0x0; 0x0; 0x0; 0x0;
  0x0; 0x0; 0x0; 0x0; 0x0; 0x0; 0x0; 0x0;
  0x0; 0x0; 0x0; 0x0; 0x0; 0x0; 0x0; 0x0;
  0x0; 0x0; 0x0; 0x0; 0x0; 0x0; 0x0; 0x0;
  0x0; 0x0; 0x0; 0x0; 0x0; 0x0; 0x0; 0x0;
  0x1f; 0xff; 0xff; 0xff; 0xff; 0xff; 0xff; 0xff;
  0xff; 0xff; 0xf6; 0x0; 0x0; 0x0; 0x0; 0x0;
  0x0; 0x0; 0x0; 0x0; 0x0; 0x0; 0x0; 0x0;
  0x0; 0x0; 0x0; 0x0; 0x0; 0x0; 0x0; 0x0;
  0x0; 0x0; 0x0; 0x0; 0x0; 0x0; 0x0; 0x0;
  0x0; 0x0; 0x0; 0x0; 0x0; 0x0; 0x0; 0x0;
  0x0; 0x0; 0x0; 0x0; 0x0; 0x0; 0x0; 0x0;
  0x0; 0x0; 0x0; 0x0; 0x0; 0x0; 0x0; 0x0;
  0x1f; 0xff; 0xff; 0xff; 0xff; 0xff; 0xff; 0xff;
  0xff; 0xff; 0xf6; 0x0; 0x0; 0x0; 0x0; 0x0;
  0x0; 0x0; 0x0; 0x0; 0x0; 0x0; 0x0; 0x0;
  0x0; 0x0; 0x0; 0x0; 0x0; 0x0; 0x0; 0x0;
  0x0; 0x0; 0x0; 0x0; 0x0; 0x0; 0x0; 0x0;
  0x0; 0x0; 0x0; 0x0; 0x0; 0x0; 0x0; 0x0;
  0x0; 0x0; 0x0; 0x0; 0x0; 0x0; 0x0; 0x0;
  0x0; 0x0; 0x0; 0x0; 0x0; 0x0; 0x0; 0x0;
  0x1f; 0xff; 0xff; 0xff; 0xff; 0xff; 0xff; 0xff;
  0xff; 0xff; 0xf6; 0x0; 0x0; 0x0; 0x0; 0x0;
  0x0; 0x0; 0x0; 0x0; 0x0; 0x0; 0x0; 0x0;
  0x0; 0x0; 0x0; 0x0; 0x0; 0x0; 0x0; 0x0;
  0x0; 0x0; 0x0; 0x0; 0x0; 0x0; 0x0; 0x0;
  0x0; 0x0; 0x0; 0x0; 0x0; 0x0; 0x0; 0x0;
  0x0; 0x0; 0x0; 0x0; 0x0; 0x0; 0x0; 0x0;
  0x0; 0x0; 0x0; 0x0; 0x0; 0x0; 0x0; 0x0;
  0x1f; 0xff; 0xff; 0xff; 0xff; 0xff; 0xff; 0xff;
  0xff; 0xff; 0xf6; 0x0; 0x0; 0x0; 0x0; 0x0;
  0x0; 0x0; 0x0; 0x0; 0x0; 0x0; 0x0; 0x0;
  0x0; 0x0; 0x0; 0x0; 0x0; 0x0; 0x0; 0x0;
  0x0; 0x0; 0x0; 0x0; 0x0; 0x0; 0x0; 0x0;
  0x0; 0x0; 0x0; 0x0; 0x0; 0x0; 0x0; 0x0;
  0x0; 0x0; 0x0; 0x0; 0x0; 0x0; 0x0; 0x0;
  0x0; 0x0; 0x0; 0x0; 0x0; 0x0; 0x0; 0x0;
  0x1f; 0xff; 0xff; 0xff; 0xff; 0xff; 0xff; 0xff;
  0xff; 0xff; 0xf6; 0x0; 0x0; 0x0; 0x0; 0x0;
  0x0; 0x0; 0x0; 0x0; 0x0; 0x0; 0x0; 0x0;
  0x0; 0x0; 0x0; 0x0; 0x0; 0x0; 0x0; 0x0;
  0x0; 0x0; 0x0; 0x0; 0x0; 0x0; 0x0; 0x0;
  0x0; 0x0; 0x0; 0x0; 0x0; 0x0; 0x0; 0x0;
  0x0; 0x0; 0x0; 0x0; 0x0; 0x0; 0x0; 0x0;
  0x0; 0x0; 0x0; 0x0; 0x0; 0x0; 0x0; 0x0 ].

Definition quicksand256_bitmap_39 : list Z :=
  [ 0x1f; 0xff; 0xff; 0xff; 0xff; 0xff; 0xff; 0xff;
  0xff; 0xff; 0xf6; 0x0; 0x0; 0x0; 0x0; 0x0;
  0x0; 0x0; 0x0; 0x0; 0x0; 0x0; 0x0; 0x0;
  0x0; 0x0; 0x0; 0x0; 0x0; 0x0; 0x0; 0x0;
  0x0; 0x0; 0x0; 0x0; 0x0; 0x0; 0x0; 0x0;
  0x0; 0x0; 0x0; 0x0; 0x0; 0x0; 0x0; 0x0;
  0x0; 0x0; 0x0; 0x0; 0x0; 0x0; 0x0; 0x0;
  0x0; 0x0; 0x0; 0x0; 0x0; 0x0; 0x0; 0x0;
  0x1f; 0xff; 0xff; 0xff; 0xff; 0xff; 0xff; 0xff;
  0xff; 0xff; 0xf6; 0x0; 0x0; 0x0; 0x0; 0x0;
  0x0; 0x0; 0x0; 0x0; 0x0; 0x0; 0x0; 0x0;
  0x0; 0x0; 0x0; 0x0; 0x0; 0x0; 0x0; 0x0;
  0x0; 0x0; 0x0; 0x0; 0x0; 0x0; 0x0; 0x0;
  0x0; 0x0; 0x0; 0x0; 0x0; 0x0; 0x0; 0x0;
  0x0; 0x0; 0x0; 0x0; 0x0; 0x0; 0x0; 0x0;
  0x0; 0x0; 0x0; 0x0; 0x0; 0x0; 0x0; 0x0;
  0x1f; 0xff; 0xff; 0xff; 0xff; 0xff; 0xff; 0xff;
  0xff; 0xff; 0xf6; 0x0; 0x0; 0x0; 0x0; 0x0;
  0x0; 0x0; 0x0; 0x0; 0x0; 0x0; 0x0; 0x0;
  0x0; 0x0; 0x0; 0x0; 0x0; 0x0; 0x0; 0x0;
  0x0; 0x0; 0x0; 0x0; 0x0; 0x0; 0x0; 0x0;
  0x0; 0x0; 0x0; 0x0; 0x0; 0x0; 0x0; 0x0;
  0x0; 0x0; 0x0; 0x0; 0x0; 0x0; 0x0; 0x0;
  0x0; 0x0; 0x0; 0x0; 0x0; 0x0; 0x0; 0x0;
  0x1f; 0xff; 0xff; 0xff; 0xff; 0xff; 0xff; 0xff;
  0xff; 0xff; 0xf6; 0x0; 0x0; 0x0; 0x0; 0x0;
  0x0; 0x0; 0x0; 0x0; 0x0; 0x0; 0x0; 0x0;
  0x0; 0x0; 0x0; 0x0; 0x0; 0x0; 0x0; 0x0;
  0x0; 0x0; 0x0; 0x0; 0x0; 0x0; 0x0; 0x0;
  0x0; 0x0; 0x0; 0x0; 0x0; 0x0; 0x0; 0x0;
  0x0; 0x0; 0x0; 0x0; 0x0; 0x0; 0x0; 0x0;
  0x0; 0x0; 0x0; 0x0; 0x0; 0x0; 0x0; 0x0;
  0x1f; 0xff; 0xff; 0xff; 0xff; 0xff; 0xff; 0xff;
  0xff; 0xff; 0xf6; 0x0; 0x0; 0x0; 0x0; 0x0;
  0x0; 0x0; 0x0; 0x0; 0x0; 0x0; 0x0; 0x0;
  0x0; 0x0; 0x0; 0x0; 0x0; 0x0; 0x0; 0x0;
  0x0; 0x0; 0x0; 0x0; 0x0; 0x0; 0x0; 0x0;
  0x0; 0x0; 0x0; 0x0; 0x0; 0x0; 0x0; 0x0;
  0x0; 0x0; 0x0; 0x0; 0x0; 0x0; 0x0; 0x0;
  0x0; 0x0; 0x0; 0x0; 0x0; 0x0; 0x0; 0x0;
  0xf; 0xff; 0xff; 0xff; 0xff; 0xff; 0xff; 0xff;
  0xff; 0xff; 0xf6; 0x0; 0x0; 0x0; 0x0; 0x0;
  0x0; 0x0; 0x0; 0x0; 0x0; 0x0; 0x0; 0x0;
  0x0; 0x0; 0x0; 0x0; 0x0; 0x0; 0x0; 0x0;
  0x0; 0x0; 0x0; 0x0; 0x0; 0x0; 0x0; 0x0;
  0x0; 0x0; 0x0; 0x0; 0x0; 0x0; 0x0; 0x0;
  0x0; 0x0; 0x0; 0x0; 0x0; 0x0; 0x0; 0x0;
  0x0; 0x0; 0x0; 0x0; 0x0; 0x0; 0x0; 0x0;
  0xf; 0xff; 0xff; 0xff; 0xff; 0xff; 0xff; 0xff;
  0xff; 0xff; 0xf6; 0x0; 0x0; 0x0; 0x0; 0x0;
  0x0; 0x0; 0x0; 0x0; 0x0; 0x0; 0x0; 0x0;
  0x0; 0x0; 0x0; 0x0; 0x0; 0x0; 0x0; 0x0;
  0x0; 0x0; 0x0; 0x0; 0x0; 0x0; 0x0; 0x0;
  0x0; 0x0; 0x0; 0x0; 0x0; 0x0; 0x0; 0x0;
  0x0; 0x0; 0x0; 0x0; 0x0; 0x0; 0x0; 0x0;
  0x0; 0x0; 0x0; 0x0; 0x0; 0x0; 0x0; 0x0;
  0xe; 0xff; 0xff; 0xff; 0xff; 0xff; 0xff; 0xff;
  0xff; 0xff; 0xf4; 0x0; 0x0; 0x0; 0x0; 0x0;
  0x0; 0x0; 0x0; 0x0; 0x0; 0x0; 0x0; 0x0;
  0x0; 0x0; 0x0; 0x0; 0x0; 0x0; 0x0; 0x0;
  0x0; 0x0; 0x0; 0x0; 0x0; 0x0; 0x0; 0x0;
  0x0; 0x0; 0x0; 0x0; 0x0; 0x0; 0x0; 0x0;
  0x0; 0x0; 0x0; 0x0; 0x0; 0x0; 0x0; 0x0;
  0x0; 0x0; 0x0; 0x0; 0x0; 0x0; 0x0; 0x0;
  0xb; 0xff; 0xff; 0xff; 0xff; 0xff; 0xff; 0xff;
  0xff; 0xff; 0xf0; 0x0; 0x0; 0x0; 0x0; 0x0;
  0x0; 0x0; 0x0; 0x0; 0x0; 0x0; 0x0; 0x0;
  0x0; 0x0; 0x0; 0x0; 0x0; 0x0; 0x0; 0x0;
  0x0; 0x0; 0x0; 0x0; 0x0; 0x0; 0x0; 0x0;
  0x0; 0x0; 0x0; 0x0; 0x0; 0x0; 0x0; 0x0;
  0x0; 0x0; 0x0; 0x0; 0x0; 0x0; 0x0; 0x0;
  0x0; 0x0; 0x0; 0x0; 0x0; 0x0; 0x0; 0x0;
  0x6; 0xff; 0xff; 0xff; 0xff; 0xff; 0xff; 0xff;
  0xff; 0xff; 0xb0; 0x0; 0x0; 0x0; 0x0; 0x0;
  0x0; 0x0; 0x0; 0x0; 0x0; 0x0; 0x0; 0x0;
  0x0; 0x0; 0x0; 0x0; 0x0; 0x0; 0x0; 0x0;
  0x0; 0x0; 0x0; 0x0; 0x0; 0x0; 0x0; 0x0;
  0x0; 0x0; 0x0; 0x0; 0x0; 0x0; 0x0; 0x0;
  0x0; 0x0; 0x0; 0x0; 0x0; 0x0; 0x0; 0x0;
  0x0; 0x0; 0x0; 0x0; 0x0; 0x0; 0x0; 0x0;
  0x0; 0xef; 0xff; 0xff; 0xff; 0xff; 0xff; 0xff;
  0xff; 0xff; 0x40; 0x0; 0x0; 0x0; 0x0; 0x0;
  0x0; 0x0; 0x0; 0x0; 0x0; 0x0; 0x0; 0x0;
  0x0; 0x0; 0x0; 0x0; 0x0; 0x0; 0x0; 0x0;
  0x0; 0x0; 0x0; 0x0; 0x0; 0x0; 0x0; 0x0;
  0x0; 0x0; 0x0; 0x0; 0x0; 0x0; 0x0; 0x0;
  0x0; 0x0; 0x0; 0x0; 0x0; 0x0; 0x0; 0x0;
  0x0; 0x0; 0x0; 0x0; 0x0; 0x0; 0x0; 0x0;
  0x0; 0x5f; 0xff; 0xff; 0xff; 0xff; 0xff; 0xff;
  0xff; 0xfb; 0x0; 0x0; 0x0; 0x0; 0x0; 0x0;
  0x0; 0x0; 0x0; 0x0; 0x0; 0x0; 0x0; 0x0;
  0x0; 0x0; 0x0; 0x0; 0x0; 0x0; 0x0; 0x0;
  0x0; 0x0; 0x0; 0x0; 0x0; 0x0; 0x0; 0x0;
  0x0; 0x0; 0x0; 0x0; 0x0; 0x0; 0x0; 0x0;
  0x0; 0x0; 0x0; 0x0; 0x0; 0x0; 0x0; 0x0;
  0x0; 0x0; 0x0; 0x0; 0x0; 0x0; 0x0; 0x0;
  0x0; 0x9; 0xff; 0xff; 0xff; 0xff; 0xff; 0xff;
  0xff; 0xe1; 0x0; 0x0; 0x0; 0x0; 0x0; 0x0;
  0x0; 0x0; 0x0; 0x0; 0x0; 0x0; 0x0; 0x0;
  0x0; 0x0; 0x0; 0x0; 0x0; 0x0; 0x0; 0x0;
  0x0; 0x0; 0x0; 0x0; 0x0; 0x0; 0x0; 0x0;
  0x0; 0x0; 0x0; 0x0; 0x0; 0x0; 0x0; 0x0;
  0x0; 0x0; 0x0; 0x0; 0x0; 0x0; 0x0; 0x0;
  0x0; 0x0; 0x0; 0x0; 0x0; 0x0; 0x0; 0x0;
  0x0; 0x0; 0x9f; 0xff; 0xff; 0xff; 0xff; 0xff;
  0xfd; 0x20; 0x0; 0x0; 0x0; 0x0; 0x0; 0x0;
  0x0; 0x0; 0x0; 0x0; 0x0; 0x0; 0x0; 0x0;
  0x0; 0x0; 0x0; 0x0; 0x0; 0x0; 0x0; 0x0;
  0x0; 0x0; 0x0; 0x0; 0x0; 0x0; 0x0; 0x0;
  0x0; 0x0; 0x0; 0x0; 0x0; 0x0; 0x0; 0x0;
  0x0; 0x0; 0x0; 0x0; 0x0; 0x0; 0x0; 0x0;
  0x0; 0x0; 0x0; 0x0; 0x0; 0x0; 0x0; 0x0;
  0x0; 0x0; 0x5; 0xef; 0xff; 0xff; 0xff; 0xff;
  0xa1; 0x0; 0x0; 0x0; 0x0; 0x0; 0x0; 0x0;
  0x0; 0x0; 0x0; 0x0; 0x0; 0x0; 0x0; 0x0;
  0x0; 0x0; 0x0; 0x0; 0x0; 0x0; 0x0; 0x0;
  0x0; 0x0; 0x0; 0x0; 0x0; 0x0; 0x0; 0x0;
  0x0; 0x0; 0x0; 0x0; 0x0; 0x0; 0x0; 0x0;
  0x0; 0x0; 0x0; 0x0; 0x0; 0x0; 0x0; 0x0;
  0x0; 0x0; 0x0; 0x0; 0x0; 0x0; 0x0; 0x0;
  0x0; 0x0; 0x0; 0x6; 0xad; 0xff; 0xec; 0x82;
  0x0; 0x0; 0x0; 0x0; 0x0; 0x0; 0x0; 0x0;
  0x0; 0x0; 0x0; 0x0; 0x0; 0x0; 0x0; 0x0;
  0x0; 0x0; 0x0; 0x0; 0x0; 0x0; 0x0; 0x0;
  0x0; 0x0; 0x0; 0x0; 0x0; 0x0; 0x0; 0x0;
  0x0; 0x0; 0x0; 0x0; 0x0; 0x0; 0x0; 0x0;
  0x0; 0x0; 0x0; 0x0; 0x0; 0x0; 0x0; 0x0;
  0x0; 0x0; 0x0; 0x0; 0x0; 0x0; 0x0; 0x0;
  0x0; 0x0; 0x0; 0x0; 0x0; 0x0; 0x0; 0x0;
  0x0; 0x0; 0x0; 0x0; 0x0; 0x0; 0x0; 0x0;
  0x0; 0x0; 0x0; 0x0; 0x0; 0x0; 0x0; 0x0;
  0x0; 0x0; 0x0; 0x0; 0x25; 0x7a; 0xbd; 0xef;
  0xff; 0xfe; 0xc9; 0x62; 0x0; 0x0; 0x0; 0x0;
  0x0; 0x0; 0x0; 0x0; 0x0; 0x0; 0x0; 0x0;
  0x0; 0x0; 0x0; 0x0; 0x0; 0x0; 0x0; 0x0;
  0x0; 0x0; 0x0; 0x0; 0x0; 0x0; 0x0; 0x0;
  0x0; 0x0; 0x2; 0x7b; 0xef; 0xff; 0xff; 0xff;
  0xff; 0xff; 0xff; 0xff; 0xfd; 0x70; 0x0; 0x0;
  0x0; 0x0; 0x0; 0x0; 0x0; 0x0; 0x0; 0x0;
  0x0; 0x0; 0x0; 0x0; 0x0; 0x0; 0x0; 0x0;
  0x0; 0x0; 0x0; 0x0; 0x0; 0x0; 0x0; 0x0;
  0x0; 0x2; 0x8d; 0xff; 0xff; 0xff; 0xff; 0xff;
  0xff; 0xff; 0xff; 0xff; 0xff; 0xff; 0xf7; 0x0;
  0x0; 0x0; 0x0; 0x0; 0x0; 0x5; 0x8a; 0xa9;
  0x73; 0x0; 0x0; 0x0; 0x0; 0x0; 0x0; 0x0;
  0x0; 0x0; 0x0; 0x0; 0x0; 0x0; 0x0; 0x0;
  0x0; 0x4b; 0xff; 0xff; 0xff; 0xff; 0xff; 0xff;
  0xff; 0xff; 0xff; 0xff; 0xff; 0xff; 0xff; 0xfd ].

Definition quicksand256_bitmap_40 : list Z :=
  [ 0x30; 0x0; 0x0; 0x0; 0x1; 0x9f; 0xff; 0xff;
  0xff; 0xfd; 0x50; 0x0; 0x0; 0x0; 0x0; 0x0;
  0x0; 0x0; 0x0; 0x0; 0x0; 0x0; 0x0; 0x0;
  0x5; 0xdf; 0xff; 0xff; 0xff; 0xff; 0xff; 0xff;
  0xff; 0xff; 0xff; 0xff; 0xff; 0xff; 0xff; 0xff;
  0xff; 0x40; 0x0; 0x0; 0x4; 0xef; 0xff; 0xff;
  0xff; 0xff; 0xff; 0xa0; 0x0; 0x0; 0x0; 0x0;
  0x0; 0x0; 0x0; 0x0; 0x0; 0x0; 0x0; 0x0;
  0x3c; 0xff; 0xff; 0xff; 0xff; 0xff; 0xff; 0xff;
  0xff; 0xff; 0xff; 0xff; 0xff; 0xff; 0xff; 0xff;
  0xff; 0xff; 0x20; 0x0; 0x5; 0xff; 0xff; 0xff;
  0xff; 0xff; 0xff; 0xff; 0xb0; 0x0; 0x0; 0x0;
  0x0; 0x0; 0x0; 0x0; 0x0; 0x0; 0x0; 0x1;
  0xaf; 0xff; 0xff; 0xff; 0xff; 0xff; 0xff; 0xff;
  0xff; 0xff; 0xff; 0xff; 0xff; 0xff; 0xff; 0xff;
  0xff; 0xff; 0xfa; 0x0; 0x2; 0xff; 0xff; 0xff;
  0xff; 0xff; 0xff; 0xff; 0xff; 0x90; 0x0; 0x0;
  0x0; 0x0; 0x0; 0x0; 0x0; 0x0; 0x0; 0x5;
  0xef; 0xff; 0xff; 0xff; 0xff; 0xff; 0xff; 0xff;
  0xff; 0xff; 0xff; 0xff; 0xff; 0xff; 0xff; 0xff;
  0xff; 0xff; 0xff; 0xf1; 0x0; 0xcf; 0xff; 0xff;
  0xff; 0xff; 0xff; 0xff; 0xff; 0xff; 0x30; 0x0;
  0x0; 0x0; 0x0; 0x0; 0x0; 0x0; 0x0; 0x1a;
  0xff; 0xff; 0xff; 0xff; 0xff; 0xff; 0xff; 0xff;
  0xff; 0xff; 0xff; 0xff; 0xff; 0xff; 0xff; 0xff;
  0xff; 0xff; 0xff; 0xff; 0x60; 0x4f; 0xff; 0xff;
  0xff; 0xff; 0xff; 0xff; 0xff; 0xff; 0xfa; 0x0;
  0x0; 0x0; 0x0; 0x0; 0x0; 0x0; 0x0; 0x3d;
  0xff; 0xff; 0xff; 0xff; 0xff; 0xff; 0xff; 0xff;
  0xff; 0xff; 0xff; 0xff; 0xff; 0xff; 0xff; 0xff;
  0xff; 0xff; 0xff; 0xff; 0xf8; 0xa; 0xff; 0xff;
  0xff; 0xff; 0xff; 0xff; 0xff; 0xff; 0xff; 0xf0;
  0x0; 0x0; 0x0; 0x0; 0x0; 0x0; 0x0; 0x5f;
  0xff; 0xff; 0xff; 0xff; 0xff; 0xff; 0xff; 0xff;
  0xff; 0xff; 0xff; 0xff; 0xff; 0xff; 0xff; 0xff;
  0xff; 0xff; 0xff; 0xff; 0xff; 0x80; 0xdf; 0xff;
  0xff; 0xff; 0xff; 0xff; 0xff; 0xff; 0xff; 0xff;
  0x30; 0x0; 0x0; 0x0; 0x0; 0x0; 0x0; 0x7f;
  0xff; 0xff; 0xff; 0xff; 0xff; 0xff; 0xff; 0xff;
  0xff; 0xff; 0xff; 0xff; 0xff; 0xff; 0xff; 0xff;
  0xff; 0xff; 0xff; 0xff; 0xff; 0xf8; 0xf; 0xff;
  0xff; 0xff; 0xff; 0xff; 0xff; 0xff; 0xff; 0xff;
  0xf5; 0x0; 0x0; 0x0; 0x0; 0x0; 0x0; 0x8f;
  0xff; 0xff; 0xff; 0xff; 0xff; 0xff; 0xff; 0xff;
  0xff; 0xff; 0xff; 0xff; 0xff; 0xff; 0xff; 0xff;
  0xff; 0xff; 0xff; 0xff; 0xff; 0xff; 0x60; 0xff;
  0xff; 0xff; 0xff; 0xff; 0xff; 0xff; 0xff; 0xff;
  0xff; 0x60; 0x0; 0x0; 0x0; 0x0; 0x0; 0x8f;
  0xff; 0xff; 0xff; 0xff; 0xff; 0xff; 0xff; 0xff;
  0xff; 0xff; 0xff; 0xff; 0xff; 0xff; 0xff; 0xff;
  0xff; 0xff; 0xff; 0xff; 0xff; 0xff; 0xf3; 0x1f;
  0xff; 0xff; 0xff; 0xff; 0xff; 0xff; 0xff; 0xff;
  0xff; 0xf6; 0x0; 0x0; 0x0; 0x0; 0x0; 0x8f;
  0xff; 0xff; 0xff; 0xff; 0xff; 0xff; 0xff; 0xff;
  0xff; 0xff; 0xff; 0xff; 0xff; 0xff; 0xff; 0xff;
  0xff; 0xff; 0xff; 0xff; 0xff; 0xff; 0xff; 0x1;
  0xff; 0xff; 0xff; 0xff; 0xff; 0xff; 0xff; 0xff;
  0xff; 0xff; 0x60; 0x0; 0x0; 0x0; 0x0; 0x7f;
  0xff; 0xff; 0xff; 0xff; 0xff; 0xff; 0xff; 0xff;
  0xff; 0xff; 0xff; 0xff; 0xff; 0xff; 0xff; 0xff;
  0xff; 0xff; 0xff; 0xff; 0xff; 0xff; 0xff; 0xa0;
  0x1f; 0xff; 0xff; 0xff; 0xff; 0xff; 0xff; 0xff;
  0xff; 0xff; 0xf6; 0x0; 0x0; 0x0; 0x0; 0x5f;
  0xff; 0xff; 0xff; 0xff; 0xff; 0xff; 0xff; 0xff;
  0xff; 0xff; 0xff; 0xff; 0xff; 0xff; 0xff; 0xff;
  0xff; 0xff; 0xff; 0xff; 0xff; 0xff; 0xff; 0xf2;
  0x1; 0xff; 0xff; 0xff; 0xff; 0xff; 0xff; 0xff;
  0xff; 0xff; 0xff; 0x60; 0x0; 0x0; 0x0; 0x3f;
  0xff; 0xff; 0xff; 0xff; 0xff; 0xff; 0xff; 0xff;
  0xff; 0xff; 0xff; 0xff; 0xff; 0xff; 0xff; 0xff;
  0xff; 0xff; 0xff; 0xff; 0xff; 0xff; 0xff; 0xf6;
  0x0; 0x1f; 0xff; 0xff; 0xff; 0xff; 0xff; 0xff;
  0xff; 0xff; 0xff; 0xf6; 0x0; 0x0; 0x0; 0x1d;
  0xff; 0xff; 0xff; 0xff; 0xff; 0xff; 0xff; 0xff;
  0xff; 0xff; 0xfb; 0x74; 0x20; 0x0; 0x1; 0x25;
  0x8d; 0xff; 0xff; 0xff; 0xff; 0xff; 0xff; 0xf6;
  0x0; 0x1; 0xff; 0xff; 0xff; 0xff; 0xff; 0xff;
  0xff; 0xff; 0xff; 0xff; 0x60; 0x0; 0x0; 0xb;
  0xff; 0xff; 0xff; 0xff; 0xff; 0xff; 0xff; 0xff;
  0xff; 0xfa; 0x40; 0x0; 0x0; 0x0; 0x0; 0x0;
  0x0; 0x3; 0x9f; 0xff; 0xff; 0xff; 0xff; 0xc3;
  0x0; 0x0; 0x1f; 0xff; 0xff; 0xff; 0xff; 0xff;
  0xff; 0xff; 0xff; 0xff; 0xf6; 0x0; 0x0; 0x6;
  0xff; 0xff; 0xff; 0xff; 0xff; 0xff; 0xff; 0xff;
  0xfe; 0x71; 0x0; 0x0; 0x0; 0x0; 0x0; 0x0;
  0x0; 0x0; 0x0; 0x4; 0x8a; 0xcc; 0xb8; 0x30;
  0x0; 0x0; 0x1; 0xff; 0xff; 0xff; 0xff; 0xff;
  0xff; 0xff; 0xff; 0xff; 0xff; 0x60; 0x0; 0x2;
  0xff; 0xff; 0xff; 0xff; 0xff; 0xff; 0xff; 0xff;
  0xf7; 0x0; 0x0; 0x0; 0x0; 0x0; 0x0; 0x0;
  0x0; 0x0; 0x0; 0x0; 0x0; 0x0; 0x0; 0x0;
  0x0; 0x0; 0x0; 0x1f; 0xff; 0xff; 0xff; 0xff;
  0xff; 0xff; 0xff; 0xff; 0xff; 0xf6; 0x0; 0x0;
  0xcf; 0xff; 0xff; 0xff; 0xff; 0xff; 0xff; 0xff;
  0xb1; 0x0; 0x0; 0x0; 0x0; 0x0; 0x0; 0x0;
  0x0; 0x0; 0x0; 0x0; 0x0; 0x0; 0x0; 0x0;
  0x0; 0x0; 0x0; 0x1; 0xff; 0xff; 0xff; 0xff;
  0xff; 0xff; 0xff; 0xff; 0xff; 0xff; 0x60; 0x0;
  0x6f; 0xff; 0xff; 0xff; 0xff; 0xff; 0xff; 0xff;
  0x50; 0x0; 0x0; 0x0; 0x0; 0x0; 0x0; 0x0;
  0x0; 0x0; 0x0; 0x0; 0x0; 0x0; 0x0; 0x0;
  0x0; 0x0; 0x0; 0x0; 0x1f; 0xff; 0xff; 0xff;
  0xff; 0xff; 0xff; 0xff; 0xff; 0xff; 0xf6; 0x0;
  0x1e; 0xff; 0xff; 0xff; 0xff; 0xff; 0xff; 0xfd;
  0x20; 0x0; 0x0; 0x0; 0x0; 0x0; 0x0; 0x0;
  0x0; 0x0; 0x0; 0x0; 0x0; 0x0; 0x0; 0x0;
  0x0; 0x0; 0x0; 0x0; 0x1; 0xff; 0xff; 0xff;
  0xff; 0xff; 0xff; 0xff; 0xff; 0xff; 0xff; 0x60;
  0x8; 0xff; 0xff; 0xff; 0xff; 0xff; 0xff; 0xfb;
  0x0; 0x0; 0x0; 0x0; 0x0; 0x0; 0x0; 0x0;
  0x0; 0x0; 0x0; 0x0; 0x0; 0x0; 0x0; 0x0;
  0x0; 0x0; 0x0; 0x0; 0x0; 0x1f; 0xff; 0xff;
  0xff; 0xff; 0xff; 0xff; 0xff; 0xff; 0xff; 0xf6;
  0x2; 0xff; 0xff; 0xff; 0xff; 0xff; 0xff; 0xf9;
  0x0; 0x0; 0x0; 0x0; 0x0; 0x0; 0x0; 0x0;
  0x0; 0x0; 0x0; 0x0; 0x0; 0x0; 0x0; 0x0;
  0x0; 0x0; 0x0; 0x0; 0x0; 0x1; 0xff; 0xff;
  0xff; 0xff; 0xff; 0xff; 0xff; 0xff; 0xff; 0xff;
  0x60; 0x9f; 0xff; 0xff; 0xff; 0xff; 0xff; 0xf8;
  0x0; 0x0; 0x0; 0x0; 0x0; 0x0; 0x0; 0x0;
  0x0; 0x0; 0x0; 0x0; 0x0; 0x0; 0x0; 0x0;
  0x0; 0x0; 0x0; 0x0; 0x0; 0x0; 0x1f; 0xff;
  0xff; 0xff; 0xff; 0xff; 0xff; 0xff; 0xff; 0xff;
  0xf6; 0x2f; 0xff; 0xff; 0xff; 0xff; 0xff; 0xf8;
  0x0; 0x0; 0x0; 0x0; 0x0; 0x0; 0x0; 0x0;
  0x0; 0x0; 0x0; 0x0; 0x0; 0x0; 0x0; 0x0;
  0x0; 0x0; 0x0; 0x0; 0x0; 0x0; 0x1; 0xff;
  0xff; 0xff; 0xff; 0xff; 0xff; 0xff; 0xff; 0xff;
  0xff; 0x69; 0xff; 0xff; 0xff; 0xff; 0xff; 0xf9;
  0x0; 0x0; 0x0; 0x0; 0x0; 0x0; 0x0; 0x0;
  0x0; 0x0; 0x0; 0x0; 0x0; 0x0; 0x0; 0x0;
  0x0; 0x0; 0x0; 0x0; 0x0; 0x0; 0x0; 0x1f;
  0xff; 0xff; 0xff; 0xff; 0xff; 0xff; 0xff; 0xff;
  0xff; 0xf7; 0xff; 0xff; 0xff; 0xff; 0xff; 0xfb;
  0x0; 0x0; 0x0; 0x0; 0x0; 0x0; 0x0; 0x0;
  0x0; 0x0; 0x0; 0x0; 0x0; 0x0; 0x0; 0x0;
  0x0; 0x0; 0x0; 0x0; 0x0; 0x0; 0x0; 0x1;
  0xff; 0xff; 0xff; 0xff; 0xff; 0xff; 0xff; 0xff;
  0xff; 0xff; 0xdf; 0xff; 0xff; 0xff; 0xff; 0xfd;
  0x10; 0x0; 0x0; 0x0; 0x0; 0x0; 0x0; 0x0;
  0x0; 0x0; 0x0; 0x0; 0x0; 0x0; 0x0; 0x0;
  0x0; 0x0; 0x0; 0x0; 0x0; 0x0; 0x0; 0x0;
  0x1f; 0xff; 0xff; 0xff; 0xff; 0xff; 0xff; 0xff;
  0xff; 0xff; 0xff; 0xff; 0xff; 0xff; 0xff; 0xff;
  0x20; 0x0; 0x0; 0x0; 0x0; 0x0; 0x0; 0x0;
  0x0; 0x0; 0x0; 0x0; 0x0; 0x0; 0x0; 0x0;
  0x0; 0x0; 0x0; 0x0; 0x0; 0x0; 0x0; 0x0;
  0x1; 0xff; 0xff; 0xff; 0xff; 0xff; 0xff; 0xff;
  0xff; 0xff; 0xff; 0xff; 0xff; 0xff; 0xff; 0xff;
  0x60; 0x0; 0x0; 0x0; 0x0; 0x0; 0x0; 0x0 ].

Definition quicksand256_bitmap_41 : list Z :=
  [ 0x0; 0x0; 0x0; 0x0; 0x0; 0x0; 0x0; 0x0;
  0x0; 0x0; 0x0; 0x0; 0x0; 0x0; 0x0; 0x0;
  0x0; 0x1f; 0xff; 0xff; 0xff; 0xff; 0xff; 0xff;
  0xff; 0xff; 0xff; 0xff; 0xff; 0xff; 0xff; 0xff;
  0xa0; 0x0; 0x0; 0x0; 0x0; 0x0; 0x0; 0x0;
  0x0; 0x0; 0x0; 0x0; 0x0; 0x0; 0x0; 0x0;
  0x0; 0x0; 0x0; 0x0; 0x0; 0x0; 0x0; 0x0;
  0x0; 0x1; 0xff; 0xff; 0xff; 0xff; 0xff; 0xff;
  0xff; 0xff; 0xff; 0xff; 0xff; 0xff; 0xff; 0xff;
  0xe1; 0x0; 0x0; 0x0; 0x0; 0x0; 0x0; 0x0;
  0x0; 0x0; 0x0; 0x0; 0x0; 0x0; 0x0; 0x0;
  0x0; 0x0; 0x0; 0x0; 0x0; 0x0; 0x0; 0x0;
  0x0; 0x0; 0x1f; 0xff; 0xff; 0xff; 0xff; 0xff;
  0xff; 0xff; 0xff; 0xff; 0xff; 0xff; 0xff; 0xff;
  0xf5; 0x0; 0x0; 0x0; 0x0; 0x0; 0x0; 0x0;
  0x0; 0x0; 0x0; 0x0; 0x0; 0x0; 0x0; 0x0;
  0x0; 0x0; 0x0; 0x0; 0x0; 0x0; 0x0; 0x0;
  0x0; 0x0; 0x1; 0xff; 0xff; 0xff; 0xff; 0xff;
  0xff; 0xff; 0xff; 0xff; 0xff; 0xff; 0xff; 0xff;
  0xfb; 0x0; 0x0; 0x0; 0x0; 0x0; 0x0; 0x0;
  0x0; 0x0; 0x0; 0x0; 0x0; 0x0; 0x0; 0x0;
  0x0; 0x0; 0x0; 0x0; 0x0; 0x0; 0x0; 0x0;
  0x0; 0x0; 0x0; 0x1f; 0xff; 0xff; 0xff; 0xff;
  0xff; 0xff; 0xff; 0xff; 0xff; 0xff; 0xff; 0xff;
  0xff; 0x20; 0x0; 0x0; 0x0; 0x0; 0x0; 0x0;
  0x0; 0x0; 0x0; 0x0; 0x0; 0x0; 0x0; 0x0;
  0x0; 0x0; 0x0; 0x0; 0x0; 0x0; 0x0; 0x0;
  0x0; 0x0; 0x0; 0x1; 0xff; 0xff; 0xff; 0xff;
  0xff; 0xff; 0xff; 0xff; 0xff; 0xff; 0xff; 0xff;
  0xff; 0x90; 0x0; 0x0; 0x0; 0x0; 0x0; 0x0;
  0x0; 0x0; 0x0; 0x0; 0x0; 0x0; 0x0; 0x0;
  0x0; 0x0; 0x0; 0x0; 0x0; 0x0; 0x0; 0x0;
  0x0; 0x0; 0x0; 0x0; 0x1f; 0xff; 0xff; 0xff;
  0xff; 0xff; 0xff; 0xff; 0xff; 0xff; 0xff; 0xff;
  0xff; 0xf1; 0x0; 0x0; 0x0; 0x0; 0x0; 0x0;
  0x0; 0x0; 0x0; 0x0; 0x0; 0x0; 0x0; 0x0;
  0x0; 0x0; 0x0; 0x0; 0x0; 0x0; 0x0; 0x0;
  0x0; 0x0; 0x0; 0x0; 0x1; 0xff; 0xff; 0xff;
  0xff; 0xff; 0xff; 0xff; 0xff; 0xff; 0xff; 0xff;
  0xff; 0xf8; 0x0; 0x0; 0x0; 0x0; 0x0; 0x0;
  0x0; 0x0; 0x0; 0x0; 0x0; 0x0; 0x0; 0x0;
  0x0; 0x0; 0x0; 0x0; 0x0; 0x0; 0x0; 0x0;
  0x0; 0x0; 0x0; 0x0; 0x0; 0x1f; 0xff; 0xff;
  0xff; 0xff; 0xff; 0xff; 0xff; 0xff; 0xff; 0xff;
  0xff; 0xff; 0x10; 0x0; 0x0; 0x0; 0x0; 0x0;
  0x0; 0x0; 0x0; 0x0; 0x0; 0x0; 0x0; 0x0;
  0x0; 0x0; 0x0; 0x0; 0x0; 0x0; 0x0; 0x0;
  0x0; 0x0; 0x0; 0x0; 0x0; 0x1; 0xff; 0xff;
  0xff; 0xff; 0xff; 0xff; 0xff; 0xff; 0xff; 0xff;
  0xff; 0xff; 0x90; 0x0; 0x0; 0x0; 0x0; 0x0;
  0x0; 0x0; 0x0; 0x0; 0x0; 0x0; 0x0; 0x0;
  0x0; 0x0; 0x0; 0x0; 0x0; 0x0; 0x0; 0x0;
  0x0; 0x0; 0x0; 0x0; 0x0; 0x0; 0x1f; 0xff;
  0xff; 0xff; 0xff; 0xff; 0xff; 0xff; 0xff; 0xff;
  0xff; 0xff; 0xf2; 0x0; 0x0; 0x0; 0x0; 0x0;
  0x0; 0x0; 0x0; 0x0; 0x0; 0x0; 0x0; 0x0;
  0x0; 0x0; 0x0; 0x0; 0x0; 0x0; 0x0; 0x0;
  0x0; 0x0; 0x0; 0x0; 0x0; 0x0; 0x1; 0xff;
  0xff; 0xff; 0xff; 0xff; 0xff; 0xff; 0xff; 0xff;
  0xff; 0xff; 0xfc; 0x0; 0x0; 0x0; 0x0; 0x0;
  0x0; 0x0; 0x0; 0x0; 0x0; 0x0; 0x0; 0x0;
  0x0; 0x0; 0x0; 0x0; 0x0; 0x0; 0x0; 0x0;
  0x0; 0x0; 0x0; 0x0; 0x0; 0x0; 0x0; 0x1f;
  0xff; 0xff; 0xff; 0xff; 0xff; 0xff; 0xff; 0xff;
  0xff; 0xff; 0xff; 0x50; 0x0; 0x0; 0x0; 0x0;
  0x0; 0x0; 0x0; 0x0; 0x0; 0x0; 0x0; 0x0;
  0x0; 0x0; 0x0; 0x0; 0x0; 0x0; 0x0; 0x0;
  0x0; 0x0; 0x0; 0x0; 0x0; 0x0; 0x0; 0x1;
  0xff; 0xff; 0xff; 0xff; 0xff; 0xff; 0xff; 0xff;
  0xff; 0xff; 0xff; 0xf0; 0x0; 0x0; 0x0; 0x0;
  0x0; 0x0; 0x0; 0x0; 0x0; 0x0; 0x0; 0x0;
  0x0; 0x0; 0x0; 0x0; 0x0; 0x0; 0x0; 0x0;
  0x0; 0x0; 0x0; 0x0; 0x0; 0x0; 0x0; 0x0;
  0x1f; 0xff; 0xff; 0xff; 0xff; 0xff; 0xff; 0xff;
  0xff; 0xff; 0xff; 0xfa; 0x0; 0x0; 0x0; 0x0;
  0x0; 0x0; 0x0; 0x0; 0x0; 0x0; 0x0; 0x0;
  0x0; 0x0; 0x0; 0x0; 0x0; 0x0; 0x0; 0x0;
  0x0; 0x0; 0x0; 0x0; 0x0; 0x0; 0x0; 0x0;
  0x1; 0xff; 0xff; 0xff; 0xff; 0xff; 0xff; 0xff;
  0xff; 0xff; 0xff; 0xff; 0x50; 0x0; 0x0; 0x0;
  0x0; 0x0; 0x0; 0x0; 0x0; 0x0; 0x0; 0x0;
  0x0; 0x0; 0x0; 0x0; 0x0; 0x0; 0x0; 0x0;
  0x0; 0x0; 0x0; 0x0; 0x0; 0x0; 0x0; 0x0;
  0x0; 0x1f; 0xff; 0xff; 0xff; 0xff; 0xff; 0xff;
  0xff; 0xff; 0xff; 0xff; 0xf1; 0x0; 0x0; 0x0;
  0x0; 0x0; 0x0; 0x0; 0x0; 0x0; 0x0; 0x0;
  0x0; 0x0; 0x0; 0x0; 0x0; 0x0; 0x0; 0x0;
  0x0; 0x0; 0x0; 0x0; 0x0; 0x0; 0x0; 0x0;
  0x0; 0x1; 0xff; 0xff; 0xff; 0xff; 0xff; 0xff;
  0xff; 0xff; 0xff; 0xff; 0xfd; 0x0; 0x0; 0x0;
  0x0; 0x0; 0x0; 0x0; 0x0; 0x0; 0x0; 0x0;
  0x0; 0x0; 0x0; 0x0; 0x0; 0x0; 0x0; 0x0;
  0x0; 0x0; 0x0; 0x0; 0x0; 0x0; 0x0; 0x0;
  0x0; 0x0; 0x1f; 0xff; 0xff; 0xff; 0xff; 0xff;
  0xff; 0xff; 0xff; 0xff; 0xff; 0x90; 0x0; 0x0;
  0x0; 0x0; 0x0; 0x0; 0x0; 0x0; 0x0; 0x0;
  0x0; 0x0; 0x0; 0x0; 0x0; 0x0; 0x0; 0x0;
  0x0; 0x0; 0x0; 0x0; 0x0; 0x0; 0x0; 0x0;
  0x0; 0x0; 0x1; 0xff; 0xff; 0xff; 0xff; 0xff;
  0xff; 0xff; 0xff; 0xff; 0xff; 0xf5; 0x0; 0x0;
  0x0; 0x0; 0x0; 0x0; 0x0; 0x0; 0x0; 0x0;
  0x0; 0x0; 0x0; 0x0; 0x0; 0x0; 0x0; 0x0;
  0x0; 0x0; 0x0; 0x0; 0x0; 0x0; 0x0; 0x0;
  0x0; 0x0; 0x0; 0x1f; 0xff; 0xff; 0xff; 0xff;
  0xff; 0xff; 0xff; 0xff; 0xff; 0xff; 0x20; 0x0;
  0x0; 0x0; 0x0; 0x0; 0x0; 0x0; 0x0; 0x0;
  0x0; 0x0; 0x0; 0x0; 0x0; 0x0; 0x0; 0x0;
  0x0; 0x0; 0x0; 0x0; 0x0; 0x0; 0x0; 0x0;
  0x0; 0x0; 0x0; 0x1; 0xff; 0xff; 0xff; 0xff;
  0xff; 0xff; 0xff; 0xff; 0xff; 0xff; 0xf0; 0x0;
  0x0; 0x0; 0x0; 0x0; 0x0; 0x0; 0x0; 0x0;
  0x0; 0x0; 0x0; 0x0; 0x0; 0x0; 0x0; 0x0;
  0x0; 0x0; 0x0; 0x0; 0x0; 0x0; 0x0; 0x0;
  0x0; 0x0; 0x0; 0x0; 0x1f; 0xff; 0xff; 0xff;
  0xff; 0xff; 0xff; 0xff; 0xff; 0xff; 0xfd; 0x0;
  0x0; 0x0; 0x0; 0x0; 0x0; 0x0; 0x0; 0x0;
  0x0; 0x0; 0x0; 0x0; 0x0; 0x0; 0x0; 0x0;
  0x0; 0x0; 0x0; 0x0; 0x0; 0x0; 0x0; 0x0;
  0x0; 0x0; 0x0; 0x0; 0x1; 0xff; 0xff; 0xff;
  0xff; 0xff; 0xff; 0xff; 0xff; 0xff; 0xff; 0xb0;
  0x0; 0x0; 0x0; 0x0; 0x0; 0x0; 0x0; 0x0;
  0x0; 0x0; 0x0; 0x0; 0x0; 0x0; 0x0; 0x0;
  0x0; 0x0; 0x0; 0x0; 0x0; 0x0; 0x0; 0x0;
  0x0; 0x0; 0x0; 0x0; 0x0; 0x1f; 0xff; 0xff;
  0xff; 0xff; 0xff; 0xff; 0xff; 0xff; 0xff; 0xfa;
  0x0; 0x0; 0x0; 0x0; 0x0; 0x0; 0x0; 0x0;
  0x0; 0x0; 0x0; 0x0; 0x0; 0x0; 0x0; 0x0;
  0x0; 0x0; 0x0; 0x0; 0x0; 0x0; 0x0; 0x0;
  0x0; 0x0; 0x0; 0x0; 0x0; 0x1; 0xff; 0xff;
  0xff; 0xff; 0xff; 0xff; 0xff; 0xff; 0xff; 0xff;
  0x80; 0x0; 0x0; 0x0; 0x0; 0x0; 0x0; 0x0;
  0x0; 0x0; 0x0; 0x0; 0x0; 0x0; 0x0; 0x0;
  0x0; 0x0; 0x0; 0x0; 0x0; 0x0; 0x0; 0x0;
  0x0; 0x0; 0x0; 0x0; 0x0; 0x0; 0x1f; 0xff;
  0xff; 0xff; 0xff; 0xff; 0xff; 0xff; 0xff; 0xff;
  0xf7; 0x0; 0x0; 0x0; 0x0; 0x0; 0x0; 0x0;
  0x0; 0x0; 0x0; 0x0; 0x0; 0x0; 0x0; 0x0;
  0x0; 0x0; 0x0; 0x0; 0x0; 0x0; 0x0; 0x0;
  0x0; 0x0; 0x0; 0x0; 0x0; 0x0; 0x1; 0xff;
  0xff; 0xff; 0xff; 0xff; 0xff; 0xff; 0xff; 0xff;
  0xff; 0x70; 0x0; 0x0; 0x0; 0x0; 0x0; 0x0;
  0x0; 0x0; 0x0; 0x0; 0x0; 0x0; 0x0; 0x0;
  0x0; 0x0; 0x0; 0x0; 0x0; 0x0; 0x0; 0x0;
  0x0; 0x0; 0x0; 0x0; 0x0; 0x0; 0x0; 0x1f;
  0xff; 0xff; 0xff; 0xff; 0xff; 0xff; 0xff; 0xff;
  0xff; 0xf6; 0x0; 0x0; 0x0; 0x0; 0x0; 0x0;
  0x0; 0x0; 0x0; 0x0; 0x0; 0x0; 0x0; 0x0;
  0x0; 0x0; 0x0; 0x0; 0x0; 0x0; 0x0; 0x0;
  0x0; 0x0; 0x0; 0x0; 0x0; 0x0; 0x0; 0x1;
  0xff; 0xff; 0xff; 0xff; 0xff; 0xff; 0xff; 0xff ].

Definition quicksand256_bitmap_42 : list Z :=
  [ 0xff; 0xff; 0x60; 0x0; 0x0; 0x0; 0x0; 0x0;
  0x0; 0x0; 0x0; 0x0; 0x0; 0x0; 0x0; 0x0;
  0x0; 0x0; 0x0; 0x0; 0x0; 0x0; 0x0; 0x0;
  0x0; 0x0; 0x0; 0x0; 0x0; 0x0; 0x0; 0x0;
  0x1f; 0xff; 0xff; 0xff; 0xff; 0xff; 0xff; 0xff;
  0xff; 0xff; 0xf6; 0x0; 0x0; 0x0; 0x0; 0x0;
  0x0; 0x0; 0x0; 0x0; 0x0; 0x0; 0x0; 0x0;
  0x0; 0x0; 0x0; 0x0; 0x0; 0x0; 0x0; 0x0;
  0x0; 0x0; 0x0; 0x0; 0x0; 0x0; 0x0; 0x0;
  0x1; 0xff; 0xff; 0xff; 0xff; 0xff; 0xff; 0xff;
  0xff; 0xff; 0xff; 0x60; 0x0; 0x0; 0x0; 0x0;
  0x0; 0x0; 0x0; 0x0; 0x0; 0x0; 0x0; 0x0;
  0x0; 0x0; 0x0; 0x0; 0x0; 0x0; 0x0; 0x0;
  0x0; 0x0; 0x0; 0x0; 0x0; 0x0; 0x0; 0x0;
  0x0; 0x1f; 0xff; 0xff; 0xff; 0xff; 0xff; 0xff;
  0xff; 0xff; 0xff; 0xf6; 0x0; 0x0; 0x0; 0x0;
  0x0; 0x0; 0x0; 0x0; 0x0; 0x0; 0x0; 0x0;
  0x0; 0x0; 0x0; 0x0; 0x0; 0x0; 0x0; 0x0;
  0x0; 0x0; 0x0; 0x0; 0x0; 0x0; 0x0; 0x0;
  0x0; 0x1; 0xff; 0xff; 0xff; 0xff; 0xff; 0xff;
  0xff; 0xff; 0xff; 0xff; 0x60; 0x0; 0x0; 0x0;
  0x0; 0x0; 0x0; 0x0; 0x0; 0x0; 0x0; 0x0;
  0x0; 0x0; 0x0; 0x0; 0x0; 0x0; 0x0; 0x0;
  0x0; 0x0; 0x0; 0x0; 0x0; 0x0; 0x0; 0x0;
  0x0; 0x0; 0x1f; 0xff; 0xff; 0xff; 0xff; 0xff;
  0xff; 0xff; 0xff; 0xff; 0xf6; 0x0; 0x0; 0x0;
  0x0; 0x0; 0x0; 0x0; 0x0; 0x0; 0x0; 0x0;
  0x0; 0x0; 0x0; 0x0; 0x0; 0x0; 0x0; 0x0;
  0x0; 0x0; 0x0; 0x0; 0x0; 0x0; 0x0; 0x0;
  0x0; 0x0; 0x1; 0xff; 0xff; 0xff; 0xff; 0xff;
  0xff; 0xff; 0xff; 0xff; 0xff; 0x60; 0x0; 0x0;
  0x0; 0x0; 0x0; 0x0; 0x0; 0x0; 0x0; 0x0;
  0x0; 0x0; 0x0; 0x0; 0x0; 0x0; 0x0; 0x0;
  0x0; 0x0; 0x0; 0x0; 0x0; 0x0; 0x0; 0x0;
  0x0; 0x0; 0x0; 0x1f; 0xff; 0xff; 0xff; 0xff;
  0xff; 0xff; 0xff; 0xff; 0xff; 0xf6; 0x0; 0x0;
  0x0; 0x0; 0x0; 0x0; 0x0; 0x0; 0x0; 0x0;
  0x0; 0x0; 0x0; 0x0; 0x0; 0x0; 0x0; 0x0;
  0x0; 0x0; 0x0; 0x0; 0x0; 0x0; 0x0; 0x0;
  0x0; 0x0; 0x0; 0x1; 0xff; 0xff; 0xff; 0xff;
  0xff; 0xff; 0xff; 0xff; 0xff; 0xff; 0x60; 0x0;
  0x0; 0x0; 0x0; 0x0; 0x0; 0x0; 0x0; 0x0;
  0x0; 0x0; 0x0; 0x0; 0x0; 0x0; 0x0; 0x0;
  0x0; 0x0; 0x0; 0x0; 0x0; 0x0; 0x0; 0x0;
  0x0; 0x0; 0x0; 0x0; 0x1f; 0xff; 0xff; 0xff;
  0xff; 0xff; 0xff; 0xff; 0xff; 0xff; 0xf6; 0x0;
  0x0; 0x0; 0x0; 0x0; 0x0; 0x0; 0x0; 0x0;
  0x0; 0x0; 0x0; 0x0; 0x0; 0x0; 0x0; 0x0;
  0x0; 0x0; 0x0; 0x0; 0x0; 0x0; 0x0; 0x0;
  0x0; 0x0; 0x0; 0x0; 0x1; 0xff; 0xff; 0xff;
  0xff; 0xff; 0xff; 0xff; 0xff; 0xff; 0xff; 0x60;
  0x0; 0x0; 0x0; 0x0; 0x0; 0x0; 0x0; 0x0;
  0x0; 0x0; 0x0; 0x0; 0x0; 0x0; 0x0; 0x0;
  0x0; 0x0; 0x0; 0x0; 0x0; 0x0; 0x0; 0x0;
  0x0; 0x0; 0x0; 0x0; 0x0; 0x1f; 0xff; 0xff;
  0xff; 0xff; 0xff; 0xff; 0xff; 0xff; 0xff; 0xf6;
  0x0; 0x0; 0x0; 0x0; 0x0; 0x0; 0x0; 0x0;
  0x0; 0x0; 0x0; 0x0; 0x0; 0x0; 0x0; 0x0;
  0x0; 0x0; 0x0; 0x0; 0x0; 0x0; 0x0; 0x0;
  0x0; 0x0; 0x0; 0x0; 0x0; 0x1; 0xff; 0xff;
  0xff; 0xff; 0xff; 0xff; 0xff; 0xff; 0xff; 0xff;
  0x60; 0x0; 0x0; 0x0; 0x0; 0x0; 0x0; 0x0;
  0x0; 0x0; 0x0; 0x0; 0x0; 0x0; 0x0; 0x0;
  0x0; 0x0; 0x0; 0x0; 0x0; 0x0; 0x0; 0x0;
  0x0; 0x0; 0x0; 0x0; 0x0; 0x0; 0x1f; 0xff;
  0xff; 0xff; 0xff; 0xff; 0xff; 0xff; 0xff; 0xff;
  0xf6; 0x0; 0x0; 0x0; 0x0; 0x0; 0x0; 0x0;
  0x0; 0x0; 0x0; 0x0; 0x0; 0x0; 0x0; 0x0;
  0x0; 0x0; 0x0; 0x0; 0x0; 0x0; 0x0; 0x0;
  0x0; 0x0; 0x0; 0x0; 0x0; 0x0; 0x1; 0xff;
  0xff; 0xff; 0xff; 0xff; 0xff; 0xff; 0xff; 0xff;
  0xff; 0x60; 0x0; 0x0; 0x0; 0x0; 0x0; 0x0;
  0x0; 0x0; 0x0; 0x0; 0x0; 0x0; 0x0; 0x0;
  0x0; 0x0; 0x0; 0x0; 0x0; 0x0; 0x0; 0x0;
  0x0; 0x0; 0x0; 0x0; 0x0; 0x0; 0x0; 0x1f;
  0xff; 0xff; 0xff; 0xff; 0xff; 0xff; 0xff; 0xff;
  0xff; 0xf6; 0x0; 0x0; 0x0; 0x0; 0x0; 0x0;
  0x0; 0x0; 0x0; 0x0; 0x0; 0x0; 0x0; 0x0;
  0x0; 0x0; 0x0; 0x0; 0x0; 0x0; 0x0; 0x0;
  0x0; 0x0; 0x0; 0x0; 0x0; 0x0; 0x0; 0x1;
  0xff; 0xff; 0xff; 0xff; 0xff; 0xff; 0xff; 0xff;
  0xff; 0xff; 0x60; 0x0; 0x0; 0x0; 0x0; 0x0;
  0x0; 0x0; 0x0; 0x0; 0x0; 0x0; 0x0; 0x0;
  0x0; 0x0; 0x0; 0x0; 0x0; 0x0; 0x0; 0x0;
  0x0; 0x0; 0x0; 0x0; 0x0; 0x0; 0x0; 0x0;
  0x1f; 0xff; 0xff; 0xff; 0xff; 0xff; 0xff; 0xff;
  0xff; 0xff; 0xf6; 0x0; 0x0; 0x0; 0x0; 0x0;
  0x0; 0x0; 0x0; 0x0; 0x0; 0x0; 0x0; 0x0;
  0x0; 0x0; 0x0; 0x0; 0x0; 0x0; 0x0; 0x0;
  0x0; 0x0; 0x0; 0x0; 0x0; 0x0; 0x0; 0x0;
  0x1; 0xff; 0xff; 0xff; 0xff; 0xff; 0xff; 0xff;
  0xff; 0xff; 0xff; 0x60; 0x0; 0x0; 0x0; 0x0;
  0x0; 0x0; 0x0; 0x0; 0x0; 0x0; 0x0; 0x0;
  0x0; 0x0; 0x0; 0x0; 0x0; 0x0; 0x0; 0x0;
  0x0; 0x0; 0x0; 0x0; 0x0; 0x0; 0x0; 0x0;
  0x0; 0x1f; 0xff; 0xff; 0xff; 0xff; 0xff; 0xff;
  0xff; 0xff; 0xff; 0xf6; 0x0; 0x0; 0x0; 0x0;
  0x0; 0x0; 0x0; 0x0; 0x0; 0x0; 0x0; 0x0;
  0x0; 0x0; 0x0; 0x0; 0x0; 0x0; 0x0; 0x0;
  0x0; 0x0; 0x0; 0x0; 0x0; 0x0; 0x0; 0x0;
  0x0; 0x1; 0xff; 0xff; 0xff; 0xff; 0xff; 0xff;
  0xff; 0xff; 0xff; 0xff; 0x60; 0x0; 0x0; 0x0;
  0x0; 0x0; 0x0; 0x0; 0x0; 0x0; 0x0; 0x0;
  0x0; 0x0; 0x0; 0x0; 0x0; 0x0; 0x0; 0x0;
  0x0; 0x0; 0x0; 0x0; 0x0; 0x0; 0x0; 0x0;
  0x0; 0x0; 0x1f; 0xff; 0xff; 0xff; 0xff; 0xff;
  0xff; 0xff; 0xff; 0xff; 0xf6; 0x0; 0x0; 0x0;
  0x0; 0x0; 0x0; 0x0; 0x0; 0x0; 0x0; 0x0;
  0x0; 0x0; 0x0; 0x0; 0x0; 0x0; 0x0; 0x0;
  0x0; 0x0; 0x0; 0x0; 0x0; 0x0; 0x0; 0x0;
  0x0; 0x0; 0x1; 0xff; 0xff; 0xff; 0xff; 0xff;
  0xff; 0xff; 0xff; 0xff; 0xff; 0x60; 0x0; 0x0;
  0x0; 0x0; 0x0; 0x0; 0x0; 0x0; 0x0; 0x0;
  0x0; 0x0; 0x0; 0x0; 0x0; 0x0; 0x0; 0x0;
  0x0; 0x0; 0x0; 0x0; 0x0; 0x0; 0x0; 0x0;
  0x0; 0x0; 0x0; 0x1f; 0xff; 0xff; 0xff; 0xff;
  0xff; 0xff; 0xff; 0xff; 0xff; 0xf6; 0x0; 0x0;
  0x0; 0x0; 0x0; 0x0; 0x0; 0x0; 0x0; 0x0;
  0x0; 0x0; 0x0; 0x0; 0x0; 0x0; 0x0; 0x0;
  0x0; 0x0; 0x0; 0x0; 0x0; 0x0; 0x0; 0x0;
  0x0; 0x0; 0x0; 0x1; 0xff; 0xff; 0xff; 0xff;
  0xff; 0xff; 0xff; 0xff; 0xff; 0xff; 0x60; 0x0;
  0x0; 0x0; 0x0; 0x0; 0x0; 0x0; 0x0; 0x0;
  0x0; 0x0; 0x0; 0x0; 0x0; 0x0; 0x0; 0x0;
  0x0; 0x0; 0x0; 0x0; 0x0; 0x0; 0x0; 0x0;
  0x0; 0x0; 0x0; 0x0; 0x1f; 0xff; 0xff; 0xff;
  0xff; 0xff; 0xff; 0xff; 0xff; 0xff; 0xf6; 0x0;
  0x0; 0x0; 0x0; 0x0; 0x0; 0x0; 0x0; 0x0;
  0x0; 0x0; 0x0; 0x0; 0x0; 0x0; 0x0; 0x0;
  0x0; 0x0; 0x0; 0x0; 0x0; 0x0; 0x0; 0x0;
  0x0; 0x0; 0x0; 0x0; 0x1; 0xff; 0xff; 0xff;
  0xff; 0xff; 0xff; 0xff; 0xff; 0xff; 0xff; 0x60;
  0x0; 0x0; 0x0; 0x0; 0x0; 0x0; 0x0; 0x0;
  0x0; 0x0; 0x0; 0x0; 0x0; 0x0; 0x0; 0x0;
  0x0; 0x0; 0x0; 0x0; 0x0; 0x0; 0x0; 0x0;
  0x0; 0x0; 0x0; 0x0; 0x0; 0x1f; 0xff; 0xff;
  0xff; 0xff; 0xff; 0xff; 0xff; 0xff; 0xff; 0xf6;
  0x0; 0x0; 0x0; 0x0; 0x0; 0x0; 0x0; 0x0;
  0x0; 0x0; 0x0; 0x0; 0x0; 0x0; 0x0; 0x0;
  0x0; 0x0; 0x0; 0x0; 0x0; 0x0; 0x0; 0x0;
  0x0; 0x0; 0x0; 0x0; 0x0; 0x1; 0xff; 0xff;
  0xff; 0xff; 0xff; 0xff; 0xff; 0xff; 0xff; 0xff;
  0x60; 0x0; 0x0; 0x0; 0x0; 0x0; 0x0; 0x0;
  0x0; 0x0; 0x0; 0x0; 0x0; 0x0; 0x0; 0x0;
  0x0; 0x0; 0x0; 0x0; 0x0; 0x0; 0x0; 0x0;
  0x0; 0x0; 0x0; 0x0; 0x0; 0x0; 0x1f; 0xff;
  0xff; 0xff; 0xff; 0xff; 0xff; 0xff; 0xff; 0xff;
  0xf6; 0x0; 0x0; 0x0; 0x0; 0x0; 0x0; 0x0;
  0x0; 0x0; 0x0; 0x0; 0x0; 0x0; 0x0; 0x0;
  0x0; 0x0; 0x0; 0x0; 0x0; 0x0; 0x0; 0x0 ].

Definition quicksand256_bitmap_43 : list Z :=
  [ 0x0; 0x0; 0x0; 0x0; 0x0; 0x0; 0x1; 0xff;
  0xff; 0xff; 0xff; 0xff; 0xff; 0xff; 0xff; 0xff;
  0xff; 0x60; 0x0; 0x0; 0x0; 0x0; 0x0; 0x0;
  0x0; 0x0; 0x0; 0x0; 0x0; 0x0; 0x0; 0x0;
  0x0; 0x0; 0x0; 0x0; 0x0; 0x0; 0x0; 0x0;
  0x0; 0x0; 0x0; 0x0; 0x0; 0x0; 0x0; 0x1f;
  0xff; 0xff; 0xff; 0xff; 0xff; 0xff; 0xff; 0xff;
  0xff; 0xf6; 0x0; 0x0; 0x0; 0x0; 0x0; 0x0;
  0x0; 0x0; 0x0; 0x0; 0x0; 0x0; 0x0; 0x0;
  0x0; 0x0; 0x0; 0x0; 0x0; 0x0; 0x0; 0x0;
  0x0; 0x0; 0x0; 0x0; 0x0; 0x0; 0x0; 0x1;
  0xff; 0xff; 0xff; 0xff; 0xff; 0xff; 0xff; 0xff;
  0xff; 0xff; 0x60; 0x0; 0x0; 0x0; 0x0; 0x0;
  0x0; 0x0; 0x0; 0x0; 0x0; 0x0; 0x0; 0x0;
  0x0; 0x0; 0x0; 0x0; 0x0; 0x0; 0x0; 0x0;
  0x0; 0x0; 0x0; 0x0; 0x0; 0x0; 0x0; 0x0;
  0x1f; 0xff; 0xff; 0xff; 0xff; 0xff; 0xff; 0xff;
  0xff; 0xff; 0xf6; 0x0; 0x0; 0x0; 0x0; 0x0;
  0x0; 0x0; 0x0; 0x0; 0x0; 0x0; 0x0; 0x0;
  0x0; 0x0; 0x0; 0x0; 0x0; 0x0; 0x0; 0x0;
  0x0; 0x0; 0x0; 0x0; 0x0; 0x0; 0x0; 0x0;
  0x1; 0xff; 0xff; 0xff; 0xff; 0xff; 0xff; 0xff;
  0xff; 0xff; 0xff; 0x60; 0x0; 0x0; 0x0; 0x0;
  0x0; 0x0; 0x0; 0x0; 0x0; 0x0; 0x0; 0x0;
  0x0; 0x0; 0x0; 0x0; 0x0; 0x0; 0x0; 0x0;
  0x0; 0x0; 0x0; 0x0; 0x0; 0x0; 0x0; 0x0;
  0x0; 0x1f; 0xff; 0xff; 0xff; 0xff; 0xff; 0xff;
  0xff; 0xff; 0xff; 0xf6; 0x0; 0x0; 0x0; 0x0;
  0x0; 0x0; 0x0; 0x0; 0x0; 0x0; 0x0; 0x0;
  0x0; 0x0; 0x0; 0x0; 0x0; 0x0; 0x0; 0x0;
  0x0; 0x0; 0x0; 0x0; 0x0; 0x0; 0x0; 0x0;
  0x0; 0x1; 0xff; 0xff; 0xff; 0xff; 0xff; 0xff;
  0xff; 0xff; 0xff; 0xff; 0x60; 0x0; 0x0; 0x0;
  0x0; 0x0; 0x0; 0x0; 0x0; 0x0; 0x0; 0x0;
  0x0; 0x0; 0x0; 0x0; 0x0; 0x0; 0x0; 0x0;
  0x0; 0x0; 0x0; 0x0; 0x0; 0x0; 0x0; 0x0;
  0x0; 0x0; 0x1f; 0xff; 0xff; 0xff; 0xff; 0xff;
  0xff; 0xff; 0xff; 0xff; 0xf6; 0x0; 0x0; 0x0;
  0x0; 0x0; 0x0; 0x0; 0x0; 0x0; 0x0; 0x0;
  0x0; 0x0; 0x0; 0x0; 0x0; 0x0; 0x0; 0x0;
  0x0; 0x0; 0x0; 0x0; 0x0; 0x0; 0x0; 0x0;
  0x0; 0x0; 0x1; 0xff; 0xff; 0xff; 0xff; 0xff;
  0xff; 0xff; 0xff; 0xff; 0xff; 0x60; 0x0; 0x0;
  0x0; 0x0; 0x0; 0x0; 0x0; 0x0; 0x0; 0x0;
  0x0; 0x0; 0x0; 0x0; 0x0; 0x0; 0x0; 0x0;
  0x0; 0x0; 0x0; 0x0; 0x0; 0x0; 0x0; 0x0;
  0x0; 0x0; 0x0; 0x1f; 0xff; 0xff; 0xff; 0xff;
  0xff; 0xff; 0xff; 0xff; 0xff; 0xf6; 0x0; 0x0;
  0x0; 0x0; 0x0; 0x0; 0x0; 0x0; 0x0; 0x0;
  0x0; 0x0; 0x0; 0x0; 0x0; 0x0; 0x0; 0x0;
  0x0; 0x0; 0x0; 0x0; 0x0; 0x0; 0x0; 0x0;
  0x0; 0x0; 0x0; 0x1; 0xff; 0xff; 0xff; 0xff;
  0xff; 0xff; 0xff; 0xff; 0xff; 0xff; 0x60; 0x0;
  0x0; 0x0; 0x0; 0x0; 0x0; 0x0; 0x0; 0x0;
  0x0; 0x0; 0x0; 0x0; 0x0; 0x0; 0x0; 0x0;
  0x0; 0x0; 0x0; 0x0; 0x0; 0x0; 0x0; 0x0;
  0x0; 0x0; 0x0; 0x0; 0x1f; 0xff; 0xff; 0xff;
  0xff; 0xff; 0xff; 0xff; 0xff; 0xff; 0xf6; 0x0;
  0x0; 0x0; 0x0; 0x0; 0x0; 0x0; 0x0; 0x0;
  0x0; 0x0; 0x0; 0x0; 0x0; 0x0; 0x0; 0x0;
  0x0; 0x0; 0x0; 0x0; 0x0; 0x0; 0x0; 0x0;
  0x0; 0x0; 0x0; 0x0; 0x1; 0xff; 0xff; 0xff;
  0xff; 0xff; 0xff; 0xff; 0xff; 0xff; 0xff; 0x60;
  0x0; 0x0; 0x0; 0x0; 0x0; 0x0; 0x0; 0x0;
  0x0; 0x0; 0x0; 0x0; 0x0; 0x0; 0x0; 0x0;
  0x0; 0x0; 0x0; 0x0; 0x0; 0x0; 0x0; 0x0;
  0x0; 0x0; 0x0; 0x0; 0x0; 0x1f; 0xff; 0xff;
  0xff; 0xff; 0xff; 0xff; 0xff; 0xff; 0xff; 0xf6;
  0x0; 0x0; 0x0; 0x0; 0x0; 0x0; 0x0; 0x0;
  0x0; 0x0; 0x0; 0x0; 0x0; 0x0; 0x0; 0x0;
  0x0; 0x0; 0x0; 0x0; 0x0; 0x0; 0x0; 0x0;
  0x0; 0x0; 0x0; 0x0; 0x0; 0x1; 0xff; 0xff;
  0xff; 0xff; 0xff; 0xff; 0xff; 0xff; 0xff; 0xff;
  0x60; 0x0; 0x0; 0x0; 0x0; 0x0; 0x0; 0x0;
  0x0; 0x0; 0x0; 0x0; 0x0; 0x0; 0x0; 0x0;
  0x0; 0x0; 0x0; 0x0; 0x0; 0x0; 0x0; 0x0;
  0x0; 0x0; 0x0; 0x0; 0x0; 0x0; 0x1f; 0xff;
  0xff; 0xff; 0xff; 0xff; 0xff; 0xff; 0xff; 0xff;
  0xf6; 0x0; 0x0; 0x0; 0x0; 0x0; 0x0; 0x0;
  0x0; 0x0; 0x0; 0x0; 0x0; 0x0; 0x0; 0x0;
  0x0; 0x0; 0x0; 0x0; 0x0; 0x0; 0x0; 0x0;
  0x0; 0x0; 0x0; 0x0; 0x0; 0x0; 0x1; 0xff;
  0xff; 0xff; 0xff; 0xff; 0xff; 0xff; 0xff; 0xff;
  0xff; 0x60; 0x0; 0x0; 0x0; 0x0; 0x0; 0x0;
  0x0; 0x0; 0x0; 0x0; 0x0; 0x0; 0x0; 0x0;
  0x0; 0x0; 0x0; 0x0; 0x0; 0x0; 0x0; 0x0;
  0x0; 0x0; 0x0; 0x0; 0x0; 0x0; 0x0; 0x1f;
  0xff; 0xff; 0xff; 0xff; 0xff; 0xff; 0xff; 0xff;
  0xff; 0xf6; 0x0; 0x0; 0x0; 0x0; 0x0; 0x0;
  0x0; 0x0; 0x0; 0x0; 0x0; 0x0; 0x0; 0x0;
  0x0; 0x0; 0x0; 0x0; 0x0; 0x0; 0x0; 0x0;
  0x0; 0x0; 0x0; 0x0; 0x0; 0x0; 0x0; 0x1;
  0xff; 0xff; 0xff; 0xff; 0xff; 0xff; 0xff; 0xff;
  0xff; 0xff; 0x60; 0x0; 0x0; 0x0; 0x0; 0x0;
  0x0; 0x0; 0x0; 0x0; 0x0; 0x0; 0x0; 0x0;
  0x0; 0x0; 0x0; 0x0; 0x0; 0x0; 0x0; 0x0;
  0x0; 0x0; 0x0; 0x0; 0x0; 0x0; 0x0; 0x0;
  0x1f; 0xff; 0xff; 0xff; 0xff; 0xff; 0xff; 0xff;
  0xff; 0xff; 0xf6; 0x0; 0x0; 0x0; 0x0; 0x0;
  0x0; 0x0; 0x0; 0x0; 0x0; 0x0; 0x0; 0x0;
  0x0; 0x0; 0x0; 0x0; 0x0; 0x0; 0x0; 0x0;
  0x0; 0x0; 0x0; 0x0; 0x0; 0x0; 0x0; 0x0;
  0x1; 0xff; 0xff; 0xff; 0xff; 0xff; 0xff; 0xff;
  0xff; 0xff; 0xff; 0x60; 0x0; 0x0; 0x0; 0x0;
  0x0; 0x0; 0x0; 0x0; 0x0; 0x0; 0x0; 0x0;
  0x0; 0x0; 0x0; 0x0; 0x0; 0x0; 0x0; 0x0;
  0x0; 0x0; 0x0; 0x0; 0x0; 0x0; 0x0; 0x0;
  0x0; 0x1f; 0xff; 0xff; 0xff; 0xff; 0xff; 0xff;
  0xff; 0xff; 0xff; 0xf6; 0x0; 0x0; 0x0; 0x0;
  0x0; 0x0; 0x0; 0x0; 0x0; 0x0; 0x0; 0x0;
  0x0; 0x0; 0x0; 0x0; 0x0; 0x0; 0x0; 0x0;
  0x0; 0x0; 0x0; 0x0; 0x0; 0x0; 0x0; 0x0;
  0x0; 0x1; 0xff; 0xff; 0xff; 0xff; 0xff; 0xff;
  0xff; 0xff; 0xff; 0xff; 0x60; 0x0; 0x0; 0x0;
  0x0; 0x0; 0x0; 0x0; 0x0; 0x0; 0x0; 0x0;
  0x0; 0x0; 0x0; 0x0; 0x0; 0x0; 0x0; 0x0;
  0x0; 0x0; 0x0; 0x0; 0x0; 0x0; 0x0; 0x0;
  0x0; 0x0; 0x1f; 0xff; 0xff; 0xff; 0xff; 0xff;
  0xff; 0xff; 0xff; 0xff; 0xf6; 0x0; 0x0; 0x0;
  0x0; 0x0; 0x0; 0x0; 0x0; 0x0; 0x0; 0x0;
  0x0; 0x0; 0x0; 0x0; 0x0; 0x0; 0x0; 0x0;
  0x0; 0x0; 0x0; 0x0; 0x0; 0x0; 0x0; 0x0;
  0x0; 0x0; 0x1; 0xff; 0xff; 0xff; 0xff; 0xff;
  0xff; 0xff; 0xff; 0xff; 0xff; 0x60; 0x0; 0x0;
  0x0; 0x0; 0x0; 0x0; 0x0; 0x0; 0x0; 0x0;
  0x0; 0x0; 0x0; 0x0; 0x0; 0x0; 0x0; 0x0;
  0x0; 0x0; 0x0; 0x0; 0x0; 0x0; 0x0; 0x0;
  0x0; 0x0; 0x0; 0x1f; 0xff; 0xff; 0xff; 0xff;
  0xff; 0xff; 0xff; 0xff; 0xff; 0xf6; 0x0; 0x0;
  0x0; 0x0; 0x0; 0x0; 0x0; 0x0; 0x0; 0x0;
  0x0; 0x0; 0x0; 0x0; 0x0; 0x0; 0x0; 0x0;
  0x0; 0x0; 0x0; 0x0; 0x0; 0x0; 0x0; 0x0;
  0x0; 0x0; 0x0; 0x1; 0xff; 0xff; 0xff; 0xff;
  0xff; 0xff; 0xff; 0xff; 0xff; 0xff; 0x60; 0x0;
  0x0; 0x0; 0x0; 0x0; 0x0; 0x0; 0x0; 0x0;
  0x0; 0x0; 0x0; 0x0; 0x0; 0x0; 0x0; 0x0;
  0x0; 0x0; 0x0; 0x0; 0x0; 0x0; 0x0; 0x0;
  0x0; 0x0; 0x0; 0x0; 0x1f; 0xff; 0xff; 0xff;
  0xff; 0xff; 0xff; 0xff; 0xff; 0xff; 0xf6; 0x0;
  0x0; 0x0; 0x0; 0x0; 0x0; 0x0; 0x0; 0x0;
  0x0; 0x0; 0x0; 0x0; 0x0; 0x0; 0x0; 0x0;
  0x0; 0x0; 0x0; 0x0; 0x0; 0x0; 0x0; 0x0;
  0x0; 0x0; 0x0; 0x0; 0x1; 0xff; 0xff; 0xff;
  0xff; 0xff; 0xff; 0xff; 0xff; 0xff; 0xff; 0x60;
  0x0; 0x0; 0x0; 0x0; 0x0; 0x0; 0x0; 0x0;
  0x0; 0x0; 0x0; 0x0; 0x0; 0x0; 0x0; 0x0;
  0x0; 0x0; 0x0; 0x0; 0x0; 0x0; 0x0; 0x0;
  0x0; 0x0; 0x0; 0x0; 0x0; 0x1f; 0xff; 0xff;
  0xff; 0xff; 0xff; 0xff; 0xff; 0xff; 0xff; 0xf6;
  0x0; 0x0; 0x0; 0x0; 0x0; 0x0; 0x0; 0x0 ].

Definition quicksand256_bitmap_44 : list Z :=
  [ 0x0; 0x0; 0x0; 0x0; 0x0; 0x0; 0x0; 0x0;
  0x0; 0x0; 0x0; 0x0; 0x0; 0x0; 0x0; 0x0;
  0x0; 0x0; 0x0; 0x0; 0x0; 0x1; 0xff; 0xff;
  0xff; 0xff; 0xff; 0xff; 0xff; 0xff; 0xff; 0xff;
  0x60; 0x0; 0x0; 0x0; 0x0; 0x0; 0x0; 0x0;
  0x0; 0x0; 0x0; 0x0; 0x0; 0x0; 0x0; 0x0;
  0x0; 0x0; 0x0; 0x0; 0x0; 0x0; 0x0; 0x0;
  0x0; 0x0; 0x0; 0x0; 0x0; 0x0; 0x1f; 0xff;
  0xff; 0xff; 0xff; 0xff; 0xff; 0xff; 0xff; 0xff;
  0xf6; 0x0; 0x0; 0x0; 0x0; 0x0; 0x0; 0x0;
  0x0; 0x0; 0x0; 0x0; 0x0; 0x0; 0x0; 0x0;
  0x0; 0x0; 0x0; 0x0; 0x0; 0x0; 0x0; 0x0;
  0x0; 0x0; 0x0; 0x0; 0x0; 0x0; 0x0; 0xff;
  0xff; 0xff; 0xff; 0xff; 0xff; 0xff; 0xff; 0xff;
  0xff; 0x60; 0x0; 0x0; 0x0; 0x0; 0x0; 0x0;
  0x0; 0x0; 0x0; 0x0; 0x0; 0x0; 0x0; 0x0;
  0x0; 0x0; 0x0; 0x0; 0x0; 0x0; 0x0; 0x0;
  0x0; 0x0; 0x0; 0x0; 0x0; 0x0; 0x0; 0xf;
  0xff; 0xff; 0xff; 0xff; 0xff; 0xff; 0xff; 0xff;
  0xff; 0xf5; 0x0; 0x0; 0x0; 0x0; 0x0; 0x0;
  0x0; 0x0; 0x0; 0x0; 0x0; 0x0; 0x0; 0x0;
  0x0; 0x0; 0x0; 0x0; 0x0; 0x0; 0x0; 0x0;
  0x0; 0x0; 0x0; 0x0; 0x0; 0x0; 0x0; 0x0;
  0xef; 0xff; 0xff; 0xff; 0xff; 0xff; 0xff; 0xff;
  0xff; 0xff; 0x30; 0x0; 0x0; 0x0; 0x0; 0x0;
  0x0; 0x0; 0x0; 0x0; 0x0; 0x0; 0x0; 0x0;
  0x0; 0x0; 0x0; 0x0; 0x0; 0x0; 0x0; 0x0;
  0x0; 0x0; 0x0; 0x0; 0x0; 0x0; 0x0; 0x0;
  0xa; 0xff; 0xff; 0xff; 0xff; 0xff; 0xff; 0xff;
  0xff; 0xff; 0xf0; 0x0; 0x0; 0x0; 0x0; 0x0;
  0x0; 0x0; 0x0; 0x0; 0x0; 0x0; 0x0; 0x0;
  0x0; 0x0; 0x0; 0x0; 0x0; 0x0; 0x0; 0x0;
  0x0; 0x0; 0x0; 0x0; 0x0; 0x0; 0x0; 0x0;
  0x0; 0x5f; 0xff; 0xff; 0xff; 0xff; 0xff; 0xff;
  0xff; 0xff; 0xfa; 0x0; 0x0; 0x0; 0x0; 0x0;
  0x0; 0x0; 0x0; 0x0; 0x0; 0x0; 0x0; 0x0;
  0x0; 0x0; 0x0; 0x0; 0x0; 0x0; 0x0; 0x0;
  0x0; 0x0; 0x0; 0x0; 0x0; 0x0; 0x0; 0x0;
  0x0; 0x0; 0xdf; 0xff; 0xff; 0xff; 0xff; 0xff;
  0xff; 0xff; 0xff; 0x30; 0x0; 0x0; 0x0; 0x0;
  0x0; 0x0; 0x0; 0x0; 0x0; 0x0; 0x0; 0x0;
  0x0; 0x0; 0x0; 0x0; 0x0; 0x0; 0x0; 0x0;
  0x0; 0x0; 0x0; 0x0; 0x0; 0x0; 0x0; 0x0;
  0x0; 0x0; 0x4; 0xff; 0xff; 0xff; 0xff; 0xff;
  0xff; 0xff; 0xff; 0x90; 0x0; 0x0; 0x0; 0x0;
  0x0; 0x0; 0x0; 0x0; 0x0; 0x0; 0x0; 0x0;
  0x0; 0x0; 0x0; 0x0; 0x0; 0x0; 0x0; 0x0;
  0x0; 0x0; 0x0; 0x0; 0x0; 0x0; 0x0; 0x0;
  0x0; 0x0; 0x0; 0x7; 0xff; 0xff; 0xff; 0xff;
  0xff; 0xff; 0xff; 0xc0; 0x0; 0x0; 0x0; 0x0;
  0x0; 0x0; 0x0; 0x0; 0x0; 0x0; 0x0; 0x0;
  0x0; 0x0; 0x0; 0x0; 0x0; 0x0; 0x0; 0x0;
  0x0; 0x0; 0x0; 0x0; 0x0; 0x0; 0x0; 0x0;
  0x0; 0x0; 0x0; 0x0; 0x8; 0xff; 0xff; 0xff;
  0xff; 0xff; 0xff; 0xc1; 0x0; 0x0; 0x0; 0x0;
  0x0; 0x0; 0x0; 0x0; 0x0; 0x0; 0x0; 0x0;
  0x0; 0x0; 0x0; 0x0; 0x0; 0x0; 0x0; 0x0;
  0x0; 0x0; 0x0; 0x0; 0x0; 0x0; 0x0; 0x0;
  0x0; 0x0; 0x0; 0x0; 0x0; 0x4; 0xdf; 0xff;
  0xff; 0xff; 0xff; 0x80; 0x0; 0x0; 0x0; 0x0;
  0x0; 0x0; 0x0; 0x0; 0x0; 0x0; 0x0; 0x0;
  0x0; 0x0; 0x0; 0x0; 0x0; 0x0; 0x0; 0x0;
  0x0; 0x0; 0x0; 0x0; 0x0; 0x0; 0x0; 0x0;
  0x0; 0x0; 0x0; 0x0; 0x0; 0x0; 0x0; 0x5a;
  0xdf; 0xfe; 0xb7; 0x10; 0x0; 0x0; 0x0; 0x0;
  0x0; 0x0; 0x0; 0x0; 0x0; 0x0; 0x0; 0x0;
  0x0; 0x0; 0x0; 0x0; 0x0; 0x0; 0x0; 0x0;
  0x0; 0x0; 0x0; 0x0; 0x0; 0x0; 0x0; 0x0;
  0x0; 0x0; 0x0; 0x0 ].

Definition quicksand256_glyph_bitmap : list Z :=
  quicksand256_bitmap_0 ++ quicksand256_bitmap_1 ++ quicksand256_bitmap_2 ++
  quicksand256_bitmap_3 ++ quicksand256_bitmap_4 ++ quicksand256_bitmap_5 ++
  quicksand256_bitmap_6 ++ quicksand256_bitmap_7 ++ quicksand256_bitmap_8 ++
  quicksand256_bitmap_9 ++ quicksand256_bitmap_10 ++ quicksand256_bitmap_11 ++
  quicksand256_bitmap_12 ++ quicksand256_bitmap_13 ++ quicksand256_bitmap_14 ++
  quicksand256_bitmap_15 ++ quicksand256_bitmap_16 ++ quicksand256_bitmap_17 ++
  quicksand256_bitmap_18 ++ quicksand256_bitmap_19 ++ quicksand256_bitmap_20 ++
  quicksand256_bitmap_21 ++ quicksand256_bitmap_22 ++ quicksand256_bitmap_23 ++
  quicksand256_bitmap_24 ++ quicksand256_bitmap_25 ++ quicksand256_bitmap_26 ++
  quicksand256_bitmap_27 ++ quicksand256_bitmap_28 ++ quicksand256_bitmap_29 ++
  quicksand256_bitmap_30 ++ quicksand256_bitmap_31 ++ quicksand256_bitmap_32 ++
  quicksand256_bitmap_33 ++ quicksand256_bitmap_34 ++ quicksand256_bitmap_35 ++
  quicksand256_bitmap_36 ++ quicksand256_bitmap_37 ++ quicksand256_bitmap_38 ++
  quicksand256_bitmap_39 ++ quicksand256_bitmap_40 ++ quicksand256_bitmap_41 ++
  quicksand256_bitmap_42 ++ quicksand256_bitmap_43 ++ quicksand256_bitmap_44.

(** The glyphs: the bitmap cut at the comments of the source, with the code point of each
    comment and the bytes up to the next. *)
Definition quicksand256_table : list (Z * list Z) := cut_glyphs
  [ (0x20, 0);
  (0x50, 10890);
  (0x63, 7923);
  (0x6e, 7684);
  (0x6f, 9313);
  (0x70, 11904);
  (0x72, 5508) ] quicksand256_glyph_bitmap.

(** Glyph 0 is reserved. *)
Definition quicksand256_glyph_dsc : list glyph_dsc_t :=
  [ glyph 0 0 0 0 0 0;
  glyph 0 1126 0 0 0 0;
  glyph 0 2454 121 180 22 0;
  glyph 10890 2126 114 139 11 (-3);
  glyph 18813 2392 113 136 18 0;
  glyph 26497 2503 134 139 11 (-3);
  glyph 35810 2515 128 186 18 (-51);
  glyph 47714 1642 81 136 18 0 ].

Definition quicksand256_cmaps : list cmap_t :=
  [ mkCmap 32 83 1 [ 0x0; 0x30; 0x43; 0x4e; 0x4f; 0x50; 0x52 ] [] 7 CMAP_SPARSE_TINY ].

Definition quicksand256_kern_pairs : kern_pair_t :=
  mkKern [ 2; 3; 2; 5; 7; 3; 7; 5 ] [ -41; -41; -90; -90 ] 4 0.

Definition quicksand256_font_dsc : font_dsc_t :=
  mkFontDsc quicksand256_glyph_bitmap quicksand256_glyph_dsc quicksand256_cmaps (Some quicksand256_kern_pairs) 16 1 4 0 0.

Definition quicksand_256 : font_t :=
  mkFont 231 51 (-26) 13 quicksand256_font_dsc.
