(* ===== verification/SfSymbols.v ===== *)
(** * SfSymbols: the tables of [fonts/sf_symbols_48.c]

    The font of the two symbols of the power buttons at 48 pixels, four bits a pixel.
    The bitmap in pieces of 150 lines of the source, its glyphs, then the table of
    the descriptors, the character map and the font itself. *)

From stdpp Require Import base list numbers option.
From S2P Require Import Prelude FontFormat.

Open Scope Z_scope.

Definition sf_symbols_bitmap_0 : list Z :=
  [ 0x0; 0x0; 0x0; 0x0; 0x0; 0x0; 0x0; 0x0;
  0x0; 0x3d; 0xd4; 0x0; 0x0; 0x0; 0x0; 0x0;
  0x0; 0x0; 0x0; 0x0; 0x0; 0x0; 0x0; 0x0;
  0x0; 0x0; 0x0; 0x0; 0x0; 0x0; 0xbf; 0xff;
  0x40; 0x0; 0x0; 0x0; 0x0; 0x0; 0x0; 0x0;
  0x0; 0x0; 0x0; 0x0; 0x0; 0x0; 0x0; 0x0;
  0x0; 0x0; 0x0; 0xaf; 0xff; 0xf4; 0x0; 0x0;
  0x0; 0x0; 0x0; 0x0; 0x0; 0x0; 0x0; 0x0;
  0x0; 0x0; 0x0; 0x0; 0x0; 0x0; 0x0; 0x0;
  0x2e; 0xff; 0xff; 0x40; 0x0; 0x0; 0x0; 0x0;
  0x0; 0x0; 0x0; 0x0; 0x0; 0x0; 0x0; 0x0;
  0x0; 0x0; 0x0; 0x0; 0x0; 0x2; 0xef; 0xff;
  0xf4; 0x0; 0x0; 0x0; 0x0; 0x0; 0x0; 0x0;
  0x0; 0x0; 0x0; 0x0; 0x0; 0x0; 0x0; 0x0;
  0x0; 0x0; 0x0; 0x2e; 0xff; 0xff; 0x40; 0x0;
  0x0; 0x0; 0x0; 0x0; 0x0; 0x0; 0x0; 0x0;
  0x0; 0x0; 0x0; 0x0; 0x0; 0x0; 0x0; 0x0;
  0x2; 0xef; 0xff; 0xf4; 0x0; 0x0; 0x0; 0x0;
  0x0; 0x0; 0x0; 0x0; 0x0; 0x0; 0x0; 0x0;
  0x0; 0x0; 0x0; 0x0; 0x0; 0x0; 0x2e; 0xff;
  0xff; 0x30; 0x0; 0x0; 0x0; 0x0; 0x0; 0x0;
  0x0; 0x0; 0x0; 0x0; 0x0; 0x0; 0x0; 0x0;
  0x0; 0x0; 0x0; 0x2; 0xef; 0xff; 0xf3; 0x0;
  0x0; 0x0; 0x0; 0x0; 0x0; 0x0; 0x0; 0x0;
  0x0; 0x0; 0x0; 0x0; 0x3; 0x7a; 0xcd; 0xee;
  0xdc; 0xbf; 0xff; 0xff; 0x30; 0x0; 0x0; 0x0;
  0x0; 0x0; 0x0; 0x0; 0x0; 0x0; 0x0; 0x0;
  0x28; 0xef; 0xff; 0xff; 0xff; 0xff; 0xff; 0xff;
  0xff; 0xf2; 0x0; 0x0; 0x0; 0x0; 0x0; 0x0;
  0x0; 0x0; 0x0; 0x0; 0x2a; 0xff; 0xff; 0xff;
  0xff; 0xff; 0xff; 0xff; 0xff; 0xff; 0xf9; 0x0;
  0x0; 0x0; 0x0; 0x0; 0x0; 0x0; 0x0; 0x0;
  0x8; 0xff; 0xff; 0xff; 0xff; 0xfe; 0xdd; 0xef;
  0xff; 0xff; 0xff; 0xf7; 0x0; 0x0; 0x0; 0x0;
  0x0; 0x0; 0x0; 0x0; 0x1; 0xcf; 0xff; 0xff;
  0xfb; 0x63; 0x0; 0x0; 0x0; 0x1a; 0xff; 0xff;
  0xb0; 0x0; 0x0; 0x0; 0x0; 0x0; 0x0; 0x0;
  0x0; 0x2e; 0xff; 0xff; 0xf8; 0x10; 0x0; 0x0;
  0x0; 0x0; 0x7f; 0xff; 0xfb; 0x0; 0x0; 0x0;
  0x0; 0x0; 0x0; 0x0; 0x0; 0x2; 0xef; 0xff;
  0xfb; 0x10; 0x0; 0x0; 0x0; 0x0; 0x7; 0xff;
  0xff; 0xc0; 0x0; 0x0; 0x0; 0x0; 0x0; 0x0;
  0x0; 0x0; 0x1e; 0xff; 0xff; 0x60; 0x0; 0x0;
  0x0; 0x0; 0x0; 0x7f; 0xff; 0xfc; 0x0; 0x0;
  0x0; 0x0; 0x0; 0x0; 0x0; 0x0; 0x0; 0xbf;
  0xff; 0xf4; 0x0; 0x0; 0x0; 0x0; 0x0; 0x7;
  0xff; 0xff; 0xc0; 0x0; 0x0; 0x0; 0x0; 0x0;
  0x0; 0x0; 0x0; 0x7; 0xff; 0xff; 0x50; 0x0;
  0x0; 0x0; 0x0; 0x0; 0x7f; 0xff; 0xfc; 0x0;
  0x0; 0x0; 0x0; 0x0; 0x0; 0x0; 0x0; 0x0;
  0x1f; 0xff; 0xf8; 0x0; 0x0; 0x0; 0x0; 0x0;
  0x8; 0xff; 0xff; 0xc0; 0x0; 0x0; 0x0; 0x0;
  0x0; 0x0; 0x0; 0x0; 0x0; 0x9f; 0xff; 0xc0;
  0x0; 0x0; 0x0; 0x0; 0x0; 0x6f; 0xff; 0xfc;
  0x0; 0x0; 0x0; 0x0; 0x0; 0x0; 0x0; 0x0;
  0x0; 0x1; 0xff; 0xff; 0x30; 0x0; 0x0; 0x0;
  0x0; 0x0; 0xbf; 0xff; 0xc0; 0x0; 0x0; 0x0;
  0x0; 0x0; 0x0; 0x0; 0x0; 0x0; 0x7; 0xff;
  0xfa; 0x0; 0x0; 0x0; 0x0; 0x0; 0x0; 0x8f;
  0xfc; 0x0; 0x0; 0x0; 0x0; 0x0; 0x0; 0x0;
  0x0; 0x0; 0x0; 0xd; 0xff; 0xf2; 0x0; 0x0;
  0x0; 0x0; 0x0; 0x0; 0x5; 0x50; 0x0; 0x0;
  0x0; 0x0; 0x0; 0x0; 0x0; 0x0; 0x0; 0x0;
  0x1f; 0xff; 0xd0; 0x0; 0x0; 0x0; 0x0; 0x0;
  0x0; 0x0; 0x0; 0x0; 0x0; 0x0; 0x0; 0x0;
  0x0; 0x0; 0x0; 0x0; 0x0; 0x5f; 0xff; 0x80;
  0x0; 0x0; 0x0; 0x0; 0x0; 0x0; 0x0; 0x0;
  0x0; 0x0; 0x0; 0x0; 0x0; 0x0; 0x0; 0x0;
  0x0; 0x0; 0x8f; 0xff; 0x40; 0x0; 0x0; 0x0;
  0x0; 0x0; 0x0; 0x0; 0x0; 0x0; 0x0; 0x0;
  0x0; 0x0; 0x0; 0x0; 0x0; 0x0; 0x0; 0xaf;
  0xff; 0x20; 0x0; 0x0; 0x0; 0x0; 0x0; 0x0;
  0x0; 0x0; 0x0; 0x0; 0x0; 0x0; 0x0; 0x0;
  0x0; 0x0; 0x1; 0x0; 0xbf; 0xff; 0x0; 0x0;
  0x0; 0x0; 0x0; 0x0; 0x0; 0x0; 0x0; 0x0;
  0x0; 0x0; 0x0; 0x0; 0x0; 0x0; 0x0; 0xaf;
  0xe2; 0xcf; 0xff; 0x0; 0x0; 0x0; 0x0; 0x0;
  0x0; 0x0; 0x0; 0x0; 0x0; 0x0; 0x0; 0x0;
  0x0; 0x0; 0x0; 0x1; 0xff; 0xf8; 0xcf; 0xff;
  0x0; 0x0; 0x0; 0x0; 0x0; 0x0; 0x0; 0x0;
  0x0; 0x0; 0x0; 0x0; 0x0; 0x0; 0x0; 0x0;
  0x3; 0xff; 0xf9; 0xbf; 0xff; 0x0; 0x0; 0x0;
  0x0; 0x0; 0x0; 0x0; 0x0; 0x0; 0x0; 0x0;
  0x0; 0x0; 0x0; 0x0; 0x0; 0x3; 0xff; 0xf8;
  0x9f; 0xff; 0x20; 0x0; 0x0; 0x0; 0x0; 0x0;
  0x0; 0x0; 0x0; 0x0; 0x0; 0x0; 0x0; 0x0;
  0x0; 0x0; 0x6; 0xff; 0xf6; 0x7f; 0xff; 0x50;
  0x0; 0x0; 0x0; 0x0; 0x0; 0x0; 0x0; 0x0;
  0x0; 0x0; 0x0; 0x0; 0x0; 0x0; 0x0; 0x8;
  0xff; 0xf4; 0x4f; 0xff; 0x90; 0x0; 0x0; 0x0;
  0x0; 0x0; 0x0; 0x0; 0x0; 0x0; 0x0; 0x0;
  0x0; 0x0; 0x0; 0x0; 0xc; 0xff; 0xf1; 0xf;
  0xff; 0xe0; 0x0; 0x0; 0x0; 0x0; 0x0; 0x0;
  0x0; 0x0; 0x0; 0x0; 0x0; 0x0; 0x0; 0x0;
  0x0; 0x1f; 0xff; 0xd0; 0xb; 0xff; 0xf5; 0x0;
  0x0; 0x0; 0x0; 0x0; 0x0; 0x0; 0x0; 0x0;
  0x0; 0x0; 0x0; 0x0; 0x0; 0x0; 0x7f; 0xff;
  0x80; 0x5; 0xff; 0xfd; 0x0; 0x0; 0x0; 0x0;
  0x0; 0x0; 0x0; 0x0; 0x0; 0x0; 0x0; 0x0;
  0x0; 0x0; 0x0; 0xef; 0xff; 0x20; 0x0; 0xef;
  0xff; 0x50; 0x0; 0x0; 0x0; 0x0; 0x0; 0x0;
  0x0; 0x0; 0x0; 0x0; 0x0; 0x0; 0x0; 0x8;
  0xff; 0xfb; 0x0; 0x0; 0x7f; 0xff; 0xe1; 0x0;
  0x0; 0x0; 0x0; 0x0; 0x0; 0x0; 0x0; 0x0;
  0x0; 0x0; 0x0; 0x0; 0x2f; 0xff; 0xf4; 0x0;
  0x0; 0xd; 0xff; 0xfb; 0x0; 0x0; 0x0; 0x0;
  0x0; 0x0; 0x0; 0x0; 0x0; 0x0; 0x0; 0x0;
  0x0; 0xdf; 0xff; 0xb0; 0x0; 0x0; 0x4; 0xff;
  0xff; 0x90; 0x0; 0x0; 0x0; 0x0; 0x0; 0x0;
  0x0; 0x0; 0x0; 0x0; 0x0; 0xb; 0xff; 0xff;
  0x20; 0x0; 0x0; 0x0; 0x8f; 0xff; 0xf8; 0x0;
  0x0; 0x0; 0x0; 0x0; 0x0; 0x0; 0x0; 0x0;
  0x0; 0x0; 0xbf; 0xff; 0xf5; 0x0; 0x0; 0x0;
  0x0; 0xb; 0xff; 0xff; 0xb1; 0x0; 0x0; 0x0;
  0x0; 0x0; 0x0; 0x0; 0x0; 0x0; 0x2d; 0xff;
  0xff; 0x80; 0x0; 0x0; 0x0; 0x0; 0x0; 0xcf;
  0xff; 0xfe; 0x50; 0x0; 0x0; 0x0; 0x0; 0x0;
  0x0; 0x0; 0x7; 0xff; 0xff; 0xfa; 0x0; 0x0;
  0x0; 0x0; 0x0; 0x0; 0xb; 0xff; 0xff; 0xfd;
  0x60; 0x0; 0x0; 0x0; 0x0; 0x0; 0x17; 0xef;
  0xff; 0xff; 0x90; 0x0; 0x0; 0x0; 0x0; 0x0;
  0x0; 0x0; 0x8f; 0xff; 0xff; 0xff; 0xb7; 0x53;
  0x22; 0x35; 0x8c; 0xff; 0xff; 0xff; 0xf6; 0x0;
  0x0; 0x0; 0x0; 0x0; 0x0; 0x0; 0x0; 0x3;
  0xdf; 0xff; 0xff; 0xff; 0xff; 0xff; 0xff; 0xff;
  0xff; 0xff; 0xfb; 0x20; 0x0; 0x0; 0x0; 0x0;
  0x0; 0x0; 0x0; 0x0; 0x0; 0x6; 0xdf; 0xff;
  0xff; 0xff; 0xff; 0xff; 0xff; 0xff; 0xfc; 0x40;
  0x0; 0x0; 0x0; 0x0; 0x0; 0x0; 0x0; 0x0;
  0x0; 0x0; 0x0; 0x4; 0xae; 0xff; 0xff; 0xff;
  0xff; 0xff; 0xe9; 0x30; 0x0; 0x0; 0x0; 0x0;
  0x0; 0x0; 0x0; 0x0; 0x0; 0x0; 0x0; 0x0;
  0x0; 0x0; 0x25; 0x79; 0x99; 0x97; 0x52; 0x0;
  0x0; 0x0; 0x0; 0x0; 0x0; 0x0; 0x0;
  0x0; 0x0; 0x0; 0x0; 0x0; 0x0; 0x0; 0x0;
  0x0; 0x0; 0x0; 0x0; 0x10; 0x0; 0x0; 0x0;
  0x0; 0x0; 0x0; 0x0; 0x0; 0x0; 0x0; 0x0;
  0x0; 0x0; 0x0; 0x0; 0x0; 0x0; 0x0; 0x0;
  0x0; 0x0; 0x0; 0x4; 0xff; 0x70; 0x0; 0x0;
  0x0; 0x0; 0x0; 0x0; 0x0; 0x0; 0x0; 0x0;
  0x0; 0x0; 0x0; 0x0; 0x0; 0x0; 0x0; 0x0;
  0x0; 0x0; 0x0; 0x0; 0xbf; 0xff; 0x0; 0x0;
  0x0; 0x0; 0x0; 0x0; 0x0; 0x0; 0x0; 0x0;
  0x0; 0x0; 0x0; 0x0; 0x0; 0x0; 0x0; 0x0;
  0x0; 0x0; 0x0; 0x0; 0xc; 0xff; 0xf0; 0x0;
  0x0; 0x0; 0x0; 0x0; 0x0; 0x0; 0x0; 0x0;
  0x0; 0x0; 0x0; 0x0; 0x0; 0x0; 0x0; 0x0 ].

Definition sf_symbols_bitmap_1 : list Z :=
  [ 0x0; 0x0; 0x0; 0x0; 0x0; 0xcf; 0xff; 0x0;
  0x0; 0x0; 0x0; 0x0; 0x0; 0x0; 0x0; 0x0;
  0x0; 0x0; 0x0; 0x0; 0x0; 0x0; 0x0; 0x0;
  0x0; 0x0; 0x0; 0x0; 0x0; 0xc; 0xff; 0xf0;
  0x0; 0x0; 0x0; 0x0; 0x0; 0x0; 0x0; 0x0;
  0x0; 0x0; 0x0; 0x0; 0x0; 0x0; 0x0; 0x0;
  0x0; 0x0; 0x0; 0x0; 0x0; 0x0; 0xcf; 0xff;
  0x0; 0x0; 0x0; 0x0; 0x0; 0x0; 0x0; 0x0;
  0x0; 0x0; 0x0; 0x0; 0x0; 0x0; 0x0; 0x0;
  0x10; 0x0; 0x0; 0x0; 0x0; 0x0; 0xc; 0xff;
  0xf0; 0x0; 0x0; 0x0; 0x0; 0x0; 0x0; 0x0;
  0x0; 0x0; 0x0; 0x0; 0x0; 0x0; 0x0; 0x2;
  0xdf; 0xb0; 0x0; 0x0; 0x0; 0x0; 0x0; 0xcf;
  0xff; 0x0; 0x0; 0x0; 0x0; 0x0; 0x8; 0xfe;
  0x30; 0x0; 0x0; 0x0; 0x0; 0x0; 0x0; 0x1;
  0xdf; 0xff; 0x50; 0x0; 0x0; 0x0; 0x0; 0xc;
  0xff; 0xf0; 0x0; 0x0; 0x0; 0x0; 0x1; 0xff;
  0xff; 0x30; 0x0; 0x0; 0x0; 0x0; 0x0; 0x1;
  0xdf; 0xff; 0xf3; 0x0; 0x0; 0x0; 0x0; 0x0;
  0xcf; 0xff; 0x0; 0x0; 0x0; 0x0; 0x0; 0xf;
  0xff; 0xfe; 0x20; 0x0; 0x0; 0x0; 0x0; 0x0;
  0xbf; 0xff; 0xf8; 0x0; 0x0; 0x0; 0x0; 0x0;
  0xc; 0xff; 0xf0; 0x0; 0x0; 0x0; 0x0; 0x0;
  0x5f; 0xff; 0xfd; 0x0; 0x0; 0x0; 0x0; 0x0;
  0x7f; 0xff; 0xf8; 0x0; 0x0; 0x0; 0x0; 0x0;
  0x0; 0xcf; 0xff; 0x0; 0x0; 0x0; 0x0; 0x0;
  0x0; 0x5f; 0xff; 0xfa; 0x0; 0x0; 0x0; 0x0;
  0x2f; 0xff; 0xfa; 0x0; 0x0; 0x0; 0x0; 0x0;
  0x0; 0xc; 0xff; 0xf0; 0x0; 0x0; 0x0; 0x0;
  0x0; 0x0; 0x7f; 0xff; 0xf5; 0x0; 0x0; 0x0;
  0xb; 0xff; 0xfd; 0x0; 0x0; 0x0; 0x0; 0x0;
  0x0; 0x0; 0xcf; 0xff; 0x0; 0x0; 0x0; 0x0;
  0x0; 0x0; 0x0; 0xaf; 0xff; 0xd0; 0x0; 0x0;
  0x4; 0xff; 0xff; 0x30; 0x0; 0x0; 0x0; 0x0;
  0x0; 0x0; 0xc; 0xff; 0xf0; 0x0; 0x0; 0x0;
  0x0; 0x0; 0x0; 0x1; 0xef; 0xff; 0x70; 0x0;
  0x0; 0xbf; 0xff; 0xa0; 0x0; 0x0; 0x0; 0x0;
  0x0; 0x0; 0x0; 0xcf; 0xff; 0x0; 0x0; 0x0;
  0x0; 0x0; 0x0; 0x0; 0x6; 0xff; 0xfe; 0x0;
  0x0; 0x2f; 0xff; 0xf2; 0x0; 0x0; 0x0; 0x0;
  0x0; 0x0; 0x0; 0xc; 0xff; 0xf0; 0x0; 0x0;
  0x0; 0x0; 0x0; 0x0; 0x0; 0xe; 0xff; 0xf5;
  0x0; 0x8; 0xff; 0xfb; 0x0; 0x0; 0x0; 0x0;
  0x0; 0x0; 0x0; 0x0; 0xcf; 0xff; 0x0; 0x0;
  0x0; 0x0; 0x0; 0x0; 0x0; 0x0; 0x7f; 0xff;
  0xb0; 0x0; 0xdf; 0xff; 0x50; 0x0; 0x0; 0x0;
  0x0; 0x0; 0x0; 0x0; 0xc; 0xff; 0xf0; 0x0;
  0x0; 0x0; 0x0; 0x0; 0x0; 0x0; 0x1; 0xff;
  0xff; 0x10; 0x1f; 0xff; 0xf0; 0x0; 0x0; 0x0;
  0x0; 0x0; 0x0; 0x0; 0x0; 0xcf; 0xff; 0x0;
  0x0; 0x0; 0x0; 0x0; 0x0; 0x0; 0x0; 0xc;
  0xff; 0xf5; 0x4; 0xff; 0xfb; 0x0; 0x0; 0x0;
  0x0; 0x0; 0x0; 0x0; 0x0; 0xc; 0xff; 0xf0;
  0x0; 0x0; 0x0; 0x0; 0x0; 0x0; 0x0; 0x0;
  0x8f; 0xff; 0x80; 0x8f; 0xff; 0x80; 0x0; 0x0;
  0x0; 0x0; 0x0; 0x0; 0x0; 0x0; 0xcf; 0xff;
  0x0; 0x0; 0x0; 0x0; 0x0; 0x0; 0x0; 0x0;
  0x5; 0xff; 0xfb; 0x9; 0xff; 0xf6; 0x0; 0x0;
  0x0; 0x0; 0x0; 0x0; 0x0; 0x0; 0xc; 0xff;
  0xf0; 0x0; 0x0; 0x0; 0x0; 0x0; 0x0; 0x0;
  0x0; 0x2f; 0xff; 0xd0; 0xaf; 0xff; 0x40; 0x0;
  0x0; 0x0; 0x0; 0x0; 0x0; 0x0; 0x0; 0xaf;
  0xfd; 0x0; 0x0; 0x0; 0x0; 0x0; 0x0; 0x0;
  0x0; 0x0; 0xff; 0xff; 0xc; 0xff; 0xf3; 0x0;
  0x0; 0x0; 0x0; 0x0; 0x0; 0x0; 0x0; 0x2;
  0xbc; 0x40; 0x0; 0x0; 0x0; 0x0; 0x0; 0x0;
  0x0; 0x0; 0xf; 0xff; 0xf0; 0xcf; 0xff; 0x30;
  0x0; 0x0; 0x0; 0x0; 0x0; 0x0; 0x0; 0x0;
  0x0; 0x0; 0x0; 0x0; 0x0; 0x0; 0x0; 0x0;
  0x0; 0x0; 0x0; 0xff; 0xff; 0xb; 0xff; 0xf4;
  0x0; 0x0; 0x0; 0x0; 0x0; 0x0; 0x0; 0x0;
  0x0; 0x0; 0x0; 0x0; 0x0; 0x0; 0x0; 0x0;
  0x0; 0x0; 0x0; 0xf; 0xff; 0xf0; 0xaf; 0xff;
  0x50; 0x0; 0x0; 0x0; 0x0; 0x0; 0x0; 0x0;
  0x0; 0x0; 0x0; 0x0; 0x0; 0x0; 0x0; 0x0;
  0x0; 0x0; 0x0; 0x2; 0xff; 0xfe; 0x8; 0xff;
  0xf7; 0x0; 0x0; 0x0; 0x0; 0x0; 0x0; 0x0;
  0x0; 0x0; 0x0; 0x0; 0x0; 0x0; 0x0; 0x0;
  0x0; 0x0; 0x0; 0x0; 0x4f; 0xff; 0xb0; 0x5f;
  0xff; 0xb0; 0x0; 0x0; 0x0; 0x0; 0x0; 0x0;
  0x0; 0x0; 0x0; 0x0; 0x0; 0x0; 0x0; 0x0;
  0x0; 0x0; 0x0; 0x0; 0x7; 0xff; 0xf9; 0x2;
  0xff; 0xfe; 0x0; 0x0; 0x0; 0x0; 0x0; 0x0;
  0x0; 0x0; 0x0; 0x0; 0x0; 0x0; 0x0; 0x0;
  0x0; 0x0; 0x0; 0x0; 0x0; 0xbf; 0xff; 0x50;
  0xe; 0xff; 0xf4; 0x0; 0x0; 0x0; 0x0; 0x0;
  0x0; 0x0; 0x0; 0x0; 0x0; 0x0; 0x0; 0x0;
  0x0; 0x0; 0x0; 0x0; 0x0; 0x1f; 0xff; 0xf1;
  0x0; 0x9f; 0xff; 0x90; 0x0; 0x0; 0x0; 0x0;
  0x0; 0x0; 0x0; 0x0; 0x0; 0x0; 0x0; 0x0;
  0x0; 0x0; 0x0; 0x0; 0x0; 0x6; 0xff; 0xfc;
  0x0; 0x3; 0xff; 0xff; 0x10; 0x0; 0x0; 0x0;
  0x0; 0x0; 0x0; 0x0; 0x0; 0x0; 0x0; 0x0;
  0x0; 0x0; 0x0; 0x0; 0x0; 0x0; 0xdf; 0xff;
  0x60; 0x0; 0xc; 0xff; 0xf8; 0x0; 0x0; 0x0;
  0x0; 0x0; 0x0; 0x0; 0x0; 0x0; 0x0; 0x0;
  0x0; 0x0; 0x0; 0x0; 0x0; 0x0; 0x5f; 0xff;
  0xf1; 0x0; 0x0; 0x5f; 0xff; 0xf2; 0x0; 0x0;
  0x0; 0x0; 0x0; 0x0; 0x0; 0x0; 0x0; 0x0;
  0x0; 0x0; 0x0; 0x0; 0x0; 0x0; 0xe; 0xff;
  0xf8; 0x0; 0x0; 0x0; 0xcf; 0xff; 0xc0; 0x0;
  0x0; 0x0; 0x0; 0x0; 0x0; 0x0; 0x0; 0x0;
  0x0; 0x0; 0x0; 0x0; 0x0; 0x0; 0x9; 0xff;
  0xff; 0x10; 0x0; 0x0; 0x3; 0xff; 0xff; 0x80;
  0x0; 0x0; 0x0; 0x0; 0x0; 0x0; 0x0; 0x0;
  0x0; 0x0; 0x0; 0x0; 0x0; 0x0; 0x5; 0xff;
  0xff; 0x60; 0x0; 0x0; 0x0; 0x9; 0xff; 0xff;
  0x60; 0x0; 0x0; 0x0; 0x0; 0x0; 0x0; 0x0;
  0x0; 0x0; 0x0; 0x0; 0x0; 0x0; 0x3; 0xff;
  0xff; 0xc0; 0x0; 0x0; 0x0; 0x0; 0xc; 0xff;
  0xff; 0x60; 0x0; 0x0; 0x0; 0x0; 0x0; 0x0;
  0x0; 0x0; 0x0; 0x0; 0x0; 0x0; 0x3; 0xef;
  0xff; 0xe1; 0x0; 0x0; 0x0; 0x0; 0x0; 0x2e;
  0xff; 0xff; 0x80; 0x0; 0x0; 0x0; 0x0; 0x0;
  0x0; 0x0; 0x0; 0x0; 0x0; 0x0; 0x5; 0xff;
  0xff; 0xf4; 0x0; 0x0; 0x0; 0x0; 0x0; 0x0;
  0x3f; 0xff; 0xff; 0xb1; 0x0; 0x0; 0x0; 0x0;
  0x0; 0x0; 0x0; 0x0; 0x0; 0x0; 0x9; 0xff;
  0xff; 0xf5; 0x0; 0x0; 0x0; 0x0; 0x0; 0x0;
  0x0; 0x3e; 0xff; 0xff; 0xf7; 0x0; 0x0; 0x0;
  0x0; 0x0; 0x0; 0x0; 0x0; 0x0; 0x5e; 0xff;
  0xff; 0xf5; 0x0; 0x0; 0x0; 0x0; 0x0; 0x0;
  0x0; 0x0; 0x2d; 0xff; 0xff; 0xfe; 0x82; 0x0;
  0x0; 0x0; 0x0; 0x0; 0x0; 0x16; 0xdf; 0xff;
  0xff; 0xe4; 0x0; 0x0; 0x0; 0x0; 0x0; 0x0;
  0x0; 0x0; 0x0; 0xa; 0xff; 0xff; 0xff; 0xfc;
  0x85; 0x31; 0x0; 0x12; 0x47; 0xbf; 0xff; 0xff;
  0xff; 0xc1; 0x0; 0x0; 0x0; 0x0; 0x0; 0x0;
  0x0; 0x0; 0x0; 0x0; 0x4; 0xdf; 0xff; 0xff;
  0xff; 0xff; 0xff; 0xff; 0xff; 0xff; 0xff; 0xff;
  0xfe; 0x60; 0x0; 0x0; 0x0; 0x0; 0x0; 0x0;
  0x0; 0x0; 0x0; 0x0; 0x0; 0x0; 0x6e; 0xff;
  0xff; 0xff; 0xff; 0xff; 0xff; 0xff; 0xff; 0xff;
  0xf8; 0x10; 0x0; 0x0; 0x0; 0x0; 0x0; 0x0;
  0x0; 0x0; 0x0; 0x0; 0x0; 0x0; 0x0; 0x5;
  0xbf; 0xff; 0xff; 0xff; 0xff; 0xff; 0xff; 0xfc;
  0x60; 0x0; 0x0; 0x0; 0x0; 0x0; 0x0; 0x0;
  0x0; 0x0; 0x0; 0x0; 0x0; 0x0; 0x0; 0x0;
  0x0; 0x4; 0x8a; 0xde; 0xff; 0xed; 0xb8; 0x51;
  0x0; 0x0; 0x0; 0x0; 0x0; 0x0; 0x0; 0x0;
  0x0 ].

Definition sf_symbols_glyph_bitmap : list Z :=
  sf_symbols_bitmap_0 ++ sf_symbols_bitmap_1.

(** The glyphs: the bitmap cut at the comments of the source, with the code point of each
    comment and the bytes up to the next. *)
Definition sf_symbols_table : list (Z * list Z) := cut_glyphs
  [ (0x100148, 1071);
  (0x1001a8, 1225) ] sf_symbols_glyph_bitmap.

(** Glyph 0 is reserved. *)
Definition sf_symbols_glyph_dsc : list glyph_dsc_t :=
  [ glyph 0 0 0 0 0 0;
  glyph 0 797 42 51 4 (-6);
  glyph 1071 899 49 50 4 (-7) ].

Definition sf_symbols_cmaps : list cmap_t :=
  [ mkCmap 1048904 97 1 [ 0x0; 0x60 ] [] 2 CMAP_SPARSE_TINY ].

Definition sf_symbols_font_dsc : font_dsc_t :=
  mkFontDsc sf_symbols_glyph_bitmap sf_symbols_glyph_dsc sf_symbols_cmaps None 0 1 4 0 0.

Definition sf_symbols_48 : font_t :=
  mkFont 52 7 (-7) 3 sf_symbols_font_dsc.
