(* ===== verification/Fonts.v ===== *)
(** * Fonts: the fonts of the boot menu

    What the tables of [fonts/open_sans_48.c], [fonts/quicksand_200.c],
    [fonts/quicksand_256.c] and [fonts/sf_symbols_48.c] promise to the boot menu of [bootloader/src/main.rs]:
    with the lookup the graphics library documents, every character that a font
    lists, and every text of the menu, is shown with its own glyph. *)

From stdpp Require Import base list numbers option.
From S2P Require Import Prelude FontFormat OpenSans Quicksand Quicksand256 SfSymbols.

Open Scope Z_scope.

(** The texts of the menu whose font is chosen explicitly: the title, and the
    labels of the buttons that reboot and switch off. *)
Definition title_text : list Z := [0x70; 0x6f; 0x70; 0x63; 0x6f; 0x72; 0x6e].
Abbreviation reboot_text := [0x100148].
Abbreviation shutdown_text := [0x1001a8].

(** ** A lookup that does what the library documents *)

Fixpoint index_of (x : Z) (l : list Z) : option nat :=
  match l with
  | [] => None
  | y :: l => if x =? y then Some 0%nat else S <$> index_of x l
  end.

Definition reference_lookup (cs : list cmap_t) (cp : Z) : Z :=
  match cs with
  | [c] =>
      let ofs := cp - range_start c in
      if (0 <=? ofs) && (ofs <? range_length c) then
        match type c with
        | CMAP_FORMAT0_TINY => glyph_id_start c + ofs
        | CMAP_SPARSE_TINY =>
            match index_of ofs (unicode_list c) with
            | Some i => glyph_id_start c + Z.of_nat i
            | None => 0
            end
        end
      else 0
  | _ => 0
  end.

Lemma increasing_head x l i y :
  increasing (x :: l) = true → l !! i = Some y → x < y.
Proof.
  revert x i. induction l as [|z l IH]; intros x i Hinc Hi; [done|].
  change ((x <? z) && increasing (z :: l) = true) in Hinc.
  apply andb_true_iff in Hinc as [Hx%Z.ltb_lt Hinc]. destruct i as [|i]; simpl in Hi.
  - by injection Hi as ->.
  - pose proof (IH z i Hinc Hi). lia.
Qed.

Lemma increasing_tail x l : increasing (x :: l) = true → increasing l = true.
Proof. destruct l as [|y l]; [done|]. by intros [_ ?]%andb_true_iff. Qed.

Lemma index_of_increasing l i x :
  increasing l = true → l !! i = Some x → index_of x l = Some i.
Proof.
  revert i. induction l as [|y l IH]; intros i Hinc Hi; [done|]. destruct i as [|i]; simpl in *.
  - injection Hi as ->. by rewrite Z.eqb_refl.
  - pose proof (increasing_head y l i x Hinc Hi). rewrite (proj2 (Z.eqb_neq _ _)) by lia.
    by rewrite (IH i) by (by eauto using increasing_tail).
Qed.

#[global] Instance reference_lookup_ok : GlyphLookup reference_lookup.
Proof.
  split.
  - intros c cp Ht Hr. unfold reference_lookup.
    rewrite (proj2 (Z.leb_le _ _)), (proj2 (Z.ltb_lt _ _)) by lia. by rewrite Ht.
  - intros c i ofs Ht Hinc _ Hr Hi. unfold reference_lookup.
    replace (range_start c + ofs - range_start c) with ofs by lia.
    rewrite (proj2 (Z.leb_le _ _)), (proj2 (Z.ltb_lt _ _)) by lia.
    by rewrite Ht, (index_of_increasing _ _ _ Hinc Hi).
Qed.

(** ** The tables agree *)

Lemma open_sans_ok : font_ok open_sans_48 open_sans_table = true.
Proof. vm_compute. reflexivity. Qed.

Lemma quicksand_ok : font_ok quicksand_200 quicksand_table = true.
Proof. vm_compute. reflexivity. Qed.

Lemma sf_symbols_ok : font_ok sf_symbols_48 sf_symbols_table = true.
Proof. vm_compute. reflexivity. Qed.

Lemma quicksand256_ok : font_ok quicksand_256 quicksand256_table = true.
Proof. vm_compute. reflexivity. Qed.

(** The glyph the library is given for a code point. *)
Definition shows (get_glyph_id : list cmap_t → Z → Z) (f : font_t) (cp : Z) (bytes : list Z) : Prop :=
  ∃ g, glyph_dsc (dsc f) !! Z.to_nat (get_glyph_id (cmaps (dsc f)) cp) = Some g ∧
    glyph_slice (dsc f) g = bytes ∧ in_line f g = true.

Definition covers (table : list (Z * list Z)) (text : list Z) : bool :=
  forallb (λ cp, existsb (λ p : Z * list Z, (p.1 =? cp) && negb (bool_decide (p.2 = []))) table) text.

Lemma covers_shows get_glyph_id `{!GlyphLookup get_glyph_id} f table text :
  font_ok f table = true → covers table text = true →
  Forall (λ cp, ∃ bytes, (cp, bytes) ∈ table ∧ bytes ≠ [] ∧ shows get_glyph_id f cp bytes) text.
Proof.
  intros Hok Hc. unfold covers in Hc. rewrite forallb_forall in Hc. apply Forall_forall. intros cp Hcp.
  specialize (Hc cp Hcp). apply existsb_exists in Hc as ([cp' bytes] & Hin%list_elem_of_In & Hcp').
  apply andb_true_iff in Hcp' as [Heq%Z.eqb_eq Hne%negb_true_iff%bool_decide_eq_false]. simpl in Heq, Hne. subst cp'.
  exists bytes. split_and!; [done|done|]. apply list_elem_of_lookup in Hin as [i Hi].
  by apply (font_ok_shows get_glyph_id f table i).
Qed.

(** ** Properties *)

(** C33. With any lookup that does what the library documents, each of the
    four fonts shows for each character it lists exactly the bytes the source
    gives for that character, inside the line of the font; the menu font lists
    the printable ASCII characters. *)
Theorem fonts_show_their_glyphs get_glyph_id (Hget : GlyphLookup get_glyph_id) :
  (∀ cp, 32 ≤ cp ≤ 126 → ∃ bytes, open_sans_table !! Z.to_nat (cp - 32) = Some (cp, bytes) ∧
     shows get_glyph_id open_sans_48 cp bytes) ∧
  (∀ cp bytes, (cp, bytes) ∈ quicksand_table → shows get_glyph_id quicksand_200 cp bytes) ∧
  (∀ cp bytes, (cp, bytes) ∈ sf_symbols_table → shows get_glyph_id sf_symbols_48 cp bytes) ∧
  (∀ cp bytes, (cp, bytes) ∈ quicksand256_table → shows get_glyph_id quicksand_256 cp bytes).
Proof.
  split_and!.
  - intros cp Hcp. assert (forallb (λ i, match open_sans_table !! i with
      | Some p => p.1 =? 32 + Z.of_nat i | None => false end) (seq 0 95) = true) as Hall
      by (vm_compute; reflexivity).
    rewrite forallb_forall in Hall. specialize (Hall (Z.to_nat (cp - 32))).
    destruct (open_sans_table !! Z.to_nat (cp - 32)) as [[cp' bytes]|] eqn:E;
      [|discriminate Hall; apply in_seq; lia].
    assert (cp' = cp) as -> by (specialize (Hall ltac:(apply in_seq; lia)); apply Z.eqb_eq in Hall; simpl in Hall; lia).
    exists bytes. split; [done|]. eapply font_ok_shows; [done|apply open_sans_ok|done].
  - intros cp bytes [i Hi]%list_elem_of_lookup. by eapply font_ok_shows; [done|apply quicksand_ok|].
  - intros cp bytes [i Hi]%list_elem_of_lookup. by eapply font_ok_shows; [done|apply sf_symbols_ok|].
  - intros cp bytes [i Hi]%list_elem_of_lookup. by eapply font_ok_shows; [done|apply quicksand256_ok|].
Qed.

Lemma fonts_show_their_glyphs_witness :
  GlyphLookup reference_lookup ∧ shows reference_lookup quicksand_200 0x63
    (take 2403 (drop 3325 quicksand_glyph_bitmap)).
Proof.
  split; [exact reference_lookup_ok|].
  apply (fonts_show_their_glyphs reference_lookup reference_lookup_ok).
  apply list_elem_of_lookup. exists 1%nat. reflexivity.
Defined.

(** Every character of the title and of the two power buttons has a
    glyph that is not blank in the font its label uses. *)
Theorem menu_texts_have_glyphs get_glyph_id (Hget : GlyphLookup get_glyph_id) :
  Forall (λ cp, ∃ bytes, (cp, bytes) ∈ quicksand_table ∧ bytes ≠ [] ∧ shows get_glyph_id quicksand_200 cp bytes)
    title_text ∧
  Forall (λ cp, ∃ bytes, (cp, bytes) ∈ sf_symbols_table ∧ bytes ≠ [] ∧ shows get_glyph_id sf_symbols_48 cp bytes)
    (reboot_text ++ shutdown_text).
Proof.
  split; apply covers_shows; first [exact Hget | apply quicksand_ok | apply sf_symbols_ok | vm_compute; reflexivity].
Qed.

Lemma menu_texts_have_glyphs_witness :
  GlyphLookup reference_lookup ∧
  Forall (λ cp, ∃ bytes, (cp, bytes) ∈ quicksand_table ∧ bytes ≠ [] ∧ shows reference_lookup quicksand_200 cp bytes)
    title_text.
Proof. split; [exact reference_lookup_ok|]. exact (proj1 (menu_texts_have_glyphs reference_lookup reference_lookup_ok)). Defined.

(** The kerning tables are consistent: as many values as pairs, in range
    for a signed byte, every pair names two glyphs of the font, and the pairs are
    in the strictly increasing order that a binary search over them needs. *)
Theorem kerning_tables_ok : forallb kern_ok [open_sans_48; quicksand_200; quicksand_256; sf_symbols_48] = true.
Proof. vm_compute. reflexivity. Qed.
