(* ===== verification/Config.v ===== *)
(** * Config: the configuration of the graphics library

    [bootloader/lvgl/lv_conf.h] as the directives of the preprocessor it consists
    of, and the preprocessor run on them.  A macro that stands for an integer is
    that integer, a string literal its characters; other replacement texts are kept
    as they are and no condition depends on them (inside them the quotes of the
    names of days and months are single).  A symbol that is not defined counts as 0
    in a condition.  A run on what is known of the macros shows what the file does
    whatever else is defined. *)

From stdpp Require Import base gmap list numbers option strings.
From S2P Require Import Prelude FontFormat OpenSans Quicksand Quicksand256 SfSymbols Cursor.

Open Scope Z_scope.

Inductive value := Int (n : Z) | Str (s : string) | Tokens (s : string) | Empty.

#[global] Instance value_eq_dec : EqDecision value.
Proof. solve_decision. Defined.

(** [#if SYM], [#if SYM == n], [#if SYM != n], [#if SYM >= n], [#if n] and [#ifndef SYM]. *)
Inductive cond :=
  | Sym (s : string) | EqInt (s : string) (n : Z) | NeInt (s : string) (n : Z) | GeInt (s : string) (n : Z)
  | Const (n : Z) | Ndef (s : string).

Inductive directive :=
  | Define (name : string) (v : value)
  | DefineFun (name param body : string)
  | Undef (name : string)
  | Include (header : string)
  | If (c : cond) (yes no : list directive).

Abbreviation env := (gmap string value).

(** ** The preprocessor *)

Definition symbol (e : env) (s : string) : Z :=
  match e !! s with Some (Int n) => n | _ => 0 end.

Definition holds (e : env) (c : cond) : bool :=
  match c with
  | Sym s => negb (symbol e s =? 0)
  | EqInt s n => symbol e s =? n
  | NeInt s n => negb (symbol e s =? n)
  | GeInt s n => n <=? symbol e s
  | Const n => negb (n =? 0)
  | Ndef s => match e !! s with Some _ => false | None => true end
  end.

(** What is included is not part of the configuration. *)
Fixpoint step (d : directive) (e : env) : env :=
  match d with
  | Define name v => <[name := v]> e
  | DefineFun name _ body => <[name := Tokens body]> e
  | Undef name => delete name e
  | Include _ => e
  | If c yes no =>
      let fix go l e := match l with [] => e | d :: l => go l (step d e) end in
      if holds e c then go yes e else go no e
  end.

Definition preprocess (l : list directive) (e : env) : env := foldl (λ e d, step d e) e l.

(** ** [lv_conf.h] *)

Definition color_settings : list directive :=
  [Define "LV_COLOR_DEPTH" (Int 32);
   Define "LV_COLOR_16_SWAP" (Int 0);
   Define "LV_COLOR_SCREEN_TRANSP" (Int 0);
   Define "LV_COLOR_MIX_ROUND_OFS" (Int 0);
   Define "LV_COLOR_CHROMA_KEY" (Tokens "lv_color_hex(0x00ff00)")].

Definition memory_settings : list directive :=
  [Define "LV_MEM_CUSTOM" (Int 0);
   If (EqInt "LV_MEM_CUSTOM" 0)
     [Define "LV_MEM_SIZE" (Int (48 * 1024));
      Define "LV_MEM_ADR" (Int 0);
      If (EqInt "LV_MEM_ADR" 0)
        [Undef "LV_MEM_POOL_INCLUDE";
         Undef "LV_MEM_POOL_ALLOC"]
        []]
     [Define "LV_MEM_CUSTOM_INCLUDE" (Tokens "<stdlib.h>");
      Define "LV_MEM_CUSTOM_ALLOC" (Tokens "malloc");
      Define "LV_MEM_CUSTOM_FREE" (Tokens "free");
      Define "LV_MEM_CUSTOM_REALLOC" (Tokens "realloc")];
   Define "LV_MEM_BUF_MAX_NUM" (Int 16);
   Define "LV_MEMCPY_MEMSET_STD" (Int 0)].

Definition hal_settings : list directive :=
  [Define "LV_DISP_DEF_REFR_PERIOD" (Int 30);
   Define "LV_INDEV_DEF_READ_PERIOD" (Int 30);
   Define "LV_TICK_CUSTOM" (Int 0);
   If (Sym "LV_TICK_CUSTOM")
     [Define "LV_TICK_CUSTOM_INCLUDE" (Str "Arduino.h");
      Define "LV_TICK_CUSTOM_SYS_TIME_EXPR" (Tokens "(millis())")]
     [];
   Define "LV_DPI_DEF" (Int 130)].

Definition feature_configuration_0 : list directive :=
  [Define "LV_DRAW_COMPLEX" (Int 1);
   If (NeInt "LV_DRAW_COMPLEX" 0)
     [Define "LV_SHADOW_CACHE_SIZE" (Int 0);
      Define "LV_CIRCLE_CACHE_SIZE" (Int 4)]
     [];
   Define "LV_LAYER_SIMPLE_BUF_SIZE" (Int (24 * 1024));
   Define "LV_LAYER_SIMPLE_FALLBACK_BUF_SIZE" (Int (3 * 1024));
   Define "LV_IMG_CACHE_DEF_SIZE" (Int 0);
   Define "LV_GRADIENT_MAX_STOPS" (Int 2);
   Define "LV_GRAD_CACHE_DEF_SIZE" (Int 0);
   Define "LV_DITHER_GRADIENT" (Int 0);
   If (Sym "LV_DITHER_GRADIENT")
     [Define "LV_DITHER_ERROR_DIFFUSION" (Int 0)]
     [];
   Define "LV_DISP_ROT_MAX_BUF" (Int (10 * 1024));
   Define "LV_USE_GPU_ARM2D" (Int 0);
   Define "LV_USE_GPU_STM32_DMA2D" (Int 0);
   If (Sym "LV_USE_GPU_STM32_DMA2D")
     [Define "LV_GPU_DMA2D_CMSIS_INCLUDE" Empty]
     [];
   Define "LV_USE_GPU_SWM341_DMA2D" (Int 0);
   If (Sym "LV_USE_GPU_SWM341_DMA2D")
     [Define "LV_GPU_SWM341_DMA2D_INCLUDE" (Str "SWM341.h")]
     [];
   Define "LV_USE_GPU_NXP_PXP" (Int 0);
   If (Sym "LV_USE_GPU_NXP_PXP")
     [Define "LV_USE_GPU_NXP_PXP_AUTO_INIT" (Int 0)]
     [];
   Define "LV_USE_GPU_NXP_VG_LITE" (Int 0);
   Define "LV_USE_GPU_SDL" (Int 0)].

Definition feature_configuration_1 : list directive :=
  [If (Sym "LV_USE_GPU_SDL")
     [Define "LV_GPU_SDL_INCLUDE_PATH" (Tokens "<SDL2/SDL.h>");
      Define "LV_GPU_SDL_LRU_SIZE" (Int (1024 * 1024 * 8));
      Define "LV_GPU_SDL_CUSTOM_BLEND_MODE" (Tokens "(SDL_VERSION_ATLEAST(2, 0, 6))")]
     [];
   Define "LV_USE_LOG" (Int 0);
   If (Sym "LV_USE_LOG")
     [Define "LV_LOG_LEVEL" (Tokens "LV_LOG_LEVEL_WARN");
      Define "LV_LOG_PRINTF" (Int 0);
      Define "LV_LOG_TRACE_MEM" (Int 1);
      Define "LV_LOG_TRACE_TIMER" (Int 1);
      Define "LV_LOG_TRACE_INDEV" (Int 1);
      Define "LV_LOG_TRACE_DISP_REFR" (Int 1);
      Define "LV_LOG_TRACE_EVENT" (Int 1);
      Define "LV_LOG_TRACE_OBJ_CREATE" (Int 1);
      Define "LV_LOG_TRACE_LAYOUT" (Int 1);
      Define "LV_LOG_TRACE_ANIM" (Int 1)]
     [];
   Define "LV_USE_ASSERT_NULL" (Int 1);
   Define "LV_USE_ASSERT_MALLOC" (Int 1);
   Define "LV_USE_ASSERT_STYLE" (Int 0);
   Define "LV_USE_ASSERT_MEM_INTEGRITY" (Int 0);
   Define "LV_USE_ASSERT_OBJ" (Int 0);
   Define "LV_ASSERT_HANDLER_INCLUDE" (Tokens "<stdint.h>");
   Define "LV_ASSERT_HANDLER" (Tokens "while(1);");
   Define "LV_USE_PERF_MONITOR" (Int 0);
   If (Sym "LV_USE_PERF_MONITOR")
     [Define "LV_USE_PERF_MONITOR_POS" (Tokens "LV_ALIGN_BOTTOM_RIGHT")]
     [];
   Define "LV_USE_MEM_MONITOR" (Int 0);
   If (Sym "LV_USE_MEM_MONITOR")
     [Define "LV_USE_MEM_MONITOR_POS" (Tokens "LV_ALIGN_BOTTOM_LEFT")]
     [];
   Define "LV_USE_REFR_DEBUG" (Int 0);
   Define "LV_SPRINTF_CUSTOM" (Int 0);
   If (Sym "LV_SPRINTF_CUSTOM")
     [Define "LV_SPRINTF_INCLUDE" (Tokens "<stdio.h>");
      Define "lv_snprintf" (Tokens "snprintf");
      Define "lv_vsnprintf" (Tokens "vsnprintf")]
     [Define "LV_SPRINTF_USE_FLOAT" (Int 0)];
   Define "LV_USE_USER_DATA" (Int 1);
   Define "LV_ENABLE_GC" (Int 0);
   If (NeInt "LV_ENABLE_GC" 0)
     [Define "LV_GC_INCLUDE" (Str "gc.h")]
     []].

Definition compiler_settings : list directive :=
  [Define "LV_BIG_ENDIAN_SYSTEM" (Int 0);
   Define "LV_ATTRIBUTE_TICK_INC" Empty;
   Define "LV_ATTRIBUTE_TIMER_HANDLER" Empty;
   Define "LV_ATTRIBUTE_FLUSH_READY" Empty;
   Define "LV_ATTRIBUTE_MEM_ALIGN_SIZE" (Int 1);
   Define "LV_ATTRIBUTE_MEM_ALIGN" Empty;
   Define "LV_ATTRIBUTE_LARGE_CONST" Empty;
   Define "LV_ATTRIBUTE_LARGE_RAM_ARRAY" Empty;
   Define "LV_ATTRIBUTE_FAST_MEM" Empty;
   Define "LV_ATTRIBUTE_DMA" Empty;
   DefineFun "LV_EXPORT_CONST_INT" "int_value" "struct _silence_gcc_warning";
   Define "LV_USE_LARGE_COORD" (Int 0)].

Definition font_usage : list directive :=
  [Define "LV_FONT_MONTSERRAT_8" (Int 0);
   Define "LV_FONT_MONTSERRAT_10" (Int 0);
   Define "LV_FONT_MONTSERRAT_12" (Int 0);
   Define "LV_FONT_MONTSERRAT_14" (Int 1);
   Define "LV_FONT_MONTSERRAT_16" (Int 0);
   Define "LV_FONT_MONTSERRAT_18" (Int 0);
   Define "LV_FONT_MONTSERRAT_20" (Int 0);
   Define "LV_FONT_MONTSERRAT_22" (Int 0);
   Define "LV_FONT_MONTSERRAT_24" (Int 0);
   Define "LV_FONT_MONTSERRAT_26" (Int 0);
   Define "LV_FONT_MONTSERRAT_28" (Int 0);
   Define "LV_FONT_MONTSERRAT_30" (Int 0);
   Define "LV_FONT_MONTSERRAT_32" (Int 0);
   Define "LV_FONT_MONTSERRAT_34" (Int 0);
   Define "LV_FONT_MONTSERRAT_36" (Int 0);
   Define "LV_FONT_MONTSERRAT_38" (Int 0);
   Define "LV_FONT_MONTSERRAT_40" (Int 0);
   Define "LV_FONT_MONTSERRAT_42" (Int 0);
   Define "LV_FONT_MONTSERRAT_44" (Int 0);
   Define "LV_FONT_MONTSERRAT_46" (Int 0);
   Define "LV_FONT_MONTSERRAT_48" (Int 0);
   Define "LV_FONT_MONTSERRAT_12_SUBPX" (Int 0);
   Define "LV_FONT_MONTSERRAT_28_COMPRESSED" (Int 0);
   Define "LV_FONT_DEJAVU_16_PERSIAN_HEBREW" (Int 0);
   Define "LV_FONT_SIMSUN_16_CJK" (Int 0);
   Define "LV_FONT_UNSCII_8" (Int 0);
   Define "LV_FONT_UNSCII_16" (Int 0);
   Define "LV_FONT_CUSTOM_DECLARE" Empty;
   Define "LV_FONT_DEFAULT" (Tokens "&lv_font_montserrat_14");
   Define "LV_FONT_FMT_TXT_LARGE" (Int 0);
   Define "LV_USE_FONT_COMPRESSED" (Int 0);
   Define "LV_USE_FONT_SUBPX" (Int 0);
   If (Sym "LV_USE_FONT_SUBPX")
     [Define "LV_FONT_SUBPX_BGR" (Int 0)]
     [];
   Define "LV_USE_FONT_PLACEHOLDER" (Int 1)].

Definition text_settings : list directive :=
  [Define "LV_TXT_ENC" (Tokens "LV_TXT_ENC_UTF8");
   Define "LV_TXT_BREAK_CHARS" (Str " ,.;:-_");
   Define "LV_TXT_LINE_BREAK_LONG_LEN" (Int 0);
   Define "LV_TXT_LINE_BREAK_LONG_PRE_MIN_LEN" (Int 3);
   Define "LV_TXT_LINE_BREAK_LONG_POST_MIN_LEN" (Int 3);
   Define "LV_TXT_COLOR_CMD" (Str "#");
   Define "LV_USE_BIDI" (Int 0);
   If (Sym "LV_USE_BIDI")
     [Define "LV_BIDI_BASE_DIR_DEF" (Tokens "LV_BASE_DIR_AUTO")]
     [];
   Define "LV_USE_ARABIC_PERSIAN_CHARS" (Int 0)].

Definition widget_usage : list directive :=
  [Define "LV_USE_ARC" (Int 1);
   Define "LV_USE_BAR" (Int 1);
   Define "LV_USE_BTN" (Int 1);
   Define "LV_USE_BTNMATRIX" (Int 1);
   Define "LV_USE_CANVAS" (Int 0);
   Define "LV_USE_CHECKBOX" (Int 1);
   Define "LV_USE_DROPDOWN" (Int 1);
   Define "LV_USE_IMG" (Int 1);
   Define "LV_USE_LABEL" (Int 1);
   If (Sym "LV_USE_LABEL")
     [Define "LV_LABEL_TEXT_SELECTION" (Int 1);
      Define "LV_LABEL_LONG_TXT_HINT" (Int 1)]
     [];
   Define "LV_USE_LINE" (Int 1);
   Define "LV_USE_ROLLER" (Int 0);
   If (Sym "LV_USE_ROLLER")
     [Define "LV_ROLLER_INF_PAGES" (Int 7)]
     [];
   Define "LV_USE_SLIDER" (Int 1);
   Define "LV_USE_SWITCH" (Int 0);
   Define "LV_USE_TEXTAREA" (Int 1);
   If (NeInt "LV_USE_TEXTAREA" 0)
     [Define "LV_TEXTAREA_DEF_PWD_SHOW_TIME" (Int 1500)]
     [];
   Define "LV_USE_TABLE" (Int 1)].

Definition extra_components_0 : list directive :=
  [Define "LV_USE_ANIMIMG" (Int 0);
   Define "LV_USE_CALENDAR" (Int 0);
   If (Sym "LV_USE_CALENDAR")
     [Define "LV_CALENDAR_WEEK_STARTS_MONDAY" (Int 0);
      If (Sym "LV_CALENDAR_WEEK_STARTS_MONDAY")
        [Define "LV_CALENDAR_DEFAULT_DAY_NAMES" (Tokens "{'Mo', 'Tu', 'We', 'Th', 'Fr', 'Sa', 'Su'}")]
        [Define "LV_CALENDAR_DEFAULT_DAY_NAMES" (Tokens "{'Su', 'Mo', 'Tu', 'We', 'Th', 'Fr', 'Sa'}")];
      Define "LV_CALENDAR_DEFAULT_MONTH_NAMES" (Tokens "{'January', 'February', 'March',  'April', 'May',  'June', 'July', 'August', 'September', 'October', 'November', 'December'}");
      Define "LV_USE_CALENDAR_HEADER_ARROW" (Int 1);
      Define "LV_USE_CALENDAR_HEADER_DROPDOWN" (Int 1)]
     [];
   Define "LV_USE_CHART" (Int 0);
   Define "LV_USE_COLORWHEEL" (Int 0);
   Define "LV_USE_IMGBTN" (Int 0);
   Define "LV_USE_KEYBOARD" (Int 1);
   Define "LV_USE_LED" (Int 0);
   Define "LV_USE_LIST" (Int 0);
   Define "LV_USE_MENU" (Int 0);
   Define "LV_USE_METER" (Int 1);
   Define "LV_USE_MSGBOX" (Int 0);
   Define "LV_USE_SPAN" (Int 0);
   If (Sym "LV_USE_SPAN")
     [Define "LV_SPAN_SNIPPET_STACK_SIZE" (Int 64)]
     [];
   Define "LV_USE_SPINBOX" (Int 0);
   Define "LV_USE_SPINNER" (Int 1);
   Define "LV_USE_TABVIEW" (Int 0);
   Define "LV_USE_TILEVIEW" (Int 0);
   Define "LV_USE_WIN" (Int 0);
   Define "LV_USE_THEME_DEFAULT" (Int 0);
   If (Sym "LV_USE_THEME_DEFAULT")
     [Define "LV_THEME_DEFAULT_DARK" (Int 0);
      Define "LV_THEME_DEFAULT_GROW" (Int 1);
      Define "LV_THEME_DEFAULT_TRANSITION_TIME" (Int 80)]
     [];
   Define "LV_USE_THEME_BASIC" (Int 1);
   Define "LV_USE_THEME_MONO" (Int 0);
   Define "LV_USE_FLEX" (Int 1);
   Define "LV_USE_GRID" (Int 1);
   Define "LV_USE_FS_STDIO" (Int 0);
   If (Sym "LV_USE_FS_STDIO")
     [Define "LV_FS_STDIO_LETTER" (Tokens "'\0'");
      Define "LV_FS_STDIO_PATH" (Str EmptyString);
      Define "LV_FS_STDIO_CACHE_SIZE" (Int 0)]
     [];
   Define "LV_USE_FS_POSIX" (Int 0);
   If (Sym "LV_USE_FS_POSIX")
     [Define "LV_FS_POSIX_LETTER" (Tokens "'\0'");
      Define "LV_FS_POSIX_PATH" (Str EmptyString);
      Define "LV_FS_POSIX_CACHE_SIZE" (Int 0)]
     []].

Definition extra_components_1 : list directive :=
  [Define "LV_USE_FS_WIN32" (Int 0);
   If (Sym "LV_USE_FS_WIN32")
     [Define "LV_FS_WIN32_LETTER" (Tokens "'\0'");
      Define "LV_FS_WIN32_PATH" (Str EmptyString);
      Define "LV_FS_WIN32_CACHE_SIZE" (Int 0)]
     [];
   Define "LV_USE_FS_FATFS" (Int 0);
   If (Sym "LV_USE_FS_FATFS")
     [Define "LV_FS_FATFS_LETTER" (Tokens "'\0'");
      Define "LV_FS_FATFS_CACHE_SIZE" (Int 0)]
     [];
   Define "LV_USE_PNG" (Int 0);
   Define "LV_USE_BMP" (Int 0);
   Define "LV_USE_SJPG" (Int 0);
   Define "LV_USE_GIF" (Int 0);
   Define "LV_USE_QRCODE" (Int 0);
   Define "LV_USE_FREETYPE" (Int 0);
   If (Sym "LV_USE_FREETYPE")
     [Define "LV_FREETYPE_CACHE_SIZE" (Int (16 * 1024));
      If (GeInt "LV_FREETYPE_CACHE_SIZE" 0)
        [Define "LV_FREETYPE_SBIT_CACHE" (Int 0);
         Define "LV_FREETYPE_CACHE_FT_FACES" (Int 0);
         Define "LV_FREETYPE_CACHE_FT_SIZES" (Int 0)]
        []]
     [];
   Define "LV_USE_RLOTTIE" (Int 0);
   Define "LV_USE_FFMPEG" (Int 0);
   If (Sym "LV_USE_FFMPEG")
     [Define "LV_FFMPEG_DUMP_FORMAT" (Int 0)]
     [];
   Define "LV_USE_SNAPSHOT" (Int 0);
   Define "LV_USE_MONKEY" (Int 0);
   Define "LV_USE_GRIDNAV" (Int 0);
   Define "LV_USE_FRAGMENT" (Int 0);
   Define "LV_USE_IMGFONT" (Int 0);
   Define "LV_USE_MSG" (Int 0);
   Define "LV_USE_IME_PINYIN" (Int 0);
   If (Sym "LV_USE_IME_PINYIN")
     [Define "LV_IME_PINYIN_USE_DEFAULT_DICT" (Int 1);
      Define "LV_IME_PINYIN_CAND_TEXT_NUM" (Int 6);
      Define "LV_IME_PINYIN_USE_K9_MODE" (Int 1);
      If (EqInt "LV_IME_PINYIN_USE_K9_MODE" 1)
        [Define "LV_IME_PINYIN_K9_CAND_TEXT_NUM" (Int 3)]
        []]
     []].

Definition examples : list directive :=
  [Define "LV_BUILD_EXAMPLES" (Int 1)].

Definition demo_usage : list directive :=
  [Define "LV_USE_DEMO_WIDGETS" (Int 0);
   If (Sym "LV_USE_DEMO_WIDGETS")
     [Define "LV_DEMO_WIDGETS_SLIDESHOW" (Int 0)]
     [];
   Define "LV_USE_DEMO_KEYPAD_AND_ENCODER" (Int 0);
   Define "LV_USE_DEMO_BENCHMARK" (Int 0);
   If (Sym "LV_USE_DEMO_BENCHMARK")
     [Define "LV_DEMO_BENCHMARK_RGB565A8" (Int 0)]
     [];
   Define "LV_USE_DEMO_STRESS" (Int 0);
   Define "LV_USE_DEMO_MUSIC" (Int 0);
   If (Sym "LV_USE_DEMO_MUSIC")
     [Define "LV_DEMO_MUSIC_SQUARE" (Int 0);
      Define "LV_DEMO_MUSIC_LANDSCAPE" (Int 0);
      Define "LV_DEMO_MUSIC_ROUND" (Int 0);
      Define "LV_DEMO_MUSIC_LARGE" (Int 0);
      Define "LV_DEMO_MUSIC_AUTO_PLAY" (Int 0)]
     []].

(** The whole file, with its include guard. *)
Definition lv_conf : list directive :=
  [If (Const 1)
     [If (Ndef "LV_CONF_H")
        ([Define "LV_CONF_H" Empty; Include "<stdint.h>"] ++ color_settings ++ memory_settings ++ hal_settings ++
         feature_configuration_0 ++ feature_configuration_1 ++ compiler_settings ++ font_usage ++ text_settings ++
         widget_usage ++ extra_components_0 ++ extra_components_1 ++ examples ++ demo_usage)
        []]
     []].

(** ** Running the file without its surroundings *)

(** What is known of the macros: those that are settled, with their values or undefined. *)
Abbreviation knowledge := (gmap string (option value)).

Definition known_symbol (k : knowledge) (s : string) : option Z :=
  (λ o, match o with Some (Int n) => n | _ => 0 end) <$> k !! s.

Definition decided (k : knowledge) (c : cond) : option bool :=
  match c with
  | Sym s => (λ x, negb (x =? 0)) <$> known_symbol k s
  | EqInt s n => (λ x, x =? n) <$> known_symbol k s
  | NeInt s n => (λ x, negb (x =? n)) <$> known_symbol k s
  | GeInt s n => (λ x, n <=? x) <$> known_symbol k s
  | Const n => Some (negb (n =? 0))
  | Ndef s => (λ o, match o with Some _ => false | None => true end) <$> k !! s
  end.

(** The directives on what is known; [None] when a condition is not settled. *)
Fixpoint settle (d : directive) (k : knowledge) : option knowledge :=
  match d with
  | Define name v => Some (<[name := Some v]> k)
  | DefineFun name _ body => Some (<[name := Some (Tokens body)]> k)
  | Undef name => Some (<[name := None]> k)
  | Include _ => Some k
  | If c yes no =>
      let fix go l k := match l with [] => Some k | d :: l => k ← settle d k; go l k end in
      match decided k c with Some true => go yes k | Some false => go no k | None => None end
  end.

Fixpoint settle_all (l : list directive) (k : knowledge) : option knowledge :=
  match l with [] => Some k | d :: l => k ← settle d k; settle_all l k end.

(** An environment that was [e0] before and has become what is known. *)
Definition agrees (k : knowledge) (e0 e : env) : Prop :=
  ∀ s, e !! s = match k !! s with Some o => o | None => e0 !! s end.

Lemma decided_sound k e0 e c b : agrees k e0 e → decided k c = Some b → holds e c = b.
Proof.
  intros Ha. assert (∀ s n, known_symbol k s = Some n → symbol e s = n) as Hs.
  { intros s n Hn. unfold known_symbol in Hn. unfold symbol. rewrite (Ha s). destruct (k !! s); [|done]. by injection Hn. }
  destruct c as [s|s n|s n|s n|n|s]; cbn [decided holds]; intros Hd.
  1-4: apply fmap_Some in Hd as (x & Hx & ->); by rewrite (Hs _ _ Hx).
  - by injection Hd.
  - rewrite (Ha s). apply fmap_Some in Hd as (o & -> & ->). done.
Qed.

Lemma agrees_insert k e0 e s v : agrees k e0 e → agrees (<[s := Some v]> k) e0 (<[s := v]> e).
Proof.
  intros Ha x. destruct (decide (s = x)) as [->|Hne]; [by rewrite !lookup_insert_eq|]. rewrite !lookup_insert_ne by done. apply Ha.
Qed.

Lemma agrees_delete k e0 e s : agrees k e0 e → agrees (<[s := None]> k) e0 (delete s e).
Proof.
  intros Ha x. destruct (decide (s = x)) as [->|Hne]; [by rewrite lookup_insert_eq, lookup_delete_eq|].
  rewrite lookup_insert_ne, lookup_delete_ne by done. apply Ha.
Qed.

(** A directive nests others: induction that reaches them. *)
Lemma directive_nested_ind (P : directive → Prop) :
  (∀ name v, P (Define name v)) → (∀ name param body, P (DefineFun name param body)) → (∀ name, P (Undef name)) →
  (∀ header, P (Include header)) → (∀ c yes no, Forall P yes → Forall P no → P (If c yes no)) → ∀ d, P d.
Proof.
  intros Hd Hf Hu Hi Hc. fix IH 1. intros [name v|name param body|name|header|c yes no].
  - apply Hd.
  - apply Hf.
  - apply Hu.
  - apply Hi.
  - apply Hc; [induction yes as [|x l Hl]|induction no as [|x l Hl]]; constructor; [apply IH|exact Hl|apply IH|exact Hl].
Qed.

Definition settles (d : directive) : Prop :=
  ∀ k e0 e k', agrees k e0 e → settle d k = Some k' → agrees k' e0 (step d e).

Lemma settle_all_sound l : Forall settles l → ∀ k e0 e k', agrees k e0 e → settle_all l k = Some k' → agrees k' e0 (preprocess l e).
Proof.
  induction 1 as [|d l Hd _ IH]; intros k e0 e k' Ha; cbn [settle_all].
  { by intros [= <-]. }
  intros (k1 & Hk1 & Hl)%bind_Some. unfold preprocess. cbn [foldl]. apply (IH k1); [|done]. by apply (Hd k).
Qed.

Lemma settle_sound d : settles d.
Proof.
  induction d as [name v|name param body|name|header|c yes no Hyes Hno] using directive_nested_ind;
    intros k e0 e k' Ha; cbn [settle step].
  1-4: intros [= <-]; auto using agrees_insert, agrees_delete.
  assert (∀ l k, (fix go l k := match l with [] => Some k | d :: l => k ← settle d k; go l k end) l k = settle_all l k)
    as Hgo by (intros l; induction l; done).
  assert (∀ l e, (fix go l e := match l with [] => e | d :: l => go l (step d e) end) l e = preprocess l e)
    as Hpre by (intros l; induction l; intros; done || auto).
  destruct (decided k c) as [b|] eqn:Hb; [|done]. rewrite (decided_sound k e0 e c b Ha Hb).
  destruct b; rewrite Hgo, Hpre; intros Hl; by eapply settle_all_sound.
Qed.

(** The settings of the file, when it was not included before. *)
Definition lv_conf_settings : knowledge := default ∅ (settle_all lv_conf {["LV_CONF_H" := None]}).

(** The macros it takes away. *)
Definition lv_conf_removes : list string := ["LV_MEM_POOL_INCLUDE"; "LV_MEM_POOL_ALLOC"].

Lemma lv_conf_settled : settle_all lv_conf {["LV_CONF_H" := None]} = Some lv_conf_settings.
Proof.
  assert (match settle_all lv_conf {["LV_CONF_H" := None]} with Some _ => true | None => false end = true) as Hs by (vm_compute; reflexivity).
  unfold lv_conf_settings. destruct (settle_all lv_conf {["LV_CONF_H" := None]}); [reflexivity|discriminate Hs].
Qed.

Lemma lv_conf_agrees e : e !! "LV_CONF_H" = None → agrees lv_conf_settings e (preprocess lv_conf e).
Proof.
  intros Hg. apply (settle_all_sound lv_conf) with (k := {["LV_CONF_H" := None]}); [|intros s|exact lv_conf_settled].
  - apply Forall_forall. intros d _. apply settle_sound.
  - destruct (decide (s = "LV_CONF_H")) as [->|Hne]; [by rewrite lookup_singleton_eq|by rewrite lookup_singleton_ne].
Qed.

(** Nothing else is undefined, and those are. *)
Lemma lv_conf_removed s : lv_conf_settings !! s = Some None ↔ s ∈ lv_conf_removes.
Proof.
  assert (forallb (λ p : string * option value, match p.2 with Some _ => true | None => bool_decide (p.1 ∈ lv_conf_removes) end) (map_to_list lv_conf_settings) = true)
    as Hall by (vm_compute; reflexivity).
  assert (forallb (λ s, match lv_conf_settings !! s with Some None => true | _ => false end) lv_conf_removes = true)
    as Hback by (vm_compute; reflexivity).
  split.
  - intros Hs%elem_of_map_to_list%list_elem_of_In. rewrite forallb_forall in Hall. by apply Hall, bool_decide_eq_true in Hs.
  - intros Hs%list_elem_of_In. rewrite forallb_forall in Hback. specialize (Hback s Hs). by destruct (lv_conf_settings !! s) as [[]|].
Qed.

(** What the file makes of any surroundings. *)
Lemma lv_conf_result e s :
  e !! "LV_CONF_H" = None →
  preprocess lv_conf e !! s =
    match preprocess lv_conf ∅ !! s with Some v => Some v | None => if bool_decide (s ∈ lv_conf_removes) then None else e !! s end.
Proof.
  intros Hg. rewrite (lv_conf_agrees e Hg s), (lv_conf_agrees ∅ (lookup_empty _) s), lookup_empty. pose proof (lv_conf_removed s) as Hr.
  destruct (lv_conf_settings !! s) as [[v|]|].
  - done.
  - rewrite bool_decide_eq_true_2; [done|]. by apply Hr.
  - rewrite bool_decide_eq_false_2; [done|]. intros Hs. by apply Hr in Hs.
Qed.

(** It defines at least what it defines on its own. *)
Lemma lv_conf_included e : e !! "LV_CONF_H" = None → preprocess lv_conf ∅ ⊆ preprocess lv_conf e.
Proof. intros Hg. apply map_subseteq_spec. intros s v Hv. by rewrite (lv_conf_result e s Hg), Hv. Qed.

(** ** What the configuration has to satisfy *)

(** The widgets the file says another one requires. *)
Definition requirements : list (string * string) :=
  [("LV_USE_DROPDOWN", "LV_USE_LABEL"); ("LV_USE_IMG", "LV_USE_LABEL"); ("LV_USE_ROLLER", "LV_USE_LABEL");
   ("LV_USE_SLIDER", "LV_USE_BAR"); ("LV_USE_TEXTAREA", "LV_USE_LABEL")].

(** The widgets and the layout that the boot menu is made of
    ([bootloader/src/main.rs] imports them). *)
Definition menu_features : list string := ["LV_USE_BTN"; "LV_USE_IMG"; "LV_USE_LABEL"; "LV_USE_FLEX"].

(** The features that guard the options behind them. *)
Fixpoint guarded (d : directive) : list (string * list string) :=
  match d with
  | If (Sym s) yes _ | If (NeInt s 0) yes _ =>
      [(s, omap (λ d, match d with Define n _ => Some n | _ => None end) yes)]
  | If _ yes _ => (fix go l := match l with [] => [] | d :: l => guarded d ++ go l end) yes
  | _ => []
  end.

Definition on (e : env) (s : string) : bool := negb (symbol e s =? 0).
Definition is_defined (e : env) (s : string) : bool := match e !! s with Some _ => true | None => false end.

(** A switch that is set, and everything behind it is as it should be. *)
Definition requires (e : env) (s : string) (b : bool) : bool := is_defined e s && (negb (on e s) || b).

Definition configuration_ok (e : env) : bool :=
  forallb (λ p : string * string, requires e p.1 (on e p.2)) requirements &&
  forallb (on e) menu_features &&
  forallb (λ p : string * list string, requires e p.1 (forallb (is_defined e) p.2)) (concat (guarded <$> lv_conf)) &&
  forallb (on e) ["LV_FONT_MONTSERRAT_14"; "LV_USE_FONT_PLACEHOLDER"] &&
  bool_decide (e !! "LV_FONT_DEFAULT" = Some (Tokens "&lv_font_montserrat_14")).

(** The fields of a glyph fit in the widths of a font that is not large: 20 bits
    of index, 12 of advance, 8 for each side of the box and each offset. *)
Definition fits_small (g : glyph_dsc_t) : bool :=
  (0 <=? bitmap_index g) && (bitmap_index g <? 2 ^ 20) && (0 <=? adv_w g) && (adv_w g <? 2 ^ 12) &&
  (0 <=? box_w g) && (box_w g <? 2 ^ 8) && (0 <=? box_h g) && (box_h g <? 2 ^ 8) &&
  (- 2 ^ 7 <=? ofs_x g) && (ofs_x g <? 2 ^ 7) && (- 2 ^ 7 <=? ofs_y g) && (ofs_y g <? 2 ^ 7).

Definition font_fits (e : env) (f : font_t) : bool :=
  (on e "LV_FONT_FMT_TXT_LARGE" || forallb fits_small (glyph_dsc (dsc f))) &&
  (on e "LV_USE_FONT_COMPRESSED" || (bitmap_format (dsc f) =? 0)).

(** More definitions do not make a good configuration bad. *)
Lemma on_mono e e' s : e ⊆ e' → is_defined e s = true → on e' s = on e s.
Proof.
  intros Hin Hd. unfold is_defined in Hd. unfold on, symbol. destruct (e !! s) as [v|] eqn:Hv; [|done].
  by rewrite (lookup_weaken _ _ _ _ Hv Hin).
Qed.

Lemma defined_mono e e' s : e ⊆ e' → is_defined e s = true → is_defined e' s = true.
Proof.
  intros Hin. unfold is_defined. destruct (e !! s) as [v|] eqn:Hv; [|done]. by rewrite (lookup_weaken _ _ _ _ Hv Hin).
Qed.

Lemma on_defined e s : on e s = true → is_defined e s = true.
Proof. unfold on, symbol, is_defined. by destruct (e !! s). Qed.

Lemma on_stays e e' s : e ⊆ e' → on e s = true → on e' s = true.
Proof. intros Hin Hon. by rewrite (on_mono e e' s Hin (on_defined e s Hon)). Qed.

Lemma requires_mono e e' s b b' : e ⊆ e' → (b = true → b' = true) → requires e s b = true → requires e' s b' = true.
Proof.
  intros Hin Hb [Hd Hr]%andb_true_iff. unfold requires. rewrite (defined_mono e e' s Hin Hd), (on_mono e e' s Hin Hd).
  destruct (on e s); [|done]. by apply Hb.
Qed.

Lemma forallb_mono {A} (f g : A → bool) l : (∀ x, f x = true → g x = true) → forallb f l = true → forallb g l = true.
Proof. rewrite !forallb_forall. auto. Qed.

Lemma configuration_ok_mono e e' : e ⊆ e' → configuration_ok e = true → configuration_ok e' = true.
Proof.
  intros Hin. unfold configuration_ok. rewrite !andb_true_iff. intros [[[[H1 H2] H3] H4] H5]. split_and!.
  - revert H1. apply forallb_mono. intros p. apply requires_mono; [done|]. by apply on_stays.
  - revert H2. apply forallb_mono. intros s. by apply on_stays.
  - revert H3. apply forallb_mono. intros p. apply requires_mono; [done|]. apply forallb_mono. intros s. by apply defined_mono.
  - revert H4. apply forallb_mono. intros s. by apply on_stays.
  - apply bool_decide_eq_true in H5. apply bool_decide_eq_true. by apply (lookup_weaken _ _ _ _ H5).
Qed.

(** The fonts are small and not compressed, so that they fit any configuration. *)
Lemma fonts_fit e f : f ∈ [open_sans_48; quicksand_200; quicksand_256; sf_symbols_48] → font_fits e f = true.
Proof.
  assert (forallb (λ f, forallb fits_small (glyph_dsc (dsc f)) && (bitmap_format (dsc f) =? 0))
    [open_sans_48; quicksand_200; quicksand_256; sf_symbols_48] = true) as Hall by (vm_compute; reflexivity).
  rewrite forallb_forall in Hall. intros Hf%list_elem_of_In. specialize (Hall f Hf). apply andb_true_iff in Hall as [Hs Hb].
  unfold font_fits. by rewrite Hs, Hb, !orb_true_r.
Qed.

(** With its guard defined the file changes nothing, whatever else is defined. *)
Lemma lv_conf_guard e : is_Some (e !! "LV_CONF_H") → preprocess lv_conf e = e.
Proof. intros [v Hv]. unfold preprocess, lv_conf. cbn [foldl step]. cbn [holds Z.eqb negb]. by rewrite Hv. Qed.

(** ** Properties *)


(** *** The property at work *)

Definition demo_env : env := {["LV_COLOR_DEPTH" := Int 16; "LV_MEM_POOL_ALLOC" := Tokens "pool"; "NDEBUG" := Empty]}.

