(* ===== verification/Targa.v ===== *)
(** * Targa: images of the bootloader

    [targa/src]: the header, [Image::try_new] on a buffer of bytes, the pixels
    and the iterator over them. *)

From stdpp Require Import base list numbers option.
From S2P Require Import Prelude.

Open Scope Z_scope.

Record Pixel := mkPixel { r : Z; g : Z; b : Z; a : Z }.

Inductive PixelOrderVertical := TopToBottom | BottomToTop.
Inductive PixelOrderHorizontal := LeftToRight | RightToLeft.
Inductive PixelFormat := Rgb555 | Rgba5551 | Rgb888 | Rgba8888.

Definition bytes_per_pixel (f : PixelFormat) : Z :=
  match f with Rgb555 | Rgba5551 => 2 | Rgb888 => 3 | Rgba8888 => 4 end.

Inductive ParsingError := NoHeader | NotEnoughData | Unsupported.

(** ** The header *)

(** [header::Type]; a byte that is none of the discriminants is not a value. *)
Inductive Type_ :=
  | NoData | UncompressedColorMapped | UncompressedTrueColor | UncompressedGreyscale
  | RleColorMapped | RleTrueColor | RleGreyscale.

Definition image_type_of (v : Z) : option Type_ :=
  if v =? 0 then Some NoData else if v =? 1 then Some UncompressedColorMapped
  else if v =? 2 then Some UncompressedTrueColor else if v =? 3 then Some UncompressedGreyscale
  else if v =? 9 then Some RleColorMapped else if v =? 10 then Some RleTrueColor
  else if v =? 11 then Some RleGreyscale else None.

Record ColorMapSpec := mkColorMapSpec { first_entry_index : Z; map_length : Z; entry_size : Z }.

(** The packed fields in order; [image_type] is the byte the [Type] is read from. *)
Record Header := mkHeader {
  image_id_length : Z; color_map : Z; image_type : Z; color_map_spec : ColorMapSpec;
  x_origin : Z; y_origin : Z; header_width : Z; header_height : Z;
  color_depth : Z; image_descriptor : Z
}.

Definition HEADER_SIZE : Z := 18.

(** The cast of the buffer to a [Header]. *)
Definition read_header (d : list Z) : Header :=
  mkHeader (byte_at d 0) (byte_at d 1) (byte_at d 2) (mkColorMapSpec (u16_at d 3) (u16_at d 5) (byte_at d 7)) (u16_at d 8) (u16_at d 10)
    (u16_at d 12) (u16_at d 14) (byte_at d 16) (byte_at d 17).

Definition color_format (hd : Header) : result PixelFormat ParsingError :=
  if color_depth hd =? 32 then Ok Rgba8888 else if color_depth hd =? 24 then Ok Rgb888 else Err Unsupported.

Definition pixel_ordering (hd : Header) : PixelOrderVertical * PixelOrderHorizontal :=
  (if Z.land (image_descriptor hd) 32 =? 0 then BottomToTop else TopToBottom,
   if Z.land (image_descriptor hd) 16 =? 0 then LeftToRight else RightToLeft).

Abbreviation has_color_map hd := (negb (color_map hd =? 0)).

Definition image_format (hd : Header) : outcome Type_ :=
  match image_type_of (image_type hd) with Some t => Ret t | None => Panic Undefined end.

(** ** Images *)

Record Image := mkImage {
  pixel_data : list Z; width : Z; height : Z; format : PixelFormat;
  ordering : PixelOrderVertical * PixelOrderHorizontal
}.

Definition try_new (data_raw : list Z) : outcome (result Image ParsingError) :=
  if Z.of_nat (length data_raw) <? HEADER_SIZE then Ret (Err NoHeader) else
  let data := read_header data_raw in
  if has_color_map data then Ret (Err Unsupported) else
  t ← image_format data;
  match t with
  | UncompressedTrueColor =>
      match color_format data with
      | Err e => Ret (Err e)
      | Ok f =>
          n ← usize_mul (bytes_per_pixel f) (header_width data);
          expected_data_size ← usize_mul n (header_height data);
          total ← usize_add expected_data_size HEADER_SIZE;
          if Z.of_nat (length data_raw) <? total then Ret (Err NotEnoughData) else
          Ret (Ok (mkImage (drop (Z.to_nat HEADER_SIZE) data_raw) (header_width data) (header_height data) f
            (pixel_ordering data)))
      end
  | _ => Ret (Err Unsupported)
  end.

Definition get_pixel (im : Image) (x y : Z) : outcome (option Pixel) :=
  if (width im <=? x) || (height im <=? y) then Ret None else
  y ← (match (ordering im).1 with TopToBottom => Ret y | BottomToTop => d ← usize_sub (height im) y; usize_sub d 1 end);
  x ← (match (ordering im).2 with LeftToRight => Ret x | RightToLeft => d ← usize_sub (width im) x; usize_sub d 1 end);
  row ← usize_mul y (width im);
  pixel_offset ← usize_add row x;
  byte_offset ← usize_mul pixel_offset (bytes_per_pixel (format im));
  raw_data ← slice_unchecked (pixel_data im) byte_offset (bytes_per_pixel (format im));
  match format im with
  | Rgb555 | Rgba5551 => Panic NotImplemented
  | Rgb888 => r ← index raw_data 2; g ← index raw_data 1; b ← index raw_data 0; Ret (Some (mkPixel r g b 255))
  | Rgba8888 =>
      r ← index raw_data 2; g ← index raw_data 1; b ← index raw_data 0; a ← index raw_data 3;
      Ret (Some (mkPixel r g b a))
  end.

(** ** The iterator *)

(** [PixelIterator::next] on its position. *)
Definition next (im : Image) (position : Z * Z) : outcome (option ((Z * Z) * Pixel) * (Z * Z)) :=
  if height im <=? position.2 then Ret (None, position) else
  p ← get_pixel im position.1 position.2;
  match p with
  | None => Ret (None, position)
  | Some p =>
      x ← usize_add position.1 1;
      if width im <=? x then y ← usize_add position.2 1; Ret (Some (position, p), (0, y))
      else Ret (Some (position, p), (x, position.2))
  end.

(** A [for] loop over the image; [None] when it needs more turns than [fuel]. *)
Fixpoint collect (fuel : nat) (im : Image) (position : Z * Z) : outcome (option (list ((Z * Z) * Pixel))) :=
  match fuel with
  | O => Ret None
  | S fuel =>
      '(o, position) ← next im position;
      match o with
      | None => Ret (Some [])
      | Some q => l ← collect fuel im position; Ret (option_map (cons q) l)
      end
  end.

(** ** What the image shows *)

(** The bytes of a pixel start here. *)
Definition offset_of (im : Image) (x y : Z) : Z :=
  let row := match (ordering im).1 with TopToBottom => y | BottomToTop => height im - 1 - y end in
  let column := match (ordering im).2 with LeftToRight => x | RightToLeft => width im - 1 - x end in
  (row * width im + column) * bytes_per_pixel (format im).

Definition pixel_of (im : Image) (x y : Z) : Pixel :=
  let byte i := byte_at (pixel_data im) (Z.to_nat (offset_of im x y) + i) in
  mkPixel (byte 2%nat) (byte 1%nat) (byte 0%nat) (match format im with Rgba8888 => byte 3%nat | _ => 255 end).

(** What [try_new] promises of an image. *)
Record image_ok (im : Image) : Prop := {
  ok_width : 0 ≤ width im < 65536;
  ok_height : 0 ≤ height im < 65536;
  ok_format : format im = Rgb888 ∨ format im = Rgba8888;
  ok_data : width im * height im * bytes_per_pixel (format im) ≤ Z.of_nat (length (pixel_data im))
}.

Lemma offset_bounds im x y :
  image_ok im → 0 ≤ x < width im → 0 ≤ y < height im →
  0 ≤ offset_of im x y ∧ offset_of im x y + bytes_per_pixel (format im) ≤ Z.of_nat (length (pixel_data im)) ∧
  offset_of im x y < 2 ^ 40.
Proof.
  intros [Hw Hh Hf Hd] Hx Hy. unfold offset_of.
  set (row := match (ordering im).1 with TopToBottom => y | BottomToTop => _ end).
  set (column := match (ordering im).2 with LeftToRight => x | RightToLeft => _ end).
  assert (0 ≤ row < height im) by (unfold row; destruct (ordering im).1; lia).
  assert (0 ≤ column < width im) by (unfold column; destruct (ordering im).2; lia).
  assert (row * width im + column + 1 ≤ width im * height im) by nia.
  assert (0 ≤ row * width im + column) by nia. assert (width im * height im ≤ 65535 * 65535) by nia.
  assert (bytes_per_pixel (format im) = 3 ∨ bytes_per_pixel (format im) = 4) by (destruct Hf as [-> | ->]; simpl; lia).
  split_and!; nia.
Qed.

(** Inside the image a pixel is read from its own bytes, without a panic. *)
Lemma get_pixel_ok im x y :
  image_ok im → 0 ≤ x < width im → 0 ≤ y < height im → get_pixel im x y = Ret (Some (pixel_of im x y)).
Proof.
  intros Hok Hx Hy. destruct (offset_bounds im x y Hok Hx Hy) as (H0 & Hend & Hbig). pose proof Hok as [Hw Hh Hf Hd].
  unfold get_pixel. rewrite (proj2 (Z.leb_gt _ _)), (proj2 (Z.leb_gt _ _)) by lia. cbn [orb].
  assert ((match (ordering im).1 with TopToBottom => Ret y | BottomToTop => d ← usize_sub (height im) y; usize_sub d 1 end) =
    Ret (match (ordering im).1 with TopToBottom => y | BottomToTop => height im - 1 - y end)) as ->.
  { destruct (ordering im).1; [done|]. rewrite usize_sub_ok by lia. cbn [mbind outcome_bind].
    rewrite usize_sub_ok by lia. f_equal. lia. }
  cbn [mbind outcome_bind].
  assert ((match (ordering im).2 with LeftToRight => Ret x | RightToLeft => d ← usize_sub (width im) x; usize_sub d 1 end) =
    Ret (match (ordering im).2 with LeftToRight => x | RightToLeft => width im - 1 - x end)) as ->.
  { destruct (ordering im).2; [done|]. rewrite usize_sub_ok by lia. cbn [mbind outcome_bind].
    rewrite usize_sub_ok by lia. f_equal. lia. }
  cbn [mbind outcome_bind]. unfold pixel_of. set (o := offset_of im x y) in *. unfold offset_of in o.
  set (row := match (ordering im).1 with TopToBottom => y | BottomToTop => _ end) in *.
  set (column := match (ordering im).2 with LeftToRight => x | RightToLeft => _ end) in *.
  assert (0 < bytes_per_pixel (format im)) by (by destruct (format im)).
  assert (row * width im + column ≤ o) by (unfold o; nia).
  assert (0 ≤ column) by (unfold column; destruct (ordering im).2; lia).
  rewrite usize_mul_ok by lia. cbn [mbind outcome_bind]. rewrite usize_add_ok by lia. cbn [mbind outcome_bind].
  rewrite usize_mul_ok by (fold o; lia). cbn [mbind outcome_bind]. fold o. unfold slice_unchecked.
  rewrite (proj2 (Z.leb_le _ _)), (proj2 (Z.leb_le _ _)) by lia. cbn [andb mbind outcome_bind].
  destruct Hf as [E|E]; rewrite E in *; cbn [bytes_per_pixel] in *;
    rewrite ?(index_slice _ o _ 2), ?(index_slice _ o _ 1), ?(index_slice _ o _ 0), ?(index_slice _ o _ 3) by lia; done.
Qed.

Lemma try_new_spec d :
  Forall is_byte d →
  match try_new d with
  | Ret (Ok im) => image_ok im ∧ pixel_data im = drop 18 d ∧ width im = u16_at d 12 ∧ height im = u16_at d 14 ∧
      color_format (read_header d) = Ok (format im) ∧ ordering im = pixel_ordering (read_header d)
  | Ret (Err NoHeader) => Z.of_nat (length d) < 18
  | Ret (Err NotEnoughData) => ∃ f, color_format (read_header d) = Ok f ∧
      Z.of_nat (length d) < 18 + u16_at d 12 * u16_at d 14 * bytes_per_pixel f
  | Ret (Err Unsupported) => byte_at d 1 ≠ 0 ∨ byte_at d 2 ≠ 2 ∨ byte_at d 16 ≠ 24 ∧ byte_at d 16 ≠ 32
  | Panic e => e = Undefined ∧ image_type_of (byte_at d 2) = None
  end.
Proof.
  intros Hd. pose proof (u16_at_bounds d 12 Hd) as Hw. pose proof (u16_at_bounds d 14 Hd) as Hh. unfold try_new, HEADER_SIZE.
  destruct (Z.ltb_spec (Z.of_nat (length d)) 18) as [?|Hlen]; [done|].
  unfold image_format. cbn [read_header color_map image_type].
  destruct (Z.eqb_spec (byte_at d 1) 0) as [Ec|]; cbn [negb]; [|by left].
  destruct (image_type_of (byte_at d 2)) as [t|] eqn:Et; cbn [mbind outcome_bind]; [|done].
  assert (t ≠ UncompressedTrueColor → byte_at d 2 ≠ 2) as Ht by (intros Hne E; rewrite E in Et; by injection Et as <-).
  destruct t; try (right; left; by apply Ht).
  unfold color_format. cbn [read_header color_depth header_width header_height].
  set (w0 := u16_at d 12) in *. set (h0 := u16_at d 14) in *.
  assert (∀ f, 3 ≤ bytes_per_pixel f ≤ 4 →
    bytes_per_pixel f * w0 ≤ usize_max ∧ bytes_per_pixel f * w0 * h0 + 18 ≤ usize_max) as Hov.
  { intros f Hf. assert (0 ≤ w0 * h0 ≤ 65535 * 65535) by nia. split; nia. }
  destruct (Z.eqb_spec (byte_at d 16) 32) as [E32|]; [|destruct (Z.eqb_spec (byte_at d 16) 24) as [E24|]; [|by right; right]];
    [destruct (Hov Rgba8888 ltac:(simpl; lia))|destruct (Hov Rgb888 ltac:(simpl; lia))];
    (rewrite usize_mul_ok by done; cbn [mbind outcome_bind]; rewrite usize_mul_ok by lia; cbn [mbind outcome_bind];
     rewrite usize_add_ok by done; cbn [mbind outcome_bind];
     case_Z; [eexists; split; [done|lia]|]; split_and!; try done);
    (split; cbn [width height format pixel_data]; [done|done|by eauto|rewrite length_drop; lia]).
Qed.

Lemma get_pixel_outside im x y : width im ≤ x ∨ height im ≤ y → get_pixel im x y = Ret None.
Proof.
  intros Hout. unfold get_pixel.
  destruct (Z.leb_spec (width im) x), (Z.leb_spec (height im) y); try done. lia.
Qed.

(** The position after [i] pixels. *)
Definition position_at (im : Image) (i : Z) : Z * Z := (i mod width im, i / width im).

Definition item_at (im : Image) (i : Z) : (Z * Z) * Pixel :=
  (position_at im i, pixel_of im (i mod width im) (i / width im)).

Lemma next_at im i :
  image_ok im → 0 ≤ i < width im * height im →
  next im (position_at im i) = Ret (Some (item_at im i), position_at im (i + 1)).
Proof.
  intros Hok Hi. pose proof Hok as [Hw Hh _ _]. assert (0 < width im) as Hpos by nia.
  pose proof (Z.div_mod i (width im) ltac:(lia)) as Hdm. pose proof (Z.mod_pos_bound i (width im) Hpos) as Hm.
  assert (0 ≤ i / width im < height im) as Hy by (split; [by apply Z.div_pos; lia|apply Z.div_lt_upper_bound; lia]).
  unfold next, item_at, position_at. cbn [fst snd]. rewrite (proj2 (Z.leb_gt _ _)) by lia.
  rewrite (get_pixel_ok im _ _ Hok Hm Hy). cbn [mbind outcome_bind].
  rewrite !usize_add_ok by lia. cbn [mbind outcome_bind].
  do 2 f_equal. rewrite <-row_step by done. by destruct (width im <=? i mod width im + 1).
Qed.

Lemma collect_from im n i fuel :
  image_ok im → 0 ≤ i → i + Z.of_nat n = width im * height im → (n < fuel)%nat →
  collect fuel im (position_at im i) = Ret (Some (item_at im <$> seqZ i (Z.of_nat n))).
Proof.
  intros Hok. revert i fuel. induction n as [|n IH]; intros i fuel Hi Hn Hf; (destruct fuel as [|fuel]; [lia|]); cbn [collect].
  - assert (next im (position_at im i) = Ret (None, position_at im i)) as ->; [|done].
    unfold next. destruct (Z.leb_spec (height im) (position_at im i).2) as [|Hy]; [done|].
    rewrite get_pixel_outside; [done|]. left. pose proof Hok as [Hw Hh _ _]. cbn [position_at fst snd] in *.
    assert (i = width im * height im) as -> by lia. destruct (decide (width im = 0)) as [E|E].
    + rewrite E. by rewrite Z.mod_0_r.
    + rewrite Z.mul_comm, Z.div_mul in Hy by done. lia.
  - rewrite next_at by (done || lia). cbn [mbind outcome_bind]. rewrite (IH (i + 1) fuel) by lia. cbn [mbind outcome_bind option_map].
    rewrite (seqZ_cons i (Z.of_nat (S n))) by lia. rewrite fmap_cons.
    replace (Z.succ i) with (i + 1) by lia. by replace (Z.pred (Z.of_nat (S n))) with (Z.of_nat n) by lia.
Qed.

(** ** Properties *)

(** [try_new] never reads outside the buffer and never panics, except that a
    byte which is no image type is used as one; an image it accepts can be read at
    every pixel without a panic or a read outside the buffer, each pixel from its
    own bytes in the orientation of the header.  Each error is returned for its own
    reason. *)
Theorem targa_safe d :
  Forall is_byte d →
  match try_new d with
  | Ret (Ok im) => ∀ x y, 0 ≤ x → 0 ≤ y →
      get_pixel im x y = Ret (if (x <? width im) && (y <? height im) then Some (pixel_of im x y) else None) ∧
      (x < width im → y < height im → offset_of im x y + bytes_per_pixel (format im) ≤ Z.of_nat (length d) - 18)
  | Ret (Err NoHeader) => Z.of_nat (length d) < 18
  | Ret (Err NotEnoughData) => ∃ f, color_format (read_header d) = Ok f ∧
      Z.of_nat (length d) < 18 + u16_at d 12 * u16_at d 14 * bytes_per_pixel f
  | Ret (Err Unsupported) => byte_at d 1 ≠ 0 ∨ byte_at d 2 ≠ 2 ∨ byte_at d 16 ≠ 24 ∧ byte_at d 16 ≠ 32
  | Panic e => e = Undefined ∧ image_type_of (byte_at d 2) = None
  end.
Proof.
  intros Hd. pose proof (try_new_spec d Hd) as Hs. destruct (try_new d) as [[im|]|]; [|done..].
  destruct Hs as (Hok & Hdata & _). intros x y Hx Hy. split.
  - destruct (Z.ltb_spec x (width im)), (Z.ltb_spec y (height im)); cbn [andb];
      [by apply get_pixel_ok|apply get_pixel_outside; lia..].
  - intros Hxw Hyh. destruct (offset_bounds im x y Hok) as (_ & Hb & _); [lia..|].
    rewrite Hdata, length_drop in Hb. pose proof (ok_width _ Hok). destruct (decide (18 ≤ length d)%nat); [lia|].
    assert (bytes_per_pixel (format im) > 0) by (by destruct (format im)).
    destruct (offset_bounds im x y Hok) as (? & _); lia.
Qed.

(** C37. A loop over an image that was accepted ends after [width * height] turns
    and has seen every pixel exactly once, row by row. *)
Theorem targa_iterates d im fuel :
  Forall is_byte d → try_new d = Ret (Ok im) → width im * height im < Z.of_nat fuel →
  collect fuel im (0, 0) = Ret (Some (item_at im <$> seqZ 0 (width im * height im))).
Proof.
  intros Hd Ht Hf. pose proof (try_new_spec d Hd) as Hs. rewrite Ht in Hs. destruct Hs as (Hok & _).
  pose proof Hok as [Hw Hh _ _]. assert (0 ≤ width im * height im) by nia.
  assert (position_at im 0 = (0, 0)) as <- by (unfold position_at; by rewrite Zmod_0_l, Zdiv_0_l).
  rewrite (collect_from im (Z.to_nat (width im * height im)) 0 fuel Hok); rewrite ?Z2Nat.id by done; [done|lia..].
Qed.

(** *** The properties at work *)

(** Two by two pixels of 24 bits, stored from the bottom row up. *)
Definition demo_targa : list Z :=
  [0; 0; 2; 0; 0; 0; 0; 0; 0; 0; 0; 0; 2; 0; 2; 0; 24; 0;
   0xaa; 0xbb; 0xcc; 0x11; 0x22; 0x33; 0xdd; 0xee; 0xff; 0x44; 0x55; 0x66].

Lemma demo_targa_bytes : Forall is_byte demo_targa.
Proof. unfold demo_targa, is_byte. repeat (constructor; [lia|]). constructor. Qed.

Definition demo_image : Image :=
  mkImage (drop 18 demo_targa) 2 2 Rgb888 (BottomToTop, LeftToRight).

Lemma targa_safe_witness :
  try_new demo_targa = Ret (Ok demo_image) ∧ get_pixel demo_image 1 0 = Ret (Some (mkPixel 0x66 0x55 0x44 255)).
Proof.
  assert (try_new demo_targa = Ret (Ok demo_image)) as E by reflexivity. split; [exact E|].
  pose proof (targa_safe demo_targa demo_targa_bytes) as Hs. rewrite E in Hs.
  destruct (Hs 1 0 ltac:(lia) ltac:(lia)) as [Hp _]. rewrite Hp. reflexivity.
Defined.

Lemma targa_iterates_witness :
  collect 5 demo_image (0, 0) = Ret (Some
    [((0, 0), mkPixel 0xff 0xee 0xdd 255); ((1, 0), mkPixel 0x66 0x55 0x44 255);
     ((0, 1), mkPixel 0xcc 0xbb 0xaa 255); ((1, 1), mkPixel 0x33 0x22 0x11 255)]).
Proof. rewrite (targa_iterates demo_targa demo_image 5 demo_targa_bytes); [reflexivity|reflexivity|cbn; lia]. Defined.
