(* ===== verification/Psf.v ===== *)
(** * Psf: bitmap fonts of the text console

    [psf/src/lib.rs]: the two headers, their parsers [Psf1::try_new],
    [Psf2::try_new] and [try_parse] on a buffer of bytes, the trait [PsfFont] with
    its provided method [locate_char], and [PsfChar::is_set]. *)

From stdpp Require Import base list numbers option.
From S2P Require Import Prelude.

Open Scope Z_scope.

(** ** Headers *)

(** A reference to a header is one to the start of the font's buffer: [memory] is
    the buffer, which [locate_char] reads through the reference. *)
Record Psf1 := mkPsf1 { magic1 : list Z; mode : Z; char_size1 : Z; memory1 : list Z }.

Record Psf2 := mkPsf2 {
  magic2 : list Z; version : Z; header_size_field : Z; flags : Z; glyph_count : Z; char_size2 : Z;
  glyph_height : Z; glyph_width : Z; memory2 : list Z
}.

Abbreviation SIZE_OF_PSF1 := 4 (only parsing).
Abbreviation SIZE_OF_PSF2 := 32 (only parsing).

(** [FontMode] and [FontFlags]. *)
Abbreviation MODE_512 := 1 (only parsing).
Abbreviation MODE_HashTable := 2 (only parsing).
Abbreviation MODE_Seq := 4 (only parsing).
Abbreviation FLAG_UnicodeTable := 1 (only parsing).

Definition contains (bits flag : Z) : bool := Z.land bits flag =? flag.

(** The casts of the buffer to a header. *)
Definition read_psf1 (d : list Z) : Psf1 := mkPsf1 (take 2 d) (byte_at d 2) (byte_at d 3) d.

Definition read_psf2 (d : list Z) : Psf2 :=
  mkPsf2 (take 4 d) (u32_at d 4) (u32_at d 8) (u32_at d 12) (u32_at d 16) (u32_at d 20) (u32_at d 24) (u32_at d 28) d.

(** ** Characters *)

Record PsfChar := mkPsfChar { width : Z; height : Z; stride : Z; data : list Z }.

Definition is_set (c : PsfChar) (x y : Z) : outcome bool :=
  if (width c <? x) || (height c <? y) then Ret false else
  line ← usize_mul y (stride c);
  i ← usize_add (x / 8) line;
  byte ← index (data c) i;
  Ret (negb (Z.land byte (Z.shiftl 1 (7 - x mod 8)) =? 0)).

Inductive ParseError :=
  | IncorrectAlign | IncorrectMagic | IncorrectDataLength (expected found : Z) | NoHeader.

Inductive LookupError := UnicodeChar | ExtendedGlyph.

(** ** The trait *)

Class PsfFont (F : Type) := {
  char_width : F → Z;
  char_height : F → Z;
  char_count : F → Z;
  char_stride : F → outcome Z;
  header_size : F → Z;
  memory : F → list Z
}.

Definition locate_char `{PsfFont F} (self : F) (the_char : Z) : outcome (result PsfChar LookupError) :=
  if 512 <? the_char then Ret (Err UnicodeChar) else
  if char_count self <? the_char then Ret (Err ExtendedGlyph) else
  s ← char_stride self;
  line ← usize_mul (char_height self) s;
  skip ← usize_mul line the_char;
  char_byte_offset ← usize_add (header_size self) skip;
  char_size ← usize_mul (char_height self) s;
  char_data ← slice_unchecked (memory self) char_byte_offset char_size;
  Ret (Ok (mkPsfChar (char_width self) (char_height self) s char_data)).

#[global] Instance psf1_font : PsfFont Psf1 := {
  char_width _ := 8;
  char_height f := char_size1 f;
  char_count f := if contains (mode f) MODE_512 then 512 else 256;
  char_stride _ := Ret 8;
  header_size _ := SIZE_OF_PSF1;
  memory := memory1
}.

#[global] Instance psf2_font : PsfFont Psf2 := {
  char_width f := glyph_width f;
  char_height f := glyph_height f;
  char_count f := glyph_count f;
  char_stride f := usize_div (char_size2 f) (glyph_height f);
  header_size _ := SIZE_OF_PSF2;
  memory := memory2
}.

(** [&dyn PsfFont]. *)
Inductive DynPsfFont := DynPsf1 (f : Psf1) | DynPsf2 (f : Psf2).

#[global] Instance dyn_font : PsfFont DynPsfFont := {
  char_width f := match f with DynPsf1 f => char_width f | DynPsf2 f => char_width f end;
  char_height f := match f with DynPsf1 f => char_height f | DynPsf2 f => char_height f end;
  char_count f := match f with DynPsf1 f => char_count f | DynPsf2 f => char_count f end;
  char_stride f := match f with DynPsf1 f => char_stride f | DynPsf2 f => char_stride f end;
  header_size f := match f with DynPsf1 f => header_size f | DynPsf2 f => header_size f end;
  memory f := match f with DynPsf1 f => memory f | DynPsf2 f => memory f end
}.

(** ** Parsers *)

(** [addr] is where the buffer lies; a [Psf1] has alignment 1, a [Psf2] 4. *)
Definition is_aligned_to (addr align : Z) : bool := addr mod align =? 0.

Definition psf1_try_new (addr : Z) (raw_font_data : list Z) : outcome (result Psf1 ParseError) :=
  let len := Z.of_nat (length raw_font_data) in
  if len <? SIZE_OF_PSF1 then Ret (Err NoHeader) else
  if negb (is_aligned_to addr 1) then Ret (Err IncorrectAlign) else
  let font_data := read_psf1 raw_font_data in
  if negb (bool_decide (magic1 font_data = [0x36; 0x04])) then Ret (Err IncorrectMagic) else
  if contains (mode font_data) MODE_Seq || contains (mode font_data) MODE_HashTable then Panic NotImplemented else
  glyphs ← usize_mul (char_count font_data) (char_size1 font_data);
  expected_bytes ← usize_add SIZE_OF_PSF1 glyphs;
  if negb (expected_bytes =? len) then Ret (Err (IncorrectDataLength expected_bytes len)) else
  Ret (Ok font_data).

Definition psf2_try_new (addr : Z) (raw_font_data : list Z) : outcome (result Psf2 ParseError) :=
  let len := Z.of_nat (length raw_font_data) in
  if len <? SIZE_OF_PSF2 then Ret (Err NoHeader) else
  if negb (is_aligned_to addr 4) then Ret (Err IncorrectAlign) else
  let font_data := read_psf2 raw_font_data in
  if negb (bool_decide (magic2 font_data = [0x72; 0xb5; 0x4a; 0x86])) then Ret (Err IncorrectMagic) else
  if contains (flags font_data) FLAG_UnicodeTable then Panic NotImplemented else
  glyphs ← usize_mul (char_count font_data) (char_size2 font_data);
  expected_bytes ← usize_add SIZE_OF_PSF2 glyphs;
  if negb (expected_bytes =? len) then Ret (Err (IncorrectDataLength expected_bytes len)) else
  Ret (Ok font_data).

Definition try_parse (addr : Z) (d : list Z) : outcome (result DynPsfFont ParseError) :=
  r1 ← psf1_try_new addr d;
  match r1 with
  | Ok font => Ret (Ok (DynPsf1 font))
  | Err IncorrectMagic =>
      r2 ← psf2_try_new addr d;
      match r2 with Ok font => Ret (Ok (DynPsf2 font)) | Err e => Ret (Err e) end
  | Err e => Ret (Err e)
  end.

(** ** What a file holds *)

Definition le32 (v : Z) : list Z := [v mod 256; v / 256 mod 256; v / 65536 mod 256; v / 16777216 mod 256].

(** The file of a version 2 font without a Unicode table. *)
Definition psf2_file (w h size : Z) (glyphs : list (list Z)) : list Z :=
  [0x72; 0xb5; 0x4a; 0x86] ++ le32 0 ++ le32 32 ++ le32 0 ++ le32 (Z.of_nat (length glyphs)) ++ le32 size ++
  le32 h ++ le32 w ++ concat glyphs.

(** The pixel of a glyph, its lines packed into whole bytes. *)
Definition pixel (stride : Z) (glyph : list Z) (x y : Z) : bool :=
  Z.testbit (byte_at glyph (Z.to_nat (y * stride + x / 8))) (7 - x mod 8).

Lemma le32_value v : 0 ≤ v < 2 ^ 32 →
  v mod 256 + 256 * (v / 256 mod 256) + 65536 * (v / 65536 mod 256 + 256 * (v / 16777216 mod 256)) = v.
Proof. intros. Z.div_mod_to_equations. lia. Qed.

Lemma u32_at_bounds l i : Forall is_byte l → 0 ≤ u32_at l i < 2 ^ 32.
Proof. intros Hl. unfold u32_at. pose proof (u16_at_bounds l i Hl). pose proof (u16_at_bounds l (S (S i)) Hl). lia. Qed.

(** Chunks of one length are found where they were put. *)
Lemma concat_chunk {A} (ls : list (list A)) n c l :
  Forall (λ l, length l = n) ls → ls !! c = Some l → take n (drop (n * c) (concat ls)) = l.
Proof.
  intros Hls. revert c. induction Hls as [|l' ls Hn Hls IH]; intros [|c] Hc; simplify_eq/=.
  - by rewrite Nat.mul_0_r, drop_0, take_app_length.
  - rewrite Nat.mul_succ_r, Nat.add_comm, <-drop_drop, drop_app_length. by apply IH.
Qed.

Lemma concat_length {A} (ls : list (list A)) n :
  Forall (λ l, length l = n) ls → length (concat ls) = (n * length ls)%nat.
Proof. induction 1 as [|l ls Hn Hls IH]; simpl; [lia|]. rewrite length_app. lia. Qed.

(** Any accepted version 2 font is its header at the start of a buffer of exactly
    the length the header announces. *)
Lemma psf2_accepted addr d f :
  psf2_try_new addr d = Ret (Ok f) → f = read_psf2 d ∧ 32 + glyph_count f * char_size2 f = Z.of_nat (length d).
Proof.
  unfold psf2_try_new. intros H. repeat case_match; inv_ret; try done; simplify_eq/=.
  case_match; simplify_eq/=. split; [done|].
  match goal with E : negb (_ =? _) = false |- _ => apply negb_false_iff, Z.eqb_eq in E end. done.
Qed.

(** [locate_char] of a font all of whose glyphs up to [c] lie in the buffer. *)
Lemma locate_char_ok `{PsfFont F} (f : F) c s :
  0 ≤ c ≤ 512 → c ≤ char_count f → char_stride f = Ret s → 0 ≤ s → 0 ≤ char_height f → 0 ≤ header_size f →
  header_size f + char_height f * s * (c + 1) ≤ Z.of_nat (length (memory f)) → Z.of_nat (length (memory f)) ≤ usize_max →
  locate_char f c = Ret (Ok (mkPsfChar (char_width f) (char_height f) s
    (take (Z.to_nat (char_height f * s)) (drop (Z.to_nat (header_size f + char_height f * s * c)) (memory f))))).
Proof.
  intros Hc Hn Hs Hs0 Hh Hhd Hend Hlen. unfold locate_char. rewrite (proj2 (Z.ltb_ge _ _)), (proj2 (Z.ltb_ge _ _)) by lia.
  assert (0 ≤ char_height f * s) by nia. assert (0 ≤ char_height f * s * c) by nia.
  rewrite Hs. cbn [mbind outcome_bind]. rewrite usize_mul_ok by lia. cbn [mbind outcome_bind].
  rewrite usize_mul_ok by lia. cbn [mbind outcome_bind]. rewrite usize_add_ok by lia. cbn [mbind outcome_bind].
  unfold slice_unchecked. rewrite (proj2 (Z.leb_le _ _)), (proj2 (Z.leb_le _ _)) by lia. done.
Qed.

(** ... and of one whose glyph [c] ends after the buffer. *)
Lemma locate_char_outside `{PsfFont F} (f : F) c s :
  0 ≤ c ≤ 512 → c ≤ char_count f → char_stride f = Ret s → 0 ≤ s < 2 ^ 20 → 0 ≤ char_height f < 2 ^ 20 → 0 ≤ header_size f < 2 ^ 20 →
  Z.of_nat (length (memory f)) < header_size f + char_height f * s * (c + 1) →
  locate_char f c = Panic Undefined.
Proof.
  intros Hc Hn Hs Hs0 Hh Hhd Hend. unfold locate_char. rewrite (proj2 (Z.ltb_ge _ _)), (proj2 (Z.ltb_ge _ _)) by lia.
  assert (0 ≤ char_height f * s < 2 ^ 40) by nia. assert (0 ≤ char_height f * s * c < 2 ^ 50) by nia.
  rewrite Hs. cbn [mbind outcome_bind]. rewrite usize_mul_ok by lia. cbn [mbind outcome_bind].
  rewrite usize_mul_ok by lia. cbn [mbind outcome_bind]. rewrite usize_add_ok by lia. cbn [mbind outcome_bind].
  unfold slice_unchecked. rewrite (proj2 (Z.leb_gt (_ + _) _)) by lia. by rewrite andb_false_r.
Qed.

Lemma is_set_pixel w h s l x y :
  0 ≤ x < w → 0 ≤ y < h → 0 < s → w ≤ 8 * s → h * s ≤ Z.of_nat (length l) → Z.of_nat (length l) ≤ usize_max →
  is_set (mkPsfChar w h s l) x y = Ret (pixel s l x y).
Proof.
  intros Hx Hy Hs Hw Hl Hmax. unfold is_set. cbn [width height stride data].
  rewrite (proj2 (Z.ltb_ge _ _)), (proj2 (Z.ltb_ge _ _)) by lia. cbn [orb].
  assert (0 ≤ x / 8 < s) by (Z.div_mod_to_equations; lia). pose proof (Z.mod_pos_bound x 8 ltac:(lia)).
  assert (0 ≤ y * s ∧ x / 8 + y * s < h * s) by nia.
  rewrite usize_mul_ok by lia. cbn [mbind outcome_bind]. rewrite usize_add_ok by lia. cbn [mbind outcome_bind].
  destruct (lookup_lt_is_Some_2 l (Z.to_nat (x / 8 + y * s))) as [b Hb]; [lia|].
  rewrite (index_ok _ _ b) by (done || lia). cbn [mbind outcome_bind].
  rewrite land_single, negb_involutive by lia. unfold pixel, byte_at. by rewrite Z.add_comm, Hb.
Qed.

Lemma psf1_accepted addr d f :
  psf1_try_new addr d = Ret (Ok f) →
  f = read_psf1 d ∧ 4 + char_count f * char_size1 f = Z.of_nat (length d) ∧ (char_count f = 256 ∨ char_count f = 512).
Proof.
  unfold psf1_try_new. intros H. repeat case_match; inv_ret; try done.
  case_match; simplify_eq.
  match goal with E : negb (_ =? _) = false |- _ => apply negb_false_iff, Z.eqb_eq in E end.
  split_and!; [done|done|]. simpl. case_match; auto.
Qed.

(** The font of [psf2_file]. *)
Definition psf2_of (w h size : Z) (glyphs : list (list Z)) : Psf2 :=
  mkPsf2 [0x72; 0xb5; 0x4a; 0x86] 0 32 0 (Z.of_nat (length glyphs)) size h w (psf2_file w h size glyphs).

Section psf2_file.
  Context (w h size : Z) (glyphs : list (list Z)).
  Context (Hw : 0 ≤ w < 2 ^ 32) (Hh : 0 ≤ h < 2 ^ 32) (Hsize : 0 ≤ size < 2 ^ 32).
  Context (Hn : Z.of_nat (length glyphs) < 2 ^ 32) (Hg : Forall (λ g, Z.of_nat (length g) = size) glyphs).

Lemma glyph_lengths : Forall (λ g, length g = Z.to_nat size) glyphs.
Proof. eapply Forall_impl; [|exact Hg]. simpl. lia. Qed.

Lemma psf2_file_length : Z.of_nat (length (psf2_file w h size glyphs)) = 32 + Z.of_nat (length glyphs) * size.
Proof.
  unfold psf2_file. rewrite !length_app, (concat_length _ _ glyph_lengths). simpl length.
  rewrite !Nat2Z.inj_add, Nat2Z.inj_mul, Z2Nat.id by lia. lia.
Qed.

Lemma read_psf2_file : read_psf2 (psf2_file w h size glyphs) = psf2_of w h size glyphs.
Proof.
  unfold read_psf2, psf2_of. f_equal; try reflexivity;
    unfold u32_at, u16_at, byte_at; simpl; apply le32_value; lia.
Qed.

Lemma psf2_parses addr :
  addr mod 4 = 0 → try_parse addr (psf2_file w h size glyphs) = Ret (Ok (DynPsf2 (psf2_of w h size glyphs))).
Proof.
  intros Ha. unfold try_parse, psf1_try_new. rewrite psf2_file_length.
  assert (0 ≤ Z.of_nat (length glyphs) * size ≤ (2 ^ 32 - 1) * (2 ^ 32 - 1)) by nia.
  rewrite (proj2 (Z.ltb_ge _ _)) by lia. unfold is_aligned_to. rewrite Z.mod_1_r.
  cbn [negb Z.eqb magic1 read_psf1]. rewrite bool_decide_false by done. cbn [negb mbind outcome_bind].
  unfold psf2_try_new. rewrite psf2_file_length, read_psf2_file. unfold is_aligned_to.
  rewrite (proj2 (Z.ltb_ge _ _)), Ha by lia. cbn [negb Z.eqb magic2 psf2_of].
  rewrite bool_decide_true by done. cbn [negb flags contains char_count psf2_font glyph_count char_size2 psf2_of].
  unfold contains. change (Z.land 0 1 =? 1) with false.
  rewrite usize_mul_ok by lia. cbn [mbind outcome_bind]. rewrite usize_add_ok by lia. cbn [mbind outcome_bind].
  by rewrite Z.eqb_refl.
Qed.

End psf2_file.

(** ** Properties *)

(** C36. A version 2 font without a Unicode table, with the usual header of 32 bytes,
    that is put into a file comes back out of it: [try_parse] takes the file for a
    version 2 font, and for each character up to 512 that has a glyph [locate_char]
    finds that glyph, with [is_set] showing its pixels.  Every character above 512 is
    answered with [UnicodeChar]. *)
Theorem psf2_roundtrip addr w h s glyphs :
  addr mod 4 = 0 → 0 < h → 0 < s → 0 ≤ w ≤ 8 * s → h * s < 2 ^ 32 → w < 2 ^ 32 →
  Z.of_nat (length glyphs) < 2 ^ 32 → Forall (λ g, Z.of_nat (length g) = h * s) glyphs →
  ∃ f, try_parse addr (psf2_file w h (h * s) glyphs) = Ret (Ok f) ∧
    (∀ c, 512 < c → locate_char f c = Ret (Err UnicodeChar)) ∧
    ∀ c g, glyphs !! c = Some g → (c ≤ 512)%nat →
      ∃ ch, locate_char f (Z.of_nat c) = Ret (Ok ch) ∧ width ch = w ∧ height ch = h ∧
        ∀ x y, 0 ≤ x < w → 0 ≤ y < h → is_set ch x y = Ret (pixel s g x y).
Proof.
  intros Ha Hh Hs Hw Hsize Hw32 Hn Hg. assert (0 ≤ h < 2 ^ 32) by nia. eexists. split; [apply psf2_parses; try done; lia|].
  split; [intros c Hc; unfold locate_char; by rewrite (proj2 (Z.ltb_lt _ _) Hc)|].
  intros c g Hc Hc512. pose proof (lookup_lt_Some _ _ _ Hc) as Hlt.
  pose proof (psf2_file_length w h (h * s) glyphs ltac:(lia) Hg) as Hlen.
  assert (usize_div (h * s) h = Ret s) as Hdiv.
  { unfold usize_div. rewrite (proj2 (Z.eqb_neq _ _)) by lia. by rewrite Z.mul_comm, Z.div_mul by lia. }
  eexists. split.
  - apply (locate_char_ok (DynPsf2 _)) with (s := s);
      cbn [char_count char_height char_stride header_size memory dyn_font psf2_font psf2_of glyph_count glyph_height char_size2 memory2];
      rewrite ?Hlen; done || lia || nia.
  - split_and!; [done..|]. intros x y Hx Hy.
    cbn [char_width char_height header_size memory dyn_font psf2_font psf2_of glyph_width glyph_height memory2].
    assert (take (Z.to_nat (h * s)) (drop (Z.to_nat (32 + h * s * Z.of_nat c)) (psf2_file w h (h * s) glyphs)) = g) as ->.
    { replace (Z.to_nat (32 + h * s * Z.of_nat c)) with (32 + Z.to_nat (h * s) * c)%nat by nia.
      rewrite <-drop_drop. change (drop 32 (psf2_file w h (h * s) glyphs)) with (concat glyphs).
      apply (concat_chunk glyphs); [|done]. apply glyph_lengths, Hg. }
    pose proof (Forall_lookup_1 _ _ _ _ Hg Hc) as Hgl. cbn beta in Hgl. apply is_set_pixel; lia.
Qed.

(** In a version 1 font that was accepted, only the characters below one
    eighth of the number of glyphs are found, with the bytes of eight glyphs; the
    lookup of any other one reads outside the font. *)
Theorem psf1_reads_outside addr d f c :
  psf1_try_new addr d = Ret (Ok f) → Forall is_byte d → 0 < char_size1 f → 0 ≤ c ≤ char_count f →
  locate_char f c =
    if c <? char_count f / 8 then
      Ret (Ok (mkPsfChar 8 (char_size1 f) 8 (take (Z.to_nat (char_size1 f * 8)) (drop (Z.to_nat (4 + char_size1 f * (8 * c))) d))))
    else Panic Undefined.
Proof.
  intros Hf Hd Hh Hc. destruct (psf1_accepted _ _ _ Hf) as (E & Hlen & Hcount).
  assert (memory1 f = d ∧ 0 ≤ char_size1 f < 256) as [Hm Hb] by (rewrite E; split; [done|apply byte_at_bounds, Hd]).
  assert (8 * (char_count f / 8) = char_count f) as H8 by (destruct Hcount as [-> | ->]; done).
  case_Z.
  - rewrite (locate_char_ok f c 8); cbn [char_stride char_height char_width header_size memory psf1_font];
      rewrite ?Hm; [do 5 f_equal; lia|done || lia..|nia|nia].
  - apply (locate_char_outside f c 8); try (cbn [char_stride char_height header_size memory psf1_font];
      rewrite ?Hm; done || lia || nia).
Qed.

(** The character numbered [char_count] passes the test for an extended glyph and
    is read after the end of the font. *)
Theorem psf2_one_past w h s glyphs :
  0 < h < 2 ^ 20 → 0 < s < 2 ^ 20 → h * s < 2 ^ 32 → (length glyphs ≤ 512)%nat → Forall (λ g, Z.of_nat (length g) = h * s) glyphs →
  locate_char (psf2_of w h (h * s) glyphs) (Z.of_nat (length glyphs)) = Panic Undefined.
Proof.
  intros Hh Hs Hsize Hn Hg. pose proof (psf2_file_length w h (h * s) glyphs ltac:(lia) Hg) as Hlen.
  apply (locate_char_outside (psf2_of _ _ _ _) _ s);
    cbn [char_count char_height char_stride header_size memory psf2_font psf2_of glyph_count glyph_height char_size2 memory2];
    rewrite ?Hlen; try lia.
  unfold usize_div. rewrite (proj2 (Z.eqb_neq _ _)) by lia. by rewrite Z.mul_comm, Z.div_mul by lia.
Qed.

(** *** The properties at work *)

(** Two characters of nine by two pixels. *)
Definition demo_glyphs : list (list Z) := [[0xff; 0x80; 0x81; 0x00]; [0x18; 0x00; 0x24; 0x80]].

Lemma psf2_roundtrip_witness :
  ∃ f ch, try_parse 4096 (psf2_file 9 2 4 demo_glyphs) = Ret (Ok f) ∧ locate_char f 1 = Ret (Ok ch) ∧
    is_set ch 3 0 = Ret true ∧ is_set ch 8 0 = Ret false ∧ is_set ch 8 1 = Ret true.
Proof.
  destruct (psf2_roundtrip 4096 9 2 2 demo_glyphs) as (f & Hf & _ & Hc); [done|lia..|cbn; lia|by repeat constructor|].
  destruct (Hc 1%nat [0x18; 0x00; 0x24; 0x80]) as (ch & Hch & _ & _ & Hset); [done|lia|].
  exists f, ch. split_and!; [exact Hf|exact Hch|..];
    (rewrite Hset by lia; reflexivity).
Defined.

(** A version 1 font of one line per glyph. *)
Definition demo_psf1 : list Z := [0x36; 0x04; 0; 1] ++ replicate 256 0xaa.

Lemma demo_psf1_bytes : Forall is_byte demo_psf1.
Proof. apply Forall_app. unfold is_byte. split; [repeat constructor; lia|]. apply Forall_replicate. lia. Qed.

Lemma psf1_reads_outside_witness :
  psf1_try_new 0 demo_psf1 = Ret (Ok (read_psf1 demo_psf1)) ∧ locate_char (read_psf1 demo_psf1) 65 = Panic Undefined.
Proof.
  assert (psf1_try_new 0 demo_psf1 = Ret (Ok (read_psf1 demo_psf1))) as E by reflexivity. split; [exact E|].
  rewrite (psf1_reads_outside 0 demo_psf1 _ 65 E demo_psf1_bytes); [reflexivity|vm_compute; reflexivity|].
  split; vm_compute; discriminate.
Defined.
