(* ===== verification/Tui.v ===== *)
(** * Tui: the bootloader's text console

    [bootloader/src/framebuffer/mod.rs]: the font family and its styles, the pixel
    buffer, and the console [Tui] with its cursor, its scrolling and
    [fmt::Write::write_str].  The graphics output of the firmware and its pixels
    come from the [uefi] crate and are parameters. *)

From stdpp Require Import base list numbers option.
From S2P Require Import Prelude Psf.

Open Scope Z_scope.

(** ** Font families *)

Inductive FontStyle := Regular | Bold | Italic | BoldItalic.

Definition fallbacks (s : FontStyle) : list FontStyle :=
  match s with
  | Regular | Bold | Italic => [Regular]
  | BoldItalic => [Bold; Italic; Regular]
  end.

Record FontFamily (F : Type) := mkFontFamily {
  regular : F; bold : option F; italic : option F; bold_italic : option F
}.
Arguments mkFontFamily {F} _ _ _ _.
Arguments regular {F} _.
Arguments bold {F} _.
Arguments italic {F} _.
Arguments bold_italic {F} _.

(** [Iterator::reduce]. *)
Definition reduce {A} (f : A → A → A) (l : list A) : option A :=
  match l with [] => None | a :: l => Some (fold_left f l a) end.

Definition font_exists_for_style {F} (self : FontFamily F) (s : FontStyle) : bool :=
  match s with
  | Regular => true
  | Bold => bool_decide (is_Some (bold self))
  | Italic => bool_decide (is_Some (italic self))
  | BoldItalic => bool_decide (is_Some (bold_italic self))
  end.

Definition get_available_style {F} (self : FontFamily F) (s : FontStyle) : outcome FontStyle :=
  if font_exists_for_style self s then Ret s else
  expect (reduce (λ current fallback, if font_exists_for_style self fallback then fallback else current)
    (rev (fallbacks s))).

Definition get_font_for_style {F} (self : FontFamily F) (s : FontStyle) : outcome F :=
  s ← get_available_style self s;
  match s with
  | Regular => Ret (regular self)
  | Bold => expect (bold self)
  | Italic => expect (italic self)
  | BoldItalic => expect (bold_italic self)
  end.

(** ** Slices *)

(** [slice::rotate_right]. *)
Definition rotate_right {A} (l : list A) (k : Z) : outcome (list A) :=
  let n := (length l - Z.to_nat k)%nat in
  if k <=? Z.of_nat (length l) then Ret (drop n l ++ take n l) else Panic AssertionFailed.

(** [for i in &mut l[s..e] { *i = x }]. *)
Definition fill {A} (l : list A) (s e : Z) (x : A) : outcome (list A) :=
  if (s <=? e) && (e <=? Z.of_nat (length l)) then
    Ret (take (Z.to_nat s) l ++ replicate (Z.to_nat (e - s)) x ++ drop (Z.to_nat e) l)
  else Panic IndexOutOfBounds.

Section tui.
  Context {F : Type} `{PsfFont F}.
  (** The pixels and the output of the firmware. *)
  Context {BltPixel Gop Mode : Type}.
  Context (BltPixel_new : Z → Z → Z → BltPixel).
  Context (blt : Gop → list BltPixel → Z → Z → Gop * bool).
  Context (modes : Gop → list Mode) (resolution : Mode → Z * Z).
  Context (set_mode : Gop → Mode → Gop * bool) (current_mode : Gop → Mode).

(** ** The pixel buffer *)

Record PixelBuffer := mkPixelBuffer { pixels : list BltPixel; pitch : Z }.

(** [pixel_mut] and a write through it. *)
Definition set_pixel (b : PixelBuffer) (x y : Z) (p : BltPixel) : outcome PixelBuffer :=
  row ← usize_mul y (pitch b);
  i ← usize_add x row;
  _ ← index (pixels b) i;
  Ret (mkPixelBuffer (<[Z.to_nat i := p]> (pixels b)) (pitch b)).

(** ** The console *)

Record Tui := mkTui {
  tui_width : Z; tui_height : Z; double_buffer : PixelBuffer; gop : Gop; font : FontFamily F;
  location : Z * Z; color : BltPixel; current_style : FontStyle
}.

Definition with_buffer (b : PixelBuffer) (t : Tui) : Tui :=
  mkTui (tui_width t) (tui_height t) b (gop t) (font t) (location t) (color t) (current_style t).
Definition with_gop (g : Gop) (t : Tui) : Tui :=
  mkTui (tui_width t) (tui_height t) (double_buffer t) g (font t) (location t) (color t) (current_style t).
Definition with_location (l : Z * Z) (t : Tui) : Tui :=
  mkTui (tui_width t) (tui_height t) (double_buffer t) (gop t) (font t) l (color t) (current_style t).

Definition set_font_style (s : FontStyle) (t : Tui) : Tui :=
  mkTui (tui_width t) (tui_height t) (double_buffer t) (gop t) (font t) (location t) (color t) s.
Definition set_font_color (r g b : Z) (t : Tui) : Tui :=
  mkTui (tui_width t) (tui_height t) (double_buffer t) (gop t) (font t) (location t) (BltPixel_new r g b) (current_style t).

Abbreviation black := (BltPixel_new 0 0 0).

(** [Iterator::max_by_key]: the last of the largest. *)
Definition max_by_key {A} (key : A → Z) (l : list A) : option A :=
  reduce (λ best a, if key a <? key best then best else a) l.

Definition tui_new (g : Gop) (native : Z * Z) (f : FontFamily F) : outcome Tui :=
  let native_resolution := list_find (λ m, resolution m = native) (modes g) in
  let optimal := max_by_key (λ m, (resolution m).1)
    (filter (λ m, (resolution m).2 = 1080 ∨ (resolution m).2 = 720 ∨ (resolution m).2 = 480) (modes g)) in
  let optimal :=
    match optimal with
    | Some m => Some m
    | None => max_by_key (λ m, (resolution m).1)
        (filter (λ m, (resolution m).1 = 1920 ∨ (resolution m).1 = 1280 ∨ (resolution m).1 = 640) (modes g))
    end in
  let '(g, actual_mode) :=
    match match native_resolution with Some (_, m) => Some m | None => optimal end with
    | Some m => let '(g', ok) := set_mode g m in (g', if ok then m else current_mode g')
    | None => (g, current_mode g)
    end in
  let '(w, h) := resolution actual_mode in
  n ← usize_mul w h;
  Ret (mkTui w h (mkPixelBuffer (replicate (Z.to_nat n) black) w) g f (0, 0) (BltPixel_new 0xee 0xee 0xee) Regular).

Definition flush (t : Tui) : bool * Tui :=
  let '(g, ok) := blt (gop t) (pixels (double_buffer t)) (tui_width t) (tui_height t) in (ok, with_gop g t).

Definition shift_up (t : Tui) : outcome Tui :=
  f ← get_font_for_style (font t) (current_style t);
  a ← usize_sub (tui_height t) (char_height f);
  a ← usize_sub a 1;
  n ← usize_mul (tui_width t) a;
  rotated ← rotate_right (pixels (double_buffer t)) n;
  e ← usize_mul (tui_width t) (tui_height t);
  filled ← fill rotated n e black;
  Ret (with_buffer (mkPixelBuffer filled (pitch (double_buffer t))) t).

Definition newline (t : Tui) : outcome Tui :=
  f ← get_font_for_style (font t) (current_style t);
  y ← usize_add (location t).2 (char_height f);
  new_y ← usize_add y 1;
  bottom ← usize_add new_y (char_height f);
  t ← (if tui_height t <=? bottom then shift_up t else
         step ← usize_add (char_height f) 1;
         y ← usize_add (location t).2 step;
         Ret (with_location ((location t).1, y) t));
  Ret (with_location (0, (location t).2) t).

Definition advance (n : Z) (t : Tui) : outcome Tui :=
  f ← get_font_for_style (font t) (current_style t);
  cell ← usize_add (char_width f) 1;
  advance_pixels ← usize_mul (Z.abs n) cell;
  if n <? 0 then Ret (with_location (Z.max 0 ((location t).1 - advance_pixels), (location t).2) t) else
  x ← usize_add (location t).1 advance_pixels;
  let t := with_location (x, (location t).2) t in
  right ← usize_add x (char_width f);
  if tui_width t <? right then newline t else Ret t.

(** The body of the loops that draw a character. *)
Definition draw_pixel (c : PsfChar) (y x : Z) (t : Tui) : outcome Tui :=
  dx ← usize_add (location t).1 x;
  dy ← usize_add (location t).2 y;
  set ← is_set c x y;
  if set : bool then b ← set_pixel (double_buffer t) dx dy (color t); Ret (with_buffer b t) else Ret t.

Definition draw_char (c : PsfChar) (w h : Z) (t : Tui) : outcome Tui :=
  for_each (seqZ 0 h) (λ y t, for_each (seqZ 0 w) (λ x t, draw_pixel c y x t) t) t.

Inductive FmtError := FmtError_.

(** One turn of the loop over the characters: an error ends [write_str]. *)
Definition write_char (f : F) (c : Z) (t : Tui) : outcome (result unit FmtError * Tui) :=
  if c =? 10 then
    t ← newline t;
    let '(ok, t) := flush t in Ret (if ok : bool then Ok tt else Err FmtError_, t)
  else if c =? 9 then t ← advance 4 t; Ret (Ok tt, t)
  else
    r ← locate_char f c;
    match r with
    | Err _ => Ret (Err FmtError_, t)
    | Ok ch => t ← draw_char ch (char_width f) (char_height f) t; t ← advance 1 t; Ret (Ok tt, t)
    end.

Fixpoint write_chars (f : F) (s : list Z) (t : Tui) : outcome (result unit FmtError * Tui) :=
  match s with
  | [] => Ret (Ok tt, t)
  | c :: s =>
      '(r, t) ← write_char f c t;
      match r with Err e => Ret (Err e, t) | Ok _ => write_chars f s t end
  end.

Definition write_str (s : list Z) (t : Tui) : outcome (result unit FmtError * Tui) :=
  f ← get_font_for_style (font t) (current_style t);
  write_chars f s t.

(** ** Fonts of a style *)

(** The font that shows a style. *)
Definition font_of (fam : FontFamily F) (s : FontStyle) : F :=
  match s with
  | Regular => regular fam
  | Bold => default (regular fam) (bold fam)
  | Italic => default (regular fam) (italic fam)
  | BoldItalic => default (default (default (regular fam) (italic fam)) (bold fam)) (bold_italic fam)
  end.

Lemma get_font_for_style_ok fam s : get_font_for_style fam s = Ret (font_of fam s).
Proof. destruct fam as [rg [bo|] [it|] [bi|]], s; reflexivity. Qed.

Definition tui_font (t : Tui) : F := font_of (font t) (current_style t).

(** ** The invariant *)

(** The buffer holds the screen, a line of text is lower than the screen, and a
    resolution fits in 31 bits. *)
Record screen_ok (t : Tui) : Prop := {
  ok_width : 0 ≤ tui_width t < 2 ^ 31;
  ok_height : 0 ≤ tui_height t < 2 ^ 31;
  ok_pixels : Z.of_nat (length (pixels (double_buffer t))) = tui_width t * tui_height t;
  ok_pitch : pitch (double_buffer t) = tui_width t;
  ok_char_width : 0 ≤ char_width (tui_font t) ≤ tui_width t;
  ok_char_height : 0 ≤ char_height (tui_font t) < tui_height t
}.

(** ... and the character at the cursor fits on the screen. *)
Record fits (t : Tui) : Prop := {
  fits_screen : screen_ok t;
  fits_x : 0 ≤ (location t).1 ∧ (location t).1 + char_width (tui_font t) ≤ tui_width t;
  fits_y : 0 ≤ (location t).2 ∧ (location t).2 + char_height (tui_font t) ≤ tui_height t
}.

Lemma screen_area t : screen_ok t → 0 ≤ tui_width t * tui_height t ≤ usize_max.
Proof. intros [? ? _ _ _ _]. nia. Qed.

Lemma screen_ok_location l t : screen_ok t → screen_ok (with_location l t).
Proof. intros []. by split. Qed.

(** ** Scrolling *)

(** The pixels of a line of text, its spacing included. *)
Definition line_pixels (t : Tui) : nat := Z.to_nat (tui_width t * (char_height (tui_font t) + 1)).

Definition scrolled (t : Tui) : Tui :=
  with_buffer (mkPixelBuffer (drop (line_pixels t) (pixels (double_buffer t)) ++ replicate (line_pixels t) black)
    (pitch (double_buffer t))) t.

(** Rotating all but [k] elements to the right and clearing the last [k] drops the
    first [k]. *)
Lemma rotate_fill {A} (l : list A) n k x :
  0 ≤ n → (Z.to_nat n + k)%nat = length l →
  (r ← rotate_right l n; fill r n (Z.of_nat (length l)) x) = Ret (drop k l ++ replicate k x).
Proof.
  intros Hn Hk. unfold rotate_right. rewrite (proj2 (Z.leb_le _ _)) by lia. cbn [mbind outcome_bind].
  replace (length l - Z.to_nat n)%nat with k by lia.
  assert (length (drop k l) = Z.to_nat n) as Hd by (rewrite length_drop; lia).
  assert (length (drop k l ++ take k l) = length l) as Hl by (rewrite length_app, length_take; lia).
  unfold fill. rewrite Hl, (proj2 (Z.leb_le _ _)), (proj2 (Z.leb_le _ _)) by lia. cbn [andb].
  rewrite take_app_length' by done. rewrite (drop_ge (drop k l ++ take k l)), app_nil_r by lia. do 3 f_equal. lia.
Qed.

Lemma shift_up_ok t : screen_ok t → shift_up t = Ret (scrolled t).
Proof.
  intros Hf. pose proof (screen_area t Hf) as Ha. destruct Hf as [Hw Hh Hp _ Hcw Hch].
  unfold shift_up. rewrite get_font_for_style_ok. cbn [mbind outcome_bind]. fold (tui_font t).
  rewrite usize_sub_ok by lia. cbn [mbind outcome_bind]. rewrite usize_sub_ok by lia. cbn [mbind outcome_bind].
  set (n := tui_width t * (tui_height t - char_height (tui_font t) - 1)).
  assert (0 ≤ n ∧ n + tui_width t * (char_height (tui_font t) + 1) = tui_width t * tui_height t) as [Hn Hsum] by (unfold n; nia).
  assert (0 ≤ tui_width t * (char_height (tui_font t) + 1)) as Hline by nia.
  rewrite (usize_mul_ok (tui_width t) (tui_height t - _ - 1)) by (fold n; lia). cbn [mbind outcome_bind]. fold n.
  pose proof (rotate_fill (pixels (double_buffer t)) n (line_pixels t) black Hn ltac:(unfold line_pixels; lia)) as Hr.
  apply bind_Ret in Hr as (r & -> & Hr). cbn [mbind outcome_bind].
  rewrite usize_mul_ok by lia. cbn [mbind outcome_bind]. rewrite <-Hp, Hr. done.
Qed.

Lemma screen_ok_scrolled t : screen_ok t → screen_ok (scrolled t).
Proof.
  intros [Hw Hh Hp ? ? Hch]. split; try done.
  cbn [scrolled with_buffer double_buffer pixels tui_width tui_height].
  assert (0 ≤ tui_width t * (char_height (tui_font t) + 1) ≤ tui_width t * tui_height t) by nia.
  rewrite length_app, length_drop, length_replicate. unfold line_pixels. lia.
Qed.

(** The line break: down one line, or up with everything above. *)
Definition newline_of (t : Tui) : Tui :=
  if tui_height t <=? (location t).2 + char_height (tui_font t) + 1 + char_height (tui_font t)
  then with_location (0, (location t).2) (scrolled t)
  else with_location (0, (location t).2 + (char_height (tui_font t) + 1)) t.

Lemma newline_ok t :
  screen_ok t → 0 ≤ (location t).2 → (location t).2 + char_height (tui_font t) ≤ tui_height t →
  newline t = Ret (newline_of t) ∧ fits (newline_of t).
Proof.
  intros Hs Hy0 Hy. pose proof Hs as [Hw Hh _ _ Hcw Hch]. split.
  - unfold newline. rewrite get_font_for_style_ok. cbn [mbind outcome_bind]. fold (tui_font t).
    repeat (rewrite usize_add_ok by lia; cbn [mbind outcome_bind]).
    unfold newline_of. case_Z; [by rewrite shift_up_ok|done].
  - unfold newline_of. case_Z; split.
    + by apply screen_ok_location, screen_ok_scrolled.
    + change (0 ≤ 0 ∧ 0 + char_width (tui_font t) ≤ tui_width t). lia.
    + change (0 ≤ (location t).2 ∧ (location t).2 + char_height (tui_font t) ≤ tui_height t). lia.
    + by apply screen_ok_location.
    + change (0 ≤ 0 ∧ 0 + char_width (tui_font t) ≤ tui_width t). lia.
    + change (0 ≤ (location t).2 + (char_height (tui_font t) + 1) ∧
        (location t).2 + (char_height (tui_font t) + 1) + char_height (tui_font t) ≤ tui_height t). lia.
Qed.

(** [n] characters to the right, with a line break when the next one does not fit. *)
Definition advance_of (n : Z) (t : Tui) : Tui :=
  let x := (location t).1 + n * (char_width (tui_font t) + 1) in
  let t := with_location (x, (location t).2) t in
  if tui_width t <? x + char_width (tui_font t) then newline_of t else t.

Lemma advance_ok n t : fits t → 0 ≤ n ≤ 4 → advance n t = Ret (advance_of n t) ∧ fits (advance_of n t).
Proof.
  intros [Hs Hx Hy] Hn. pose proof Hs as [Hw Hh _ _ Hcw Hch].
  set (x := (location t).1 + n * (char_width (tui_font t) + 1)).
  assert (0 ≤ n * (char_width (tui_font t) + 1) ≤ 4 * 2 ^ 31) by nia.
  destruct (newline_ok (with_location (x, (location t).2) t)) as [Hnl Hfit]; [by apply screen_ok_location|apply Hy..|].
  unfold advance, advance_of. fold x. rewrite get_font_for_style_ok. cbn [mbind outcome_bind]. fold (tui_font t).
  rewrite usize_add_ok by lia. cbn [mbind outcome_bind]. rewrite (Z.abs_eq n) by lia.
  rewrite usize_mul_ok by lia. cbn [mbind outcome_bind]. rewrite (proj2 (Z.ltb_ge _ _)) by lia.
  rewrite usize_add_ok by lia. cbn [mbind outcome_bind]. fold x. rewrite usize_add_ok by lia. cbn [mbind outcome_bind].
  change (tui_width (with_location (x, (location t).2) t)) with (tui_width t).
  change (tui_font (with_location (x, (location t).2) t)) with (tui_font t). destruct (Z.ltb_spec (tui_width t) (x + char_width (tui_font t))); [done|].
  split; [done|]. split; [by apply screen_ok_location| |exact Hy].
  change (0 ≤ x ∧ x + char_width (tui_font t) ≤ tui_width t). lia.
Qed.

(** ** Drawing *)

(** [t'] is [t] with the pixels of [S] in its colour. *)
Definition painted (S : Z → Z → bool) (t t' : Tui) : Prop :=
  ∃ px, t' = with_buffer (mkPixelBuffer px (pitch (double_buffer t))) t ∧ length px = length (pixels (double_buffer t)) ∧
    ∀ i j, 0 ≤ i < tui_width t → 0 ≤ j < tui_height t →
      px !! Z.to_nat (i + j * tui_width t) =
        if S i j then Some (color t) else pixels (double_buffer t) !! Z.to_nat (i + j * tui_width t).

Lemma painted_refl S t : (∀ i j, S i j = false) → painted S t t.
Proof. intros HS. exists (pixels (double_buffer t)). split_and!; [by destruct t as [??[]]|done|]. intros. by rewrite HS. Qed.

Lemma painted_trans S1 S2 t t1 t2 :
  painted S1 t t1 → painted S2 t1 t2 → painted (λ i j, S1 i j || S2 i j) t t2.
Proof.
  intros (px1 & -> & Hl1 & H1) (px2 & -> & Hl2 & H2). exists px2. split_and!; [done|by etrans|].
  intros i j Hi Hj. rewrite H2 by done. destruct (S2 i j); [by rewrite orb_true_r|]. by rewrite orb_false_r, <-H1 by done.
Qed.

Lemma painted_ext S1 S2 t t' :
  (∀ i j, 0 ≤ i < tui_width t → 0 ≤ j < tui_height t → S1 i j = S2 i j) → painted S1 t t' → painted S2 t t'.
Proof. intros HS (px & -> & Hl & H1). exists px. split_and!; [done..|]. intros i j Hi Hj. by rewrite <-HS, H1. Qed.

Lemma painted_fits S t t' : painted S t t' → fits t → fits t'.
Proof.
  intros (px & -> & Hl & _) [[Hw Hh Hp Hpi Hcw Hch] Hx Hy]. split; [|done..]. split; try done.
  cbn [with_buffer double_buffer pixels tui_width tui_height]. by rewrite Hl.
Qed.

Lemma painted_frame S t t' : painted S t t' → location t' = location t ∧ tui_font t' = tui_font t.
Proof. by intros (px & -> & _). Qed.

Lemma painted_for_each {A} (body : A → Tui → outcome Tui) (S : A → Z → Z → bool) (l : list A) t :
  (∀ a S1 t1, a ∈ l → painted S1 t t1 → ∃ t2, body a t1 = Ret t2 ∧ painted (S a) t1 t2) →
  ∃ t', for_each l body t = Ret t' ∧ painted (λ i j, existsb (λ a, S a i j) l) t t'.
Proof.
  intros Hbody.
  apply (for_each_inv (λ pre t', painted (λ i j, existsb (λ a, S a i j) pre) t t')); [by apply painted_refl|].
  intros pre a t1 Ha Hp. destruct (Hbody a _ t1 Ha Hp) as (t2 & Ht2 & Hp2).
  exists t2. split; [done|]. eapply painted_ext, painted_trans; [|done..].
  intros i j _ _. rewrite existsb_app. simpl. by rewrite orb_false_r.
Qed.

Lemma existsb_ext {A} (p q : A → bool) l : (∀ a, p a = q a) → existsb p l = existsb q l.
Proof. intros Hpq. induction l as [|a l IH]; simpl; [done|]. by rewrite Hpq, IH. Qed.

Lemma existsb_offset (p : Z → bool) v base n :
  0 ≤ n → existsb (λ a, p a && (v =? base + a)) (seqZ 0 n) = (base <=? v) && (v <? base + n) && p (v - base).
Proof.
  intros Hn. apply eq_true_iff_eq. rewrite existsb_exists, !andb_true_iff, Z.leb_le, Z.ltb_lt. split.
  - intros (a & Ha & [Hp Hv]%andb_true_iff). apply Z.eqb_eq in Hv as ->. apply list_elem_of_In, elem_of_seqZ in Ha.
    replace (base + a - base) with a by lia. split; [lia|done].
  - intros [Hv Hp]. exists (v - base). split; [apply list_elem_of_In, elem_of_seqZ; lia|].
    rewrite Hp. apply Z.eqb_eq. lia.
Qed.

Lemma draw_pixel_ok c lit x y t :
  fits t → 0 ≤ x < char_width (tui_font t) → 0 ≤ y < char_height (tui_font t) → is_set c x y = Ret lit →
  ∃ t', draw_pixel c y x t = Ret t' ∧
    painted (λ i j, lit && (j =? (location t).2 + y) && (i =? (location t).1 + x)) t t'.
Proof.
  intros [Hs Hlx Hly] Hx Hy Hset. pose proof (screen_area t Hs) as Harea. destruct Hs as [Hw Hh Hp Hpi Hcw Hch]. unfold draw_pixel.
  rewrite usize_add_ok by lia. cbn [mbind outcome_bind]. rewrite usize_add_ok by lia. cbn [mbind outcome_bind].
  rewrite Hset. cbn [mbind outcome_bind]. destruct lit; [|by eexists; split; [done|apply painted_refl]].
  set (dx := (location t).1 + x) in *. set (dy := (location t).2 + y) in *. unfold set_pixel. rewrite Hpi.
  assert (0 ≤ dx < tui_width t ∧ 0 ≤ dy < tui_height t) as [Hdx Hdy] by (unfold dx, dy; lia).
  assert (dx + dy * tui_width t < tui_width t * tui_height t ∧ 0 ≤ dy * tui_width t) as [Hin H0] by nia.
  rewrite usize_mul_ok by lia. cbn [mbind outcome_bind]. rewrite usize_add_ok by lia. cbn [mbind outcome_bind].
  destruct (lookup_lt_is_Some_2 (pixels (double_buffer t)) (Z.to_nat (dx + dy * tui_width t))) as [p Hpx]; [lia|].
  rewrite (index_ok _ _ p) by (done || lia). cbn [mbind outcome_bind]. eexists. split; [done|].
  eexists. split_and!; [by rewrite Hpi|by rewrite length_insert|]. intros i j Hi Hj. cbn [andb].
  destruct (Z.eqb_spec j dy) as [->|Hne]; [destruct (Z.eqb_spec i dx) as [->|Hne]|]; cbn [andb].
  - apply list_lookup_insert_eq. by eapply lookup_lt_Some.
  - apply list_lookup_insert_ne. nia.
  - apply list_lookup_insert_ne. assert (dx + dy * tui_width t ≠ i + j * tui_width t); [|nia].
    destruct (decide (j < dy)); nia.
Qed.

(** The pixels of a character that stands at the cursor. *)
Definition cell (lit : Z → Z → bool) (t : Tui) (i j : Z) : bool :=
  ((location t).1 <=? i) && (i <? (location t).1 + char_width (tui_font t)) &&
  ((location t).2 <=? j) && (j <? (location t).2 + char_height (tui_font t)) && lit (i - (location t).1) (j - (location t).2).

Lemma draw_char_ok c lit t :
  fits t →
  (∀ x y, 0 ≤ x < char_width (tui_font t) → 0 ≤ y < char_height (tui_font t) → is_set c x y = Ret (lit x y)) →
  ∃ t', draw_char c (char_width (tui_font t)) (char_height (tui_font t)) t = Ret t' ∧ painted (cell lit t) t t'.
Proof.
  intros Hf Hset. unfold draw_char. set (cw := char_width (tui_font t)) in *. set (ch := char_height (tui_font t)) in *.
  destruct (painted_for_each (λ y t, for_each (seqZ 0 cw) (λ x t, draw_pixel c y x t) t)
    (λ y i j, existsb (λ x, lit x y && (j =? (location t).2 + y) && (i =? (location t).1 + x)) (seqZ 0 cw))
    (seqZ 0 ch) t) as (t' & Ht' & Hp).
  - intros y S1 t1 Hy%elem_of_seqZ Hp1. apply painted_for_each. intros x S2 t2 Hx%elem_of_seqZ Hp2.
    destruct (painted_frame _ _ _ Hp1) as [<- Ef1]. destruct (painted_frame _ _ _ Hp2) as [<- Ef2].
    unfold cw, ch in *. rewrite <-Ef1, <-Ef2 in Hset, Hx, Hy.
    apply draw_pixel_ok; [by eapply painted_fits, painted_fits|lia..|apply Hset; lia].
  - exists t'. split; [done|]. revert Hp. apply painted_ext. intros i j _ _. unfold cell. fold cw ch.
    pose proof Hf as [[_ _ _ _ ? ?] _ _].
    transitivity (existsb (λ y, ((location t).1 <=? i) && (i <? (location t).1 + cw) && lit (i - (location t).1) y &&
      (j =? (location t).2 + y)) (seqZ 0 ch)).
    + apply existsb_ext. intros y. rewrite (existsb_offset (λ x, lit x y && (j =? (location t).2 + y))) by (unfold cw; lia).
      by rewrite andb_assoc.
    + rewrite (existsb_offset (λ y, _ && lit _ y)) by (unfold ch; lia). rewrite <-!andb_assoc.
      destruct (_ <=? i), (i <? _), (_ <=? j), (j <? _); done.
Qed.

(** A character the font has, with pixels that can be read, or one it refuses. *)
Definition drawable (f : F) (c : Z) : Prop :=
  match locate_char f c with
  | Ret (Ok ch) => ∃ lit : Z → Z → bool, ∀ x y, 0 ≤ x < char_width f → 0 ≤ y < char_height f → is_set ch x y = Ret (lit x y)
  | Ret (Err _) => True
  | Panic _ => False
  end.

(** [t'] is [t] after some text: the same screen in the same font. *)
Definition same_console (t t' : Tui) : Prop :=
  tui_width t' = tui_width t ∧ tui_height t' = tui_height t ∧ font t' = font t ∧ current_style t' = current_style t ∧
  color t' = color t.

Lemma same_console_font t t' : same_console t t' → tui_font t' = tui_font t.
Proof. intros (_ & _ & Hf & Hs & _). unfold tui_font. by rewrite Hf, Hs. Qed.

Lemma same_newline t : same_console t (newline_of t).
Proof. unfold newline_of. by case_match. Qed.

Lemma same_advance n t : same_console t (advance_of n t).
Proof. unfold advance_of. case_match; [|done]. apply (same_newline (with_location _ t)). Qed.

(** A character with a glyph is drawn at the cursor, which moves on. *)
Lemma write_char_glyph c ch lit t :
  fits t → c ≠ 9 → c ≠ 10 → locate_char (tui_font t) c = Ret (Ok ch) →
  (∀ x y, 0 ≤ x < char_width (tui_font t) → 0 ≤ y < char_height (tui_font t) → is_set ch x y = Ret (lit x y)) →
  ∃ t1, painted (cell lit t) t t1 ∧ fits (advance_of 1 t1) ∧ write_char (tui_font t) c t = Ret (Ok tt, advance_of 1 t1).
Proof.
  intros Hf H9 H10 Hc Hlit. destruct (draw_char_ok ch lit t Hf Hlit) as (t1 & Ht1 & Hp).
  destruct (advance_ok 1 t1) as [Ha Hfa]; [by eapply painted_fits|lia|]. exists t1. split_and!; [done..|].
  unfold write_char. rewrite (proj2 (Z.eqb_neq _ _)), (proj2 (Z.eqb_neq _ _)), Hc by done. cbn [mbind outcome_bind].
  rewrite Ht1. cbn [mbind outcome_bind]. by rewrite Ha.
Qed.

Lemma write_char_newline f t :
  fits t → ∃ ok g, blt (gop (newline_of t)) (pixels (double_buffer (newline_of t))) (tui_width t) (tui_height t) = (g, ok) ∧
    fits (with_gop g (newline_of t)) ∧
    write_char f 10 t = Ret (if ok then Ok tt else Err FmtError_, with_gop g (newline_of t)).
Proof.
  intros Hf. destruct (newline_ok t) as [Hn [[] ? ?]]; [apply Hf..|]. destruct (same_newline t) as (Ew & Eh & _).
  destruct (blt _ _ (tui_width t) (tui_height t)) as [g ok] eqn:Eb. exists ok, g. split_and!; [done|by split|].
  unfold write_char. cbn [Z.eqb]. rewrite Hn. cbn [mbind outcome_bind]. unfold flush. by rewrite Ew, Eh, Eb.
Qed.

Lemma write_char_safe c t :
  fits t → c = 9 ∨ c = 10 ∨ drawable (tui_font t) c →
  ∃ r t', write_char (tui_font t) c t = Ret (r, t') ∧ fits t' ∧ same_console t t'.
Proof.
  intros Hf Hc. destruct (decide (c = 10)) as [->|H10].
  - destruct (write_char_newline (tui_font t) t Hf) as (ok & g & _ & Hfit & Hw). rewrite Hw. do 2 eexists. split_and!; [done..|].
    exact (same_newline t).
  - destruct (decide (c = 9)) as [->|H9].
    + destruct (advance_ok 4 t Hf) as [Ha Hfa]; [lia|]. unfold write_char. cbn [Z.eqb]. rewrite Ha.
      do 2 eexists. split_and!; [done..|apply same_advance].
    + assert (drawable (tui_font t) c) as Hd by naive_solver. unfold drawable in Hd.
      destruct (locate_char (tui_font t) c) as [[ch|e]|] eqn:El; [| |done].
      * destruct Hd as [lit Hlit]. destruct (write_char_glyph c ch lit t) as (t1 & (px & -> & _) & Hfit & Hw); [done..|].
        rewrite Hw. do 2 eexists. split_and!; [done..|]. apply (same_advance 1 (with_buffer _ t)).
      * unfold write_char. rewrite (proj2 (Z.eqb_neq _ _)), (proj2 (Z.eqb_neq _ _)), El by done. cbn [mbind outcome_bind].
        do 2 eexists. by split_and!.
Qed.

(** ** Properties *)

(** C34. Text whose characters the font can draw or refuses is written without a
    panic: every pixel lies in the buffer, line breaks, tabs and scrolling
    included, and the next character fits on the screen again. *)
Theorem tui_write_safe s t :
  fits t → Forall (λ c, c = 9 ∨ c = 10 ∨ drawable (tui_font t) c) s →
  ∃ r t', write_str s t = Ret (r, t') ∧ fits t' ∧ same_console t t'.
Proof.
  intros Hf Hs. unfold write_str. rewrite get_font_for_style_ok. cbn [mbind outcome_bind]. fold (tui_font t).
  revert t Hf Hs. induction s as [|c s IH]; intros t Hf Hs; cbn [write_chars]; [do 2 eexists; by split_and!|].
  apply Forall_cons_1 in Hs as [Hc Hs]. destruct (write_char_safe c t Hf Hc) as (r & t1 & Hw & Hf1 & Hsame).
  rewrite Hw. cbn [mbind outcome_bind]. pose proof (same_console_font _ _ Hsame) as Efont.
  destruct r as [[]|e]; [|do 2 eexists; by split_and!]. destruct (IH t1 Hf1) as (r & t2 & Hw2 & Hf2 & Hsame2); [by rewrite Efont|].
  rewrite Efont in Hw2. exists r, t2. split_and!; [done..|]. destruct Hsame as (? & ? & ? & ? & ?), Hsame2 as (? & ? & ? & ? & ?). split_and!; congruence.
Qed.

(** A character with a glyph is drawn where the cursor stands: the lit pixels of
    the glyph, and no others, take the colour of the console, and the cursor moves
    on by one character. *)
Theorem tui_write_char c ch lit t :
  fits t → c ≠ 9 → c ≠ 10 → locate_char (tui_font t) c = Ret (Ok ch) →
  (∀ x y, 0 ≤ x < char_width (tui_font t) → 0 ≤ y < char_height (tui_font t) → is_set ch x y = Ret (lit x y)) →
  ∃ t1, painted (cell lit t) t t1 ∧ write_str [c] t = Ret (Ok tt, advance_of 1 t1).
Proof.
  intros Hf H9 H10 Hc Hlit. destruct (write_char_glyph c ch lit t) as (t1 & Hp & _ & Hw); [done..|].
  exists t1. split; [done|]. unfold write_str. rewrite get_font_for_style_ok. cbn [mbind outcome_bind write_chars].
  fold (tui_font t). by rewrite Hw.
Qed.

(** A line break on the last line moves every row up by a line of text and clears
    the rows below. *)
Theorem newline_scrolls t i j :
  fits t → tui_height t ≤ (location t).2 + char_height (tui_font t) + 1 + char_height (tui_font t) →
  0 ≤ i < tui_width t → 0 ≤ j < tui_height t →
  ∃ t', newline t = Ret t' ∧ location t' = (0, (location t).2) ∧
    pixels (double_buffer t') !! Z.to_nat (i + j * tui_width t) =
      if j + (char_height (tui_font t) + 1) <? tui_height t
      then pixels (double_buffer t) !! Z.to_nat (i + (j + (char_height (tui_font t) + 1)) * tui_width t)
      else Some black.
Proof.
  intros Hf Hbottom Hi Hj. pose proof Hf as [[Hw Hh Hp _ Hcw Hch] _ _].
  destruct (newline_ok t) as [Hn _]; [apply Hf..|]. exists (newline_of t). split; [done|].
  unfold newline_of. rewrite (proj2 (Z.leb_le _ _)) by lia. split; [done|].
  cbn [with_location double_buffer scrolled with_buffer pixels]. set (l := char_height (tui_font t) + 1) in *.
  assert (line_pixels t = Z.to_nat (tui_width t * l)) as El by done.
  assert (0 ≤ tui_width t * l ≤ tui_width t * tui_height t) by (unfold l; nia). assert (0 ≤ j * tui_width t) by nia.
  case_Z.
  - rewrite lookup_app_l by (rewrite length_drop, El; nia). rewrite lookup_drop. f_equal. rewrite El. nia.
  - rewrite lookup_app_r by (rewrite length_drop, El; nia). apply lookup_replicate. split; [done|].
    rewrite length_drop, El. nia.
Qed.

(** A new console fits its font when the mode it chose does. *)
Theorem tui_new_fits g native fam t :
  tui_new g native fam = Ret t →
  0 ≤ tui_width t < 2 ^ 31 → 0 ≤ tui_height t < 2 ^ 31 →
  0 ≤ char_width (regular fam) ≤ tui_width t → 0 ≤ char_height (regular fam) < tui_height t →
  fits t ∧ tui_font t = regular fam ∧ Forall (λ p, p = black) (pixels (double_buffer t)).
Proof.
  unfold tui_new. intros Ht Hw Hh Hcw Hch. destruct (match _ with Some _ => _ | None => _ end) as [g' m].
  destruct (resolution m) as [w h]. inv_ret. subst t. cbn [tui_width tui_height] in *.
  split_and!; [|done|by apply Forall_replicate]. split; [|cbn; lia..].
  split; try done. cbn [double_buffer pixels tui_width tui_height]. rewrite length_replicate. nia.
Qed.

End tui.

(** *** The properties at work *)

(** A screen of 24 by 6 pixels and a firmware that counts the copies. *)
Definition demo_font : DynPsfFont := DynPsf2 (psf2_of 9 2 4 demo_glyphs).
Definition demo_family : FontFamily DynPsfFont := mkFontFamily demo_font None None None.
Definition demo_blt (n : Z) (l : list (Z * Z * Z)) (w h : Z) : Z * bool := (n + 1, true).
Definition demo_pixel (r g b : Z) : Z * Z * Z := (r, g, b).

Definition demo_tui : Tui (F := DynPsfFont) (BltPixel := Z * Z * Z) (Gop := Z) :=
  mkTui 24 6 (mkPixelBuffer (replicate 144 (0, 0, 0)) 24) 0 demo_family (0, 0) (1, 1, 1) Bold.

Lemma demo_tui_fits : fits demo_tui.
Proof. repeat split; try (cbn; lia); reflexivity. Qed.

Lemma demo_drawable c : c = 0 ∨ c = 1 ∨ c = 1000 → drawable demo_font c.
Proof.
  intros [->|[->| ->]]; [..|done];
    (match goal with |- drawable _ ?c => let r := eval vm_compute in (locate_char demo_font c) in
       change (match r with Ret (Ok ch) => ∃ lit : Z → Z → bool, ∀ x y, 0 ≤ x < 9 → 0 ≤ y < 2 → is_set ch x y = Ret (lit x y)
         | Ret (Err _) => True | Panic _ => False end) end);
    (eexists; intros x y Hx Hy; apply (is_set_pixel 9 2 2); cbn; lia).
Qed.

Lemma tui_write_safe_witness :
  ∃ r t, write_str demo_pixel demo_blt [1; 0; 9; 1; 10; 0; 1000; 1] demo_tui = Ret (r, t) ∧ fits t ∧ r = Err FmtError_.
Proof.
  destruct (tui_write_safe demo_pixel demo_blt [1; 0; 9; 1; 10; 0; 1000; 1] demo_tui demo_tui_fits) as (r & t & Hw & Hf & _).
  { repeat (apply Forall_cons_2; [first [by left|by right; left|right; right; apply demo_drawable; lia]|]). constructor. }
  exists r, t. split_and!; [exact Hw|exact Hf|]. vm_compute in Hw. by injection Hw as <-.
Defined.

Lemma tui_write_char_witness :
  ∃ t1, painted (cell (pixel 2 [0x18; 0x00; 0x24; 0x80]) demo_tui) demo_tui t1 ∧
    write_str demo_pixel demo_blt [1] demo_tui = Ret (Ok tt, advance_of demo_pixel 1 t1).
Proof.
  apply (tui_write_char demo_pixel demo_blt 1 (mkPsfChar 9 2 2 [0x18; 0x00; 0x24; 0x80]) _ demo_tui demo_tui_fits);
    [lia|lia|reflexivity|]. intros x y Hx Hy. apply (is_set_pixel 9 2 2); cbn in *; lia.
Defined.
