(* ===== verification/LinkedList.v ===== *)
(** * LinkedList: a singly linked list of boxes

    [mm/dmm/slab_allocator/src/linked_list.rs]: the list and its nodes on a heap,
    [push_front], [pop_front], [extend], the two iterators and [drop], and the
    refinement to lists of values.  Following a pointer to no node is
    [Undefined]. *)

From stdpp Require Import base gmap list numbers option.
From S2P Require Import Prelude.

(** ** The code *)

(** [NonNull<Node<T>>]. *)
Abbreviation ptr := positive.

Record Node (T : Type) := mkNode { next : option ptr; data : T }.
Arguments mkNode {T} _ _.
Arguments next {T} _.
Arguments data {T} _.

(** The boxes that are alive. *)
Abbreviation heap T := (gmap ptr (Node T)).

Record LinkedList := mkList { first : option ptr }.

Definition ll_new : LinkedList := mkList None.

Section linked_list.
  Context {T : Type}.
  Implicit Types (h : heap T) (l : LinkedList) (x : T).

Definition as_ref h (p : ptr) : outcome (Node T) :=
  match h !! p with Some n => Ret n | None => Panic Undefined end.

Definition node_new x (nx : option ptr) : Node T := mkNode nx x.

(** [Box::new] gives an address that is not in use. *)
Definition new_boxed h x (nx : option ptr) : ptr * heap T :=
  let p := fresh (dom h) in (p, <[p := node_new x nx]> h).

Definition push_front_impl h l x : ptr * heap T * LinkedList :=
  let '(node, h) := new_boxed h x (first l) in (node, h, mkList (Some node)).

Definition push_front h l x : heap T * LinkedList :=
  let '(_, h, l) := push_front_impl h l x in (h, l).

Definition pop_front_in_place h l : outcome (option ptr * LinkedList) :=
  match first l with
  | None => Ret (None, l)
  | Some element => n ← as_ref h element; Ret (Some element, mkList (next n))
  end.

(** [Box::from_raw] takes the box back and moving the data out frees it. *)
Definition pop_front h l : outcome (option T * heap T * LinkedList) :=
  '(element, l) ← pop_front_in_place h l;
  match element with
  | None => Ret (None, h, l)
  | Some element => n ← as_ref h element; Ret (Some (data n), delete element h, l)
  end.

(** The loop of [last]; [None] when it needs more turns than [fuel]. *)
Fixpoint last_from (fuel : nat) h (node : ptr) : outcome (option ptr) :=
  match fuel with
  | O => Ret None
  | S fuel =>
      n ← as_ref h node;
      match next n with Some next_node => last_from fuel h next_node | None => Ret (Some node) end
  end.

(** The nodes of a list are boxes of the heap, so their number is enough; only a
    list that runs in a circle, which the operations never make, needs more. *)
Definition last h l : outcome (option ptr) :=
  match first l with
  | None => Ret None
  | Some node =>
      r ← last_from (size h) h node;
      match r with Some node => Ret (Some node) | None => Panic Undefined end
  end.

Definition insert_after h (self : ptr) x : outcome (ptr * heap T) :=
  n ← as_ref h self;
  let '(node, h) := new_boxed h x (next n) in
  Ret (node, <[self := mkNode (Some node) (data n)]> h).

(** The loop over the rest of the iterator. *)
Fixpoint insert_all (h : heap T) (last_node : ptr) (iter : list T) : outcome (heap T) :=
  match iter with
  | [] => Ret h
  | item :: iter => '(last_node, h) ← insert_after h last_node item; insert_all h last_node iter
  end.

Definition extend h l (iter : list T) : outcome (heap T * LinkedList) :=
  match iter with
  | [] => _ ← last h l; Ret (h, l)
  | item :: iter =>
      o ← last h l;
      match o with
      | None =>
          let '(last_node, h, l) := push_front_impl h l item in
          h ← insert_all h last_node iter; Ret (h, l)
      | Some last_node =>
          '(last_node, h) ← insert_after h last_node item;
          h ← insert_all h last_node iter; Ret (h, l)
      end
  end.

Definition from_iter h (iter : list T) : outcome (heap T * LinkedList) := extend h ll_new iter.

(** [while self.pop_front().is_some() {}]. *)
Fixpoint drop_from (fuel : nat) h l : outcome (option (heap T)) :=
  match fuel with
  | O => Ret None
  | S fuel =>
      '(o, h, l) ← pop_front h l;
      match o with Some _ => drop_from fuel h l | None => Ret (Some h) end
  end.

(** [Iter::next] on its element; the reference is the data it leads to. *)
Definition iter_next h (current_element : option ptr) : outcome (option T * option ptr) :=
  match current_element with
  | None => Ret (None, None)
  | Some elem => n ← as_ref h elem; Ret (Some (data n), next n)
  end.

(** A [for] loop over the list. *)
Fixpoint iter_from (fuel : nat) h (current_element : option ptr) : outcome (option (list T)) :=
  match fuel with
  | O => Ret None
  | S fuel =>
      '(o, current_element) ← iter_next h current_element;
      match o with
      | None => Ret (Some [])
      | Some x => xs ← iter_from fuel h current_element; Ret (option_map (cons x) xs)
      end
  end.

(** [IterMut::next] gives the node whose data may be written. *)
Definition iter_mut_next h (current_element : option ptr) : outcome (option ptr * option ptr) :=
  match current_element with
  | None => Ret (None, None)
  | Some elem => n ← as_ref h elem; Ret (Some elem, next n)
  end.

(** A [for] loop that writes [f] of the data through each reference. *)
Fixpoint write_each (fuel : nat) (f : T → T) (h : heap T) (current_element : option ptr) : outcome (option (heap T)) :=
  match fuel with
  | O => Ret None
  | S fuel =>
      '(o, current_element) ← iter_mut_next h current_element;
      match o with
      | None => Ret (Some h)
      | Some p => n ← as_ref h p; write_each fuel f (<[p := mkNode (next n) (f (data n))]> h) current_element
      end
  end.

(** ** Lists of values *)

(** The nodes from a pointer on, with their data. *)
Fixpoint chain (h : heap T) (o : option ptr) (ns : list (ptr * T)) : Prop :=
  match ns with
  | [] => o = None
  | (p, x) :: ns => o = Some p ∧ ∃ nx, h !! p = Some (mkNode nx x) ∧ chain h nx ns
  end.

(** The list [l] owns the nodes [ns] and the rest of the heap is [fr]. *)
Record owns (h : heap T) (l : LinkedList) (ns : list (ptr * T)) (fr : heap T) : Prop := {
  owns_chain : chain h (first l) ns;
  owns_nodup : NoDup ns.*1;
  owns_frame : ∀ q, fr !! q = if decide (q ∈ ns.*1) then None else h !! q
}.

Lemma chain_agree h h' o ns : (∀ p, p ∈ ns.*1 → h' !! p = h !! p) → chain h o ns → chain h' o ns.
Proof.
  revert o. induction ns as [|[p x] ns IH]; intros o Hag Hc; simpl in *; [done|].
  destruct Hc as (-> & nx & Hp & Hc). split; [done|]. exists nx.
  split; [rewrite Hag by set_solver; done|]. apply IH; [set_solver|done].
Qed.

Lemma chain_dom h o ns p : chain h o ns → p ∈ ns.*1 → p ∈ dom h.
Proof.
  revert o. induction ns as [|[q x] ns IH]; intros o Hc; simpl in *; [set_solver|].
  destruct Hc as (-> & nx & Hq & Hc). intros [->|Hp]%elem_of_cons; [by eapply elem_of_dom_2|by eapply IH].
Qed.

Lemma owns_size h l ns fr : owns h l ns fr → (length ns ≤ size h)%nat.
Proof.
  intros [Hc Hd _]. rewrite <-(length_fmap fst ns), <-(size_list_to_set (C := gset ptr) _ Hd), <-size_dom.
  apply subseteq_size. intros p Hp%elem_of_list_to_set. by eapply chain_dom.
Qed.

Lemma owns_fresh h l ns fr : owns h l ns fr → fresh (dom h) ∉ ns.*1.
Proof. intros [Hc _ _] Hin. apply (is_fresh (dom h)). by eapply chain_dom. Qed.

Lemma owns_nil h : owns h ll_new [] h.
Proof. split; [done|constructor|]. intros q. by rewrite decide_False by set_solver. Qed.

Lemma push_front_owns h l ns fr x p h' l' :
  owns h l ns fr → push_front_impl h l x = (p, h', l') → owns h' l' ((p, x) :: ns) fr.
Proof.
  intros Ho Hpush. pose proof (owns_fresh _ _ _ _ Ho) as Hp. destruct Ho as [Hc Hd Hf].
  unfold push_front_impl, new_boxed in Hpush. injection Hpush as <- <- <-. set (p := fresh (dom h)) in *.
  split; cbn [chain first fmap list_fmap fst].
  - split; [done|]. eexists. split; [by rewrite lookup_insert_eq|].
    eapply chain_agree; [|done]. intros q Hq. rewrite lookup_insert_ne; [done|]. by intros <-.
  - by constructor.
  - intros q. rewrite Hf. destruct (decide (q = p)) as [->|Hne].
    + rewrite decide_False, decide_True by set_solver. apply not_elem_of_dom, is_fresh.
    + rewrite lookup_insert_ne by done. by repeat case_decide; set_solver.
Qed.

Lemma pop_front_owns h l p x ns fr :
  owns h l ((p, x) :: ns) fr →
  ∃ l', pop_front h l = Ret (Some x, delete p h, l') ∧ owns (delete p h) l' ns fr.
Proof.
  intros [(Ef & nx & Hp & Hc) Hd Hf]. cbn in Hd. pose proof (NoDup_cons_1_1 _ _ Hd) as Hnew. apply NoDup_cons_1_2 in Hd. exists (mkList nx). split.
  - unfold pop_front, pop_front_in_place, as_ref. rewrite Ef, Hp. cbn [mbind outcome_bind]. by rewrite Hp.
  - split; [|done|].
    + eapply chain_agree; [|done]. intros q Hq. apply lookup_delete_ne. by intros <-.
    + intros q. rewrite Hf. cbn. destruct (decide (q = p)) as [->|Hne].
      * rewrite decide_True, decide_False, lookup_delete_eq by set_solver. done.
      * rewrite lookup_delete_ne by done. by repeat case_decide; set_solver.
Qed.

Lemma pop_front_empty h l fr : owns h l [] fr → pop_front h l = Ret (None, h, l) ∧ h = fr.
Proof.
  intros [Hc _ Hf]. cbn in Hc. split; [unfold pop_front, pop_front_in_place; by rewrite Hc|].
  apply map_eq. intros q. rewrite Hf. by rewrite decide_False by set_solver.
Qed.

Lemma chain_last h o ns p x : chain h o (ns ++ [(p, x)]) → h !! p = Some (mkNode None x).
Proof.
  revert o. induction ns as [|[q y] ns IH]; intros o Hc; simpl in *.
  - destruct Hc as (_ & nx & Hp & ->). done.
  - destruct Hc as (_ & nx & _ & Hc). by eapply IH.
Qed.

(** The last node gets a successor. *)
Lemma chain_extend h h' o ns p x q y :
  chain h o (ns ++ [(p, x)]) → (∀ r, r ∈ ns.*1 → h' !! r = h !! r) →
  h' !! p = Some (mkNode (Some q) x) → h' !! q = Some (mkNode None y) → chain h' o (ns ++ [(p, x); (q, y)]).
Proof.
  intros Hc Hag Hp Hq. revert o Hc. induction ns as [|[r z] ns IH]; intros o Hc; simpl in *.
  - destruct Hc as (-> & _). by eauto 10.
  - destruct Hc as (-> & nx & Hr & Hc). split; [done|]. exists nx.
    split; [rewrite Hag by set_solver; done|]. apply IH; [set_solver|done].
Qed.

Lemma insert_after_owns h l ns p x y fr :
  owns h l (ns ++ [(p, x)]) fr →
  ∃ q h', insert_after h p y = Ret (q, h') ∧ owns h' l ((ns ++ [(p, x)]) ++ [(q, y)]) fr.
Proof.
  intros Ho. pose proof (owns_fresh _ _ _ _ Ho) as Hq. destruct Ho as [Hc Hd Hf].
  pose proof (chain_last _ _ _ _ _ Hc) as Hp. rewrite fmap_app in *. cbn [fmap list_fmap fst] in *.
  unfold insert_after, as_ref, new_boxed. rewrite Hp. cbn [mbind outcome_bind next data].
  set (q := fresh (dom h)) in *. do 2 eexists. split; [done|].
  assert (p ≠ q) as Hpq by set_solver. apply list.NoDup_app in Hd as (Hd & Hdp & Hd1).
  split; rewrite ?fmap_app; cbn [fmap list_fmap fst].
  - rewrite <-app_assoc. eapply chain_extend; [done| | |].
    + intros r Hr. rewrite !lookup_insert_ne by set_solver. done.
    + by rewrite lookup_insert_eq.
    + rewrite lookup_insert_ne, lookup_insert_eq by done. done.
  - apply list.NoDup_app. split_and!; [by apply list.NoDup_app|set_solver|apply NoDup_singleton].
  - intros r. rewrite Hf. destruct (decide (r = q)) as [->|Hne].
    + rewrite decide_False, decide_True by set_solver. apply not_elem_of_dom, is_fresh.
    + destruct (decide (r = p)) as [->|Hne']; [by rewrite !decide_True by set_solver|].
      rewrite !lookup_insert_ne by done. by repeat case_decide; set_solver.
Qed.

Lemma insert_all_owns iter h l ns p x fr :
  owns h l (ns ++ [(p, x)]) fr →
  ∃ h' ms, insert_all h p iter = Ret h' ∧ owns h' l ((ns ++ [(p, x)]) ++ ms) fr ∧ ms.*2 = iter.
Proof.
  revert h ns p x. induction iter as [|y iter IH]; intros h ns p x Ho; cbn [insert_all].
  - exists h, []. by rewrite app_nil_r.
  - destruct (insert_after_owns h l ns p x y fr Ho) as (q & h1 & -> & Ho1). cbn [mbind outcome_bind].
    destruct (IH h1 _ q y Ho1) as (h2 & ms & Hh2 & Ho2 & Hms). exists h2, ((q, y) :: ms).
    split_and!; [done|by rewrite <-app_assoc in Ho2|]. cbn. by f_equal.
Qed.

Lemma last_from_ok fuel h ns p x o q :
  chain h o (ns ++ [(p, x)]) → o = Some q → (length ns < fuel)%nat → last_from fuel h q = Ret (Some p).
Proof.
  revert o q fuel. induction ns as [|[r z] ns IH]; intros o q fuel Hc Ho Hf; (destruct fuel as [|fuel]; [lia|]); simpl in *;
    destruct Hc as (Hoq & nx & Hr & Hc); rewrite Ho in Hoq; injection Hoq as ->; unfold as_ref; rewrite Hr; cbn.
  - by rewrite Hc.
  - assert (∃ q', nx = Some q') as [q' ->] by (destruct ns as [|[]]; simpl in Hc; naive_solver).
    eapply IH; [done..|lia].
Qed.

Lemma last_owns h l ns fr :
  owns h l ns fr → last h l = Ret (fst <$> list.last ns).
Proof.
  intros Ho. pose proof (owns_size _ _ _ _ Ho) as Hs. destruct Ho as [Hc _ _]. unfold last.
  destruct ns as [|[p x] ns' _] using rev_ind; simpl in Hc; [by rewrite Hc|].
  rewrite length_app in Hs. cbn in Hs. rewrite last_snoc. cbn.
  assert (∃ q, first l = Some q) as [q Hq] by (destruct ns' as [|[]]; simpl in Hc; naive_solver).
  rewrite Hq. rewrite (last_from_ok (size h) h ns' p x (first l) q) by (done || lia). done.
Qed.

Lemma extend_owns h l ns fr iter :
  owns h l ns fr → ∃ h' l' ms, extend h l iter = Ret (h', l') ∧ owns h' l' (ns ++ ms) fr ∧ ms.*2 = iter.
Proof.
  intros Ho. unfold extend. rewrite (last_owns _ _ _ _ Ho). cbn [mbind outcome_bind].
  destruct iter as [|item iter]; [exists h, l, []; by rewrite app_nil_r|].
  destruct ns as [|[p x] ns _] using rev_ind.
  - cbn [list.last fmap option_fmap option_map]. destruct (push_front_impl h l item) as [[q h1] l1] eqn:Ep. apply (push_front_owns _ _ _ _ _ _ _ _ Ho) in Ep.
    destruct (insert_all_owns iter h1 l1 [] q item fr Ep) as (h2 & ms & -> & Ho2 & Hms). cbn [mbind outcome_bind].
    exists h2, l1, ((q, item) :: ms). split_and!; [done..|]. cbn. by f_equal.
  - rewrite last_snoc. cbn [fmap option_fmap option_map fst]. destruct (insert_after_owns h l ns p x item fr Ho) as (q & h1 & -> & Ho1). cbn [mbind outcome_bind].
    destruct (insert_all_owns iter h1 l _ q item fr Ho1) as (h2 & ms & -> & Ho2 & Hms). cbn [mbind outcome_bind].
    exists h2, l, ((q, item) :: ms). split_and!; [done|by rewrite <-app_assoc in Ho2|]. cbn. by f_equal.
Qed.

Lemma drop_owns fuel h l ns fr :
  owns h l ns fr → (length ns < fuel)%nat → drop_from fuel h l = Ret (Some fr).
Proof.
  revert fuel h l. induction ns as [|[p x] ns IH]; intros [|fuel] h l Ho Hf; simpl in Hf; try lia; cbn [drop_from].
  - destruct (pop_front_empty _ _ _ Ho) as [-> ->]. done.
  - destruct (pop_front_owns _ _ _ _ _ _ Ho) as (l' & -> & Ho'). cbn [mbind outcome_bind]. apply IH; [done|lia].
Qed.

Lemma iter_chain fuel h o ns :
  chain h o ns → (length ns < fuel)%nat → iter_from fuel h o = Ret (Some ns.*2).
Proof.
  revert fuel o. induction ns as [|[p x] ns IH]; intros [|fuel] o Hc Hf; simpl in Hf; try lia; simpl in Hc; cbn [iter_from].
  - by rewrite Hc.
  - destruct Hc as (-> & nx & Hp & Hc). unfold iter_next, as_ref. rewrite Hp. cbn [mbind outcome_bind next data].
    rewrite (IH fuel nx) by (done || lia). done.
Qed.

Definition map_nodes (f : T → T) (ns : list (ptr * T)) : list (ptr * T) := (λ n, (n.1, f n.2)) <$> ns.

Lemma map_nodes_fst f ns : (map_nodes f ns).*1 = ns.*1.
Proof. unfold map_nodes. rewrite <-list_fmap_compose. by apply list_fmap_ext. Qed.

Lemma map_nodes_snd f ns : (map_nodes f ns).*2 = f <$> ns.*2.
Proof. unfold map_nodes. rewrite <-!list_fmap_compose. by apply list_fmap_ext. Qed.

(** The loop over the rest of a list changes the nodes from there on and no others. *)
Lemma map_chain fuel f h o ns :
  chain h o ns → NoDup ns.*1 → (length ns < fuel)%nat →
  ∃ h', write_each fuel f h o = Ret (Some h') ∧ chain h' o (map_nodes f ns) ∧ ∀ q, q ∉ ns.*1 → h' !! q = h !! q.
Proof.
  revert fuel h o. induction ns as [|[p x] ns IH]; intros [|fuel] h o Hc Hd Hf; simpl in Hf; try lia; simpl in Hc; cbn [write_each].
  - rewrite Hc. by eexists.
  - destruct Hc as (-> & nx & Hp & Hc). cbn in Hd. pose proof (NoDup_cons_1_1 _ _ Hd) as Hnew. apply NoDup_cons_1_2 in Hd.
    unfold iter_mut_next, as_ref. rewrite Hp. cbn [mbind outcome_bind]. rewrite Hp. cbn [mbind outcome_bind next data].
    destruct (IH fuel (<[p := mkNode nx (f x)]> h) nx) as (h' & Hh' & Hc' & Hag); [|done|lia|].
    { eapply chain_agree; [|done]. intros q Hq. rewrite lookup_insert_ne; [done|]. by intros <-. }
    rewrite Hh'. exists h'. split_and!; [done| |].
    + cbn. split; [done|]. exists nx. rewrite Hag by done. by rewrite lookup_insert_eq.
    + intros q Hq. rewrite Hag by set_solver. rewrite lookup_insert_ne by set_solver. done.
Qed.

(** ** Programs on a list *)

Inductive op := PushFront (x : T) | PopFront | Extend (iter : list T) | ForEachMut (f : T → T).

(** An operation of the code, with the answer of [pop_front]. *)
Definition run_op (h : heap T) (l : LinkedList) (o : op) : outcome (option T * heap T * LinkedList) :=
  match o with
  | PushFront x => let '(h, l) := push_front h l x in Ret (None, h, l)
  | PopFront => pop_front h l
  | Extend iter => '(h, l) ← extend h l iter; Ret (None, h, l)
  | ForEachMut f =>
      r ← write_each (S (size h)) f h (first l);
      match r with Some h => Ret (None, h, l) | None => Panic Undefined end
  end.

Fixpoint run (h : heap T) (l : LinkedList) (os : list op) : outcome (list (option T) * heap T * LinkedList) :=
  match os with
  | [] => Ret ([], h, l)
  | o :: os => '(a, h, l) ← run_op h l o; '(answers, h, l) ← run h l os; Ret (a :: answers, h, l)
  end.

(** The same on a list of values. *)
Definition spec_op (xs : list T) (o : op) : option T * list T :=
  match o with
  | PushFront x => (None, x :: xs)
  | PopFront => match xs with [] => (None, []) | x :: xs => (Some x, xs) end
  | Extend iter => (None, xs ++ iter)
  | ForEachMut f => (None, f <$> xs)
  end.

Fixpoint spec (xs : list T) (os : list op) : list (option T) * list T :=
  match os with
  | [] => ([], xs)
  | o :: os => let '(a, xs) := spec_op xs o in let '(answers, xs) := spec xs os in (a :: answers, xs)
  end.

Lemma run_op_owns h l ns fr o :
  owns h l ns fr →
  ∃ a h' l' ns', run_op h l o = Ret (a, h', l') ∧ owns h' l' ns' fr ∧ spec_op ns.*2 o = (a, ns'.*2).
Proof.
  intros Ho. destruct o as [x| |iter|f]; cbn [run_op spec_op].
  - unfold push_front. destruct (push_front_impl h l x) as [[p h'] l'] eqn:Ep.
    pose proof (push_front_owns _ _ _ _ _ _ _ _ Ho Ep). by eauto 10.
  - destruct ns as [|[p x] ns].
    + destruct (pop_front_empty _ _ _ Ho) as [-> _]. by eauto 10.
    + destruct (pop_front_owns _ _ _ _ _ _ Ho) as (l' & -> & Ho'). by eauto 10.
  - destruct (extend_owns h l ns fr iter Ho) as (h' & l' & ms & -> & Ho' & <-). cbn [mbind outcome_bind].
    do 4 eexists. split_and!; [done..|]. by rewrite fmap_app.
  - pose proof (owns_size _ _ _ _ Ho) as Hs. destruct Ho as [Hc Hd Hf].
    destruct (map_chain (S (size h)) f h (first l) ns Hc Hd) as (h' & -> & Hc' & Hag); [lia|]. cbn [mbind outcome_bind].
    do 4 eexists. split_and!; [done| |by rewrite <-(map_nodes_snd f)]. split; [done|by rewrite map_nodes_fst|].
    intros q. rewrite map_nodes_fst, Hf. case_decide; [done|]. by rewrite Hag.
Qed.

Lemma run_owns os h l ns fr :
  owns h l ns fr →
  ∃ answers h' l' ns', run h l os = Ret (answers, h', l') ∧ owns h' l' ns' fr ∧ spec ns.*2 os = (answers, ns'.*2).
Proof.
  revert h l ns. induction os as [|o os IH]; intros h l ns Ho; cbn [run spec]; [by eauto 10|].
  destruct (run_op_owns h l ns fr o Ho) as (a & h1 & l1 & ns1 & -> & Ho1 & ->). cbn [mbind outcome_bind].
  destruct (IH h1 l1 ns1 Ho1) as (answers & h2 & l2 & ns2 & -> & Ho2 & ->). by eauto 10.
Qed.

(** C35. Whatever is done to a new list, it behaves as a list of values: no pointer
    is followed that leads nowhere, [pop_front] gives what a list of values would,
    a loop over the list sees its elements in order, and dropping it frees every
    node it ever made and nothing else. *)
Theorem linked_list_refines h os :
  let '(answers, xs) := spec [] os in
  ∃ h' l', run h ll_new os = Ret (answers, h', l') ∧
    iter_from (S (length xs)) h' (first l') = Ret (Some xs) ∧ drop_from (S (length xs)) h' l' = Ret (Some h).
Proof.
  destruct (run_owns os h ll_new [] h (owns_nil h)) as (answers & h' & l' & ns & Hr & Ho & Hs).
  cbn [fmap list_fmap] in Hs. rewrite Hs. exists h', l'. rewrite length_fmap.
  split_and!; [done|apply iter_chain; [apply Ho|lia]|by apply (drop_owns _ _ _ ns); [|lia]].
Qed.

(** [collect] makes a list of the items in order. *)
Theorem from_iter_collects h xs :
  ∃ h' l, from_iter h xs = Ret (h', l) ∧ iter_from (S (length xs)) h' (first l) = Ret (Some xs).
Proof.
  destruct (extend_owns h ll_new [] h xs (owns_nil h)) as (h' & l & ms & He & Ho & <-). exists h', l.
  split; [done|]. rewrite length_fmap. apply iter_chain; [apply Ho|lia].
Qed.
End linked_list.
